(* ===== verification/_CoqProject ===== *)
-Q . S2P
Prelude.v
CapTypes.v
CapEdges.v
CapQuota.v
CapCnode.v
CapInv.v
CapOps.v
CapDerive.v
CapRevoke.v
CapWalk.v
CapDefer.v
CapSystem.v
CapSim.v
CapSep.v
CapLean.v
CapLeanCnode.v
CapLeanRevoke.v
CapTrace.v
CapClaims.v
LinuxAbi.v
Thread.v
ThreadProofs.v
ThreadClaims.v
FileLock.v
FileLockInv.v
FileLockCoal.v
FileLockOps.v
FileLockSys.v
FileLockClaims.v
KString.v
KStringProofs.v
KStringClaims.v
Futex.v
FutexProofs.v
FutexSys.v
FutexClaims.v
Pmm.v
PmmInv.v
PmmOps.v
PmmBoot.v
PmmSelf.v
PmmSys.v
PmmClaims.v
Kheap.v
KheapInv.v
KheapTake.v
KheapAlloc.v
KheapMain.v
KheapSys.v
KheapClaims.v
KernObj.v
Door.v
DoorProofs.v
DoorOps.v
DoorInv.v
DoorSpec.v
DoorCall.v
DoorSys.v
DoorClaims.v
Notify.v
NotifyInv.v
NotifySpec.v
NotifyWait.v
NotifySys.v
NotifyClaims.v
Vmm.v
VmmTables.v
VmmEntry.v
VmmWalks.v
VmmOps.v
VmmSpace.v
VmmUser.v
VmmAnon.v
VmmFork.v
VmmDestroy.v
VmmSys.v
VmmClaims.v
