(* ===== verification/Prelude.v ===== *)
(** * Verification of the GreenJade microkernel

    GreenJade is an operating system in C around a small kernel
    ([kernel/]).  This library models the parts of the kernel that carry its
    guarantees and proves them correct.  Paths below are relative to the
    repository.

    ** The parts and how they interact

    - The capability system is the kernel's authority.  Every kernel object has
      a header [gj_object_hdr]; a process names objects through the slots of its
      CNode; slots are charged to a hierarchical quota; derivations are kept as
      edges of a static pool so that an object can be revoked everywhere.
      User space reaches it through the native system calls.
    - The scheduler's thread table holds the thread control blocks.  The
      components that block a thread (file locks, futexes, doors,
      notifications) park it on a wait key and wake it by the key.
    - Doors (synchronous calls) and notifications (asynchronous bits) are the
      communication objects: their headers live in the capability system, their
      waiters in the thread table.
    - The page allocator owns physical memory; the kernel heap takes its pages
      from it, and so does virtual memory: tables and user pages.
    - Virtual memory keeps the address spaces.  A new one shares all tables of
      the kernel's template and gets private copies of those it changes; fork
      shares the frames of writable pages, and the page fault of a store ends
      the sharing.
    - The string library works on raw memory and is used everywhere.

    ** Files and sources

    - [Prelude]: machine integers, the state-and-failure monad [prog] with its
      total-correctness predicate [wp], counters, tactics, list lemmas.
    - Capabilities, [kernel/cap/cnode.c], [kernel/cap/revoke.c],
      [kernel/include/gj/cap.h], [error.h]:
      [CapTypes] (data and memory), [CapEdges] (edge pool, chains),
      [CapQuota] (ledger), [CapCnode] (operations), [CapRevoke] (revocation),
      [CapLean] (the self-tests the operations run).  [CapInv] has the
      invariant; [CapOps], [CapDerive], [CapRevoke], [CapWalk], [CapDefer] the
      specification of each operation; [CapSystem] (with the capability calls of
      [kernel/syscall/native.c]) and [CapSim] the abstract specification and the
      simulation;
      [CapTrace] runs; [CapSep], [CapLeanCnode], [CapLeanRevoke] the self-tests;
      [CapClaims] the properties.
    - Threads, [kernel/sched/thread.c]: [Thread], [ThreadProofs],
      [ThreadClaims].
    - Byte-range locks, [kernel/fs/file_lock.c]: [FileLock], [FileLockInv],
      [FileLockCoal], [FileLockOps], [FileLockSys], [FileLockClaims]; [LinuxAbi] has the error numbers of
      [kernel/include/gj/linux_abi.h].
    - Strings, [kernel/lib/string.c]: [KString], [KStringProofs],
      [KStringClaims].
    - Futexes, [kernel/sync/futex.c]: [Futex], [FutexProofs], [FutexSys],
      [FutexClaims].
    - Pages, [kernel/mm/pmm.c]: [Pmm], [PmmInv], [PmmOps], [PmmBoot], [PmmSelf],
      [PmmSys], [PmmClaims].
    - Heap, [kernel/mm/kheap.c]: [Kheap], [KheapInv], [KheapTake], [KheapAlloc],
      [KheapMain], [KheapSys], [KheapClaims].
    - Virtual memory, [kernel/mm/vmm.c] and the copy-on-write branch of
      [kernel/arch/x86_64/trap.c]: [Vmm] (the code and the processor's walk),
      [VmmTables], [VmmEntry], [VmmWalks] (the tables and the walks), [VmmOps]
      (page operations and reference counts), [VmmSpace], [VmmUser] (address
      spaces over one memory, and what processes see), [VmmAnon], [VmmFork],
      [VmmDestroy] (the calls), [VmmSys] (the machine without sharing and the
      simulation), [VmmClaims].
    - Doors, [kernel/ipc/door.c]: [Door], [DoorProofs], [DoorOps], [DoorInv],
      [DoorSpec], [DoorCall], [DoorSys], [DoorClaims].
    - Notifications, [kernel/ipc/notify.c]: [Notify], [NotifyInv],
      [NotifySpec], [NotifyWait], [NotifySys], [NotifyClaims].
    - [KernObj] is shared by the last two: the capability system and the thread
      table as parts of a larger memory.

    The interfaces between them are classes.  [Thread.HasThreads] and
    [KernObj.HasCaps] are memories that contain the thread table or the
    capability system, so a call into them is the same definition everywhere.
    [Kheap.PageSource] is what the heap asks of the page allocator; the heap is
    proved against its laws and [KheapClaims.pmm_source] shows that the page
    allocator keeps them.  [CapEdges.CapHook] and [CapWalk.RevokeHook] say what
    the inventory functions may do that every capability operation calls; the
    operations are proved for any such hook, and [CapLeanCnode] and
    [CapLeanRevoke] prove it of the functions the code has.

    ** How the code is modelled

    A C function is a [prog M A]: it takes the memory of its component and the
    file's counters and gives a result and the new state, or [None] where the C
    code would follow a pointer that is not allocated.  Out-parameters are part
    of the result.  Integers are [Z] with the wrap-around of their type written
    out.  Object and CNode pointers are identifiers into finite maps; where
    addresses matter (strings, heap headers, the links inside free pages, page
    tables, user words of futexes) memory is a map from addresses to bytes or
    words.
    [kprintf] and the printed inventories are left out; the statistics counters
    are kept ([tick], [tick64]).  Spin locks have no state of their own, since
    each call holds them from start to end; the CNodes' try-lock is modelled,
    because operations fail with it.

    Code that waits is cut where the thread gives up the processor: a blocking
    call is a first part that ends parked and a turn that runs when the thread
    is scheduled again.  The systems [CapSystem], [FileLockSys], [FutexSys],
    [DoorSys], [NotifySys], [PmmSys], [KheapSys] and [VmmSys] run these
    pieces in any order; interrupts inside a wait of [Notify] and stores of other
    processors inside a wait of [Futex] are explicit lists.  [wp c Q m] says
    that [c] started in memory [m] with any counters completes, without fault,
    in a result and memory that satisfy [Q].

    ** What is proved

    - Capabilities: an invariant of pool, ledger, slots and chains holds after
      any calls; every call with valid pointers completes; every call is a step
      of a specification that knows only valid handles and live objects; no
      sequence of calls amplifies authority, brings a revoked object back, or
      lets a handle denote something else; the exact outcome of each operation
      on every return path; revocation makes progress and ends with no slot on
      the object; no account exceeds its limit.
    - Threads: wakes are exact, the choice of the next thread is the most urgent
      one, and an eligible thread is chosen within as many picks as there are
      threads.
    - Byte-range locks: locks of different owners never conflict; requests
      update the map of locked bytes as POSIX says; probing, releasing, the
      deadlock search and blocking requests.
    - Strings: [memmove] against the snapshot semantics, bounds of [strlcpy] and
      [strlcat], comparison and search.
    - Futexes: no lost wake, exact wakes, the outcome of every wait.
    - Pages and heap: free and owned pages (bytes) are always a partition of
      what is managed, whatever the clients do with what they own; what each
      allocation returns.
    - Virtual memory: every run of address space creation, mapping, unmapping,
      protection, loads and stores, fork and exit has the results of a machine
      in which every process owns its pages and fork copies them; what one
      process does is invisible to the others; shared frames are never writable
      and their reference counts are exact; exit returns every page.  The calls
      trust their callers ([VmmSys.ev_ok] has the duties, among them that a
      process names only pages of its own); [vmm_duties_needed] shows what
      happens otherwise.
    - Doors: every event follows a specification with at most one flight per
      door; an answered or abandoned client is awake; a call is a round trip.
    - Notifications: every event follows a specification on sets of bits; no
      wake is lost while at most eight threads wait at an object; no bit is
      lost.
    Behaviours that a caller may not expect are shown on concrete runs next to
    the properties ([late_reply_misdelivered], [dead_server_keeps_door],
    [dead_door_leaves_a_caller], [crowd_loses_a_wake] and others).

    ** Bounds and fuel

    Loops over fixed tables are recursion on the table.  Where the C loop
    follows links, the definition carries fuel and the theorems prove that the
    fuel is enough under the invariant: [CDT_FUEL] (the pool size plus one: a
    chain visits an edge once), the ledger's depth bound and the coalescing
    passes (32) and the robust list walk (64), which are the code's own limits,
    [str_fuel] and [walk_fuel] (one more than the number of mapped bytes: the
    code would have faulted before), the pages of a range in [Pmm].
    [Door.CLAIM_FUEL] is 2 because a turn of the claim loop either claims, parks
    or fails after at most one retry.  Drain loops that wake eight threads per
    round use the code's bound of four rounds, which covers the 32 threads.

    ** What is not modelled

    Not yet: the self-checks that doors, notifications and strings run once at
    start-up and [notify_msix_init]; the other native system calls; register
    frames, stacks and address spaces of threads and process teardown.  Next in
    the plan: [kernel/mm/user_copy.c], the SCSI midlayer and the cooperative
    scheduler of the shared core.  In virtual memory: other processors' TLBs (a
    flush is recorded, but the walk always reads the tables), the direct map, the
    device windows and the printed inventory.  Left out: demand paging and memory
    objects, loaders, file systems, the network stack, the Linux personality and drivers
    (hardware, timers and large tables of emulation glue), boot code, and the
    programs and generated stubs above the kernel interface. *)
From stdpp Require Import base gmap list strings fin_maps.
From Stdlib Require Import ZArith Lia.

(** ** Machine integers *)

Declare Scope gj_scope.
Delimit Scope gj_scope with gj.
Open Scope Z_scope.

(** Wrap-around of the C unsigned types. *)
Definition u16_wrap (z : Z) : Z := z mod 2 ^ 16.
Definition u32_wrap (z : Z) : Z := z mod 2 ^ 32.
Definition u64_wrap (z : Z) : Z := z mod 2 ^ 64.

Definition U32_MAX : Z := 4294967295.

(** [x] fits an unsigned C integer of [w] bits. *)
Definition in_u (w x : Z) : Prop := 0 <= x < 2 ^ w.

(** ** State, failure and telemetry

    The kernel code threads a shared memory and bumps file-local observability
    counters as it goes.  [kst M] is the pair of the memory that the component
    owns and of the named counters.  A computation returns [None] exactly when
    the C program would dereference a pointer that is not allocated. *)
Record kst (M : Type) : Type := KSt { k_mem : M; k_tel : gmap string Z }.
Arguments KSt {M} _ _.
Arguments k_mem {M} _.
Arguments k_tel {M} _.

Definition prog (M A : Type) : Type := kst M -> option (A * kst M).

Definition pret {M A} (a : A) : prog M A := fun s => Some (a, s).

Definition pbind {M A B} (c : prog M A) (k : A -> prog M B) : prog M B :=
  fun s => match c s with
           | Some (a, s') => k a s'
           | None => None
           end.

(** Dereference of an unallocated pointer. *)
Definition pfault {M A} : prog M A := fun _ => None.

Definition pget {M} : prog M M := fun s => Some (k_mem s, s).

Definition pput {M} (m : M) : prog M unit := fun s => Some (tt, KSt m (k_tel s)).

Definition ptel {M} : prog M (gmap string Z) := fun s => Some (k_tel s, s).

Definition ptel_put {M} (t : gmap string Z) : prog M unit :=
  fun s => Some (tt, KSt (k_mem s) t).

Notation "x <- c ;; k" := (pbind c (fun x => k))
  (at level 100, c at next level, right associativity) : gj_scope.
Notation "c ;;; k" := (pbind c (fun _ => k))
  (at level 100, right associativity) : gj_scope.
Open Scope gj_scope.

(** Update of the component's memory. *)
Definition pmod {M} (f : M -> M) : prog M unit := m <- pget ;; pput (f m).

(** Value of a counter; every C counter starts at zero. *)
Definition tel_val (t : gmap string Z) (c : string) : Z := default 0 (t !! c).

(** A saturating [u32] counter bump: bump unless already [0xffffffffu]. *)
Definition tick {M} (c : string) : prog M unit :=
  t <- ptel ;;
  (if tel_val t c <? U32_MAX then ptel_put (<[c := tel_val t c + 1]> t)
   else pret tt).

(** A wrapping [u32] counter bump, the plain C increment. *)
Definition tick_wrap {M} (c : string) : prog M unit :=
  t <- ptel ;; ptel_put (<[c := u32_wrap (tel_val t c + 1)]> t).

(** A wrapping [u64] counter bump. *)
Definition tick64 {M} (c : string) : prog M unit :=
  t <- ptel ;; ptel_put (<[c := u64_wrap (tel_val t c + 1)]> t).

(** Wrapping [u32] addition to a statistics variable. *)
Definition tel_add {M} (c : string) (n : Z) : prog M unit :=
  t <- ptel ;; ptel_put (<[c := u32_wrap (tel_val t c + n)]> t).

(** Plain assignment of a statistics variable. *)
Definition tel_set {M} (c : string) (v : Z) : prog M unit :=
  t <- ptel ;; ptel_put (<[c := v]> t).

(** Saturating addition to a statistics variable: add [n] when the variable is
    below [0xffffffffu - n], else pin it at [0xffffffffu]. *)
Definition tel_add_sat {M} (c : string) (n : Z) : prog M unit :=
  t <- ptel ;;
  tel_set c (if tel_val t c <? U32_MAX - n then tel_val t c + n else U32_MAX).

(** Raise a peak statistics variable to [v] when [v] is larger. *)
Definition tel_peak {M} (c : string) (v : Z) : prog M unit :=
  t <- ptel ;; (if tel_val t c <? v then tel_set c v else pret tt).

(** Or bits into a statistics variable. *)
Definition tel_or {M} (c : string) (v : Z) : prog M unit :=
  t <- ptel ;; tel_set c (Z.lor (tel_val t c) v).

(** The saturating [u32] increment of the [*_soft_inc] helpers. *)
Definition sat32_inc (x : Z) : Z := if x <? U32_MAX then x + 1 else x.

(** ** Total correctness of a computation

    [wp c Q m]: from memory [m] and any counters, [c] returns (it never
    dereferences an unallocated pointer), and its result and final memory
    satisfy [Q]. *)
Definition wp {M A} (c : prog M A) (Q : A -> M -> Prop) (m : M) : Prop :=
  forall t, exists a m' t', c (KSt m t) = Some (a, KSt m' t') /\ Q a m'.

Section WpRules.
Context {M : Type}.

Lemma wp_ret {A} (a : A) Q (m : M) : Q a m -> wp (pret a) Q m.
Proof. intros H t. by exists a, m, t. Qed.

Lemma wp_bind {A B} (c : prog M A) (k : A -> prog M B) Q m :
  wp c (fun a m' => wp (k a) Q m') m -> wp (pbind c k) Q m.
Proof.
  intros H t. destruct (H t) as (a & m1 & t1 & E & H1).
  destruct (H1 t1) as (b & m2 & t2 & E2 & H2).
  exists b, m2, t2. split; [|done]. unfold pbind. by rewrite E.
Qed.

Lemma wp_assoc {A B C} (c : prog M A) (k : A -> prog M B) (k' : B -> prog M C) Q m :
  wp (pbind (pbind c k) k') Q m -> wp (pbind c (fun a => pbind (k a) k')) Q m.
Proof.
  intros H t. destruct (H t) as (b & m' & t' & E & HQ). exists b, m', t'. split; [|done]. unfold pbind in *.
  by destruct (c (KSt m t)) as [[a s]|].
Qed.

Lemma wp_mono {A} (c : prog M A) (Q R : A -> M -> Prop) m :
  wp c Q m -> (forall a m', Q a m' -> R a m') -> wp c R m.
Proof.
  intros H HQR t. destruct (H t) as (a & m' & t' & E & HQ).
  exists a, m', t'. auto.
Qed.

(** Two specifications of one run hold of the same result. *)
Lemma wp_conj {A} (c : prog M A) (Q R : A -> M -> Prop) m :
  wp c Q m -> wp c R m -> wp c (fun a m' => Q a m' /\ R a m') m.
Proof.
  intros H1 H2 t. destruct (H1 t) as (a & m' & t' & E & HQ).
  destruct (H2 t) as (a2 & m2 & t2 & E2 & HR).
  rewrite E in E2. injection E2 as <- <- <-. exists a, m', t'. auto.
Qed.

Lemma wp_get Q (m : M) : Q m m -> wp pget Q m.
Proof. intros H t. by exists m, m, t. Qed.

Lemma wp_put Q (m m' : M) : Q tt m' -> wp (pput m') Q m.
Proof. intros H t. by exists tt, m', t. Qed.

Lemma wp_pmod (f : M -> M) Q (m : M) : Q tt (f m) -> wp (pmod f) Q m.
Proof. intros H. apply wp_bind, wp_get, wp_put, H. Qed.

Lemma wp_tel Q (m : M) : (forall t, Q t m) -> wp ptel Q m.
Proof. intros H t. exists t, m, t. auto. Qed.

Lemma wp_tel_put t Q (m : M) : Q tt m -> wp (ptel_put t) Q m.
Proof. intros H t0. by exists tt, m, t. Qed.

Lemma wp_tick c Q (m : M) : Q tt m -> wp (tick c) Q m.
Proof.
  intros H. apply wp_bind, wp_tel. intros t. case_match.
  - by apply wp_tel_put.
  - by apply wp_ret.
Qed.

Lemma wp_tick_wrap c Q (m : M) : Q tt m -> wp (tick_wrap c) Q m.
Proof. intros H. apply wp_bind, wp_tel. intros t. by apply wp_tel_put. Qed.

Lemma wp_tick64 c Q (m : M) : Q tt m -> wp (tick64 c) Q m.
Proof. intros H. apply wp_bind, wp_tel. intros t. by apply wp_tel_put. Qed.

Lemma wp_tel_add c v Q (m : M) : Q tt m -> wp (tel_add c v) Q m.
Proof. intros H. apply wp_bind, wp_tel. intros t. by apply wp_tel_put. Qed.

Lemma wp_tel_set c v Q (m : M) : Q tt m -> wp (tel_set c v) Q m.
Proof. intros H. apply wp_bind, wp_tel. intros t. by apply wp_tel_put. Qed.

Lemma wp_tel_add_sat c v Q (m : M) : Q tt m -> wp (tel_add_sat c v) Q m.
Proof. intros H. apply wp_bind, wp_tel. intros t. by apply wp_tel_set. Qed.

Lemma wp_tel_or c v Q (m : M) : Q tt m -> wp (tel_or c v) Q m.
Proof. intros H. apply wp_bind, wp_tel. intros t. by apply wp_tel_set. Qed.

Lemma wp_tel_peak c v Q (m : M) : Q tt m -> wp (tel_peak c v) Q m.
Proof.
  intros H. apply wp_bind, wp_tel. intros t. case_match.
  - by apply wp_tel_set.
  - by apply wp_ret.
Qed.

(** A run that is known, read back from its specification. *)
Lemma wp_run {A} (c : prog M A) Q m t a m' t' :
  wp c Q m -> c (KSt m t) = Some (a, KSt m' t') -> Q a m'.
Proof.
  intros H E. destruct (H t) as (a1 & m1 & t1 & E1 & HQ).
  rewrite E in E1. by injection E1 as <- <- <-.
Qed.

End WpRules.

(** One symbolic execution step of the monadic code; components extend
    [wstep_hook] with their loads and stores. *)
Ltac wstep_hook := fail.
Ltac wstep :=
  lazymatch goal with
  | |- wp (pbind _ _) _ _ => apply wp_bind
  | |- wp (pret _) _ _ => apply wp_ret
  | |- wp (tick _) _ _ => apply wp_tick
  | |- wp (tick_wrap _) _ _ => apply wp_tick_wrap
  | |- wp (tick64 _) _ _ => apply wp_tick64
  | |- wp (tel_add _ _) _ _ => apply wp_tel_add
  | |- wp (tel_set _ _) _ _ => apply wp_tel_set
  | |- wp (tel_or _ _) _ _ => apply wp_tel_or
  | |- wp (tel_add_sat _ _) _ _ => apply wp_tel_add_sat
  | |- wp (tel_peak _ _) _ _ => apply wp_tel_peak
  | |- wp pget _ _ => apply wp_get
  | |- wp (pput _) _ _ => apply wp_put
  | |- wp (pmod _) _ _ => apply wp_pmod
  | |- wp (let _ := _ in _) _ _ => idtac
  | |- wp _ _ _ => wstep_hook
  end;
  cbv beta zeta.
Ltac wsteps := repeat wstep.

(** ** Maps *)
Lemma alter_Some_insert {K A} `{Countable K} (f : A -> A) (m : gmap K A) k v :
  m !! k = Some v -> alter f k m = <[k := f v]> m.
Proof.
  intros E. apply map_eq. intros i. destruct (decide (k = i)) as [->|Hne].
  - by rewrite lookup_alter_eq, lookup_insert_eq, E.
  - by rewrite lookup_alter_ne, lookup_insert_ne.
Qed.

(** Sum of a measure over the values of a finite map. *)
Definition map_sum {K A} `{Countable K} (f : A -> nat) (m : gmap K A) : nat :=
  map_fold (fun _ a n => (f a + n)%nat) 0%nat m.

Section MapSum.
Context {K A : Type} `{Countable K} (f : A -> nat).
Implicit Types (m : gmap K A).

Lemma map_sum_new m k a : m !! k = None -> map_sum f (<[k := a]> m) = (f a + map_sum f m)%nat.
Proof. intros E. unfold map_sum. rewrite map_fold_insert_L; [done| |done]. intros; lia. Qed.

Lemma map_sum_split m k b : m !! k = Some b -> map_sum f m = (f b + map_sum f (delete k m))%nat.
Proof.
  intros E. rewrite <-(insert_id m k b E) at 1. rewrite <-insert_delete_eq.
  apply map_sum_new. apply lookup_delete_eq.
Qed.

Lemma map_sum_update m k a b :
  m !! k = Some b -> (map_sum f (<[k := a]> m) + f b = map_sum f m + f a)%nat.
Proof.
  intros E. rewrite (map_sum_split m k b E).
  rewrite <-insert_delete_eq, map_sum_new by apply lookup_delete_eq. lia.
Qed.

Lemma map_sum_le m k b : m !! k = Some b -> (f b <= map_sum f m)%nat.
Proof. intros E. rewrite (map_sum_split m k b E). lia. Qed.
End MapSum.

(** Counting the elements of a list that satisfy a boolean test. *)
Definition countb {A} (p : A -> bool) (l : list A) : nat := length (filter (fun x => p x = true) l).

Lemma countb_update {A} (p : A -> bool) (l : list A) i x y :
  l !! i = Some y ->
  (countb p (<[i := x]> l) + Nat.b2n (p y) = countb p l + Nat.b2n (p x))%nat.
Proof.
  intros E. unfold countb. rewrite insert_take_drop by (by apply lookup_lt_Some in E).
  rewrite <-(take_drop_middle l i y E) at 3.
  rewrite !filter_app, !length_app, !filter_cons.
  destruct (p x) eqn:Ex, (p y) eqn:Ey; simpl; lia.
Qed.

Lemma countb_pos {A} (p : A -> bool) (l : list A) i x :
  l !! i = Some x -> p x = true -> (0 < countb p l)%nat.
Proof.
  intros E Hp. unfold countb. destruct (filter _ l) eqn:F; simpl; [|lia].
  apply list_elem_of_lookup_2 in E.
  assert (x ∈ filter (fun x => p x = true) l) as Hin by (by apply list_elem_of_filter).
  rewrite F in Hin. set_solver.
Qed.

Lemma countb_zero {A} (p : A -> bool) (l : list A) :
  (forall i x, l !! i = Some x -> p x = false) -> countb p l = 0%nat.
Proof.
  intros H. destruct (countb p l) eqn:E; [done|]. unfold countb in E.
  destruct (filter (fun x => p x = true) l) as [|x l'] eqn:F; [done|].
  assert (x ∈ filter (fun x => p x = true) l) as Hin by (rewrite F; set_solver).
  apply list_elem_of_filter in Hin as [Hx Hin]. apply list_elem_of_lookup in Hin as [i Hi].
  rewrite (H i x Hi) in Hx. done.
Qed.
