(* ===== verification/CapTypes.v ===== *)
(** Data model of the capability subsystem.

    The status codes of [kernel/include/gj/error.h], the tables, records and
    pure inline helpers of [kernel/include/gj/cap.h], and the memory the two
    files [kernel/cap/cnode.c] and [kernel/cap/revoke.c] share: object headers,
    CNodes with their slot arrays, quota accounts, the static CDT edge pool and
    the static deferred-revoke queue.  Pointers are [option positive] (objects,
    CNodes, quota accounts) or [option nat] (an index of the edge pool), with
    [None] for NULL; loads and stores of an unallocated pointer fault. *)
From stdpp Require Import base gmap list strings fin_maps.
From Stdlib Require Import ZArith Lia.
From S2P Require Import Prelude.

(** ** Status codes ([gj_status_t]) *)
Inductive gj_status : Type :=
| GJ_OK
| GJ_ERR_INVAL
| GJ_ERR_NOMEM
| GJ_ERR_NOENT
| GJ_ERR_PERM
| GJ_ERR_AGAIN
| GJ_ERR_NOSUPPORT
| GJ_ERR_BUSY
| GJ_ERR_FAULT
| GJ_ERR_DEAD
| GJ_ERR_STALE_CAP
| GJ_ERR_QUOTA
| GJ_ERR_TIMEOUT
| GJ_ERR_PEER_DEAD
| GJ_ERR_REVOKED
| GJ_ERR_NODEV
| GJ_ERR_IO.

#[export] Instance gj_status_eq_dec : EqDecision gj_status.
Proof. solve_decision. Defined.

(** The enumerator's value. *)
Definition gj_status_code (st : gj_status) : Z :=
  match st with
  | GJ_OK => 0
  | GJ_ERR_INVAL => -1
  | GJ_ERR_NOMEM => -2
  | GJ_ERR_NOENT => -3
  | GJ_ERR_PERM => -4
  | GJ_ERR_AGAIN => -5
  | GJ_ERR_NOSUPPORT => -6
  | GJ_ERR_BUSY => -7
  | GJ_ERR_FAULT => -8
  | GJ_ERR_DEAD => -9
  | GJ_ERR_STALE_CAP => -10
  | GJ_ERR_QUOTA => -11
  | GJ_ERR_TIMEOUT => -12
  | GJ_ERR_PEER_DEAD => -13
  | GJ_ERR_REVOKED => -14
  | GJ_ERR_NODEV => -15
  | GJ_ERR_IO => -16
  end.

(** [st != GJ_OK] as the code tests it. *)
Definition is_ok (st : gj_status) : bool := bool_decide (st = GJ_OK).

(** ** Object states, capability types and rights *)
Definition GJ_OBJ_LIVE : Z := 0.
Definition GJ_OBJ_REVOKING : Z := 1.
Definition GJ_OBJ_DEAD : Z := 2.

Definition GJ_CAP_INVALID : Z := 0.
Definition GJ_CAP_CNODE : Z := 1.
Definition GJ_CAP_THREAD : Z := 2.
Definition GJ_CAP_SPACE : Z := 3.
Definition GJ_CAP_PROCESS : Z := 4.
Definition GJ_CAP_ENDPOINT : Z := 5.
Definition GJ_CAP_NOTIFICATION : Z := 6.
Definition GJ_CAP_REPLY : Z := 7.
Definition GJ_CAP_IRQ : Z := 8.
Definition GJ_CAP_FRAME : Z := 9.
Definition GJ_CAP_UNTYPED : Z := 10.
Definition GJ_CAP_PAGE_TABLE : Z := 11.
Definition GJ_CAP_SCHED_CONTEXT : Z := 12.
Definition GJ_CAP_MEMORY_OBJECT : Z := 13.
Definition GJ_CAP_ROOT_META : Z := 14.

Definition GJ_RIGHT_READ : Z := Z.shiftl 1 0.
Definition GJ_RIGHT_WRITE : Z := Z.shiftl 1 1.
Definition GJ_RIGHT_GRANT : Z := Z.shiftl 1 2.
Definition GJ_RIGHT_MINT : Z := Z.shiftl 1 3.
Definition GJ_RIGHT_DESTROY : Z := Z.shiftl 1 4.
Definition GJ_RIGHT_MAP : Z := Z.shiftl 1 5.
Definition GJ_RIGHT_IDENTIFY : Z := Z.shiftl 1 6.
Definition GJ_RIGHT_WAIT : Z := Z.shiftl 1 7.
Definition GJ_RIGHT_VM : Z := Z.shiftl 1 8.
Definition GJ_RIGHT_SPAWN : Z := Z.shiftl 1 9.
Definition GJ_RIGHT_INSPECT : Z := Z.shiftl 1 10.
Definition GJ_RIGHT_JIT : Z := Z.shiftl 1 11.

(** Union of right masks. *)
Definition rights_of (l : list Z) : Z := foldr Z.lor 0 l.

Definition GJ_RIGHTS_DDI_MMIO_HOST : Z :=
  rights_of [GJ_RIGHT_READ; GJ_RIGHT_WRITE; GJ_RIGHT_MAP; GJ_RIGHT_IDENTIFY].
Definition GJ_RIGHTS_DDI_IRQ_HOST : Z :=
  rights_of [GJ_RIGHT_READ; GJ_RIGHT_WAIT; GJ_RIGHT_IDENTIFY].
Definition GJ_RIGHTS_DDI_NOTIF_HOST : Z :=
  rights_of [GJ_RIGHT_READ; GJ_RIGHT_WAIT; GJ_RIGHT_IDENTIFY].
Definition GJ_RIGHTS_DDI_DMA_HOST : Z :=
  rights_of [GJ_RIGHT_READ; GJ_RIGHT_WRITE; GJ_RIGHT_MAP; GJ_RIGHT_IDENTIFY].
Definition GJ_RIGHTS_DDI_UNTYPED_DEVMGR : Z :=
  rights_of [GJ_RIGHT_MINT; GJ_RIGHT_IDENTIFY; GJ_RIGHT_DESTROY; GJ_RIGHT_GRANT].

Definition GJ_CAP_DDI_MINT_ROLE_NONE : Z := 0.
Definition GJ_CAP_DDI_MINT_ROLE_MMIO : Z := 1.
Definition GJ_CAP_DDI_MINT_ROLE_IRQ : Z := 2.
Definition GJ_CAP_DDI_MINT_ROLE_NOTIF : Z := 3.
Definition GJ_CAP_DDI_MINT_ROLE_UNTYPED : Z := 4.
Definition GJ_CAP_DDI_MINT_ROLE_DMA_OPEN : Z := 5.

Definition GJ_CAP_UDX_HOST_PKG_MMIO : Z := Z.shiftl 1 0.
Definition GJ_CAP_UDX_HOST_PKG_IRQ : Z := Z.shiftl 1 1.
Definition GJ_CAP_UDX_HOST_PKG_NOTIF : Z := Z.shiftl 1 2.
Definition GJ_CAP_UDX_HOST_PKG_DMA : Z := Z.shiftl 1 3.
Definition GJ_CAP_UDX_HOST_PKG_FULL : Z :=
  rights_of [GJ_CAP_UDX_HOST_PKG_MMIO; GJ_CAP_UDX_HOST_PKG_IRQ;
             GJ_CAP_UDX_HOST_PKG_NOTIF; GJ_CAP_UDX_HOST_PKG_DMA].
Definition GJ_CAP_UDX_HOST_PKG_TYPED : Z :=
  rights_of [GJ_CAP_UDX_HOST_PKG_MMIO; GJ_CAP_UDX_HOST_PKG_IRQ;
             GJ_CAP_UDX_HOST_PKG_NOTIF].

Definition GJ_CAP_SLOT_ROOT_META : Z := 0.
Definition GJ_CDT_EDGE_POOL : nat := 256.
Definition GJ_CAP_QUOTA_DEPTH_MAX : nat := 8.
Definition GJ_REVOKE_Q_MAX : nat := 64.
Definition GJ_REVOKE_R2_SOFT_RETRY_MAX : nat := 3.

(** ** Pure inline helpers of cap.h *)
Definition gj_cap_type_is_ddi (u16Type : Z) : bool :=
  (u16Type =? GJ_CAP_IRQ) || (u16Type =? GJ_CAP_FRAME)
  || (u16Type =? GJ_CAP_UNTYPED) || (u16Type =? GJ_CAP_NOTIFICATION).

Definition gj_cap_type_is_udx_host (u16Type : Z) : bool :=
  gj_cap_type_is_ddi u16Type.

Definition gj_cap_rights_ddi_host_default (u16Type : Z) : Z :=
  if u16Type =? GJ_CAP_FRAME then GJ_RIGHTS_DDI_MMIO_HOST
  else if u16Type =? GJ_CAP_IRQ then GJ_RIGHTS_DDI_IRQ_HOST
  else if u16Type =? GJ_CAP_NOTIFICATION then GJ_RIGHTS_DDI_NOTIF_HOST
  else if u16Type =? GJ_CAP_UNTYPED then GJ_RIGHTS_DDI_UNTYPED_DEVMGR
  else 0.

Definition gj_cap_ddi_mint_role (u16Type : Z) : Z :=
  if u16Type =? GJ_CAP_FRAME then GJ_CAP_DDI_MINT_ROLE_MMIO
  else if u16Type =? GJ_CAP_IRQ then GJ_CAP_DDI_MINT_ROLE_IRQ
  else if u16Type =? GJ_CAP_NOTIFICATION then GJ_CAP_DDI_MINT_ROLE_NOTIF
  else if u16Type =? GJ_CAP_UNTYPED then GJ_CAP_DDI_MINT_ROLE_UNTYPED
  else GJ_CAP_DDI_MINT_ROLE_NONE.

(** [(u16Want & (u16)(~u16Have)) == 0] *)
Definition gj_cap_rights_is_subset (u16Have u16Want : Z) : bool :=
  Z.land u16Want (u16_wrap (Z.lnot u16Have)) =? 0.

Definition gj_cap_rights_ddi_host_subset_ok (u16Type u16Rights : Z) : bool :=
  if u16Rights =? 0 then false
  else
    let u16Def := gj_cap_rights_ddi_host_default u16Type in
    if u16Def =? 0 then false else gj_cap_rights_is_subset u16Def u16Rights.

Definition gj_cap_rights_ddi_dma_host_default : Z := GJ_RIGHTS_DDI_DMA_HOST.

Definition gj_cap_rights_ddi_dma_host_subset_ok (u16Rights : Z) : bool :=
  if u16Rights =? 0 then false
  else gj_cap_rights_is_subset gj_cap_rights_ddi_dma_host_default u16Rights.

Definition gj_cap_udx_host_pkg_bit_for_type (u16Type : Z) : Z :=
  if u16Type =? GJ_CAP_FRAME then GJ_CAP_UDX_HOST_PKG_MMIO
  else if u16Type =? GJ_CAP_IRQ then GJ_CAP_UDX_HOST_PKG_IRQ
  else if u16Type =? GJ_CAP_NOTIFICATION then GJ_CAP_UDX_HOST_PKG_NOTIF
  else 0.

(** ** Records *)

(** Scheme A handle. *)
Record gj_cap_ref : Type := CapRef { ref_u64Slot : Z; ref_u32SlotGen : Z }.

#[export] Instance gj_cap_ref_eq_dec : EqDecision gj_cap_ref.
Proof. solve_decision. Defined.

Definition gj_cap_ref_make (u64Slot u32SlotGen : Z) : gj_cap_ref :=
  CapRef u64Slot u32SlotGen.
Definition gj_cap_ref_null : gj_cap_ref := gj_cap_ref_make 0 0.
Definition gj_cap_ref_is_null (r : gj_cap_ref) : bool := ref_u32SlotGen r =? 0.

Abbreviation objp := positive.
Abbreviation cnp := positive.
Abbreviation quotap := positive.
Abbreviation edgep := nat.

Record gj_cap_slot : Type := CapSlot {
  slot_u16Type : Z;
  slot_u16Rights : Z;
  slot_u32Gen : Z;
  slot_u32ObjGen : Z;
  slot_pObj : option objp }.

#[export] Instance gj_cap_slot_eq_dec : EqDecision gj_cap_slot.
Proof. solve_decision. Defined.

Record gj_obj_hdr : Type := ObjHdr {
  hdr_u32State : Z;
  hdr_u32Gen : Z;
  hdr_u32Ref : Z;
  hdr_u32Pin : Z;
  hdr_u32SlotsLeft : Z;
  hdr_pCdtHead : option edgep }.

Record gj_cdt_edge : Type := CdtEdge {
  edge_pNext : option edgep;
  edge_pCnode : option cnp;
  edge_u64Slot : Z }.

(** [cn_hdr] is the object pointer of the embedded header [&pCnode->hdr]. *)
Record gj_cnode : Type := CNode {
  cn_hdr : objp;
  cn_cSlots : Z;
  cn_pSlots : option (list gj_cap_slot);
  cn_pQuotaAccount : option quotap;
  cn_u32SoftLock : Z;
  cn_u32PadLock : Z }.

Record gj_cap_quota : Type := CapQuota {
  q_u32Limit : Z;
  q_u32Used : Z;
  q_u32Exhaust : Z;
  q_u32HighWater : Z;
  q_u32ChargeOk : Z;
  q_u32RefundOk : Z;
  q_pParent : option quotap }.

(** Result of a resolve: [res_pSlot] is the slot's index in the CNode. *)
Record gj_cap_resolved : Type := CapResolved {
  res_pSlot : Z;
  res_pObj : objp;
  res_u16Type : Z;
  res_u16Rights : Z }.

Record gj_revoke_qent : Type := RevokeQent {
  qe_pObj : option objp;
  qe_u8Active : bool }.

(** ** The shared memory *)
Record cap_mem : Type := CapMem {
  m_objs : gmap objp gj_obj_hdr;
  m_cns : gmap cnp gj_cnode;
  m_quotas : gmap quotap gj_cap_quota;
  m_pool : list gj_cdt_edge;         (* g_aCdtPool *)
  m_used : list bool;                (* g_aCdtUsed *)
  m_pool_used : Z;                   (* g_u32CdtPoolUsed *)
  m_rq : list gj_revoke_qent;        (* g_aRevokeQ *)
  m_rqlen : Z;                       (* g_u32RevokeQLen *)
  m_rqcur : Z;                       (* g_u32RevokeQCursor *)
  m_inv_logged : bool;               (* g_u8CdtSoftInvLogged *)
  m_lean_once : bool;                (* g_u8CdtSoftLeanOnce *)
  m_lean_busy : bool }.              (* g_u8CdtSoftLeanBusy *)

Definition set_objs (f : gmap objp gj_obj_hdr -> gmap objp gj_obj_hdr) (m : cap_mem) : cap_mem :=
  CapMem (f (m_objs m)) (m_cns m) (m_quotas m) (m_pool m) (m_used m) (m_pool_used m)
    (m_rq m) (m_rqlen m) (m_rqcur m) (m_inv_logged m) (m_lean_once m) (m_lean_busy m).
Definition set_cns (f : gmap cnp gj_cnode -> gmap cnp gj_cnode) (m : cap_mem) : cap_mem :=
  CapMem (m_objs m) (f (m_cns m)) (m_quotas m) (m_pool m) (m_used m) (m_pool_used m)
    (m_rq m) (m_rqlen m) (m_rqcur m) (m_inv_logged m) (m_lean_once m) (m_lean_busy m).
Definition set_quotas (f : gmap quotap gj_cap_quota -> gmap quotap gj_cap_quota) (m : cap_mem) : cap_mem :=
  CapMem (m_objs m) (m_cns m) (f (m_quotas m)) (m_pool m) (m_used m) (m_pool_used m)
    (m_rq m) (m_rqlen m) (m_rqcur m) (m_inv_logged m) (m_lean_once m) (m_lean_busy m).
Definition set_pool (p : list gj_cdt_edge) (u : list bool) (n : Z) (m : cap_mem) : cap_mem :=
  CapMem (m_objs m) (m_cns m) (m_quotas m) p u n
    (m_rq m) (m_rqlen m) (m_rqcur m) (m_inv_logged m) (m_lean_once m) (m_lean_busy m).
Definition set_rq (q : list gj_revoke_qent) (len cur : Z) (m : cap_mem) : cap_mem :=
  CapMem (m_objs m) (m_cns m) (m_quotas m) (m_pool m) (m_used m) (m_pool_used m)
    q len cur (m_inv_logged m) (m_lean_once m) (m_lean_busy m).
Definition set_lamps (logged once busy : bool) (m : cap_mem) : cap_mem :=
  CapMem (m_objs m) (m_cns m) (m_quotas m) (m_pool m) (m_used m) (m_pool_used m)
    (m_rq m) (m_rqlen m) (m_rqcur m) logged once busy.

(** Storage as the kernel's allocator hands it out: zeroed. *)
Definition zero_hdr : gj_obj_hdr := ObjHdr 0 0 0 0 0 None.
Definition zero_cnode (o : objp) : gj_cnode := CNode o 0 None None 0 0.
Definition zero_quota : gj_cap_quota := CapQuota 0 0 0 0 0 0 None.

(** The kernel's static initial state: every global is zero. *)
Definition cap_mem0 : cap_mem :=
  CapMem ∅ ∅ ∅
    (replicate GJ_CDT_EDGE_POOL (CdtEdge None None 0))
    (replicate GJ_CDT_EDGE_POOL false) 0
    (replicate GJ_REVOKE_Q_MAX (RevokeQent None false)) 0 0
    false false false.

Abbreviation capM := (prog cap_mem).

(** ** Loads and stores *)
Definition modify (f : cap_mem -> cap_mem) : capM unit := m <- pget ;; pput (f m).

Definition of_option {A} (o : option A) : capM A :=
  match o with Some a => pret a | None => pfault end.

Definition obj_load (o : objp) : capM gj_obj_hdr := m <- pget ;; of_option (m_objs m !! o).
Definition obj_store (o : objp) (h : gj_obj_hdr) : capM unit :=
  obj_load o ;;; modify (set_objs (<[o := h]>)).
Definition cn_load (c : cnp) : capM gj_cnode := m <- pget ;; of_option (m_cns m !! c).
Definition cn_store (c : cnp) (cn : gj_cnode) : capM unit :=
  cn_load c ;;; modify (set_cns (<[c := cn]>)).
Definition quota_load (q : quotap) : capM gj_cap_quota := m <- pget ;; of_option (m_quotas m !! q).
Definition quota_store (q : quotap) (v : gj_cap_quota) : capM unit :=
  quota_load q ;;; modify (set_quotas (<[q := v]>)).
Definition edge_load (e : edgep) : capM gj_cdt_edge := m <- pget ;; of_option (m_pool m !! e).
Definition edge_store (e : edgep) (v : gj_cdt_edge) : capM unit :=
  edge_load e ;;;
  modify (fun m => set_pool (<[e := v]> (m_pool m)) (m_used m) (m_pool_used m) m).

(** [pCnode->pSlots[i]] *)
Definition cn_slot (cn : gj_cnode) (i : Z) : option gj_cap_slot :=
  match cn_pSlots cn with
  | Some sl => if 0 <=? i then sl !! Z.to_nat i else None
  | None => None
  end.
Definition slot_load (c : cnp) (i : Z) : capM gj_cap_slot :=
  cn <- cn_load c ;; of_option (cn_slot cn i).

Definition cn_set_slots (cn : gj_cnode) (sl : option (list gj_cap_slot)) : gj_cnode :=
  CNode (cn_hdr cn) (cn_cSlots cn) sl (cn_pQuotaAccount cn) (cn_u32SoftLock cn) (cn_u32PadLock cn).
Definition cn_set_slot (cn : gj_cnode) (i : Z) (v : gj_cap_slot) : gj_cnode :=
  cn_set_slots cn ((fun sl => <[Z.to_nat i := v]> sl) <$> cn_pSlots cn).
Definition cn_set_lock (cn : gj_cnode) (l : Z) : gj_cnode :=
  CNode (cn_hdr cn) (cn_cSlots cn) (cn_pSlots cn) (cn_pQuotaAccount cn) l (cn_u32PadLock cn).
Definition cn_set_quota (cn : gj_cnode) (q : option quotap) : gj_cnode :=
  CNode (cn_hdr cn) (cn_cSlots cn) (cn_pSlots cn) q (cn_u32SoftLock cn) (cn_u32PadLock cn).
Definition slot_store (c : cnp) (i : Z) (v : gj_cap_slot) : capM unit :=
  slot_load c i ;;; cn <- cn_load c ;; cn_store c (cn_set_slot cn i v).

Definition hdr_set_state (h : gj_obj_hdr) (s : Z) : gj_obj_hdr :=
  ObjHdr s (hdr_u32Gen h) (hdr_u32Ref h) (hdr_u32Pin h) (hdr_u32SlotsLeft h) (hdr_pCdtHead h).
Definition hdr_set_gen (h : gj_obj_hdr) (g : Z) : gj_obj_hdr :=
  ObjHdr (hdr_u32State h) g (hdr_u32Ref h) (hdr_u32Pin h) (hdr_u32SlotsLeft h) (hdr_pCdtHead h).
Definition hdr_set_ref (h : gj_obj_hdr) (r : Z) : gj_obj_hdr :=
  ObjHdr (hdr_u32State h) (hdr_u32Gen h) r (hdr_u32Pin h) (hdr_u32SlotsLeft h) (hdr_pCdtHead h).
Definition hdr_set_pin (h : gj_obj_hdr) (p : Z) : gj_obj_hdr :=
  ObjHdr (hdr_u32State h) (hdr_u32Gen h) (hdr_u32Ref h) p (hdr_u32SlotsLeft h) (hdr_pCdtHead h).
Definition hdr_set_left (h : gj_obj_hdr) (n : Z) : gj_obj_hdr :=
  ObjHdr (hdr_u32State h) (hdr_u32Gen h) (hdr_u32Ref h) (hdr_u32Pin h) n (hdr_pCdtHead h).
Definition hdr_set_cdt (h : gj_obj_hdr) (e : option edgep) : gj_obj_hdr :=
  ObjHdr (hdr_u32State h) (hdr_u32Gen h) (hdr_u32Ref h) (hdr_u32Pin h) (hdr_u32SlotsLeft h) e.

(** ** Inline operations of cap.h on one object or slot *)

(** [gj_obj_check_live]: fail-closed live check (S2). *)
Definition gj_obj_check_live (pObj : option gj_obj_hdr) (u32ObjGenExpected : Z) : gj_status :=
  match pObj with
  | None => GJ_ERR_INVAL
  | Some h =>
      if negb (hdr_u32State h =? GJ_OBJ_LIVE) then GJ_ERR_DEAD
      else if negb (hdr_u32Gen h =? u32ObjGenExpected) then GJ_ERR_STALE_CAP
      else GJ_OK
  end.

(** The generation bump of [gj_cap_slot_invalidate]: [u32Gen++], skipping 0. *)
Definition slot_gen_bump (g : Z) : Z :=
  let g' := u32_wrap (g + 1) in if g' =? 0 then 1 else g'.

(** [gj_cap_slot_invalidate]: S7 structured clear of one slot. *)
Definition gj_cap_slot_invalidate (s : gj_cap_slot) : gj_cap_slot :=
  CapSlot GJ_CAP_INVALID 0 (slot_gen_bump (slot_u32Gen s)) 0 None.

(** ** Rules for the loads and stores *)
Section AccessRules.
Variables (Q : unit -> cap_mem -> Prop) (m : cap_mem).

Lemma wp_modify f : Q tt (f m) -> wp (modify f) Q m.
Proof. intros H. apply wp_bind, wp_get. by apply wp_put. Qed.

Lemma wp_of_option {A} (o : option A) a (R : A -> cap_mem -> Prop) :
  o = Some a -> R a m -> wp (of_option o) R m.
Proof. intros -> H. by apply wp_ret. Qed.

Lemma wp_obj_load o h (R : gj_obj_hdr -> cap_mem -> Prop) :
  m_objs m !! o = Some h -> R h m -> wp (obj_load o) R m.
Proof. intros E H. apply wp_bind, wp_get. by eapply wp_of_option. Qed.

Lemma wp_obj_store o h0 h :
  m_objs m !! o = Some h0 -> Q tt (set_objs (<[o := h]>) m) -> wp (obj_store o h) Q m.
Proof. intros E H. apply wp_bind. eapply wp_obj_load; [done|]. by apply wp_modify. Qed.

Lemma wp_cn_load c cn (R : gj_cnode -> cap_mem -> Prop) :
  m_cns m !! c = Some cn -> R cn m -> wp (cn_load c) R m.
Proof. intros E H. apply wp_bind, wp_get. by eapply wp_of_option. Qed.

Lemma wp_cn_store c cn0 cn :
  m_cns m !! c = Some cn0 -> Q tt (set_cns (<[c := cn]>) m) -> wp (cn_store c cn) Q m.
Proof. intros E H. apply wp_bind. eapply wp_cn_load; [done|]. by apply wp_modify. Qed.

Lemma wp_quota_load q v (R : gj_cap_quota -> cap_mem -> Prop) :
  m_quotas m !! q = Some v -> R v m -> wp (quota_load q) R m.
Proof. intros E H. apply wp_bind, wp_get. by eapply wp_of_option. Qed.

Lemma wp_quota_store q v0 v :
  m_quotas m !! q = Some v0 -> Q tt (set_quotas (<[q := v]>) m) -> wp (quota_store q v) Q m.
Proof. intros E H. apply wp_bind. eapply wp_quota_load; [done|]. by apply wp_modify. Qed.

Lemma wp_edge_load e v (R : gj_cdt_edge -> cap_mem -> Prop) :
  m_pool m !! e = Some v -> R v m -> wp (edge_load e) R m.
Proof. intros E H. apply wp_bind, wp_get. by eapply wp_of_option. Qed.

Lemma wp_edge_store e v0 v :
  m_pool m !! e = Some v0 ->
  Q tt (set_pool (<[e := v]> (m_pool m)) (m_used m) (m_pool_used m) m) ->
  wp (edge_store e v) Q m.
Proof. intros E H. apply wp_bind. eapply wp_edge_load; [done|]. by apply wp_modify. Qed.

Lemma wp_slot_load c cn i s (R : gj_cap_slot -> cap_mem -> Prop) :
  m_cns m !! c = Some cn -> cn_slot cn i = Some s -> R s m -> wp (slot_load c i) R m.
Proof.
  intros E1 E2 H. apply wp_bind. eapply wp_cn_load; [done|]. by eapply wp_of_option.
Qed.

Lemma wp_slot_store c cn i s0 s :
  m_cns m !! c = Some cn -> cn_slot cn i = Some s0 ->
  Q tt (set_cns (<[c := cn_set_slot cn i s]>) m) -> wp (slot_store c i s) Q m.
Proof.
  intros E1 E2 H. apply wp_bind. eapply wp_slot_load; [done..|].
  apply wp_bind. eapply wp_cn_load; [done|]. by eapply wp_cn_store.
Qed.
End AccessRules.

(** Loads and stores as steps of the symbolic execution. *)
Ltac wstep_hook ::=
  lazymatch goal with
  | |- wp (modify _) _ _ => eapply wp_modify
  | |- wp (obj_load _) _ _ => eapply wp_obj_load; [by eauto|]
  | |- wp (obj_store _ _) _ _ => eapply wp_obj_store; [by eauto|]
  | |- wp (cn_load _) _ _ => eapply wp_cn_load; [by eauto|]
  | |- wp (cn_store _ _) _ _ => eapply wp_cn_store; [by eauto|]
  | |- wp (quota_load _) _ _ => eapply wp_quota_load; [by eauto|]
  | |- wp (quota_store _ _) _ _ => eapply wp_quota_store; [by eauto|]
  | |- wp (edge_load _) _ _ => eapply wp_edge_load; [by eauto|]
  | |- wp (edge_store _ _) _ _ => eapply wp_edge_store; [by eauto|]
  | |- wp (slot_load _ _) _ _ => eapply wp_slot_load; [by eauto|by eauto|]
  | |- wp (slot_store _ _ _) _ _ => eapply wp_slot_store; [by eauto|by eauto|]
  end.
