(* ===== verification/CapEdges.v ===== *)
(** The CDT edge pool and the per-object chains of derivation edges
    ([kernel/cap/cnode.c]: [cdt_edge_*], [gj_cdt_edge_*], [gj_cdt_unlink_slot]).

    Definitions translate the pointer manipulation of the source; the second
    part relates an object's chain of [pNext] pointers to a list of edges and
    gives each operation's effect on that list.  Loops over a chain take fuel
    [CDT_FUEL]; running out of fuel is a fault, so every [wp] proved below also
    shows that the loop terminates. *)
From stdpp Require Import base gmap list strings fin_maps.
From Stdlib Require Import ZArith Lia.
From S2P Require Import Prelude CapTypes.

(** ** Definitions *)

(** A chain has at most [GJ_CDT_EDGE_POOL] edges, and one more test sees NULL. *)
Definition CDT_FUEL : nat := S GJ_CDT_EDGE_POOL.

Definition cdt_edge_pool_used : capM Z := m <- pget ;; pret (m_pool_used m).

Fixpoint cdt_edge_chain_depth_loop (u32Guard : nat) (pWalk : option edgep) (u32Depth : Z) : capM Z :=
  match pWalk, u32Guard with
  | None, _ | _, O => pret u32Depth
  | Some e, S g =>
      ed <- edge_load e ;;
      cdt_edge_chain_depth_loop g (edge_pNext ed) (u32Depth + 1)
  end.

Definition cdt_edge_chain_depth (pObj : option objp) : capM Z :=
  match pObj with
  | None => pret 0
  | Some o =>
      h <- obj_load o ;;
      cdt_edge_chain_depth_loop GJ_CDT_EDGE_POOL (hdr_pCdtHead h) 0
  end.

(** First index with [!g_aCdtUsed[i]]. *)
Fixpoint first_free (l : list bool) (i : nat) : option nat :=
  match l with
  | [] => None
  | b :: l' => if b then first_free l' (S i) else Some i
  end.

Definition cdt_edge_alloc : capM (option edgep) :=
  m <- pget ;;
  match first_free (m_used m) 0 with
  | Some i =>
      pput (set_pool (<[i := CdtEdge None None 0]> (m_pool m))
                     (<[i := true]> (m_used m)) (sat32_inc (m_pool_used m)) m) ;;;
      tick "g_u32CdtPoolAllocOk" ;;;
      pret (Some i)
  | None =>
      tick "g_u32CdtPoolAllocMiss" ;;;
      pret None
  end.

Definition cdt_edge_free (pEdge : option edgep) : capM unit :=
  match pEdge with
  | None => pret tt
  | Some e =>
      m <- pget ;;
      (if bool_decide (e < GJ_CDT_EDGE_POOL)%nat then
         let fDec := bool_decide (m_used m !! e = Some true) && (0 <? m_pool_used m) in
         pput (set_pool (<[e := CdtEdge None None 0]> (m_pool m))
                 (<[e := false]> (m_used m))
                 (if fDec then m_pool_used m - 1 else m_pool_used m) m) ;;;
         tick "g_u32CdtPoolFreeOk"
       else pret tt)
  end.

Definition cdt_edge_free_if_pool (pEdge : edgep) : capM unit :=
  cdt_edge_free (Some pEdge).

(** The duplicate scan of [gj_cdt_edge_link]. *)
Fixpoint edge_link_scan (fuel : nat) (pWalk : option edgep) (pEdge : edgep) : capM bool :=
  match fuel with
  | O => pfault
  | S f =>
      match pWalk with
      | None => pret false
      | Some w =>
          if bool_decide (w = pEdge) then pret true
          else ed <- edge_load w ;; edge_link_scan f (edge_pNext ed) pEdge
      end
  end.

Definition gj_cdt_edge_link (pObj : option objp) (pEdge : option edgep)
    (pCnode : option cnp) (u64Slot : Z) : capM gj_status :=
  match pObj, pEdge, pCnode with
  | Some o, Some e, Some c =>
      cn <- cn_load c ;;
      (if bool_decide (cn_pSlots cn = None) || (cn_cSlots cn <=? u64Slot)
       then pret GJ_ERR_INVAL
       else
         h <- obj_load o ;;
         fDup <- edge_link_scan CDT_FUEL (hdr_pCdtHead h) e ;;
         if fDup : bool then pret GJ_ERR_BUSY
         else
           edge_store e (CdtEdge (hdr_pCdtHead h) (Some c) u64Slot) ;;;
           obj_store o (hdr_set_cdt h (Some e)) ;;;
           pret GJ_OK)
  | _, _, _ => pret GJ_ERR_INVAL
  end.

Fixpoint edge_unlink_loop (fuel : nat) (o : objp) (pEdge : edgep)
    (pPrev pWalk : option edgep) : capM unit :=
  match fuel with
  | O => pfault
  | S f =>
      match pWalk with
      | None => pret tt
      | Some w =>
          ed <- edge_load w ;;
          if bool_decide (w = pEdge) then
            match pPrev with
            | None =>
                h <- obj_load o ;; obj_store o (hdr_set_cdt h (edge_pNext ed))
            | Some p =>
                pv <- edge_load p ;;
                edge_store p (CdtEdge (edge_pNext ed) (edge_pCnode pv) (edge_u64Slot pv))
            end ;;;
            edge_store pEdge (CdtEdge None None 0) ;;;
            cdt_edge_free_if_pool pEdge
          else edge_unlink_loop f o pEdge (Some w) (edge_pNext ed)
      end
  end.

Definition gj_cdt_edge_unlink (pObj : option objp) (pEdge : option edgep) : capM unit :=
  match pObj, pEdge with
  | Some o, Some e =>
      h <- obj_load o ;; edge_unlink_loop CDT_FUEL o e None (hdr_pCdtHead h)
  | _, _ => pret tt
  end.

(** The loop of [gj_cdt_unlink_slot]; returns [u32Unlinked]. *)
Fixpoint unlink_slot_loop (fuel : nat) (o : objp) (pCnode : option cnp) (u64Slot : Z)
    (pWalk : option edgep) (u32Unlinked : Z) : capM Z :=
  match fuel with
  | O => pfault
  | S f =>
      match pWalk with
      | None => pret u32Unlinked
      | Some w =>
          ed <- edge_load w ;;
          let pNext := edge_pNext ed in
          if bool_decide (edge_pCnode ed = pCnode) && (edge_u64Slot ed =? u64Slot) then
            gj_cdt_edge_unlink (Some o) (Some w) ;;;
            unlink_slot_loop f o pCnode u64Slot pNext (u32Unlinked + 1)
          else unlink_slot_loop f o pCnode u64Slot pNext u32Unlinked
      end
  end.

Definition gj_cdt_unlink_slot (pObj : option objp) (pCnode : option cnp) (u64Slot : Z) : capM unit :=
  match pObj with
  | None => pret tt
  | Some o =>
      h <- obj_load o ;;
      n <- unlink_slot_loop CDT_FUEL o pCnode u64Slot (hdr_pCdtHead h) 0 ;;
      if 0 <? n then tick "g_u32CdtUnlinkOk" else pret tt
  end.

(** [cdt_soft_empty_edge_audit]: [slots_left] against the chain's depth. *)
Definition cdt_soft_empty_edge_audit (pObj : option objp) (u32EdgeOk : bool) : capM unit :=
  u32Slots <- match pObj with
              | Some o => h <- obj_load o ;; pret (hdr_u32SlotsLeft h)
              | None => pret 0
              end ;;
  u32Chain <- cdt_edge_chain_depth pObj ;;
  tel_set "g_u32CdtChainDepthAtOk" u32Chain ;;;
  tel_peak "g_u32CdtChainDepthMax" u32Chain ;;;
  if u32EdgeOk then
    if u32Slots =? u32Chain then tick "g_u32CdtSoftAuditMatch"
    else tick "g_u32CdtSoftAuditMismatch"
  else tick "g_u32CdtSoftAuditEmpty".

Section WithHook.
(** The once-only inventory and self-test ([cdt_soft_inventory_maybe_once]). *)
Variable hook : capM unit.

(** [cdt_soft_coverage_rollup] *)
Definition cdt_soft_coverage_rollup : capM unit :=
  t <- ptel ;;
  if negb (tel_val t "g_u8CdtCoverageRollupLogged" =? 0) then pret tt
  else if (tel_val t "g_u32CdtMintAttempt" =? 0)
          || (tel_val t "g_u32CdtCopyAttempt" =? 0)
          || (tel_val t "g_u32CdtMoveAttempt" =? 0) then pret tt
  else tel_set "g_u8CdtCoverageRollupLogged" 1 ;;; hook.

(** [cdt_edge_try_wire]: attempt an edge for a freshly installed slot; a pool
    miss or a refused link leaves the slot installed without an edge. *)
Definition cdt_edge_try_wire (pObj : option objp) (pCnode : option cnp) (u64Slot : Z)
    (pAttempt pOk pMiss : string) : capM unit :=
  tick pAttempt ;;;
  pEdge <- cdt_edge_alloc ;;
  match pEdge with
  | None =>
      tick pMiss ;;;
      cdt_soft_empty_edge_audit pObj false ;;;
      cdt_soft_coverage_rollup
  | Some e =>
      st <- gj_cdt_edge_link pObj (Some e) pCnode u64Slot ;;
      (if is_ok st then
         tick pOk ;;;
         cdt_soft_empty_edge_audit pObj true ;;;
         cdt_soft_coverage_rollup
       else
         cdt_edge_free (Some e) ;;;
         tick pMiss ;;;
         cdt_soft_empty_edge_audit pObj false ;;;
         cdt_soft_coverage_rollup)
  end.
End WithHook.

#[global] Arguments cdt_edge_free : simpl never.
#[global] Arguments gj_cdt_edge_link : simpl never.
#[global] Arguments gj_cdt_edge_unlink : simpl never.
#[global] Arguments gj_cdt_unlink_slot : simpl never.
#[global] Arguments cdt_edge_chain_depth : simpl never.
#[global] Arguments cdt_soft_empty_edge_audit : simpl never.
#[global] Arguments cdt_edge_try_wire : simpl never.

(** ** Chains *)

(** [is_chain pool p l]: from [p], the [pNext] pointers visit exactly [l]. *)
Fixpoint is_chain (pool : list gj_cdt_edge) (p : option edgep) (l : list edgep) : Prop :=
  match l with
  | [] => p = None
  | e :: l' =>
      p = Some e /\ exists ed, pool !! e = Some ed /\ is_chain pool (edge_pNext ed) l'
  end.

(** The CNode slot an edge names. *)
Definition edge_tgt (pool : list gj_cdt_edge) (e : edgep) : option (option cnp * Z) :=
  (fun ed => (edge_pCnode ed, edge_u64Slot ed)) <$> pool !! e.

(** Number of edges checked out of the pool. *)
Definition used_count (used : list bool) : nat := length (filter (fun b => b = true) used).

(** A free edge points nowhere. *)
Definition free_clean (pool : list gj_cdt_edge) (used : list bool) : Prop :=
  forall e ed, used !! e = Some false -> pool !! e = Some ed -> edge_pNext ed = None.

(** Accounting of the static pool. *)
Definition pool_ok (m : cap_mem) : Prop :=
  length (m_pool m) = GJ_CDT_EDGE_POOL /\ length (m_used m) = GJ_CDT_EDGE_POOL
  /\ m_pool_used m = Z.of_nat (used_count (m_used m)) /\ free_clean (m_pool m) (m_used m).

(** The chain of object [o] with header [h] is the list [l] of live edges. *)
Definition chain_at (m : cap_mem) (o : objp) (h : gj_obj_hdr) (l : list edgep) : Prop :=
  m_objs m !! o = Some h /\ is_chain (m_pool m) (hdr_pCdtHead h) l /\ NoDup l
  /\ Forall (fun e => m_used m !! e = Some true) l.

Section Chains.
Implicit Types (pool : list gj_cdt_edge) (l : list edgep) (m : cap_mem).

Lemma is_chain_head pool p l : is_chain pool p l -> p = head l.
Proof. destruct l; simpl; [done|]. by intros [-> _]. Qed.

Lemma is_chain_det pool p l1 l2 : is_chain pool p l1 -> is_chain pool p l2 -> l1 = l2.
Proof.
  revert p l2. induction l1 as [|e l1 IH]; intros p [|e2 l2]; simpl; [done|..].
  - by intros -> (? & _).
  - by intros (-> & _) ?.
  - intros (-> & ed & E & H1) (Hp & ed2 & E2 & H2). simplify_eq. f_equal. eauto.
Qed.

Lemma is_chain_ext pool pool' p l :
  (forall e, e ∈ l -> pool' !! e = pool !! e) -> is_chain pool p l -> is_chain pool' p l.
Proof.
  revert p. induction l as [|e l IH]; intros p Hx; simpl; [done|].
  intros (-> & ed & E & H). split; [done|]. exists ed.
  rewrite Hx by set_solver. split; [done|]. apply IH; [|done]. set_solver.
Qed.

Lemma is_chain_bound pool p l : is_chain pool p l -> NoDup l -> (length l <= length pool)%nat.
Proof.
  intros H Hnd. rewrite <-(length_seq (length pool) 0).
  apply submseteq_length, NoDup_submseteq; [done|].
  intros e He. apply elem_of_seq. split; [lia|]. simpl.
  clear Hnd. revert p H. induction l as [|e' l IH]; intros p; simpl; [set_solver|].
  intros (_ & ed & E & H). apply elem_of_cons in He as [->|He].
  - by apply lookup_lt_Some in E.
  - eauto.
Qed.

Lemma edge_tgt_insert_ne pool e i v : i <> e -> edge_tgt (<[e := v]> pool) i = edge_tgt pool i.
Proof. intros H. unfold edge_tgt. by rewrite list_lookup_insert_ne by done. Qed.

Lemma first_free_spec (u : list bool) i j :
  first_free u i = Some j -> (i <= j)%nat /\ u !! (j - i)%nat = Some false.
Proof.
  revert i. induction u as [|b u IH]; intros i; simpl; [done|].
  destruct b; intros H.
  - apply IH in H as [Hle H]. split; [lia|]. replace (j - i)%nat with (S (j - S i)) by lia. done.
  - injection H as <-. split; [lia|]. by rewrite Nat.sub_diag.
Qed.

Lemma first_free_none (u : list bool) i : first_free u i = None -> Forall (fun b => b = true) u.
Proof.
  revert i. induction u as [|b u IH]; intros i; simpl; [constructor|].
  destruct b; [|done]. intros H. constructor; eauto.
Qed.

Lemma used_count_set (u : list bool) e (b b2 : bool) :
  u !! e = Some b ->
  Z.of_nat (used_count (<[e := b2]> u)) =
  Z.of_nat (used_count u) - (if b then 1 else 0) + (if b2 then 1 else 0).
Proof.
  unfold used_count. intros E.
  rewrite insert_take_drop by (by apply lookup_lt_Some in E).
  rewrite <-(take_drop_middle u e b E) at 3.
  rewrite !filter_app, !length_app, !filter_cons.
  destruct b, b2; simpl; lia.
Qed.

Lemma used_count_le (u : list bool) : (used_count u <= length u)%nat.
Proof. apply length_filter. Qed.

Lemma sat32_inc_small x : x < U32_MAX -> sat32_inc x = x + 1.
Proof. intros H. unfold sat32_inc. by rewrite (proj2 (Z.ltb_lt _ _)). Qed.

End Chains.

Section Effects.
Implicit Types (l : list edgep) (m : cap_mem) (o : objp) (h : gj_obj_hdr).

(** Effect of unlinking edges from the chain of [o]: the chain goes from [l] to
    [l'], the other chains and the slots the kept edges name are untouched, and
    the dropped edges are back in the pool. *)
Definition cdt_shrink (o : objp) (h : gj_obj_hdr) (l l' : list edgep) (m m' : cap_mem) : Prop :=
  exists hd' pool' used' n',
    m' = set_objs (<[o := hdr_set_cdt h hd']>) (set_pool pool' used' n' m)
    /\ is_chain pool' hd' l'
    /\ (forall i, i ∉ l -> pool' !! i = m_pool m !! i /\ used' !! i = m_used m !! i)
    /\ (forall i, i ∈ l' -> edge_tgt pool' i = edge_tgt (m_pool m) i /\ used' !! i = m_used m !! i)
    /\ (forall i, i ∈ l -> i ∉ l' -> used' !! i = Some false)
    /\ (pool_ok m -> pool_ok m').

Lemma cdt_shrink_refl o h l m : chain_at m o h l -> cdt_shrink o h l l m m.
Proof.
  intros (Ho & Hc & Hnd & Hu).
  exists (hdr_pCdtHead h), (m_pool m), (m_used m), (m_pool_used m).
  split_and!; try done.
  destruct m as [objs]; unfold set_objs, set_pool; simpl in *. f_equal.
  symmetry. apply insert_id. rewrite Ho. by destruct h.
Qed.

Lemma chain_at_shrink o h l l' m m' :
  chain_at m o h l -> cdt_shrink o h l l' m m' -> l' ⊆ l -> NoDup l' ->
  exists h', h' = hdr_set_cdt h (head l') /\ chain_at m' o h' l'.
Proof.
  intros (Ho & Hc & Hnd & Hu) (hd' & pool' & used' & n' & -> & Hc' & _ & Hk & _ & _) Hsub Hnd'.
  pose proof (is_chain_head _ _ _ Hc') as ->.
  eexists; split; [done|]. split_and!; simpl; [by rewrite lookup_insert_eq|done|done|].
  apply Forall_forall. intros e He. rewrite (proj2 (Hk e He)).
  rewrite Forall_forall in Hu. apply Hu. set_solver.
Qed.

Lemma cdt_shrink_trans o h l l1 l2 m m1 m2 :
  l1 ⊆ l -> l2 ⊆ l1 ->
  cdt_shrink o h l l1 m m1 -> cdt_shrink o (hdr_set_cdt h (head l1)) l1 l2 m1 m2 ->
  cdt_shrink o h l l2 m m2.
Proof.
  intros S1 S2 (hd1 & p1 & u1 & n1 & -> & C1 & O1 & K1 & D1 & P1)
    (hd2 & p2 & u2 & n2 & -> & C2 & O2 & K2 & D2 & P2).
  exists hd2, p2, u2, n2. split_and!; simpl in *.
  - unfold set_objs, set_pool; simpl. f_equal. by rewrite insert_insert_eq.
  - done.
  - intros i Hi. destruct (O2 i) as [E1 E2]; [set_solver|]. rewrite E1, E2. by apply O1.
  - intros i Hi. destruct (K2 i Hi) as [E1 E2]. rewrite E1, E2. apply K1. set_solver.
  - intros i Hi Hn. destruct (decide (i ∈ l1)) as [H1|H1].
    + by apply D2.
    + rewrite (proj2 (O2 i H1)). by apply D1.
  - intros Hp. by apply P2, P1.
Qed.
End Effects.

(** ** Specifications of the edge operations *)
Section EdgeSpecs.
Implicit Types (l pre suf : list edgep) (m : cap_mem) (o : objp) (h : gj_obj_hdr) (e : edgep).

(** Cutting [e] out after its predecessor [p0]. *)
Lemma is_chain_splice pool pre p0 e suf hd nx pv :
  NoDup (pre ++ p0 :: e :: suf) ->
  is_chain pool hd (pre ++ p0 :: e :: suf) ->
  is_chain pool nx suf -> pool !! p0 = Some pv ->
  is_chain (<[p0 := CdtEdge nx (edge_pCnode pv) (edge_u64Slot pv)]> pool) hd (pre ++ p0 :: suf).
Proof.
  revert hd. induction pre as [|a pre IH]; intros hd Hnd Hc Hs Hp; simpl in *.
  - destruct Hc as (-> & ed & E & _). split; [done|].
    eexists. rewrite list_lookup_insert_eq by (by apply lookup_lt_Some in E).
    split; [done|]. simpl. eapply is_chain_ext, Hs.
    intros i Hi. rewrite list_lookup_insert_ne; [done|].
    apply NoDup_cons in Hnd as [Hn _]. set_solver.
  - destruct Hc as (-> & ed & E & Hc). apply NoDup_cons in Hnd as [Hn Hnd].
    split; [done|]. exists ed. rewrite list_lookup_insert_ne by set_solver.
    split; [done|]. by apply IH.
Qed.

Lemma is_chain_app_r pool hd pre suf :
  is_chain pool hd (pre ++ suf) -> is_chain pool (head suf) suf.
Proof.
  revert hd. induction pre as [|a pre IH]; intros hd; simpl.
  - intros H. by rewrite <-(is_chain_head _ _ _ H).
  - intros (_ & ed & _ & H). eauto.
Qed.

Lemma is_chain_elem pool hd l e : is_chain pool hd l -> e ∈ l -> is_Some (pool !! e).
Proof.
  revert hd. induction l as [|a l IH]; intros hd; simpl; [set_solver|].
  intros (_ & ed & E & H) He. apply elem_of_cons in He as [->|He]; eauto.
Qed.

Lemma pool_ok_free m e b :
  pool_ok m -> m_used m !! e = Some true ->
  (b = bool_decide (m_used m !! e = Some true) && (0 <? m_pool_used m)) ->
  forall p objs, length p = GJ_CDT_EDGE_POOL -> free_clean p (<[e := false]> (m_used m)) ->
  pool_ok (set_objs objs (set_pool p (<[e := false]> (m_used m))
    (if b then m_pool_used m - 1 else m_pool_used m) m)).
Proof.
  intros (Hl & Hu & Hn & _) E -> p objs Hp Hfc. unfold pool_ok; simpl.
  rewrite length_insert. split_and!; [done..| |done].
  rewrite bool_decide_true by done. simpl.
  pose proof (used_count_set _ _ _ false E) as Hc. rewrite Hc.
  assert (0 < Z.of_nat (used_count (m_used m))).
  { assert (used_count (m_used m) <> 0%nat); [|lia]. unfold used_count. intros Hz.
    apply length_zero_iff_nil in Hz. apply list_elem_of_lookup_2 in E.
    assert (true ∈ filter (fun b : bool => b = true) (m_used m)) as Hin.
    { by apply list_elem_of_filter. }
    rewrite Hz in Hin. set_solver. }
  rewrite (proj2 (Z.ltb_lt 0 (m_pool_used m))) by lia. lia.
Qed.

Lemma wp_chain_depth_loop m g p l d :
  is_chain (m_pool m) p l -> (length l <= g)%nat ->
  wp (cdt_edge_chain_depth_loop g p d) (fun n m' => n = d + Z.of_nat (length l) /\ m' = m) m.
Proof.
  revert p d g. induction l as [|e l IH]; intros p d g; simpl.
  - intros -> _. destruct g; simpl; wstep; split; [lia|done|lia|done].
  - intros (-> & ed & E & Hc) Hg. destruct g; [lia|]. simpl. wsteps.
    eapply wp_mono; [apply IH; [done|lia]|]. intros n m' [-> ->]. split; [lia|done].
Qed.

Lemma wp_chain_depth m o h l :
  chain_at m o h l -> length (m_pool m) = GJ_CDT_EDGE_POOL ->
  wp (cdt_edge_chain_depth (Some o)) (fun n m' => n = Z.of_nat (length l) /\ m' = m) m.
Proof.
  intros (Ho & Hc & Hnd & Hu) Hl. unfold cdt_edge_chain_depth. wsteps.
  eapply wp_mono; [apply wp_chain_depth_loop; [done|]|done].
  pose proof (is_chain_bound _ _ _ Hc Hnd). lia.
Qed.

Lemma filter_ne_notin l e : e ∉ l -> filter (fun i => i <> e) l = l.
Proof.
  induction l as [|a l IH]; intros H; [done|].
  rewrite filter_cons_True by set_solver. f_equal. apply IH. set_solver.
Qed.

Lemma filter_ne_split pre e suf :
  NoDup (pre ++ e :: suf) -> filter (fun i => i <> e) (pre ++ e :: suf) = pre ++ suf.
Proof.
  intros H. rewrite filter_app, filter_cons_False by naive_solver.
  apply NoDup_app in H as (_ & Hd & Hnd). apply NoDup_cons in Hnd as [Hn _].
  rewrite !filter_ne_notin; [done|done|]. intros Hin. apply (Hd e Hin). set_solver.
Qed.

(** The writes of the unlink, once the edge [e] and its predecessor are known. *)
Lemma unlink_effect m o h pre e suf ed hd' pool1 :
  chain_at m o h (pre ++ e :: suf) -> m_pool m !! e = Some ed ->
  is_chain pool1 hd' (pre ++ suf) ->
  length pool1 = length (m_pool m) ->
  (forall i, i ∉ pre ++ e :: suf -> pool1 !! i = m_pool m !! i) ->
  (forall i, edge_tgt pool1 i = edge_tgt (m_pool m) i) ->
  forall m', m' = set_objs (<[o := hdr_set_cdt h hd']>)
         (set_pool (<[e := CdtEdge None None 0]> (<[e := CdtEdge None None 0]> pool1))
            (<[e := false]> (m_used m))
            (if bool_decide (m_used m !! e = Some true) && (0 <? m_pool_used m)
             then m_pool_used m - 1 else m_pool_used m) m) ->
  cdt_shrink o h (pre ++ e :: suf) (pre ++ suf) m m'.
Proof.
  intros (Ho & Hc & Hnd & Hu) He Hc' Hl Hout Htgt m' ->.
  assert (m_used m !! e = Some true) as Hue.
  { rewrite Forall_forall in Hu. apply Hu. set_solver. }
  assert (e ∉ pre ++ suf) as Hnin.
  { apply NoDup_app in Hnd as (_ & Hd & Hnd). apply NoDup_cons in Hnd as [Hn _].
    specialize (Hd e). set_solver. }
  eexists hd', _, _, _. split; [done|]. split_and!.
  - eapply is_chain_ext, Hc'. intros i Hi. by rewrite !list_lookup_insert_ne by set_solver.
  - intros i Hi. rewrite !list_lookup_insert_ne by set_solver. auto.
  - intros i Hi. rewrite !edge_tgt_insert_ne, list_lookup_insert_ne by set_solver. auto.
  - intros i Hi Hi'. assert (i = e) as -> by set_solver.
    apply list_lookup_insert_eq. by apply lookup_lt_Some in Hue.
  - intros Hp. eapply pool_ok_free; [done|done|done|..].
    + rewrite !length_insert, Hl. by destruct Hp.
    + rewrite list_insert_insert_eq. destruct Hp as (_ & _ & _ & Hfc). intros i edi Hi Hed.
      destruct (decide (i = e)) as [->|Hne].
      { apply list_lookup_insert_Some in Hed as [(_ & <- & _)|[? _]]; done. }
      rewrite list_lookup_insert_ne in Hi by done. rewrite list_lookup_insert_ne in Hed by done. apply (Hfc i); [done|].
      rewrite <-Hout; [done|]. intros Hin. rewrite Forall_forall in Hu. apply Hu in Hin. congruence.
Qed.

Lemma wp_edge_free m e Q :
  (e < GJ_CDT_EDGE_POOL)%nat ->
  Q tt (set_pool (<[e := CdtEdge None None 0]> (m_pool m)) (<[e := false]> (m_used m))
     (if bool_decide (m_used m !! e = Some true) && (0 <? m_pool_used m)
      then m_pool_used m - 1 else m_pool_used m) m) ->
  wp (cdt_edge_free (Some e)) Q m.
Proof. intros He HQ. unfold cdt_edge_free. wsteps. rewrite bool_decide_true by done. by wsteps. Qed.

Lemma wp_edge_unlink_loop m o h l e :
  chain_at m o h l -> length (m_pool m) = GJ_CDT_EDGE_POOL ->
  forall suf pre fuel,
  l = pre ++ suf -> e ∉ pre -> (length suf < fuel)%nat ->
  wp (edge_unlink_loop fuel o e (last pre) (head suf))
     (fun _ m' => cdt_shrink o h l (filter (fun i => i <> e) l) m m') m.
Proof.
  intros Hch Hpl. induction suf as [|w suf IH]; intros pre fuel -> Hpre Hf;
    (destruct fuel as [|fuel]; [simpl in Hf; lia|]); simpl.
  - wsteps. rewrite app_nil_r in *. rewrite filter_ne_notin by done. by apply cdt_shrink_refl.
  - pose proof Hch as (Ho & Hc & Hnd & Hu).
    pose proof (is_chain_app_r _ _ _ _ Hc) as (_ & ed & E & Hs).
    assert (w < GJ_CDT_EDGE_POOL)%nat as Hw by (rewrite <-Hpl; by apply lookup_lt_Some in E).
    wsteps. case_bool_decide as Hwe; [subst w|].
    + rewrite filter_ne_split by done.
      destruct pre as [|p0 pre0 _] using rev_ind.
      * simpl. wsteps. eapply wp_edge_free; [done|].
        eapply (unlink_effect m o h [] e suf ed (edge_pNext ed) (m_pool m)); try done.
      * rewrite last_snoc.
        assert (is_Some (m_pool m !! p0)) as [pv Ep]
          by (eapply is_chain_elem; [exact Hc|set_solver]).
        assert (p0 <> e) as Hpe.
        { intros ->. apply NoDup_app in Hnd as (_ & Hd & _). apply (Hd e); set_solver. }
        wsteps. eapply wp_edge_store; [simpl; by rewrite list_lookup_insert_ne|].
        cbv beta. eapply wp_edge_free; [done|].
        eapply (unlink_effect m o h (pre0 ++ [p0]) e suf ed (hdr_pCdtHead h)
                  (<[p0 := CdtEdge (edge_pNext ed) (edge_pCnode pv) (edge_u64Slot pv)]> (m_pool m)));
          try done.
        -- rewrite <-app_assoc in Hnd, Hc |- *. eapply is_chain_splice; [exact Hnd|exact Hc|exact Hs|exact Ep].
        -- by rewrite length_insert.
        -- intros i Hi. rewrite list_lookup_insert_ne; set_solver.
        -- intros i. destruct (decide (i = p0)) as [->|Hi].
           ++ unfold edge_tgt. rewrite list_lookup_insert_eq by (by apply lookup_lt_Some in Ep).
              by rewrite Ep.
           ++ by rewrite edge_tgt_insert_ne.
        -- unfold set_objs, set_pool. simpl. f_equal.
           rewrite insert_id; [done|]. rewrite Ho. by destruct h.
    + rewrite (is_chain_head _ _ _ Hs).
      specialize (IH (pre ++ [w]) fuel). rewrite last_snoc in IH. apply IH.
      * by rewrite <-app_assoc.
      * set_solver.
      * simpl in Hf. lia.
Qed.

(** [gj_cdt_edge_unlink] removes exactly the edge it is given. *)
Lemma wp_cdt_edge_unlink m o h l e :
  chain_at m o h l -> length (m_pool m) = GJ_CDT_EDGE_POOL ->
  wp (gj_cdt_edge_unlink (Some o) (Some e))
     (fun _ m' => cdt_shrink o h l (filter (fun i => i <> e) l) m m') m.
Proof.
  intros Hch Hpl. pose proof Hch as (Ho & Hc & Hnd & _).
  unfold gj_cdt_edge_unlink. wsteps. rewrite (is_chain_head _ _ _ Hc).
  apply (wp_edge_unlink_loop m o h l e Hch Hpl l [] CDT_FUEL); [done|set_solver|].
  pose proof (is_chain_bound _ _ _ Hc Hnd). unfold CDT_FUEL. lia.
Qed.

(** The edges of a chain that do not name the slot [(pCnode, i)]. *)
Definition other_edges (pool : list gj_cdt_edge) (pCnode : option cnp) (i : Z) l : list edgep :=
  filter (fun e => edge_tgt pool e <> Some (pCnode, i)) l.

Lemma other_edges_ext pool pool' pc i l :
  (forall e, e ∈ l -> edge_tgt pool' e = edge_tgt pool e) ->
  other_edges pool' pc i l = other_edges pool pc i l.
Proof.
  unfold other_edges. induction l as [|a l IH]; intros H; [done|].
  rewrite !filter_cons, H, IH; [done|set_solver|set_solver].
Qed.

Lemma other_edges_subset pool pc i l : other_edges pool pc i l ⊆ l.
Proof. intros e. unfold other_edges. rewrite list_elem_of_filter. naive_solver. Qed.

Lemma wp_unlink_slot_loop o pc i : forall suf K m h fuel n,
  chain_at m o h (K ++ suf) -> pool_ok m -> (length suf < fuel)%nat ->
  wp (unlink_slot_loop fuel o pc i (head suf) n)
     (fun _ m' => cdt_shrink o h (K ++ suf) (K ++ other_edges (m_pool m) pc i suf) m m') m.
Proof.
  induction suf as [|w suf IH]; intros K m h fuel n Hch Hpo Hf;
    (destruct fuel as [|fuel]; [simpl in Hf; lia|]); simpl in *.
  - wsteps. by apply cdt_shrink_refl.
  - pose proof Hch as (Ho & Hc & Hnd & Hu).
    pose proof (is_chain_app_r _ _ _ _ Hc) as (_ & ed & E & Hs).
    wsteps. rewrite (is_chain_head _ _ _ Hs). unfold other_edges. rewrite filter_cons.
    assert (edge_tgt (m_pool m) w = Some (edge_pCnode ed, edge_u64Slot ed)) as Et
      by (unfold edge_tgt; by rewrite E).
    case_decide as Hd; rewrite Et in Hd.
    + assert (bool_decide (edge_pCnode ed = pc) && (edge_u64Slot ed =? i) = false) as ->.
      { apply not_true_iff_false. intros [H1 H2]%andb_prop.
        apply bool_decide_eq_true in H1. apply Z.eqb_eq in H2. naive_solver. }
      specialize (IH (K ++ [w]) m h fuel n). rewrite <-!app_assoc in IH.
      apply IH; [done|done|lia].
    + assert (edge_pCnode ed = pc /\ edge_u64Slot ed = i) as [H1 H2].
      { by injection Hd. }
      rewrite (bool_decide_true _ H1), (proj2 (Z.eqb_eq _ _) H2). simpl.
      wsteps. eapply wp_mono; [eapply wp_cdt_edge_unlink; [done|apply Hpo]|].
      intros [] m2 Hsh. rewrite filter_ne_split in Hsh by done.
      assert (NoDup (K ++ suf)) as Hnd2.
      { apply NoDup_app in Hnd as (HK & Hd2 & [_ Hnd2]%NoDup_cons).
        apply NoDup_app. split_and!; [done|set_solver|done]. }
      destruct (chain_at_shrink _ _ _ _ _ _ Hch Hsh) as (h2 & -> & Hch2);
        [set_solver|done|].
      pose proof Hsh as (hd2 & p2 & u2 & n2 & -> & _ & _ & Hk & _ & Hp2).
      eapply wp_mono; [apply (IH K); [done|auto|lia]|].
      intros ? m3 Hsh3. simpl in Hsh3.
      eapply (cdt_shrink_trans o h _ (K ++ suf)); [set_solver| |done|].
      { pose proof (other_edges_subset (m_pool m) pc i suf). set_solver. }
      rewrite (other_edges_ext (m_pool m)) in Hsh3; [done|].
      intros e He. apply Hk. set_solver.
Qed.

(** [gj_cdt_unlink_slot] drops exactly the edges of [o] that name the slot. *)
Lemma wp_cdt_unlink_slot m o h l pc i :
  chain_at m o h l -> pool_ok m ->
  wp (gj_cdt_unlink_slot (Some o) pc i)
     (fun _ m' => cdt_shrink o h l (other_edges (m_pool m) pc i l) m m') m.
Proof.
  intros Hch Hpo. pose proof Hch as (Ho & Hc & Hnd & _).
  unfold gj_cdt_unlink_slot. wsteps. rewrite (is_chain_head _ _ _ Hc).
  eapply wp_mono; [apply (wp_unlink_slot_loop o pc i l []); [done|done|]|].
  - pose proof (is_chain_bound _ _ _ Hc Hnd) as Hb. destruct Hpo as (Hl & _).
    unfold CDT_FUEL. lia.
  - intros n m' H. case_match; wsteps; done.
Qed.

Lemma free_clean_take pool used e v :
  free_clean pool used -> free_clean (<[e := v]> pool) (<[e := true]> used).
Proof.
  intros H i ed Hi Hed. destruct (decide (i = e)) as [->|Hne].
  - apply list_lookup_insert_Some in Hi as [(_ & ? & _)|[? _]]; done.
  - rewrite list_lookup_insert_ne in Hi by done. rewrite list_lookup_insert_ne in Hed by done. eauto.
Qed.

Lemma wp_edge_alloc m :
  pool_ok m ->
  wp cdt_edge_alloc (fun r m' =>
    match r with
    | None => m' = m /\ Forall (fun b => b = true) (m_used m)
    | Some e =>
        m_used m !! e = Some false /\ pool_ok m'
        /\ m' = set_pool (<[e := CdtEdge None None 0]> (m_pool m)) (<[e := true]> (m_used m))
                  (m_pool_used m + 1) m
    end) m.
Proof.
  intros (Hl & Hu & Hn & Hfc). unfold cdt_edge_alloc. wsteps.
  destruct (first_free (m_used m) 0) as [e|] eqn:E; wsteps.
  - apply first_free_spec in E as [_ E]. rewrite Nat.sub_0_r in E.
    assert (m_pool_used m < U32_MAX) as Hlt.
    { rewrite Hn. pose proof (used_count_le (m_used m)) as Hle. rewrite Hu in Hle.
      unfold GJ_CDT_EDGE_POOL, U32_MAX in *. lia. }
    rewrite sat32_inc_small by done. split_and!; [done| |done].
    unfold pool_ok; simpl. rewrite !length_insert. split_and!; [done..| |by apply free_clean_take].
    rewrite (used_count_set _ _ _ true E). lia.
  - split; [done|]. by eapply first_free_none.
Qed.

Lemma wp_edge_link_scan m e : forall l p fuel,
  is_chain (m_pool m) p l -> e ∉ l -> (length l < fuel)%nat ->
  wp (edge_link_scan fuel p e) (fun b m' => b = false /\ m' = m) m.
Proof.
  induction l as [|w l IH]; intros p fuel Hc He Hf;
    (destruct fuel as [|fuel]; [simpl in Hf; lia|]); simpl in *.
  - subst p. by wsteps.
  - destruct Hc as (-> & ed & E & Hc). rewrite bool_decide_false by set_solver.
    wsteps. apply IH; [done|set_solver|lia].
Qed.

(** Effect of wiring: [m'] is [m] with one more edge at the head of the chain
    of [o], naming slot [i] of [c], or [m] itself when the pool is exhausted. *)
Definition cdt_wired (o : objp) (h : gj_obj_hdr) (c : cnp) (i : Z) (m m' : cap_mem) : Prop :=
  (m' = m /\ Forall (fun b => b = true) (m_used m))
  \/ exists e,
    m_used m !! e = Some false
    /\ m' = set_objs (<[o := hdr_set_cdt h (Some e)]>)
             (set_pool (<[e := CdtEdge (hdr_pCdtHead h) (Some c) i]> (m_pool m))
                (<[e := true]> (m_used m)) (m_pool_used m + 1) m).

(** The chain after a successful wire. *)
Lemma cdt_wired_head o h c i m m' l e :
  chain_at m o h l -> pool_ok m -> m_used m !! e = Some false ->
  m' = set_objs (<[o := hdr_set_cdt h (Some e)]>)
         (set_pool (<[e := CdtEdge (hdr_pCdtHead h) (Some c) i]> (m_pool m))
            (<[e := true]> (m_used m)) (m_pool_used m + 1) m) ->
  chain_at m' o (hdr_set_cdt h (Some e)) (e :: l)
  /\ edge_tgt (<[e := CdtEdge (hdr_pCdtHead h) (Some c) i]> (m_pool m)) e = Some (Some c, i).
Proof.
  intros (Ho & Hc & Hnd & Hu) (Hpl & Hul & Hpu) Ee ->.
  assert (e ∉ l) as Hel.
  { intros Hin. rewrite Forall_forall in Hu. apply Hu in Hin. congruence. }
  assert (e < length (m_pool m))%nat by (apply lookup_lt_Some in Ee; lia).
  split; [|unfold edge_tgt; by rewrite list_lookup_insert_eq].
  unfold chain_at; simpl. split_and!.
  - by rewrite lookup_insert_eq.
  - done.
  - eexists. rewrite list_lookup_insert_eq by done. split; [done|]. simpl.
    eapply is_chain_ext, Hc. intros j Hj. by rewrite list_lookup_insert_ne by set_solver.
  - by apply NoDup_cons.
  - constructor.
    + apply list_lookup_insert_eq. by apply lookup_lt_Some in Ee.
    + rewrite Forall_forall in Hu |- *. intros j Hj.
      rewrite list_lookup_insert_ne by set_solver. auto.
Qed.

Lemma cdt_wired_chain o h c i m m' l :
  chain_at m o h l -> pool_ok m -> cdt_wired o h c i m m' ->
  pool_ok m' /\
  ((m' = m) \/
   exists e, m_used m !! e = Some false /\ chain_at m' o (hdr_set_cdt h (Some e)) (e :: l)).
Proof.
  intros Hch Hpo [[-> _]|(e & Ee & Em')]; [by auto|].
  destruct (cdt_wired_head _ _ _ _ _ _ _ _ Hch Hpo Ee Em') as [Hch' _].
  split; [|eauto]. destruct Hpo as (Hpl & Hul & Hpu & Hfc). rewrite Em'.
  unfold pool_ok; simpl. rewrite !length_insert. split_and!; [done..| |by apply free_clean_take].
  rewrite (used_count_set _ _ _ true Ee). lia.
Qed.
End EdgeSpecs.

(** ** The inventory hook

    [cdt_soft_inventory_maybe_once] runs the file's self-test once, on
    stack-local CNodes and objects.  What the operations rely on: it leaves
    every object, CNode, quota account and queue entry alone, and it does not
    touch a pool edge that is in use. *)
Definition hook_frame (m m' : cap_mem) : Prop :=
  m_objs m' = m_objs m /\ m_cns m' = m_cns m /\ m_quotas m' = m_quotas m
  /\ m_rq m' = m_rq m /\ m_rqlen m' = m_rqlen m /\ m_rqcur m' = m_rqcur m
  /\ (forall i, m_used m !! i = Some true ->
        m_used m' !! i = Some true /\ m_pool m' !! i = m_pool m !! i)
  /\ pool_ok m'.

Class CapHook (hook : capM unit) : Prop :=
  hook_ok : forall m, pool_ok m -> wp hook (fun _ m' => hook_frame m m') m.

Lemma hook_frame_refl m : pool_ok m -> hook_frame m m.
Proof. intros Hp. unfold hook_frame. split_and!; auto. Qed.

(** The hook once the inventory lamp is lit. *)
#[export] Instance ret_hook : CapHook (pret tt).
Proof. intros m Hp. wsteps. by apply hook_frame_refl. Qed.

Lemma chain_at_frame m m' o h l : chain_at m o h l -> hook_frame m m' -> chain_at m' o h l.
Proof.
  intros (Ho & Hc & Hnd & Hu) (Eo & _ & _ & _ & _ & _ & Hk & _).
  rewrite Forall_forall in Hu. split_and!.
  - by rewrite Eo.
  - eapply is_chain_ext, Hc. intros e He. by apply Hk, Hu.
  - done.
  - apply Forall_forall. intros e He. by apply Hk, Hu.
Qed.

Section WireSpec.
Context (hook : capM unit) `{!CapHook hook}.

Lemma wp_audit m o h l b :
  chain_at m o h l -> pool_ok m ->
  wp (cdt_soft_empty_edge_audit (Some o) b) (fun _ m' => m' = m) m.
Proof.
  intros Hch Hpo. pose proof Hch as (Ho & _). unfold cdt_soft_empty_edge_audit. wsteps.
  eapply wp_mono; [eapply wp_chain_depth; [done|apply Hpo]|].
  intros n ? [-> ->]. wsteps. destruct b; [case_match|]; by wsteps.
Qed.

Lemma wp_rollup m :
  pool_ok m -> wp (cdt_soft_coverage_rollup hook) (fun _ m' => hook_frame m m') m.
Proof.
  intros Hpo. unfold cdt_soft_coverage_rollup. wsteps. apply wp_tel. intros t.
  pose proof (hook_frame_refl m Hpo).
  repeat case_match; wsteps; try done. by apply hook_ok.
Qed.

Lemma wp_edge_try_wire m o h l c cn i sA sO sM :
  chain_at m o h l -> pool_ok m -> m_cns m !! c = Some cn ->
  cn_pSlots cn <> None -> 0 <= i < cn_cSlots cn ->
  wp (cdt_edge_try_wire hook (Some o) (Some c) i sA sO sM)
     (fun _ m' => exists m1, cdt_wired o h c i m m1 /\ hook_frame m1 m') m.
Proof.
  intros Hch Hpo Hcn Hps Hi. unfold cdt_edge_try_wire. wsteps.
  eapply wp_mono; [by apply wp_edge_alloc|]. intros [e|] m1; cbv beta iota.
  - intros (He & Hpo1 & ->). set (m1 := set_pool _ _ _ _) in *.
    pose proof Hch as (Ho & Hc & Hnd & Hu). pose proof Hpo as (Hpl & Hul & _).
    assert (e ∉ l) as Hel.
    { intros Hin. rewrite Forall_forall in Hu. apply Hu in Hin. congruence. }
    assert (e < length (m_pool m))%nat by (apply lookup_lt_Some in He; lia).
    assert (is_chain (m_pool m1) (hdr_pCdtHead h) l) as Hc1.
    { eapply is_chain_ext, Hc. intros j Hj. simpl. by rewrite list_lookup_insert_ne by set_solver. }
    pose proof (is_chain_bound _ _ _ Hc Hnd) as Hb.
    unfold gj_cdt_edge_link. wsteps.
    rewrite bool_decide_false by done. rewrite (proj2 (Z.leb_gt _ _)) by lia. simpl orb. cbv iota.
    wsteps. eapply wp_mono; [eapply (wp_edge_link_scan m1 e l)|]; [done|done|unfold CDT_FUEL; lia|].
    intros b ? [-> ->]. wsteps.
    eapply wp_edge_store; [simpl; by apply list_lookup_insert_eq|]. cbv beta.
    wsteps. change (is_ok GJ_OK) with true. cbv iota.
    set (m2 := set_objs _ _). wsteps.
    assert (cdt_wired o h c i m m2) as Hw.
    { right. exists e. split; [done|]. unfold m2, m1, set_objs, set_pool; simpl.
      by rewrite list_insert_insert_eq. }
    destruct (cdt_wired_chain _ _ _ _ _ _ _ Hch Hpo Hw) as [Hpo2 [Heq|(e2 & _ & Hch2)]].
    { exfalso. assert (m_used m2 !! e = m_used m !! e) as Hx by (by rewrite Heq).
      simpl in Hx. rewrite list_lookup_insert_eq in Hx by (by apply lookup_lt_Some in He).
      congruence. }
    eapply wp_mono; [by eapply wp_audit|]. intros ? ? ->.
    wsteps. eapply wp_mono; [by apply wp_rollup|]. eauto.
  - intros [-> Hf]. wsteps. eapply wp_mono; [by eapply wp_audit|]. intros ? ? ->.
    wsteps. eapply wp_mono; [by apply wp_rollup|]. intros ? m2 Hfr.
    exists m. split; [by left|done].
Qed.
End WireSpec.
