(* ===== verification/CapQuota.v ===== *)
(** The slot-quota ledger ([kernel/cap/cnode.c]: [gj_cap_quota_*]).

    Accounts form a forest through [pParent]; a charge or refund walks at most
    [GJ_CAP_QUOTA_DEPTH_MAX] accounts from the leaf.  The second part shows
    what a charge and a refund do to every account of that walk, and that
    [gj_cap_quota_set_parent] keeps the walk free of repetitions, so that no
    account is charged twice for one slot. *)
From stdpp Require Import base gmap list strings fin_maps.
From Stdlib Require Import ZArith Lia.
From S2P Require Import Prelude CapTypes.

(** ** Definitions *)

Definition gj_cap_quota_init (pQ : option quotap) (u32Limit : Z) : capM unit :=
  match pQ with
  | None => pret tt
  | Some q => quota_store q (CapQuota u32Limit 0 0 0 0 0 None)
  end.

Definition gj_cap_quota_attach (pCnode : option cnp) (pQ : option quotap) : capM unit :=
  match pCnode with
  | None => pret tt
  | Some c => cn <- cn_load c ;; cn_store c (cn_set_quota cn pQ)
  end.

(** The ancestor scan of [gj_cap_quota_set_parent]: is [pQ] on the walk? *)
Fixpoint quota_cycle_scan (u32Left : nat) (pWalk : option quotap) (pQ : quotap) : capM bool :=
  match u32Left, pWalk with
  | O, _ | _, None => pret false
  | S n, Some w =>
      if bool_decide (w = pQ) then pret true
      else v <- quota_load w ;; quota_cycle_scan n (q_pParent v) pQ
  end.

Definition q_set_parent (v : gj_cap_quota) (p : option quotap) : gj_cap_quota :=
  CapQuota (q_u32Limit v) (q_u32Used v) (q_u32Exhaust v) (q_u32HighWater v)
    (q_u32ChargeOk v) (q_u32RefundOk v) p.

Definition gj_cap_quota_set_parent (pQ pParent : option quotap) : capM unit :=
  match pQ with
  | None => pret tt
  | Some q =>
      match pParent with
      | None => v <- quota_load q ;; quota_store q (q_set_parent v None)
      | Some p =>
          if bool_decide (p = q) then pret tt
          else
            fCycle <- quota_cycle_scan GJ_CAP_QUOTA_DEPTH_MAX (Some p) q ;;
            if fCycle : bool then pret tt
            else v <- quota_load q ;; quota_store q (q_set_parent v (Some p))
      end
  end.

Definition gj_cap_quota_used (pQ : option quotap) : capM Z :=
  match pQ with None => pret 0 | Some q => v <- quota_load q ;; pret (q_u32Used v) end.
Definition gj_cap_quota_limit (pQ : option quotap) : capM Z :=
  match pQ with None => pret 0 | Some q => v <- quota_load q ;; pret (q_u32Limit v) end.
Definition gj_cap_quota_highwater (pQ : option quotap) : capM Z :=
  match pQ with None => pret 0 | Some q => v <- quota_load q ;; pret (q_u32HighWater v) end.
Definition gj_cap_quota_exhaust_count (pQ : option quotap) : capM Z :=
  match pQ with None => pret 0 | Some q => v <- quota_load q ;; pret (q_u32Exhaust v) end.

(** One account's update when it is found exhausted, charged, refunded. *)
Definition q_exhaust (v : gj_cap_quota) : gj_cap_quota :=
  CapQuota (q_u32Limit v) (q_u32Used v) (u32_wrap (q_u32Exhaust v + 1)) (q_u32HighWater v)
    (q_u32ChargeOk v) (q_u32RefundOk v) (q_pParent v).
Definition q_charge (v : gj_cap_quota) : gj_cap_quota :=
  let used := u32_wrap (q_u32Used v + 1) in
  CapQuota (q_u32Limit v) used (q_u32Exhaust v)
    (if q_u32HighWater v <? used then used else q_u32HighWater v)
    (u32_wrap (q_u32ChargeOk v + 1)) (q_u32RefundOk v) (q_pParent v).
Definition q_refund (v : gj_cap_quota) : gj_cap_quota :=
  if 0 <? q_u32Used v then
    CapQuota (q_u32Limit v) (q_u32Used v - 1) (q_u32Exhaust v) (q_u32HighWater v)
      (q_u32ChargeOk v) (u32_wrap (q_u32RefundOk v + 1)) (q_pParent v)
  else v.

(** Pass 1 of the charge: every account on the walk must have room. *)
Fixpoint quota_charge_check (u32Left : nat) (pWalk : option quotap) : capM bool :=
  match u32Left, pWalk with
  | O, _ | _, None => pret true
  | S n, Some q =>
      v <- quota_load q ;;
      if q_u32Limit v <=? q_u32Used v then
        quota_store q (q_exhaust v) ;;;
        tick "g_u32SoftQuotaChargeFail" ;;;
        pret false
      else quota_charge_check n (q_pParent v)
  end.

(** Pass 2 of the charge, and the refund: update every account on the walk. *)
Fixpoint quota_apply (f : gj_cap_quota -> gj_cap_quota) (u32Left : nat)
    (pWalk : option quotap) : capM unit :=
  match u32Left, pWalk with
  | O, _ | _, None => pret tt
  | S n, Some q =>
      v <- quota_load q ;;
      quota_store q (f v) ;;;
      quota_apply f n (q_pParent v)
  end.

Definition gj_cap_quota_slot_charge (pAccount : option quotap) : capM gj_status :=
  match pAccount with
  | None => tick "g_u32SoftQuotaChargeNop" ;;; pret GJ_OK
  | Some q =>
      fRoom <- quota_charge_check GJ_CAP_QUOTA_DEPTH_MAX (Some q) ;;
      if fRoom : bool then
        quota_apply q_charge GJ_CAP_QUOTA_DEPTH_MAX (Some q) ;;;
        tick "g_u32SoftQuotaChargeOk" ;;;
        pret GJ_OK
      else pret GJ_ERR_QUOTA
  end.

Definition gj_cap_quota_slot_refund (pAccount : option quotap) : capM gj_status :=
  match pAccount with
  | None => tick "g_u32SoftQuotaRefundNop" ;;; pret GJ_OK
  | Some q =>
      quota_apply q_refund GJ_CAP_QUOTA_DEPTH_MAX (Some q) ;;;
      tick "g_u32SoftQuotaRefundOk" ;;;
      pret GJ_OK
  end.

#[global] Arguments gj_cap_quota_slot_charge : simpl never.
#[global] Arguments gj_cap_quota_slot_refund : simpl never.

(** ** Walks *)
Abbreviation ledger := (gmap quotap gj_cap_quota).

(** The first [n] accounts of the walk from [p]. *)
Fixpoint qchain (n : nat) (qs : ledger) (p : option quotap) : list quotap :=
  match n, p with
  | S n', Some q =>
      q :: match qs !! q with Some v => qchain n' qs (q_pParent v) | None => [] end
  | _, _ => []
  end.

(** The accounts one charge or refund at [p] visits. *)
Abbreviation qwalk := (qchain GJ_CAP_QUOTA_DEPTH_MAX).

(** [f] applied along a walk, leaf first. *)
Definition qupd (f : gj_cap_quota -> gj_cap_quota) (l : list quotap) (qs : ledger) : ledger :=
  foldl (fun qs q => alter f q qs) qs l.

(** No account has a dangling parent. *)
Definition parents_ok (qs : ledger) : Prop :=
  forall q v p, qs !! q = Some v -> q_pParent v = Some p -> is_Some (qs !! p).

(** The pointer [p] is NULL or an allocated account. *)
Definition ptr_ok (qs : ledger) (p : option quotap) : Prop :=
  match p with Some q => is_Some (qs !! q) | None => True end.

(** The [k]-th ancestor. *)
Fixpoint anc (qs : ledger) (k : nat) (q : quotap) : option quotap :=
  match k with
  | O => Some q
  | S k' => qs !! q ≫= fun v => q_pParent v ≫= anc qs k'
  end.

(** No cycle of at most [GJ_CAP_QUOTA_DEPTH_MAX] accounts. *)
Definition acyclic (qs : ledger) : Prop :=
  forall q k, (1 <= k <= GJ_CAP_QUOTA_DEPTH_MAX)%nat -> anc qs k q <> Some q.

Definition quota_range (v : gj_cap_quota) : Prop :=
  0 <= q_u32Used v <= q_u32Limit v /\ q_u32Limit v <= U32_MAX.

(** The ledger invariant. *)
Definition ledger_ok (qs : ledger) : Prop :=
  parents_ok qs /\ acyclic qs /\ (forall q v, qs !! q = Some v -> quota_range v).

(** A field update that keeps the forest. *)
Definition keeps_parent (f : gj_cap_quota -> gj_cap_quota) : Prop :=
  forall v, q_pParent (f v) = q_pParent v.

Section Walks.
Implicit Types (qs : ledger) (q : quotap) (p : option quotap).

Lemma q_charge_parent : keeps_parent q_charge.
Proof. by intros []. Qed.
Lemma q_refund_parent : keeps_parent q_refund.
Proof. intros v. unfold q_refund. by case_match. Qed.
Lemma q_exhaust_parent : keeps_parent q_exhaust.
Proof. by intros []. Qed.

Lemma parent_alter f qs q x :
  keeps_parent f -> q_pParent <$> alter f q qs !! x = q_pParent <$> qs !! x.
Proof.
  intros Hf. rewrite lookup_alter. case_decide as E; [subst|done].
  destruct (qs !! x); simpl; [|done]. by rewrite Hf.
Qed.

Lemma qchain_ext n qs qs' p :
  (forall x, q_pParent <$> qs' !! x = q_pParent <$> qs !! x) -> qchain n qs' p = qchain n qs p.
Proof.
  intros H. revert p. induction n as [|n IH]; intros [q|]; simpl; try done.
  f_equal. specialize (H q). destruct (qs' !! q), (qs !! q); simplify_eq/=; [|done].
  rewrite IH. congruence.
Qed.

Lemma anc_ext qs qs' k q :
  (forall x, q_pParent <$> qs' !! x = q_pParent <$> qs !! x) -> anc qs' k q = anc qs k q.
Proof.
  intros H. revert q. induction k as [|k IH]; intros q; simpl; [done|].
  specialize (H q). destruct (qs' !! q) as [g|], (qs !! q) as [g0|]; simplify_eq/=; [|done].
  rewrite H. destruct (q_pParent g0); simpl; [apply IH|done].
Qed.

Lemma qupd_parent f l qs x :
  keeps_parent f -> q_pParent <$> qupd f l qs !! x = q_pParent <$> qs !! x.
Proof.
  intros Hf. revert qs. induction l as [|q l IH]; intros qs; [done|].
  change (qupd f (q :: l) qs) with (qupd f l (alter f q qs)).
  rewrite IH. by apply parent_alter.
Qed.

Lemma qupd_lookup f l qs q :
  NoDup l -> qupd f l qs !! q = if bool_decide (q ∈ l) then f <$> qs !! q else qs !! q.
Proof.
  revert qs. induction l as [|a l IH]; intros qs Hnd; [done|].
  apply NoDup_cons in Hnd as [Ha Hnd]. unfold qupd in *. simpl. rewrite IH by done.
  rewrite lookup_alter. destruct (decide (a = q)) as [->|Hne].
  - rewrite bool_decide_false by done. rewrite bool_decide_true by set_solver. done.
  - rewrite (bool_decide_ext (q ∈ a :: l) (q ∈ l)); [done|set_solver].
Qed.
End Walks.

(** ** Specifications *)
Section QuotaSpecs.
Implicit Types (qs : ledger) (q : quotap) (p : option quotap) (m : cap_mem).

(** Is there an account without room among the first [n]? *)
Definition has_room (v : gj_cap_quota) : bool := q_u32Used v <? q_u32Limit v.

Fixpoint first_full (n : nat) qs p : option quotap :=
  match n, p with
  | S n', Some q =>
      match qs !! q with
      | Some v => if has_room v then first_full n' qs (q_pParent v) else Some q
      | None => None
      end
  | _, _ => None
  end.

Lemma ptr_ok_parent qs q v : parents_ok qs -> qs !! q = Some v -> ptr_ok qs (q_pParent v).
Proof. intros H E. destruct (q_pParent v) eqn:Ep; simpl; eauto. Qed.

Lemma ptr_ok_ext qs qs' p :
  (forall x, q_pParent <$> qs' !! x = q_pParent <$> qs !! x) -> ptr_ok qs p -> ptr_ok qs' p.
Proof.
  intros H. destruct p as [q|]; simpl; [|done]. specialize (H q). intros [v E].
  rewrite E in H. destruct (qs' !! q); [eauto|done].
Qed.

Lemma parents_ok_ext qs qs' :
  (forall x, q_pParent <$> qs' !! x = q_pParent <$> qs !! x) -> parents_ok qs -> parents_ok qs'.
Proof.
  intros H Hp q v p E Ep. apply (ptr_ok_ext qs qs' (Some p)); [done|].
  pose proof (H q) as Hq. rewrite E in Hq. simpl in Hq.
  destruct (qs !! q) as [v0|] eqn:E0; [|done]. simpl in Hq.
  apply (Hp q v0 p); [done|congruence].
Qed.

Lemma wp_charge_check n m p :
  parents_ok (m_quotas m) -> ptr_ok (m_quotas m) p ->
  wp (quota_charge_check n p) (fun b m' =>
    match first_full n (m_quotas m) p with
    | Some q => b = false /\ m' = set_quotas (alter q_exhaust q) m
    | None => b = true /\ m' = m
    end) m.
Proof.
  intros Hp. revert p. induction n as [|n IH]; intros [q|]; simpl; intros Hq; wsteps; try done.
  destruct Hq as [v E]. rewrite E. wsteps. unfold has_room.
  destruct (Z.leb_spec (q_u32Limit v) (q_u32Used v)).
  - rewrite (proj2 (Z.ltb_ge _ _)) by lia. wsteps. split; [done|].
    unfold set_quotas. f_equal. symmetry. by apply alter_Some_insert.
  - rewrite (proj2 (Z.ltb_lt _ _)) by lia. apply IH. by eapply ptr_ok_parent.
Qed.

Lemma wp_quota_apply f n m p :
  keeps_parent f -> parents_ok (m_quotas m) -> ptr_ok (m_quotas m) p ->
  wp (quota_apply f n p)
     (fun _ m' => m' = set_quotas (qupd f (qchain n (m_quotas m) p)) m) m.
Proof.
  intros Hf. revert m p. induction n as [|n IH]; intros m [q|] Hp; simpl; intros Hq; wsteps;
    try (by destruct m).
  destruct Hq as [v E]. rewrite E. wsteps.
  set (m1 := set_quotas (<[q := f v]>) m).
  assert (m_quotas m1 = alter f q (m_quotas m)) as E1.
  { simpl. symmetry. by apply alter_Some_insert. }
  assert (forall x, q_pParent <$> m_quotas m1 !! x = q_pParent <$> m_quotas m !! x) as Hx.
  { intros x. rewrite E1. by apply parent_alter. }
  eapply wp_mono; [apply IH|].
  - by eapply parents_ok_ext.
  - eapply ptr_ok_ext; [done|]. by eapply ptr_ok_parent.
  - intros ? m' ->. rewrite (qchain_ext n _ _ _ Hx). unfold set_quotas at 1. rewrite E1. done.
Qed.

(** [gj_cap_quota_slot_charge] on every branch. *)
Lemma wp_slot_charge m p :
  parents_ok (m_quotas m) -> ptr_ok (m_quotas m) p ->
  wp (gj_cap_quota_slot_charge p) (fun st m' =>
    match first_full GJ_CAP_QUOTA_DEPTH_MAX (m_quotas m) p with
    | Some q => st = GJ_ERR_QUOTA /\ m' = set_quotas (alter q_exhaust q) m
    | None => st = GJ_OK /\ m' = set_quotas (qupd q_charge (qwalk (m_quotas m) p)) m
    end) m.
Proof.
  intros Hp Hq. unfold gj_cap_quota_slot_charge. destruct p as [q|].
  - wsteps. eapply wp_mono; [by apply wp_charge_check|]. intros b m1 H.
    destruct (first_full _ _ _) as [q'|]; destruct H as [-> ->]; wsteps; [done|].
    eapply wp_mono; [apply wp_quota_apply; [apply q_charge_parent|done..]|].
    intros ? m' ->. by wsteps.
  - wsteps. simpl. split; [done|]. by destruct m.
Qed.

(** [gj_cap_quota_slot_refund] always succeeds. *)
Lemma wp_slot_refund m p :
  parents_ok (m_quotas m) -> ptr_ok (m_quotas m) p ->
  wp (gj_cap_quota_slot_refund p) (fun st m' =>
    st = GJ_OK /\ m' = set_quotas (qupd q_refund (qwalk (m_quotas m) p)) m) m.
Proof.
  intros Hp Hq. unfold gj_cap_quota_slot_refund. destruct p as [q|]; wsteps.
  - eapply wp_mono; [apply wp_quota_apply; [apply q_refund_parent|done..]|].
    intros ? m' ->. by wsteps.
  - split; [done|]. by destruct m.
Qed.
End QuotaSpecs.

(** ** The ledger invariant *)
Section Ledger.
Implicit Types (qs : ledger) (q x y : quotap) (p : option quotap) (m : cap_mem).

Lemma anc_add qs i j q : anc qs (i + j) q = anc qs i q ≫= anc qs j.
Proof.
  revert q. induction i as [|i IH]; intros q; simpl; [done|].
  destruct (qs !! q) as [v|]; simpl; [|done]. destruct (q_pParent v); simpl; [apply IH|done].
Qed.

Lemma qchain_lookup n qs q i :
  qchain n qs (Some q) !! i = if bool_decide (i < n)%nat then anc qs i q else None.
Proof.
  revert q i. induction n as [|n IH]; intros q i; cbn [qchain].
  - rewrite lookup_nil. by rewrite bool_decide_false by lia.
  - destruct i as [|i].
    + by rewrite bool_decide_true by lia.
    + rewrite lookup_cons. cbn [anc].
      rewrite (bool_decide_ext (S i < S n)%nat (i < n)%nat) by lia.
      destruct (qs !! q) as [v|]; simpl; [|by case_match].
      destruct (q_pParent v) as [p'|]; simpl; [by rewrite IH|].
      destruct n; by case_match.
Qed.

(** A walk of an acyclic ledger never visits an account twice. *)
Lemma qwalk_NoDup qs p : acyclic qs -> NoDup (qwalk qs p).
Proof.
  intros Ha. destruct p as [q|]; [|constructor].
  apply NoDup_alt. intros i j x. rewrite !qchain_lookup.
  case_bool_decide as Hi; [|done]. case_bool_decide as Hj; [|done].
  assert (forall a b, (a < b < GJ_CAP_QUOTA_DEPTH_MAX)%nat ->
            anc qs a q = Some x -> anc qs b q = Some x -> False) as Hlt.
  { intros a b Hab H1 H2. replace b with (a + (b - a))%nat in H2 by lia.
    rewrite anc_add, H1 in H2. simpl in H2. apply (Ha x (b - a)%nat); [lia|done]. }
  intros H1 H2. destruct (lt_eq_lt_dec i j) as [[?|?]|?]; [|done|];
    exfalso; eapply Hlt; eauto; lia.
Qed.

Lemma ledger_ok_upd f l qs :
  keeps_parent f -> NoDup l ->
  (forall q v, q ∈ l -> qs !! q = Some v -> quota_range v -> quota_range (f v)) ->
  ledger_ok qs -> ledger_ok (qupd f l qs).
Proof.
  intros Hf Hnd Hr (Hp & Ha & Hv).
  assert (forall x, q_pParent <$> qupd f l qs !! x = q_pParent <$> qs !! x) as Hx
    by (intros x; by apply qupd_parent).
  split_and!.
  - by eapply parents_ok_ext.
  - intros q k Hk. rewrite (anc_ext _ _ _ _ Hx). by apply Ha.
  - intros q v. rewrite qupd_lookup by done. case_bool_decide as Hin; [|by apply Hv].
    destruct (qs !! q) as [v0|] eqn:E; simpl; [|done]. intros [= <-]. eauto.
Qed.

Lemma first_full_none n qs p q v :
  first_full n qs p = None -> q ∈ qchain n qs p -> qs !! q = Some v -> has_room v = true.
Proof.
  revert p. induction n as [|n IH]; intros [a|]; simpl; try set_solver.
  intros H Hin E. destruct (qs !! a) as [va|] eqn:Ea.
  - apply elem_of_cons in Hin as [->|Hin]; simplify_eq.
    + by destruct (has_room va).
    + destruct (has_room va); [eauto|done].
  - set_solver.
Qed.

Lemma ledger_ok_charge qs p :
  ledger_ok qs -> first_full GJ_CAP_QUOTA_DEPTH_MAX qs p = None ->
  ledger_ok (qupd q_charge (qwalk qs p) qs).
Proof.
  intros Hok Hf. apply ledger_ok_upd; [apply q_charge_parent|apply qwalk_NoDup, Hok| |done].
  intros q v Hin E Hv. pose proof (first_full_none _ _ _ _ _ Hf Hin E) as Hr.
  apply Z.ltb_lt in Hr. unfold quota_range, U32_MAX in *. simpl.
  unfold u32_wrap. rewrite Z.mod_small by lia. lia.
Qed.

Lemma ledger_ok_refund qs p : ledger_ok qs -> ledger_ok (qupd q_refund (qwalk qs p) qs).
Proof.
  intros Hok. apply ledger_ok_upd; [apply q_refund_parent|apply qwalk_NoDup, Hok| |done].
  intros q v _ _ Hv. unfold quota_range, q_refund in *. case_match eqn:E; simpl; [|done].
  apply Z.ltb_lt in E. lia.
Qed.

Lemma ledger_ok_exhaust qs q : ledger_ok qs -> ledger_ok (alter q_exhaust q qs).
Proof.
  intros Hok. apply (ledger_ok_upd q_exhaust [q]); [apply q_exhaust_parent| | |done].
  - apply NoDup_singleton.
  - by intros ? [].
Qed.

Lemma wp_cycle_scan n m q p :
  parents_ok (m_quotas m) -> ptr_ok (m_quotas m) p ->
  wp (quota_cycle_scan n p q)
     (fun b m' => m' = m /\ (b = true <-> q ∈ qchain n (m_quotas m) p)) m.
Proof.
  intros Hp. revert p. induction n as [|n IH]; intros [w|]; simpl; intros Hw; wsteps;
    try (split; [done|set_solver]).
  case_bool_decide as Hwq.
  - wsteps. split; [done|]. set_solver.
  - destruct Hw as [v E]. rewrite E. wsteps.
    eapply wp_mono; [apply IH; by eapply ptr_ok_parent|].
    intros b m' [-> Hb]. split; [done|]. rewrite Hb. set_solver.
Qed.

Section SetParent.
Variables (qs qs' : ledger) (q p : quotap) (v : gj_cap_quota).
Hypothesis Hqs' : qs' = <[q := q_set_parent v (Some p)]> qs.

Lemma lookup_other x : x <> q -> qs' !! x = qs !! x.
Proof. intros H. by rewrite Hqs', lookup_insert_ne. Qed.

(** An ancestor path that never leaves [q] is unchanged. *)
Lemma anc_other k x y :
  anc qs' k x = Some y -> (forall i, (i < k)%nat -> anc qs' i x <> Some q) -> anc qs k x = Some y.
Proof.
  revert x. induction k as [|k IH]; intros x; simpl; [done|]. intros H Hn.
  assert (x <> q) as Hxq by (intros ->; by apply (Hn 0%nat); [lia|]).
  rewrite lookup_other in H by done.
  destruct (qs !! x) as [vx|] eqn:Ex; simpl in *; [|done].
  destruct (q_pParent vx) as [px|] eqn:Epx; simpl in *; [|done].
  apply IH; [done|]. intros i Hi. specialize (Hn (S i)). simpl in Hn.
  rewrite lookup_other, Ex in Hn by done. simpl in Hn. rewrite Epx in Hn. apply Hn. lia.
Qed.

(** If the new forest reaches [q] from [x], so did the old one, no later. *)
Lemma anc_reach j x : anc qs' j x = Some q -> exists i, (i <= j)%nat /\ anc qs i x = Some q.
Proof.
  revert x. induction j as [|j IH]; intros x H.
  - exists 0%nat. split; [lia|]. simpl in *. done.
  - destruct (decide (x = q)) as [->|Hxq]; [exists 0%nat; split; [lia|done]|].
    simpl in H. rewrite lookup_other in H by done.
    destruct (qs !! x) as [vx|] eqn:Ex; simpl in H; [|done].
    destruct (q_pParent vx) as [px|] eqn:Epx; simpl in H; [|done].
    destruct (IH px H) as (i & Hi & Hr).
    exists (S i). split; [lia|]. simpl. rewrite Ex. simpl. by rewrite Epx.
Qed.

Lemma acyclic_set_parent : acyclic qs -> q ∉ qwalk qs (Some p) -> acyclic qs'.
Proof.
  intros Ha Hn x k Hk Hx.
  destruct (decide (Exists (fun i => anc qs' i x = Some q) (seq 0 k))) as [Hex|Hnone].
  - apply Exists_exists in Hex as (i & Hi%elem_of_seq & Hiq).
    assert (anc qs' k q = Some q) as Hcyc.
    { assert (anc qs' (i + k) x = Some q) as H1.
      { rewrite Nat.add_comm, anc_add, Hx. done. }
      rewrite anc_add, Hiq in H1. done. }
    destruct k as [|k]; [lia|]. simpl in Hcyc.
    assert (qs' !! q = Some (q_set_parent v (Some p))) as Eq'
      by (by rewrite Hqs', lookup_insert_eq).
    rewrite Eq' in Hcyc. simpl in Hcyc.
    destruct (anc_reach k p Hcyc) as (j & Hj & Hr).
    apply Hn. apply list_elem_of_lookup. exists j. rewrite qchain_lookup.
    rewrite bool_decide_true; [done|]. lia.
  - apply (Ha x k Hk). apply anc_other; [done|]. intros i Hi Hiq. apply Hnone.
    apply Exists_exists. exists i. split; [|done]. apply elem_of_seq. lia.
Qed.
End SetParent.

(** An account without parent makes no cycle. *)
Lemma acyclic_cut qs q v : q_pParent v = None -> acyclic qs -> acyclic (<[q := v]> qs).
Proof.
  intros Hv Ha x k Hk Hx. apply (Ha x k Hk).
  assert (forall y, anc (<[q := v]> qs) k y <> None -> anc (<[q := v]> qs) k y = anc qs k y) as Hk'.
  { clear Hk Hx. induction k as [|k IH]; intros y; simpl; [done|]. rewrite lookup_insert.
    case_decide; simpl; [by rewrite Hv|]. destruct (qs !! y) as [vy|]; simpl; [|done].
    destruct (q_pParent vy); simpl; [apply IH|done]. }
  rewrite <-Hk'; [done|]. by rewrite Hx.
Qed.

Lemma ledger_ok_root qs q v :
  q_pParent v = None -> quota_range v -> ledger_ok qs -> ledger_ok (<[q := v]> qs).
Proof.
  intros Hv Hr (H1 & H2 & H3). split_and!.
  - intros x vx px. rewrite !lookup_insert. repeat case_decide; simplify_eq/=; eauto. intros [= <-]. congruence.
  - by apply acyclic_cut.
  - intros x vx. rewrite lookup_insert. case_decide; [by intros [= <-]|apply H3].
Qed.

(** [gj_cap_quota_set_parent] keeps the ledger invariant. *)
Lemma wp_set_parent m pQ pP :
  ledger_ok (m_quotas m) -> ptr_ok (m_quotas m) pQ -> ptr_ok (m_quotas m) pP ->
  wp (gj_cap_quota_set_parent pQ pP)
     (fun _ m' => exists qs', m' = set_quotas (fun _ => qs') m /\ ledger_ok qs'
        /\ forall q, (fun v => (q_u32Limit v, q_u32Used v)) <$> qs' !! q
                   = (fun v => (q_u32Limit v, q_u32Used v)) <$> m_quotas m !! q) m.
Proof.
  intros Hok HQ HP. pose proof Hok as (Hpar & Ha & Hr).
  assert (m = set_quotas (fun _ => m_quotas m) m) as Hid by (by destruct m).
  unfold gj_cap_quota_set_parent. destruct pQ as [q|]; [|wsteps; eauto].
  destruct HQ as [v E].
  assert (forall p', ptr_ok (m_quotas m) p' ->
    acyclic (<[q := q_set_parent v p']> (m_quotas m)) ->
    exists qs', set_quotas (<[q := q_set_parent v p']>) m = set_quotas (fun _ => qs') m
      /\ ledger_ok qs' /\ forall x, (fun v => (q_u32Limit v, q_u32Used v)) <$> qs' !! x
                   = (fun v => (q_u32Limit v, q_u32Used v)) <$> m_quotas m !! x) as Hset.
  { intros p' Hp' Hac. eexists. split; [done|]. split.
    - split_and!; [|done|].
      + intros x vx px. rewrite !lookup_insert. repeat case_decide; simplify_eq/=; eauto.
        * intros [= <-] E2. simpl in E2. subst p'. simpl in Hp'. done.
      + intros x vx. rewrite lookup_insert. case_decide; [|apply Hr].
        intros [= <-]. apply (Hr q v E).
    - intros x. rewrite lookup_insert. case_decide; [subst|done]. by rewrite E. }
  destruct pP as [p|].
  - case_bool_decide; [wsteps; eauto|]. wsteps.
    eapply wp_mono; [by apply wp_cycle_scan|]. intros b m' [-> Hb].
    destruct b; wsteps; [eauto|].
    apply Hset; [done|]. eapply acyclic_set_parent; [done|done|].
    intros Hin. by apply Hb in Hin.
  - wsteps. apply Hset; [done|]. by apply acyclic_cut.
Qed.
End Ledger.
