(* ===== verification/CapCnode.v ===== *)
(** CNodes and the capability operations ([kernel/cap/cnode.c]):
    initialisation, the soft try-lock, resolve, install, mint, copy, move and
    delete, with [gj_cap_slot_invalidate_locked] of [kernel/cap/revoke.c],
    which they call.  Out-parameters become results; [pOut = false] stands for
    a NULL out-pointer.  The log lines and the flags that only select a log
    line are left out; the counters are kept. *)
From stdpp Require Import base gmap list strings fin_maps.
From Stdlib Require Import ZArith Lia.
From S2P Require Import Prelude CapTypes CapEdges CapQuota.

(** ** Initialisation and locking *)

Definition obj_hdr_init : gj_obj_hdr := ObjHdr GJ_OBJ_LIVE 1 0 0 0 None.

Definition gj_obj_hdr_init (pHdr : option objp) : capM unit :=
  match pHdr with
  | None => pret tt
  | Some o => obj_store o obj_hdr_init
  end.

Definition free_slot : gj_cap_slot := CapSlot GJ_CAP_INVALID 0 1 0 None.

(** [cSlots] is the length of the caller's slot array. *)
Definition gj_cnode_init (pCnode : option cnp) (pSlots : bool) (cSlots : Z) : capM unit :=
  match pCnode with
  | None => pret tt
  | Some c =>
      if negb pSlots || (cSlots =? 0) then pret tt
      else
        cn <- cn_load c ;;
        gj_obj_hdr_init (Some (cn_hdr cn)) ;;;
        cn_store c (CNode (cn_hdr cn) cSlots
                      (Some (replicate (Z.to_nat cSlots) free_slot)) None 0 0)
  end.

Definition gj_cnode_trylock (pCnode : option cnp) : capM bool :=
  tick "g_u32SoftTryEnter" ;;;
  match pCnode with
  | None => tick "g_u32SoftTryNull" ;;; pret false
  | Some c =>
      cn <- cn_load c ;;
      if cn_u32SoftLock cn =? 0 then
        cn_store c (cn_set_lock cn 1) ;;;
        tick "g_u32SoftTryOk" ;;;
        pret true
      else tick "g_u32SoftTryBusy" ;;; pret false
  end.

Definition gj_cnode_unlock (pCnode : option cnp) : capM unit :=
  match pCnode with
  | None => pret tt
  | Some c =>
      cn <- cn_load c ;;
      cn_store c (cn_set_lock cn 0) ;;;
      tick "g_u32SoftUnlock"
  end.

(** ** Structured invalidate ([kernel/cap/revoke.c]) *)

(** [pObj->u32SlotsLeft--], saturating at zero. *)
Definition slots_left_dec (o : objp) : capM unit :=
  h <- obj_load o ;;
  if 0 <? hdr_u32SlotsLeft h then obj_store o (hdr_set_left h (hdr_u32SlotsLeft h - 1))
  else pret tt.

Definition gj_cap_slot_invalidate_locked (pSlot : option (cnp * Z)) (pObj : option objp) : capM unit :=
  match pSlot with
  | None => tick "g_u32SoftInvSkip"
  | Some (c, i) =>
      s <- slot_load c i ;;
      if slot_u16Type s =? GJ_CAP_INVALID then tick "g_u32SoftInvSkip"
      else
        let finish :=
          tick "g_u32SoftInvQuotaNull" ;;;
          gj_cap_quota_slot_refund None ;;;
          slot_store c i (gj_cap_slot_invalidate s) ;;;
          tick "g_u32SoftInvClear" in
        match pObj with
        | Some o =>
            if negb (bool_decide (slot_pObj s = Some o)) then tick "g_u32SoftInvWrongObj"
            else slots_left_dec o ;;; finish
        | None =>
            match slot_pObj s with
            | Some o => slots_left_dec o ;;; finish
            | None => finish
            end
        end
  end.

(** ** Observability notes *)

(** [cdt_soft_ddi_note_install] *)
Definition cdt_soft_ddi_note_install (u16Type : Z) : capM unit :=
  if negb (gj_cap_type_is_ddi u16Type) then pret tt
  else
    tick "g_u32SoftDdiInst" ;;;
    if u16Type =? GJ_CAP_IRQ then tick "g_u32SoftDdiIrq"
    else if u16Type =? GJ_CAP_FRAME then tick "g_u32SoftDdiFrame"
    else if u16Type =? GJ_CAP_UNTYPED then tick "g_u32SoftDdiUntyped"
    else if u16Type =? GJ_CAP_NOTIFICATION then tick "g_u32SoftDdiNotif"
    else pret tt.

Definition when (b : bool) (c : capM unit) : capM unit := if b then c else pret tt.

(** [cdt_soft_ddi_note_mint] *)
Definition cdt_soft_ddi_note_mint (u16Type u16Rights : Z) (fCross : bool) : capM unit :=
  if negb (gj_cap_type_is_udx_host u16Type) then pret tt
  else
    tick "g_u32SoftDdiMint" ;;;
    (if fCross then tick "g_u32SoftDdiMintCross" else tick "g_u32SoftDdiMintLocal") ;;;
    (let u32Role := gj_cap_ddi_mint_role u16Type in
     if u32Role =? GJ_CAP_DDI_MINT_ROLE_MMIO then tick "g_u32SoftDdiMintRoleMmio"
     else if u32Role =? GJ_CAP_DDI_MINT_ROLE_IRQ then tick "g_u32SoftDdiMintRoleIrq"
     else if u32Role =? GJ_CAP_DDI_MINT_ROLE_NOTIF then tick "g_u32SoftDdiMintRoleNotif"
     else if u32Role =? GJ_CAP_DDI_MINT_ROLE_UNTYPED then tick "g_u32SoftDdiMintRoleUntyped"
     else pret tt) ;;;
    (let u32PkgBit := gj_cap_udx_host_pkg_bit_for_type u16Type in
     when (negb (u32PkgBit =? 0))
       (tel_or "g_u32SoftUdxHostPkgSeen" u32PkgBit ;;;
        when fCross (tel_or "g_u32SoftUdxHostPkgCross" u32PkgBit) ;;;
        when (negb (Z.land u32PkgBit GJ_CAP_UDX_HOST_PKG_MMIO =? 0)) (tick "g_u32SoftUdxHostPkgMmioN") ;;;
        when (negb (Z.land u32PkgBit GJ_CAP_UDX_HOST_PKG_IRQ =? 0)) (tick "g_u32SoftUdxHostPkgIrqN") ;;;
        when (negb (Z.land u32PkgBit GJ_CAP_UDX_HOST_PKG_NOTIF =? 0)) (tick "g_u32SoftUdxHostPkgNotifN"))) ;;;
    (if gj_cap_rights_ddi_host_subset_ok u16Type u16Rights then tick "g_u32SoftDdiMintHostOk"
     else tick "g_u32SoftDdiMintHostOver") ;;;
    (if gj_cap_rights_ddi_dma_host_subset_ok u16Rights then
       tick "g_u32SoftDdiMintDmaShapeOk" ;;;
       tel_or "g_u32SoftUdxHostPkgSeen" GJ_CAP_UDX_HOST_PKG_DMA ;;;
       when fCross (tel_or "g_u32SoftUdxHostPkgCross" GJ_CAP_UDX_HOST_PKG_DMA)
     else when (negb (u16Rights =? 0)) (tick "g_u32SoftDdiMintDmaShapeMiss")).

(** The [st != GJ_OK] buckets of mint, copy, move and delete. *)
Definition ret_bucket (sFail sInval sPerm sOther : string) (st : gj_status) : capM unit :=
  tick sFail ;;;
  match st with
  | GJ_ERR_INVAL => tick sInval
  | GJ_ERR_PERM => tick sPerm
  | _ => tick sOther
  end.
Definition mint_bucket : gj_status -> capM unit :=
  ret_bucket "g_u32SoftRetMintFail" "g_u32SoftRetMintInval" "g_u32SoftRetMintPerm" "g_u32SoftRetMintOther".
Definition copy_bucket : gj_status -> capM unit :=
  ret_bucket "g_u32SoftRetCopyFail" "g_u32SoftRetCopyInval" "g_u32SoftRetCopyPerm" "g_u32SoftRetCopyOther".
Definition move_bucket : gj_status -> capM unit :=
  ret_bucket "g_u32SoftRetMoveFail" "g_u32SoftRetMoveInval" "g_u32SoftRetMovePerm" "g_u32SoftRetMoveOther".
Definition del_bucket : gj_status -> capM unit :=
  ret_bucket "g_u32SoftRetDelFail" "g_u32SoftRetDelInval" "g_u32SoftRetDelPerm" "g_u32SoftRetDelOther".
(** The return buckets of [gj_cap_alloc_install]. *)
Definition alloc_bucket (st : gj_status) : capM unit :=
  match st with
  | GJ_OK => tick "g_u32SoftRetAllocOk"
  | GJ_ERR_QUOTA => tick "g_u32SoftRetAllocFail" ;;; tick "g_u32SoftRetAllocQuota"
  | GJ_ERR_INVAL => tick "g_u32SoftRetAllocFail" ;;; tick "g_u32SoftRetAllocInval"
  | _ => tick "g_u32SoftRetAllocFail" ;;; tick "g_u32SoftRetAllocOther"
  end.

Definition rights_weaker (u16Src u16Want : Z) : Z := Z.land u16Src u16Want.

Section Ops.
(** [cdt_soft_inventory_maybe_once]. *)
Variable hook : capM unit.

(** [cdt_soft_tally_install] *)
Definition cdt_soft_tally_install : capM unit :=
  tick "g_u32SoftSlotsLeftInc" ;;; hook.

(** ** Resolve *)
Definition gj_cap_resolve (pProcCnode : option cnp) (u64Slot u32SlotGen : Z) (pOut : bool)
    : capM (gj_status * option gj_cap_resolved) :=
  tick "g_u32SoftResEnter" ;;;
  let inval := tick "g_u32SoftResInval" ;;; pret (GJ_ERR_INVAL, None) in
  match pProcCnode with
  | None => inval
  | Some c =>
      cn <- cn_load c ;;
      if negb pOut || bool_decide (cn_pSlots cn = None) then inval
      else if cn_cSlots cn =? 0 then inval
      else if u32SlotGen =? 0 then inval
      else if cn_cSlots cn <=? u64Slot then inval
      else
        s <- slot_load c u64Slot ;;
        if slot_u16Type s =? GJ_CAP_INVALID then
          tick "g_u32SoftResNoent" ;;; pret (GJ_ERR_NOENT, None)
        else if negb (slot_u32Gen s =? u32SlotGen) then
          tick "g_u32SoftResStale" ;;; pret (GJ_ERR_STALE_CAP, None)
        else
          match slot_pObj s with
          | None => tick "g_u32SoftResStale" ;;; pret (GJ_ERR_STALE_CAP, None)
          | Some o =>
              h <- obj_load o ;;
              let st := gj_obj_check_live (Some h) (slot_u32ObjGen s) in
              if is_ok st then
                tick "g_u32SoftResOk" ;;;
                hook ;;;
                pret (GJ_OK, Some (CapResolved u64Slot o (slot_u16Type s) (slot_u16Rights s)))
              else tick "g_u32SoftResLiveFail" ;;; pret (st, None)
          end
  end.

Definition gj_cap_resolve_ref (pProcCnode : option cnp) (pRef : option gj_cap_ref) (pOut : bool)
    : capM (gj_status * option gj_cap_resolved) :=
  match pRef with
  | None => pret (GJ_ERR_INVAL, None)
  | Some r => gj_cap_resolve pProcCnode (ref_u64Slot r) (ref_u32SlotGen r) pOut
  end.

(** ** Install *)
Definition gj_cap_slot_install (pCnode : option cnp) (u64Slot u16Type u16Rights : Z)
    (pObj : option objp) (pOutRef : bool) : capM (gj_status * option gj_cap_ref) :=
  let fail (sub : string) (st : gj_status) :=
    tick "g_u32SoftInstFail" ;;; tick sub ;;; pret (st, None) in
  tick "g_u32SoftInstEnter" ;;;
  match pCnode, pObj with
  | Some c, Some o =>
      cn <- cn_load c ;;
      if negb pOutRef || bool_decide (cn_pSlots cn = None)
      then fail "g_u32SoftInstFailInval" GJ_ERR_INVAL
      else if (cn_cSlots cn =? 0) || (cn_cSlots cn <=? u64Slot)
      then fail "g_u32SoftInstFailInval" GJ_ERR_INVAL
      else if u16Type =? GJ_CAP_INVALID then fail "g_u32SoftInstFailInval" GJ_ERR_INVAL
      else
        h <- obj_load o ;;
        if negb (hdr_u32State h =? GJ_OBJ_LIVE) then fail "g_u32SoftInstFailDead" GJ_ERR_DEAD
        else
          let u32ObjGen := hdr_u32Gen h in
          if u32ObjGen =? 0 then fail "g_u32SoftInstFailInval" GJ_ERR_INVAL
          else if (u64Slot =? GJ_CAP_SLOT_ROOT_META) && negb (u16Type =? GJ_CAP_ROOT_META)
          then fail "g_u32SoftInstFailPerm" GJ_ERR_PERM
          else if negb (u64Slot =? GJ_CAP_SLOT_ROOT_META) && (u16Type =? GJ_CAP_ROOT_META)
          then fail "g_u32SoftInstFailPerm" GJ_ERR_PERM
          else
            s <- slot_load c u64Slot ;;
            if negb (slot_u16Type s =? GJ_CAP_INVALID)
            then fail "g_u32SoftInstFailBusy" GJ_ERR_BUSY
            else
              h1 <- obj_load o ;;
              if negb (hdr_u32State h1 =? GJ_OBJ_LIVE) || negb (hdr_u32Gen h1 =? u32ObjGen)
              then fail "g_u32SoftInstFailDead" GJ_ERR_DEAD
              else if hdr_u32SlotsLeft h1 =? U32_MAX
              then fail "g_u32SoftInstFailQuota" GJ_ERR_QUOTA
              else
                stQuota <- gj_cap_quota_slot_charge (cn_pQuotaAccount cn) ;;
                if negb (is_ok stQuota) then fail "g_u32SoftInstFailQuota" stQuota
                else
                  slot_store c u64Slot
                    (CapSlot u16Type u16Rights (slot_u32Gen s) u32ObjGen (Some o)) ;;;
                  obj_store o (hdr_set_left h1 (u32_wrap (hdr_u32SlotsLeft h1 + 1))) ;;;
                  when (u16Type =? GJ_CAP_REPLY) (tick "g_u32SoftInstReplyType") ;;;
                  cdt_soft_ddi_note_install u16Type ;;;
                  cdt_soft_tally_install ;;;
                  tick "g_u32SoftInstOk" ;;;
                  hook ;;;
                  pret (GJ_OK, Some (gj_cap_ref_make u64Slot (slot_u32Gen s)))
  | _, _ => fail "g_u32SoftInstFailInval" GJ_ERR_INVAL
  end.

(** The free-slot scan of [gj_cap_alloc_install]: [n] slots left from [iSlot]. *)
Fixpoint alloc_scan (n : nat) (c : cnp) (iSlot : Z) : capM (option Z) :=
  match n with
  | O => pret None
  | S n' =>
      s <- slot_load c iSlot ;;
      if slot_u16Type s =? GJ_CAP_INVALID then pret (Some iSlot)
      else alloc_scan n' c (iSlot + 1)
  end.

Definition gj_cap_alloc_install (pCnode : option cnp) (u16Type u16Rights : Z)
    (pObj : option objp) (pOutRef : bool) : capM (gj_status * option gj_cap_ref) :=
  let inval :=
    tick "g_u32SoftRetAllocFail" ;;; tick "g_u32SoftRetAllocInval" ;;; pret (GJ_ERR_INVAL, None) in
  match pCnode, pObj with
  | Some c, Some o =>
      cn <- cn_load c ;;
      if bool_decide (cn_pSlots cn = None) || negb pOutRef then inval
      else if cn_cSlots cn =? 0 then inval
      else if u16Type =? GJ_CAP_INVALID then inval
      else if u16Type =? GJ_CAP_ROOT_META then
        r <- gj_cap_slot_install (Some c) GJ_CAP_SLOT_ROOT_META u16Type u16Rights (Some o) true ;;
        alloc_bucket (fst r) ;;;
        pret r
      else
        iFree <- alloc_scan (Z.to_nat (cn_cSlots cn - 1)) c 1 ;;
        match iFree with
        | Some iSlot =>
            r <- gj_cap_slot_install (Some c) iSlot u16Type u16Rights (Some o) true ;;
            alloc_bucket (fst r) ;;;
            pret r
        | None =>
            tick "g_u32SoftRetAllocFail" ;;; tick "g_u32SoftRetAllocQuota" ;;;
            pret (GJ_ERR_QUOTA, None)
        end
  | _, _ => inval
  end.

(** ** Mint, copy, move, delete *)
Definition gj_cap_mint (pSrcCnode : option cnp) (u64SrcSlot u32SrcGen u16Rights : Z)
    (pDstCnode : option cnp) (pOut : bool) : capM (gj_status * option gj_cap_ref) :=
  if negb pOut then
    tick "g_u32SoftRetMintFail" ;;; tick "g_u32SoftRetMintInval" ;;; pret (GJ_ERR_INVAL, None)
  else
    let pDst := match pDstCnode with None => pSrcCnode | Some _ => pDstCnode end in
    rr <- gj_cap_resolve pSrcCnode u64SrcSlot u32SrcGen true ;;
    match rr with
    | (GJ_OK, Some res) =>
        let perm :=
          tick "g_u32SoftRetMintFail" ;;; tick "g_u32SoftRetMintPerm" ;;; pret (GJ_ERR_PERM, None) in
        if Z.land (res_u16Rights res) GJ_RIGHT_MINT =? 0 then perm
        else
          let u16New := rights_weaker (res_u16Rights res) u16Rights in
          if u16New =? 0 then perm
          else
            ri <- gj_cap_alloc_install pDst (res_u16Type res) u16New (Some (res_pObj res)) true ;;
            match ri with
            | (GJ_OK, Some out) =>
                let fCross := negb (bool_decide (pSrcCnode = pDst)) in
                (if fCross then tick "g_u32CdtMintCross" else tick "g_u32CdtMintLocal") ;;;
                cdt_edge_try_wire hook (Some (res_pObj res)) pDst (ref_u64Slot out)
                  "g_u32CdtMintAttempt" "g_u32CdtMintEdgeOk" "g_u32CdtMintEdgeMiss" ;;;
                cdt_soft_ddi_note_mint (res_u16Type res) u16New fCross ;;;
                tick "g_u32SoftRetMintOk" ;;;
                hook ;;;
                pret (GJ_OK, Some out)
            | (st, _) => mint_bucket st ;;; pret (st, None)
            end
    | (st, _) => mint_bucket st ;;; pret (st, None)
    end.

Definition gj_cap_copy (pCnode : option cnp) (u64SrcSlot u32SrcGen u16Rights : Z)
    (pOut : bool) : capM (gj_status * option gj_cap_ref) :=
  if negb pOut then
    tick "g_u32SoftRetCopyFail" ;;; tick "g_u32SoftRetCopyInval" ;;; pret (GJ_ERR_INVAL, None)
  else
    rr <- gj_cap_resolve pCnode u64SrcSlot u32SrcGen true ;;
    match rr with
    | (GJ_OK, Some res) =>
        if Z.land (res_u16Rights res) GJ_RIGHT_GRANT =? 0 then
          tick "g_u32SoftRetCopyFail" ;;; tick "g_u32SoftRetCopyPerm" ;;; pret (GJ_ERR_PERM, None)
        else
          let u16New := rights_weaker (res_u16Rights res)
                          (if negb (u16Rights =? 0) then u16Rights else res_u16Rights res) in
          ri <- gj_cap_alloc_install pCnode (res_u16Type res) u16New (Some (res_pObj res)) true ;;
          match ri with
          | (GJ_OK, Some out) =>
              cdt_edge_try_wire hook (Some (res_pObj res)) pCnode (ref_u64Slot out)
                "g_u32CdtCopyAttempt" "g_u32CdtCopyEdgeOk" "g_u32CdtCopyEdgeMiss" ;;;
              tick "g_u32SoftRetCopyOk" ;;;
              hook ;;;
              pret (GJ_OK, Some out)
          | (st, _) => copy_bucket st ;;; pret (st, None)
          end
    | (st, _) => copy_bucket st ;;; pret (st, None)
    end.

Definition gj_cap_move (pCnode : option cnp) (u64SrcSlot u32SrcGen : Z) (pOut : bool)
    : capM (gj_status * option gj_cap_ref) :=
  if negb pOut then
    tick "g_u32SoftRetMoveFail" ;;; tick "g_u32SoftRetMoveInval" ;;; pret (GJ_ERR_INVAL, None)
  else
    rr <- gj_cap_resolve pCnode u64SrcSlot u32SrcGen true ;;
    match rr, pCnode with
    | (GJ_OK, Some res), Some c =>
        let perm :=
          tick "g_u32SoftRetMoveFail" ;;; tick "g_u32SoftRetMovePerm" ;;; pret (GJ_ERR_PERM, None) in
        if Z.land (res_u16Rights res) GJ_RIGHT_GRANT =? 0 then perm
        else if u64SrcSlot =? GJ_CAP_SLOT_ROOT_META then perm
        else
          ri <- gj_cap_alloc_install pCnode (res_u16Type res) (res_u16Rights res)
                  (Some (res_pObj res)) true ;;
          match ri with
          | (GJ_OK, Some out) =>
              gj_cdt_unlink_slot (Some (res_pObj res)) pCnode u64SrcSlot ;;;
              tick "g_u32CdtMoveUnlink" ;;;
              tick "g_u32CdtMoveRetarget" ;;;
              cdt_edge_try_wire hook (Some (res_pObj res)) pCnode (ref_u64Slot out)
                "g_u32CdtMoveAttempt" "g_u32CdtMoveEdgeOk" "g_u32CdtMoveEdgeMiss" ;;;
              cn <- cn_load c ;;
              gj_cap_quota_slot_refund (cn_pQuotaAccount cn) ;;;
              gj_cap_slot_invalidate_locked (Some (c, u64SrcSlot)) (Some (res_pObj res)) ;;;
              tick "g_u32SoftMoveNet0" ;;;
              tick "g_u32SoftRetMoveOk" ;;;
              hook ;;;
              pret (GJ_OK, Some out)
          | (st, _) => move_bucket st ;;; pret (st, None)
          end
    | (st, _), _ => move_bucket st ;;; pret (st, None)
    end.

Definition gj_cap_delete (pCnode : option cnp) (u64Slot u32SlotGen : Z) : capM gj_status :=
  rr <- gj_cap_resolve pCnode u64Slot u32SlotGen true ;;
  match rr, pCnode with
  | (GJ_OK, Some res), Some c =>
      let perm :=
        tick "g_u32SoftRetDelFail" ;;; tick "g_u32SoftRetDelPerm" ;;; pret GJ_ERR_PERM in
      if u64Slot =? GJ_CAP_SLOT_ROOT_META then perm
      else if (Z.land (res_u16Rights res) GJ_RIGHT_DESTROY =? 0)
              && (Z.land (res_u16Rights res) GJ_RIGHT_GRANT =? 0) then perm
      else
        u32ChainPre <- cdt_edge_chain_depth (Some (res_pObj res)) ;;
        gj_cdt_unlink_slot (Some (res_pObj res)) pCnode u64Slot ;;;
        u32ChainAfter <- cdt_edge_chain_depth (Some (res_pObj res)) ;;
        when (u32ChainAfter <? u32ChainPre) (tick "g_u32CdtDeleteEdge") ;;;
        cn <- cn_load c ;;
        gj_cap_quota_slot_refund (cn_pQuotaAccount cn) ;;;
        tick "g_u32SoftDeleteRefund" ;;;
        gj_cap_slot_invalidate_locked (Some (c, res_pSlot res)) (Some (res_pObj res)) ;;;
        tick "g_u32SoftRetDelOk" ;;;
        hook ;;;
        pret GJ_OK
  | (st, _), _ => del_bucket st ;;; pret st
  end.
End Ops.

(** ** Clearing one object's slots from a known CNode *)

(** The loop of [gj_cnode_invalidate_obj_slots]: [n] slots left from [iSlot]. *)
Fixpoint invalidate_obj_loop (n : nat) (c : cnp) (o : objp) (u32MaxSlots iSlot u32Cleared : Z) : capM Z :=
  match n with
  | O => pret u32Cleared
  | S n' =>
      if u32MaxSlots <=? u32Cleared then pret u32Cleared
      else
        s <- slot_load c iSlot ;;
        if slot_u16Type s =? GJ_CAP_INVALID
        then invalidate_obj_loop n' c o u32MaxSlots (iSlot + 1) u32Cleared
        else if negb (bool_decide (slot_pObj s = Some o))
        then invalidate_obj_loop n' c o u32MaxSlots (iSlot + 1) u32Cleared
        else
          cn <- cn_load c ;;
          gj_cap_quota_slot_refund (cn_pQuotaAccount cn) ;;;
          gj_cap_slot_invalidate_locked (Some (c, iSlot)) (Some o) ;;;
          gj_cdt_unlink_slot (Some o) (Some c) iSlot ;;;
          invalidate_obj_loop n' c o u32MaxSlots (iSlot + 1) (u32Cleared + 1)
  end.

Definition gj_cnode_invalidate_obj_slots (pCnode : option cnp) (pObj : option objp)
    (u32MaxSlots : Z) : capM Z :=
  match pCnode, pObj with
  | Some c, Some o =>
      cn <- cn_load c ;;
      if bool_decide (cn_pSlots cn = None) || (u32MaxSlots =? 0) then pret 0
      else
        fLocked <- gj_cnode_trylock (Some c) ;;
        if negb fLocked then pret 0
        else
          u32Cleared <- invalidate_obj_loop (Z.to_nat (cn_cSlots cn)) c o u32MaxSlots 0 0 ;;
          gj_cnode_unlock (Some c) ;;;
          pret u32Cleared
  | _, _ => pret 0
  end.
