(* ===== verification/CapInv.v ===== *)
(** The invariant of the capability memory and how the elementary updates of
    the operations keep it.

    [wf] says: the static pool is accounted for, the quota ledger is sound,
    every CNode slot is either empty or binds an allocated object (with
    [ROOT_META] exactly in slot 0), every object's [u32SlotsLeft] is the number
    of slots that bind it, every object's CDT chain is a duplicate-free list of
    live edges naming distinct slots that bind the object, chains are disjoint,
    and the deferred queue holds allocated, distinct objects below its
    published length. *)
From stdpp Require Import base gmap list strings fin_maps.
From Stdlib Require Import ZArith Lia.
From S2P Require Import Prelude CapTypes CapEdges CapQuota CapCnode.

(** ** Definitions *)

(** The slot binds object [o]. *)
Definition slot_refs (o : objp) (s : gj_cap_slot) : bool :=
  negb (slot_u16Type s =? GJ_CAP_INVALID) && bool_decide (slot_pObj s = Some o).

Definition cn_refs (o : objp) (cn : gj_cnode) : nat :=
  match cn_pSlots cn with Some sl => countb (slot_refs o) sl | None => 0%nat end.

(** Number of slots, over all CNodes, that bind [o]. *)
Definition obj_refs (m : cap_mem) (o : objp) : nat := map_sum (cn_refs o) (m_cns m).

Definition slot_ok (m : cap_mem) (i : Z) (s : gj_cap_slot) : Prop :=
  1 <= slot_u32Gen s <= U32_MAX
  /\ (if slot_u16Type s =? GJ_CAP_INVALID then slot_pObj s = None
      else exists o, slot_pObj s = Some o /\ is_Some (m_objs m !! o)
           /\ (i = GJ_CAP_SLOT_ROOT_META <-> slot_u16Type s = GJ_CAP_ROOT_META)).

Definition cn_shape (cn : gj_cnode) : Prop :=
  match cn_pSlots cn with
  | Some sl => cn_cSlots cn = Z.of_nat (length sl) /\ 0 < cn_cSlots cn
  | None => True
  end.

Definition cn_ok (m : cap_mem) (cn : gj_cnode) : Prop :=
  cn_shape cn /\ ptr_ok (m_quotas m) (cn_pQuotaAccount cn)
  /\ forall i s, cn_slot cn i = Some s -> slot_ok m i s.

(** Edge [e] names a slot that binds [o]. *)
Definition edge_named (m : cap_mem) (o : objp) (e : edgep) : Prop :=
  exists c i cn s, edge_tgt (m_pool m) e = Some (Some c, i)
    /\ m_cns m !! c = Some cn /\ cn_slot cn i = Some s /\ slot_refs o s = true.

Definition obj_ok (X : edgep -> Prop) (m : cap_mem) (o : objp) (h : gj_obj_hdr) : Prop :=
  hdr_u32SlotsLeft h = Z.of_nat (obj_refs m o) /\ hdr_u32SlotsLeft h <= U32_MAX
  /\ exists l, chain_at m o h l /\ NoDup (edge_tgt (m_pool m) <$> l)
       /\ forall e, e ∈ l -> ~ X e -> edge_named m o e.

Definition rq_ok (m : cap_mem) : Prop :=
  length (m_rq m) = GJ_REVOKE_Q_MAX
  /\ 0 <= m_rqlen m <= Z.of_nat GJ_REVOKE_Q_MAX
  /\ 0 <= m_rqcur m
  /\ (forall i qe, m_rq m !! i = Some qe -> qe_u8Active qe = true ->
        Z.of_nat i < m_rqlen m /\ exists o, qe_pObj qe = Some o /\ is_Some (m_objs m !! o))
  /\ (forall i j qi qj, m_rq m !! i = Some qi -> m_rq m !! j = Some qj ->
        qe_u8Active qi = true -> qe_u8Active qj = true -> qe_pObj qi = qe_pObj qj -> i = j).

(** The invariant, with the edges in [X] excused from naming a bound slot. *)
Record wf_gen (X : edgep -> Prop) (m : cap_mem) : Prop := WfGen {
  wf_pool : pool_ok m;
  wf_ledger : ledger_ok (m_quotas m);
  wf_cns : forall c cn, m_cns m !! c = Some cn -> cn_ok m cn;
  wf_objs : forall o h, m_objs m !! o = Some h -> obj_ok X m o h;
  wf_disj : forall o1 o2 h1 h2 l1 l2, chain_at m o1 h1 l1 -> chain_at m o2 h2 l2 ->
    o1 <> o2 -> l1 ## l2;
  wf_queue : rq_ok m }.

Definition no_edge : edgep -> Prop := fun _ => False.
Abbreviation wf := (wf_gen no_edge).

(** ** Slots *)
Section Slots.
Implicit Types (cn : gj_cnode) (s : gj_cap_slot) (o : objp) (m : cap_mem).

Lemma cn_slot_set cn i s s0 j :
  cn_slot cn i = Some s0 ->
  cn_slot (cn_set_slot cn i s) j = if bool_decide (i = j) then Some s else cn_slot cn j.
Proof.
  unfold cn_slot, cn_set_slot. simpl. destruct (cn_pSlots cn) as [sl|]; simpl; [|done].
  destruct (Z.leb_spec 0 i); [|done]. intros E.
  destruct (Z.leb_spec 0 j); case_bool_decide; subst; try lia; [| |done].
  - by rewrite list_lookup_insert_eq by (by apply lookup_lt_Some in E).
  - rewrite list_lookup_insert_ne; [done|lia].
Qed.

Lemma cn_shape_set cn i s : cn_shape cn -> cn_shape (cn_set_slot cn i s).
Proof.
  unfold cn_shape, cn_set_slot. simpl. destruct (cn_pSlots cn); simpl; [|done].
  by rewrite length_insert.
Qed.

Lemma cn_refs_set cn i s s0 o :
  cn_slot cn i = Some s0 ->
  (cn_refs o (cn_set_slot cn i s) + Nat.b2n (slot_refs o s0) = cn_refs o cn + Nat.b2n (slot_refs o s))%nat.
Proof.
  unfold cn_slot, cn_refs, cn_set_slot. simpl. destruct (cn_pSlots cn) as [sl|]; simpl; [|done].
  case_match; [|done]. intros E. by apply countb_update.
Qed.

Lemma obj_refs_set m c cn i s s0 o f :
  m_cns m !! c = Some cn -> cn_slot cn i = Some s0 ->
  f = <[c := cn_set_slot cn i s]> ->
  (obj_refs (set_cns f m) o + Nat.b2n (slot_refs o s0) = obj_refs m o + Nat.b2n (slot_refs o s))%nat.
Proof.
  intros Hc Hs ->. unfold obj_refs. simpl.
  pose proof (map_sum_update (cn_refs o) (m_cns m) c (cn_set_slot cn i s) cn Hc).
  pose proof (cn_refs_set cn i s s0 o Hs). lia.
Qed.

Lemma cn_slot_in_range cn i :
  cn_shape cn -> cn_pSlots cn <> None -> 0 <= i < cn_cSlots cn -> exists s, cn_slot cn i = Some s.
Proof.
  unfold cn_shape, cn_slot. destruct (cn_pSlots cn) as [sl|]; [|done]. intros [E _] _ Hi.
  rewrite (proj2 (Z.leb_le 0 i)) by lia.
  destruct (lookup_lt_is_Some_2 sl (Z.to_nat i)) as [s Es]; [lia|eauto].
Qed.

Lemma cn_slot_range cn i s : cn_shape cn -> cn_slot cn i = Some s -> 0 <= i < cn_cSlots cn.
Proof.
  unfold cn_shape, cn_slot. destruct (cn_pSlots cn) as [sl|]; [|done]. intros [E _].
  destruct (Z.leb_spec 0 i); [|done]. intros Hs%lookup_lt_Some. lia.
Qed.

Lemma obj_refs_pos m c cn i s o :
  m_cns m !! c = Some cn -> cn_slot cn i = Some s -> slot_refs o s = true -> (0 < obj_refs m o)%nat.
Proof.
  intros Hc Hs Hr. unfold obj_refs.
  pose proof (map_sum_le (cn_refs o) (m_cns m) c cn Hc).
  assert (0 < cn_refs o cn)%nat; [|lia]. unfold cn_refs, cn_slot in *.
  destruct (cn_pSlots cn) as [sl|]; [|done]. case_match; [|done]. by eapply countb_pos.
Qed.

Lemma slot_refs_true o s :
  slot_refs o s = true <-> slot_u16Type s <> GJ_CAP_INVALID /\ slot_pObj s = Some o.
Proof.
  unfold slot_refs. rewrite andb_true_iff, negb_true_iff, Z.eqb_neq, bool_decide_eq_true. done.
Qed.
End Slots.

(** ** Elementary updates *)
Section Updates.
Implicit Types (X : edgep -> Prop) (m : cap_mem) (o : objp) (h : gj_obj_hdr) (c : cnp)
  (cn : gj_cnode) (s : gj_cap_slot) (l : list edgep) (e : edgep).

Lemma chain_at_det m o h1 h2 l1 l2 : chain_at m o h1 l1 -> chain_at m o h2 l2 -> h1 = h2 /\ l1 = l2.
Proof.
  intros (E1 & C1 & _) (E2 & C2 & _). rewrite E1 in E2. injection E2 as <-.
  split; [done|]. by eapply is_chain_det.
Qed.

(** To establish [wf_gen], exhibit a chain for every object. *)
Lemma wf_gen_intro X m (P : objp -> list edgep -> Prop) :
  pool_ok m -> ledger_ok (m_quotas m) ->
  (forall c cn, m_cns m !! c = Some cn -> cn_ok m cn) ->
  (forall o h, m_objs m !! o = Some h ->
     hdr_u32SlotsLeft h = Z.of_nat (obj_refs m o) /\ hdr_u32SlotsLeft h <= U32_MAX
     /\ exists l, P o l /\ chain_at m o h l /\ NoDup (edge_tgt (m_pool m) <$> l)
       /\ forall e, e ∈ l -> ~ X e -> edge_named m o e) ->
  (forall o1 o2 l1 l2, P o1 l1 -> P o2 l2 -> o1 <> o2 -> l1 ## l2) ->
  rq_ok m -> wf_gen X m.
Proof.
  intros Hp Hl Hc Ho Hd Hq. split; [done..| | |done].
  - intros o h E. destruct (Ho o h E) as (H1 & H2 & l & _ & H3). split_and!; eauto.
  - intros o1 o2 h1 h2 l1 l2 C1 C2 Hne.
    destruct (Ho o1 h1 (proj1 C1)) as (_ & _ & l1' & P1 & C1' & _).
    destruct (Ho o2 h2 (proj1 C2)) as (_ & _ & l2' & P2 & C2' & _).
    destruct (chain_at_det _ _ _ _ _ _ C1 C1') as [_ ->].
    destruct (chain_at_det _ _ _ _ _ _ C2 C2') as [_ ->]. eauto.
Qed.

(** The chain recorded by the invariant. *)
Lemma wf_chain X m o h :
  wf_gen X m -> m_objs m !! o = Some h ->
  exists l, chain_at m o h l /\ NoDup (edge_tgt (m_pool m) <$> l)
    /\ forall e, e ∈ l -> ~ X e -> edge_named m o e.
Proof. intros H E. by destruct (wf_objs _ _ H o h E) as (_ & _ & Hl). Qed.

Lemma edge_tgt_used m m' e :
  hook_frame m m' -> m_used m !! e = Some true -> edge_tgt (m_pool m') e = edge_tgt (m_pool m) e.
Proof.
  intros (_ & _ & _ & _ & _ & _ & Hk & _) Hu. unfold edge_tgt. by rewrite (proj2 (Hk e Hu)).
Qed.

Lemma fmap_ext_in {A B} (f g : A -> B) (l : list A) :
  (forall x, x ∈ l -> f x = g x) -> f <$> l = g <$> l.
Proof.
  induction l as [|a l IH]; intros H; [done|]. rewrite !fmap_cons, H, IH by set_solver. done.
Qed.

Lemma wf_hook X m m' : wf_gen X m -> hook_frame m m' -> wf_gen X m'.
Proof.
  intros H Hf. pose proof Hf as (Eo & Ec & Eq & Er & El & Eu & Hk & Hp).
  apply (wf_gen_intro X m' (fun o l => exists h, chain_at m o h l)).
  - done.
  - rewrite Eq. apply H.
  - intros c cn. rewrite Ec. intros E. destruct (wf_cns _ _ H c cn E) as (H1 & H2 & H3).
    split_and!; [done|by rewrite Eq|]. intros i s Hs. destruct (H3 i s Hs) as [? Hb].
    split; [done|]. by rewrite Eo.
  - intros o h. rewrite Eo. intros E. destruct (wf_objs _ _ H o h E) as (H1 & H2 & l & H3 & H4 & H5).
    assert (forall e, e ∈ l -> edge_tgt (m_pool m') e = edge_tgt (m_pool m) e) as Ht.
    { intros e He. eapply edge_tgt_used; [done|]. destruct H3 as (_ & _ & _ & Hu).
      rewrite Forall_forall in Hu. auto. }
    unfold obj_refs. rewrite Ec. split_and!; [done..|].
    exists l. split_and!; [eauto|by eapply chain_at_frame| |].
    + by rewrite (fmap_ext_in _ _ _ Ht).
    + intros e He Hx. destruct (H5 e He Hx) as (c & i & cn & s & Hn).
      exists c, i, cn, s. by rewrite Ec, Ht.
  - intros o1 o2 l1 l2 [h1 C1] [h2 C2]. by eapply (wf_disj _ _ H).
  - unfold rq_ok. rewrite Er, El, Eu, Eo. apply H.
Qed.

Lemma wf_set_quotas X m f :
  wf_gen X m -> ledger_ok (f (m_quotas m)) ->
  (forall q, is_Some (m_quotas m !! q) -> is_Some (f (m_quotas m) !! q)) ->
  wf_gen X (set_quotas f m).
Proof.
  intros H Hl Hd. destruct H as [H1 H2 H3 H4 H5 H6]. split; try done.
  intros c cn E. destruct (H3 c cn E) as (S1 & S2 & S3). split_and!; [done| |done].
  simpl. destruct (cn_pQuotaAccount cn); simpl in *; auto.
Qed.

(** A CNode update that keeps the slot array. *)
Lemma wf_set_cn X m c cn cn' :
  wf_gen X m -> m_cns m !! c = Some cn ->
  cn_pSlots cn' = cn_pSlots cn -> cn_cSlots cn' = cn_cSlots cn ->
  ptr_ok (m_quotas m) (cn_pQuotaAccount cn') ->
  wf_gen X (set_cns (<[c := cn']>) m).
Proof.
  intros H E Es El Hq.
  assert (forall i, cn_slot cn' i = cn_slot cn i) as Hs by (intros i; unfold cn_slot; by rewrite Es).
  assert (forall o, obj_refs (set_cns (<[c := cn']>) m) o = obj_refs m o) as Hr.
  { intros o. unfold obj_refs. simpl.
    pose proof (map_sum_update (cn_refs o) (m_cns m) c cn' cn E) as Hm.
    assert (cn_refs o cn' = cn_refs o cn) by (unfold cn_refs; by rewrite Es). lia. }
  destruct H as [H1 H2 H3 H4 H5 H6]. split; try done.
  - intros c' cn0. simpl. rewrite lookup_insert. case_decide; [|apply H3].
    intros [= <-]. destruct (H3 c cn E) as (S1 & S2 & S3). split_and!; [|done|].
    + unfold cn_shape in *. by rewrite Es, El.
    + intros i s. rewrite Hs. apply S3.
  - intros o h Eo. destruct (H4 o h Eo) as (R1 & R2 & l & R3 & R4 & R5).
    split_and!; [by rewrite Hr|done|]. exists l. split_and!; [done|done|].
    intros e He Hx. destruct (R5 e He Hx) as (c' & i & cn0 & s & N1 & N2 & N3 & N4).
    destruct (decide (c = c')) as [<-|Hne].
    + exists c, i, cn', s. simpl. rewrite lookup_insert_eq, Hs. by simplify_eq.
    + exists c', i, cn0, s. simpl. by rewrite lookup_insert_ne.
Qed.

(** Chains of the other objects when one header changes. *)
Lemma chain_at_other m o h' o2 h2 l :
  o2 <> o -> chain_at m o2 h2 l <-> chain_at (set_objs (<[o := h']>) m) o2 h2 l.
Proof. intros Hne. unfold chain_at. simpl. by rewrite lookup_insert_ne. Qed.

Lemma wf_obj_alloc_dom X m o h' :
  wf_gen X m -> is_Some (m_objs m !! o) ->
  (forall x, is_Some (m_objs m !! x) -> is_Some (m_objs (set_objs (<[o := h']>) m) !! x)).
Proof. intros _ _ x Hx. simpl. rewrite lookup_insert. case_decide; eauto. Qed.

Lemma slot_ok_mono m m' i s :
  (forall x, is_Some (m_objs m !! x) -> is_Some (m_objs m' !! x)) ->
  slot_ok m i s -> slot_ok m' i s.
Proof.
  intros Hd [Hg H]. split; [done|]. case_match; [done|].
  destruct H as (o & ? & ? & ?). eauto.
Qed.

Lemma rq_ok_mono m m' :
  m_rq m' = m_rq m -> m_rqlen m' = m_rqlen m -> m_rqcur m' = m_rqcur m ->
  (forall x, is_Some (m_objs m !! x) -> is_Some (m_objs m' !! x)) -> rq_ok m -> rq_ok m'.
Proof.
  intros E1 E2 E3 Hd (H1 & H2 & H3 & H4 & H5). unfold rq_ok. rewrite E1, E2, E3.
  split_and!; try done; try lia. intros i qe Hi Ha. destruct (H4 i qe Hi Ha) as (? & o & ? & ?). eauto.
Qed.

(** A header update that keeps [u32SlotsLeft] and [pCdtHead]. *)
Lemma wf_set_hdr X m o h h' :
  wf_gen X m -> m_objs m !! o = Some h ->
  hdr_u32SlotsLeft h' = hdr_u32SlotsLeft h -> hdr_pCdtHead h' = hdr_pCdtHead h ->
  wf_gen X (set_objs (<[o := h']>) m).
Proof.
  intros H E El Eh. set (m' := set_objs _ m).
  assert (forall x, is_Some (m_objs m !! x) -> is_Some (m_objs m' !! x)) as Hd
    by (by apply (wf_obj_alloc_dom X)).
  assert (forall o2 h2 l, chain_at m o2 h2 l ->
            chain_at m' o2 (if bool_decide (o2 = o) then h' else h2) l) as Hch.
  { intros o2 h2 l Hc. case_bool_decide; [subst|by apply chain_at_other].
    destruct Hc as (E2 & C & N & U). simplify_eq. split_and!; simpl; try done.
    - by rewrite lookup_insert_eq.
    - by rewrite Eh. }
  apply (wf_gen_intro X m' (fun o l => exists h, chain_at m o h l)); try apply H.
  - intros c cn Ec. destruct (wf_cns _ _ H c cn Ec) as (S1 & S2 & S3).
    split_and!; [done..|]. intros i s Hs. eapply slot_ok_mono; eauto.
  - intros o2 h2 E2. simpl in E2. rewrite lookup_insert in E2. case_decide as Ho.
    + injection E2 as <-. subst o2. destruct (wf_objs _ _ H o h E) as (R1 & R2 & l & R3 & R4 & R5).
      rewrite El. split_and!; [done..|]. exists l. split_and!; [eauto| |done|done].
      apply Hch in R3. by rewrite bool_decide_true in R3.
    + destruct (wf_objs _ _ H o2 h2 E2) as (R1 & R2 & l & R3 & R4 & R5).
      split_and!; [done..|]. exists l. split_and!; [eauto| |done|done].
      apply Hch in R3. by rewrite bool_decide_false in R3.
  - intros o1 o2 l1 l2 [h1 C1] [h2 C2]. by eapply (wf_disj _ _ H).
  - apply (rq_ok_mono m); [done..|apply (wf_queue _ _ H)].
Qed.
End Updates.

(** Binding and unbinding a slot, with the object's count. *)
Section Binding.
Implicit Types (X : edgep -> Prop) (m : cap_mem) (o : objp) (h : gj_obj_hdr) (c : cnp)
  (cn : gj_cnode) (s : gj_cap_slot) (l : list edgep) (e : edgep).

(** Memory after a slot store and the matching count update. *)
Definition rebind (c : cnp) (cn : gj_cnode) (i : Z) (s : gj_cap_slot) (o : objp) (h : gj_obj_hdr)
    (n : Z) (m : cap_mem) : cap_mem :=
  set_objs (<[o := hdr_set_left h n]>) (set_cns (<[c := cn_set_slot cn i s]>) m).

(** Slot [(c, i)] goes from [s0] to [s], where only [o]'s count may change. *)
Lemma wf_rebind X m c cn i s0 s o h n :
  wf_gen X m -> m_cns m !! c = Some cn -> cn_slot cn i = Some s0 -> m_objs m !! o = Some h ->
  slot_ok m i s ->
  (forall o', o' <> o -> slot_refs o' s0 = false /\ slot_refs o' s = false) ->
  n + Z.b2z (slot_refs o s0) = hdr_u32SlotsLeft h + Z.b2z (slot_refs o s) -> n <= U32_MAX ->
  (slot_refs o s0 = true ->
     forall l e, chain_at m o h l -> e ∈ l -> edge_tgt (m_pool m) e = Some (Some c, i) -> X e) ->
  wf_gen X (rebind c cn i s o h n m).
Proof.
  intros H Ec Es Eo Hs Hother Hn Hmax Hedge. set (m' := rebind _ _ _ _ _ _ _ m).
  assert (forall x, is_Some (m_objs m !! x) -> is_Some (m_objs m' !! x)) as Hd.
  { intros x Hx. simpl. rewrite lookup_insert. case_decide; eauto. }
  assert (forall o', (obj_refs m' o' + Nat.b2n (slot_refs o' s0)
                      = obj_refs m o' + Nat.b2n (slot_refs o' s))%nat) as Hr.
  { intros o'. by apply (obj_refs_set m c cn i s s0 o' _ Ec Es). }
  assert (forall o2 e, (forall l2 h2, chain_at m o2 h2 l2 -> e ∈ l2 -> ~ X e -> edge_named m o2 e)
            -> forall l2 h2, chain_at m o2 h2 l2 -> e ∈ l2 -> ~ X e -> edge_named m' o2 e) as Hnm.
  { intros o2 e Hx l2 h2 C2 He Hne.
    destruct (Hx l2 h2 C2 He Hne) as (c' & j & cn0 & s1 & N1 & N2 & N3 & N4).
    destruct (decide (c' = c)) as [->|Hcc].
    - simplify_eq. exists c, j, (cn_set_slot cn i s), s1. simpl. rewrite lookup_insert_eq.
      rewrite (cn_slot_set _ _ _ _ _ Es). case_bool_decide as Hij; [|done]. subst j. exfalso.
      simplify_eq. destruct (decide (o2 = o)) as [->|Hoo].
      + apply Hne. assert (h2 = h) as -> by (destruct C2 as [E2 _]; congruence). eauto.
      + by rewrite (proj1 (Hother o2 Hoo)) in N4.
    - exists c', j, cn0, s1. simpl. by rewrite lookup_insert_ne. }
  apply (wf_gen_intro X m' (fun o l => exists h, chain_at m o h l)); try apply H.
  - intros c' cn'. simpl. rewrite lookup_insert. case_decide as Hc.
    + intros [= <-]. destruct (wf_cns _ _ H c cn Ec) as (S1 & S2 & S3).
      split_and!; [by apply cn_shape_set|done|].
      intros j s1. rewrite (cn_slot_set _ _ _ _ _ Es). case_bool_decide as Hij.
      * intros [= <-]. subst j. by eapply slot_ok_mono.
      * intros Hj. eapply slot_ok_mono; eauto.
    + intros E'. destruct (wf_cns _ _ H c' cn' E') as (S1 & S2 & S3). split_and!; [done..|].
      intros j s1 Hj. eapply slot_ok_mono; eauto.
  - intros o2 h2 E2. simpl in E2. rewrite lookup_insert in E2. case_decide as Ho.
    + injection E2 as <-. subst o2. destruct (wf_objs _ _ H o h Eo) as (R1 & R2 & l & R3 & R4 & R5).
      simpl. split_and!; [|done|].
      * specialize (Hr o). destruct (slot_refs o s0), (slot_refs o s); simpl in *; lia.
      * exists l. split_and!; [eauto| |done|].
        -- destruct R3 as (_ & C & N & U). split_and!; simpl; [by rewrite lookup_insert_eq|done..].
        -- intros e He Hx. eapply Hnm; [|exact R3|done|done]. intros l2 h2 C2 He2 Hx2.
           apply R5; [|done]. by destruct (chain_at_det _ _ _ _ _ _ R3 C2) as [_ ->].
    + destruct (wf_objs _ _ H o2 h2 E2) as (R1 & R2 & l & R3 & R4 & R5).
      split_and!; [|done|].
      * specialize (Hr o2). destruct (Hother o2) as [E3 E4]; [done|]. rewrite E3, E4 in Hr.
        simpl in Hr. lia.
      * exists l. split_and!; [eauto| |done|].
        -- destruct R3 as (_ & C & N & U). split_and!; simpl; [by rewrite lookup_insert_ne|done..].
        -- intros e He Hx. eapply Hnm; [|exact R3|done|done]. intros l2 h3 C2 He2 Hx2.
           apply R5; [|done]. by destruct (chain_at_det _ _ _ _ _ _ R3 C2) as [_ ->].
  - intros o1 o2 l1 l2 [h1 C1] [h2 C2]. by eapply (wf_disj _ _ H).
  - apply (rq_ok_mono m); [done..|apply (wf_queue _ _ H)].
Qed.

Lemma edge_named_pool m m' o e :
  m_cns m' = m_cns m -> edge_tgt (m_pool m') e = edge_tgt (m_pool m) e ->
  edge_named m o e -> edge_named m' o e.
Proof.
  intros Ec Et (c & i & cn & s & H). exists c, i, cn, s. by rewrite Ec, Et.
Qed.

(** The chain of one object is replaced; the edges of the others stay put. *)
Lemma wf_rechain X X' m m' o h hd' pool' used' n' l' :
  wf_gen X m -> m_objs m !! o = Some h ->
  m' = set_objs (<[o := hdr_set_cdt h hd']>) (set_pool pool' used' n' m) ->
  pool_ok m' -> chain_at m' o (hdr_set_cdt h hd') l' -> NoDup (edge_tgt pool' <$> l') ->
  (forall e, e ∈ l' -> ~ X' e -> edge_named m' o e) ->
  (forall o2 h2 l2, o2 <> o -> chain_at m o2 h2 l2 ->
     l2 ## l' /\ forall e, e ∈ l2 ->
       pool' !! e = m_pool m !! e /\ used' !! e = m_used m !! e /\ (X e -> X' e)) ->
  wf_gen X' m'.
Proof.
  intros H Eo Em' Hpo' Hch' Hndt Hnm Hoth.
  assert (m_cns m' = m_cns m) as Ecn by (by rewrite Em').
  assert (forall o2, obj_refs m' o2 = obj_refs m o2) as Hr
    by (intros o2; unfold obj_refs; by rewrite Ecn).
  assert (forall x, is_Some (m_objs m !! x) -> is_Some (m_objs m' !! x)) as Hd.
  { intros x Hx. rewrite Em'. simpl. rewrite lookup_insert. case_decide; eauto. }
  apply (wf_gen_intro X' m' (fun o2 l2 => (o2 = o /\ l2 = l') \/ (o2 <> o /\ exists h, chain_at m o2 h l2))).
  - done.
  - rewrite Em'. apply H.
  - intros c cn. rewrite Ecn. intros E. destruct (wf_cns _ _ H c cn E) as (S1 & S2 & S3).
    split_and!; [done|by rewrite Em'|]. intros i s Hs. eapply slot_ok_mono; eauto.
  - intros o2 h2 E2. rewrite Hr. destruct (decide (o2 = o)) as [->|Ho].
    + destruct (wf_objs _ _ H o h Eo) as (R1 & R2 & _).
      assert (h2 = hdr_set_cdt h hd') as -> by (destruct Hch' as [E3 _]; congruence).
      split_and!; [done..|]. exists l'. split_and!; [by left|done|by rewrite Em'|done].
    + rewrite Em' in E2. simpl in E2. rewrite lookup_insert_ne in E2 by done.
      destruct (wf_objs _ _ H o2 h2 E2) as (R1 & R2 & l2 & R3 & R4 & R5).
      destruct (Hoth o2 h2 l2 Ho R3) as [_ Hk].
      assert (forall e, e ∈ l2 -> edge_tgt (m_pool m') e = edge_tgt (m_pool m) e) as Hte.
      { intros e He. rewrite Em'. unfold edge_tgt. simpl. by rewrite (proj1 (Hk e He)). }
      split_and!; [done..|]. exists l2. split_and!; [right; eauto| |by rewrite (fmap_ext_in _ _ _ Hte)|].
      * destruct R3 as (_ & C & N & U). rewrite Em'. split_and!; simpl; [by rewrite lookup_insert_ne| |done|].
        -- eapply is_chain_ext, C. intros e He. by apply Hk.
        -- rewrite Forall_forall in U |- *. intros e He. rewrite (proj1 (proj2 (Hk e He))). auto.
      * intros e He Hx. eapply edge_named_pool; [done|by apply Hte|].
        apply R5; [done|]. intros HX. by apply Hx, Hk.
  - intros o1 o2 l1 l2 [[-> ->]|[N1 [h1 C1]]] [[-> ->]|[N2 [h2 C2]]] Hne; try done.
    + destruct (Hoth o2 h2 l2 N2 C2) as [? _]. set_solver.
    + by apply (Hoth o1 h1 l1 N1 C1).
    + by eapply (wf_disj _ _ H); [exact C1|exact C2|].
  - apply (rq_ok_mono m); [by rewrite Em'..|done|apply (wf_queue _ _ H)].
Qed.

(** Unlinking edges keeps the invariant; dropped edges need no excuse. *)
Lemma wf_shrink X X' m m' o h l l' :
  wf_gen X m -> chain_at m o h l -> cdt_shrink o h l l' m m' ->
  l' ⊆ l -> NoDup l' -> NoDup (edge_tgt (m_pool m) <$> l') ->
  (forall e, X e -> X' e \/ (e ∈ l /\ e ∉ l')) -> wf_gen X' m'.
Proof.
  intros H Hch Hsh Hsub Hnd Hndt HX.
  destruct (chain_at_shrink _ _ _ _ _ _ Hch Hsh Hsub Hnd) as (h' & -> & Hch').
  destruct Hsh as (hd' & pool' & used' & n' & Em' & Hc' & Hout & Hk & Hdrop & Hpo).
  pose proof Hch as (Eo & _). rewrite (is_chain_head _ _ _ Hc') in Em'.
  destruct (wf_objs _ _ H o h Eo) as (_ & _ & l0 & R3 & _ & R5).
  destruct (chain_at_det _ _ _ _ _ _ Hch R3) as [_ <-].
  eapply (wf_rechain X X' m m' o h (head l') pool' used' n' l' H Eo Em');
    [apply Hpo, H|exact Hch'| | |].
  - erewrite fmap_ext_in; [exact Hndt|]. intros e He. by apply Hk.
  - intros e He Hx. eapply (edge_named_pool m); [by rewrite Em'| |].
    + rewrite Em'. simpl. by apply Hk.
    + apply R5; [set_solver|]. intros HXe. destruct (HX e HXe) as [?|[_ ?]]; done.
  - intros o2 h2 l2 Hne C2.
    assert (l2 ## l) as Hdis by (by eapply (wf_disj _ _ H); [exact C2|exact Hch|]).
    split; [set_solver|]. intros e He. destruct (Hout e) as [E1 E2]; [set_solver|].
    split_and!; [done..|]. intros HXe. destruct (HX e HXe) as [?|[? _]]; [done|set_solver].
Qed.

(** Wiring an edge for a slot that binds [o] and has no edge yet. *)
Lemma wf_wired X m m' o h c i cn s l :
  wf_gen X m -> chain_at m o h l -> cdt_wired o h c i m m' ->
  m_cns m !! c = Some cn -> cn_slot cn i = Some s -> slot_refs o s = true ->
  (forall e, e ∈ l -> edge_tgt (m_pool m) e <> Some (Some c, i)) ->
  wf_gen X m'.
Proof.
  intros H Hch Hw Ec Es Hs Hfresh. pose proof (wf_pool _ _ H) as Hpo.
  destruct (cdt_wired_chain _ _ _ _ _ _ _ Hch Hpo Hw) as [Hpo' _].
  destruct Hw as [[-> _]|(e & Ee & Em')]; [done|].
  pose proof (cdt_wired_head o h c i m m' l e Hch Hpo Ee Em') as [Hch' Hte].
  assert (forall o2 h2 l2, chain_at m o2 h2 l2 -> e ∉ l2) as Hnin.
  { intros o2 h2 l2 (_ & _ & _ & U2) Hin. rewrite Forall_forall in U2. apply U2 in Hin. congruence. }
  set (pool' := <[e := CdtEdge (hdr_pCdtHead h) (Some c) i]> (m_pool m)) in *.
  assert (forall a, a ∈ l -> edge_tgt pool' a = edge_tgt (m_pool m) a) as Ht.
  { intros a Ha. apply edge_tgt_insert_ne. intros ->. by eapply Hnin. }
  pose proof Hch as (Eo & _).
  destruct (wf_objs _ _ H o h Eo) as (_ & _ & l0 & R3 & R4 & R5).
  destruct (chain_at_det _ _ _ _ _ _ Hch R3) as [_ <-].
  eapply (wf_rechain X X m m' o h (Some e) pool' _ _ (e :: l) H Eo Em'); [done|done| | |].
  - rewrite fmap_cons, Hte, (fmap_ext_in _ _ _ Ht). apply NoDup_cons. split; [|done].
    intros (a & Ea & Ha)%list_elem_of_fmap. by apply (Hfresh a Ha).
  - intros a Ha Hx. apply elem_of_cons in Ha as [->|Ha].
    + exists c, i, cn, s. rewrite Em'. simpl. done.
    + eapply (edge_named_pool m); [by rewrite Em'|rewrite Em'; by apply Ht|by apply R5].
  - intros o2 h2 l2 Hne C2.
    assert (l2 ## l) as Hdis by (by eapply (wf_disj _ _ H); [exact C2|exact Hch|]).
    pose proof (Hnin o2 h2 l2 C2). split; [set_solver|].
    intros a Ha. unfold pool'. by rewrite !list_lookup_insert_ne by set_solver.
Qed.
End Binding.
