(* ===== verification/CapOps.v ===== *)
(** Specifications of resolve, install and alloc-install ([kernel/cap/cnode.c]).

    [quiet] is what an operation that fails (or only reads) may do to the
    memory: counters of a quota account and unused pool entries.  Each
    operation gets one total-correctness specification covering every return
    path; the theorems of the later files are derived from these. *)
From stdpp Require Import base gmap list strings fin_maps.
From Stdlib Require Import ZArith Lia.
From S2P Require Import Prelude CapTypes CapEdges CapQuota CapCnode CapInv.

(** ** Memory changes that no capability holder can observe *)

(** What the quota arithmetic depends on. *)
Definition q_core (v : gj_cap_quota) : Z * Z * option quotap :=
  (q_u32Limit v, q_u32Used v, q_pParent v).

Definition quiet (m m' : cap_mem) : Prop :=
  m_objs m' = m_objs m /\ m_cns m' = m_cns m
  /\ (forall q, q_core <$> m_quotas m' !! q = q_core <$> m_quotas m !! q)
  /\ m_rq m' = m_rq m /\ m_rqlen m' = m_rqlen m /\ m_rqcur m' = m_rqcur m
  /\ (forall i, m_used m !! i = Some true ->
        m_used m' !! i = Some true /\ m_pool m' !! i = m_pool m !! i)
  /\ pool_ok m'.

Lemma quiet_refl m : pool_ok m -> quiet m m.
Proof. done. Qed.

Lemma quiet_trans m1 m2 m3 : quiet m1 m2 -> quiet m2 m3 -> quiet m1 m3.
Proof.
  intros (A1 & A2 & A3 & A4 & A5 & A6 & A7 & A8) (B1 & B2 & B3 & B4 & B5 & B6 & B7 & B8).
  split_and!; try congruence; try (intros q; by rewrite B3).
  intros i Hi. destruct (A7 i Hi) as [U P]. destruct (B7 i U) as [U' P']. split; congruence.
Qed.

Lemma quiet_frame m m' : hook_frame m m' -> quiet m m'.
Proof.
  intros (H1 & H2 & H3 & H4 & H5 & H6 & H7 & H8). split_and!; try done. intros q. by rewrite H3.
Qed.

Lemma quiet_exhaust m q : pool_ok m -> quiet m (set_quotas (alter q_exhaust q) m).
Proof.
  intros Hp. split_and!; try done. intros x. simpl. destruct (decide (q = x)) as [->|Hne].
  - rewrite lookup_alter_eq. by destruct (m_quotas m !! x).
  - by rewrite lookup_alter_ne.
Qed.

Lemma q_core_parent (qs qs' : gmap quotap gj_cap_quota) :
  (forall q, q_core <$> qs' !! q = q_core <$> qs !! q) ->
  forall q, q_pParent <$> qs' !! q = q_pParent <$> qs !! q.
Proof.
  intros H q. specialize (H q). destruct (qs' !! q), (qs !! q); simpl in *; try done.
  unfold q_core in H. congruence.
Qed.

Lemma q_core_some (qs qs' : gmap quotap gj_cap_quota) q :
  (forall q, q_core <$> qs' !! q = q_core <$> qs !! q) -> is_Some (qs !! q) -> is_Some (qs' !! q).
Proof.
  intros H [v E]. specialize (H q). rewrite E in H. destruct (qs' !! q); simpl in H; [eauto|done].
Qed.

Lemma ledger_ok_core (qs qs' : gmap quotap gj_cap_quota) :
  (forall q, q_core <$> qs' !! q = q_core <$> qs !! q) -> ledger_ok qs -> ledger_ok qs'.
Proof.
  intros H (H1 & H2 & H3). pose proof (q_core_parent _ _ H) as Hp. split_and!.
  - by eapply parents_ok_ext.
  - intros q k Hk. rewrite (anc_ext _ _ _ _ Hp). by apply H2.
  - intros q v E. specialize (H q). rewrite E in H. destruct (qs !! q) as [v0|] eqn:E0; [|done].
    specialize (H3 q v0 E0). unfold quota_range, q_core in *. simpl in H. injection H as -> -> _. done.
Qed.

Lemma quiet_split m m' :
  quiet m m' -> hook_frame (set_quotas (fun _ => m_quotas m') m) m'.
Proof. intros (H1 & H2 & H3 & H4 & H5 & H6 & H7 & H8). by split_and!. Qed.

Lemma wf_quiet X m m' : wf_gen X m -> quiet m m' -> wf_gen X m'.
Proof.
  intros H Hq. eapply wf_hook; [|by apply quiet_split]. destruct Hq as (_ & _ & H3 & _).
  apply wf_set_quotas; [done| |].
  - eapply ledger_ok_core; [done|apply H].
  - intros q. by apply q_core_some.
Qed.

Lemma chain_at_quiet m m' o h l : chain_at m o h l -> quiet m m' -> chain_at m' o h l.
Proof. intros Hc Hq. eapply chain_at_frame; [|by apply quiet_split]. done. Qed.

Lemma edge_tgt_quiet m m' e :
  quiet m m' -> m_used m !! e = Some true -> edge_tgt (m_pool m') e = edge_tgt (m_pool m) e.
Proof. intros (_ & _ & _ & _ & _ & _ & Hk & _) Hu. unfold edge_tgt. by rewrite (proj2 (Hk e Hu)). Qed.

(** A hook run is quiet. *)
Lemma wp_hook_quiet hook `{!CapHook hook} m (Q : unit -> cap_mem -> Prop) :
  pool_ok m -> (forall m', quiet m m' -> Q tt m') -> wp hook Q m.
Proof.
  intros Hp HQ. eapply wp_mono; [by apply hook_ok|]. intros [] m' Hf. by apply HQ, quiet_frame.
Qed.

(** ** Counters only *)
Lemma wp_when b (c : capM unit) Q m : (b = true -> wp c Q m) -> Q tt m -> wp (when b c) Q m.
Proof. intros Hc HQ. destruct b; simpl; [auto|by apply wp_ret]. Qed.

Lemma wp_note_install ty Q m : Q tt m -> wp (cdt_soft_ddi_note_install ty) Q m.
Proof. intros H. unfold cdt_soft_ddi_note_install. repeat (case_match; wsteps; try done). Qed.

Lemma wp_when_tel b (c : capM unit) (Q : unit -> cap_mem -> Prop) m :
  (forall (R : unit -> cap_mem -> Prop) m, R tt m -> wp c R m) -> Q tt m -> wp (when b c) Q m.
Proof. intros Hc HQ. apply wp_when; auto. Qed.

Ltac tel_step :=
  match goal with
  | |- wp (when _ _) _ _ => apply wp_when_tel; [intros ? ? ?; solve [repeat tel_step; done]|]
  | |- wp (if _ then _ else _) _ _ => case_match
  | |- wp (cdt_soft_ddi_note_install _) _ _ => apply wp_note_install
  | |- _ => progress wsteps
  end.

Lemma wp_note_mint ty r x (Q : unit -> cap_mem -> Prop) m :
  Q tt m -> wp (cdt_soft_ddi_note_mint ty r x) Q m.
Proof. intros H. unfold cdt_soft_ddi_note_mint. repeat tel_step; done. Qed.

Lemma wp_ret_bucket a b c d st (Q : unit -> cap_mem -> Prop) m :
  Q tt m -> wp (ret_bucket a b c d st) Q m.
Proof. intros H. unfold ret_bucket. wsteps. destruct st; by wsteps. Qed.

Lemma wp_alloc_bucket st (Q : unit -> cap_mem -> Prop) m : Q tt m -> wp (alloc_bucket st) Q m.
Proof. intros H. unfold alloc_bucket. destruct st; by wsteps. Qed.

(** ** Resolve *)
Definition cptr_ok (m : cap_mem) (p : option cnp) : Prop :=
  match p with Some c => is_Some (m_cns m !! c) | None => True end.
Definition optr_ok (m : cap_mem) (p : option objp) : Prop :=
  match p with Some o => is_Some (m_objs m !! o) | None => True end.

Definition slot_at (m : cap_mem) (c : cnp) (i : Z) : option gj_cap_slot :=
  cn ← m_cns m !! c; cn_slot cn i.

(** The slots a CNode offers. *)
Definition in_cnode (m : cap_mem) (c : cnp) (i : Z) : bool :=
  match m_cns m !! c with
  | Some cn => negb (bool_decide (cn_pSlots cn = None)) && negb (cn_cSlots cn =? 0)
               && (i <? cn_cSlots cn)
  | None => false
  end.

(** What [gj_cap_resolve] answers, as a function of the memory. *)
Definition resolve_result (m : cap_mem) (pc : option cnp) (i g : Z) (pOut : bool)
    : gj_status * option gj_cap_resolved :=
  match pc with
  | None => (GJ_ERR_INVAL, None)
  | Some c =>
      if negb pOut || negb (in_cnode m c i) || (g =? 0) then (GJ_ERR_INVAL, None)
      else
        match slot_at m c i with
        | None => (GJ_ERR_INVAL, None)
        | Some s =>
            if slot_u16Type s =? GJ_CAP_INVALID then (GJ_ERR_NOENT, None)
            else if negb (slot_u32Gen s =? g) then (GJ_ERR_STALE_CAP, None)
            else
              match slot_pObj s with
              | None => (GJ_ERR_STALE_CAP, None)
              | Some o =>
                  match gj_obj_check_live (m_objs m !! o) (slot_u32ObjGen s) with
                  | GJ_OK => (GJ_OK, Some (CapResolved i o (slot_u16Type s) (slot_u16Rights s)))
                  | st => (st, None)
                  end
              end
        end
  end.

#[local] Arguments gj_obj_check_live : simpl never.
#[local] Arguments first_full : simpl never.
#[local] Arguments qchain : simpl never.

Lemma wf_slot m c cn i :
  wf m -> m_cns m !! c = Some cn -> cn_pSlots cn <> None -> 0 <= i < cn_cSlots cn ->
  exists s, cn_slot cn i = Some s /\ slot_ok m i s.
Proof.
  intros H E Hs Hi. destruct (wf_cns _ _ H c cn E) as (Hsh & _ & Hok).
  destruct (cn_slot_in_range cn i Hsh Hs Hi) as [s Es]. eauto.
Qed.

Lemma slot_ok_obj m i s :
  slot_ok m i s -> slot_u16Type s <> GJ_CAP_INVALID ->
  exists o h, slot_pObj s = Some o /\ m_objs m !! o = Some h
    /\ (i = GJ_CAP_SLOT_ROOT_META <-> slot_u16Type s = GJ_CAP_ROOT_META).
Proof.
  intros [_ H] Hn. rewrite (proj2 (Z.eqb_neq _ _) Hn) in H.
  destruct H as (o & E & [h Eh] & Hr). eauto 6.
Qed.

Section Specs.
Context (hook : capM unit) `{!CapHook hook}.

Lemma wp_resolve m pc i g pOut :
  wf m -> cptr_ok m pc -> 0 <= i ->
  wp (gj_cap_resolve hook pc i g pOut)
     (fun r m' => r = resolve_result m pc i g pOut /\ quiet m m') m.
Proof.
  intros H Hpc Hi. pose proof (wf_pool _ _ H) as Hp. unfold gj_cap_resolve, resolve_result. wsteps.
  destruct pc as [c|]; [|by wsteps]. destruct Hpc as [cn Ec].
  unfold in_cnode, slot_at. rewrite Ec. simpl.
  destruct pOut; simpl; [|wsteps; done]. wsteps.
  case_bool_decide as Es; simpl; [by wsteps|].
  destruct (cn_cSlots cn =? 0); simpl; [by wsteps|].
  destruct (g =? 0); simpl; [rewrite orb_true_r; by wsteps|]. rewrite orb_false_r.
  destruct (Z.leb_spec (cn_cSlots cn) i) as [Hb|Hb]; destruct (Z.ltb_spec i (cn_cSlots cn)) as [Hb2|Hb2]; try lia; simpl;
    [by wsteps|].
  destruct (wf_slot m c cn i H Ec Es) as (s & Ess & Hs); [lia|]. rewrite Ess. wsteps.
  destruct (Z.eqb_spec (slot_u16Type s) GJ_CAP_INVALID) as [|Hn]; [by wsteps|].
  destruct (slot_u32Gen s =? g); simpl; [|by wsteps].
  destruct (slot_ok_obj m i s Hs Hn) as (o & h & Eo & Eh & _). rewrite Eo, Eh. wsteps.
  destruct (gj_obj_check_live (Some h) (slot_u32ObjGen s)) eqn:El; simpl; wsteps; try done.
  apply wp_hook_quiet; [done..|]. intros m' Hq. by wsteps.
Qed.

(** ** Install *)
Definition install_status (m : cap_mem) (pc : option cnp) (i ty : Z) (po : option objp)
    (pOut : bool) : gj_status :=
  match pc, po with
  | Some c, Some o =>
      if negb pOut || negb (in_cnode m c i) || (ty =? GJ_CAP_INVALID) then GJ_ERR_INVAL
      else
        match m_cns m !! c, m_objs m !! o with
        | Some cn, Some h =>
            if negb (hdr_u32State h =? GJ_OBJ_LIVE) then GJ_ERR_DEAD
            else if hdr_u32Gen h =? 0 then GJ_ERR_INVAL
            else if negb (Bool.eqb (i =? GJ_CAP_SLOT_ROOT_META) (ty =? GJ_CAP_ROOT_META)) then GJ_ERR_PERM
            else if negb (bool_decide (slot_u16Type <$> cn_slot cn i = Some GJ_CAP_INVALID)) then GJ_ERR_BUSY
            else if hdr_u32SlotsLeft h =? U32_MAX then GJ_ERR_QUOTA
            else match first_full GJ_CAP_QUOTA_DEPTH_MAX (m_quotas m) (cn_pQuotaAccount cn) with
                 | Some _ => GJ_ERR_QUOTA
                 | None => GJ_OK
                 end
        | _, _ => GJ_ERR_INVAL
        end
  | _, _ => GJ_ERR_INVAL
  end.

#[local] Arguments install_status : simpl never.

(** Slot [(c, i)], free before, binds [o]; the account chain is charged. *)
Definition installed (c : cnp) (i ty r : Z) (o : objp) (g : Z) (m m' : cap_mem) : Prop :=
  exists cn s h,
    m_cns m !! c = Some cn /\ cn_slot cn i = Some s /\ slot_u16Type s = GJ_CAP_INVALID
    /\ slot_u32Gen s = g
    /\ m_objs m !! o = Some h /\ hdr_u32State h = GJ_OBJ_LIVE /\ hdr_u32Gen h <> 0
    /\ ty <> GJ_CAP_INVALID /\ (i = GJ_CAP_SLOT_ROOT_META <-> ty = GJ_CAP_ROOT_META)
    /\ hdr_u32SlotsLeft h <> U32_MAX
    /\ first_full GJ_CAP_QUOTA_DEPTH_MAX (m_quotas m) (cn_pQuotaAccount cn) = None
    /\ m' = rebind c cn i (CapSlot ty r g (hdr_u32Gen h) (Some o)) o h (hdr_u32SlotsLeft h + 1)
              (set_quotas (qupd q_charge (qwalk (m_quotas m) (cn_pQuotaAccount cn))) m).

Lemma wp_install m pc i ty r po pOut :
  wf m -> cptr_ok m pc -> optr_ok m po -> 0 <= i ->
  wp (gj_cap_slot_install hook pc i ty r po pOut)
     (fun res m' => fst res = install_status m pc i ty po pOut /\
        match snd res with
        | Some ref => fst res = GJ_OK /\ exists c o g m1,
            pc = Some c /\ po = Some o /\ ref = CapRef i g /\ installed c i ty r o g m m1 /\ quiet m1 m'
        | None => fst res <> GJ_OK /\ quiet m m'
        end) m.
Proof.
  intros H Hpc Hpo Hi. pose proof (wf_pool _ _ H) as Hp. unfold gj_cap_slot_install, install_status.
  wsteps. destruct pc as [c|]; [|by wsteps]. destruct po as [o|]; [|by wsteps].
  destruct Hpc as [cn Ec], Hpo as [h Eo]. unfold in_cnode. rewrite Ec, Eo. wsteps.
  destruct pOut; simpl; [|by wsteps]. case_bool_decide as Es; simpl; [by wsteps|].
  destruct (cn_cSlots cn =? 0); simpl; [by wsteps|].
  destruct (Z.leb_spec (cn_cSlots cn) i) as [Hb|Hb]; destruct (Z.ltb_spec i (cn_cSlots cn)) as [Hb2|Hb2]; try lia; simpl;
    [by wsteps|].
  destruct (Z.eqb_spec ty GJ_CAP_INVALID) as [|Hty]; [by wsteps|]. wsteps.
  destruct (Z.eqb_spec (hdr_u32State h) GJ_OBJ_LIVE) as [Hl|]; simpl; [|by wsteps].
  destruct (Z.eqb_spec (hdr_u32Gen h) 0) as [|Hg]; simpl; [by wsteps|].
  destruct (Z.eqb_spec i GJ_CAP_SLOT_ROOT_META) as [Hroot|Hroot],
    (Z.eqb_spec ty GJ_CAP_ROOT_META) as [Hrt|Hrt]; simpl; try by wsteps.
  all: destruct (wf_slot m c cn i H Ec Es) as (s & Ess & Hs); [lia|]; wsteps; rewrite Ess; simpl.
  all: destruct (bool_decide_reflect (Some (slot_u16Type s) = Some GJ_CAP_INVALID)) as [Hf|Hf]; simpl; [|rewrite (proj2 (Z.eqb_neq (slot_u16Type s) GJ_CAP_INVALID)) by congruence; simpl; by wsteps].
  all: rewrite (proj2 (Z.eqb_eq (slot_u16Type s) GJ_CAP_INVALID)) by congruence; simpl; wsteps.
  all: rewrite (proj2 (Z.eqb_eq _ _) Hl), (proj2 (Z.eqb_eq _ _) eq_refl); simpl.
  all: destruct (Z.eqb_spec (hdr_u32SlotsLeft h) U32_MAX) as [|Hmax]; [by wsteps|]; wsteps.
  all: destruct (wf_cns _ _ H c cn Ec) as (_ & Hqp & _), (wf_ledger _ _ H) as (Hpar & _).
  all: eapply wp_mono; [by apply wp_slot_charge|]; intros st m1 Hst; simpl in Hst.
  all: destruct (first_full _ _ _) as [q|] eqn:Eff; destruct Hst as [-> ->]; simpl;
    [wsteps; refine (conj eq_refl (conj _ _)); [done|by apply quiet_exhaust]|].
  all: wsteps.
  all: assert (u32_wrap (hdr_u32SlotsLeft h + 1) = hdr_u32SlotsLeft h + 1) as ->
    by (destruct (wf_objs _ _ H o h Eo) as (? & ? & _); apply Z.mod_small; unfold U32_MAX in *; lia).
  all: repeat tel_step; unfold cdt_soft_tally_install; wsteps.
  all: apply wp_hook_quiet; [done..|]; intros m2 Hq2; wsteps.
  all: apply wp_hook_quiet; [done|apply Hq2|]; intros m3 Hq3; wsteps.
  all: refine (conj eq_refl (conj eq_refl _)); exists c, o, (slot_u32Gen s); eexists;
    refine (conj eq_refl (conj eq_refl (conj eq_refl (conj _ (quiet_trans _ _ _ Hq2 Hq3))))).
  all: exists cn, s, h; split_and!; try done; congruence.
Qed.
(** ** Alloc-install *)

(** Index of the first free slot of a list whose head has index [i]. *)
Fixpoint first_free_slot (sl : list gj_cap_slot) (i : Z) : option Z :=
  match sl with
  | [] => None
  | s :: sl' => if slot_u16Type s =? GJ_CAP_INVALID then Some i else first_free_slot sl' (i + 1)
  end.

(** The slot [gj_cap_alloc_install] picks: slot 0 for [ROOT_META], else the
    first free slot from 1 on. *)
Definition alloc_target (sl : list gj_cap_slot) (ty : Z) : option Z :=
  if ty =? GJ_CAP_ROOT_META then Some GJ_CAP_SLOT_ROOT_META
  else first_free_slot (drop 1 sl) 1.

Definition alloc_status (m : cap_mem) (pc : option cnp) (ty : Z) (po : option objp)
    (pOut : bool) : gj_status :=
  match pc, po with
  | Some c, Some _ =>
      if negb pOut || negb (in_cnode m c 0) || (ty =? GJ_CAP_INVALID) then GJ_ERR_INVAL
      else
        match m_cns m !! c ≫= cn_pSlots with
        | Some sl =>
            match alloc_target sl ty with
            | Some i => install_status m pc i ty po true
            | None => GJ_ERR_QUOTA
            end
        | None => GJ_ERR_INVAL
        end
  | _, _ => GJ_ERR_INVAL
  end.

Lemma wp_alloc_scan m c cn sl : forall n i,
  m_cns m !! c = Some cn -> cn_pSlots cn = Some sl -> n = (length sl - i)%nat ->
  wp (alloc_scan n c (Z.of_nat i))
     (fun r m' => r = first_free_slot (drop i sl) (Z.of_nat i) /\ m' = m) m.
Proof.
  induction n as [|n IH]; intros i Ec Es Hn; simpl.
  - wsteps. rewrite drop_ge by lia. done.
  - destruct (lookup_lt_is_Some_2 sl i) as [s Hs]; [lia|].
    assert (cn_slot cn (Z.of_nat i) = Some s) as Hcs.
    { unfold cn_slot. rewrite Es, (proj2 (Z.leb_le _ _)), Nat2Z.id by lia. done. }
    rewrite (drop_S _ _ _ Hs). simpl. wsteps. case_match; [by wsteps|].
    replace (Z.of_nat i + 1) with (Z.of_nat (S i)) by lia. apply IH; [done..|lia].
Qed.

(** The outcome shared by [alloc_install] and its callers. *)
Definition install_outcome (pc : option cnp) (ty r : Z) (po : option objp) (m : cap_mem)
    (res : gj_status * option gj_cap_ref) (m' : cap_mem) : Prop :=
  match snd res with
  | Some ref => fst res = GJ_OK /\ exists c o m1,
      pc = Some c /\ po = Some o
      /\ (exists sl, m_cns m !! c ≫= cn_pSlots = Some sl /\ alloc_target sl ty = Some (ref_u64Slot ref))
      /\ installed c (ref_u64Slot ref) ty r o (ref_u32SlotGen ref) m m1 /\ quiet m1 m'
  | None => fst res <> GJ_OK /\ quiet m m'
  end.

Lemma first_free_slot_ge sl i j : first_free_slot sl i = Some j -> i <= j.
Proof.
  revert i. induction sl as [|s sl IH]; intros i; simpl; [done|].
  case_match; [intros [= <-]; lia|]. intros Hj. apply IH in Hj. lia.
Qed.

Lemma wp_alloc_install m pc ty r po pOut :
  wf m -> cptr_ok m pc -> optr_ok m po ->
  wp (gj_cap_alloc_install hook pc ty r po pOut)
     (fun res m' => fst res = alloc_status m pc ty po pOut /\ install_outcome pc ty r po m res m') m.
Proof.
  intros H Hpc Hpo. pose proof (wf_pool _ _ H) as Hp. unfold gj_cap_alloc_install, alloc_status.
  destruct pc as [c|]; [|by wsteps]. destruct po as [o|]; [|by wsteps].
  pose proof Hpc as [cn Ec]. unfold in_cnode. rewrite Ec. wsteps. simpl.
  destruct (cn_pSlots cn) as [sl|] eqn:Es; [|rewrite (bool_decide_true (None = None)) by done; simpl; destruct pOut; by wsteps].
  rewrite (bool_decide_false (Some sl = None)) by done. destruct pOut; simpl; [|by wsteps].
  destruct (wf_cns _ _ H c cn Ec) as (Hsh & _). unfold cn_shape in Hsh. rewrite Es in Hsh.
  destruct Hsh as [Hlen Hpos].
  rewrite (proj2 (Z.eqb_neq (cn_cSlots cn) 0)), (proj2 (Z.ltb_lt 0 (cn_cSlots cn))) by lia. simpl.
  destruct (Z.eqb_spec ty GJ_CAP_INVALID); [by wsteps|].
  assert (forall i, 0 <= i -> alloc_target sl ty = Some i ->
    wp (rr <- gj_cap_slot_install hook (Some c) i ty r (Some o) true ;; alloc_bucket (fst rr) ;;; pret rr)
      (fun res m' => fst res = install_status m (Some c) i ty (Some o) true
         /\ install_outcome (Some c) ty r (Some o) m res m') m) as Hcont.
  { intros i Hi Ht. wsteps. eapply wp_mono; [by apply wp_install|]. intros [st [ref|]] m' [E1 HQ]; simpl in *;
      wsteps; apply wp_alloc_bucket; wsteps; (split; [done|]); unfold install_outcome; simpl; [|done].
    destruct HQ as (-> & c' & o' & g & m1 & [= <-] & [= <-] & -> & Hins & Hq). split; [done|].
    exists c, o, m1. refine (conj eq_refl (conj eq_refl (conj _ (conj Hins Hq)))).
    exists sl. rewrite Ec. done. }
  unfold alloc_target in *. destruct (Z.eqb_spec ty GJ_CAP_ROOT_META).
  - by apply Hcont.
  - wsteps. replace 1 with (Z.of_nat 1) at 2 by done.
    eapply wp_mono; [apply (wp_alloc_scan m c cn sl); [done..|lia]|]. intros r1 m1 [-> ->].
    change (Z.of_nat 1) with 1. destruct (first_free_slot (drop 1 sl) 1) as [i|] eqn:Ef.
    + apply Hcont; [|done]. apply first_free_slot_ge in Ef. lia.
    + by wsteps.
Qed.

(** ** Effect of an install on the invariant *)
Lemma wf_charge X m p :
  wf_gen X m -> first_full GJ_CAP_QUOTA_DEPTH_MAX (m_quotas m) p = None ->
  wf_gen X (set_quotas (qupd q_charge (qwalk (m_quotas m) p)) m).
Proof.
  intros H Hf. apply wf_set_quotas; [done| |].
  - apply ledger_ok_charge; [apply H|done].
  - intros q [v E]. pose proof (qupd_parent q_charge (qwalk (m_quotas m) p) (m_quotas m) q q_charge_parent) as Hp.
    rewrite E in Hp. destruct (qupd _ _ _ !! q); [eauto|done].
Qed.

Lemma wf_refund X m p :
  wf_gen X m -> wf_gen X (set_quotas (qupd q_refund (qwalk (m_quotas m) p)) m).
Proof.
  intros H. apply wf_set_quotas; [done| |].
  - apply ledger_ok_refund, H.
  - intros q [v E]. pose proof (qupd_parent q_refund (qwalk (m_quotas m) p) (m_quotas m) q q_refund_parent) as Hp.
    rewrite E in Hp. destruct (qupd _ _ _ !! q); [eauto|done].
Qed.

Lemma slot_refs_free o s : slot_u16Type s = GJ_CAP_INVALID -> slot_refs o s = false.
Proof. intros E. unfold slot_refs. by rewrite E. Qed.

Lemma wf_installed X m m' c i ty r o g :
  wf_gen X m -> installed c i ty r o g m m' -> wf_gen X m'.
Proof.
  intros H (cn & s & h & Ec & Es & Ef & Eg & Eo & Hl & Hg & Hty & Hr & Hmax & Hq & ->).
  pose proof (wf_charge X m _ H Hq) as H1.
  destruct (wf_cns _ _ H c cn Ec) as (_ & _ & Hsl). destruct (Hsl i s Es) as [Hgr _].
  destruct (wf_objs _ _ H o h Eo) as (_ & Hle & _).
  assert (slot_refs o (CapSlot ty r g (hdr_u32Gen h) (Some o)) = true) as Hb by (by apply slot_refs_true).
  eapply wf_rebind; try done.
  - split; [simpl; lia|]. simpl. rewrite (proj2 (Z.eqb_neq _ _) Hty). eauto.
  - intros o' Hne. split; [by apply slot_refs_free|]. unfold slot_refs. simpl.
    rewrite bool_decide_false by congruence. apply andb_false_r.
  - rewrite Hb, (slot_refs_free o s Ef). simpl. lia.
  - lia.
  - rewrite (slot_refs_free o s Ef). done.
Qed.

(** No edge of [o] names [(c, i)]. *)
Definition edge_free (m : cap_mem) (o : objp) (c : cnp) (i : Z) : Prop :=
  forall h l e, chain_at m o h l -> e ∈ l -> edge_tgt (m_pool m) e <> Some (Some c, i).

Lemma edge_free_quiet m m' o c i :
  is_Some (m_objs m !! o) -> wf m -> quiet m m' -> edge_free m o c i -> edge_free m' o c i.
Proof.
  intros [h0 E0] H Hq Hf h l e Hch He.
  destruct (wf_chain _ _ _ _ H E0) as (l0 & C0 & _).
  destruct (chain_at_det _ _ _ _ _ _ Hch (chain_at_quiet _ _ _ _ _ C0 Hq)) as [-> ->].
  rewrite (edge_tgt_quiet m m'); [by eapply Hf|done|].
  destruct C0 as (_ & _ & _ & U). rewrite Forall_forall in U. auto.
Qed.

Lemma installed_edge_free m m' c i ty r o g :
  wf m -> installed c i ty r o g m m' -> edge_free m' o c i.
Proof.
  intros H (cn & s & h & Ec & Es & Ef & Eg & Eo & Hl & Hg & Hty & Hr & Hmax & Hq & ->) h' l e Hch He Ht.
  simpl in Ht. destruct (wf_chain _ _ _ _ H Eo) as (l0 & C0 & _ & Hnm).
  assert (l = l0) as ->.
  { destruct Hch as (E1 & C1 & _), C0 as (E0 & C2 & _). simpl in *. rewrite lookup_insert_eq in E1.
    injection E1 as <-. by eapply is_chain_det. }
  destruct (Hnm e He) as (c' & j & cn' & s' & N1 & N2 & N3 & N4); [by intros []|].
  rewrite N1 in Ht. injection Ht as -> ->. simplify_eq.
  by rewrite (slot_refs_free o _ Ef) in N4.
Qed.
End Specs.
