(* ===== verification/CapDerive.v ===== *)
(** Capability operations that derive and move: the effect of a call on the
    shared state, [gj_cap_mint] and its relatives, [gj_cap_move]. *)
From stdpp Require Import base gmap list strings fin_maps.
From Stdlib Require Import ZArith Lia.
From S2P Require Import Prelude CapTypes CapEdges CapQuota CapCnode CapInv CapOps.

(** * Effects of the capability operations, in terms a client can use.

    The operations go through intermediate memories (charge, bind, wire, count,
    clear).  This file names the four observable effects and composes them:
    what happens to each slot, to each object header's state, generation, pins
    and references, to each CNode's own fields with the revoke queue, and to
    each quota account's limit, usage and parent. *)

(** ** The observable effects *)

(** Header fields that only the lifecycle operations change. *)
Definition hdr_core (h : gj_obj_hdr) : Z * Z * Z * Z :=
  (hdr_u32State h, hdr_u32Gen h, hdr_u32Ref h, hdr_u32Pin h).

(** CNode fields other than the slot contents. *)
Definition cn_core (cn : gj_cnode) : objp * Z * bool * option quotap * Z :=
  (cn_hdr cn, cn_cSlots cn, bool_decide (cn_pSlots cn = None), cn_pQuotaAccount cn, cn_u32SoftLock cn).

Record frame (m m' : cap_mem) : Prop := Frame {
  frame_cns : forall c, cn_core <$> m_cns m' !! c = cn_core <$> m_cns m !! c;
  frame_objs : forall o, hdr_core <$> m_objs m' !! o = hdr_core <$> m_objs m !! o;
  frame_rq : m_rq m' = m_rq m;
  frame_rqlen : m_rqlen m' = m_rqlen m;
  frame_rqcur : m_rqcur m' = m_rqcur m }.

Definition slots_same (m m' : cap_mem) : Prop := forall c i, slot_at m' c i = slot_at m c i.

(** Exactly slot [(c, i)] changes, to [s]. *)
Definition slot_write (c : cnp) (i : Z) (s : gj_cap_slot) (m m' : cap_mem) : Prop :=
  forall c' i', slot_at m' c' i' = if bool_decide (c' = c /\ i' = i) then Some s else slot_at m c' i'.

Definition quotas_same (m m' : cap_mem) : Prop :=
  forall q, q_core <$> m_quotas m' !! q = q_core <$> m_quotas m !! q.

(** [f] is applied once to each account on the bounded walk from [p]. *)
Definition quota_upd (f : gj_cap_quota -> gj_cap_quota) (p : option quotap) (m m' : cap_mem) : Prop :=
  forall q, q_core <$> m_quotas m' !! q =
    if bool_decide (q ∈ qwalk (m_quotas m) p) then q_core ∘ f <$> m_quotas m !! q
    else q_core <$> m_quotas m !! q.

(** Nothing a capability holder can observe has changed. *)
Record unseen (m m' : cap_mem) : Prop := Unseen {
  un_frame : frame m m';
  un_slots : slots_same m m';
  un_quotas : quotas_same m m' }.

#[export] Instance frame_preorder : PreOrder frame.
Proof.
  split; [by intros m; split|]. intros m1 m2 m3 [A1 A2 A3 A4 A5] [B1 B2 B3 B4 B5].
  split; [intros x; by rewrite B1|intros x; by rewrite B2|congruence..].
Qed.

#[export] Instance slots_same_equiv : Equivalence slots_same.
Proof.
  split; [done|intros m1 m2 H c i; by rewrite H|]. intros m1 m2 m3 H1 H2 c i. by rewrite H2.
Qed.

#[export] Instance quotas_same_equiv : Equivalence quotas_same.
Proof.
  split; [done|intros m1 m2 H q; by rewrite H|]. intros m1 m2 m3 H1 H2 q. by rewrite H2.
Qed.

#[export] Instance unseen_preorder : PreOrder unseen.
Proof.
  split; [by intros m; split|]. intros m1 m2 m3 [A1 A2 A3] [B1 B2 B3].
  split; [by transitivity m2..].
Qed.

#[export] Instance slot_write_proper c i s :
  Proper (slots_same ==> slots_same ==> iff) (slot_write c i s).
Proof.
  intros m1 m2 H m1' m2' H'. unfold slot_write.
  split; intros Hw c' i'; [rewrite H', Hw, H|rewrite <-H', Hw, <-H]; done.
Qed.

(** ** Elementary effects *)
Section Elementary.
Implicit Types (m : cap_mem).

Lemma unseen_quiet m m' : quiet m m' -> unseen m m'.
Proof.
  intros (H1 & H2 & H3 & H4 & H5 & H6 & _). split; [split|..]; try done.
  - intros c. by rewrite H2.
  - intros o. by rewrite H1.
  - intros c i. unfold slot_at. by rewrite H2.
Qed.

Lemma hdr_core_insert m o h h' o' :
  m_objs m !! o = Some h -> hdr_core h' = hdr_core h ->
  hdr_core <$> <[o := h']> (m_objs m) !! o' = hdr_core <$> m_objs m !! o'.
Proof.
  intros E Eh. rewrite lookup_insert. case_decide; [subst; rewrite E; simpl; by rewrite Eh|done].
Qed.

Lemma unseen_shrink o h l l' m m' :
  m_objs m !! o = Some h -> cdt_shrink o h l l' m m' -> unseen m m'.
Proof.
  intros E (hd & pool' & used' & n' & -> & _). split; [split|..]; try done.
  intros o'. by apply (hdr_core_insert m o h).
Qed.

Lemma unseen_wired o h c i m m' :
  m_objs m !! o = Some h -> cdt_wired o h c i m m' -> unseen m m'.
Proof.
  intros E [[-> _]|(e & _ & ->)]; [reflexivity|]. split; [split|..]; try done.
  intros o'. by apply (hdr_core_insert m o h).
Qed.

Lemma rebind_effect c cn i s s0 o h n m :
  m_cns m !! c = Some cn -> cn_slot cn i = Some s0 -> m_objs m !! o = Some h ->
  frame m (rebind c cn i s o h n m) /\ slot_write c i s m (rebind c cn i s o h n m)
  /\ quotas_same m (rebind c cn i s o h n m).
Proof.
  intros Ec Es Eo. split_and!; [split| |]; try done.
  - intros c'. simpl. rewrite lookup_insert. case_decide; [|done]. subst c'. rewrite Ec. simpl.
    unfold cn_core. simpl. by destruct (cn_pSlots cn).
  - intros o'. simpl. by apply (hdr_core_insert m o h).
  - intros c' i'. unfold slot_at. simpl. rewrite lookup_insert. case_decide as Hc.
    + subst c'. simpl. rewrite (cn_slot_set cn i s s0 i' Es), Ec. simpl.
      destruct (decide (i = i')) as [->|Hi].
      * by rewrite !bool_decide_true.
      * rewrite !bool_decide_false by naive_solver. done.
    + rewrite bool_decide_false by naive_solver. done.
Qed.

Lemma quotas_effect (f : gmap quotap gj_cap_quota -> gmap quotap gj_cap_quota) m :
  frame m (set_quotas f m) /\ slots_same m (set_quotas f m).
Proof. by split; [split|]. Qed.

Lemma qupd_effect f p m :
  acyclic (m_quotas m) -> quota_upd f p m (set_quotas (qupd f (qwalk (m_quotas m) p)) m).
Proof.
  intros Ha q. simpl. rewrite qupd_lookup by (by apply qwalk_NoDup).
  case_bool_decide; [|done]. by destruct (m_quotas m !! q).
Qed.
End Elementary.

(** ** Composition *)
Section Compose.
Implicit Types (m : cap_mem).

(** [f] acts on the core of an account only through the core. *)
Definition core_fun (f : gj_cap_quota -> gj_cap_quota) : Prop :=
  forall v v', q_core v = q_core v' -> q_core (f v) = q_core (f v').

Lemma core_fun_charge : core_fun q_charge.
Proof. intros v v'. unfold q_core, q_charge. simpl. intros [= -> -> ->]. done. Qed.

Lemma core_fun_refund : core_fun q_refund.
Proof.
  intros v v'. unfold q_core, q_refund. intros [= E1 E2 E3]. rewrite E2.
  case_match; simpl; rewrite ?E1, ?E2, ?E3; done.
Qed.

Lemma qwalk_core m m' p : quotas_same m m' -> qwalk (m_quotas m') p = qwalk (m_quotas m) p.
Proof. intros H. apply qchain_ext. by apply q_core_parent. Qed.

Lemma quota_upd_l f p m m1 m2 :
  core_fun f -> quotas_same m m1 -> quota_upd f p m1 m2 -> quota_upd f p m m2.
Proof.
  intros Hf H1 H2 q. rewrite H2, (qwalk_core m m1 p H1). specialize (H1 q).
  case_bool_decide; [|done].
  destruct (m_quotas m1 !! q) as [v1|], (m_quotas m !! q) as [v|]; simpl in *; try done.
  f_equal. apply Hf. congruence.
Qed.

Lemma quota_upd_r f p m m1 m2 : quota_upd f p m m1 -> quotas_same m1 m2 -> quota_upd f p m m2.
Proof. intros H1 H2 q. by rewrite H2. Qed.

Lemma first_full_core m m' p n :
  quotas_same m m' -> first_full n (m_quotas m') p = first_full n (m_quotas m) p.
Proof.
  intros H. revert p. induction n as [|n IH]; intros [q|]; simpl; try done.
  specialize (H q). destruct (m_quotas m' !! q) as [v'|], (m_quotas m !! q) as [v|]; simpl in H; try done.
  unfold q_core in H. injection H as E1 E2 E3. unfold has_room. rewrite E1, E2, E3. by case_match.
Qed.

Lemma refund_charge_core v :
  quota_range v -> has_room v = true -> q_core (q_refund (q_charge v)) = q_core v.
Proof.
  unfold quota_range, has_room, U32_MAX. intros [H1 H2] Hr%Z.ltb_lt. unfold q_refund, q_charge, q_core. simpl.
  unfold u32_wrap. rewrite Z.mod_small by lia.
  rewrite (proj2 (Z.ltb_lt 0 _)) by lia. simpl. do 2 f_equal. lia.
Qed.

(** A charge followed by the refund of the same account changes no account. *)
Lemma charge_refund_same p m m1 m2 :
  ledger_ok (m_quotas m) -> first_full GJ_CAP_QUOTA_DEPTH_MAX (m_quotas m) p = None ->
  quota_upd q_charge p m m1 -> quota_upd q_refund p m1 m2 -> quotas_same m m2.
Proof.
  intros (_ & _ & Hr) Hf H1 H2 q.
  assert (qwalk (m_quotas m1) p = qwalk (m_quotas m) p) as Hw.
  { apply qchain_ext. intros x. specialize (H1 x). case_bool_decide;
      destruct (m_quotas m1 !! x) as [v1|], (m_quotas m !! x) as [v|]; simpl in H1; try done;
      unfold q_core in H1; simpl in *; by injection H1 as _ _ ->. }
  rewrite H2, Hw. specialize (H1 q). case_bool_decide as Hin; [|done].
  destruct (m_quotas m1 !! q) as [v1|], (m_quotas m !! q) as [v|] eqn:E; simpl in H1; try done.
  apply (inj Some) in H1. change (Some (q_core (q_refund v1)) = Some (q_core v)).
  f_equal. rewrite (core_fun_refund _ _ H1).
  apply refund_charge_core; [by eapply Hr|]. exact (first_full_none _ _ _ _ _ Hf Hin E).
Qed.

Lemma unseen_frame_l m m1 m2 : unseen m m1 -> frame m1 m2 -> frame m m2.
Proof. intros [H _ _] H2. by transitivity m1. Qed.

Lemma slot_at_some m c i s : slot_at m c i = Some s <-> exists cn, m_cns m !! c = Some cn /\ cn_slot cn i = Some s.
Proof. unfold slot_at. destruct (m_cns m !! c); simpl; naive_solver. Qed.

Lemma frame_account m m' c cn cn' :
  frame m m' -> m_cns m !! c = Some cn -> m_cns m' !! c = Some cn' ->
  cn_pQuotaAccount cn' = cn_pQuotaAccount cn.
Proof.
  intros [H _ _ _ _] E E'. specialize (H c). rewrite E, E' in H. simpl in H. unfold cn_core in H. congruence.
Qed.

Lemma frame_cn_some m m' c : frame m m' -> is_Some (m_cns m !! c) <-> is_Some (m_cns m' !! c).
Proof.
  intros [H _ _ _ _]. specialize (H c).
  destruct (m_cns m' !! c), (m_cns m !! c); simpl in H; split; intros []; naive_solver.
Qed.

Lemma frame_obj_some m m' o : frame m m' -> is_Some (m_objs m !! o) <-> is_Some (m_objs m' !! o).
Proof.
  intros [_ H _ _ _]. specialize (H o).
  destruct (m_objs m' !! o), (m_objs m !! o); simpl in H; split; intros []; naive_solver.
Qed.
End Compose.

(** * Specifications of mint, copy, move, delete and of the known-CNode clear
    ([kernel/cap/cnode.c]): result on every return path, effect, and
    preservation of the invariant. *)

#[local] Arguments gj_obj_check_live : simpl never.
#[local] Arguments first_full : simpl never.
#[local] Arguments qchain : simpl never.
#[local] Arguments install_status : simpl never.
#[local] Arguments resolve_result : simpl never.
#[local] Arguments alloc_status : simpl never.

(** ** Generations *)
Lemma slot_gen_bump_range g : 1 <= slot_gen_bump g <= U32_MAX.
Proof.
  unfold slot_gen_bump, u32_wrap, U32_MAX. pose proof (Z.mod_pos_bound (g + 1) (2 ^ 32)).
  destruct (Z.eqb_spec ((g + 1) mod 2 ^ 32) 0); lia.
Qed.

Lemma slot_gen_bump_cycle g :
  1 <= g <= U32_MAX -> slot_gen_bump g = 1 + g mod U32_MAX.
Proof.
  unfold slot_gen_bump, u32_wrap, U32_MAX. intros H.
  destruct (decide (g = 4294967295)) as [->|]; [reflexivity|].
  rewrite (Z.mod_small (g + 1)), (Z.mod_small g) by lia.
  rewrite (proj2 (Z.eqb_neq _ _)) by lia. lia.
Qed.

(** ** Clearing a slot *)
Section Clear.
Implicit Types (X : edgep -> Prop) (m : cap_mem).

Lemma slot_ok_invalidate m i s : slot_ok m i (gj_cap_slot_invalidate s).
Proof. split; [apply slot_gen_bump_range|done]. Qed.

Lemma slot_refs_other o o' s : slot_refs o s = true -> o' <> o -> slot_refs o' s = false.
Proof.
  rewrite slot_refs_true. intros [_ E] Hne. unfold slot_refs. rewrite E.
  rewrite bool_decide_false by congruence. apply andb_false_r.
Qed.

Lemma wp_refund_wf X m p :
  wf_gen X m -> ptr_ok (m_quotas m) p ->
  wp (gj_cap_quota_slot_refund p) (fun _ m' =>
    m' = set_quotas (qupd q_refund (qwalk (m_quotas m) p)) m /\ wf_gen X m') m.
Proof.
  intros H Hp. eapply wp_mono; [apply wp_slot_refund; [apply H|done]|].
  intros st m' [_ ->]. split; [done|]. by apply wf_refund.
Qed.

Definition cleared_mem (c : cnp) (cn : gj_cnode) (i : Z) (s : gj_cap_slot) (o : objp)
    (h : gj_obj_hdr) (m : cap_mem) : cap_mem :=
  rebind c cn i (gj_cap_slot_invalidate s) o h (hdr_u32SlotsLeft h - 1) m.

Lemma wp_invalidate_locked X m c cn i s o h :
  wf_gen X m -> m_cns m !! c = Some cn -> cn_slot cn i = Some s -> slot_refs o s = true ->
  m_objs m !! o = Some h ->
  (forall l e, chain_at m o h l -> e ∈ l -> edge_tgt (m_pool m) e = Some (Some c, i) -> X e) ->
  wp (gj_cap_slot_invalidate_locked (Some (c, i)) (Some o))
     (fun _ m' => m' = cleared_mem c cn i s o h m /\ wf_gen X m') m.
Proof.
  intros H Ec Es Hr Eo Hx.
  pose proof (proj1 (slot_refs_true o s) Hr) as [Hty Hob].
  destruct (wf_objs _ _ H o h Eo) as (Hleft & Hmax & _).
  pose proof (obj_refs_pos m c cn i s o Ec Es Hr) as Hpos.
  unfold gj_cap_slot_invalidate_locked. wsteps.
  rewrite (proj2 (Z.eqb_neq _ _) Hty), bool_decide_true by done. simpl. unfold slots_left_dec. wsteps.
  rewrite (proj2 (Z.ltb_lt _ _)) by lia. wsteps.
  unfold gj_cap_quota_slot_refund. wsteps.
  assert (slot_refs o (gj_cap_slot_invalidate s) = false) as Hr' by (by apply slot_refs_free).
  split; [done|].
  eapply (wf_rebind X m c cn i s (gj_cap_slot_invalidate s) o h (hdr_u32SlotsLeft h - 1)); try done.
  - apply slot_ok_invalidate.
  - intros o' Hne. split; [by eapply slot_refs_other|by apply slot_refs_free].
  - rewrite Hr, Hr'. simpl. lia.
  - lia.
Qed.

Lemma wf_gen_mono X X' m : (forall e, X e -> X' e) -> wf_gen X m -> wf_gen X' m.
Proof.
  intros HX [H1 H2 H3 H4 H5 H6]. split; try done.
  intros o h E. destruct (H4 o h E) as (? & ? & l & ? & ? & Hl). split_and!; [done..|].
  exists l. split_and!; [done..|]. intros e He Hx. apply Hl; auto.
Qed.

(** Unlinking the edges of one slot: the invariant needs no excuse for them. *)
Lemma wp_unlink_wf X m o h l c i :
  wf_gen X m -> chain_at m o h l ->
  (forall e, X e -> e ∈ l /\ edge_tgt (m_pool m) e = Some (Some c, i)) ->
  wp (gj_cdt_unlink_slot (Some o) (Some c) i)
     (fun _ m' => wf m' /\ unseen m m' /\ edge_free m' o c i
        /\ cdt_shrink o h l (other_edges (m_pool m) (Some c) i l) m m') m.
Proof.
  intros H Hch HX. pose proof Hch as (Eo & _ & Hnd & _).
  eapply wp_mono; [apply wp_cdt_unlink_slot; [done|apply H]|]. intros [] m' Hsh.
  set (l' := other_edges _ _ _ _) in *.
  assert (l' ⊆ l) as Hsub by apply other_edges_subset.
  assert (NoDup l') as Hnd' by (by apply NoDup_filter).
  destruct (wf_chain _ _ _ _ H Eo) as (l0 & C0 & Hndt & _).
  destruct (chain_at_det _ _ _ _ _ _ Hch C0) as [_ <-].
  split_and!; [|by eapply unseen_shrink| |done].
  - eapply (wf_shrink X no_edge); try done.
    + unfold l', other_edges. clear -Hndt. induction l as [|a l IH]; [constructor|].
      rewrite fmap_cons in Hndt. apply NoDup_cons in Hndt as [Hn Hd]. rewrite filter_cons.
      case_decide; [|auto]. rewrite fmap_cons. apply NoDup_cons. split; [|auto].
      intros (b & Eb & Hb)%list_elem_of_fmap. apply Hn, list_elem_of_fmap. exists b.
      apply list_elem_of_filter in Hb as [_ Hb]. done.
    + intros e He. right. destruct (HX e He) as [Hin Ht]. split; [done|].
      intros [Hn _]%list_elem_of_filter. by apply Hn.
  - intros h1 l1 e Hch1 He. destruct (chain_at_shrink _ _ _ _ _ _ Hch Hsh Hsub Hnd') as (h' & -> & Hch').
    destruct (chain_at_det _ _ _ _ _ _ Hch1 Hch') as [-> ->].
    destruct Hsh as (? & pool' & ? & ? & -> & _ & _ & Hk & _). simpl. rewrite (proj1 (Hk e He)).
    by apply list_elem_of_filter in He as [? _].
Qed.
End Clear.

(** ** Wiring *)
Section Wire.
Context (hook : capM unit) `{!CapHook hook}.
Implicit Types (m : cap_mem).

(** An edge of [o] names [(c, i)]. *)
Definition edge_linked (m : cap_mem) (o : objp) (c : cnp) (i : Z) : Prop :=
  exists h l e, chain_at m o h l /\ e ∈ l /\ edge_tgt (m_pool m) e = Some (Some c, i).

Lemma used_count_full (u : list bool) : Forall (fun b => b = true) u -> used_count u = length u.
Proof.
  unfold used_count. induction 1 as [|b u -> Hu IH]; [done|]. rewrite filter_cons_True by done. simpl. lia.
Qed.

Lemma wp_wire m o c i s sA sO sM :
  wf m -> slot_at m c i = Some s -> slot_refs o s = true -> edge_free m o c i ->
  wp (cdt_edge_try_wire hook (Some o) (Some c) i sA sO sM)
     (fun _ m' => wf m' /\ unseen m m'
        /\ (m_pool_used m < Z.of_nat GJ_CDT_EDGE_POOL -> edge_linked m' o c i)
        /\ forall c' i', (c', i') <> (c, i) -> edge_free m o c' i' -> edge_free m' o c' i') m.
Proof.
  intros H Hs Hr Hf. pose proof (wf_pool _ _ H) as Hp.
  apply slot_at_some in Hs as (cn & Ec & Es).
  destruct (wf_cns _ _ H c cn Ec) as (Hsh & _ & Hsl).
  pose proof (cn_slot_range cn i s Hsh Es) as Hi.
  assert (cn_pSlots cn <> None) as Hn by (unfold cn_slot in Es; by destruct (cn_pSlots cn)).
  destruct (slot_ok_obj m i s (Hsl i s Es)) as (o1 & h & Eo1 & Eh & _); [by apply slot_refs_true in Hr as [? _]|].
  assert (o1 = o) as -> by (apply slot_refs_true in Hr as [_ ?]; congruence).
  destruct (wf_chain _ _ _ _ H Eh) as (l & Hch & _).
  eapply wp_mono; [by eapply wp_edge_try_wire|]. intros [] m' (m1 & Hw & Hq%quiet_frame).
  assert (wf m1) as H1.
  { eapply wf_wired; try done. intros e He. by eapply Hf. }
  split; [by eapply wf_quiet|]. split; [|split].
  - transitivity m1; [by eapply unseen_wired|by apply unseen_quiet].
  - intros Hroom. destruct Hw as [[-> Hfull]|(e & Ee & Em)].
    { destruct Hp as (_ & Hlu & Hu). apply used_count_full in Hfull. lia. }
    destruct (cdt_wired_head o h c i m m1 l e Hch Hp Ee Em) as [Hch' Ht].
    exists (hdr_set_cdt h (Some e)), (e :: l), e. split; [by eapply chain_at_quiet|]. split; [set_solver|].
    erewrite edge_tgt_quiet; [|exact Hq|]; [by rewrite Em|].
    destruct Hch' as (_ & _ & _ & U). by inversion U.
  - intros c' i' Hne Hf'. eapply edge_free_quiet; [|exact H1|exact Hq|].
    { destruct Hw as [[-> _]|(e & _ & ->)]; [eauto|]. simpl. rewrite lookup_insert_eq. eauto. }
    destruct Hw as [[-> _]|(e & Ee & Em)]; [done|]. intros h1 l1 a Hch1 Ha.
    destruct (cdt_wired_head o h c i m m1 l e Hch Hp Ee Em) as [Hch' Ht].
    destruct (chain_at_det _ _ _ _ _ _ Hch1 Hch') as [-> ->]. rewrite Em. simpl.
    apply elem_of_cons in Ha as [->|Ha]; [rewrite Ht; naive_solver|].
    rewrite edge_tgt_insert_ne; [by eapply Hf'|]. intros ->.
    destruct Hch as (_ & _ & _ & U). rewrite Forall_forall in U. apply U in Ha. congruence.
Qed.
End Wire.

(** ** Granting a capability *)

(** A new capability [(o, ty, r)] sits in the free slot [(c, i)]. *)
Record granted (c : cnp) (i ty r : Z) (o : objp) (g : Z) (m m' : cap_mem) : Prop := Granted {
  gr_frame : frame m m';
  gr_slot : exists h s0, m_objs m !! o = Some h /\ hdr_u32State h = GJ_OBJ_LIVE
    /\ slot_at m c i = Some s0 /\ slot_u16Type s0 = GJ_CAP_INVALID /\ slot_u32Gen s0 = g
    /\ slot_write c i (CapSlot ty r g (hdr_u32Gen h) (Some o)) m m';
  gr_quota : exists cn, m_cns m !! c = Some cn
    /\ first_full GJ_CAP_QUOTA_DEPTH_MAX (m_quotas m) (cn_pQuotaAccount cn) = None
    /\ quota_upd q_charge (cn_pQuotaAccount cn) m m';
  gr_type : ty <> GJ_CAP_INVALID /\ (i = GJ_CAP_SLOT_ROOT_META <-> ty = GJ_CAP_ROOT_META) }.

Section Grant.
Implicit Types (m : cap_mem).

Lemma installed_granted m m' c i ty r o g :
  wf m -> installed c i ty r o g m m' -> granted c i ty r o g m m'.
Proof.
  intros H (cn & s & h & Ec & Es & Ef & Eg & Eo & Hl & Hg & Hty & Hr & Hmax & Hq & ->).
  set (m1 := set_quotas _ m).
  pose proof (rebind_effect c cn i (CapSlot ty r g (hdr_u32Gen h) (Some o)) s o h
    (hdr_u32SlotsLeft h + 1) m1 Ec Es Eo) as (F & W & Q).
  split; try done.
  - transitivity m1; [apply quotas_effect|done].
  - exists h, s. split_and!; try done. apply slot_at_some. eauto.
  - exists cn. split_and!; try done. eapply quota_upd_r; [|exact Q].
    apply qupd_effect. apply H.
Qed.

Lemma granted_unseen_r c i ty r o g m m1 m2 :
  granted c i ty r o g m m1 -> unseen m1 m2 -> granted c i ty r o g m m2.
Proof.
  intros [F (h & s0 & A1 & A2 & A3 & A4 & A5 & W) (cn & B1 & B2 & B3) T] [UF US UQ]. split; try done.
  - by transitivity m1.
  - exists h, s0. split_and!; try done. by rewrite <-US.
  - exists cn. split_and!; try done. by eapply quota_upd_r.
Qed.

Lemma granted_quiet_l c i ty r o g m m1 m2 :
  quiet m m1 -> granted c i ty r o g m1 m2 -> granted c i ty r o g m m2.
Proof.
  intros Hq [F (h & s0 & A1 & A2 & A3 & A4 & A5 & W) (cn & B1 & B2 & B3) T].
  pose proof (unseen_quiet _ _ Hq) as [UF US UQ]. destruct Hq as (Eo & Ec & _). rewrite Eo in A1. rewrite Ec in B1.
  split; try done.
  - by transitivity m1.
  - exists h, s0. split_and!; try done; [by rewrite <-US|by rewrite US].
  - exists cn. split_and!; try done; [by rewrite <-(first_full_core m m1)|].
    eapply quota_upd_l; [apply core_fun_charge|done..].
Qed.

Lemma granted_bound c i ty r o g m m' :
  granted c i ty r o g m m' -> exists s, slot_at m' c i = Some s /\ slot_refs o s = true.
Proof.
  intros [_ (h & s0 & A1 & A2 & A3 & A4 & A5 & W) _ [Hty _]]. eexists. split.
  - rewrite W, bool_decide_true by done. done.
  - by apply slot_refs_true.
Qed.
End Grant.

Section Derive.
Context (hook : capM unit) `{!CapHook hook}.
Implicit Types (m : cap_mem).

(** The tail shared by mint and copy: wire the slot just installed. *)
Lemma wp_wire_granted m0 m1 m2 c i ty r o g sA sO sM :
  wf m0 -> installed c i ty r o g m0 m1 -> quiet m1 m2 ->
  wp (cdt_edge_try_wire hook (Some o) (Some c) i sA sO sM)
     (fun _ m' => wf m' /\ granted c i ty r o g m0 m') m2.
Proof.
  intros H Hins Hq. pose proof (wf_installed _ _ _ _ _ _ _ _ _ H Hins) as H1.
  pose proof (wf_quiet _ _ _ H1 Hq) as H2.
  assert (granted c i ty r o g m0 m2) as Hg.
  { eapply granted_unseen_r; [by apply installed_granted|by apply unseen_quiet]. }
  destruct (granted_bound _ _ _ _ _ _ _ _ Hg) as (s & Es & Hr).
  assert (is_Some (m_objs m1 !! o)) as Ho.
  { destruct Hins as (cn & s1 & h & _ & _ & _ & _ & Eo & _ & _ & _ & _ & _ & _ & ->). simpl.
    rewrite lookup_insert_eq. eauto. }
  eapply wp_mono.
  { apply (wp_wire hook m2 o c i s); try done. eapply edge_free_quiet; [done|exact H1|done|].
    exact (installed_edge_free _ _ _ _ _ _ _ _ H Hins). }
  intros [] m' (H' & Hu & _). split; [done|]. by eapply granted_unseen_r.
Qed.

Lemma install_status_quiet m m' pc i ty po b :
  quiet m m' -> install_status m' pc i ty po b = install_status m pc i ty po b.
Proof.
  intros Hq. pose proof (unseen_quiet _ _ Hq) as [_ _ UQ]. destruct Hq as (Eo & Ec & _).
  unfold install_status, in_cnode. destruct pc as [c|]; [|done]. destruct po as [o|]; [|done]. rewrite Eo, Ec.
  destruct (m_cns m !! c) as [cn|]; [|done]. by rewrite (first_full_core m m').
Qed.

Lemma alloc_status_quiet m m' pc ty po b :
  quiet m m' -> alloc_status m' pc ty po b = alloc_status m pc ty po b.
Proof.
  intros Hq. pose proof Hq as (Eo & Ec & _). unfold alloc_status, in_cnode.
  destruct pc as [c|]; [|done]. destruct po as [o|]; [|done]. rewrite Ec. case_match; [done|].
  destruct (m_cns m !! c ≫= cn_pSlots) as [sl|]; [|done].
  destruct (alloc_target sl ty) as [i|]; [|done]. by apply install_status_quiet.
Qed.

Lemma resolve_ok_inv m pc i g rv :
  resolve_result m pc i g true = (GJ_OK, Some rv) ->
  exists c s h, pc = Some c /\ slot_at m c i = Some s /\ slot_u16Type s <> GJ_CAP_INVALID
    /\ slot_u32Gen s = g /\ g <> 0 /\ slot_pObj s = Some (res_pObj rv)
    /\ m_objs m !! res_pObj rv = Some h /\ hdr_u32State h = GJ_OBJ_LIVE
    /\ hdr_u32Gen h = slot_u32ObjGen s
    /\ rv = CapResolved i (res_pObj rv) (slot_u16Type s) (slot_u16Rights s).
Proof.
  unfold resolve_result. destruct pc as [c|]; [|done]. simpl.
  destruct (in_cnode m c i); simpl; [|done]. destruct (Z.eqb_spec g 0) as [|Hg]; [done|].
  destruct (slot_at m c i) as [s|] eqn:Es; [|done].
  destruct (Z.eqb_spec (slot_u16Type s) GJ_CAP_INVALID) as [|Hn]; [done|].
  destruct (Z.eqb_spec (slot_u32Gen s) g) as [Hgen|]; simpl; [|done].
  destruct (slot_pObj s) as [o|] eqn:Eo; [|done]. unfold gj_obj_check_live.
  destruct (m_objs m !! o) as [h|] eqn:Eh; [|done].
  destruct (Z.eqb_spec (hdr_u32State h) GJ_OBJ_LIVE); simpl; [|done].
  destruct (Z.eqb_spec (hdr_u32Gen h) (slot_u32ObjGen s)); simpl; [|done].
  intros [= <-]. simpl. exists c, s, h. split_and!; congruence.
Qed.

Lemma resolve_result_cases m pc i g b :
  (exists rv, resolve_result m pc i g b = (GJ_OK, Some rv))
  \/ (exists st, st <> GJ_OK /\ resolve_result m pc i g b = (st, None)).
Proof.
  unfold resolve_result, gj_obj_check_live. repeat case_match; simplify_eq; eauto; right; (eexists; split; [|reflexivity]); done.
Qed.

(** ** Mint *)
Definition mint_status (m : cap_mem) (pSrc : option cnp) (i g rights : Z) (pDst : option cnp) : gj_status :=
  match resolve_result m pSrc i g true with
  | (GJ_OK, Some rv) =>
      if Z.land (res_u16Rights rv) GJ_RIGHT_MINT =? 0 then GJ_ERR_PERM
      else if rights_weaker (res_u16Rights rv) rights =? 0 then GJ_ERR_PERM
      else alloc_status m (match pDst with None => pSrc | Some _ => pDst end)
             (res_u16Type rv) (Some (res_pObj rv)) true
  | (st, _) => st
  end.

Lemma wp_mint m pSrc i g rights pDst pOut :
  wf m -> cptr_ok m pSrc -> cptr_ok m pDst -> 0 <= i ->
  wp (gj_cap_mint hook pSrc i g rights pDst pOut)
     (fun res m' => wf m' /\
        fst res = (if pOut then mint_status m pSrc i g rights pDst else GJ_ERR_INVAL) /\
        match snd res with
        | Some ref => fst res = GJ_OK /\ exists rv c,
            resolve_result m pSrc i g true = (GJ_OK, Some rv)
            /\ Z.land (res_u16Rights rv) GJ_RIGHT_MINT <> 0
            /\ rights_weaker (res_u16Rights rv) rights <> 0
            /\ match pDst with None => pSrc | Some _ => pDst end = Some c
            /\ granted c (ref_u64Slot ref) (res_u16Type rv) (rights_weaker (res_u16Rights rv) rights)
                 (res_pObj rv) (ref_u32SlotGen ref) m m'
        | None => fst res <> GJ_OK /\ quiet m m'
        end) m.
Proof.
  intros H Hs Hd Hi. pose proof (wf_pool _ _ H) as Hp. unfold gj_cap_mint, mint_status.
  destruct pOut; simpl; [|by wsteps]. wsteps.
  eapply wp_mono; [by apply wp_resolve|]. intros r m1 [-> Hq1].
  pose proof (wf_quiet _ _ _ H Hq1) as H1.
  destruct (resolve_result_cases m pSrc i g true) as [[rv E]|(st & Hst & E)]; rewrite E.
  2:{ destruct st; try done; apply wp_bind, wp_ret_bucket; wsteps; done. }
  destruct (Z.eqb_spec (Z.land (res_u16Rights rv) GJ_RIGHT_MINT) 0) as [|Hm]; [by wsteps|].
  destruct (Z.eqb_spec (rights_weaker (res_u16Rights rv) rights) 0) as [|Hw]; [by wsteps|].
  set (pD := match pDst with None => pSrc | Some _ => pDst end) in *.
  pose proof Hq1 as (Eo & Ec & _).
  assert (cptr_ok m1 pD) as Hd1 by (unfold cptr_ok in *; rewrite Ec; by destruct pDst).
  destruct (resolve_ok_inv _ _ _ _ _ E) as (cs & s & h & _ & _ & _ & _ & _ & _ & Eh & _).
  wsteps. eapply wp_mono.
  { apply wp_alloc_install; [done..|]. unfold optr_ok. rewrite Eo, Eh. eauto. }
  intros [st [ref|]] m2 [Est HQ]; simpl in Est; unfold install_outcome in HQ; simpl in HQ;
    rewrite (alloc_status_quiet m m1) in Est by done.
  - destruct HQ as (-> & c & o & m3 & Epd & [= <-] & _ & Hins & Hq2). rewrite Epd. wsteps.
    assert (forall Q : unit -> cap_mem -> Prop, Q tt m2 ->
      wp (if negb (bool_decide (pSrc = Some c)) then tick "g_u32CdtMintCross" else tick "g_u32CdtMintLocal") Q m2) as Ht
      by (intros Q HQ; case_match; by wsteps).
    apply Ht. wsteps. eapply wp_mono; [by apply (wp_wire_granted m1 m3 m2)|].
    intros [] m4 [H4 Hg]. wsteps. apply wp_note_mint. wsteps.
    apply wp_hook_quiet; [done|apply H4|]. intros m5 Hq5. wsteps.
    split; [by eapply wf_quiet|]. split; [by rewrite <-Epd|]. split; [done|]. exists rv, c.
    split_and!; try done. eapply granted_quiet_l; [done|].
    eapply granted_unseen_r; [done|by apply unseen_quiet].
  - destruct HQ as [Hn Hq2]. destruct st; try done; apply wp_bind, wp_ret_bucket; wsteps;
      (split; [by eapply wf_quiet|split; [done|split; [done|by eapply quiet_trans]]]).
Qed.

(** ** Copy *)
Definition copy_rights (have want : Z) : Z :=
  rights_weaker have (if negb (want =? 0) then want else have).

Definition copy_status (m : cap_mem) (pc : option cnp) (i g : Z) : gj_status :=
  match resolve_result m pc i g true with
  | (GJ_OK, Some rv) =>
      if Z.land (res_u16Rights rv) GJ_RIGHT_GRANT =? 0 then GJ_ERR_PERM
      else alloc_status m pc (res_u16Type rv) (Some (res_pObj rv)) true
  | (st, _) => st
  end.

Lemma wp_copy m pc i g rights pOut :
  wf m -> cptr_ok m pc -> 0 <= i ->
  wp (gj_cap_copy hook pc i g rights pOut)
     (fun res m' => wf m' /\
        fst res = (if pOut then copy_status m pc i g else GJ_ERR_INVAL) /\
        match snd res with
        | Some ref => fst res = GJ_OK /\ exists rv c,
            resolve_result m pc i g true = (GJ_OK, Some rv)
            /\ Z.land (res_u16Rights rv) GJ_RIGHT_GRANT <> 0 /\ pc = Some c
            /\ granted c (ref_u64Slot ref) (res_u16Type rv) (copy_rights (res_u16Rights rv) rights)
                 (res_pObj rv) (ref_u32SlotGen ref) m m'
        | None => fst res <> GJ_OK /\ quiet m m'
        end) m.
Proof.
  intros H Hs Hi. pose proof (wf_pool _ _ H) as Hp. unfold gj_cap_copy, copy_status.
  destruct pOut; simpl; [|by wsteps]. wsteps.
  eapply wp_mono; [by apply wp_resolve|]. intros r m1 [-> Hq1].
  pose proof (wf_quiet _ _ _ H Hq1) as H1.
  destruct (resolve_result_cases m pc i g true) as [[rv E]|(st & Hst & E)]; rewrite E.
  2:{ destruct st; try done; apply wp_bind, wp_ret_bucket; wsteps; done. }
  destruct (Z.eqb_spec (Z.land (res_u16Rights rv) GJ_RIGHT_GRANT) 0) as [|Hm]; [by wsteps|].
  pose proof Hq1 as (Eo & Ec & _).
  destruct (resolve_ok_inv _ _ _ _ _ E) as (c & s & h & -> & _ & _ & _ & _ & _ & Eh & _).
  wsteps. eapply wp_mono.
  { apply wp_alloc_install; [done..| |]; unfold cptr_ok, optr_ok in *; [by rewrite Ec|].
    rewrite Eo, Eh. eauto. }
  intros [st [ref|]] m2 [Est HQ]; simpl in Est; unfold install_outcome in HQ; simpl in HQ;
    rewrite (alloc_status_quiet m m1) in Est by done.
  - destruct HQ as (-> & c' & o & m3 & [= <-] & [= <-] & _ & Hins & Hq2). wsteps.
    eapply wp_mono; [by apply (wp_wire_granted m1 m3 m2)|].
    intros [] m4 [H4 Hg]. wsteps.
    apply wp_hook_quiet; [done|apply H4|]. intros m5 Hq5. wsteps.
    split; [by eapply wf_quiet|]. split; [done|]. split; [done|]. exists rv, c.
    split_and!; try done. eapply granted_quiet_l; [done|].
    eapply granted_unseen_r; [done|by apply unseen_quiet].
  - destruct HQ as [Hn Hq2]. destruct st; try done; apply wp_bind, wp_ret_bucket; wsteps;
      (split; [by eapply wf_quiet|split; [done|split; [done|by eapply quiet_trans]]]).
Qed.
End Derive.

(** * Specifications of move, delete and the known-CNode clear
    ([kernel/cap/cnode.c]). *)

#[local] Arguments first_full : simpl never.
#[local] Arguments qchain : simpl never.
#[local] Arguments resolve_result : simpl never.
#[local] Arguments alloc_status : simpl never.
#[local] Arguments gj_cap_slot_invalidate_locked : simpl never.

Lemma edge_free_shrink m m' o h l l' c i :
  chain_at m o h l -> cdt_shrink o h l l' m m' -> l' ⊆ l -> NoDup l' ->
  edge_free m o c i -> edge_free m' o c i.
Proof.
  intros Hch Hsh Hsub Hnd Hf h1 l1 e Hch1 He.
  destruct (chain_at_shrink _ _ _ _ _ _ Hch Hsh Hsub Hnd) as (h' & -> & Hch').
  destruct (chain_at_det _ _ _ _ _ _ Hch1 Hch') as [-> ->].
  destruct Hsh as (? & pool' & ? & ? & -> & _ & _ & Hk & _). simpl. rewrite (proj1 (Hk e He)).
  eapply Hf; [done|]. set_solver.
Qed.

(** Slot [(c, i)], which binds [o], is cleared. *)
Record dropped (c : cnp) (i : Z) (o : objp) (m m' : cap_mem) : Prop := Dropped {
  dr_frame : frame m m';
  dr_slot : exists s, slot_at m c i = Some s /\ slot_refs o s = true
    /\ slot_write c i (gj_cap_slot_invalidate s) m m';
  dr_quota : exists cn, m_cns m !! c = Some cn /\ quota_upd q_refund (cn_pQuotaAccount cn) m m' }.

Section Dropped.
Implicit Types (m : cap_mem).

Lemma dropped_unseen_r c i o m m1 m2 : dropped c i o m m1 -> unseen m1 m2 -> dropped c i o m m2.
Proof.
  intros [F (s & A1 & A2 & W) (cn & B1 & B2)] [UF US UQ]. split.
  - by transitivity m1.
  - exists s. split_and!; try done. by rewrite <-US.
  - exists cn. split; [done|]. by eapply quota_upd_r.
Qed.

Lemma dropped_unseen_l c i o m m1 m2 : unseen m m1 -> dropped c i o m1 m2 -> dropped c i o m m2.
Proof.
  intros [UF US UQ] [F (s & A1 & A2 & W) (cn & B1 & B2)]. split.
  - by transitivity m1.
  - exists s. split_and!; [by rewrite <-US|done|by rewrite US].
  - destruct (proj2 (frame_cn_some m m1 c UF)) as [cn0 E0]; [eauto|]. exists cn0. split; [done|].
    rewrite <-(frame_account m m1 c cn0 cn) by done.
    eapply quota_upd_l; [apply core_fun_refund|done..].
Qed.

(** The refund-and-invalidate pair of delete, move, walk and clear. *)
Lemma wp_drop X m c cn i s o h :
  wf_gen X m -> m_cns m !! c = Some cn -> cn_slot cn i = Some s -> slot_refs o s = true ->
  m_objs m !! o = Some h ->
  (forall l e, chain_at m o h l -> e ∈ l -> edge_tgt (m_pool m) e = Some (Some c, i) -> X e) ->
  wp (gj_cap_quota_slot_refund (cn_pQuotaAccount cn)) (fun _ =>
    wp (gj_cap_slot_invalidate_locked (Some (c, i)) (Some o)) (fun _ m' =>
      wf_gen X m' /\ dropped c i o m m' /\ m_pool m' = m_pool m /\ m_used m' = m_used m
      /\ m_objs m' = <[o := hdr_set_left h (hdr_u32SlotsLeft h - 1)]> (m_objs m)
      /\ m_cns m' = <[c := cn_set_slot cn i (gj_cap_slot_invalidate s)]> (m_cns m))) m.
Proof.
  intros H Ec Es Hr Eo Hx. destruct (wf_cns _ _ H c cn Ec) as (_ & Hqp & _).
  eapply wp_mono; [by apply wp_refund_wf|]. intros st m1 [-> H1].
  eapply wp_mono; [by eapply wp_invalidate_locked|]. intros [] m' [-> H'].
  set (m1 := set_quotas _ m) in *.
  pose proof (rebind_effect c cn i (gj_cap_slot_invalidate s) s o h (hdr_u32SlotsLeft h - 1) m1 Ec Es Eo) as (F & W & Q).
  refine (conj H' (conj _ (conj eq_refl (conj eq_refl (conj eq_refl eq_refl))))). split.
  - transitivity m1; [apply quotas_effect|done].
  - exists s. split_and!; try done. apply slot_at_some. eauto.
  - exists cn. split; [done|]. eapply quota_upd_r; [|exact Q]. apply qupd_effect, H.
Qed.
End Dropped.

Section Ops.
Context (hook : capM unit) `{!CapHook hook}.
Implicit Types (m : cap_mem).

(** ** Delete *)
Definition delete_status (m : cap_mem) (pc : option cnp) (i g : Z) : gj_status :=
  match resolve_result m pc i g true with
  | (GJ_OK, Some rv) =>
      if i =? GJ_CAP_SLOT_ROOT_META then GJ_ERR_PERM
      else if (Z.land (res_u16Rights rv) GJ_RIGHT_DESTROY =? 0)
              && (Z.land (res_u16Rights rv) GJ_RIGHT_GRANT =? 0) then GJ_ERR_PERM
      else GJ_OK
  | (st, _) => st
  end.

Lemma resolve_slot_refs m c i g rv :
  wf m -> resolve_result m (Some c) i g true = (GJ_OK, Some rv) ->
  exists cn s h, m_cns m !! c = Some cn /\ cn_slot cn i = Some s /\ slot_refs (res_pObj rv) s = true
    /\ m_objs m !! res_pObj rv = Some h /\ slot_u32Gen s = g /\ res_pSlot rv = i
    /\ hdr_u32State h = GJ_OBJ_LIVE /\ hdr_u32Gen h = slot_u32ObjGen s
    /\ slot_u16Type s = res_u16Type rv /\ slot_u16Rights s = res_u16Rights rv.
Proof.
  intros H E. destruct (resolve_ok_inv _ _ _ _ _ E) as (c' & s & h & [= <-] & Es & Hn & Hg & _ & Ho & Eh & Hl & Hgen & Hrv).
  apply slot_at_some in Es as (cn & Ec & Es). exists cn, s, h.
  assert (slot_refs (res_pObj rv) s = true) by (by apply slot_refs_true).
  rewrite Hrv. split_and!; try done; by rewrite <-Hrv.
Qed.

Lemma wp_delete m pc i g :
  wf m -> cptr_ok m pc -> 0 <= i ->
  wp (gj_cap_delete hook pc i g)
     (fun st m' => wf m' /\ st = delete_status m pc i g /\
        if is_ok st then exists rv c, resolve_result m pc i g true = (GJ_OK, Some rv)
          /\ pc = Some c /\ i <> GJ_CAP_SLOT_ROOT_META /\ dropped c i (res_pObj rv) m m'
        else quiet m m') m.
Proof.
  intros H Hs Hi. pose proof (wf_pool _ _ H) as Hp. unfold gj_cap_delete, delete_status. wsteps.
  eapply wp_mono; [by apply wp_resolve|]. intros r m1 [-> Hq1].
  pose proof (wf_quiet _ _ _ H Hq1) as H1. pose proof Hq1 as (Eo & Ec & _).
  destruct (resolve_result_cases m pc i g true) as [[rv E]|(st & Hst & E)]; rewrite E.
  2:{ destruct st; try done; apply wp_bind, wp_ret_bucket; wsteps; done. }
  destruct (resolve_ok_inv _ _ _ _ _ E) as (c & _ & _ & -> & _).
  destruct (resolve_slot_refs m c i g rv H E) as (cn & s & h & Ecn & Es & Hr & Eh & _ & Erv & _).
  destruct (Z.eqb_spec i GJ_CAP_SLOT_ROOT_META) as [|Hroot]; [by wsteps|].
  case_match eqn:Eperm; [by wsteps|]. wsteps. rewrite <-Eo in Eh.
  destruct (wf_chain _ _ _ _ H1 Eh) as (l & Hch & _).
  eapply wp_mono; [eapply wp_chain_depth; [done|apply H1]|]. intros d m1' [-> ->]. wsteps.
  eapply wp_mono; [apply (wp_unlink_wf no_edge m1 (res_pObj rv) h l c i H1 Hch); done|].
  intros [] m2 (H2 & U2 & F2 & Hsh). wsteps.
  assert (exists h2, m_objs m2 !! res_pObj rv = Some h2) as [h2 Eh2]
    by (apply (frame_obj_some m1 m2); [apply U2|eauto]).
  destruct (wf_chain _ _ _ _ H2 Eh2) as (l2 & Hch2 & _).
  eapply wp_mono; [eapply wp_chain_depth; [done|apply H2]|]. intros d m2' [-> ->]. wsteps.
  apply wp_when_tel; [intros; by apply wp_tick|]. wsteps.
  assert (slot_at m2 c i = Some s) as Hs2.
  { rewrite (un_slots _ _ U2), (un_slots _ _ (unseen_quiet _ _ Hq1)). apply slot_at_some. eauto. }
  apply slot_at_some in Hs2 as (cn2 & Ec2 & Es2). eapply wp_cn_load; [done|]. wsteps.
  eapply wp_mono; [eapply (wp_drop no_edge m2 c cn2 i s _ h2); try done|].
  { intros l0 e C0 He Ht. by apply (F2 _ _ _ C0 He). }
  intros st m3 Hinv. wsteps. rewrite Erv. eapply wp_mono; [exact Hinv|].
  intros [] m4 (H4 & Hd & _). wsteps.
  apply wp_hook_quiet; [done|apply H4|]. intros m5 Hq5. wsteps.
  split; [by eapply wf_quiet|]. split; [done|]. exists rv, c. split_and!; try done.
  eapply dropped_unseen_l; [transitivity m1; [by apply unseen_quiet|exact U2]|].
  eapply dropped_unseen_r; [done|by apply unseen_quiet].
Qed.

(** ** Move *)
Definition move_status (m : cap_mem) (pc : option cnp) (i g : Z) : gj_status :=
  match resolve_result m pc i g true with
  | (GJ_OK, Some rv) =>
      if Z.land (res_u16Rights rv) GJ_RIGHT_GRANT =? 0 then GJ_ERR_PERM
      else if i =? GJ_CAP_SLOT_ROOT_META then GJ_ERR_PERM
      else alloc_status m pc (res_u16Type rv) (Some (res_pObj rv)) true
  | (st, _) => st
  end.

(** The capability of slot [(c, i)] now sits in the slot of [ref], and slot
    [(c, i)] is cleared. *)
Record moved (c : cnp) (i : Z) (ref : gj_cap_ref) (m m' : cap_mem) : Prop := Moved {
  mv_frame : frame m m';
  mv_slots : exists s s0, slot_at m c i = Some s /\ slot_at m c (ref_u64Slot ref) = Some s0
    /\ slot_u16Type s <> GJ_CAP_INVALID /\ slot_u16Type s0 = GJ_CAP_INVALID
    /\ slot_u32Gen s0 = ref_u32SlotGen ref /\ ref_u64Slot ref <> i
    /\ forall c' i', slot_at m' c' i' =
         if bool_decide (c' = c /\ i' = i) then Some (gj_cap_slot_invalidate s)
         else if bool_decide (c' = c /\ i' = ref_u64Slot ref)
         then Some (CapSlot (slot_u16Type s) (slot_u16Rights s) (slot_u32Gen s0) (slot_u32ObjGen s) (slot_pObj s))
         else slot_at m c' i';
  mv_quota : quotas_same m m' }.

Lemma granted_dropped_moved m m1 m2 c i j g rv s h :
  wf m -> m_objs m !! res_pObj rv = Some h -> slot_at m c i = Some s ->
  slot_refs (res_pObj rv) s = true -> hdr_u32Gen h = slot_u32ObjGen s ->
  slot_u16Type s = res_u16Type rv -> slot_u16Rights s = res_u16Rights rv ->
  granted c j (res_u16Type rv) (res_u16Rights rv) (res_pObj rv) g m m1 ->
  dropped c i (res_pObj rv) m1 m2 -> moved c i (CapRef j g) m m2.
Proof.
  intros H Eh Es Hr Hgen Hty Hri [F (h' & s0 & A1 & A2 & A3 & A4 & A5 & W) (cn & B1 & B2 & B3) [T _]]
    [F' (s' & D1 & D2 & W') (cn' & E1 & E2)].
  assert (j <> i) as Hne.
  { intros ->. rewrite Es in A3. injection A3 as <-. by rewrite slot_refs_free in Hr. }
  assert (s' = s) as ->.
  { rewrite W, bool_decide_false in D1 by naive_solver. congruence. }
  assert (h' = h) as -> by congruence.
  split.
  - by transitivity m1.
  - exists s, s0. apply slot_refs_true in Hr as [Hn Ho]. split_and!; try done.
    intros c' i'. rewrite W'. case_bool_decide; [done|]. rewrite W. simpl. case_bool_decide; [|done].
    rewrite Ho, Hty, Hri, A5, Hgen. done.
  - eapply (charge_refund_same (cn_pQuotaAccount cn)); [apply H|done|done|].
    by rewrite <-(frame_account m m1 c cn cn').
Qed.

Lemma wp_move_tail m0 m1 m2 c i j g ty r o s sA sO sM :
  wf m0 -> installed c j ty r o g m0 m1 -> quiet m1 m2 ->
  slot_at m0 c i = Some s -> slot_refs o s = true ->
  wp (gj_cdt_unlink_slot (Some o) (Some c) i) (fun _ =>
    wp (cdt_edge_try_wire hook (Some o) (Some c) j sA sO sM) (fun _ m' =>
      wf m' /\ granted c j ty r o g m0 m' /\ edge_free m' o c i)) m2.
Proof.
  intros H Hins Hq Es Hr. pose proof (wf_installed _ _ _ _ _ _ _ _ _ H Hins) as H1.
  pose proof (wf_quiet _ _ _ H1 Hq) as H2.
  assert (granted c j ty r o g m0 m2) as Hg.
  { eapply granted_unseen_r; [by apply installed_granted|by apply unseen_quiet]. }
  destruct (granted_bound _ _ _ _ _ _ _ _ Hg) as (s2 & Es2 & Hr2).
  assert (j <> i) as Hne.
  { intros ->. destruct Hg as [_ (h' & s0 & _ & _ & A3 & A4 & _) _ _]. rewrite Es in A3. injection A3 as <-.
    by rewrite slot_refs_free in Hr. }
  assert (edge_free m1 o c j) as Hf1 by exact (installed_edge_free _ _ _ _ _ _ _ _ H Hins).
  assert (is_Some (m_objs m1 !! o)) as Ho1.
  { destruct Hins as (cn & s1 & h & _ & _ & _ & _ & Eo & _ & _ & _ & _ & _ & _ & ->). simpl.
    rewrite lookup_insert_eq. eauto. }
  assert (edge_free m2 o c j) as Hf2 by (by eapply edge_free_quiet).
  destruct Hq as (Eq & _). destruct Ho1 as [h2 Eh2]. rewrite <-Eq in Eh2.
  destruct (wf_chain _ _ _ _ H2 Eh2) as (l & Hch & _).
  eapply wp_mono; [apply (wp_unlink_wf no_edge m2 o h2 l c i H2 Hch); done|].
  intros [] m3 (H3 & U3 & F3 & Hsh).
  eapply wp_mono; [apply (wp_wire hook m3 o c j s2); try done|].
  - by rewrite (un_slots _ _ U3).
  - eapply edge_free_shrink; [exact Hch|exact Hsh|apply other_edges_subset| |done].
    apply NoDup_filter. by destruct Hch as (_ & _ & ? & _).
  - intros [] m4 (H4 & U4 & _ & Hk). split_and!; [done| |apply Hk; [naive_solver|done]].
    eapply granted_unseen_r; [done|]. by transitivity m3.
Qed.

Lemma wp_move m pc i g pOut :
  wf m -> cptr_ok m pc -> 0 <= i ->
  wp (gj_cap_move hook pc i g pOut)
     (fun res m' => wf m' /\
        fst res = (if pOut then move_status m pc i g else GJ_ERR_INVAL) /\
        match snd res with
        | Some ref => fst res = GJ_OK /\ exists rv c,
            resolve_result m pc i g true = (GJ_OK, Some rv) /\ pc = Some c
            /\ Z.land (res_u16Rights rv) GJ_RIGHT_GRANT <> 0 /\ i <> GJ_CAP_SLOT_ROOT_META
            /\ moved c i ref m m'
        | None => fst res <> GJ_OK /\ quiet m m'
        end) m.
Proof.
  intros H Hs Hi. pose proof (wf_pool _ _ H) as Hp. unfold gj_cap_move, move_status.
  destruct pOut; simpl; [|by wsteps]. wsteps.
  eapply wp_mono; [by apply wp_resolve|]. intros r m1 [-> Hq1].
  pose proof (wf_quiet _ _ _ H Hq1) as H1. pose proof Hq1 as (Eo & Ec & _).
  destruct (resolve_result_cases m pc i g true) as [[rv E]|(st & Hst & E)]; rewrite E.
  2:{ destruct st; try done; apply wp_bind, wp_ret_bucket; wsteps; done. }
  destruct (resolve_ok_inv _ _ _ _ _ E) as (c & _ & _ & -> & _).
  destruct (resolve_slot_refs m c i g rv H E) as (cn & s & h & Ecn & Es & Hr & Eh & _ & _ & Hl & Hgen & Ety & Eri).
  destruct (Z.eqb_spec (Z.land (res_u16Rights rv) GJ_RIGHT_GRANT) 0) as [|Hm]; [by wsteps|].
  destruct (Z.eqb_spec i GJ_CAP_SLOT_ROOT_META) as [|Hroot]; [by wsteps|]. wsteps.
  eapply wp_mono.
  { apply wp_alloc_install; [done..| |]; unfold cptr_ok, optr_ok in *; [by rewrite Ec|].
    rewrite Eo, Eh. eauto. }
  intros [st [ref|]] m2 [Est HQ]; simpl in Est; unfold install_outcome in HQ; simpl in HQ;
    rewrite (alloc_status_quiet m m1) in Est by done.
  2:{ destruct HQ as [Hn Hq2]. destruct st; try done; apply wp_bind, wp_ret_bucket; wsteps;
      (split; [by eapply wf_quiet|split; [done|split; [done|by eapply quiet_trans]]]). }
  destruct HQ as (-> & c' & o & m3 & [= <-] & [= <-] & _ & Hins & Hq2).
  assert (slot_at m c i = Some s) as Hsm by (apply slot_at_some; eauto).
  assert (slot_at m1 c i = Some s) as Hs1 by (by rewrite (un_slots _ _ (unseen_quiet _ _ Hq1))).
  wsteps. eapply wp_mono.
  { apply (wp_move_tail m1 m3 m2 c i _ _ _ _ _ s "g_u32CdtMoveAttempt" "g_u32CdtMoveEdgeOk" "g_u32CdtMoveEdgeMiss"
      H1 Hins Hq2 Hs1 Hr). }
  intros [] m4 Hwire. wsteps. eapply wp_mono; [exact Hwire|]. intros [] m5 (H5 & Hg & F5). wsteps.
  assert (slot_at m5 c i = Some s) as Hs5.
  { destruct Hg as [_ (h' & s0 & A1 & _ & A3 & A4 & _ & W) _ _]. rewrite W, bool_decide_false; [done|].
    intros [_ Hij]. rewrite <-Hij, Hs1 in A3. injection A3 as <-. by rewrite slot_refs_free in Hr. }
  apply slot_at_some in Hs5 as (cn5 & Ec5 & Es5). eapply wp_cn_load; [done|]. wsteps.
  assert (exists h5, m_objs m5 !! res_pObj rv = Some h5) as [h5 Eh5].
  { apply (frame_obj_some m1 m5); [apply Hg|]. rewrite Eo. eauto. }
  eapply wp_mono; [eapply (wp_drop no_edge m5 c cn5 i s _ h5); try done|].
  { intros l0 e C0 He Ht. by apply (F5 _ _ _ C0 He). }
  intros st m6 Hinv. cbv beta in Hinv |- *. wsteps. eapply wp_mono; [exact Hinv|].
  intros [] m7 (H7 & Hd & _). wsteps.
  apply wp_hook_quiet; [done|apply H7|]. intros m8 Hq8. wsteps.
  split; [by eapply wf_quiet|]. split; [done|]. split; [done|]. exists rv, c. split_and!; try done.
  destruct ref as [j g']. eapply granted_dropped_moved; try done.
  - by eapply granted_quiet_l.
  - eapply dropped_unseen_r; [done|by apply unseen_quiet].
Qed.
End Ops.
