(* ===== verification/CapRevoke.v ===== *)
(** Clearing of slots and revocation: what a cleared slot leaves, and
    [gj_obj_revoke_begin] with the first batch of its walk. *)
From stdpp Require Import base gmap list strings fin_maps.
From Stdlib Require Import ZArith Lia.
From S2P Require Import Prelude CapTypes CapEdges CapQuota CapCnode CapInv CapOps CapDerive.

(** * Hygiene: what clearing the slots of dead objects may change, and the
    known-CNode clear [gj_cnode_invalidate_obj_slots] ([kernel/cap/cnode.c]). *)

#[local] Arguments qchain : simpl never.
#[local] Arguments gj_cap_slot_invalidate_locked : simpl never.
#[local] Arguments gj_cdt_unlink_slot : simpl never.
#[local] Arguments gj_cap_quota_slot_refund : simpl never.

(** CNode fields other than slots and lock. *)
Definition cn_static (cn : gj_cnode) : objp * Z * bool * option quotap :=
  (cn_hdr cn, cn_cSlots cn, bool_decide (cn_pSlots cn = None), cn_pQuotaAccount cn).

(** [q'] is [q] with at most as much used. *)
Definition q_less (v' v : gj_cap_quota) : Prop :=
  q_u32Limit v' = q_u32Limit v /\ q_pParent v' = q_pParent v /\ q_u32Used v' <= q_u32Used v.

#[export] Instance q_less_preorder : PreOrder q_less.
Proof.
  split; [intros v; unfold q_less; split_and!; [done..|lia]|]. intros v1 v2 v3 (A1 & A2 & A3) (B1 & B2 & B3).
  unfold q_less. split_and!; [congruence..|lia].
Qed.

Lemma q_less_core v v' : q_core v' = q_core v -> q_less v' v.
Proof. unfold q_core, q_less. intros [= -> -> ->]. split_and!; [done..|lia]. Qed.

(** Only slots that bind an object in [P] are touched, and only by clearing
    them; accounts are only refunded; locks end as they were. *)
Record hygiene (P : objp -> Prop) (m m' : cap_mem) : Prop := Hygiene {
  hy_objs : forall o, hdr_core <$> m_objs m' !! o = hdr_core <$> m_objs m !! o;
  hy_cns : forall c, cn_static <$> m_cns m' !! c = cn_static <$> m_cns m !! c;
  hy_none : forall c i, slot_at m c i = None -> slot_at m' c i = None;
  hy_slots : forall c i s, slot_at m c i = Some s ->
    slot_at m' c i = Some s
    \/ exists o, P o /\ slot_refs o s = true /\ slot_at m' c i = Some (gj_cap_slot_invalidate s);
  hy_quotas : forall q, option_Forall2 q_less (m_quotas m' !! q) (m_quotas m !! q) }.

Definition locks_same (m m' : cap_mem) : Prop :=
  forall c, cn_u32SoftLock <$> m_cns m' !! c = cn_u32SoftLock <$> m_cns m !! c.
Definition rq_same (m m' : cap_mem) : Prop :=
  m_rq m' = m_rq m /\ m_rqlen m' = m_rqlen m /\ m_rqcur m' = m_rqcur m.

Section Hygiene.
Context (P : objp -> Prop).
Implicit Types (m : cap_mem).

#[export] Instance hygiene_preorder : PreOrder (hygiene P).
Proof.
  split.
  - intros m. split; try done. eauto.
  - intros m1 m2 m3 [A1 A2 A3 A4 A5] [B1 B2 B3 B4 B5]. split.
    + intros o. by rewrite B1.
    + intros c. by rewrite B2.
    + auto.
    + intros c i s Hs. destruct (A4 c i s Hs) as [E|(o & Po & Ho & E)].
      * by apply B4.
      * right. exists o. split_and!; try done. destruct (B4 c i _ E) as [E'|(o' & _ & Ho' & _)]; [done|].
        by rewrite slot_refs_free in Ho'.
    + intros q. specialize (A5 q). specialize (B5 q).
      destruct (m_quotas m1 !! q), (m_quotas m2 !! q), (m_quotas m3 !! q); inversion A5; inversion B5; try constructor.
      by etransitivity.
Qed.

Lemma hygiene_unseen m m' : unseen m m' -> hygiene P m m' /\ locks_same m m'.
Proof.
  intros [[F1 F2 F3 F4 F5] US UQ]. split; [split|].
  - done.
  - intros c. specialize (F1 c). destruct (m_cns m' !! c), (m_cns m !! c); simpl in *; try done.
    unfold cn_core, cn_static in *. congruence.
  - intros c i. by rewrite US.
  - intros c i s. rewrite US. auto.
  - intros q. specialize (UQ q). destruct (m_quotas m' !! q), (m_quotas m !! q); simpl in *; try done; constructor.
    apply q_less_core. congruence.
  - intros c. specialize (F1 c). destruct (m_cns m' !! c), (m_cns m !! c); simpl in *; try done.
    unfold cn_core in *. congruence.
Qed.

Lemma q_less_refund v : quota_range v -> q_less (q_refund v) v.
Proof. unfold quota_range, q_less, q_refund. intros [? ?]. case_match; simpl; split_and!; [done..|lia|done|done|lia]. Qed.

Lemma hygiene_dropped m m' c i o :
  ledger_ok (m_quotas m) -> P o -> dropped c i o m m' -> hygiene P m m' /\ locks_same m m'.
Proof.
  intros (_ & _ & Hr) Po [[F1 F2 F3 F4 F5] (s & A1 & A2 & W) (cn & B1 & B2)]. split; [split|].
  - done.
  - intros c'. specialize (F1 c'). destruct (m_cns m' !! c'), (m_cns m !! c'); simpl in *; try done.
    unfold cn_core, cn_static in *. congruence.
  - intros c' i' Hn. rewrite W. case_bool_decide as E; [|done]. destruct E as [-> ->]. congruence.
  - intros c' i' s' Hs. rewrite W. case_bool_decide as E; [|auto]. destruct E as [-> ->].
    right. exists o. split_and!; congruence.
  - intros q. specialize (B2 q).
    destruct (m_quotas m !! q) as [v|] eqn:E; case_bool_decide; destruct (m_quotas m' !! q) as [v'|]; simpl in *;
      try done; constructor; [|apply q_less_core; congruence].
    transitivity (q_refund v); [apply q_less_core; congruence|]. eapply q_less_refund, Hr, E.
  - intros c'. specialize (F1 c'). destruct (m_cns m' !! c'), (m_cns m !! c'); simpl in *; try done.
    unfold cn_core in *. congruence.
Qed.

(** Taking or releasing a soft lock. *)
Lemma hygiene_lock m c cn v :
  m_cns m !! c = Some cn -> hygiene P m (set_cns (<[c := cn_set_lock cn v]>) m).
Proof.
  intros E. assert (forall c' i, slot_at (set_cns (<[c := cn_set_lock cn v]>) m) c' i = slot_at m c' i) as Hs.
  { intros c' i. unfold slot_at. simpl. rewrite lookup_insert. case_decide; [subst|done]. by rewrite E. }
  split; simpl; try done.
  - intros c'. rewrite lookup_insert. case_decide; [subst; by rewrite E|done].
  - intros c' i. by rewrite Hs.
  - intros c' i s. rewrite Hs. auto.
Qed.

Lemma wf_lock X m c cn v :
  wf_gen X m -> m_cns m !! c = Some cn -> wf_gen X (set_cns (<[c := cn_set_lock cn v]>) m).
Proof.
  intros H E. eapply wf_set_cn; try done. by destruct (wf_cns _ _ H c cn E) as (_ & ? & _).
Qed.
End Hygiene.

#[export] Instance locks_same_preorder : PreOrder locks_same.
Proof. split; [done|]. intros m1 m2 m3 A B c. by rewrite B. Qed.
#[export] Instance rq_same_preorder : PreOrder rq_same.
Proof. split; [done|]. intros m1 m2 m3 (A1 & A2 & A3) (B1 & B2 & B3). unfold rq_same. split_and!; congruence. Qed.

Lemma hygiene_mono (P P' : objp -> Prop) m m' : (forall o, P o -> P' o) -> hygiene P m m' -> hygiene P' m m'.
Proof.
  intros HP [A1 A2 A3 A4 A5]. split; try done. intros c i s Hs.
  destruct (A4 c i s Hs) as [?|(o & ? & ?)]; eauto.
Qed.

Section Loop.
Implicit Types (m : cap_mem).

(** One round of the clear loop: refund, invalidate, unlink. *)
Lemma wp_clear_one m c cn i s o :
  wf m -> m_cns m !! c = Some cn -> cn_slot cn i = Some s -> slot_refs o s = true ->
  wp (gj_cap_quota_slot_refund (cn_pQuotaAccount cn)) (fun _ =>
    wp (gj_cap_slot_invalidate_locked (Some (c, i)) (Some o)) (fun _ =>
      wp (gj_cdt_unlink_slot (Some o) (Some c) i) (fun _ m' =>
        wf m' /\ dropped c i o m m'))) m.
Proof.
  intros H Ec Es Hr.
  destruct (wf_cns _ _ H c cn Ec) as (_ & _ & Hsl).
  destruct (slot_ok_obj m i s (Hsl i s Es)) as (o1 & h & Eo1 & Eh & _); [by apply slot_refs_true in Hr as [? _]|].
  assert (o1 = o) as -> by (apply slot_refs_true in Hr as [_ ?]; congruence).
  destruct (wf_chain _ _ _ _ H Eh) as (l & Hch & _).
  set (X := fun e => e ∈ l /\ edge_tgt (m_pool m) e = Some (Some c, i)).
  eapply wp_mono; [eapply (wp_drop X m c cn i s o h); try done|].
  { by eapply wf_gen_mono; [|exact H]. }
  { intros l' e C' He Ht. destruct (chain_at_det _ _ _ _ _ _ Hch C') as [_ <-]. done. }
  intros st m1 Hinv. cbv beta in Hinv |- *. eapply wp_mono; [exact Hinv|].
  intros [] m2 (H2 & Hd & Ep & Eu & Eo2 & Ec2).
  set (h2 := hdr_set_left h (hdr_u32SlotsLeft h - 1)) in *.
  assert (chain_at m2 o h2 l) as Hch2.
  { destruct Hch as (_ & C & N & U). unfold chain_at. rewrite Ep, Eu, Eo2, lookup_insert_eq. done. }
  eapply wp_mono; [apply (wp_unlink_wf X m2 o h2 l c i H2 Hch2); unfold X; by rewrite Ep|].
  intros [] m3 (H3 & U3 & _). split; [done|]. by eapply dropped_unseen_r.
Qed.

Lemma wp_invalidate_loop c o max : forall n m i k,
  wf m -> 0 <= i -> 0 <= k <= max ->
  (exists cn, m_cns m !! c = Some cn /\ cn_pSlots cn <> None /\ cn_cSlots cn = i + Z.of_nat n) ->
  (forall j s, 0 <= j < i -> slot_at m c j = Some s -> slot_refs o s = false) ->
  wp (invalidate_obj_loop n c o max i k) (fun r m' =>
    wf m' /\ hygiene (eq o) m m' /\ locks_same m m' /\ rq_same m m' /\ k <= r <= max
    /\ (r < max -> forall j s, slot_at m' c j = Some s -> slot_refs o s = false)) m.
Proof.
  induction n as [|n IH]; intros m i k H Hi Hk (cn & Ec & Hns & Hlen) Hpre; simpl.
  { wsteps. split_and!; try done; try lia. intros _ j s Hs. apply (Hpre j s); [|done].
    apply slot_at_some in Hs as (cn' & Ec' & Hs). rewrite Ec in Ec'. injection Ec' as <-.
    destruct (wf_cns _ _ H c cn Ec) as (Hsh & _). pose proof (cn_slot_range _ _ _ Hsh Hs). lia. }
  destruct (Z.leb_spec max k); [wsteps; split_and!; try done; lia|].
  destruct (wf_slot m c cn i H Ec Hns) as (s & Es & _); [lia|]. wsteps.
  assert (slot_at m c i = Some s) as Hs by (apply slot_at_some; eauto).
  assert (slot_refs o s = false ->
    wp (invalidate_obj_loop n c o max (i + 1) k) (fun r m' =>
    wf m' /\ hygiene (eq o) m m' /\ locks_same m m' /\ rq_same m m' /\ k <= r <= max
    /\ (r < max -> forall j s, slot_at m' c j = Some s -> slot_refs o s = false)) m) as Hskip.
  { intros Hr. apply IH; try done; try lia.
    - exists cn. split_and!; try done. lia.
    - intros j s' Hj Hs'. destruct (decide (j = i)) as [->|]; [congruence|]. apply (Hpre j); [lia|done]. }
  destruct (Z.eqb_spec (slot_u16Type s) GJ_CAP_INVALID) as [|Hty]; [apply Hskip; by apply slot_refs_free|].
  case_bool_decide as Hob; simpl; [|apply Hskip; unfold slot_refs; rewrite bool_decide_false by done; apply andb_false_r].
  assert (slot_refs o s = true) as Hr by (by apply slot_refs_true).
  wsteps. eapply wp_mono; [by apply (wp_clear_one m c cn i s o)|]. intros st m1 Hinv. cbv beta in Hinv |- *. wsteps.
  eapply wp_mono; [exact Hinv|]. intros [] m2 Hunl. cbv beta in Hunl |- *. wsteps.
  eapply wp_mono; [exact Hunl|]. intros [] m3 [H3 Hd].
  destruct (hygiene_dropped (eq o) m m3 c i o (wf_ledger _ _ H) eq_refl Hd) as [Hh Hlk].
  pose proof (dr_frame _ _ _ _ _ Hd) as [F1 F2 F3 F4 F5].
  eapply wp_mono; [apply IH; try done; try lia|].
  - specialize (F1 c). rewrite Ec in F1. destruct (m_cns m3 !! c) as [cn3|]; [|done]. exists cn3.
    simpl in F1. unfold cn_core in F1. injection F1 as _ E2 E3 _ _. split_and!; [done| |lia].
    intros E. rewrite E in E3. by rewrite (bool_decide_true (None = None)), bool_decide_false in E3.
  - intros j s' Hj Hs'. destruct Hd as [_ (s1 & A1 & A2 & W) _]. rewrite W in Hs'.
    case_bool_decide as Eji; [injection Hs' as <-; by apply slot_refs_free|].
    apply (Hpre j); [|done]. destruct (decide (j = i)) as [->|]; [naive_solver|lia].
  - intros r m4 (H4 & Hh4 & Hl4 & Hr4 & Hb4 & Hc4). split_and!; try done; try lia.
    + by transitivity m3.
    + by transitivity m3.
    + by transitivity m3.
Qed.

(** [gj_cnode_invalidate_obj_slots] clears at most [max] slots of one object;
    with the lock free and budget left, none is left in that CNode. *)
Lemma wp_invalidate_obj_slots m c cn o max :
  wf m -> m_cns m !! c = Some cn -> 0 <= max ->
  wp (gj_cnode_invalidate_obj_slots (Some c) (Some o) max) (fun r m' =>
    wf m' /\ hygiene (eq o) m m' /\ locks_same m m' /\ rq_same m m' /\ 0 <= r <= max
    /\ (cn_u32SoftLock cn = 0 -> cn_pSlots cn <> None -> r < max ->
        forall j s, slot_at m' c j = Some s -> slot_refs o s = false)) m.
Proof.
  intros H Ec Hm. unfold gj_cnode_invalidate_obj_slots. wsteps.
  case_bool_decide as Es; simpl; [wsteps; split_and!; try done|].
  destruct (Z.eqb_spec max 0); [wsteps; split_and!; try done; lia|]. wsteps. unfold gj_cnode_trylock. wsteps.
  destruct (Z.eqb_spec (cn_u32SoftLock cn) 0) as [Hl|Hl]; wsteps; simpl; [|wsteps; split_and!; done].
  set (m1 := set_cns (<[c := cn_set_lock cn 1]>) m).
  assert (wf m1) as H1 by (by eapply wf_lock).
  assert (m_cns m1 !! c = Some (cn_set_lock cn 1)) as Ec1 by apply lookup_insert_eq.
  wsteps. eapply wp_mono; [apply (wp_invalidate_loop c o max); try done; try lia|].
  { exists (cn_set_lock cn 1). destruct (wf_cns _ _ H c cn Ec) as (Hsh & _). split_and!; try done. simpl.
    unfold cn_shape in Hsh. destruct (cn_pSlots cn); [lia|done]. }
  intros r m2 (H2 & Hh2 & Hl2 & Hr2 & Hb2 & Hc2). unfold gj_cnode_unlock. wsteps.
  pose proof (hy_cns _ _ _ Hh2 c) as Hcs. rewrite Ec1 in Hcs. destruct (m_cns m2 !! c) as [cn2|] eqn:Ec2; [|done].
  wsteps. set (m3 := set_cns (<[c := cn_set_lock cn2 0]>) m2).
  split; [by eapply wf_lock|]. split; [|split; [|split; [|split]]].
  - transitivity m1; [by apply hygiene_lock|]. transitivity m2; [done|by apply hygiene_lock].
  - intros c'. specialize (Hl2 c'). simpl in *. rewrite !lookup_insert in *.
    case_decide as E; subst; [by rewrite Ec; simpl; rewrite Hl|done].
  - transitivity m1; [done|]. by transitivity m2.
  - done.
  - intros _ _ Hlt j s Hs. eapply (Hc2 Hlt j). unfold slot_at in Hs. simpl in Hs. rewrite lookup_insert_eq in Hs.
    unfold slot_at. rewrite Ec2. exact Hs.
Qed.
End Loop.

(** * Revocation ([kernel/cap/revoke.c]): the deferred queue, Phase A
    ([gj_obj_revoke_begin]), the work-limited CDT walk, the deferred driver and
    reclaim.  [rhook] stands for [soft_revoke_inventory_maybe_once], the
    once-only inventory and self-test run at the end of each entry point. *)

(** ** The deferred queue *)

(** [soft_note_pending_peak] *)
Definition soft_note_pending_peak (n : Z) : capM unit := tel_peak "g_u32SoftQPendingPeak" n.

Definition gj_revoke_deferred_pending : capM Z :=
  tick "g_u32SoftQPendingSample" ;;;
  m <- pget ;;
  let u32Limit := if Z.of_nat GJ_REVOKE_Q_MAX <? m_rqlen m then Z.of_nat GJ_REVOKE_Q_MAX else m_rqlen m in
  let u32Pending := Z.of_nat (countb qe_u8Active (take (Z.to_nat u32Limit) (m_rq m))) in
  soft_note_pending_peak u32Pending ;;;
  pret u32Pending.

(** The scan of [revoke_q_push]: [None] when the object is already queued,
    else the first free index, [GJ_REVOKE_Q_MAX] when there is none. *)
Fixpoint q_push_scan (q : list gj_revoke_qent) (iEnt u32Free : nat) (pObj : objp) : option nat :=
  match q with
  | [] => Some u32Free
  | qe :: q' =>
      if qe_u8Active qe then
        if bool_decide (qe_pObj qe = Some pObj) then None
        else q_push_scan q' (S iEnt) u32Free pObj
      else q_push_scan q' (S iEnt)
             (if bool_decide (u32Free = GJ_REVOKE_Q_MAX) then iEnt else u32Free) pObj
  end.

Definition revoke_q_push (pObj : option objp) : capM Z :=
  match pObj with
  | None => pret (-1)
  | Some o =>
      m <- pget ;;
      match q_push_scan (m_rq m) 0 GJ_REVOKE_Q_MAX o with
      | None => tick "g_u32SoftQPush" ;;; tick "g_u32SoftQPushDup" ;;; pret 0
      | Some u32Free =>
          if bool_decide (GJ_REVOKE_Q_MAX <= u32Free)%nat then
            tick "g_u32SoftQPushFull" ;;; pret (-1)
          else
            pput (set_rq (<[u32Free := RevokeQent (Some o) true]> (m_rq m))
                    (if m_rqlen m <=? Z.of_nat u32Free then Z.of_nat u32Free + 1 else m_rqlen m)
                    (m_rqcur m) m) ;;;
            tick "g_u32SoftQPush" ;;;
            tick "g_u32SoftQPushNew" ;;;
            n <- gj_revoke_deferred_pending ;;
            soft_note_pending_peak n ;;;
            pret 0
      end
  end.

(** The trailing scan of [revoke_q_drop]. *)
Fixpoint q_trim (q : list gj_revoke_qent) (iScan : nat) : nat :=
  match iScan with
  | O => O
  | S i => match q !! i with
           | Some qe => if qe_u8Active qe then iScan else q_trim q i
           | None => q_trim q i
           end
  end.

Definition revoke_q_drop (iEnt : Z) : capM unit :=
  if Z.of_nat GJ_REVOKE_Q_MAX <=? iEnt then pret tt
  else
    m <- pget ;;
    let q := <[Z.to_nat iEnt := RevokeQent None false]> (m_rq m) in
    pput (set_rq q (m_rqlen m) (m_rqcur m) m) ;;;
    tick "g_u32SoftQDrop" ;;;
    if m_rqlen m =? 0 then pret tt
    else modify (fun m => set_rq (m_rq m) (Z.of_nat (q_trim (m_rq m) (Z.to_nat (m_rqlen m)))) (m_rqcur m) m).

Definition q_load (iEnt : Z) : capM gj_revoke_qent :=
  m <- pget ;; of_option (if 0 <=? iEnt then m_rq m !! Z.to_nat iEnt else None).

(** Set a once-flag [sFlag]; count [sCount] the first time. *)
Definition once (sFlag : string) (c : capM unit) : capM unit :=
  t <- ptel ;;
  if tel_val t sFlag =? 0 then tel_set sFlag 1 ;;; c else pret tt.

(** ** Reclaim gate *)
Definition gj_obj_reclaim_ready (pObj : option objp) : capM bool :=
  let no (gate : string) := tick "g_u32SoftReclaimNot" ;;; tick gate ;;; pret false in
  match pObj with
  | None => no "g_u32SoftReclaimGateSt"
  | Some o =>
      h <- obj_load o ;;
      if negb (hdr_u32State h =? GJ_OBJ_DEAD) then no "g_u32SoftReclaimGateSt"
      else if negb (hdr_u32SlotsLeft h =? 0) then no "g_u32SoftReclaimGateSlot"
      else if negb (bool_decide (hdr_pCdtHead h = None)) then no "g_u32SoftReclaimGateCdt"
      else if negb (hdr_u32Ref h =? 0) then no "g_u32SoftReclaimGateRef"
      else if negb (hdr_u32Pin h =? 0) then no "g_u32SoftReclaimGatePin"
      else tick "g_u32SoftReclaimReady" ;;; pret true
  end.

(** The queue scan of [gj_obj_reclaim]: [n] entries left from [iEnt]. *)
Fixpoint reclaim_drop_loop (n : nat) (iEnt : Z) (o : objp) : capM unit :=
  match n with
  | O => pret tt
  | S n' =>
      qe <- q_load iEnt ;;
      (if qe_u8Active qe && bool_decide (qe_pObj qe = Some o) then revoke_q_drop iEnt else pret tt) ;;;
      reclaim_drop_loop n' (iEnt + 1) o
  end.

Section Ops.
(** [soft_revoke_inventory_maybe_once]. *)
Variable rhook : capM unit.

Definition gj_obj_reclaim (pObj : option objp) : capM gj_status :=
  match pObj with
  | None => tick "g_u32SoftReclaimNull" ;;; pret GJ_ERR_INVAL
  | Some o =>
      fReady <- gj_obj_reclaim_ready (Some o) ;;
      if negb fReady then tick "g_u32SoftReclaimBusy" ;;; pret GJ_ERR_BUSY
      else
        reclaim_drop_loop GJ_REVOKE_Q_MAX 0 o ;;;
        tick "g_u32SoftReclaimOk" ;;;
        rhook ;;;
        pret GJ_OK
  end.

(** ** Phase A *)
Definition gj_obj_revoke_begin (pObj : option objp) : capM gj_status :=
  tick "g_u32SoftBeginEnter" ;;;
  match pObj with
  | None => tick "g_u32SoftBeginNull" ;;; pret GJ_ERR_INVAL
  | Some o =>
      h <- obj_load o ;;
      if negb (hdr_u32State h =? GJ_OBJ_LIVE) then
        if (hdr_u32State h =? GJ_OBJ_DEAD) || (hdr_u32State h =? GJ_OBJ_REVOKING)
        then tick "g_u32SoftBeginDead" ;;; pret GJ_ERR_DEAD
        else tick "g_u32SoftBeginBusy" ;;; pret GJ_ERR_BUSY
      else
        obj_store o (hdr_set_state h GJ_OBJ_REVOKING) ;;;
        h1 <- obj_load o ;;
        obj_store o (hdr_set_state h1 GJ_OBJ_DEAD) ;;;
        h2 <- obj_load o ;;
        obj_store o (hdr_set_gen h2 (u32_wrap (hdr_u32Gen h2 + 1))) ;;;
        r <- revoke_q_push (Some o) ;;
        if negb (r =? 0) then
          tick "g_u32SoftBeginAgain" ;;; rhook ;;; pret GJ_ERR_AGAIN
        else
          tick "g_u32SoftBeginOk" ;;;
          t <- ptel ;;
          (if tel_val t "g_u32SoftBeginOk" =? 1 then gj_revoke_deferred_pending ;;; pret tt else pret tt) ;;;
          rhook ;;;
          pret GJ_OK
  end.

(** ** The CDT walk *)

(** Locals of [gj_revoke_cdt_walk_batch]. *)
Record walk_acc : Type := WalkAcc { wa_cleared : Z; wa_visited : Z; wa_busy : Z; wa_stale : Z }.

(** The edge loop of one pass. *)
Fixpoint walk_edges (fuel : nat) (o : objp) (u32MaxSlots u32VisitCap : Z)
    (pEdge : option edgep) (a : walk_acc) : capM walk_acc :=
  match fuel with
  | O => pfault
  | S f =>
      match pEdge with
      | None => pret a
      | Some e =>
          if negb ((wa_cleared a <? u32MaxSlots) && (wa_visited a <? u32VisitCap)) then pret a
          else
            tick "g_u32SoftWalkVisit" ;;;
            ed <- edge_load e ;;
            let pNext := edge_pNext ed in
            let next dCleared dBusy dStale :=
              walk_edges f o u32MaxSlots u32VisitCap pNext
                (WalkAcc (wa_cleared a + dCleared) (wa_visited a + 1) (wa_busy a + dBusy) (wa_stale a + dStale)) in
            let stale :=
              tick "g_u32SoftWalkStale" ;;;
              gj_cdt_edge_unlink (Some o) (Some e) ;;;
              next 0 0 1 in
            match edge_pCnode ed with
            | None => stale
            | Some c =>
                cn <- cn_load c ;;
                if bool_decide (cn_pSlots cn = None) || (cn_cSlots cn <=? edge_u64Slot ed) then stale
                else
                  fLocked <- gj_cnode_trylock (Some c) ;;
                  if negb fLocked then
                    tick_wrap "g_u32R2SpinsAvoided" ;;;
                    tick "g_u32SoftWalkBusyEdge" ;;;
                    once "g_u8CdtTrylockLogged" (tick "g_u32SoftR2TrylockLog") ;;;
                    next 0 1 0
                  else
                    s <- slot_load c (edge_u64Slot ed) ;;
                    if negb (slot_u16Type s =? GJ_CAP_INVALID) && bool_decide (slot_pObj s = Some o) then
                      gj_cap_quota_slot_refund (cn_pQuotaAccount cn) ;;;
                      gj_cap_slot_invalidate_locked (Some (c, edge_u64Slot ed)) (Some o) ;;;
                      tick_wrap "g_u32R2SlotsCleared" ;;;
                      gj_cnode_unlock (Some c) ;;;
                      gj_cdt_edge_unlink (Some o) (Some e) ;;;
                      next 1 0 0
                    else
                      tick "g_u32SoftWalkStale" ;;;
                      gj_cnode_unlock (Some c) ;;;
                      gj_cdt_edge_unlink (Some o) (Some e) ;;;
                      next 0 0 1
            end
      end
  end.

(** The passes, from pass number [u32Pass] on; [n] passes left. *)
Fixpoint walk_passes (n : nat) (o : objp) (u32MaxSlots u32VisitCap u32Pass : Z)
    (a : walk_acc) : capM walk_acc :=
  match n with
  | O => pret a
  | S n' =>
      if negb ((wa_cleared a <? u32MaxSlots) && (wa_visited a <? u32VisitCap)) then pret a
      else
        tick "g_u32SoftWalkPass" ;;;
        h <- obj_load o ;;
        if bool_decide (hdr_pCdtHead h = None) then pret a
        else
          (if 0 <? u32Pass then tick_wrap "g_u32R2Retries" else pret tt) ;;;
          a' <- walk_edges CDT_FUEL o u32MaxSlots u32VisitCap (hdr_pCdtHead h)
                  (WalkAcc (wa_cleared a) (wa_visited a) 0 (wa_stale a)) ;;
          if wa_busy a' =? 0 then tick "g_u32SoftWalkCleanPass" ;;; pret a'
          else walk_passes n' o u32MaxSlots u32VisitCap (u32Pass + 1) a'
  end.

Definition gj_revoke_cdt_walk_batch (pObj : option objp) (u32MaxSlots : Z) : capM Z :=
  tick "g_u32SoftWalkEnter" ;;;
  match pObj with
  | None => tick "g_u32SoftWalkNop" ;;; tick "g_u32SoftRetWalkZero" ;;; pret 0
  | Some o =>
      if u32MaxSlots =? 0 then tick "g_u32SoftWalkNop" ;;; tick "g_u32SoftRetWalkZero" ;;; pret 0
      else
        let u32VisitCap := u32_wrap (u32MaxSlots * 4 + 8) in
        a <- walk_passes (S GJ_REVOKE_R2_SOFT_RETRY_MAX) o u32MaxSlots u32VisitCap 0 (WalkAcc 0 0 0 0) ;;
        when (u32MaxSlots <=? wa_cleared a) (tick "g_u32SoftWalkBudgetHit") ;;;
        when (u32VisitCap <=? wa_visited a) (tick "g_u32SoftWalkVisitCap") ;;;
        t <- ptel ;;
        when ((0 <? wa_cleared a) || (0 <? tel_val t "g_u32R2SpinsAvoided") || (0 <? wa_stale a))
          (once "g_u8RevokeTrylockLogged" (tick "g_u32SoftR2WalkLog")) ;;;
        (if wa_cleared a =? 0 then tick "g_u32SoftRetWalkZero"
         else tick "g_u32SoftRetWalkPos" ;;; tel_add_sat "g_u32SoftRetWalkSum" (wa_cleared a)) ;;;
        rhook ;;;
        pret (wa_cleared a)
  end.

(** ** The deferred driver *)

Definition set_cursor (v : Z) : capM unit := modify (fun m => set_rq (m_rq m) (m_rqlen m) v m).

(** The soft-gap marker: slots counted but no edge to walk. *)
Definition deferred_gap (o : objp) (iEnt u32Limit : Z) : capM unit :=
  h <- obj_load o ;;
  if (0 <? hdr_u32SlotsLeft h) && bool_decide (hdr_pCdtHead h = None) then
    tick "g_u32SoftDefEmptyEdge" ;;;
    once "g_u8CdtSoftLogged" (gj_revoke_deferred_pending ;;; pret tt) ;;;
    set_cursor ((iEnt + 1) mod u32Limit)
  else pret tt.

(** The walk part of one round: first batch, and one more when edges and
    budget remain.  Returns the new cleared total and whether the soft-gap
    test is still to be made. *)
Definition deferred_walk (o : objp) (iEnt u32Limit u32MaxSlots u32Cleared : Z) : capM (Z * bool) :=
  tick "g_u32SoftDefWalkCall" ;;;
  u32Batch <- gj_revoke_cdt_walk_batch (Some o) (u32MaxSlots - u32Cleared) ;;
  let u32Cleared1 := u32Cleared + u32Batch in
  h1 <- obj_load o ;;
  u32Cleared2 <-
    (if negb (bool_decide (hdr_pCdtHead h1 = None)) && (u32Cleared1 <? u32MaxSlots) then
       tick "g_u32SoftDefWalkCall" ;;;
       tick "g_u32SoftR2OuterPush" ;;;
       u32Push <- gj_revoke_cdt_walk_batch (Some o) (u32MaxSlots - u32Cleared1) ;;
       when (0 <? u32Push) (tick_wrap "g_u32R2Retries") ;;;
       pret (u32Cleared1 + u32Push)
     else pret u32Cleared1) ;;
  set_cursor ((iEnt + 1) mod u32Limit) ;;;
  h2 <- obj_load o ;;
  if (hdr_u32SlotsLeft h2 =? 0) && bool_decide (hdr_pCdtHead h2 = None) then
    tick "g_u32SoftDefHygieneDone" ;;; pret (u32Cleared2, false)
  else if negb (bool_decide (hdr_pCdtHead h2 = None)) then
    tick "g_u32SoftDefEdgeRemain" ;;;
    once "g_u8CdtR2SoftLogged" (tick "g_u32SoftR2DeferLog") ;;;
    pret (u32Cleared2, false)
  else pret (u32Cleared2, true).

(** The round-robin loop: [n] entries left, [u32Scanned] done. *)
Fixpoint deferred_loop (n : nat) (u32Limit u32Start u32MaxSlots u32Scanned u32Cleared : Z) : capM Z :=
  match n with
  | O => pret u32Cleared
  | S n' =>
      if negb (u32Cleared <? u32MaxSlots) then pret u32Cleared
      else
        let iEnt := (u32Start + u32Scanned) mod u32Limit in
        let continue cl := deferred_loop n' u32Limit u32Start u32MaxSlots (u32Scanned + 1) cl in
        tick "g_u32SoftDefScan" ;;;
        qe <- q_load iEnt ;;
        if negb (qe_u8Active qe) then continue u32Cleared
        else
          match qe_pObj qe with
          | None => tick "g_u32SoftDefStaleQ" ;;; revoke_q_drop iEnt ;;; continue u32Cleared
          | Some o =>
              h <- obj_load o ;;
              if negb (hdr_u32State h =? GJ_OBJ_DEAD) then
                tick "g_u32SoftDefStaleQ" ;;; revoke_q_drop iEnt ;;; continue u32Cleared
              else
                tick "g_u32SoftDefActive" ;;;
                if (hdr_u32SlotsLeft h =? 0) && bool_decide (hdr_pCdtHead h = None) then
                  tick "g_u32SoftDefHygieneDone" ;;; continue u32Cleared
                else if negb (bool_decide (hdr_pCdtHead h = None)) then
                  r <- deferred_walk o iEnt u32Limit u32MaxSlots u32Cleared ;;
                  (if snd r : bool then deferred_gap o iEnt u32Limit else pret tt) ;;;
                  continue (fst r)
                else
                  deferred_gap o iEnt u32Limit ;;;
                  continue u32Cleared
          end
  end.

Definition gj_revoke_process_deferred (u32MaxSlots : Z) : capM Z :=
  tick "g_u32SoftDefEnter" ;;;
  if u32MaxSlots =? 0 then tick "g_u32SoftDefNop" ;;; tick "g_u32SoftRetDefZero" ;;; pret 0
  else
    m <- pget ;;
    let u32Limit := if Z.of_nat GJ_REVOKE_Q_MAX <? m_rqlen m then Z.of_nat GJ_REVOKE_Q_MAX else m_rqlen m in
    if u32Limit =? 0 then tick "g_u32SoftDefNop" ;;; tick "g_u32SoftRetDefZero" ;;; pret 0
    else
      let u32Start := m_rqcur m mod u32Limit in
      u32Cleared <- deferred_loop (Z.to_nat u32Limit) u32Limit u32Start u32MaxSlots 0 0 ;;
      (if u32Cleared =? 0 then tick "g_u32SoftRetDefZero"
       else tick "g_u32SoftRetDefPos" ;;; tel_add_sat "g_u32SoftRetDefSum" u32Cleared) ;;;
      rhook ;;;
      pret u32Cleared.
End Ops.
