(* ===== verification/CapWalk.v ===== *)
(** The CDT walk of [kernel/cap/revoke.c]: it terminates, keeps the invariant,
    clears only slots of the walked object, never more than its budget, and
    with all CNode locks free it clears as many edges as the budget allows. *)
From stdpp Require Import base gmap list strings fin_maps.
From Stdlib Require Import ZArith Lia.
From S2P Require Import Prelude CapTypes CapEdges CapQuota CapCnode CapInv CapOps CapDerive CapRevoke.

#[local] Arguments qchain : simpl never.
#[local] Arguments gj_cap_slot_invalidate_locked : simpl never.
#[local] Arguments gj_cdt_edge_unlink : simpl never.
#[local] Arguments gj_cap_quota_slot_refund : simpl never.
#[local] Arguments gj_cnode_trylock : simpl never.
#[local] Arguments gj_cnode_unlock : simpl never.
#[local] Arguments Z.add : simpl never.

Lemma NoDup_fmap_inj {A B} (f : A -> B) (l : list A) x y :
  NoDup (f <$> l) -> x ∈ l -> y ∈ l -> f x = f y -> x = y.
Proof.
  intros Hnd [i Hi]%list_elem_of_lookup [j Hj]%list_elem_of_lookup E.
  assert (i = j) as ->; [|congruence].
  eapply (NoDup_lookup _ _ _ (f x) Hnd); rewrite list_lookup_fmap; [rewrite Hi|rewrite Hj]; simpl; congruence.
Qed.

Lemma NoDup_fmap_sub {A B} (f : A -> B) (P : A -> Prop) `{!forall x, Decision (P x)} (l : list A) :
  NoDup (f <$> l) -> NoDup (f <$> filter P l).
Proof.
  induction l as [|a l IH]; [done|]. rewrite fmap_cons. intros [Hn Hd]%NoDup_cons. rewrite filter_cons.
  case_decide; [|auto]. rewrite fmap_cons. apply NoDup_cons. split; [|auto].
  intros (b & Eb & Hb)%list_elem_of_fmap. apply Hn, list_elem_of_fmap. exists b.
  apply list_elem_of_filter in Hb as [_ Hb]. done.
Qed.

(** All CNode soft locks are free. *)
Definition locks_free (m : cap_mem) : Prop :=
  forall c cn, m_cns m !! c = Some cn -> cn_u32SoftLock cn = 0.

Lemma locks_free_same m m' : locks_same m m' -> locks_free m -> locks_free m'.
Proof.
  intros Hl Hf c cn E. specialize (Hl c). rewrite E in Hl. destruct (m_cns m !! c) as [cn0|] eqn:E0; [|done].
  simpl in Hl. injection Hl as ->. by eapply Hf.
Qed.

(** A chain is no longer than the number of pool entries in use. *)
Lemma used_count_chain (l : list edgep) : forall (u : list bool),
  NoDup l -> Forall (fun e => u !! e = Some true) l -> (length l <= used_count u)%nat.
Proof.
  induction l as [|e l IH]; intros u Hnd Hu; simpl; [lia|].
  apply NoDup_cons in Hnd as [Hn Hnd]. apply Forall_cons in Hu as [He Hu].
  pose proof (used_count_set u e true false He). specialize (IH (<[e := false]> u) Hnd).
  assert (length l <= used_count (<[e := false]> u))%nat; [|lia]. apply IH.
  rewrite Forall_forall in Hu |- *. intros x Hx. rewrite list_lookup_insert_ne by set_solver. auto.
Qed.

Lemma chain_le_used m o h l : pool_ok m -> chain_at m o h l -> Z.of_nat (length l) <= m_pool_used m.
Proof. intros (_ & _ & -> & _) (_ & _ & N & U). pose proof (used_count_chain l _ N U). lia. Qed.

Lemma shrink_used o h l e m m' :
  pool_ok m -> chain_at m o h l -> e ∈ l -> cdt_shrink o h l (filter (fun i => i <> e) l) m m' ->
  m_pool_used m' = m_pool_used m - 1.
Proof.
  intros Hp (_ & _ & _ & U) He (hd & pool' & used' & n' & Em & _ & Hout & Hk & Hdrop & Hpo).
  destruct (Hpo Hp) as (_ & L' & -> & _). destruct Hp as (_ & L & -> & _). rewrite Forall_forall in U.
  assert (m_used m' = <[e := false]> (m_used m)) as ->; [|rewrite (used_count_set _ e true false); [lia|auto]].
  rewrite Em in *. simpl in *. apply list_eq. intros i. destruct (decide (i = e)) as [->|Hne].
  - rewrite list_lookup_insert_eq; [|exact (lookup_lt_Some _ _ _ (U e He))].
    apply Hdrop; [done|]. by intros [? _]%list_elem_of_filter.
  - rewrite list_lookup_insert_ne by done. destruct (decide (i ∈ l)) as [Hi|Hi]; [|by apply Hout].
    apply Hk. by apply list_elem_of_filter.
Qed.

Section Walk.
Implicit Types (m : cap_mem) (o : objp) (K suf l : list edgep).

(** No chain gets longer. *)
Definition chains_le (m m' : cap_mem) : Prop :=
  forall o h l, chain_at m o h l -> exists h' l', chain_at m' o h' l' /\ (length l' <= length l)%nat.

#[export] Instance chains_le_preorder : PreOrder chains_le.
Proof.
  split; [by intros m o h l ?; exists h, l|]. intros m1 m2 m3 A B o h l C.
  destruct (A o h l C) as (h2 & l2 & C2 & L2). destruct (B o h2 l2 C2) as (h3 & l3 & C3 & L3).
  exists h3, l3. split; [done|lia].
Qed.

Lemma chains_le_shrink X m m' o h l l' :
  wf_gen X m -> chain_at m o h l -> cdt_shrink o h l l' m m' -> l' ⊆ l -> NoDup l' -> chains_le m m'.
Proof.
  intros H Hch Hsh Hsub Hnd o2 h2 l2 C2. destruct (decide (o2 = o)) as [->|Hne].
  - destruct (chain_at_det _ _ _ _ _ _ Hch C2) as [_ <-].
    destruct (chain_at_shrink _ _ _ _ _ _ Hch Hsh Hsub Hnd) as (h' & _ & ?). exists h', l'. split; [done|].
    apply submseteq_length, NoDup_submseteq; done.
  - assert (l2 ## l) as Hdis by (by eapply (wf_disj _ _ H); [exact C2|exact Hch|]).
    destruct Hsh as (hd & pool' & used' & n' & -> & _ & Hout & _). destruct C2 as (E2 & I2 & N2 & U2).
    exists h2, l2. split; [|done]. split_and!; simpl; [by rewrite lookup_insert_ne| |done|].
    + eapply is_chain_ext, I2. intros e He. apply Hout. set_solver.
    + rewrite Forall_forall in U2 |- *. intros e He. rewrite (proj2 (Hout e ltac:(set_solver))). auto.
Qed.

(** A header update that keeps the chain head. *)
Lemma chains_le_hdr m m' o h h' :
  m_objs m !! o = Some h -> m_objs m' = <[o := h']> (m_objs m) -> hdr_pCdtHead h' = hdr_pCdtHead h ->
  m_pool m' = m_pool m -> m_used m' = m_used m -> chains_le m m'.
Proof.
  intros E E' Eh Ep Eu o2 h2 l2 (E2 & I2 & N2 & U2). unfold chain_at. rewrite E', Ep, Eu.
  destruct (decide (o2 = o)) as [->|Hne].
  - exists h', l2. rewrite lookup_insert_eq, Eh. simplify_eq. done.
  - exists h2, l2. rewrite lookup_insert_ne by done. done.
Qed.

(** What every stage of the walk of [o] guarantees. *)
Record walked (o : objp) (m m' : cap_mem) : Prop := Walked {
  wk_hygiene : hygiene (eq o) m m';
  wk_locks : locks_same m m';
  wk_rq : rq_same m m';
  wk_chains : chains_le m m' }.

#[local] Instance walked_preorder o : PreOrder (walked o).
Proof.
  split; [by intros m; split|]. intros m1 m2 m3 [A1 A2 A3 A4] [B1 B2 B3 B4]. split; by transitivity m2.
Qed.

Lemma walked_unseen o m m' : unseen m m' -> chains_le m m' -> walked o m m'.
Proof.
  intros Hu Hc. destruct (hygiene_unseen (eq o) _ _ Hu) as [? ?]. destruct Hu as [[] _ _]. by split.
Qed.

Lemma wp_unlink_edge_wf X m o h l e :
  wf_gen X m -> chain_at m o h l -> (forall e', X e' -> e' = e) -> e ∈ l ->
  wp (gj_cdt_edge_unlink (Some o) (Some e)) (fun _ m' =>
    wf m' /\ unseen m m' /\ chains_le m m' /\ m_pool_used m' = m_pool_used m - 1
    /\ exists h', chain_at m' o h' (filter (fun i => i <> e) l)) m.
Proof.
  intros H Hch HX He. pose proof Hch as (Eo & _ & Hnd & _).
  eapply wp_mono; [apply wp_cdt_edge_unlink; [done|apply H]|]. intros [] m' Hsh.
  set (l' := filter _ l) in *.
  assert (l' ⊆ l) as Hsub by (intros x; unfold l'; rewrite list_elem_of_filter; tauto).
  assert (NoDup l') as Hnd' by (by apply NoDup_filter).
  destruct (wf_chain _ _ _ _ H Eo) as (l0 & C0 & Hndt & _).
  destruct (chain_at_det _ _ _ _ _ _ Hch C0) as [_ <-].
  split; [|split; [by eapply unseen_shrink|split; [by eapply chains_le_shrink|split]]].
  - eapply (wf_shrink X no_edge); try done; [by apply NoDup_fmap_sub|].
    intros e' He'. right. rewrite (HX e' He'). split; [done|]. by intros [? _]%list_elem_of_filter.
  - eapply shrink_used; [apply H|done..].
  - destruct (chain_at_shrink _ _ _ _ _ _ Hch Hsh Hsub Hnd') as (h' & _ & ?). eauto.
Qed.

(** The branch of [walk_edges] that clears the slot of edge [e]. *)
Lemma wp_walk_clear {A} m o h K e suf c cn i s sC (k : capM A) Q :
  wf m -> chain_at m o h (K ++ e :: suf) -> edge_tgt (m_pool m) e = Some (Some c, i) ->
  m_cns m !! c = Some cn -> cn_slot cn i = Some s -> slot_refs o s = true -> cn_u32SoftLock cn = 0 ->
  (forall m', wf m' -> walked o m m' -> m_pool_used m' = m_pool_used m - 1 ->
     (exists h', chain_at m' o h' (K ++ suf)) -> wp k Q m') ->
  wp (gj_cap_quota_slot_refund (cn_pQuotaAccount cn) ;;;
      gj_cap_slot_invalidate_locked (Some (c, i)) (Some o) ;;;
      tick_wrap sC ;;; gj_cnode_unlock (Some c) ;;;
      gj_cdt_edge_unlink (Some o) (Some e) ;;; k) Q (set_cns (<[c := cn_set_lock cn 1]>) m).
Proof.
  intros H Hch Ht Ec Es Hr Hl Hk. set (m1 := set_cns _ m).
  assert (wf m1) as H1 by (by eapply wf_lock).
  assert (m_cns m1 !! c = Some (cn_set_lock cn 1)) as Ec1 by apply lookup_insert_eq.
  pose proof Hch as (Eo & Hic & Hnd & Hu).
  destruct (wf_chain _ _ _ _ H Eo) as (l0 & C0 & Hndt & _).
  destruct (chain_at_det _ _ _ _ _ _ Hch C0) as [_ <-].
  wsteps. eapply wp_mono.
  { eapply (wp_drop (fun e' => e' = e) m1 c (cn_set_lock cn 1) i s o h); try done.
    - by eapply wf_gen_mono; [|exact H1].
    - intros l e' C' He' Ht'. destruct (chain_at_det _ _ _ _ _ _ Hch C') as [_ <-].
      eapply (NoDup_fmap_inj _ _ _ _ Hndt); [done|set_solver|]. by rewrite Ht. }
  intros st m2 Hinv. cbv beta in Hinv |- *. wsteps. eapply wp_mono; [exact Hinv|].
  intros [] m3 (H3 & Hd & Ep & Eu & Eo3 & Ec3). wsteps. unfold gj_cnode_unlock.
  assert (m_cns m3 !! c = Some (cn_set_slot (cn_set_lock cn 1) i (gj_cap_slot_invalidate s))) as Ec3'
    by (by rewrite Ec3, lookup_insert_eq).
  wsteps. set (m4 := set_cns _ m3).
  assert (wf_gen (fun e' => e' = e) m4) as H4 by (by eapply wf_lock).
  set (h3 := hdr_set_left h (hdr_u32SlotsLeft h - 1)) in *.
  assert (chain_at m4 o h3 (K ++ e :: suf)) as Hch4.
  { unfold chain_at. simpl. rewrite Ep, Eu, Eo3, lookup_insert_eq. done. }
  eapply wp_mono; [eapply (wp_unlink_edge_wf (fun e' => e' = e)); [done..|]; set_solver|].
  intros [] m5 (H5 & U5 & L5 & P5 & h5 & Hch5). apply Hk; [done| | |].
  - transitivity m4; [|by apply walked_unseen].
    destruct (hygiene_dropped (eq o) m1 m3 c i o (wf_ledger _ _ H1) eq_refl Hd) as [Hh Hlk].
    pose proof (dr_frame _ _ _ _ _ Hd) as [_ _ F3 F4 F5]. split.
    + transitivity m1; [by apply hygiene_lock|]. transitivity m3; [done|by apply hygiene_lock].
    + intros c'. specialize (Hlk c'). simpl in *. rewrite !lookup_insert in *. rewrite Ec3 in *.
      case_decide as E; [subst; rewrite Ec; simpl; by rewrite Hl|]. done.
    + by split_and!.
    + eapply (chains_le_hdr m m4 o h h3); done.
  - rewrite P5. simpl. destruct Hd as [F _ _]. f_equal. rewrite (proj1 (proj2 (proj2 (wf_pool _ _ H3)))), (proj1 (proj2 (proj2 (wf_pool _ _ H)))), Eu. done.
  - exists h5. rewrite filter_ne_split in Hch5 by done. done.
Qed.

(** Outcome of a stage that started at chain [K ++ suf] with locals [a]. *)
Definition walk_post (o : objp) (max cap : Z) K suf (m : cap_mem) (a a' : walk_acc) (m' : cap_mem) : Prop :=
  wf m' /\ walked o m m' /\ exists h' l', chain_at m' o h' l'
  /\ wa_cleared a <= wa_cleared a' <= max /\ wa_stale a' = wa_stale a
  /\ wa_visited a <= wa_visited a' <= Z.max (wa_visited a) cap
  /\ Z.of_nat (length l') + wa_cleared a' = Z.of_nat (length (K ++ suf)) + wa_cleared a
  /\ m_pool_used m' + wa_cleared a' = m_pool_used m + wa_cleared a
  /\ (locks_free m -> max - wa_cleared a <= cap - wa_visited a ->
      wa_busy a' = wa_busy a /\ l' = K ++ drop (Z.to_nat (max - wa_cleared a)) suf).

Lemma walk_post_stop o max cap K suf m h a :
  wf m -> chain_at m o h (K ++ suf) -> wa_cleared a <= max ->
  (suf = [] \/ (wa_cleared a <? max) && (wa_visited a <? cap) = false) ->
  walk_post o max cap K suf m a a m.
Proof.
  intros H Hch Hle Hstop. split; [done|]. split; [done|]. exists h, (K ++ suf).
  split_and!; try done; try lia. intros _ Hcap. split; [done|].
  destruct Hstop as [->|Hs]; [by rewrite drop_nil|].
  replace (Z.to_nat (max - wa_cleared a)) with 0%nat; [done|]. lia.
Qed.

Lemma wp_walk_edges o max cap : forall suf fuel m K h a,
  wf m -> chain_at m o h (K ++ suf) -> (length suf < fuel)%nat -> wa_cleared a <= max ->
  wp (walk_edges fuel o max cap (head suf) a) (walk_post o max cap K suf m a) m.
Proof.
  induction suf as [|e suf IH]; intros fuel m K h a H Hch Hfuel Hle; destruct fuel as [|f]; try (simpl in Hfuel; lia); simpl.
  { wsteps. eapply walk_post_stop; eauto. }
  destruct ((wa_cleared a <? max) && (wa_visited a <? cap)) eqn:Eb; simpl.
  2:{ wsteps. eapply walk_post_stop; eauto. }
  apply andb_true_iff in Eb as [Eb1%Z.ltb_lt Eb2%Z.ltb_lt]. wsteps.
  pose proof Hch as (Eo & Hic & Hnd & Hu).
  destruct (wf_chain _ _ _ _ H Eo) as (l0 & C0 & _ & Hnm).
  destruct (chain_at_det _ _ _ _ _ _ Hch C0) as [_ <-].
  destruct (Hnm e) as (c & i & cn & s & Ht & Ec & Es & Hr); [set_solver|by intros []|].
  pose proof (is_chain_app_r _ _ _ _ Hic) as (_ & ed & Ed & Hnext).
  eapply wp_edge_load; [done|].
  unfold edge_tgt in Ht. rewrite Ed in Ht. injection Ht as Ep Esl. rewrite Ep. wsteps.
  destruct (wf_cns _ _ H c cn Ec) as (Hsh & _). pose proof (cn_slot_range _ _ _ Hsh Es) as Hi.
  rewrite bool_decide_false by (intros E; unfold cn_slot in Es; by rewrite E in Es). simpl.
  rewrite Esl, (proj2 (Z.leb_gt _ _)) by lia. wsteps. unfold gj_cnode_trylock. wsteps.
  rewrite (is_chain_head _ _ _ Hnext).
  destruct (Z.eqb_spec (cn_u32SoftLock cn) 0) as [Hl|Hl]; wsteps; simpl.
  - (* lock taken: clear the slot, drop the edge *)
    set (m1 := set_cns (<[c := cn_set_lock cn 1]>) m).
    assert (m_cns m1 !! c = Some (cn_set_lock cn 1)) as Ec1 by apply lookup_insert_eq.
    apply wp_bind. eapply (wp_slot_load m1 c (cn_set_lock cn 1) i s); [done|done|].
    pose proof (proj1 (slot_refs_true o s) Hr) as [Hty Hob].
    rewrite (proj2 (Z.eqb_neq _ _) Hty), bool_decide_true by done. simpl.
    eapply (wp_walk_clear m o h K e suf c cn i s); try done.
    { unfold edge_tgt. rewrite Ed. simpl. by rewrite Ep, Esl. }
    intros m' H' Hw Hpu (h' & Hch'). eapply wp_mono; [eapply IH; [done..|simpl in Hfuel; lia|simpl; lia]|].
    intros a' m2 (H2 & Hw2 & h2 & l2 & C2 & B1 & B2 & B3 & B4 & Bp & B5). simpl in *.
    split; [done|]. split; [by transitivity m'|]. exists h2, l2.
    rewrite length_app in B4 |- *. simpl. split_and!; try done; try lia.
    intros Hlf Hcap. destruct B5 as [B5 ->]; [by eapply locks_free_same; [apply Hw|]|lia|].
    split; [lia|]. replace (Z.to_nat (max - wa_cleared a)) with (S (Z.to_nat (max - (wa_cleared a + 1)))) by lia. done.
  - (* lock busy: keep the edge *)
    unfold once. wsteps. apply wp_tel. intros t.
    assert (forall Q : unit -> cap_mem -> Prop, Q tt m -> wp (if tel_val t "g_u8CdtTrylockLogged" =? 0
       then tel_set "g_u8CdtTrylockLogged" 1 ;;; tick "g_u32SoftR2TrylockLog" else pret tt) Q m) as Hlog
      by (intros Q HQ; case_match; by wsteps).
    apply Hlog. wsteps. eapply wp_mono; [eapply (IH f m (K ++ [e])); [done| |simpl in Hfuel; lia|simpl; lia]|].
    { by rewrite <-app_assoc. }
    intros a' m2 (H2 & Hw2 & h2 & l2 & C2 & B1 & B2 & B3 & B4 & Bp & B5). simpl in *.
    split; [done|]. split; [done|]. exists h2, l2.
    rewrite !length_app in *. simpl in *. split_and!; try done; try lia.
    intros Hlf _. by apply Hlf in Ec.
Qed.

#[local] Arguments walk_edges : simpl never.

Lemma wp_walk_passes o max cap : forall n m h l a pass,
  wf m -> chain_at m o h l -> wa_cleared a <= max ->
  wp (walk_passes n o max cap pass a) (fun a' m' =>
    wf m' /\ walked o m m' /\ exists h' l', chain_at m' o h' l'
    /\ wa_cleared a <= wa_cleared a' <= max /\ wa_stale a' = wa_stale a
    /\ wa_visited a <= wa_visited a' <= Z.max (wa_visited a) cap
    /\ Z.of_nat (length l') + wa_cleared a' = Z.of_nat (length l) + wa_cleared a
    /\ m_pool_used m' + wa_cleared a' = m_pool_used m + wa_cleared a
    /\ (n <> 0%nat -> locks_free m -> max - wa_cleared a <= cap - wa_visited a ->
        l' = drop (Z.to_nat (max - wa_cleared a)) l)) m.
Proof.
  induction n as [|n IH]; intros m h l a pass H Hch Hle; simpl.
  { wsteps. split; [done|]. split; [done|]. exists h, l. split_and!; try done; lia. }
  destruct ((wa_cleared a <? max) && (wa_visited a <? cap)) eqn:Eb; simpl.
  2:{ wsteps. split; [done|]. split; [done|]. exists h, l. split_and!; try done; try lia.
      intros _ _ Hcap. replace (Z.to_nat (max - wa_cleared a)) with 0%nat; [done|lia]. }
  pose proof Hch as (Eo & Hic & Hnd & Hu). wsteps.
  case_bool_decide as Ehd.
  { wsteps. split; [done|]. split; [done|]. exists h, l. split_and!; try done; try lia.
    destruct l as [|e l]; [by rewrite drop_nil|]. destruct Hic as [E _]. congruence. }
  apply wp_bind. assert (forall Q : unit -> cap_mem -> Prop, Q tt m ->
    wp (if 0 <? pass then tick_wrap "g_u32R2Retries" else pret tt) Q m) as Ht by (intros; case_match; by wsteps).
  apply Ht. wsteps. rewrite (is_chain_head _ _ _ Hic).
  eapply wp_mono; [apply (wp_walk_edges o max cap l CDT_FUEL m [] h); [done|done| |done]|].
  { pose proof (is_chain_bound _ _ _ Hic Hnd). destruct (wf_pool _ _ H) as [E _]. unfold CDT_FUEL. lia. }
  intros a1 m1 (H1 & Hw1 & h1 & l1 & C1 & B1 & B2 & B3 & B4 & Bp & B5). simpl in *.
  destruct (Z.eqb_spec (wa_busy a1) 0) as [Hb|Hb].
  - wsteps. split; [done|]. split; [done|]. exists h1, l1. split_and!; try done; try lia.
    intros _ Hlf Hcap. by apply B5.
  - eapply wp_mono; [eapply (IH m1 h1 l1); [done..|lia]|].
    intros a2 m2 (H2 & Hw2 & h2 & l2 & C2 & D1 & D2 & D3 & D4 & Dp & D5).
    split; [done|]. split; [by transitivity m1|]. exists h2, l2. split_and!; try done; try lia.
    intros _ Hlf Hcap. destruct (B5 Hlf Hcap) as [Hb0 _]. congruence.
Qed.
End Walk.

(** ** Deferred work in general *)
Definition dead (m : cap_mem) (o : objp) : Prop :=
  exists h, m_objs m !! o = Some h /\ hdr_u32State h = GJ_OBJ_DEAD.
Definition queued (m : cap_mem) (o : objp) : Prop :=
  exists i qe, m_rq m !! i = Some qe /\ qe_u8Active qe = true /\ qe_pObj qe = Some o.

(** What deferred work may do: clear slots of dead objects, shorten chains,
    drop queue entries of objects that are not dead. *)
Record deferred (m m' : cap_mem) : Prop := Deferred {
  df_hygiene : hygiene (dead m) m m';
  df_locks : locks_same m m';
  df_chains : chains_le m m';
  df_pool : m_pool_used m' <= m_pool_used m;
  df_queue : forall i qe o, m_rq m !! i = Some qe -> qe_u8Active qe = true -> qe_pObj qe = Some o ->
    dead m o -> m_rq m' !! i = Some qe }.

Lemma df_queued m m' o : deferred m m' -> dead m o -> queued m o -> queued m' o.
Proof. intros [_ _ _ _ H] Hd (i & qe & E1 & E2 & E3). exists i, qe. split_and!; [by eapply H|done..]. Qed.

Lemma dead_hygiene P m m' o : hygiene P m m' -> dead m o <-> dead m' o.
Proof.
  intros [A _ _ _ _]. specialize (A o). unfold dead.
  destruct (m_objs m !! o) as [h|], (m_objs m' !! o) as [h'|]; simpl in A; try done.
  unfold hdr_core in A. injection A as E _ _ _. split; intros (x & [= <-] & Hx); eexists; (split; [done|]); congruence.
Qed.

#[export] Instance deferred_preorder : PreOrder deferred.
Proof.
  split; [by intros m; split; try done; lia|]. intros m1 m2 m3 [A1 A2 A3 A4 A5] [B1 B2 B3 B4 B5].
  split; [|by transitivity m2|by transitivity m2|lia|].
  - transitivity m2; [done|]. eapply hygiene_mono; [|done]. intros o. by apply (dead_hygiene _ _ _ _ A1).
  - intros i qe o Hi Ha Ho Hd. eapply B5; [by eapply A5|done..|]. by apply (dead_hygiene _ _ _ _ A1).
Qed.

Lemma deferred_walked m m' o :
  dead m o -> walked o m m' -> m_pool_used m' <= m_pool_used m -> deferred m m'.
Proof.
  intros Hd [A1 A2 (A3 & _) A4] Hp. split; try done.
  - eapply hygiene_mono; [|done]. by intros ? <-.
  - intros i qe o' Hi _ _ _. by rewrite A3.
Qed.

(** The law of the revoke-side inventory hook. *)
Class RevokeHook (rhook : capM unit) : Prop :=
  rhook_ok : forall m, wf m -> wp rhook (fun _ m' => wf m' /\ deferred m m') m.

#[export] Instance ret_rhook : RevokeHook (pret tt).
Proof. intros m H. by wsteps. Qed.

Section Batch.
Context (rhook : capM unit) `{!RevokeHook rhook}.
Implicit Types (m : cap_mem).

Lemma wp_rhook m (Q : unit -> cap_mem -> Prop) :
  wf m -> (forall m', wf m' -> deferred m m' -> Q tt m') -> wp rhook Q m.
Proof. intros H HQ. eapply wp_mono; [by apply rhook_ok|]. intros [] m' [? ?]. auto. Qed.

Lemma wp_once sF (c : capM unit) (Q : unit -> cap_mem -> Prop) m :
  (forall R : unit -> cap_mem -> Prop, R tt m -> wp c R m) -> Q tt m -> wp (once sF c) Q m.
Proof.
  intros Hc HQ. unfold once. apply wp_bind, wp_tel. intros t. case_match; wsteps; [by apply Hc|done].
Qed.

(** One walk batch: [r] slots cleared, [r] edges gone; with all locks free,
    as many as the budget allows. *)
Lemma wp_walk_batch m o h l max :
  wf m -> chain_at m o h l -> 0 <= max ->
  wp (gj_revoke_cdt_walk_batch rhook (Some o) max) (fun r m' =>
    wf m' /\ exists m1, walked o m m1 /\ wf m1 /\ deferred m1 m'
    /\ 0 <= r <= max /\ exists h1 l1, chain_at m1 o h1 l1
    /\ Z.of_nat (length l1) + r = Z.of_nat (length l) /\ m_pool_used m1 + r = m_pool_used m
    /\ (locks_free m -> max * 4 + 8 < 2 ^ 32 -> l1 = drop (Z.to_nat max) l)) m.
Proof.
  intros H Hch Hm. unfold gj_revoke_cdt_walk_batch. wsteps.
  destruct (Z.eqb_spec max 0) as [->|Hz].
  { wsteps. split; [done|]. exists m. split_and!; try done. exists h, l. split_and!; try done; lia. }
  wsteps. eapply wp_mono; [eapply wp_walk_passes; [done..|simpl; lia]|].
  intros a m1 (H1 & Hw & h1 & l1 & C1 & B1 & B2 & B3 & B4 & Bp & B5). simpl in *.
  wsteps. apply wp_when_tel; [intros; by apply wp_tick|]. wsteps.
  apply wp_when_tel; [intros; by apply wp_tick|]. wsteps. apply wp_tel. intros t. wsteps.
  apply wp_when_tel; [intros R m2 HR; apply wp_once; [intros; by apply wp_tick|done]|]. wsteps.
  assert (forall Q : unit -> cap_mem -> Prop, Q tt m1 -> wp (if wa_cleared a =? 0 then tick "g_u32SoftRetWalkZero"
    else tick "g_u32SoftRetWalkPos" ;;; tel_add_sat "g_u32SoftRetWalkSum" (wa_cleared a)) Q m1) as Ht
    by (intros; case_match; by wsteps).
  apply Ht. wsteps. apply wp_rhook; [done|]. intros m2 H2 Hd. wsteps.
  split; [done|]. exists m1. split_and!; try done; try lia. exists h1, l1. split_and!; try done; try lia.
  intros Hlf Hcap. rewrite B5; [do 2 f_equal; lia|done|done|]. unfold u32_wrap. rewrite Z.mod_small by lia. lia.
Qed.
End Batch.
