(* ===== verification/CapDefer.v ===== *)
(** The deferred queue, Phase A, the deferred driver and reclaim
    ([kernel/cap/revoke.c]): their specifications. *)
From stdpp Require Import base gmap list strings fin_maps.
From Stdlib Require Import ZArith Lia.
From S2P Require Import Prelude CapTypes CapEdges CapQuota CapCnode CapInv CapOps CapDerive CapRevoke CapWalk.

#[local] Arguments gj_revoke_cdt_walk_batch : simpl never.
#[local] Arguments revoke_q_push : simpl never.
#[local] Arguments q_push_scan : simpl never.
#[local] Arguments Z.add : simpl never.
#[local] Arguments Z.mul : simpl never.

(** ** The queue *)
Section Queue.
Implicit Types (m : cap_mem) (q : list gj_revoke_qent).

Lemma wf_set_rq X m q len cur : wf_gen X m -> rq_ok (set_rq q len cur m) -> wf_gen X (set_rq q len cur m).
Proof. intros [H1 H2 H3 H4 H5 H6] Hq. by split. Qed.

Lemma wp_pending m (Q : Z -> cap_mem -> Prop) :
  (forall n, Q n m) -> wp gj_revoke_deferred_pending Q m.
Proof. intros H. unfold gj_revoke_deferred_pending, soft_note_pending_peak. wsteps. apply H. Qed.

Lemma q_push_scan_none q i free o :
  q_push_scan q i free o = None ->
  exists j qe, q !! j = Some qe /\ qe_u8Active qe = true /\ qe_pObj qe = Some o.
Proof.
  revert i free. induction q as [|qe q IH]; intros i free; simpl; [done|].
  unfold q_push_scan; fold q_push_scan. destruct (qe_u8Active qe) eqn:Ea; [case_bool_decide|].
  - intros _. by exists 0%nat, qe.
  - intros Hs. destruct (IH _ _ Hs) as (j & qe' & ?). by exists (S j), qe'.
  - intros Hs. destruct (IH _ _ Hs) as (j & qe' & ?). by exists (S j), qe'.
Qed.

Lemma q_push_scan_some q i free o k :
  q_push_scan q i free o = Some k -> (i + length q <= GJ_REVOKE_Q_MAX)%nat ->
  (forall j qe, q !! j = Some qe -> qe_u8Active qe = true -> qe_pObj qe <> Some o)
  /\ (if bool_decide (free = GJ_REVOKE_Q_MAX) then
        (k = GJ_REVOKE_Q_MAX /\ forall j qe, q !! j = Some qe -> qe_u8Active qe = true)
        \/ (i <= k < i + length q)%nat /\ exists qe, q !! (k - i)%nat = Some qe /\ qe_u8Active qe = false
      else k = free).
Proof.
  revert i free. induction q as [|qe q IH]; intros i free; unfold q_push_scan; fold q_push_scan.
  { intros [= <-] _. split; [done|]. case_bool_decide; [by left|done]. }
  simpl. intros Hs Hlen. destruct (qe_u8Active qe) eqn:Ea; [case_bool_decide as Eo; [done|]|].
  - destruct (IH (S i) free Hs) as [H1 H2]; [lia|]. split.
    + intros [|j] qe'; simpl; [congruence|eauto].
    + case_bool_decide; [|done]. destruct H2 as [[-> H2]|[Hk (qe' & Hqe' & Hf)]].
      * left. split; [done|]. intros [|j] qe'; simpl; [congruence|eauto].
      * right. split; [lia|]. exists qe'. replace (k - i)%nat with (S (k - S i)) by lia. done.
  - destruct (IH (S i) _ Hs) as [H1 H2]; [lia|]. split.
    + intros [|j] qe'; simpl; [congruence|eauto].
    + destruct (bool_decide_reflect (free = GJ_REVOKE_Q_MAX)) as [Ef|Ef].
      * rewrite bool_decide_false in H2 by lia. subst k. right. split; [lia|]. exists qe.
        by rewrite Nat.sub_diag.
      * rewrite bool_decide_false in H2 by done. done.
Qed.

(** Every active entry stays where it is. *)
Definition rq_keep (m m' : cap_mem) : Prop :=
  forall j qe, m_rq m !! j = Some qe -> qe_u8Active qe = true -> m_rq m' !! j = Some qe.

Lemma rq_keep_queued m m' o : rq_keep m m' -> queued m o -> queued m' o.
Proof. intros H (j & qe & E1 & E2 & E3). exists j, qe. auto. Qed.

(** A push keeps the queue sound; the object is queued unless every entry is
    taken by another object. *)
Lemma wp_q_push m o :
  rq_ok m -> is_Some (m_objs m !! o) ->
  wp (revoke_q_push (Some o)) (fun r m' =>
    (exists q len, m' = set_rq q len (m_rqcur m) m) /\ rq_ok m'
    /\ rq_keep m m'
    /\ ((r = 0 /\ queued m' o)
        \/ (r = -1 /\ m' = m /\ ~ queued m o /\ forall j qe, m_rq m !! j = Some qe -> qe_u8Active qe = true))) m.
Proof.
  intros Hq Ho. unfold revoke_q_push. wsteps.
  pose proof Hq as (Hlen & Hb & Hcur & Hact & Hinj).
  assert (m = set_rq (m_rq m) (m_rqlen m) (m_rqcur m) m) as Hself by (by destruct m).
  destruct (q_push_scan _ _ _ _) as [k|] eqn:Es.
  2:{ wsteps. destruct (q_push_scan_none _ _ _ _ Es) as (j & qe & Hj). split_and!; try done; [eauto|by intros ? ?|].
      left. split; [done|]. by exists j, qe. }
  destruct (q_push_scan_some _ _ _ _ _ Es) as [Hno Hk]; [lia|]. rewrite bool_decide_true in Hk by done.
  case_bool_decide as Hfull.
  - wsteps. destruct Hk as [[_ Hall]|[Hk _]]; [|lia]. split_and!; try done; [eauto|by intros ? ?|]. right. split_and!; try done.
    intros (j & qe & E1 & E2 & E3). by eapply Hno.
  - destruct Hk as [[-> _]|[Hk (qe0 & Hqe0 & Hin0)]]; [lia|]. rewrite Nat.sub_0_r in Hqe0.
    wsteps. apply wp_pending. intros n. unfold soft_note_pending_peak. wsteps.
    set (q' := <[k := _]> (m_rq m)). set (len' := if m_rqlen m <=? Z.of_nat k then Z.of_nat k + 1 else m_rqlen m).
    assert (m_rqlen m <= len' /\ Z.of_nat k < len' <= Z.of_nat GJ_REVOKE_Q_MAX) as [Hl1 Hl2]
      by (unfold len'; destruct (Z.leb_spec (m_rqlen m) (Z.of_nat k)); lia).
    assert (q' !! k = Some (RevokeQent (Some o) true)) as Hk' by (apply list_lookup_insert_eq; lia).
    split_and!; [by exists q', len'| | |left; split; [done|]; by exists k, (RevokeQent (Some o) true)].
    + unfold rq_ok. simpl. unfold q' at 1. rewrite length_insert. split_and!; try done; try lia.
      * intros i qe Hi Ha. destruct (decide (i = k)) as [->|Hne].
        -- rewrite Hk' in Hi. injection Hi as <-. split; [lia|]. eauto.
        -- unfold q' in Hi. rewrite list_lookup_insert_ne in Hi by done. destruct (Hact i qe Hi Ha). split; [lia|done].
      * assert (forall j qj, j <> k -> q' !! j = Some qj -> m_rq m !! j = Some qj) as Hother
          by (intros j qj Hne Hj; unfold q' in Hj; by rewrite list_lookup_insert_ne in Hj).
        intros i j qi qj Hi Hj Ai Aj E. destruct (decide (i = k)) as [->|Hik], (decide (j = k)) as [->|Hjk]; [done| | |].
        -- rewrite Hk' in Hi. injection Hi as <-. simpl in E. destruct (Hno j qj); auto.
        -- rewrite Hk' in Hj. injection Hj as <-. simpl in E. destruct (Hno i qi); auto.
        -- apply (Hinj i j qi qj); auto.
    + intros j qe E1 E2. simpl. unfold q'. rewrite list_lookup_insert_ne; [done|]. intros ->. congruence.
Qed.

Lemma q_trim_le q n : (q_trim q n <= n)%nat.
Proof. induction n as [|n IH]; simpl; [lia|]. repeat case_match; lia. Qed.

Lemma q_trim_active q n i qe :
  q !! i = Some qe -> qe_u8Active qe = true -> (i < n)%nat -> (i < q_trim q n)%nat.
Proof.
  intros Hi Ha. induction n as [|n IH]; intros Hn; simpl; [lia|].
  destruct (decide (i = n)) as [->|Hne]; [rewrite Hi, Ha; lia|].
  repeat case_match; try (apply IH; lia). lia.
Qed.

Lemma wp_q_drop m i qe :
  rq_ok m -> 0 <= i -> m_rq m !! Z.to_nat i = Some qe ->
  wp (revoke_q_drop i) (fun _ m' =>
    (exists q len, m' = set_rq q len (m_rqcur m) m) /\ rq_ok m' /\ m_rqlen m' <= m_rqlen m
    /\ m_rq m' = <[Z.to_nat i := RevokeQent None false]> (m_rq m)) m.
Proof.
  intros (Hlen & Hb & Hcur & Hact & Hinj) Hi0 Hi. pose proof (lookup_lt_Some _ _ _ Hi) as Hlt.
  unfold revoke_q_drop. rewrite (proj2 (Z.leb_gt _ _)) by lia. wsteps.
  set (q' := <[Z.to_nat i := _]> (m_rq m)).
  assert (forall j qj, q' !! j = Some qj -> qe_u8Active qj = true -> m_rq m !! j = Some qj) as Hsub.
  { intros j qj Hj Ha. unfold q' in Hj. rewrite list_lookup_insert in Hj.
    case_decide; simplify_eq; done. }
  assert (forall len', 0 <= len' <= m_rqlen m ->
    (forall j qj, q' !! j = Some qj -> qe_u8Active qj = true -> Z.of_nat j < len') ->
    rq_ok (set_rq q' len' (m_rqcur m) m)) as Hok.
  { intros len' Hl Hin. unfold rq_ok. simpl. unfold q' at 1. rewrite length_insert. split_and!; try done; try lia.
    - intros j qj Hj Ha. split; [by eapply Hin|]. by destruct (Hact j qj (Hsub _ _ Hj Ha) Ha).
    - intros j1 j2 q1 q2 H1 H2 A1 A2. apply Hinj; auto. }
  destruct (Z.eqb_spec (m_rqlen m) 0) as [Hz|Hz]; wsteps.
  - split_and!; [by exists q', (m_rqlen m)| |simpl; lia|done]. apply Hok; [lia|].
    intros j qj Hj Ha. by destruct (Hact j qj (Hsub _ _ Hj Ha) Ha).
  - pose proof (q_trim_le q' (Z.to_nat (m_rqlen m))). split_and!; [by eexists q', _| |simpl; lia|done].
    apply Hok; [simpl; lia|]. intros j qj Hj Ha. simpl.
    destruct (Hact j qj (Hsub _ _ Hj Ha) Ha). apply Nat2Z.inj_lt. eapply q_trim_active; [done..|lia].
Qed.

Lemma wp_q_load m i (Q : gj_revoke_qent -> cap_mem -> Prop) qe :
  0 <= i -> m_rq m !! Z.to_nat i = Some qe -> Q qe m -> wp (q_load i) Q m.
Proof.
  intros Hi E HQ. unfold q_load. wsteps. rewrite (proj2 (Z.leb_le _ _)) by done. by eapply wp_of_option.
Qed.
End Queue.

(** ** Phase A *)
Section Begin.
Context (rhook : capM unit) `{!RevokeHook rhook}.
Implicit Types (m : cap_mem).

Lemma set_objs_twice o h1 h2 m :
  set_objs (<[o := h2]>) (set_objs (<[o := h1]>) m) = set_objs (<[o := h2]>) m.
Proof. unfold set_objs. simpl. by rewrite insert_insert_eq. Qed.

(** The header after Phase A. *)
Definition dead_hdr (h : gj_obj_hdr) : gj_obj_hdr :=
  hdr_set_gen (hdr_set_state h GJ_OBJ_DEAD) (u32_wrap (hdr_u32Gen h + 1)).

(** Phase A: the object is dead with a new generation; only its header and
    the queue have changed. *)
Definition killed (o : objp) (m m' : cap_mem) : Prop :=
  exists h q len, m_objs m !! o = Some h /\ hdr_u32State h = GJ_OBJ_LIVE
    /\ m' = set_rq q len (m_rqcur m) (set_objs (<[o := dead_hdr h]>) m)
    /\ rq_keep m m' /\ wf m'.

Lemma wp_begin m o h :
  wf m -> m_objs m !! o = Some h ->
  wp (gj_obj_revoke_begin rhook (Some o)) (fun st m' => wf m' /\
    if hdr_u32State h =? GJ_OBJ_LIVE then
      exists m1, killed o m m1 /\ deferred m1 m' /\
        ((st = GJ_OK /\ queued m' o)
         \/ (st = GJ_ERR_AGAIN /\ ~ queued m o
             /\ forall j qe, m_rq m !! j = Some qe -> qe_u8Active qe = true))
    else m' = m /\ st = (if (hdr_u32State h =? GJ_OBJ_DEAD) || (hdr_u32State h =? GJ_OBJ_REVOKING)
                         then GJ_ERR_DEAD else GJ_ERR_BUSY)) m.
Proof.
  intros H Eo. unfold gj_obj_revoke_begin. wsteps.
  destruct (Z.eqb_spec (hdr_u32State h) GJ_OBJ_LIVE) as [Hl|Hl]; simpl.
  2:{ destruct (_ || _); by wsteps. }
  wsteps. eapply wp_obj_load; [apply lookup_insert_eq|]. wsteps.
  eapply wp_obj_store; [apply lookup_insert_eq|]. rewrite set_objs_twice.
  wsteps. eapply wp_obj_load; [apply lookup_insert_eq|]. wsteps.
  eapply wp_obj_store; [apply lookup_insert_eq|]. rewrite set_objs_twice.
  change (hdr_set_gen _ _) with (dead_hdr h). set (m1 := set_objs (<[o := dead_hdr h]>) m).
  assert (wf m1) as H1 by (by eapply wf_set_hdr).
  assert (m_objs m1 !! o = Some (dead_hdr h)) as Eo1 by apply lookup_insert_eq.
  wsteps. eapply wp_mono; [apply wp_q_push; [apply H1|eauto]|].
  intros r m2 ((q & len & E2) & Hq2 & Hkeep & Hres).
  assert (wf m2) as H2 by (rewrite E2 in Hq2 |- *; by apply wf_set_rq).
  assert (killed o m m2) as Hk by (exists h, q, len; done).
  assert (dead m2 o) as Hd2 by (exists (dead_hdr h); by rewrite E2).
  destruct Hres as [[-> Hqd]|(-> & _ & Hnq & Hall)]; simpl; wsteps.
  - apply wp_tel. intros t. wsteps.
    assert (forall Q : unit -> cap_mem -> Prop, Q tt m2 ->
      wp (if tel_val t "g_u32SoftBeginOk" =? 1 then gj_revoke_deferred_pending ;;; pret tt else pret tt) Q m2) as Ht.
    { intros Q HQ. case_match; wsteps; [|done]. apply wp_pending. intros n. by wsteps. }
    apply Ht. wsteps. apply wp_rhook; [done..|]. intros m3 H3 Hdf. wsteps.
    split; [done|]. exists m2. split_and!; try done. left. split; [done|]. by eapply df_queued.
  - apply wp_rhook; [done..|]. intros m3 H3 Hdf. wsteps.
    split; [done|]. exists m2. split_and!; try done. right. done.
Qed.
End Begin.

(** ** The deferred driver *)
Section Driver.
Context (rhook : capM unit) `{!RevokeHook rhook}.
Implicit Types (m : cap_mem).

Lemma set_rq_same m q len v :
  hygiene (dead m) m (set_rq q len v m) /\ chains_le m (set_rq q len v m).
Proof.
  split; [split; eauto; intros x; simpl; by destruct (m_quotas m !! x); constructor|].
  intros o h l C. by exists h, l.
Qed.

Lemma deferred_cursor m v : deferred m (set_rq (m_rq m) (m_rqlen m) v m).
Proof. destruct (set_rq_same m (m_rq m) (m_rqlen m) v). by split. Qed.

Lemma wf_cursor m v : wf m -> 0 <= v -> wf (set_rq (m_rq m) (m_rqlen m) v m).
Proof.
  intros H Hv. apply wf_set_rq; [done|]. destruct (wf_queue _ _ H) as (A1 & A2 & A3 & A4 & A5).
  unfold rq_ok. simpl. split_and!; done || lia.
Qed.

(** Dropping the entry of an object that is not dead. *)
Lemma deferred_drop m m' i qe :
  (exists q len, m' = set_rq q len (m_rqcur m) m) ->
  m_rq m !! i = Some qe -> m_rq m' = <[i := RevokeQent None false]> (m_rq m) ->
  (forall o, qe_u8Active qe = true -> qe_pObj qe = Some o -> ~ dead m o) -> deferred m m'.
Proof.
  intros (q & len & E) Hi Hrq Hnd. subst m'. destruct (set_rq_same m q len (m_rqcur m)). split; try done.
  - simpl in *. intros j qj o Hj Ha Ho Hd. rewrite Hrq. rewrite list_lookup_insert_ne; [done|]. intros <-.
    rewrite Hi in Hj. injection Hj as <-. by eapply Hnd.
Qed.

Lemma wp_gap m o i limit :
  wf m -> is_Some (m_objs m !! o) -> 0 < limit ->
  wp (deferred_gap o i limit) (fun _ m' => wf m' /\ deferred m m') m.
Proof.
  intros H [h Eh] Hl. unfold deferred_gap. wsteps. case_match; [|by wsteps]. wsteps.
  apply wp_once; [intros R HR; apply wp_bind, wp_pending; intros; by wsteps|]. unfold set_cursor. wsteps.
  split; [apply wf_cursor; [done|]|apply deferred_cursor]. apply Z.mod_pos_bound. lia.
Qed.

(** Under this condition a batch never runs out of budget. *)
Definition walk_budget (m : cap_mem) (max cl : Z) : Prop :=
  locks_free m /\ max * 4 + 8 < 2 ^ 32 /\ m_pool_used m + cl <= max.

Lemma chain_empty_le m m' o : 
  (exists h, chain_at m o h []) -> chains_le m m' -> exists h, chain_at m' o h [].
Proof.
  intros [h Hc] Hle. destruct (Hle o h [] Hc) as (h' & l' & Hc' & Hlen). exists h'.
  destruct l'; [done|simpl in Hlen; lia].
Qed.

(** A walk batch as the driver uses it. *)
Lemma wp_batch_driver m o max cl :
  wf m -> dead m o -> 0 <= cl <= max ->
  wp (gj_revoke_cdt_walk_batch rhook (Some o) (max - cl)) (fun r m' =>
    wf m' /\ deferred m m' /\ 0 <= r <= max - cl /\ m_pool_used m' + r <= m_pool_used m
    /\ (walk_budget m max cl -> exists h', chain_at m' o h' [])) m.
Proof.
  intros H Hd Hc. pose proof Hd as (h & Eh & _). destruct (wf_chain _ _ _ _ H Eh) as (l & Hch & _).
  eapply wp_mono; [eapply wp_walk_batch; [done..|lia]|].
  intros r m' (H' & m1 & Hw & H1 & Hdf & Hr & h1 & l1 & C1 & L1 & P1 & F1).
  split; [done|]. split; [transitivity m1; [|done]; eapply deferred_walked; [done..|lia]|].
  split; [done|]. split; [destruct Hdf; lia|]. intros (Hlf & Hov & Hb).
  eapply chain_empty_le; [|apply Hdf]. exists h1. rewrite F1 in C1; [|done|lia].
  pose proof (chain_le_used m o h l (wf_pool _ _ H) Hch). by rewrite drop_ge in C1 by lia.
Qed.

Lemma wp_deferred_walk m o i limit max cl :
  wf m -> dead m o -> 0 < limit -> 0 <= cl <= max ->
  wp (deferred_walk rhook o i limit max cl) (fun r m' =>
    wf m' /\ deferred m m' /\ cl <= fst r <= max /\ m_pool_used m' + fst r <= m_pool_used m + cl
    /\ (walk_budget m max cl -> exists h', chain_at m' o h' [])) m.
Proof.
  intros H Hd Hlim Hc. unfold deferred_walk. wsteps.
  eapply wp_mono; [by apply wp_batch_driver|]. intros r1 m1 (H1 & D1 & R1 & P1 & F1).
  assert (dead m1 o) as Hd1 by (by apply (dead_hygiene _ _ _ _ (df_hygiene _ _ D1))).
  pose proof Hd1 as (h1 & Eh1 & _). wsteps.
  assert (forall Q : Z -> cap_mem -> Prop,
    (forall cl2 m2, wf m2 -> deferred m m2 -> cl <= cl2 <= max -> m_pool_used m2 + cl2 <= m_pool_used m + cl ->
       (walk_budget m max cl -> exists h', chain_at m2 o h' []) -> Q cl2 m2) ->
    wp (if negb (bool_decide (hdr_pCdtHead h1 = None)) && (cl + r1 <? max) then
       tick "g_u32SoftDefWalkCall" ;;; tick "g_u32SoftR2OuterPush" ;;;
       u32Push <- gj_revoke_cdt_walk_batch rhook (Some o) (max - (cl + r1)) ;;
       when (0 <? u32Push) (tick_wrap "g_u32R2Retries") ;;; pret (cl + r1 + u32Push)
     else pret (cl + r1)) Q m1) as Hsecond.
  { intros Q HQ. case_match; wsteps; [|apply HQ; try done; lia].
    eapply wp_mono; [apply wp_batch_driver; [done..|lia]|]. intros r2 m2 (H2 & D2 & R2 & P2 & F2). wsteps.
    apply wp_when_tel; [intros; by apply wp_tick_wrap|]. wsteps. apply HQ; try done; try lia.
    - by transitivity m1.
    - intros Hb. eapply chain_empty_le; [by apply F1|apply D2]. }
  apply Hsecond. clear Hsecond. intros cl2 m2 H2 D2 R2 P2 F2. unfold set_cursor. wsteps.
  set (m3 := set_rq _ _ _ m2).
  assert (wf m3) as H3 by (apply wf_cursor; [done|]; apply Z.mod_pos_bound; lia).
  assert (deferred m m3) as D3 by (transitivity m2; [done|apply deferred_cursor]).
  assert (dead m3 o) as (h3 & Eh3 & _) by (by apply (dead_hygiene _ _ _ _ (df_hygiene _ _ D3))).
  eapply wp_obj_load; [exact Eh3|]. 
  case_match; [wsteps; split_and!; try done; simpl; lia|].
  case_match; wsteps; [apply wp_once; [intros; by apply wp_tick|]; wsteps|]; split_and!; try done; simpl; lia.
Qed.

(** Every dead object with an active entry among rounds [k .. k + n - 1] has
    an empty chain in [m']. *)
Definition drained (limit start : Z) (k : Z) (n : nat) (m m' : cap_mem) : Prop :=
  forall j qe o, k <= j < k + Z.of_nat n ->
    m_rq m !! Z.to_nat ((start + j) mod limit) = Some qe -> qe_u8Active qe = true -> qe_pObj qe = Some o ->
    dead m o -> exists h', chain_at m' o h' [].

Lemma drained_cons limit start k n m m1 m' :
  deferred m m1 -> deferred m1 m' -> drained limit start (k + 1) n m1 m' ->
  (forall qe o, m_rq m !! Z.to_nat ((start + k) mod limit) = Some qe -> qe_u8Active qe = true ->
     qe_pObj qe = Some o -> dead m o -> exists h1, chain_at m1 o h1 []) ->
  drained limit start k (S n) m m'.
Proof.
  intros D1 D' Hd Hk j qe o Hj Eq Ha Ho Hdead. destruct (decide (j = k)) as [->|Hne].
  - eapply chain_empty_le; [by eapply Hk|apply D'].
  - eapply (Hd j qe o); [lia|by eapply (df_queue _ _ D1)|done..|].
    by apply (dead_hygiene _ _ _ _ (df_hygiene _ _ D1)).
Qed.

Lemma walk_budget_step m m1 max cl r :
  deferred m m1 -> m_pool_used m1 + r <= m_pool_used m + cl -> walk_budget m max cl -> walk_budget m1 max r.
Proof.
  intros D P (A & B & C). split_and!; [|done|lia]. eapply locks_free_same; [apply D|done].
Qed.

Lemma wp_deferred_loop limit start max : forall n m k cl,
  wf m -> 0 < limit <= Z.of_nat GJ_REVOKE_Q_MAX -> 0 <= cl <= max ->
  wp (deferred_loop rhook n limit start max k cl) (fun r m' =>
    wf m' /\ deferred m m' /\ cl <= r <= max
    /\ (walk_budget m max cl -> drained limit start k n m m')) m.
Proof.
  induction n as [|n IH]; intros m k cl H Hlim Hc; simpl.
  { wsteps. split_and!; try done; try lia. intros _ j qe o Hj. lia. }
  destruct (Z.ltb_spec cl max) as [Hlt|Hge]; simpl.
  2:{ wsteps. split_and!; try done; try lia. intros (_ & _ & Hb) j qe o _ _ _ _ (h & Eh & _).
      destruct (wf_chain _ _ _ _ H Eh) as (l & Hch & _). exists h.
      pose proof (chain_le_used m o h l (wf_pool _ _ H) Hch). destruct l; [done|simpl in *; lia]. }
  set (iEnt := (start + k) mod limit). pose proof (Z.mod_pos_bound (start + k) limit) as Hi. fold iEnt in Hi.
  pose proof (wf_queue _ _ H) as (Hlen & _ & _ & Hact & _).
  destruct (lookup_lt_is_Some_2 (m_rq m) (Z.to_nat iEnt)) as [qe Eqe]; [lia|].
  wsteps. apply wp_q_load with (qe := qe); [lia|done|].
  (* one round followed by the rest *)
  assert (forall m1 r1, wf m1 -> deferred m m1 -> cl <= r1 <= max ->
    m_pool_used m1 + r1 <= m_pool_used m + cl ->
    (walk_budget m max cl -> forall o, qe_u8Active qe = true -> qe_pObj qe = Some o -> dead m o ->
       exists h1, chain_at m1 o h1 []) ->
    wp (deferred_loop rhook n limit start max (k + 1) r1) (fun r m' =>
      wf m' /\ deferred m m' /\ cl <= r <= max
      /\ (walk_budget m max cl -> drained limit start k (S n) m m')) m1) as Hcont.
  { intros m1 r1 H1 D1 R1 P1 F1. eapply wp_mono; [apply IH; [done..|lia]|].
    intros r m' (H' & D' & R' & F'). split_and!; try done; try lia; [by transitivity m1|].
    intros Hb. eapply drained_cons; [done|done|apply F'; by eapply walk_budget_step|].
    intros qe' o E. fold iEnt in E. rewrite Eqe in E. injection E as <-. auto. }
  assert (forall m1, (exists q len, m1 = set_rq q len (m_rqcur m) m) -> m_pool_used m1 + cl <= m_pool_used m + cl) as Hpu
    by (intros m1 (? & ? & ->); simpl; lia).
  destruct (qe_u8Active qe) eqn:Ea; simpl; [|apply Hcont; try done; lia].
  destruct (Hact _ _ Eqe Ea) as (_ & o & Eo & h & Eh). rewrite Eo. wsteps.
  destruct (Z.eqb_spec (hdr_u32State h) GJ_OBJ_DEAD) as [Hd|Hd]; simpl; wsteps.
  2:{ eapply wp_mono; [apply (wp_q_drop m iEnt qe); [apply H|lia|done]|]. intros [] m1 (Hex & Hq & _ & Erq).
      assert (forall o', true = true -> qe_pObj qe = Some o' -> ~ dead m o') as Hnd.
      { intros o' _ Eo' (h' & Eh' & Hd'). simplify_eq. }
      apply Hcont.
      - destruct Hex as (q & len & ->). by apply wf_set_rq.
      - eapply deferred_drop; [done|exact Eqe|done|]. by rewrite Ea.
      - lia.
      - by apply Hpu.
      - intros _ o' _ Eo' Hd'. by destruct (Hnd o'). }
  assert (dead m o) as Hdo by (by exists h).
  destruct (wf_chain _ _ _ _ H Eh) as (l & Hch & _).
  assert (hdr_pCdtHead h = None -> exists h1, chain_at m o h1 []) as Hempty.
  { intros E. exists h. destruct Hch as (E1 & I1 & N1 & U1). rewrite E in I1.
    destruct l; [done|destruct I1 as [? _]; done]. }
  assert (forall o', qe_pObj qe = Some o' -> o' = o) as Hsame by (intros o' E; congruence).
  destruct (_ && _) eqn:Edone; wsteps.
  { apply andb_true_iff in Edone as [_ Ehd%bool_decide_eq_true]. apply Hcont; try done; try lia.
    intros _ o' _ Eo' _. rewrite (Hsame o' Eo'). auto. }
  case_bool_decide as Ehd; simpl; wsteps.
  - eapply wp_mono; [apply (wp_gap m o); [done|eauto|lia]|]. intros [] m1 [H1 D1].
    apply Hcont; try done; try lia; [pose proof (df_pool _ _ D1); lia|].
    intros _ o' _ Eo' _. rewrite (Hsame o' Eo'). eapply chain_empty_le; [auto|apply D1].
  - eapply wp_mono; [by apply wp_deferred_walk; [..|lia|]|]. intros [r1 b] m1 (H1 & D1 & R1 & P1 & F1). simpl in *.
    assert (dead m1 o) as (h1 & Eh1 & _) by (by apply (dead_hygiene _ _ _ _ (df_hygiene _ _ D1))).
    destruct b; wsteps.
    + eapply wp_mono; [apply (wp_gap m1 o); [done|eauto|lia]|]. intros [] m2 [H2 D2].
      apply Hcont; try done; [by transitivity m1|pose proof (df_pool _ _ D2); lia|].
      intros Hb o' _ Eo' _. rewrite (Hsame o' Eo'). eapply chain_empty_le; [by apply F1|apply D2].
    + apply Hcont; try done. intros Hb o' _ Eo' _. rewrite (Hsame o' Eo'). auto.
Qed.

(** [gj_revoke_process_deferred]: bounded hygiene; with all locks free and a
    budget of at least the pool size, every dead queued object ends with an
    empty chain. *)
Lemma wp_process_deferred m max :
  wf m -> 0 <= max ->
  wp (gj_revoke_process_deferred rhook max) (fun r m' =>
    wf m' /\ deferred m m' /\ 0 <= r <= max
    /\ (locks_free m -> Z.of_nat GJ_CDT_EDGE_POOL <= max -> max * 4 + 8 < 2 ^ 32 ->
        forall o, queued m o -> dead m o -> exists h, chain_at m' o h [])) m.
Proof.
  intros H Hm. unfold gj_revoke_process_deferred. wsteps.
  destruct (Z.eqb_spec max 0) as [->|Hz]; [wsteps; split_and!; try done; lia|]. wsteps.
  pose proof (wf_queue _ _ H) as (Hlen & Hb & Hcur & Hact & _).
  rewrite (proj2 (Z.ltb_ge _ _)) by lia.
  destruct (Z.eqb_spec (m_rqlen m) 0) as [Hz'|Hz'].
  { wsteps. split_and!; try done. intros _ _ _ o (i & qe & E1 & E2 & E3). destruct (Hact i qe E1 E2). lia. }
  wsteps. eapply wp_mono; [apply wp_deferred_loop; [done|lia|lia]|].
  intros r m1 (H1 & D1 & R1 & F1). wsteps.
  assert (forall Q : unit -> cap_mem -> Prop, Q tt m1 -> wp (if r =? 0 then tick "g_u32SoftRetDefZero"
    else tick "g_u32SoftRetDefPos" ;;; tel_add_sat "g_u32SoftRetDefSum" r) Q m1) as Ht
    by (intros; case_match; by wsteps).
  apply Ht. wsteps. apply wp_rhook; [done..|]. intros m2 H2 D2. wsteps.
  split_and!; try done; try lia; [by transitivity m1|].
  intros Hlf Hbig Hov o (i & qe & E1 & E2 & E3) Hd. eapply chain_empty_le; [|apply D2].
  destruct (Hact i qe E1 E2) as [Hi _]. set (start := m_rqcur m mod m_rqlen m) in *.
  pose proof (Z.mod_pos_bound (m_rqcur m) (m_rqlen m)) as Hst. fold start in Hst.
  pose proof (wf_pool _ _ H) as (_ & Hul & Hpu & _). pose proof (used_count_le (m_used m)).
  eapply (F1 ltac:(split_and!; [done|done|lia]) ((Z.of_nat i - start) mod m_rqlen m) qe o); try done.
  - pose proof (Z.mod_pos_bound (Z.of_nat i - start) (m_rqlen m)). lia.
  - rewrite Zplus_mod_idemp_r. replace (start + (Z.of_nat i - start)) with (Z.of_nat i) by lia.
    rewrite Z.mod_small by lia. by rewrite Nat2Z.id.
Qed.
End Driver.

(** ** Reclaim *)
Section Reclaim.
Context (rhook : capM unit) `{!RevokeHook rhook}.
Implicit Types (m : cap_mem).

Definition reclaimable (h : gj_obj_hdr) : bool :=
  (hdr_u32State h =? GJ_OBJ_DEAD) && (hdr_u32SlotsLeft h =? 0) && bool_decide (hdr_pCdtHead h = None)
  && (hdr_u32Ref h =? 0) && (hdr_u32Pin h =? 0).

Lemma wp_reclaim_ready m o h :
  m_objs m !! o = Some h ->
  wp (gj_obj_reclaim_ready (Some o)) (fun b m' => b = reclaimable h /\ m' = m) m.
Proof.
  intros E. unfold gj_obj_reclaim_ready, reclaimable. wsteps.
  destruct (hdr_u32State h =? GJ_OBJ_DEAD), (hdr_u32SlotsLeft h =? 0), (bool_decide (hdr_pCdtHead h = None)),
    (hdr_u32Ref h =? 0), (hdr_u32Pin h =? 0); simpl; by wsteps.
Qed.

Lemma wp_reclaim_drop_loop o : forall n m i,
  rq_ok m -> (Z.to_nat i + n = GJ_REVOKE_Q_MAX)%nat -> 0 <= i ->
  wp (reclaim_drop_loop n i o) (fun _ m' =>
    (exists q len, m' = set_rq q len (m_rqcur m) m) /\ rq_ok m'
    /\ (forall j qe, m_rq m' !! j = Some qe -> qe_u8Active qe = true ->
          m_rq m !! j = Some qe /\ ((Z.to_nat i <= j)%nat -> qe_pObj qe <> Some o))
    /\ (forall j qe, m_rq m !! j = Some qe -> qe_pObj qe <> Some o -> m_rq m' !! j = Some qe)) m.
Proof.
  induction n as [|n IH]; intros m i Hq Hn Hi; cbn [reclaim_drop_loop].
  { wsteps. split_and!; try done.
    - exists (m_rq m), (m_rqlen m). by destruct m.
    - intros j qe Hj _. split; [done|]. intros Hle. apply lookup_lt_Some in Hj.
      destruct Hq as [Hlen _]. lia. }
  pose proof Hq as (Hlen & _). destruct (lookup_lt_is_Some_2 (m_rq m) (Z.to_nat i)) as [qe Eqe]; [lia|].
  wsteps. apply wp_q_load with (qe := qe); [done..|].
  assert (forall m1, (exists q len, m1 = set_rq q len (m_rqcur m) m) -> rq_ok m1 ->
    (forall j qj, m_rq m1 !! j = Some qj -> qe_u8Active qj = true ->
       m_rq m !! j = Some qj /\ (j = Z.to_nat i -> qe_pObj qj <> Some o)) ->
    (forall j qj, m_rq m !! j = Some qj -> qe_pObj qj <> Some o -> m_rq m1 !! j = Some qj) ->
    wp (reclaim_drop_loop n (i + 1) o) (fun _ m' =>
    (exists q len, m' = set_rq q len (m_rqcur m) m) /\ rq_ok m'
    /\ (forall j qe, m_rq m' !! j = Some qe -> qe_u8Active qe = true ->
          m_rq m !! j = Some qe /\ ((Z.to_nat i <= j)%nat -> qe_pObj qe <> Some o))
    /\ (forall j qe, m_rq m !! j = Some qe -> qe_pObj qe <> Some o -> m_rq m' !! j = Some qe)) m1) as Hcont.
  { intros m1 (q1 & len1 & E1) Hq1 Ha Hb. eapply wp_mono; [apply IH; [done|lia|lia]|].
    intros [] m' ((q2 & len2 & E2) & Hq2 & Hc & Hd). split_and!; [|done| |auto].
    - exists q2, len2. by rewrite E2, E1.
    - intros j qj Hj Haj. destruct (Hc j qj Hj Haj) as [Hj1 Hno]. destruct (Ha j qj Hj1 Haj) as [Hj0 Hno'].
      split; [done|]. intros Hle. destruct (decide (j = Z.to_nat i)); [auto|]. apply Hno. lia. }
  destruct (_ && _) eqn:Eb; wsteps.
  - apply andb_true_iff in Eb as [Ea Eo%bool_decide_eq_true].
    eapply wp_mono; [apply (wp_q_drop m i qe); done|]. intros [] m1 (Hex & Hq1 & _ & Erq). apply Hcont; try done.
    + intros j qj Hj Haj. rewrite Erq, list_lookup_insert in Hj. case_decide as Ec.
      * injection Hj as <-. done.
      * split; [done|]. intros ->. destruct Ec. split; [done|lia].
    + intros j qj Hj Hne. rewrite Erq, list_lookup_insert_ne; [done|]. intros <-. congruence.
  - apply Hcont; try done.
    + exists (m_rq m), (m_rqlen m). by destruct m.
    + intros j qj Hj Haj. split; [done|]. intros -> Ho. rewrite Eqe in Hj. injection Hj as <-.
      rewrite Haj, bool_decide_true in Eb; done.
Qed.

#[local] Arguments reclaim_drop_loop : simpl never.

Lemma wp_reclaim m o h :
  wf m -> m_objs m !! o = Some h ->
  wp (gj_obj_reclaim rhook (Some o)) (fun st m' => wf m' /\
    if reclaimable h then
      st = GJ_OK /\ exists m1 q len, m1 = set_rq q len (m_rqcur m) m /\ ~ queued m1 o
        /\ (forall j qe, m_rq m !! j = Some qe -> qe_pObj qe <> Some o -> m_rq m1 !! j = Some qe)
        /\ wf m1 /\ deferred m1 m'
    else st = GJ_ERR_BUSY /\ m' = m) m.
Proof.
  intros H Eo. unfold gj_obj_reclaim. wsteps.
  eapply wp_mono; [by apply wp_reclaim_ready|]. intros b m0 [-> ->].
  destruct (reclaimable h); simpl; [|by wsteps]. wsteps.
  eapply wp_mono; [apply (wp_reclaim_drop_loop o _ m 0); [apply H|done|done]|].
  intros [] m1 ((q & len & E1) & Hq1 & Ha & Hb).
  assert (wf m1) as H1 by (rewrite E1 in Hq1 |- *; by apply wf_set_rq).
  wsteps. apply wp_rhook; [done..|]. intros m2 H2 D2. wsteps. split; [done|]. split; [done|].
  exists m1, q, len. split_and!; try done.
  intros (j & qe & X1 & X2 & X3). destruct (Ha j qe X1 X2) as [_ Hno]. apply Hno; [lia|done].
Qed.
End Reclaim.
