(* ===== verification/CapSystem.v ===== *)
(** The capability system as a whole: the abstract view of a state, the native
    system calls, and the steps of the system. *)
From stdpp Require Import base gmap list strings fin_maps.
From Stdlib Require Import ZArith Lia.
From S2P Require Import Prelude CapTypes CapEdges CapQuota CapCnode CapInv CapOps CapDerive CapRevoke CapWalk CapDefer.

(** * The client's view of the capability memory: which handles are valid and
    what they denote.

    [cap_view m c i g] is the capability that handle [(i, g)] of CNode [c]
    denotes, [None] when the handle is not valid.  It is the abstraction
    function of the refinement of the next file; here each concrete effect is
    translated to an effect on the view. *)

(** A capability as its holder sees it. *)
Record acap : Type := ACap { ac_obj : objp; ac_type : Z; ac_rights : Z }.

#[export] Instance acap_eq_dec : EqDecision acap.
Proof. solve_decision. Defined.

(** The object is live. *)
Definition obj_live (m : cap_mem) (o : objp) : bool :=
  match m_objs m !! o with Some h => hdr_u32State h =? GJ_OBJ_LIVE | None => false end.

Definition obj_gen_is (m : cap_mem) (o : objp) (g : Z) : bool :=
  match m_objs m !! o with Some h => hdr_u32Gen h =? g | None => false end.

(** What slot [s] grants through generation [g]. *)
Definition slot_view (m : cap_mem) (g : Z) (s : gj_cap_slot) : option acap :=
  if negb (slot_u16Type s =? GJ_CAP_INVALID) && (slot_u32Gen s =? g) && negb (g =? 0) then
    match slot_pObj s with
    | Some o => if obj_live m o && obj_gen_is m o (slot_u32ObjGen s)
                then Some (ACap o (slot_u16Type s) (slot_u16Rights s)) else None
    | None => None
    end
  else None.

Definition cap_view (m : cap_mem) (c : cnp) (i g : Z) : option acap :=
  slot_at m c i ≫= slot_view m g.

(** ** Resolve reads the view *)
Section View.
Implicit Types (m : cap_mem).

Lemma wf_in_cnode m c i s : wf m -> slot_at m c i = Some s -> in_cnode m c i = true.
Proof.
  intros H Hs. apply slot_at_some in Hs as (cn & Ec & Es). unfold in_cnode. rewrite Ec.
  destruct (wf_cns _ _ H c cn Ec) as (Hsh & _). pose proof (cn_slot_range _ _ _ Hsh Es).
  rewrite bool_decide_false by (intros E; unfold cn_slot in Es; by rewrite E in Es).
  rewrite (proj2 (Z.eqb_neq _ _)), (proj2 (Z.ltb_lt _ _)) by lia. done.
Qed.

Lemma resolve_view m c i g rv :
  wf m ->
  resolve_result m (Some c) i g true = (GJ_OK, Some rv) <->
  (cap_view m c i g = Some (ACap (res_pObj rv) (res_u16Type rv) (res_u16Rights rv)) /\ res_pSlot rv = i).
Proof.
  intros H. unfold cap_view. split.
  - intros E. destruct (resolve_ok_inv _ _ _ _ _ E) as (c' & s & h & [= <-] & Es & Hn & Hg & Hg0 & Ho & Eh & Hl & Hgen & Hrv).
    rewrite Hrv. simpl. split; [|done]. rewrite Es. simpl. unfold slot_view, obj_live, obj_gen_is.
    rewrite (proj2 (Z.eqb_neq _ _) Hn), (proj2 (Z.eqb_eq _ _) Hg), (proj2 (Z.eqb_neq _ _) Hg0), Ho, Eh.
    simpl. rewrite Hl, Hgen, !Z.eqb_refl. simpl. done.
  - destruct (slot_at m c i) as [s|] eqn:Es; simpl; [|by intros []]. intros [Hv Hi].
    unfold slot_view in Hv. unfold resolve_result. rewrite (wf_in_cnode m c i s H Es), Es. simpl.
    destruct (slot_u16Type s =? GJ_CAP_INVALID); simpl in Hv; [done|].
    destruct (Z.eqb_spec (slot_u32Gen s) g); simpl in Hv; [|done].
    destruct (g =? 0); simpl in Hv; [done|]. simpl.
    destruct (slot_pObj s) as [o|]; [|done]. unfold obj_live, obj_gen_is in Hv. unfold gj_obj_check_live.
    destruct (m_objs m !! o) as [h|]; [|done].
    destruct (hdr_u32State h =? GJ_OBJ_LIVE); simpl in *; [|done].
    destruct (hdr_u32Gen h =? slot_u32ObjGen s); simpl in *; [|done].
    injection Hv as -> -> ->. subst i. by destruct rv.
Qed.

(** ** Effects on the view *)
Lemma slot_view_core m m' g s :
  (forall o, hdr_core <$> m_objs m' !! o = hdr_core <$> m_objs m !! o) -> slot_view m' g s = slot_view m g s.
Proof.
  intros H. unfold slot_view, obj_live, obj_gen_is. case_match; [|done]. destruct (slot_pObj s) as [o|]; [|done].
  specialize (H o). destruct (m_objs m' !! o), (m_objs m !! o); simpl in H; try done.
  unfold hdr_core in H. by injection H as -> -> _ _.
Qed.

Lemma obj_live_core m m' o :
  hdr_core <$> m_objs m' !! o = hdr_core <$> m_objs m !! o -> obj_live m' o = obj_live m o.
Proof.
  intros H. unfold obj_live. destruct (m_objs m' !! o), (m_objs m !! o); simpl in H; try done.
  unfold hdr_core in H. by injection H as -> _ _ _.
Qed.

Lemma slot_view_invalid m g s : slot_u16Type s = GJ_CAP_INVALID -> slot_view m g s = None.
Proof. intros E. unfold slot_view. by rewrite E. Qed.

Lemma slot_view_obj m g s a : slot_view m g s = Some a ->
  slot_refs (ac_obj a) s = true /\ obj_live m (ac_obj a) = true.
Proof.
  unfold slot_view. destruct (slot_u16Type s =? GJ_CAP_INVALID) eqn:Et; simpl; [done|].
  destruct (slot_u32Gen s =? g), (g =? 0); simpl; try done.
  destruct (slot_pObj s) as [o|] eqn:Eo; [|done]. destruct (obj_live m o) eqn:El; simpl; [|done].
  case_match; [|done]. intros [= <-]. simpl. split; [|done]. unfold slot_refs. rewrite Et, Eo. simpl.
  by rewrite bool_decide_true.
Qed.

Lemma view_same m m' :
  slots_same m m' -> (forall o, hdr_core <$> m_objs m' !! o = hdr_core <$> m_objs m !! o) ->
  forall c i g, cap_view m' c i g = cap_view m c i g.
Proof.
  intros Hs Ho c i g. unfold cap_view. rewrite Hs. destruct (slot_at m c i); [|done]. simpl. by apply slot_view_core.
Qed.

Lemma view_unseen m m' : unseen m m' -> forall c i g, cap_view m' c i g = cap_view m c i g.
Proof. intros [F US _]. apply view_same; [done|apply F]. Qed.

Lemma view_write m m' c i s :
  frame m m' -> slot_write c i s m m' ->
  forall c' i' g', cap_view m' c' i' g' =
    if bool_decide (c' = c /\ i' = i) then slot_view m g' s else cap_view m c' i' g'.
Proof.
  intros F W c' i' g'. unfold cap_view. rewrite W. case_bool_decide; simpl.
  - apply slot_view_core, F.
  - destruct (slot_at m c' i'); [|done]. simpl. apply slot_view_core, F.
Qed.

(** A grant adds exactly one handle. *)
Lemma view_granted m m' c i ty r o g :
  wf m -> granted c i ty r o g m m' ->
  (forall g', cap_view m c i g' = None)
  /\ (forall c' i' g', cap_view m' c' i' g' =
        if bool_decide (c' = c /\ i' = i /\ g' = g) then Some (ACap o ty r) else cap_view m c' i' g').
Proof.
  intros H [F (h & s0 & A1 & A2 & A3 & A4 & A5 & W) _ [Hty _]].
  assert (forall g', cap_view m c i g' = None) as Hnone.
  { intros g'. unfold cap_view. rewrite A3. simpl. by apply slot_view_invalid. }
  split; [done|]. intros c' i' g'. rewrite (view_write _ _ _ _ _ F W). case_bool_decide as E1; case_bool_decide as E2.
  - destruct E2 as (_ & _ & ->). unfold slot_view, obj_live, obj_gen_is. simpl. rewrite A1, A2.
    apply slot_at_some in A3 as (cn & Ec & Es). destruct (wf_cns _ _ H c cn Ec) as (_ & _ & Hsl).
    destruct (Hsl i s0 Es) as [Hg _]. rewrite (proj2 (Z.eqb_neq ty _) Hty), (proj2 (Z.eqb_neq g 0)) by lia.
    by rewrite !Z.eqb_refl.
  - destruct E1 as [-> ->]. rewrite Hnone. unfold slot_view. simpl. rewrite (proj2 (Z.eqb_neq g g')) by naive_solver.
    by rewrite andb_false_r.
  - naive_solver.
  - done.
Qed.

Lemma view_dropped m m' c i o :
  dropped c i o m m' ->
  forall c' i' g', cap_view m' c' i' g' = if bool_decide (c' = c /\ i' = i) then None else cap_view m c' i' g'.
Proof.
  intros [F (s & _ & _ & W) _] c' i' g'. rewrite (view_write _ _ _ _ _ F W). case_bool_decide; [|done].
  by apply slot_view_invalid.
Qed.

(** A move transfers the capability from one handle to the other. *)
Lemma view_moved m m' c i ref :
  wf m -> moved c i ref m m' ->
  (forall g', cap_view m c (ref_u64Slot ref) g' = None)
  /\ exists s, slot_at m c i = Some s /\ forall c' i' g', cap_view m' c' i' g' =
     if bool_decide (c' = c /\ i' = i) then None
     else if bool_decide (c' = c /\ i' = ref_u64Slot ref /\ g' = ref_u32SlotGen ref)
     then cap_view m c i (slot_u32Gen s)
     else cap_view m c' i' g'.
Proof.
  intros H [F (s & s0 & A1 & A2 & A3 & A4 & A5 & A6 & W) _].
  assert (forall g', cap_view m c (ref_u64Slot ref) g' = None) as Hnone.
  { intros g'. unfold cap_view. rewrite A2. simpl. by apply slot_view_invalid. }
  assert (forall i' s' , slot_at m c i' = Some s' -> slot_u32Gen s' <> 0) as Hg0.
  { intros i' s' Hs. apply slot_at_some in Hs as (cn & Ec & Es). destruct (wf_cns _ _ H c cn Ec) as (_ & _ & Hsl).
    destruct (Hsl i' s' Es) as [Hg _]. lia. }
  split; [done|]. exists s. split; [done|]. intros c' i' g'. unfold cap_view at 1. rewrite W.
  case_bool_decide as E1; [by apply slot_view_invalid|].
  case_bool_decide as E2; case_bool_decide as E3; simpl.
  - destruct E3 as (_ & _ & ->). unfold cap_view. rewrite A1. simpl.
    rewrite (slot_view_core m m') by apply F. unfold slot_view. simpl.
    rewrite A5, !Z.eqb_refl, (proj2 (Z.eqb_neq (ref_u32SlotGen ref) 0)), (proj2 (Z.eqb_neq (slot_u32Gen s) 0)); [done|..].
    + by apply (Hg0 i).
    + rewrite <-A5. by apply (Hg0 (ref_u64Slot ref)).
  - destruct E2 as [-> ->]. rewrite Hnone. unfold slot_view. simpl.
    rewrite A5, (proj2 (Z.eqb_neq (ref_u32SlotGen ref) g')) by naive_solver. by rewrite andb_false_r.
  - naive_solver.
  - unfold cap_view. destruct (slot_at m c' i'); [|done]. simpl. apply slot_view_core, F.
Qed.

(** Hygiene removes handles, of the objects it works on only. *)
Lemma view_hygiene P m m' c i g :
  hygiene P m m' ->
  cap_view m' c i g = cap_view m c i g
  \/ (cap_view m' c i g = None /\ exists a, cap_view m c i g = Some a /\ P (ac_obj a)).
Proof.
  intros [A1 A2 A3 A4 A5]. unfold cap_view. destruct (slot_at m c i) as [s|] eqn:Es.
  - destruct (A4 c i s Es) as [->|(o & Po & Hr & ->)]; simpl; [left; by apply slot_view_core|].
    rewrite (slot_view_invalid m' g (gj_cap_slot_invalidate s)) by done.
    destruct (slot_view m g s) as [a|] eqn:Ev; [|by left]. right. split; [done|]. exists a. split; [done|].
    apply slot_view_obj in Ev as [Hr' _]. apply slot_refs_true in Hr as [_ Ho], Hr' as [_ Ho']. congruence.
  - rewrite (A3 c i Es). by left.
Qed.

(** Deferred hygiene changes no valid handle. *)
Lemma view_deferred m m' : deferred m m' -> forall c i g, cap_view m' c i g = cap_view m c i g.
Proof.
  intros D c i g. destruct (view_hygiene _ _ _ c i g (df_hygiene _ _ D)) as [?|(_ & a & Ea & h & Eh & Hd)]; [done|].
  unfold cap_view in Ea. destruct (slot_at m c i); [|done]. simpl in Ea. apply slot_view_obj in Ea as [_ Hl].
  unfold obj_live in Hl. rewrite Eh, Hd in Hl. done.
Qed.

(** Phase A removes every handle of the object, and no other. *)
Lemma view_killed m m' o :
  killed o m m' ->
  forall c i g, cap_view m' c i g =
    match cap_view m c i g with
    | Some a => if bool_decide (ac_obj a = o) then None else Some a
    | None => None
    end.
Proof.
  intros (h & q & len & Eo & Hl & -> & _) c i g. unfold cap_view.
  change (slot_at (set_rq _ _ _ _) c i) with (slot_at m c i).
  destruct (slot_at m c i) as [s|]; [|done]. simpl.
  unfold slot_view, obj_live, obj_gen_is. case_match eqn:Hc; [clear Hc|done]. destruct (slot_pObj s) as [o'|]; [|done].
  simpl. rewrite !lookup_insert. case_decide as E.
  - subst o'. rewrite Eo. simpl. destruct (_ && _); cbv iota; [by rewrite bool_decide_true|done].
  - destruct (m_objs m !! o') as [h'|]; [|done]. destruct (_ && _); cbv iota; [by rewrite bool_decide_false|done].
Qed.
End View.

(** * The capability system calls ([kernel/syscall/native.c], cases
    [GJ_SYS_CAP_MINT] .. [GJ_SYS_CAP_IDENT]): argument truncation, dispatch to
    the operations of [kernel/cap/cnode.c] and packing of the return value. *)

Definition GJ_SYS_CAP_MINT : Z := 20.
Definition GJ_SYS_CAP_MOVE : Z := 21.
Definition GJ_SYS_CAP_COPY : Z := 22.
Definition GJ_SYS_CAP_REVOKE : Z := 23.
Definition GJ_SYS_CAP_IDENT : Z := 24.

(** Conversion of a [u64] to [i64]. *)
Definition i64_of_u64 (x : Z) : Z := if x <? 2 ^ 63 then x else x - 2 ^ 64.

(** [(i64)((out.u64Slot & 0xffffffffull) | ((u64)out.u32SlotGen << 32))] *)
Definition pack_ref (r : gj_cap_ref) : Z :=
  i64_of_u64 (Z.lor (Z.land (ref_u64Slot r) 0xffffffff) (u64_wrap (Z.shiftl (ref_u32SlotGen r) 32))).

(** [(i64)((u32)res.u16Type | ((u32)res.u16Rights << 16))] *)
Definition pack_ident (v : gj_cap_resolved) : Z :=
  Z.lor (res_u16Type v) (u32_wrap (Z.shiftl (res_u16Rights v) 16)).

(** The system-call registers of the call. *)
Record native_regs : Type := NativeRegs { u64Nr : Z; u64Arg0 : Z; u64Arg1 : Z; u64Arg2 : Z }.

Section Native.
(** [cdt_soft_inventory_maybe_once]. *)
Variable hook : capM unit.

(** [pProc]: the current process, [None] for NULL, with its [pCnode]. *)
Definition native_cap_syscall (pProc : option (option cnp)) (r : native_regs) : capM Z :=
  (if u64Nr r =? GJ_SYS_CAP_IDENT then tick_wrap "u64CapIdent"
   else if u64Nr r =? GJ_SYS_CAP_REVOKE then tick_wrap "u64CapRevoke"
   else if u64Nr r =? GJ_SYS_CAP_MOVE then tick_wrap "u64CapMove"
   else if u64Nr r =? GJ_SYS_CAP_COPY then tick_wrap "u64CapCopy"
   else tick_wrap "u64CapMint") ;;;
  match pProc with
  | None | Some None => pret (gj_status_code GJ_ERR_INVAL)
  | Some (Some c) =>
      let gen := u32_wrap (u64Arg1 r) in
      if u64Nr r =? GJ_SYS_CAP_IDENT then
        rr <- gj_cap_resolve hook (Some c) (u64Arg0 r) gen true ;;
        match rr with
        | (GJ_OK, Some v) => pret (pack_ident v)
        | (st, _) => pret (gj_status_code st)
        end
      else if u64Nr r =? GJ_SYS_CAP_REVOKE then
        st <- gj_cap_delete hook (Some c) (u64Arg0 r) gen ;;
        pret (gj_status_code st)
      else
        rr <- (if u64Nr r =? GJ_SYS_CAP_MOVE then gj_cap_move hook (Some c) (u64Arg0 r) gen true
               else if u64Nr r =? GJ_SYS_CAP_COPY then
                 gj_cap_copy hook (Some c) (u64Arg0 r) gen (u16_wrap (u64Arg2 r)) true
               else gj_cap_mint hook (Some c) (u64Arg0 r) gen (u16_wrap (u64Arg2 r)) (Some c) true) ;;
        match rr with
        | (GJ_OK, Some out) => pret (pack_ref out)
        | (st, _) => pret (gj_status_code st)
        end
  end.
End Native.

(** User-side unpacking of a handle, as the packed value suggests. *)
Definition unpack_ref (x : Z) : gj_cap_ref := CapRef (Z.land x 0xffffffff) (Z.shiftr x 32).

(** A packed handle with a slot below [2^32] and a generation below [2^31] is
    non-negative and unpacks to the handle. *)
Lemma pack_unpack r :
  0 <= ref_u64Slot r < 2 ^ 32 -> 0 <= ref_u32SlotGen r < 2 ^ 31 ->
  unpack_ref (pack_ref r) = r /\ 0 <= pack_ref r.
Proof.
  destruct r as [s g]. simpl. intros Hs Hg.
  assert (pack_ref (CapRef s g) = s + g * 2 ^ 32) as Hp.
  { unfold pack_ref, i64_of_u64, u64_wrap. simpl ref_u64Slot. simpl ref_u32SlotGen.
    rewrite Z.shiftl_mul_pow2 by lia. change 0xffffffff with (Z.ones 32). rewrite Z.land_ones by lia.
    rewrite (Z.mod_small s) by lia. rewrite (Z.mod_small (g * 2 ^ 32)) by lia.
    rewrite <-(Z.shiftl_mul_pow2 g 32) by lia.
    assert (Z.land s (Z.shiftl g 32) = 0) as Hland.
    { apply Z.bits_inj'. intros n Hn. rewrite Z.land_spec, Z.bits_0, Z.shiftl_spec by lia.
      destruct (Z.ltb_spec n 32).
      - by rewrite (Z.testbit_neg_r g), andb_false_r by lia.
      - rewrite (Z.bits_above_log2 s n); [done|lia|].
        destruct (decide (s = 0)) as [->|]; [simpl; lia|]. apply Z.log2_lt_pow2; [lia|].
        eapply Z.lt_le_trans; [apply Hs|]. apply Z.pow_le_mono_r; lia. }
    pose proof (Z.add_lor_land s (Z.shiftl g 32)) as Hadd. rewrite Hland, Z.add_0_r in Hadd.
    rewrite Hadd, Z.shiftl_mul_pow2 by lia. rewrite (proj2 (Z.ltb_lt _ _)); [done|]. lia. }
  rewrite Hp. split; [|lia]. unfold unpack_ref. f_equal.
  - change 0xffffffff with (Z.ones 32). rewrite Z.land_ones by lia.
    rewrite Z_mod_plus_full. by apply Z.mod_small.
  - rewrite Z.shiftr_div_pow2 by lia. rewrite Z.div_add by lia. rewrite Z.div_small by lia. lia.
Qed.

(** * The capability subsystem as a transition system, and its abstract
    specification.

    [cap_call] is one call into the subsystem by the kernel (storage,
    initialisation, quota, locks, install, revoke, deferred tick, reclaim) or by
    a process (the system calls).  [run_call] runs the code's definitions;
    [call_ok] is what the callers guarantee (pointers point to storage, storage
    is recycled only once nothing refers to it).  [acap_step] is the abstract
    specification over the set of valid handles; [sim_call] is the refinement:
    every call terminates without fault, keeps the invariant and is an abstract
    step. *)

(** ** Calls *)
Inductive cap_call : Type :=
| KNewObj (o : objp)
| KObjInit (o : objp)
| KNewCnode (c : cnp) (o : objp)
| KCnodeInit (c : cnp) (n : Z)
| KNewQuota (q : quotap)
| KQuotaInit (q : quotap) (limit : Z)
| KQuotaAttach (c : cnp) (q : option quotap)
| KQuotaParent (q p : option quotap)
| KHold (o : objp) (ref pin : Z)
| KTrylock (c : cnp)
| KUnlock (c : cnp)
| KResolve (pc : option cnp) (i g : Z)
| KInstall (pc : option cnp) (i ty r : Z) (po : option objp)
| KAllocInstall (pc : option cnp) (ty r : Z) (po : option objp)
| KMint (src : option cnp) (i g rights : Z) (dst : option cnp)
| KCopy (pc : option cnp) (i g rights : Z)
| KMove (pc : option cnp) (i g : Z)
| KDelete (pc : option cnp) (i g : Z)
| KClear (c : cnp) (o : objp) (max : Z)
| KBegin (po : option objp)
| KWalk (o : objp) (max : Z)
| KDeferred (max : Z)
| KReclaim (po : option objp)
| KSys (pProc : option (option cnp)) (r : native_regs).

Section System.
Context (hook rhook : capM unit).

Definition run_call (k : cap_call) : capM unit :=
  match k with
  | KNewObj o => modify (set_objs (<[o := zero_hdr]>))
  | KObjInit o => gj_obj_hdr_init (Some o)
  | KNewCnode c o => modify (fun m => set_cns (<[c := zero_cnode o]>) (set_objs (<[o := zero_hdr]>) m))
  | KCnodeInit c n => gj_cnode_init (Some c) true n
  | KNewQuota q => modify (set_quotas (<[q := zero_quota]>))
  | KQuotaInit q limit => gj_cap_quota_init (Some q) limit
  | KQuotaAttach c q => gj_cap_quota_attach (Some c) q
  | KQuotaParent q p => gj_cap_quota_set_parent q p
  | KHold o ref pin => h <- obj_load o ;; obj_store o (hdr_set_pin (hdr_set_ref h ref) pin)
  | KTrylock c => gj_cnode_trylock (Some c) ;;; pret tt
  | KUnlock c => gj_cnode_unlock (Some c)
  | KResolve pc i g => gj_cap_resolve hook pc i g true ;;; pret tt
  | KInstall pc i ty r po => gj_cap_slot_install hook pc i ty r po true ;;; pret tt
  | KAllocInstall pc ty r po => gj_cap_alloc_install hook pc ty r po true ;;; pret tt
  | KMint src i g rights dst => gj_cap_mint hook src i g rights dst true ;;; pret tt
  | KCopy pc i g rights => gj_cap_copy hook pc i g rights true ;;; pret tt
  | KMove pc i g => gj_cap_move hook pc i g true ;;; pret tt
  | KDelete pc i g => gj_cap_delete hook pc i g ;;; pret tt
  | KClear c o max => gj_cnode_invalidate_obj_slots (Some c) (Some o) max ;;; pret tt
  | KBegin po => gj_obj_revoke_begin rhook po ;;; pret tt
  | KWalk o max => gj_revoke_cdt_walk_batch rhook (Some o) max ;;; pret tt
  | KDeferred max => gj_revoke_process_deferred rhook max ;;; pret tt
  | KReclaim po => gj_obj_reclaim rhook po ;;; pret tt
  | KSys p r => native_cap_syscall hook p r ;;; pret tt
  end.
End System.

(** Nothing refers to the object: no slot, no edge. *)
Definition unreferenced (m : cap_mem) (o : objp) : Prop :=
  exists h, m_objs m !! o = Some h /\ hdr_u32SlotsLeft h = 0 /\ hdr_pCdtHead h = None.

Definition call_ok (m : cap_mem) (k : cap_call) : Prop :=
  match k with
  | KNewObj o => m_objs m !! o = None
  | KObjInit o => unreferenced m o
  | KNewCnode c o => m_cns m !! c = None /\ m_objs m !! o = None
  | KCnodeInit c n => 0 <= n /\ exists cn, m_cns m !! c = Some cn /\ cn_pSlots cn = None
      /\ unreferenced m (cn_hdr cn) /\ obj_live m (cn_hdr cn) = true
  | KNewQuota q => m_quotas m !! q = None
  | KQuotaInit q limit => is_Some (m_quotas m !! q) /\ 0 <= limit <= U32_MAX
  | KQuotaAttach c q => is_Some (m_cns m !! c) /\ ptr_ok (m_quotas m) q
  | KQuotaParent q p => ptr_ok (m_quotas m) q /\ ptr_ok (m_quotas m) p
  | KHold o _ _ => is_Some (m_objs m !! o)
  | KTrylock c | KUnlock c => is_Some (m_cns m !! c)
  | KResolve pc i _ | KCopy pc i _ _ | KMove pc i _ | KDelete pc i _ => cptr_ok m pc /\ 0 <= i
  | KInstall pc i _ _ po => cptr_ok m pc /\ optr_ok m po /\ 0 <= i
  | KAllocInstall pc _ _ po => cptr_ok m pc /\ optr_ok m po
  | KMint src i _ _ dst => cptr_ok m src /\ cptr_ok m dst /\ 0 <= i
  | KClear c o max => is_Some (m_cns m !! c) /\ 0 <= max
  | KBegin po | KReclaim po => optr_ok m po
  | KWalk o max => is_Some (m_objs m !! o) /\ 0 <= max
  | KDeferred max => 0 <= max
  | KSys p r => cptr_ok m (p ≫= id) /\ 0 <= u64Arg0 r
  end.

(** ** Abstract specification: the valid handles and the live objects *)
Record aview : Type := AView {
  av_caps : cnp -> Z -> Z -> option acap;
  av_live : objp -> bool }.

Definition abs (m : cap_mem) : aview := AView (cap_view m) (obj_live m).

Record a_same (A B : aview) : Prop := ASame {
  as_caps : forall c i g, av_caps B c i g = av_caps A c i g;
  as_live : forall o, av_live B o = av_live A o }.

(** Handle [(c, i, g)] of a slot without valid handle now denotes [a]. *)
Record a_grant (c : cnp) (i g : Z) (a : acap) (A B : aview) : Prop := AGrant {
  ag_free : forall g', av_caps A c i g' = None;
  ag_live : av_live A (ac_obj a) = true;
  ag_caps : forall c' i' g', av_caps B c' i' g' =
    if bool_decide (c' = c /\ i' = i /\ g' = g) then Some a else av_caps A c' i' g';
  ag_same : forall o, av_live B o = av_live A o }.

(** No handle of slot [(c, i)] is valid any more. *)
Record a_drop (c : cnp) (i : Z) (A B : aview) : Prop := ADrop {
  ad_caps : forall c' i' g', av_caps B c' i' g' =
    if bool_decide (c' = c /\ i' = i) then None else av_caps A c' i' g';
  ad_live : forall o, av_live B o = av_live A o }.

(** The capability of handle [(c, i, g)] is now held by [(c, j, g')] only. *)
Record a_move (c : cnp) (i : Z) (a : acap) (j g' : Z) (A B : aview) : Prop := AMove {
  am_free : forall g'', av_caps A c j g'' = None;
  am_caps : forall c0 i0 g0, av_caps B c0 i0 g0 =
    if bool_decide (c0 = c /\ i0 = i) then None
    else if bool_decide (c0 = c /\ i0 = j /\ g0 = g') then Some a else av_caps A c0 i0 g0;
  am_live : forall o, av_live B o = av_live A o }.

(** Every handle of [o] is gone, and [o] is not live. *)
Record a_kill (o : objp) (A B : aview) : Prop := AKill {
  ak_caps : forall c i g, av_caps B c i g =
    match av_caps A c i g with
    | Some a => if bool_decide (ac_obj a = o) then None else Some a
    | None => None
    end;
  ak_live : forall o', av_live B o' = if bool_decide (o' = o) then false else av_live A o' }.

(** Some handles of [o] may be gone. *)
Record a_shed (o : objp) (A B : aview) : Prop := AShed {
  ash_caps : forall c i g, av_caps B c i g = av_caps A c i g
    \/ (av_caps B c i g = None /\ exists a, av_caps A c i g = Some a /\ ac_obj a = o);
  ash_live : forall o', av_live B o' = av_live A o' }.

(** [o] becomes live; no handle changes. *)
Record a_born (o : objp) (A B : aview) : Prop := ABorn {
  ab_caps : forall c i g, av_caps B c i g = av_caps A c i g;
  ab_live : forall o', av_live B o' = if bool_decide (o' = o) then true else av_live A o' }.

Definition a_mint (src : option cnp) (i g rights : Z) (dst : option cnp) (A B : aview) : Prop :=
  exists cs cd j g' a, src = Some cs /\ match dst with None => src | Some _ => dst end = Some cd
    /\ av_caps A cs i g = Some a /\ Z.land (ac_rights a) GJ_RIGHT_MINT <> 0
    /\ Z.land (ac_rights a) rights <> 0
    /\ a_grant cd j g' (ACap (ac_obj a) (ac_type a) (Z.land (ac_rights a) rights)) A B.

Definition a_copy (pc : option cnp) (i g rights : Z) (A B : aview) : Prop :=
  exists c j g' a, pc = Some c /\ av_caps A c i g = Some a /\ Z.land (ac_rights a) GJ_RIGHT_GRANT <> 0
    /\ a_grant c j g' (ACap (ac_obj a) (ac_type a) (copy_rights (ac_rights a) rights)) A B.

Definition a_mv (pc : option cnp) (i g : Z) (A B : aview) : Prop :=
  exists c j g' a, pc = Some c /\ av_caps A c i g = Some a /\ Z.land (ac_rights a) GJ_RIGHT_GRANT <> 0
    /\ i <> GJ_CAP_SLOT_ROOT_META /\ a_move c i a j g' A B.

Definition a_del (pc : option cnp) (i g : Z) (A B : aview) : Prop :=
  exists c a, pc = Some c /\ av_caps A c i g = Some a /\ i <> GJ_CAP_SLOT_ROOT_META
    /\ (Z.land (ac_rights a) GJ_RIGHT_DESTROY <> 0 \/ Z.land (ac_rights a) GJ_RIGHT_GRANT <> 0)
    /\ a_drop c i A B.

(** What each call may do to the abstract state. *)
Definition acap_step (k : cap_call) (A B : aview) : Prop :=
  match k with
  | KNewObj o | KObjInit o | KNewCnode _ o => a_born o A B
  | KCnodeInit _ _ | KNewQuota _ | KQuotaInit _ _ | KQuotaAttach _ _ | KQuotaParent _ _
  | KHold _ _ _ | KTrylock _ | KUnlock _ | KResolve _ _ _ | KDeferred _ | KReclaim _ => a_same A B
  | KInstall pc _ ty r po | KAllocInstall pc ty r po =>
      a_same A B \/ exists c o i g, pc = Some c /\ po = Some o /\ a_grant c i g (ACap o ty r) A B
  | KMint src i g rights dst => a_same A B \/ a_mint src i g rights dst A B
  | KCopy pc i g rights => a_same A B \/ a_copy pc i g rights A B
  | KMove pc i g => a_same A B \/ a_mv pc i g A B
  | KDelete pc i g => a_same A B \/ a_del pc i g A B
  | KClear _ o _ | KWalk o _ => a_shed o A B
  | KBegin po => match po with
                 | Some o => if av_live A o then a_kill o A B else a_same A B
                 | None => a_same A B
                 end
  | KSys p r =>
      let gen := u32_wrap (u64Arg1 r) in
      let pc := p ≫= id in
      a_same A B
      \/ (u64Nr r = GJ_SYS_CAP_REVOKE /\ a_del pc (u64Arg0 r) gen A B)
      \/ (u64Nr r = GJ_SYS_CAP_MOVE /\ a_mv pc (u64Arg0 r) gen A B)
      \/ (u64Nr r = GJ_SYS_CAP_COPY /\ a_copy pc (u64Arg0 r) gen (u16_wrap (u64Arg2 r)) A B)
      \/ a_mint pc (u64Arg0 r) gen (u16_wrap (u64Arg2 r)) pc A B
  end.
