(* ===== verification/CapSim.v ===== *)
(** The refinement: every call of [CapSystem] terminates without fault, keeps
    the invariant and is a step of the abstract specification. *)
From stdpp Require Import base gmap list strings fin_maps.
From Stdlib Require Import ZArith Lia.
From S2P Require Import Prelude CapTypes CapEdges CapQuota CapCnode CapInv CapOps CapDerive CapRevoke CapWalk CapDefer CapSystem.

#[local] Arguments resolve_result : simpl never.
#[local] Arguments gj_cnode_invalidate_obj_slots : simpl never.
#[local] Arguments gj_revoke_cdt_walk_batch : simpl never.
#[local] Arguments gj_revoke_process_deferred : simpl never.
#[local] Arguments gj_obj_reclaim : simpl never.
#[local] Arguments gj_obj_revoke_begin : simpl never.
#[local] Arguments gj_cap_mint : simpl never.
#[local] Arguments gj_cap_copy : simpl never.
#[local] Arguments gj_cap_move : simpl never.
#[local] Arguments gj_cap_delete : simpl never.
#[local] Arguments gj_cap_resolve : simpl never.
#[local] Arguments gj_cap_slot_install : simpl never.
#[local] Arguments gj_cap_alloc_install : simpl never.
#[local] Arguments native_cap_syscall : simpl never.

(** ** Storage *)
Section Storage.
Implicit Types (m : cap_mem).

Lemma map_sum_zero {K A} `{Countable K} (f : A -> nat) (mp : gmap K A) :
  (forall k v, mp !! k = Some v -> f v = 0%nat) -> map_sum f mp = 0%nat.
Proof.
  induction mp as [|k v mp Hk IH] using map_ind; intros Hz; [done|].
  rewrite map_sum_new by done. rewrite (Hz k v) by apply lookup_insert_eq. apply IH.
  intros k' v' E. apply (Hz k'). rewrite lookup_insert_ne by congruence. done.
Qed.

Lemma cn_refs_none o cn :
  (forall i s, cn_slot cn i = Some s -> slot_refs o s = false) -> cn_refs o cn = 0%nat.
Proof.
  intros H. unfold cn_refs, cn_slot in *. destruct (cn_pSlots cn) as [sl|]; [|done]. apply countb_zero.
  intros i s Hi. apply (H (Z.of_nat i)). by rewrite (proj2 (Z.leb_le _ _)), Nat2Z.id by lia.
Qed.

Lemma obj_refs_none m o :
  (forall c i s, slot_at m c i = Some s -> slot_refs o s = false) -> obj_refs m o = 0%nat.
Proof.
  intros H. apply map_sum_zero. intros c cn Ec. apply cn_refs_none. intros i s Hs. apply (H c i).
  apply slot_at_some. eauto.
Qed.

(** No slot refers to an unallocated or unreferenced object. *)
Lemma no_slot_refs m o :
  wf m -> (m_objs m !! o = None \/ unreferenced m o) ->
  forall c i s, slot_at m c i = Some s -> slot_refs o s = false.
Proof.
  intros H Ho c i s Hs. destruct (slot_refs o s) eqn:Hr; [|done]. exfalso.
  apply slot_at_some in Hs as (cn & Ec & Es). destruct Ho as [Hn|(h & Eh & Hl & _)].
  - destruct (wf_cns _ _ H c cn Ec) as (_ & _ & Hsl). apply slot_refs_true in Hr as [Ht Hp].
    destruct (slot_ok_obj m i s (Hsl i s Es) Ht) as (o' & h & E1 & E2 & _). congruence.
  - pose proof (obj_refs_pos m c cn i s o Ec Es Hr). destruct (wf_objs _ _ H o h Eh) as (E & _). lia.
Qed.

Lemma wf_new_hdr m o h' :
  wf m -> (m_objs m !! o = None \/ unreferenced m o) ->
  hdr_u32SlotsLeft h' = 0 -> hdr_pCdtHead h' = None -> wf (set_objs (<[o := h']>) m).
Proof.
  intros H [Hn|(h & Eh & El & Ehd)] Hl Hh; [|eapply wf_set_hdr; [done|done|congruence..]].
  assert (forall x, is_Some (m_objs m !! x) -> is_Some (m_objs (set_objs (<[o := h']>) m) !! x)) as Hd.
  { intros x Hx. simpl. rewrite lookup_insert. case_decide; eauto. }
  apply (wf_gen_intro no_edge _ (fun o2 l => (o2 = o /\ l = []) \/ exists h, chain_at m o2 h l)); try apply H.
  - intros c cn Ec. destruct (wf_cns _ _ H c cn Ec) as (S1 & S2 & S3). split_and!; [done..|].
    intros i s Hs. eapply slot_ok_mono; eauto.
  - intros o2 h2 E2. simpl in E2. rewrite lookup_insert in E2. case_decide as E.
    + injection E2 as <-. subst o2. rewrite Hl.
      change (obj_refs (set_objs (<[o := h']>) m) o) with (obj_refs m o).
      rewrite (obj_refs_none m o) by (apply no_slot_refs; auto). split_and!; [done|done|].
      exists []. split_and!; [by left| |by constructor|by intros ? ?%elem_of_nil].
      split_and!; simpl; [by rewrite lookup_insert_eq|done|constructor|done].
    + destruct (wf_objs _ _ H o2 h2 E2) as (R1 & R2 & l & R3 & R4 & R5). split_and!; [done..|].
      exists l. split_and!; [right; eauto| |done|done].
      destruct R3 as (? & ? & ? & ?). split_and!; simpl; [by rewrite lookup_insert_ne|done..].
  - intros o1 o2 l1 l2 [[-> ->]|[h1 C1]] [[-> ->]|[h2 C2]] Hne; try set_solver. by eapply (wf_disj _ _ H).
  - apply (rq_ok_mono m); [done..|apply (wf_queue _ _ H)].
Qed.

(** Adding objects one by one. *)
Lemma wf_add_objs os : forall m,
  wf m -> NoDup os -> (forall o, o ∈ os -> m_objs m !! o = None) ->
  wf (set_objs (fun objs => foldr (fun o acc => <[o := zero_hdr]> acc) objs os) m)
  /\ forall o, foldr (fun o acc => <[o := zero_hdr]> acc) (m_objs m) os !! o
              = if bool_decide (o ∈ os) then Some zero_hdr else m_objs m !! o.
Proof.
  induction os as [|o os IH]; intros m H Hnd Hf; simpl.
  - split; [by destruct m|]. done.
  - apply NoDup_cons in Hnd as [Hn Hnd]. destruct (IH m H Hnd) as [IH1 IH2]; [set_solver|]. split.
    + set (m1 := set_objs _ m) in IH1. apply (wf_new_hdr m1 o zero_hdr); try done. left. simpl.
      rewrite IH2, bool_decide_false by done. apply Hf. set_solver.
    + intros x. rewrite lookup_insert, IH2. case_decide as E.
      * subst. by rewrite bool_decide_true by set_solver.
      * do 2 case_bool_decide; try done; set_solver.
Qed.

Lemma view_new_hdr m o h' :
  wf m -> (m_objs m !! o = None \/ unreferenced m o) ->
  forall c i g, cap_view (set_objs (<[o := h']>) m) c i g = cap_view m c i g.
Proof.
  intros H Ho c i g. unfold cap_view. change (slot_at (set_objs _ m) c i) with (slot_at m c i).
  destruct (slot_at m c i) as [s|] eqn:Es; [|done]. simpl. pose proof (no_slot_refs m o H Ho c i s Es) as Hr.
  unfold slot_view, obj_live, obj_gen_is. simpl. unfold slot_refs in Hr.
  destruct (slot_u16Type s =? GJ_CAP_INVALID); simpl in *; [done|]. apply bool_decide_eq_false in Hr.
  case_match; [|done]. destruct (slot_pObj s) as [o'|]; [|done]. rewrite lookup_insert_ne by congruence. done.
Qed.

(** Replacing a CNode that offers no slot by one whose slots are free. *)
Lemma wf_put_cn m c cn' :
  wf m -> (forall i, slot_at m c i = None) -> cn_shape cn' -> ptr_ok (m_quotas m) (cn_pQuotaAccount cn') ->
  (forall i s, cn_slot cn' i = Some s -> s = free_slot) ->
  wf (set_cns (<[c := cn']>) m).
Proof.
  intros H Hnone Hsh Hq Hfree. set (m' := set_cns _ m).
  assert (forall o, obj_refs m' o = obj_refs m o) as Hr.
  { intros o. unfold obj_refs. simpl.
    assert (cn_refs o cn' = 0%nat) as E0 by (apply cn_refs_none; by intros i s ->%Hfree).
    destruct (m_cns m !! c) as [cn|] eqn:Ec; [|rewrite map_sum_new by done; lia].
    pose proof (map_sum_update (cn_refs o) (m_cns m) c cn' cn Ec) as Hm.
    assert (cn_refs o cn = 0%nat); [|lia]. apply cn_refs_none. intros i s Hs.
    specialize (Hnone i). unfold slot_at in Hnone. rewrite Ec in Hnone. simpl in Hnone. congruence. }
  destruct H as [H1 H2 H3 H4 H5 H6]. split; try done.
  - intros c' cn0. simpl. rewrite lookup_insert. case_decide; [|apply H3]. intros [= <-].
    split_and!; [done..|]. intros i s ->%Hfree. split; [simpl; unfold U32_MAX; lia|done].
  - intros o h Eo. destruct (H4 o h Eo) as (R1 & R2 & l & R3 & R4 & R5). split_and!; [by rewrite Hr|done|].
    exists l. split_and!; [done|done|]. intros e He Hx.
    destruct (R5 e He Hx) as (c' & i & cn0 & s & N1 & N2 & N3 & N4). exists c', i, cn0, s. simpl.
    rewrite lookup_insert_ne; [done|]. intros <-. specialize (Hnone i). unfold slot_at in Hnone.
    rewrite N2 in Hnone. simpl in Hnone. congruence.
Qed.

Lemma view_put_cn m c cn' :
  (forall i, slot_at m c i = None) -> (forall i s, cn_slot cn' i = Some s -> s = free_slot) ->
  forall c' i g, cap_view (set_cns (<[c := cn']>) m) c' i g = cap_view m c' i g.
Proof.
  intros Hn Hfree c' i g. unfold cap_view. unfold slot_at at 1. simpl. rewrite lookup_insert. case_decide.
  - subst c'. rewrite Hn. simpl. destruct (cn_slot cn' i) as [s|] eqn:Es; [|done]. simpl.
    rewrite (Hfree i s Es). done.
  - change (m_cns m !! c' ≫= λ cn, cn_slot cn i) with (slot_at m c' i). by destruct (slot_at m c' i).
Qed.

Lemma cn_slot_replicate hd n q lk pl i s :
  cn_slot (CNode hd (Z.of_nat n) (Some (replicate n free_slot)) q lk pl) i = Some s -> s = free_slot.
Proof. unfold cn_slot. simpl. case_match; [|done]. intros [-> _]%lookup_replicate. done. Qed.
End Storage.

(** ** Concrete effects as abstract steps *)
Section Abs.
Implicit Types (m : cap_mem) (A B : aview).

#[export] Instance a_same_preorder : PreOrder a_same.
Proof. split; [by intros A; split|]. intros A B C [H1 H2] [H3 H4]. split; intros; congruence. Qed.

Lemma a_same_unseen m m' : unseen m m' -> a_same (abs m) (abs m').
Proof.
  intros Hu. split; simpl; [by apply view_unseen|]. intros o. apply obj_live_core. apply Hu.
Qed.

Lemma a_same_quiet m m' : quiet m m' -> a_same (abs m) (abs m').
Proof. intros Hq. by apply a_same_unseen, unseen_quiet. Qed.

Lemma a_same_deferred m m' : deferred m m' -> a_same (abs m) (abs m').
Proof.
  intros D. split; simpl; [by apply view_deferred|]. intros o. apply obj_live_core, (df_hygiene _ _ D).
Qed.

Lemma a_grant_granted m m' c i ty r o g :
  wf m -> granted c i ty r o g m m' -> a_grant c i g (ACap o ty r) (abs m) (abs m').
Proof.
  intros H Hg. destruct (view_granted _ _ _ _ _ _ _ _ H Hg) as [V1 V2]. destruct Hg as [F (h & s0 & A1 & A2 & _) _ _].
  split; simpl; try done.
  - unfold obj_live. rewrite A1, A2. done.
  - intros o'. apply obj_live_core, F.
Qed.

Lemma a_drop_dropped m m' c i o : dropped c i o m m' -> a_drop c i (abs m) (abs m').
Proof.
  intros Hd. split; simpl; [by apply (view_dropped _ _ _ _ _ Hd)|]. intros o'. apply obj_live_core, Hd.
Qed.

Lemma a_kill_killed m m1 m' o :
  killed o m m1 -> deferred m1 m' -> a_kill o (abs m) (abs m').
Proof.
  intros Hk D. pose proof (a_same_deferred _ _ D) as [S1 S2]. simpl in *. split; simpl.
  - intros c i g. rewrite S1. by apply view_killed.
  - intros o'. rewrite S2. destruct Hk as (h & q & len & Eo & Hl & -> & _). unfold obj_live. simpl.
    rewrite lookup_insert. case_decide; case_bool_decide; try congruence; done.
Qed.

Lemma a_shed_hygiene m m' o : hygiene (eq o) m m' -> a_shed o (abs m) (abs m').
Proof.
  intros Hh. split; simpl.
  - intros c i g. destruct (view_hygiene _ _ _ c i g Hh) as [?|(? & a & ? & ?)]; eauto.
  - intros o'. apply obj_live_core, Hh.
Qed.

Lemma a_shed_same o A B C : a_shed o A B -> a_same B C -> a_shed o A C.
Proof. intros [H1 H2] [H3 H4]. split; intros; rewrite ?H3, ?H4; auto. Qed.

Lemma resolve_abs m c i g rv :
  wf m -> resolve_result m (Some c) i g true = (GJ_OK, Some rv) ->
  cap_view m c i g = Some (ACap (res_pObj rv) (res_u16Type rv) (res_u16Rights rv)).
Proof. intros H E. by apply resolve_view in E as [? _]. Qed.

Lemma resolve_some m pc i g rv :
  resolve_result m pc i g true = (GJ_OK, Some rv) -> exists c, pc = Some c.
Proof. intros E. destruct (resolve_ok_inv _ _ _ _ _ E) as (c & ? & ? & -> & _). eauto. Qed.
End Abs.

(** ** Generations *)

(** A call leaves a slot's generation alone or bumps it once while clearing the
    slot; it never rewrites a bound slot. *)
Definition gen_step (m m' : cap_mem) : Prop :=
  forall c i s, slot_at m c i = Some s -> exists s', slot_at m' c i = Some s'
    /\ ((slot_u32Gen s' = slot_u32Gen s /\ (slot_u16Type s <> GJ_CAP_INVALID -> s' = s))
        \/ (slot_u32Gen s' = slot_gen_bump (slot_u32Gen s) /\ slot_u16Type s' = GJ_CAP_INVALID)).

Section Gen.
Implicit Types (m : cap_mem).

Lemma gen_step_same m m' : slots_same m m' -> gen_step m m'.
Proof. intros H c i s Hs. exists s. rewrite H. eauto. Qed.

Lemma gen_step_unseen m m' : unseen m m' -> gen_step m m'.
Proof. intros H. apply gen_step_same, H. Qed.

Lemma gen_step_quiet m m' : quiet m m' -> gen_step m m'.
Proof. intros H. by apply gen_step_unseen, unseen_quiet. Qed.

Lemma gen_step_hygiene P m m' : hygiene P m m' -> gen_step m m'.
Proof.
  intros H c i s Hs. destruct (hy_slots _ _ _ H c i s Hs) as [E|(o & _ & _ & E)]; rewrite E; eexists; (split; [done|]).
  - by left.
  - by right.
Qed.

Lemma gen_step_deferred m m' : deferred m m' -> gen_step m m'.
Proof. intros D. eapply gen_step_hygiene, D. Qed.

Lemma gen_step_walked o m m1 m' : walked o m m1 -> deferred m1 m' -> gen_step m m'.
Proof.
  intros W D. apply (gen_step_hygiene (fun _ => True)). transitivity m1;
    (eapply hygiene_mono; [|by (apply W || apply D)]); done.
Qed.

Lemma gen_step_granted m m' c i ty r o g : granted c i ty r o g m m' -> gen_step m m'.
Proof.
  intros [_ (h & s0 & _ & _ & A3 & A4 & A5 & W) _ _] c' i' s Hs. rewrite W. case_bool_decide as E.
  - destruct E as [-> ->]. rewrite A3 in Hs. injection Hs as <-. eexists. split; [done|]. left. simpl.
    split; [done|]. by intros [].
  - exists s. split; [done|]. by left.
Qed.

Lemma gen_step_dropped m m' c i o : dropped c i o m m' -> gen_step m m'.
Proof.
  intros [_ (s0 & A1 & _ & W) _] c' i' s Hs. rewrite W. case_bool_decide as E.
  - destruct E as [-> ->]. rewrite A1 in Hs. injection Hs as <-. eexists. split; [done|]. by right.
  - exists s. split; [done|]. by left.
Qed.

Lemma gen_step_moved m m' c i ref : moved c i ref m m' -> gen_step m m'.
Proof.
  intros [_ (s1 & s0 & A1 & A2 & A3 & A4 & A5 & A6 & W) _] c' i' s Hs. rewrite W.
  case_bool_decide as E; [|case_bool_decide as E2].
  - destruct E as [-> ->]. rewrite A1 in Hs. injection Hs as <-. eexists. split; [done|]. by right.
  - destruct E2 as [-> ->]. rewrite A2 in Hs. injection Hs as <-. eexists. split; [done|]. left. simpl.
    split; [done|]. by intros [].
  - exists s. split; [done|]. by left.
Qed.

(** CNodes that offered no slot do not matter. *)
Lemma gen_step_put_cn m c cn' :
  (forall i, slot_at m c i = None) -> gen_step m (set_cns (<[c := cn']>) m).
Proof.
  intros Hn c' i s Hs. exists s. split; [|by left]. unfold slot_at. simpl.
  rewrite lookup_insert_ne; [done|]. intros <-. by rewrite Hn in Hs.
Qed.
End Gen.

(** ** Simulation of each call *)
Section Sim.
Context (hook rhook : capM unit) `{!CapHook hook, !RevokeHook rhook}.
Implicit Types (m : cap_mem).

Definition sim (k : cap_call) (m : cap_mem) : Prop :=
  wp (run_call hook rhook k) (fun _ m' => wf m' /\ gen_step m m' /\ acap_step k (abs m) (abs m')) m.

(** The abstract outcome of the four derivation calls. *)
Lemma wp_mint_abs m src i g rights dst :
  wf m -> cptr_ok m src -> cptr_ok m dst -> 0 <= i ->
  wp (gj_cap_mint hook src i g rights dst true) (fun res m' => wf m' /\ gen_step m m' /\
    (a_same (abs m) (abs m') \/ a_mint src i g rights dst (abs m) (abs m'))) m.
Proof.
  intros H Hs Hd Hi. eapply wp_mono; [by apply wp_mint|]. intros [st [ref|]] m' (H' & _ & HQ); simpl in HQ.
  - split; [done|]. destruct HQ as (_ & rv & c & E & Hm & Hw & Ec & Hg).
    split; [by eapply gen_step_granted|]. right.
    destruct (resolve_some _ _ _ _ _ E) as [cs ->].
    exists cs, c, (ref_u64Slot ref), (ref_u32SlotGen ref), (ACap (res_pObj rv) (res_u16Type rv) (res_u16Rights rv)).
    split_and!; try done; [by apply resolve_abs|]. by apply a_grant_granted.
  - split; [done|]. split; [apply gen_step_quiet, HQ|]. left. apply a_same_quiet, HQ.
Qed.

Lemma wp_copy_abs m pc i g rights :
  wf m -> cptr_ok m pc -> 0 <= i ->
  wp (gj_cap_copy hook pc i g rights true) (fun res m' => wf m' /\ gen_step m m' /\
    (a_same (abs m) (abs m') \/ a_copy pc i g rights (abs m) (abs m'))) m.
Proof.
  intros H Hs Hi. eapply wp_mono; [by apply wp_copy|]. intros [st [ref|]] m' (H' & _ & HQ); simpl in HQ.
  - split; [done|]. destruct HQ as (_ & rv & c & E & Hm & -> & Hg).
    split; [by eapply gen_step_granted|]. right.
    exists c, (ref_u64Slot ref), (ref_u32SlotGen ref), (ACap (res_pObj rv) (res_u16Type rv) (res_u16Rights rv)).
    split_and!; try done; [by apply resolve_abs|]. by apply a_grant_granted.
  - split; [done|]. split; [apply gen_step_quiet, HQ|]. left. apply a_same_quiet, HQ.
Qed.

Lemma wp_move_abs m pc i g :
  wf m -> cptr_ok m pc -> 0 <= i ->
  wp (gj_cap_move hook pc i g true) (fun res m' => wf m' /\ gen_step m m' /\
    (a_same (abs m) (abs m') \/ a_mv pc i g (abs m) (abs m'))) m.
Proof.
  intros H Hs Hi. eapply wp_mono; [by apply wp_move|]. intros [st [ref|]] m' (H' & _ & HQ); simpl in HQ.
  2:{ split; [done|]. split; [apply gen_step_quiet, HQ|]. left. apply a_same_quiet, HQ. }
  split; [done|]. destruct HQ as (_ & rv & c & E & -> & Hm & Hroot & Hmv).
  split; [by eapply gen_step_moved|]. right.
  pose proof (resolve_abs _ _ _ _ _ H E) as Hv.
  exists c, (ref_u64Slot ref), (ref_u32SlotGen ref), (ACap (res_pObj rv) (res_u16Type rv) (res_u16Rights rv)).
  split_and!; try done. destruct (view_moved _ _ _ _ _ H Hmv) as (V1 & s & Es & V2).
  assert (slot_u32Gen s = g) as Eg.
  { destruct (resolve_ok_inv _ _ _ _ _ E) as (c' & s' & _ & [= <-] & Es' & _ & Hg & _). congruence. }
  split; simpl; try done.
  - intros c0 i0 g0'. by rewrite V2, Eg, Hv.
  - intros o'. apply obj_live_core, Hmv.
Qed.

Lemma wp_delete_abs m pc i g :
  wf m -> cptr_ok m pc -> 0 <= i ->
  wp (gj_cap_delete hook pc i g) (fun res m' => wf m' /\ gen_step m m' /\
    (a_same (abs m) (abs m') \/ a_del pc i g (abs m) (abs m'))) m.
Proof.
  intros H Hs Hi. eapply wp_mono; [by apply wp_delete|]. intros st m' (H' & Est & HQ).
  split; [done|]. destruct (is_ok st) eqn:Eok.
  2:{ split; [by apply gen_step_quiet|]. left. by apply a_same_quiet. }
  destruct HQ as (rv & c & E & -> & Hroot & Hd). split; [by eapply gen_step_dropped|]. right.
  exists c, (ACap (res_pObj rv) (res_u16Type rv) (res_u16Rights rv)).
  split_and!; [done|by apply resolve_abs|done| |by eapply a_drop_dropped].
  apply bool_decide_eq_true in Eok. rewrite Eok in Est. unfold delete_status in Est. rewrite E in Est. simpl.
  rewrite (proj2 (Z.eqb_neq _ _) Hroot) in Est.
  destruct (Z.eqb_spec (Z.land (res_u16Rights rv) GJ_RIGHT_DESTROY) 0); [|by left].
  destruct (Z.eqb_spec (Z.land (res_u16Rights rv) GJ_RIGHT_GRANT) 0); [done|by right].
Qed.

Lemma a_born_hdr m o h' :
  wf m -> (m_objs m !! o = None \/ unreferenced m o) -> hdr_u32State h' = GJ_OBJ_LIVE ->
  a_born o (abs m) (abs (set_objs (<[o := h']>) m)).
Proof.
  intros H Ho Hl. split; simpl; [by apply view_new_hdr|]. intros o'. unfold obj_live. simpl.
  rewrite lookup_insert. case_decide; case_bool_decide; try congruence. by rewrite Hl.
Qed.

Lemma a_same_put_cn m c cn' :
  (forall i, slot_at m c i = None) -> (forall i s, cn_slot cn' i = Some s -> s = free_slot) ->
  a_same (abs m) (abs (set_cns (<[c := cn']>) m)).
Proof. intros Hn Hf. split; simpl; [by apply view_put_cn|done]. Qed.

Lemma sim_new_obj m o : wf m -> call_ok m (KNewObj o) -> sim (KNewObj o) m.
Proof.
  intros H Hn. unfold sim. simpl. wsteps. split; [apply wf_new_hdr; auto|]. split; [by apply gen_step_same|]. apply a_born_hdr; auto.
Qed.

Lemma sim_obj_init m o : wf m -> call_ok m (KObjInit o) -> sim (KObjInit o) m.
Proof.
  intros H Hu. pose proof Hu as (h & Eh & _). unfold sim. simpl. wsteps.
  split; [apply wf_new_hdr; auto|]. split; [by apply gen_step_same|]. apply a_born_hdr; auto.
Qed.

Lemma zero_cnode_slots o i : cn_slot (zero_cnode o) i = None.
Proof. done. Qed.

Lemma sim_new_cnode m c o : wf m -> call_ok m (KNewCnode c o) -> sim (KNewCnode c o) m.
Proof.
  intros H [Hc Ho]. unfold sim. simpl. wsteps. set (m1 := set_objs (<[o := zero_hdr]>) m).
  assert (wf m1) as H1 by (apply wf_new_hdr; auto).
  assert (forall i, slot_at m1 c i = None) as Hn by (intros i; unfold slot_at; simpl; by rewrite Hc).
  split; [by apply wf_put_cn|]. split; [by apply (gen_step_put_cn m1)|].
  destruct (a_born_hdr m o zero_hdr H (or_introl Ho) eq_refl) as [B1 B2]. simpl in *.
  split; simpl; [|done]. intros c' i g. rewrite <-B1. by apply view_put_cn.
Qed.

Lemma sim_cnode_init m c n : wf m -> call_ok m (KCnodeInit c n) -> sim (KCnodeInit c n) m.
Proof.
  intros H (Hn & cn & Ec & Es & Hu & Hl). unfold sim. simpl. unfold gj_cnode_init. simpl.
  destruct (Z.eqb_spec n 0) as [->|Hn0]; [wsteps; split; [done|]; split; [by apply gen_step_same|reflexivity]|].
  pose proof Hu as (h & Eh & _). wsteps. unfold gj_obj_hdr_init. wsteps.
  set (m1 := set_objs (<[cn_hdr cn := obj_hdr_init]>) m).
  assert (wf m1) as H1 by (apply wf_new_hdr; auto).
  assert (forall i, slot_at m1 c i = None) as Hnone
    by (intros i; unfold slot_at; simpl; rewrite Ec; simpl; unfold cn_slot; by rewrite Es).
  set (cn' := CNode _ _ _ _ _ _).
  assert (forall i s, cn_slot cn' i = Some s -> s = free_slot) as Hfree.
  { intros i s. unfold cn', cn_slot. simpl. case_match; [|done]. intros [-> _]%lookup_replicate. done. }
  split; [|split; [by apply (gen_step_put_cn m1)|]].
  - apply wf_put_cn; try done. unfold cn_shape. simpl. rewrite length_replicate. lia.
  - destruct (a_born_hdr m _ obj_hdr_init H (or_intror Hu) eq_refl) as [B1 B2]. simpl in *.
    split; simpl.
    + intros c' i g. rewrite <-B1. by apply view_put_cn.
    + intros o'. change (obj_live (set_cns _ m1) o') with (obj_live m1 o'). rewrite B2.
      case_bool_decide; [by subst|done].
Qed.

Lemma a_same_quotas m f : a_same (abs m) (abs (set_quotas f m)).
Proof. by split. Qed.

Lemma sim_quota m k :
  wf m -> call_ok m k ->
  match k with KNewQuota _ | KQuotaInit _ _ | KQuotaAttach _ _ | KQuotaParent _ _ => True | _ => False end ->
  sim k m.
Proof.
  intros H Hok Hk. pose proof (wf_ledger _ _ H) as Hl. destruct k; try done; unfold sim; simpl in *.
  - wsteps. split; [|split; [by apply gen_step_same|by split]]. apply wf_set_quotas; [done|by apply ledger_ok_root|].
    intros q' Hq'. rewrite lookup_insert. case_decide; eauto.
  - destruct Hok as [[v Ev] Hlim]. wsteps. split; [|split; [by apply gen_step_same|by split]].
    apply wf_set_quotas; [done|apply ledger_ok_root; [done|unfold quota_range; simpl; lia|done]|].
    intros q' Hq'. rewrite lookup_insert. case_decide; eauto.
  - destruct Hok as [[cn Ec] Hp]. unfold gj_cap_quota_attach. wsteps. split; [by eapply wf_set_cn|].
    assert (forall c' i, slot_at (set_cns (<[c := cn_set_quota cn q]>) m) c' i = slot_at m c' i) as Hs.
    { intros c' i. unfold slot_at. simpl. rewrite lookup_insert. case_decide; [subst; by rewrite Ec|done]. }
    split; [by apply gen_step_same|]. split; simpl; [|done]. apply view_same; [|done]. intros c' i. by rewrite Hs.
  - destruct Hok as [Hq Hp]. eapply wp_mono; [by apply wp_set_parent|].
    intros [] m' (qs' & -> & Hl' & Hsame). split; [|split; [by apply gen_step_same|apply a_same_quotas]].
    apply wf_set_quotas; [done|done|]. intros x [v Ev]. specialize (Hsame x). rewrite Ev in Hsame.
    destruct (qs' !! x); [eauto|done].
Qed.

Lemma a_same_lock m c cn v :
  m_cns m !! c = Some cn -> a_same (abs m) (abs (set_cns (<[c := cn_set_lock cn v]>) m)).
Proof.
  intros Ec. split; simpl; [|done]. apply view_same; [|done].
  intros c' i. unfold slot_at. simpl. rewrite lookup_insert. case_decide; [subst; by rewrite Ec|done].
Qed.

Lemma sim_lock m k :
  wf m -> call_ok m k -> match k with KTrylock _ | KUnlock _ | KHold _ _ _ => True | _ => False end -> sim k m.
Proof.
  intros H Hok Hk. destruct k as [| | | | | | | |o r p|c|c| | | | | | | | | | | | |]; try done; unfold sim; simpl in *.
  - destruct Hok as [h Eh]. wsteps. split; [by eapply wf_set_hdr|]. split; [by apply gen_step_same|].
    split; simpl.
    + intros c i g. unfold cap_view. change (slot_at (set_objs _ m) c i) with (slot_at m c i).
      destruct (slot_at m c i) as [s|]; [|done]. simpl. unfold slot_view, obj_live, obj_gen_is. simpl.
      case_match; [|done]. destruct (slot_pObj s) as [o'|]; [|done]. rewrite lookup_insert.
      case_decide; [subst; by rewrite Eh|done].
    + intros o'. unfold obj_live. simpl. rewrite lookup_insert. case_decide; [subst; by rewrite Eh|done].
  - destruct Hok as [cn Ec]. unfold gj_cnode_trylock. wsteps.
    case_match; wsteps; [|split; [done|split; [by apply gen_step_same|reflexivity]]].
    split; [by eapply wf_lock|]. split; [by eapply (gen_step_hygiene (fun _ => True)), hygiene_lock|by apply a_same_lock].
  - destruct Hok as [cn Ec]. unfold gj_cnode_unlock. wsteps.
    split; [by eapply wf_lock|]. split; [by eapply (gen_step_hygiene (fun _ => True)), hygiene_lock|by apply a_same_lock].
Qed.

Lemma sim_install m k :
  wf m -> call_ok m k -> match k with KInstall _ _ _ _ _ | KAllocInstall _ _ _ _ => True | _ => False end -> sim k m.
Proof.
  intros H Hok Hk. destruct k as [| | | | | | | | | | | |pc i ty r po|pc ty r po| | | | | | | | | |]; try done;
    unfold sim; simpl in *; wsteps.
  - destruct Hok as (Hc & Ho & Hi). eapply wp_mono; [by apply wp_install|].
    intros [st [ref|]] m' [_ HQ]; simpl in HQ; wsteps.
    + destruct HQ as (_ & c & o & g & m1 & -> & -> & _ & Hins & Hq).
      pose proof (wf_installed _ _ _ _ _ _ _ _ _ H Hins) as H1. split; [by eapply wf_quiet|].
      assert (granted c i ty r o g m m') as Hg by (eapply granted_unseen_r; [by apply installed_granted|by apply unseen_quiet]).
      split; [by eapply gen_step_granted|]. right. exists c, o, i, g. split_and!; try done. by apply a_grant_granted.
    + destruct HQ as [_ Hq]. split; [by eapply wf_quiet|]. split; [by apply gen_step_quiet|]. left. by apply a_same_quiet.
  - destruct Hok as (Hc & Ho). eapply wp_mono; [by apply wp_alloc_install|].
    intros [st [ref|]] m' [_ HQ]; unfold install_outcome in HQ; simpl in HQ; wsteps.
    + destruct HQ as (_ & c & o & m1 & -> & -> & _ & Hins & Hq).
      pose proof (wf_installed _ _ _ _ _ _ _ _ _ H Hins) as H1. split; [by eapply wf_quiet|].
      assert (granted c (ref_u64Slot ref) ty r o (ref_u32SlotGen ref) m m') as Hg
        by (eapply granted_unseen_r; [by apply installed_granted|by apply unseen_quiet]).
      split; [by eapply gen_step_granted|]. right. exists c, o, (ref_u64Slot ref), (ref_u32SlotGen ref).
      split_and!; try done. by apply a_grant_granted.
    + destruct HQ as [_ Hq]. split; [by eapply wf_quiet|]. split; [by apply gen_step_quiet|]. left. by apply a_same_quiet.
Qed.

Lemma begin_gen_step m m' o h st :
  (if hdr_u32State h =? GJ_OBJ_LIVE then
      exists m1, killed o m m1 /\ deferred m1 m' /\
        ((st = GJ_OK /\ queued m' o)
         \/ (st = GJ_ERR_AGAIN /\ ~ queued m o
             /\ forall j qe, m_rq m !! j = Some qe -> qe_u8Active qe = true))
    else m' = m /\ st = (if (hdr_u32State h =? GJ_OBJ_DEAD) || (hdr_u32State h =? GJ_OBJ_REVOKING)
                         then GJ_ERR_DEAD else GJ_ERR_BUSY)) -> gen_step m m'.
Proof.
  destruct (hdr_u32State h =? GJ_OBJ_LIVE).
  - intros (m1 & (h0 & q & len & _ & _ & -> & _) & D & _). exact (gen_step_deferred _ _ D).
  - intros [-> _]. by apply gen_step_same.
Qed.

Lemma sim_begin m po : wf m -> optr_ok m po -> sim (KBegin po) m.
Proof.
  intros H Hpo. unfold sim. simpl. wsteps. destruct po as [o|].
  - destruct Hpo as [h Eh]. eapply wp_mono; [by apply wp_begin|]. intros st m' [H' HQ]. wsteps. split; [done|].
    split; [by eapply begin_gen_step|]. unfold abs at 1. simpl. unfold obj_live. rewrite Eh. destruct (hdr_u32State h =? GJ_OBJ_LIVE).
    + destruct HQ as (m1 & Hk & D & _). by eapply a_kill_killed.
    + by destruct HQ as [-> _].
  - unfold gj_obj_revoke_begin. wsteps. split; [done|]. split; [by apply gen_step_same|by split].
Qed.

Lemma sim_hygiene m k :
  wf m -> call_ok m k ->
  match k with KClear _ _ _ | KWalk _ _ | KDeferred _ | KReclaim _ => True | _ => False end -> sim k m.
Proof.
  intros H Hok Hk. destruct k as [| | | | | | | | | | | | | | | | | |c o max| |o max|max|po|]; try done;
    unfold sim; simpl in *; wsteps.
  - destruct Hok as [[cn Ec] Hm]. eapply wp_mono; [by apply wp_invalidate_obj_slots|].
    intros r m' (H' & Hh & _). wsteps. split; [done|]. split; [by eapply gen_step_hygiene|]. by apply a_shed_hygiene.
  - destruct Hok as [[h Eh] Hm]. destruct (wf_chain _ _ _ _ H Eh) as (l & Hch & _).
    eapply wp_mono; [by eapply wp_walk_batch|]. intros r m' (H' & m1 & Hw & H1 & D & _). wsteps. split; [done|].
    split; [by eapply gen_step_walked|]. eapply a_shed_same; [apply a_shed_hygiene, Hw|by apply a_same_deferred].
  - eapply wp_mono; [by apply wp_process_deferred|]. intros r m' (H' & D & _). wsteps.
    split; [done|]. split; [by apply gen_step_deferred|by apply a_same_deferred].
  - destruct po as [o|]; [|unfold gj_obj_reclaim; wsteps; split; [done|]; split; [by apply gen_step_same|by split]].
    destruct Hok as [h Eh]. eapply wp_mono; [by apply wp_reclaim|]. intros st m' [H' HQ]. wsteps. split; [done|].
    destruct (reclaimable h).
    + destruct HQ as (_ & m1 & q & len & -> & _ & _ & _ & D). pose proof (gen_step_deferred _ _ D) as Hgs.
      split; [exact Hgs|]. apply a_same_deferred in D as [D1 D2]. by split.
    + destruct HQ as [_ ->]. split; [by apply gen_step_same|done].
Qed.

Lemma sim_sys m p r : wf m -> call_ok m (KSys p r) -> sim (KSys p r) m.
Proof.
  intros H [Hc Hi]. unfold sim. simpl. unfold native_cap_syscall. wsteps.
  assert (forall Q : unit -> cap_mem -> Prop, Q tt m ->
    wp (if u64Nr r =? GJ_SYS_CAP_IDENT then tick_wrap "u64CapIdent"
        else if u64Nr r =? GJ_SYS_CAP_REVOKE then tick_wrap "u64CapRevoke"
        else if u64Nr r =? GJ_SYS_CAP_MOVE then tick_wrap "u64CapMove"
        else if u64Nr r =? GJ_SYS_CAP_COPY then tick_wrap "u64CapCopy" else tick_wrap "u64CapMint") Q m) as Ht
    by (intros Q HQ; repeat case_match; by wsteps).
  apply Ht. clear Ht. destruct p as [[c|]|]; simpl in *; [|wsteps; split; [done|split; [by apply gen_step_same|left; reflexivity]]..].
  assert (forall (rr : gj_status * option gj_cap_ref) m', wf m' ->
    forall P : Prop, P -> wp (match rr with (GJ_OK, Some out) => pret (pack_ref out) | (st, _) => pret (gj_status_code st) end)
      (fun _ m1 => wf m1 /\ P /\ m1 = m') m') as Hret.
  { intros [st [out|]] m' H' P HP; destruct st; by wsteps. }
  destruct (u64Nr r =? GJ_SYS_CAP_IDENT); wsteps.
  { eapply wp_mono; [by apply wp_resolve|]. intros rr m' [-> Hq].
    eapply wp_mono with (Q := fun _ m1 => m1 = m'); [|intros a m1 ->; wsteps;
      split; [by eapply wf_quiet|]; split; [by apply gen_step_quiet|left; by apply a_same_quiet]].
    destruct (resolve_result m (Some c) (u64Arg0 r) (u32_wrap (u64Arg1 r)) true) as [st [v|]]; destruct st; by wsteps. }
  destruct (Z.eqb_spec (u64Nr r) GJ_SYS_CAP_REVOKE) as [En|_]; wsteps.
  { eapply wp_mono; [by apply wp_delete_abs|]. intros st m' (H' & Hgs & HQ). wsteps. split; [done|]. split; [done|]. tauto. }
  destruct (Z.eqb_spec (u64Nr r) GJ_SYS_CAP_MOVE) as [En|_]; [|destruct (Z.eqb_spec (u64Nr r) GJ_SYS_CAP_COPY) as [En|_]].
  - eapply wp_mono; [by apply wp_move_abs|]. intros rr m' (H' & Hgs & HQ).
    eapply wp_mono; [by apply (Hret rr m' H' _ HQ)|]. intros a m1 (H1 & HP & ->). wsteps. split; [done|]. split; [done|]. tauto.
  - eapply wp_mono; [by apply wp_copy_abs|]. intros rr m' (H' & Hgs & HQ).
    eapply wp_mono; [by apply (Hret rr m' H' _ HQ)|]. intros a m1 (H1 & HP & ->). wsteps. split; [done|]. split; [done|]. tauto.
  - eapply wp_mono; [by apply wp_mint_abs|]. intros rr m' (H' & Hgs & HQ).
    eapply wp_mono; [by apply (Hret rr m' H' _ HQ)|]. intros a m1 (H1 & HP & ->). wsteps. split; [done|]. split; [done|]. tauto.
Qed.

(** Every call, from any memory that satisfies the invariant. *)
Lemma sim_call m k : wf m -> call_ok m k -> sim k m.
Proof.
  intros H Hok. destruct k.
  all: try (by apply sim_quota); try (by apply sim_lock); try (by apply sim_install);
    try (by apply sim_hygiene).
  - by apply sim_new_obj.
  - by apply sim_obj_init.
  - by apply sim_new_cnode.
  - by apply sim_cnode_init.
  - unfold sim. simpl in *. wsteps. eapply wp_mono; [apply wp_resolve; naive_solver|]. intros rr m' [_ Hq]. wsteps.
    split; [by eapply wf_quiet|]. split; [by apply gen_step_quiet|by apply a_same_quiet].
  - unfold sim. simpl in *. wsteps. eapply wp_mono; [apply wp_mint_abs; naive_solver|]. intros rr m' HQ. by wsteps.
  - unfold sim. simpl in *. wsteps. eapply wp_mono; [apply wp_copy_abs; naive_solver|]. intros rr m' HQ. by wsteps.
  - unfold sim. simpl in *. wsteps. eapply wp_mono; [apply wp_move_abs; naive_solver|]. intros rr m' HQ. by wsteps.
  - unfold sim. simpl in *. wsteps. eapply wp_mono; [apply wp_delete_abs; naive_solver|]. intros rr m' HQ. by wsteps.
  - by apply sim_begin.
  - by apply sim_sys.
Qed.
End Sim.
