(* ===== verification/CapSep.v ===== *)
(** Separation in the static edge pool.

    The operations of cnode.c reach the shared edge pool only through the
    chains of the objects they are given and through [cdt_edge_alloc].
    [keeps F P c]: when the edges in [F] are in use with contents [P] and no
    object and no edge outside [F] points into [F], running [c] leaves it so.
    Each operation of cnode.c keeps every such [F]: an operation never touches
    an edge that its objects do not own. *)
From stdpp Require Import base gmap list strings fin_maps.
From Stdlib Require Import ZArith Lia.
From S2P Require Import Prelude CapTypes CapEdges CapQuota CapCnode.

Section Sep.
Context (F : edgep -> Prop) (P : edgep -> option gj_cdt_edge).

Definition off (p : option edgep) : Prop := forall e, p = Some e -> ~ F e.

Record apart (m : cap_mem) : Prop := Apart {
  ap_kept : forall e, F e -> m_used m !! e = Some true /\ m_pool m !! e = P e;
  ap_heads : forall o h, m_objs m !! o = Some h -> off (hdr_pCdtHead h);
  ap_next : forall e ed, ~ F e -> m_pool m !! e = Some ed -> off (edge_pNext ed) }.

Definition keeps {A} (c : capM A) (R : A -> Prop) : Prop :=
  forall m t a m' t', apart m -> c (KSt m t) = Some (a, KSt m' t') -> apart m' /\ R a.

#[local] Abbreviation any := (fun _ => True).

Lemma off_none : off None.
Proof. done. Qed.

(** ** Structural rules *)
Lemma keeps_ret {A} (a : A) (R : A -> Prop) : R a -> keeps (pret a) R.
Proof. intros HR m t a' m' t' Hm [= -> -> ->]. done. Qed.

Lemma keeps_bind {A B} (c : capM A) (k : A -> capM B) (R1 : A -> Prop) (R : B -> Prop) :
  keeps c R1 -> (forall a, R1 a -> keeps (k a) R) -> keeps (pbind c k) R.
Proof.
  intros Hc Hk m t b m' t' Hm. unfold pbind. destruct (c (KSt m t)) as [[a [m1 t1]]|] eqn:E; [|done].
  destruct (Hc _ _ _ _ _ Hm E) as [H1 Ha]. by apply (Hk a Ha).
Qed.

Lemma keeps_mono {A} (c : capM A) (R R' : A -> Prop) : keeps c R -> (forall a, R a -> R' a) -> keeps c R'.
Proof. intros Hc HR m t a m' t' Hm E. destruct (Hc _ _ _ _ _ Hm E). auto. Qed.

Lemma keeps_fault {A} (R : A -> Prop) : keeps pfault R.
Proof. by intros m t a m' t' Hm. Qed.

(** Programs that leave the memory alone. *)
Lemma keeps_pure {A} (c : capM A) :
  (forall m t a m' t', c (KSt m t) = Some (a, KSt m' t') -> m' = m) -> keeps c any.
Proof. intros H m t a m' t' Hm E. by rewrite (H _ _ _ _ _ E). Qed.

Lemma keeps_get : keeps pget apart.
Proof. intros m t a m' t' Hm [= -> -> ->]. done. Qed.

Lemma keeps_put m : apart m -> keeps (pput m) any.
Proof. intros H m0 t a m' t' _ E. by inversion E; subst. Qed.

Lemma keeps_tel : keeps ptel any.
Proof. apply keeps_pure. by intros m t a m' t' [= -> -> ->]. Qed.

Lemma keeps_tel_put t : keeps (ptel_put t) any.
Proof. apply keeps_pure. intros m ? a m' t' E. by inversion E. Qed.

Lemma keeps_of_option {A} (o : option A) : keeps (of_option o) (fun a => o = Some a).
Proof. destruct o; [by apply keeps_ret|apply keeps_fault]. Qed.
End Sep.

#[local] Abbreviation any := (fun _ => True).

Create HintDb keeps.
#[export] Hint Resolve keeps_tel keeps_tel_put off_none : keeps.

(** One step: a bind whose head has a result worth keeping, a case, a leaf. *)
Ltac kleaf := first [exact I | by eauto with keeps | by (eapply keeps_mono; [eauto with keeps|done])].
Ltac kbind := eapply keeps_bind; [eauto with keeps; fail|cbv beta; intros ? ?].
Ltac kstep :=
  lazymatch goal with
  | |- keeps _ _ (pbind _ _) _ =>
      first [kbind | eapply (keeps_bind _ _ _ _ (fun _ => True)); [|cbv beta; intros ? _]]
  | |- keeps _ _ (pret _) _ => apply keeps_ret; first [done | by eauto with keeps]
  | |- keeps _ _ pfault _ => apply keeps_fault
  | |- keeps _ _ (let _ := _ in _) _ => cbv zeta
  | |- keeps _ _ (match _ with _ => _ end) _ => first [kleaf | case_match]
  | |- keeps _ _ (when _ _) _ => first [kleaf | unfold when]
  | |- keeps _ _ _ _ => kleaf
  end.
Ltac ksteps := repeat (cbv beta zeta; kstep).

Section Ops.
Context (F : edgep -> Prop) (P : edgep -> option gj_cdt_edge).
#[local] Abbreviation keeps := (keeps F P).
#[local] Abbreviation apart := (apart F P).
#[local] Abbreviation off := (off F).

(** ** Counters *)
Lemma keeps_tick c : keeps (tick c) any.
Proof. unfold tick. ksteps. Qed.
Lemma keeps_tel_set c v : keeps (tel_set c v) any.
Proof. unfold tel_set. ksteps. Qed.
#[local] Hint Resolve keeps_tick keeps_tel_set : keeps.
Lemma keeps_tel_or c v : keeps (tel_or c v) any.
Proof. unfold tel_or. ksteps. Qed.
Lemma keeps_tel_peak c v : keeps (tel_peak c v) any.
Proof. unfold tel_peak. ksteps. Qed.

(** ** Loads and stores *)
Lemma keeps_modify f : (forall m, apart m -> apart (f m)) -> keeps (modify f) any.
Proof.
  intros Hf. unfold modify. eapply keeps_bind; [apply keeps_get|]. intros m Hm. by apply keeps_put, Hf.
Qed.

Lemma keeps_load {A} (sel : cap_mem -> option A) (R : A -> Prop) :
  (forall m a, apart m -> sel m = Some a -> R a) -> keeps (m <- pget ;; of_option (sel m)) R.
Proof.
  intros H. eapply keeps_bind; [apply keeps_get|]. intros m Hm. eapply keeps_mono; [apply keeps_of_option|].
  intros a E. eauto.
Qed.

Lemma keeps_obj_load o : keeps (obj_load o) (fun h => off (hdr_pCdtHead h)).
Proof. apply (keeps_load (fun m => m_objs m !! o)). intros m h Hm E. eapply ap_heads; eauto. Qed.
Lemma keeps_cn_load c : keeps (cn_load c) any.
Proof. by apply (keeps_load (fun m => m_cns m !! c)). Qed.
Lemma keeps_quota_load q : keeps (quota_load q) any.
Proof. by apply (keeps_load (fun m => m_quotas m !! q)). Qed.
Lemma keeps_edge_load e : ~ F e -> keeps (edge_load e) (fun ed => off (edge_pNext ed)).
Proof. intros He. apply (keeps_load (fun m => m_pool m !! e)). intros m ed Hm E. eapply ap_next; eauto. Qed.
#[local] Hint Resolve keeps_obj_load keeps_cn_load keeps_quota_load keeps_edge_load : keeps.

Lemma keeps_slot_load c i : keeps (slot_load c i) any.
Proof. unfold slot_load. kbind. eapply keeps_mono; [apply keeps_of_option|done]. Qed.
#[local] Hint Resolve keeps_slot_load : keeps.

Lemma keeps_obj_store o h : off (hdr_pCdtHead h) -> keeps (obj_store o h) any.
Proof.
  intros Hh. unfold obj_store. kbind. apply keeps_modify. intros m [A B C]. split; try done.
  intros o' h' E. simpl in E. destruct (decide (o = o')) as [->|].
  - rewrite lookup_insert_eq in E. by injection E as <-.
  - rewrite lookup_insert_ne in E by done. eauto.
Qed.
Lemma keeps_cn_store c cn : keeps (cn_store c cn) any.
Proof. unfold cn_store. kbind. apply keeps_modify. by intros m [A B C]. Qed.
Lemma keeps_quota_store q v : keeps (quota_store q v) any.
Proof. unfold quota_store. kbind. apply keeps_modify. by intros m [A B C]. Qed.
#[local] Hint Resolve keeps_cn_store keeps_quota_store : keeps.
Lemma keeps_slot_store c i v : keeps (slot_store c i v) any.
Proof. unfold slot_store. ksteps. Qed.

(** Writing an edge outside [F]. *)
Lemma apart_set e v b n m :
  ~ F e -> off (edge_pNext v) -> apart m ->
  apart (set_pool (<[e := v]> (m_pool m)) (<[e := b]> (m_used m)) n m).
Proof.
  intros He Hv [A B C]. split; simpl; [|done|].
  - intros i Hi. rewrite !list_lookup_insert_ne by congruence. auto.
  - intros i ed Hi E. apply list_lookup_insert_Some in E as [(_ & <- & _)|[_ E]]; eauto.
Qed.

Lemma keeps_edge_store e v : ~ F e -> off (edge_pNext v) -> keeps (edge_store e v) any.
Proof.
  intros He Hv. unfold edge_store. kbind. apply keeps_modify. intros m Hm.
  pose proof (apart_set e v true (m_pool_used m) m He Hv Hm) as [A B C]. destruct Hm as [A' _ _].
  split; try done. intros i Hi. split; [apply A'|apply (A i)]; done.
Qed.
#[local] Hint Resolve keeps_obj_store keeps_slot_store keeps_edge_store : keeps.

(** ** The pool *)
Lemma keeps_edge_alloc : keeps cdt_edge_alloc off.
Proof.
  unfold cdt_edge_alloc. eapply keeps_bind; [apply keeps_get|]. intros m Hm.
  destruct (first_free (m_used m) 0) as [i|] eqn:E; [|ksteps].
  apply first_free_spec in E as [_ E]. rewrite Nat.sub_0_r in E.
  assert (~ F i) as Hi. { intros Hi. apply (ap_kept _ _ _ Hm) in Hi as [Hu _]. congruence. }
  eapply keeps_bind; [apply keeps_put, apart_set; done|]. intros _ _. kbind. apply keeps_ret. by intros e [= <-].
Qed.

Lemma keeps_edge_free p : off p -> keeps (cdt_edge_free p) any.
Proof.
  intros Hp. unfold cdt_edge_free. destruct p as [e|]; [|ksteps].
  eapply keeps_bind; [apply keeps_get|]. intros m Hm. case_match; [|ksteps].
  eapply keeps_bind; [apply keeps_put, apart_set; [by apply Hp|done|done]|]. intros _ _. ksteps.
Qed.
#[local] Hint Resolve keeps_edge_alloc keeps_edge_free : keeps.

Lemma off_some e : off (Some e) -> ~ F e.
Proof. intros H. by apply H. Qed.
Lemma off_of e : ~ F e -> off (Some e).
Proof. by intros H ? [= <-]. Qed.
#[local] Hint Resolve off_some off_of : keeps.

Lemma keeps_chain_depth p : keeps (cdt_edge_chain_depth p) any.
Proof.
  unfold cdt_edge_chain_depth. destruct p as [o|]; [|ksteps]. kbind. generalize GJ_CDT_EDGE_POOL, 0.
  match goal with H : off ?q |- _ => revert H; generalize q end. intros q Hq n. revert q Hq.
  induction n as [|n IH]; intros [e|] Hq d; simpl; try by apply keeps_ret.
  eapply keeps_bind; [apply keeps_edge_load; eauto with keeps|]. intros ed Hed. by apply IH.
Qed.

Lemma keeps_edge_link_scan n : forall p e, off p -> keeps (edge_link_scan n p e) any.
Proof.
  induction n as [|n IH]; intros [w|] e Hp; simpl; ksteps.
Qed.
#[local] Hint Resolve keeps_edge_link_scan keeps_chain_depth : keeps.

Lemma keeps_edge_link po pe pc i : off pe -> keeps (gj_cdt_edge_link po pe pc i) any.
Proof. intros He. unfold gj_cdt_edge_link. ksteps. Qed.

Lemma keeps_edge_unlink_loop n o e : forall pv w, off pv -> off w -> keeps (edge_unlink_loop n o e pv w) any.
Proof.
  induction n as [|n IH]; intros pv [w|] Hpv Hw; simpl; [ksteps..| |ksteps].
  eapply keeps_bind; [apply keeps_edge_load; eauto with keeps|]. intros ed Hed.
  case_bool_decide; [|apply IH; [|done]; done]. subst. unfold cdt_edge_free_if_pool. ksteps.
Qed.
#[local] Hint Resolve keeps_edge_unlink_loop : keeps.

Lemma keeps_edge_unlink po pe : keeps (gj_cdt_edge_unlink po pe) any.
Proof. unfold gj_cdt_edge_unlink. ksteps. Qed.
#[local] Hint Resolve keeps_edge_link keeps_edge_unlink : keeps.

Lemma keeps_unlink_slot_loop n o pc i : forall w k, off w -> keeps (unlink_slot_loop n o pc i w k) any.
Proof.
  induction n as [|n IH]; intros [w|] k Hw; simpl; [ksteps..| |ksteps].
  eapply keeps_bind; [apply keeps_edge_load; eauto with keeps|]. intros ed Hed. case_match; [|by apply IH].
  kbind. by apply IH.
Qed.
#[local] Hint Resolve keeps_unlink_slot_loop : keeps.

Lemma keeps_unlink_slot po pc i : keeps (gj_cdt_unlink_slot po pc i) any.
Proof. unfold gj_cdt_unlink_slot. ksteps. Qed.
#[local] Hint Resolve keeps_unlink_slot keeps_tel_or keeps_tel_peak : keeps.

Lemma keeps_audit po b : keeps (cdt_soft_empty_edge_audit po b) any.
Proof. unfold cdt_soft_empty_edge_audit. ksteps. Qed.
#[local] Hint Resolve keeps_audit : keeps.

(** ** Quota accounts *)
Lemma keeps_charge_check n : forall p, keeps (quota_charge_check n p) any.
Proof. induction n as [|n IH]; intros [q|]; simpl; ksteps. Qed.
Lemma keeps_quota_apply f n : forall p, keeps (quota_apply f n p) any.
Proof. induction n as [|n IH]; intros [q|]; simpl; ksteps. Qed.
#[local] Hint Resolve keeps_charge_check keeps_quota_apply : keeps.
Lemma keeps_slot_charge p : keeps (gj_cap_quota_slot_charge p) any.
Proof. unfold gj_cap_quota_slot_charge. ksteps. Qed.
Lemma keeps_slot_refund p : keeps (gj_cap_quota_slot_refund p) any.
Proof. unfold gj_cap_quota_slot_refund. ksteps. Qed.
Lemma keeps_quota_init q n : keeps (gj_cap_quota_init q n) any.
Proof. unfold gj_cap_quota_init. ksteps. Qed.
Lemma keeps_quota_attach c q : keeps (gj_cap_quota_attach c q) any.
Proof. unfold gj_cap_quota_attach. ksteps. Qed.
#[local] Hint Resolve keeps_slot_charge keeps_slot_refund : keeps.

(** ** CNode operations *)
Lemma keeps_hdr_init p : keeps (gj_obj_hdr_init p) any.
Proof. unfold gj_obj_hdr_init. ksteps. Qed.
#[local] Hint Resolve keeps_hdr_init : keeps.
Lemma keeps_cnode_init c b n : keeps (gj_cnode_init c b n) any.
Proof. unfold gj_cnode_init. ksteps. Qed.

Lemma keeps_slots_left_dec o : keeps (slots_left_dec o) any.
Proof. unfold slots_left_dec. ksteps. Qed.
#[local] Hint Resolve keeps_slots_left_dec : keeps.
Lemma keeps_invalidate_locked ps po : keeps (gj_cap_slot_invalidate_locked ps po) any.
Proof. unfold gj_cap_slot_invalidate_locked. ksteps. Qed.

Lemma keeps_note_install ty : keeps (cdt_soft_ddi_note_install ty) any.
Proof. unfold cdt_soft_ddi_note_install. ksteps. Qed.
Lemma keeps_when b c : keeps c any -> keeps (when b c) any.
Proof. intros Hc. unfold when. ksteps. Qed.
#[local] Hint Resolve keeps_invalidate_locked keeps_note_install keeps_when : keeps.
Lemma keeps_note_mint ty r b : keeps (cdt_soft_ddi_note_mint ty r b) any.
Proof. unfold cdt_soft_ddi_note_mint. ksteps. Qed.
Lemma keeps_ret_bucket a b c d st : keeps (ret_bucket a b c d st) any.
Proof. unfold ret_bucket. ksteps. Qed.
Lemma keeps_alloc_bucket st : keeps (alloc_bucket st) any.
Proof. unfold alloc_bucket. ksteps. Qed.
#[local] Hint Resolve keeps_note_mint keeps_ret_bucket keeps_alloc_bucket : keeps.
#[local] Hint Unfold mint_bucket copy_bucket move_bucket del_bucket : keeps.

Section Hook.
Context (hook : capM unit) (Hh : keeps hook any).

Lemma keeps_rollup : keeps (cdt_soft_coverage_rollup hook) any.
Proof. unfold cdt_soft_coverage_rollup. ksteps. Qed.
#[local] Hint Resolve keeps_rollup : keeps.
Lemma keeps_try_wire po pc i a b c : keeps (cdt_edge_try_wire hook po pc i a b c) any.
Proof. unfold cdt_edge_try_wire. ksteps. Qed.
Lemma keeps_tally_install : keeps (cdt_soft_tally_install hook) any.
Proof. unfold cdt_soft_tally_install. ksteps. Qed.
#[local] Hint Resolve keeps_try_wire keeps_tally_install : keeps.

Lemma keeps_resolve pc i g b : keeps (gj_cap_resolve hook pc i g b) any.
Proof. unfold gj_cap_resolve. ksteps. Qed.
Lemma keeps_install pc i ty r po b : keeps (gj_cap_slot_install hook pc i ty r po b) any.
Proof. unfold gj_cap_slot_install. ksteps. Qed.
Lemma keeps_alloc_scan n c : forall i, keeps (alloc_scan n c i) any.
Proof. induction n as [|n IH]; intros i; simpl; ksteps. Qed.
#[local] Hint Resolve keeps_resolve keeps_install keeps_alloc_scan : keeps.
Lemma keeps_alloc_install pc ty r po b : keeps (gj_cap_alloc_install hook pc ty r po b) any.
Proof. unfold gj_cap_alloc_install. ksteps. Qed.
#[local] Hint Resolve keeps_alloc_install : keeps.

Lemma keeps_mint ps i g r pd b : keeps (gj_cap_mint hook ps i g r pd b) any.
Proof. unfold gj_cap_mint. ksteps. Qed.
Lemma keeps_copy pc i g r b : keeps (gj_cap_copy hook pc i g r b) any.
Proof. unfold gj_cap_copy. ksteps. Qed.
Lemma keeps_move pc i g b : keeps (gj_cap_move hook pc i g b) any.
Proof. unfold gj_cap_move. ksteps. Qed.
Lemma keeps_delete pc i g : keeps (gj_cap_delete hook pc i g) any.
Proof. unfold gj_cap_delete. ksteps. Qed.
End Hook.
End Ops.

#[export] Hint Resolve keeps_tick keeps_tel_set keeps_tel_or keeps_tel_peak keeps_obj_load keeps_cn_load
  keeps_quota_load keeps_obj_store keeps_quota_store keeps_quota_init keeps_quota_attach keeps_hdr_init
  keeps_cnode_init keeps_when keeps_resolve keeps_install keeps_alloc_install keeps_mint keeps_copy
  keeps_move keeps_delete : keeps.
