(* ===== verification/CapLean.v ===== *)
(** The self-tests the capability subsystem runs on itself.

    [kernel/cap/cnode.c] and [kernel/cap/revoke.c] call an inventory function
    at the end of most operations; the first call with activity runs a
    self-test and lights a lamp, every later call returns at once.  This file
    models both inventory functions and both self-tests; [CapLeanCnode] and
    [CapLeanRevoke] prove that they do not disturb the rest of the system.

    The self-test of cnode.c works on two CNodes, their slot arrays, five
    objects and a quota account that live in its stack frame, and on the static
    edge pool.  [with_frame] runs it on a memory that holds that frame and the
    pool and nothing else, so that an access to anything else would fault.
    While it runs [g_u8CdtSoftLeanBusy] is set and the inventory calls nested in
    the operations return at once: the operations are taken with the hook
    [quiet_hook]. *)
From stdpp Require Import base gmap list strings fin_maps.
From Stdlib Require Import ZArith Lia.
From S2P Require Import Prelude CapTypes CapEdges CapQuota CapCnode CapRevoke.

(** An inventory call while a self-test runs. *)
Definition quiet_hook : capM unit := pret tt.

Definition GJ_CDT_LEAN_SLOTS : Z := 12.
Definition GJ_CDT_LEAN_UDX_OBJS : Z := 3.
Definition GJ_CDT_LEAN_QUOTA_LIM : Z := 2.

(** ** The stack frame of the cnode.c self-test *)
Record lean_frame : Type := LeanFrame {
  lf_cnSrc : cnp;
  lf_cnDst : cnp;
  lf_hdrSrc : objp;      (* &cnSrc.hdr *)
  lf_hdrDst : objp;      (* &cnDst.hdr *)
  lf_aObj : objp * objp * objp;
  lf_objNoMint : objp;
  lf_objQuota : objp;
  lf_qLean : quotap }.

(** A pointer above every pointer in use. *)
Definition ptr_top {A} (mp : gmap positive A) : positive :=
  map_fold (fun p _ acc => Pos.max p acc) 1%positive mp.

Definition lean_frame_of (m : cap_mem) : lean_frame :=
  let o := ptr_top (m_objs m) in
  let c := ptr_top (m_cns m) in
  LeanFrame (c + 1) (c + 2) (o + 1) (o + 2) (o + 3, o + 4, o + 5)%positive (o + 6) (o + 7)
    (ptr_top (m_quotas m) + 1).

Definition frame_mem (f : lean_frame) (m : cap_mem) : cap_mem :=
  let '(o0, o1, o2) := lf_aObj f in
  CapMem
    (list_to_map ((fun o => (o, zero_hdr)) <$>
       [lf_hdrSrc f; lf_hdrDst f; o0; o1; o2; lf_objNoMint f; lf_objQuota f]))
    (list_to_map [(lf_cnSrc f, zero_cnode (lf_hdrSrc f)); (lf_cnDst f, zero_cnode (lf_hdrDst f))])
    {[ lf_qLean f := zero_quota ]}
    (m_pool m) (m_used m) (m_pool_used m) (m_rq cap_mem0) (m_rqlen cap_mem0) (m_rqcur cap_mem0)
    (m_inv_logged m) (m_lean_once m) (m_lean_busy m).

(** Return from the frame: everything but the static pool is as it was. *)
Definition unframe (m m' : cap_mem) : cap_mem :=
  set_lamps (m_inv_logged m') (m_lean_once m') (m_lean_busy m')
    (set_pool (m_pool m') (m_used m') (m_pool_used m') m).

Definition with_frame (body : lean_frame -> capM unit) : capM unit :=
  m <- pget ;;
  let f := lean_frame_of m in
  pput (frame_mem f m) ;;;
  body f ;;;
  m' <- pget ;;
  pput (unframe m m').

(** ** The checks *)

(** Locals that live across checks: the two reference arrays, the copied
    reference and the two counts. *)
Record lean_loc : Type := LeanLoc {
  ll_aRef : gj_cap_ref * gj_cap_ref * gj_cap_ref;
  ll_aRefHost : gj_cap_ref * gj_cap_ref * gj_cap_ref;
  ll_refCopy : gj_cap_ref;
  ll_u32Checks : Z;
  ll_u32Pass : Z }.

Definition ll_set_ref (l : lean_loc) r : lean_loc :=
  LeanLoc r (ll_aRefHost l) (ll_refCopy l) (ll_u32Checks l) (ll_u32Pass l).
Definition ll_set_host (l : lean_loc) r : lean_loc :=
  LeanLoc (ll_aRef l) r (ll_refCopy l) (ll_u32Checks l) (ll_u32Pass l).
Definition ll_set_copy (l : lean_loc) r : lean_loc :=
  LeanLoc (ll_aRef l) (ll_aRefHost l) r (ll_u32Checks l) (ll_u32Pass l).
Definition ll_check (l : lean_loc) : lean_loc :=
  LeanLoc (ll_aRef l) (ll_aRefHost l) (ll_refCopy l) (ll_u32Checks l + 1) (ll_u32Pass l).
Definition ll_pass (l : lean_loc) : lean_loc :=
  LeanLoc (ll_aRef l) (ll_aRefHost l) (ll_refCopy l) (ll_u32Checks l) (ll_u32Pass l + 1).

Definition lean_loc0 : lean_loc :=
  LeanLoc (gj_cap_ref_null, gj_cap_ref_null, gj_cap_ref_null)
    (gj_cap_ref_null, gj_cap_ref_null, gj_cap_ref_null) gj_cap_ref_null 0 0.

(** [if (b) { soft_inc(&c); u32Pass++; }] *)
Definition pass_if (b : bool) (c : string) (l : lean_loc) : capM lean_loc :=
  if b then tick c ;;; pret (ll_pass l) else pret l.

Definition st_is (st want : gj_status) : bool := bool_decide (st = want).

(** The value of an out-parameter after a call that may not have written it. *)
Definition out_ref {A} (r : A * option gj_cap_ref) (old : gj_cap_ref) : gj_cap_ref := default old (snd r).

Definition res_type (r : gj_status * option gj_cap_resolved) : Z :=
  match snd r with Some v => res_u16Type v | None => 0 end.
Definition res_rights (r : gj_status * option gj_cap_resolved) : Z :=
  match snd r with Some v => res_u16Rights v | None => 0 end.
(** [u16Rights & (u16)(~(u16)GJ_RIGHT_DESTROY)] *)
Definition host_bits (r : Z) : Z := Z.land r (u16_wrap (Z.lnot GJ_RIGHT_DESTROY)).

Definition lean_rights (base : Z) : Z :=
  Z.lor (Z.lor (Z.lor base GJ_RIGHT_MINT) GJ_RIGHT_GRANT) GJ_RIGHT_DESTROY.
Definition aRights0 : Z := lean_rights GJ_RIGHTS_DDI_MMIO_HOST.
Definition aRights1 : Z := lean_rights GJ_RIGHTS_DDI_IRQ_HOST.
Definition aRights2 : Z := lean_rights GJ_RIGHTS_DDI_NOTIF_HOST.

Section Checks.
Context (f : lean_frame).
#[local] Abbreviation src := (Some (lf_cnSrc f)).
#[local] Abbreviation dst := (Some (lf_cnDst f)).
#[local] Abbreviation obj0 := (Some (fst (fst (lf_aObj f)))).
#[local] Abbreviation obj1 := (Some (snd (fst (lf_aObj f)))).
#[local] Abbreviation obj2 := (Some (snd (lf_aObj f))).
#[local] Abbreviation resolve := (gj_cap_resolve quiet_hook).
#[local] Abbreviation resolve_of pc r := (gj_cap_resolve quiet_hook pc (ref_u64Slot r) (ref_u32SlotGen r) true).

Definition lean_init : capM unit :=
  gj_cnode_init src true GJ_CDT_LEAN_SLOTS ;;;
  gj_cnode_init dst true GJ_CDT_LEAN_SLOTS ;;;
  gj_obj_hdr_init obj0 ;;;
  gj_obj_hdr_init obj1 ;;;
  gj_obj_hdr_init obj2 ;;;
  gj_obj_hdr_init (Some (lf_objNoMint f)) ;;;
  gj_obj_hdr_init (Some (lf_objQuota f)).

(** 1, 1b: [ROOT_META] exactly in slot 0. *)
Definition lean_root (l : lean_loc) : capM lean_loc :=
  r <- gj_cap_slot_install quiet_hook src GJ_CAP_SLOT_ROOT_META GJ_CAP_FRAME aRights0 obj0 true ;;
  l <- pass_if (st_is (fst r) GJ_ERR_PERM) "g_u32SoftLeanRootGuardOk" (ll_check l) ;;
  r <- gj_cap_slot_install quiet_hook src 1 GJ_CAP_ROOT_META aRights0 obj0 true ;;
  pass_if (st_is (fst r) GJ_ERR_PERM) "g_u32SoftLeanRootMetaSlotOk" (ll_check l).

(** One round of loop 2: install a stand-in. *)
Definition lean_inst (ty rights : Z) (po : option objp) (l : lean_loc) : capM (gj_cap_ref * lean_loc) :=
  r <- gj_cap_alloc_install quiet_hook src ty rights po true ;;
  let ref := out_ref r gj_cap_ref_null in
  l <- pass_if (is_ok (fst r) && negb (gj_cap_ref_is_null ref)) "g_u32SoftLeanInstOk" (ll_check l) ;;
  pret (ref, l).

Definition lean_install (l : lean_loc) : capM lean_loc :=
  x0 <- lean_inst GJ_CAP_FRAME aRights0 obj0 l ;;
  x1 <- lean_inst GJ_CAP_IRQ aRights1 obj1 (snd x0) ;;
  x2 <- lean_inst GJ_CAP_NOTIFICATION aRights2 obj2 (snd x1) ;;
  pret (ll_set_ref (snd x2) (fst x0, fst x1, fst x2)).

(** 3a to 3e: resolve fails closed; an occupied slot is busy. *)
Definition lean_resolve (l : lean_loc) : capM lean_loc :=
  let r0 := fst (fst (ll_aRef l)) in
  x <- resolve_of src r0 ;;
  l <- pass_if (is_ok (fst x) && (res_type x =? GJ_CAP_FRAME)) "g_u32SoftLeanResLiveOk" (ll_check l) ;;
  x <- resolve src (ref_u64Slot r0) 0 true ;;
  l <- pass_if (st_is (fst x) GJ_ERR_INVAL) "g_u32SoftLeanResNullOk" (ll_check l) ;;
  x <- resolve src (ref_u64Slot r0) (u32_wrap (ref_u32SlotGen r0 + 1)) true ;;
  l <- pass_if (st_is (fst x) GJ_ERR_STALE_CAP) "g_u32SoftLeanResStaleOk" (ll_check l) ;;
  x <- resolve src (GJ_CDT_LEAN_SLOTS - 1) 1 true ;;
  l <- pass_if (st_is (fst x) GJ_ERR_NOENT) "g_u32SoftLeanNoentOk" (ll_check l) ;;
  let l := ll_check l in
  if gj_cap_ref_is_null r0 then pret l
  else
    r <- gj_cap_slot_install quiet_hook src (ref_u64Slot r0) GJ_CAP_FRAME aRights0 obj0 true ;;
    pass_if (st_is (fst r) GJ_ERR_BUSY) "g_u32SoftLeanBusyOk" l.

(** One round of loop 4: mint a stand-in across CNodes.  Returns the new
    reference, the number of crossings it adds and the locals. *)
Definition lean_mint1 (ty rights : Z) (ref : gj_cap_ref) (l : lean_loc)
    : capM (gj_cap_ref * Z * lean_loc) :=
  let u16Weak := gj_cap_rights_ddi_host_default ty in
  r <- gj_cap_mint quiet_hook src (ref_u64Slot ref) (ref_u32SlotGen ref)
         (Z.lor u16Weak GJ_RIGHT_DESTROY) dst true ;;
  let host := out_ref r gj_cap_ref_null in
  let l := ll_check l in
  if is_ok (fst r) && negb (gj_cap_ref_is_null host) then
    tick "g_u32SoftLeanMintOk" ;;;
    tick "g_u32SoftLeanCrossOk" ;;;
    x <- resolve_of dst host ;;
    when (is_ok (fst x) && gj_cap_rights_is_subset rights (res_rights x)
          && negb (host_bits (res_rights x) =? 0)
          && gj_cap_rights_ddi_host_subset_ok ty (host_bits (res_rights x)))
      (tick "g_u32SoftLeanHostSubsetOk") ;;;
    pret (host, 1, ll_pass l)
  else pret (host, 0, l).

(** 4, 4b: the host package crosses with host rights only. *)
Definition lean_mint (l : lean_loc) : capM lean_loc :=
  let '(r0, r1, r2) := ll_aRef l in
  x0 <- lean_mint1 GJ_CAP_FRAME aRights0 r0 l ;;
  x1 <- lean_mint1 GJ_CAP_IRQ aRights1 r1 (snd x0) ;;
  x2 <- lean_mint1 GJ_CAP_NOTIFICATION aRights2 r2 (snd x1) ;;
  let host0 := fst (fst x0) in
  let l := ll_set_host (snd x2) (host0, fst (fst x1), fst (fst x2)) in
  let u32PkgCross := snd (fst x0) + snd (fst x1) + snd (fst x2) in
  l <- pass_if (u32PkgCross =? GJ_CDT_LEAN_UDX_OBJS) "g_u32SoftLeanPkgCrossOk" (ll_check l) ;;
  t <- ptel ;;
  let l := ll_check l in
  let l := if GJ_CDT_LEAN_UDX_OBJS <=? tel_val t "g_u32SoftLeanHostSubsetOk" then ll_pass l else l in
  let l := ll_check l in
  if gj_cap_ref_is_null host0 then pret l
  else
    x <- resolve_of dst host0 ;;
    pass_if (is_ok (fst x) && gj_cap_rights_ddi_dma_host_subset_ok (host_bits (res_rights x)))
      "g_u32SoftLeanDmaShapeOk" l.

(** 5: a right the source lacks is not minted. *)
Definition lean_escalate (l : lean_loc) : capM lean_loc :=
  let r0 := fst (fst (ll_aRef l)) in
  let u16Esc := Z.lor (Z.lor (gj_cap_rights_ddi_host_default GJ_CAP_FRAME) GJ_RIGHT_SPAWN) GJ_RIGHT_DESTROY in
  r <- gj_cap_mint quiet_hook src (ref_u64Slot r0) (ref_u32SlotGen r0) u16Esc dst true ;;
  let refTmp := out_ref r gj_cap_ref_null in
  let l := ll_check l in
  if st_is (fst r) GJ_ERR_PERM then pass_if true "g_u32SoftLeanMintEscFail" l
  else if is_ok (fst r) && negb (gj_cap_ref_is_null refTmp) then
    x <- resolve_of dst refTmp ;;
    l <- pass_if (is_ok (fst x) && (Z.land (res_rights x) GJ_RIGHT_SPAWN =? 0)) "g_u32SoftLeanMintEscFail" l ;;
    gj_cap_delete quiet_hook dst (ref_u64Slot refTmp) (ref_u32SlotGen refTmp) ;;;
    pret l
  else pret l.

(** 5b: no [MINT] right, no mint. *)
Definition lean_no_mint (l : lean_loc) : capM lean_loc :=
  let l := ll_check l in
  r <- gj_cap_alloc_install quiet_hook src GJ_CAP_FRAME
         (Z.lor (Z.lor GJ_RIGHTS_DDI_MMIO_HOST GJ_RIGHT_GRANT) GJ_RIGHT_DESTROY) (Some (lf_objNoMint f)) true ;;
  let ref := out_ref r gj_cap_ref_null in
  if is_ok (fst r) && negb (gj_cap_ref_is_null ref) then
    r <- gj_cap_mint quiet_hook src (ref_u64Slot ref) (ref_u32SlotGen ref)
           (gj_cap_rights_ddi_host_default GJ_CAP_FRAME) dst true ;;
    pass_if (st_is (fst r) GJ_ERR_PERM) "g_u32SoftLeanMintNoMintOk" l
  else pret l.

(** 6a: copy of the FRAME capability. *)
Definition lean_copy (l : lean_loc) : capM lean_loc :=
  let r0 := fst (fst (ll_aRef l)) in
  let l := ll_check l in
  if gj_cap_ref_is_null r0 then pret l
  else
    r <- gj_cap_copy quiet_hook src (ref_u64Slot r0) (ref_u32SlotGen r0)
           (gj_cap_rights_ddi_host_default GJ_CAP_FRAME) true ;;
    let ref := out_ref r gj_cap_ref_null in
    let l := ll_set_copy l ref in
    if is_ok (fst r) && negb (gj_cap_ref_is_null ref) then
      x <- resolve_of src ref ;;
      pass_if (is_ok (fst x) && (res_type x =? GJ_CAP_FRAME) && (Z.land (res_rights x) GJ_RIGHT_SPAWN =? 0))
        "g_u32SoftLeanCopyOk" l
    else pret l.

(** 6b: move of the copy. *)
Definition lean_move (l : lean_loc) : capM lean_loc :=
  let c := ll_refCopy l in
  let l := ll_check l in
  if gj_cap_ref_is_null c then pret l
  else
    r <- gj_cap_move quiet_hook src (ref_u64Slot c) (ref_u32SlotGen c) true ;;
    let ref := out_ref r gj_cap_ref_null in
    if is_ok (fst r) && negb (gj_cap_ref_is_null ref) then
      x <- resolve_of src c ;;
      if st_is (fst x) GJ_ERR_STALE_CAP || st_is (fst x) GJ_ERR_NOENT then
        x <- resolve_of src ref ;;
        pass_if (is_ok (fst x)) "g_u32SoftLeanMoveOk" l
      else pret l
    else pret l.

(** Occupied slots of [aSrcSlots], slot 0 left out. *)
Definition lean_used : capM Z :=
  cn <- cn_load (lf_cnSrc f) ;;
  pret (match cn_pSlots cn with
        | Some sl => Z.of_nat (countb (fun s => negb (slot_u16Type s =? GJ_CAP_INVALID)) (drop 1 sl))
        | None => 0
        end).

(** 7: charge the last unit, exhaust, refund on delete. *)
Definition lean_quota (l : lean_loc) : capM lean_loc :=
  let l := ll_check l in
  u32UsedBefore <- lean_used ;;
  let u32Lim := u32UsedBefore + 1 in
  gj_cap_quota_init (Some (lf_qLean f)) (if u32Lim <? 1 then GJ_CDT_LEAN_QUOTA_LIM else u32Lim) ;;;
  q <- quota_load (lf_qLean f) ;;
  quota_store (lf_qLean f) (CapQuota (q_u32Limit q) u32UsedBefore (q_u32Exhaust q) u32UsedBefore
    (q_u32ChargeOk q) (q_u32RefundOk q) (q_pParent q)) ;;;
  gj_cap_quota_attach src (Some (lf_qLean f)) ;;;
  r <- gj_cap_alloc_install quiet_hook src GJ_CAP_FRAME (Z.lor GJ_RIGHTS_DDI_MMIO_HOST GJ_RIGHT_DESTROY)
         (Some (lf_objQuota f)) true ;;
  let ref := out_ref r gj_cap_ref_null in
  l <- (if is_ok (fst r) && negb (gj_cap_ref_is_null ref) then
          r2 <- gj_cap_alloc_install quiet_hook src GJ_CAP_FRAME GJ_RIGHTS_DDI_MMIO_HOST
                  (Some (lf_objQuota f)) true ;;
          if st_is (fst r2) GJ_ERR_QUOTA then
            st <- gj_cap_delete quiet_hook src (ref_u64Slot ref) (ref_u32SlotGen ref) ;;
            q <- quota_load (lf_qLean f) ;;
            pass_if (is_ok st && (q_u32Used q =? u32UsedBefore)) "g_u32SoftLeanQuotaOk" l
          else pret l
        else pret l) ;;
  gj_cap_quota_attach src None ;;;
  pret l.

(** [if (st == GJ_OK && !gj_cap_ref_is_null(&ref)) st = gj_cap_delete(pc, ref)] *)
Definition lean_del1 (pc : option cnp) (ref : gj_cap_ref) (st : gj_status) : capM gj_status :=
  if is_ok st && negb (gj_cap_ref_is_null ref)
  then gj_cap_delete quiet_hook pc (ref_u64Slot ref) (ref_u32SlotGen ref)
  else pret st.

(** 8, 8b: deletes, and the deleted handle is stale. *)
Definition lean_delete (l : lean_loc) : capM lean_loc :=
  let refMint := fst (fst (ll_aRefHost l)) in
  st <- (if gj_cap_ref_is_null refMint then pret GJ_ERR_INVAL else lean_del1 dst refMint GJ_OK) ;;
  st <- lean_del1 dst (snd (fst (ll_aRefHost l))) st ;;
  st <- lean_del1 src (snd (fst (ll_aRef l))) st ;;
  l <- pass_if (is_ok st) "g_u32SoftLeanDelOk" (ll_check l) ;;
  let l := ll_check l in
  if gj_cap_ref_is_null refMint then pret l
  else
    x <- resolve_of dst refMint ;;
    pass_if (st_is (fst x) GJ_ERR_STALE_CAP || st_is (fst x) GJ_ERR_NOENT) "g_u32SoftLeanDelStaleOk" l.

(** 9: an object set DEAD with a bumped generation no longer resolves. *)
Definition lean_dead (l : lean_loc) : capM lean_loc :=
  let r2 := snd (ll_aRef l) in
  let o := snd (lf_aObj f) in
  let l := ll_check l in
  if gj_cap_ref_is_null r2 then pret l
  else
    h <- obj_load o ;;
    obj_store o (hdr_set_gen (hdr_set_state h GJ_OBJ_DEAD) (slot_gen_bump (hdr_u32Gen h))) ;;;
    x <- resolve_of src r2 ;;
    pass_if (st_is (fst x) GJ_ERR_DEAD || st_is (fst x) GJ_ERR_STALE_CAP) "g_u32SoftLeanDeadFailOk" l.

Definition lean_checks : capM lean_loc :=
  lean_init ;;;
  l <- lean_root lean_loc0 ;;
  l <- lean_install l ;;
  l <- lean_resolve l ;;
  l <- lean_mint l ;;
  l <- lean_escalate l ;;
  l <- lean_no_mint l ;;
  l <- lean_copy l ;;
  l <- lean_move l ;;
  l <- lean_quota l ;;
  l <- lean_delete l ;;
  lean_dead l.
End Checks.

Definition lean_body (f : lean_frame) : capM unit :=
  l <- lean_checks f ;;
  when ((0 <? ll_u32Checks l) && (ll_u32Pass l =? ll_u32Checks l)) (tick "g_u32SoftLeanOk").

Definition cdt_soft_residual_lean_once : capM unit :=
  m <- pget ;;
  if m_lean_once m then pret tt
  else
    modify (fun m => set_lamps (m_inv_logged m) true (m_lean_busy m) m) ;;;
    tick "g_u32SoftLeanRuns" ;;;
    modify (fun m => set_lamps (m_inv_logged m) (m_lean_once m) true m) ;;;
    with_frame lean_body ;;;
    modify (fun m => set_lamps (m_inv_logged m) (m_lean_once m) false m).

(** The dump itself only prints. *)
Definition cdt_soft_inventory_log : capM unit := tick "g_u32SoftInvLogs".

Definition cdt_soft_inventory_maybe_once : capM unit :=
  m <- pget ;;
  if m_inv_logged m then pret tt
  else if m_lean_busy m then pret tt
  else
    t <- ptel ;;
    if forallb (fun c => tel_val t c =? 0)
         ["g_u32SoftInstOk"; "g_u32SoftResOk"; "g_u32CdtMintAttempt"; "g_u32CdtCopyAttempt";
          "g_u32CdtMoveAttempt"; "g_u32SoftSlotsLeftInc"]
    then pret tt
    else
      cdt_soft_residual_lean_once ;;;
      modify (fun m => set_lamps true (m_lean_once m) (m_lean_busy m) m) ;;;
      cdt_soft_inventory_log.

(** ** The self-test of revoke.c

    Its three objects live in its stack frame too, but they go through the
    static deferred queue and the deferred driver, which serves the rest of the
    system at the same time: the frame is added to the shared memory and
    removed on return. *)
Definition GJ_REVOKE_LEAN_UDX_OBJS : Z := 3.

(** Locals of [soft_revoke_residual_lean_once]. *)
Record rlean_loc : Type := RLeanLoc {
  rl_u32BeginOk : Z;
  rl_u32S1Ok : Z;
  rl_u32S2Closed : Z;
  rl_u32S2DeadWins : Z;
  rl_u32R6Ok : Z;
  rl_u32LagHoldOk : Z }.

Definition b2z (b : bool) : Z := if b then 1 else 0.

(** [state == DEAD && gen == gen0 + 1] *)
Definition dead_at (h : gj_obj_hdr) (gen0 : Z) : bool :=
  (hdr_u32State h =? GJ_OBJ_DEAD) && (hdr_u32Gen h =? u32_wrap (gen0 + 1)).

(** [if (b) soft_inc(&c)], with the value the local count grows by. *)
Definition count_if (b : bool) (c : string) : capM Z := when b (tick c) ;;; pret (b2z b).

Definition begun (st : gj_status) : bool := st_is st GJ_OK || st_is st GJ_ERR_AGAIN.

(** One round of the begin loop. *)
Definition rlean_begin (o : objp) (l : rlean_loc) : capM (gj_status * Z * rlean_loc) :=
  gj_obj_hdr_init (Some o) ;;;
  h0 <- obj_load o ;;
  let gen0 := hdr_u32Gen h0 in
  st <- gj_obj_revoke_begin quiet_hook (Some o) ;;
  if begun st then
    tick "g_u32SoftLeanBeginOk" ;;;
    tick "g_u32SoftLeanUdxBegin" ;;;
    h <- obj_load o ;;
    s1 <- count_if (dead_at h gen0) "g_u32SoftLeanS1Ok" ;;
    s2 <- count_if (st_is (gj_obj_check_live (Some h) gen0) GJ_ERR_DEAD) "g_u32SoftLeanS2Closed" ;;
    dw <- count_if (st_is (gj_obj_check_live (Some h) (u32_wrap (gen0 + 1))) GJ_ERR_DEAD) "g_u32SoftLeanS2DeadWins" ;;
    stConc <- gj_obj_revoke_begin quiet_hook (Some o) ;;
    h <- obj_load o ;;
    r6 <- count_if (st_is stConc GJ_ERR_DEAD && dead_at h gen0) "g_u32SoftLeanR6Ok" ;;
    pret (st, gen0, RLeanLoc (rl_u32BeginOk l + 1) (rl_u32S1Ok l + s1) (rl_u32S2Closed l + s2)
                      (rl_u32S2DeadWins l + dw) (rl_u32R6Ok l + r6) (rl_u32LagHoldOk l))
  else pret (st, gen0, l).

(** One Phase C gate: set a field with [hold], see reclaim refused, undo with
    [drop].  Returns whether the gate held and whether DEAD stayed published. *)
Definition rlean_gate (o : objp) (gen0 : Z) (hold drop : gj_obj_hdr -> gj_obj_hdr) (sGate : string)
    : capM (bool * Z) :=
  h <- obj_load o ;;
  obj_store o (hold h) ;;;
  fReadyGate <- gj_obj_reclaim_ready (Some o) ;;
  stGate <- gj_obj_reclaim quiet_hook (Some o) ;;
  let fOk := negb fReadyGate && st_is stGate GJ_ERR_BUSY in
  lag <- (if fOk then
            tick sGate ;;;
            h <- obj_load o ;;
            count_if (dead_at h gen0 && st_is (gj_obj_check_live (Some h) gen0) GJ_ERR_DEAD) "g_u32SoftLeanLagHold"
          else pret 0) ;;
  h <- obj_load o ;;
  obj_store o (drop h) ;;;
  pret (fOk, lag).

(** The gate when enough objects began. *)
Definition rlean_gate_if (b : bool) (o : objp) (gen0 : Z) hold drop (sGate : string) : capM (bool * Z) :=
  if b then rlean_gate o gen0 hold drop sGate else pret (false, 0).

(** One round of the reclaim loop. *)
Definition rlean_reclaim (o : objp) : capM (gj_status * Z) :=
  fReady <- gj_obj_reclaim_ready (Some o) ;;
  st <- gj_obj_reclaim quiet_hook (Some o) ;;
  if fReady && is_ok st then
    tick "g_u32SoftLeanReclaimOk" ;;; tick "g_u32SoftLeanUdxReclaim" ;;; pret (st, 1)
  else pret (st, 0).

Definition rlean_body (o0 o1 o2 : objp) : capM unit :=
  x0 <- rlean_begin o0 (RLeanLoc 0 0 0 0 0 0) ;;
  x1 <- rlean_begin o1 (snd x0) ;;
  x2 <- rlean_begin o2 (snd x1) ;;
  let l := snd x2 in
  tick "g_u32SoftLeanUdxDef" ;;;
  u32DefClr <- gj_revoke_process_deferred quiet_hook (GJ_REVOKE_LEAN_UDX_OBJS * 4) ;;
  tel_add_sat "g_u32SoftLeanUdxDefClr" u32DefClr ;;;
  g0 <- rlean_gate_if (0 <? rl_u32BeginOk l) o0 (snd (fst x0))
          (fun h => hdr_set_pin h 1) (fun h => hdr_set_pin h 0) "g_u32SoftLeanGatePin" ;;
  g1 <- rlean_gate_if (1 <? rl_u32BeginOk l) o1 (snd (fst x1))
          (fun h => hdr_set_left h 1) (fun h => hdr_set_left h 0) "g_u32SoftLeanGateSlot" ;;
  g2 <- rlean_gate_if (2 <? rl_u32BeginOk l) o2 (snd (fst x2))
          (fun h => hdr_set_ref h 1) (fun h => hdr_set_ref h 0) "g_u32SoftLeanGateRef" ;;
  r0 <- rlean_reclaim o0 ;;
  r1 <- rlean_reclaim o1 ;;
  r2 <- rlean_reclaim o2 ;;
  let n := GJ_REVOKE_LEAN_UDX_OBJS in
  let u32ReclaimOk := snd r0 + snd r1 + snd r2 in
  let fUdx := (rl_u32BeginOk l =? n) && (u32ReclaimOk =? n) in
  when (begun (fst (fst x0)) && is_ok (fst r0)) (tick "revoke.g_u32SoftLeanOk") ;;;
  when fUdx (tick "g_u32SoftLeanUdxOk") ;;;
  when (fUdx && (rl_u32S1Ok l =? n) && (rl_u32S2Closed l =? n) && (rl_u32S2DeadWins l =? n)
        && (rl_u32R6Ok l =? n) && fst g0 && fst g1 && fst g2
        && (rl_u32LagHoldOk l + snd g0 + snd g1 + snd g2 =? n))
    (tick "g_u32SoftLeanC3Ok").

Definition with_objs (body : objp -> objp -> objp -> capM unit) : capM unit :=
  m <- pget ;;
  let p := ptr_top (m_objs m) in
  let o0 := (p + 1)%positive in let o1 := (p + 2)%positive in let o2 := (p + 3)%positive in
  pput (set_objs (fun objs => <[o2 := zero_hdr]> (<[o1 := zero_hdr]> (<[o0 := zero_hdr]> objs))) m) ;;;
  body o0 o1 o2 ;;;
  modify (set_objs (fun objs => delete o0 (delete o1 (delete o2 objs)))).

Definition soft_revoke_residual_lean_once : capM unit :=
  t <- ptel ;;
  if negb (tel_val t "g_u8RevokeLeanOnce" =? 0) then pret tt
  else
    tel_set "g_u8RevokeLeanOnce" 1 ;;;
    tick "revoke.g_u32SoftLeanRuns" ;;;
    tel_set "g_u8RevokeLeanBusy" 1 ;;;
    with_objs rlean_body ;;;
    tel_set "g_u8RevokeLeanBusy" 0.

(** The dump itself only prints. *)
Definition soft_revoke_inventory_log : capM unit := tick "g_u32SoftLogN".

Definition soft_revoke_inventory_maybe_once : capM unit :=
  t <- ptel ;;
  if negb (tel_val t "g_u8RevokeSoftInvLogged" =? 0) then pret tt
  else if negb (tel_val t "g_u8RevokeLeanBusy" =? 0) then pret tt
  else if forallb (fun c => tel_val t c =? 0) ["g_u32SoftBeginEnter"; "g_u32SoftWalkEnter"; "g_u32SoftDefEnter"]
  then pret tt
  else
    soft_revoke_residual_lean_once ;;;
    tel_set "g_u8RevokeSoftInvLogged" 1 ;;;
    soft_revoke_inventory_log.
