(* ===== verification/CapLeanCnode.v ===== *)
(** The inventory function of cnode.c keeps out of the way.

    The self-test runs to completion on every pool, its operations keep the
    invariant of the memory of its stack frame, and, by [CapSep], they touch no
    pool edge that was in use before: [cdt_soft_inventory_maybe_once] satisfies
    the law [CapHook] that the operations' theorems rely on. *)
From stdpp Require Import base gmap list strings fin_maps.
From Stdlib Require Import ZArith Lia.
From S2P Require Import Prelude CapTypes CapEdges CapQuota CapCnode CapInv CapOps CapDerive CapRevoke CapWalk CapDefer CapSystem CapSim CapSep CapLean.

#[local] Arguments gj_cap_mint : simpl never.
#[local] Arguments gj_cap_copy : simpl never.
#[local] Arguments gj_cap_move : simpl never.
#[local] Arguments gj_cap_delete : simpl never.
#[local] Arguments gj_cap_resolve : simpl never.
#[local] Arguments gj_cap_slot_install : simpl never.
#[local] Arguments gj_cap_alloc_install : simpl never.

(** ** Storage stays allocated *)
Record dom_same (m m' : cap_mem) : Prop := DomSame {
  ds_objs : forall o, is_Some (m_objs m !! o) -> is_Some (m_objs m' !! o);
  ds_cns : forall c cn, m_cns m !! c = Some cn -> exists cn', m_cns m' !! c = Some cn' /\ cn_cSlots cn' = cn_cSlots cn;
  ds_quotas : forall q, is_Some (m_quotas m !! q) -> is_Some (m_quotas m' !! q) }.

Lemma fmap_is_Some_eq {A B} (f : A -> B) (x y : option A) : f <$> y = f <$> x -> is_Some x -> is_Some y.
Proof. intros E [a ->]. destruct y; [eauto|done]. Qed.

Lemma dom_same_frame m m' :
  frame m m' -> (forall q, is_Some (m_quotas m !! q) -> is_Some (m_quotas m' !! q)) -> dom_same m m'.
Proof.
  intros [A B _ _ _] Hq. split; [intros o; apply fmap_is_Some_eq with (1 := B o)| |done].
  intros c cn E. specialize (A c). rewrite E in A. destruct (m_cns m' !! c) as [cn'|]; [|done].
  exists cn'. unfold cn_core in A. simpl in A. injection A as _ A _ _ _. done.
Qed.

Lemma dom_same_quiet m m' : quiet m m' -> dom_same m m'.
Proof.
  intros Hq%unseen_quiet. destruct Hq as [F _ Q]. apply dom_same_frame; [done|]. intros q.
  apply fmap_is_Some_eq with (1 := Q q).
Qed.

Lemma quota_upd_dom f p m m' q : quota_upd f p m m' -> is_Some (m_quotas m !! q) -> is_Some (m_quotas m' !! q).
Proof.
  intros H [v E]. specialize (H q). rewrite E in H. destruct (m_quotas m' !! q); [eauto|]. by case_bool_decide.
Qed.

Lemma dom_same_granted c i ty r o g m m' : granted c i ty r o g m m' -> dom_same m m'.
Proof. intros [F _ (cn & _ & _ & Q) _]. apply dom_same_frame; [done|]. intros q. by eapply quota_upd_dom. Qed.

Lemma dom_same_dropped c i o m m' : dropped c i o m m' -> dom_same m m'.
Proof. intros [F _ (cn & _ & Q)]. apply dom_same_frame; [done|]. intros q. by eapply quota_upd_dom. Qed.

Lemma dom_same_moved c i ref m m' : moved c i ref m m' -> dom_same m m'.
Proof. intros [F _ Q]. apply dom_same_frame; [done|]. intros q. apply fmap_is_Some_eq with (1 := Q q). Qed.

Lemma dom_same_trans m1 m2 m3 : dom_same m1 m2 -> dom_same m2 m3 -> dom_same m1 m3.
Proof.
  intros [A1 A2 A3] [B1 B2 B3]. split; auto. intros c cn (cn1 & E1 & L1)%A2.
  destruct (B2 _ _ E1) as (cn2 & E2 & L2). exists cn2. split; congruence.
Qed.

Create HintDb lean.
#[local] Hint Resolve dom_same_quiet dom_same_granted dom_same_dropped dom_same_moved : lean.

(** ** The memory of the frame *)
Definition frame_objs (f : lean_frame) : list objp :=
  let '(o0, o1, o2) := lf_aObj f in
  [lf_hdrSrc f; lf_hdrDst f; o0; o1; o2; lf_objNoMint f; lf_objQuota f].

Record lean_inv (f : lean_frame) (m : cap_mem) : Prop := LeanInv {
  li_wf : wf m;
  li_objs : forall o, o ∈ frame_objs f -> is_Some (m_objs m !! o);
  li_src : exists cn, m_cns m !! lf_cnSrc f = Some cn /\ cn_cSlots cn = GJ_CDT_LEAN_SLOTS;
  li_dst : exists cn, m_cns m !! lf_cnDst f = Some cn /\ cn_cSlots cn = GJ_CDT_LEAN_SLOTS;
  li_quota : is_Some (m_quotas m !! lf_qLean f) }.

Lemma lean_inv_step f m m' : lean_inv f m -> wf m' -> dom_same m m' -> lean_inv f m'.
Proof.
  intros [A B (cs & C1 & C2) (cd & D1 & D2) E] H [G1 G2 G3]. split; auto.
  - destruct (G2 _ _ C1) as (cn & ? & ?). exists cn. split; congruence.
  - destruct (G2 _ _ D1) as (cn & ? & ?). exists cn. split; congruence.
Qed.

Definition ref_ok (r : gj_cap_ref) : Prop := 0 <= ref_u64Slot r.

Lemma granted_slot_ge c i ty r o g m m' : wf m -> granted c i ty r o g m m' -> 0 <= i.
Proof.
  intros H [_ (h & s0 & _ & _ & E & _) _ _]. apply slot_at_some in E as (cn & Ec & Es).
  unfold cn_slot in Es. destruct (cn_pSlots cn); [|done]. by destruct (Z.leb_spec 0 i).
Qed.

Lemma moved_slot_ge c i ref m m' : moved c i ref m m' -> ref_ok ref.
Proof.
  intros [_ (s & s0 & _ & E & _) _]. apply slot_at_some in E as (cn & Ec & Es). unfold ref_ok.
  unfold cn_slot in Es. destruct (cn_pSlots cn); [|done]. by destruct (Z.leb_spec 0 (ref_u64Slot ref)).
Qed.

Section Calls.
Context (f : lean_frame).
Implicit Types (m : cap_mem).

Definition lean_cn (pc : option cnp) : Prop := pc = Some (lf_cnSrc f) \/ pc = Some (lf_cnDst f).
Definition lean_obj (po : option objp) : Prop := exists o, po = Some o /\ o ∈ frame_objs f.

Lemma lean_cn_ok m pc : lean_inv f m -> lean_cn pc -> cptr_ok m pc.
Proof. intros H [-> | ->]; [destruct (li_src _ _ H) as (cn & E & _)|destruct (li_dst _ _ H) as (cn & E & _)]; unfold cptr_ok; eauto. Qed.
Lemma lean_obj_ok m po : lean_inv f m -> lean_obj po -> optr_ok m po.
Proof. intros H (o & -> & Ho). by apply H. Qed.
#[local] Hint Resolve lean_cn_ok lean_obj_ok li_wf : lean.

(** The outcome of a call that may return a reference. *)
Definition ref_post (r : gj_status * option gj_cap_ref) (m : cap_mem) : Prop :=
  lean_inv f m /\ forall ref, snd r = Some ref -> ref_ok ref.

Lemma lean_resolve_call m pc i g :
  lean_inv f m -> lean_cn pc -> 0 <= i ->
  wp (gj_cap_resolve quiet_hook pc i g true) (fun _ m' => lean_inv f m') m.
Proof.
  intros H Hc Hi. eapply wp_mono; [apply wp_resolve; eauto with lean; apply _|].
  intros r m' [_ Hq]. eapply lean_inv_step; [done|by eapply wf_quiet; [apply H|]|eauto with lean].
Qed.

Lemma lean_install_call m pc i ty r po :
  lean_inv f m -> lean_cn pc -> lean_obj po -> 0 <= i ->
  wp (gj_cap_slot_install quiet_hook pc i ty r po true) (fun _ m' => lean_inv f m') m.
Proof.
  intros H Hc Ho Hi. eapply wp_mono; [apply wp_install; eauto with lean; apply _|].
  intros [st [ref|]] m' [_ HQ]; simpl in HQ.
  - destruct HQ as (_ & c & o & g & m1 & _ & _ & _ & Hins & Hq). pose proof (li_wf _ _ H) as Hw.
    eapply lean_inv_step; [done|eapply wf_quiet; [by eapply wf_installed|done]|].
    eapply dom_same_trans; [by eapply dom_same_granted, installed_granted|eauto with lean].
  - destruct HQ as [_ Hq]. eapply lean_inv_step; [done|by eapply wf_quiet; [apply H|]|eauto with lean].
Qed.

Lemma lean_alloc_call m pc ty r po :
  lean_inv f m -> lean_cn pc -> lean_obj po ->
  wp (gj_cap_alloc_install quiet_hook pc ty r po true) ref_post m.
Proof.
  intros H Hc Ho. eapply wp_mono; [apply wp_alloc_install; eauto with lean; apply _|].
  intros [st [ref|]] m' [_ HQ]; unfold install_outcome in HQ; simpl in HQ; split; try done.
  - destruct HQ as (_ & c & o & m1 & _ & _ & _ & Hins & Hq). pose proof (li_wf _ _ H) as Hw.
    eapply lean_inv_step; [done|eapply wf_quiet; [by eapply wf_installed|done]|].
    eapply dom_same_trans; [by eapply dom_same_granted, installed_granted|eauto with lean].
  - destruct HQ as (_ & c & o & m1 & _ & _ & _ & Hins & _). intros ? [= <-].
    eapply granted_slot_ge; [apply H|]. eapply installed_granted; [apply H|done].
  - destruct HQ as [_ Hq]. eapply lean_inv_step; [done|by eapply wf_quiet; [apply H|]|eauto with lean].
Qed.

Lemma lean_mint_call m ps i g r pd :
  lean_inv f m -> lean_cn ps -> lean_cn pd -> 0 <= i ->
  wp (gj_cap_mint quiet_hook ps i g r pd true) ref_post m.
Proof.
  intros H Hs Hd Hi. eapply wp_mono; [apply wp_mint; eauto with lean; apply _|].
  intros [st [ref|]] m' (Hw & _ & HQ); simpl in HQ.
  - destruct HQ as (_ & rv & c & _ & _ & _ & _ & Hg). split; [eapply lean_inv_step; eauto with lean|].
    intros ? [= <-]. eapply granted_slot_ge; [apply H|done].
  - split; [|done]. destruct HQ as [_ Hq]. eapply lean_inv_step; eauto with lean.
Qed.

Lemma lean_copy_call m pc i g r :
  lean_inv f m -> lean_cn pc -> 0 <= i -> wp (gj_cap_copy quiet_hook pc i g r true) ref_post m.
Proof.
  intros H Hc Hi. eapply wp_mono; [apply wp_copy; eauto with lean; apply _|].
  intros [st [ref|]] m' (Hw & _ & HQ); simpl in HQ.
  - destruct HQ as (_ & rv & c & _ & _ & _ & Hg). split; [eapply lean_inv_step; eauto with lean|].
    intros ? [= <-]. eapply granted_slot_ge; [apply H|done].
  - split; [|done]. destruct HQ as [_ Hq]. eapply lean_inv_step; eauto with lean.
Qed.

Lemma lean_move_call m pc i g :
  lean_inv f m -> lean_cn pc -> 0 <= i -> wp (gj_cap_move quiet_hook pc i g true) ref_post m.
Proof.
  intros H Hc Hi. eapply wp_mono; [apply wp_move; eauto with lean; apply _|].
  intros [st [ref|]] m' (Hw & _ & HQ); simpl in HQ.
  - destruct HQ as (_ & rv & c & _ & _ & _ & _ & Hg). split; [eapply lean_inv_step; eauto with lean|].
    intros ? [= <-]. by eapply moved_slot_ge.
  - split; [|done]. destruct HQ as [_ Hq]. eapply lean_inv_step; eauto with lean.
Qed.

Lemma lean_delete_call m pc i g :
  lean_inv f m -> lean_cn pc -> 0 <= i ->
  wp (gj_cap_delete quiet_hook pc i g) (fun _ m' => lean_inv f m') m.
Proof.
  intros H Hc Hi. eapply wp_mono; [apply wp_delete; eauto with lean; apply _|].
  intros st m' (Hw & _ & HQ). destruct (is_ok st).
  - destruct HQ as (rv & c & _ & _ & _ & Hd). eapply lean_inv_step; eauto with lean.
  - eapply lean_inv_step; eauto with lean.
Qed.

(** ** The checks *)
(** The references are good and at least [k] checks have failed so far. *)
Definition loc_ok (rc : gj_cap_ref) (k : Z) (l : lean_loc) : Prop :=
  k <= ll_u32Checks l - ll_u32Pass l /\ ref_ok (fst (fst (ll_aRef l))) /\ ref_ok (snd (fst (ll_aRef l))) /\ ref_ok (snd (ll_aRef l))
  /\ ref_ok (fst (fst (ll_aRefHost l))) /\ ref_ok (snd (fst (ll_aRefHost l))) /\ ref_ok (snd (ll_aRefHost l))
  /\ ref_ok rc /\ ll_refCopy l = rc.

(** A check: from good locals and memory to good locals and memory. *)
Definition sound (c : lean_loc -> capM lean_loc) : Prop :=
  forall rc k m l, lean_inv f m -> loc_ok rc k l -> wp (c l) (fun l' m' => lean_inv f m' /\ loc_ok rc k l') m.

Lemma sound_bind rc k m (c : capM lean_loc) (c' : lean_loc -> capM lean_loc) (Q : lean_loc -> cap_mem -> Prop) :
  wp c (fun l m' => lean_inv f m' /\ loc_ok rc k l) m ->
  (forall m' l, lean_inv f m' -> loc_ok rc k l -> wp (c' l) Q m') -> wp (l <- c ;; c' l) Q m.
Proof. intros Hc Hk. apply wp_bind. eapply wp_mono; [exact Hc|]. intros l m' [H1 H2]. by apply Hk. Qed.

Lemma loc_ok_check1 rc k l : loc_ok rc k l -> loc_ok rc (k + 1) (ll_check l).
Proof. unfold loc_ok. simpl. intros [? ?]. split; [lia|done]. Qed.
Lemma loc_ok_weaken rc k l : loc_ok rc (k + 1) l -> loc_ok rc k l.
Proof. unfold loc_ok. intros [? ?]. split; [lia|done]. Qed.
Lemma loc_ok_check rc k l : loc_ok rc k l -> loc_ok rc k (ll_check l).
Proof. intros H. by apply loc_ok_weaken, loc_ok_check1. Qed.
Lemma loc_ok_pass rc k l : loc_ok rc (k + 1) l -> loc_ok rc k (ll_pass l).
Proof. unfold loc_ok. simpl. intros [? ?]. split; [lia|done]. Qed.

Lemma loc_ok_if rc k (b : bool) l1 l2 : loc_ok rc k l1 -> loc_ok rc k l2 -> loc_ok rc k (if b then l1 else l2).
Proof. by destruct b. Qed.

Lemma pass_if_mem m b c l : wp (pass_if b c l) (fun _ m' => m' = m) m.
Proof. unfold pass_if. case_match; by wsteps. Qed.

Lemma pass_if_sound rc k m b c l :
  lean_inv f m -> loc_ok rc (k + 1) l -> wp (pass_if b c l) (fun l' m' => lean_inv f m' /\ loc_ok rc k l') m.
Proof. intros H Hl. unfold pass_if. case_match; wsteps; (split; [done|]); [by apply loc_ok_pass|by apply loc_ok_weaken]. Qed.

Lemma out_ref_ok r m old : ref_post r m -> ref_ok old -> ref_ok (out_ref r old).
Proof. intros [_ H] Ho. unfold out_ref. destruct (snd r) eqn:E; simpl; auto. Qed.

Lemma null_ok : ref_ok gj_cap_ref_null.
Proof. done. Qed.

Lemma lean_cn_src : lean_cn (Some (lf_cnSrc f)).
Proof. by left. Qed.
Lemma lean_cn_dst : lean_cn (Some (lf_cnDst f)).
Proof. by right. Qed.
Lemma lean_obj_in o : o ∈ frame_objs f -> lean_obj (Some o).
Proof. unfold lean_obj. eauto. Qed.
Lemma lean_obj_0 : lean_obj (Some (fst (fst (lf_aObj f)))).
Proof. apply lean_obj_in. unfold frame_objs. destruct (lf_aObj f) as [[? ?] ?]. set_solver. Qed.
Lemma lean_obj_1 : lean_obj (Some (snd (fst (lf_aObj f)))).
Proof. apply lean_obj_in. unfold frame_objs. destruct (lf_aObj f) as [[? ?] ?]. set_solver. Qed.
Lemma lean_obj_2 : lean_obj (Some (snd (lf_aObj f))).
Proof. apply lean_obj_in. unfold frame_objs. destruct (lf_aObj f) as [[? ?] ?]. set_solver. Qed.
Lemma lean_obj_nomint : lean_obj (Some (lf_objNoMint f)).
Proof. apply lean_obj_in. unfold frame_objs. destruct (lf_aObj f) as [[? ?] ?]. set_solver. Qed.
Lemma lean_obj_quota : lean_obj (Some (lf_objQuota f)).
Proof. apply lean_obj_in. unfold frame_objs. destruct (lf_aObj f) as [[? ?] ?]. set_solver. Qed.
#[local] Hint Resolve lean_cn_src lean_cn_dst lean_obj_0 lean_obj_1 lean_obj_2 lean_obj_nomint lean_obj_quota
  null_ok loc_ok_check loc_ok_check1 loc_ok_pass loc_ok_if out_ref_ok : lean.

(** Side conditions of a call. *)
Ltac lside :=
  first [ by eauto with lean
        | unfold GJ_CAP_SLOT_ROOT_META, GJ_CDT_LEAN_SLOTS; lia
        | match goal with
          | |- 0 <= ref_u64Slot ?r => change (ref_ok r); by eauto with lean
          | H : loc_ok _ _ _ |- _ => unfold loc_ok in H; simpl in H |- *; tauto
          end ].
Ltac lpost := let Hr := fresh in intros ? ? Hr; cbv beta in Hr; try pose proof (proj1 Hr); try pose proof (proj2 Hr).
(** Run one call, keep what it leaves. *)
Ltac lcall :=
  lazymatch goal with
  | |- wp (gj_cap_resolve _ _ _ _ _) _ _ => eapply wp_mono; [apply lean_resolve_call; lside|lpost]
  | |- wp (gj_cap_slot_install _ _ _ _ _ _ _) _ _ => eapply wp_mono; [apply lean_install_call; lside|lpost]
  | |- wp (gj_cap_delete _ _ _ _) _ _ => eapply wp_mono; [apply lean_delete_call; lside|lpost]
  | |- wp (gj_cap_alloc_install _ _ _ _ _ _) _ _ => eapply wp_mono; [apply lean_alloc_call; lside|lpost]
  | |- wp (gj_cap_mint _ _ _ _ _ _ _) _ _ => eapply wp_mono; [apply lean_mint_call; lside|lpost]
  | |- wp (gj_cap_copy _ _ _ _ _ _) _ _ => eapply wp_mono; [apply lean_copy_call; lside|lpost]
  | |- wp (gj_cap_move _ _ _ _ _) _ _ => eapply wp_mono; [apply lean_move_call; lside|lpost]
  | |- wp (pass_if _ _ _) _ _ => eapply wp_mono; [eapply pass_if_sound; [by eauto with lean|by eauto 8 with lean]|lpost]
  | |- wp (when _ _) _ _ => apply wp_when_tel; [intros; by apply wp_tick|]
  | |- wp ptel _ _ => apply wp_tel; intros ?
  end.
Ltac lsteps := repeat (wsteps; first [progress lcall | case_match]); wsteps.

Lemma lean_root_sound : sound (lean_root f).
Proof. intros rc k m l H Hl. unfold lean_root. lsteps. done. Qed.

Lemma lean_inst_sound rc k m ty r po l :
  lean_inv f m -> lean_obj po -> loc_ok rc k l ->
  wp (lean_inst f ty r po l) (fun x m' => lean_inv f m' /\ ref_ok (fst x) /\ loc_ok rc k (snd x)) m.
Proof. intros H Ho Hl. unfold lean_inst. lsteps. (split; [done|]); split; [by eauto with lean|done]. Qed.

Lemma lean_install_sound : sound (lean_install f).
Proof.
  intros rc k m l H Hl. unfold lean_install. wsteps. eapply wp_mono; [eapply lean_inst_sound; lside|].
  intros x0 m0 (H0 & R0 & L0). wsteps. eapply wp_mono; [eapply lean_inst_sound; lside|].
  intros x1 m1 (H1 & R1 & L1). wsteps. eapply wp_mono; [eapply lean_inst_sound; lside|].
  intros x2 m2 (H2 & R2 & L2). wsteps. split; [done|]. unfold loc_ok in *. simpl. tauto.
Qed.

Lemma lean_resolve_sound : sound (lean_resolve f).
Proof. intros rc k m l H Hl. unfold lean_resolve. lsteps; eauto with lean. Qed.

Lemma lean_mint1_sound rc k m ty r ref l :
  lean_inv f m -> ref_ok ref -> loc_ok rc k l ->
  wp (lean_mint1 f ty r ref l) (fun x m' => lean_inv f m' /\ ref_ok (fst (fst x)) /\ loc_ok rc k (snd x)) m.
Proof. intros H Hr Hl. unfold lean_mint1. lsteps; simpl; (split; [done|]); split; eauto with lean. Qed.

Lemma lean_mint_sound : sound (lean_mint f).
Proof.
  intros rc k m l H Hl. unfold lean_mint. pose proof Hl as Hl'. unfold loc_ok in Hl'.
  destruct (ll_aRef l) as [[r0 r1] r2]. simpl in Hl'. wsteps.
  eapply wp_mono; [eapply lean_mint1_sound; [done|tauto|done]|]. intros x0 m0 (H0 & R0 & L0). wsteps.
  eapply wp_mono; [eapply lean_mint1_sound; [done|tauto|done]|]. intros x1 m1 (H1 & R1 & L1). wsteps.
  eapply wp_mono; [eapply lean_mint1_sound; [done|tauto|done]|]. intros x2 m2 (H2 & R2 & L2).
  assert (loc_ok rc k (ll_set_host (snd x2) (fst (fst x0), fst (fst x1), fst (fst x2)))) as L3.
  { unfold loc_ok in *. simpl. tauto. }
  lsteps; eauto 8 with lean.
Qed.

Lemma lean_escalate_sound : sound (lean_escalate f).
Proof. intros rc k m l H Hl. unfold lean_escalate. lsteps; eauto with lean. Qed.
Lemma lean_no_mint_sound : sound (lean_no_mint f).
Proof. intros rc k m l H Hl. unfold lean_no_mint. lsteps; eauto with lean. Qed.

Lemma loc_ok_copy rc k l r : loc_ok rc k l -> ref_ok r -> loc_ok r k (ll_set_copy l r).
Proof. unfold loc_ok. simpl. tauto. Qed.
#[local] Hint Resolve loc_ok_copy : lean.

Lemma resolve_result_quiet m m' pc i g b : quiet m m' -> resolve_result m' pc i g b = resolve_result m pc i g b.
Proof. intros (E1 & E2 & _). unfold resolve_result, in_cnode, slot_at. by rewrite E1, E2. Qed.

(** A capability just granted resolves. *)
Lemma granted_resolves c i ty r o g m m' :
  wf m -> wf m' -> granted c i ty r o g m m' ->
  resolve_result m' (Some c) i g true = (GJ_OK, Some (CapResolved i o ty r)).
Proof.
  intros H H' [[_ F _ _ _] (h & s0 & Eh & Hl & Es0 & _ & Eg & W) _ [Hty _]].
  specialize (W c i). rewrite bool_decide_true in W by done. pose proof W as (cn & Ec & Es)%slot_at_some.
  destruct (wf_cns _ _ H' c cn Ec) as (Hsh & _ & Hsl). destruct (Hsl i _ Es) as [Hgr _]. simpl in Hgr.
  specialize (F o). rewrite Eh in F.
  destruct (m_objs m' !! o) as [h'|] eqn:Eh'; [|done]. simpl in F. unfold hdr_core in F. injection F as F1 F2 _ _.
  unfold resolve_result. rewrite (wf_in_cnode m' c i _ H' W), (proj2 (Z.eqb_neq g 0)), W by lia. simpl.
  rewrite (proj2 (Z.eqb_neq _ _) Hty), Z.eqb_refl, Eh'. simpl.
  unfold gj_obj_check_live. by rewrite F1, F2, Hl, !Z.eqb_refl.
Qed.

(** The reference denotes nothing, or a capability without [GRANT]. *)
Definition no_grant (m : cap_mem) (r : gj_cap_ref) : Prop :=
  gj_cap_ref_is_null r = true
  \/ exists rv, resolve_result m (Some (lf_cnSrc f)) (ref_u64Slot r) (ref_u32SlotGen r) true = (GJ_OK, Some rv)
       /\ Z.land (res_u16Rights rv) GJ_RIGHT_GRANT = 0.

Lemma no_grant_quiet m m' r : quiet m m' -> no_grant m r -> no_grant m' r.
Proof. intros Hq. unfold no_grant. by rewrite (resolve_result_quiet m m'). Qed.

(** Check 6a asks for the host rights, which do not contain [GRANT]. *)
Lemma lean_copy_no_grant m i g :
  lean_inv f m -> 0 <= i ->
  wp (gj_cap_copy quiet_hook (Some (lf_cnSrc f)) i g (gj_cap_rights_ddi_host_default GJ_CAP_FRAME) true)
    (fun r m' => ref_post r m' /\ no_grant m' (out_ref r gj_cap_ref_null)) m.
Proof.
  intros H Hi. eapply wp_conj; [by apply lean_copy_call; [|left|]|].
  eapply wp_mono; [apply wp_copy; [apply _|apply H|eauto with lean|done]|].
  intros [st [ref|]] m' (Hw & _ & HQ); simpl in HQ; [|by left]. right. unfold out_ref. simpl.
  destruct HQ as (_ & rv & c & _ & _ & [= <-] & Hg). eexists. split; [eapply granted_resolves; [apply H|exact Hw|exact Hg]|].
  simpl. unfold copy_rights, rights_weaker. simpl. rewrite <-Z.land_assoc. apply Z.land_0_r.
Qed.

Lemma lean_copy_sound rc k m l :
  lean_inv f m -> loc_ok rc k l -> gj_cap_ref_is_null rc = true ->
  wp (lean_copy f l) (fun l' m' => lean_inv f m' /\ exists rc', loc_ok rc' k l' /\ no_grant m' rc') m.
Proof.
  intros H Hl Hn. unfold lean_copy. destruct (gj_cap_ref_is_null (fst (fst (ll_aRef l)))) eqn:En; wsteps.
  { split; [done|]. exists rc. split; [by eauto with lean|by left]. }
  eapply wp_mono; [apply lean_copy_no_grant; lside|]. intros r m1 [Hr Hg]. pose proof (proj1 Hr) as H1.
  assert (loc_ok (out_ref r gj_cap_ref_null) (k + 1) (ll_set_copy (ll_check l) (out_ref r gj_cap_ref_null))) as L1
    by eauto 8 with lean.
  case_match; wsteps; [|split; [done|]; eexists; split; [by apply loc_ok_weaken|done]].
  eapply wp_mono; [eapply wp_conj; [apply lean_resolve_call; lside|apply wp_resolve; [apply _|apply H1|eauto with lean|]]|].
  { apply (out_ref_ok r m1); [done|apply null_ok]. }
  intros x m2 [H2 [_ Hq]]. eapply wp_mono; [eapply wp_conj; [eapply pass_if_sound; [exact H2|exact L1]|by apply pass_if_mem]|].
  intros l' m3 [[H3 L3] ->]. split; [done|]. eexists. split; [exact L3|by eapply no_grant_quiet].
Qed.

(** Check 6b: without [GRANT] the move is refused and the check fails. *)
Lemma lean_move_fails rc k m l :
  lean_inv f m -> loc_ok rc k l -> no_grant m rc ->
  wp (lean_move f l) (fun l' m' => lean_inv f m' /\ loc_ok rc (k + 1) l') m.
Proof.
  intros H Hl Hn. unfold lean_move. assert (ll_refCopy l = rc) as -> by (unfold loc_ok in Hl; tauto).
  destruct (gj_cap_ref_is_null rc) eqn:En; wsteps; [by eauto with lean|].
  eapply wp_mono; [eapply wp_conj; [apply lean_move_call; lside|apply wp_move; [apply _|apply H|eauto with lean|lside]]|].
  intros [st r] m' [[H' _] (_ & Hst & _)]. simpl in Hst. subst st.
  destruct Hn as [Hn|(rv & E & Hg)]; [congruence|]. unfold move_status. rewrite E, Hg. simpl. wsteps. by eauto with lean.
Qed.

Lemma lean_del1_sound m pc ref st :
  lean_inv f m -> lean_cn pc -> ref_ok ref -> wp (lean_del1 pc ref st) (fun _ m' => lean_inv f m') m.
Proof. intros H Hc Hr. unfold lean_del1. lsteps; eauto with lean. Qed.

Lemma lean_delete_sound : sound (lean_delete f).
Proof.
  intros rc k m l H Hl. unfold lean_delete. apply wp_bind.
  eapply (wp_mono _ (fun _ m' => lean_inv f m')).
  { case_match; wsteps; [done|]. apply lean_del1_sound; lside. }
  intros st m0 H0. wsteps. eapply wp_mono; [apply lean_del1_sound; lside|]. intros st1 m1 H1. wsteps.
  eapply wp_mono; [apply lean_del1_sound; lside|]. intros st2 m2 H2. lsteps; eauto with lean.
Qed.

(** Direct pokes at the frame. *)
Lemma lean_inv_hdr m o h h' :
  lean_inv f m -> m_objs m !! o = Some h ->
  hdr_u32SlotsLeft h' = hdr_u32SlotsLeft h -> hdr_pCdtHead h' = hdr_pCdtHead h ->
  lean_inv f (set_objs (<[o := h']>) m).
Proof.
  intros H E E1 E2. eapply lean_inv_step; [done|eapply wf_set_hdr; [apply H|done..]|].
  split; simpl; [|by eauto|done]. intros o' Ho. rewrite lookup_insert. case_decide; eauto.
Qed.

Lemma lean_inv_quota m v :
  lean_inv f m -> q_pParent v = None -> quota_range v -> lean_inv f (set_quotas (<[lf_qLean f := v]>) m).
Proof.
  intros H Hp Hr.
  assert (forall q, is_Some (m_quotas m !! q) -> is_Some (<[lf_qLean f := v]> (m_quotas m) !! q)) as Hd
    by (intros q Hq; rewrite lookup_insert; case_decide; eauto).
  eapply lean_inv_step; [done|apply wf_set_quotas; [apply H|apply ledger_ok_root; [done..|apply H]|done]|].
  by split; simpl; [|eauto|].
Qed.

Lemma lean_attach m pq :
  lean_inv f m -> ptr_ok (m_quotas m) pq ->
  wp (gj_cap_quota_attach (Some (lf_cnSrc f)) pq) (fun _ m' => lean_inv f m') m.
Proof.
  intros H Hp. destruct (li_src _ _ H) as (cn & E & Hn). unfold gj_cap_quota_attach. wsteps.
  eapply lean_inv_step; [done|eapply wf_set_cn; [apply H|done..]|]. split; simpl; [done| |done].
  intros c cn0 E0. rewrite lookup_insert. case_decide; [subst|eauto].
  rewrite E in E0. injection E0 as <-. eauto.
Qed.

Lemma lean_used_bound m :
  lean_inv f m -> wp (lean_used f) (fun n m' => m' = m /\ 0 <= n < GJ_CDT_LEAN_SLOTS) m.
Proof.
  intros H. destruct (li_src _ _ H) as (cn & E & Hn). unfold lean_used. wsteps. split; [done|].
  destruct (wf_cns _ _ (li_wf _ _ H) _ _ E) as (Hsh & _). unfold cn_shape in Hsh.
  destruct (cn_pSlots cn) as [sl|]; [|done]. destruct Hsh as [Hlen _].
  pose proof (length_filter (fun s => negb (slot_u16Type s =? GJ_CAP_INVALID) = true) (drop 1 sl)) as Hf.
  rewrite length_drop in Hf. unfold countb, GJ_CDT_LEAN_SLOTS in *. lia.
Qed.

Lemma lean_quota_sound : sound (lean_quota f).
Proof.
  intros rc k m l H Hl. unfold lean_quota. wsteps. eapply wp_mono; [by apply lean_used_bound|].
  intros n ? [-> Hn]. unfold GJ_CDT_LEAN_SLOTS in Hn. rewrite (proj2 (Z.ltb_ge (n + 1) 1)) by lia.
  destruct (li_quota _ _ H) as [v Ev]. unfold gj_cap_quota_init. wsteps.
  set (m1 := set_quotas _ m).
  assert (lean_inv f m1) as H1 by (apply lean_inv_quota; [done|done|split; simpl; unfold U32_MAX; lia]).
  assert (m_quotas m1 !! lf_qLean f = Some (CapQuota (n + 1) 0 0 0 0 0 None)) as E1 by apply lookup_insert_eq.
  eapply wp_quota_load; [exact E1|]. wsteps. set (m2 := set_quotas _ m1). simpl in m2.
  assert (lean_inv f m2) as H2 by (apply lean_inv_quota; [done|done|split; simpl; unfold U32_MAX; lia]).
  eapply wp_mono; [apply lean_attach; [done|]|].
  { unfold ptr_ok. apply (li_quota _ _ H2). }
  intros [] m3 H3. wsteps. lcall. wsteps.
  eapply (wp_mono _ (fun l' m' => lean_inv f m' /\ loc_ok rc k l')).
  { lsteps; eauto with lean. match goal with Hx : lean_inv f ?x |- wp (quota_load _) _ ?x =>
      destruct (li_quota _ _ Hx) as [v' Ev'] end. wsteps. eapply pass_if_sound; eauto with lean. }
  intros l' m4 [Hi4 L4]. wsteps. eapply wp_mono; [by apply lean_attach|]. intros [] m5 Hi5. by wsteps.
Qed.

Lemma lean_dead_sound : sound (lean_dead f).
Proof.
  intros rc k m l H Hl. unfold lean_dead. case_match; wsteps; [by eauto with lean|].
  destruct lean_obj_2 as (o & [= <-] & Ho). destruct (li_objs _ _ H _ Ho) as [h Eh]. wsteps.
  set (m1 := set_objs _ m). assert (lean_inv f m1) as H1 by (by eapply lean_inv_hdr). lsteps; eauto with lean.
Qed.
End Calls.

(** ** Entering the frame *)

(** A frame with distinct storage. *)
Record frame_ok (f : lean_frame) : Prop := FrameOk {
  fo_nodup : NoDup (frame_objs f);
  fo_cns : lf_cnSrc f <> lf_cnDst f }.

Lemma lean_frame_of_ok m : frame_ok (lean_frame_of m).
Proof.
  split; unfold lean_frame_of, frame_objs; simpl; [|lia].
  rewrite !NoDup_cons, !not_elem_of_cons. split_and!; first [lia | apply not_elem_of_nil | constructor].
Qed.

(** The memory with the pool of [m] and nothing allocated. *)
Definition pool_mem (m : cap_mem) : cap_mem :=
  CapMem ∅ ∅ ∅ (m_pool m) (m_used m) (m_pool_used m) (m_rq cap_mem0) 0 0
    (m_inv_logged m) (m_lean_once m) (m_lean_busy m).

Lemma wf_pool_mem m : pool_ok m -> wf (pool_mem m).
Proof.
  intros Hp. split; simpl.
  - done.
  - split_and!.
    + intros q v p E. by apply lookup_empty_Some in E.
    + intros q [|k] Hk; [lia|]. simpl. by rewrite lookup_empty.
    + intros q v E. by apply lookup_empty_Some in E.
  - intros c cn E. by apply lookup_empty_Some in E.
  - intros o h E. by apply lookup_empty_Some in E.
  - intros o1 o2 h1 h2 l1 l2 [E _]. simpl in E. by apply lookup_empty_Some in E.
  - split_and!; try done.
    + intros i qe [-> _]%lookup_replicate. done.
    + intros i j qi qj [-> _]%lookup_replicate. done.
Qed.

(** Every object of the frame is unreferenced and both CNodes are blank. *)
Record blank (f : lean_frame) (src dst : Prop) (m : cap_mem) : Prop := Blank {
  bl_wf : wf m;
  bl_objs : forall o, o ∈ frame_objs f -> unreferenced m o;
  bl_src : exists cn, m_cns m !! lf_cnSrc f = Some cn /\ cn_hdr cn = lf_hdrSrc f
             /\ (src -> cn_pSlots cn = None) /\ (~ src -> cn_cSlots cn = GJ_CDT_LEAN_SLOTS);
  bl_dst : exists cn, m_cns m !! lf_cnDst f = Some cn /\ cn_hdr cn = lf_hdrDst f
             /\ (dst -> cn_pSlots cn = None) /\ (~ dst -> cn_cSlots cn = GJ_CDT_LEAN_SLOTS);
  bl_quota : is_Some (m_quotas m !! lf_qLean f) }.

Lemma blank_frame f m : frame_ok f -> pool_ok m -> blank f True True (frame_mem f m).
Proof.
  intros [Hnd Hc] Hp. pose proof (wf_pool_mem m Hp) as H0.
  destruct (wf_add_objs (frame_objs f) (pool_mem m) H0 Hnd) as [H1 L1]; [by intros; apply lookup_empty|].
  set (m1 := set_objs _ _) in H1.
  assert (wf (set_cns (<[lf_cnDst f := zero_cnode (lf_hdrDst f)]>) m1)) as H2.
  { apply wf_put_cn; try done. }
  set (m2 := set_cns _ m1) in H2.
  assert (wf (set_cns (<[lf_cnSrc f := zero_cnode (lf_hdrSrc f)]>) m2)) as H3.
  { apply wf_put_cn; try done. intros i. unfold slot_at. simpl. by rewrite lookup_insert_ne by congruence. }
  set (m3 := set_cns _ m2) in H3.
  assert (wf (set_quotas (<[lf_qLean f := zero_quota]>) m3)) as H4.
  { apply wf_set_quotas; [done|apply ledger_ok_root; [done|split; simpl; unfold U32_MAX; lia|apply H3]|].
    intros q Hq. rewrite lookup_insert. case_decide; eauto. }
  assert (frame_mem f m = set_quotas (<[lf_qLean f := zero_quota]>) m3) as Eq.
  { unfold frame_mem, m3, m2, m1, pool_mem, frame_objs. by destruct (lf_aObj f) as [[? ?] ?]. }
  rewrite Eq. split; simpl; [done|..].
  - intros o Ho. exists zero_hdr. simpl. by rewrite L1, bool_decide_true by done.
  - eexists. rewrite lookup_insert_eq. split_and!; [done..|tauto].
  - eexists. rewrite lookup_insert_ne, lookup_insert_eq by done. split_and!; [done..|tauto].
  - rewrite lookup_insert_eq. eauto.
Qed.

Lemma unreferenced_init m o o' :
  unreferenced m o -> unreferenced (set_objs (<[o' := obj_hdr_init]>) m) o.
Proof.
  intros (h & E & El & Eh). unfold unreferenced. simpl. rewrite lookup_insert. case_decide; [|by eauto].
  by exists obj_hdr_init.
Qed.

Lemma blank_hdr_init f ps pd m o :
  blank f ps pd m -> o ∈ frame_objs f -> wp (gj_obj_hdr_init (Some o)) (fun _ m' => blank f ps pd m') m.
Proof.
  intros [A B C D E] Ho. destruct (B o Ho) as (h & Eh & _). unfold gj_obj_hdr_init. wsteps.
  split; try done; [apply wf_new_hdr; try done; right; by apply B|]. intros o' Ho'. by apply unreferenced_init, B.
Qed.

(** Initialising one of the CNodes. *)
Lemma wp_blank_cnode m c cn n :
  wf m -> m_cns m !! c = Some cn -> cn_pSlots cn = None -> unreferenced m (cn_hdr cn) -> 0 < n ->
  wp (gj_cnode_init (Some c) true n) (fun _ m' => wf m'
    /\ m' = set_cns (<[c := CNode (cn_hdr cn) n (Some (replicate (Z.to_nat n) free_slot)) None 0 0]>)
              (set_objs (<[cn_hdr cn := obj_hdr_init]>) m)) m.
Proof.
  intros H Ec Es Hu Hn. unfold gj_cnode_init. rewrite (proj2 (Z.eqb_neq n 0)) by lia. simpl.
  pose proof Hu as (h & Eh & _). wsteps. unfold gj_obj_hdr_init. wsteps.
  set (m1 := set_objs _ m). split; [|done]. apply wf_put_cn; try done.
  - apply wf_new_hdr; auto.
  - intros i. unfold slot_at. simpl. rewrite Ec. simpl. unfold cn_slot. by rewrite Es.
  - unfold cn_shape. simpl. rewrite length_replicate. lia.
  - intros i s. unfold cn_slot. simpl. case_match; [|done]. by intros [-> _]%lookup_replicate.
Qed.

Lemma lean_inv_blank f m : blank f False False m -> lean_inv f m.
Proof.
  intros [A B (cs & C1 & _ & _ & C4) (cd & D1 & _ & _ & D4) E]. split; try done.
  - intros o Ho. destruct (B o Ho) as (h & Eh & _). eauto.
  - exists cs. split; [done|]. apply C4; tauto.
  - exists cd. split; [done|]. apply D4; tauto.
Qed.

Lemma wp_lean_init f m : frame_ok f -> blank f True True m -> wp (lean_init f) (fun _ m' => lean_inv f m') m.
Proof.
  intros [_ Hc] [A B (cs & C1 & C2 & C3 & _) (cd & D1 & D2 & D3 & _) E]. unfold lean_init. wsteps.
  assert (lf_hdrSrc f ∈ frame_objs f /\ lf_hdrDst f ∈ frame_objs f) as [Hs Hd]
    by (unfold frame_objs; destruct (lf_aObj f) as [[? ?] ?]; set_solver).
  eapply wp_mono; [eapply wp_blank_cnode; [done..|by apply C3|rewrite C2; by apply B|done]|].
  intros [] m1 [W1 E1]. wsteps.
  assert (m_cns m1 !! lf_cnDst f = Some cd) as D1' by (rewrite E1; simpl; by rewrite lookup_insert_ne).
  assert (forall o, o ∈ frame_objs f -> unreferenced m1 o) as B1.
  { intros o Ho. rewrite E1. by apply (unreferenced_init m), B. }
  eapply wp_mono; [eapply wp_blank_cnode; [done..|by apply D3|rewrite D2; by apply B1|done]|].
  intros [] m2 [W2 E2].
  assert (blank f False False m2) as H2.
  { split; [done|..].
    - intros o Ho. rewrite E2. by apply (unreferenced_init m1), B1.
    - rewrite E2, E1. simpl. rewrite lookup_insert_ne, lookup_insert_eq by congruence. eexists. split_and!; [done..|tauto|done].
    - rewrite E2. simpl. rewrite lookup_insert_eq. eexists. split_and!; [done..|tauto|done].
    - rewrite E2, E1. done. }
  clear -H2.
  repeat (wsteps; eapply wp_mono; [apply blank_hdr_init; [eassumption|]|intros [] ? ?]);
    try (unfold frame_objs; destruct (lf_aObj f) as [[? ?] ?]; set_solver).
  by apply lean_inv_blank.
Qed.

(** The self-test completes on every pool, with at least one failed check. *)
Lemma wp_lean_checks f m :
  frame_ok f -> blank f True True m ->
  wp (lean_checks f) (fun l m' => lean_inv f m' /\ ll_u32Pass l < ll_u32Checks l) m.
Proof.
  intros Hf Hb. unfold lean_checks. apply wp_bind. eapply wp_mono; [by apply wp_lean_init|]. intros [] m1 H1.
  assert (loc_ok gj_cap_ref_null 0 lean_loc0) as Hl by (by split_and!). clear Hf Hb.
  eapply sound_bind; [by apply lean_root_sound|]. clear. intros m l H Hl.
  eapply sound_bind; [by apply lean_install_sound|]. clear. intros m l H Hl.
  eapply sound_bind; [by apply lean_resolve_sound|]. clear. intros m l H Hl.
  eapply sound_bind; [by apply lean_mint_sound|]. clear. intros m l H Hl.
  eapply sound_bind; [by apply lean_escalate_sound|]. clear. intros m l H Hl.
  eapply sound_bind; [by apply lean_no_mint_sound|]. clear. intros m l H Hl.
  apply wp_bind. eapply wp_mono; [by eapply lean_copy_sound|]. clear. intros l m [H (rc & Hl & Hg)].
  eapply sound_bind; [by eapply lean_move_fails|]. clear. intros m l H Hl.
  eapply sound_bind; [by apply lean_quota_sound|]. clear. intros m l H Hl.
  eapply sound_bind; [by apply lean_delete_sound|]. clear. intros m l H Hl.
  eapply wp_mono; [by eapply lean_dead_sound|]. intros l' m' [H' [Hs _]]. split; [done|lia].
Qed.

(** ** The law of the inventory function *)

(** The frame owns no edge on entry. *)
Lemma apart_frame f m :
  pool_ok m -> apart (fun e => m_used m !! e = Some true) (fun e => m_pool m !! e) (frame_mem f m).
Proof.
  intros (Hl & Hu & _ & Hfc). assert (m_pool (frame_mem f m) = m_pool m /\ m_used (frame_mem f m) = m_used m) as [E1 E2]
    by (unfold frame_mem; by destruct (lf_aObj f) as [[? ?] ?]).
  split; rewrite ?E1, ?E2; [by auto|..].
  - intros o h Eo e He. exfalso. assert (h = zero_hdr) as ->; [|done]. revert Eo. unfold frame_mem.
    destruct (lf_aObj f) as [[? ?] ?]. simpl. rewrite !lookup_insert. repeat case_decide; by intros [= <-].
  - intros e ed He Ee e' Hn. exfalso. destruct (m_used m !! e) as [[]|] eqn:E; [done| |].
    + by rewrite (Hfc e ed E Ee) in Hn.
    + apply lookup_lt_Some in Ee. apply lookup_ge_None in E. lia.
Qed.

Lemma keeps_pass_if F P b c l : keeps F P (pass_if b c l) (fun _ => True).
Proof. unfold pass_if. ksteps. Qed.
#[local] Hint Resolve keeps_pass_if : keeps.

Lemma keeps_quiet F P : keeps F P quiet_hook (fun _ => True).
Proof. by apply keeps_ret. Qed.
#[local] Hint Resolve keeps_quiet : keeps.

Lemma keeps_lean_checks F P f : keeps F P (lean_checks f) (fun _ => True).
Proof.
  unfold lean_checks, lean_init, lean_root, lean_install, lean_inst, lean_resolve, lean_mint, lean_mint1,
    lean_escalate, lean_no_mint, lean_copy, lean_move, lean_quota, lean_used, lean_delete, lean_del1, lean_dead.
  ksteps.
Qed.

(** The self-test, run on the shared memory. *)
Lemma wp_with_frame m :
  pool_ok m -> wp (with_frame lean_body) (fun _ m' => hook_frame m m') m.
Proof.
  intros Hp t. set (f := lean_frame_of m).
  destruct (wp_lean_checks f (frame_mem f m) (lean_frame_of_ok m) (blank_frame f m (lean_frame_of_ok m) Hp) t)
    as (l & m1 & t1 & E & H1 & _).
  destruct (keeps_lean_checks _ _ f _ _ _ _ _ (apart_frame f m Hp) E) as [[A _ _] _].
  assert (wp (when ((0 <? ll_u32Checks l) && (ll_u32Pass l =? ll_u32Checks l)) (tick "g_u32SoftLeanOk"))
    (fun _ m' => m' = m1) m1) as Hw by (apply wp_when_tel; [intros; by apply wp_tick|done]).
  destruct (Hw t1) as ([] & m2 & t2 & E2 & ->).
  exists tt, (unframe m m1), t2. split.
  - unfold with_frame, lean_body, pbind, pget, pput. simpl. fold f. rewrite E, E2. done.
  - unfold hook_frame. simpl. split_and!; try done. apply H1.
Qed.

(** [cdt_soft_inventory_maybe_once] satisfies the law of the hook. *)
#[export] Instance inventory_hook : CapHook cdt_soft_inventory_maybe_once.
Proof.
  intros m Hp. pose proof (hook_frame_refl m Hp) as Hr.
  unfold cdt_soft_inventory_maybe_once. wsteps. case_match; wsteps; [done|]. case_match; wsteps; [done|].
  apply wp_tel. intros t. case_match; wsteps; [done|]. unfold cdt_soft_residual_lean_once, cdt_soft_inventory_log, modify. wsteps.
  case_match; wsteps; [exact Hr|].
  eapply wp_mono; [apply wp_with_frame; exact Hp|]. intros [] m1 Hf. wsteps. exact Hf.
Qed.

(** A nested call while the self-test runs returns at once, as [quiet_hook]. *)
Lemma inventory_busy m t :
  m_lean_busy m = true -> cdt_soft_inventory_maybe_once (KSt m t) = quiet_hook (KSt m t).
Proof.
  intros H. unfold cdt_soft_inventory_maybe_once, pbind, pget. simpl. destruct (m_inv_logged m); [done|]. by rewrite H.
Qed.
