(* ===== verification/CapLeanRevoke.v ===== *)
(** The inventory function of revoke.c is deferred work.

    Its self-test puts three objects of its own stack frame through Phase A, the
    deferred driver and reclaim, on the shared queue.  Seen by the rest of the
    system it does no more than deferred work does: it satisfies the law
    [RevokeHook] that the revocation theorems rely on. *)
From stdpp Require Import base gmap list strings fin_maps.
From Stdlib Require Import ZArith Lia.
From S2P Require Import Prelude CapTypes CapEdges CapQuota CapCnode CapInv CapOps CapDerive CapRevoke CapWalk CapDefer CapSystem CapSim CapLean.

#[local] Arguments gj_revoke_process_deferred : simpl never.
#[local] Arguments gj_obj_reclaim : simpl never.
#[local] Arguments gj_obj_revoke_begin : simpl never.
#[local] Arguments reclaim_drop_loop : simpl never.

(** ** The memory without the frame *)
Definition strip (L : list objp) (m : cap_mem) : cap_mem :=
  set_objs (fun objs => foldr delete objs L) m.

Section Strip.
Context (L : list objp).
Implicit Types (m : cap_mem).

Lemma strip_lookup m o :
  m_objs (strip L m) !! o = if bool_decide (o ∈ L) then None else m_objs m !! o.
Proof.
  unfold strip, set_objs; cbn [m_objs]. induction L as [|a L' IH]; cbn [foldr]; [done|].
  rewrite lookup_delete. destruct (decide (a = o)) as [->|Hne]; [by rewrite bool_decide_true by set_solver|].
  rewrite IH. do 2 case_bool_decide; try done; set_solver.
Qed.

Lemma strip_out m o h : m_objs (strip L m) !! o = Some h <-> ((o ∉ L) /\ m_objs m !! o = Some h).
Proof. rewrite strip_lookup. case_bool_decide; naive_solver. Qed.

Lemma strip_dead m o : dead (strip L m) o <-> ((o ∉ L) /\ dead m o).
Proof. unfold dead. setoid_rewrite strip_out. naive_solver. Qed.

Lemma strip_chain m o h l : chain_at (strip L m) o h l <-> ((o ∉ L) /\ chain_at m o h l).
Proof. unfold chain_at. rewrite strip_out. unfold strip. simpl. tauto. Qed.

(** Updates of the frame's own objects are invisible. *)
Lemma strip_insert m o h : o ∈ L -> m_objs (strip L (set_objs (<[o := h]>) m)) = m_objs (strip L m).
Proof.
  intros Ho. apply map_eq. intros x. rewrite !strip_lookup. case_bool_decide; [done|]. simpl.
  rewrite lookup_insert_ne by set_solver. done.
Qed.

Lemma strip_set_objs m o h : o ∈ L -> strip L (set_objs (<[o := h]>) m) = strip L m.
Proof.
  intros Ho. pose proof (strip_insert m o h Ho) as E. unfold strip, set_objs in *. simpl in *. by rewrite E.
Qed.

Definition loose (m : cap_mem) : Prop := forall o, o ∈ L -> unreferenced m o.

Lemma unreferenced_deferred m m' o :
  wf m -> wf m' -> deferred m m' -> unreferenced m o -> unreferenced m' o.
Proof.
  intros H H' D Hu. pose proof Hu as (h & Eh & El & Ehd).
  assert (chain_at m o h []) as Hch by (split_and!; simpl; [done|done|constructor|done]).
  destruct (df_chains _ _ D o h [] Hch) as (h' & [|e l'] & Hc' & Hlen); [|simpl in Hlen; lia].
  destruct Hc' as (Eh' & Hc' & _). exists h'. split_and!; [done| |done].
  destruct (wf_objs _ _ H' o h' Eh') as (E & _). rewrite E, obj_refs_none; [done|].
  intros c i s Hs. destruct (slot_at m c i) as [s0|] eqn:Es0.
  - pose proof (no_slot_refs m o H (or_intror Hu) c i s0 Es0) as Hr.
    destruct (hy_slots _ _ _ (df_hygiene _ _ D) c i s0 Es0) as [E1|(? & _ & _ & E1)]; rewrite E1 in Hs;
      injection Hs as <-; [done|by apply slot_refs_free].
  - by rewrite (hy_none _ _ _ (df_hygiene _ _ D) c i Es0) in Hs.
Qed.

Lemma strip_deferred m m' : wf m -> loose m -> deferred m m' -> deferred (strip L m) (strip L m').
Proof.
  intros H Hl [[A1 A2 A3 A4 A5] B C P Q]. split.
  - split; try done.
    + intros o. rewrite !strip_lookup. by case_bool_decide.
    + intros c i s Hs. destruct (A4 c i s Hs) as [E|(o & Hd & Hr & E)]; [by left|]. right. exists o.
      split_and!; try done. apply strip_dead. split; [|done]. intros Ho.
      by rewrite (no_slot_refs m o H (or_intror (Hl o Ho)) c i s Hs) in Hr.
  - done.
  - intros o h l [Ho Hch]%strip_chain. destruct (C o h l Hch) as (h' & l' & Hc' & Hle).
    exists h', l'. split; [|done]. by apply strip_chain.
  - done.
  - intros i qe o Hi Ha Ho [_ Hd]%strip_dead. by eapply Q.
Qed.

(** Queue changes that keep the entries of the rest of the system. *)
Lemma strip_rq m q len cur :
  (forall j qe o, m_rq m !! j = Some qe -> qe_u8Active qe = true -> qe_pObj qe = Some o -> o ∉ L -> q !! j = Some qe) ->
  deferred (strip L m) (strip L (set_rq q len cur m)).
Proof.
  intros Hq. change (strip L (set_rq q len cur m)) with (set_rq q len cur (strip L m)).
  destruct (set_rq_same (strip L m) q len cur) as [A B]. split; try done.
  intros i qe o Hi Ha Ho [Hn _]%strip_dead. by eapply Hq.
Qed.

(** Leaving the frame. *)
Lemma wf_strip m : wf m -> loose m -> (forall o, o ∈ L -> ~ queued m o) -> wf (strip L m).
Proof.
  intros H Hl Hq. pose proof H as [H1 H2 H3 H4 H5 (Q1 & Q2 & Q3 & Q4 & Q5)]. split; try done.
  - intros c cn Ec. destruct (H3 c cn Ec) as (S1 & S2 & S3). split_and!; [done..|]. intros i s Hs.
    destruct (S3 i s Hs) as [G1 G2]. split; [done|]. destruct (slot_u16Type s =? GJ_CAP_INVALID) eqn:Et; [done|].
    destruct G2 as (o & Eo & [h Eh] & Hi). exists o. split_and!; try done. exists h. apply strip_out. split; [|done].
    intros Ho. assert (slot_refs o s = true) as Hr by (unfold slot_refs; rewrite Et; by rewrite bool_decide_true).
    rewrite (no_slot_refs m o H (or_intror (Hl o Ho)) c i s) in Hr; [done|]. apply slot_at_some. eauto.
  - intros o h [Ho Eh]%strip_out. destruct (H4 o h Eh) as (R1 & R2 & l & R3 & R4 & R5). split_and!; [done..|].
    exists l. split_and!; try done. by apply strip_chain.
  - intros o1 o2 h1 h2 l1 l2 [_ C1]%strip_chain [_ C2]%strip_chain. by eapply H5.
  - refine (conj Q1 (conj Q2 (conj Q3 (conj _ Q5)))). intros i qe Hi Ha. destruct (Q4 i qe Hi Ha) as (Hlt & o & Eo & [h Eh]). split; [done|].
    exists o. split; [done|]. exists h. apply strip_out. split; [|done]. intros Ho. apply (Hq o Ho). by exists i, qe.
Qed.
End Strip.

(** ** Reclaim, without the inventory call *)
Section Reclaim.
Implicit Types (m : cap_mem).

Lemma wp_reclaim_refused m o h :
  m_objs m !! o = Some h -> reclaimable h = false ->
  wp (gj_obj_reclaim quiet_hook (Some o)) (fun st m' => st = GJ_ERR_BUSY /\ m' = m) m.
Proof.
  intros Eo Hr. unfold gj_obj_reclaim. wsteps. eapply wp_mono; [by eapply wp_reclaim_ready|].
  intros b m0 [-> ->]. rewrite Hr. simpl. by wsteps.
Qed.

Lemma wp_reclaim_quiet m o h :
  wf m -> m_objs m !! o = Some h -> reclaimable h = true ->
  wp (gj_obj_reclaim quiet_hook (Some o)) (fun st m' => wf m' /\ (exists q len, m' = set_rq q len (m_rqcur m) m)
    /\ ~ queued m' o /\ (forall o', queued m' o' -> queued m o')
    /\ (forall j qe, m_rq m !! j = Some qe -> qe_pObj qe <> Some o -> m_rq m' !! j = Some qe)) m.
Proof.
  intros H Eo Hr. unfold gj_obj_reclaim, quiet_hook. wsteps. eapply wp_mono; [by eapply wp_reclaim_ready|].
  intros b m0 [-> ->]. rewrite Hr. simpl. wsteps.
  eapply wp_mono; [apply (wp_reclaim_drop_loop o _ m 0); [apply H|done|done]|].
  intros [] m1 ((q & len & E1) & Hq1 & Ha & Hb). wsteps.
  split; [rewrite E1 in Hq1 |- *; by apply wf_set_rq|]. split; [by exists q, len|]. split; [|split; [|done]].
  - intros (j & qe & X1 & X2 & X3). destruct (Ha j qe X1 X2) as [_ Hno]. apply Hno; [lia|done].
  - intros o' (j & qe & X1 & X2 & X3). exists j, qe. by destruct (Ha j qe X1 X2).
Qed.
End Reclaim.

(** ** The self-test *)
Section Body.
Context (m0 : cap_mem) (o0 o1 o2 : objp).
#[local] Abbreviation L := [o2; o1; o0].
Implicit Types (m : cap_mem).

(** While the self-test runs: the rest of the system has seen deferred work,
    the frame's objects are bound by no slot, those in [D] are dead and
    unpinned. *)
Record aside (D : objp -> Prop) (m : cap_mem) : Prop := Aside {
  as_wf : wf m;
  as_loose : loose L m;
  as_rest : deferred m0 (strip L m);
  as_dead : forall o, D o -> o ∈ L /\ exists h, m_objs m !! o = Some h
    /\ hdr_u32State h = GJ_OBJ_DEAD /\ hdr_u32Ref h = 0 /\ hdr_u32Pin h = 0 }.

Lemma aside_deferred D m m' : aside D m -> wf m' -> deferred m m' -> aside D m'.
Proof.
  intros [A B C E] H' Hd. split; [done|..].
  - intros o Ho. by eapply unreferenced_deferred; [..|apply B].
  - transitivity (strip L m); [done|]. by apply strip_deferred.
  - intros o Ho. destruct (E o Ho) as (Hin & h & Eh & E1 & E2 & E3). split; [done|].
    pose proof (hy_objs _ _ _ (df_hygiene _ _ Hd) o) as Hc. rewrite Eh in Hc.
    destruct (m_objs m' !! o) as [h'|]; [|done]. simpl in Hc. unfold hdr_core in Hc. injection Hc as X1 X2 X3 X4.
    exists h'. split_and!; congruence.
Qed.

Lemma aside_hdr D m o h' :
  aside D m -> o ∈ L -> hdr_u32SlotsLeft h' = 0 -> hdr_pCdtHead h' = None ->
  (D o -> hdr_u32State h' = GJ_OBJ_DEAD /\ hdr_u32Ref h' = 0 /\ hdr_u32Pin h' = 0) ->
  aside D (set_objs (<[o := h']>) m).
Proof.
  intros [A B C E] Ho Hs Hh Hd. split.
  - apply wf_new_hdr; try done. right. by apply B.
  - intros x Hx. unfold unreferenced. simpl. rewrite lookup_insert. case_decide; [by eauto|].
    by destruct (B x Hx) as (h & ? & ?); exists h.
  - by rewrite strip_set_objs.
  - intros x Hx. destruct (E x Hx) as (Hin & h & Eh & Hrest). split; [done|]. simpl. rewrite lookup_insert.
    case_decide; [subst; exists h'; naive_solver|by exists h].
Qed.

Lemma aside_rq D m q len :
  aside D m -> wf (set_rq q len (m_rqcur m) m) ->
  (forall j qe o, m_rq m !! j = Some qe -> qe_u8Active qe = true -> qe_pObj qe = Some o -> o ∉ L -> q !! j = Some qe) ->
  aside D (set_rq q len (m_rqcur m) m).
Proof.
  intros [A B C E] H' Hq. split; try done. transitivity (strip L m); [done|]. by apply strip_rq.
Qed.

(** Phase A on an object of the frame just initialised. *)
Lemma aside_killed D m m' o :
  aside D m -> o ∈ L -> ~ D o -> killed o (set_objs (<[o := obj_hdr_init]>) m) m' -> aside (fun x => D x \/ x = o) m'.
Proof.
  intros Ha Ho HD (h & q & len & Eh & _ & E & Hk & Hw). simpl in Eh. rewrite lookup_insert_eq in Eh. injection Eh as <-.
  set (m1 := set_objs (<[o := dead_hdr obj_hdr_init]>) (set_objs (<[o := obj_hdr_init]>) m)) in E.
  assert (aside D m1) as A1 by (apply aside_hdr; [apply aside_hdr|..]; done).
  assert (aside (fun x => D x \/ x = o) m1) as A2.
  { destruct A1 as [W1 W2 W3 W4]. split; try done. intros x [Hx| ->]; [by apply W4|]. split; [done|].
    exists (dead_hdr obj_hdr_init). split; [apply lookup_insert_eq|done]. }
  rewrite E in Hw, Hk |- *. apply (aside_rq _ m1); [done|exact Hw|]. intros j qe o' Hj Hact _ _. exact (Hk j qe Hj Hact).
Qed.

Lemma wp_rlean_begin D m o l :
  aside D m -> o ∈ L -> ~ D o -> wp (rlean_begin o l) (fun _ m' => aside (fun x => D x \/ x = o) m') m.
Proof.
  intros Ha Ho HD. unfold rlean_begin. destruct (as_loose _ _ Ha o Ho) as (h & Eh & _).
  unfold gj_obj_hdr_init. wsteps. set (m1 := set_objs (<[o := obj_hdr_init]>) m).
  assert (m_objs m1 !! o = Some obj_hdr_init) as E1 by apply lookup_insert_eq.
  assert (wf m1) as H1 by (by eapply (as_wf D), aside_hdr).
  eapply wp_obj_load; [exact E1|]. wsteps. eapply wp_mono; [apply (wp_begin quiet_hook m1 o obj_hdr_init H1 E1)|].
  intros st m2 (H2 & m3 & Hk & Hd & _).
  assert (aside (fun x => D x \/ x = o) m2) as A2.
  { eapply aside_deferred; [by eapply aside_killed|done|done]. }
  destruct (as_dead _ _ A2 o (or_intror eq_refl)) as (_ & h2 & Eh2 & Hs2 & _).
  unfold count_if. case_match; [|by wsteps]. wsteps.
  repeat (wsteps; apply wp_when_tel; [intros; by apply wp_tick|]). wsteps.
  eapply wp_mono; [apply (wp_begin quiet_hook m2 o h2); done|]. rewrite Hs2. simpl. intros st2 ? (_ & -> & _). wsteps.
  apply wp_when_tel; [intros; by apply wp_tick|]. by wsteps.
Qed.

(** The gates leave the memory as it was. *)
Lemma wp_rlean_gate m o h g hold drop s b :
  m_objs m !! o = Some h -> reclaimable (hold h) = false -> drop (hold h) = h ->
  wp (rlean_gate_if b o g hold drop s) (fun _ m' => m' = m) m.
Proof.
  intros Eo Hr Hdr. unfold rlean_gate_if, rlean_gate. destruct b; wsteps; [|done].
  set (m1 := set_objs (<[o := hold h]>) m).
  assert (m_objs m1 !! o = Some (hold h)) as E1 by apply lookup_insert_eq.
  eapply wp_mono; [by eapply wp_reclaim_ready|]. intros b ? [-> ->]. wsteps.
  eapply wp_mono; [by eapply wp_reclaim_refused|]. intros st ? [-> ->]. wsteps.
  eapply (wp_mono _ (fun _ m' => m' = m1)).
  { unfold count_if. case_match; wsteps; [|done].
    apply wp_when_tel; [intros; by apply wp_tick|]. by wsteps. }
  intros lag ? ->. wsteps.
  rewrite Hdr. unfold m1. rewrite set_objs_twice. unfold set_objs. rewrite insert_id by done. by destruct m.
Qed.

Lemma aside_reclaimable D m o :
  aside D m -> D o -> exists h, m_objs m !! o = Some h /\ reclaimable h = true
    /\ hdr_u32Ref h = 0 /\ hdr_u32Pin h = 0 /\ hdr_u32SlotsLeft h = 0.
Proof.
  intros A Ho. destruct (as_dead _ _ A o Ho) as (Hin & h & Eh & E1 & E2 & E3).
  destruct (as_loose _ _ A o Hin) as (h' & Eh' & E4 & E5). assert (h' = h) as -> by congruence.
  exists h. unfold reclaimable. rewrite E1, E2, E3, E4, E5. done.
Qed.

(** Reclaim takes the object out of the queue. *)
Lemma wp_rlean_reclaim D m o (G : objp -> Prop) :
  aside D m -> D o -> (forall x, G x -> ~ queued m x) ->
  wp (rlean_reclaim o) (fun _ m' => aside D m' /\ forall x, G x \/ x = o -> ~ queued m' x) m.
Proof.
  intros A Ho HG. destruct (aside_reclaimable _ _ _ A Ho) as (h & Eh & Hr & _).
  unfold rlean_reclaim. wsteps. eapply wp_mono; [by eapply wp_reclaim_ready|]. intros b ? [-> ->]. wsteps.
  eapply wp_mono; [eapply wp_reclaim_quiet; [apply A|done|done]|].
  intros st m' (H' & (q & len & E) & Hnq & Hback & Hkeep).
  assert (aside D m' /\ forall x, G x \/ x = o -> ~ queued m' x) as Hfin.
  { split; [|intros x [Hx| ->]; [|done]; intros Hq; by apply (HG x Hx), Hback].
    rewrite E in H', Hkeep |- *. apply aside_rq; [done|done|]. intros j qe o' Hj _ Hqo Hout. apply Hkeep; [done|].
    intros Hc. rewrite Hc in Hqo. injection Hqo as <-. by destruct (as_dead _ _ A o Ho). }
  case_match; by wsteps.
Qed.

Lemma gate_pin h : hdr_u32Pin h = 0 ->
  reclaimable (hdr_set_pin h 1) = false /\ hdr_set_pin (hdr_set_pin h 1) 0 = h.
Proof. intros E. split; [unfold reclaimable; simpl; by rewrite ?andb_false_r|]. destruct h; simpl in *. by subst. Qed.
Lemma gate_ref h : hdr_u32Ref h = 0 ->
  reclaimable (hdr_set_ref h 1) = false /\ hdr_set_ref (hdr_set_ref h 1) 0 = h.
Proof. intros E. split; [unfold reclaimable; simpl; by rewrite ?andb_false_r|]. destruct h; simpl in *. by subst. Qed.
Lemma gate_left h : hdr_u32SlotsLeft h = 0 ->
  reclaimable (hdr_set_left h 1) = false /\ hdr_set_left (hdr_set_left h 1) 0 = h.
Proof. intros E. split; [unfold reclaimable; simpl; by rewrite ?andb_false_r|]. destruct h; simpl in *. by subst. Qed.

Lemma wp_rlean_body m :
  NoDup L -> aside (fun _ => False) m ->
  wp (rlean_body o0 o1 o2) (fun _ m' => wf (strip L m') /\ deferred m0 (strip L m')) m.
Proof.
  intros Hnd A. rewrite !NoDup_cons, !not_elem_of_cons in Hnd. destruct Hnd as ((N1 & N2 & _) & (N3 & _) & _).
  unfold rlean_body. wsteps.
  eapply wp_mono; [apply (wp_rlean_begin _ _ o0 _ A); [set_solver|by intros []]|]. intros x0 ma Aa. wsteps.
  eapply wp_mono; [apply (wp_rlean_begin _ _ o1 _ Aa); [set_solver|naive_solver]|]. intros x1 mb Ab. wsteps.
  eapply wp_mono; [apply (wp_rlean_begin _ _ o2 _ Ab); [set_solver|naive_solver]|]. intros x2 mc Ac. wsteps.
  eapply wp_mono; [apply (wp_process_deferred quiet_hook mc); [apply Ac|done]|].
  intros r md (Hd & Dd & _). wsteps. pose proof (aside_deferred _ _ _ Ac Hd Dd) as Ad. clear dependent ma mb mc m.
  set (D := fun x => _) in Ad.
  assert (forall o, o ∈ L -> D o) as HD by (intros o; unfold D; rewrite !elem_of_cons, elem_of_nil; tauto).
  destruct (aside_reclaimable _ _ o0 Ad) as (h0 & E0 & _ & _ & P0 & _); [apply HD; set_solver|].
  destruct (aside_reclaimable _ _ o1 Ad) as (h1 & E1 & _ & _ & _ & S1); [apply HD; set_solver|].
  destruct (aside_reclaimable _ _ o2 Ad) as (h2 & E2 & _ & R2 & _ & _); [apply HD; set_solver|].
  eapply wp_mono; [apply (wp_rlean_gate _ _ h0); [done|by apply gate_pin..]|]. intros g0 ? ->. wsteps.
  eapply wp_mono; [apply (wp_rlean_gate _ _ h1); [done|by apply gate_left..]|]. intros g1 ? ->. wsteps.
  eapply wp_mono; [apply (wp_rlean_gate _ _ h2); [done|by apply gate_ref..]|]. intros g2 ? ->. wsteps.
  eapply wp_mono; [apply (wp_rlean_reclaim D md o0 (fun _ => False) Ad); [apply HD; set_solver|done]|].
  intros r0 me [Ae Qe]. wsteps.
  eapply wp_mono; [apply (wp_rlean_reclaim D me o1 (fun x => False \/ x = o0) Ae); [apply HD; set_solver|exact Qe]|].
  intros r1 mf [Af Qf]. wsteps.
  eapply wp_mono; [apply (wp_rlean_reclaim D mf o2 (fun x => (False \/ x = o0) \/ x = o1) Af); [apply HD; set_solver|exact Qf]|].
  intros r2 mg [Ag Qg]. wsteps.
  assert (wf (strip L mg) /\ deferred m0 (strip L mg)) as Hfin.
  { split; [|apply Ag]. apply wf_strip; [apply Ag|apply Ag|]. intros o Ho. apply Qg.
    rewrite !elem_of_cons, elem_of_nil in Ho. tauto. }
  repeat (apply wp_when_tel; [intros; by apply wp_tick|]; wsteps). done.
Qed.
End Body.

(** Pointers above [ptr_top] are not in use. *)
Lemma ptr_top_fresh {A} (mp : gmap positive A) p : (ptr_top mp < p)%positive -> mp !! p = None.
Proof.
  unfold ptr_top. revert p. induction mp as [|k v mp Hk IH] using map_ind; intros p Hp; [apply lookup_empty|].
  rewrite map_fold_insert_L in Hp; [|intros; lia|done]. rewrite lookup_insert_ne by lia. apply IH. lia.
Qed.

Lemma wp_with_objs m : wf m -> wp (with_objs rlean_body) (fun _ m' => wf m' /\ deferred m m') m.
Proof.
  intros H. unfold with_objs. wsteps. set (p := ptr_top (m_objs m)).
  set (o0 := (p + 1)%positive). set (o1 := (p + 2)%positive). set (o2 := (p + 3)%positive).
  assert (NoDup [o2; o1; o0]) as Hnd.
  { unfold o0, o1, o2. rewrite !NoDup_cons, !not_elem_of_cons. split_and!; first [lia | apply not_elem_of_nil | constructor]. }
  assert (forall o, o ∈ [o2; o1; o0] -> m_objs m !! o = None) as Hf.
  { intros o. rewrite !elem_of_cons, elem_of_nil. intros Ho. apply ptr_top_fresh. unfold o0, o1, o2 in Ho. fold p.
    destruct Ho as [->|[->|[->|[]]]]; lia. }
  destruct (wf_add_objs [o2; o1; o0] m H Hnd Hf) as [H1 L1]. simpl in H1, L1. set (m1 := set_objs _ m) in *.
  eapply wp_mono; [apply (wp_rlean_body m o0 o1 o2 m1 Hnd)|].
  - split; [done|..|done].
    + intros o Ho. exists zero_hdr. split_and!; [|done..]. unfold m1. simpl. rewrite L1. by rewrite bool_decide_true.
    + assert (strip [o2; o1; o0] m1 = m) as ->; [|reflexivity].
      assert (m_objs (strip [o2; o1; o0] m1) = m_objs m) as E.
      { apply map_eq. intros o. rewrite strip_lookup. case_bool_decide as Ho; [by rewrite Hf|].
        unfold m1. simpl. rewrite L1. by rewrite bool_decide_false. }
      destruct m. unfold strip, m1, set_objs in *. simpl in *. by rewrite E.
  - intros [] m2 [H2 D2]. wsteps. unfold strip in *. simpl in *.
    replace (set_objs (fun objs => delete o0 (delete o1 (delete o2 objs))) m2)
      with (set_objs (fun objs => delete o2 (delete o1 (delete o0 objs))) m2); [done|].
    unfold set_objs. simpl. f_equal. rewrite (delete_delete _ o1 o0), (delete_delete _ o2 o0), (delete_delete _ o2 o1). done.
Qed.

(** [soft_revoke_inventory_maybe_once] satisfies the law of the hook. *)
#[export] Instance inventory_rhook : RevokeHook soft_revoke_inventory_maybe_once.
Proof.
  intros m H. unfold soft_revoke_inventory_maybe_once, soft_revoke_residual_lean_once, soft_revoke_inventory_log.
  wsteps. apply wp_tel. intros t. do 3 (case_match; wsteps; [done|]). apply wp_tel. intros t'.
  case_match; wsteps; [done|]. eapply wp_mono; [by apply wp_with_objs|]. intros [] m' Hm. by wsteps.
Qed.
