(* ===== verification/CapTrace.v ===== *)
(** Runs of the capability subsystem: sequences of calls from the kernel's
    initial state, an executable driver for them, and the consequences of the
    refinement over whole runs. *)
From stdpp Require Import base gmap list strings fin_maps.
From Stdlib Require Import ZArith Lia.
From S2P Require Import Prelude CapTypes CapEdges CapQuota CapCnode CapInv CapOps CapDerive CapRevoke CapWalk CapDefer CapSystem CapSim.

Section Runs.
Context (hook rhook : capM unit).

(** Runs of a list of calls, each made with its preconditions met. *)
Inductive steps : list cap_call -> cap_mem -> cap_mem -> Prop :=
| steps_nil m : steps [] m m
| steps_cons k ks m m1 m2 t t' :
    call_ok m k -> run_call hook rhook k (KSt m t) = Some (tt, KSt m1 t') ->
    steps ks m1 m2 -> steps (k :: ks) m m2.

Definition reachable (m : cap_mem) : Prop := exists ks, steps ks cap_mem0 m.

Lemma steps_app ks1 ks2 m m1 m2 : steps ks1 m m1 -> steps ks2 m1 m2 -> steps (ks1 ++ ks2) m m2.
Proof. induction 1; simpl; [done|]. intros. econstructor; eauto. Qed.
End Runs.

(** ** An executable driver *)

Definition is_someb {A} (x : option A) : bool := match x with Some _ => true | None => false end.
Definition cptr_okb (m : cap_mem) (p : option cnp) : bool :=
  match p with Some c => is_someb (m_cns m !! c) | None => true end.
Definition optr_okb (m : cap_mem) (p : option objp) : bool :=
  match p with Some o => is_someb (m_objs m !! o) | None => true end.
Definition qptr_okb (m : cap_mem) (p : option quotap) : bool :=
  match p with Some q => is_someb (m_quotas m !! q) | None => true end.
Definition unreferencedb (m : cap_mem) (o : objp) : bool :=
  match m_objs m !! o with
  | Some h => (hdr_u32SlotsLeft h =? 0) && negb (is_someb (hdr_pCdtHead h))
  | None => false
  end.

(** [call_ok] as a test. *)
Definition call_okb (m : cap_mem) (k : cap_call) : bool :=
  match k with
  | KNewObj o => negb (is_someb (m_objs m !! o))
  | KObjInit o => unreferencedb m o
  | KNewCnode c o => negb (is_someb (m_cns m !! c)) && negb (is_someb (m_objs m !! o))
  | KCnodeInit c n =>
      (0 <=? n) && match m_cns m !! c with
                   | Some cn => negb (is_someb (cn_pSlots cn)) && unreferencedb m (cn_hdr cn)
                                && obj_live m (cn_hdr cn)
                   | None => false
                   end
  | KNewQuota q => negb (is_someb (m_quotas m !! q))
  | KQuotaInit q limit => is_someb (m_quotas m !! q) && (0 <=? limit) && (limit <=? U32_MAX)
  | KQuotaAttach c q => is_someb (m_cns m !! c) && qptr_okb m q
  | KQuotaParent q p => qptr_okb m q && qptr_okb m p
  | KHold o _ _ => is_someb (m_objs m !! o)
  | KTrylock c | KUnlock c => is_someb (m_cns m !! c)
  | KResolve pc i _ | KCopy pc i _ _ | KMove pc i _ | KDelete pc i _ => cptr_okb m pc && (0 <=? i)
  | KInstall pc i _ _ po => cptr_okb m pc && optr_okb m po && (0 <=? i)
  | KAllocInstall pc _ _ po => cptr_okb m pc && optr_okb m po
  | KMint src i _ _ dst => cptr_okb m src && cptr_okb m dst && (0 <=? i)
  | KClear c o max => is_someb (m_cns m !! c) && (0 <=? max)
  | KBegin po | KReclaim po => optr_okb m po
  | KWalk o max => is_someb (m_objs m !! o) && (0 <=? max)
  | KDeferred max => 0 <=? max
  | KSys p r => cptr_okb m (p ≫= id) && (0 <=? u64Arg0 r)
  end.

Lemma is_someb_true {A} (x : option A) : is_someb x = true <-> is_Some x.
Proof. destruct x; simpl; split; try done; by intros []. Qed.

Lemma is_someb_false {A} (x : option A) : negb (is_someb x) = true <-> x = None.
Proof. by destruct x. Qed.

Lemma unreferencedb_ok m o : unreferencedb m o = true -> unreferenced m o.
Proof.
  unfold unreferencedb, unreferenced. destruct (m_objs m !! o) as [h|]; [|done].
  intros [E1%Z.eqb_eq E2%is_someb_false]%andb_true_iff. by exists h.
Qed.

Lemma call_okb_ok m k : call_okb m k = true -> call_ok m k.
Proof.
  destruct k; simpl; unfold cptr_okb, optr_okb, qptr_okb, cptr_ok, optr_ok, ptr_ok;
    rewrite ?andb_true_iff, ?is_someb_true, ?is_someb_false, ?Z.leb_le; try done; try tauto;
    try (repeat case_match; rewrite ?andb_true_iff, ?is_someb_true, ?is_someb_false, ?Z.leb_le; naive_solver).
  - apply unreferencedb_ok.
  - intros [Hn H]. split; [done|]. destruct (m_cns m !! c) as [cn|]; [|done].
    apply andb_true_iff in H as [[H1 H2]%andb_true_iff H3]. exists cn. split_and!; try done.
    + by apply is_someb_false in H1.
    + by apply unreferencedb_ok.
Qed.

(** Run a list of calls from a memory with all counters at zero. *)
Fixpoint run_trace (hook rhook : capM unit) (ks : list cap_call) (m : cap_mem) : option cap_mem :=
  match ks with
  | [] => Some m
  | k :: ks' =>
      if call_okb m k then
        match run_call hook rhook k (KSt m ∅) with
        | Some (_, s) => run_trace hook rhook ks' (k_mem s)
        | None => None
        end
      else None
  end.

Lemma run_trace_steps hook rhook ks m m' :
  run_trace hook rhook ks m = Some m' -> steps hook rhook ks m m'.
Proof.
  revert m. induction ks as [|k ks IH]; intros m; simpl.
  - intros [= ->]. constructor.
  - destruct (call_okb m k) eqn:Eok; [|done].
    destruct (run_call hook rhook k (KSt m ∅)) as [[[] [m1 t1]]|] eqn:Er; [|done]. simpl. intros H.
    econstructor; [by apply call_okb_ok|exact Er|auto].
Qed.

(** ** Runs keep the invariant and follow the abstract specification *)
Section Invariant.
Context (hook rhook : capM unit) `{!CapHook hook, !RevokeHook rhook}.
Implicit Types (m : cap_mem).

Lemma wf_init : wf cap_mem0.
Proof.
  split; simpl.
  - split_and!; try done. by intros e ed _ [-> _]%lookup_replicate.
  - split_and!.
    + intros q v p E. by apply lookup_empty_Some in E.
    + intros q [|k] Hk; [lia|]. simpl. by rewrite lookup_empty.
    + intros q v E. by apply lookup_empty_Some in E.
  - intros c cn E. by apply lookup_empty_Some in E.
  - intros o h E. by apply lookup_empty_Some in E.
  - intros o1 o2 h1 h2 l1 l2 [E _]. unfold cap_mem0 in E. simpl in E. by apply lookup_empty_Some in E.
  - split_and!; try done.
    + intros i qe [-> _]%lookup_replicate. done.
    + intros i j qi qj [-> _]%lookup_replicate. done.
Qed.

Lemma step_sim m k m1 t t' :
  wf m -> call_ok m k -> run_call hook rhook k (KSt m t) = Some (tt, KSt m1 t') ->
  wf m1 /\ gen_step m m1 /\ acap_step k (abs m) (abs m1).
Proof. intros H Hok E. by eapply (wp_run _ _ _ _ _ _ _ (sim_call hook rhook m k H Hok)). Qed.

Lemma steps_wf ks m m' : steps hook rhook ks m m' -> wf m -> wf m'.
Proof. induction 1; [done|]. intros Hm. apply IHsteps. by eapply step_sim. Qed.

Lemma reach_wf m : reachable hook rhook m -> wf m.
Proof. intros [ks Hs]. eapply steps_wf; [done|]. apply wf_init. Qed.

(** ** Slot generations over a run *)
Lemma slot_gen_bump_iter g k :
  1 <= g <= U32_MAX -> Nat.iter k slot_gen_bump g = 1 + (g - 1 + Z.of_nat k) mod U32_MAX.
Proof.
  intros Hg. induction k as [|k IH].
  - change (Nat.iter 0 slot_gen_bump g) with g. unfold U32_MAX in *. rewrite Z.mod_small by lia. lia.
  - rewrite Nat.iter_succ, IH. pose proof (Z.mod_pos_bound (g - 1 + Z.of_nat k) U32_MAX eq_refl) as Hb.
    rewrite slot_gen_bump_cycle by (unfold U32_MAX in *; lia). f_equal.
    rewrite Zplus_mod_idemp_r. f_equal. lia.
Qed.

(** Fewer than [2^32 - 1] bumps never come back to the same generation. *)
Lemma slot_gen_bump_fresh g k :
  1 <= g <= U32_MAX -> (0 < k)%nat -> Z.of_nat k < U32_MAX -> Nat.iter k slot_gen_bump g <> g.
Proof.
  intros Hg Hk Hlt. rewrite slot_gen_bump_iter by done. unfold U32_MAX in *.
  destruct (decide (g - 1 + Z.of_nat k < 4294967295)) as [Hs|Hs].
  - rewrite Z.mod_small by lia. lia.
  - replace (g - 1 + Z.of_nat k) with (g - 1 + Z.of_nat k - 4294967295 + 1 * 4294967295) by lia.
    rewrite Z_mod_plus_full, Z.mod_small by lia. lia.
Qed.

(** After a run, a slot that was bound is either untouched or has been bumped
    at least once and at most once per call. *)
Lemma steps_gen ks m m' c i s :
  steps hook rhook ks m m' -> wf m -> slot_at m c i = Some s -> slot_u16Type s <> GJ_CAP_INVALID ->
  exists k s', slot_at m' c i = Some s' /\ (k <= length ks)%nat
    /\ slot_u32Gen s' = Nat.iter k slot_gen_bump (slot_u32Gen s) /\ (k = 0%nat -> s' = s).
Proof.
  intros Hst. revert s.
  assert (forall m m', steps hook rhook ks m m' -> wf m -> forall s, slot_at m c i = Some s ->
    exists k s', slot_at m' c i = Some s' /\ (k <= length ks)%nat
      /\ slot_u32Gen s' = Nat.iter k slot_gen_bump (slot_u32Gen s)
      /\ (k = 0%nat -> slot_u16Type s <> GJ_CAP_INVALID -> s' = s)) as Hgen.
  { clear m m' Hst. intros m m' Hst. induction Hst as [m|k0 ks m m1 m2 t t' Hok Er Hst IH]; intros H s Hs.
    - exists 0%nat, s. done.
    - destruct (step_sim _ _ _ _ _ H Hok Er) as (H1 & Hg & _).
      destruct (Hg c i s Hs) as (s1 & Hs1 & Hc1). destruct (IH H1 s1 Hs1) as (k & s2 & Hs2 & Hk & Hgk & Hz).
      destruct Hc1 as [[Eg Hb]|[Eg Hb]].
      + exists k, s2. split_and!; [done|simpl; lia|by rewrite Hgk, Eg|]. intros Hk0 Hty. rewrite (Hb Hty) in Hz. auto.
      + exists (S k), s2. split_and!; [done|simpl; lia| |done]. rewrite Hgk, Eg, Nat.iter_succ_r. done. }
  intros s H Hs Hty. destruct (Hgen m m' Hst H s Hs) as (k & s' & ? & ? & ? & ?). exists k, s'. split_and!; auto.
Qed.
End Invariant.

(** ** The abstract machine *)
Section AbstractRuns.
Implicit Types (A B : aview).

(** A valid handle denotes a live object. *)
Definition a_ok (A : aview) : Prop := forall c i g a, av_caps A c i g = Some a -> av_live A (ac_obj a) = true.

Lemma abs_ok m : a_ok (abs m).
Proof.
  intros c i g a. simpl. unfold cap_view. destruct (slot_at m c i); [|done]. simpl. by intros [_ ?]%slot_view_obj.
Qed.

(** [r'] grants no more than [r]. *)
Definition rights_le (r' r : Z) : Prop := Z.land r' r = r'.

Lemma rights_le_refl r : rights_le r r.
Proof. apply Z.land_diag. Qed.

Lemma rights_le_trans r1 r2 r3 : rights_le r1 r2 -> rights_le r2 r3 -> rights_le r1 r3.
Proof. unfold rights_le. intros H1 H2. rewrite <-H1 at 1. by rewrite <-Z.land_assoc, H2. Qed.

Lemma rights_le_land r x : rights_le (Z.land r x) r.
Proof. unfold rights_le. rewrite (Z.land_comm r x), <-Z.land_assoc, Z.land_diag. done. Qed.

(** [b] is [a] with at most [a]'s rights. *)
Definition cap_le (b a : acap) : Prop :=
  ac_obj b = ac_obj a /\ ac_type b = ac_type a /\ rights_le (ac_rights b) (ac_rights a).

(** Every capability held in [B] was held in [A] with at least its rights. *)
Definition confined (A B : aview) : Prop :=
  forall c i g b, av_caps B c i g = Some b -> exists c' i' g' a, av_caps A c' i' g' = Some a /\ cap_le b a.

Lemma cap_le_refl a : cap_le a a.
Proof. split_and!; try done. apply rights_le_refl. Qed.

#[export] Instance confined_preorder : PreOrder confined.
Proof.
  split.
  - intros A c i g b Hb. exists c, i, g, b. split; [done|apply cap_le_refl].
  - intros A B C H1 H2 c i g b Hb. destruct (H2 c i g b Hb) as (c1 & i1 & g1 & b1 & E1 & L1 & L2 & L3).
    destruct (H1 c1 i1 g1 b1 E1) as (c2 & i2 & g2 & b2 & E2 & M1 & M2 & M3). exists c2, i2, g2, b2.
    split; [done|]. split_and!; [congruence..|]. by eapply rights_le_trans.
Qed.

Lemma confined_shed A B :
  (forall c i g b, av_caps B c i g = Some b -> av_caps A c i g = Some b) -> confined A B.
Proof. intros H c i g b Hb. exists c, i, g, b. split; [auto|apply cap_le_refl]. Qed.

Lemma confined_grant c i g b A B c0 i0 g0 a :
  av_caps A c0 i0 g0 = Some a -> cap_le b a -> a_grant c i g b A B -> confined A B.
Proof.
  intros Ha Hle [_ _ Hcaps _] c' i' g' b' Hb. rewrite Hcaps in Hb. case_bool_decide.
  - injection Hb as <-. eauto 10.
  - exists c', i', g', b'. split; [done|apply cap_le_refl].
Qed.

(** The calls that create authority: the kernel's installs. *)
Definition is_install (k : cap_call) : bool :=
  match k with KInstall _ _ _ _ _ | KAllocInstall _ _ _ _ => true | _ => false end.

Lemma confined_mint src i g r dst A B : a_mint src i g r dst A B -> confined A B.
Proof.
  intros (cs & cd & j & g' & a & _ & _ & Ha & _ & _ & Hg). eapply confined_grant; [exact Ha| |exact Hg].
  split_and!; try done. apply rights_le_land.
Qed.

Lemma confined_copy pc i g r A B : a_copy pc i g r A B -> confined A B.
Proof.
  intros (c & j & g' & a & _ & Ha & _ & Hg). eapply confined_grant; [exact Ha| |exact Hg].
  split_and!; try done. apply rights_le_land.
Qed.

Lemma confined_mv pc i g A B : a_mv pc i g A B -> confined A B.
Proof.
  intros (c & j & g' & a & _ & Ha & _ & _ & [_ Hcaps _]) c0 i0 g0 b. rewrite Hcaps.
  repeat case_bool_decide; [done|intros [= <-]|intros Hb].
  - exists c, i, g, a. split; [done|apply cap_le_refl].
  - exists c0, i0, g0, b. split; [done|apply cap_le_refl].
Qed.

Lemma confined_del pc i g A B : a_del pc i g A B -> confined A B.
Proof.
  intros (c & a & _ & _ & _ & _ & [Hcaps _]). apply confined_shed. intros c0 i0 g0 b. rewrite Hcaps.
  by case_bool_decide.
Qed.

Lemma confined_same A B : a_same A B -> confined A B.
Proof. intros [H _]. apply confined_shed. intros c i g b. by rewrite H. Qed.

Lemma confined_born o A B : a_born o A B -> confined A B.
Proof. intros [Hc _]. apply confined_shed. intros c i g b. by rewrite Hc. Qed.

Lemma confined_shed_obj o A B : a_shed o A B -> confined A B.
Proof. intros [Hc _]. apply confined_shed. intros c i g b. destruct (Hc c i g) as [->|[-> _]]; done. Qed.

Lemma confined_kill o A B : a_kill o A B -> confined A B.
Proof.
  intros [Hc _]. apply confined_shed. intros c i g b. rewrite Hc.
  destruct (av_caps A c i g); [|done]. by case_bool_decide.
Qed.

Create HintDb confined discriminated.
#[local] Hint Resolve confined_same confined_mint confined_copy confined_mv confined_del
  confined_born confined_shed_obj confined_kill : confined.

(** No call but the kernel's install creates authority. *)
Lemma confined_step k A B : is_install k = false -> acap_step k A B -> confined A B.
Proof.
  destruct k; simpl; intros Hk Hs; try done; try (by eauto 2 with confined nocore);
    try (destruct Hs; by eauto 2 with confined nocore).
  - destruct po as [o|]; [destruct (av_live A o)|]; eauto 2 with confined nocore.
  - destruct Hs as [?|[[_ ?]|[[_ ?]|[[_ ?]|?]]]]; eauto 2 with confined nocore.
Qed.

(** The calls that make [o] live (again): its storage is initialised. *)
Definition rebirths (k : cap_call) (o : objp) : bool :=
  match k with
  | KNewObj o' | KObjInit o' | KNewCnode _ o' => bool_decide (o' = o)
  | _ => false
  end.

Lemma dead_step k A B o :
  rebirths k o = false -> acap_step k A B -> av_live A o = false -> av_live B o = false.
Proof.
  assert (forall o', a_born o' A B -> bool_decide (o' = o) = false -> av_live A o = false -> av_live B o = false) as Hb.
  { intros o' [_ Hl] Hne. rewrite Hl. apply bool_decide_eq_false in Hne. by rewrite bool_decide_false. }
  assert (a_same A B -> av_live A o = false -> av_live B o = false) as Hs by (intros [_ ->]; done).
  assert (forall c i g a, a_grant c i g a A B -> av_live A o = false -> av_live B o = false) as Hg by (intros ???? [_ _ _ ->]; done).
  assert (forall p i g, a_del p i g A B -> av_live A o = false -> av_live B o = false) as Hd
    by (intros p i g (? & ? & _ & _ & _ & _ & [_ ->]); done).
  assert (forall p i g, a_mv p i g A B -> av_live A o = false -> av_live B o = false) as Hm
    by (intros p i g (? & ? & ? & ? & _ & _ & _ & _ & [_ _ ->]); done).
  assert (forall p i g r, a_copy p i g r A B -> av_live A o = false -> av_live B o = false) as Hc
    by (intros p i g r (? & ? & ? & ? & _ & _ & _ & ?); eauto).
  assert (forall p i g r d, a_mint p i g r d A B -> av_live A o = false -> av_live B o = false) as Hmi
    by (intros p i g r d (? & ? & ? & ? & ? & _ & _ & _ & _ & _ & ?); eauto).
  destruct k; simpl; intros Hk Hstep; try (by apply Hs); try (by eapply Hb);
    try (destruct Hstep as [?|?]; [by apply Hs|first [by eapply Hd|by eapply Hm|by eapply Hc|by eapply Hmi]]).
  - destruct Hstep as [?|(? & ? & ? & ? & _ & _ & ?)]; eauto.
  - destruct Hstep as [?|(? & ? & ? & ? & _ & _ & ?)]; eauto.
  - destruct Hstep as [_ ->]. done.
  - destruct po as [o'|]; [|eauto]. destruct (av_live A o'); [|eauto]. destruct Hstep as [_ ->].
    case_bool_decide; done.
  - destruct Hstep as [_ ->]. done.
  - destruct Hstep as [?|[[_ ?]|[[_ ?]|[[_ ?]|?]]]]; eauto.
Qed.
End AbstractRuns.
