(* ===== verification/CapClaims.v ===== *)
(** The properties of the capability subsystem, each with the theorem that
    states it of the code's definitions and a witness on a concrete run. *)
From stdpp Require Import base gmap list strings fin_maps.
From Stdlib Require Import ZArith Lia.
From S2P Require Import Prelude CapTypes CapEdges CapQuota CapCnode CapInv CapOps CapDerive CapRevoke CapWalk CapDefer CapSystem CapSim CapLean CapLeanCnode CapLeanRevoke CapTrace.

#[local] Arguments resolve_result : simpl never.
#[local] Arguments first_full : simpl never.
#[local] Arguments qchain : simpl never.

(** The inventory functions that the operations call. *)
#[local] Abbreviation hook := cdt_soft_inventory_maybe_once.
#[local] Abbreviation rhook := soft_revoke_inventory_maybe_once.
#[local] Hint Resolve inventory_hook inventory_rhook : core.

(** ** A concrete run for the witnesses

    Two quota accounts, two CNodes, two objects; a FRAME capability with rights
    [31] in slot 1 of CNode 1, and two capabilities minted from it. *)
Definition demo_calls : list cap_call :=
  [KNewQuota 1; KQuotaInit 1 10; KNewQuota 2; KQuotaInit 2 100; KQuotaParent (Some 1) (Some 2);
   KNewCnode 1 1; KCnodeInit 1 6; KQuotaAttach 1 (Some 1);
   KNewCnode 2 2; KCnodeInit 2 4;
   KNewObj 3; KObjInit 3; KNewObj 4; KObjInit 4;
   KInstall (Some 1) 0 GJ_CAP_ROOT_META 4095 (Some 1);
   KAllocInstall (Some 1) GJ_CAP_FRAME 31 (Some 3);
   KMint (Some 1) 1 1 3 None;
   KMint (Some 1) 1 1 7 (Some 2)]%positive.

Definition run_demo (ks : list cap_call) (m : cap_mem) : cap_mem :=
  default cap_mem0 (run_trace hook rhook ks m).

Definition demo_mem : cap_mem := run_demo demo_calls cap_mem0.

Lemma demo_steps : steps hook rhook demo_calls cap_mem0 demo_mem.
Proof. apply run_trace_steps. vm_compute. reflexivity. Qed.

Lemma demo_reach : reachable hook rhook demo_mem.
Proof. exists demo_calls. apply demo_steps. Qed.

(** The same run after object 3 is revoked while both CNodes are locked, so
    that no deferred work could clear its slots yet. *)
Definition demo_dead_calls : list cap_call :=
  [KTrylock 1; KTrylock 2; KBegin (Some 3); KUnlock 1; KUnlock 2]%positive.
Definition demo_dead : cap_mem := run_demo demo_dead_calls demo_mem.

Lemma demo_dead_steps : steps hook rhook demo_dead_calls demo_mem demo_dead.
Proof. apply run_trace_steps. vm_compute. reflexivity. Qed.

Lemma demo_dead_reach : reachable hook rhook demo_dead.
Proof.
  exists (demo_calls ++ demo_dead_calls). eapply steps_app; [apply demo_steps|apply demo_dead_steps].
Qed.

Lemma first_full_some n (qs : gmap quotap gj_cap_quota) p q :
  first_full n qs p = Some q -> exists v, q ∈ qchain n qs p /\ qs !! q = Some v /\ has_room v = false.
Proof.
  revert p. induction n as [|n IH]; intros [a|]; unfold first_full, qchain; fold first_full; fold qchain; try done.
  destruct (qs !! a) as [va|] eqn:Ea; [|done]. destruct (has_room va) eqn:Er.
  - intros Hf. destruct (IH _ Hf) as (v & Hin & E & Hv). exists v. split_and!; try done. set_solver.
  - intros [= <-]. exists va. split_and!; try done. set_solver.
Qed.

Section Claims.
Implicit Types (m : cap_mem).

(** C1: the invariant of the capability memory holds in every state reached by
    any sequence of calls: pool accounting, ledger soundness, every bound slot
    binds an allocated object, [ROOT_META] exactly in slot 0, [u32SlotsLeft]
    equal to the number of slots that bind the object, CDT chains finite,
    disjoint and naming distinct bound slots, deferred queue sound. *)
Theorem reachable_wf m : reachable hook rhook m -> wf m.
Proof. apply reach_wf; apply _. Qed.

(** C2: from every reachable state every call whose arguments are valid
    pointers runs to completion (no loop exceeds its bound, no unallocated
    pointer is dereferenced) and reaches a state of the system. *)
Theorem calls_total m k t :
  reachable hook rhook m -> call_ok m k ->
  exists m' t', run_call hook rhook k (KSt m t) = Some (tt, KSt m' t') /\ reachable hook rhook m'.
Proof.
  intros Hr Hok. destruct (sim_call hook rhook m k (reach_wf _ _ m Hr) Hok t) as ([] & m' & t' & E & _).
  exists m', t'. split; [done|]. destruct Hr as [ks Hs]. exists (ks ++ [k]).
  eapply steps_app; [done|]. econstructor; [done|exact E|constructor].
Qed.

(** C3: refinement.  Every call made in a reachable state is a step of the
    abstract specification over the set of valid handles. *)
Theorem calls_refine m k m' t t' :
  reachable hook rhook m -> call_ok m k -> run_call hook rhook k (KSt m t) = Some (tt, KSt m' t') ->
  acap_step k (abs m) (abs m').
Proof. intros Hr Hok E. apply (step_sim hook rhook m k m' t t' (reach_wf hook rhook m Hr) Hok E). Qed.

(** C4: revocation is immediate and permanent.  Once [gj_obj_revoke_begin] has
    run on an object, whatever its status and whatever calls follow, short of
    re-initialising the object's storage, no handle of any CNode denotes it. *)
Theorem revoke_permanent m o ks m' c i g a :
  reachable hook rhook m -> steps hook rhook (KBegin (Some o) :: ks) m m' ->
  forallb (fun k => negb (rebirths k o)) ks = true ->
  cap_view m' c i g = Some a -> ac_obj a <> o.
Proof.
  intros Hr Hs Hks Hv <-. apply reach_wf in Hr; [|apply _..]. inversion Hs as [|? ? ? m1 ? t t' Hok Er Hs1]; subst.
  destruct (step_sim hook rhook _ _ _ _ _ Hr Hok Er) as (H1 & _ & Hstep). simpl in Hstep.
  assert (obj_live m1 (ac_obj a) = false) as Hdead.
  { destruct (obj_live m (ac_obj a)) eqn:El; [destruct Hstep as [_ Hl]|destruct Hstep as [_ Hl]];
      specialize (Hl (ac_obj a)); simpl in Hl; [by rewrite bool_decide_true in Hl|congruence]. }
  assert (obj_live m' (ac_obj a) = false) as Hdead'.
  { clear Hs Er Hok Hstep Hr Hv. revert Hks Hdead H1. induction Hs1 as [|k ks m1 m2 m3 t1 t1' Hok Er Hs1 IH]; [done|].
    simpl. intros [Hk Hks]%andb_true_iff Hd H1. destruct (step_sim hook rhook _ _ _ _ _ H1 Hok Er) as (H2 & _ & Hst).
    apply IH; try done. apply (dead_step k (abs m1) (abs m2)); try done. by apply negb_true_iff in Hk. }
  pose proof (abs_ok m' c i g a Hv) as Hl. simpl in Hl. congruence.
Qed.

(** C5: no amplification.  Over any sequence of calls other than the kernel's
    installs (mint, copy, move, delete, the system calls, revocation and
    deferred work included), every capability held at the end was held at the
    start for the same object and type with at least the same rights. *)
Theorem authority_confined m ks m' c i g b :
  reachable hook rhook m -> steps hook rhook ks m m' -> forallb (fun k => negb (is_install k)) ks = true ->
  cap_view m' c i g = Some b ->
  exists c' i' g' a, cap_view m c' i' g' = Some a /\ ac_obj b = ac_obj a /\ ac_type b = ac_type a
    /\ rights_le (ac_rights b) (ac_rights a).
Proof.
  intros Hr Hs Hks Hv. apply reach_wf in Hr; [|apply _..].
  assert (confined (abs m) (abs m')) as Hc; [|exact (Hc c i g b Hv)].
  clear Hv. revert Hr Hks. induction Hs as [|k ks m m1 m2 t t' Hok Er Hs IH]; [reflexivity|].
  simpl. intros H [Hk Hks]%andb_true_iff. destruct (step_sim hook rhook _ _ _ _ _ H Hok Er) as (H1 & _ & Hst).
  transitivity (abs m1); [|auto]. apply (confined_step k); [by apply negb_true_iff in Hk|done].
Qed.

(** C6: no handle recycling.  A handle that is valid now denotes, after fewer
    than [2^32 - 1] calls of any kind, either nothing or the same capability:
    a deleted or moved slot never revives an old handle for another object. *)
Theorem handle_not_recycled m ks m' c i g a a' :
  reachable hook rhook m -> steps hook rhook ks m m' -> Z.of_nat (length ks) < U32_MAX ->
  cap_view m c i g = Some a -> cap_view m' c i g = Some a' -> a' = a.
Proof.
  intros Hr Hs Hlen Hv Hv'. apply reach_wf in Hr; [|apply _..]. unfold cap_view in *.
  destruct (slot_at m c i) as [s|] eqn:Es; [|done]. simpl in Hv.
  pose proof (slot_view_obj _ _ _ _ Hv) as [Href _]. apply slot_refs_true in Href as [Hty _].
  destruct (steps_gen hook rhook ks m m' c i s Hs Hr Es Hty) as (k & s' & Es' & Hk & Hg & Hz).
  rewrite Es' in Hv'. simpl in Hv'. apply slot_at_some in Es as (cn & Ec & Ecs).
  destruct (wf_cns _ _ Hr c cn Ec) as (_ & _ & Hsl). destruct (Hsl i s Ecs) as [Hgr _].
  unfold slot_view in Hv, Hv'.
  destruct (Z.eqb_spec (slot_u32Gen s) g) as [Eg|]; [|by rewrite andb_false_r in Hv].
  destruct (Z.eqb_spec (slot_u32Gen s') g) as [Eg'|]; [|by rewrite andb_false_r in Hv'].
  destruct k as [|k].
  - rewrite (Hz eq_refl) in Hv'. destruct (negb _ && _ && _); [|done]. destruct (slot_pObj s) as [o|]; [|done].
    destruct (obj_live m o && _), (obj_live m' o && _); congruence.
  - exfalso. apply (slot_gen_bump_fresh (slot_u32Gen s) (S k)); [done|lia|lia|congruence].
Qed.

(** The status [gj_cap_resolve] must return, by what the slot holds. *)
Definition resolve_code (m : cap_mem) (c : cnp) (i g : Z) : gj_status :=
  match slot_at m c i with
  | None => GJ_ERR_INVAL
  | Some s =>
      if g =? 0 then GJ_ERR_INVAL
      else if slot_u16Type s =? GJ_CAP_INVALID then GJ_ERR_NOENT
      else if negb (slot_u32Gen s =? g) then GJ_ERR_STALE_CAP
      else match slot_pObj s with
           | None => GJ_ERR_STALE_CAP
           | Some o => if negb (obj_live m o) then GJ_ERR_DEAD
                       else if negb (obj_gen_is m o (slot_u32ObjGen s)) then GJ_ERR_STALE_CAP
                       else GJ_OK
           end
  end.

#[local] Ltac code_done := (split_and!; [done|done|]); split; intros Hx; solve [done | by destruct Hx | eauto].

(** C7: resolve fails closed.  It returns the status the slot's contents call
    for, fills its result exactly when the handle is valid, with the
    capability the handle denotes, and changes nothing observable. *)
Theorem resolve_correct m c i g :
  reachable hook rhook m -> is_Some (m_cns m !! c) -> 0 <= i ->
  wp (gj_cap_resolve hook (Some c) i g true) (fun r m' =>
    quiet m m' /\ fst r = resolve_code m c i g
    /\ snd r = (fun a => CapResolved i (ac_obj a) (ac_type a) (ac_rights a)) <$> cap_view m c i g
    /\ (is_Some (snd r) <-> fst r = GJ_OK)) m.
Proof.
  intros Hr Hc Hi. apply reach_wf in Hr; [|apply _..]. eapply wp_mono; [by apply wp_resolve|].
  intros r m' [-> Hq]. split; [done|]. unfold resolve_result, resolve_code, cap_view.
  destruct (slot_at m c i) as [s|] eqn:Es; simpl.
  2:{ rewrite orb_comm. destruct (g =? 0), (in_cnode m c i); simpl; code_done. }
  rewrite (wf_in_cnode m c i s Hr Es). simpl. unfold slot_view.
  destruct (g =? 0); simpl; [rewrite andb_false_r; code_done|].
  destruct (slot_u16Type s =? GJ_CAP_INVALID) eqn:Et; simpl; [code_done|].
  destruct (slot_u32Gen s =? g); simpl; [|code_done].
  destruct (slot_pObj s) as [o|] eqn:Eo; [|code_done].
  unfold obj_live, obj_gen_is, gj_obj_check_live. apply slot_at_some in Es as (cn & Ec & Es).
  destruct (m_objs m !! o) as [h|] eqn:Eh.
  2:{ exfalso. destruct (wf_cns _ _ Hr c cn Ec) as (_ & _ & Hsl). destruct (Hsl i s Es) as [_ Hb].
      rewrite Et in Hb. destruct Hb as (o' & E & [h Eh'] & _). congruence. }
  destruct (hdr_u32State h =? GJ_OBJ_LIVE); simpl; [|code_done].
  destruct (hdr_u32Gen h =? slot_u32ObjGen s); simpl; code_done.
Qed.

(** C8: mint never escalates and fails atomically.  On success the new handle
    sits in a slot without valid handle of the destination CNode and denotes
    the source's object and type with exactly the rights held and asked for,
    not none; the source was valid and had [MINT]; no other handle changes;
    each account on the destination's quota walk is charged once.  On failure
    nothing observable changes. *)
Theorem mint_correct m src i g rights dst :
  reachable hook rhook m -> cptr_ok m src -> cptr_ok m dst -> 0 <= i ->
  wp (gj_cap_mint hook src i g rights dst true) (fun res m' =>
    match snd res with
    | Some ref => fst res = GJ_OK /\ exists cs cd cn a, src = Some cs
        /\ match dst with None => src | Some _ => dst end = Some cd
        /\ cap_view m cs i g = Some a /\ Z.land (ac_rights a) GJ_RIGHT_MINT <> 0
        /\ Z.land (ac_rights a) rights <> 0
        /\ (forall g', cap_view m cd (ref_u64Slot ref) g' = None)
        /\ (forall c' i' g', cap_view m' c' i' g' =
              if bool_decide (c' = cd /\ i' = ref_u64Slot ref /\ g' = ref_u32SlotGen ref)
              then Some (ACap (ac_obj a) (ac_type a) (Z.land (ac_rights a) rights)) else cap_view m c' i' g')
        /\ m_cns m !! cd = Some cn /\ quota_upd q_charge (cn_pQuotaAccount cn) m m'
    | None => fst res <> GJ_OK /\ unseen m m'
    end) m.
Proof.
  intros Hr Hs Hd Hi. apply reach_wf in Hr; [|apply _..]. eapply wp_mono; [by apply wp_mint|].
  intros [st [ref|]] m' (_ & _ & HQ); simpl in *; [|destruct HQ; split; [done|by apply unseen_quiet]].
  destruct HQ as (-> & rv & cd & E & Hm & Hw & Ed & Hg). split; [done|].
  destruct (resolve_some _ _ _ _ _ E) as [cs ->]. destruct (view_granted _ _ _ _ _ _ _ _ Hr Hg) as [V1 V2].
  destruct Hg as [_ _ (cn & B1 & _ & B3) _].
  exists cs, cd, cn, (ACap (res_pObj rv) (res_u16Type rv) (res_u16Rights rv)).
  split_and!; try done. by apply resolve_abs.
Qed.

(** C9: move transfers a capability without duplicating or losing it.  On
    success exactly one handle of the CNode, in a slot that held none, denotes
    what the source handle denoted, the source slot has no valid handle, no
    other handle changes, and every quota account has the usage it had before.
    The root-meta slot never moves.  On failure nothing observable changes. *)
Theorem move_correct m c i g :
  reachable hook rhook m -> is_Some (m_cns m !! c) -> 0 <= i ->
  wp (gj_cap_move hook (Some c) i g true) (fun res m' =>
    match snd res with
    | Some ref => fst res = GJ_OK /\ exists a, cap_view m c i g = Some a
        /\ Z.land (ac_rights a) GJ_RIGHT_GRANT <> 0 /\ i <> GJ_CAP_SLOT_ROOT_META
        /\ a_move c i a (ref_u64Slot ref) (ref_u32SlotGen ref) (abs m) (abs m')
        /\ quotas_same m m'
    | None => fst res <> GJ_OK /\ unseen m m'
    end) m.
Proof.
  intros Hr Hs Hi. apply reach_wf in Hr; [|apply _..].
  eapply wp_mono; [by apply (wp_move hook m (Some c))|]. intros [st [ref|]] m' (_ & _ & HQ); simpl in *.
  2:{ destruct HQ; split; [done|by apply unseen_quiet]. }
  destruct HQ as (-> & rv & c' & E & [= <-] & Hm & Hroot & Hmv). split; [done|].
  exists (ACap (res_pObj rv) (res_u16Type rv) (res_u16Rights rv)). pose proof (resolve_abs _ _ _ _ _ Hr E) as Hv.
  refine (conj Hv (conj Hm (conj Hroot (conj _ (mv_quota _ _ _ _ _ Hmv))))).
  destruct (view_moved _ _ _ _ _ Hr Hmv) as (V1 & s & Es & V2).
  destruct (resolve_ok_inv _ _ _ _ _ E) as (c' & s' & _ & [= <-] & Es' & _ & Hg & _).
  assert (slot_u32Gen s = g) as Eg by congruence. rewrite Eg in V2.
  split; simpl; try done; [intros; by rewrite V2, Hv|]. intros o. apply obj_live_core, Hmv.
Qed.

(** C10: delete.  It succeeds exactly when the handle is valid, the slot is not
    the root-meta slot and the capability carries [DESTROY] or [GRANT]; then no
    handle of the slot is valid, no other handle changes, the slot's generation
    has moved on and the account walk of the CNode is refunded once.
    Otherwise nothing observable changes. *)
Theorem delete_correct m c i g :
  reachable hook rhook m -> is_Some (m_cns m !! c) -> 0 <= i ->
  wp (gj_cap_delete hook (Some c) i g) (fun st m' =>
    (st = GJ_OK <-> exists a, cap_view m c i g = Some a /\ i <> GJ_CAP_SLOT_ROOT_META
       /\ (Z.land (ac_rights a) GJ_RIGHT_DESTROY <> 0 \/ Z.land (ac_rights a) GJ_RIGHT_GRANT <> 0))
    /\ (if is_ok st then
          a_drop c i (abs m) (abs m')
          /\ (exists s, slot_at m c i = Some s /\ slot_at m' c i = Some (gj_cap_slot_invalidate s))
          /\ exists cn, m_cns m !! c = Some cn /\ quota_upd q_refund (cn_pQuotaAccount cn) m m'
        else unseen m m')) m.
Proof.
  intros Hr Hs Hi. apply reach_wf in Hr; [|apply _..].
  eapply wp_mono; [by apply (wp_delete hook m (Some c))|]. intros st m' (_ & Est & HQ). split.
  - rewrite Est. unfold delete_status.
    destruct (resolve_result_cases m (Some c) i g true) as [[rv E]|(st' & Hst & E)]; rewrite E.
    + pose proof (resolve_abs _ _ _ _ _ Hr E) as Hv. rewrite Hv.
      destruct (Z.eqb_spec i GJ_CAP_SLOT_ROOT_META); [split; [done|naive_solver]|].
      destruct (Z.eqb_spec (Z.land (res_u16Rights rv) GJ_RIGHT_DESTROY) 0),
        (Z.eqb_spec (Z.land (res_u16Rights rv) GJ_RIGHT_GRANT) 0); simpl; (split; [try done|naive_solver]);
        intros _; eexists; (split; [done|]); simpl; tauto.
    + assert (match st' with GJ_OK => GJ_ERR_INVAL | _ => st' end = st') as Hsame by (by destruct st').
      split; [destruct st'; done|]. intros (a & Hv & _). exfalso.
      assert (resolve_result m (Some c) i g true = (GJ_OK, Some (CapResolved i (ac_obj a) (ac_type a) (ac_rights a)))) as E'
        by (apply resolve_view; [done|]; simpl; split; [by rewrite Hv; destruct a|done]).
      congruence.
  - destruct (is_ok st); [|by apply unseen_quiet].
    destruct HQ as (rv & c' & _ & [= <-] & _ & Hd). split; [by eapply a_drop_dropped|].
    destruct Hd as [_ (s & A1 & _ & W) B]. split; [|done]. exists s. split; [done|]. by rewrite W, bool_decide_true.
Qed.

(** C11: Phase A.  On a live object [gj_obj_revoke_begin] leaves it DEAD with
    the next generation whether or not the deferred queue has room: it returns
    [GJ_OK] with the object queued, or [GJ_ERR_AGAIN] only when all 64 entries
    hold other objects, and objects already queued stay queued.  On an object
    that is not live it returns DEAD or BUSY and changes nothing. *)
Theorem revoke_begin_correct m o h :
  reachable hook rhook m -> m_objs m !! o = Some h ->
  wp (gj_obj_revoke_begin rhook (Some o)) (fun st m' =>
    if hdr_u32State h =? GJ_OBJ_LIVE then
      (exists h', m_objs m' !! o = Some h' /\ hdr_u32State h' = GJ_OBJ_DEAD
                  /\ hdr_u32Gen h' = u32_wrap (hdr_u32Gen h + 1))
      /\ ((st = GJ_OK /\ queued m' o)
          \/ (st = GJ_ERR_AGAIN /\ forall j qe, m_rq m !! j = Some qe ->
                qe_u8Active qe = true /\ qe_pObj qe <> Some o))
      /\ (forall o', dead m o' -> queued m o' -> queued m' o')
    else m' = m /\ (st = GJ_ERR_DEAD \/ st = GJ_ERR_BUSY)) m.
Proof.
  intros Hr Eo. apply reach_wf in Hr; [|apply _..]. eapply wp_mono; [by apply wp_begin|].
  intros st m' [_ HQ]. destruct (hdr_u32State h =? GJ_OBJ_LIVE).
  2:{ destruct HQ as [-> ->]. split; [done|]. destruct (_ || _); auto. }
  destruct HQ as (m1 & (h0 & q & len & E0 & Hl & E1 & Hkeep & _) & D & Hres).
  assert (h0 = h) as -> by congruence. split; [|split].
  - pose proof (hy_objs _ _ _ (df_hygiene _ _ D) o) as Hc. rewrite E1 in Hc. simpl in Hc.
    rewrite lookup_insert_eq in Hc. destruct (m_objs m' !! o) as [h'|]; [|done]. exists h'. split; [done|].
    simpl in Hc. unfold hdr_core in Hc. simpl in Hc. by injection Hc as -> -> _ _.
  - destruct Hres as [?|(-> & Hnq & Hall)]; [by left|right]. split; [done|]. intros j qe Hj. split; [by eapply Hall|].
    intros Ho. apply Hnq. exists j, qe. split_and!; eauto.
  - intros o' (h1 & Eh1 & Hd1) Hq. eapply df_queued; [done| |by eapply rq_keep_queued].
    exists h1. rewrite E1. simpl. rewrite lookup_insert_ne; [done|]. intros <-.
    rewrite Eo in Eh1. injection Eh1 as <-. by rewrite Hl in Hd1.
Qed.

(** The CDT walk is work-limited and complete.  It clears at most its
    budget, each cleared slot takes one edge off the chain, only slots of the
    walked object are touched and only by clearing them; with all CNode locks
    free, one batch with a budget of at least the chain's length empties it. *)
Theorem walk_batch_correct m o h l max :
  reachable hook rhook m -> chain_at m o h l -> 0 <= max ->
  wp (gj_revoke_cdt_walk_batch rhook (Some o) max) (fun r m' =>
    0 <= r <= max /\ r <= Z.of_nat (length l) /\ a_shed o (abs m) (abs m')
    /\ hygiene (fun o' => o' = o \/ dead m o') m m' /\ locks_same m m'
    /\ exists h' l', chain_at m' o h' l' /\ Z.of_nat (length l') + r <= Z.of_nat (length l)
    /\ (locks_free m -> Z.of_nat (length l) <= max -> max * 4 + 8 < 2 ^ 32 ->
        l' = [] /\ r = Z.of_nat (length l))) m.
Proof.
  intros Hr Hch Hm. apply reach_wf in Hr; [|apply _..]. eapply wp_mono; [by eapply wp_walk_batch|].
  intros r m' (_ & m1 & W & H1 & D & Hb & h1 & l1 & C1 & L1 & _ & F1).
  destruct (df_chains _ _ D o h1 l1 C1) as (h2 & l2 & C2 & L2).
  split; [done|]. split; [lia|]. split; [eapply a_shed_same; [apply a_shed_hygiene, W|by apply a_same_deferred]|].
  split.
  { transitivity m1; [eapply hygiene_mono; [|apply W]; by intros ? <-; left|].
    eapply hygiene_mono; [|apply D]. intros o' Hd. right. by apply (dead_hygiene _ _ _ _ (wk_hygiene _ _ _ W)). }
  split; [transitivity m1; [apply W|apply D]|].
  exists h2, l2. split; [done|]. split; [lia|]. intros Hlf Hlen Hov.
  rewrite (F1 Hlf Hov), drop_ge in * by lia. simpl in *. split; [|lia]. destruct l2; [done|simpl in L2; lia].
Qed.

(** C13: the deferred driver makes progress.  With all CNode locks free and a
    budget of at least the pool size, one call leaves every dead queued object
    with an empty CDT chain, whatever else is queued; in every case it clears
    at most its budget and no valid handle changes. *)
Theorem deferred_drains m max :
  reachable hook rhook m -> 0 <= max ->
  wp (gj_revoke_process_deferred rhook max) (fun r m' =>
    0 <= r <= max /\ a_same (abs m) (abs m')
    /\ (locks_free m -> Z.of_nat GJ_CDT_EDGE_POOL <= max -> max * 4 + 8 < 2 ^ 32 ->
        forall o, queued m o -> dead m o -> exists h, chain_at m' o h [])) m.
Proof.
  intros Hr Hm. apply reach_wf in Hr; [|apply _..]. eapply wp_mono; [by apply wp_process_deferred|].
  intros r m' (_ & D & Hb & Hd). split; [done|]. split; [by apply a_same_deferred|done].
Qed.

(** C14: reclaim is safe.  [gj_obj_reclaim] succeeds exactly when the object is
    DEAD with no counted slot, no CDT edge, no reference and no pin; then no
    slot of any CNode binds the object and it has left the deferred queue.
    Otherwise it returns BUSY and changes nothing. *)
Theorem reclaim_safe m o h :
  reachable hook rhook m -> m_objs m !! o = Some h ->
  wp (gj_obj_reclaim rhook (Some o)) (fun st m' =>
    if reclaimable h then
      st = GJ_OK /\ (forall c i s, slot_at m' c i = Some s -> slot_refs o s = false)
      /\ exists m1, ~ queued m1 o /\ deferred m1 m'
    else st = GJ_ERR_BUSY /\ m' = m) m.
Proof.
  intros Hr Eo. apply reach_wf in Hr; [|apply _..]. eapply wp_mono; [by apply wp_reclaim|].
  intros st m' [_ HQ]. destruct (reclaimable h) eqn:Erec; [|done].
  destruct HQ as (-> & m1 & q & len & E1 & Hnq & _ & H1 & D). split; [done|]. split; [|by exists m1].
  assert (unreferenced m o) as Hu.
  { exists h. unfold reclaimable in Erec. rewrite !andb_true_iff, bool_decide_eq_true, !Z.eqb_eq in Erec. naive_solver. }
  intros c i s' Hs'. destruct (slot_at m1 c i) as [s|] eqn:Es.
  - assert (slot_refs o s = false) as Hrf by (eapply (no_slot_refs m o Hr (or_intror Hu) c i); rewrite E1 in Es; exact Es).
    destruct (hy_slots _ _ _ (df_hygiene _ _ D) c i s Es) as [E|(? & _ & _ & E)]; rewrite E in Hs'; injection Hs' as <-; [done|].
    by apply slot_refs_free.
  - by rewrite (hy_none _ _ _ (df_hygiene _ _ D) c i Es) in Hs'.
Qed.

(** C15: in every reachable state no quota account exceeds its limit, no
    account is its own ancestor within the walk depth, and a charge walk visits
    each account at most once. *)
Theorem quota_bounded m q v p :
  reachable hook rhook m -> m_quotas m !! q = Some v ->
  0 <= q_u32Used v <= q_u32Limit v /\ acyclic (m_quotas m) /\ NoDup (qwalk (m_quotas m) p).
Proof.
  intros Hr E. apply reach_wf in Hr; [|apply _..]. destruct (wf_ledger _ _ Hr) as (_ & Ha & Hq).
  split; [apply (Hq q v E)|]. split; [done|]. by apply qwalk_NoDup.
Qed.

(** A slot charge is all or nothing.  It succeeds exactly when every
    account on the bounded parent walk has room, and then adds one to each of
    them; otherwise no account's usage changes. *)
Theorem quota_charge_atomic m p :
  reachable hook rhook m -> ptr_ok (m_quotas m) p ->
  wp (gj_cap_quota_slot_charge p) (fun st m' =>
    (st = GJ_OK <-> forall q v, q ∈ qwalk (m_quotas m) p -> m_quotas m !! q = Some v -> q_u32Used v < q_u32Limit v)
    /\ (if is_ok st then forall q v, m_quotas m !! q = Some v -> exists v', m_quotas m' !! q = Some v'
          /\ q_u32Used v' = q_u32Used v + (if bool_decide (q ∈ qwalk (m_quotas m) p) then 1 else 0)
          /\ q_u32Limit v' = q_u32Limit v
        else quotas_same m m')) m.
Proof.
  intros Hr Hp. apply reach_wf in Hr; [|apply _..]. destruct (wf_ledger _ _ Hr) as (Hpar & Ha & Hq).
  eapply wp_mono; [by apply wp_slot_charge|]. intros st m' HQ.
  destruct (first_full GJ_CAP_QUOTA_DEPTH_MAX (m_quotas m) p) as [q0|] eqn:Ef; destruct HQ as [-> ->].
  - split; [split; [done|]|]; simpl.
    + intros Hroom. destruct (first_full_some _ _ _ _ Ef) as (v0 & Hin & E0 & Hfull). specialize (Hroom q0 v0 Hin E0).
      unfold has_room in Hfull. apply Z.ltb_ge in Hfull. lia.
    + apply un_quotas, unseen_quiet, quiet_exhaust, Hr.
  - assert (forall q v, q ∈ qwalk (m_quotas m) p -> m_quotas m !! q = Some v -> q_u32Used v < q_u32Limit v) as Hroom.
    { intros q v Hin E. pose proof (first_full_none _ _ _ _ _ Ef Hin E) as H1. by apply Z.ltb_lt in H1. }
    split; [done|]. simpl. intros q v E. rewrite qupd_lookup, E by (by apply qwalk_NoDup).
    destruct (Hq q v E) as [Hu Hl]. case_bool_decide as Hin; simpl; eexists; (split; [done|]); simpl; [|lia].
    specialize (Hroom q v Hin E). unfold u32_wrap, U32_MAX in *. rewrite Z.mod_small by lia. lia.
Qed.
End Claims.

(** The packed return value of the mint, copy and move system calls.  A
    handle whose slot index is below [2^32] and whose generation is below
    [2^31] comes back non-negative and unpacks to the same handle. *)
Theorem pack_ref_roundtrip r :
  0 <= ref_u64Slot r < 2 ^ 32 -> 0 <= ref_u32SlotGen r < 2 ^ 31 ->
  unpack_ref (pack_ref r) = r /\ 0 <= pack_ref r.
Proof. apply pack_unpack. Qed.

(** The inventory function of cnode.c and the self-test it runs on first
    use never disturb the system: on every pool they terminate without fault,
    leave every object, CNode, quota account and queue entry alone, and leave
    every edge in use untouched. *)
Theorem cnode_selftest_isolated m :
  pool_ok m -> wp cdt_soft_inventory_maybe_once (fun _ m' => hook_frame m m') m.
Proof. apply inventory_hook. Qed.

(** The self-test of cnode.c cannot report success.  On every pool it runs
    to completion with fewer passed checks than checks: check 6b moves a copy
    that check 6a made without the [GRANT] right that [gj_cap_move] demands. *)
Theorem cnode_selftest_never_clean m :
  pool_ok m ->
  wp (lean_checks (lean_frame_of m)) (fun l _ => ll_u32Pass l < ll_u32Checks l) (frame_mem (lean_frame_of m) m).
Proof.
  intros Hp. pose proof (lean_frame_of_ok m) as Hf.
  eapply wp_mono; [by apply wp_lean_checks; [|apply blank_frame]|]. by intros l m' [_ ?].
Qed.

(** The inventory function of revoke.c and its self-test, which puts three
    objects of its own through the shared deferred queue, end with the
    invariant intact, and the rest of the system has seen deferred work only. *)
Theorem revoke_selftest_isolated m :
  wf m -> wp soft_revoke_inventory_maybe_once (fun _ m' => wf m' /\ deferred m m') m.
Proof. apply inventory_rhook. Qed.

(** ** Witnesses *)
Section Witnesses.
#[local] Open Scope positive_scope.

Lemma reachable_wf_witness : wf demo_mem.
Proof. apply (reachable_wf demo_mem). apply demo_reach. Defined.

Lemma calls_total_witness :
  exists m' t', run_call hook rhook (KMove (Some 1) 1 1) (KSt demo_mem ∅) = Some (tt, KSt m' t')
    /\ reachable hook rhook m'.
Proof.
  apply (calls_total demo_mem (KMove (Some 1) 1 1) ∅); [apply demo_reach|].
  apply call_okb_ok. vm_compute. reflexivity.
Defined.

Definition demo_move : kst cap_mem :=
  match run_call hook rhook (KMove (Some 1) 1 1) (KSt demo_mem ∅) with
  | Some (_, s) => s
  | None => KSt cap_mem0 ∅
  end.

Lemma calls_refine_witness : acap_step (KMove (Some 1) 1 1) (abs demo_mem) (abs (k_mem demo_move)).
Proof.
  apply (calls_refine demo_mem (KMove (Some 1) 1 1) (k_mem demo_move) ∅ (k_tel demo_move)).
  - apply demo_reach.
  - apply call_okb_ok. vm_compute. reflexivity.
  - vm_compute. reflexivity.
Defined.

Definition demo_revoke_calls : list cap_call :=
  [KMint (Some 1) 1 1 3 None; KDeferred 300; KInstall (Some 1) 4 GJ_CAP_FRAME 7 (Some 3)].
Definition demo_revoked : cap_mem := run_demo (KBegin (Some 3) :: demo_revoke_calls) demo_mem.

Lemma revoke_permanent_witness : ac_obj (ACap 1 GJ_CAP_ROOT_META 4095) <> 3.
Proof.
  apply (revoke_permanent demo_mem 3 demo_revoke_calls demo_revoked 1 0 1).
  - apply demo_reach.
  - apply run_trace_steps. vm_compute. reflexivity.
  - vm_compute. reflexivity.
  - vm_compute. reflexivity.
Defined.

Definition demo_user_calls : list cap_call :=
  [KMint (Some 2) 1 1 7 None; KCopy (Some 1) 1 1 0; KDelete (Some 1) 3 1;
   KSys (Some (Some 1)) (NativeRegs GJ_SYS_CAP_MINT 1 1 9)].
Definition demo_user : cap_mem := run_demo demo_user_calls demo_mem.

Lemma authority_confined_witness :
  exists c' i' g' a, cap_view demo_mem c' i' g' = Some a /\ 3 = ac_obj a /\ GJ_CAP_FRAME = ac_type a
    /\ rights_le 9 (ac_rights a).
Proof.
  apply (authority_confined demo_mem demo_user_calls demo_user 1 3 2 (ACap 3 GJ_CAP_FRAME 9)).
  - apply demo_reach.
  - apply run_trace_steps. vm_compute. reflexivity.
  - vm_compute. reflexivity.
  - vm_compute. reflexivity.
Defined.

Lemma handle_not_recycled_witness : ACap 3 GJ_CAP_FRAME 31 = ACap 3 GJ_CAP_FRAME 31.
Proof.
  apply (handle_not_recycled demo_mem demo_user_calls demo_user 1 1 1).
  - apply demo_reach.
  - apply run_trace_steps. vm_compute. reflexivity.
  - vm_compute. reflexivity.
  - vm_compute. reflexivity.
  - vm_compute. reflexivity.
Defined.

Lemma demo_cn1 : is_Some (m_cns demo_mem !! 1).
Proof. vm_compute. eauto. Qed.

Lemma resolve_correct_witness :
  wp (gj_cap_resolve hook (Some 1) 2 1 true) (fun r m' =>
    quiet demo_mem m' /\ fst r = GJ_OK /\ snd r = Some (CapResolved 2 3 GJ_CAP_FRAME 3)
    /\ (is_Some (snd r) <-> fst r = GJ_OK)) demo_mem.
Proof. apply (resolve_correct demo_mem 1 2 1); [apply demo_reach|apply demo_cn1|lia]. Defined.

Lemma mint_correct_witness :
  wp (gj_cap_mint hook (Some 1) 1 1 3 None true) (fun res m' =>
    match snd res with
    | Some ref => fst res = GJ_OK /\ exists cs cd cn a, Some 1 = Some cs /\ Some 1 = Some cd
        /\ cap_view demo_mem cs 1 1 = Some a /\ Z.land (ac_rights a) GJ_RIGHT_MINT <> 0%Z
        /\ Z.land (ac_rights a) 3 <> 0%Z
        /\ (forall g', cap_view demo_mem cd (ref_u64Slot ref) g' = None)
        /\ (forall c' i' g', cap_view m' c' i' g' =
              if bool_decide (c' = cd /\ i' = ref_u64Slot ref /\ g' = ref_u32SlotGen ref)
              then Some (ACap (ac_obj a) (ac_type a) (Z.land (ac_rights a) 3)) else cap_view demo_mem c' i' g')
        /\ m_cns demo_mem !! cd = Some cn /\ quota_upd q_charge (cn_pQuotaAccount cn) demo_mem m'
    | None => fst res <> GJ_OK /\ unseen demo_mem m'
    end) demo_mem.
Proof.
  apply (mint_correct demo_mem (Some 1) 1 1 3 None); [apply demo_reach|apply demo_cn1|done|lia].
Defined.

Lemma move_correct_witness :
  wp (gj_cap_move hook (Some 1) 1 1 true) (fun res m' =>
    match snd res with
    | Some ref => fst res = GJ_OK /\ exists a, cap_view demo_mem 1 1 1 = Some a
        /\ Z.land (ac_rights a) GJ_RIGHT_GRANT <> 0%Z /\ 1%Z <> GJ_CAP_SLOT_ROOT_META
        /\ a_move 1 1 a (ref_u64Slot ref) (ref_u32SlotGen ref) (abs demo_mem) (abs m')
        /\ quotas_same demo_mem m'
    | None => fst res <> GJ_OK /\ unseen demo_mem m'
    end) demo_mem.
Proof. apply (move_correct demo_mem 1 1 1); [apply demo_reach|apply demo_cn1|lia]. Defined.

Lemma delete_correct_witness :
  wp (gj_cap_delete hook (Some 1) 1 1) (fun st m' =>
    (st = GJ_OK <-> exists a, cap_view demo_mem 1 1 1 = Some a /\ 1%Z <> GJ_CAP_SLOT_ROOT_META
       /\ (Z.land (ac_rights a) GJ_RIGHT_DESTROY <> 0%Z \/ Z.land (ac_rights a) GJ_RIGHT_GRANT <> 0%Z))
    /\ (if is_ok st then
          a_drop 1 1 (abs demo_mem) (abs m')
          /\ (exists s, slot_at demo_mem 1 1 = Some s /\ slot_at m' 1 1 = Some (gj_cap_slot_invalidate s))
          /\ exists cn, m_cns demo_mem !! 1 = Some cn /\ quota_upd q_refund (cn_pQuotaAccount cn) demo_mem m'
        else unseen demo_mem m')) demo_mem.
Proof. apply (delete_correct demo_mem 1 1 1); [apply demo_reach|apply demo_cn1|lia]. Defined.

Lemma revoke_begin_correct_witness :
  wp (gj_obj_revoke_begin rhook (Some 3)) (fun st m' =>
    (exists h', m_objs m' !! 3 = Some h' /\ hdr_u32State h' = GJ_OBJ_DEAD /\ hdr_u32Gen h' = u32_wrap 2)
    /\ ((st = GJ_OK /\ queued m' 3)
        \/ (st = GJ_ERR_AGAIN /\ forall j qe, m_rq demo_mem !! j = Some qe ->
              qe_u8Active qe = true /\ qe_pObj qe <> Some 3))
    /\ (forall o', dead demo_mem o' -> queued demo_mem o' -> queued m' o')) demo_mem.
Proof.
  apply (revoke_begin_correct demo_mem 3 (ObjHdr 0 1 0 0 3 (Some 1%nat))); [apply demo_reach|].
  vm_compute. reflexivity.
Defined.

Lemma demo_dead_chain : chain_at demo_dead 3 (ObjHdr 2 2 0 0 3 (Some 1%nat)) [1%nat; 0%nat].
Proof.
  split; [vm_compute; reflexivity|]. split; [|split].
  - vm_compute. split; [done|]. eexists. split; [done|]. split; [done|]. eexists. split; done.
  - apply (bool_decide_unpack _). vm_compute. exact I.
  - repeat constructor.
Qed.

Lemma walk_batch_correct_witness :
  wp (gj_revoke_cdt_walk_batch rhook (Some 3) 16) (fun r m' =>
    (0 <= r <= 16)%Z /\ (r <= 2)%Z /\ a_shed 3 (abs demo_dead) (abs m')
    /\ hygiene (fun o' => o' = 3 \/ dead demo_dead o') demo_dead m' /\ locks_same demo_dead m'
    /\ exists h' l', chain_at m' 3 h' l' /\ (Z.of_nat (length l') + r <= 2)%Z
    /\ (locks_free demo_dead -> (2 <= 16)%Z -> (16 * 4 + 8 < 2 ^ 32)%Z -> l' = [] /\ r = 2%Z)) demo_dead.
Proof.
  apply (walk_batch_correct demo_dead 3 (ObjHdr 2 2 0 0 3 (Some 1%nat)) [1%nat; 0%nat] 16);
    [apply demo_dead_reach|apply demo_dead_chain|lia].
Defined.

Lemma deferred_drains_witness :
  wp (gj_revoke_process_deferred rhook 256) (fun r m' =>
    (0 <= r <= 256)%Z /\ a_same (abs demo_dead) (abs m')
    /\ (locks_free demo_dead -> (256 <= 256)%Z -> (256 * 4 + 8 < 2 ^ 32)%Z ->
        forall o, queued demo_dead o -> dead demo_dead o -> exists h, chain_at m' o h [])) demo_dead.
Proof. apply (deferred_drains demo_dead 256); [apply demo_dead_reach|lia]. Defined.

(** Object 4 revoked: nothing refers to it, so it can be reclaimed. *)
Definition demo_dead4 : cap_mem := run_demo [KBegin (Some 4)] demo_mem.

Lemma demo_dead4_reach : reachable hook rhook demo_dead4.
Proof.
  exists (demo_calls ++ [KBegin (Some 4)])%list. eapply steps_app; [apply demo_steps|].
  apply run_trace_steps. vm_compute. reflexivity.
Qed.

Lemma reclaim_safe_witness :
  wp (gj_obj_reclaim rhook (Some 4)) (fun st m' =>
    st = GJ_OK /\ (forall c i s, slot_at m' c i = Some s -> slot_refs 4 s = false)
    /\ exists m1, ~ queued m1 4 /\ deferred m1 m') demo_dead4.
Proof.
  apply (reclaim_safe demo_dead4 4 (ObjHdr 2 2 0 0 0 None)); [apply demo_dead4_reach|].
  vm_compute. reflexivity.
Defined.

Lemma quota_bounded_witness :
  (0 <= 3 <= 10)%Z /\ acyclic (m_quotas demo_mem) /\ NoDup (qwalk (m_quotas demo_mem) (Some 1)).
Proof.
  apply (quota_bounded demo_mem 1 (CapQuota 10 3 0 3 3 0 (Some 2)) (Some 1)); [apply demo_reach|].
  vm_compute. reflexivity.
Defined.

Lemma quota_charge_atomic_witness :
  wp (gj_cap_quota_slot_charge (Some 1)) (fun st m' =>
    (st = GJ_OK <-> forall q v, q ∈ qwalk (m_quotas demo_mem) (Some 1) -> m_quotas demo_mem !! q = Some v ->
       (q_u32Used v < q_u32Limit v)%Z)
    /\ (if is_ok st then forall q v, m_quotas demo_mem !! q = Some v -> exists v', m_quotas m' !! q = Some v'
          /\ q_u32Used v' = (q_u32Used v + (if bool_decide (q ∈ qwalk (m_quotas demo_mem) (Some 1%positive)) then 1 else 0))%Z
          /\ q_u32Limit v' = q_u32Limit v
        else quotas_same demo_mem m')) demo_mem.
Proof.
  apply (quota_charge_atomic demo_mem (Some 1)); [apply demo_reach|].
  vm_compute. eauto.
Defined.

Lemma pack_ref_roundtrip_witness :
  unpack_ref (pack_ref (CapRef 5 77)) = CapRef 5 77 /\ (0 <= pack_ref (CapRef 5 77))%Z.
Proof. apply (pack_ref_roundtrip (CapRef 5 77)); simpl; lia. Defined.

Lemma cap_mem0_pool : pool_ok cap_mem0.
Proof. apply wf_init. Qed.

Lemma cnode_selftest_isolated_witness :
  wp cdt_soft_inventory_maybe_once (fun _ m' => hook_frame cap_mem0 m') cap_mem0.
Proof. apply (cnode_selftest_isolated cap_mem0). apply cap_mem0_pool. Defined.

Lemma cnode_selftest_never_clean_witness :
  wp (lean_checks (lean_frame_of cap_mem0)) (fun l _ => (ll_u32Pass l < ll_u32Checks l)%Z)
    (frame_mem (lean_frame_of cap_mem0) cap_mem0).
Proof. apply (cnode_selftest_never_clean cap_mem0). apply cap_mem0_pool. Defined.

Lemma revoke_selftest_isolated_witness :
  wp soft_revoke_inventory_maybe_once (fun _ m' => wf m' /\ deferred demo_dead m') demo_dead.
Proof. apply (revoke_selftest_isolated demo_dead). apply (reach_wf hook rhook), demo_dead_reach. Defined.
End Witnesses.

(** ** Concrete behaviours worth knowing *)
Section Behaviours.
#[local] Open Scope positive_scope.

(** The self-test of cnode.c on the initial state: 23 of 24 checks. *)
Example selftest_count :
  (fun x => (ll_u32Checks (fst x), ll_u32Pass (fst x), m_pool_used (k_mem (snd x))))
    <$> lean_checks (lean_frame_of cap_mem0) (KSt (frame_mem (lean_frame_of cap_mem0) cap_mem0) ∅)
  = Some (24, 23, 2)%Z.
Proof. vm_compute. reflexivity. Qed.

(** The self-test of revoke.c on the initial state passes. *)
Example revoke_selftest_passes :
  (fun x => (tel_val (k_tel (snd x)) "g_u32SoftLeanC3Ok", tel_val (k_tel (snd x)) "g_u32SoftLeanUdxOk"))
    <$> with_objs rlean_body (KSt cap_mem0 ∅) = Some (1, 1)%Z.
Proof. vm_compute. reflexivity. Qed.

(** A packed handle whose generation has its top bit set reads as an error. *)
Example pack_ref_negative : (pack_ref (CapRef 1 2147483648) <? 0)%Z = true.
Proof. reflexivity. Qed.

(** The visit cap [max * 4 + 8] wraps: a budget of [2^30 - 2] clears nothing. *)
Example walk_visit_cap_wraps :
  fst <$> gj_revoke_cdt_walk_batch rhook (Some 3) 1073741822 (KSt demo_dead ∅) = Some 0%Z.
Proof. vm_compute. reflexivity. Qed.

(** Copy accepts a rights mask disjoint from the rights held: the result has
    no rights at all and can be neither copied, moved nor deleted. *)
Example copy_without_rights :
  (fun x => fst (fst x)) <$> gj_cap_copy hook (Some 1) 1 1 64 true (KSt demo_mem ∅) = Some GJ_OK
  /\ (fun x => fst x) <$> (gj_cap_copy hook (Some 1) 1 1 64 true ;;; gj_cap_delete hook (Some 1) 3 1) (KSt demo_mem ∅)
     = Some GJ_ERR_PERM.
Proof. vm_compute. done. Qed.
End Behaviours.
