(* ===== verification/LinuxAbi.v ===== *)
(** Error numbers of the Linux personality, [kernel/include/gj/linux_abi.h]. *)
From Stdlib Require Import ZArith.
From S2P Require Import Prelude.

Definition LINUX_EIO : Z := 5.
Definition LINUX_EBADF : Z := 9.
Definition LINUX_EAGAIN : Z := 11.
Definition LINUX_ENOMEM : Z := 12.
Definition LINUX_EINVAL : Z := 22.
Definition LINUX_ENOLCK : Z := 37.
Definition LINUX_ENOSYS : Z := 38.
Definition LINUX_ETIMEDOUT : Z := 110.
