(* ===== verification/Thread.v ===== *)
(** The thread table of the kernel scheduler, [kernel/sched/thread.c].

    Modelled: the fixed table of thread control blocks with the fields the
    scheduler and the wait channels use, the side tables of affinity, quality of
    service, boost and pick age, blocking and waking on a wait object, the
    choice of the next thread and the state changes of a switch.  The stack,
    register and address-space fields belong to the architecture code and are
    left out.  A thread pointer is an index of the table; a wait object is the
    address used as key, with 0 for NULL; the current thread and the CPU number
    are arguments, since they live in the per-CPU area.

    A memory that contains the thread table is an instance of [HasThreads]; the
    operations below run in it through [on_threads]. *)
From stdpp Require Import base gmap list strings.
From Stdlib Require Import ZArith Lia.
From S2P Require Import Prelude.

Inductive thr_state : Type :=
| GJ_THR_UNUSED
| GJ_THR_RUNNABLE
| GJ_THR_RUNNING
| GJ_THR_BLOCKED
| GJ_THR_EXITED.

#[export] Instance thr_state_eq_dec : EqDecision thr_state.
Proof. solve_decision. Defined.

Record gj_thread : Type := MkThread {
  u32Id : Z;
  u32State : thr_state;
  pBlockObj : Z;
  u32BlockTag : Z }.

#[export] Instance gj_thread_eq_dec : EqDecision gj_thread.
Proof. solve_decision. Defined.

Definition GJ_MAX_THREADS : nat := 32.
Definition GJ_CPU_STATIC_MAX : Z := 16.

Definition GJ_QOS_NORMAL : Z := 0.
Definition GJ_QOS_INTERACTIVE : Z := 1.
Definition GJ_QOS_BACKGROUND : Z := 2.
Definition GJ_QOS_UTILITY : Z := 3.
Definition GJ_QOS_DRIVER : Z := 4.
Definition GJ_QOS_CLASS_MAX : Z := 4.
Definition GJ_QOS_BOOST_CAP : Z := 4.

(** The file-local state of [thread.c]. *)
Record thr_mem : Type := MkThrMem {
  g_aThreads : list gj_thread;
  g_aThrCpu : list Z;
  g_aThrQos : list Z;
  g_aThrBoost : list Z;
  g_aThrLastPick : list Z;
  g_aRobin : list Z;
  g_apIdle : list (option nat);
  g_pIdle : option nat;
  g_u32PickGen : Z;
  g_u32NextId : Z }.

Definition set_threads (l : list gj_thread) (m : thr_mem) : thr_mem :=
  MkThrMem l (g_aThrCpu m) (g_aThrQos m) (g_aThrBoost m) (g_aThrLastPick m)
    (g_aRobin m) (g_apIdle m) (g_pIdle m) (g_u32PickGen m) (g_u32NextId m).
Definition set_cpus (l : list Z) (m : thr_mem) : thr_mem :=
  MkThrMem (g_aThreads m) l (g_aThrQos m) (g_aThrBoost m) (g_aThrLastPick m)
    (g_aRobin m) (g_apIdle m) (g_pIdle m) (g_u32PickGen m) (g_u32NextId m).
Definition set_qos (l : list Z) (m : thr_mem) : thr_mem :=
  MkThrMem (g_aThreads m) (g_aThrCpu m) l (g_aThrBoost m) (g_aThrLastPick m)
    (g_aRobin m) (g_apIdle m) (g_pIdle m) (g_u32PickGen m) (g_u32NextId m).
Definition set_boost (l : list Z) (m : thr_mem) : thr_mem :=
  MkThrMem (g_aThreads m) (g_aThrCpu m) (g_aThrQos m) l (g_aThrLastPick m)
    (g_aRobin m) (g_apIdle m) (g_pIdle m) (g_u32PickGen m) (g_u32NextId m).
Definition set_last_pick (l : list Z) (m : thr_mem) : thr_mem :=
  MkThrMem (g_aThreads m) (g_aThrCpu m) (g_aThrQos m) (g_aThrBoost m) l
    (g_aRobin m) (g_apIdle m) (g_pIdle m) (g_u32PickGen m) (g_u32NextId m).
Definition set_robin (l : list Z) (m : thr_mem) : thr_mem :=
  MkThrMem (g_aThreads m) (g_aThrCpu m) (g_aThrQos m) (g_aThrBoost m)
    (g_aThrLastPick m) l (g_apIdle m) (g_pIdle m) (g_u32PickGen m) (g_u32NextId m).
Definition set_pick_gen (z : Z) (m : thr_mem) : thr_mem :=
  MkThrMem (g_aThreads m) (g_aThrCpu m) (g_aThrQos m) (g_aThrBoost m)
    (g_aThrLastPick m) (g_aRobin m) (g_apIdle m) (g_pIdle m) z (g_u32NextId m).
Definition set_next_id (z : Z) (m : thr_mem) : thr_mem :=
  MkThrMem (g_aThreads m) (g_aThrCpu m) (g_aThrQos m) (g_aThrBoost m)
    (g_aThrLastPick m) (g_aRobin m) (g_apIdle m) (g_pIdle m) (g_u32PickGen m) z.

Definition with_state (st : thr_state) (p : gj_thread) : gj_thread :=
  MkThread (u32Id p) st (pBlockObj p) (u32BlockTag p).

(** ** Memories that contain the thread table *)
Class HasThreads (M : Type) : Type := {
  thr_of : M -> thr_mem;
  thr_upd : thr_mem -> M -> M;
  thr_of_upd : forall t m, thr_of (thr_upd t m) = t }.

Definition on_threads {M A} `{HasThreads M} (c : prog thr_mem A) : prog M A :=
  fun s => match c (KSt (thr_of (k_mem s)) (k_tel s)) with
           | Some (a, s') => Some (a, KSt (thr_upd (k_mem s') (k_mem s)) (k_tel s'))
           | None => None
           end.

Lemma wp_on_threads {M A} `{HasThreads M} (c : prog thr_mem A) Q m :
  wp c (fun a t => Q a (thr_upd t m)) (thr_of m) -> wp (on_threads c) Q m.
Proof.
  intros Hc t. destruct (Hc t) as (a & t' & tel & E & HQ).
  exists a, (thr_upd t' m), tel. split; [|done]. unfold on_threads. simpl. by rewrite E.
Qed.

(** ** Blocking and waking *)

(** [thread_block]: the current thread goes to sleep on a wait object. *)
Definition thread_block (cur : option nat) (obj tag : Z) : prog thr_mem unit :=
  match cur with
  | None => pret tt
  | Some i =>
      m <- pget ;;
      match g_aThreads m !! i with
      | None => pfault
      | Some p =>
          pput (set_threads
                  (<[i := MkThread (u32Id p) GJ_THR_BLOCKED obj tag]> (g_aThreads m)) m) ;;;
          tick64 "g_u64SoftBlockN" ;;;
          tick64 "g_u64SoftBlockTrans"
      end
  end.

(** Does [thread_wake] skip this thread? *)
Definition wake_match (obj tag : Z) (p : gj_thread) : bool :=
  bool_decide (u32State p = GJ_THR_BLOCKED) && (pBlockObj p =? obj) &&
  ((tag =? 0) || (u32BlockTag p =? tag)).

Definition woken (p : gj_thread) : gj_thread := MkThread (u32Id p) GJ_THR_RUNNABLE 0 0.

(** The loop of [thread_wake] from table index [i], [k] entries left. *)
Fixpoint wake_loop (obj tag max : Z) (k i : nat) (n : Z) : prog thr_mem Z :=
  match k with
  | O => pret n
  | S k' =>
      if negb (n <? max) then pret n else
      m <- pget ;;
      match g_aThreads m !! i with
      | None => pfault
      | Some p =>
          if wake_match obj tag p then
            pput (set_threads (<[i := woken p]> (g_aThreads m)) m) ;;;
            tick64 "g_u64SoftReadyTrans" ;;;
            tick64 "g_u64SoftWakeThr" ;;;
            wake_loop obj tag max k' (S i) (n + 1)
          else wake_loop obj tag max k' (S i) n
      end
  end.

Definition thread_wake (obj tag max : Z) : prog thr_mem Z :=
  tick64 "g_u64SoftWakeCalls" ;;;
  n <- wake_loop obj tag max GJ_MAX_THREADS 0 0 ;;
  (if n =? 0 then tick64 "g_u64SoftWakeNone" else pret tt) ;;;
  pret n.

(** ** Choice of the next thread *)
Definition thr_ok_on_cpu (m : thr_mem) (idx : nat) (cpu : Z) : bool :=
  let aff := default 0 (g_aThrCpu m !! idx) in
  if aff =? 255 then true else aff =? cpu mod 256.

Definition cpu_idle (m : thr_mem) (cpu : Z) : option nat :=
  match (if cpu <? GJ_CPU_STATIC_MAX then default None (g_apIdle m !! Z.to_nat cpu) else None) with
  | Some p => Some p
  | None => if cpu =? 0 then g_pIdle m else None
  end.

Definition qos_rank (q : Z) : Z :=
  if q =? GJ_QOS_DRIVER then 4
  else if q =? GJ_QOS_INTERACTIVE then 3
  else if q =? GJ_QOS_UTILITY then 1
  else if q =? GJ_QOS_BACKGROUND then 0
  else 2.

Definition qos_rank_eff (m : thr_mem) (idx : nat) : Z :=
  if (GJ_MAX_THREADS <=? idx)%nat then 0 else
  let r := qos_rank (default 0 (g_aThrQos m !! idx)) in
  let b := default 0 (g_aThrBoost m !! idx) in
  if negb (b =? 0) then (if 4 <=? r + b then 4 else r + b) else r.

(** Age of a thread: picks since it was last chosen, as a [u32] difference. *)
Definition pick_wait (m : thr_mem) (idx : nat) : Z :=
  u32_wrap (g_u32PickGen m - default 0 (g_aThrLastPick m !! idx)).

Definition pick_note_class (q : Z) : prog thr_mem unit :=
  if q =? GJ_QOS_INTERACTIVE then tick64 "u64PickInteractive"
  else if q =? GJ_QOS_BACKGROUND then tick64 "u64PickBackground"
  else if q =? GJ_QOS_UTILITY then tick64 "u64PickUtility"
  else if q =? GJ_QOS_DRIVER then tick64 "u64PickDriver"
  else tick64 "u64PickNormal".

(** The best candidate so far: index, rank and age. *)
Definition pick_best : Type := option (nat * Z * Z).

(** The scan of [pick_next]: [k] offsets left, next offset [i]. *)
Fixpoint pick_loop (cpu : Z) (start k i : nat) (best : pick_best) : prog thr_mem pick_best :=
  match k with
  | O => pret best
  | S k' =>
      m <- pget ;;
      let idx := Nat.modulo (start + i) GJ_MAX_THREADS in
      if negb (thr_ok_on_cpu m idx cpu) then
        tick64 "u64PickAffSkip" ;;; pick_loop cpu start k' (S i) best
      else if bool_decide (Some idx = cpu_idle m cpu) then pick_loop cpu start k' (S i) best
      else
        match g_aThreads m !! idx with
        | None => pfault
        | Some p =>
            if negb (bool_decide (u32State p = GJ_THR_RUNNABLE)) then
              pick_loop cpu start k' (S i) best
            else
              let r := qos_rank_eff m idx in
              let w := pick_wait m idx in
              match best with
              | None => pick_loop cpu start k' (S i) (Some (idx, r, w))
              | Some (_, br, bw) =>
                  if (br <? r) || ((r =? br) && (bw <? w)) then
                    (if (r =? br) && (bw <? w) then tick64 "u64PickEqualFair" else pret tt) ;;;
                    pick_loop cpu start k' (S i) (Some (idx, r, w))
                  else pick_loop cpu start k' (S i) best
              end
        end
  end.

(** [pick_next] on CPU [cpu] with current thread [cur].  The inventory dump and
    the inventory scan it triggers only write statistics. *)
Definition pick_next (cpu : Z) (cur : option nat) : prog thr_mem (option nat) :=
  let cpu := if GJ_CPU_STATIC_MAX <=? cpu then 0 else cpu in
  m <- pget ;;
  let start := Z.to_nat (default 0 (g_aRobin m !! Z.to_nat cpu)) in
  best <- pick_loop cpu start GJ_MAX_THREADS 0 None ;;
  match best with
  | Some (idx, _, _) =>
      pmod (fun m => set_robin (<[Z.to_nat cpu := Z.of_nat (Nat.modulo (idx + 1) GJ_MAX_THREADS)]> (g_aRobin m)) m) ;;;
      pmod (fun m => set_last_pick (<[idx := g_u32PickGen m]> (g_aThrLastPick m)) m) ;;;
      pmod (fun m => set_pick_gen (u32_wrap (g_u32PickGen m + 1)) m) ;;;
      tick64 "u64PickTotal" ;;;
      pick_note_class (default 0 (g_aThrQos m !! idx)) ;;;
      pret (Some idx)
  | None =>
      match cpu_idle m cpu with
      | Some pIdle =>
          match g_aThreads m !! pIdle with
          | None => pfault
          | Some p =>
              if bool_decide (u32State p = GJ_THR_EXITED) then
                tick64 "u64PickTotal" ;;; tick64 "u64PickSelf" ;;; pret cur
              else
                (if bool_decide (u32State p = GJ_THR_BLOCKED) || bool_decide (u32State p = GJ_THR_UNUSED) then
                   pmod (fun m => set_threads (<[pIdle := with_state GJ_THR_RUNNABLE p]> (g_aThreads m)) m) ;;;
                   tick64 "g_u64SoftReadyTrans"
                 else pret tt) ;;;
                pmod (fun m => set_last_pick (<[pIdle := g_u32PickGen m]> (g_aThrLastPick m)) m) ;;;
                pmod (fun m => set_pick_gen (u32_wrap (g_u32PickGen m + 1)) m) ;;;
                tick64 "u64PickTotal" ;;; tick64 "u64PickIdle" ;;;
                pret (Some pIdle)
          end
      | None => tick64 "u64PickTotal" ;;; tick64 "u64PickSelf" ;;; pret cur
      end
  end.

(** ** Lookup, quality of service and affinity *)

(** Index of the first table entry that satisfies [p], from index [i]. *)
Fixpoint find_from {A} (p : A -> bool) (i : nat) (l : list A) : option nat :=
  match l with
  | [] => None
  | x :: l' => if p x then Some i else find_from p (S i) l'
  end.

Definition thr_find_by_id (m : thr_mem) (id : Z) : option nat :=
  if id =? 0 then None
  else find_from (fun p => u32Id p =? id) 0 (g_aThreads m).

Definition thread_get_state (id : Z) : prog thr_mem thr_state :=
  m <- pget ;;
  match thr_find_by_id m id with
  | None => pret GJ_THR_UNUSED
  | Some i => match g_aThreads m !! i with
              | None => pfault
              | Some p => pret (u32State p)
              end
  end.

(** The entry the setters look for: this id, and not [UNUSED]. *)
Definition find_live (m : thr_mem) (id : Z) : option nat :=
  find_from (fun p => (u32Id p =? id) && negb (bool_decide (u32State p = GJ_THR_UNUSED)))
    0 (g_aThreads m).

Definition thread_set_qos (id qos : Z) : prog thr_mem unit :=
  m <- pget ;;
  match find_live m id with
  | None => pret tt
  | Some i =>
      (if qos <=? GJ_QOS_CLASS_MAX then pput (set_qos (<[i := qos mod 256]> (g_aThrQos m)) m)
       else pput (set_qos (<[i := GJ_QOS_NORMAL]> (g_aThrQos m)) m) ;;; tick64 "u64QosClamp") ;;;
      tick64 "u64QosSet"
  end.

Definition thread_get_qos (id : Z) : prog thr_mem Z :=
  m <- pget ;;
  pret (match find_from (fun p => u32Id p =? id) 0 (g_aThreads m) with
        | Some i => default 0 (g_aThrQos m !! i)
        | None => GJ_QOS_NORMAL
        end).

Definition thread_qos_boost_soft (id ticks : Z) : prog thr_mem unit :=
  if ticks =? 0 then pret tt else
  let add := (if GJ_QOS_BOOST_CAP <? ticks then GJ_QOS_BOOST_CAP else ticks) mod 256 in
  m <- pget ;;
  match find_live m id with
  | None => pret tt
  | Some i =>
      let sum := u16_wrap (default 0 (g_aThrBoost m !! i) + add) in
      pput (set_boost (<[i := if GJ_QOS_BOOST_CAP <? sum then GJ_QOS_BOOST_CAP else sum mod 256]>
                         (g_aThrBoost m)) m) ;;;
      tick64 "u64QosBoostSoft"
  end.

Definition thread_qos_effective_rank (id : Z) : prog thr_mem Z :=
  m <- pget ;;
  pret (match find_live m id with
        | Some i => qos_rank_eff m i
        | None => 0
        end).

Definition thread_set_cpu (id cpu : Z) : prog thr_mem unit :=
  m <- pget ;;
  match find_live m id with
  | None => pret tt
  | Some i => pput (set_cpus (<[i := cpu mod 256]> (g_aThrCpu m)) m) ;;; tick64 "g_u64SoftSetCpuN"
  end.

(** ** Creation, exit and the switch *)

(** The first reusable entry of the table above the bootstrap thread. *)
Definition find_free (m : thr_mem) : option nat :=
  find_from (fun p => bool_decide (u32State p = GJ_THR_UNUSED) || bool_decide (u32State p = GJ_THR_EXITED))
    1 (drop 1 (g_aThreads m)).

(** Scheduler side of the reset of entry [i] in [thread_create]. *)
Definition thr_reset (i : nat) (cpu : Z) (m : thr_mem) : thr_mem :=
  let id := g_u32NextId m in
  set_next_id (u32_wrap (id + 1))
    (set_last_pick (<[i := 0]> (g_aThrLastPick m))
    (set_boost (<[i := 0]> (g_aThrBoost m))
    (set_qos (<[i := GJ_QOS_NORMAL]> (g_aThrQos m))
    (set_cpus (<[i := cpu mod 256]> (g_aThrCpu m))
    (set_threads (<[i := MkThread id GJ_THR_RUNNABLE 0 0]> (g_aThreads m)) m))))).

(** [thread_create]: the identifier of the new thread, 0 when the table is full. *)
Definition thread_create : prog thr_mem Z :=
  m <- pget ;;
  match find_free m with
  | None => tick64 "g_u64SoftCreateFull" ;;; pret 0
  | Some i =>
      (match g_aThreads m !! i with
       | Some p => if bool_decide (u32State p = GJ_THR_EXITED) then tick64 "g_u64SoftCreateReuse" else pret tt
       | None => pfault
       end) ;;;
      pput (thr_reset i 0 m) ;;;
      tick64 "g_u64SoftReadyTrans" ;;;
      tick64 "g_u64SoftCreateOk" ;;;
      pret (g_u32NextId m)
  end.

Definition thread_create_on_cpu (cpu : Z) : prog thr_mem Z :=
  id <- thread_create ;;
  (if negb (id =? 0) then thread_set_cpu id cpu ;;; tick64 "g_u64SoftCreateOnCpu" else pret tt) ;;;
  pret id.

(** The table changes of [thread_exit] before it schedules away;
    [door_on_thread_exit] belongs to the door component. *)
Definition thread_exit_mark (cur : option nat) : prog thr_mem unit :=
  tick64 "g_u64SoftExitN" ;;;
  match cur with
  | None => pret tt
  | Some i =>
      m <- pget ;;
      match g_aThreads m !! i with
      | None => pfault
      | Some p =>
          pput (set_threads (<[i := with_state GJ_THR_EXITED p]> (g_aThreads m)) m) ;;;
          tick64 "g_u64SoftExitTrans"
      end
  end.

(** What [schedule] decides before it touches the stack pointer. *)
Inductive sched_result : Type :=
| SchedReturn                  (** nothing to switch to: return to the caller *)
| SchedSpin                    (** blocked with no other thread: wait for a wake *)
| SchedSwitch (next : nat).    (** leave for [next] *)

(** The first half of [schedule], up to [switch_context]. *)
Definition schedule (cpu : Z) (cur : option nat) : prog thr_mem sched_result :=
  tick64 "g_u64SoftSchedEnter" ;;;
  next <- pick_next cpu cur ;;
  m <- pget ;;
  match next with
  | None => tick64 "g_u64SoftSchedSelf" ;;; pret SchedReturn
  | Some n =>
      if bool_decide (cur = Some n) then
        match g_aThreads m !! n with
        | None => pfault
        | Some p =>
            if bool_decide (u32State p = GJ_THR_BLOCKED) then
              tick64 "g_u64SoftSchedSpin" ;;; pret SchedSpin
            else tick64 "g_u64SoftSchedSelf" ;;; pret SchedReturn
        end
      else
        (match cur with
         | None => pret tt
         | Some c =>
             match g_aThreads m !! c with
             | None => pfault
             | Some p =>
                 (if bool_decide (u32State p = GJ_THR_RUNNING) then
                    pput (set_threads (<[c := with_state GJ_THR_RUNNABLE p]> (g_aThreads m)) m) ;;;
                    tick64 "g_u64SoftReadyTrans"
                  else pret tt) ;;;
                 m1 <- pget ;;
                 let b := default 0 (g_aThrBoost m1 !! c) in
                 if negb (b =? 0) then
                   pput (set_boost (<[c := b - 1]> (g_aThrBoost m1)) m1) ;;; tick64 "u64QosBoostDecay"
                 else pret tt
             end
         end) ;;;
        m2 <- pget ;;
        match g_aThreads m2 !! n with
        | None => pfault
        | Some p =>
            pput (set_threads (<[n := with_state GJ_THR_RUNNING p]> (g_aThreads m2)) m2) ;;;
            tick64 "g_u64SoftRunTrans" ;;;
            tick64 "g_u64SoftSchedSwitch" ;;;
            pret (SchedSwitch n)
        end
  end.
