(* ===== verification/ThreadProofs.v ===== *)
(** Correctness of the thread table: waking, the choice of [pick_next] and its
    bounded waiting. *)
From stdpp Require Import base gmap list strings.
From Stdlib Require Import ZArith Lia.
From S2P Require Import Prelude Thread.

(** ** Table searches *)
Lemma find_from_Some {A} (p : A -> bool) l : forall k i,
  find_from p k l = Some i ->
  exists j x, i = (k + j)%nat /\ l !! j = Some x /\ p x = true /\
    forall j' y, (j' < j)%nat -> l !! j' = Some y -> p y = false.
Proof.
  induction l as [|x l IH]; intros k i E; [done|]. simpl in E. destruct (p x) eqn:Ep.
  - injection E as <-. exists 0%nat, x. split_and!; [lia|done|done|intros; lia].
  - destruct (IH _ _ E) as (j & y & -> & Hj & Hp & Hlt). exists (S j), y. split_and!; [lia|done|done|].
    intros [|j'] z Hj' Hz; simpl in Hz; [congruence|]. eapply Hlt; [|done]. lia.
Qed.

Lemma find_from_None {A} (p : A -> bool) l : forall k,
  find_from p k l = None -> forall j x, l !! j = Some x -> p x = false.
Proof.
  induction l as [|x l IH]; intros k E j y Hj; [done|]. simpl in E. destruct (p x) eqn:Ep; [done|].
  destruct j as [|j]; simpl in Hj; [congruence|]. by eapply IH.
Qed.

(** ** Waking *)

(** Reference: the threads on the wait object, in table order, while the budget
    [max] lasts; [seen] were woken before. *)
Fixpoint wake_ref (obj tag max seen : Z) (l : list gj_thread) : list gj_thread :=
  match l with
  | [] => []
  | p :: l' =>
      if wake_match obj tag p && (seen <? max) then woken p :: wake_ref obj tag max (seen + 1) l'
      else p :: wake_ref obj tag max seen l'
  end.

Definition waiting (obj tag : Z) (l : list gj_thread) : Z :=
  Z.of_nat (countb (wake_match obj tag) l).

Lemma waiting_cons obj tag p l :
  waiting obj tag (p :: l) = (if wake_match obj tag p then 1 else 0) + waiting obj tag l.
Proof. unfold waiting, countb. rewrite filter_cons. repeat case_match; simpl; try congruence; lia. Qed.

Lemma waiting_nonneg obj tag l : 0 <= waiting obj tag l.
Proof. unfold waiting. lia. Qed.

Lemma wake_ref_done obj tag max seen l : max <= seen -> wake_ref obj tag max seen l = l.
Proof.
  revert seen. induction l as [|p l IH]; intros seen H; [done|]. simpl.
  rewrite (proj2 (Z.ltb_ge _ _)) by lia. rewrite andb_false_r. by rewrite IH.
Qed.

Lemma wp_wake_loop obj tag max k : forall done l m n,
  g_aThreads m = done ++ l -> length l = k -> n <= Z.max 0 max ->
  wp (wake_loop obj tag max k (length done) n)
     (fun r m' => r = Z.max n (Z.min max (n + waiting obj tag l)) /\
        m' = set_threads (done ++ wake_ref obj tag max n l) m) m.
Proof.
  induction k as [|k IH]; intros done l m n Hl Hk Hn; cbn [wake_loop].
  { destruct l; [|done]. apply wp_ret. split.
    - unfold waiting, countb. simpl. lia.
    - simpl. rewrite <-Hl. by destruct m. }
  destruct l as [|p l]; [done|]. injection Hk as Hk.
  pose proof (waiting_nonneg obj tag (p :: l)) as Hw.
  pose proof (waiting_nonneg obj tag l) as Hw'.
  destruct (n <? max) eqn:Hmax; cbn [negb].
  2:{ apply wp_ret. apply Z.ltb_ge in Hmax. split; [lia|].
      rewrite wake_ref_done by lia. rewrite <-Hl. by destruct m. }
  wstep. wstep. cbn [wake_ref]. rewrite Hmax. apply Z.ltb_lt in Hmax. rewrite Hl, list_lookup_middle by done.
  rewrite waiting_cons. destruct (wake_match obj tag p) eqn:Hm; simpl.
  - wsteps. rewrite insert_app_r_alt, Nat.sub_diag by done. simpl.
    set (m1 := set_threads (done ++ woken p :: l) m).
    replace (S (length done)) with (length (done ++ [woken p])) by (rewrite length_app; simpl; lia).
    eapply wp_mono.
    + apply (IH (done ++ [woken p]) l m1 (n + 1)); [|done|lia].
      subst m1. simpl. by rewrite <-app_assoc.
    + intros r m' [-> ->]. subst m1. split; [lia|]. by rewrite <-app_assoc.
  - replace (S (length done)) with (length (done ++ [p])) by (rewrite length_app; simpl; lia).
    eapply wp_mono.
    + apply (IH (done ++ [p]) l m n); [|done|lia]. by rewrite <-app_assoc.
    + intros r m' [-> ->]. split; [lia|]. by rewrite <-app_assoc.
Qed.

Lemma wp_thread_wake obj tag max Q m :
  length (g_aThreads m) = GJ_MAX_THREADS -> 0 <= max ->
  Q (Z.min max (waiting obj tag (g_aThreads m)))
    (set_threads (wake_ref obj tag max 0 (g_aThreads m)) m) ->
  wp (thread_wake obj tag max) Q m.
Proof.
  intros Hlen Hmax HQ. unfold thread_wake. wsteps.
  eapply wp_mono; [apply (wp_wake_loop obj tag max GJ_MAX_THREADS [] (g_aThreads m) m 0); auto; lia|].
  intros r m' [-> ->]. pose proof (waiting_nonneg obj tag (g_aThreads m)). simpl.
  rewrite Z.max_r by lia. wstep. case_match; wsteps; done.
Qed.

Lemma wake_ref_length obj tag max seen l : length (wake_ref obj tag max seen l) = length l.
Proof. revert seen. induction l; intros; simpl; [done|]. case_match; simpl; auto. Qed.

(** What waking does to each thread. *)
Lemma wake_ref_lookup obj tag max : forall l seen i p,
  l !! i = Some p ->
  wake_ref obj tag max seen l !! i =
    Some (if wake_match obj tag p && (seen + waiting obj tag (take i l) <? max) then woken p else p).
Proof.
  induction l as [|q l IH]; intros seen i p Hi; [done|].
  destruct i as [|i]; simpl in Hi.
  - injection Hi as ->. simpl take. unfold waiting, countb. simpl. rewrite Z.add_0_r.
    destruct (wake_match obj tag p), (seen <? max); done.
  - simpl take. rewrite waiting_cons. cbn [wake_ref].
    pose proof (waiting_nonneg obj tag (take i l)).
    destruct (wake_match obj tag q) eqn:Hq; [destruct (seen <? max) eqn:Hs|]; cbn [andb].
    + simpl. rewrite (IH (seen + 1) i p Hi). by rewrite Z.add_assoc.
    + simpl. rewrite (IH seen i p Hi). apply Z.ltb_ge in Hs.
      rewrite !(proj2 (Z.ltb_ge _ _)) by lia. done.
    + simpl. by rewrite (IH seen i p Hi).
Qed.

(** ** The choice of [pick_next] *)

(** A thread the scan on [cpu] considers. *)
Definition eligible (m : thr_mem) (cpu : Z) (i : nat) : Prop :=
  exists p, g_aThreads m !! i = Some p /\ u32State p = GJ_THR_RUNNABLE /\
    thr_ok_on_cpu m i cpu = true /\ cpu_idle m cpu <> Some i.

(** [i] is at least as urgent as [j]: higher rank, or same rank and no younger. *)
Definition no_less_urgent (m : thr_mem) (i j : nat) : Prop :=
  qos_rank_eff m j < qos_rank_eff m i \/
  (qos_rank_eff m j = qos_rank_eff m i /\ pick_wait m j <= pick_wait m i).

Lemma no_less_urgent_refl m i : no_less_urgent m i i.
Proof. right. lia. Qed.

Lemma no_less_urgent_trans m i j k :
  no_less_urgent m i j -> no_less_urgent m j k -> no_less_urgent m i k.
Proof. unfold no_less_urgent. lia. Qed.

(** What the scan has found after the offsets below [i]. *)
Definition best_ok (m : thr_mem) (cpu : Z) (start i : nat) (b : pick_best) : Prop :=
  match b with
  | None => forall o, (o < i)%nat -> ~ eligible m cpu (Nat.modulo (start + o) GJ_MAX_THREADS)
  | Some (x, r, w) =>
      eligible m cpu x /\ r = qos_rank_eff m x /\ w = pick_wait m x /\
      forall o, (o < i)%nat -> eligible m cpu (Nat.modulo (start + o) GJ_MAX_THREADS) ->
        no_less_urgent m x (Nat.modulo (start + o) GJ_MAX_THREADS)
  end.

Lemma best_ok_skip m cpu start i b :
  best_ok m cpu start i b -> ~ eligible m cpu (Nat.modulo (start + i) GJ_MAX_THREADS) ->
  best_ok m cpu start (S i) b.
Proof.
  intros H Hn. destruct b as [[[x r] w]|].
  - destruct H as (? & ? & ? & H). repeat (split; [done|]). intros o Ho.
    destruct (decide (o = i)) as [->|]; [done|]. apply H. lia.
  - intros o Ho. destruct (decide (o = i)) as [->|]; [done|]. apply H. lia.
Qed.

Lemma best_ok_take m cpu start i b :
  let x := Nat.modulo (start + i) GJ_MAX_THREADS in
  best_ok m cpu start i b -> eligible m cpu x ->
  match b with Some (y, _, _) => no_less_urgent m x y | None => True end ->
  best_ok m cpu start (S i) (Some (x, qos_rank_eff m x, pick_wait m x)).
Proof.
  intros x H Hx Hb. repeat (split; [done|]). intros o Ho He.
  destruct (decide (o = i)) as [->|]; [apply no_less_urgent_refl|].
  destruct b as [[[y r] w]|].
  - destruct H as (_ & _ & _ & H). eapply no_less_urgent_trans; [exact Hb|]. apply H; [lia|done].
  - exfalso. apply (H o); [lia|done].
Qed.

Lemma best_ok_keep m cpu start i y r w :
  let x := Nat.modulo (start + i) GJ_MAX_THREADS in
  best_ok m cpu start i (Some (y, r, w)) -> no_less_urgent m y x ->
  best_ok m cpu start (S i) (Some (y, r, w)).
Proof.
  intros x (He & Hr & Hw & H) Hx. repeat (split; [done|]). intros o Ho He'.
  destruct (decide (o = i)) as [->|]; [done|]. apply H; [lia|done].
Qed.

Definition tables_ok (m : thr_mem) : Prop :=
  length (g_aThreads m) = GJ_MAX_THREADS /\ length (g_aThrLastPick m) = GJ_MAX_THREADS.

Lemma wp_pick_loop cpu start k : forall i b m,
  tables_ok m -> best_ok m cpu start i b ->
  wp (pick_loop cpu start k i b) (fun b' m' => m' = m /\ best_ok m cpu start (i + k) b') m.
Proof.
  induction k as [|k IH]; intros i b m Hm Hb; cbn [pick_loop].
  { apply wp_ret. by rewrite Nat.add_0_r. }
  rewrite <-Nat.add_succ_comm. wstep. wstep.
  set (x := Nat.modulo (start + i) GJ_MAX_THREADS).
  assert (x < length (g_aThreads m))%nat as Hx.
  { destruct Hm as [-> _]. apply Nat.mod_upper_bound. unfold GJ_MAX_THREADS. lia. }
  destruct (thr_ok_on_cpu m x cpu) eqn:Hcpu; cbn [negb].
  2:{ wsteps. apply IH; [done|]. apply best_ok_skip; [done|]. intros (p & _ & _ & E & _).
      fold x in E. congruence. }
  case_bool_decide as Hidle.
  { apply IH; [done|]. apply best_ok_skip; [done|]. intros (p & _ & _ & _ & E). by apply E. }
  destruct (lookup_lt_is_Some_2 _ _ Hx) as [p Hp]. rewrite Hp.
  case_bool_decide as Hst; cbn [negb].
  2:{ apply IH; [done|]. apply best_ok_skip; [done|]. intros (q & E & E2 & _).
      fold x in E. congruence. }
  assert (eligible m cpu x) as He by (exists p; split_and!; auto).
  destruct b as [[[y br] bw]|].
  2:{ apply IH; [done|]. by apply best_ok_take with (b := None). }
  destruct Hb as (Hy & -> & -> & Hb).
  case_match eqn:Hc.
  - wstep. assert (no_less_urgent m x y) as Hu.
    { apply orb_prop in Hc. unfold no_less_urgent.
      destruct Hc as [Hc|Hc]; [left; lia|]. apply andb_prop in Hc as [? ?]. right; lia. }
    case_match; wsteps; (apply IH; [done|];
      apply best_ok_take with (b := Some (y, qos_rank_eff m y, pick_wait m y));
      [by split_and!|done|exact Hu]).
  - apply IH; [done|]. apply best_ok_keep; [by split_and!|].
    apply orb_false_elim in Hc as [H1 H2]. apply andb_false_elim in H2.
    apply Z.ltb_ge in H1. unfold no_less_urgent.
    fold x. destruct (Z.eq_dec (qos_rank_eff m x) (qos_rank_eff m y)) as [E|E]; [|left; lia].
    right. split; [done|]. destruct H2 as [H2|H2]; [apply Z.eqb_neq in H2; lia|]. by apply Z.ltb_ge in H2.
Qed.

(** Every index of the table is an offset of the scan. *)
Lemma offset_surj start i : (i < GJ_MAX_THREADS)%nat ->
  exists o, (o < GJ_MAX_THREADS)%nat /\ Nat.modulo (start + o) GJ_MAX_THREADS = i.
Proof.
  intros Hi. unfold GJ_MAX_THREADS in *. exists (Nat.modulo (i + 32 - Nat.modulo start 32) 32).
  pose proof (Nat.mod_upper_bound start 32 ltac:(lia)). split.
  - apply Nat.mod_upper_bound. lia.
  - rewrite Nat.Div0.add_mod_idemp_r. rewrite (Nat.div_mod_eq start 32) at 1.
    replace (32 * (start / 32) + start mod 32 + (i + 32 - start mod 32))%nat
      with (i + (start / 32 + 1) * 32)%nat by lia.
    rewrite Nat.Div0.mod_add. by apply Nat.mod_small.
Qed.

Lemma eligible_lt m cpu i : tables_ok m -> eligible m cpu i -> (i < GJ_MAX_THREADS)%nat.
Proof. intros [<- _] (p & E & _). by apply lookup_lt_Some in E. Qed.

(** The memory after thread [i] was picked. *)
Definition picked (cpu : Z) (i : nat) (m : thr_mem) : thr_mem :=
  set_pick_gen (u32_wrap (g_u32PickGen m + 1))
    (set_last_pick (<[i := g_u32PickGen m]> (g_aThrLastPick m))
       (set_robin (<[Z.to_nat cpu := Z.of_nat (Nat.modulo (i + 1) GJ_MAX_THREADS)]> (g_aRobin m)) m)).

Definition eff_cpu (cpu : Z) : Z := if GJ_CPU_STATIC_MAX <=? cpu then 0 else cpu.

(** The idle thread of the CPU can run. *)
Definition idle_ready (m : thr_mem) (cpu : Z) (i : nat) : Prop :=
  cpu_idle m cpu = Some i /\ exists p, g_aThreads m !! i = Some p /\ u32State p <> GJ_THR_EXITED.

Lemma wp_pick_next cpu cur m :
  tables_ok m -> (forall i, cpu_idle m (eff_cpu cpu) = Some i -> (i < GJ_MAX_THREADS)%nat) ->
  wp (pick_next cpu cur) (fun r m' =>
     (exists i, r = Some i /\ eligible m (eff_cpu cpu) i /\
        (forall j, eligible m (eff_cpu cpu) j -> no_less_urgent m i j) /\
        m' = picked (eff_cpu cpu) i m) \/
     ((forall j, ~ eligible m (eff_cpu cpu) j) /\
        ((exists i, r = Some i /\ idle_ready m (eff_cpu cpu) i) \/
         (r = cur /\ m' = m /\ forall i, ~ idle_ready m (eff_cpu cpu) i)))) m.
Proof.
  intros Hm Hidle. unfold pick_next. fold (eff_cpu cpu). set (c := eff_cpu cpu) in *. wsteps.
  eapply wp_mono.
  { apply (wp_pick_loop c _ GJ_MAX_THREADS 0 None m Hm). intros o Ho. lia. }
  intros b m' [-> Hb]. simpl in Hb. destruct b as [[[x r] w]|].
  { destruct Hb as (He & -> & -> & Hb). wsteps.
    unfold pick_note_class.
    repeat case_match; wsteps; left; exists x; split_and!; try done;
      intros j Hj; destruct (offset_surj (Z.to_nat (default 0 (g_aRobin m !! Z.to_nat c))) j (eligible_lt _ _ _ Hm Hj))
        as (o & Ho & <-); by apply Hb. }
  assert (forall j, ~ eligible m c j) as Hno.
  { intros j Hj. destruct (offset_surj (Z.to_nat (default 0 (g_aRobin m !! Z.to_nat c))) j (eligible_lt _ _ _ Hm Hj))
      as (o & Ho & <-). by apply (Hb o). }
  destruct (cpu_idle m c) as [pi|] eqn:Hci.
  2:{ wsteps. right. split; [done|]. right. split_and!; [done..|]. intros i [E _]. congruence. }
  assert (pi < length (g_aThreads m))%nat as Hlt by (rewrite (proj1 Hm); by apply Hidle).
  destruct (lookup_lt_is_Some_2 _ _ Hlt) as [p Hp]. rewrite Hp.
  case_bool_decide as Hex.
  { wsteps. right. split; [done|]. right. split_and!; [done..|].
    intros i [E (q & Hq & Hq2)]. congruence. }
  wsteps. assert (idle_ready m c pi) as Hr by (split; [done|]; by exists p).
  case_match; wsteps; right; (split; [done|]); left; by exists pi.
Qed.

(** ** Bounded waiting *)

(** [t] waits for CPU [cpu] and nothing eligible there outranks it. *)
Definition contends (t : nat) (cpu : Z) (m : thr_mem) : Prop :=
  eligible m (eff_cpu cpu) t /\
  (forall j, eligible m (eff_cpu cpu) j -> qos_rank_eff m j <= qos_rank_eff m t) /\
  tables_ok m /\ (forall i, cpu_idle m (eff_cpu cpu) = Some i -> (i < GJ_MAX_THREADS)%nat).

(** Between two picks the rest of the kernel may block, wake, boost, pin or end
    threads: none of that touches the pick ages. *)
Definition same_ages (m m' : thr_mem) : Prop :=
  g_aThrLastPick m' = g_aThrLastPick m /\ g_u32PickGen m' = g_u32PickGen m.

(** Picks in a row, on any CPU, while [t] contends. *)
Inductive picks (t : nat) : list nat -> thr_mem -> Prop :=
| picks_nil m : picks t [] m
| picks_cons m cpu cur tel i m1 tel1 m2 l :
    contends t cpu m ->
    pick_next cpu cur (KSt m tel) = Some (Some i, KSt m1 tel1) ->
    same_ages m1 m2 ->
    picks t l m2 ->
    picks t (i :: l) m.

(** The ages are real: the pick generation is ahead of every entry and does not
    wrap during the next [n] picks. *)
Definition ages_ok (n : nat) (m : thr_mem) : Prop :=
  length (g_aThrLastPick m) = GJ_MAX_THREADS /\
  (forall i v, g_aThrLastPick m !! i = Some v -> 0 <= v < g_u32PickGen m) /\
  g_u32PickGen m + Z.of_nat n < 2 ^ 32.

Definition last_pick (m : thr_mem) (i : nat) : Z := default 0 (g_aThrLastPick m !! i).

Lemma pick_wait_age n m i : ages_ok n m -> (i < GJ_MAX_THREADS)%nat ->
  pick_wait m i = g_u32PickGen m - last_pick m i.
Proof.
  intros (Hl & Ha & Hg) Hi. unfold pick_wait, last_pick, u32_wrap.
  rewrite <-Hl in Hi. destruct (lookup_lt_is_Some_2 _ _ Hi) as [v E]. rewrite E. simpl.
  specialize (Ha _ _ E). apply Z.mod_small. lia.
Qed.

(** One pick other than [t]: it was no younger than [t], and afterwards it is. *)
Lemma pick_other n t cpu cur m tel i m1 tel1 :
  contends t cpu m -> ages_ok (S n) m ->
  pick_next cpu cur (KSt m tel) = Some (Some i, KSt m1 tel1) ->
  (i < GJ_MAX_THREADS)%nat /\ last_pick m i <= last_pick m t /\
  m1 = picked (eff_cpu cpu) i m.
Proof.
  intros (Ht & Hr & Hm & Hid) Ha E.
  pose proof (wp_run _ _ _ _ _ _ _ (wp_pick_next cpu cur m Hm Hid) E) as H.
  destruct H as [(x & Ex & He & Hu & ->)|[Hno _]]; [|by destruct (Hno t)].
  injection Ex as <-. pose proof (eligible_lt _ _ _ Hm He) as Hi.
  pose proof (eligible_lt _ _ _ Hm Ht) as Hti. split_and!; [done| |done].
  specialize (Hu t Ht). specialize (Hr i He). unfold no_less_urgent in Hu.
  rewrite !(pick_wait_age (S n)) in Hu by done. lia.
Qed.

Lemma ages_ok_picked n c i m m2 :
  ages_ok (S n) m -> (i < GJ_MAX_THREADS)%nat -> same_ages (picked c i m) m2 -> ages_ok n m2.
Proof.
  intros (Hl & Ha & Hg) Hi [E1 E2]. unfold ages_ok. rewrite E1, E2. simpl.
  assert (0 <= g_u32PickGen m) as Hpos.
  { rewrite <-Hl in Hi. destruct (lookup_lt_is_Some_2 _ _ Hi) as [v Ev]. specialize (Ha _ _ Ev). lia. }
  unfold u32_wrap. rewrite Z.mod_small by lia. split_and!; [by rewrite length_insert| |lia].
  intros j v Hj. destruct (decide (j = i)) as [->|Hne].
  - rewrite list_lookup_insert_eq in Hj by lia. injection Hj as <-. lia.
  - rewrite list_lookup_insert_ne in Hj by done. specialize (Ha _ _ Hj). lia.
Qed.

Lemma last_pick_picked c i j m m2 :
  same_ages (picked c i m) m2 -> length (g_aThrLastPick m) = GJ_MAX_THREADS -> (i < GJ_MAX_THREADS)%nat ->
  last_pick m2 j = if decide (j = i) then g_u32PickGen m else last_pick m j.
Proof.
  intros [E _] Hl Hi. unfold last_pick. rewrite E. simpl. case_decide as Hj.
  - subst. by rewrite list_lookup_insert_eq by lia.
  - by rewrite list_lookup_insert_ne.
Qed.

(** While [t] is passed over, the picked threads are all different, and each
    was last picked before [t]. *)
Lemma picks_distinct t l m :
  picks t l m -> ages_ok (length l) m -> (t < GJ_MAX_THREADS)%nat -> t ∉ l ->
  NoDup l /\ Forall (fun i => (i < GJ_MAX_THREADS)%nat /\ last_pick m i <= last_pick m t) l.
Proof.
  intros Hp. induction Hp as [|m cpu cur tel i m1 tel1 m2 l Hc E Hs _ IH]; intros Ha Ht Hni.
  { split; constructor. }
  destruct (pick_other _ _ _ _ _ _ _ _ _ Hc Ha E) as (Hi & Hle & ->).
  apply not_elem_of_cons in Hni as [Hti Hni].
  destruct IH as [Hnd Hall]; [by eapply ages_ok_picked|done|done|].
  pose proof (fun j => last_pick_picked _ i j m m2 Hs (proj1 Ha) Hi) as Hlp.
  assert (last_pick m t < g_u32PickGen m) as Hlt.
  { destruct Ha as (Hl & Ha & _). unfold last_pick. rewrite <-Hl in Ht.
    destruct (lookup_lt_is_Some_2 _ _ Ht) as [v Ev]. rewrite Ev. simpl. specialize (Ha _ _ Ev). lia. }
  split.
  - constructor; [|done]. intros Hin. rewrite Forall_forall in Hall.
    destruct (Hall i Hin) as [_ H]. rewrite !Hlp, decide_True, decide_False in H by done. lia.
  - constructor; [done|]. eapply Forall_impl; [exact Hall|]. intros j [Hj H]. split; [done|].
    rewrite !Hlp, (decide_False _ _ Hti) in H. case_decide; [subst; lia|done].
Qed.

Lemma picks_bounded t l m :
  picks t l m -> ages_ok (length l) m -> (t < GJ_MAX_THREADS)%nat ->
  (GJ_MAX_THREADS <= length l)%nat -> t ∈ l.
Proof.
  intros Hp Ha Ht Hlen. destruct (decide (t ∈ l)) as [|Hni]; [done|exfalso].
  destruct (picks_distinct _ _ _ Hp Ha Ht Hni) as [Hnd Hall].
  assert (NoDup (t :: l)) as Hnd' by (by constructor).
  assert (t :: l ⊆+ seq 0 GJ_MAX_THREADS) as Hsub.
  { apply NoDup_submseteq; [done|]. intros x. rewrite elem_of_cons, elem_of_seq.
    rewrite Forall_forall in Hall. intros [->|Hx]; [lia|]. destruct (Hall x Hx). lia. }
  apply submseteq_length in Hsub. rewrite length_seq in Hsub. simpl in Hsub. lia.
Qed.
