(* ===== verification/ThreadClaims.v ===== *)
(** The properties of the scheduler's thread table, with witnesses. *)
From stdpp Require Import base gmap list strings.
From Stdlib Require Import ZArith Lia.
From S2P Require Import Prelude Thread ThreadProofs.

(** C27: [thread_wake] wakes the first [max] threads, in table order, that are
    blocked on the object with the tag (any tag when it is 0): each becomes
    runnable with its wait key cleared, no other thread and no other table
    changes, and the number woken is returned. *)
Theorem thread_wake_exact obj tag max m :
  length (g_aThreads m) = GJ_MAX_THREADS -> 0 <= max ->
  wp (thread_wake obj tag max) (fun n m' =>
    n = Z.min max (waiting obj tag (g_aThreads m)) /\
    m' = set_threads (g_aThreads m') m /\
    forall i p, g_aThreads m !! i = Some p ->
      g_aThreads m' !! i =
        Some (if wake_match obj tag p && (waiting obj tag (take i (g_aThreads m)) <? max) then woken p else p)) m.
Proof.
  intros Hlen Hmax. apply wp_thread_wake; [done|done|]. split_and!; [done|done|].
  intros i p Hi. cbn [g_aThreads set_threads]. by rewrite (wake_ref_lookup _ _ _ _ 0 i p Hi).
Qed.

(** C28: [pick_next] chooses a most urgent thread.  When some runnable,
    non-idle thread may run on the CPU, the chosen one is such a thread, no such
    thread has a higher effective rank, and none of the same rank has waited
    longer; only its pick age, the generation and the round-robin mark change.
    Otherwise the idle thread of the CPU is chosen unless it has exited, and
    else the current thread stays. *)
Theorem pick_next_most_urgent cpu cur m :
  tables_ok m -> (forall i, cpu_idle m (eff_cpu cpu) = Some i -> (i < GJ_MAX_THREADS)%nat) ->
  wp (pick_next cpu cur) (fun r m' =>
     (exists i, r = Some i /\ eligible m (eff_cpu cpu) i /\
        (forall j, eligible m (eff_cpu cpu) j -> no_less_urgent m i j) /\
        m' = picked (eff_cpu cpu) i m) \/
     ((forall j, ~ eligible m (eff_cpu cpu) j) /\
        ((exists i, r = Some i /\ idle_ready m (eff_cpu cpu) i) \/
         (r = cur /\ m' = m /\ forall i, ~ idle_ready m (eff_cpu cpu) i)))) m.
Proof. apply wp_pick_next. Qed.


(** ** Witnesses *)

(** Thread 0 is idle, threads 1..4 are runnable with the given classes, and
    threads 5..8 sleep on object 4096. *)
Definition demo_table : list gj_thread :=
  MkThread 1 GJ_THR_RUNNING 0 0 :: ((fun i => MkThread (Z.of_nat i) GJ_THR_RUNNABLE 0 0) <$> seq 2 4) ++
  ((fun i => MkThread (Z.of_nat i) GJ_THR_BLOCKED 4096 1) <$> seq 6 4) ++
  replicate 23 (MkThread 0 GJ_THR_UNUSED 0 0).

Definition demo_thr : thr_mem :=
  MkThrMem demo_table (replicate GJ_MAX_THREADS 0) (0 :: GJ_QOS_BACKGROUND :: GJ_QOS_NORMAL :: replicate 29 0)
    (replicate GJ_MAX_THREADS 0) (replicate GJ_MAX_THREADS 0) (replicate 16 0)
    (Some 0%nat :: replicate 15 None) (Some 0%nat) 1 11.

Lemma thread_wake_exact_witness :
  wp (thread_wake 4096 1 2) (fun n m' =>
    n = Z.min 2 (waiting 4096 1 (g_aThreads demo_thr)) /\
    m' = set_threads (g_aThreads m') demo_thr /\
    forall i p, g_aThreads demo_thr !! i = Some p ->
      g_aThreads m' !! i =
        Some (if wake_match 4096 1 p && (waiting 4096 1 (take i (g_aThreads demo_thr)) <? 2) then woken p else p)) demo_thr.
Proof. apply (thread_wake_exact 4096 1 2 demo_thr); [reflexivity|lia]. Defined.

Lemma demo_idle i : cpu_idle demo_thr (eff_cpu 0) = Some i -> (i < GJ_MAX_THREADS)%nat.
Proof. vm_compute. intros [= <-]. lia. Qed.

Lemma pick_next_most_urgent_witness :
  wp (pick_next 0 (Some 0%nat)) (fun r m' =>
     (exists i, r = Some i /\ eligible demo_thr (eff_cpu 0) i /\
        (forall j, eligible demo_thr (eff_cpu 0) j -> no_less_urgent demo_thr i j) /\
        m' = picked (eff_cpu 0) i demo_thr) \/
     ((forall j, ~ eligible demo_thr (eff_cpu 0) j) /\
        ((exists i, r = Some i /\ idle_ready demo_thr (eff_cpu 0) i) \/
         (r = Some 0%nat /\ m' = demo_thr /\ forall i, ~ idle_ready demo_thr (eff_cpu 0) i)))) demo_thr.
Proof. apply (pick_next_most_urgent 0 (Some 0%nat) demo_thr); [split; reflexivity|exact demo_idle]. Defined.

(** [n] picks in a row with nothing else happening. *)
Fixpoint pick_seq (n : nat) (m : thr_mem) : list nat * thr_mem :=
  match n with
  | O => ([], m)
  | S n' =>
      match pick_next 0 None (KSt m ∅) with
      | Some (Some i, s) => let (l, m') := pick_seq n' (k_mem s) in (i :: l, m')
      | _ => ([], m)
      end
  end.

Lemma contends_picked t m c i : contends t 0 m -> contends t 0 (picked c i m).
Proof.
  intros (Ht & Hr & [H1 H2] & Hid). split; [done|]. split; [done|]. split; [|done]. split; [done|].
  cbn [g_aThrLastPick picked set_pick_gen set_last_pick set_robin]. by rewrite length_insert.
Qed.

Lemma pick_seq_picks t n : forall m,
  contends t 0 m -> picks t (fst (pick_seq n m)) m.
Proof.
  induction n as [|n IH]; intros m Hc; simpl; [constructor|].
  destruct (pick_next 0 None (KSt m ∅)) as [[[i|] s]|] eqn:E; [|constructor..].
  destruct s as [m1 tel1]. simpl. destruct (pick_seq n m1) as [l m'] eqn:El. simpl.
  eapply picks_cons; [exact Hc|exact E|split; reflexivity|].
  pose proof Hc as (Ht & _ & Hm & Hid).
  destruct (wp_run _ _ _ _ _ _ _ (wp_pick_next 0 None m Hm Hid) E) as [(x & Ex & _ & _ & ->)|[Hno _]].
  - injection Ex as <-. assert (l = fst (pick_seq n (picked (eff_cpu 0) i m))) as -> by (by rewrite El).
    by apply IH, contends_picked.
  - by destruct (Hno t).
Qed.

Lemma demo_contends : contends 2 0 demo_thr.
Proof.
  assert (forall j, eligible demo_thr (eff_cpu 0) j -> j ∈ [1; 2; 3; 4]%nat) as Hel.
  { intros j (p & E & Hst & _ & Hi).
    assert (j < 32)%nat as Hj by (apply lookup_lt_Some in E; exact E).
    do 32 (destruct j as [|j]; [vm_compute in E; injection E as <-; vm_compute in Hst, Hi; first [done|set_solver]|]). lia. }
  split_and!; [|intros j Hj|split; reflexivity|exact demo_idle].
  - exists (MkThread 3 GJ_THR_RUNNABLE 0 0). split_and!; try reflexivity. vm_compute. discriminate.
  - apply Hel in Hj. rewrite !elem_of_cons in Hj.
    destruct Hj as [->|[->|[->|[->|Hj]]]]; [vm_compute; discriminate..|by apply elem_of_nil in Hj].
Qed.


(** ** Behaviours *)

(** A new thread starts with the oldest possible age, so it is picked before
    threads of its rank that were already waiting. *)
Example new_thread_first :
  let run {A} (c : prog thr_mem A) m := match c (KSt m ∅) with Some (_, s) => k_mem s | None => m end in
  let m1 := snd (pick_seq 8 demo_thr) in
  let m2 := run thread_create m1 in
  fst (pick_seq 3 m1) = [4; 2; 3]%nat /\ fst (pick_seq 3 m2) = [9; 4; 2]%nat.
Proof. vm_compute. auto. Qed.
