(* ===== verification/FileLock.v ===== *)
(** Advisory byte-range locks, [kernel/fs/file_lock.c].

    The lock table, the waiter table, their counts and the wake generation are
    the memory [fl_mem], together with the thread table on which blocked
    [F_SETLKW] callers sleep.  A slot pointer is an index of the table.  Each
    region the code runs under [g_lkLock] is one computation; the places where a
    caller gives up the CPU are the boundaries of [set_attempt] and [set_sleep],
    and [file_lock_set] takes, for each of them, the computation the rest of the
    kernel performs until the caller is resumed.  Log lines are left out; the
    file's statistics are kept as named counters. *)
From stdpp Require Import base gmap list strings.
From Stdlib Require Import ZArith Lia.
From S2P Require Import Prelude LinuxAbi Thread.

Definition GJ_FLOCK_MAX : nat := 32.
Definition GJ_FLOCK_MAX_WAITERS : nat := 8.
Definition GJ_FLOCK_SOFT_WAKE_MAX : Z := 4.
Definition GJ_FLOCK_TAG_WAITER : Z := 1.
Definition GJ_FLOCK_DEADLOCK_DEPTH : nat := 4.
Definition FLOCK_SOFT_LOG_CAP : Z := 4.
Definition GJ_FLOCK_EOF : Z := -1.

Definition GJ_F_RDLCK : Z := 0.
Definition GJ_F_WRLCK : Z := 1.
Definition GJ_F_UNLCK : Z := 2.
Definition GJ_SEEK_SET : Z := 0.
Definition GJ_FLOCK_EDEADLK : Z := 35.

Definition I64_MAX : Z := 9223372036854775807.

(** [struct gj_flock], the request of the caller. *)
Record gj_flock : Type := MkFlock {
  fl_i16Type : Z;
  fl_i16Whence : Z;
  fl_i64Start : Z;
  fl_i64Len : Z;
  fl_u32Pid : Z }.

Record flock_slot : Type := MkSlot {
  u8Used : bool;
  i64Fd : Z;
  i16Type : Z;
  i64Start : Z;
  i64End : Z;
  u32Pid : Z }.

Record flock_waiter : Type := MkWaiter {
  w_u8Used : bool;
  w_i64Fd : Z;
  w_i16Type : Z;
  w_i64Start : Z;
  w_i64End : Z;
  w_u32Pid : Z;
  w_u32BlockerPid : Z;
  w_u32GenSeen : Z }.

#[export] Instance flock_slot_eq_dec : EqDecision flock_slot.
Proof. solve_decision. Defined.

Record fl_mem : Type := MkFl {
  g_aLk : list flock_slot;
  g_aWait : list flock_waiter;
  g_u32NLocks : Z;
  g_u32NWaiters : Z;
  g_u32WakeGen : Z;
  fl_thr : thr_mem }.

Definition set_lk (l : list flock_slot) (m : fl_mem) : fl_mem :=
  MkFl l (g_aWait m) (g_u32NLocks m) (g_u32NWaiters m) (g_u32WakeGen m) (fl_thr m).
Definition set_wait (l : list flock_waiter) (m : fl_mem) : fl_mem :=
  MkFl (g_aLk m) l (g_u32NLocks m) (g_u32NWaiters m) (g_u32WakeGen m) (fl_thr m).
Definition set_nlocks (n : Z) (m : fl_mem) : fl_mem :=
  MkFl (g_aLk m) (g_aWait m) n (g_u32NWaiters m) (g_u32WakeGen m) (fl_thr m).
Definition set_nwaiters (n : Z) (m : fl_mem) : fl_mem :=
  MkFl (g_aLk m) (g_aWait m) (g_u32NLocks m) n (g_u32WakeGen m) (fl_thr m).
Definition set_wake_gen (n : Z) (m : fl_mem) : fl_mem :=
  MkFl (g_aLk m) (g_aWait m) (g_u32NLocks m) (g_u32NWaiters m) n (fl_thr m).
Definition set_fl_thr (t : thr_mem) (m : fl_mem) : fl_mem :=
  MkFl (g_aLk m) (g_aWait m) (g_u32NLocks m) (g_u32NWaiters m) (g_u32WakeGen m) t.

#[export] Instance fl_has_threads : HasThreads fl_mem :=
  {| thr_of := fl_thr; thr_upd := set_fl_thr; thr_of_upd := fun t m => eq_refl |}.

(** The address of [g_u32WaitObj], the wait object of every blocked caller. *)
Definition g_u32WaitObj_addr : Z := 4096.

Definition with_used (b : bool) (s : flock_slot) : flock_slot :=
  MkSlot b (i64Fd s) (i16Type s) (i64Start s) (i64End s) (u32Pid s).
Definition with_range (a e : Z) (s : flock_slot) : flock_slot :=
  MkSlot (u8Used s) (i64Fd s) (i16Type s) a e (u32Pid s).
Definition with_w_used (b : bool) (w : flock_waiter) : flock_waiter :=
  MkWaiter b (w_i64Fd w) (w_i16Type w) (w_i64Start w) (w_i64End w) (w_u32Pid w)
    (w_u32BlockerPid w) (w_u32GenSeen w).

(** ** Ranges *)
Definition range_end (start len : Z) : Z :=
  if len =? 0 then GJ_FLOCK_EOF
  else if I64_MAX - len <? start then GJ_FLOCK_EOF
  else start + len.

Definition range_overflow (start len : Z) : bool :=
  if len =? 0 then false else I64_MAX - len <? start.

Definition range_norm_end (e : Z) : Z := if e <? 0 then I64_MAX else e.

Definition ranges_overlap (a0 a1 b0 b1 : Z) : bool :=
  (a0 <? range_norm_end b1) && (b0 <? range_norm_end a1).

Definition types_conflict (a b : Z) : bool :=
  negb ((a =? GJ_F_RDLCK) && (b =? GJ_F_RDLCK)).

(** ** Statistics and the self-check *)
Definition soft_held_note : prog fl_mem unit :=
  m <- pget ;; tel_peak "g_u32SoftHeldPeak" (g_u32NLocks m).

Definition soft_wait_peak_note : prog fl_mem unit :=
  m <- pget ;; tel_peak "g_u32SoftWaitPeak" (g_u32NWaiters m).

Inductive deny_bucket : Type := DenyEagain | DenyDeadlk | DenyNolck.

Definition soft_deny_note (b : deny_bucket) : prog fl_mem unit :=
  tick "g_u32SoftDeny" ;;;
  match b with
  | DenyEagain => tick "g_u32SoftDenyEagain" ;;; tel_set "g_u32SoftLastDenyCode" 1
  | DenyDeadlk => tick "g_u32SoftDenyDeadlk" ;;; tel_set "g_u32SoftLastDenyCode" 2
  | DenyNolck => tick "g_u32SoftDenyNolck" ;;; tel_set "g_u32SoftLastDenyCode" 3
  end.

Definition soft_inventory_log : prog fl_mem unit :=
  t <- ptel ;;
  if FLOCK_SOFT_LOG_CAP <=? tel_val t "g_u32SoftLogN" then pret tt
  else tick "g_u32SoftLogN".

(** The six arms of the residual self-check. *)
Definition lean_types : bool :=
  (GJ_F_RDLCK =? 0) && (GJ_F_WRLCK =? 1) && (GJ_F_UNLCK =? 2) &&
  (GJ_SEEK_SET =? 0) && (GJ_FLOCK_EDEADLK =? 35).
Definition lean_conflict : bool :=
  negb (types_conflict GJ_F_RDLCK GJ_F_RDLCK) && types_conflict GJ_F_RDLCK GJ_F_WRLCK &&
  types_conflict GJ_F_WRLCK GJ_F_RDLCK && types_conflict GJ_F_WRLCK GJ_F_WRLCK.
Definition lean_range : bool :=
  negb (ranges_overlap 0 10 10 20) && ranges_overlap 0 10 9 20 &&
  ranges_overlap 0 GJ_FLOCK_EOF 100 101 && (range_end 0 0 =? GJ_FLOCK_EOF) &&
  (range_end 10 5 =? 15) && negb (range_overflow 0 0) && range_overflow I64_MAX 1 &&
  (range_norm_end GJ_FLOCK_EOF =? I64_MAX) && (range_norm_end 42 =? 42).
Definition lean_cap : bool :=
  (GJ_FLOCK_MAX =? 32)%nat && (GJ_FLOCK_MAX_WAITERS =? 8)%nat &&
  (GJ_FLOCK_SOFT_WAKE_MAX =? 4) && (GJ_FLOCK_DEADLOCK_DEPTH =? 4)%nat &&
  (1 <=? FLOCK_SOFT_LOG_CAP) && (FLOCK_SOFT_LOG_CAP <=? 8) && (GJ_FLOCK_TAG_WAITER =? 1).
Definition lean_live (m : fl_mem) : bool :=
  (g_u32NLocks m =? Z.of_nat (countb u8Used (g_aLk m))) &&
  (g_u32NWaiters m =? Z.of_nat (countb w_u8Used (g_aWait m))) &&
  (g_u32NLocks m <=? Z.of_nat GJ_FLOCK_MAX) &&
  (g_u32NWaiters m <=? Z.of_nat GJ_FLOCK_MAX_WAITERS).
Definition lean_ok (m : fl_mem) : bool :=
  lean_types && lean_conflict && lean_range && lean_cap && lean_live m.

(** [soft_residual_lean_once]; its last arm compares constants that hold. *)
Definition soft_residual_lean_once : prog fl_mem unit :=
  t <- ptel ;;
  if negb (tel_val t "g_fSoftLean" =? 0) then pret tt else
  tel_set "g_fSoftLean" 1 ;;;
  tick "g_u32SoftResidualLean" ;;;
  m <- pget ;;
  if lean_ok m then tick "g_u32SoftResidualLeanOk" else pret tt.

Definition soft_inventory_maybe_once : prog fl_mem unit :=
  t <- ptel ;;
  if negb (tel_val t "g_fSoftOnce" =? 0) then pret tt else
  if (tel_val t "g_u32SoftSetOk" =? 0) && (tel_val t "g_u32SoftUnlkOk" =? 0) &&
     (tel_val t "g_u32SoftGet" =? 0) && (tel_val t "g_u32SoftRelFd" =? 0) &&
     (tel_val t "g_u32SoftRelPid" =? 0) && (tel_val t "g_u32SoftDeny" =? 0) &&
     (tel_val t "g_u32SoftBlock" =? 0) then pret tt else
  tel_set "g_fSoftOnce" 1 ;;;
  soft_inventory_log ;;;
  soft_residual_lean_once.

Definition zero_slot : flock_slot := MkSlot false 0 0 0 0 0.
Definition zero_waiter : flock_waiter := MkWaiter false 0 0 0 0 0 0 0.

(** The counters of this file, all reset by [file_lock_init]. *)
Definition flock_counter (c : string) : bool :=
  String.prefix "g_u32Soft" c || String.prefix "g_fSoft" c.

Definition file_lock_init : prog fl_mem unit :=
  pmod (fun m => MkFl (replicate GJ_FLOCK_MAX zero_slot)
                   (replicate GJ_FLOCK_MAX_WAITERS zero_waiter) 0 0 0 (fl_thr m)) ;;;
  t <- ptel ;;
  ptel_put (filter (fun kv => flock_counter kv.1 = false) t) ;;;
  soft_inventory_log ;;;
  soft_residual_lean_once.

(** ** Slots *)
Definition ld_slot (i : nat) : prog fl_mem flock_slot :=
  m <- pget ;; match g_aLk m !! i with Some s => pret s | None => pfault end.
Definition st_slot (i : nat) (s : flock_slot) : prog fl_mem unit :=
  m <- pget ;;
  match g_aLk m !! i with Some _ => pput (set_lk (<[i := s]> (g_aLk m)) m) | None => pfault end.

Definition slot_free_count : prog fl_mem Z :=
  m <- pget ;; pret (Z.of_nat (countb (fun s => negb (u8Used s)) (g_aLk m))).

Definition slot_alloc : prog fl_mem (option nat) :=
  m <- pget ;;
  match find_from (fun s => negb (u8Used s)) 0 (g_aLk m) with
  | Some i =>
      s <- ld_slot i ;;
      st_slot i (with_used true s) ;;;
      pmod (fun m => set_nlocks (u32_wrap (g_u32NLocks m + 1)) m) ;;;
      soft_held_note ;;;
      pret (Some i)
  | None => pret None
  end.

Definition slot_free (i : nat) : prog fl_mem unit :=
  s <- ld_slot i ;;
  if negb (u8Used s) then pret tt else
  st_slot i (with_used false s) ;;;
  m <- pget ;;
  if 0 <? g_u32NLocks m then pput (set_nlocks (g_u32NLocks m - 1) m) else pret tt.

Definition slot_fill (i : nat) (fd ty start e pid : Z) : prog fl_mem unit :=
  st_slot i (MkSlot true fd ty start e pid).

Definition wake_gen_bump : prog fl_mem unit :=
  pmod (fun m => set_wake_gen (u32_wrap (g_u32WakeGen m + 1)) m) ;;;
  tick "g_u32SoftWakeGenBump".

Definition soft_wake_waiters : prog fl_mem Z :=
  n <- on_threads (thread_wake g_u32WaitObj_addr GJ_FLOCK_TAG_WAITER GJ_FLOCK_SOFT_WAKE_MAX) ;;
  tick "g_u32SoftWakeCalls" ;;;
  tel_add "g_u32SoftWakeN" n ;;;
  (if n =? 0 then tick "g_u32SoftWakeZero" else tick "g_u32SoftWakeSome") ;;;
  pret n.

(** ** Conflicts *)

(** The slot blocks a request of another pid. *)
Definition slot_conflicts (fd ty start e pid : Z) (s : flock_slot) : bool :=
  u8Used s && (i64Fd s =? fd) && negb (u32Pid s =? pid) &&
  ranges_overlap start e (i64Start s) (i64End s) && types_conflict ty (i16Type s).

(** Is [s] reported instead of [b]? *)
Definition hit_better (s b : flock_slot) : bool :=
  (i64Start s <? i64Start b) ||
  ((i64Start s =? i64Start b) && (i16Type s =? GJ_F_WRLCK) && negb (i16Type b =? GJ_F_WRLCK)).

Fixpoint conflict_scan (fd ty start e pid : Z) (l : list flock_slot)
  (best : option flock_slot) : option flock_slot :=
  match l with
  | [] => best
  | s :: l' =>
      if slot_conflicts fd ty start e pid s then
        match best with
        | None => conflict_scan fd ty start e pid l' (Some s)
        | Some b => conflict_scan fd ty start e pid l' (if hit_better s b then Some s else Some b)
        end
      else conflict_scan fd ty start e pid l' best
  end.

(** [conflict]: the slot it reports, if any. *)
Definition conflict (fd ty start e pid : Z) : prog fl_mem (option flock_slot) :=
  m <- pget ;;
  match conflict_scan fd ty start e pid (g_aLk m) None with
  | Some s => tick "g_u32SoftConflict" ;;; pret (Some s)
  | None => pret None
  end.

(** ** Carving and coalescing one's own ranges *)

(** [s] is a lock of [pid] on [fd]. *)
Definition own_slot (fd pid : Z) (s : flock_slot) : bool :=
  u8Used s && (i64Fd s =? fd) && (u32Pid s =? pid).

(** The loop of [carve_pid_range]: [k] slots left, next slot [i]. *)
Fixpoint carve_loop (fd pid u0 u1 : Z) (k i : nat) : prog fl_mem Z :=
  match k with
  | O => tick "g_u32SoftCarveOk" ;;; pret 0
  | S k' =>
      s <- ld_slot i ;;
      if negb (own_slot fd pid s) then carve_loop fd pid u0 u1 k' (S i) else
      if negb (ranges_overlap u0 u1 (i64Start s) (i64End s)) then
        carve_loop fd pid u0 u1 k' (S i) else
      let l0 := i64Start s in
      let l1 := i64End s in
      let fLeft := l0 <? u0 in
      let fRight := range_norm_end u1 <? range_norm_end l1 in
      if negb fLeft && negb fRight then
        slot_free i ;;; carve_loop fd pid u0 u1 k' (S i) else
      if fLeft && fRight then
        n <- slot_free_count ;;
        (if n <? 1 then tick "g_u32SoftCarveNolck" ;;; pret (- LINUX_ENOLCK) else
         st_slot i (with_range l0 u0 s) ;;;
         pR <- slot_alloc ;;
         match pR with
         | None =>
             st_slot i (with_range l0 l1 s) ;;;
             tick "g_u32SoftCarveNolck" ;;; pret (- LINUX_ENOLCK)
         | Some r =>
             slot_fill r fd (i16Type s) u1 l1 pid ;;;
             tick "g_u32SoftSplitHole" ;;;
             carve_loop fd pid u0 u1 k' (S i)
         end)
      else if fLeft then
        st_slot i (with_range l0 u0 s) ;;; carve_loop fd pid u0 u1 k' (S i)
      else
        st_slot i (with_range u1 l1 s) ;;; carve_loop fd pid u0 u1 k' (S i)
  end.

Definition carve_pid_range (fd pid u0 u1 : Z) : prog fl_mem Z :=
  carve_loop fd pid u0 u1 GJ_FLOCK_MAX 0.

(** Two slots touch: they overlap or are adjacent. *)
Definition slots_touch (a b : flock_slot) : bool :=
  negb ((range_norm_end (i64End a) <? i64Start b) || (range_norm_end (i64End b) <? i64Start a)).

(** The range that covers two slots. *)
Definition merge_range (a b : flock_slot) : flock_slot :=
  let n0 := if i64Start a <? i64Start b then i64Start a else i64Start b in
  let a1 := range_norm_end (i64End a) in
  let b1 := range_norm_end (i64End b) in
  let n1 := if (i64End a <? 0) || (i64End b <? 0) then GJ_FLOCK_EOF
            else if b1 <? a1 then a1 else b1 in
  with_range n0 n1 a.

(** Inner loop: merge into slot [iA] the slots from [iB] on, [k] left. *)
Fixpoint coalesce_inner (fd pid : Z) (iA k iB : nat) (progress : bool) : prog fl_mem bool :=
  match k with
  | O => pret progress
  | S k' =>
      b <- ld_slot iB ;;
      if negb (own_slot fd pid b) then coalesce_inner fd pid iA k' (S iB) progress else
      a <- ld_slot iA ;;
      if negb (i16Type a =? i16Type b) then coalesce_inner fd pid iA k' (S iB) progress else
      if negb (slots_touch a b) then coalesce_inner fd pid iA k' (S iB) progress else
      st_slot iA (merge_range a b) ;;;
      slot_free iB ;;;
      tick "g_u32SoftCoalesce" ;;;
      coalesce_inner fd pid iA k' (S iB) true
  end.

(** One pass over the slots from [iA] on, [k] left. *)
Fixpoint coalesce_pass (fd pid : Z) (k iA : nat) (progress : bool) : prog fl_mem bool :=
  match k with
  | O => pret progress
  | S k' =>
      a <- ld_slot iA ;;
      if negb (own_slot fd pid a) then coalesce_pass fd pid k' (S iA) progress else
      p <- coalesce_inner fd pid iA k' (S iA) progress ;;
      coalesce_pass fd pid k' (S iA) p
  end.

(** [coalesce_pid]: passes until one changes nothing; [k] of the
    [GJ_FLOCK_MAX] passes left. *)
Fixpoint coalesce_loop (fd pid : Z) (k : nat) (pass : Z) : prog fl_mem unit :=
  match k with
  | O => pret tt
  | S k' =>
      tick "g_u32SoftCoalescePass" ;;;
      p <- coalesce_pass fd pid GJ_FLOCK_MAX 0 false ;;
      if negb p then pret tt else
      (if 0 <? pass then tick "g_u32SoftCoalesceChain" else pret tt) ;;;
      coalesce_loop fd pid k' (pass + 1)
  end.

Definition coalesce_pid (fd pid : Z) : prog fl_mem unit := coalesce_loop fd pid GJ_FLOCK_MAX 0.

(** ** Waiters *)
Definition waiter_register (fd ty start e pid blocker : Z) : prog fl_mem Z :=
  m <- pget ;;
  match find_from (fun w => negb (w_u8Used w)) 0 (g_aWait m) with
  | Some i =>
      pput (set_wait (<[i := MkWaiter true fd ty start e pid blocker (g_u32WakeGen m)]> (g_aWait m)) m) ;;;
      pmod (fun m => set_nwaiters (u32_wrap (g_u32NWaiters m + 1)) m) ;;;
      soft_wait_peak_note ;;;
      tick "g_u32SoftWaitReg" ;;;
      pret (Z.of_nat i)
  | None => tick "g_u32SoftWaitFull" ;;; pret (-1)
  end.

Definition waiter_in_range (n : Z) : bool := (0 <=? n) && (n <? Z.of_nat GJ_FLOCK_MAX_WAITERS).

(** Store of [w_u8Used = 0] and the decrement of the count. *)
Definition drop_waiter (i : nat) (w : flock_waiter) : prog fl_mem unit :=
  pmod (fun m => set_wait (<[i := with_w_used false w]> (g_aWait m)) m) ;;;
  m <- pget ;;
  if 0 <? g_u32NWaiters m then pput (set_nwaiters (g_u32NWaiters m - 1) m) else pret tt.

Definition waiter_unregister (n : Z) : prog fl_mem unit :=
  if negb (waiter_in_range n) then pret tt else
  m <- pget ;;
  match g_aWait m !! Z.to_nat n with
  | None => pfault
  | Some w =>
      if negb (w_u8Used w) then pret tt else
      drop_waiter (Z.to_nat n) w ;;;
      tick "g_u32SoftWaitUnreg"
  end.

Definition waiter_update_blocker (n blocker : Z) : prog fl_mem unit :=
  if negb (waiter_in_range n) then pret tt else
  m <- pget ;;
  match g_aWait m !! Z.to_nat n with
  | None => pfault
  | Some w =>
      if negb (w_u8Used w) then pret tt else
      pput (set_wait (<[Z.to_nat n :=
              MkWaiter true (w_i64Fd w) (w_i16Type w) (w_i64Start w) (w_i64End w) (w_u32Pid w)
                blocker (g_u32WakeGen m)]> (g_aWait m)) m)
  end.

(** The blocker recorded by the first waiter of a pid. *)
Fixpoint waiter_next (pid : Z) (l : list flock_waiter) : option Z :=
  match l with
  | [] => None
  | w :: l' => if w_u8Used w && (w_u32Pid w =? pid) then Some (w_u32BlockerPid w) else waiter_next pid l'
  end.

(** The chain walk of [soft_deadlock], at most [k] edges from [cur]. *)
Fixpoint deadlock_walk (self : Z) (k : nat) (cur : Z) (l : list flock_waiter) : bool :=
  match k with
  | O => false
  | S k' =>
      match waiter_next cur l with
      | None => false
      | Some next =>
          if next =? 0 then false
          else if next =? self then true
          else deadlock_walk self k' next l
      end
  end.

Definition soft_deadlock (self blocker : Z) : prog fl_mem bool :=
  tick "g_u32SoftDeadlkProbe" ;;;
  if (blocker =? 0) || (self =? 0) then pret false else
  if blocker =? self then tick "g_u32SoftDeadlkHit" ;;; pret true else
  m <- pget ;;
  if deadlock_walk self GJ_FLOCK_DEADLOCK_DEPTH blocker (g_aWait m)
  then tick "g_u32SoftDeadlkHit" ;;; pret true
  else pret false.

(** ** Requests *)

(** [flock_validate]: an error code, or start, end and pid of the request. *)
Definition flock_validate (fd : Z) (pFl : option gj_flock) : Z + Z * Z * Z :=
  match pFl with
  | None => inl (- LINUX_EINVAL)
  | Some fl =>
      if fd <? 0 then inl (- LINUX_EBADF) else
      if negb (fl_i16Whence fl =? GJ_SEEK_SET) then inl (- LINUX_EINVAL) else
      let pid := if negb (fl_u32Pid fl =? 0) then fl_u32Pid fl else 1 in
      let start := if fl_i64Start fl <? 0 then 0 else fl_i64Start fl in
      if fl_i64Len fl <? 0 then inl (- LINUX_EINVAL) else
      if range_overflow start (fl_i64Len fl) then inl (- LINUX_EINVAL) else
      let e := range_end start (fl_i64Len fl) in
      if (0 <? fl_i64Len fl) && (e =? start) then inl (- LINUX_EINVAL) else
      inr (start, e, pid)
  end.

(** How one turn of the loop of [file_lock_set] ends. *)
Inductive set_out : Type :=
| SetDone (rc : Z)
| SetBlock (nWait : Z) (fRegistered : bool).

Definition unregister_if (fRegistered : bool) (nWait : Z) : prog fl_mem unit :=
  if fRegistered then waiter_unregister nWait else pret tt.

(** The turn when nothing conflicts: carve, insert, coalesce. *)
Definition set_grant (fd ty start e pid nWait : Z) (fRegistered : bool) : prog fl_mem set_out :=
  st <- carve_pid_range fd pid start e ;;
  if negb (st =? 0) then
    (if st =? - LINUX_ENOLCK then soft_deny_note DenyNolck else pret tt) ;;;
    unregister_if fRegistered nWait ;;;
    soft_inventory_maybe_once ;;;
    pret (SetDone st)
  else
  pNew <- slot_alloc ;;
  match pNew with
  | None =>
      soft_deny_note DenyNolck ;;;
      unregister_if fRegistered nWait ;;;
      soft_inventory_maybe_once ;;;
      pret (SetDone (- LINUX_ENOLCK))
  | Some i =>
      slot_fill i fd ty start e pid ;;;
      coalesce_pid fd pid ;;;
      tick "g_u32SoftSetOk" ;;;
      (if ty =? GJ_F_RDLCK then tick "g_u32SoftSetRd" else tick "g_u32SoftSetWr") ;;;
      (if e <? 0 then tick "g_u32SoftEofGrant" else tick "g_u32SoftFiniteGrant") ;;;
      tel_set "g_u32SoftLastDenyCode" 0 ;;;
      unregister_if fRegistered nWait ;;;
      wake_gen_bump ;;;
      soft_wake_waiters ;;;
      soft_inventory_maybe_once ;;;
      pret (SetDone 0)
  end.

(** One turn of the loop, up to the point where the caller sleeps. *)
Definition set_attempt (fd ty start e pid : Z) (fBlock : bool) (nWait : Z)
  (fRegistered : bool) : prog fl_mem set_out :=
  hit <- conflict fd ty start e pid ;;
  match hit with
  | Some pHit =>
      let blocker := u32Pid pHit in
      if negb fBlock then
        soft_deny_note DenyEagain ;;;
        unregister_if fRegistered nWait ;;;
        soft_inventory_maybe_once ;;;
        pret (SetDone (- LINUX_EAGAIN))
      else
      d <- soft_deadlock pid blocker ;;
      if d then
        soft_deny_note DenyDeadlk ;;;
        unregister_if fRegistered nWait ;;;
        soft_inventory_maybe_once ;;;
        pret (SetDone (- GJ_FLOCK_EDEADLK))
      else
        tick "g_u32SoftBlock" ;;;
        if negb fRegistered then
          n <- waiter_register fd ty start e pid blocker ;;
          pret (SetBlock n (0 <=? n))
        else
          waiter_update_blocker nWait blocker ;;;
          pret (SetBlock nWait true)
  | None => set_grant fd ty start e pid nWait fRegistered
  end.

(** After the turn: go to sleep, and look again so that a wake between the
    sample and the sleep is not lost. *)
Definition set_sleep (cur : option nat) (fd ty start e pid : Z) : prog fl_mem unit :=
  match cur with
  | Some _ =>
      tick "g_u32SoftBlockThr" ;;;
      on_threads (thread_block cur g_u32WaitObj_addr GJ_FLOCK_TAG_WAITER) ;;;
      hit <- conflict fd ty start e pid ;;
      match hit with
      | None => tick "g_u32SoftLostWakeSelf" ;;; soft_wake_waiters ;;; pret tt
      | Some _ => pret tt
      end
  | None => tick "g_u32SoftBlockYield"
  end.

(** The loop of [file_lock_set].  [envs] lists what the rest of the kernel does
    each time the caller is descheduled; [None] means the caller is asleep when
    the list ends. *)
Fixpoint set_loop (cur : option nat) (fd ty start e pid : Z) (fBlock : bool)
  (envs : list (prog fl_mem unit)) (nWait : Z) (fRegistered : bool) : prog fl_mem (option Z) :=
  o <- set_attempt fd ty start e pid fBlock nWait fRegistered ;;
  match o with
  | SetDone rc => pret (Some rc)
  | SetBlock n r =>
      set_sleep cur fd ty start e pid ;;;
      match envs with
      | [] => pret None
      | env :: envs' =>
          env ;;; tick "g_u32SoftBlockRetry" ;;;
          set_loop cur fd ty start e pid fBlock envs' n r
      end
  end.

Definition note_last_type (pFl : option gj_flock) : prog fl_mem unit :=
  match pFl with
  | None => pret tt
  | Some fl =>
      tel_set "g_u32SoftLastType"
        (if fl_i16Type fl =? GJ_F_UNLCK then 0
         else if fl_i16Type fl =? GJ_F_RDLCK then 1
         else if fl_i16Type fl =? GJ_F_WRLCK then 2 else 3)
  end.

(** The [F_UNLCK] path of [file_lock_set]. *)
Definition set_unlock (fd start e pid : Z) : prog fl_mem Z :=
  tick "g_u32SoftUnlkEnter" ;;;
  st <- carve_pid_range fd pid start e ;;
  (if st =? 0 then wake_gen_bump ;;; tick "g_u32SoftUnlkOk"
   else if st =? - LINUX_ENOLCK then soft_deny_note DenyNolck else pret tt) ;;;
  (if st =? 0 then soft_wake_waiters ;;; pret tt else pret tt) ;;;
  soft_inventory_maybe_once ;;;
  pret st.

Definition file_lock_set (cur : option nat) (fd : Z) (pFl : option gj_flock) (fBlock : bool)
  (envs : list (prog fl_mem unit)) : prog fl_mem (option Z) :=
  tick "g_u32SoftSetEnter" ;;;
  note_last_type pFl ;;;
  match flock_validate fd pFl, pFl with
  | inl err, _ => tick "g_u32SoftValFail" ;;; pret (Some err)
  | inr _, None => pfault
  | inr (start, e, pid), Some fl =>
      if fl_i16Type fl =? GJ_F_UNLCK then
        st <- set_unlock fd start e pid ;; pret (Some st)
      else if negb (fl_i16Type fl =? GJ_F_RDLCK) && negb (fl_i16Type fl =? GJ_F_WRLCK) then
        tick "g_u32SoftTypeInval" ;;; pret (Some (- LINUX_EINVAL))
      else set_loop cur fd (fl_i16Type fl) start e pid fBlock envs (-1) false
  end.

(** [file_lock_get]: the status and the rewritten request. *)
Definition file_lock_get (fd : Z) (pFl : option gj_flock) : prog fl_mem (Z * option gj_flock) :=
  match flock_validate fd pFl, pFl with
  | inl err, _ => tick "g_u32SoftGetValFail" ;;; pret (err, pFl)
  | inr _, None => pfault
  | inr (start, e, pid), Some fl =>
      (if fl_i16Type fl =? GJ_F_UNLCK then tick "g_u32SoftGetUnlkProbe" else pret tt) ;;;
      let probe := if fl_i16Type fl =? GJ_F_UNLCK then GJ_F_WRLCK else fl_i16Type fl in
      if negb (probe =? GJ_F_RDLCK) && negb (probe =? GJ_F_WRLCK) then
        tick "g_u32SoftTypeInval" ;;; pret (- LINUX_EINVAL, pFl)
      else
      tick "g_u32SoftGet" ;;;
      hit <- conflict fd probe start e pid ;;
      match hit with
      | Some h =>
          tick "g_u32SoftGetHit" ;;;
          soft_inventory_maybe_once ;;;
          pret (0, Some (MkFlock (i16Type h) GJ_SEEK_SET (i64Start h)
                           (if i64End h <? 0 then 0 else i64End h - i64Start h) (u32Pid h)))
      | None =>
          tick "g_u32SoftGetMiss" ;;;
          soft_inventory_maybe_once ;;;
          pret (0, Some (MkFlock GJ_F_UNLCK GJ_SEEK_SET (fl_i64Start fl) (fl_i64Len fl) (fl_u32Pid fl)))
      end
  end.

Definition file_lock_count : prog fl_mem Z :=
  tick "g_u32SoftCountSample" ;;;
  m <- pget ;; soft_inventory_log ;;; pret (g_u32NLocks m).
Definition file_lock_waiters : prog fl_mem Z :=
  tick "g_u32SoftWaitSample" ;;; m <- pget ;; pret (g_u32NWaiters m).
Definition file_lock_wake_gen : prog fl_mem Z :=
  tick "g_u32SoftGenSample" ;;; m <- pget ;; pret (g_u32WakeGen m).

(** ** Release on close and on exit *)

(** Free the used slots that satisfy [p], from slot [i], [k] left; counts them. *)
Fixpoint release_slots (p : flock_slot -> bool) (k i : nat) (cleared : Z) : prog fl_mem Z :=
  match k with
  | O => pret cleared
  | S k' =>
      s <- ld_slot i ;;
      if u8Used s && p s then slot_free i ;;; release_slots p k' (S i) (cleared + 1)
      else release_slots p k' (S i) cleared
  end.

Definition file_lock_release_fd (fd : Z) : prog fl_mem Z :=
  tick "g_u32SoftRelFdCall" ;;;
  if fd <? 0 then tick "g_u32SoftRelFdZero" ;;; pret 0 else
  cleared <- release_slots (fun s => i64Fd s =? fd) GJ_FLOCK_MAX 0 0 ;;
  m <- pget ;;
  let obs := Z.of_nat (countb (fun w => w_u8Used w && (w_i64Fd w =? fd)) (g_aWait m)) in
  (if 0 <? obs then tel_add "g_u32SoftRelFdWaitObs" obs else pret tt) ;;;
  (if 0 <? cleared then wake_gen_bump ;;; tel_add "g_u32SoftRelFd" cleared
   else if 0 <? obs then
     wake_gen_bump ;;; tick "g_u32SoftRelFdOrphan" ;;; tick "g_u32SoftRelFdZero"
   else tick "g_u32SoftRelFdZero") ;;;
  (if (0 <? cleared) || (0 <? obs) then tick "g_u32SoftRelWake" ;;; soft_wake_waiters ;;; pret tt
   else pret tt) ;;;
  soft_inventory_maybe_once ;;;
  pret cleared.

(** Drop the waiters of a pid, from waiter [i], [k] left; counts them. *)
Fixpoint release_waiters (pid : Z) (k i : nat) (dropped : Z) : prog fl_mem Z :=
  match k with
  | O => pret dropped
  | S k' =>
      m <- pget ;;
      match g_aWait m !! i with
      | None => pfault
      | Some w =>
          if w_u8Used w && (w_u32Pid w =? pid) then
            drop_waiter i w ;;; release_waiters pid k' (S i) (dropped + 1)
          else release_waiters pid k' (S i) dropped
      end
  end.

Definition file_lock_release_pid (pid : Z) : prog fl_mem Z :=
  tick "g_u32SoftRelPidCall" ;;;
  if pid =? 0 then tick "g_u32SoftRelPidZero" ;;; pret 0 else
  cleared <- release_slots (fun s => u32Pid s =? pid) GJ_FLOCK_MAX 0 0 ;;
  drop <- release_waiters pid GJ_FLOCK_MAX_WAITERS 0 0 ;;
  tel_add "g_u32SoftRelWaitDrop" drop ;;;
  (if 0 <? cleared then wake_gen_bump ;;; tel_add "g_u32SoftRelPid" cleared
   else if 0 <? drop then wake_gen_bump ;;; tick "g_u32SoftRelPidZero"
   else tick "g_u32SoftRelPidZero") ;;;
  (if (0 <? cleared) || (0 <? drop) then tick "g_u32SoftRelWake" ;;; soft_wake_waiters ;;; pret tt
   else pret tt) ;;;
  soft_inventory_maybe_once ;;;
  pret cleared.
