(* ===== verification/FileLockInv.v ===== *)
(** Advisory file locks: the invariant of a lock table and how a request carves
    the ranges it overlaps. *)
From stdpp Require Import base gmap list strings.
From Stdlib Require Import ZArith Lia.
From S2P Require Import Prelude LinuxAbi Thread ThreadProofs FileLock.

(** * Invariant of the lock table and the byte view of it.

    [held l fd pid ty b]: some used slot of [l] gives [pid] a lock of type [ty]
    on byte [b] of [fd]; [lock_at] computes it.  [lk_ok] is the table invariant:
    well-formed ranges, a process never has two slots on one byte nor two
    touching slots of one type, and two processes share a byte only for reading. *)

Definition s_end (s : flock_slot) : Z := range_norm_end (i64End s).

Definition covers (s : flock_slot) (b : Z) : Prop := i64Start s <= b < s_end s.

(** A range the table may hold: non-empty below [I64_MAX], or the empty range
    that starts at [I64_MAX]. *)
Definition range_wf (start e : Z) : Prop :=
  0 <= start /\ range_norm_end e <= I64_MAX /\ -1 <= e /\
  (start < range_norm_end e \/ (start = I64_MAX /\ e = GJ_FLOCK_EOF)).

Definition slot_wf (s : flock_slot) : Prop :=
  range_wf (i64Start s) (i64End s) /\ (i16Type s = GJ_F_RDLCK \/ i16Type s = GJ_F_WRLCK).

Definition held (l : list flock_slot) (fd pid ty b : Z) : Prop :=
  exists s, s ∈ l /\ u8Used s = true /\ i64Fd s = fd /\ u32Pid s = pid /\ i16Type s = ty /\ covers s b.

Definition coversb (s : flock_slot) (b : Z) : bool := (i64Start s <=? b) && (b <? s_end s).

(** The type of lock [pid] has on byte [b] of [fd]. *)
Definition lock_at (l : list flock_slot) (fd pid b : Z) : option Z :=
  i16Type <$> List.find (fun s => own_slot fd pid s && coversb s b) l.

(** ** Pairs of slots *)
Definition apart (a b : flock_slot) : Prop := s_end a <= i64Start b \/ s_end b <= i64Start a.
Definition gap (a b : flock_slot) : Prop := s_end a < i64Start b \/ s_end b < i64Start a.

(** What two used slots may be to each other. *)
Definition compat (a b : flock_slot) : Prop :=
  i64Fd a = i64Fd b ->
  (u32Pid a = u32Pid b -> apart a b) /\
  (u32Pid a <> u32Pid b -> apart a b \/ (i16Type a = GJ_F_RDLCK /\ i16Type b = GJ_F_RDLCK)).

(** Two slots that coalescing would leave alone. *)
Definition separate (a b : flock_slot) : Prop :=
  i64Fd a = i64Fd b -> u32Pid a = u32Pid b -> i16Type a = i16Type b -> gap a b.

Definition pairwise (R : flock_slot -> flock_slot -> Prop) (l : list flock_slot) : Prop :=
  forall i j a b, i <> j -> l !! i = Some a -> l !! j = Some b ->
    u8Used a = true -> u8Used b = true -> R a b.

Record lk_ok (l : list flock_slot) : Prop := {
  lk_len : length l = GJ_FLOCK_MAX;
  lk_wf : forall s, s ∈ l -> u8Used s = true -> slot_wf s;
  lk_compat : pairwise compat l }.

Definition lk_canon (l : list flock_slot) : Prop := pairwise separate l.

Lemma compat_sym a b : compat a b -> compat b a.
Proof.
  unfold compat, apart. intros H E. symmetry in E. destruct (H E) as [H1 H2]. split; intros P.
  - symmetry in P. destruct (H1 P); auto.
  - assert (u32Pid a <> u32Pid b) as P' by congruence. destruct (H2 P') as [[]|[]]; auto.
Qed.

Lemma separate_sym a b : separate a b -> separate b a.
Proof. unfold separate, gap. intros H E1 E2 E3. destruct (H (eq_sym E1) (eq_sym E2) (eq_sym E3)); auto. Qed.

(** [a'] is [a] cut down. *)
Definition sub_slot (a' a : flock_slot) : Prop :=
  i64Fd a' = i64Fd a /\ u32Pid a' = u32Pid a /\ i16Type a' = i16Type a /\
  (u8Used a' = true -> u8Used a = true /\ i64Start a <= i64Start a' /\ s_end a' <= s_end a).

Lemma sub_slot_refl a : sub_slot a a.
Proof. unfold sub_slot. split_and!; auto with lia. Qed.

Lemma compat_sub a a' b b' :
  u8Used a' = true -> u8Used b' = true -> sub_slot a' a -> sub_slot b' b -> compat a b -> compat a' b'.
Proof.
  unfold compat, apart, sub_slot. intros Ua Ub (F1 & P1 & T1 & H1) (F2 & P2 & T2 & H2) H.
  destruct (H1 Ua) as (_ & ? & ?). destruct (H2 Ub) as (_ & ? & ?).
  rewrite F1, F2, P1, P2, T1, T2. intros E. destruct (H E) as [HA HB].
  split; intros P; [destruct (HA P); [left|right]; lia|].
  destruct (HB P) as [[?|?]|?]; [left; left; lia|left; right; lia|right; done].
Qed.

Lemma separate_sub a a' b b' :
  u8Used a' = true -> u8Used b' = true -> sub_slot a' a -> sub_slot b' b ->
  separate a b -> separate a' b'.
Proof.
  unfold separate, gap, sub_slot. intros Ua Ub (F1 & P1 & T1 & H1) (F2 & P2 & T2 & H2) H.
  destruct (H1 Ua) as (_ & ? & ?). destruct (H2 Ub) as (_ & ? & ?).
  rewrite F1, F2, P1, P2, T1, T2. intros E1 E2 E3. destruct (H E1 E2 E3); [left|right]; lia.
Qed.

(** ** Updating the table *)
Section Pairwise.
Context (R : flock_slot -> flock_slot -> Prop) (R_sym : forall a b, R a b -> R b a).

Lemma pairwise_insert l i s :
  pairwise R l ->
  (forall j b, j <> i -> l !! j = Some b -> u8Used b = true -> u8Used s = true -> R s b) ->
  pairwise R (<[i := s]> l).
Proof.
  intros H Hs x y a b Hne Ha Hb Ua Ub.
  apply list_lookup_insert_Some in Ha as [(Ei & Ea & _)|[Hi Ha]];
    apply list_lookup_insert_Some in Hb as [(Ej & Eb & _)|[Hj Hb]].
  - congruence.
  - subst. by apply (Hs y).
  - subst. by apply R_sym, (Hs x).
  - by apply (H x y).
Qed.

(** Cutting a slot down. *)
Lemma pairwise_insert_sub l i s s' :
  (forall a a' b b', u8Used a' = true -> u8Used b' = true -> sub_slot a' a -> sub_slot b' b ->
     R a b -> R a' b') ->
  pairwise R l -> l !! i = Some s -> sub_slot s' s -> pairwise R (<[i := s']> l).
Proof.
  intros Hsub H Hi Hs. apply pairwise_insert; [done|]. intros j b Hj Hb Ub Us.
  apply (Hsub s s' b b); auto; [apply sub_slot_refl|].
  apply (H i j); auto. destruct Hs as (_ & _ & _ & Hs). by destruct (Hs Us).
Qed.

Lemma pairwise_fmap l f :
  (forall a a' b b', u8Used a' = true -> u8Used b' = true -> sub_slot a' a -> sub_slot b' b ->
     R a b -> R a' b') ->
  pairwise R l -> (forall s, s ∈ l -> sub_slot (f s) s) -> pairwise R (f <$> l).
Proof.
  intros Hsub H Hf i j a b Hne Ha Hb Ua Ub. 
  apply list_lookup_fmap_Some in Ha as (a0 & -> & Ea), Hb as (b0 & -> & Eb).
  pose proof (Hf _ (list_elem_of_lookup_2 _ _ _ Ea)) as Sa.
  pose proof (Hf _ (list_elem_of_lookup_2 _ _ _ Eb)) as Sb.
  apply (Hsub a0 _ b0 _); auto. apply (H i j); auto.
  - destruct Sa as (_ & _ & _ & Sa). by destruct (Sa Ua).
  - destruct Sb as (_ & _ & _ & Sb). by destruct (Sb Ub).
Qed.
End Pairwise.

Definition compat_insert := pairwise_insert compat compat_sym.
Definition separate_insert := pairwise_insert separate separate_sym.

Lemma elem_of_insert_cases {A} (l : list A) i (x y : A) : y ∈ <[i := x]> l -> y = x \/ y ∈ l.
Proof.
  intros H. apply list_elem_of_lookup in H as [j Hj].
  apply list_lookup_insert_Some in Hj as [(_ & <- & _)|[_ Hj]]; [by left|].
  right. by eapply list_elem_of_lookup_2.
Qed.

Lemma elem_of_insert_split {A} (l : list A) i (x s y : A) :
  l !! i = Some s -> y ∈ <[i := x]> l <-> y = x \/ exists j, j <> i /\ l !! j = Some y.
Proof.
  intros Hi. pose proof (lookup_lt_Some _ _ _ Hi). split.
  - intros H1. apply list_elem_of_lookup in H1 as [j Hj].
    apply list_lookup_insert_Some in Hj as [(_ & <- & _)|[Hne Hj]]; [by left|]. right. by exists j.
  - intros [->|(j & Hne & Hj)]; apply list_elem_of_lookup.
    + exists i. by rewrite list_lookup_insert_eq.
    + exists j. by rewrite list_lookup_insert_ne.
Qed.

(** ** The byte view *)
Lemma own_slot_true fd pid s :
  own_slot fd pid s = true <-> u8Used s = true /\ i64Fd s = fd /\ u32Pid s = pid.
Proof. unfold own_slot. rewrite !andb_true_iff, !Z.eqb_eq. tauto. Qed.

Lemma coversb_true s b : coversb s b = true <-> covers s b.
Proof. unfold coversb, covers. rewrite andb_true_iff, Z.leb_le, Z.ltb_lt. done. Qed.

Lemma held_unique l fd pid t1 t2 b :
  lk_ok l -> held l fd pid t1 b -> held l fd pid t2 b -> t1 = t2.
Proof.
  intros Hl (s & Hs & U & F & P & <- & C) (s' & Hs' & U' & F' & P' & <- & C').
  apply list_elem_of_lookup in Hs as [i Hi], Hs' as [j Hj].
  destruct (decide (i = j)) as [->|Hne]; [congruence|].
  destruct (lk_compat l Hl i j s s' Hne Hi Hj U U') as [H _]; [congruence|].
  unfold covers in *. destruct H; [congruence|lia..].
Qed.

Lemma lock_at_held l fd pid ty b :
  lk_ok l -> lock_at l fd pid b = Some ty <-> held l fd pid ty b.
Proof.
  intros Hl. unfold lock_at. split.
  - intros H. apply fmap_Some in H as (s & E & ->). apply List.find_some in E as [Hin E].
    apply andb_prop in E as [E1 E2]. apply own_slot_true in E1 as (? & ? & ?). apply coversb_true in E2.
    exists s. rewrite list_elem_of_In. by split_and!.
  - intros Hh. pose proof Hh as (s & Hin & U & F & P & T & C).
    destruct (List.find _ l) as [s'|] eqn:E.
    + simpl. f_equal. apply List.find_some in E as [Hin' E]. apply andb_prop in E as [E1 E2].
      apply own_slot_true in E1 as (? & ? & ?). apply coversb_true in E2.
      eapply held_unique; [done| |exact Hh]. exists s'. rewrite list_elem_of_In. by split_and!.
    + exfalso. rewrite list_elem_of_In in Hin. apply (List.find_none _ _ E) in Hin.
      assert (own_slot fd pid s && coversb s b = true) as Hc; [|congruence].
      apply andb_true_iff. split; [by apply own_slot_true|by apply coversb_true].
Qed.

(** Equal views give equal maps. *)
Lemma lock_at_ext l l' fd pid b :
  lk_ok l -> lk_ok l' -> (forall ty, held l' fd pid ty b <-> held l fd pid ty b) ->
  lock_at l' fd pid b = lock_at l fd pid b.
Proof.
  intros H H' E. apply option_eq. intros ty. by rewrite !lock_at_held, E.
Qed.

Lemma lock_at_none l fd pid b :
  lk_ok l -> (forall ty, ~ held l fd pid ty b) -> lock_at l fd pid b = None.
Proof.
  intros H E. destruct (lock_at l fd pid b) as [ty|] eqn:L; [|done].
  apply lock_at_held in L; [|done]. by destruct (E ty).
Qed.

(** A used slot that meets a range has a byte in it. *)
Lemma overlap_byte s u0 u1 :
  slot_wf s -> range_wf u0 u1 ->
  (s_end s <= u0 \/ range_norm_end u1 <= i64Start s) \/
  exists b, covers s b /\ u0 <= b < range_norm_end u1.
Proof.
  intros ((? & ? & ? & Hs) & _) (? & ? & ? & Hu). unfold covers. fold (s_end s) in *.
  assert (range_norm_end GJ_FLOCK_EOF = I64_MAX) as EOF by done.
  destruct (decide (s_end s <= u0)); [by left; left|].
  destruct (decide (range_norm_end u1 <= i64Start s)); [by left; right|].
  right. exists (Z.max u0 (i64Start s)).
  destruct Hs as [Hs|[Hs1 Hs2]]; destruct Hu as [Hu|[Hu1 Hu2]]; try lia; subst; try lia;
    unfold s_end in *; rewrite ?Hs2, ?EOF in *; lia.
Qed.

(** ** Table and count together *)

(** The memory with table [l] and the count that belongs to it. *)
Definition with_lk (l : list flock_slot) (m : fl_mem) : fl_mem :=
  MkFl l (g_aWait m) (Z.of_nat (countb u8Used l)) (g_u32NWaiters m) (g_u32WakeGen m) (fl_thr m).

Definition nl_ok (m : fl_mem) : Prop := g_u32NLocks m = Z.of_nat (countb u8Used (g_aLk m)).

Lemma with_lk_id m : nl_ok m -> with_lk (g_aLk m) m = m.
Proof. unfold nl_ok, with_lk. destruct m; simpl. by intros ->. Qed.

Lemma with_lk_twice l l' m : with_lk l (with_lk l' m) = with_lk l m.
Proof. done. Qed.

Lemma nl_ok_with_lk l m : nl_ok (with_lk l m).
Proof. done. Qed.

Lemma countb_length {A} (p : A -> bool) l : (countb p l <= length l)%nat.
Proof. unfold countb. apply length_filter. Qed.

Lemma wp_ld_slot i s Q m : g_aLk m !! i = Some s -> Q s m -> wp (ld_slot i) Q m.
Proof. intros E H. apply wp_bind, wp_get. rewrite E. by apply wp_ret. Qed.

(** Overwriting a slot without changing its use bit. *)
Lemma wp_st_slot i s s' Q m :
  nl_ok m -> g_aLk m !! i = Some s -> u8Used s' = u8Used s ->
  Q tt (with_lk (<[i := s']> (g_aLk m)) m) -> wp (st_slot i s') Q m.
Proof.
  intros Hn E U H. apply wp_bind, wp_get. rewrite E. apply wp_put.
  replace (set_lk _ m) with (with_lk (<[i := s']> (g_aLk m)) m); [done|].
  unfold set_lk, with_lk. f_equal. rewrite Hn. f_equal.
  pose proof (countb_update u8Used (g_aLk m) i s' s E). rewrite U in *. lia.
Qed.

Lemma wp_slot_free i s Q m :
  nl_ok m -> g_aLk m !! i = Some s ->
  Q tt (with_lk (<[i := with_used false s]> (g_aLk m)) m) -> wp (slot_free i) Q m.
Proof.
  intros Hn E H. unfold slot_free. apply wp_bind, (wp_ld_slot i s); [done|].
  destruct (u8Used s) eqn:U; cbn [negb].
  - apply wp_bind, wp_bind, wp_get. rewrite E. apply wp_put, wp_bind, wp_get. simpl.
    pose proof (countb_pos u8Used _ _ _ E U). rewrite Hn.
    rewrite (proj2 (Z.ltb_lt _ _)) by lia. apply wp_put.
    pose proof (countb_update u8Used (g_aLk m) i (with_used false s) s E) as C. rewrite U in C. simpl in C.
    replace (set_nlocks _ _) with (with_lk (<[i := with_used false s]> (g_aLk m)) m); [done|].
    unfold with_lk, set_nlocks. simpl. f_equal. lia.
  - apply wp_ret. assert (with_used false s = s) as Es by (destruct s; simpl in U; by subst).
    rewrite Es, list_insert_id in H by done. by rewrite with_lk_id in H.
Qed.

Definition table_full (l : list flock_slot) : Prop := forall i s, l !! i = Some s -> u8Used s = true.

Lemma wp_slot_alloc Q m :
  nl_ok m -> length (g_aLk m) = GJ_FLOCK_MAX ->
  (forall i s, g_aLk m !! i = Some s -> u8Used s = false ->
     Q (Some i) (with_lk (<[i := with_used true s]> (g_aLk m)) m)) ->
  (table_full (g_aLk m) -> Q None m) ->
  wp slot_alloc Q m.
Proof.
  intros Hn Hlen HS HN. unfold slot_alloc. apply wp_bind, wp_get.
  destruct (find_from _ 0 (g_aLk m)) as [i|] eqn:E.
  2:{ apply wp_ret, HN. intros i s Hi. pose proof (find_from_None _ _ _ E _ _ Hi) as F.
      by apply negb_false_iff in F. }
  apply find_from_Some in E as (j & s & -> & Hj & U & _). simpl. apply negb_true_iff in U.
  apply wp_bind, (wp_ld_slot j s); [done|]. apply wp_bind, wp_bind, wp_get. rewrite Hj. apply wp_put.
  wsteps. unfold soft_held_note. wsteps.
  pose proof (countb_update u8Used (g_aLk m) j (with_used true s) s Hj) as C. rewrite U in C. simpl in C.
  pose proof (countb_length u8Used (<[j := with_used true s]> (g_aLk m))) as B.
  rewrite length_insert, Hlen in B. unfold GJ_FLOCK_MAX in B.
  specialize (HS j s Hj U). simpl. rewrite Hn.
  replace (set_nlocks _ _) with (with_lk (<[j := with_used true s]> (g_aLk m)) m); [done|].
  unfold with_lk, set_nlocks, u32_wrap. simpl. f_equal. rewrite Z.mod_small by lia. lia.
Qed.

(** * [carve_pid_range] removes exactly the bytes of the range from the caller's
    locks, or fails without touching the table. *)

(** A finite end is its own normal form. *)
Lemma norm_finite e : 0 <= e -> range_norm_end e = e.
Proof. intros. unfold range_norm_end. by rewrite (proj2 (Z.ltb_ge _ _)) by lia. Qed.

Lemma norm_lt_finite a b : range_norm_end a < range_norm_end b -> range_norm_end b <= I64_MAX -> range_norm_end a = a.
Proof. unfold range_norm_end. repeat case_match; lia. Qed.

Section Carve.
Context (fd pid u0 u1 : Z) (Hu : range_wf u0 u1).

(** The slot is affected by the carve. *)
Definition hit (s : flock_slot) : bool :=
  own_slot fd pid s && ranges_overlap u0 u1 (i64Start s) (i64End s).

(** The range lies strictly inside the slot: carving leaves a hole. *)
Definition splits (s : flock_slot) : bool :=
  hit s && (i64Start s <? u0) && (range_norm_end u1 <? s_end s).

(** What carving does to a slot that needs no second one. *)
Definition trim (s : flock_slot) : flock_slot :=
  if hit s then
    if i64Start s <? u0 then with_range (i64Start s) u0 s
    else if range_norm_end u1 <? s_end s then with_range u1 (i64End s) s
    else with_used false s
  else s.

Lemma hit_true s :
  hit s = true <-> own_slot fd pid s = true /\ u0 < s_end s /\ i64Start s < range_norm_end u1.
Proof. unfold hit, ranges_overlap. rewrite !andb_true_iff, !Z.ltb_lt. unfold s_end. tauto. Qed.

(** The result of the loop when no slot has to be split. *)
Lemma wp_carve_nosplit k : forall done l m,
  g_aLk m = done ++ l -> length l = k -> nl_ok m -> (forall s, s ∈ l -> splits s = false) ->
  wp (carve_loop fd pid u0 u1 k (length done))
     (fun r m' => r = 0 /\ m' = with_lk (done ++ (trim <$> l)) m) m.
Proof.
  induction k as [|k IH]; intros done l m Hl Hk Hn Hs; cbn [carve_loop].
  { destruct l; [|done]. wsteps. split; [done|]. simpl. rewrite <-Hl. by rewrite with_lk_id. }
  destruct l as [|s l]; [done|]. injection Hk as Hk.
  assert (g_aLk m !! length done = Some s) as Hi by (rewrite Hl; by apply list_lookup_middle).
  apply wp_bind, (wp_ld_slot _ s); [done|].
  (* the loop goes on after the slot has become [trim s] *)
  assert (forall m1, m1 = with_lk (done ++ trim s :: l) m ->
    wp (carve_loop fd pid u0 u1 k (S (length done)))
     (fun r m' => r = 0 /\ m' = with_lk (done ++ (trim <$> (s :: l))) m) m1) as Hgo.
  { intros m1 ->. replace (S (length done)) with (length (done ++ [trim s])) by (rewrite length_app; simpl; lia).
    eapply wp_mono.
    - apply (IH (done ++ [trim s]) l); [simpl; by rewrite <-app_assoc|done|done|].
      intros x Hx. apply Hs. by right.
    - intros r m' [-> ->]. split; [done|]. by rewrite with_lk_twice, <-app_assoc. }
  assert (forall s', <[length done := s']> (g_aLk m) = done ++ s' :: l) as Hins.
  { intros s'. rewrite Hl, insert_app_r_alt, Nat.sub_diag by done. done. }
  specialize (Hs s ltac:(left)).
  destruct (own_slot fd pid s) eqn:Ho; cbn [negb].
  2:{ apply Hgo. unfold trim, hit. rewrite Ho. simpl. rewrite <-Hl. by rewrite with_lk_id. }
  destruct (ranges_overlap u0 u1 (i64Start s) (i64End s)) eqn:Hov; cbn [negb].
  2:{ apply Hgo. unfold trim, hit. rewrite Ho, Hov. simpl. rewrite <-Hl. by rewrite with_lk_id. }
  fold (s_end s). unfold splits, trim, hit in *. rewrite Ho, Hov in *. simpl in Hs.
  destruct (i64Start s <? u0) eqn:HL, (range_norm_end u1 <? s_end s) eqn:HR; cbn [negb andb] in *; try done.
  - apply wp_bind, (wp_st_slot _ s); [done..|]. rewrite Hins. by apply Hgo.
  - apply wp_bind, (wp_st_slot _ s); [done..|]. rewrite Hins. by apply Hgo.
  - apply wp_bind, (wp_slot_free _ s); [done..|]. rewrite Hins. by apply Hgo.
Qed.

(** ** The view after a carve *)

(** Bytes the caller gives up. *)
Definition in_range (f p b : Z) : Prop := f = fd /\ p = pid /\ u0 <= b < range_norm_end u1.

Definition carved (l l' : list flock_slot) : Prop :=
  forall f p ty b, held l' f p ty b <-> held l f p ty b /\ ~ in_range f p b.

Lemma trim_fields s : i64Fd (trim s) = i64Fd s /\ u32Pid (trim s) = u32Pid s /\ i16Type (trim s) = i16Type s.
Proof. unfold trim. repeat case_match; done. Qed.

Lemma trim_spec s :
  slot_wf s -> u8Used s = true -> splits s = false ->
  sub_slot (trim s) s /\ (u8Used (trim s) = true -> slot_wf (trim s)) /\
  forall b, (u8Used (trim s) = true /\ covers (trim s) b) <->
            (covers s b /\ ~ (own_slot fd pid s = true /\ u0 <= b < range_norm_end u1)).
Proof.
  intros (Hw & HT) U Hsp. destruct Hw as (? & ? & ? & Hw). pose proof Hu as (? & ? & ? & Hu').
  unfold splits in Hsp. unfold trim. destruct (hit s) eqn:Hh.
  2:{ split_and!; [apply sub_slot_refl|by intros; split; [by split_and!|]|].
      intros b. split.
      - intros [_ C]. split; [done|]. intros [Ho Hb].
        assert (hit s = true); [|congruence]. apply hit_true. unfold covers in C. split_and!; [done|lia..].
      - by intros [C _]. }
  apply hit_true in Hh as (Ho & Hh1 & Hh2). simpl in Hsp. unfold s_end in *.
  destruct (i64Start s <? u0) eqn:HL; simpl in Hsp; rewrite ?Hsp.
  - apply Z.ltb_lt in HL. apply Z.ltb_ge in Hsp.
    assert (range_norm_end u0 = u0) as E by (by apply norm_finite).
    unfold sub_slot, slot_wf, range_wf, covers, s_end, with_range; simpl. rewrite E.
    split_and!; [done..|by intros; split_and!; [done|lia..]|by intros _; split_and!; auto; lia|].
    intros b. split; [by intros [_ ?]; split; [lia|intros [_ ?]; lia]|].
    intros [C HN]. split; [done|]. assert (~ u0 <= b < range_norm_end u1) by tauto. lia.
  - apply Z.ltb_ge in HL. destruct (range_norm_end u1 <? range_norm_end (i64End s)) eqn:HR.
    + apply Z.ltb_lt in HR. assert (range_norm_end u1 = u1) as E by (by eapply norm_lt_finite).
      assert (0 <= u1) by (destruct Hu' as [?|[-> ->]]; [lia|done]).
      unfold sub_slot, slot_wf, range_wf, covers, s_end, with_range; simpl.
      rewrite E in *. split_and!; [done..|by intros; split_and!; [done|lia..]|by intros _; split_and!; auto; lia|].
      intros b. split; [by intros [_ ?]; split; [lia|intros [_ ?]; lia]|].
      intros [C HN]. split; [done|]. assert (~ u0 <= b < u1) by tauto. lia.
    + apply Z.ltb_ge in HR. unfold sub_slot, slot_wf, covers, s_end, with_used; simpl.
      split_and!; try done. intros b. split; [by intros [? _]|]. intros [C HN]. exfalso. apply HN. split; [done|lia].
Qed.

Lemma held_fmap_trim l :
  lk_ok l -> (forall s, s ∈ l -> splits s = false) -> carved l (trim <$> l).
Proof.
  intros Hl Hs f p ty b. split.
  - intros (x & Hx & U & F & P & T & C). apply list_elem_of_fmap in Hx as (s & -> & Hin).
    destruct (trim_fields s) as (Ef & Ep & Et). assert (u8Used s = true) as Us.
    { unfold trim in U. destruct (hit s) eqn:Hh; [|done]. apply hit_true in Hh as (Ho & _).
      apply own_slot_true in Ho. tauto. }
    destruct (trim_spec s (lk_wf l Hl s Hin Us) Us (Hs s Hin)) as (_ & _ & HC).
    destruct (proj1 (HC b) (conj U C)) as [C' HN]. split; [exists s; split_and!; first [done|congruence]|].
    intros (-> & -> & Hb). apply HN. split; [|done]. apply own_slot_true. split_and!; first [done|congruence].
  - intros [(s & Hin & U & F & P & T & C) HN]. destruct (trim_fields s) as (Ef & Ep & Et).
    destruct (trim_spec s (lk_wf l Hl s Hin U) U (Hs s Hin)) as (_ & _ & HC).
    destruct (proj2 (HC b)) as [U' C'].
    { split; [done|]. intros [Ho Hb]. apply own_slot_true in Ho as (_ & ? & ?). apply HN. split_and!; first [done|congruence|lia]. }
    exists (trim s). split_and!; first [done|congruence|by apply list_elem_of_fmap_2].
Qed.

Lemma trim_sub l s : lk_ok l -> (forall x, x ∈ l -> splits x = false) -> s ∈ l -> sub_slot (trim s) s.
Proof.
  intros Hl Hs Hin. destruct (u8Used s) eqn:U.
  - apply trim_spec; auto. by apply (lk_wf l Hl).
  - assert (hit s = false) as Hh.
    { unfold hit, own_slot. by rewrite U. }
    unfold trim. rewrite Hh. apply sub_slot_refl.
Qed.

Lemma lk_ok_fmap_trim l :
  lk_ok l -> (forall s, s ∈ l -> splits s = false) -> lk_ok (trim <$> l).
Proof.
  intros Hl Hs. split.
  - rewrite length_fmap. apply (lk_len l Hl).
  - intros x Hx U. apply list_elem_of_fmap in Hx as (s & -> & Hin).
    pose proof (trim_sub l s Hl Hs Hin) as Sub. destruct Sub as (_ & _ & _ & Sub). destruct (Sub U) as (Us & _).
    destruct (trim_spec s (lk_wf l Hl s Hin Us) Us (Hs s Hin)) as (_ & Hwf & _). by apply Hwf.
  - apply (pairwise_fmap compat); [apply compat_sub|apply (lk_compat l Hl)|]. intros s Hin. by eapply trim_sub.
Qed.

Lemma lk_canon_fmap_trim l :
  lk_ok l -> lk_canon l -> (forall s, s ∈ l -> splits s = false) -> lk_canon (trim <$> l).
Proof.
  intros Hl Hc Hs. apply (pairwise_fmap separate); [apply separate_sub|done|]. intros s Hin. by eapply trim_sub.
Qed.
(** ** The case of a hole *)
Lemma splits_true s :
  splits s = true <-> hit s = true /\ i64Start s < u0 /\ range_norm_end u1 < s_end s.
Proof. unfold splits. rewrite !andb_true_iff, !Z.ltb_lt. tauto. Qed.

(** If one slot is split, no other slot is affected. *)
Lemma split_alone l i s j b :
  lk_ok l -> l !! i = Some s -> splits s = true -> j <> i -> l !! j = Some b -> hit b = false.
Proof.
  intros Hl Hi Hs Hne Hj. destruct (hit b) eqn:Hh; [exfalso|done].
  apply splits_true in Hs as (Hs & H1 & H2). apply hit_true in Hs as (Ho & H3 & H4), Hh as (Hob & H5 & H6).
  apply own_slot_true in Ho as (U & F & P), Hob as (Ub & Fb & Pb).
  destruct (lk_compat l Hl i j s b (not_eq_sym Hne) Hi Hj U Ub) as [H _]; [congruence|].
  destruct H; [congruence|lia..].
Qed.

(** Slots that are not affected are skipped. *)
Lemma wp_carve_skip pre : forall done l m Q,
  g_aLk m = done ++ pre ++ l -> (forall s, s ∈ pre -> hit s = false) ->
  wp (carve_loop fd pid u0 u1 (length l) (length (done ++ pre))) Q m ->
  wp (carve_loop fd pid u0 u1 (length (pre ++ l)) (length done)) Q m.
Proof.
  induction pre as [|s pre IH]; intros done l m Q Hl Hs H; [by rewrite app_nil_r in H|].
  cbn [app length carve_loop]. apply wp_bind, (wp_ld_slot _ s); [rewrite Hl; by apply list_lookup_middle|].
  assert (wp (carve_loop fd pid u0 u1 (length (pre ++ l)) (S (length done))) Q m) as Hgo.
  { replace (S (length done)) with (length (done ++ [s])) by (rewrite length_app; simpl; lia).
    apply IH; [by rewrite <-app_assoc| |by rewrite <-app_assoc]. intros x Hx. apply Hs. by right. }
  specialize (Hs s ltac:(left)). unfold hit in Hs.
  destruct (own_slot fd pid s); cbn [negb]; [|done]. simpl in Hs. by rewrite Hs.
Qed.

Definition left_part (s : flock_slot) : flock_slot := with_range (i64Start s) u0 s.
Definition right_part (s : flock_slot) : flock_slot := MkSlot true fd (i16Type s) u1 (i64End s) pid.

(** The two remnants of a split slot. *)
Lemma parts_spec s :
  slot_wf s -> splits s = true ->
  u8Used (left_part s) = true /\ sub_slot (left_part s) s /\ sub_slot (right_part s) s /\
  slot_wf (left_part s) /\ slot_wf (right_part s) /\ gap (left_part s) (right_part s) /\
  hit (left_part s) = false /\ hit (right_part s) = false /\
  (forall b, covers (left_part s) b \/ covers (right_part s) b <->
             covers s b /\ ~ u0 <= b < range_norm_end u1).
Proof.
  intros ((? & ? & ? & Hw) & HT) Hs. pose proof Hu as (? & ? & ? & Hu').
  apply splits_true in Hs as (Hh & HL & HR). apply hit_true in Hh as (Ho & Hh1 & Hh2).
  unfold s_end in *. assert (range_norm_end u1 = u1) as E1 by (by eapply norm_lt_finite).
  assert (range_norm_end u0 = u0) as E0 by (by apply norm_finite).
  assert (u0 < u1) as Huu.
  { destruct Hu' as [?|[-> ->]]; [lia|]. change (range_norm_end GJ_FLOCK_EOF) with I64_MAX in *. lia. }
  pose proof Ho as Ho'. apply own_slot_true in Ho' as (U & F & P).
  assert (forall x y, hit (MkSlot true fd x y u0 pid) = false) as HitL.
  { intros. unfold hit, ranges_overlap. simpl. rewrite E0, (proj2 (Z.ltb_ge u0 u0)) by lia. by rewrite andb_false_r. }
  unfold sub_slot, slot_wf, range_wf, gap, covers, left_part, right_part, with_range, s_end in *.
  rewrite F, P, U in *. simpl. rewrite E0, E1 in *.
  split_and!; try done; try lia; try (intros; split_and!; done || lia); auto; try (intros; lia).
  apply not_true_is_false. rewrite hit_true. unfold s_end. simpl. rewrite E1. lia.
Qed.

Definition split_table (l : list flock_slot) (i r : nat) (s : flock_slot) : list flock_slot :=
  <[r := right_part s]> (<[i := left_part s]> l).

Section SplitTable.
Context (l : list flock_slot) (i r : nat) (s f : flock_slot).
Context (Hl : lk_ok l) (Hi : l !! i = Some s) (Hs : splits s = true)
  (Hr : l !! r = Some f) (Hf : u8Used f = false).

Local Lemma split_used : u8Used s = true.
Proof. apply splits_true in Hs as (Hh & _). apply hit_true in Hh as (Ho & _). apply own_slot_true in Ho. tauto. Qed.

Local Lemma split_neq : r <> i.
Proof. intros ->. pose proof split_used. congruence. Qed.

Local Lemma split_wf : slot_wf s.
Proof. apply (lk_wf l Hl); [by eapply list_elem_of_lookup_2|exact split_used]. Qed.

Local Lemma split_elem x :
  x ∈ split_table l i r s <->
  x = right_part s \/ x = left_part s \/ exists j, j <> i /\ j <> r /\ l !! j = Some x.
Proof.
  unfold split_table. pose proof split_neq as Hne.
  rewrite (elem_of_insert_split _ r _ f) by (by rewrite list_lookup_insert_ne by done).
  split.
  - intros [->|(j & Hj & E)]; [by left|right].
    apply list_lookup_insert_Some in E as [(-> & <- & _)|[Hji E]]; [by left|right; eauto].
  - intros [->|[->|(j & Hj & Hjr & E)]]; [by left|right; exists i|right; exists j]; (split; [done|]).
    + apply list_lookup_insert_eq. by eapply lookup_lt_Some.
    + by rewrite list_lookup_insert_ne.
Qed.

Lemma split_table_pairwise R :
  (forall a b, R a b -> R b a) ->
  (forall a a' b b', u8Used a' = true -> u8Used b' = true -> sub_slot a' a -> sub_slot b' b ->
     R a b -> R a' b') ->
  R (right_part s) (left_part s) -> pairwise R l -> pairwise R (split_table l i r s).
Proof.
  intros Rsym Rsub HRL H. pose proof split_neq as Hne.
  destruct (parts_spec s split_wf Hs) as (UL & SL & SR & _).
  apply (pairwise_insert R Rsym); [by apply (pairwise_insert_sub R Rsym l i s)|].
  intros j b Hj E Ub _. apply list_lookup_insert_Some in E as [(-> & <- & _)|[Hji E]]; [done|].
  apply (Rsub s _ b b); auto; [apply sub_slot_refl|]. apply (H i j); auto using split_used.
Qed.

Lemma split_table_ok : lk_ok (split_table l i r s).
Proof.
  destruct (parts_spec s split_wf Hs) as (UL & SL & SR & WL & WR & G & _). split.
  - unfold split_table. rewrite !length_insert. apply (lk_len l Hl).
  - intros x Hx U. apply split_elem in Hx as [->|[->|(j & _ & _ & E)]]; [done|done|].
    apply (lk_wf l Hl); [by eapply list_elem_of_lookup_2|done].
  - apply split_table_pairwise; [apply compat_sym|apply compat_sub| |apply (lk_compat l Hl)].
    intros _. unfold apart, gap in *.
    destruct SL as (_ & PL & _), SR as (_ & PR & _).
    split; [intros _; destruct G; [right|left]; lia|intros Hne; exfalso; apply Hne; congruence].
Qed.

Lemma split_table_canon : lk_canon l -> lk_canon (split_table l i r s).
Proof.
  destruct (parts_spec s split_wf Hs) as (UL & SL & SR & WL & WR & G & _). intros H.
  apply split_table_pairwise; [apply separate_sym|apply separate_sub| |done].
  intros _ _ _. unfold gap in *. tauto.
Qed.

Lemma split_table_carved : carved l (split_table l i r s).
Proof.
  destruct (parts_spec s split_wf Hs) as (UL & SL & SR & WL & WR & G & _ & _ & HC).
  pose proof split_used as U. pose proof Hs as Hs'. apply splits_true in Hs' as (Hh & _). apply hit_true in Hh as (Ho & _).
  apply own_slot_true in Ho as (_ & F & P). destruct SL as (FL & PL & TL & _), SR as (FR & PR & TR & _).
  intros f' p ty b. split.
  - intros (x & Hx & Ux & Fx & Px & Tx & Cx). apply split_elem in Hx as [->|[->|(j & Hji & Hjr & E)]].
    + destruct (proj1 (HC b) (or_intror Cx)) as [C HN]. split; [exists s|intros (_ & _ & ?); tauto].
      split_and!; try done; try congruence. by eapply list_elem_of_lookup_2.
    + destruct (proj1 (HC b) (or_introl Cx)) as [C HN]. split; [exists s|intros (_ & _ & ?); tauto].
      split_and!; try done; try congruence. by eapply list_elem_of_lookup_2.
    + split; [exists x; split_and!; try done; by eapply list_elem_of_lookup_2|].
      intros (-> & -> & Hb). pose proof (split_alone l i s j x Hl Hi Hs Hji E) as Hhx.
      assert (hit x = true); [|congruence]. apply hit_true. unfold covers in Cx. split_and!; [|lia..].
      by apply own_slot_true.
  - intros [(x & Hx & Ux & Fx & Px & Tx & Cx) HN]. apply list_elem_of_lookup in Hx as [j E].
    destruct (decide (j = i)) as [->|Hji].
    + assert (x = s) as -> by congruence.
      destruct (proj2 (HC b)) as [C|C]; [split; [done|]; intros ?; apply HN; split_and!; congruence || lia| |].
      * exists (left_part s). split_and!; try done; try congruence. apply split_elem. tauto.
      * exists (right_part s). split_and!; try done; try congruence. apply split_elem. tauto.
    + exists x. split_and!; try done. apply split_elem. right. right. exists j. split_and!; try done.
      intros ->. congruence.
Qed.

Lemma split_table_clear x : x ∈ split_table l i r s -> hit x = false.
Proof.
  destruct (parts_spec s split_wf Hs) as (_ & _ & _ & _ & _ & _ & HL & HR & _).
  intros Hx. apply split_elem in Hx as [->|[->|(j & Hji & _ & E)]]; [done|done|]. by apply (split_alone l i s j x).
Qed.
End SplitTable.

Lemma trim_id s : hit s = false -> trim s = s.
Proof. unfold trim. by intros ->. Qed.

Lemma fmap_trim_id (l : list flock_slot) : (forall s, s ∈ l -> hit s = false) -> trim <$> l = l.
Proof.
  intros H. induction l as [|s l IH]; [done|]. rewrite fmap_cons, IH, trim_id; [done|apply H; left|].
  intros x Hx. apply H. by right.
Qed.

Lemma not_hit_not_split s : hit s = false -> splits s = false.
Proof. unfold splits. by intros ->. Qed.

Lemma free_count_full l :
  Z.of_nat (countb (fun s => negb (u8Used s)) l) < 1 -> table_full l.
Proof.
  intros H i s Hi. destruct (u8Used s) eqn:U; [done|].
  pose proof (countb_pos (fun s => negb (u8Used s)) l i s Hi ltac:(simpl; by rewrite U)). lia.
Qed.

(** The rest of the loop once slot [i] has been split into slots [i] and [r]. *)
Lemma wp_carve_after_split i r s l m Q :
  lk_ok l -> l !! i = Some s -> splits s = true ->
  (exists f, l !! r = Some f /\ u8Used f = false) ->
  Q 0 (with_lk (split_table l i r s) m) ->
  wp (carve_loop fd pid u0 u1 (length l - S i) (S i)) Q (with_lk (split_table l i r s) m).
Proof.
  intros Hl Hi Hs (f & Hr & Hf) HQ. pose proof (lookup_lt_Some _ _ _ Hi) as Hlt.
  set (l2 := split_table l i r s) in *.
  assert (length l2 = length l) as Hlen by (unfold l2, split_table; by rewrite !length_insert).
  assert (forall x, x ∈ l2 -> hit x = false) as Hclear by (intros x; by apply (split_table_clear l i r s f)).
  assert (forall x, x ∈ drop (S i) l2 -> hit x = false) as Hclear'.
  { intros x Hx. apply Hclear. rewrite <-(take_drop (S i) l2). apply elem_of_app. by right. }
  replace (S i) with (length (take (S i) l2)) at 2 by (rewrite length_take; lia).
  eapply wp_mono.
  - apply (wp_carve_nosplit _ (take (S i) l2) (drop (S i) l2)); [simpl; by rewrite take_drop| |done|].
    + rewrite length_drop. lia.
    + intros x Hx. by apply not_hit_not_split, Hclear'.
  - intros r' m' [-> ->]. rewrite fmap_trim_id by done. by rewrite take_drop, with_lk_twice.
Qed.

(** The turn of the loop that meets the slot to split. *)
Lemma wp_carve_split i s m Q :
  lk_ok (g_aLk m) -> nl_ok m -> g_aLk m !! i = Some s -> splits s = true ->
  (table_full (g_aLk m) -> Q (- LINUX_ENOLCK) m) ->
  (forall r f, g_aLk m !! r = Some f -> u8Used f = false ->
     Q 0 (with_lk (split_table (g_aLk m) i r s) m)) ->
  wp (carve_loop fd pid u0 u1 (length (g_aLk m) - i) i) Q m.
Proof.
  intros Hl Hn Hi Hs HF HS. pose proof (lookup_lt_Some _ _ _ Hi) as Hlt.
  pose proof Hs as Hs'. apply splits_true in Hs' as (Hh & HL & HR).
  pose proof Hh as Hh'. apply hit_true in Hh' as (Ho & _). pose proof Ho as Ho'. apply own_slot_true in Ho' as (U & _).
  replace (length (g_aLk m) - i)%nat with (S (length (g_aLk m) - S i)) by lia. cbn [carve_loop].
  apply wp_bind, (wp_ld_slot _ s); [done|]. rewrite Ho. unfold hit in Hh. rewrite Ho in Hh. simpl in Hh. rewrite Hh.
  fold (s_end s). rewrite (proj2 (Z.ltb_lt _ _) HL), (proj2 (Z.ltb_lt _ _) HR). cbn [negb andb].
  unfold slot_free_count. wsteps. destruct (Z.of_nat _ <? 1) eqn:Hc.
  { apply Z.ltb_lt in Hc. wsteps. by apply HF, free_count_full. }
  apply Z.ltb_ge in Hc. apply wp_bind, (wp_st_slot _ s); [done..|].
  apply wp_bind, wp_slot_alloc; [done|simpl; rewrite length_insert; apply (lk_len _ Hl)| |].
  2:{ intros Hfull. exfalso. enough (countb (fun s => negb (u8Used s)) (g_aLk m) = 0)%nat by lia.
      apply countb_zero. intros j x Hj. apply negb_false_iff. destruct (decide (j = i)) as [->|Hne]; [congruence|].
      apply (Hfull j). simpl. by rewrite list_lookup_insert_ne. }
  intros r f Hr Uf. simpl in Hr. apply list_lookup_insert_Some in Hr as [(_ & <- & _)|[Hne Hr]].
  { simpl in Uf. congruence. }
  simpl. apply wp_bind. eapply (wp_st_slot _ (with_used true f)); [done| |done|].
  { simpl. apply list_lookup_insert_eq. rewrite length_insert. by eapply lookup_lt_Some. }
  simpl. rewrite !with_lk_twice, list_insert_insert_eq. wsteps.
  fold (left_part s). fold (right_part s). fold (split_table (g_aLk m) i r s).
  apply wp_carve_after_split; eauto.
Qed.

Definition carve_post (l : list flock_slot) (m : fl_mem) (r : Z) (m' : fl_mem) : Prop :=
  (r = 0 /\ exists l', m' = with_lk l' m /\ lk_ok l' /\ carved l l' /\ (lk_canon l -> lk_canon l')) \/
  (r = - LINUX_ENOLCK /\ m' = m /\ table_full l /\ exists s, s ∈ l /\ splits s = true).

Lemma wp_carve m :
  lk_ok (g_aLk m) -> nl_ok m ->
  wp (carve_pid_range fd pid u0 u1) (carve_post (g_aLk m) m) m.
Proof.
  intros Hl Hn. unfold carve_pid_range. rewrite <-(lk_len _ Hl).
  destruct (decide (Exists (fun s => splits s = true) (g_aLk m))) as [He|Hno].
  - apply Exists_exists in He as (s & Hin & Hs). apply list_elem_of_lookup in Hin as [i Hi].
    pose proof (lookup_lt_Some _ _ _ Hi) as Hlt.
    rewrite <-(take_drop i (g_aLk m)) at 1. apply (wp_carve_skip (take i (g_aLk m)) []).
    + by rewrite app_nil_l, take_drop.
    + intros x Hx. apply list_elem_of_lookup in Hx as [j Hj]. apply lookup_take_Some in Hj as [Hj Hji].
      apply (split_alone (g_aLk m) i s j x); auto. lia.
    + rewrite app_nil_l, length_take, Nat.min_l, length_drop by lia. apply (wp_carve_split i s); auto.
      * intros Hf. right. split_and!; auto. exists s. split; [by eapply list_elem_of_lookup_2|done].
      * intros r f Hr Hf. left. split; [done|]. eexists. split; [done|].
        split_and!; [by eapply split_table_ok|by eapply split_table_carved|by eapply split_table_canon].
  - assert (forall s, s ∈ g_aLk m -> splits s = false) as Hns.
    { intros s Hin. apply not_true_is_false. intros Hs. apply Hno, Exists_exists. eauto. }
    eapply wp_mono; [apply (wp_carve_nosplit _ [] (g_aLk m)); auto|].
    intros r m' [-> ->]. left. split; [done|]. eexists. split; [done|].
    split_and!; [by apply lk_ok_fmap_trim|by apply held_fmap_trim|intros; by apply lk_canon_fmap_trim].
Qed.
End Carve.
