(* ===== verification/FileLockCoal.v ===== *)
(** [coalesce_pid] merges touching ranges of one owner and type: the bytes the
    table describes do not change, and the passes end with nothing to merge. *)
From stdpp Require Import base gmap list strings.
From Stdlib Require Import ZArith Lia.
From S2P Require Import Prelude LinuxAbi Thread ThreadProofs FileLock FileLockInv.

Definition same_view (l l' : list flock_slot) : Prop :=
  forall fd pid ty b, held l' fd pid ty b <-> held l fd pid ty b.

#[export] Instance same_view_equiv : Equivalence same_view.
Proof. split; red; unfold same_view; [done|intros; by symmetry|intros x y z H1 H2 *; by rewrite H2, H1]. Qed.

Definition used_count (l : list flock_slot) : nat := countb u8Used l.

(** A range apart from two touching ranges is apart from their union. *)
Lemma union_apart a0 a1 b0 b1 c0 c1 top :
  b0 <= a1 -> a0 <= b1 -> c0 < c1 \/ top <= c0 -> Z.max a1 b1 <= top ->
  a1 <= c0 \/ c1 <= a0 -> b1 <= c0 \/ c1 <= b0 ->
  Z.max a1 b1 <= c0 \/ c1 <= Z.min a0 b0.
Proof. lia. Qed.

Section Coalesce.
Context (fd pid : Z).

Abbreviation own := (own_slot fd pid).

(** Slots of other owners that coalescing would leave alone. *)
Definition separate_others (a b : flock_slot) : Prop :=
  ~ (i64Fd a = fd /\ u32Pid a = pid) -> separate a b.

Lemma separate_others_sym a b : separate_others a b -> separate_others b a.
Proof.
  unfold separate_others. intros H Hn F P T. apply separate_sym; [apply H| | |]; congruence || (intros [? ?]; apply Hn; split; congruence).
Qed.

Definition mergeable (a b : flock_slot) : bool :=
  own a && own b && (i16Type a =? i16Type b) && slots_touch a b.

Lemma touch_true a b : slots_touch a b = true <-> i64Start b <= s_end a /\ i64Start a <= s_end b.
Proof. unfold slots_touch. fold (s_end a) (s_end b). rewrite negb_true_iff, orb_false_iff, !Z.ltb_ge. done. Qed.

Lemma mergeable_true a b :
  mergeable a b = true <-> own a = true /\ own b = true /\ i16Type a = i16Type b /\
    i64Start b <= s_end a /\ i64Start a <= s_end b.
Proof. unfold mergeable. rewrite !andb_true_iff, Z.eqb_eq, touch_true. tauto. Qed.

(** The merged slot has the fields of the first and covers both. *)
Lemma merge_spec a b :
  slot_wf a -> slot_wf b -> mergeable a b = true ->
  own (merge_range a b) = true /\ i16Type (merge_range a b) = i16Type a /\ slot_wf (merge_range a b) /\
  i64Start (merge_range a b) = Z.min (i64Start a) (i64Start b) /\
  s_end (merge_range a b) = Z.max (s_end a) (s_end b).
Proof.
  intros ((? & ? & ? & Wa) & Ta) ((? & ? & ? & Wb) & Tb) Hm.
  apply mergeable_true in Hm as (Oa & Ob & T & Hm1 & Hm2).
  assert (i64Start (merge_range a b) = Z.min (i64Start a) (i64Start b)) as ES.
  { unfold merge_range. simpl. case_match; lia. }
  assert (s_end (merge_range a b) = Z.max (s_end a) (s_end b) /\ -1 <= i64End (merge_range a b)) as [EE EE'].
  { unfold s_end, merge_range, range_norm_end, GJ_FLOCK_EOF in *. simpl. repeat case_match; simpl in *; lia. }
  split_and!; try done. split; [|done]. unfold range_wf. fold (s_end (merge_range a b)).
  rewrite EE, ES. unfold s_end in *. split_and!; try lia.
  destruct Wa as [Wa|[Wa Ea]]; [left; lia|]. destruct Wb as [Wb|[Wb Eb]]; [left; lia|].
  right. split; [lia|]. unfold merge_range. by rewrite Ea.
Qed.

(** The table after slot [j] was merged into slot [i]. *)
Definition merge_table (l : list flock_slot) (i j : nat) (a b : flock_slot) : list flock_slot :=
  <[j := with_used false b]> (<[i := merge_range a b]> l).

Section Merge.
Context (l : list flock_slot) (i j : nat) (a b : flock_slot).
Context (Hl : lk_ok l) (Hij : i <> j) (Hi : l !! i = Some a) (Hj : l !! j = Some b)
  (Hm : mergeable a b = true).

Local Lemma merge_uses : u8Used a = true /\ i64Fd a = fd /\ u32Pid a = pid /\
  u8Used b = true /\ i64Fd b = fd /\ u32Pid b = pid /\ i16Type a = i16Type b.
Proof.
  apply mergeable_true in Hm as (Oa & Ob & T & _). apply own_slot_true in Oa, Ob. tauto.
Qed.

Local Lemma merge_wfs : slot_wf a /\ slot_wf b.
Proof.
  destruct merge_uses as (Ua & _ & _ & Ub & _).
  split; apply (lk_wf l Hl); (by eapply list_elem_of_lookup_2) || done.
Qed.

Local Lemma merge_lookup_ne k : k <> i -> k <> j -> merge_table l i j a b !! k = l !! k.
Proof. intros. unfold merge_table. by rewrite !list_lookup_insert_ne by done. Qed.

Local Lemma merge_used_cases k x :
  merge_table l i j a b !! k = Some x -> u8Used x = true ->
  (k = i /\ x = merge_range a b) \/ (k <> i /\ k <> j /\ l !! k = Some x).
Proof.
  intros E U. apply list_lookup_insert_Some in E as [(_ & <- & _)|[Hk E]]; [done|].
  apply list_lookup_insert_Some in E as [(-> & <- & _)|[Hk' E]]; [by left|by right].
Qed.

(** A relation that the merged slot inherits holds in the merged table. *)
Lemma merge_pairwise R :
  (forall x y, R x y -> R y x) ->
  (forall k c, k <> i -> k <> j -> l !! k = Some c -> u8Used c = true -> R (merge_range a b) c) ->
  pairwise R l -> pairwise R (merge_table l i j a b).
Proof.
  intros Rsym HR H x y p q Hne Ex Ey Up Uq.
  destruct (merge_used_cases x p Ex Up) as [[-> ->]|(? & ? & Lx)];
    destruct (merge_used_cases y q Ey Uq) as [[-> ->]|(? & ? & Ly)]; [done|by apply (HR y)|by apply Rsym, (HR x)|].
  by apply (H x y).
Qed.

Lemma merge_ok : lk_ok (merge_table l i j a b).
Proof.
  destruct merge_uses as (Ua & Fa & Pa & Ub & Fb & Pb & T). destruct merge_wfs as [Wa Wb].
  destruct (merge_spec a b Wa Wb Hm) as (Om & Tm & Wm & Sm & Em).
  apply own_slot_true in Om as (Um & Fm & Pm). apply mergeable_true in Hm as (_ & _ & _ & H1 & H2). split.
  - unfold merge_table. rewrite !length_insert. apply (lk_len l Hl).
  - intros x Hx U. apply list_elem_of_lookup in Hx as [k Hk].
    destruct (merge_used_cases k x Hk U) as [[-> ->]|(? & ? & Lk)]; [done|].
    apply (lk_wf l Hl); [by eapply list_elem_of_lookup_2|done].
  - apply merge_pairwise; [apply compat_sym| |apply (lk_compat l Hl)].
    intros k c Hki Hkj Hk Uc. pose proof (lk_compat l Hl i k a c (not_eq_sym Hki) Hi Hk Ua Uc) as Ca.
    pose proof (lk_compat l Hl j k b c (not_eq_sym Hkj) Hj Hk Ub Uc) as Cb.
    pose proof (lk_wf l Hl c (list_elem_of_lookup_2 _ _ _ Hk) Uc) as ((? & ? & ? & Wc) & _).
    destruct Wm as ((? & Bm & ? & _) & _). fold (s_end c) in *. fold (s_end (merge_range a b)) in Bm.
    assert (i64Start c < s_end c \/ I64_MAX <= i64Start c) as Wc' by (destruct Wc as [?|[-> _]]; [by left|right; lia]).
    unfold compat, apart in *. rewrite Fm, Pm, Tm, Sm, Em in *. rewrite Fa, Pa in Ca. rewrite Fb, Pb, <-T in Cb.
    intros F. destruct (Ca F) as [A1 A2], (Cb F) as [B1 B2].
    pose proof (union_apart _ _ _ _ (i64Start c) (s_end c) I64_MAX H1 H2 Wc' Bm) as HU.
    split; intros P; [by apply HU; [apply A1|apply B1]|].
    destruct (A2 P) as [A|A], (B2 P) as [B|B]; try (right; exact A); try (right; exact B). left. by apply HU.
Qed.

Lemma merge_others : pairwise separate_others l -> pairwise separate_others (merge_table l i j a b).
Proof.
  destruct merge_wfs as [Wa Wb]. destruct (merge_spec a b Wa Wb Hm) as (Om & _).
  apply own_slot_true in Om as (_ & Fm & Pm). apply merge_pairwise; [apply separate_others_sym|].
  intros k c _ _ _ _ Hn. by destruct Hn.
Qed.

Lemma merge_view : same_view l (merge_table l i j a b).
Proof.
  destruct merge_uses as (Ua & Fa & Pa & Ub & Fb & Pb & T). destruct merge_wfs as [Wa Wb].
  destruct (merge_spec a b Wa Wb Hm) as (Om & Tm & Wm & Sm & Em).
  apply own_slot_true in Om as (Um & Fm & Pm). pose proof Hm as Hm'. apply mergeable_true in Hm' as (_ & _ & _ & H1 & H2).
  intros f p ty x. split.
  - intros (s & Hs & U & F & P & Ts & C). apply list_elem_of_lookup in Hs as [k Hk].
    destruct (merge_used_cases k s Hk U) as [[-> ->]|(? & ? & Lk)].
    + unfold covers in C. rewrite Sm, Em in C.
      assert (covers a x \/ covers b x) as [Cx|Cx] by (unfold covers; lia);
        [exists a|exists b]; split_and!; try congruence; try done; by eapply list_elem_of_lookup_2.
    + exists s. split_and!; try done. by eapply list_elem_of_lookup_2.
  - intros (s & Hs & U & F & P & Ts & C). apply list_elem_of_lookup in Hs as [k Hk].
    assert (merge_table l i j a b !! i = Some (merge_range a b)) as Ei.
    { unfold merge_table. rewrite list_lookup_insert_ne by done. apply list_lookup_insert_eq. by eapply lookup_lt_Some. }
    assert (k = i \/ k = j \/ (k <> i /\ k <> j)) as [->|[->|[? ?]]] by lia.
    + assert (s = a) as -> by congruence. exists (merge_range a b). unfold covers in *. rewrite Sm, Em.
      split_and!; try congruence; try lia. by eapply list_elem_of_lookup_2.
    + assert (s = b) as -> by congruence. exists (merge_range a b). unfold covers in *. rewrite Sm, Em.
      split_and!; try congruence; try lia. by eapply list_elem_of_lookup_2.
    + exists s. split_and!; try done. apply (list_elem_of_lookup_2 _ k). by rewrite merge_lookup_ne.
Qed.

Lemma merge_count : (countb u8Used (merge_table l i j a b) < countb u8Used l)%nat.
Proof.
  destruct merge_uses as (Ua & _ & _ & Ub & _). destruct merge_wfs as [Wa Wb].
  destruct (merge_spec a b Wa Wb Hm) as (Om & _). apply own_slot_true in Om as (Um & _).
  pose proof (countb_update u8Used l i (merge_range a b) a Hi) as C1. rewrite Ua, Um in C1.
  pose proof (countb_update u8Used (<[i := merge_range a b]> l) j (with_used false b) b) as C2.
  rewrite Ub in C2. simpl in C1, C2. unfold merge_table.
  rewrite list_lookup_insert_ne in C2 by done. specialize (C2 Hj). lia.
Qed.
End Merge.

(** What a run of merges from table [l] leaves. *)
Definition coal_ok (l l' : list flock_slot) : Prop :=
  lk_ok l' /\ same_view l l' /\ (pairwise separate_others l -> pairwise separate_others l').

Lemma coal_ok_refl l : lk_ok l -> coal_ok l l.
Proof. intros H. split_and!; done. Qed.

Lemma coal_ok_trans l1 l2 l3 : coal_ok l1 l2 -> coal_ok l2 l3 -> coal_ok l1 l3.
Proof. intros (A1 & A2 & A3) (B1 & B2 & B3). split_and!; auto. by etransitivity. Qed.

Lemma coal_ok_merge l i j a b :
  lk_ok l -> i <> j -> l !! i = Some a -> l !! j = Some b -> mergeable a b = true ->
  coal_ok l (merge_table l i j a b).
Proof. intros. split_and!; [by apply merge_ok|by apply merge_view|intros; by apply merge_others]. Qed.

(** No slot of [l] from [jB] on can be merged into slot [iA]. *)
Definition settled (l : list flock_slot) (iA jB : nat) : Prop :=
  forall j a b, (jB <= j)%nat -> l !! iA = Some a -> l !! j = Some b -> mergeable a b = false.

Definition inner_post (iA : nat) (iB : nat) (p : bool) (m : fl_mem) (p' : bool) (m' : fl_mem) : Prop :=
  exists l', m' = with_lk l' m /\ coal_ok (g_aLk m) l' /\
    (exists a, l' !! iA = Some a /\ own a = true) /\
    ((p' = p /\ l' = g_aLk m /\ settled l' iA iB) \/
     (p' = true /\ (used_count l' < used_count (g_aLk m))%nat)).

Lemma wp_coalesce_inner iA k : forall iB p m,
  lk_ok (g_aLk m) -> nl_ok m -> (iA < iB)%nat -> (iB + k = length (g_aLk m))%nat ->
  (exists a, g_aLk m !! iA = Some a /\ own a = true) ->
  wp (coalesce_inner fd pid iA k iB p) (inner_post iA iB p m) m.
Proof.
  induction k as [|k IH]; intros iB p m Hl Hn Hlt Hk (a & Ha & Oa); cbn [coalesce_inner].
  { wsteps. exists (g_aLk m). rewrite with_lk_id by done. split_and!; eauto using coal_ok_refl.
    left. split_and!; try done. intros j x y Hj _ E. apply lookup_lt_Some in E. lia. }
  destruct (lookup_lt_is_Some_2 (g_aLk m) iB) as [b Hb]; [lia|].
  apply wp_bind, (wp_ld_slot _ b); [done|].
  assert (mergeable a b = false -> wp (coalesce_inner fd pid iA k (S iB) p) (inner_post iA iB p m) m) as Hskip.
  { intros Hno. eapply wp_mono; [apply IH; eauto; lia|].
    intros p' m' (l' & -> & Hc & Ho & H). exists l'. split_and!; auto.
    destruct H as [(-> & -> & Hs)|H]; [left|by right]. split_and!; auto.
    intros j x y Hj Ex Ey. destruct (decide (j = iB)) as [->|]; [|apply (Hs j); auto; lia].
    rewrite Ha in Ex. rewrite Hb in Ey. congruence. }
  destruct (own b) eqn:Ob; cbn [negb].
  2:{ apply Hskip. unfold mergeable. by rewrite Ob, andb_false_r. }
  apply wp_bind, (wp_ld_slot _ a); [done|].
  destruct (i16Type a =? i16Type b) eqn:T; cbn [negb].
  2:{ apply Hskip. unfold mergeable. by rewrite T, andb_false_r. }
  destruct (slots_touch a b) eqn:Ht; cbn [negb].
  2:{ apply Hskip. unfold mergeable. by rewrite Ht, andb_false_r. }
  assert (mergeable a b = true) as Hm by (unfold mergeable; by rewrite Oa, Ob, T, Ht).
  pose proof Oa as Oa'. apply own_slot_true in Oa' as (Ua & _).
  apply wp_bind, (wp_st_slot _ a); [done..|].
  apply wp_bind, (wp_slot_free _ b); [done|simpl; by rewrite list_lookup_insert_ne by lia|].
  simpl. rewrite with_lk_twice. fold (merge_table (g_aLk m) iA iB a b). wsteps.
  pose proof (coal_ok_merge (g_aLk m) iA iB a b Hl ltac:(lia) Ha Hb Hm) as Hc1.
  eapply wp_mono.
  { apply (IH (S iB) true); simpl; [apply Hc1|done|lia|unfold merge_table; rewrite !length_insert; lia|].
    exists (merge_range a b). unfold merge_table. rewrite list_lookup_insert_ne by lia.
    rewrite list_lookup_insert_eq by lia. split; [done|].
    by destruct (merge_spec a b (proj1 (merge_wfs (g_aLk m) iA iB a b Hl Ha Hb Hm))
                  (proj2 (merge_wfs (g_aLk m) iA iB a b Hl Ha Hb Hm)) Hm). }
  intros p' m' (l' & -> & Hc & Ho & H). exists l'. simpl in *.
  pose proof (merge_count (g_aLk m) iA iB a b Hl ltac:(lia) Ha Hb Hm) as Hcnt. unfold used_count in *.
  split_and!; [done|by eapply coal_ok_trans|done|right].
  destruct H as [(-> & -> & _)|[-> H]]; (split; [done|lia]).
Qed.

(** All pairs of slots from [i] on are settled. *)
Definition settled_from (l : list flock_slot) (i : nat) : Prop :=
  forall iA, (i <= iA)%nat -> settled l iA (S iA).

Definition pass_post (i : nat) (p : bool) (m : fl_mem) (p' : bool) (m' : fl_mem) : Prop :=
  exists l', m' = with_lk l' m /\ coal_ok (g_aLk m) l' /\
    ((p' = p /\ l' = g_aLk m /\ settled_from l' i) \/
     (p' = true /\ (1 <= used_count l' < used_count (g_aLk m))%nat)).

Lemma pass_post_step i p m p1 m1 p' m' :
  (exists l1, m1 = with_lk l1 m /\ coal_ok (g_aLk m) l1 /\
     ((p1 = p /\ l1 = g_aLk m /\ settled l1 i (S i)) \/
      (p1 = true /\ (1 <= used_count l1 < used_count (g_aLk m))%nat))) ->
  pass_post (S i) p1 m1 p' m' -> pass_post i p m p' m'.
Proof.
  intros (l1 & -> & Hc1 & H1) (l' & -> & Hc & H). exists l'. simpl in *.
  split_and!; [done|by eapply coal_ok_trans|].
  destruct H as [(-> & -> & Hs)|[-> H]], H1 as [(-> & -> & Hs1)|[-> H1]]; [left|right; split; [done|lia]..].
  split_and!; auto. intros iA HiA. destruct (decide (iA = i)) as [->|]; [done|]. apply Hs. lia.
Qed.

Lemma wp_coalesce_pass k : forall i p m,
  lk_ok (g_aLk m) -> nl_ok m -> (i + k = length (g_aLk m))%nat ->
  wp (coalesce_pass fd pid k i p) (pass_post i p m) m.
Proof.
  induction k as [|k IH]; intros i p m Hl Hn Hk; cbn [coalesce_pass].
  { wsteps. exists (g_aLk m). rewrite with_lk_id by done. split_and!; auto using coal_ok_refl.
    left. split_and!; auto. intros iA HiA j a b _ E. apply lookup_lt_Some in E. lia. }
  destruct (lookup_lt_is_Some_2 (g_aLk m) i) as [a Ha]; [lia|].
  apply wp_bind, (wp_ld_slot _ a); [done|]. destruct (own a) eqn:Oa; cbn [negb].
  2:{ eapply wp_mono; [apply IH; auto; lia|]. intros p' m' H. eapply pass_post_step; [|exact H].
      exists (g_aLk m). rewrite with_lk_id by done. split_and!; auto using coal_ok_refl. left. split_and!; auto.
      intros j x y _ Ex _. rewrite Ha in Ex. injection Ex as <-. unfold mergeable. by rewrite Oa. }
  apply wp_bind. eapply wp_mono; [apply (wp_coalesce_inner i k (S i) p m); eauto; lia|].
  intros p1 m1 (l1 & -> & Hc1 & (a1 & Ha1 & Oa1) & H1).
  eapply wp_mono; [apply IH; [apply Hc1|done|simpl; rewrite (lk_len l1) by apply Hc1; rewrite (lk_len _ Hl) in Hk; lia]|].
  intros p' m' H. eapply pass_post_step; [|exact H]. exists l1. split_and!; auto.
  apply own_slot_true in Oa1 as (Ua1 & _). pose proof (countb_pos u8Used _ _ _ Ha1 Ua1).
  unfold used_count in *. destruct H1 as [H1|[-> H1]]; [by left|right]. split; [done|lia].
Qed.

(** A table with nothing to merge for this owner is canonical. *)
Lemma settled_canon l :
  lk_ok l -> pairwise separate_others l -> settled_from l 0 -> lk_canon l.
Proof.
  intros Hl Ho Hs i j a b Hne Ha Hb Ua Ub F P T.
  destruct (decide (i64Fd a = fd /\ u32Pid a = pid)) as [[Fa Pa]|Hn]; [|by apply (Ho i j a b)].
  assert (forall x y cx cy, (x < y)%nat -> l !! x = Some cx -> l !! y = Some cy ->
    u8Used cx = true -> u8Used cy = true -> i64Fd cx = fd -> u32Pid cx = pid -> i64Fd cy = fd -> u32Pid cy = pid ->
    i16Type cx = i16Type cy -> gap cx cy) as Hgap.
  { intros x y cx cy Hxy Ex Ey Ux Uy Fx Px Fy Py Txy.
    assert (mergeable cx cy = false) as Hm by (apply (Hs x ltac:(lia) y); auto; lia).
    destruct (decide (gap cx cy)) as [|Hg]; [done|]. exfalso. apply not_true_iff_false in Hm. apply Hm.
    apply mergeable_true. split_and!; try (by apply own_slot_true); try done; unfold gap in Hg; lia. }
  destruct (decide (i < j)%nat); [apply (Hgap i j); auto; congruence|].
  assert (gap b a) by (apply (Hgap j i); auto; (lia || congruence)). unfold gap in *. tauto.
Qed.

Definition coal_post (m : fl_mem) (m' : fl_mem) : Prop :=
  exists l', m' = with_lk l' m /\ coal_ok (g_aLk m) l' /\
    (pairwise separate_others (g_aLk m) -> lk_canon l').

Lemma wp_coalesce_loop k : forall pass m,
  lk_ok (g_aLk m) -> nl_ok m -> (used_count (g_aLk m) <= k)%nat ->
  wp (coalesce_loop fd pid k pass) (fun _ m' => coal_post m m') m.
Proof.
  induction k as [|k IH]; intros pass m Hl Hn Hk; cbn [coalesce_loop].
  { wsteps. exists (g_aLk m). rewrite with_lk_id by done. split_and!; auto using coal_ok_refl.
    intros _ i j a b _ Ha _ Ua. pose proof (countb_pos u8Used _ _ _ Ha Ua). unfold used_count in Hk. lia. }
  wsteps. eapply wp_mono; [apply (wp_coalesce_pass GJ_FLOCK_MAX 0 false m Hl Hn); by rewrite (lk_len _ Hl)|].
  intros p m1 (l1 & -> & Hc & H). destruct H as [(-> & -> & Hs)|[-> H]]; cbn [negb].
  { wsteps. exists (g_aLk m). split_and!; auto. intros Ho. by apply settled_canon. }
  wstep. eapply (wp_mono _ (fun _ m' => m' = with_lk l1 m)); [case_match; wsteps; done|]. intros [] m1 ->.
  eapply wp_mono; [apply IH; [apply Hc|done|simpl; lia]|].
  intros [] m' (l' & -> & Hc' & Hcan). exists l'. simpl in *. split_and!; [done|by eapply coal_ok_trans|].
  intros Ho. apply Hcan. by apply Hc.
Qed.

Lemma wp_coalesce_pid m :
  lk_ok (g_aLk m) -> nl_ok m -> wp (coalesce_pid fd pid) (fun _ m' => coal_post m m') m.
Proof.
  intros Hl Hn. apply wp_coalesce_loop; auto. rewrite <-(lk_len _ Hl). apply countb_length.
Qed.
End Coalesce.
