(* ===== verification/FileLockOps.v ===== *)
(** The operations of [file_lock.c] over the byte view: conflict detection,
    granting, blocking, unlocking, probing and release, each with the invariant
    [fl_ok] it preserves. *)
From stdpp Require Import base gmap list strings.
From Stdlib Require Import ZArith Lia.
From S2P Require Import Prelude LinuxAbi Thread ThreadProofs FileLock FileLockInv FileLockCoal.

Record fl_ok (m : fl_mem) : Prop := {
  fl_lk : lk_ok (g_aLk m);
  fl_canon : lk_canon (g_aLk m);
  fl_nl : nl_ok m;
  fl_wlen : length (g_aWait m) = GJ_FLOCK_MAX_WAITERS;
  fl_nw : g_u32NWaiters m = Z.of_nat (countb w_u8Used (g_aWait m));
  fl_threads : length (g_aThreads (fl_thr m)) = GJ_MAX_THREADS }.

(** The self-check agrees with the invariant. *)
Lemma fl_ok_lean m : fl_ok m -> lean_ok m = true.
Proof.
  intros [Hl _ Hn Hw Hnw _]. unfold lean_ok, lean_live. rewrite Hn, Hnw, !Z.eqb_refl.
  pose proof (countb_length u8Used (g_aLk m)) as B. rewrite (lk_len _ Hl) in B.
  pose proof (countb_length w_u8Used (g_aWait m)) as B'. rewrite Hw in B'.
  rewrite !(proj2 (Z.leb_le _ _)) by (unfold GJ_FLOCK_MAX, GJ_FLOCK_MAX_WAITERS in *; lia). done.
Qed.

(** ** Steps that leave the lock tables alone *)
Lemma wp_lean_once Q m : Q tt m -> wp soft_residual_lean_once Q m.
Proof.
  intros H. unfold soft_residual_lean_once. apply wp_bind, wp_tel. intros t.
  case_match; wsteps; [done|]. case_match; wsteps; done.
Qed.

Lemma wp_inventory_log Q m : Q tt m -> wp soft_inventory_log Q m.
Proof. intros H. unfold soft_inventory_log. apply wp_bind, wp_tel. intros t. case_match; wsteps; done. Qed.

Lemma wp_inventory Q m : Q tt m -> wp soft_inventory_maybe_once Q m.
Proof.
  intros H. unfold soft_inventory_maybe_once. apply wp_bind, wp_tel. intros t.
  case_match; wsteps; [done|]. case_match; wsteps; [done|].
  apply wp_inventory_log, wp_lean_once, H.
Qed.

Lemma wp_deny b Q m : Q tt m -> wp (soft_deny_note b) Q m.
Proof. intros H. unfold soft_deny_note. wsteps. destruct b; wsteps; done. Qed.

Lemma wp_conflict fd ty s e pid Q m :
  Q (conflict_scan fd ty s e pid (g_aLk m) None) m -> wp (conflict fd ty s e pid) Q m.
Proof. intros H. unfold conflict. wsteps. case_match; wsteps; done. Qed.

Definition fl_threads_woken (t : thr_mem) : thr_mem :=
  set_threads (wake_ref g_u32WaitObj_addr GJ_FLOCK_TAG_WAITER GJ_FLOCK_SOFT_WAKE_MAX 0 (g_aThreads t)) t.

#[local] Arguments fl_threads_woken : simpl never.

Lemma wp_soft_wake Q m :
  length (g_aThreads (fl_thr m)) = GJ_MAX_THREADS ->
  Q (Z.min GJ_FLOCK_SOFT_WAKE_MAX (waiting g_u32WaitObj_addr GJ_FLOCK_TAG_WAITER (g_aThreads (fl_thr m))))
    (set_fl_thr (fl_threads_woken (fl_thr m)) m) ->
  wp soft_wake_waiters Q m.
Proof.
  intros Hlen H. unfold soft_wake_waiters. apply wp_bind, wp_on_threads.
  apply wp_thread_wake; [done|done|]. simpl. wsteps. case_match; wsteps; done.
Qed.

Lemma fl_ok_thr t m : fl_ok m -> length (g_aThreads t) = GJ_MAX_THREADS -> fl_ok (set_fl_thr t m).
Proof. intros [] Ht. by split. Qed.

Lemma fl_ok_gen n m : fl_ok m -> fl_ok (set_wake_gen n m).
Proof. intros []. by split. Qed.

Lemma fl_threads_woken_length t :
  length (g_aThreads (fl_threads_woken t)) = length (g_aThreads t).
Proof. apply wake_ref_length. Qed.

Lemma wp_gen_bump Q m : Q tt (set_wake_gen (u32_wrap (g_u32WakeGen m + 1)) m) -> wp wake_gen_bump Q m.
Proof. intros H. unfold wake_gen_bump. wsteps. done. Qed.

(** ** Waiters *)

(** Memories that differ in the waiter table only. *)
Definition same_but_waiters (m m' : fl_mem) : Prop :=
  fl_ok m' /\ g_aLk m' = g_aLk m /\ g_u32WakeGen m' = g_u32WakeGen m /\ fl_thr m' = fl_thr m.

Lemma same_but_waiters_refl m : fl_ok m -> same_but_waiters m m.
Proof. intros Hm. unfold same_but_waiters. by split_and!. Qed.

Lemma fl_ok_wait l n m :
  fl_ok m -> length l = GJ_FLOCK_MAX_WAITERS -> n = Z.of_nat (countb w_u8Used l) ->
  same_but_waiters m (set_nwaiters n (set_wait l m)).
Proof. intros [] Hl Hn. unfold same_but_waiters. by split_and!. Qed.

Lemma wp_drop_waiter i w Q m :
  fl_ok m -> g_aWait m !! i = Some w -> w_u8Used w = true ->
  (forall m', same_but_waiters m m' -> g_aWait m' = <[i := with_w_used false w]> (g_aWait m) -> Q tt m') ->
  wp (drop_waiter i w) Q m.
Proof.
  intros Hm Hi U H. unfold drop_waiter. wsteps.
  pose proof (countb_update w_u8Used (g_aWait m) i (with_w_used false w) w Hi) as C. rewrite U in C. simpl in C.
  assert (0 < countb w_u8Used (g_aWait m))%nat by (by eapply countb_pos). simpl. rewrite (fl_nw m Hm).
  rewrite (proj2 (Z.ltb_lt _ _)) by lia. wsteps. apply H; [|done].
  apply fl_ok_wait; [done|rewrite length_insert; apply (fl_wlen m Hm)|]. lia.
Qed.

Lemma wp_unregister n Q m :
  fl_ok m -> (forall m', same_but_waiters m m' -> Q tt m') -> wp (waiter_unregister n) Q m.
Proof.
  intros Hm H. unfold waiter_unregister. destruct (waiter_in_range n) eqn:R; cbn [negb].
  2:{ wsteps. by apply H, same_but_waiters_refl. }
  unfold waiter_in_range in R. apply andb_prop in R as [R1 R2]. apply Z.leb_le in R1. apply Z.ltb_lt in R2.
  destruct (lookup_lt_is_Some_2 (g_aWait m) (Z.to_nat n)) as [w Hw]; [rewrite (fl_wlen m Hm); lia|].
  wsteps. rewrite Hw. destruct (w_u8Used w) eqn:U; cbn [negb].
  - wsteps. apply (wp_drop_waiter _ w); [done..|]. intros m' Hm' _. wsteps. by apply H.
  - wsteps. by apply H, same_but_waiters_refl.
Qed.

Lemma wp_unregister_if r n Q m :
  fl_ok m -> (forall m', same_but_waiters m m' -> Q tt m') -> wp (unregister_if r n) Q m.
Proof.
  intros Hm H. unfold unregister_if. destruct r; [by apply wp_unregister|].
  wsteps. by apply H, same_but_waiters_refl.
Qed.

Lemma wp_update_blocker n b Q m :
  fl_ok m -> (forall m', same_but_waiters m m' -> Q tt m') -> wp (waiter_update_blocker n b) Q m.
Proof.
  intros Hm H. unfold waiter_update_blocker. destruct (waiter_in_range n) eqn:R; cbn [negb].
  2:{ wsteps. by apply H, same_but_waiters_refl. }
  unfold waiter_in_range in R. apply andb_prop in R as [R1 R2]. apply Z.leb_le in R1. apply Z.ltb_lt in R2.
  destruct (lookup_lt_is_Some_2 (g_aWait m) (Z.to_nat n)) as [w Hw]; [rewrite (fl_wlen m Hm); lia|].
  wsteps. rewrite Hw. destruct (w_u8Used w) eqn:U; cbn [negb]; wsteps.
  2:{ by apply H, same_but_waiters_refl. }
  apply H. set (w' := MkWaiter _ _ _ _ _ _ _ _).
  pose proof (countb_update w_u8Used (g_aWait m) (Z.to_nat n) w' w Hw) as C. rewrite U in C. simpl in C.
  replace (set_wait _ m) with (set_nwaiters (g_u32NWaiters m) (set_wait (<[Z.to_nat n := w']> (g_aWait m)) m)) by done.
  apply fl_ok_wait; [done|rewrite length_insert; apply (fl_wlen m Hm)|]. rewrite (fl_nw m Hm). lia.
Qed.

Lemma wp_register fd ty s e pid b Q m :
  fl_ok m -> (forall n m', same_but_waiters m m' -> Q n m') ->
  wp (waiter_register fd ty s e pid b) Q m.
Proof.
  intros Hm H. unfold waiter_register. wsteps. destruct (find_from _ 0 (g_aWait m)) as [i|] eqn:E.
  2:{ wsteps. by apply H, same_but_waiters_refl. }
  apply find_from_Some in E as (j & w & -> & Hj & U & _). simpl. apply negb_true_iff in U.
  wsteps. unfold soft_wait_peak_note. wsteps. apply H. simpl.
  set (w' := MkWaiter _ _ _ _ _ _ _ _).
  pose proof (countb_update w_u8Used (g_aWait m) j w' w Hj) as C. rewrite U in C. simpl in C.
  pose proof (countb_length w_u8Used (<[j := w']> (g_aWait m))) as B.
  rewrite length_insert, (fl_wlen m Hm) in B. unfold GJ_FLOCK_MAX_WAITERS in B.
  apply fl_ok_wait; [done|rewrite length_insert; apply (fl_wlen m Hm)|].
  rewrite (fl_nw m Hm). unfold u32_wrap. rewrite Z.mod_small by lia. lia.
Qed.

Lemma wp_soft_deadlock self b Q m : (forall d, Q d m) -> wp (soft_deadlock self b) Q m.
Proof.
  intros H. unfold soft_deadlock. wsteps. case_match; wsteps; [done|]. case_match; wsteps; [done|].
  case_match; wsteps; done.
Qed.

(** ** Conflicts *)

(** [h] is reported in preference to [s]. *)
Definition reported_before (h s : flock_slot) : Prop :=
  i64Start h < i64Start s \/
  (i64Start h = i64Start s /\ (i16Type h = GJ_F_WRLCK \/ i16Type s <> GJ_F_WRLCK)).

Lemma hit_better_true s b : hit_better s b = true <->
  i64Start s < i64Start b \/
  (i64Start s = i64Start b /\ i16Type s = GJ_F_WRLCK /\ i16Type b <> GJ_F_WRLCK).
Proof.
  unfold hit_better. rewrite orb_true_iff, !andb_true_iff, negb_true_iff, Z.ltb_lt, !Z.eqb_eq, Z.eqb_neq. tauto.
Qed.

Lemma reported_before_refl h : reported_before h h.
Proof. right. split; [done|]. destruct (Z.eq_dec (i16Type h) GJ_F_WRLCK); auto. Qed.

Section Scan.
Context (fd ty s0 e0 pid : Z).
Abbreviation cf := (slot_conflicts fd ty s0 e0 pid).
Abbreviation scan := (conflict_scan fd ty s0 e0 pid).

Lemma conflict_scan_best l : forall b,
  exists h, scan l (Some b) = Some h /\ (h = b \/ (h ∈ l /\ cf h = true)) /\
    reported_before h b /\ forall x, x ∈ l -> cf x = true -> reported_before h x.
Proof.
  induction l as [|s l IH]; intros b; cbn [conflict_scan].
  { exists b. split_and!; auto using reported_before_refl. intros x Hx. by apply elem_of_nil in Hx. }
  destruct (cf s) eqn:Cs.
  2:{ destruct (IH b) as (h & E & Hh & Hb & Hx). exists h. split_and!; auto.
      - destruct Hh as [|[? ?]]; [by left|right; split; [by right|done]].
      - intros x Hin Cx. apply elem_of_cons in Hin as [->|Hin]; [congruence|auto]. }
  destruct (hit_better s b) eqn:Hsb.
  - destruct (IH s) as (h & E & Hh & Hb & Hx). exists h. apply hit_better_true in Hsb. split_and!; auto.
    + right. destruct Hh as [->|[? ?]]; (split; [|done]); [by left|by right].
    + unfold reported_before in *. lia.
    + intros x Hin Cx. apply elem_of_cons in Hin as [->|Hin]; auto.
  - destruct (IH b) as (h & E & Hh & Hb & Hx). exists h. apply not_true_iff_false in Hsb.
    rewrite hit_better_true in Hsb. split_and!; auto.
    + destruct Hh as [|[? ?]]; [by left|right; split; [by right|done]].
    + intros x Hin Cx. apply elem_of_cons in Hin as [->|Hin]; [|auto].
      unfold reported_before in *. destruct (Z.eq_dec (i16Type b) GJ_F_WRLCK), (Z.eq_dec (i16Type s) GJ_F_WRLCK); lia.
Qed.

(** The scan finds a conflicting slot exactly when there is one, and reports the
    lowest start, a write lock before a read lock. *)
Lemma conflict_scan_spec l :
  match scan l None with
  | None => forall x, x ∈ l -> cf x = false
  | Some h => h ∈ l /\ cf h = true /\ forall x, x ∈ l -> cf x = true -> reported_before h x
  end.
Proof.
  induction l as [|s l IH]; cbn [conflict_scan].
  { intros x Hx. by apply elem_of_nil in Hx. }
  destruct (cf s) eqn:Cs.
  - destruct (conflict_scan_best l s) as (h & -> & Hh & Hb & Hx). split_and!.
    + destruct Hh as [->|[? ?]]; [by left|by right].
    + destruct Hh as [->|[? ?]]; done.
    + intros x Hin Cx. apply elem_of_cons in Hin as [->|Hin]; auto.
  - destruct (scan l None) as [h|].
    + destruct IH as (Hin & Ch & Hx). split_and!; [by right|done|].
      intros x Hx' Cx. apply elem_of_cons in Hx' as [->|Hx']; [congruence|auto].
    + intros x Hx'. apply elem_of_cons in Hx' as [->|Hx']; auto.
Qed.
End Scan.

Lemma slot_conflicts_true fd ty s e pid x :
  slot_conflicts fd ty s e pid x = true <->
  u8Used x = true /\ i64Fd x = fd /\ u32Pid x <> pid /\ (s < s_end x /\ i64Start x < range_norm_end e) /\
  types_conflict ty (i16Type x) = true.
Proof.
  unfold slot_conflicts, ranges_overlap.
  rewrite !andb_true_iff, negb_true_iff, !Z.eqb_eq, Z.eqb_neq, !Z.ltb_lt. fold (s_end x). tauto.
Qed.

(** Another process has an incompatible lock on byte [b]. *)
Definition byte_conflict (l : list flock_slot) (fd ty pid b : Z) : Prop :=
  exists p' ty', p' <> pid /\ held l fd p' ty' b /\ types_conflict ty ty' = true.

(** A conflicting slot is a conflict on some byte of the range, and back. *)
Lemma conflict_byte l fd ty s e pid :
  lk_ok l -> range_wf s e ->
  (exists x, x ∈ l /\ slot_conflicts fd ty s e pid x = true) <->
  (exists b, s <= b < range_norm_end e /\ byte_conflict l fd ty pid b).
Proof.
  intros Hl Hr. split.
  - intros (x & Hin & C). apply slot_conflicts_true in C as (U & F & P & [H1 H2] & T).
    destruct (overlap_byte x s e (lk_wf l Hl x Hin U) Hr) as [[?|?]|(b & Cb & Hb)]; [lia..|].
    exists b. split; [done|]. exists (u32Pid x), (i16Type x). split_and!; try done. exists x. by split_and!.
  - intros (b & Hb & p' & ty' & Hp & (x & Hin & U & F & P & T & C) & TC). exists x. split; [done|].
    unfold covers in C. apply slot_conflicts_true. subst. split_and!; auto; lia.
Qed.

(** ** Inserting the new range *)
Definition lock_view (fd pid ty s e : Z) (l l' : list flock_slot) : Prop :=
  forall f p t b, held l' f p t b <->
    (in_range fd pid s e f p b /\ t = ty) \/ (held l f p t b /\ ~ in_range fd pid s e f p b).

Section Insert.
Context (fd ty s e pid : Z) (Hr : range_wf s e) (Hty : ty = GJ_F_RDLCK \/ ty = GJ_F_WRLCK).
Context (l : list flock_slot) (i : nat) (f : flock_slot).
Context (Hl : lk_ok l) (Hi : l !! i = Some f) (Hf : u8Used f = false).
Context (Hown : forall t b, s <= b < range_norm_end e -> ~ held l fd pid t b).
Context (Hno : forall b, s <= b < range_norm_end e -> ~ byte_conflict l fd ty pid b).

Definition new_slot : flock_slot := MkSlot true fd ty s e pid.

Local Lemma new_compat j x : j <> i -> l !! j = Some x -> u8Used x = true -> compat new_slot x.
Proof.
  intros Hj Hx U. pose proof (list_elem_of_lookup_2 _ _ _ Hx) as Hin.
  unfold compat, apart. simpl. unfold s_end at 1. simpl. intros F.
  destruct (overlap_byte x s e (lk_wf l Hl x Hin U) Hr) as [H|(b & Cb & Hb)]; [split; intros; tauto|].
  split; intros P.
  - exfalso. apply (Hown (i16Type x) b Hb). exists x. by split_and!.
  - right. destruct (types_conflict ty (i16Type x)) eqn:T.
    + exfalso. apply (Hno b Hb). exists (u32Pid x), (i16Type x). split_and!; [done| |done]. exists x. by split_and!.
    + unfold types_conflict in T. apply negb_false_iff, andb_prop in T as [T1 T2]. lia.
Qed.

Lemma insert_ok : lk_ok (<[i := new_slot]> l).
Proof.
  split.
  - rewrite length_insert. apply (lk_len l Hl).
  - intros x Hx U. apply elem_of_insert_cases in Hx as [->|Hx]; [by split|by apply (lk_wf l Hl)].
  - apply compat_insert; [apply (lk_compat l Hl)|]. intros j b Hj Hb Ub _. by eapply new_compat.
Qed.

Lemma insert_others : lk_canon l -> pairwise (separate_others fd pid) (<[i := new_slot]> l).
Proof.
  intros Hc. apply (pairwise_insert _ (separate_others_sym fd pid)).
  - intros x y a b Hne Ha Hb Ua Ub _. by apply (Hc x y a b).
  - intros j b _ _ _ _ Hn. exfalso. apply Hn. by split.
Qed.

Lemma insert_view : lock_view fd pid ty s e l (<[i := new_slot]> l).
Proof.
  intros f' p t b. split.
  - intros (x & Hx & U & F & P & T & C). rewrite (elem_of_insert_split _ _ _ f) in Hx by done.
    destruct Hx as [->|(j & Hj & E)].
    + left. simpl in *. subst. by split_and!.
    + right. assert (held l f' p t b) as Hh by (exists x; split_and!; try done; by eapply list_elem_of_lookup_2).
      split; [done|]. intros (-> & -> & Hb). by apply (Hown t b).
  - intros [[(-> & -> & Hb) ->]|[(x & Hx & U & F & P & T & C) _]].
    + exists new_slot. split_and!; try done. apply (elem_of_insert_split _ _ _ f); auto.
    + exists x. split_and!; try done. apply (elem_of_insert_split _ _ _ f); [done|right].
      apply list_elem_of_lookup in Hx as [j Hj]. exists j. split; [|done]. intros ->. congruence.
Qed.
End Insert.

(** ** Granting *)
Lemma fl_ok_with_lk l m : fl_ok m -> lk_ok l -> lk_canon l -> fl_ok (with_lk l m).
Proof. intros [] H1 H2. by split. Qed.

(** The wake generation moved on and the sleepers were woken. *)
Definition woke (m m' : fl_mem) : Prop :=
  g_u32WakeGen m' = u32_wrap (g_u32WakeGen m + 1) /\ fl_thr m' = fl_threads_woken (fl_thr m).

(** The end of a successful change: bump, wake, statistics. *)
Lemma wp_bump_wake {A} (k : prog fl_mem A) Q m :
  fl_ok m ->
  (forall m', fl_ok m' -> g_aLk m' = g_aLk m -> g_aWait m' = g_aWait m -> woke m m' -> wp k Q m') ->
  wp (wake_gen_bump ;;; soft_wake_waiters ;;; soft_inventory_maybe_once ;;; k) Q m.
Proof.
  intros Hm H. apply wp_bind, wp_gen_bump, wp_bind, wp_soft_wake; [apply (fl_threads m Hm)|].
  apply wp_bind, wp_inventory, H; simpl; try done.
  apply fl_ok_thr; [by apply fl_ok_gen|]. rewrite fl_threads_woken_length. apply (fl_threads m Hm).
Qed.

Section Requests.
Context (fd ty s e pid : Z) (Hr : range_wf s e).

Definition grant_post (m : fl_mem) (o : set_out) (m' : fl_mem) : Prop :=
  fl_ok m' /\
  ((o = SetDone 0 /\ lock_view fd pid ty s e (g_aLk m) (g_aLk m') /\ woke m m') \/
   (o = SetDone (- LINUX_ENOLCK) /\ table_full (g_aLk m') /\ g_u32WakeGen m' = g_u32WakeGen m /\
    fl_thr m' = fl_thr m /\ (g_aLk m' = g_aLk m \/ carved fd pid s e (g_aLk m) (g_aLk m')))).

(** The tail of the grant, after the new slot is in the table. *)
Lemma wp_grant_tail l1 i f nWait r m m0 :
  fl_ok m0 -> fl_ok m -> ty = GJ_F_RDLCK \/ ty = GJ_F_WRLCK ->
  m = with_lk l1 m0 -> carved fd pid s e (g_aLk m0) l1 ->
  l1 !! i = Some f -> u8Used f = false ->
  (forall b, s <= b < range_norm_end e -> ~ byte_conflict (g_aLk m0) fd ty pid b) ->
  wp (coalesce_pid fd pid ;;; tick "g_u32SoftSetOk" ;;;
      (if ty =? GJ_F_RDLCK then tick "g_u32SoftSetRd" else tick "g_u32SoftSetWr") ;;;
      (if e <? 0 then tick "g_u32SoftEofGrant" else tick "g_u32SoftFiniteGrant") ;;;
      tel_set "g_u32SoftLastDenyCode" 0 ;;;
      unregister_if r nWait ;;; wake_gen_bump ;;; soft_wake_waiters ;;;
      soft_inventory_maybe_once ;;; pret (SetDone 0))
     (grant_post m0) (with_lk (<[i := new_slot fd ty s e pid]> l1) m).
Proof.
  intros Hm0 Hm Hty -> Hcv Hi Hf Hno. pose proof (fl_lk _ Hm) as Hl1. simpl in Hl1.
  assert (forall t b, s <= b < range_norm_end e -> ~ held l1 fd pid t b) as Hown.
  { intros t b Hb Hh. apply Hcv in Hh as [_ HN]. apply HN. unfold in_range. tauto. }
  assert (forall b, s <= b < range_norm_end e -> ~ byte_conflict l1 fd ty pid b) as Hno1.
  { intros b Hb (p' & t & Hp & Hh & Ht). apply (Hno b Hb). exists p', t. split_and!; try done. by apply Hcv in Hh as [? _]. }
  rewrite with_lk_twice. set (l2 := <[i := new_slot fd ty s e pid]> l1).
  assert (lk_ok l2) as Hl2 by (by apply (insert_ok fd ty s e pid)).
  apply wp_bind. eapply wp_mono; [by apply (wp_coalesce_pid fd pid (with_lk l2 m0))|].
  intros [] m3 (l3 & -> & (Hl3 & Hv & _) & Hcan). simpl in Hv, Hcan.
  assert (fl_ok (with_lk l3 m0)) as Hm3.
  { apply fl_ok_with_lk; auto. apply Hcan. apply (insert_others fd ty s e pid). apply (fl_canon _ Hm). }
  rewrite with_lk_twice. apply wp_bind, wp_tick.
  assert (forall c1 c2 (b : bool) (k : prog fl_mem set_out),
    wp k (grant_post m0) (with_lk l3 m0) ->
    wp ((if b then tick c1 else tick c2) ;;; k) (grant_post m0) (with_lk l3 m0)) as Htick.
  { intros c1 c2 [] k H; wsteps; done. }
  apply Htick, Htick, wp_bind, wp_tel_set, wp_bind, wp_unregister_if; [done|]. intros m4 (Hm4 & E4 & G4 & T4).
  apply wp_bump_wake; [done|]. intros m5 Hm5 E5 _ [G5 T5]. wsteps. split; [done|]. left. split; [done|].
  split; [|split; [rewrite G5, G4|rewrite T5, T4]; done].
  rewrite E5, E4. simpl. intros f' p t b. rewrite (Hv f' p t b). unfold l2.
  rewrite (insert_view fd ty s e pid l1 i f Hi Hf Hown f' p t b), (Hcv f' p t b). tauto.
Qed.

Lemma wp_set_grant nWait r m :
  fl_ok m -> ty = GJ_F_RDLCK \/ ty = GJ_F_WRLCK ->
  (forall b, s <= b < range_norm_end e -> ~ byte_conflict (g_aLk m) fd ty pid b) ->
  wp (set_grant fd ty s e pid nWait r) (grant_post m) m.
Proof.
  intros Hm Hty Hno. unfold set_grant. apply wp_bind.
  eapply wp_mono; [by apply (wp_carve fd pid s e Hr m); [apply (fl_lk m Hm)|apply (fl_nl m Hm)]|].
  assert (forall m1 k, same_but_waiters m m1 \/ (fl_ok m1 /\ g_u32WakeGen m1 = g_u32WakeGen m /\ fl_thr m1 = fl_thr m /\
      carved fd pid s e (g_aLk m) (g_aLk m1)) -> table_full (g_aLk m1) ->
    k = pret (SetDone (- LINUX_ENOLCK)) ->
    wp (unregister_if r nWait ;;; soft_inventory_maybe_once ;;; k) (grant_post m) m1) as Hfail.
  { intros m1 k Hm1 Hfull ->. assert (fl_ok m1) by (destruct Hm1 as [H|H]; apply H).
    apply wp_bind, wp_unregister_if; [done|]. intros m2 (Hm2 & E2 & G2 & T2).
    apply wp_bind, wp_inventory. wsteps. split; [done|]. right. rewrite E2, G2, T2.
    destruct Hm1 as [(_ & E1 & G1 & T1)|(_ & G1 & T1 & C1)]; split_and!; auto. }
  intros st m1 [(-> & l1 & -> & Hl1 & Hcv & Hcan)|(-> & -> & Hfull & _)].
  2:{ change (negb (- LINUX_ENOLCK =? 0)) with true.
      change (- LINUX_ENOLCK =? - LINUX_ENOLCK) with true. cbv iota.
      apply wp_bind, wp_deny, Hfail; [left; by apply same_but_waiters_refl|done|done]. }
  cbn [Z.eqb negb]. assert (fl_ok (with_lk l1 m)) as Hm1.
  { apply fl_ok_with_lk; auto. apply Hcan, (fl_canon m Hm). }
  apply wp_bind, wp_slot_alloc; [done|apply (lk_len _ Hl1)| |].
  - intros i f Hi Uf. simpl in Hi. apply wp_bind. simpl.
    eapply (wp_st_slot _ (with_used true f)); [done| |done|].
    { simpl. apply list_lookup_insert_eq. by eapply lookup_lt_Some. }
    simpl. rewrite with_lk_twice, list_insert_insert_eq. by apply (wp_grant_tail l1 i f).
  - intros Hfull. apply wp_bind, wp_deny, Hfail; [right; by split_and!|done|done].
Qed.
End Requests.
