(* ===== verification/FileLockSys.v ===== *)
(** Requests to the lock table as the callers make them: one turn of the
    [F_SETLK]/[F_SETLKW] loop, unlocking, probing, release, and every
    interleaving of their critical sections. *)
From stdpp Require Import base gmap list strings.
From Stdlib Require Import ZArith Lia.
From S2P Require Import Prelude LinuxAbi Thread ThreadProofs FileLock FileLockInv FileLockCoal FileLockOps.

(** ** Deadlock detection *)

(** A waiter of [p] records [q] as its blocker. *)
Definition waits_on (l : list flock_waiter) (p q : Z) : Prop :=
  exists w, w ∈ l /\ w_u8Used w = true /\ w_u32Pid w = p /\ w_u32BlockerPid w = q.

(** [n] waits-for edges lead from [p] to [q], through no [0]. *)
Inductive wait_chain (l : list flock_waiter) : nat -> Z -> Z -> Prop :=
| chain_one p q : waits_on l p q -> q <> 0 -> wait_chain l 1 p q
| chain_more n p q r : waits_on l p q -> q <> 0 -> wait_chain l n q r -> wait_chain l (S n) p r.

Lemma waiter_next_Some p q l : waiter_next p l = Some q -> waits_on l p q.
Proof.
  induction l as [|w l IH]; simpl; [done|]. destruct (w_u8Used w && (w_u32Pid w =? p)) eqn:E.
  - intros [= <-]. apply andb_prop in E as [U P]. apply Z.eqb_eq in P. exists w. split_and!; auto. left.
  - intros H. destruct (IH H) as (w' & Hin & H'). exists w'. split; [by right|done].
Qed.

Lemma waiter_next_None p l : waiter_next p l = None -> forall q, ~ waits_on l p q.
Proof.
  induction l as [|w l IH]; simpl; intros E q (w' & Hin & U & P & B); [by apply elem_of_nil in Hin|].
  destruct (w_u8Used w && (w_u32Pid w =? p)) eqn:Ew; [done|].
  apply elem_of_cons in Hin as [->|Hin]; [|apply (IH E q); by exists w'].
  rewrite U, P, Z.eqb_refl in Ew. done.
Qed.

(** A reported deadlock is a cycle of the waits-for graph. *)
Lemma deadlock_walk_sound self k : forall cur l,
  deadlock_walk self k cur l = true -> exists n, (n <= k)%nat /\ wait_chain l n cur self.
Proof.
  induction k as [|k IH]; intros cur l; simpl; [done|].
  destruct (waiter_next cur l) as [nx|] eqn:E; [|done]. apply waiter_next_Some in E.
  destruct (nx =? 0) eqn:E0; [done|]. apply Z.eqb_neq in E0.
  destruct (nx =? self) eqn:Es.
  - apply Z.eqb_eq in Es as ->. intros _. exists 1%nat. split; [lia|]. by constructor.
  - intros H. destruct (IH nx l H) as (n & Hn & Hc). exists (S n). split; [lia|]. by econstructor.
Qed.

(** Each process waits in one place. *)
Definition one_wait (l : list flock_waiter) : Prop :=
  forall p q q', waits_on l p q -> waits_on l p q' -> q = q'.

(** A cycle within the depth of the walk is reported. *)
Lemma deadlock_walk_complete self l n cur :
  one_wait l -> wait_chain l n cur self -> forall k, (n <= k)%nat -> deadlock_walk self k cur l = true.
Proof.
  intros H1 Hc. induction Hc as [p q Hw Hq|n p q r Hw Hq _ IH]; intros k Hk; (destruct k as [|k]; [lia|]); simpl.
  - destruct (waiter_next p l) as [nx|] eqn:E; [|by apply (waiter_next_None _ _ E) in Hw].
    apply waiter_next_Some in E. rewrite (H1 _ _ _ E Hw), Z.eqb_refl. by rewrite (proj2 (Z.eqb_neq _ _) Hq).
  - destruct (waiter_next p l) as [nx|] eqn:E; [|by apply (waiter_next_None _ _ E) in Hw].
    apply waiter_next_Some in E. rewrite (H1 _ _ _ E Hw), (proj2 (Z.eqb_neq _ _) Hq).
    destruct (q =? r); [done|]. apply IH. lia.
Qed.

(** ** One turn of [file_lock_set] *)
Section Attempt.
Context (fd ty s e pid : Z) (Hr : range_wf s e) (Hty : ty = GJ_F_RDLCK \/ ty = GJ_F_WRLCK).

(** Some byte of the range is locked against the request. *)
Definition blocked (l : list flock_slot) : Prop :=
  exists b, s <= b < range_norm_end e /\ byte_conflict l fd ty pid b.

(** The process of the lock the scan reports. *)
Definition blocker_of (l : list flock_slot) : option Z := u32Pid <$> conflict_scan fd ty s e pid l None.

Definition attempt_post (fBlock : bool) (m : fl_mem) (o : set_out) (m' : fl_mem) : Prop :=
  (~ blocked (g_aLk m) /\ grant_post fd ty s e pid m o m') \/
  (blocked (g_aLk m) /\ same_but_waiters m m' /\
   match o with
   | SetDone rc =>
       (rc = - LINUX_EAGAIN /\ fBlock = false) \/
       (rc = - GJ_FLOCK_EDEADLK /\ fBlock = true /\
        exists b n, blocker_of (g_aLk m) = Some b /\ wait_chain (g_aWait m) n b pid)
   | SetBlock _ _ => fBlock = true
   end).

Lemma scan_blocked l : lk_ok l ->
  match conflict_scan fd ty s e pid l None with
  | Some h => blocked l /\ h ∈ l /\ u32Pid h <> pid
  | None => ~ blocked l
  end.
Proof.
  clear Hty. intros Hl. pose proof (conflict_scan_spec fd ty s e pid l) as H. destruct (conflict_scan _ _ _ _ _ _ _) as [h|].
  - destruct H as (Hin & Hc & _). split_and!; [apply conflict_byte; eauto|done|].
    apply slot_conflicts_true in Hc. tauto.
  - intros Hb. apply conflict_byte in Hb as (x & Hin & Hc); [|done|done]. rewrite (H x Hin) in Hc. done.
Qed.

Lemma wp_soft_deadlock_spec self b Q m :
  self <> b ->
  (forall d : bool, (d = true -> exists n, wait_chain (g_aWait m) n b self) -> Q d m) ->
  wp (soft_deadlock self b) Q m.
Proof.
  intros Hne H. unfold soft_deadlock. wsteps. case_match eqn:E0; wsteps; [by apply H|].
  rewrite (proj2 (Z.eqb_neq b self)) by auto. wsteps.
  destruct (deadlock_walk _ _ _ _) eqn:E; wsteps; apply H; [|done].
  intros _. destruct (deadlock_walk_sound _ _ _ _ E) as (n & _ & Hc). by exists n.
Qed.

Lemma wp_set_attempt fBlock nWait r m :
  fl_ok m -> wp (set_attempt fd ty s e pid fBlock nWait r) (attempt_post fBlock m) m.
Proof.
  intros Hm. unfold set_attempt. apply wp_bind, wp_conflict.
  pose proof (scan_blocked (g_aLk m) (fl_lk m Hm)) as Hsc.
  destruct (conflict_scan fd ty s e pid (g_aLk m) None) as [h|] eqn:Es.
  2:{ eapply wp_mono; [apply wp_set_grant; auto|].
      - intros b Hb Hc. apply Hsc. by exists b.
      - intros o m' H. left. by split. }
  destruct Hsc as (Hb & Hin & Hp).
  assert (forall m1 rc, (rc = - LINUX_EAGAIN /\ fBlock = false) \/
     (rc = - GJ_FLOCK_EDEADLK /\ fBlock = true /\ exists n, wait_chain (g_aWait m) n (u32Pid h) pid) ->
     same_but_waiters m m1 -> attempt_post fBlock m (SetDone rc) m1) as Hdeny.
  { intros m1 rc Hrc Hm1. right. split_and!; auto. destruct Hrc as [?|(? & ? & n & Hn)]; [by left|right].
    split_and!; auto. exists (u32Pid h), n. unfold blocker_of. by rewrite Es. }
  destruct fBlock; cbn [negb].
  2:{ apply wp_bind, wp_deny, wp_bind, wp_unregister_if; [done|]. intros m1 Hm1.
      apply wp_bind, wp_inventory, wp_ret, Hdeny; [by left|done]. }
  apply wp_bind, wp_soft_deadlock_spec; [done|]. intros [] Hd.
  - apply wp_bind, wp_deny, wp_bind, wp_unregister_if; [done|]. intros m1 Hm1.
    apply wp_bind, wp_inventory, wp_ret, Hdeny; [right; by split_and!; [| |apply Hd]|done].
  - wsteps. destruct r; cbn [negb]; wsteps.
    + apply wp_update_blocker; [done|]. intros m1 Hm1. wsteps. right. by split_and!.
    + apply wp_register; [done|]. intros n m1 Hm1. wsteps. right. by split_and!.
Qed.
End Attempt.

Lemma attempt_ok fd ty s e pid fBlock m o m' : attempt_post fd ty s e pid fBlock m o m' -> fl_ok m'.
Proof. intros [[_ [H _]]|(_ & [H _] & _)]; done. Qed.

(** ** Going to sleep *)

(** The memory once the caller is on the wait object: if nothing blocks it any
    more, the sleepers are woken again. *)
Lemma wp_set_sleep cur fd ty s e pid Q m :
  fl_ok m -> (forall i, cur = Some i -> (i < GJ_MAX_THREADS)%nat) ->
  (forall t, length (g_aThreads t) = GJ_MAX_THREADS -> Q tt (set_fl_thr t m)) ->
  wp (set_sleep cur fd ty s e pid) Q m.
Proof.
  intros Hm Hcur H. unfold set_sleep. destruct cur as [i|].
  2:{ wsteps. replace m with (set_fl_thr (fl_thr m) m) by (by destruct m). apply H, (fl_threads m Hm). }
  destruct (lookup_lt_is_Some_2 (g_aThreads (fl_thr m)) i) as [p Hp].
  { rewrite (fl_threads m Hm). by apply Hcur. }
  wsteps. apply wp_on_threads. simpl. wsteps. rewrite Hp. wsteps.
  assert (length (<[i := MkThread (u32Id p) GJ_THR_BLOCKED g_u32WaitObj_addr GJ_FLOCK_TAG_WAITER]>
                    (g_aThreads (fl_thr m))) = GJ_MAX_THREADS) as Hlen by (rewrite length_insert; apply (fl_threads m Hm)).
  apply wp_conflict. case_match; wsteps.
  - by apply H.
  - apply wp_soft_wake; [done|]. wsteps. apply (H (fl_threads_woken _)). by rewrite fl_threads_woken_length.
Qed.

(** ** Validation *)

(** The fields of a request are machine integers. *)
Definition flock_i64 (fl : gj_flock) : Prop := fl_i64Start fl <= I64_MAX /\ fl_i64Len fl <= I64_MAX.

Lemma flock_validate_wf fd fl s e pid :
  flock_i64 fl -> flock_validate fd (Some fl) = inr (s, e, pid) ->
  0 <= fd /\ range_wf s e /\ pid <> 0 /\ s = Z.max 0 (fl_i64Start fl) /\
  range_norm_end e = (if fl_i64Len fl =? 0 then I64_MAX else s + fl_i64Len fl).
Proof.
  intros [B1 B2]. unfold flock_validate.
  destruct (fd <? 0) eqn:Hfd; [done|]. apply Z.ltb_ge in Hfd.
  destruct (negb (fl_i16Whence fl =? GJ_SEEK_SET)); [done|].
  destruct (fl_i64Len fl <? 0) eqn:Hlen; [done|]. apply Z.ltb_ge in Hlen.
  set (st := if fl_i64Start fl <? 0 then 0 else fl_i64Start fl).
  set (p := if negb (fl_u32Pid fl =? 0) then fl_u32Pid fl else 1).
  assert (p <> 0) as Hpid by (unfold p; destruct (Z.eqb_spec (fl_u32Pid fl) 0); simpl; lia).
  assert (st = Z.max 0 (fl_i64Start fl)) as Hst by (subst st; case_match; lia).
  unfold range_overflow, range_end. destruct (fl_i64Len fl =? 0) eqn:H0.
  - apply Z.eqb_eq in H0. rewrite H0. cbn [Z.ltb Z.compare andb].
    intros [= <- <- <-]. unfold range_wf. change (range_norm_end GJ_FLOCK_EOF) with I64_MAX.
    unfold GJ_FLOCK_EOF. split_and!; lia.
  - apply Z.eqb_neq in H0. destruct (I64_MAX - fl_i64Len fl <? st) eqn:Hov; [done|]. apply Z.ltb_ge in Hov.
    case_match; [done|]. intros [= <- <- <-]. unfold range_wf.
    rewrite !norm_finite by lia. split_and!; lia.
Qed.

(** ** Unlocking *)
Definition unlock_post (fd s e pid : Z) (m : fl_mem) (r : Z) (m' : fl_mem) : Prop :=
  fl_ok m' /\
  ((r = 0 /\ carved fd pid s e (g_aLk m) (g_aLk m') /\ woke m m') \/
   (r = - LINUX_ENOLCK /\ m' = m /\ table_full (g_aLk m) /\
    exists x, x ∈ g_aLk m /\ splits fd pid s e x = true)).

Lemma wp_set_unlock fd s e pid m :
  range_wf s e -> fl_ok m -> wp (set_unlock fd s e pid) (unlock_post fd s e pid m) m.
Proof.
  intros Hr Hm. unfold set_unlock. wsteps.
  eapply wp_mono; [by apply (wp_carve fd pid s e Hr m); [apply (fl_lk m Hm)|apply (fl_nl m Hm)]|].
  intros st m1 [(-> & l1 & -> & Hl1 & Hcv & Hcan)|(-> & -> & Hfull & Hx)].
  - cbn [Z.eqb]. assert (fl_ok (with_lk l1 m)) as Hm1.
    { apply fl_ok_with_lk; auto. apply Hcan, (fl_canon m Hm). }
    wsteps. apply wp_gen_bump. wsteps. apply wp_soft_wake; [apply (fl_threads m Hm)|]. wsteps.
    apply wp_inventory. wsteps. split.
    + apply fl_ok_thr; [by apply fl_ok_gen|]. rewrite fl_threads_woken_length. apply (fl_threads m Hm).
    + left. split_and!; done.
  - change (- LINUX_ENOLCK =? 0) with false. change (- LINUX_ENOLCK =? - LINUX_ENOLCK) with true. cbv iota.
    wsteps. apply wp_deny. wsteps. apply wp_inventory. wsteps. split; [done|]. right. by split_and!.
Qed.

(** ** Release *)

(** Slots that satisfy [p] are gone, the others stay. *)
Definition released (p : flock_slot -> bool) (s : flock_slot) : flock_slot :=
  if u8Used s && p s then with_used false s else s.

Lemma wp_release_slots p k : forall done l m n,
  g_aLk m = done ++ l -> length l = k -> nl_ok m ->
  wp (release_slots p k (length done) n)
     (fun r m' => r = n + Z.of_nat (countb (fun s => u8Used s && p s) l) /\
        m' = with_lk (done ++ (released p <$> l)) m) m.
Proof.
  induction k as [|k IH]; intros done l m n Hl Hk Hn; cbn [release_slots].
  { destruct l; [|done]. wsteps. split; [unfold countb; simpl; lia|]. simpl. rewrite <-Hl. by rewrite with_lk_id. }
  destruct l as [|s l]; [done|]. injection Hk as Hk.
  apply wp_bind, (wp_ld_slot _ s); [rewrite Hl; by apply list_lookup_middle|].
  assert (forall m1 n1, m1 = with_lk (done ++ released p s :: l) m ->
    n1 = n + (if u8Used s && p s then 1 else 0) ->
    wp (release_slots p k (S (length done)) n1)
     (fun r m' => r = n + Z.of_nat (countb (fun s => u8Used s && p s) (s :: l)) /\
        m' = with_lk (done ++ (released p <$> (s :: l))) m) m1) as Hgo.
  { intros m1 n1 -> ->. replace (S (length done)) with (length (done ++ [released p s])) by (rewrite length_app; simpl; lia).
    eapply wp_mono; [apply (IH (done ++ [released p s]) l); [simpl; by rewrite <-app_assoc|done|done]|].
    intros r m' [-> ->]. rewrite with_lk_twice, <-app_assoc. split; [|done].
    unfold countb. rewrite (filter_cons _ s). destruct (u8Used s && p s); simpl; lia. }
  unfold released at 1 in Hgo. destruct (u8Used s && p s) eqn:E.
  - apply wp_bind, (wp_slot_free _ s); [done|rewrite Hl; by apply list_lookup_middle|].
    apply Hgo; [|done]. rewrite Hl, insert_app_r_alt, Nat.sub_diag by done. done.
  - apply Hgo; [|lia]. rewrite <-Hl. by rewrite with_lk_id.
Qed.

Lemma released_fields p s :
  i64Fd (released p s) = i64Fd s /\ u32Pid (released p s) = u32Pid s /\ i16Type (released p s) = i16Type s /\
  i64Start (released p s) = i64Start s /\ s_end (released p s) = s_end s.
Proof. unfold released. case_match; done. Qed.

Lemma released_used p s : u8Used (released p s) = true <-> u8Used s = true /\ p s = false.
Proof. unfold released. destruct (u8Used s) eqn:U, (p s) eqn:P; simpl; rewrite ?U; intuition congruence. Qed.

Lemma released_sub p s : sub_slot (released p s) s.
Proof.
  destruct (released_fields p s) as (F & P & T & S & E). unfold sub_slot. rewrite F, P, T, S, E, released_used.
  split_and!; try done. intros [? _]. split_and!; [done|lia..].
Qed.

Lemma released_wf p s : slot_wf s -> slot_wf (released p s).
Proof. unfold released. by case_match. Qed.

Lemma lk_ok_released p l : lk_ok l -> lk_ok (released p <$> l).
Proof.
  intros Hl. split.
  - rewrite length_fmap. apply (lk_len l Hl).
  - intros x Hx U. apply list_elem_of_fmap in Hx as (s & -> & Hin). apply released_used in U as [U _].
    by apply released_wf, (lk_wf l Hl).
  - apply (pairwise_fmap compat); [apply compat_sub|apply (lk_compat l Hl)|]. intros; apply released_sub.
Qed.

Lemma lk_canon_released p l : lk_canon l -> lk_canon (released p <$> l).
Proof. intros Hl. apply (pairwise_fmap separate); [apply separate_sub|done|]. intros; apply released_sub. Qed.

(** Only the released owner loses locks. *)
Lemma held_released (p : flock_slot -> bool) (P : Z -> Z -> Prop) l f q t b :
  (forall s, p s = true <-> P (i64Fd s) (u32Pid s)) ->
  held (released p <$> l) f q t b <-> held l f q t b /\ ~ P f q.
Proof.
  intros HP. split.
  - intros (x & Hx & U & F & Q & T & C). apply list_elem_of_fmap in Hx as (s & -> & Hin).
    destruct (released_fields p s) as (E1 & E2 & E3 & E4 & E5). apply released_used in U as [U Hp].
    unfold covers in C. rewrite E1, E2, E3, E4, E5 in *. split; [exists s; by split_and!|].
    intros H. assert (p s = true); [|congruence]. apply HP. by rewrite F, Q.
  - intros [(s & Hin & U & F & Q & T & C) HN]. destruct (released_fields p s) as (E1 & E2 & E3 & E4 & E5).
    exists (released p s). unfold covers. rewrite E1, E2, E3, E4, E5. split_and!; try done.
    + by apply list_elem_of_fmap_2.
    + apply released_used. split; [done|]. apply not_true_is_false. intros Hp. apply HP in Hp. apply HN. by rewrite <-F, <-Q.
    + apply C.
    + apply C.
Qed.

Lemma wp_release_waiters pid k : forall i n Q m,
  fl_ok m -> (i + k = GJ_FLOCK_MAX_WAITERS)%nat ->
  (forall n' m', same_but_waiters m m' ->
     (forall w, w ∈ drop i (g_aWait m') -> w_u8Used w = true -> w_u32Pid w <> pid) ->
     take i (g_aWait m') = take i (g_aWait m) -> Q n' m') ->
  wp (release_waiters pid k i n) Q m.
Proof.
  induction k as [|k IH]; intros i n Q m Hm Hk H; cbn [release_waiters].
  { wsteps. apply H; [by apply same_but_waiters_refl| |done]. intros w Hw.
    rewrite drop_ge in Hw by (rewrite (fl_wlen m Hm); lia). by apply elem_of_nil in Hw. }
  destruct (lookup_lt_is_Some_2 (g_aWait m) i) as [w Hw]; [rewrite (fl_wlen m Hm); lia|].
  wsteps. rewrite Hw.
  assert (forall m1 w1 n1, same_but_waiters m m1 -> take i (g_aWait m1) = take i (g_aWait m) ->
    g_aWait m1 !! i = Some w1 -> (w_u8Used w1 = true -> w_u32Pid w1 <> pid) ->
    wp (release_waiters pid k (S i) n1) Q m1) as Hgo.
  { intros m1 w1 n1 (Hm1 & E1 & G1 & T1) Et Hi Hw1. apply IH; [done|lia|].
    intros n' m' (Hm' & E' & G' & T') Hdrop Ht.
    assert (g_aWait m' !! i = Some w1) as Hi'.
    { rewrite <-(lookup_take_lt _ (S i)) by lia. rewrite Ht. by rewrite lookup_take_lt by lia. }
    apply H; [unfold same_but_waiters; by rewrite E', G', T'| |].
    - intros x Hx. rewrite (drop_S _ _ _ Hi') in Hx. apply elem_of_cons in Hx as [->|Hx]; auto.
    - rewrite <-Et. replace i with (i `min` S i)%nat by lia. by rewrite <-!take_take, Ht. }
  destruct (w_u8Used w && (w_u32Pid w =? pid)) eqn:E.
  - apply andb_prop in E as [U P]. wsteps. apply (wp_drop_waiter _ w); [done..|].
    intros m1 Hm1 E1. apply (Hgo m1 (with_w_used false w)); [done| | |done].
    + by rewrite E1, take_insert_ge by lia.
    + rewrite E1. apply list_lookup_insert_eq. by eapply lookup_lt_Some.
  - apply (Hgo m w); [by apply same_but_waiters_refl|done|done|].
    intros U P. rewrite U, P, Z.eqb_refl in E. done.
Qed.

(** Every lock that satisfies [P] is gone, nothing else changed hands. *)
Definition release_post (P : Z -> Z -> Prop) (m m' : fl_mem) : Prop :=
  fl_ok m' /\ forall f q t b, held (g_aLk m') f q t b <-> held (g_aLk m) f q t b /\ ~ P f q.

Lemma wp_bump_if (b : bool) c {A} (k : prog fl_mem A) Q m :
  fl_ok m ->
  (forall m', fl_ok m' -> g_aLk m' = g_aLk m -> g_aWait m' = g_aWait m -> wp k Q m') ->
  wp ((if b then tick c ;;; soft_wake_waiters ;;; pret tt else pret tt) ;;;
      soft_inventory_maybe_once ;;; k) Q m.
Proof.
  intros Hm H. destruct b; wsteps.
  - apply wp_soft_wake; [apply (fl_threads m Hm)|]. wsteps. apply wp_inventory, H; try done.
    apply fl_ok_thr; [done|]. rewrite fl_threads_woken_length. apply (fl_threads m Hm).
  - by apply wp_inventory, H.
Qed.

Lemma wp_release_fd fd m :
  0 <= fd -> fl_ok m ->
  wp (file_lock_release_fd fd) (fun _ m' => release_post (fun f _ => f = fd) m m') m.
Proof.
  intros Hfd Hm. unfold file_lock_release_fd. wsteps. rewrite (proj2 (Z.ltb_ge _ _)) by lia. apply wp_bind.
  eapply wp_mono; [apply (wp_release_slots (fun s => i64Fd s =? fd) GJ_FLOCK_MAX [] (g_aLk m)); auto;
    [apply (lk_len _ (fl_lk m Hm))|apply (fl_nl m Hm)]|].
  intros n m1 [_ ->]. simpl app. set (l1 := released _ <$> _).
  assert (fl_ok (with_lk l1 m)) as Hm1.
  { apply fl_ok_with_lk; [done|apply lk_ok_released, (fl_lk m Hm)|apply lk_canon_released, (fl_canon m Hm)]. }
  assert (forall m', fl_ok m' -> g_aLk m' = l1 -> release_post (fun f _ => f = fd) m m') as Hpost.
  { intros m' Hm' E. split; [done|]. intros f q t b. rewrite E. apply (held_released _ (fun f _ => f = fd)).
    intros s. apply Z.eqb_eq. }
  apply wp_bind, wp_get. cbv zeta. apply wp_bind.
  eapply (wp_mono _ (fun _ m' => m' = with_lk l1 m)); [case_match; wsteps; done|]. intros [] m2 ->.
  apply wp_bind. eapply (wp_mono _ (fun _ m' => fl_ok m' /\ g_aLk m' = l1)).
  { repeat case_match; wsteps; try done; apply wp_gen_bump; wsteps; (split; [by apply fl_ok_gen|done]). }
  intros [] m3 [Hm3 E3]. apply wp_bump_if; [done|]. intros m4 Hm4 E4 _. wsteps. apply Hpost; congruence || done.
Qed.

Lemma wp_release_pid pid m :
  pid <> 0 -> fl_ok m ->
  wp (file_lock_release_pid pid) (fun _ m' => release_post (fun _ q => q = pid) m m' /\
     forall w, w ∈ g_aWait m' -> w_u8Used w = true -> w_u32Pid w <> pid) m.
Proof.
  intros Hp Hm. unfold file_lock_release_pid. wsteps. rewrite (proj2 (Z.eqb_neq _ _)) by done. apply wp_bind.
  eapply wp_mono; [apply (wp_release_slots (fun s => u32Pid s =? pid) GJ_FLOCK_MAX [] (g_aLk m)); auto;
    [apply (lk_len _ (fl_lk m Hm))|apply (fl_nl m Hm)]|].
  intros n m1 [_ ->]. simpl app. set (l1 := released _ <$> _).
  assert (fl_ok (with_lk l1 m)) as Hm1.
  { apply fl_ok_with_lk; [done|apply lk_ok_released, (fl_lk m Hm)|apply lk_canon_released, (fl_canon m Hm)]. }
  assert (forall m', fl_ok m' -> g_aLk m' = l1 -> release_post (fun _ q => q = pid) m m') as Hpost.
  { intros m' Hm' E. split; [done|]. intros f q t b. rewrite E. apply (held_released _ (fun _ q => q = pid)).
    intros s. apply Z.eqb_eq. }
  apply wp_bind, wp_release_waiters; [done|done|].
  intros d m2 (Hm2 & E2 & _) Hw _. rewrite drop_0 in Hw. apply wp_bind, wp_tel_add, wp_bind.
  eapply (wp_mono _ (fun _ m' => fl_ok m' /\ g_aLk m' = l1 /\ g_aWait m' = g_aWait m2)).
  { repeat case_match; wsteps; try done; apply wp_gen_bump; wsteps; (split; [by apply fl_ok_gen|done]). }
  intros [] m3 (Hm3 & E3 & W3). apply wp_bump_if; [done|]. intros m4 Hm4 E4 W4. wsteps.
  split; [apply Hpost; congruence || done|]. by rewrite W4, W3.
Qed.

(** ** Probing *)
Lemma wp_file_lock_get fd fl s e pid m :
  flock_validate fd (Some fl) = inr (s, e, pid) ->
  fl_i16Type fl = GJ_F_RDLCK \/ fl_i16Type fl = GJ_F_WRLCK \/ fl_i16Type fl = GJ_F_UNLCK ->
  let ty := if fl_i16Type fl =? GJ_F_UNLCK then GJ_F_WRLCK else fl_i16Type fl in
  wp (file_lock_get fd (Some fl)) (fun r m' => m' = m /\
    match conflict_scan fd ty s e pid (g_aLk m) None with
    | None => r = (0, Some (MkFlock GJ_F_UNLCK GJ_SEEK_SET (fl_i64Start fl) (fl_i64Len fl) (fl_u32Pid fl)))
    | Some h => r = (0, Some (MkFlock (i16Type h) GJ_SEEK_SET (i64Start h)
                       (if i64End h <? 0 then 0 else i64End h - i64Start h) (u32Pid h)))
    end) m.
Proof.
  intros Hv Ht ty. unfold file_lock_get. rewrite Hv. fold ty.
  assert (negb (ty =? GJ_F_RDLCK) && negb (ty =? GJ_F_WRLCK) = false) as ->.
  { subst ty. destruct Ht as [->|[->| ->]]; done. }
  apply wp_bind. eapply (wp_mono _ (fun _ m' => m' = m)); [case_match; wsteps; done|]. intros [] m' ->.
  wsteps. apply wp_conflict. case_match; wsteps; apply wp_inventory; wsteps; done.
Qed.

(** ** Initialisation *)
Lemma fl_ok_init m : length (g_aThreads (fl_thr m)) = GJ_MAX_THREADS ->
  fl_ok (MkFl (replicate GJ_FLOCK_MAX zero_slot) (replicate GJ_FLOCK_MAX_WAITERS zero_waiter) 0 0 0 (fl_thr m)).
Proof.
  intros Ht. split; cbn [g_aLk g_aWait fl_thr]; try done.
  - split; [done| |].
    + intros s Hs U. apply elem_of_replicate in Hs as [-> _]. done.
    + intros i j a b _ Ha _ Ua. apply lookup_replicate in Ha as [-> _]. done.
  - intros i j a b _ Ha _ Ua. apply lookup_replicate in Ha as [-> _]. done.
Qed.

Lemma wp_file_lock_init m : length (g_aThreads (fl_thr m)) = GJ_MAX_THREADS ->
  wp file_lock_init (fun _ m' => fl_ok m' /\ forall f q t b, ~ held (g_aLk m') f q t b) m.
Proof.
  intros Ht. unfold file_lock_init. wsteps. apply wp_tel. intros tel. apply wp_bind, wp_tel_put, wp_bind, wp_inventory_log, wp_lean_once.
  split; [by apply fl_ok_init|]. intros f q t b (s & Hs & U & _).
  cbn [g_aLk] in Hs. apply elem_of_replicate in Hs as [-> _]. done.
Qed.
