(* ===== verification/FileLockClaims.v ===== *)
(** The properties of the byte-range locks, each with a witness on a concrete
    run, and the behaviours of the table that a caller may not expect. *)
From stdpp Require Import base gmap list strings.
From Stdlib Require Import ZArith Lia.
From S2P Require Import Prelude LinuxAbi Thread ThreadProofs FileLock FileLockInv FileLockCoal FileLockOps FileLockSys.

(** ** Every interleaving of the critical sections

    [EvTurn] is one turn of the [file_lock_set] loop of any caller with any
    local state, [EvSleep] its way to sleep, [EvThreads] whatever the rest of
    the kernel does to the thread table in between. *)
Inductive fl_event : Type :=
| EvTurn (fd : Z) (fl : gj_flock) (fBlock : bool) (nWait : Z) (fRegistered : bool)
| EvSleep (cur : option nat) (fd : Z) (fl : gj_flock)
| EvGet (fd : Z) (fl : gj_flock)
| EvReleaseFd (fd : Z)
| EvReleasePid (pid : Z)
| EvThreads (t : thr_mem).

Definition fl_exec (ev : fl_event) : prog fl_mem unit :=
  match ev with
  | EvTurn fd fl fBlock n r =>
      match flock_validate fd (Some fl) with
      | inl _ => pret tt
      | inr (s, e, pid) =>
          if fl_i16Type fl =? GJ_F_UNLCK then set_unlock fd s e pid ;;; pret tt
          else if (fl_i16Type fl =? GJ_F_RDLCK) || (fl_i16Type fl =? GJ_F_WRLCK)
          then set_attempt fd (fl_i16Type fl) s e pid fBlock n r ;;; pret tt
          else pret tt
      end
  | EvSleep cur fd fl =>
      match flock_validate fd (Some fl) with
      | inl _ => pret tt
      | inr (s, e, pid) => set_sleep cur fd (fl_i16Type fl) s e pid
      end
  | EvGet fd fl => file_lock_get fd (Some fl) ;;; pret tt
  | EvReleaseFd fd => file_lock_release_fd fd ;;; pret tt
  | EvReleasePid pid => file_lock_release_pid pid ;;; pret tt
  | EvThreads t => pmod (set_fl_thr t)
  end.

Definition fl_event_ok (ev : fl_event) : Prop :=
  match ev with
  | EvTurn _ fl _ _ _ | EvGet _ fl => flock_i64 fl
  | EvSleep cur _ fl => flock_i64 fl /\ forall i, cur = Some i -> (i < GJ_MAX_THREADS)%nat
  | EvThreads t => length (g_aThreads t) = GJ_MAX_THREADS
  | _ => True
  end.

Inductive fl_reach : fl_mem -> Prop :=
| reach_init m t m' t' :
    length (g_aThreads (fl_thr m)) = GJ_MAX_THREADS ->
    file_lock_init (KSt m t) = Some (tt, KSt m' t') -> fl_reach m'
| reach_step m ev t m' t' :
    fl_reach m -> fl_event_ok ev -> fl_exec ev (KSt m t) = Some (tt, KSt m' t') -> fl_reach m'.

Lemma wp_get_any fd fl m : wp (file_lock_get fd (Some fl)) (fun _ m' => m' = m) m.
Proof.
  unfold file_lock_get. destruct (flock_validate fd (Some fl)) as [err|[[s e] pid]]; [wsteps; done|].
  apply wp_bind. eapply (wp_mono _ (fun _ m' => m' = m)); [case_match; wsteps; done|]. intros [] m' ->.
  cbv zeta. generalize (if fl_i16Type fl =? GJ_F_UNLCK then GJ_F_WRLCK else fl_i16Type fl). intros ty.
  destruct (negb _ && negb _); wsteps; [done|]. apply wp_conflict. case_match; wsteps; apply wp_inventory; wsteps; done.
Qed.

Lemma wp_fl_exec ev m : fl_ok m -> fl_event_ok ev -> wp (fl_exec ev) (fun _ m' => fl_ok m') m.
Proof.
  intros Hm Hev. destruct ev as [fd fl fBlock n r|cur fd fl|fd fl|fd|pid|t]; cbn [fl_exec fl_event_ok] in *.
  - destruct (flock_validate fd (Some fl)) as [err|[[s e] pid]] eqn:Hv; [by wsteps|].
    destruct (flock_validate_wf _ _ _ _ _ Hev Hv) as (_ & Hr & _).
    destruct (fl_i16Type fl =? GJ_F_UNLCK) eqn:Hu.
    { wsteps. eapply wp_mono; [by apply wp_set_unlock|]. intros r0 m' [H _]. by wsteps. }
    destruct ((fl_i16Type fl =? GJ_F_RDLCK) || (fl_i16Type fl =? GJ_F_WRLCK)) eqn:Hty; [|by wsteps].
    assert (fl_i16Type fl = GJ_F_RDLCK \/ fl_i16Type fl = GJ_F_WRLCK) as Hty'.
    { apply orb_prop in Hty as [Hty|Hty]; apply Z.eqb_eq in Hty; auto. }
    wsteps. eapply wp_mono; [by apply wp_set_attempt|]. intros o m' H. wsteps. by eapply attempt_ok.
  - destruct Hev as [Hi Hcur]. destruct (flock_validate fd (Some fl)) as [err|[[s e] pid]]; [by wsteps|].
    apply wp_set_sleep; [done|done|]. intros t Ht. by apply fl_ok_thr.
  - wsteps. eapply wp_mono; [apply wp_get_any|]. intros r m' ->. by wsteps.
  - wsteps. destruct (Z.lt_ge_cases fd 0) as [Hneg|Hpos].
    + unfold file_lock_release_fd. wsteps. rewrite (proj2 (Z.ltb_lt _ _) Hneg). cbv iota. by wsteps.
    + eapply wp_mono; [by apply wp_release_fd|]. intros r m' [H _]. by wsteps.
  - wsteps. destruct (Z.eq_dec pid 0) as [->|Hp].
    + unfold file_lock_release_pid. rewrite Z.eqb_refl. by wsteps.
    + eapply wp_mono; [by apply wp_release_pid|]. intros r m' [[H _] _]. by wsteps.
  - wsteps. by apply fl_ok_thr.
Qed.

Lemma fl_reach_ok m : fl_reach m -> fl_ok m.
Proof.
  induction 1 as [m t m' t' Ht E|m ev t m' t' _ IH Hev E].
  - by destruct (wp_run _ _ _ _ _ _ _ (wp_file_lock_init m Ht) E).
  - exact (wp_run _ _ _ _ _ _ _ (wp_fl_exec ev m IH Hev) E).
Qed.

(** ** The abstract locks: which type each process has on each byte *)
Definition amap : Type := Z -> Z -> Z -> option Z.

Definition abs_locks (m : fl_mem) : amap := lock_at (g_aLk m).

(** Give the bytes [s, n) of [fd] to [pid] with type [v], or take them away. *)
Definition a_assign (A : amap) (fd pid s n : Z) (v : option Z) : amap :=
  fun f p b => if decide (f = fd /\ p = pid /\ s <= b < n) then v else A f p b.

(** Another process has an incompatible lock on some byte of [s, n). *)
Definition a_conflict (A : amap) (fd ty pid s n : Z) : Prop :=
  exists b p t, s <= b < n /\ p <> pid /\ A fd p b = Some t /\ types_conflict ty t = true.

Definition amap_eq (A B : amap) : Prop := forall f p b, A f p b = B f p b.
#[local] Infix "=~" := amap_eq (at level 70).

Lemma abs_carved fd pid s e l l' :
  lk_ok l -> lk_ok l' -> carved fd pid s e l l' ->
  lock_at l' =~ a_assign (lock_at l) fd pid s (range_norm_end e) None.
Proof.
  intros Hl Hl' H f p b. unfold a_assign. case_decide as Hin.
  - apply lock_at_none; [done|]. intros t Ht. apply H in Ht as [_ HN]. by apply HN.
  - apply lock_at_ext; [done|done|]. intros t. rewrite (H f p t b). unfold in_range. tauto.
Qed.

Lemma abs_lock_view fd pid ty s e l l' :
  lk_ok l -> lk_ok l' -> lock_view fd pid ty s e l l' ->
  lock_at l' =~ a_assign (lock_at l) fd pid s (range_norm_end e) (Some ty).
Proof.
  intros Hl Hl' H f p b. unfold a_assign. case_decide as Hin.
  - apply lock_at_held; [done|]. apply H. by left.
  - apply lock_at_ext; [done|done|]. intros t. rewrite (H f p t b). unfold in_range. tauto.
Qed.

Lemma abs_blocked fd ty s e pid l :
  lk_ok l -> blocked fd ty s e pid l <-> a_conflict (lock_at l) fd ty pid s (range_norm_end e).
Proof.
  intros Hl. split.
  - intros (b & Hb & p & t & Hp & Hh & Ht). exists b, p, t. split_and!; try done; [apply Hb..|]. by apply lock_at_held.
  - intros (b & p & t & Hb & Hp & Hh & Ht). exists b. split; [done|]. exists p, t. split_and!; try done. by apply lock_at_held.
Qed.

(** What [file_lock_set] may answer to a valid non-blocking request. *)
Definition set_spec (ty fd pid s n : Z) (A : amap) (full : Prop) (r : Z) (A' : amap) : Prop :=
  if decide (ty = GJ_F_UNLCK) then
    (r = 0 /\ A' =~ a_assign A fd pid s n None) \/
    (r = - LINUX_ENOLCK /\ full /\ A' =~ A)
  else
    (r = 0 /\ ~ a_conflict A fd ty pid s n /\ A' =~ a_assign A fd pid s n (Some ty)) \/
    (r = - LINUX_EAGAIN /\ a_conflict A fd ty pid s n /\ A' =~ A) \/
    (r = - LINUX_ENOLCK /\ full /\ ~ a_conflict A fd ty pid s n /\
     (A' =~ A \/ A' =~ a_assign A fd pid s n None)).

Lemma wp_set_call cur fd fl fBlock envs s e pid Q m :
  flock_validate fd (Some fl) = inr (s, e, pid) ->
  (fl_i16Type fl = GJ_F_UNLCK -> wp (set_unlock fd s e pid) (fun r => Q (Some r)) m) ->
  (fl_i16Type fl = GJ_F_RDLCK \/ fl_i16Type fl = GJ_F_WRLCK ->
   wp (set_loop cur fd (fl_i16Type fl) s e pid fBlock envs (-1) false) Q m) ->
  fl_i16Type fl = GJ_F_RDLCK \/ fl_i16Type fl = GJ_F_WRLCK \/ fl_i16Type fl = GJ_F_UNLCK ->
  wp (file_lock_set cur fd (Some fl) fBlock envs) Q m.
Proof.
  intros Hv Hu Hs Hty. unfold file_lock_set, note_last_type. wsteps. rewrite Hv.
  destruct (Z.eqb_spec (fl_i16Type fl) GJ_F_UNLCK) as [E|E].
  - wsteps. eapply wp_mono; [by apply Hu|]. intros r m' H. by wsteps.
  - destruct (Z.eqb_spec (fl_i16Type fl) GJ_F_RDLCK) as [E1|E1];
      destruct (Z.eqb_spec (fl_i16Type fl) GJ_F_WRLCK) as [E2|E2]; cbn [negb andb]; try (apply Hs; tauto).
    exfalso. tauto.
Qed.

(** One non-blocking turn meets the specification. *)
Lemma attempt_set_spec fd ty s e pid m o m' :
  fl_ok m -> ty = GJ_F_RDLCK \/ ty = GJ_F_WRLCK -> attempt_post fd ty s e pid false m o m' ->
  exists rc, o = SetDone rc /\
    set_spec ty fd pid s (range_norm_end e) (abs_locks m) (table_full (g_aLk m')) rc (abs_locks m').
Proof.
  intros Hm Hty H. pose proof (fl_lk m Hm) as Hl.
  pose proof (fl_lk m' (attempt_ok _ _ _ _ _ _ _ _ _ H)) as Hl'.
  assert (ty <> GJ_F_UNLCK) as Hnu by (destruct Hty as [->| ->]; done).
  unfold attempt_post in H. rewrite (abs_blocked _ _ _ _ _ _ Hl) in H. unfold set_spec, abs_locks in *.
  destruct H as [[Hnb (_ & [(-> & Hview & _)|(-> & Hf & _ & _ & Hsame)])]|(Hb & (_ & E & _) & H)].
  - eexists. split; [done|]. rewrite decide_False by done. left. split_and!; [done|done|by apply abs_lock_view].
  - eexists. split; [done|]. rewrite decide_False by done. right. right. split_and!; [done..|].
    destruct Hsame as [E|Hc]; [left; by rewrite E|right; by apply abs_carved].
  - destruct o as [rc|n r0]; [|done]. destruct H as [[-> _]|(_ & ? & _)]; [|done].
    eexists. split; [done|]. rewrite decide_False by done. right. left. split_and!; [done|done|]. by rewrite E.
Qed.

(** The rest of the kernel keeps the lock tables in order. *)
Definition env_ok (c : prog fl_mem unit) : Prop :=
  forall m, fl_ok m -> wp c (fun _ m' => fl_ok m') m.

Section Loop.
Context (cur : option nat) (fd ty s e pid : Z) (Hr : range_wf s e)
  (Hty : ty = GJ_F_RDLCK \/ ty = GJ_F_WRLCK) (Hcur : forall i, cur = Some i -> (i < GJ_MAX_THREADS)%nat).

Definition setlkw_post (r : option Z) (m' : fl_mem) : Prop :=
  fl_ok m' /\
  ((r = Some 0 /\ forall b, s <= b < range_norm_end e -> abs_locks m' fd pid b = Some ty) \/
   (r = Some (- LINUX_ENOLCK) /\ table_full (g_aLk m')) \/ r = Some (- GJ_FLOCK_EDEADLK)).

Lemma grant_setlkw m o m' :
  fl_ok m -> grant_post fd ty s e pid m o m' -> exists rc, o = SetDone rc /\ setlkw_post (Some rc) m'.
Proof.
  intros Hm (Hm' & [(-> & Hv & _)|(-> & Hf & _)]); eexists; (split; [done|]); (split; [done|]).
  - left. split; [done|]. intros b Hb. apply lock_at_held; [apply (fl_lk m' Hm')|]. apply Hv. left.
    split; [|done]. unfold in_range. tauto.
  - right. by left.
Qed.

Lemma attempt_setlkw m o m' :
  fl_ok m -> attempt_post fd ty s e pid true m o m' ->
  match o with
  | SetDone rc => setlkw_post (Some rc) m'
  | SetBlock _ _ => fl_ok m' /\ blocked fd ty s e pid (g_aLk m)
  end.
Proof.
  intros Hm H. pose proof (attempt_ok _ _ _ _ _ _ _ _ _ H) as Hm'. destruct H as [[_ H]|(Hb & _ & H)].
  - destruct (grant_setlkw m o m' Hm H) as (rc & -> & Hp). done.
  - destruct o as [rc|n r]; [|done]. destruct H as [[_ ?]|(-> & _)]; [done|]. split; [done|]. right. by right.
Qed.

(** A caller that is unblocked after its last sleep returns. *)
Lemma wp_set_loop envs env : forall nWait r m,
  fl_ok m -> Forall env_ok envs ->
  (forall m, fl_ok m -> wp env (fun _ m' => fl_ok m' /\ ~ blocked fd ty s e pid (g_aLk m')) m) ->
  wp (set_loop cur fd ty s e pid true (envs ++ [env]) nWait r) setlkw_post m.
Proof.
  assert (forall nWait r m, fl_ok m -> forall k, (forall n r' m1, fl_ok m1 ->
            wp (set_sleep cur fd ty s e pid ;;; k n r') setlkw_post m1) ->
    wp (o <- set_attempt fd ty s e pid true nWait r ;;
        match o with SetDone rc => pret (Some rc) | SetBlock n r' => set_sleep cur fd ty s e pid ;;; k n r' end)
       setlkw_post m) as Hturn.
  { intros nWait r m Hm k Hk. apply wp_bind. eapply wp_mono; [by apply wp_set_attempt|].
    intros o m1 H. apply (attempt_setlkw m o m1 Hm) in H. destruct o as [rc|n r']; [by wsteps|].
    apply Hk. by destruct H. }
  induction envs as [|c envs IH]; intros nWait r m Hm Henvs Henv; cbn [app set_loop].
  - apply (Hturn nWait r m Hm (fun n r' => env ;;; tick "g_u32SoftBlockRetry" ;;; set_loop cur fd ty s e pid true [] n r')).
    intros n r' m1 Hm1. apply wp_bind, wp_set_sleep; [done|done|]. intros t Ht.
    apply wp_bind. eapply wp_mono; [apply Henv; by apply fl_ok_thr|]. intros [] m2 [Hm2 Hnb].
    apply wp_bind, wp_tick. cbn [set_loop]. apply wp_bind. eapply wp_mono; [by apply wp_set_attempt|].
    intros o m3 [[_ H]|[Hb _]]; [|done]. destruct (grant_setlkw m2 o m3 Hm2 H) as (rc & -> & Hp). by wsteps.
  - inversion Henvs as [|? ? Hc Henvs']; subst.
    apply (Hturn nWait r m Hm (fun n r' => c ;;; tick "g_u32SoftBlockRetry" ;;; set_loop cur fd ty s e pid true (envs ++ [env]) n r')).
    intros n r' m1 Hm1. apply wp_bind, wp_set_sleep; [done|done|]. intros t Ht.
    apply wp_bind. eapply wp_mono; [apply Hc; by apply fl_ok_thr|]. intros [] m2 Hm2.
    apply wp_bind, wp_tick. by apply IH.
Qed.
End Loop.

(** ** The properties *)



(** [file_lock_get] changes nothing and reports a lock of another process
    exactly when one blocks the request: the reported lock is in the table,
    blocks the request, and no blocking lock starts earlier, a write lock being
    reported before a read lock with the same start.  Otherwise it answers
    [F_UNLCK]. *)
Theorem flock_get_reports fd fl s e pid m :
  fl_ok m -> flock_i64 fl -> flock_validate fd (Some fl) = inr (s, e, pid) ->
  fl_i16Type fl = GJ_F_RDLCK \/ fl_i16Type fl = GJ_F_WRLCK \/ fl_i16Type fl = GJ_F_UNLCK ->
  let ty := if fl_i16Type fl =? GJ_F_UNLCK then GJ_F_WRLCK else fl_i16Type fl in
  wp (file_lock_get fd (Some fl)) (fun r m' => m' = m /\ exists out, r = (0, Some out) /\
     ((fl_i16Type out = GJ_F_UNLCK /\ ~ a_conflict (abs_locks m) fd ty pid s (range_norm_end e)) \/
      (a_conflict (abs_locks m) fd ty pid s (range_norm_end e) /\
       exists h, h ∈ g_aLk m /\ slot_conflicts fd ty s e pid h = true /\
         out = MkFlock (i16Type h) GJ_SEEK_SET (i64Start h)
                 (if i64End h <? 0 then 0 else i64End h - i64Start h) (u32Pid h) /\
         forall x, x ∈ g_aLk m -> slot_conflicts fd ty s e pid x = true -> reported_before h x))) m.
Proof.
  intros Hm Hi Hv Hty ty. destruct (flock_validate_wf _ _ _ _ _ Hi Hv) as (_ & Hr & _).
  pose proof (fl_lk m Hm) as Hl. eapply wp_mono; [by apply (wp_file_lock_get fd fl s e pid)|]. fold ty.
  intros r m' [-> H]. split; [done|].
  pose proof (conflict_scan_spec fd ty s e pid (g_aLk m)) as Hsc.
  pose proof (scan_blocked fd ty s e pid Hr (g_aLk m) Hl) as Hbl.
  destruct (conflict_scan fd ty s e pid (g_aLk m) None) as [h|]; eexists; (split; [exact H|]).
  - right. split; [apply abs_blocked; tauto|]. exists h. tauto.
  - left. split; [done|]. by rewrite <-(abs_blocked _ _ _ _ _ _ Hl).
Qed.

(** C24: a blocking request returns.  However often the caller sleeps and
    whatever the rest of the kernel does meanwhile, once it is resumed with
    nothing locked against it, [file_lock_set] returns: with 0 and every byte of
    the range locked for the caller, or with [ENOLCK] and a full table, or,
    from an earlier turn, with [EDEADLK]. *)
Theorem flock_setlkw_returns cur fd fl envs env s e pid m :
  fl_ok m -> flock_i64 fl -> flock_validate fd (Some fl) = inr (s, e, pid) ->
  fl_i16Type fl = GJ_F_RDLCK \/ fl_i16Type fl = GJ_F_WRLCK ->
  (forall i, cur = Some i -> (i < GJ_MAX_THREADS)%nat) ->
  Forall env_ok envs ->
  (forall m, fl_ok m -> wp env (fun _ m' => fl_ok m' /\
     ~ a_conflict (abs_locks m') fd (fl_i16Type fl) pid s (range_norm_end e)) m) ->
  wp (file_lock_set cur fd (Some fl) true (envs ++ [env]))
     (fun r m' => fl_ok m' /\
        ((r = Some 0 /\ forall b, s <= b < range_norm_end e -> abs_locks m' fd pid b = Some (fl_i16Type fl)) \/
         (r = Some (- LINUX_ENOLCK) /\ table_full (g_aLk m')) \/ r = Some (- GJ_FLOCK_EDEADLK))) m.
Proof.
  intros Hm Hi Hv Hty Hcur Henvs Henv. destruct (flock_validate_wf _ _ _ _ _ Hi Hv) as (_ & Hr & _).
  apply (wp_set_call _ _ _ _ _ s e pid); [done| | |tauto].
  - intros Hu. exfalso. rewrite Hu in Hty. by destruct Hty.
  - intros _. apply (wp_set_loop cur fd (fl_i16Type fl) s e pid Hr Hty Hcur); [done..|].
    intros m1 Hm1. eapply wp_mono; [by apply Henv|]. intros [] m2 [Hm2 Hn]. split; [done|].
    by rewrite (abs_blocked _ _ _ _ _ _ (fl_lk m2 Hm2)).
Qed.

(** The deadlock check is exact up to its depth.  When every process waits
    in at most one place, [soft_deadlock] answers yes exactly when a chain of at
    most [GJ_FLOCK_DEADLOCK_DEPTH] recorded waits leads from the blocker back to
    the caller. *)
Theorem flock_deadlock_exact self blocker m :
  self <> 0 -> blocker <> 0 -> blocker <> self -> one_wait (g_aWait m) ->
  wp (soft_deadlock self blocker) (fun d m' => m' = m /\
     (d = true <-> exists n, (n <= GJ_FLOCK_DEADLOCK_DEPTH)%nat /\ wait_chain (g_aWait m) n blocker self)) m.
Proof.
  intros Hs Hb Hne H1. unfold soft_deadlock. wsteps.
  rewrite !(proj2 (Z.eqb_neq _ _)) by done. cbn [orb]. wsteps.
  destruct (deadlock_walk _ _ _ _) eqn:E; wsteps; (split; [done|]).
  - split; [intros _; by apply deadlock_walk_sound|done].
  - split; [done|]. intros (n & Hn & Hc). rewrite (deadlock_walk_complete _ _ _ _ H1 Hc _ Hn) in E. done.
Qed.

(** Closing a descriptor and ending a process release exactly their locks:
    every byte of other descriptors, respectively of other processes, keeps its
    lock, and no waiter of an ended process stays in the table. *)
Theorem flock_release_exact fd pid m :
  fl_ok m -> 0 <= fd -> pid <> 0 ->
  wp (file_lock_release_fd fd) (fun _ m' => fl_ok m' /\
     forall f p b, abs_locks m' f p b = if decide (f = fd) then None else abs_locks m f p b) m /\
  wp (file_lock_release_pid pid) (fun _ m' => fl_ok m' /\
     (forall f p b, abs_locks m' f p b = if decide (p = pid) then None else abs_locks m f p b) /\
     forall w, w ∈ g_aWait m' -> w_u8Used w = true -> w_u32Pid w <> pid) m.
Proof.
  intros Hm Hfd Hp.
  assert (forall P (HP : forall f p, Decision (P f p)) m', release_post P m m' ->
    forall f p b, abs_locks m' f p b = if decide (P f p) then None else abs_locks m f p b) as Hab.
  { intros P HP m' [Hm' Hh] f p b. case_decide as Hd.
    - apply lock_at_none; [apply (fl_lk m' Hm')|]. intros t Ht. apply Hh in Ht as [_ ?]. done.
    - apply lock_at_ext; [apply (fl_lk m Hm)|apply (fl_lk m' Hm')|]. intros t. rewrite Hh. tauto. }
  split.
  - eapply wp_mono; [by apply wp_release_fd|]. intros r m' H. split; [apply H|].
    intros f p b. exact (Hab (fun f _ => f = fd) (fun f _ => decide (f = fd)) m' H f p b).
  - eapply wp_mono; [by apply wp_release_pid|]. intros r m' [H Hw]. split_and!; [apply H| |done].
    intros f p b. exact (Hab (fun _ q => q = pid) (fun _ q => decide (q = pid)) m' H f p b).
Qed.

(** ** Witnesses *)
Definition demo_thr : thr_mem :=
  MkThrMem (replicate GJ_MAX_THREADS (MkThread 0 GJ_THR_RUNNING 0 0)) (replicate GJ_MAX_THREADS 0)
    (replicate GJ_MAX_THREADS 0) (replicate GJ_MAX_THREADS 0) (replicate GJ_MAX_THREADS 0)
    (replicate 16 0) (Some 0%nat :: replicate 15 None) (Some 0%nat) 1 2.

Definition run_fl {A} (c : prog fl_mem A) (m : fl_mem) : fl_mem :=
  match c (KSt m ∅) with Some (_, st) => k_mem st | None => m end.

Definition answer {A} (c : prog fl_mem A) (m : fl_mem) : option A := fst <$> c (KSt m ∅).

Fixpoint run_events (evs : list fl_event) (m : fl_mem) : fl_mem :=
  match evs with
  | [] => m
  | ev :: evs' => run_events evs' (run_fl (fl_exec ev) m)
  end.

Definition demo_fl0 : fl_mem := run_fl file_lock_init (MkFl [] [] 0 0 0 demo_thr).

Lemma demo_fl0_reach : fl_reach demo_fl0.
Proof.
  apply (reach_init (MkFl [] [] 0 0 0 demo_thr) ∅ demo_fl0
           (match file_lock_init (KSt (MkFl [] [] 0 0 0 demo_thr) ∅) with Some (_, st) => k_tel st | None => ∅ end));
    vm_compute; reflexivity.
Qed.

Lemma run_events_reach evs : forall m, fl_reach m -> Forall fl_event_ok evs -> fl_reach (run_events evs m).
Proof.
  induction evs as [|ev evs IH]; intros m Hm Hevs; [done|]. inversion Hevs as [|? ? Hev Hevs']; subst.
  apply IH; [|done]. unfold run_fl.
  destruct (wp_fl_exec ev m (fl_reach_ok m Hm) Hev ∅) as ([] & m' & t' & E & _). rewrite E. by eapply reach_step.
Qed.

(** Process 10 writes bytes 0..99 and process 11 reads bytes 200..299 of file 3. *)
Definition demo_evs : list fl_event :=
  [EvTurn 3 (MkFlock GJ_F_WRLCK 0 0 100 10) false (-1) false;
   EvTurn 3 (MkFlock GJ_F_RDLCK 0 200 100 11) false (-1) false].
Definition demo_fl : fl_mem := run_events demo_evs demo_fl0.

Lemma demo_fl_reach : fl_reach demo_fl.
Proof. apply run_events_reach; [apply demo_fl0_reach|]. repeat constructor; vm_compute; discriminate. Qed.

Lemma demo_fl_ok : fl_ok demo_fl.
Proof. apply fl_reach_ok, demo_fl_reach. Qed.



Lemma flock_get_reports_witness :
  wp (file_lock_get 3 (Some (MkFlock GJ_F_WRLCK 0 50 0 12))) (fun r m' => m' = demo_fl /\ exists out, r = (0, Some out) /\
     ((fl_i16Type out = GJ_F_UNLCK /\ ~ a_conflict (abs_locks demo_fl) 3 GJ_F_WRLCK 12 50 I64_MAX) \/
      (a_conflict (abs_locks demo_fl) 3 GJ_F_WRLCK 12 50 I64_MAX /\
       exists h, h ∈ g_aLk demo_fl /\ slot_conflicts 3 GJ_F_WRLCK 50 GJ_FLOCK_EOF 12 h = true /\
         out = MkFlock (i16Type h) GJ_SEEK_SET (i64Start h)
                 (if i64End h <? 0 then 0 else i64End h - i64Start h) (u32Pid h) /\
         forall x, x ∈ g_aLk demo_fl -> slot_conflicts 3 GJ_F_WRLCK 50 GJ_FLOCK_EOF 12 x = true -> reported_before h x)))
     demo_fl.
Proof.
  apply (flock_get_reports 3 (MkFlock GJ_F_WRLCK 0 50 0 12) 50 GJ_FLOCK_EOF 12 demo_fl).
  - apply demo_fl_ok.
  - split; vm_compute; discriminate.
  - vm_compute. reflexivity.
  - right. left. reflexivity.
Defined.

(** While the caller sleeps, descriptor 3 is closed. *)
Lemma close_unblocks m : fl_ok m ->
  wp (file_lock_release_fd 3 ;;; pret tt) (fun _ m' => fl_ok m' /\
     ~ a_conflict (abs_locks m') 3 GJ_F_WRLCK 12 50 60) m.
Proof.
  intros Hm. apply wp_bind. eapply wp_mono; [apply wp_release_fd; [lia|done]|].
  intros r m' [Hm' Hh]. wsteps. split; [done|]. intros (b & p & t & _ & _ & E & _).
  apply lock_at_held in E; [|apply (fl_lk m' Hm')]. apply Hh in E as [_ E]. by apply E.
Qed.

Lemma flock_setlkw_returns_witness :
  wp (file_lock_set (Some 1%nat) 3 (Some (MkFlock GJ_F_WRLCK 0 50 10 12)) true ([pret tt] ++ [file_lock_release_fd 3 ;;; pret tt]))
     (fun r m' => fl_ok m' /\
        ((r = Some 0 /\ forall b, 50 <= b < range_norm_end 60 -> abs_locks m' 3 12 b = Some GJ_F_WRLCK) \/
         (r = Some (- LINUX_ENOLCK) /\ table_full (g_aLk m')) \/ r = Some (- GJ_FLOCK_EDEADLK))) demo_fl.
Proof.
  apply (flock_setlkw_returns (Some 1%nat) 3 (MkFlock GJ_F_WRLCK 0 50 10 12) [pret tt] _ 50 60 12 demo_fl).
  - apply demo_fl_ok.
  - split; vm_compute; discriminate.
  - vm_compute. reflexivity.
  - right. reflexivity.
  - intros i E. injection E as <-. unfold GJ_MAX_THREADS. lia.
  - constructor; [|constructor]. intros m Hm. apply wp_ret. exact Hm.
  - exact close_unblocks.
Defined.

Definition demo_wait : fl_mem :=
  set_wait [MkWaiter true 3 GJ_F_WRLCK 0 100 20 21 0] demo_fl.

Lemma flock_deadlock_exact_witness :
  wp (soft_deadlock 21 20) (fun d m' => m' = demo_wait /\
     (d = true <-> exists n, (n <= GJ_FLOCK_DEADLOCK_DEPTH)%nat /\ wait_chain (g_aWait demo_wait) n 20 21)) demo_wait.
Proof.
  apply (flock_deadlock_exact 21 20 demo_wait); [lia|lia|lia|].
  intros p q q' (w & Hw & _ & _ & <-) (w' & Hw' & _ & _ & <-). cbn [g_aWait demo_wait set_wait] in Hw, Hw'.
  apply list_elem_of_singleton in Hw, Hw'. by rewrite Hw, Hw'.
Defined.

Lemma flock_release_exact_witness :
  wp (file_lock_release_fd 3) (fun _ m' => fl_ok m' /\
     forall f p b, abs_locks m' f p b = if decide (f = 3) then None else abs_locks demo_fl f p b) demo_fl /\
  wp (file_lock_release_pid 11) (fun _ m' => fl_ok m' /\
     (forall f p b, abs_locks m' f p b = if decide (p = 11) then None else abs_locks demo_fl f p b) /\
     forall w, w ∈ g_aWait m' -> w_u8Used w = true -> w_u32Pid w <> 11) demo_fl.
Proof. apply (flock_release_exact 3 11 demo_fl); [apply demo_fl_ok|lia|lia]. Defined.

(** ** Behaviours of the table *)
Section Behaviours.

(** A refused lock is granted after the holder unlocks the middle of its range:
    the holder keeps both ends. *)
Example carve_splits :
  let m1 := run_fl (set_unlock 3 40 60 10) demo_fl in
  answer (file_lock_set None 3 (Some (MkFlock GJ_F_WRLCK 0 45 10 12)) false []) demo_fl = Some (Some (- LINUX_EAGAIN)) /\
  answer (file_lock_set None 3 (Some (MkFlock GJ_F_WRLCK 0 45 10 12)) false []) m1 = Some (Some 0) /\
  (abs_locks m1 3 10 39, abs_locks m1 3 10 40, abs_locks m1 3 10 60) = (Some GJ_F_WRLCK, None, Some GJ_F_WRLCK).
Proof. vm_compute. auto. Qed.

(** With a full table a request that fails with [ENOLCK] has already given up
    the caller's old lock on the requested bytes. *)
Definition full_evs : list fl_event :=
  EvTurn 3 (MkFlock GJ_F_WRLCK 0 0 100 7) false (-1) false ::
  ((fun i => EvTurn 5 (MkFlock GJ_F_WRLCK 0 (10 * Z.of_nat i) 5 9) false (-1) false) <$> seq 0 31).

Example enolck_loses_range :
  let m := run_events full_evs demo_fl0 in
  let c := file_lock_set None 3 (Some (MkFlock GJ_F_WRLCK 0 50 100 7)) false [] in
  g_u32NLocks m = 32 /\ answer c m = Some (Some (- LINUX_ENOLCK)) /\
  abs_locks m 3 7 60 = Some GJ_F_WRLCK /\ abs_locks (run_fl c m) 3 7 60 = None.
Proof. vm_compute. auto. Qed.

(** The byte at the largest offset cannot be locked: two processes are both
    granted a write lock on it. *)
Example last_byte_shared :
  let r p := Some (MkFlock GJ_F_WRLCK 0 I64_MAX 0 p) in
  let m1 := run_fl (file_lock_set None 3 (r 10) false []) demo_fl0 in
  answer (file_lock_set None 3 (r 10) false []) demo_fl0 = Some (Some 0) /\
  answer (file_lock_set None 3 (r 11) false []) m1 = Some (Some 0) /\
  g_u32NLocks (run_fl (file_lock_set None 3 (r 11) false []) m1) = 2.
Proof. vm_compute. auto. Qed.

(** Five sleepers, and one unlock.  Process 100 holds bytes 0..9 and 20..29;
    threads 1 to 4 wait for the first range and thread 5 for the second.
    Unlocking the second wakes the first four threads of the table only; they
    find their range still locked and sleep again, and thread 5 sleeps on
    although nothing blocks its request. *)
Definition sleeper_evs : list fl_event :=
  [EvTurn 3 (MkFlock GJ_F_WRLCK 0 0 10 100) false (-1) false;
   EvTurn 3 (MkFlock GJ_F_WRLCK 0 20 10 100) false (-1) false] ++
  flat_map (fun i => let q := MkFlock GJ_F_WRLCK 0 0 10 (Z.of_nat i) in
    [EvTurn 3 q true (-1) false; EvSleep (Some i) 3 q]) (seq 1 4) ++
  [EvTurn 3 (MkFlock GJ_F_WRLCK 0 20 10 5) true (-1) false;
   EvSleep (Some 5%nat) 3 (MkFlock GJ_F_WRLCK 0 20 10 5);
   EvTurn 3 (MkFlock GJ_F_UNLCK 0 20 10 100) false (-1) false] ++
  flat_map (fun i => let q := MkFlock GJ_F_WRLCK 0 0 10 (Z.of_nat i) in
    [EvTurn 3 q true (Z.of_nat i - 1) true; EvSleep (Some i) 3 q]) (seq 1 4).

Example sleeper_forgotten :
  let m := run_events sleeper_evs demo_fl0 in
  (u32State <$> g_aThreads (fl_thr m) !! 5%nat) = Some GJ_THR_BLOCKED /\
  conflict_scan 3 GJ_F_WRLCK 20 30 5 (g_aLk m) None = None.
Proof. vm_compute. auto. Qed.
End Behaviours.
