(* ===== verification/KString.v ===== *)
(** The kernel's memory and string helpers, [kernel/lib/string.c].

    Memory is a finite map from addresses to bytes (integers 0..255); a load or
    store at an address outside it faults.  Pointers are addresses, [None] is
    NULL.  The byte counts of the [mem] family are [nat].  The loops that run to
    a NUL take as many steps as there are mapped bytes: each step reads a new
    address, so a longer run has faulted before. *)
From stdpp Require Import base gmap list strings.
From Stdlib Require Import ZArith Lia.
From S2P Require Import Prelude.

Abbreviation bmem := (gmap Z Z).

Definition ld8 (p : Z) : prog bmem Z :=
  m <- pget ;; match m !! p with Some b => pret b | None => pfault end.
Definition st8 (p b : Z) : prog bmem unit :=
  m <- pget ;; match m !! p with Some _ => pput (<[p := b]> m) | None => pfault end.

Definition u8_wrap (z : Z) : Z := z mod 256.

(** ** The [mem] family *)
Fixpoint memset_loop (pOut fill : Z) (cb : nat) : prog bmem unit :=
  match cb with
  | O => pret tt
  | S cb' => st8 pOut fill ;;; memset_loop (pOut + 1) fill cb'
  end.

Definition memset (pDst nFill : Z) (cb : nat) : prog bmem Z :=
  memset_loop pDst (u8_wrap nFill) cb ;;; pret pDst.

(** The forward byte copy that [memcpy] and [memmove] share. *)
Fixpoint copy_up (pOut pIn : Z) (cb : nat) : prog bmem unit :=
  match cb with
  | O => pret tt
  | S cb' => b <- ld8 pIn ;; st8 pOut b ;;; copy_up (pOut + 1) (pIn + 1) cb'
  end.

Definition memcpy (pDst pSrc : Z) (cb : nat) : prog bmem Z :=
  copy_up pDst pSrc cb ;;; pret pDst.

(** The backward copy of [memmove]: both pointers are decremented first. *)
Fixpoint copy_down (pOut pIn : Z) (cb : nat) : prog bmem unit :=
  match cb with
  | O => pret tt
  | S cb' => b <- ld8 (pIn - 1) ;; st8 (pOut - 1) b ;;; copy_down (pOut - 1) (pIn - 1) cb'
  end.

Definition memmove (pDst pSrc : Z) (cb : nat) : prog bmem Z :=
  if (pDst =? pSrc) || (cb =? 0)%nat then pret pDst else
  if pDst <? pSrc then copy_up pDst pSrc cb ;;; pret pDst
  else copy_down (pDst + Z.of_nat cb) (pSrc + Z.of_nat cb) cb ;;; pret pDst.

Fixpoint memcmp (pA pB : Z) (cb : nat) : prog bmem Z :=
  match cb with
  | O => pret 0
  | S cb' =>
      a <- ld8 pA ;; b <- ld8 pB ;;
      if negb (a =? b) then pret (a - b) else memcmp (pA + 1) (pB + 1) cb'
  end.

Fixpoint memchr_loop (pCur want : Z) (cb : nat) : prog bmem (option Z) :=
  match cb with
  | O => pret None
  | S cb' => b <- ld8 pCur ;; if b =? want then pret (Some pCur) else memchr_loop (pCur + 1) want cb'
  end.

Definition memchr (pHay nNeedle : Z) (cb : nat) : prog bmem (option Z) :=
  memchr_loop pHay (u8_wrap nNeedle) cb.

(** ** The [str] family *)

(** Steps after which a run to a NUL has ended or faulted. *)
Definition str_fuel : prog bmem nat := m <- pget ;; pret (S (size m)).

Fixpoint strlen_loop (fuel : nat) (sz : Z) (c : Z) : prog bmem Z :=
  match fuel with
  | O => pfault
  | S f => b <- ld8 (sz + c) ;; if b =? 0 then pret c else strlen_loop f sz (c + 1)
  end.

Definition strlen (sz : Z) : prog bmem Z := f <- str_fuel ;; strlen_loop f sz 0.

Fixpoint strnlen_loop (fuel : nat) (sz max c : Z) : prog bmem Z :=
  match fuel with
  | O => pfault
  | S f =>
      if negb (c <? max) then pret c else
      b <- ld8 (sz + c) ;; if b =? 0 then pret c else strnlen_loop f sz max (c + 1)
  end.

Definition strnlen (sz max : Z) : prog bmem Z := f <- str_fuel ;; strnlen_loop f sz max 0.

Fixpoint strcmp_loop (fuel : nat) (pA pB : Z) : prog bmem Z :=
  match fuel with
  | O => pfault
  | S f =>
      a <- ld8 pA ;;
      if negb (a =? 0) then
        b <- ld8 pB ;;
        (if a =? b then strcmp_loop f (pA + 1) (pB + 1) else pret (a - b))
      else b <- ld8 pB ;; pret (a - b)
  end.

Definition strcmp (szA szB : Z) : prog bmem Z := f <- str_fuel ;; strcmp_loop f szA szB.

Fixpoint strncmp_loop (fuel : nat) (pA pB max : Z) : prog bmem Z :=
  match fuel with
  | O => pfault
  | S f =>
      a <- ld8 pA ;;
      if (1 <? max) && negb (a =? 0) then
        b <- ld8 pB ;;
        (if a =? b then strncmp_loop f (pA + 1) (pB + 1) (max - 1) else pret (a - b))
      else b <- ld8 pB ;; pret (a - b)
  end.

Definition strncmp (szA szB max : Z) : prog bmem Z :=
  if max =? 0 then pret 0 else f <- str_fuel ;; strncmp_loop f szA szB max.

Definition strlcpy (szDst szSrc cbDst : Z) : prog bmem Z :=
  cSrc <- strlen szSrc ;;
  if cbDst =? 0 then pret cSrc else
  let iCopy := if cbDst <=? cSrc then cbDst - 1 else cSrc in
  (if 0 <? iCopy then memcpy szDst szSrc (Z.to_nat iCopy) ;;; pret tt else pret tt) ;;;
  st8 (szDst + iCopy) 0 ;;;
  pret cSrc.

Definition strlcat (szDst szSrc cbDst : Z) : prog bmem Z :=
  cDst <- strnlen szDst cbDst ;;
  cSrc <- strlen szSrc ;;
  if cDst =? cbDst then pret (u64_wrap (cbDst + cSrc)) else
  let cbRoom := cbDst - cDst in
  let iCopy := if cbRoom <=? cSrc then cbRoom - 1 else cSrc in
  (if 0 <? iCopy then memcpy (szDst + cDst) szSrc (Z.to_nat iCopy) ;;; pret tt else pret tt) ;;;
  st8 (szDst + (cDst + iCopy)) 0 ;;;
  pret (u64_wrap (cDst + cSrc)).

Fixpoint strchr_loop (fuel : nat) (sz want : Z) : prog bmem (option Z) :=
  match fuel with
  | O => pfault
  | S f =>
      b <- ld8 sz ;;
      if b =? want then pret (Some sz) else
      if b =? 0 then pret None else strchr_loop f (sz + 1) want
  end.

Definition strchr (sz nCh : Z) : prog bmem (option Z) :=
  f <- str_fuel ;; strchr_loop f sz (u8_wrap nCh).

Fixpoint strrchr_loop (fuel : nat) (sz want : Z) (last : option Z) : prog bmem (option Z) :=
  match fuel with
  | O => pfault
  | S f =>
      b <- ld8 sz ;;
      let last' := if b =? want then Some sz else last in
      if b =? 0 then pret last' else strrchr_loop f (sz + 1) want last'
  end.

Definition strrchr (sz nCh : Z) : prog bmem (option Z) :=
  f <- str_fuel ;; strrchr_loop f sz (u8_wrap nCh) None.

(** The inner loop of [strstr]: does the needle match at [pHay], from index
    [i], [k] characters left?  [true] when the index reaches the end. *)
Fixpoint match_at (pHay szNeedle : Z) (k : nat) (i : Z) : prog bmem bool :=
  match k with
  | O => pret true
  | S k' =>
      h <- ld8 (pHay + i) ;;
      if h =? 0 then pret false else
      c <- ld8 (szNeedle + i) ;;
      if negb (h =? c) then pret false else match_at pHay szNeedle k' (i + 1)
  end.

Fixpoint strstr_loop (fuel : nat) (szHay szNeedle cNeedle iHay : Z) : prog bmem (option Z) :=
  match fuel with
  | O => pfault
  | S f =>
      h <- ld8 (szHay + iHay) ;;
      if h =? 0 then pret None else
      ok <- match_at (szHay + iHay) szNeedle (Z.to_nat cNeedle) 0 ;;
      if ok : bool then pret (Some (szHay + iHay)) else strstr_loop f szHay szNeedle cNeedle (iHay + 1)
  end.

Definition strstr (szHay szNeedle : Z) : prog bmem (option Z) :=
  n0 <- ld8 szNeedle ;;
  if n0 =? 0 then pret (Some szHay) else
  cNeedle <- strlen szNeedle ;;
  f <- str_fuel ;;
  strstr_loop f szHay szNeedle cNeedle 0.

(** ** Little-endian words in memory *)

(** [n] bytes at [p], least significant first; [None] when one is not mapped. *)
Fixpoint user_bytes (n : nat) (u : bmem) (p : Z) : option Z :=
  match n with
  | O => Some 0
  | S n' =>
      match u !! p, user_bytes n' u (p + 1) with
      | Some b, Some r => Some (b + 256 * r)
      | _, _ => None
      end
  end.

Fixpoint put_bytes (n : nat) (p v : Z) (u : bmem) : bmem :=
  match n with
  | O => u
  | S n' => <[p := v mod 256]> (put_bytes n' (p + 1) (v / 256) u)
  end.
