(* ===== verification/KStringProofs.v ===== *)
(** Correctness of the memory and string helpers. *)
From stdpp Require Import base gmap list strings.
From Stdlib Require Import ZArith Lia.
From S2P Require Import Prelude KString.

(** The [n] bytes at [p] exist. *)
Definition mapped (m : bmem) (p : Z) (n : nat) : Prop :=
  forall i, 0 <= i < Z.of_nat n -> is_Some (m !! (p + i)).

(** [m'] is [m] with the [n] bytes at [s] copied to [d], read before any write. *)
Definition copied (m : bmem) (d s : Z) (n : nat) (m' : bmem) : Prop :=
  forall a, m' !! a = if decide (d <= a < d + Z.of_nat n) then m !! (s + (a - d)) else m !! a.

Lemma wp_ld8 p b Q m : m !! p = Some b -> Q b m -> wp (ld8 p) Q m.
Proof. intros E H. apply wp_bind, wp_get. rewrite E. by apply wp_ret. Qed.

Lemma wp_st8 p b Q m : is_Some (m !! p) -> Q tt (<[p := b]> m) -> wp (st8 p b) Q m.
Proof. intros [x E] H. apply wp_bind, wp_get. rewrite E. by apply wp_put. Qed.

Lemma mapped_insert m p n a b : mapped m p n -> mapped (<[a := b]> m) p n.
Proof. intros H i Hi. apply lookup_insert_is_Some. destruct (decide (a = p + i)); [by left|right; auto]. Qed.

Lemma mapped_shift m p n k : mapped m p (n + k) -> mapped m (p + Z.of_nat k) n.
Proof. intros H i Hi. rewrite <-Z.add_assoc. apply H. lia. Qed.

Lemma mapped_le m p n k : mapped m p n -> (k <= n)%nat -> mapped m p k.
Proof. intros H Hk i Hi. apply H. lia. Qed.

Lemma copied_nil m d s : copied m d s 0 m.
Proof. intros a. by rewrite decide_False by lia. Qed.

(** ** Copying *)

(** Forward copying is safe when the target starts at or below the source, or
    past its end. *)
Lemma wp_copy_up n : forall d s m,
  mapped m d n -> mapped m s n -> d <= s \/ s + Z.of_nat n <= d ->
  wp (copy_up d s n) (fun _ m' => copied m d s n m') m.
Proof.
  induction n as [|n IH]; intros d s m Hd Hs Hlap; cbn [copy_up].
  { apply wp_ret, copied_nil. }
  destruct (Hs 0) as [b Eb]; [lia|]. rewrite Z.add_0_r in Eb.
  apply wp_bind, (wp_ld8 _ b); [done|]. apply wp_bind, wp_st8.
  { destruct (Hd 0) as [x Ex]; [lia|]. rewrite Z.add_0_r in Ex. by exists x. }
  eapply wp_mono.
  - apply (IH (d + 1) (s + 1)); [apply mapped_insert, (mapped_shift _ _ _ 1); by rewrite Nat.add_1_r..|lia].
  - intros [] m' H a. rewrite (H a). repeat case_decide; try lia.
    + rewrite lookup_insert_ne by lia. f_equal. lia.
    + assert (a = d) as -> by lia. rewrite lookup_insert_eq, Z.sub_diag, Z.add_0_r. done.
    + by rewrite lookup_insert_ne by lia.
Qed.

(** Backward copying from the ends is safe when the target is above the source. *)
Lemma wp_copy_down n : forall d s m,
  mapped m d n -> mapped m s n -> s <= d ->
  wp (copy_down (d + Z.of_nat n) (s + Z.of_nat n) n) (fun _ m' => copied m d s n m') m.
Proof.
  induction n as [|n IH]; intros d s m Hd Hs Hlap; cbn [copy_down].
  { apply wp_ret, copied_nil. }
  replace (d + Z.of_nat (S n) - 1) with (d + Z.of_nat n) by lia.
  replace (s + Z.of_nat (S n) - 1) with (s + Z.of_nat n) by lia.
  destruct (Hs (Z.of_nat n)) as [b Eb]; [lia|].
  apply wp_bind, (wp_ld8 _ b); [done|]. apply wp_bind, wp_st8; [apply Hd; lia|].
  eapply wp_mono; [apply IH; [apply mapped_insert; eapply mapped_le; [done|lia]..|done]|].
  intros [] m' H a. rewrite (H a). repeat case_decide; try lia.
  - by rewrite lookup_insert_ne by lia.
  - assert (a = d + Z.of_nat n) as -> by lia. rewrite lookup_insert_eq. symmetry.
    by replace (s + (d + Z.of_nat n - d)) with (s + Z.of_nat n) by lia.
  - by rewrite lookup_insert_ne by lia.
Qed.

Lemma wp_memmove d s n m :
  mapped m d n -> mapped m s n ->
  wp (memmove d s n) (fun r m' => r = d /\ copied m d s n m') m.
Proof.
  intros Hd Hs. unfold memmove. destruct (Z.eqb_spec d s) as [->|Hne].
  { apply wp_ret. split; [done|]. intros a. case_decide; [|done]. f_equal. lia. }
  destruct (Nat.eqb_spec n 0) as [->|Hn]; cbn [orb].
  { apply wp_ret. split; [done|apply copied_nil]. }
  destruct (Z.ltb_spec d s).
  - wsteps. eapply wp_mono; [apply wp_copy_up; auto; lia|]. intros [] m' H'. wsteps. done.
  - wsteps. eapply wp_mono; [apply wp_copy_down; auto; lia|]. intros [] m' H'. wsteps. done.
Qed.

Lemma wp_memcpy d s n m :
  mapped m d n -> mapped m s n -> d <= s \/ s + Z.of_nat n <= d ->
  wp (memcpy d s n) (fun r m' => r = d /\ copied m d s n m') m.
Proof.
  intros Hd Hs Hl. unfold memcpy. wsteps. eapply wp_mono; [by apply wp_copy_up|]. intros [] m' H. wsteps. done.
Qed.

Lemma wp_memset d v n : forall m,
  mapped m d n ->
  wp (memset d v n) (fun r m' => r = d /\
     forall a, m' !! a = if decide (d <= a < d + Z.of_nat n) then Some (u8_wrap v) else m !! a) m.
Proof.
  intros m Hd. unfold memset. generalize (u8_wrap v) as f. intros f. apply wp_bind.
  eapply (wp_mono _ (fun _ m' => forall a, m' !! a = if decide (d <= a < d + Z.of_nat n) then Some f else m !! a)).
  2:{ intros [] m' H. wsteps. done. }
  revert d m Hd. induction n as [|n IH]; intros d m Hd; cbn [memset_loop].
  { apply wp_ret. intros a. by rewrite decide_False by lia. }
  apply wp_bind, wp_st8; [destruct (Hd 0) as [x Ex]; [lia|]; rewrite Z.add_0_r in Ex; by exists x|].
  eapply wp_mono; [apply IH, mapped_insert, (mapped_shift _ _ _ 1); by rewrite Nat.add_1_r|].
  intros [] m' H a. rewrite (H a). repeat case_decide; try lia; try done.
  - assert (a = d) as -> by lia. by rewrite lookup_insert_eq.
  - by rewrite lookup_insert_ne by lia.
Qed.

(** ** Strings *)

(** The NUL-terminated string [s] is at [p]. *)
Definition cstr (m : bmem) (p : Z) (s : list Z) : Prop :=
  (forall i b, s !! i = Some b -> m !! (p + Z.of_nat i) = Some b /\ b <> 0) /\
  m !! (p + Z.of_nat (length s)) = Some 0.

Lemma cstr_mapped m p s : cstr m p s -> mapped m p (S (length s)).
Proof.
  intros [H1 H2] i Hi. destruct (decide (i = Z.of_nat (length s))) as [->|]; [by exists 0|].
  destruct (lookup_lt_is_Some_2 s (Z.to_nat i)) as [b Eb]; [lia|]. destruct (H1 _ _ Eb) as [E _].
  rewrite Z2Nat.id in E by lia. by exists b.
Qed.

(** A run of mapped bytes is no longer than the memory. *)
Lemma mapped_size m p n : mapped m p n -> (n <= size m)%nat.
Proof.
  intros H. set (l := (fun i => p + Z.of_nat i) <$> seq 0 n).
  assert (NoDup l) as Hnd.
  { apply NoDup_fmap_2; [|apply NoDup_seq]. intros x y E. lia. }
  assert (list_to_set l ⊆ dom m) as Hsub.
  { intros a Ha. apply elem_of_list_to_set, list_elem_of_fmap in Ha as (i & -> & Hi).
    apply elem_of_seq in Hi. apply elem_of_dom, H. lia. }
  apply subseteq_size in Hsub. rewrite size_list_to_set in Hsub by done.
  unfold l in Hsub. rewrite length_fmap, length_seq, size_dom in Hsub. done.
Qed.

Lemma wp_str_fuel Q m : Q (S (size m)) m -> wp str_fuel Q m.
Proof. intros H. unfold str_fuel. wsteps. done. Qed.

Lemma cstr_fuel m p s : cstr m p s -> (length s < size m)%nat.
Proof. intros H. apply cstr_mapped, mapped_size in H. lia. Qed.

Lemma cstr_byte m p s (i : nat) :
  cstr m p s -> (i <= length s)%nat ->
  exists b, m !! (p + Z.of_nat i) = Some b /\ (b = 0 <-> i = length s) /\ default 0 (s !! i) = b.
Proof.
  intros [H1 H2] Hi. destruct (decide (i = length s)) as [->|].
  - exists 0. split_and!; [done|done|]. by rewrite lookup_ge_None_2 by lia.
  - destruct (lookup_lt_is_Some_2 s i) as [b Eb]; [lia|]. destruct (H1 _ _ Eb) as [E Hb]. exists b.
    split_and!; [done|split; [done|lia]|]. by rewrite Eb.
Qed.

Lemma wp_strlen p s m : cstr m p s -> wp (strlen p) (fun r m' => r = Z.of_nat (length s) /\ m' = m) m.
Proof.
  intros Hs. unfold strlen. apply wp_bind, wp_str_fuel.
  pose proof (cstr_fuel m p s Hs) as Hf.
  assert (forall fuel i, (length s - i < fuel)%nat -> (i <= length s)%nat ->
    wp (strlen_loop fuel p (Z.of_nat i)) (fun r m' => r = Z.of_nat (length s) /\ m' = m) m) as H.
  { induction fuel as [|f IH]; intros i Hfu Hi; [lia|]. cbn [strlen_loop].
    destruct (cstr_byte m p s i Hs Hi) as (b & Eb & Hb & _). apply wp_bind, (wp_ld8 _ b); [done|].
    destruct (Z.eqb_spec b 0) as [->|Hnz].
    - wsteps. split; [|done]. f_equal. by apply Hb.
    - assert (i <> length s) by tauto. replace (Z.of_nat i + 1) with (Z.of_nat (S i)) by lia. apply IH; lia. }
  apply (H _ 0%nat); lia.
Qed.

(** [strnlen] stops at the NUL or at the bound. *)
Lemma wp_strnlen p s max m :
  cstr m p s -> 0 <= max ->
  wp (strnlen p max) (fun r m' => r = Z.min max (Z.of_nat (length s)) /\ m' = m) m.
Proof.
  intros Hs Hmax. unfold strnlen. apply wp_bind, wp_str_fuel.
  pose proof (cstr_fuel m p s Hs) as Hf.
  assert (forall fuel i, (length s - i < fuel)%nat -> (i <= length s)%nat -> Z.of_nat i <= max ->
    wp (strnlen_loop fuel p max (Z.of_nat i)) (fun r m' => r = Z.min max (Z.of_nat (length s)) /\ m' = m) m) as H.
  { induction fuel as [|f IH]; intros i Hfu Hi Hm; [lia|]. cbn [strnlen_loop].
    destruct (Z.ltb_spec (Z.of_nat i) max); cbn [negb]; [|wsteps; split; [lia|done]].
    destruct (cstr_byte m p s i Hs Hi) as (b & Eb & Hb & _). apply wp_bind, (wp_ld8 _ b); [done|].
    destruct (Z.eqb_spec b 0) as [->|Hnz].
    - wsteps. split; [|done]. assert (i = length s) by tauto. lia.
    - assert (i <> length s) by tauto. replace (Z.of_nat i + 1) with (Z.of_nat (S i)) by lia. apply IH; lia. }
  apply (H _ 0%nat); lia.
Qed.

(** No NUL among the first [n] bytes. *)
Definition no_nul (m : bmem) (p : Z) (n : nat) : Prop :=
  forall i, 0 <= i < Z.of_nat n -> exists b, m !! (p + i) = Some b /\ b <> 0.

Lemma wp_strnlen_full p n m :
  no_nul m p n -> wp (strnlen p (Z.of_nat n)) (fun r m' => r = Z.of_nat n /\ m' = m) m.
Proof.
  intros Hn. unfold strnlen. apply wp_bind, wp_str_fuel.
  assert (n <= size m)%nat as Hf.
  { apply (mapped_size m p). intros i Hi. destruct (Hn i Hi) as (b & E & _). by exists b. }
  assert (forall fuel i, (n - i < fuel)%nat -> (i <= n)%nat ->
    wp (strnlen_loop fuel p (Z.of_nat n) (Z.of_nat i)) (fun r m' => r = Z.of_nat n /\ m' = m) m) as H.
  { induction fuel as [|f IH]; intros i Hfu Hi; [lia|]. cbn [strnlen_loop].
    destruct (Z.ltb_spec (Z.of_nat i) (Z.of_nat n)); cbn [negb]; [|wsteps; split; [lia|done]].
    destruct (Hn (Z.of_nat i)) as (b & Eb & Hb); [lia|]. apply wp_bind, (wp_ld8 _ b); [done|].
    rewrite (proj2 (Z.eqb_neq _ _) Hb). replace (Z.of_nat i + 1) with (Z.of_nat (S i)) by lia. apply IH; lia. }
  apply (H _ 0%nat); lia.
Qed.

(** ** Bounded copies *)

(** The two byte ranges do not meet. *)
Definition ranges_apart (p : Z) (n : nat) (q : Z) (k : nat) : Prop :=
  p + Z.of_nat n <= q \/ q + Z.of_nat k <= p.

(** Nothing outside the [n] bytes at [p] changed. *)
Definition outside_eq (m m' : bmem) (p : Z) (n : nat) : Prop :=
  forall a, ~ (p <= a < p + Z.of_nat n) -> m' !! a = m !! a.

(** [m'] is [m] with the bytes [l] and a NUL written at [d]. *)
Definition put_str (m : bmem) (d : Z) (l : list Z) (m' : bmem) : Prop :=
  forall a, m' !! a =
    if decide (d <= a < d + Z.of_nat (length l)) then l !! Z.to_nat (a - d)
    else if decide (a = d + Z.of_nat (length l)) then Some 0 else m !! a.

(** The tail that [strlcpy] and [strlcat] share: copy [k] bytes, then a NUL. *)
Lemma wp_copy_nul d src s k (r : Z) m :
  cstr m src s -> (k <= length s)%nat -> mapped m d (S k) -> ranges_apart d (S k) src (S (length s)) ->
  wp ((if 0 <? Z.of_nat k then memcpy d src (Z.to_nat (Z.of_nat k)) ;;; pret tt else pret tt) ;;;
      st8 (d + Z.of_nat k) 0 ;;; pret r)
     (fun r' m' => r' = r /\ put_str m d (take k s) m') m.
Proof.
  intros Hs Hk Hd Hap. rewrite Nat2Z.id.
  assert (length (take k s) = k) as Hlen by (rewrite length_take; lia).
  assert (forall m1, copied m d src k m1 ->
    wp (st8 (d + Z.of_nat k) 0 ;;; pret r) (fun r' m' => r' = r /\ put_str m d (take k s) m') m1) as Hend.
  { intros m1 Hc. apply wp_bind, wp_st8.
    - rewrite (Hc _), decide_False by lia. apply Hd. lia.
    - wsteps. split; [done|]. intros a. rewrite Hlen. repeat case_decide; try lia.
      + rewrite lookup_insert_ne by lia. rewrite (Hc a), decide_True by lia.
        destruct (lookup_lt_is_Some_2 s (Z.to_nat (a - d))) as [b Eb]; [lia|].
        rewrite lookup_take_lt by lia. rewrite Eb. destruct Hs as [H1 _]. destruct (H1 _ _ Eb) as [E _].
        rewrite Z2Nat.id in E by lia. done.
      + subst a. by rewrite lookup_insert_eq.
      + rewrite lookup_insert_ne by lia. by rewrite (Hc a), decide_False by lia. }
  apply wp_bind. destruct (Z.ltb_spec 0 (Z.of_nat k)).
  - apply wp_bind. eapply wp_mono.
    + apply wp_memcpy; [eapply mapped_le; [exact Hd|lia]|eapply mapped_le; [by apply cstr_mapped|lia]|].
      unfold ranges_apart in Hap. lia.
    + intros x m1 [_ Hc]. apply wp_ret. by apply Hend.
  - apply wp_ret. apply Hend. assert (k = 0%nat) as -> by lia. apply copied_nil.
Qed.

Lemma put_str_cstr m d pre l m' :
  put_str m (d + Z.of_nat (length pre)) l m' -> (forall b, b ∈ l -> b <> 0) ->
  (forall i b, pre !! i = Some b -> m !! (d + Z.of_nat i) = Some b /\ b <> 0) ->
  cstr m' d (pre ++ l).
Proof.
  intros H Hl Hpre. split.
  - intros i b E. rewrite (H _). destruct (decide (i < length pre)%nat).
    + rewrite lookup_app_l in E by done. rewrite !decide_False by lia. by apply Hpre.
    + rewrite lookup_app_r in E by lia. pose proof (lookup_lt_Some _ _ _ E).
      rewrite decide_True by lia. split; [|by eapply Hl, list_elem_of_lookup_2].
      rewrite <-E. f_equal. lia.
  - rewrite (H _), length_app, decide_False, decide_True by lia. done.
Qed.

Lemma put_str_outside m d l m' n :
  put_str m d l m' -> (length l < n)%nat -> outside_eq m m' d n.
Proof. intros H Hn a Ha. rewrite (H a), !decide_False by lia. done. Qed.

Lemma cstr_take_nonzero m p s k b : cstr m p s -> b ∈ take k s -> b <> 0.
Proof.
  intros [H1 _] Hb. apply list_elem_of_lookup in Hb as [i Hi]. apply lookup_take_Some in Hi as [Hi _].
  by destruct (H1 _ _ Hi).
Qed.

Lemma wp_strlcpy d src s (cb : nat) m :
  cstr m src s -> (0 < cb)%nat -> mapped m d cb -> ranges_apart d cb src (S (length s)) ->
  wp (strlcpy d src (Z.of_nat cb)) (fun r m' =>
     r = Z.of_nat (length s) /\ cstr m' d (take (cb - 1) s) /\ outside_eq m m' d cb) m.
Proof.
  intros Hs Hcb Hd Hap. unfold strlcpy. apply wp_bind. eapply wp_mono; [by apply wp_strlen|].
  intros r m0 [-> ->]. rewrite (proj2 (Z.eqb_neq _ _)) by lia. cbv zeta.
  set (k := Nat.min (cb - 1) (length s)).
  replace (if Z.of_nat cb <=? Z.of_nat (length s) then Z.of_nat cb - 1 else Z.of_nat (length s))
    with (Z.of_nat k) by (destruct (Z.leb_spec (Z.of_nat cb) (Z.of_nat (length s))); lia).
  eapply wp_mono; [apply (wp_copy_nul d src s k); [done|lia|eapply mapped_le; [done|lia]|]|].
  { unfold ranges_apart in *. lia. }
  intros r m' [-> Hp]. split_and!; [done| |].
  - replace (take (cb - 1) s) with ([] ++ take k s).
    + apply (put_str_cstr m d [] (take k s) m'); [by rewrite Z.add_0_r|intros b; by eapply cstr_take_nonzero|done].
    + simpl. unfold k. rewrite <-take_take, firstn_all. done.
  - eapply put_str_outside; [done|]. rewrite length_take. lia.
Qed.

Lemma wp_strlcat d src t s (cb : nat) m :
  cstr m d t -> (length t < cb)%nat -> cstr m src s -> mapped m d cb ->
  ranges_apart d cb src (S (length s)) ->
  wp (strlcat d src (Z.of_nat cb)) (fun r m' =>
     r = u64_wrap (Z.of_nat (length t) + Z.of_nat (length s)) /\
     cstr m' d (take (cb - 1) (t ++ s)) /\ outside_eq m m' d cb) m.
Proof.
  intros Ht Hcb Hs Hd Hap. unfold strlcat. apply wp_bind. eapply wp_mono; [apply wp_strnlen; [done|lia]|].
  intros r m0 [-> ->]. apply wp_bind. eapply wp_mono; [by apply wp_strlen|]. intros r m0 [-> ->].
  rewrite Z.min_r by lia. rewrite (proj2 (Z.eqb_neq _ _)) by lia. cbv zeta.
  set (k := Nat.min (cb - 1 - length t) (length s)).
  replace (if Z.of_nat cb - Z.of_nat (length t) <=? Z.of_nat (length s)
           then Z.of_nat cb - Z.of_nat (length t) - 1 else Z.of_nat (length s)) with (Z.of_nat k)
    by (destruct (Z.leb_spec (Z.of_nat cb - Z.of_nat (length t)) (Z.of_nat (length s))); lia).
  rewrite Z.add_assoc.
  eapply wp_mono; [apply (wp_copy_nul (d + Z.of_nat (length t)) src s k); [done|lia| |]|].
  { apply mapped_shift. eapply mapped_le; [done|lia]. }
  { unfold ranges_apart in *. lia. }
  intros r m' [-> Hp]. split_and!; [done| |].
  - replace (take (cb - 1) (t ++ s)) with (t ++ take k s).
    + apply (put_str_cstr m d t (take k s) m'); [done|intros b; by eapply cstr_take_nonzero|]. intros; by apply Ht.
    + rewrite take_app_ge by lia. f_equal. unfold k. rewrite <-take_take, firstn_all. done.
  - intros a Ha. apply (put_str_outside _ _ _ _ (cb - length t) Hp); [rewrite length_take; lia|]. lia.
Qed.

(** Without a NUL in the buffer [strlcat] writes nothing. *)
Lemma wp_strlcat_full d src s (cb : nat) m :
  no_nul m d cb -> cstr m src s ->
  wp (strlcat d src (Z.of_nat cb)) (fun r m' =>
     r = u64_wrap (Z.of_nat cb + Z.of_nat (length s)) /\ m' = m) m.
Proof.
  intros Hn Hs. unfold strlcat. apply wp_bind. eapply wp_mono; [by apply wp_strnlen_full|].
  intros r m0 [-> ->]. apply wp_bind. eapply wp_mono; [by apply wp_strlen|]. intros r m0 [-> ->].
  rewrite Z.eqb_refl. wsteps. done.
Qed.

(** ** Searching *)

(** The needle occurs at index [i] of the text. *)
Definition occurs (h n : list Z) (i : nat) : Prop := n `prefix_of` drop i h.

Lemma wp_match_at m szHay h szN n i :
  cstr m szHay h -> cstr m szN n -> (i <= length h)%nat ->
  forall k j, (j + k = length n)%nat ->
  (forall x, (x < j)%nat -> drop i h !! x = n !! x) -> (j <= length (drop i h))%nat ->
  wp (match_at (szHay + Z.of_nat i) szN k (Z.of_nat j)) (fun b m' => m' = m /\ (b = true <-> occurs h n i)) m.
Proof.
  intros Hh Hn Hi. induction k as [|k IH]; intros j Hk Hpre Hj; cbn [match_at].
  { apply wp_ret. split; [done|]. split; [intros _|done]. exists (drop (length n) (drop i h)).
    rewrite <-(take_drop (length n) (drop i h)) at 1. f_equal. apply list_eq. intros x.
    destruct (decide (x < length n)%nat) as [Hx|Hx].
    - rewrite lookup_take_lt by done. apply Hpre. lia.
    - rewrite lookup_take_ge by lia. by rewrite lookup_ge_None_2 by lia. }
  rewrite length_drop in Hj. rewrite <-Z.add_assoc, <-Nat2Z.inj_add.
  destruct (cstr_byte m szHay h (i + j) Hh ltac:(lia)) as (a & Ea & Hza & Da).
  destruct (cstr_byte m szN n j Hn ltac:(lia)) as (c & Ec & Hzc & Dc).
  assert (n !! j = Some c) as Enj.
  { destruct (lookup_lt_is_Some_2 n j) as [x Ex]; [lia|]. rewrite Ex in Dc. simpl in Dc. congruence. }
  assert (drop i h !! j <> Some c -> ~ occurs h n i) as Hno.
  { intros Hne [tl E]. apply Hne. rewrite E, lookup_app_l by lia. done. }
  apply wp_bind, (wp_ld8 _ a); [done|]. destruct (Z.eqb_spec a 0) as [->|Ha].
  { wsteps. split; [done|]. split; [done|]. intros Ho. exfalso. apply Hno; [|done].
    rewrite lookup_drop. assert (i + j = length h)%nat as -> by tauto. by rewrite lookup_ge_None_2 by lia. }
  assert (i + j < length h)%nat as Hlt by (destruct (decide (i + j = length h)%nat); [tauto|lia]).
  assert (drop i h !! j = Some a) as Ehj.
  { rewrite lookup_drop. destruct (lookup_lt_is_Some_2 h (i + j)) as [x Ex]; [lia|]. rewrite Ex in Da. simpl in Da. congruence. }
  apply wp_bind, (wp_ld8 _ c); [done|]. destruct (Z.eqb_spec a c) as [->|Hac]; cbn [negb].
  - replace (Z.of_nat j + 1) with (Z.of_nat (S j)) by lia. apply IH; [lia| |rewrite length_drop; lia].
    intros x Hx. destruct (decide (x = j)) as [->|]; [by rewrite Ehj, Enj|]. apply Hpre. lia.
  - wsteps. split; [done|]. split; [done|]. intros Ho. exfalso. apply Hno; [|done]. congruence.
Qed.

Lemma occurs_le h n i : n <> [] -> occurs h n i -> (i < length h)%nat.
Proof.
  intros Hn [tl E]. destruct (decide (i < length h)%nat); [done|]. rewrite drop_ge in E by lia.
  destruct n; [done|]. done.
Qed.

(** The first index at which the needle occurs, from [i] on. *)
Definition first_from (h n : list Z) (i : nat) (szHay : Z) (r : option Z) : Prop :=
  match r with
  | None => forall x, (i <= x)%nat -> ~ occurs h n x
  | Some a => exists x, a = szHay + Z.of_nat x /\ (i <= x <= length h)%nat /\ occurs h n x /\
                forall y, (i <= y < x)%nat -> ~ occurs h n y
  end.

Lemma wp_strstr m szHay h szN n :
  cstr m szHay h -> cstr m szN n ->
  wp (strstr szHay szN) (fun r m' => m' = m /\ first_from h n 0 szHay r) m.
Proof.
  intros Hh Hn. unfold strstr.
  destruct (cstr_byte m szN n 0 Hn ltac:(lia)) as (b & Eb & Hb & _). rewrite Z.add_0_r in Eb.
  apply wp_bind, (wp_ld8 _ b); [done|]. destruct (Z.eqb_spec b 0) as [->|Hnz].
  { wsteps. split; [done|]. exists 0%nat. assert (n = []) as -> by (apply nil_length_inv; symmetry; by apply Hb).
    split_and!; [lia..|by exists h|intros; lia]. }
  assert (n <> []) as Hne by (intros ->; apply Hnz; by apply Hb).
  apply wp_bind. eapply wp_mono; [by apply wp_strlen|]. intros c m0 [-> ->]. apply wp_bind, wp_str_fuel.
  pose proof (cstr_fuel m szHay h Hh) as Hf.
  assert (forall fuel i, (length h - i < fuel)%nat -> (i <= length h)%nat ->
    (forall y, (y < i)%nat -> ~ occurs h n y) ->
    wp (strstr_loop fuel szHay szN (Z.of_nat (length n)) (Z.of_nat i))
       (fun r m' => m' = m /\ first_from h n 0 szHay r) m) as H.
  { induction fuel as [|f IH]; intros i Hfu Hi Hprev; [lia|]. cbn [strstr_loop].
    destruct (cstr_byte m szHay h i Hh Hi) as (a & Ea & Ha & _). apply wp_bind, (wp_ld8 _ a); [done|].
    destruct (Z.eqb_spec a 0) as [->|Haz].
    - wsteps. split; [done|]. intros x _ Ho. pose proof (occurs_le _ _ _ Hne Ho). apply (Hprev x); [|done].
      assert (i = length h) by tauto. lia.
    - assert (i <> length h) by tauto. apply wp_bind. rewrite Nat2Z.id.
      eapply wp_mono; [apply (wp_match_at m szHay h szN n i Hh Hn Hi (length n) 0); [lia|intros; lia|lia]|].
      intros ok m0 [-> Hok]. destruct ok.
      + wsteps. split; [done|]. exists i. split_and!; [done|lia|lia|by apply Hok|]. intros y Hy. apply Hprev. lia.
      + replace (Z.of_nat i + 1) with (Z.of_nat (S i)) by lia. apply IH; [lia|lia|].
        intros y Hy. destruct (decide (y = i)) as [->|]; [|apply Hprev; lia]. intros Ho. apply Hok in Ho. done. }
  apply (H _ 0%nat); [lia|lia|]. intros; lia.
Qed.

(** ** Comparing *)

(** The byte order of two strings, a proper prefix first. *)
Fixpoint bytes_lt (s t : list Z) : bool :=
  match s, t with
  | [], [] => false
  | [], _ :: _ => true
  | _ :: _, [] => false
  | a :: s', b :: t' => (a <? b) || ((a =? b) && bytes_lt s' t')
  end.

(** [r] is the answer of a comparison of [s] with [t]: zero, negative or
    positive. *)
Definition compares (s t : list Z) (r : Z) : Prop :=
  (r = 0 <-> s = t) /\ (r < 0 <-> bytes_lt s t = true) /\ (0 < r <-> bytes_lt t s = true).

Definition bytes (s : list Z) : Prop := Forall (fun b => 0 < b < 256) s.

Lemma bytes_lt_irrefl s : bytes_lt s s = false.
Proof. induction s as [|a s IH]; simpl; [done|]. by rewrite Z.ltb_irrefl, Z.eqb_refl, IH. Qed.

Lemma compares_refl s : compares s s 0.
Proof. unfold compares. rewrite bytes_lt_irrefl. split_and!; split; (done || lia). Qed.

Lemma compares_cons a s t r : compares s t r -> compares (a :: s) (a :: t) r.
Proof.
  intros (H1 & H2 & H3). unfold compares. simpl. rewrite Z.ltb_irrefl, Z.eqb_refl. simpl.
  split_and!; [rewrite H1; split; congruence|done|done].
Qed.

(** Two strings that differ at their first byte, the end counting as 0. *)
Lemma compares_diff s t :
  bytes s -> bytes t -> default 0 (head s) <> default 0 (head t) ->
  compares s t (default 0 (head s) - default 0 (head t)).
Proof.
  intros Hs Ht Hne. unfold compares. destruct s as [|a s], t as [|b t]; simpl in *; [done|..].
  - apply Forall_cons in Ht as [Hb _]. split_and!; split; (done || lia).
  - apply Forall_cons in Hs as [Ha _]. split_and!; split; (done || lia).
  - rewrite (proj2 (Z.eqb_neq a b)), (proj2 (Z.eqb_neq b a)) by lia. simpl. rewrite !orb_false_r, !Z.ltb_lt.
    split_and!; split; try lia. intros [=]. lia.
Qed.

Lemma cstr_cons m p a s : cstr m p (a :: s) -> m !! p = Some a /\ a <> 0 /\ cstr m (p + 1) s.
Proof.
  intros [H1 H2]. destruct (H1 0%nat a eq_refl) as [E Ha]. rewrite Z.add_0_r in E. split_and!; [done..|]. split.
  - intros i b Hi. specialize (H1 (S i) b Hi). by replace (p + 1 + Z.of_nat i) with (p + Z.of_nat (S i)) by lia.
  - rewrite <-H2. simpl. f_equal. lia.
Qed.

Lemma cstr_nil m p : cstr m p [] -> m !! p = Some 0.
Proof. intros [_ H]. by rewrite Z.add_0_r in H. Qed.

Lemma cstr_head m p s : cstr m p s -> m !! p = Some (default 0 (head s)).
Proof. destruct s; [apply cstr_nil|]. by intros [? _]%cstr_cons. Qed.

Lemma wp_strncmp_loop m : forall fuel s t pA pB (n : nat),
  cstr m pA s -> cstr m pB t -> bytes s -> bytes t -> (length s < fuel)%nat -> (0 < n)%nat ->
  wp (strncmp_loop fuel pA pB (Z.of_nat n)) (fun r m' => compares (take n s) (take n t) r /\ m' = m) m.
Proof.
  induction fuel as [|f IH]; intros s t pA pB n HA HB Hs Ht Hf Hn; [lia|]. cbn [strncmp_loop].
  destruct n as [|n]; [lia|].
  assert (default 0 (head s) <> default 0 (head t) ->
          compares (take (S n) s) (take (S n) t) (default 0 (head s) - default 0 (head t))) as Hdiff.
  { intros Hne. replace (default 0 (head s)) with (default 0 (head (take (S n) s))) in * by (by destruct s).
    replace (default 0 (head t)) with (default 0 (head (take (S n) t))) in * by (by destruct t).
    apply compares_diff; [by apply Forall_take..|done]. }
  apply wp_bind, (wp_ld8 _ (default 0 (head s))); [by apply cstr_head|].
  assert (wp (ld8 pB) (fun b m' => b = default 0 (head t) /\ m' = m) m) as HldB.
  { apply (wp_ld8 _ (default 0 (head t))); [by apply cstr_head|done]. }
  destruct ((1 <? Z.of_nat (S n)) && negb (default 0 (head s) =? 0)) eqn:E; apply wp_bind;
    (eapply wp_mono; [exact HldB|]; intros b m' [-> ->]).
  - apply andb_true_iff in E as [Hn1 Hnz%negb_true_iff%Z.eqb_neq]. apply Z.ltb_lt in Hn1.
    destruct (Z.eqb_spec (default 0 (head s)) (default 0 (head t))) as [Heq|Hne]; [|wsteps; auto].
    destruct s as [|a s]; [done|]. destruct t as [|b t]; [done|]. simpl in Heq. subst b.
    apply cstr_cons in HA as (_ & _ & HA), HB as (_ & _ & HB).
    apply Forall_cons in Hs as [_ Hs], Ht as [_ Ht].
    replace (Z.of_nat (S n) - 1) with (Z.of_nat n) by lia.
    eapply wp_mono; [apply (IH s t _ _ n HA HB Hs Ht); simpl in Hf; lia|].
    intros r m' [Hc ->]. split; [|done]. by apply compares_cons.
  - wsteps. split; [|done]. destruct (Z.eq_dec (default 0 (head s)) (default 0 (head t))) as [Heq|]; [|auto].
    rewrite Heq, Z.sub_diag. replace (take (S n) t) with (take (S n) s); [apply compares_refl|].
    apply andb_false_iff in E as [Hn1|Hz%negb_false_iff%Z.eqb_eq].
    + apply Z.ltb_ge in Hn1. assert (n = 0)%nat as -> by lia.
      destruct s as [|a s], t as [|b t]; simpl in *; [done|apply Forall_cons in Ht; lia|apply Forall_cons in Hs; lia|].
      by rewrite Heq, !take_0.
    + destruct s as [|a s]; [|apply Forall_cons in Hs; simpl in Hz; lia].
      destruct t as [|b t]; [done|]. apply Forall_cons in Ht. simpl in *. lia.
Qed.

Lemma wp_strncmp m pA pB s t (n : nat) :
  cstr m pA s -> cstr m pB t -> bytes s -> bytes t ->
  wp (strncmp pA pB (Z.of_nat n)) (fun r m' => compares (take n s) (take n t) r /\ m' = m) m.
Proof.
  intros HA HB Hs Ht. unfold strncmp. destruct (Z.eqb_spec (Z.of_nat n) 0).
  { assert (n = 0%nat) as -> by lia. wsteps. split; [apply compares_refl|done]. }
  apply wp_bind, wp_str_fuel. apply wp_strncmp_loop; try done; [|lia]. pose proof (cstr_fuel _ _ _ HA). lia.
Qed.

(** [strcmp] is [strncmp] with a bound that is never reached. *)
Lemma wp_strcmp m pA pB s t :
  cstr m pA s -> cstr m pB t -> bytes s -> bytes t ->
  wp (strcmp pA pB) (fun r m' => compares s t r /\ m' = m) m.
Proof.
  intros HA HB Hs Ht. unfold strcmp. apply wp_bind, wp_str_fuel.
  assert (forall f pA pB n st, (f < n)%nat -> is_Some (strncmp_loop f pA pB (Z.of_nat n) st) ->
            strcmp_loop f pA pB st = strncmp_loop f pA pB (Z.of_nat n) st) as Heq.
  { clear. induction f as [|f IH]; intros pA pB n st Hn; [done|]. cbn [strncmp_loop strcmp_loop].
    unfold pbind. destruct (ld8 pA st) as [[a s1]|]; [|done].
    destruct (Z.eqb_spec a 0); cbn [negb]; [by rewrite andb_false_r|]. rewrite andb_true_r.
    rewrite (proj2 (Z.ltb_lt _ _)) by lia. destruct (ld8 pB s1) as [[b s2]|]; [|done].
    case_match; [|done]. replace (Z.of_nat n - 1) with (Z.of_nat (n - 1)) by lia. apply IH. lia. }
  set (f := S (size m)). set (n := S (f + length s + length t)%nat).
  eapply (wp_mono _ (fun r m' => compares (take n s) (take n t) r /\ m' = m)).
  2:{ intros r m'. rewrite !take_ge by (unfold n; lia). done. }
  assert (wp (strncmp_loop f pA pB (Z.of_nat n)) (fun r m' => compares (take n s) (take n t) r /\ m' = m) m) as H.
  { apply wp_strncmp_loop; try done; unfold n, f; [|lia]. pose proof (cstr_fuel _ _ _ HA). lia. }
  intros tel. destruct (H tel) as (r & m' & tel' & E & HQ). exists r, m', tel'. split; [|done].
  rewrite (Heq f pA pB n); [done|unfold n; lia|]. by rewrite E.
Qed.

(** ** The reference copy: read everything, then write everything *)
Definition snapshot (m : bmem) (s : Z) (n : nat) : list Z :=
  (fun i => default 0 (m !! (s + Z.of_nat i))) <$> seq 0 n.

Fixpoint paste (m : bmem) (d : Z) (l : list Z) : bmem :=
  match l with
  | [] => m
  | b :: l' => <[d := b]> (paste m (d + 1) l')
  end.

Lemma paste_lookup l : forall m d a,
  paste m d l !! a =
    if decide (d <= a < d + Z.of_nat (length l)) then l !! Z.to_nat (a - d) else m !! a.
Proof.
  induction l as [|b l IH]; intros m d a; cbn [paste length].
  { by rewrite decide_False by lia. }
  destruct (decide (a = d)) as [->|Hne].
  - rewrite lookup_insert_eq, decide_True by lia. by rewrite Z.sub_diag.
  - rewrite lookup_insert_ne, IH by done. repeat case_decide; try lia; [|done].
    replace (Z.to_nat (a - d)) with (S (Z.to_nat (a - (d + 1)))) by lia. done.
Qed.

Lemma copied_paste m d s n m' : mapped m s n -> copied m d s n m' -> m' = paste m d (snapshot m s n).
Proof.
  intros Hs Hc. apply map_eq. intros a. rewrite (Hc a), paste_lookup. unfold snapshot.
  rewrite length_fmap, length_seq. case_decide as Ha; [|done].
  rewrite list_lookup_fmap, lookup_seq_lt by lia. simpl.
  destruct (Hs (a - d)) as [b Eb]; [lia|]. rewrite Z2Nat.id, Eb by lia. done.
Qed.

(** ** Deciding the memory predicates, for concrete memories *)
Fixpoint cstrb (m : bmem) (p : Z) (s : list Z) : bool :=
  match s with
  | [] => bool_decide (m !! p = Some 0)
  | a :: s' => bool_decide (m !! p = Some a) && negb (a =? 0) && cstrb m (p + 1) s'
  end.

Lemma cstrb_sound m s : forall p, cstrb m p s = true -> cstr m p s.
Proof.
  induction s as [|a s IH]; intros p H; cbn [cstrb] in H.
  - apply bool_decide_eq_true in H. split; [done|]. by rewrite Z.add_0_r.
  - apply andb_true_iff in H as [[Ea Ha]%andb_true_iff [H1 H2]%IH]. apply bool_decide_eq_true in Ea.
    apply negb_true_iff, Z.eqb_neq in Ha. split.
    + intros [|i] b Hi; simpl in Hi.
      * injection Hi as <-. by rewrite Z.add_0_r.
      * destruct (H1 i b Hi) as [E ?]. split; [|done]. rewrite <-E. f_equal. lia.
    + rewrite <-H2. simpl. f_equal. lia.
Qed.

Definition mappedb (m : bmem) (p : Z) (n : nat) : bool :=
  forallb (fun i => bool_decide (is_Some (m !! (p + Z.of_nat i)))) (seq 0 n).

Lemma mappedb_sound m p n : mappedb m p n = true -> mapped m p n.
Proof.
  unfold mappedb. rewrite forallb_forall. intros H i Hi.
  assert (In (Z.to_nat i) (seq 0 n)) as Hin by (apply in_seq; lia).
  apply H, bool_decide_eq_true in Hin. by rewrite Z2Nat.id in Hin by lia.
Qed.

(** ** Little-endian words *)
Lemma user_bytes_mapped n : forall u p v, user_bytes n u p = Some v ->
  forall a, p <= a < p + Z.of_nat n -> is_Some (u !! a).
Proof.
  induction n as [|n IH]; intros u p v H a Ha; [lia|]. cbn [user_bytes] in H.
  destruct (u !! p) as [b|] eqn:Eb; [|done]. destruct (user_bytes n u (p + 1)) as [r|] eqn:Er; [|done].
  destruct (decide (a = p)) as [->|]; [by exists b|]. eapply IH; [done|lia].
Qed.

Lemma user_bytes_total n : forall u p,
  (forall a, p <= a < p + Z.of_nat n -> is_Some (u !! a)) -> is_Some (user_bytes n u p).
Proof.
  induction n as [|n IH]; intros u p H; cbn [user_bytes]; [by eexists|].
  destruct (H p) as [b ->]; [lia|]. destruct (IH u (p + 1)) as [r ->]; [intros; apply H; lia|]. by eexists.
Qed.

Lemma user_bytes_ext n : forall u u' p,
  (forall a, p <= a < p + Z.of_nat n -> u' !! a = u !! a) -> user_bytes n u' p = user_bytes n u p.
Proof.
  induction n as [|n IH]; intros u u' p H; cbn [user_bytes]; [done|].
  rewrite (H p) by lia. rewrite (IH u u' (p + 1)); [done|]. intros; apply H; lia.
Qed.

Lemma put_bytes_outside n : forall p v u a, ~ (p <= a < p + Z.of_nat n) -> put_bytes n p v u !! a = u !! a.
Proof.
  induction n as [|n IH]; intros p v u a Ha; cbn [put_bytes]; [done|].
  rewrite lookup_insert_ne by lia. apply IH. lia.
Qed.

Lemma put_bytes_inside n : forall p v u a, p <= a < p + Z.of_nat n -> is_Some (put_bytes n p v u !! a).
Proof.
  induction n as [|n IH]; intros p v u a Ha; cbn [put_bytes]; [lia|].
  destruct (decide (a = p)) as [->|]; [rewrite lookup_insert_eq; by eexists|].
  rewrite lookup_insert_ne by lia. apply IH. lia.
Qed.

(** A stored word reads back. *)
Lemma user_bytes_put n : forall p v u, user_bytes n (put_bytes n p v u) p = Some (v mod 256 ^ Z.of_nat n).
Proof.
  induction n as [|n IH]; intros p v u; [simpl; by rewrite Z.mod_1_r|]. cbn [user_bytes put_bytes].
  rewrite lookup_insert_eq. rewrite (user_bytes_ext n (put_bytes n (p + 1) (v / 256) u)).
  2:{ intros a Ha. by rewrite lookup_insert_ne by lia. }
  rewrite IH. f_equal. rewrite Nat2Z.inj_succ, Z.pow_succ_r by lia.
  pose proof (Z.pow_pos_nonneg 256 (Z.of_nat n) ltac:(lia) ltac:(lia)). rewrite Z.rem_mul_r by lia. lia.
Qed.
