(* ===== verification/KStringClaims.v ===== *)
(** The properties of the memory and string helpers, with witnesses. *)
From stdpp Require Import base gmap list strings.
From Stdlib Require Import ZArith Lia.
From S2P Require Import Prelude KString KStringProofs.

(** C30: [memmove] is the two-phase copy.  However the two ranges overlap, it
    returns the destination and leaves the memory that reading all source bytes
    first and writing them afterwards would leave; [memcpy] does the same when
    the destination does not start inside the source range. *)
Theorem memmove_snapshot d s n m :
  mapped m d n -> mapped m s n ->
  wp (memmove d s n) (fun r m' => r = d /\ m' = paste m d (snapshot m s n)) m /\
  (~ (s < d < s + Z.of_nat n) ->
   wp (memcpy d s n) (fun r m' => r = d /\ m' = paste m d (snapshot m s n)) m).
Proof.
  intros Hd Hs. split; [|intros Hl]; (eapply wp_mono; [apply wp_memmove || apply wp_memcpy|]; try done; try lia);
    intros r m' [-> Hc]; (split; [done|by apply copied_paste]).
Qed.

(** C31: [strlcpy] and [strlcat] stay in the buffer and terminate it.  For a
    buffer of [cb > 0] bytes apart from the source, [strlcpy] leaves the first
    [cb - 1] source bytes and a NUL, [strlcat] the first [cb - 1] bytes of the
    concatenation and a NUL; nothing outside the buffer changes, and the length
    of the string they tried to build is returned, so the caller can detect the
    truncation.  When the buffer holds no NUL, [strlcat] writes nothing. *)
Theorem strl_bounds d src s (cb : nat) m :
  cstr m src s -> mapped m d cb -> ranges_apart d cb src (S (length s)) ->
  ((0 < cb)%nat -> wp (strlcpy d src (Z.of_nat cb)) (fun r m' =>
     r = Z.of_nat (length s) /\ cstr m' d (take (cb - 1) s) /\ outside_eq m m' d cb) m) /\
  (forall t, cstr m d t -> (length t < cb)%nat -> wp (strlcat d src (Z.of_nat cb)) (fun r m' =>
     r = u64_wrap (Z.of_nat (length t) + Z.of_nat (length s)) /\
     cstr m' d (take (cb - 1) (t ++ s)) /\ outside_eq m m' d cb) m) /\
  (no_nul m d cb -> wp (strlcat d src (Z.of_nat cb)) (fun r m' =>
     r = u64_wrap (Z.of_nat cb + Z.of_nat (length s)) /\ m' = m) m).
Proof.
  intros Hs Hd Hap. split_and!; intros; [by apply wp_strlcpy|by apply wp_strlcat|by apply wp_strlcat_full].
Qed.

(** [strstr] returns the address of the first occurrence of the needle in
    the text, and NULL exactly when there is none; memory is only read. *)
Theorem strstr_first m szHay h szN n :
  cstr m szHay h -> cstr m szN n ->
  wp (strstr szHay szN) (fun r m' => m' = m /\
    match r with
    | None => forall x, ~ occurs h n x
    | Some a => exists x, a = szHay + Z.of_nat x /\ (x <= length h)%nat /\ occurs h n x /\
                  forall y, (y < x)%nat -> ~ occurs h n y
    end) m.
Proof.
  intros Hh Hn. eapply wp_mono; [by apply wp_strstr|]. intros [a|] m' [-> H]; (split; [done|]).
  - destruct H as (x & -> & Hx & Ho & Hf). exists x. split_and!; [done|lia|done|]. intros y Hy. apply Hf. lia.
  - intros x. apply H. lia.
Qed.

(** [strcmp] and [strncmp] decide the byte order.  The result is zero
    exactly when the strings (for [strncmp] their first [n] bytes) are equal,
    and negative or positive as the first is before or after the second in the
    order of unsigned bytes, a prefix being smaller. *)
Theorem strcmp_byte_order m pA pB s t (n : nat) :
  cstr m pA s -> cstr m pB t -> bytes s -> bytes t ->
  wp (strcmp pA pB) (fun r m' => compares s t r /\ m' = m) m /\
  wp (strncmp pA pB (Z.of_nat n)) (fun r m' => compares (take n s) (take n t) r /\ m' = m) m.
Proof. intros. split; [by apply wp_strcmp|by apply wp_strncmp]. Qed.

(** ** Witnesses *)

(** "green" at 100, "en" at 200, and 8 zero bytes at 300. *)
Definition demo_bytes : bmem :=
  paste (paste (paste ∅ 100 [103; 114; 101; 101; 110; 0]) 200 [101; 110; 0]) 300 (replicate 8 0).

Lemma memmove_snapshot_witness :
  wp (memmove 101 100 4) (fun r m' => r = 101 /\ m' = paste demo_bytes 101 [103; 114; 101; 101]) demo_bytes.
Proof. apply (memmove_snapshot 101 100 4 demo_bytes); apply mappedb_sound; reflexivity. Defined.

(** The same overlap with [memcpy] smears the first byte over the range. *)
Example memcpy_smears :
  (fun x => snapshot (k_mem (snd x)) 100 6) <$> memcpy 101 100 4 (KSt demo_bytes ∅) =
  Some [103; 103; 103; 103; 103; 0].
Proof. reflexivity. Qed.

Lemma strl_bounds_witness :
  wp (strlcpy 300 100 4) (fun r m' =>
     r = 5 /\ cstr m' 300 [103; 114; 101] /\ outside_eq demo_bytes m' 300 4) demo_bytes /\
  wp (strlcat 300 100 4) (fun r m' =>
     r = 5 /\ cstr m' 300 [103; 114; 101] /\ outside_eq demo_bytes m' 300 4) demo_bytes.
Proof.
  destruct (strl_bounds 300 100 [103; 114; 101; 101; 110] 4 demo_bytes) as (H1 & H2 & _).
  - apply cstrb_sound. reflexivity.
  - apply mappedb_sound. reflexivity.
  - right. simpl. lia.
  - split; [apply H1; lia|]. apply (H2 []); [apply cstrb_sound; reflexivity|simpl; lia].
Defined.

Lemma strstr_first_witness :
  wp (strstr 100 200) (fun r m' => m' = demo_bytes /\
    match r with
    | None => forall x, ~ occurs [103; 114; 101; 101; 110] [101; 110] x
    | Some a => exists x, a = 100 + Z.of_nat x /\ (x <= 5)%nat /\ occurs [103; 114; 101; 101; 110] [101; 110] x /\
                  forall y, (y < x)%nat -> ~ occurs [103; 114; 101; 101; 110] [101; 110] y
    end) demo_bytes.
Proof. apply (strstr_first demo_bytes 100 [103; 114; 101; 101; 110] 200 [101; 110]); apply cstrb_sound; reflexivity. Defined.

Example strstr_finds : fst <$> strstr 100 200 (KSt demo_bytes ∅) = Some (Some 103).
Proof. reflexivity. Qed.

Lemma strcmp_byte_order_witness :
  wp (strcmp 100 200) (fun r m' => compares [103; 114; 101; 101; 110] [101; 110] r /\ m' = demo_bytes) demo_bytes /\
  wp (strncmp 100 200 1) (fun r m' => compares [103] [101] r /\ m' = demo_bytes) demo_bytes.
Proof.
  apply (strcmp_byte_order demo_bytes 100 200 [103; 114; 101; 101; 110] [101; 110] 1); [apply cstrb_sound; reflexivity..| |];
    repeat constructor; lia.
Defined.
