(* ===== verification/Futex.v ===== *)
(** Fast user-space mutexes, [kernel/sync/futex.c].

    The waiter table and the robust-list table are lists of records; a waiter's
    address, on which its thread sleeps, is computed from its index.  User
    memory is a byte map; a futex word is four little-endian bytes.  An address
    stands for a physical byte, so that two mappings of one frame are one word.
    The current thread, the timer and the page walk are arguments: they belong
    to the architecture code.  The spin lock makes the code between lock and
    unlock one step; a [list] of user stores stands for what other processors
    write to user memory between two reads of the word in that step. *)
From stdpp Require Import base gmap list strings.
From Stdlib Require Import ZArith Lia.
From S2P Require Import Prelude CapTypes LinuxAbi Thread KString.

Definition GJ_FUTEX_MAX_WAITERS : nat := 64.
Definition GJ_FUTEX_ROBUST_SLOTS : nat := 32.
Definition GJ_FUTEX_ROBUST_WALK_MAX : nat := 64.
Definition GJ_FUTEX_BITSET_MATCH_ANY : Z := 4294967295.
Definition GJ_FUTEX_OWNER_DIED : Z := 1073741824.
Definition GJ_FUTEX_TID_MASK : Z := 1073741823.
Definition FUTEX_SOFT_LOG_CAP : Z := 4.

Record gj_futex_key : Type := MkKey {
  u64Phys : Z;
  u64Uaddr : Z;
  u64As : Z;
  u8Private : bool }.

Record futex_waiter : Type := MkWaiterF {
  fw_u8Used : bool;
  fw_u8Waiting : bool;
  fw_u32Val : Z;
  fw_u32Bitset : Z;
  fw_u32TimedOut : Z;
  fw_key : gj_futex_key;
  fw_pThr : option nat;
  fw_u64Deadline : Z }.

Record futex_robust_slot : Type := MkRobust {
  rs_u8Used : bool;
  rs_u32Tid : Z;
  rs_u64Head : Z;
  rs_u64Len : Z }.

Record fx_mem : Type := MkFx {
  g_aWaiters : list futex_waiter;
  g_aRobust : list futex_robust_slot;
  fx_user : bmem;
  fx_thr : thr_mem }.

Definition set_waiters (l : list futex_waiter) (m : fx_mem) : fx_mem :=
  MkFx l (g_aRobust m) (fx_user m) (fx_thr m).
Definition set_robust (l : list futex_robust_slot) (m : fx_mem) : fx_mem :=
  MkFx (g_aWaiters m) l (fx_user m) (fx_thr m).
Definition set_user (u : bmem) (m : fx_mem) : fx_mem :=
  MkFx (g_aWaiters m) (g_aRobust m) u (fx_thr m).
Definition set_fx_thr (t : thr_mem) (m : fx_mem) : fx_mem :=
  MkFx (g_aWaiters m) (g_aRobust m) (fx_user m) t.

#[export] Instance fx_has_threads : HasThreads fx_mem :=
  {| thr_of := fx_thr; thr_upd := set_fx_thr; thr_of_upd := fun t m => eq_refl |}.

Definition zero_key : gj_futex_key := MkKey 0 0 0 false.
Definition zero_fwaiter : futex_waiter := MkWaiterF false false 0 0 0 zero_key None 0.
Definition zero_robust : futex_robust_slot := MkRobust false 0 0 0.

(** The address of waiter slot [i]: 64-byte records in the table. *)
Definition g_aWaiters_addr : Z := 65536.
Definition waiter_addr (i : nat) : Z := g_aWaiters_addr + 64 * Z.of_nat i.

(** The slot as a wait, a wake or a timeout leaves it. *)
Definition unwaiting (timedout : Z) (w : futex_waiter) : futex_waiter :=
  MkWaiterF (fw_u8Used w) false (fw_u32Val w) (fw_u32Bitset w) timedout (fw_key w) (fw_pThr w) (fw_u64Deadline w).
(** The slot as its owner gives it back; the timeout flag and the rest stay. *)
Definition released (w : futex_waiter) : futex_waiter :=
  MkWaiterF false false (fw_u32Val w) 0 (fw_u32TimedOut w) (fw_key w) (fw_pThr w) (fw_u64Deadline w).

Definition ld_waiter (i : nat) : prog fx_mem futex_waiter :=
  m <- pget ;; match g_aWaiters m !! i with Some w => pret w | None => pfault end.
Definition st_waiter (i : nat) (w : futex_waiter) : prog fx_mem unit :=
  m <- pget ;;
  match g_aWaiters m !! i with Some _ => pput (set_waiters (<[i := w]> (g_aWaiters m)) m) | None => pfault end.

(** ** User memory *)

(** [user_load_u32], [copy_from_user] of a [u64]: the value or a fault. *)
Definition user_load_u32 (p : Z) : prog fx_mem (option Z) :=
  m <- pget ;; pret (user_bytes 4 (fx_user m) p).
Definition user_load_u64 (p : Z) : prog fx_mem (option Z) :=
  m <- pget ;; pret (user_bytes 8 (fx_user m) p).

(** [futex_load_u32]: the second, direct load faults where the first one did. *)
Definition futex_load_u32 (pU32 : option Z) : prog fx_mem Z :=
  match pU32 with
  | None => pret 0
  | Some p =>
      v <- user_load_u32 p ;;
      match v with Some x => pret x | None => pfault end
  end.

Definition futex_store_u32 (p v : Z) : prog fx_mem bool :=
  m <- pget ;;
  match user_bytes 4 (fx_user m) p with
  | Some _ => pput (set_user (put_bytes 4 p v (fx_user m)) m) ;;; pret true
  | None => if negb (p =? 0) then pfault else pret false
  end.

(** Stores of other processors. *)
Definition user_stores (l : list (Z * Z)) : prog fx_mem unit :=
  pmod (fun m => set_user (foldl (fun u pv => put_bytes 4 (fst pv) (snd pv) u) (fx_user m) l) m).

(** ** Statistics *)
Definition bitset_class (b : Z) : bool := negb (b =? 0) && negb (b =? GJ_FUTEX_BITSET_MATCH_ANY).

Definition futex_soft_scan : prog fx_mem unit :=
  tick64 "u64SoftScan" ;;;
  m <- pget ;;
  let cnt (p : futex_waiter -> bool) := Z.of_nat (countb (fun w => fw_u8Used w && p w) (g_aWaiters m)) in
  let used := cnt (fun _ => true) in
  let waiting := cnt fw_u8Waiting in
  let rob := Z.of_nat (countb rs_u8Used (g_aRobust m)) in
  tel_set "g_u32SoftUsed" used ;;;
  tel_set "g_u32SoftWaiting" waiting ;;;
  tel_set "g_u32SoftFree" (if used <? 64 then 64 - used else 0) ;;;
  tel_set "g_u32SoftRobUsed" rob ;;;
  tel_set "g_u32SoftRobFree" (if rob <? 32 then 32 - rob else 0) ;;;
  tel_set "g_u32SoftWaitPriv" (cnt (fun w => u8Private (fw_key w))) ;;;
  tel_set "g_u32SoftWaitShared" (cnt (fun w => negb (u8Private (fw_key w)))) ;;;
  tel_set "g_u32SoftWaitDeadline" (cnt (fun w => negb (fw_u64Deadline w =? 0))) ;;;
  tel_set "g_u32SoftWaitBitset" (cnt (fun w => bitset_class (fw_u32Bitset w))) ;;;
  tel_set "g_u32SoftWaitClassic" (cnt (fun w => negb (bitset_class (fw_u32Bitset w)))) ;;;
  tel_set "g_u32SoftWaitTimedOut" (cnt (fun w => negb (fw_u32TimedOut w =? 0))) ;;;
  tel_set "g_u32SoftWaitHasThr" (cnt (fun w => bool_decide (is_Some (fw_pThr w)))) ;;;
  tel_peak "u64TablePeakUsed" used ;;;
  tel_peak "u64TablePeakWait" waiting ;;;
  tel_peak "u64TablePeakRob" rob.

Definition futex_soft_note_claim : prog fx_mem unit :=
  m <- pget ;;
  tel_peak "u64TablePeakUsed" (Z.of_nat (countb fw_u8Used (g_aWaiters m))) ;;;
  tel_peak "u64TablePeakWait" (Z.of_nat (countb (fun w => fw_u8Used w && fw_u8Waiting w) (g_aWaiters m))).

Definition futex_soft_log : prog fx_mem unit :=
  t <- ptel ;;
  if FUTEX_SOFT_LOG_CAP <=? tel_val t "u64SoftLog" then futex_soft_scan
  else tick64 "u64SoftLog" ;;; futex_soft_scan.

Definition futex_soft_maybe_once : prog fx_mem unit :=
  t <- ptel ;;
  if negb (tel_val t "g_fSoftStatsOnce" =? 0) then pret tt else
  if (tel_val t "u64WaitEnter" =? 0) && (tel_val t "u64WakeEnter" =? 0) &&
     (tel_val t "u64RobustSetOk" =? 0) && (tel_val t "u64RobustGetOk" =? 0) &&
     (tel_val t "u64RobustExitEnter" =? 0) && (tel_val t "u64KeyPrivateOk" =? 0) &&
     (tel_val t "u64KeySharedOk" =? 0) then pret tt else
  tel_set "g_fSoftStatsOnce" 1 ;;;
  futex_soft_log.

(** The statistics that [futex_init] clears, [g_soft] and the once flag. *)
Definition futex_counter (c : string) : bool :=
  String.prefix "u64Wait" c || String.prefix "u64Wake" c || String.prefix "u64Timer" c ||
  String.prefix "u64ThrCancel" c || String.prefix "u64Key" c || String.prefix "u64Robust" c ||
  String.prefix "u64Table" c || String.prefix "u64Soft" c || String.eqb c "g_fSoftStatsOnce".

Definition futex_init : prog fx_mem unit :=
  pmod (fun m => MkFx (replicate GJ_FUTEX_MAX_WAITERS zero_fwaiter)
                   (replicate GJ_FUTEX_ROBUST_SLOTS zero_robust) (fx_user m) (fx_thr m)) ;;;
  t <- ptel ;;
  ptel_put (filter (fun kv => futex_counter kv.1 = false) t) ;;;
  futex_soft_log.

(** ** Keys *)

(** Address space of a thread: the CR3 of its process, if any, and its own. *)
Record thr_as : Type := MkThrAs { ta_proc : option Z; ta_cr3 : Z }.

(** What key resolution reads: the current thread's address space, the active
    CR3, and the page walk, which gives 0 for an unmapped address. *)
Record as_view : Type := MkAsView {
  av_thr : option thr_as;
  av_cr3 : Z;
  av_walk : Z -> Z -> Z }.

Definition nonzero_cr3 (p : option Z) : option Z :=
  match p with Some c => if negb (c =? 0) then Some c else None | None => None end.

Definition futex_as_id (v : as_view) : Z :=
  match av_thr v with
  | Some t =>
      match nonzero_cr3 (ta_proc t) with
      | Some c => c
      | None => if negb (ta_cr3 t =? 0) then ta_cr3 t else av_cr3 v
      end
  | None => av_cr3 v
  end.

(** Physical address under page table [cr3], with the low identity map. *)
Definition futex_resolve_pa (v : as_view) (cr3 uaddr : Z) : prog fx_mem Z :=
  let pa := av_walk v cr3 uaddr in
  if negb (pa =? 0) then pret pa else
  if negb (uaddr =? 0) && (uaddr <? 1073741824) then tick64 "u64KeyIdentity" ;;; pret uaddr
  else pret 0.

Definition futex_key_set_shared (uaddr pa : Z) : gj_futex_key := MkKey pa uaddr 0 false.

Definition key_eq (a b : option gj_futex_key) : bool :=
  match a, b with
  | Some a, Some b =>
      if negb (Bool.eqb (u8Private a) (u8Private b)) then false else
      if u8Private a then (u64Uaddr a =? u64Uaddr b) && (u64As a =? u64As b) else
      if (u64Phys a =? 0) || (u64Phys b =? 0) then false else u64Phys a =? u64Phys b
  | _, _ => false
  end.

Definition futex_key_eq (a b : option gj_futex_key) : bool := key_eq a b.

(** The page table a shared key is resolved in, when it is not the active one. *)
Definition key_switch (v : as_view) (pProc : option Z) : option Z :=
  let target := match pProc with
                | Some c => Some c
                | None => match av_thr v with Some t => ta_proc t | None => None end
                end in
  match nonzero_cr3 target with
  | Some c => if negb (c =? av_cr3 v) then Some c else None
  | None => None
  end.

(** [futex_key_from_uaddr_proc] with a non-NULL result pointer; [pProc] is the
    process with its CR3. *)
Definition futex_key_from_uaddr_proc (v : as_view) (uaddr : Z) (fPrivate : bool)
  (pProc : option Z) : prog fx_mem (gj_status * option gj_futex_key) :=
  if negb (Z.land uaddr 3 =? 0) then tick64 "u64KeyAlignFail" ;;; pret (GJ_ERR_INVAL, None) else
  if fPrivate then
    tick64 "u64KeyPrivateOk" ;;;
    pret (GJ_OK, Some (MkKey 0 uaddr
      (match nonzero_cr3 pProc with Some c => c | None => futex_as_id v end) true))
  else
  let sw := key_switch v pProc in
  (match sw with Some _ => tick64 "u64KeySharedCr3Sw" | None => pret tt end) ;;;
  pa <- futex_resolve_pa v (default (av_cr3 v) sw) uaddr ;;
  if pa =? 0 then tick64 "u64KeySharedFault" ;;; pret (GJ_ERR_FAULT, None)
  else tick64 "u64KeySharedOk" ;;; pret (GJ_OK, Some (futex_key_set_shared uaddr pa)).

(** [futex_key_from_uaddr]: in the current thread's process. *)
Definition futex_key_from_uaddr (v : as_view) (uaddr : Z) (fPrivate : bool) :
  prog fx_mem (gj_status * option gj_futex_key) :=
  futex_key_from_uaddr_proc v uaddr fPrivate
    (match av_thr v with Some t => ta_proc t | None => None end).

(** ** Waiting *)

(** The thread that sleeps on slot [i] becomes the running one again. *)
Definition unblock_running (i t : nat) : prog fx_mem unit :=
  m <- pget ;;
  match g_aThreads (fx_thr m) !! t with
  | None => pfault
  | Some p =>
      if bool_decide (u32State p = GJ_THR_BLOCKED) && (pBlockObj p =? waiter_addr i) then
        pput (set_fx_thr (set_threads (<[t := MkThread (u32Id p) GJ_THR_RUNNING 0 0]> (g_aThreads (fx_thr m)))
                            (fx_thr m)) m)
      else pret tt
  end.

Definition waiter_cancel_blocked (i : nat) : prog fx_mem unit :=
  w <- ld_waiter i ;;
  st_waiter i (MkWaiterF false false (fw_u32Val w) 0 0 (fw_key w) (fw_pThr w) (fw_u64Deadline w)) ;;;
  match fw_pThr w with
  | Some t => unblock_running i t
  | None => pret tt
  end.

(** Where a wait stands when it leaves its critical section. *)
Inductive wait_out : Type :=
| WaitDone (rc : Z)
| WaitPark (slot : nat).

Definition wait_einval (why : string) : prog fx_mem wait_out :=
  tick64 "u64WaitEinval" ;;; tick64 why ;;; futex_soft_maybe_once ;;; pret (WaitDone (- LINUX_EINVAL)).

Definition wait_eagain (why : string) : prog fx_mem wait_out :=
  tick64 "u64WaitEagain" ;;; tick64 why ;;; futex_soft_maybe_once ;;; pret (WaitDone (- LINUX_EAGAIN)).

(** The result of a wait that was woken or timed out. *)
Definition wait_result (timedout : Z) : prog fx_mem Z :=
  if negb (timedout =? 0) then
    tick64 "u64WaitEtimedout" ;;; tick64 "u64WaitEtimedPark" ;;; futex_soft_maybe_once ;;;
    pret (- LINUX_ETIMEDOUT)
  else tick64 "u64WaitOk" ;;; futex_soft_maybe_once ;;; pret 0.

(** The critical section after a free slot [i] is found and the word was read
    again: claim, check the deadline, block, read once more. *)
Definition wait_claim (cur : nat) (pU32 : option Z) (val : Z) (key : gj_futex_key)
  (deadline bitset : Z) (ready : bool) (now : Z) (others : list (Z * Z)) (i : nat) : prog fx_mem wait_out :=
  st_waiter i (MkWaiterF true true val bitset 0 key (Some cur) deadline) ;;;
  tick64 "u64WaitClaim" ;;;
  futex_soft_note_claim ;;;
  if negb (deadline =? 0) && ready && (deadline <=? now) then
    w <- ld_waiter i ;;
    st_waiter i (released w) ;;;
    tick64 "u64WaitEtimedout" ;;; tick64 "u64WaitEtimedImm" ;;; futex_soft_maybe_once ;;;
    pret (WaitDone (- LINUX_ETIMEDOUT))
  else
  on_threads (thread_block (Some cur) (waiter_addr i) 0) ;;;
  user_stores others ;;;
  v <- futex_load_u32 pU32 ;;
  if negb (v =? val) then
    waiter_cancel_blocked i ;;;
    tick64 "u64WaitCancel" ;;; wait_eagain "u64WaitEagainCancel"
  else
  w <- ld_waiter i ;;
  if negb (fw_u8Waiting w) then
    st_waiter i (released w) ;;;
    m <- pget ;;
    (match g_aThreads (fx_thr m) !! cur with
     | None => pfault
     | Some p =>
         if bool_decide (u32State p = GJ_THR_BLOCKED) && (pBlockObj p =? waiter_addr i) then unblock_running i cur
         else if bool_decide (u32State p = GJ_THR_RUNNABLE) then
           pput (set_fx_thr (set_threads (<[cur := with_state GJ_THR_RUNNING p]> (g_aThreads (fx_thr m)))
                               (fx_thr m)) m)
         else pret tt
     end) ;;;
    tick64 "u64WaitEarlyWake" ;;;
    rc <- wait_result (fw_u32TimedOut w) ;;
    pret (WaitDone rc)
  else tick64 "u64WaitPark" ;;; pret (WaitPark i).

(** [futex_wait_common] up to [schedule].  [others1] are stores of other
    processors between the unlocked read and the lock, [others2] those before
    the last read. *)
Definition wait_enter (cur : option nat) (pU32 : option Z) (val : Z) (pKey : option gj_futex_key)
  (deadline bitset : Z) (ready : bool) (now : Z) (others1 others2 : list (Z * Z)) : prog fx_mem wait_out :=
  tick64 "u64WaitEnter" ;;;
  (if bitset_class bitset then tick64 "u64WaitBitset"
   else if bitset =? GJ_FUTEX_BITSET_MATCH_ANY then tick64 "u64WaitClassic" else pret tt) ;;;
  (if negb (deadline =? 0) then tick64 "u64WaitDeadline" else tick64 "u64WaitNoDeadline") ;;;
  match pU32, pKey with
  | None, _ | _, None => wait_einval "u64WaitEinvalNull"
  | Some _, Some key =>
      (if u8Private key then tick64 "u64WaitPrivate" else tick64 "u64WaitShared") ;;;
      if negb (Z.land (u64Uaddr key) 3 =? 0) then wait_einval "u64WaitEinvalAlign" else
      if bitset =? 0 then wait_einval "u64WaitEinvalBit0" else
      if negb (u8Private key) && (u64Phys key =? 0) then wait_einval "u64WaitEinvalSh0" else
      match cur with
      | None => wait_einval "u64WaitEinvalNoThr"
      | Some c =>
          v <- futex_load_u32 pU32 ;;
          if negb (v =? val) then wait_eagain "u64WaitEagainFast" else
          user_stores others1 ;;;
          m <- pget ;;
          match find_from (fun w => negb (fw_u8Used w)) 0 (g_aWaiters m) with
          | None =>
              tick64 "u64WaitEnomem" ;;; futex_soft_maybe_once ;;; pret (WaitDone (- LINUX_ENOMEM))
          | Some i =>
              v <- futex_load_u32 pU32 ;;
              if negb (v =? val) then wait_eagain "u64WaitEagainLock" else
              wait_claim c pU32 val key deadline bitset ready now others2 i
          end
      end
  end.

(** After [schedule] returns: give the slot back and report. *)
Definition wait_resume (i : nat) : prog fx_mem Z :=
  w <- ld_waiter i ;;
  st_waiter i (released w) ;;;
  wait_result (fw_u32TimedOut w).

(** [futex_wait_common]: [env] is what the rest of the system does until the
    scheduler resumes the caller; [None] means that it is still asleep. *)
Definition futex_wait_common (cur : option nat) (pU32 : option Z) (val : Z) (pKey : option gj_futex_key)
  (deadline bitset : Z) (ready : bool) (now : Z) (others1 others2 : list (Z * Z))
  (env : option (prog fx_mem unit)) : prog fx_mem (option Z) :=
  o <- wait_enter cur pU32 val pKey deadline bitset ready now others1 others2 ;;
  match o with
  | WaitDone rc => pret (Some rc)
  | WaitPark i =>
      match env with
      | None => pret None
      | Some e => e ;;; rc <- wait_resume i ;; pret (Some rc)
      end
  end.

Definition futex_wait (cur : option nat) (pU32 : option Z) (val : Z) (pKey : option gj_futex_key)
  (deadline : Z) := futex_wait_common cur pU32 val pKey deadline GJ_FUTEX_BITSET_MATCH_ANY.
Definition futex_wait_bitset (cur : option nat) (pU32 : option Z) (val : Z) (pKey : option gj_futex_key)
  (deadline bitset : Z) := futex_wait_common cur pU32 val pKey deadline bitset.

(** ** Waking *)

(** The loop of [futex_wake_common] from slot [i], [k] slots left, [n] woken
    and [miss] skipped for their bit set. *)
Fixpoint fwake_loop (key : gj_futex_key) (count bitset : Z) (k i : nat) (n miss : Z) : prog fx_mem (Z * Z) :=
  match k with
  | O => pret (n, miss)
  | S k' =>
      if negb (n <? count) then pret (n, miss) else
      w <- ld_waiter i ;;
      if negb (fw_u8Used w) || negb (fw_u8Waiting w) then fwake_loop key count bitset k' (S i) n miss else
      if negb (key_eq (Some (fw_key w)) (Some key)) then fwake_loop key count bitset k' (S i) n miss else
      tick64 "u64WakeKeyMatch" ;;;
      if Z.land (fw_u32Bitset w) bitset =? 0 then fwake_loop key count bitset k' (S i) n (miss + 1) else
      st_waiter i (unwaiting (fw_u32TimedOut w) w) ;;;
      on_threads (thread_wake (waiter_addr i) 0 1) ;;;
      fwake_loop key count bitset k' (S i) (n + 1) miss
  end.

Definition wake_einval (why : string) : prog fx_mem Z :=
  tick64 "u64WakeEinval" ;;; tick64 why ;;; futex_soft_maybe_once ;;; pret (- LINUX_EINVAL).

(** Addition to a [u64] statistics variable. *)
Definition tel_add64 (c : string) (n : Z) : prog fx_mem unit :=
  t <- ptel ;; tel_set c (u64_wrap (tel_val t c + n)).

Definition futex_wake_common (pKey : option gj_futex_key) (count bitset : Z) : prog fx_mem Z :=
  tick64 "u64WakeEnter" ;;;
  (if bitset_class bitset then tick64 "u64WakeBitset"
   else if bitset =? GJ_FUTEX_BITSET_MATCH_ANY then tick64 "u64WakeClassic" else pret tt) ;;;
  match pKey with
  | None => wake_einval "u64WakeEinvalNull"
  | Some key =>
      (if u8Private key then tick64 "u64WakePrivate" else tick64 "u64WakeShared") ;;;
      if bitset =? 0 then wake_einval "u64WakeEinvalBit0" else
      if count =? 0 then tick64 "u64WakeZeroCount" ;;; futex_soft_maybe_once ;;; pret 0 else
      if negb (u8Private key) && (u64Phys key =? 0) then wake_einval "u64WakeEinvalSh0" else
      r <- fwake_loop key count bitset GJ_FUTEX_MAX_WAITERS 0 0 0 ;;
      (if 0 <? snd r then tel_add64 "u64WakeBitsetMiss" (snd r) else pret tt) ;;;
      (if 0 <? fst r then tick64 "u64WakeHit" ;;; tel_add64 "u64WakeWoken" (fst r)
       else tick64 "u64WakeMiss") ;;;
      futex_soft_maybe_once ;;;
      pret (fst r)
  end.

Definition futex_wake (pKey : option gj_futex_key) (count : Z) : prog fx_mem Z :=
  futex_wake_common pKey count GJ_FUTEX_BITSET_MATCH_ANY.
Definition futex_wake_bitset (pKey : option gj_futex_key) (count bitset : Z) : prog fx_mem Z :=
  futex_wake_common pKey count bitset.

(** ** Timeouts *)
Fixpoint timer_loop (now : Z) (k i : nat) (reaped : Z) : prog fx_mem Z :=
  match k with
  | O => pret reaped
  | S k' =>
      w <- ld_waiter i ;;
      if negb (fw_u8Used w) || negb (fw_u8Waiting w) then timer_loop now k' (S i) reaped else
      if fw_u64Deadline w =? 0 then timer_loop now k' (S i) reaped else
      if fw_u64Deadline w <=? now then
        st_waiter i (unwaiting 1 w) ;;;
        on_threads (thread_wake (waiter_addr i) 0 1) ;;;
        timer_loop now k' (S i) (reaped + 1)
      else timer_loop now k' (S i) reaped
  end.

Definition futex_timer_check (ready : bool) (now : Z) : prog fx_mem unit :=
  if negb ready then pret tt else
  tick64 "u64TimerCheck" ;;;
  r <- timer_loop now GJ_FUTEX_MAX_WAITERS 0 0 ;;
  if 0 <? r then tel_add64 "u64TimerReap" r else pret tt.

(** ** Thread death *)
Fixpoint cancel_loop (t : nat) (k i : nat) (cleared : Z) : prog fx_mem Z :=
  match k with
  | O => pret cleared
  | S k' =>
      w <- ld_waiter i ;;
      if negb (fw_u8Used w) || negb (bool_decide (fw_pThr w = Some t)) then cancel_loop t k' (S i) cleared else
      (if fw_u8Waiting w then
         tick64 "u64ThrCancelWaiting" ;;;
         st_waiter i (unwaiting (fw_u32TimedOut w) w) ;;;
         on_threads (thread_wake (waiter_addr i) 0 1) ;;; pret tt
       else tick64 "u64ThrCancelIdle") ;;;
      (if u8Private (fw_key w) then tick64 "u64ThrCancelPriv" else tick64 "u64ThrCancelShared") ;;;
      (if negb (fw_u64Deadline w =? 0) then tick64 "u64ThrCancelDeadline" else pret tt) ;;;
      (if bitset_class (fw_u32Bitset w) then tick64 "u64ThrCancelBitset" else tick64 "u64ThrCancelClassic") ;;;
      (if negb (fw_u32TimedOut w =? 0) then tick64 "u64ThrCancelTimedOut" else pret tt) ;;;
      st_waiter i zero_fwaiter ;;;
      cancel_loop t k' (S i) (cleared + 1)
  end.

Definition robust_is (tid : Z) (s : futex_robust_slot) : bool := rs_u8Used s && (rs_u32Tid s =? tid).

(** [futex_cancel_thr] for thread [t] of the table. *)
Definition futex_cancel_thr (pThr : option nat) : prog fx_mem Z :=
  match pThr with
  | None => pret 0
  | Some t =>
      tick64 "u64ThrCancelCalls" ;;;
      m <- pget ;;
      match g_aThreads (fx_thr m) !! t with
      | None => pfault
      | Some p =>
          cleared <- cancel_loop t GJ_FUTEX_MAX_WAITERS 0 0 ;;
          m <- pget ;;
          let scrub := if negb (u32Id p =? 0) then Z.of_nat (countb (robust_is (u32Id p)) (g_aRobust m)) else 0 in
          (if negb (u32Id p =? 0) then
             pput (set_robust ((fun s => if robust_is (u32Id p) s then zero_robust else s) <$> g_aRobust m) m)
           else pret tt) ;;;
          (if 0 <? scrub then tel_add64 "u64ThrCancelRobust" scrub else pret tt) ;;;
          (if 0 <? cleared then tel_add64 "u64ThrCancel" cleared else tick64 "u64ThrCancelNone") ;;;
          pret cleared
      end
  end.

(** ** Robust lists *)
Definition robust_find_tid (m : fx_mem) (tid : Z) : option nat :=
  find_from (robust_is tid) 0 (g_aRobust m).

Definition robust_alloc_tid (tid : Z) : prog fx_mem (option nat) :=
  m <- pget ;;
  match robust_find_tid m tid with
  | Some i => pret (Some i)
  | None =>
      match find_from (fun s => negb (rs_u8Used s)) 0 (g_aRobust m) with
      | Some i => pput (set_robust (<[i := MkRobust true tid 0 0]> (g_aRobust m)) m) ;;; pret (Some i)
      | None => pret None
      end
  end.

(** The thread id of the current thread, 0 without one. *)
Definition cur_id (m : fx_mem) (cur : option nat) : Z :=
  match cur with
  | Some t => match g_aThreads (fx_thr m) !! t with Some p => u32Id p | None => 0 end
  | None => 0
  end.

Definition robust_set_fail (st : gj_status) : prog fx_mem gj_status :=
  tick64 "u64RobustSetFail" ;;; futex_soft_maybe_once ;;; pret st.

Definition futex_set_robust_list (cur : option nat) (head len : Z) : prog fx_mem gj_status :=
  m <- pget ;;
  if bool_decide (cur = None) || (cur_id m cur =? 0) then robust_set_fail GJ_ERR_INVAL else
  if (len =? 0) || (64 <? len) then robust_set_fail GJ_ERR_INVAL else
  if negb (head =? 0) && negb (Z.land head 7 =? 0) then robust_set_fail GJ_ERR_INVAL else
  s <- robust_alloc_tid (cur_id m cur) ;;
  match s with
  | None => robust_set_fail GJ_ERR_NOMEM
  | Some i =>
      m <- pget ;;
      match g_aRobust m !! i with
      | None => pfault
      | Some r =>
          pput (set_robust (<[i := MkRobust (rs_u8Used r) (rs_u32Tid r) head len]> (g_aRobust m)) m) ;;;
          m <- pget ;;
          tel_peak "u64TablePeakRob" (Z.of_nat (countb rs_u8Used (g_aRobust m))) ;;;
          tick64 "u64RobustSetOk" ;;;
          futex_soft_maybe_once ;;;
          pret GJ_OK
      end
  end.

(** [futex_get_robust_list]: the status with head and length. *)
Definition futex_get_robust_list (cur : option nat) (tid : Z) : prog fx_mem (gj_status * option (Z * Z)) :=
  let miss (st : gj_status) : prog fx_mem (gj_status * option (Z * Z)) :=
    tick64 "u64RobustGetMiss" ;;; futex_soft_maybe_once ;;; pret (st, None) in
  m <- pget ;;
  if (tid =? 0) && bool_decide (cur = None) then miss GJ_ERR_INVAL else
  let tid := if tid =? 0 then cur_id m cur else tid in
  match robust_find_tid m tid with
  | None => miss GJ_ERR_NOENT
  | Some i =>
      match g_aRobust m !! i with
      | None => pfault
      | Some r =>
          tick64 "u64RobustGetOk" ;;; futex_soft_maybe_once ;;; pret (GJ_OK, Some (rs_u64Head r, rs_u64Len r))
      end
  end.

(** [robust_handle_entry]: was the word marked?  [pProc] is the dying thread's
    process. *)
Definition robust_handle_entry (v : as_view) (pProc : option Z) (entry offset tid : Z) : prog fx_mem bool :=
  if entry =? 0 then pret false else
  let futex := u64_wrap (entry + offset) in
  if negb (Z.land futex 3 =? 0) then pret false else
  w <- user_load_u32 futex ;;
  match w with
  | None => pret false
  | Some word =>
      if negb (Z.land word GJ_FUTEX_TID_MASK =? Z.land tid GJ_FUTEX_TID_MASK) then pret false else
      if negb (Z.land word GJ_FUTEX_OWNER_DIED =? 0) then pret false else
      ok <- futex_store_u32 futex (Z.lor word GJ_FUTEX_OWNER_DIED) ;;
      if negb ok then pret false else
      k1 <- futex_key_from_uaddr_proc v futex true pProc ;;
      k2 <- (if bool_decide (fst k1 = GJ_OK) then pret k1
             else futex_key_from_uaddr_proc v futex false pProc) ;;
      (if bool_decide (fst k2 = GJ_OK) then tick64 "u64RobustWake" ;;; futex_wake (snd k2) 1 ;;; pret tt
       else pret tt) ;;;
      pret true
  end.

(** The walk of [futex_exit_robust_list]: [k] turns left; the entries walked
    and the words marked. *)
Fixpoint robust_walk (v : as_view) (pProc : option Z) (head pending offset tid : Z)
  (k : nat) (entry walked marked : Z) : prog fx_mem (Z * Z) :=
  match k with
  | O => pret (walked, marked)
  | S k' =>
      if (entry =? 0) || (entry =? head) then pret (walked, marked) else
      b <- (if negb (entry =? pending) then robust_handle_entry v pProc entry offset tid else pret false) ;;
      let marked := marked + Z.b2z b in
      next <- user_load_u64 entry ;;
      match next with
      | None => pret (walked + 1, marked)
      | Some n =>
          if n =? entry then pret (walked + 1, marked)
          else robust_walk v pProc head pending offset tid k' n (walked + 1) marked
      end
  end.

Definition robust_exit_empty (t : nat) : prog fx_mem Z :=
  futex_cancel_thr (Some t) ;;; tick64 "u64RobustExitEmpty" ;;; futex_soft_maybe_once ;;; pret 0.

(** The 24 bytes of the list head: next, offset, pending. *)
Definition user_load_head (p : Z) : prog fx_mem (option (Z * Z * Z)) :=
  a <- user_load_u64 p ;; b <- user_load_u64 (p + 8) ;; c <- user_load_u64 (p + 16) ;;
  pret (match a, b, c with Some a, Some b, Some c => Some (a, b, c) | _, _, _ => None end).

Definition robust_drop (tid : Z) (s : futex_robust_slot) : futex_robust_slot :=
  if robust_is tid s then MkRobust false (rs_u32Tid s) 0 0 else s.

(** [futex_exit_robust_list] for thread [t], whose process is [pProc]. *)
Definition futex_exit_robust_list (v : as_view) (pThr : option nat) (pProc : option Z) : prog fx_mem Z :=
  tick64 "u64RobustExitEnter" ;;;
  m <- pget ;;
  match pThr with
  | None => tick64 "u64RobustExitEmpty" ;;; futex_soft_maybe_once ;;; pret 0
  | Some t =>
      let tid := cur_id m pThr in
      if tid =? 0 then tick64 "u64RobustExitEmpty" ;;; futex_soft_maybe_once ;;; pret 0 else
      match robust_find_tid m tid with
      | None => robust_exit_empty t
      | Some i =>
          match g_aRobust m !! i with
          | None => pfault
          | Some r =>
              if rs_u64Head r =? 0 then robust_exit_empty t else
              let head := rs_u64Head r in
              pput (set_robust (<[i := MkRobust false (rs_u32Tid r) 0 0]> (g_aRobust m)) m) ;;;
              h <- user_load_head head ;;
              match h with
              | None => robust_exit_empty t
              | Some (next, offset, pending) =>
                  b <- (if negb (pending =? 0) then
                          tick64 "u64RobustPending" ;;; robust_handle_entry v pProc pending offset tid
                        else pret false) ;;
                  r <- robust_walk v pProc head pending offset tid GJ_FUTEX_ROBUST_WALK_MAX next
                         (if negb (pending =? 0) then 1 else 0) (Z.b2z b) ;;
                  futex_cancel_thr (Some t) ;;;
                  pmod (fun m => set_robust (robust_drop tid <$> g_aRobust m) m) ;;;
                  tel_add64 "u64RobustWalk" (fst r) ;;;
                  (if 0 <? snd r then tel_add64 "u64RobustMarked" (snd r) else pret tt) ;;;
                  futex_soft_maybe_once ;;;
                  pret (snd r)
              end
          end
      end
  end.
