(* ===== verification/FutexProofs.v ===== *)
(** Correctness of the futex table: which thread sleeps on which slot, and the
    effect of waking, timeouts, cancellation and waiting on both. *)
From stdpp Require Import base gmap list strings.
From Stdlib Require Import ZArith Lia.
From S2P Require Import Prelude CapTypes LinuxAbi Thread ThreadProofs KString KStringProofs Futex.

(** ** Thread table updates *)
Lemma set_threads_id t : set_threads (g_aThreads t) t = t.
Proof. by destruct t. Qed.

Lemma set_threads_twice l l' t : set_threads l (set_threads l' t) = set_threads l t.
Proof. done. Qed.

(** ** Slots and sleepers *)

(** The slot whose address is [a]. *)
Definition slot_of (a : Z) : option nat :=
  let d := a - g_aWaiters_addr in
  if (0 <=? d) && (d <? 64 * Z.of_nat GJ_FUTEX_MAX_WAITERS) && (d mod 64 =? 0)
  then Some (Z.to_nat (d / 64)) else None.

(** The slot on which the thread sleeps. *)
Definition sleeps_on (p : gj_thread) : option nat :=
  if bool_decide (u32State p = GJ_THR_BLOCKED) then slot_of (pBlockObj p) else None.

Lemma slot_of_addr i : (i < GJ_FUTEX_MAX_WAITERS)%nat -> slot_of (waiter_addr i) = Some i.
Proof.
  intros Hi. unfold slot_of, waiter_addr. cbv zeta.
  replace (g_aWaiters_addr + 64 * Z.of_nat i - g_aWaiters_addr) with (Z.of_nat i * 64) by lia.
  rewrite Z.mod_mul, Z.div_mul, Nat2Z.id by lia.
  rewrite (proj2 (Z.leb_le _ _)), (proj2 (Z.ltb_lt _ _)) by lia. done.
Qed.

Lemma slot_of_inv a i : slot_of a = Some i -> a = waiter_addr i /\ (i < GJ_FUTEX_MAX_WAITERS)%nat.
Proof.
  unfold slot_of, waiter_addr. cbv zeta. set (d := a - g_aWaiters_addr). intros H.
  destruct (_ && _ && _) eqn:E; [|done]. injection H as <-.
  apply andb_prop in E as [[E1 E2]%andb_prop E3].
  apply Z.leb_le in E1. apply Z.ltb_lt in E2. apply Z.eqb_eq in E3.
  pose proof (Z.div_mod d 64 ltac:(lia)). pose proof (Z.div_pos d 64 ltac:(lia) ltac:(lia)).
  unfold d in *. split; [lia|]. lia.
Qed.

Lemma wake_match_slot i p :
  (i < GJ_FUTEX_MAX_WAITERS)%nat -> wake_match (waiter_addr i) 0 p = bool_decide (sleeps_on p = Some i).
Proof.
  intros Hi. unfold wake_match, sleeps_on. rewrite Z.eqb_refl, andb_true_r.
  destruct (bool_decide_reflect (u32State p = GJ_THR_BLOCKED)); simpl; [|done].
  destruct (Z.eqb_spec (pBlockObj p) (waiter_addr i)) as [->|Hne].
  - rewrite slot_of_addr by done. by rewrite bool_decide_true.
  - symmetry. apply bool_decide_false. intros [? _]%slot_of_inv. done.
Qed.

Lemma sleeps_on_woken p : sleeps_on (woken p) = None.
Proof. done. Qed.

(** The threads of [l] that sleep on a slot chosen by [f] wake up. *)
Definition wake_slots (f : nat -> bool) (l : list gj_thread) : list gj_thread :=
  (fun p => match sleeps_on p with Some i => if f i then woken p else p | None => p end) <$> l.

(** Slots chosen by [f] are rewritten with [g], their sleepers wake up. *)
Definition apply_slots (f : nat -> bool) (g : futex_waiter -> futex_waiter) (m : fx_mem) : fx_mem :=
  MkFx (imap (fun j w => if f j then g w else w) (g_aWaiters m)) (g_aRobust m) (fx_user m)
    (set_threads (wake_slots f (g_aThreads (fx_thr m))) (fx_thr m)).

(** ** The invariant *)
Definition slot_live (w : futex_waiter) : bool := fw_u8Used w && fw_u8Waiting w.

Record fx_ok (m : fx_mem) : Prop := MkFxOk {
  fx_nwaiters : length (g_aWaiters m) = GJ_FUTEX_MAX_WAITERS;
  fx_nthreads : length (g_aThreads (fx_thr m)) = GJ_MAX_THREADS;
  fx_nrobust : length (g_aRobust m) = GJ_FUTEX_ROBUST_SLOTS;
  (** A thread that sleeps on a slot owns it, and the slot is marked waiting. *)
  fx_owner : forall t p i, g_aThreads (fx_thr m) !! t = Some p -> sleeps_on p = Some i ->
    exists w, g_aWaiters m !! i = Some w /\ slot_live w = true /\ fw_pThr w = Some t;
  fx_bitset : forall i w, g_aWaiters m !! i = Some w -> slot_live w = true ->
    0 < fw_u32Bitset w < 2 ^ 32 }.

Lemma wake_slots_lookup f l t p :
  wake_slots f l !! t = Some p ->
  exists q, l !! t = Some q /\
    (p = q /\ (forall i, sleeps_on q = Some i -> f i = false) \/ p = woken q /\ exists i, sleeps_on q = Some i /\ f i = true).
Proof.
  unfold wake_slots. rewrite list_lookup_fmap_Some. intros (q & -> & E). exists q. split; [done|].
  destruct (sleeps_on q) as [i|] eqn:Es; [|left; done].
  destruct (f i) eqn:Ef; [right; eauto|left; split; [done|congruence]].
Qed.

Lemma wake_slots_none l : wake_slots (fun _ => false) l = l.
Proof.
  unfold wake_slots. rewrite <-(list_fmap_id l) at 2. apply list_fmap_ext. intros j p _. simpl. by case_match.
Qed.

Lemma wake_slots_comp f1 f2 l : wake_slots f2 (wake_slots f1 l) = wake_slots (fun i => f1 i || f2 i) l.
Proof.
  unfold wake_slots. rewrite <-list_fmap_compose. apply list_fmap_ext. intros j p _. simpl.
  destruct (sleeps_on p) as [i|] eqn:Ep; [|by rewrite Ep].
  destruct (f1 i); simpl; [done|]. by rewrite Ep.
Qed.

Lemma wake_slots_ext f1 f2 l :
  (forall t p i, l !! t = Some p -> sleeps_on p = Some i -> f1 i = f2 i) -> wake_slots f1 l = wake_slots f2 l.
Proof.
  intros H. unfold wake_slots. apply list_fmap_ext. intros t p E. simpl. destruct (sleeps_on p) as [i|] eqn:Es; [|done].
  by rewrite (H t p i E Es).
Qed.

Lemma apply_slots_ok f g m : fx_ok m -> (forall w, slot_live (g w) = false) -> fx_ok (apply_slots f g m).
Proof.
  intros [H1 H2 H3 H4 H5] Hg. split; cbn [apply_slots g_aWaiters g_aRobust fx_thr set_threads g_aThreads].
  - by rewrite length_imap.
  - unfold wake_slots. by rewrite length_fmap.
  - done.
  - intros t p i E Hs. apply wake_slots_lookup in E as (q & E & [[-> Hf]|[-> _]]); [|done].
    destruct (H4 t q i E Hs) as (w & Ew & ? & ?). exists w. split; [|done].
    rewrite list_lookup_imap, Ew. simpl. by rewrite (Hf i Hs).
  - intros i w E Hl. rewrite list_lookup_imap in E. destruct (g_aWaiters m !! i) as [w0|] eqn:Ew; [|done].
    simpl in E. injection E as <-. case_match; [by rewrite Hg in Hl|]. by eapply H5.
Qed.

Lemma apply_slots_none g m : apply_slots (fun _ => false) g m = m.
Proof.
  destruct m as [ws rs us th]. unfold apply_slots. simpl. f_equal.
  - apply list_eq. intros i. rewrite list_lookup_imap. by destruct (ws !! i).
  - rewrite wake_slots_none. by destruct th.
Qed.

Lemma apply_slots_ext f1 f2 g m :
  fx_ok m -> (forall i, (i < GJ_FUTEX_MAX_WAITERS)%nat -> f1 i = f2 i) -> apply_slots f1 g m = apply_slots f2 g m.
Proof.
  intros Hm H. unfold apply_slots. f_equal.
  - apply list_eq. intros i. rewrite !list_lookup_imap. destruct (g_aWaiters m !! i) as [w|] eqn:E; [|done].
    simpl. rewrite H; [done|]. rewrite <-(fx_nwaiters m Hm). by eapply lookup_lt_Some.
  - f_equal. apply wake_slots_ext. intros t p i Ep Hs. apply H.
    destruct (fx_owner m Hm t p i Ep Hs) as (w & Ew & _). rewrite <-(fx_nwaiters m Hm). by eapply lookup_lt_Some.
Qed.

(** Choosing one more slot. *)
Lemma apply_slots_step f g m i w :
  fx_ok m -> f i = false -> g_aWaiters m !! i = Some w ->
  let m1 := apply_slots f g m in
  set_fx_thr (set_threads (wake_slots (Nat.eqb i) (g_aThreads (fx_thr m1))) (fx_thr m1))
    (set_waiters (<[i := g w]> (g_aWaiters m1)) m1) =
  apply_slots (fun j => f j || Nat.eqb i j) g m.
Proof.
  intros Hm Hf Hw. destruct m as [ws rs us th]. unfold apply_slots, set_fx_thr, set_waiters. simpl in *. f_equal.
  - apply list_eq. intros j. rewrite list_lookup_imap. destruct (Nat.eqb_spec i j) as [<-|Hne].
    + rewrite list_lookup_insert_eq by (rewrite length_imap; by eapply lookup_lt_Some).
      rewrite Hw. simpl. by rewrite Hf.
    + rewrite list_lookup_insert_ne by done. rewrite list_lookup_imap. destruct (ws !! j); simpl; [|done].
      by rewrite orb_false_r.
  - by rewrite wake_slots_comp.
Qed.

(** ** Waking one slot *)

(** At most one thread sleeps on a slot, so one wake finds them all. *)
Lemma wake_one_slot m i :
  fx_ok m -> (i < GJ_FUTEX_MAX_WAITERS)%nat ->
  wake_ref (waiter_addr i) 0 1 0 (g_aThreads (fx_thr m)) = wake_slots (Nat.eqb i) (g_aThreads (fx_thr m)).
Proof.
  intros Hm Hi. apply list_eq. intros t.
  destruct (g_aThreads (fx_thr m) !! t) as [p|] eqn:Ep.
  2:{ rewrite !lookup_ge_None_2; [done|..].
      - unfold wake_slots. rewrite length_fmap. by apply lookup_ge_None.
      - rewrite wake_ref_length. by apply lookup_ge_None. }
  rewrite (wake_ref_lookup _ _ _ _ _ _ _ Ep), wake_match_slot by done.
  unfold wake_slots. rewrite list_lookup_fmap, Ep. simpl. f_equal.
  destruct (bool_decide_reflect (sleeps_on p = Some i)) as [Es|Hne]; cbn [andb].
  - rewrite Es, Nat.eqb_refl. replace (waiting (waiter_addr i) 0 (take t (g_aThreads (fx_thr m)))) with 0; [done|].
    symmetry. unfold waiting. rewrite countb_zero; [done|]. intros t' q Eq. apply lookup_take_Some in Eq as [Eq Hlt].
    rewrite wake_match_slot by done. apply bool_decide_false. intros Hq.
    destruct (fx_owner m Hm t p i Ep Es) as (w & Ew & _ & Ht). destruct (fx_owner m Hm t' q i Eq Hq) as (w' & Ew' & _ & Ht').
    rewrite Ew in Ew'. injection Ew' as <-. rewrite Ht in Ht'. injection Ht'. lia.
  - destruct (sleeps_on p) as [j|]; [|done]. by destruct (Nat.eqb_spec i j) as [->|].
Qed.

Lemma wp_wake_slot m i Q :
  fx_ok m -> (i < GJ_FUTEX_MAX_WAITERS)%nat ->
  (forall n, Q n (set_fx_thr (set_threads (wake_slots (Nat.eqb i) (g_aThreads (fx_thr m))) (fx_thr m)) m)) ->
  wp (on_threads (thread_wake (waiter_addr i) 0 1)) Q m.
Proof.
  intros Hm Hi HQ. apply wp_on_threads. apply wp_thread_wake; [apply Hm|lia|].
  cbn [thr_of fx_has_threads]. rewrite wake_one_slot by done. apply HQ.
Qed.

Lemma wp_ld_waiter i w Q m : g_aWaiters m !! i = Some w -> Q w m -> wp (ld_waiter i) Q m.
Proof. intros E H. unfold ld_waiter. wsteps. rewrite E. by wsteps. Qed.

Lemma wp_st_waiter i w w0 Q m :
  g_aWaiters m !! i = Some w0 -> Q tt (set_waiters (<[i := w]> (g_aWaiters m)) m) -> wp (st_waiter i w) Q m.
Proof. intros E H. unfold st_waiter. wsteps. rewrite E. by wsteps. Qed.

(** Marking slot [i] and waking its sleeper, after the slots [f]. *)
Lemma wp_mark_wake f g m i w A (c : prog fx_mem A) Q :
  fx_ok m -> (forall w, slot_live (g w) = false) -> f i = false -> g_aWaiters m !! i = Some w ->
  wp c Q (apply_slots (fun j => f j || Nat.eqb i j) g m) ->
  wp (st_waiter i (g w) ;;; on_threads (thread_wake (waiter_addr i) 0 1) ;;; c) Q (apply_slots f g m).
Proof.
  intros Hm Hg Hf Hw Hc. assert (i < GJ_FUTEX_MAX_WAITERS)%nat as Hi.
  { rewrite <-(fx_nwaiters m Hm). by eapply lookup_lt_Some. }
  pose proof (apply_slots_ok f g m Hm Hg) as Hm1.
  assert (g_aWaiters (apply_slots f g m) !! i = Some w) as Hw1.
  { unfold apply_slots. simpl. rewrite list_lookup_imap, Hw. simpl. by rewrite Hf. }
  apply wp_bind. eapply wp_st_waiter; [exact Hw1|].
  apply wp_bind, wp_on_threads, wp_thread_wake; [apply Hm1|lia|].
  cbn [thr_of thr_upd fx_has_threads].
  change (g_aThreads (fx_thr (set_waiters (<[i:=g w]> (g_aWaiters (apply_slots f g m))) (apply_slots f g m))))
    with (g_aThreads (fx_thr (apply_slots f g m))).
  rewrite (wake_one_slot (apply_slots f g m) i Hm1 Hi).
  rewrite <-(apply_slots_step f g m i w Hm Hf Hw) in Hc. exact Hc.
Qed.

(** ** Waking by key *)

(** The waiter is asleep, on this key, with a common bit. *)
Definition wake_q (key : gj_futex_key) (bitset : Z) (w : futex_waiter) : bool :=
  slot_live w && key_eq (Some (fw_key w)) (Some key) && negb (Z.land (fw_u32Bitset w) bitset =? 0).

(** Slot [i] is among the first [count] slots that satisfy [q]. *)
Definition chosen (q : futex_waiter -> bool) (count : Z) (ws : list futex_waiter) (i : nat) : bool :=
  match ws !! i with
  | Some w => q w && (Z.of_nat (countb q (take i ws)) <? count)
  | None => false
  end.

Definition wakeup (w : futex_waiter) : futex_waiter := unwaiting (fw_u32TimedOut w) w.

Lemma wakeup_dead w : slot_live (wakeup w) = false.
Proof. unfold slot_live. simpl. by rewrite andb_false_r. Qed.

Lemma countb_take_S {A} (q : A -> bool) l i x :
  l !! i = Some x -> countb q (take (S i) l) = (countb q (take i l) + Nat.b2n (q x))%nat.
Proof.
  intros E. rewrite (take_S_r l i x E). unfold countb. rewrite filter_app, length_app, filter_cons, filter_nil.
  case_decide as Hq; [by rewrite Hq|]. apply not_true_is_false in Hq. by rewrite Hq.
Qed.

Lemma countb_take_mono {A} (q : A -> bool) l i j : (i <= j)%nat -> (countb q (take i l) <= countb q (take j l))%nat.
Proof.
  intros H. induction H as [|j H IH]; [done|]. destruct (l !! j) as [x|] eqn:E.
  - rewrite (countb_take_S q l j x E). lia.
  - apply lookup_ge_None in E. rewrite (take_ge l (S j)) by lia. by rewrite (take_ge l j) in IH by lia.
Qed.

Lemma below_step (c : nat -> bool) i m g :
  fx_ok m -> c i = true ->
  apply_slots (fun j => ((j <? i)%nat && c j) || (i =? j)%nat) g m =
  apply_slots (fun j => (j <? S i)%nat && c j) g m.
Proof.
  intros Hm Hc. apply apply_slots_ext; [done|]. intros j _.
  destruct (Nat.eqb_spec i j) as [<-|]; [rewrite Hc, orb_true_r; by rewrite (proj2 (Nat.ltb_lt _ _)) by lia|].
  rewrite orb_false_r. f_equal. apply eq_bool_prop_intro. rewrite !Is_true_true, !Nat.ltb_lt. lia.
Qed.

Lemma below_skip (c : nat -> bool) i m g :
  fx_ok m -> c i = false ->
  apply_slots (fun j => (j <? i)%nat && c j) g m =
  apply_slots (fun j => (j <? S i)%nat && c j) g m.
Proof.
  intros Hm Hc. apply apply_slots_ext; [done|]. intros j _.
  destruct (decide (j = i)) as [->|]; [by rewrite Hc, !andb_false_r|].
  f_equal. apply eq_bool_prop_intro. rewrite !Is_true_true, !Nat.ltb_lt. lia.
Qed.

Lemma below_all (c : nat -> bool) i m g :
  fx_ok m -> (forall j, (i <= j)%nat -> c j = false) ->
  apply_slots (fun j => (j <? i)%nat && c j) g m = apply_slots c g m.
Proof.
  intros Hm Hc. apply apply_slots_ext; [done|]. intros j _.
  destruct (Nat.ltb_spec j i); [done|]. by rewrite Hc.
Qed.

Lemma below_none (c : nat -> bool) m g : fx_ok m -> apply_slots (fun j => (j <? 0)%nat && c j) g m = m.
Proof. intros Hm. rewrite <-(apply_slots_none g m) at 2. by apply apply_slots_ext. Qed.

Lemma apply_lookup f g m i w :
  g_aWaiters m !! i = Some w -> f i = false -> g_aWaiters (apply_slots f g m) !! i = Some w.
Proof. intros E Hf. unfold apply_slots. simpl. rewrite list_lookup_imap, E. simpl. by rewrite Hf. Qed.

Lemma wp_fwake_loop key count bs m : fx_ok m -> 0 < count -> forall k i miss,
  let q := wake_q key bs in let ws := g_aWaiters m in
  (i + k = GJ_FUTEX_MAX_WAITERS)%nat -> Z.of_nat (countb q (take i ws)) <= count ->
  wp (fwake_loop key count bs k i (Z.of_nat (countb q (take i ws))) miss)
     (fun r m' => fst r = Z.min count (Z.of_nat (countb q ws)) /\ m' = apply_slots (chosen q count ws) wakeup m)
     (apply_slots (fun j => (j <? i)%nat && chosen q count ws j) wakeup m).
Proof.
  intros Hm Hcount. cbv zeta. set (q := wake_q key bs). set (ws := g_aWaiters m).
  assert (length ws = GJ_FUTEX_MAX_WAITERS) as Hlen by apply Hm.
  induction k as [|k IH]; intros i miss Hk Hle; cbn [fwake_loop].
  { apply wp_ret. simpl. assert (length ws <= i)%nat by lia. rewrite take_ge in * by lia. split; [lia|].
    rewrite below_all; [done|done|]. intros j Hj. unfold chosen. by rewrite lookup_ge_None_2 by lia. }
  destruct (Z.ltb_spec (Z.of_nat (countb q (take i ws))) count); cbn [negb].
  2:{ apply wp_ret. simpl. pose proof (countb_take_mono q ws i (length ws) ltac:(lia)) as Hmono.
      rewrite firstn_all in Hmono. split; [lia|]. rewrite below_all; [done|done|]. intros j Hj. unfold chosen.
      destruct (ws !! j); [|done]. pose proof (countb_take_mono q ws i j Hj).
      rewrite (proj2 (Z.ltb_ge _ _)) by lia. by rewrite andb_false_r. }
  destruct (lookup_lt_is_Some_2 ws i) as [w Ew]; [lia|].
  assert (chosen q count ws i = q w) as Hci.
  { unfold chosen. rewrite Ew, (proj2 (Z.ltb_lt _ _)) by lia. by rewrite andb_true_r. }
  pose proof (countb_take_S q ws i w Ew) as HS.
  assert (q w = false -> forall miss', wp (fwake_loop key count bs k (S i) (Z.of_nat (countb q (take i ws))) miss')
     (fun r m' => fst r = Z.min count (Z.of_nat (countb q ws)) /\ m' = apply_slots (chosen q count ws) wakeup m)
     (apply_slots (fun j => (j <? i)%nat && chosen q count ws j) wakeup m)) as Hskip.
  { intros Hq miss'. rewrite Hq, Nat.add_0_r in HS. rewrite (below_skip _ i m wakeup Hm) by congruence.
    rewrite <-HS. apply IH; lia. }
  apply wp_bind. apply (wp_ld_waiter i w); [apply apply_lookup; [done|by rewrite Nat.ltb_irrefl]|].
  unfold q, wake_q, slot_live in Hskip. fold q in Hskip.
  destruct (fw_u8Used w) eqn:Hu; cbn [negb orb]; [|by apply Hskip].
  destruct (fw_u8Waiting w) eqn:Hwt; cbn [negb orb]; [|by apply Hskip].
  destruct (key_eq (Some (fw_key w)) (Some key)) eqn:Hkey; cbn [negb]; [|by apply Hskip].
  apply wp_bind, wp_tick64. destruct (Z.eqb_spec (Z.land (fw_u32Bitset w) bs) 0) as [Hz|Hz]; [by apply Hskip|].
  assert (q w = true) as Hq.
  { unfold q, wake_q, slot_live. rewrite Hu, Hwt, Hkey. by rewrite (proj2 (Z.eqb_neq _ _) Hz). }
  apply (wp_mark_wake _ wakeup m i w); [done|apply wakeup_dead|by rewrite Nat.ltb_irrefl|done|].
  rewrite below_step by (done || congruence). rewrite Hq in HS. simpl in HS.
  replace (Z.of_nat (countb q (take i ws)) + 1) with (Z.of_nat (countb q (take (S i) ws))) by lia.
  apply IH; lia.
Qed.

(** ** Statistics change no table *)
Lemma wp_soft_scan Q m : Q tt m -> wp futex_soft_scan Q m.
Proof. intros H. unfold futex_soft_scan. wsteps. done. Qed.

Lemma wp_soft_log Q m : Q tt m -> wp futex_soft_log Q m.
Proof.
  intros H. unfold futex_soft_log. wsteps. apply wp_tel. intros t. case_match; wsteps; by apply wp_soft_scan.
Qed.

Lemma wp_soft_once Q m : Q tt m -> wp futex_soft_maybe_once Q m.
Proof.
  intros H. unfold futex_soft_maybe_once. wsteps. apply wp_tel. intros t.
  repeat (case_match; [by wsteps|]). wsteps. by apply wp_soft_log.
Qed.

Lemma wp_tel_add64 c n Q m : Q tt m -> wp (tel_add64 c n) Q m.
Proof. intros H. unfold tel_add64. wsteps. apply wp_tel. intros t. by wsteps. Qed.

(** A valid wake. *)
Definition key_usable (key : gj_futex_key) : bool := u8Private key || negb (u64Phys key =? 0).

Lemma wp_futex_wake key count bs m :
  fx_ok m -> key_usable key = true -> bs <> 0 -> 0 < count ->
  wp (futex_wake_common (Some key) count bs) (fun n m' =>
    n = Z.min count (Z.of_nat (countb (wake_q key bs) (g_aWaiters m))) /\
    m' = apply_slots (chosen (wake_q key bs) count (g_aWaiters m)) wakeup m) m.
Proof.
  intros Hm Hk Hb Hc. unfold futex_wake_common. apply wp_bind, wp_tick64.
  apply wp_bind. eapply (wp_mono _ (fun _ m' => m' = m)); [repeat case_match; by wsteps|]. intros [] m0 ->.
  apply wp_bind. eapply (wp_mono _ (fun _ m' => m' = m)); [case_match; by wsteps|]. intros [] m0 ->.
  rewrite (proj2 (Z.eqb_neq bs 0) Hb), (proj2 (Z.eqb_neq count 0)) by lia.
  replace (negb (u8Private key) && (u64Phys key =? 0)) with false
    by (unfold key_usable in Hk; destruct (u8Private key), (u64Phys key =? 0); done).
  apply wp_bind. eapply wp_mono.
  - pose proof (wp_fwake_loop key count bs m Hm Hc GJ_FUTEX_MAX_WAITERS 0 0 eq_refl) as H. cbv zeta in H.
    rewrite take_0 in H. change (Z.of_nat (countb (wake_q key bs) [])) with 0 in H. specialize (H ltac:(lia)).
    rewrite below_none in H by done. exact H.
  - intros [n miss] m' [Hn Hm']. simpl in Hn. cbn [fst snd]. apply wp_bind.
    eapply (wp_mono _ (fun _ m1 => m1 = m')); [case_match; [by apply wp_tel_add64|by wsteps]|]. intros [] m1 ->.
    apply wp_bind. eapply (wp_mono _ (fun _ m1 => m1 = m'));
      [case_match; wsteps; [by apply wp_tel_add64|done]|]. intros [] m1 ->.
    wsteps. apply wp_soft_once. by wsteps.
Qed.

(** ** Timeouts *)
Definition timer_q (now : Z) (w : futex_waiter) : bool :=
  slot_live w && negb (fw_u64Deadline w =? 0) && (fw_u64Deadline w <=? now).

(** The slots that satisfy [q]. *)
Definition slots_with (q : futex_waiter -> bool) (ws : list futex_waiter) (i : nat) : bool :=
  match ws !! i with Some w => q w | None => false end.

Lemma timeout_dead w : slot_live (unwaiting 1 w) = false.
Proof. unfold slot_live. simpl. by rewrite andb_false_r. Qed.

Lemma wp_timer_loop now m : fx_ok m -> forall k i r,
  let c := slots_with (timer_q now) (g_aWaiters m) in
  (i + k = GJ_FUTEX_MAX_WAITERS)%nat ->
  wp (timer_loop now k i r) (fun _ m' => m' = apply_slots c (unwaiting 1) m)
     (apply_slots (fun j => (j <? i)%nat && c j) (unwaiting 1) m).
Proof.
  intros Hm. cbv zeta. set (ws := g_aWaiters m). set (c := slots_with (timer_q now) ws).
  assert (length ws = GJ_FUTEX_MAX_WAITERS) as Hlen by apply Hm.
  induction k as [|k IH]; intros i r Hk; cbn [timer_loop].
  { apply wp_ret. apply below_all; [done|]. intros j Hj. unfold c, slots_with. by rewrite lookup_ge_None_2 by lia. }
  destruct (lookup_lt_is_Some_2 ws i) as [w Ew]; [lia|].
  assert (c i = timer_q now w) as Hci by (unfold c, slots_with; by rewrite Ew).
  assert (c i = false -> wp (timer_loop now k (S i) r) (fun _ m' => m' = apply_slots c (unwaiting 1) m)
     (apply_slots (fun j => (j <? i)%nat && c j) (unwaiting 1) m)) as Hskip.
  { intros Hq. rewrite (below_skip _ i m _ Hm Hq). apply IH. lia. }
  apply wp_bind. apply (wp_ld_waiter i w); [apply apply_lookup; [done|by rewrite Nat.ltb_irrefl]|].
  unfold timer_q, slot_live in Hci. rewrite Hci in Hskip.
  destruct (fw_u8Used w); cbn [negb orb]; [|by apply Hskip].
  destruct (fw_u8Waiting w); cbn [negb orb]; [|by apply Hskip].
  destruct (fw_u64Deadline w =? 0); [by apply Hskip|].
  destruct (fw_u64Deadline w <=? now); [|by apply Hskip].
  apply (wp_mark_wake _ (unwaiting 1) m i w); [done|apply timeout_dead|by rewrite Nat.ltb_irrefl|done|].
  rewrite below_step by done. apply IH. lia.
Qed.

Lemma wp_timer_check ready now m : fx_ok m ->
  wp (futex_timer_check ready now) (fun _ m' =>
    m' = if ready then apply_slots (slots_with (timer_q now) (g_aWaiters m)) (unwaiting 1) m else m) m.
Proof.
  intros Hm. unfold futex_timer_check. destruct ready; cbn [negb]; [|by wsteps]. apply wp_bind, wp_tick64, wp_bind.
  pose proof (wp_timer_loop now m Hm GJ_FUTEX_MAX_WAITERS 0 0 eq_refl) as H. cbv zeta in H.
  rewrite below_none in H by done.
  eapply wp_mono; [exact H|]. intros r m' ->. case_match; [by apply wp_tel_add64|by wsteps].
Qed.

(** ** Cancellation *)
Definition cancel_q (t : nat) (w : futex_waiter) : bool := fw_u8Used w && bool_decide (fw_pThr w = Some t).

(** Nobody sleeps on a slot that is not marked waiting. *)
Lemma wake_slots_dead m i w :
  fx_ok m -> g_aWaiters m !! i = Some w -> slot_live w = false ->
  wake_slots (Nat.eqb i) (g_aThreads (fx_thr m)) = g_aThreads (fx_thr m).
Proof.
  intros Hm Ew Hl. rewrite <-(wake_slots_none (g_aThreads (fx_thr m))) at 2. apply wake_slots_ext.
  intros t p j Ep Hs. destruct (Nat.eqb_spec i j) as [<-|]; [|done].
  destruct (fx_owner m Hm t p i Ep Hs) as (w' & Ew' & Hl' & _). congruence.
Qed.

Lemma wp_scrub f m i w (zero : futex_waiter -> futex_waiter) A (c : prog fx_mem A) Q :
  fx_ok m -> (forall w, slot_live (zero w) = false) -> f i = false -> g_aWaiters m !! i = Some w -> fw_u8Used w = true ->
  wp c Q (apply_slots (fun j => f j || Nat.eqb i j) zero m) ->
  wp ((if fw_u8Waiting w then
         tick64 "u64ThrCancelWaiting" ;;; st_waiter i (unwaiting (fw_u32TimedOut w) w) ;;;
         on_threads (thread_wake (waiter_addr i) 0 1) ;;; pret tt
       else tick64 "u64ThrCancelIdle") ;;;
      (if u8Private (fw_key w) then tick64 "u64ThrCancelPriv" else tick64 "u64ThrCancelShared") ;;;
      (if negb (fw_u64Deadline w =? 0) then tick64 "u64ThrCancelDeadline" else pret tt) ;;;
      (if bitset_class (fw_u32Bitset w) then tick64 "u64ThrCancelBitset" else tick64 "u64ThrCancelClassic") ;;;
      (if negb (fw_u32TimedOut w =? 0) then tick64 "u64ThrCancelTimedOut" else pret tt) ;;;
      st_waiter i (zero w) ;;; c) Q (apply_slots f zero m).
Proof.
  intros Hm Hz Hf Hw Hu Hc. assert (i < GJ_FUTEX_MAX_WAITERS)%nat as Hi.
  { rewrite <-(fx_nwaiters m Hm). by eapply lookup_lt_Some. }
  set (m1 := apply_slots f zero m). pose proof (apply_slots_ok f zero m Hm Hz : fx_ok m1) as Hm1.
  pose proof (apply_lookup f zero m i w Hw Hf : g_aWaiters m1 !! i = Some w) as Hw1.
  pose proof (apply_slots_step f zero m i w Hm Hf Hw) as Hstep. cbv zeta in Hstep. fold m1 in Hstep.
  apply wp_bind. eapply (wp_mono _ (fun _ m' => exists w', g_aWaiters m' !! i = Some w' /\
     set_waiters (<[i := zero w]> (g_aWaiters m')) m' = apply_slots (fun j => f j || Nat.eqb i j) zero m)).
  - destruct (fw_u8Waiting w) eqn:Hwt.
    + apply wp_bind, wp_tick64, wp_bind. eapply wp_st_waiter; [exact Hw1|].
      apply wp_bind, wp_on_threads, wp_thread_wake; [apply Hm1|lia|]. wsteps. exists (unwaiting (fw_u32TimedOut w) w).
      cbn [thr_of thr_upd fx_has_threads set_waiters fx_thr].
      rewrite (wake_one_slot m1 i Hm1 Hi). cbn. split.
      * apply list_lookup_insert_eq. by eapply lookup_lt_Some.
      * rewrite <-Hstep. by rewrite list_insert_insert_eq.
    + apply wp_tick64. exists w. split; [done|]. rewrite <-Hstep.
      rewrite (wake_slots_dead m1 i w Hm1 Hw1) by (unfold slot_live; by rewrite Hwt, andb_false_r).
      by destruct m1 as [? ? ? []].
  - intros [] m3 (w' & Ew' & E3).
    do 4 (apply wp_bind; eapply (wp_mono _ (fun _ m' => m' = m3)); [repeat case_match; by wsteps|]; intros [] ? ->).
    apply wp_bind. eapply wp_st_waiter; [exact Ew'|]. by rewrite E3.
Qed.

Lemma wp_cancel_loop t m : fx_ok m -> forall k i r,
  let c := slots_with (cancel_q t) (g_aWaiters m) in
  (i + k = GJ_FUTEX_MAX_WAITERS)%nat ->
  wp (cancel_loop t k i r) (fun _ m' => m' = apply_slots c (fun _ => zero_fwaiter) m)
     (apply_slots (fun j => (j <? i)%nat && c j) (fun _ => zero_fwaiter) m).
Proof.
  intros Hm. cbv zeta. set (ws := g_aWaiters m). set (c := slots_with (cancel_q t) ws).
  assert (length ws = GJ_FUTEX_MAX_WAITERS) as Hlen by apply Hm.
  induction k as [|k IH]; intros i r Hk; cbn [cancel_loop].
  { apply wp_ret. apply below_all; [done|]. intros j Hj. unfold c, slots_with. by rewrite lookup_ge_None_2 by lia. }
  destruct (lookup_lt_is_Some_2 ws i) as [w Ew]; [lia|].
  assert (c i = cancel_q t w) as Hci by (unfold c, slots_with; by rewrite Ew).
  assert (c i = false -> wp (cancel_loop t k (S i) r) (fun _ m' => m' = apply_slots c (fun _ => zero_fwaiter) m)
     (apply_slots (fun j => (j <? i)%nat && c j) (fun _ => zero_fwaiter) m)) as Hskip.
  { intros Hq. rewrite (below_skip _ i m _ Hm Hq). apply IH. lia. }
  apply wp_bind. apply (wp_ld_waiter i w); [apply apply_lookup; [done|by rewrite Nat.ltb_irrefl]|].
  unfold cancel_q in Hci. rewrite Hci in Hskip.
  destruct (fw_u8Used w) eqn:Hu; cbn [negb orb]; [|by apply Hskip].
  destruct (bool_decide (fw_pThr w = Some t)); cbn [negb]; [|by apply Hskip].
  apply (wp_scrub _ m i w (fun _ => zero_fwaiter)); [done|done|by rewrite Nat.ltb_irrefl|done|done|].
  rewrite below_step by done. apply IH. lia.
Qed.

(** After cancelling thread [t], no slot is its own and it does not sleep. *)
Lemma wp_cancel_thr t p m :
  fx_ok m -> g_aThreads (fx_thr m) !! t = Some p ->
  wp (futex_cancel_thr (Some t)) (fun _ m' => exists rs, length rs = GJ_FUTEX_ROBUST_SLOTS /\
    m' = set_robust rs (apply_slots (slots_with (cancel_q t) (g_aWaiters m)) (fun _ => zero_fwaiter) m)) m.
Proof.
  intros Hm Hp. unfold futex_cancel_thr. wsteps. rewrite Hp. apply wp_bind.
  pose proof (wp_cancel_loop t m Hm GJ_FUTEX_MAX_WAITERS 0 0 eq_refl) as H. cbv zeta in H.
  rewrite below_none in H by done. eapply wp_mono; [exact H|]. intros r m' ->. wsteps.
  set (m1 := apply_slots (slots_with (cancel_q t) (g_aWaiters m)) (fun _ => zero_fwaiter) m).
  assert (length (g_aRobust m1) = GJ_FUTEX_ROBUST_SLOTS) as Hr by apply Hm.
  eapply (wp_mono _ (fun _ m' => exists rs, length rs = GJ_FUTEX_ROBUST_SLOTS /\ m' = set_robust rs m1)).
  { case_match; wsteps; eexists; (split; [|reflexivity || by destruct m1]); [by rewrite length_fmap|exact Hr]. }
  intros [] m' (rs & Hrs & ->). apply wp_bind.
  eapply (wp_mono _ (fun _ m' => m' = set_robust rs m1)); [case_match; [by apply wp_tel_add64|by wsteps]|].
  intros [] ? ->. apply wp_bind.
  eapply (wp_mono _ (fun _ m' => m' = set_robust rs m1)); [case_match; [by apply wp_tel_add64|by wsteps]|].
  intros [] ? ->. wsteps. eauto.
Qed.

(** ** User memory *)

(** The word at [p] after the stores of other processors. *)
Definition after_stores (l : list (Z * Z)) (u : bmem) : bmem :=
  foldl (fun u pv => put_bytes 4 (fst pv) (snd pv) u) u l.

Definition word (u : bmem) (p : Z) : option Z := user_bytes 4 u p.

Lemma after_stores_mapped l : forall u p, is_Some (word u p) -> is_Some (word (after_stores l u) p).
Proof.
  induction l as [|[q x] l IH]; intros u p [v Hv]; [by exists v|]. cbn [after_stores foldl fst snd]. apply IH.
  apply user_bytes_total. intros a Ha. destruct (decide (q <= a < q + Z.of_nat 4)); [by apply put_bytes_inside|].
  rewrite put_bytes_outside by done. by eapply user_bytes_mapped.
Qed.

Lemma wp_futex_load p v Q m : word (fx_user m) p = Some v -> Q v m -> wp (futex_load_u32 (Some p)) Q m.
Proof. intros E H. unfold futex_load_u32, user_load_u32. wsteps. unfold word in E. rewrite E. by wsteps. Qed.

Lemma wp_user_stores l Q m : Q tt (set_user (after_stores l (fx_user m)) m) -> wp (user_stores l) Q m.
Proof. intros H. unfold user_stores. wsteps. exact H. Qed.

(** ** Waiting *)
Definition word_is (u : bmem) (p v : Z) : bool := bool_decide (word u p = Some v).

(** What a wait does up to [schedule]: its outcome and user memory. *)
Definition wait_spec (cur : option nat) (pU32 : option Z) (val : Z) (pKey : option gj_futex_key)
  (deadline bitset : Z) (ready : bool) (now : Z) (others1 others2 : list (Z * Z)) (m : fx_mem) : wait_out * bmem :=
  let u := fx_user m in
  match pU32, pKey, cur with
  | Some p, Some key, Some _ =>
      if negb (Z.land (u64Uaddr key) 3 =? 0) || (bitset =? 0) || negb (key_usable key)
      then (WaitDone (- LINUX_EINVAL), u) else
      if negb (word_is u p val) then (WaitDone (- LINUX_EAGAIN), u) else
      let u1 := after_stores others1 u in
      match find_from (fun w => negb (fw_u8Used w)) 0 (g_aWaiters m) with
      | None => (WaitDone (- LINUX_ENOMEM), u1)
      | Some i =>
          if negb (word_is u1 p val) then (WaitDone (- LINUX_EAGAIN), u1) else
          if negb (deadline =? 0) && ready && (deadline <=? now) then (WaitDone (- LINUX_ETIMEDOUT), u1) else
          let u2 := after_stores others2 u1 in
          if negb (word_is u2 p val) then (WaitDone (- LINUX_EAGAIN), u2) else (WaitPark i, u2)
      end
  | _, _, _ => (WaitDone (- LINUX_EINVAL), u)
  end.

(** Equal tables, except for what unused slots contain. *)
Definition same_slots (l l' : list futex_waiter) : Prop :=
  length l' = length l /\
  forall j w, l !! j = Some w -> exists w', l' !! j = Some w' /\
    (w' = w \/ fw_u8Used w = false /\ fw_u8Used w' = false).

(** The memory that a wait leaves, from its outcome. *)
Definition wait_post (cur : option nat) (val : Z) (pKey : option gj_futex_key) (deadline bitset : Z)
  (m : fx_mem) (o : wait_out) (u : bmem) (m' : fx_mem) : Prop :=
  match o with
  | WaitDone _ => exists ws, same_slots (g_aWaiters m) ws /\ m' = set_user u (set_waiters ws m)
  | WaitPark i =>
      exists c key th, cur = Some c /\ pKey = Some key /\ g_aThreads (fx_thr m) !! c = Some th /\
        m' = MkFx (<[i := MkWaiterF true true val bitset 0 key (Some c) deadline]> (g_aWaiters m)) (g_aRobust m) u
               (set_threads (<[c := MkThread (u32Id th) GJ_THR_BLOCKED (waiter_addr i) 0]> (g_aThreads (fx_thr m)))
                  (fx_thr m))
  end.

Lemma same_slots_refl l : same_slots l l.
Proof. split; [done|]. eauto. Qed.

Lemma same_slots_insert l i w w' :
  l !! i = Some w -> fw_u8Used w = false -> fw_u8Used w' = false -> same_slots l (<[i := w']> l).
Proof.
  intros E Hw Hw'. split; [apply length_insert|]. intros j x Ex. destruct (decide (i = j)) as [<-|].
  - exists w'. rewrite list_lookup_insert_eq by (by eapply lookup_lt_Some). split; [done|]. right. split; [congruence|done].
  - exists x. rewrite list_lookup_insert_ne by done. eauto.
Qed.

Lemma wait_post_same cur val pKey deadline bitset m rc :
  wait_post cur val pKey deadline bitset m (WaitDone rc) (fx_user m) m.
Proof. exists (g_aWaiters m). split; [apply same_slots_refl|by destruct m]. Qed.

(** The current thread runs and waits for nothing. *)
Definition thr_running (m : fx_mem) (c : nat) : Prop :=
  exists id, g_aThreads (fx_thr m) !! c = Some (MkThread id GJ_THR_RUNNING 0 0).

Lemma wp_wait_einval why Q m : Q (WaitDone (- LINUX_EINVAL)) m -> wp (wait_einval why) Q m.
Proof. intros H. unfold wait_einval. wsteps. apply wp_soft_once. by wsteps. Qed.

Lemma wp_wait_eagain why Q m : Q (WaitDone (- LINUX_EAGAIN)) m -> wp (wait_eagain why) Q m.
Proof. intros H. unfold wait_eagain. wsteps. apply wp_soft_once. by wsteps. Qed.

Lemma wp_wait_claim c p val key deadline bitset ready now others i w0 m :
  fx_ok m -> thr_running m c -> is_Some (word (fx_user m) p) ->
  g_aWaiters m !! i = Some w0 -> fw_u8Used w0 = false ->
  let u2 := after_stores others (fx_user m) in
  let r := if negb (deadline =? 0) && ready && (deadline <=? now) then (WaitDone (- LINUX_ETIMEDOUT), fx_user m)
           else if negb (word_is u2 p val) then (WaitDone (- LINUX_EAGAIN), u2) else (WaitPark i, u2) in
  wp (wait_claim c (Some p) val key deadline bitset ready now others i) (fun o m' =>
    o = fst r /\ wait_post (Some c) val (Some key) deadline bitset m o (snd r) m') m.
Proof.
  intros Hm [id Hth] Hp Ew Hu. cbv zeta. unfold wait_claim.
  assert (i < length (g_aWaiters m))%nat as Hi by (by eapply lookup_lt_Some).
  apply wp_bind. eapply wp_st_waiter; [exact Ew|]. set (m1 := set_waiters _ m).
  assert (forall w, g_aWaiters (set_waiters (<[i := w]> (g_aWaiters m1)) m1) = <[i := w]> (g_aWaiters m)) as Hii.
  { intros w. unfold m1. simpl. by rewrite list_insert_insert_eq. }
  assert (g_aWaiters m1 !! i = Some (MkWaiterF true true val bitset 0 key (Some c) deadline)) as E1.
  { unfold m1. simpl. by rewrite list_lookup_insert_eq. }
  apply wp_bind, wp_tick64. apply wp_bind. unfold futex_soft_note_claim. wsteps.
  destruct (negb (deadline =? 0) && ready && (deadline <=? now)).
  { wsteps. eapply wp_ld_waiter; [exact E1|]. wsteps. eapply wp_st_waiter; [exact E1|]. wsteps. apply wp_soft_once. wsteps.
    split; [done|]. eexists. split; cycle 1.
    { unfold m1, set_user, set_waiters. simpl. rewrite list_insert_insert_eq. reflexivity. }
    by eapply same_slots_insert. }
  apply wp_bind, wp_on_threads. unfold thread_block. wsteps. cbn [thr_of thr_upd fx_has_threads].
  replace (g_aThreads (fx_thr m1)) with (g_aThreads (fx_thr m)) by done. rewrite Hth. wsteps.
  apply wp_user_stores. cbn [fx_user set_fx_thr].
  set (u2 := after_stores others (fx_user m)). destruct (after_stores_mapped others _ _ Hp) as [v Hv].
  apply wp_bind, (wp_futex_load p v); [exact Hv|]. unfold word_is. fold u2 in Hv. rewrite Hv.
  destruct (Z.eqb_spec v val) as [->|Hne]; cbn [negb].
  2:{ rewrite bool_decide_false by congruence. cbn [negb fst snd]. wsteps. unfold waiter_cancel_blocked. wsteps.
      eapply wp_ld_waiter; [exact E1|]. wsteps. eapply wp_st_waiter; [exact E1|]. cbn [fw_pThr]. unfold unblock_running. wsteps.
      simpl. rewrite list_lookup_insert_eq by (by eapply lookup_lt_Some). simpl. rewrite Z.eqb_refl. wsteps.
      apply wp_wait_eagain. split; [done|]. eexists. split; cycle 1.
      { unfold m1, set_user, set_waiters, set_fx_thr. simpl. rewrite !list_insert_insert_eq.
        rewrite (list_insert_id _ c _ Hth), set_threads_twice, set_threads_id. reflexivity. }
      by eapply same_slots_insert. }
  rewrite bool_decide_true by done. cbn [negb fst snd]. apply wp_bind. eapply wp_ld_waiter; [exact E1|].
  cbn [fw_u8Waiting negb]. wsteps. split; [done|]. exists c, key, (MkThread id GJ_THR_RUNNING 0 0). done.
Qed.

Lemma word_is_val u p v val : word u p = Some v -> word_is u p val = (v =? val).
Proof. intros E. unfold word_is. rewrite E. destruct (Z.eqb_spec v val) as [->|]; [by apply bool_decide_true|]. apply bool_decide_false. congruence. Qed.

Lemma wp_wait_enter cur pU32 val pKey deadline bitset ready now o1 o2 m :
  fx_ok m -> (forall c, cur = Some c -> thr_running m c) ->
  (forall p, pU32 = Some p -> is_Some (word (fx_user m) p)) ->
  let r := wait_spec cur pU32 val pKey deadline bitset ready now o1 o2 m in
  wp (wait_enter cur pU32 val pKey deadline bitset ready now o1 o2) (fun o m' =>
    o = fst r /\ wait_post cur val pKey deadline bitset m o (snd r) m') m.
Proof.
  intros Hm Hcur Hp. cbv zeta. unfold wait_enter, wait_spec. apply wp_bind, wp_tick64.
  do 2 (apply wp_bind; eapply (wp_mono _ (fun _ m' => m' = m)); [repeat case_match; by wsteps|]; intros [] ? ->).
  assert (forall why, wp (wait_einval why) (fun o m' => o = WaitDone (- LINUX_EINVAL) /\
    wait_post cur val pKey deadline bitset m o (fx_user m) m') m) as Hinv.
  { intros why. apply wp_wait_einval. split; [done|]. apply wait_post_same. }
  destruct pU32 as [p|]; [|apply Hinv]. destruct pKey as [key|]; [|by destruct cur; apply Hinv].
  apply wp_bind. eapply (wp_mono _ (fun _ m' => m' = m)); [case_match; by wsteps|]. intros [] ? ->.
  replace (negb (u8Private key) && (u64Phys key =? 0)) with (negb (key_usable key))
    by (unfold key_usable; by destruct (u8Private key), (u64Phys key =? 0)).
  destruct (negb (Z.land (u64Uaddr key) 3 =? 0)); [by destruct cur; apply Hinv|].
  destruct (bitset =? 0); [by destruct cur; apply Hinv|].
  destruct (negb (key_usable key)); [by destruct cur; apply Hinv|].
  destruct cur as [c|]; [|apply Hinv]. cbn [orb]. destruct (Hp p eq_refl) as [v Hv].
  apply wp_bind, (wp_futex_load p v); [done|]. rewrite (word_is_val _ _ _ _ Hv).
  destruct (Z.eqb_spec v val) as [->|Hne]; cbn [negb].
  2:{ apply wp_wait_eagain. split; [done|]. apply wait_post_same. }
  apply wp_bind, wp_user_stores, wp_bind, wp_get.
  set (u1 := after_stores o1 (fx_user m)). set (m1 := set_user u1 m).
  change (g_aWaiters m1) with (g_aWaiters m).
  assert (fx_ok m1) as Hm1 by (by destruct Hm).
  assert (forall rc, wait_post (Some c) val (Some key) deadline bitset m (WaitDone rc) u1 m1) as Hsame.
  { intros rc. exists (g_aWaiters m). split; [apply same_slots_refl|done]. }
  destruct (find_from _ 0 (g_aWaiters m)) as [i|] eqn:Hfree.
  2:{ wsteps. apply wp_soft_once. wsteps. split; [done|apply Hsame]. }
  destruct (after_stores_mapped o1 _ _ (Hp p eq_refl)) as [v Hv1]. fold u1 in Hv1.
  apply wp_bind, (wp_futex_load p v); [done|]. rewrite (word_is_val _ _ _ _ Hv1).
  destruct (Z.eqb_spec v val) as [->|Hne]; cbn [negb].
  2:{ apply wp_wait_eagain. split; [done|apply Hsame]. }
  apply find_from_Some in Hfree as (j & w0 & -> & Ew & Hu & _). apply negb_true_iff in Hu.
  eapply wp_mono; [apply (wp_wait_claim c p val key deadline bitset ready now o2 _ w0 m1 Hm1 (Hcur c eq_refl) (ex_intro _ val Hv1) Ew Hu)|].
  cbv zeta. cbn [fx_user]. intros o m' [Ho Hpost]. cbn [fx_user m1 set_user] in Ho, Hpost. split; [exact Ho|].
  rewrite Ho in Hpost |- *. clear Ho. repeat case_match; cbn [fst snd wait_post] in Hpost |- *; try exact Hpost.
Qed.

(** A wait keeps the table sound. *)
Lemma same_slots_ok m ws u : fx_ok m -> same_slots (g_aWaiters m) ws -> fx_ok (set_user u (set_waiters ws m)).
Proof.
  intros [H1 H2 H3 H4 H5] [Hl Hs]. split; cbn [set_user set_waiters g_aWaiters g_aRobust fx_thr]; [congruence|done|done|..].
  - intros t p i E Hsl. destruct (H4 t p i E Hsl) as (w & Ew & Hlv & Ht). exists w.
    destruct (Hs i w Ew) as (w' & Ew' & [->|[Hu _]]); [done|]. unfold slot_live in Hlv. by rewrite Hu in Hlv.
  - intros i w' Ew' Hlv. destruct (g_aWaiters m !! i) as [w|] eqn:Ew.
    2:{ apply lookup_lt_Some in Ew'. apply lookup_ge_None in Ew. lia. }
    destruct (Hs i w Ew) as (w2 & Ew2 & [->|[_ Hu]]); rewrite Ew' in Ew2; injection Ew2 as <-; [by eapply H5|].
    unfold slot_live in Hlv. by rewrite Hu in Hlv.
Qed.

Lemma wait_post_ok cur pU32 val pKey deadline bitset ready now o1 o2 m m' :
  fx_ok m -> 0 <= bitset < 2 ^ 32 ->
  let r := wait_spec cur pU32 val pKey deadline bitset ready now o1 o2 m in
  wait_post cur val pKey deadline bitset m (fst r) (snd r) m' -> fx_ok m'.
Proof.
  intros Hm Hb. cbv zeta. destruct (wait_spec cur pU32 val pKey deadline bitset ready now o1 o2 m) as [o u] eqn:Er.
  cbn [fst snd]. destruct o as [rc|i].
  { intros (ws & Hs & ->). by apply same_slots_ok. }
  intros (c & key & th & -> & -> & Hth & ->).
  assert (bitset <> 0 /\ exists w0, g_aWaiters m !! i = Some w0 /\ fw_u8Used w0 = false) as (Hnz & w0 & Ew & Hu).
  { unfold wait_spec in Er. destruct pU32 as [p|]; [|done].
    destruct (negb _ || (bitset =? 0) || negb _) eqn:E; [done|]. apply orb_false_elim in E as [[_ E]%orb_false_elim _].
    apply Z.eqb_neq in E. split; [done|]. destruct (negb (word_is _ p val)); [done|].
    destruct (find_from _ 0 (g_aWaiters m)) as [j|] eqn:Hf; [|done].
    apply find_from_Some in Hf as (k & w0 & -> & Ek & Hk & _). apply negb_true_iff in Hk.
    repeat (case_match; try done). injection Er as <- _. eauto. }
  destruct Hm as [H1 H2 H3 H4 H5]. split; cbn [g_aWaiters g_aRobust fx_thr set_threads g_aThreads].
  - by rewrite length_insert.
  - by rewrite length_insert.
  - done.
  - intros t p j E Hs. destruct (decide (c = t)) as [<-|Hne].
    + rewrite list_lookup_insert_eq in E by (by eapply lookup_lt_Some). injection E as <-.
      unfold sleeps_on in Hs. simpl in Hs. rewrite slot_of_addr in Hs by (rewrite <-H1; by eapply lookup_lt_Some).
      injection Hs as <-. eexists. split; [apply list_lookup_insert_eq; by eapply lookup_lt_Some|done].
    + rewrite list_lookup_insert_ne in E by done. destruct (H4 t p j E Hs) as (w & Ew' & Hlv & Ht).
      exists w. rewrite list_lookup_insert_ne; [done|]. intros <-. rewrite Ew in Ew'. injection Ew' as <-.
      unfold slot_live in Hlv. by rewrite Hu in Hlv.
  - intros j w E Hlv. destruct (decide (i = j)) as [<-|Hne].
    + rewrite list_lookup_insert_eq in E by (by eapply lookup_lt_Some). injection E as <-. simpl. lia.
    + rewrite list_lookup_insert_ne in E by done. by eapply H5.
Qed.
