(* ===== verification/FutexSys.v ===== *)
(** Sequences of futex operations: nobody stays asleep on a value that the word
    no longer has once a wake came after the change. *)
From stdpp Require Import base gmap list strings.
From Stdlib Require Import ZArith Lia.
From S2P Require Import Prelude CapTypes LinuxAbi Thread ThreadProofs KString KStringProofs Futex FutexProofs.

Section Settled.
(** The futex: address of the word, the value waited for and the key. *)
Context (p v : Z) (key : gj_futex_key).

(** The word differs from [v] and no waiting slot of the key expects [v]. *)
Record settled (m : fx_mem) : Prop := MkSettled {
  st_ok : fx_ok m;
  st_mapped : is_Some (word (fx_user m) p);
  st_word : word (fx_user m) p <> Some v;
  st_slots : forall i w, g_aWaiters m !! i = Some w -> slot_live w = true ->
    key_eq (Some (fw_key w)) (Some key) = true -> fw_u32Val w <> v }.

(** Then nobody sleeps on the key with value [v]. *)
Lemma settled_awake m t th i w :
  settled m -> g_aThreads (fx_thr m) !! t = Some th -> sleeps_on th = Some i -> g_aWaiters m !! i = Some w ->
  key_eq (Some (fw_key w)) (Some key) = true -> fw_u32Val w <> v.
Proof.
  intros [Hok _ _ Hs] Et Hsl Ew. eapply Hs; [done|]. destruct (fx_owner m Hok t th i Et Hsl) as (w' & Ew' & Hl & _).
  congruence.
Qed.

Lemma settled_apply f g m :
  (forall w, slot_live (g w) = false) -> settled m -> settled (apply_slots f g m).
Proof.
  intros Hg [H1 H2 H3 H4]. split; [by apply apply_slots_ok|done|done|].
  intros i w E Hl Hk. cbn [apply_slots g_aWaiters] in E. rewrite list_lookup_imap in E.
  destruct (g_aWaiters m !! i) as [w0|] eqn:Ew; [|done]. simpl in E. injection E as <-.
  destruct (f i); [by rewrite Hg in Hl|]. by eapply H4.
Qed.

Lemma settled_robust rs m : length rs = GJ_FUTEX_ROBUST_SLOTS -> settled m -> settled (set_robust rs m).
Proof. intros Hr [[] H2 H3 H4]. split; [by split|done..]. Qed.

(** A store that does not bring [v] back to the word. *)
Definition quiet (qx : Z * Z) : Prop :=
  (fst qx = p /\ snd qx mod 2 ^ 32 <> v) \/ fst qx + 4 <= p \/ p + 4 <= fst qx.

Lemma quiet_word qx u : quiet qx -> word u p <> Some v -> word (put_bytes 4 (fst qx) (snd qx) u) p <> Some v.
Proof.
  destruct qx as [q x]. unfold quiet, word. cbn [fst snd]. intros [[-> Hx]|Hd] Hw.
  - rewrite user_bytes_put. change (256 ^ Z.of_nat 4) with (2 ^ 32). congruence.
  - rewrite (user_bytes_ext 4 u); [done|]. intros a Ha. rewrite put_bytes_outside; [done|]. lia.
Qed.

Lemma quiet_stores l : forall u, Forall quiet l -> word u p <> Some v -> word (after_stores l u) p <> Some v.
Proof.
  induction l as [|qx l IH]; intros u Hq Hw; [done|]. apply Forall_cons in Hq as [Hx Hl].
  unfold after_stores. cbn [foldl]. apply IH; [done|]. by apply quiet_word.
Qed.

Lemma settled_user l m : Forall quiet l -> settled m -> settled (set_user (after_stores l (fx_user m)) m).
Proof.
  intros Hq [[] H2 H3 H4]. split; [by split|by apply after_stores_mapped|by apply quiet_stores|done].
Qed.

(** ** The operations keep the futex settled *)
Lemma wp_wake_settled pKey count bs m :
  0 <= count -> settled m -> wp (futex_wake_common pKey count bs) (fun _ m' => settled m') m.
Proof.
  intros Hc Hm. destruct pKey as [k|].
  - destruct (decide (bs <> 0 /\ count <> 0 /\ key_usable k = true)) as [(Hb & Hnz & Hk)|Hno].
    + eapply wp_mono; [apply wp_futex_wake; [apply Hm|done|done|lia]|].
      intros n m' [_ ->]. apply settled_apply; [apply wakeup_dead|done].
    + unfold futex_wake_common. apply wp_bind, wp_tick64.
      do 2 (apply wp_bind; eapply (wp_mono _ (fun _ m' => m' = m)); [repeat case_match; by wsteps|]; intros [] ? ->).
      destruct (Z.eqb_spec bs 0) as [->|Hb]; [unfold wake_einval; wsteps; apply wp_soft_once; by wsteps|].
      destruct (Z.eqb_spec count 0) as [->|Hnz]; [wsteps; apply wp_soft_once; by wsteps|].
      replace (negb (u8Private k) && (u64Phys k =? 0)) with true; [unfold wake_einval; wsteps; apply wp_soft_once; by wsteps|].
      unfold key_usable in Hno. destruct (u8Private k), (u64Phys k =? 0); simpl in *; try done; exfalso; apply Hno; done.
  - unfold futex_wake_common. apply wp_bind, wp_tick64. apply wp_bind.
    eapply (wp_mono _ (fun _ m' => m' = m)); [repeat case_match; by wsteps|]. intros [] ? ->.
    unfold wake_einval. wsteps. apply wp_soft_once. by wsteps.
Qed.

Lemma wp_cancel_settled t m :
  (t < GJ_MAX_THREADS)%nat -> settled m -> wp (futex_cancel_thr (Some t)) (fun _ m' => settled m') m.
Proof.
  intros Ht Hm. destruct (lookup_lt_is_Some_2 (g_aThreads (fx_thr m)) t) as [th Eth].
  { by rewrite (fx_nthreads m (st_ok m Hm)). }
  eapply wp_mono; [apply (wp_cancel_thr t th); [apply Hm|done]|]. intros n m' (rs & Hrs & ->).
  apply settled_robust; [done|]. by apply settled_apply.
Qed.

Lemma wp_resume_settled i m :
  (i < GJ_FUTEX_MAX_WAITERS)%nat ->
  (forall t th, g_aThreads (fx_thr m) !! t = Some th -> sleeps_on th <> Some i) ->
  settled m -> wp (wait_resume i) (fun _ m' => settled m') m.
Proof.
  intros Hi Hno Hm. destruct (lookup_lt_is_Some_2 (g_aWaiters m) i) as [w Ew].
  { by rewrite (fx_nwaiters m (st_ok m Hm)). }
  unfold wait_resume. wsteps. eapply wp_ld_waiter; [exact Ew|]. wsteps. eapply wp_st_waiter; [exact Ew|].
  assert (settled (set_waiters (<[i := released w]> (g_aWaiters m)) m)) as Hm'.
  { replace (set_waiters (<[i := released w]> (g_aWaiters m)) m) with (apply_slots (Nat.eqb i) released m);
      [by apply settled_apply|].
    unfold apply_slots, set_waiters. f_equal.
    - apply list_eq. intros j. rewrite list_lookup_imap. destruct (Nat.eqb_spec i j) as [<-|].
      + rewrite Ew. simpl. by rewrite list_lookup_insert_eq by (by eapply lookup_lt_Some).
      + rewrite list_lookup_insert_ne by done. by destruct (g_aWaiters m !! j).
    - rewrite (wake_slots_ext _ (fun _ => false)); [by rewrite wake_slots_none, set_threads_id|].
      intros t th j Et Hs. destruct (Nat.eqb_spec i j) as [<-|]; [|done]. by destruct (Hno t th Et). }
  unfold wait_result. case_match; wsteps; apply wp_soft_once; by wsteps.
Qed.

(** A wait for [v] on this key reads the word and sees another value. *)
Lemma wp_wait_settled cur pU32 val pKey deadline bitset ready now o1 o2 m :
  (forall c, cur = Some c -> thr_running m c) ->
  (forall q, pU32 = Some q -> is_Some (word (fx_user m) q)) ->
  (forall k, pKey = Some k -> key_eq (Some k) (Some key) = true -> pU32 = Some p) ->
  0 <= bitset < 2 ^ 32 -> Forall quiet o1 -> Forall quiet o2 -> settled m ->
  wp (wait_enter cur pU32 val pKey deadline bitset ready now o1 o2) (fun _ m' => settled m') m.
Proof.
  intros Hcur Hp Hkey Hb Hq1 Hq2 Hm. eapply wp_mono; [apply wp_wait_enter; [apply Hm|done|done]|].
  intros o m' [-> Hpost]. pose proof (wait_post_ok _ _ _ _ _ _ _ _ _ _ _ _ (st_ok m Hm) Hb Hpost) as Hok'.
  revert Hpost Hok'. unfold wait_spec. destruct Hm as [H1 H2 H3 H4].
  pose proof (quiet_stores o1 _ Hq1 H3) as Hw1. pose proof (after_stores_mapped o1 _ _ H2) as Hmp1.
  pose proof (quiet_stores o2 _ Hq2 Hw1) as Hw2. pose proof (after_stores_mapped o2 _ _ Hmp1) as Hmp2.
  assert (forall rc u, wait_post cur val pKey deadline bitset m (WaitDone rc) u m' ->
    is_Some (word u p) -> word u p <> Some v -> fx_ok m' -> settled m') as Hdone.
  { intros rc u (ws & [_ Hs] & ->) Hu1 Hu2 Hok. split; [done..|]. intros i w' E Hl Hk. cbn in E.
    destruct (g_aWaiters m !! i) as [w|] eqn:Ew.
    - destruct (Hs i w Ew) as (w2 & E2 & [->|[_ Hu]]); rewrite E in E2; injection E2 as <-; [by eapply H4|].
      unfold slot_live in Hl. by rewrite Hu in Hl.
    - apply lookup_lt_Some in E. apply lookup_ge_None in Ew. rewrite (fx_nwaiters _ H1) in Ew.
      pose proof (fx_nwaiters _ Hok) as Hn. cbn in Hn. lia. }
  destruct pU32 as [q|]; [|intros Hpost ?; by apply (Hdone _ _ Hpost)]. destruct pKey as [k|]; [|destruct cur; intros Hpost ?; by apply (Hdone _ _ Hpost)].
  destruct cur as [c|]; [|intros Hpost ?; by apply (Hdone _ _ Hpost)].
  destruct (negb _ || _ || negb _); [intros Hpost ?; by apply (Hdone _ _ Hpost)|].
  destruct (word_is (fx_user m) q val) eqn:Hval; cbn [negb]; [|intros Hpost ?; by apply (Hdone _ _ Hpost)].
  destruct (find_from _ _ _) as [i|]; [|intros Hpost ?; by apply (Hdone _ _ Hpost)].
  destruct (negb (word_is _ q val)); [intros Hpost ?; by apply (Hdone _ _ Hpost)|].
  destruct (negb (deadline =? 0) && ready && (deadline <=? now)); [intros Hpost ?; by apply (Hdone _ _ Hpost)|].
  destruct (negb (word_is _ q val)); [intros Hpost ?; by apply (Hdone _ _ Hpost)|]. cbn [fst snd].
  intros (c' & k' & th & [= <-] & [= <-] & Eth & ->) Hok'. split; [done..|].
  intros j w E Hl Hk. cbn in E. apply list_lookup_insert_Some in E as [(<- & <- & _)|[_ E]]; [|by eapply H4].
  cbn in Hk |- *. specialize (Hkey k eq_refl Hk). injection Hkey as ->. apply bool_decide_eq_true in Hval. congruence.
Qed.

(** ** Thread exit *)
Context (Hp4 : p mod 4 = 0) (Hv : Z.land v GJ_FUTEX_OWNER_DIED = 0).

(** Marking any word as ownerless does not write [v]. *)
Lemma quiet_died a x : Z.land a 3 = 0 -> quiet (a, Z.lor x GJ_FUTEX_OWNER_DIED).
Proof.
  intros Ha. change 3 with (Z.ones 2) in Ha. rewrite Z.land_ones in Ha by lia. change (2 ^ 2) with 4 in Ha.
  unfold quiet. cbn [fst snd]. destruct (decide (a = p)) as [->|Hne].
  - left. split; [done|]. intros E. assert (Z.testbit v 30 = false) as Hb.
    { replace (Z.testbit v 30) with (Z.testbit (Z.land v GJ_FUTEX_OWNER_DIED) 30);
        [by rewrite Hv|]. rewrite Z.land_spec. by rewrite andb_true_r. }
    rewrite <-E in Hb. rewrite Z.mod_pow2_bits_low in Hb by lia. rewrite Z.lor_spec in Hb.
    by rewrite orb_true_r in Hb.
  - right. pose proof (Z.div_mod a 4 ltac:(lia)). pose proof (Z.div_mod p 4 ltac:(lia)). lia.
Qed.

Lemma wp_key_any view uaddr priv pProc (m : fx_mem) :
  wp (futex_key_from_uaddr_proc view uaddr priv pProc) (fun _ m' => m' = m) m.
Proof.
  unfold futex_key_from_uaddr_proc, futex_resolve_pa. repeat (case_match; wsteps); done.
Qed.

Lemma wp_handle_settled view pProc entry offset tid m :
  settled m -> wp (robust_handle_entry view pProc entry offset tid) (fun _ m' => settled m') m.
Proof.
  intros Hm. unfold robust_handle_entry. case_match; [by wsteps|]. cbv zeta.
  set (a := u64_wrap (entry + offset)). destruct (Z.eqb_spec (Z.land a 3) 0) as [Ha|]; cbn [negb]; [|by wsteps].
  unfold user_load_u32. wsteps. destruct (user_bytes 4 (fx_user m) a) as [x|] eqn:Ex; [|by wsteps].
  case_match; [by wsteps|]. case_match; [by wsteps|]. unfold futex_store_u32. wsteps. rewrite Ex. wsteps. cbn [negb].
  set (m1 := set_user _ m). assert (settled m1) as Hm1.
  { apply (settled_user [(a, Z.lor x GJ_FUTEX_OWNER_DIED)]); [|done]. constructor; [by apply quiet_died|done]. }
  apply wp_bind. eapply wp_mono; [apply wp_key_any|]. intros k1 ? ->. apply wp_bind.
  eapply (wp_mono _ (fun _ m' => m' = m1)); [case_match; [by wsteps|apply wp_key_any]|]. intros k2 ? ->.
  wsteps. case_match; wsteps; [|done]. unfold futex_wake.
  eapply wp_mono; [apply wp_wake_settled; [lia|done]|]. intros n m' Hm'. by wsteps.
Qed.

Lemma wp_walk_settled view pProc head pending offset tid k : forall entry walked marked m,
  settled m -> wp (robust_walk view pProc head pending offset tid k entry walked marked) (fun _ m' => settled m') m.
Proof.
  induction k as [|k IH]; intros entry walked marked m Hm; cbn [robust_walk]; [by wsteps|].
  case_match; [by wsteps|]. apply wp_bind. eapply (wp_mono _ (fun _ m' => settled m')).
  { case_match; [by apply wp_handle_settled|by wsteps]. }
  intros b m' Hm'. unfold user_load_u64. wsteps. case_match; [|by wsteps]. case_match; [by wsteps|]. by apply IH.
Qed.

Lemma wp_exit_empty t m :
  (t < GJ_MAX_THREADS)%nat -> settled m -> wp (robust_exit_empty t) (fun _ m' => settled m') m.
Proof.
  intros Ht Hm. unfold robust_exit_empty. apply wp_bind. eapply wp_mono; [by apply wp_cancel_settled|].
  intros n m' Hm'. wsteps. apply wp_soft_once. by wsteps.
Qed.

Lemma wp_exit_settled view t pProc m :
  (t < GJ_MAX_THREADS)%nat -> settled m ->
  wp (futex_exit_robust_list view (Some t) pProc) (fun _ m' => settled m') m.
Proof.
  intros Ht Hm. unfold futex_exit_robust_list. wsteps. case_match; [wsteps; apply wp_soft_once; by wsteps|].
  destruct (robust_find_tid m (cur_id m (Some t))) as [i|] eqn:Hi; [|by apply wp_exit_empty].
  apply find_from_Some in Hi as (j & r & -> & Er & _). simpl plus. rewrite Er.
  case_match; [by apply wp_exit_empty|]. wsteps.
  set (m1 := set_robust _ m). assert (settled m1) as Hm1.
  { apply settled_robust; [|done]. rewrite length_insert. apply (fx_nrobust m (st_ok m Hm)). }
  unfold user_load_head, user_load_u64. wsteps.
  destruct (match user_bytes 8 _ _ with Some _ => _ | None => None end) as [[[next off] pending]|];
    [|by apply wp_exit_empty].
  apply wp_bind. eapply (wp_mono _ (fun _ m' => settled m')).
  { case_match; wsteps; [by apply wp_handle_settled|done]. }
  intros b m2 Hm2. apply wp_bind. eapply wp_mono; [by apply wp_walk_settled|]. intros [wk mk] m3 Hm3.
  apply wp_bind. eapply wp_mono; [by apply wp_cancel_settled|]. intros n m4 Hm4. wsteps. apply wp_tel_add64.
  set (m5 := set_robust _ m4). assert (settled m5) as Hm5.
  { apply settled_robust; [|done]. rewrite length_fmap. apply (fx_nrobust m4 (st_ok m4 Hm4)). }
  apply wp_bind. eapply (wp_mono _ (fun _ m' => m' = m5)); [case_match; [by apply wp_tel_add64|by wsteps]|].
  intros [] ? ->. wsteps. apply wp_soft_once. by wsteps.
Qed.

Lemma wp_set_robust_settled cur head len m :
  settled m -> wp (futex_set_robust_list cur head len) (fun _ m' => settled m') m.
Proof.
  intros Hm. unfold futex_set_robust_list, robust_set_fail. wsteps.
  do 3 (case_match; [wsteps; apply wp_soft_once; by wsteps|]).
  apply wp_bind. eapply (wp_mono _ (fun o m' => settled m' /\ forall i, o = Some i -> (i < GJ_FUTEX_ROBUST_SLOTS)%nat)).
  - pose proof (fx_nrobust m (st_ok m Hm)) as Hl. unfold robust_alloc_tid. wsteps. unfold robust_find_tid.
    destruct (find_from (robust_is _) 0 _) as [i|] eqn:E1.
    { wsteps. split; [done|]. intros ? [= <-]. apply find_from_Some in E1 as (j & r & -> & Er & _).
      apply lookup_lt_Some in Er. simpl. lia. }
    destruct (find_from (fun s => negb (rs_u8Used s)) 0 (g_aRobust m)) as [i|] eqn:E2; wsteps; [|by split]. split.
    + apply settled_robust; [by rewrite length_insert|done].
    + intros ? [= <-]. apply find_from_Some in E2 as (j & r & -> & Er & _). apply lookup_lt_Some in Er. simpl. lia.
  - intros [i|] m1 [Hm1 Hi]; [|wsteps; apply wp_soft_once; by wsteps]. wsteps.
    pose proof (fx_nrobust m1 (st_ok m1 Hm1)) as Hl.
    destruct (lookup_lt_is_Some_2 (g_aRobust m1) i) as [r Er]; [rewrite Hl; by apply Hi|]. rewrite Er. wsteps.
    apply wp_soft_once. wsteps. apply settled_robust; [by rewrite length_insert|done].
Qed.

Lemma wp_get_robust cur tid (m : fx_mem) : wp (futex_get_robust_list cur tid) (fun _ m' => m' = m) m.
Proof.
  unfold futex_get_robust_list. wsteps. case_match; [wsteps; apply wp_soft_once; by wsteps|].
  destruct (robust_find_tid m _) as [i|] eqn:E; [|wsteps; apply wp_soft_once; by wsteps].
  apply find_from_Some in E as (j & r & -> & Er & _). simpl plus. rewrite Er. wsteps. apply wp_soft_once. by wsteps.
Qed.
End Settled.

(** ** Sequences of steps *)

(** Everything that may happen around a futex: stores by any processor, the two
    halves of a wait, wakes, timer ticks, thread death, the robust-list calls,
    and whatever the rest of the kernel does to the thread table. *)
Inductive fx_event : Type :=
| EvStore (a x : Z)
| EvWait (cur : option nat) (pU32 : option Z) (val : Z) (pKey : option gj_futex_key)
    (deadline bitset : Z) (ready : bool) (now : Z) (others1 others2 : list (Z * Z))
| EvResume (slot : nat)
| EvWake (pKey : option gj_futex_key) (count bitset : Z)
| EvTimer (ready : bool) (now : Z)
| EvCancel (t : nat)
| EvExit (view : as_view) (t : nat) (pProc : option Z)
| EvSetRobust (cur : option nat) (head len : Z)
| EvGetRobust (cur : option nat) (tid : Z)
| EvThreadTable (th : thr_mem).

Definition fx_exec (ev : fx_event) : prog fx_mem unit :=
  match ev with
  | EvStore a x => user_stores [(a, x)]
  | EvWait cur pU32 val pKey deadline bitset ready now o1 o2 =>
      wait_enter cur pU32 val pKey deadline bitset ready now o1 o2 ;;; pret tt
  | EvResume i => wait_resume i ;;; pret tt
  | EvWake pKey count bitset => futex_wake_common pKey count bitset ;;; pret tt
  | EvTimer ready now => futex_timer_check ready now
  | EvCancel t => futex_cancel_thr (Some t) ;;; pret tt
  | EvExit view t pProc => futex_exit_robust_list view (Some t) pProc ;;; pret tt
  | EvSetRobust cur head len => futex_set_robust_list cur head len ;;; pret tt
  | EvGetRobust cur tid => futex_get_robust_list cur tid ;;; pret tt
  | EvThreadTable th => pmod (set_fx_thr th)
  end.

(** When the event may happen, for the futex [p], [v], [key]: stores do not
    bring [v] back, waits with this key pass this word, a waiting caller is a
    running thread, only a thread that does not sleep resumes, and no thread
    goes to sleep on a slot except by waiting. *)
Definition fx_event_ok (p v : Z) (key : gj_futex_key) (m : fx_mem) (ev : fx_event) : Prop :=
  match ev with
  | EvStore a x => quiet p v (a, x)
  | EvWait cur pU32 _ pKey _ bitset _ _ o1 o2 =>
      (forall c, cur = Some c -> thr_running m c) /\
      (forall q, pU32 = Some q -> is_Some (word (fx_user m) q)) /\
      (forall k, pKey = Some k -> key_eq (Some k) (Some key) = true -> pU32 = Some p) /\
      0 <= bitset < 2 ^ 32 /\ Forall (quiet p v) o1 /\ Forall (quiet p v) o2
  | EvResume i =>
      (i < GJ_FUTEX_MAX_WAITERS)%nat /\
      forall t th, g_aThreads (fx_thr m) !! t = Some th -> sleeps_on th <> Some i
  | EvWake _ count _ => 0 <= count
  | EvCancel t | EvExit _ t _ => (t < GJ_MAX_THREADS)%nat
  | EvThreadTable th =>
      length (g_aThreads th) = GJ_MAX_THREADS /\
      forall t x i, g_aThreads th !! t = Some x -> sleeps_on x = Some i ->
        exists y, g_aThreads (fx_thr m) !! t = Some y /\ sleeps_on y = Some i
  | _ => True
  end.

Inductive fx_steps (p v : Z) (key : gj_futex_key) : list fx_event -> fx_mem -> fx_mem -> Prop :=
| steps_nil m : fx_steps p v key [] m m
| steps_cons ev evs m t m1 t1 m2 :
    fx_event_ok p v key m ev -> fx_exec ev (KSt m t) = Some (tt, KSt m1 t1) ->
    fx_steps p v key evs m1 m2 -> fx_steps p v key (ev :: evs) m m2.

(** Every event completes and keeps the futex settled. *)
Lemma wp_fx_exec p v key ev m :
  p mod 4 = 0 -> Z.land v GJ_FUTEX_OWNER_DIED = 0 -> settled p v key m -> fx_event_ok p v key m ev ->
  wp (fx_exec ev) (fun _ m' => settled p v key m') m.
Proof.
  intros Hp Hv Hm Hev. assert (forall A (c : prog fx_mem A), wp c (fun _ m' => settled p v key m') m ->
    wp (c ;;; pret tt) (fun _ m' => settled p v key m') m) as Hret.
  { intros A c Hc. apply wp_bind. eapply wp_mono; [exact Hc|]. intros a m' Hm'. by wsteps. }
  destruct ev; cbn [fx_exec fx_event_ok] in *; try apply Hret.
  - apply wp_user_stores. apply settled_user; [by constructor|done].
  - destruct Hev as (? & ? & ? & ? & ? & ?). by apply wp_wait_settled.
  - destruct Hev. by apply wp_resume_settled.
  - by apply wp_wake_settled.
  - eapply wp_mono; [apply wp_timer_check, Hm|]. intros u m' ->. case_match; [|done].
    apply settled_apply; [apply timeout_dead|done].
  - by apply wp_cancel_settled.
  - by apply wp_exit_settled.
  - by apply wp_set_robust_settled.
  - eapply wp_mono; [apply wp_get_robust|]. by intros r m' ->.
  - wsteps. destruct Hev as [Hl Hs]. destruct Hm as [[H1 H2 H3 H4 H5] Hmp Hw Hsl]. split; [|done..]. split; [done..| |done].
    intros t x i Ex Hx. destruct (Hs t x i Ex Hx) as (y & Ey & Hy). by apply (H4 t y i).
Qed.

Lemma fx_steps_settled p v key evs m m' :
  p mod 4 = 0 -> Z.land v GJ_FUTEX_OWNER_DIED = 0 -> fx_steps p v key evs m m' ->
  settled p v key m -> settled p v key m'.
Proof.
  intros Hp Hv H. induction H as [m|ev evs m t m1 t1 m2 Hev E _ IH]; intros Hm; [done|].
  apply IH. eapply (wp_run _ _ _ _ _ _ _ (wp_fx_exec p v key ev m Hp Hv Hm Hev) E).
Qed.

(** A wake that reaches every sleeper of the key settles the futex. *)
Lemma wake_all_settles p v key count m :
  fx_ok m -> is_Some (word (fx_user m) p) -> word (fx_user m) p <> Some v ->
  Z.of_nat (countb (wake_q key GJ_FUTEX_BITSET_MATCH_ANY) (g_aWaiters m)) <= count ->
  settled p v key (apply_slots (chosen (wake_q key GJ_FUTEX_BITSET_MATCH_ANY) count (g_aWaiters m)) wakeup m).
Proof.
  intros Hm Hmp Hw Hc. set (q := wake_q key GJ_FUTEX_BITSET_MATCH_ANY) in *. split; [|done|done|].
  - apply apply_slots_ok; [done|apply wakeup_dead].
  - intros i w E Hl Hk. exfalso. cbn in E. rewrite list_lookup_imap in E.
    destruct (g_aWaiters m !! i) as [w0|] eqn:Ew; [|done]. simpl in E. injection E as <-.
    destruct (chosen q count (g_aWaiters m) i) eqn:Hch; [by rewrite wakeup_dead in Hl|].
    unfold chosen in Hch. rewrite Ew in Hch.
    assert (q w0 = true) as Hq.
    { unfold q, wake_q. rewrite Hl, Hk. simpl. destruct (fx_bitset m Hm i w0 Ew Hl) as [Hb1 Hb2].
      change GJ_FUTEX_BITSET_MATCH_ANY with (Z.ones 32). rewrite Z.land_ones, Z.mod_small by lia.
      by rewrite (proj2 (Z.eqb_neq _ _)) by lia. }
    rewrite Hq in Hch. simpl in Hch. apply Z.ltb_ge in Hch.
    pose proof (countb_take_S q (g_aWaiters m) i w0 Ew) as HS. rewrite Hq in HS. simpl in HS.
    pose proof (countb_take_mono q (g_aWaiters m) (S i) (length (g_aWaiters m))
      ltac:(apply lookup_lt_Some in Ew; lia)) as Hmono.
    rewrite firstn_all in Hmono. lia.
Qed.
