(* ===== verification/FutexClaims.v ===== *)
(** The properties of the futexes, with witnesses. *)
From stdpp Require Import base gmap list strings.
From Stdlib Require Import ZArith Lia.
From S2P Require Import Prelude CapTypes LinuxAbi Thread ThreadProofs KString KStringProofs Futex FutexProofs FutexSys.


(** A wake is exact.  [futex_wake_common] wakes the first [count] waiting
    slots, in slot order, whose key matches and whose bit set meets the given
    one: those slots are no longer waiting, the threads that sleep on them become
    runnable with their wait key cleared, nothing else changes, and their number
    is returned. *)
Theorem futex_wake_exact key count bs m :
  fx_ok m -> key_usable key = true -> bs <> 0 -> 0 < count ->
  wp (futex_wake_common (Some key) count bs) (fun n m' =>
    let q := wake_q key bs in
    n = Z.min count (Z.of_nat (countb q (g_aWaiters m))) /\
    (forall i w, g_aWaiters m !! i = Some w -> g_aWaiters m' !! i =
       Some (if q w && (Z.of_nat (countb q (take i (g_aWaiters m))) <? count) then wakeup w else w)) /\
    (forall t th, g_aThreads (fx_thr m) !! t = Some th -> g_aThreads (fx_thr m') !! t =
       Some (match sleeps_on th with
             | Some i => if chosen q count (g_aWaiters m) i then woken th else th
             | None => th
             end)) /\
    fx_user m' = fx_user m /\ g_aRobust m' = g_aRobust m /\ fx_ok m') m.
Proof.
  intros Hm Hk Hb Hc. eapply wp_mono; [by apply wp_futex_wake|]. intros n m' [-> ->]. cbv zeta.
  split_and!; [done|..|done|done|apply apply_slots_ok; [done|apply wakeup_dead]].
  - intros i w Ew. cbn. rewrite list_lookup_imap, Ew. simpl. f_equal. unfold chosen. by rewrite Ew.
  - intros t th Et. cbn. unfold wake_slots. by rewrite list_lookup_fmap, Et.
Qed.

(** C36: every outcome of a wait up to the point where it sleeps.  A missing
    word or key, a misaligned address, an empty bit set, a shared key without a
    frame and a call without a thread give [EINVAL]; a word that differs at any
    of the three reads gives [EAGAIN]; a full table [ENOMEM]; a deadline that
    has passed [ETIMEDOUT]; otherwise the caller parks on the first free slot.
    After an error every used slot, every thread and the robust lists are as
    before; after parking exactly the slot and the caller have changed. *)
Theorem futex_wait_outcome cur pU32 val pKey deadline bitset ready now o1 o2 m :
  fx_ok m -> (forall c, cur = Some c -> thr_running m c) ->
  (forall p, pU32 = Some p -> is_Some (word (fx_user m) p)) -> 0 <= bitset < 2 ^ 32 ->
  let r := wait_spec cur pU32 val pKey deadline bitset ready now o1 o2 m in
  wp (wait_enter cur pU32 val pKey deadline bitset ready now o1 o2) (fun o m' =>
    o = fst r /\ wait_post cur val pKey deadline bitset m o (snd r) m' /\ fx_ok m') m.
Proof.
  intros Hm Hcur Hp Hb. cbv zeta. eapply wp_mono; [by apply wp_wait_enter|]. intros o m' [-> Hpost].
  split_and!; [done|done|]. by eapply wait_post_ok.
Qed.

(** ** Witnesses *)

(** Threads 1 and 2 run, everything else is unused; the word at 4096 is 1. *)
Definition fx_threads : list gj_thread :=
  MkThread 1 GJ_THR_RUNNABLE 0 0 :: MkThread 2 GJ_THR_RUNNING 0 0 :: MkThread 3 GJ_THR_RUNNING 0 0 ::
  replicate 29 (MkThread 0 GJ_THR_UNUSED 0 0).

Definition demo_fx0 : fx_mem :=
  MkFx (replicate GJ_FUTEX_MAX_WAITERS zero_fwaiter) (replicate GJ_FUTEX_ROBUST_SLOTS zero_robust)
    (put_bytes 4 4096 1 ∅)
    (MkThrMem fx_threads (replicate 32 0) (replicate 32 0) (replicate 32 0) (replicate 32 0) (replicate 16 0)
       (replicate 16 None) None 1 4).

Definition demo_key : gj_futex_key := MkKey 0 4096 1048576 true.

Definition run_fx {A} (c : prog fx_mem A) (m : fx_mem) : fx_mem :=
  match c (KSt m ∅) with Some (_, s) => k_mem s | None => m end.

(** Thread 1 waits for the word to leave the value 1. *)
Definition demo_wait (c : nat) : prog fx_mem wait_out :=
  wait_enter (Some c) (Some 4096) 1 (Some demo_key) 0 GJ_FUTEX_BITSET_MATCH_ANY false 0 [] [].

Definition demo_fx1 : fx_mem := run_fx (demo_wait 1) demo_fx0.

(** Then the word changes. *)
Definition demo_fx2 : fx_mem := set_user (put_bytes 4 4096 2 (fx_user demo_fx1)) demo_fx1.

Lemma demo_fx0_ok : fx_ok demo_fx0.
Proof.
  assert (Forall (fun x => sleeps_on x = None) (g_aThreads (fx_thr demo_fx0))) as Hn by (apply (bool_decide_unpack _); vm_compute; exact I).
  split; [reflexivity..| |].
  - intros t x i E Hs. rewrite Forall_forall in Hn. rewrite (Hn x) in Hs; [done|by eapply list_elem_of_lookup_2].
  - intros i w E Hl. apply lookup_replicate in E as [-> _]. done.
Qed.

Lemma demo_running c : c = 1%nat \/ c = 2%nat -> thr_running demo_fx0 c.
Proof. intros [-> | ->]; eexists; reflexivity. Qed.

Lemma demo_mapped m q : word (fx_user m) 4096 <> None -> Some 4096 = Some q -> is_Some (word (fx_user m) q).
Proof. intros H [= <-]. by destruct (word (fx_user m) 4096); [eexists|]. Qed.

Lemma demo_fx1_ok : fx_ok demo_fx1.
Proof.
  destruct (wp_wait_enter (Some 1%nat) (Some 4096) 1 (Some demo_key) 0 GJ_FUTEX_BITSET_MATCH_ANY false 0 [] [] demo_fx0
    demo_fx0_ok ltac:(intros c [= <-]; apply demo_running; auto) ltac:(intros q; by apply demo_mapped) ∅)
    as (o & m' & t' & E & -> & Hpost).
  unfold demo_fx1, run_fx, demo_wait. rewrite E. cbn [k_mem].
  eapply wait_post_ok; [exact demo_fx0_ok| |exact Hpost]. unfold GJ_FUTEX_BITSET_MATCH_ANY. lia.
Qed.

Lemma set_user_ok u m : fx_ok m -> fx_ok (set_user u m).
Proof. intros []. by split. Qed.

Lemma demo_fx2_ok : fx_ok demo_fx2.
Proof. apply set_user_ok, demo_fx1_ok. Qed.

Lemma demo_word2 : word (fx_user demo_fx2) 4096 = Some 2.
Proof. vm_compute. reflexivity. Qed.


Lemma futex_wake_exact_witness :
  wp (futex_wake_common (Some demo_key) 5 3) (fun n m' =>
    let q := wake_q demo_key 3 in
    n = Z.min 5 (Z.of_nat (countb q (g_aWaiters demo_fx1))) /\
    (forall i w, g_aWaiters demo_fx1 !! i = Some w -> g_aWaiters m' !! i =
       Some (if q w && (Z.of_nat (countb q (take i (g_aWaiters demo_fx1))) <? 5) then wakeup w else w)) /\
    (forall t th, g_aThreads (fx_thr demo_fx1) !! t = Some th -> g_aThreads (fx_thr m') !! t =
       Some (match sleeps_on th with
             | Some i => if chosen q 5 (g_aWaiters demo_fx1) i then woken th else th
             | None => th
             end)) /\
    fx_user m' = fx_user demo_fx1 /\ g_aRobust m' = g_aRobust demo_fx1 /\ fx_ok m') demo_fx1.
Proof. apply (futex_wake_exact demo_key 5 3 demo_fx1); [exact demo_fx1_ok|reflexivity|lia|lia]. Defined.

Lemma futex_wait_outcome_witness :
  wp (demo_wait 2) (fun o m' => o = WaitPark 0 /\
     wait_post (Some 2%nat) 1 (Some demo_key) 0 GJ_FUTEX_BITSET_MATCH_ANY demo_fx0 o (fx_user demo_fx0) m' /\ fx_ok m') demo_fx0.
Proof.
  apply (futex_wait_outcome (Some 2%nat) (Some 4096) 1 (Some demo_key) 0 GJ_FUTEX_BITSET_MATCH_ANY false 0 [] [] demo_fx0).
  - exact demo_fx0_ok.
  - intros c [= <-]. apply demo_running. auto.
  - intros q. by apply demo_mapped.
  - unfold GJ_FUTEX_BITSET_MATCH_ANY. lia.
Defined.

(** Thread 1 sleeps after its wait, and the wake makes it runnable again. *)
Example wait_then_wake :
  (u32State <$> g_aThreads (fx_thr demo_fx1) !! 1%nat) = Some GJ_THR_BLOCKED /\
  (u32State <$> g_aThreads (fx_thr (run_fx (futex_wake (Some demo_key) 1) demo_fx2)) !! 1%nat) = Some GJ_THR_RUNNABLE.
Proof. split; vm_compute; reflexivity. Qed.

(** A waiter that is killed while asleep, as [thread_exit_process] does it, keeps
    its slot: threads 1 and 2 wait, thread 1 is killed, and a wake of one waiter
    reports success although thread 2, alive, still sleeps. *)
Definition demo_two : fx_mem := run_fx (demo_wait 2) demo_fx1.
Definition demo_killed : fx_mem :=
  set_fx_thr (set_threads (<[1%nat := MkThread 2 GJ_THR_EXITED 0 0]> (g_aThreads (fx_thr demo_two))) (fx_thr demo_two)) demo_two.

Example killed_waiter_takes_wake :
  fst <$> futex_wake (Some demo_key) 1 (KSt demo_killed ∅) = Some 1 /\
  (u32State <$> g_aThreads (fx_thr (run_fx (futex_wake (Some demo_key) 1) demo_killed)) !! 2%nat) = Some GJ_THR_BLOCKED.
Proof. split; vm_compute; reflexivity. Qed.
