(* ===== verification/Pmm.v ===== *)
(** The physical page allocator, [kernel/mm/pmm.c].

    Free blocks of [2^o] pages, [o <= 9], are kept on two singly linked lists
    per order, one below 4 GiB and one above; the link of a free block is the
    first 64-bit word of its first page.  [pm_phys] holds the 64-bit words of
    physical memory that the allocator reads or writes, by physical address:
    the code reaches them through [pa_to_ptr], whose two mappings (identity and
    higher half) are views of the same word.  [pm_hhdm] is [g_fHhdmReady] of
    [kernel/mm/vmm.c].  Entry 0 of the order arrays, which the code leaves
    unused, holds the order-0 heads [g_paFreeLow] and [g_paFreeHigh].  Statistics
    are named counters; log lines are left out. *)
From stdpp Require Import base gmap list strings.
From Stdlib Require Import ZArith Lia.
From S2P Require Import Prelude.

Definition GJ_PAGE_SIZE : Z := 4096.
Definition PMM_HIGH_PENDING_MAX : nat := 64.
Definition PMM_LOW_MAX : Z := 4294967296.
Definition PMM_VTD_ID_LIMIT : Z := 1073741824.
Definition PMM_SOFT_ID_HOLD : nat := 8.
Definition PMM_SOFT_PAT_A : Z := 11936128518282651045.
Definition PMM_SOFT_PAT_B : Z := 6510615555426900570.
Definition PMM_MAX_ORDER : nat := 9.
Definition PMM_TIB_BYTES : Z := 1099511627776.

Record pmm_pending : Type := MkPending { pp_paBase : Z; pp_cbLen : Z }.
Record gj_mem_region : Type := MkRegion { mr_paBase : Z; mr_cbLength : Z }.

Record pmm_mem : Type := MkPmm {
  g_aOrderLow : list Z;
  g_aOrderHigh : list Z;
  g_aOrderCount : list Z;
  g_cFramesFree : Z;
  g_cFramesFreeLow : Z;
  g_cFramesFreeHigh : Z;
  g_cFramesTotal : Z;
  g_paMaxSeen : Z;
  g_paKernel : Z * Z;
  g_paSoftMedia : Z * Z;
  g_aHigh : list pmm_pending;
  g_fHighReleased : bool;
  pm_hhdm : bool;
  pm_phys : gmap Z Z }.

Definition set_orders (fLow : bool) (l : list Z) (m : pmm_mem) : pmm_mem :=
  MkPmm (if fLow then l else g_aOrderLow m) (if fLow then g_aOrderHigh m else l) (g_aOrderCount m)
    (g_cFramesFree m) (g_cFramesFreeLow m) (g_cFramesFreeHigh m) (g_cFramesTotal m) (g_paMaxSeen m)
    (g_paKernel m) (g_paSoftMedia m) (g_aHigh m) (g_fHighReleased m) (pm_hhdm m) (pm_phys m).
Definition set_counts (cnt : list Z) (free low high : Z) (m : pmm_mem) : pmm_mem :=
  MkPmm (g_aOrderLow m) (g_aOrderHigh m) cnt free low high (g_cFramesTotal m) (g_paMaxSeen m)
    (g_paKernel m) (g_paSoftMedia m) (g_aHigh m) (g_fHighReleased m) (pm_hhdm m) (pm_phys m).
Definition set_phys (p : gmap Z Z) (m : pmm_mem) : pmm_mem :=
  MkPmm (g_aOrderLow m) (g_aOrderHigh m) (g_aOrderCount m)
    (g_cFramesFree m) (g_cFramesFreeLow m) (g_cFramesFreeHigh m) (g_cFramesTotal m) (g_paMaxSeen m)
    (g_paKernel m) (g_paSoftMedia m) (g_aHigh m) (g_fHighReleased m) (pm_hhdm m) p.
(** The fields that only initialisation and the release of high memory write. *)
Definition set_totals (total maxseen : Z) (ker media : Z * Z) (high : list pmm_pending) (rel : bool)
  (m : pmm_mem) : pmm_mem :=
  MkPmm (g_aOrderLow m) (g_aOrderHigh m) (g_aOrderCount m)
    (g_cFramesFree m) (g_cFramesFreeLow m) (g_cFramesFreeHigh m) total maxseen
    ker media high rel (pm_hhdm m) (pm_phys m).
(** [vmm_hhdm_init] succeeds. *)
Definition set_hhdm (b : bool) (m : pmm_mem) : pmm_mem :=
  MkPmm (g_aOrderLow m) (g_aOrderHigh m) (g_aOrderCount m)
    (g_cFramesFree m) (g_cFramesFreeLow m) (g_cFramesFreeHigh m) (g_cFramesTotal m) (g_paMaxSeen m)
    (g_paKernel m) (g_paSoftMedia m) (g_aHigh m) (g_fHighReleased m) b (pm_phys m).

Definition orders (fLow : bool) (m : pmm_mem) : list Z := if fLow then g_aOrderLow m else g_aOrderHigh m.

Definition u64_add (a b : Z) : Z := u64_wrap (a + b).

(** ** Addresses *)

(** [x & ~(GJ_PAGE_SIZE - 1)]. *)
Definition page_down (x : Z) : Z := Z.ldiff x (GJ_PAGE_SIZE - 1).
Definition page_up (x : Z) : Z := page_down (u64_add x (GJ_PAGE_SIZE - 1)).
Definition page_aligned (x : Z) : bool := Z.land x (GJ_PAGE_SIZE - 1) =? 0.

(** The word that [pa_to_ptr] points to; NULL is [None]. *)
Definition pa_to_ptr (m : pmm_mem) (pa : Z) : option Z :=
  if (PMM_LOW_MAX <=? pa) && negb (pm_hhdm m) then None else Some pa.

Definition order_bytes (o : nat) : Z := u64_wrap (Z.shiftl GJ_PAGE_SIZE (Z.of_nat o)).
Definition order_pages (o : nat) : Z := Z.shiftl 1 (Z.of_nat o).

Definition order_aligned (pa : Z) (o : nat) : bool :=
  if (o =? 0)%nat then page_aligned pa else Z.land pa (order_bytes o - 1) =? 0.

Definition range_overlaps (a0 a1 b0 b1 : Z) : bool := (a0 <? b1) && (b0 <? a1).

Definition range_ok_free (m : pmm_mem) (pa cb : Z) : bool :=
  if (cb =? 0) || (pa <? 1048576) then false else
  if range_overlaps pa (u64_add pa cb) (fst (g_paKernel m)) (snd (g_paKernel m)) then false else
  if (fst (g_paSoftMedia m) <? snd (g_paSoftMedia m)) &&
     range_overlaps pa (u64_add pa cb) (fst (g_paSoftMedia m)) (snd (g_paSoftMedia m)) then false else true.

Definition pmm_soft_reserve (paBase cbLen : Z) : prog pmm_mem unit :=
  pmod (fun m =>
    set_totals (g_cFramesTotal m) (g_paMaxSeen m) (g_paKernel m)
      (if (paBase =? 0) || (cbLen =? 0) then (0, 0)
       else (page_down paBase, page_down (u64_wrap (paBase + cbLen + GJ_PAGE_SIZE - 1))))
      (g_aHigh m) (g_fHighReleased m) m).

(** ** Loads and stores through [pa_to_ptr] *)
Definition ld_word (p : Z) : prog pmm_mem Z :=
  m <- pget ;; match pm_phys m !! p with Some v => pret v | None => pfault end.
Definition st_word (p v : Z) : prog pmm_mem unit :=
  m <- pget ;;
  match pm_phys m !! p with Some _ => pput (set_phys (<[p := v]> (pm_phys m)) m) | None => pfault end.

Definition ld_head (o : nat) (fLow : bool) : prog pmm_mem Z :=
  m <- pget ;; match orders fLow m !! o with Some h => pret h | None => pfault end.
Definition st_head (o : nat) (fLow : bool) (h : Z) : prog pmm_mem unit :=
  pmod (fun m => set_orders fLow (<[o := h]> (orders fLow m)) m).

(** The free-frame and per-order node counters after a block of [n] frames of
    order [o] in the zone of [pa] is inserted or removed. *)
Definition count_push (pa n : Z) (o : nat) (m : pmm_mem) : pmm_mem :=
  set_counts (alter (fun c => u64_add c 1) o (g_aOrderCount m))
    (u64_add (g_cFramesFree m) n)
    (if pa <? PMM_LOW_MAX then u64_add (g_cFramesFreeLow m) n else g_cFramesFreeLow m)
    (if pa <? PMM_LOW_MAX then g_cFramesFreeHigh m else u64_add (g_cFramesFreeHigh m) n) m.
Definition sub_floor (c n : Z) : Z := if n <=? c then c - n else 0.
Definition count_pop (pa n : Z) (o : nat) (m : pmm_mem) : pmm_mem :=
  set_counts (alter (fun c => if 0 <? c then c - 1 else c) o (g_aOrderCount m))
    (sub_floor (g_cFramesFree m) n)
    (if pa <? PMM_LOW_MAX then sub_floor (g_cFramesFreeLow m) n else g_cFramesFreeLow m)
    (if pa <? PMM_LOW_MAX then g_cFramesFreeHigh m else sub_floor (g_cFramesFreeHigh m) n) m.

(** ** Insertion *)

(** [push] on the [n] pages from page [i] after [pa]. *)
Fixpoint push_run (push : Z -> prog pmm_mem unit) (pa : Z) (n : nat) (i : Z) : prog pmm_mem unit :=
  match n with
  | O => pret tt
  | S n' => push (u64_add pa (i * GJ_PAGE_SIZE)) ;;; push_run push pa n' (i + 1)
  end.

(** The body of [push_order]; [single] is the recursive call at order 0. *)
Definition push_order_body (single : Z -> prog pmm_mem unit) (paPage : Z) (o : nat) : prog pmm_mem unit :=
  if (paPage =? 0) || negb (page_aligned paPage) then pret tt else
  if (PMM_MAX_ORDER <? o)%nat then pret tt else
  let cPages := order_pages o in
  let cbSpan := cPages * GJ_PAGE_SIZE in
  if (0 <? o)%nat && negb (order_aligned paPage o) then push_run single paPage (Z.to_nat cPages) 0 else
  m <- pget ;;
  if negb (range_ok_free m paPage cbSpan) then pret tt else
  match pa_to_ptr m paPage with
  | None => pret tt
  | Some p =>
      let fLow := paPage <? PMM_LOW_MAX in
      h <- ld_head o fLow ;;
      st_word p h ;;;
      st_head o fLow paPage ;;;
      pmod (count_push paPage cPages o) ;;;
      (if (0 <? o)%nat then tick64 "g_cHighOrderPush" else pret tt)
  end.

(** An order-0 block is always aligned, so the recursion is one level deep. *)
Definition push_free (paPage : Z) : prog pmm_mem unit := push_order_body (fun _ => pret tt) paPage 0.
Definition push_order (paPage : Z) (o : nat) : prog pmm_mem unit := push_order_body push_free paPage o.

(** ** Removal *)
Definition pop_order_from (o : nat) (fLow : bool) : prog pmm_mem Z :=
  if (PMM_MAX_ORDER <? o)%nat then pret 0 else
  pa <- ld_head o fLow ;;
  if pa =? 0 then pret 0 else
  if (pa =? 0) || negb (order_aligned pa o) then pret 0 else
  if (if fLow then PMM_LOW_MAX <=? pa else pa <? PMM_LOW_MAX) then pret 0 else
  m <- pget ;;
  match pa_to_ptr m pa with
  | None => pret 0
  | Some p =>
      next <- ld_word p ;;
      st_head o fLow next ;;;
      st_word p 0 ;;;
      pmod (count_pop pa (order_pages o) o) ;;;
      pret pa
  end.

(** The split: the upper halves of orders [want + k - 1] down to [want]. *)
Fixpoint split_down (pa : Z) (want k : nat) : prog pmm_mem unit :=
  match k with
  | O => pret tt
  | S k' =>
      let o := (want + k')%nat in
      push_order (u64_add pa (order_pages o * GJ_PAGE_SIZE)) o ;;; split_down pa want k'
  end.

(** The search of [pop_split_zone] from order [o] on, [n] orders left. *)
Fixpoint split_scan (want : nat) (fLow : bool) (n o : nat) : prog pmm_mem Z :=
  match n with
  | O => pret 0
  | S n' =>
      pa <- pop_order_from o fLow ;;
      if pa =? 0 then split_scan want fLow n' (S o)
      else tick64 "g_cSplit" ;;; split_down pa want (o - want) ;;; pret pa
  end.

Definition pop_split_zone (want : nat) (fLow : bool) : prog pmm_mem Z :=
  pa <- pop_order_from want fLow ;;
  if negb (pa =? 0) then pret pa else split_scan want fLow (PMM_MAX_ORDER - want) (S want).

Definition pop_order_split (o : nat) : prog pmm_mem Z :=
  if (PMM_MAX_ORDER <? o)%nat then pret 0 else
  pa <- pop_split_zone o true ;;
  if negb (pa =? 0) then tick64 "g_cAllocLow" ;;; pret pa else
  pa <- pop_split_zone o false ;;
  (if negb (pa =? 0) then tick64 "g_cAllocHigh" else pret tt) ;;;
  pret pa.

Definition pop_free : prog pmm_mem Z := pop_order_split 0.

Definition high_order_nodes (m : pmm_mem) : Z := foldl u64_add 0 (drop 1 (g_aOrderCount m)).

(** ** Ranges of memory *)

(** Smallest order with at least [cPages] pages, at most [PMM_MAX_ORDER]; [n] is
    [1 << o] and [k] the orders left. *)
Fixpoint pages_loop (cPages n : Z) (k o : nat) : nat :=
  match k with
  | O => o
  | S k' => if n <? cPages then pages_loop cPages (n * 2) k' (S o) else o
  end.
Definition pages_to_order (cPages : Z) : nat :=
  if cPages =? 0 then 0%nat else pages_loop cPages 1 PMM_MAX_ORDER 0.

(** The largest order that fits at [pa] below [paEnd], from order [o] down. *)
Fixpoint fit_order (m : pmm_mem) (pa paEnd : Z) (o : nat) : nat :=
  let sz := order_bytes o in
  if (Z.land pa (sz - 1) =? 0) && (u64_add pa sz <=? paEnd) && range_ok_free m pa sz then o
  else match o with O => O | S o' => fit_order m pa paEnd o' end.

Definition add_total (n : Z) (m : pmm_mem) : pmm_mem :=
  set_totals (u64_add (g_cFramesTotal m) n) (g_paMaxSeen m) (g_paKernel m) (g_paSoftMedia m)
    (g_aHigh m) (g_fHighReleased m) m.

(** The loop of [free_range].  Each turn advances by at least one page, so a
    range of [fuel] pages is done in [fuel] turns. *)
Fixpoint free_range_loop (fuel : nat) (pa paEnd : Z) (fCountTotal : bool) : prog pmm_mem unit :=
  match fuel with
  | O => pret tt
  | S f =>
      if negb (u64_add pa GJ_PAGE_SIZE <=? paEnd) then pret tt else
      m <- pget ;;
      if negb (range_ok_free m pa GJ_PAGE_SIZE) then free_range_loop f (u64_add pa GJ_PAGE_SIZE) paEnd fCountTotal else
      let o := fit_order m pa paEnd PMM_MAX_ORDER in
      (if fCountTotal then pmod (add_total (order_pages o)) else pret tt) ;;;
      push_order pa o ;;;
      free_range_loop f (u64_add pa (order_bytes o)) paEnd fCountTotal
  end.

Definition free_range (paBase cbLen : Z) (fCountTotal : bool) : prog pmm_mem unit :=
  let pa := page_up paBase in
  let paEnd := page_down (u64_add paBase cbLen) in
  free_range_loop (Z.to_nat ((paEnd - pa) / GJ_PAGE_SIZE)) pa paEnd fCountTotal.

(** One region of the memory map: what is below 4 GiB is freed, the rest waits
    for the higher-half map. *)
Definition init_region (r : gj_mem_region) : prog pmm_mem unit :=
  let paEnd := u64_add (mr_paBase r) (mr_cbLength r) in
  pmod (fun m => set_totals (g_cFramesTotal m) (if g_paMaxSeen m <? paEnd then paEnd else g_paMaxSeen m)
                   (g_paKernel m) (g_paSoftMedia m) (g_aHigh m) (g_fHighReleased m) m) ;;;
  if paEnd <=? PMM_LOW_MAX then free_range (mr_paBase r) (mr_cbLength r) true else
  (if mr_paBase r <? PMM_LOW_MAX then free_range (mr_paBase r) (PMM_LOW_MAX - mr_paBase r) true
   else pret tt) ;;;
  let paBase := if mr_paBase r <? PMM_LOW_MAX then PMM_LOW_MAX else mr_paBase r in
  let cbLen := if mr_paBase r <? PMM_LOW_MAX then paEnd - PMM_LOW_MAX else mr_cbLength r in
  m <- pget ;;
  if (0 <? cbLen) && (length (g_aHigh m) <? PMM_HIGH_PENDING_MAX)%nat then
    let pa := page_up paBase in
    let pe := page_down (u64_add paBase cbLen) in
    pput (set_totals (if pa <? pe then u64_add (g_cFramesTotal m) ((pe - pa) / GJ_PAGE_SIZE) else g_cFramesTotal m)
            (g_paMaxSeen m) (g_paKernel m) (g_paSoftMedia m)
            (g_aHigh m ++ [MkPending paBase cbLen]) (g_fHighReleased m) m)
  else pret tt.

Fixpoint init_regions (l : list gj_mem_region) : prog pmm_mem unit :=
  match l with
  | [] => pret tt
  | r :: l' => init_region r ;;; init_regions l'
  end.

(** The free lists and counters as [pmm_init] clears them. *)
Definition pmm_reset (paKernelStart paKernelEnd : Z) (m : pmm_mem) : pmm_mem :=
  MkPmm (replicate (S PMM_MAX_ORDER) 0) (replicate (S PMM_MAX_ORDER) 0) (replicate (S PMM_MAX_ORDER) 0)
    0 0 0 0 0 (page_down paKernelStart, page_up paKernelEnd) (g_paSoftMedia m) [] false (pm_hhdm m) (pm_phys m).

(** The statistics that [pmm_init] clears. *)
Definition pmm_counter (c : string) : bool :=
  bool_decide (c ∈ ["g_cSplit"; "g_cHighOrderPush"; "g_cAllocLow"; "g_cAllocHigh"; "g_cApiAllocLowOk";
    "g_cApiAllocLowFail"; "g_cApiAllocPagesLowOk"; "g_cApiAllocPagesLowFail"; "g_cForce32SoftOk";
    "g_cForce32SoftFail"; "g_cForce32SoftEx"; "g_cForce32SoftIdOk"; "g_cForce32SoftIdMiss";
    "g_cForce32SoftIdHold"; "g_cSoftInvLogs"]).

(** ** Allocation *)
Definition pmm_alloc : prog pmm_mem Z := pop_free.

Definition pmm_alloc_high : prog pmm_mem Z :=
  pa <- ld_head 0 false ;;
  if pa =? 0 then pop_free else
  if negb (order_aligned pa 0) then pop_free else
  m <- pget ;;
  match pa_to_ptr m pa with
  | None => pop_free
  | Some p =>
      next <- ld_word p ;;
      st_head 0 false next ;;;
      st_word p 0 ;;;
      pmod (fun m =>
        set_counts (alter (fun c => if 0 <? c then c - 1 else c) 0%nat (g_aOrderCount m))
          (if 0 <? g_cFramesFree m then g_cFramesFree m - 1 else g_cFramesFree m)
          (g_cFramesFreeLow m)
          (if 0 <? g_cFramesFreeHigh m then g_cFramesFreeHigh m - 1 else g_cFramesFreeHigh m) m) ;;;
      pret pa
  end.

(** Insertion of [pa] at the end of the sorted array [aHold], exchanging it with
    its left neighbour while it is smaller.  [rl] is the array from its end. *)
Fixpoint bubble (pa : Z) (rl : list Z) : list Z :=
  match rl with
  | [] => [pa]
  | y :: rl' => if pa <? y then y :: bubble pa rl' else pa :: rl
  end.
Definition hold_insert (pa : Z) (aHold : list Z) : list Z := rev (bubble pa (rev aHold)).

(** The base of a run of [cPages] neighbouring pages in [aHold], or 0: position
    [j], length [cRun] of the run that ends at [j - 1], [n] positions left. *)
Fixpoint find_run (aHold : list Z) (cPages : Z) (n j : nat) (cRun : Z) : Z :=
  match n with
  | O => 0
  | S n' =>
      if nth j aHold 0 =? u64_add (nth (j - 1) aHold 0) GJ_PAGE_SIZE then
        if cPages <=? cRun + 1 then nth (j + 1 - Z.to_nat cPages) aHold 0
        else find_run aHold cPages n' (S j) (cRun + 1)
      else find_run aHold cPages n' (S j) 1
  end.

(** The loop that takes single pages until [cPages] of them are neighbours, at
    most 256; [k] is the room left in [aHold].  [pop] takes a page and [avail]
    is the counter the loop looks at. *)
Fixpoint hold_loop (pop : prog pmm_mem Z) (avail : pmm_mem -> Z) (cPages : Z) (k : nat) (aHold : list Z) :
  prog pmm_mem (Z * list Z) :=
  match k with
  | O => pret (0, aHold)
  | S k' =>
      m <- pget ;;
      if negb (0 <? avail m) then pret (0, aHold) else
      pa <- pop ;;
      if pa =? 0 then pret (0, aHold) else
      let aHold := hold_insert pa aHold in
      if Z.of_nat (length aHold) <? cPages then hold_loop pop avail cPages k' aHold else
      let paBase := find_run aHold cPages (length aHold - 1) 1 1 in
      if negb (paBase =? 0) then pret (paBase, aHold) else hold_loop pop avail cPages k' aHold
  end.

Fixpoint push_list (l : list Z) : prog pmm_mem unit :=
  match l with
  | [] => pret tt
  | pa :: l' => push_free pa ;;; push_list l'
  end.

(** The held pages outside the run. *)
Definition outside_run (paBase cPages pa : Z) : bool :=
  (pa <? paBase) || (u64_add paBase (cPages * GJ_PAGE_SIZE) <=? pa).

Definition pmm_alloc_pages (cPages : Z) : prog pmm_mem Z :=
  if cPages =? 0 then pret 0 else
  if cPages =? 1 then pop_free else
  if order_pages PMM_MAX_ORDER <? cPages then pret 0 else
  let oWant := pages_to_order cPages in
  paBase <- (if order_pages oWant =? cPages then pop_order_split oWant else pret 0) ;;
  if negb (paBase =? 0) then pret paBase else
  r <- hold_loop pop_free g_cFramesFree cPages 256 [] ;;
  let '(paBase, aHold) := r in
  if paBase =? 0 then push_list aHold ;;; pret 0 else
  push_list (List.filter (outside_run paBase cPages) aHold) ;;; pret paBase.

Definition pop_order_low_only (o : nat) : prog pmm_mem Z :=
  if (PMM_MAX_ORDER <? o)%nat then pret 0 else
  pa <- pop_split_zone o true ;;
  if pa =? 0 then pret 0 else
  if (PMM_LOW_MAX <=? pa) || (PMM_LOW_MAX <? u64_add pa (order_pages o * GJ_PAGE_SIZE)) then
    push_order pa o ;;; pret 0
  else tick64 "g_cAllocLow" ;;; pret pa.

(** A [u64] counter bumped unless it is [0xffffffffffffffff]. *)
Definition tick_sat64 (c : string) : prog pmm_mem unit :=
  t <- ptel ;;
  (if tel_val t c <? 18446744073709551615 then ptel_put (<[c := tel_val t c + 1]> t) else pret tt).

Definition pmm_alloc_low : prog pmm_mem Z :=
  pa <- pop_order_low_only 0 ;;
  if negb (pa =? 0) then
    if (PMM_LOW_MAX <=? pa) || negb (page_aligned pa) then
      push_free pa ;;; tick_sat64 "g_cApiAllocLowFail" ;;; pret 0
    else tick_sat64 "g_cApiAllocLowOk" ;;; pret pa
  else tick_sat64 "g_cApiAllocLowFail" ;;; pret 0.

Definition pages_low_fail : prog pmm_mem Z := tick_sat64 "g_cApiAllocPagesLowFail" ;;; pret 0.
Definition pages_low_ok (pa : Z) : prog pmm_mem Z := tick_sat64 "g_cApiAllocPagesLowOk" ;;; pret pa.
Definition crosses_low (pa cPages : Z) : bool :=
  (PMM_LOW_MAX <=? pa) || (PMM_LOW_MAX <? u64_add pa (cPages * GJ_PAGE_SIZE)).

Definition pmm_alloc_pages_low (cPages : Z) : prog pmm_mem Z :=
  if cPages =? 0 then pages_low_fail else
  if cPages =? 1 then
    paBase <- pmm_alloc_low ;;
    if negb (paBase =? 0) then pages_low_ok paBase else pages_low_fail
  else
  if order_pages PMM_MAX_ORDER <? cPages then pages_low_fail else
  let oWant := pages_to_order cPages in
  if order_pages oWant =? cPages then
    paBase <- pop_order_low_only oWant ;;
    if negb (paBase =? 0) then
      if crosses_low paBase cPages then push_order paBase oWant ;;; pages_low_fail
      else pages_low_ok paBase
    else pages_low_fail
  else
  r <- hold_loop (pop_order_low_only 0) g_cFramesFreeLow cPages 256 [] ;;
  let '(paBase, aHold) := r in
  if paBase =? 0 then push_list aHold ;;; pages_low_fail else
  if crosses_low paBase cPages then push_list aHold ;;; pages_low_fail else
  push_list (List.filter (outside_run paBase cPages) aHold) ;;; pages_low_ok paBase.

(** ** Release *)
Definition pmm_free (paPage : Z) : prog pmm_mem unit := push_free paPage.

Definition pmm_free_pages (paPage cPages : Z) : prog pmm_mem unit :=
  if (cPages =? 0) || (paPage =? 0) then pret tt else
  if negb (page_aligned paPage) then pret tt else
  let o := pages_to_order cPages in
  if (order_pages o =? cPages) && (o <=? PMM_MAX_ORDER)%nat && order_aligned paPage o then push_order paPage o
  else push_run push_free paPage (Z.to_nat cPages) 0.

(** ** Queries *)
Definition pmm_total_frames (m : pmm_mem) : Z := g_cFramesTotal m.
Definition pmm_order_count (m : pmm_mem) (o : nat) : Z :=
  if (PMM_MAX_ORDER <? o)%nat then 0 else
  if (o =? 0)%nat then g_cFramesFree m else nth o (g_aOrderCount m) 0.
Definition pmm_order_nodes (m : pmm_mem) (o : nat) : Z :=
  if (PMM_MAX_ORDER <? o)%nat then 0 else nth o (g_aOrderCount m) 0.
Definition pmm_free_frames_low (m : pmm_mem) : Z := g_cFramesFreeLow m.
Definition pmm_free_frames_high (m : pmm_mem) : Z := g_cFramesFreeHigh m.
Definition pmm_high_order_nodes (m : pmm_mem) : Z := high_order_nodes m.
Definition pmm_free_count (m : pmm_mem) : Z := g_cFramesFree m.
Definition pmm_max_phys (m : pmm_mem) : Z := g_paMaxSeen m.

(** ** Self-exercise *)
Definition PMM_SOFT_C2_GATE_NULL : Z := 1.
Definition PMM_SOFT_C2_GATE_SINGLE : Z := 2.
Definition PMM_SOFT_C2_GATE_PAGES : Z := 4.
Definition PMM_SOFT_C2_GATE_PAINT : Z := 8.
Definition PMM_SOFT_C2_GATE_LIFO : Z := 16.
Definition PMM_SOFT_C2_GATE_ID : Z := 32.
Definition PMM_SOFT_C2_GATE_FREE_R : Z := 64.
Definition PMM_SOFT_C2_GATE_TOTAL_I : Z := 128.
Definition PMM_SOFT_C2_GATE_CORE : Z :=
  Z.lor PMM_SOFT_C2_GATE_NULL (Z.lor PMM_SOFT_C2_GATE_SINGLE (Z.lor PMM_SOFT_C2_GATE_PAINT
    (Z.lor PMM_SOFT_C2_GATE_LIFO (Z.lor PMM_SOFT_C2_GATE_FREE_R PMM_SOFT_C2_GATE_TOTAL_I)))).

(** Each part of [soft_force32_alloc_low_ex] returns the gate bits it sets. *)
Definition ex_null (cFree0 cTotal0 : Z) : prog pmm_mem Z :=
  pmm_free 0 ;;; pmm_free 0 ;;;
  m <- pget ;;
  if (g_cFramesFree m =? cFree0) && (g_cFramesTotal m =? cTotal0) then
    tick_sat64 "g_cForce32SoftNullOk" ;;; pret PMM_SOFT_C2_GATE_NULL
  else pret 0.

(** The two words at [p] painted with [a] and [b], and read back. *)
Definition paint (p a b : Z) : prog pmm_mem bool :=
  st_word p a ;;; st_word (p + 8) b ;;;
  x <- ld_word p ;; y <- ld_word (p + 8) ;;
  pret ((x =? a) && (y =? b)).

Definition ex_paint (pa : Z) : prog pmm_mem Z :=
  m <- pget ;;
  match pa_to_ptr m pa with
  | None => pret 0
  | Some p =>
      let a := Z.lxor PMM_SOFT_PAT_A 194 in
      let b := Z.lxor PMM_SOFT_PAT_B 194 in
      ok <- paint p a b ;;
      if negb ok then pret 0 else
      ok <- paint p b a ;;
      if negb ok then pret 0 else
      tick_sat64 "g_cForce32SoftPaintOk" ;;; pret PMM_SOFT_C2_GATE_PAINT
  end.

Definition ex_single : prog pmm_mem Z :=
  pa <- pmm_alloc_low ;;
  if negb (pa =? 0) then
    g <- (if (pa <? PMM_LOW_MAX) && page_aligned pa then
            tick_sat64 "g_cForce32SoftOk" ;;;
            g <- ex_paint pa ;; pret (Z.lor PMM_SOFT_C2_GATE_SINGLE g)
          else tick_sat64 "g_cForce32SoftFail" ;;; pret 0) ;;
    pmm_free pa ;;; pret g
  else
  m <- pget ;;
  (if g_cFramesFreeLow m =? 0 then pret tt else tick_sat64 "g_cForce32SoftFail") ;;; pret 0.

Definition ex_pages : prog pmm_mem Z :=
  pa4 <- pmm_alloc_pages_low 4 ;;
  if pa4 =? 0 then pret 0 else
  g <- (if (pa4 <? PMM_LOW_MAX) && (u64_add pa4 (4 * GJ_PAGE_SIZE) <=? PMM_LOW_MAX) && page_aligned pa4 then
          tick_sat64 "g_cForce32SoftOk" ;;;
          (if u64_add pa4 (4 * GJ_PAGE_SIZE) <=? PMM_VTD_ID_LIMIT then tick_sat64 "g_cForce32SoftIdOk"
           else pret tt) ;;;
          pret PMM_SOFT_C2_GATE_PAGES
        else tick_sat64 "g_cForce32SoftFail" ;;; pret 0) ;;
  pmm_free_pages pa4 4 ;;; pret g.

Definition free_nonzero (pa : Z) : prog pmm_mem unit := if negb (pa =? 0) then pmm_free pa else pret tt.

Definition ex_lifo : prog pmm_mem Z :=
  paA <- pmm_alloc_low ;;
  paB <- pmm_alloc_low ;;
  if negb (paA =? 0) && negb (paB =? 0) && (paA <? PMM_LOW_MAX) && (paB <? PMM_LOW_MAX) &&
     page_aligned paA && page_aligned paB then
    pmm_free paB ;;;
    paC <- pmm_alloc_low ;;
    g <- (if paC =? paB then
            tick_sat64 "g_cForce32SoftLifoOk" ;;; tick_sat64 "g_cForce32SoftOk" ;;; pret PMM_SOFT_C2_GATE_LIFO
          else pret 0) ;;
    free_nonzero paC ;;; pmm_free paA ;;; pret g
  else free_nonzero paA ;;; free_nonzero paB ;;; pret 0.

(** The identity hunt: the page found or 0, and the pages held, last first. *)
Fixpoint hunt_loop (k : nat) (aHold : list Z) : prog pmm_mem (Z * list Z) :=
  match k with
  | O => pret (0, aHold)
  | S k' =>
      pa <- pmm_alloc_low ;;
      if pa =? 0 then pret (0, aHold) else
      if negb (page_aligned pa) || (PMM_LOW_MAX <=? pa) then
        pmm_free pa ;;; tick_sat64 "g_cForce32SoftFail" ;;; pret (0, aHold)
      else
      if u64_add pa GJ_PAGE_SIZE <=? PMM_VTD_ID_LIMIT then pret (pa, aHold) else
      if (length aHold <? PMM_SOFT_ID_HOLD)%nat then
        tick_sat64 "g_cForce32SoftIdHold" ;;; hunt_loop k' (pa :: aHold)
      else pmm_free pa ;;; pret (0, aHold)
  end.

Definition ex_hunt : prog pmm_mem Z :=
  r <- hunt_loop PMM_SOFT_ID_HOLD [] ;;
  let '(paId, aHold) := r in
  push_list aHold ;;;
  if negb (paId =? 0) then
    tick_sat64 "g_cForce32SoftIdOk" ;;; tick_sat64 "g_cForce32SoftOk" ;;;
    pmm_free paId ;;; pret PMM_SOFT_C2_GATE_ID
  else
  m <- pget ;;
  (if 0 <? g_cFramesFreeLow m then tick_sat64 "g_cForce32SoftIdMiss" else pret tt) ;;; pret 0.

Definition ex_gates (gates : Z) : prog pmm_mem unit :=
  tel_set "g_u32Force32SoftGates" gates ;;;
  if Z.land gates PMM_SOFT_C2_GATE_CORE =? PMM_SOFT_C2_GATE_CORE then tick_sat64 "g_cForce32SoftC2Pass"
  else if negb (Z.land gates PMM_SOFT_C2_GATE_SINGLE =? 0) then tick_sat64 "g_cForce32SoftC2Fail"
  else pret tt.

Definition soft_force32_alloc_low_ex : prog pmm_mem unit :=
  t <- ptel ;;
  if 4 <=? tel_val t "g_cForce32SoftEx" then pret tt else
  tick_wrap "g_cForce32SoftEx" ;;;
  m0 <- pget ;;
  g1 <- ex_null (g_cFramesFree m0) (g_cFramesTotal m0) ;;
  g2 <- ex_single ;;
  g3 <- ex_pages ;;
  g4 <- ex_lifo ;;
  g5 <- ex_hunt ;;
  m1 <- pget ;;
  g6 <- (if g_cFramesFree m1 =? g_cFramesFree m0 then
           tick_sat64 "g_cForce32SoftFreeRestOk" ;;; pret PMM_SOFT_C2_GATE_FREE_R else pret 0) ;;
  g7 <- (if g_cFramesTotal m1 =? g_cFramesTotal m0 then
           tick_sat64 "g_cForce32SoftTotalImmutOk" ;;; pret PMM_SOFT_C2_GATE_TOTAL_I else pret 0) ;;
  ex_gates (Z.lor (Z.lor (Z.lor (Z.lor (Z.lor (Z.lor g1 g2) g3) g4) g5) g6) g7).

(** [soft_hier_exercise]: orders that could be allocated, largest blocks taken. *)
Fixpoint hier_orders (k o : nat) (cOk : Z) : prog pmm_mem Z :=
  match k with
  | O => pret cOk
  | S k' =>
      pa <- pmm_alloc_pages (order_pages o) ;;
      if negb (pa =? 0) then pmm_free_pages pa (order_pages o) ;;; hier_orders k' (S o) (cOk + 1)
      else hier_orders k' (S o) cOk
  end.

Fixpoint hier_big (k : nat) (nBig : Z) : prog pmm_mem Z :=
  match k with
  | O => pret nBig
  | S k' =>
      pa <- pmm_alloc_pages (order_pages PMM_MAX_ORDER) ;;
      if pa =? 0 then pret nBig
      else pmm_free_pages pa (order_pages PMM_MAX_ORDER) ;;; hier_big k' (nBig + 1)
  end.

Definition soft_hier_exercise : prog pmm_mem (Z * Z) :=
  soft_force32_alloc_low_ex ;;;
  paLow <- pmm_alloc_low ;;
  c0 <- (if negb (paLow =? 0) then
           pmm_free paLow ;;; pret (if paLow <? PMM_LOW_MAX then 1 else 0)
         else pret 0) ;;
  cOk <- hier_orders PMM_MAX_ORDER 1 c0 ;;
  nBig <- hier_big 8 0 ;;
  pret (cOk, nBig).

(** [pmm_soft_inventory]: the exercise behind the dump, unless the serial line
    is dead ([fDead], of the console driver). *)
Definition pmm_soft_inventory (fDead : bool) : prog pmm_mem unit :=
  if fDead then pret tt else tick "g_cSoftInvLogs" ;;; soft_force32_alloc_low_ex.

Definition pmm_log_orders (fDead : bool) : prog pmm_mem unit := pmm_soft_inventory fDead.

(** ** Boot *)
Definition pmm_init (fDead : bool) (regions : list gj_mem_region) (paKernelStart paKernelEnd : Z) :
  prog pmm_mem unit :=
  pmod (pmm_reset paKernelStart paKernelEnd) ;;;
  t <- ptel ;;
  ptel_put (filter (fun kv => pmm_counter kv.1 = false) t) ;;;
  init_regions regions ;;;
  pmm_soft_inventory fDead.

Fixpoint release_ranges (l : list pmm_pending) : prog pmm_mem unit :=
  match l with
  | [] => pret tt
  | p :: l' => free_range (pp_paBase p) (pp_cbLen p) false ;;; release_ranges l'
  end.

Definition pmm_release_high (fDead : bool) : prog pmm_mem unit :=
  m <- pget ;;
  if g_fHighReleased m || negb (pm_hhdm m) then pret tt else
  release_ranges (g_aHigh m) ;;;
  pmod (fun m => set_totals (g_cFramesTotal m) (g_paMaxSeen m) (g_paKernel m) (g_paSoftMedia m) (g_aHigh m) true m) ;;;
  pmm_soft_inventory fDead.

(** ** Soak tests *)
Definition soak_tib_body (fDead : bool) : prog pmm_mem Z :=
  pa4 <- pmm_alloc_pages 4 ;;
  pa16 <- pmm_alloc_pages 16 ;;
  if (pa4 =? 0) || (pa16 =? 0) then
    (if negb (pa4 =? 0) then pmm_free_pages pa4 4 else pret tt) ;;;
    (if negb (pa16 =? 0) then pmm_free_pages pa16 16 else pret tt) ;;;
    pret (-1)
  else
  pmm_free_pages pa16 16 ;;;
  pmm_free_pages pa4 4 ;;;
  soft_hier_exercise ;;;
  pmm_soft_inventory fDead ;;;
  pret 0.

Definition pmm_soak_tib (fDead : bool) (u64NeedBytes : Z) : prog pmm_mem Z :=
  let need := if u64NeedBytes =? 0 then PMM_TIB_BYTES else u64NeedBytes in
  m <- pget ;;
  if g_paMaxSeen m <? need then soft_hier_exercise ;;; pmm_soft_inventory fDead ;;; pret 0
  else soak_tib_body fDead.

(** The singles of [pmm_soak], last first; [None] after a failure, which gives
    them all back. *)
Fixpoint soak_singles (n : nat) (aPa : list Z) : prog pmm_mem (option (list Z)) :=
  match n with
  | O => pret (Some aPa)
  | S n' =>
      pa <- pmm_alloc ;;
      if pa =? 0 then push_list aPa ;;; pret None else soak_singles n' (pa :: aPa)
  end.

Definition pmm_soak (fDead : bool) (u32Singles u32Contig : Z) : prog pmm_mem Z :=
  let n := if 64 <? u32Singles then 64 else u32Singles in
  let contig := if u32Contig =? 0 then 4 else if 64 <? u32Contig then 64 else u32Contig in
  r <- soak_singles (Z.to_nat n) [] ;;
  match r with
  | None => pret (-1)
  | Some aPa =>
      push_list (rev aPa) ;;;
      paBlock <- pmm_alloc_pages contig ;;
      if paBlock =? 0 then pret (-1) else
      pmm_free_pages paBlock contig ;;;
      pmm_soft_inventory fDead ;;;
      pret 0
  end.
