(* ===== verification/PmmInv.v ===== *)
(** Representation of the physical page allocator: the free lists as lists of
    blocks, the pages they hold, and the effect of one insertion or removal. *)
From stdpp Require Import base gmap list strings.
From Stdlib Require Import ZArith Lia.
From S2P Require Import Prelude Pmm.

(** ** Runs of pages *)
Definition run (x n : Z) : list Z := (fun i => x + i * GJ_PAGE_SIZE) <$> seqZ 0 n.

Lemma elem_of_run x n p : p ∈ run x n <-> exists i, 0 <= i < n /\ p = x + i * GJ_PAGE_SIZE.
Proof.
  unfold run. rewrite list_elem_of_fmap. split.
  - intros (i & -> & Hi). apply elem_of_seqZ in Hi. exists i. lia.
  - intros (i & Hi & ->). exists i. split; [done|]. apply elem_of_seqZ. lia.
Qed.

Lemma length_run x n : length (run x n) = Z.to_nat n.
Proof. unfold run. by rewrite length_fmap, length_seqZ. Qed.

Lemma NoDup_run x n : NoDup (run x n).
Proof. apply NoDup_fmap_2; [|apply NoDup_seqZ]. intros i j. unfold GJ_PAGE_SIZE. lia. Qed.

Lemma run_split x a b : 0 <= a -> 0 <= b -> run x (a + b) = run x a ++ run (x + a * GJ_PAGE_SIZE) b.
Proof.
  intros Ha Hb. unfold run. rewrite seqZ_app by lia. rewrite fmap_app. f_equal.
  apply list_eq. intros i. rewrite !list_lookup_fmap.
  destruct (decide (i < Z.to_nat b)%nat) as [Hi|Hi].
  - rewrite !lookup_seqZ_lt by lia. simpl. f_equal. lia.
  - rewrite !lookup_seqZ_ge by lia. done.
Qed.

Lemma run_one x : run x 1 = [x].
Proof. unfold run. change (seqZ 0 1) with [0]. simpl. f_equal; lia. Qed.

Lemma run_S x n : 0 <= n -> run x (n + 1) = x :: run (x + GJ_PAGE_SIZE) n.
Proof.
  intros Hn. rewrite Z.add_comm, run_split by lia. rewrite run_one. simpl. do 2 f_equal; lia.
Qed.

(** ** Blocks *)
(** Physical memory that the higher-half map reaches: [2^64 - GJ_HHDM_BASE]. *)
Definition PA_MAX : Z := 2 ^ 47.
Definition pages_of (o : nat) : Z := 2 ^ Z.of_nat o.
Definition block_bytes (o : nat) : Z := pages_of o * GJ_PAGE_SIZE.
Definition zone (x : Z) : bool := x <? PMM_LOW_MAX.
Definition node_pages (n : nat * Z) : list Z := run (snd n) (pages_of (fst n)).
Definition pages (N : list (nat * Z)) : list Z := N ≫= node_pages.

(** The page of an address. *)
Definition page_of (a : Z) : Z := a - a mod GJ_PAGE_SIZE.

Record page_ok (m : pmm_mem) (x : Z) : Prop := {
  pk_aligned : x mod GJ_PAGE_SIZE = 0;
  pk_bound : x + GJ_PAGE_SIZE <= PA_MAX;
  pk_free : range_ok_free m x GJ_PAGE_SIZE = true;
  pk_reach : zone x = true \/ pm_hhdm m = true;
  pk_word : is_Some (pm_phys m !! x);
  pk_word2 : is_Some (pm_phys m !! (x + 8)) }.

Lemma pages_of_S o : pages_of (S o) = pages_of o + pages_of o.
Proof. unfold pages_of. rewrite Nat2Z.inj_succ, Z.pow_succ_r by lia. lia. Qed.

Lemma pages_of_pos o : 1 <= pages_of o.
Proof. unfold pages_of. pose proof (Z.pow_pos_nonneg 2 (Z.of_nat o)). lia. Qed.

Lemma order_pages_eq o : order_pages o = pages_of o.
Proof. unfold order_pages, pages_of. rewrite Z.shiftl_mul_pow2; lia. Qed.

Lemma pages_of_max o : (o <= PMM_MAX_ORDER)%nat -> pages_of o <= 512.
Proof. intros Ho. unfold pages_of, PMM_MAX_ORDER in *. change 512 with (2 ^ 9). apply Z.pow_le_mono_r; lia. Qed.

Lemma order_bytes_eq o : (o <= PMM_MAX_ORDER)%nat -> order_bytes o = block_bytes o.
Proof.
  intros Ho. pose proof (pages_of_max o Ho). pose proof (pages_of_pos o).
  unfold order_bytes, u64_wrap, block_bytes. rewrite Z.shiftl_mul_pow2 by lia. fold (pages_of o).
  unfold GJ_PAGE_SIZE. rewrite Z.mod_small; lia.
Qed.

Lemma block_bytes_pow o : block_bytes o = 2 ^ (Z.of_nat o + 12).
Proof. unfold block_bytes, pages_of, GJ_PAGE_SIZE. by rewrite Z.pow_add_r by lia. Qed.

Lemma land_pow2 x k : 0 <= k -> Z.land x (2 ^ k - 1) = x mod 2 ^ k.
Proof. intros Hk. rewrite <-Z.land_ones by done. f_equal. rewrite Z.ones_equiv. lia. Qed.

Lemma page_aligned_spec x : page_aligned x = true <-> x mod GJ_PAGE_SIZE = 0.
Proof. unfold page_aligned, GJ_PAGE_SIZE. change 4096 with (2 ^ 12). rewrite land_pow2 by lia. apply Z.eqb_eq. Qed.

Lemma order_aligned_spec x o :
  (o <= PMM_MAX_ORDER)%nat -> order_aligned x o = true <-> x mod block_bytes o = 0.
Proof.
  intros Ho. unfold order_aligned. destruct (Nat.eqb_spec o 0) as [->|_].
  - apply page_aligned_spec.
  - rewrite order_bytes_eq, block_bytes_pow, land_pow2 by lia. apply Z.eqb_eq.
Qed.

Lemma page_down_eq x : page_down x = page_of x.
Proof.
  unfold page_down, page_of, GJ_PAGE_SIZE. change 4096 with (2 ^ 12). change (2 ^ 12 - 1) with (Z.ones 12).
  rewrite Z.ldiff_ones_r, Z.shiftr_div_pow2, Z.shiftl_mul_pow2 by lia.
  pose proof (Z.div_mod x (2 ^ 12)). lia.
Qed.

Lemma block_aligned_page x o : x mod block_bytes o = 0 -> x mod GJ_PAGE_SIZE = 0.
Proof.
  unfold block_bytes. intros H. pose proof (pages_of_pos o).
  apply Z.mod_divide in H; [|unfold GJ_PAGE_SIZE; lia]. apply Z.mod_divide; [done|].
  destruct H as [k ->]. exists (k * pages_of o). lia.
Qed.

Lemma u64_add_small a b : 0 <= a + b < 2 ^ 64 -> u64_add a b = a + b.
Proof. intros H. unfold u64_add, u64_wrap. by apply Z.mod_small. Qed.

(** No aligned block crosses the 4 GiB line. *)
Lemma zone_block x o :
  (o <= PMM_MAX_ORDER)%nat -> x mod block_bytes o = 0 -> zone x = true -> x + block_bytes o <= PMM_LOW_MAX.
Proof.
  intros Ho Hx Hz. unfold zone in Hz. apply Z.ltb_lt in Hz. rewrite block_bytes_pow in *.
  assert (PMM_LOW_MAX = 2 ^ (Z.of_nat o + 12) * 2 ^ (20 - Z.of_nat o)) as E.
  { rewrite <-Z.pow_add_r by (unfold PMM_MAX_ORDER in Ho; lia).
    replace (Z.of_nat o + 12 + (20 - Z.of_nat o)) with 32 by lia. done. }
  assert (0 < 2 ^ (Z.of_nat o + 12)) as HB by (apply Z.pow_pos_nonneg; lia).
  apply Z.mod_divide in Hx; [|lia]. destruct Hx as [k ->]. rewrite E in *.
  generalize dependent (2 ^ (Z.of_nat o + 12)). generalize (2 ^ (20 - Z.of_nat o)). intros C B Hz _ HB.
  assert (k < C) by nia. nia.
Qed.

Lemma zone_run x o p :
  (o <= PMM_MAX_ORDER)%nat -> x mod block_bytes o = 0 -> p ∈ node_pages (o, x) -> zone p = zone x.
Proof.
  intros Ho Hx Hp. unfold node_pages in Hp. apply elem_of_run in Hp as (i & Hi & ->). simpl in *.
  destruct (zone x) eqn:Ez.
  - pose proof (zone_block x o Ho Hx Ez). unfold zone, block_bytes, GJ_PAGE_SIZE in *. apply Z.ltb_lt. nia.
  - unfold zone, GJ_PAGE_SIZE in *. apply Z.ltb_ge. apply Z.ltb_ge in Ez. lia.
Qed.

Lemma range_ok_free_spec m x cb :
  range_ok_free m x cb = true <->
  cb <> 0 /\ 1048576 <= x /\
  range_overlaps x (u64_add x cb) (fst (g_paKernel m)) (snd (g_paKernel m)) = false /\
  (fst (g_paSoftMedia m) < snd (g_paSoftMedia m) ->
   range_overlaps x (u64_add x cb) (fst (g_paSoftMedia m)) (snd (g_paSoftMedia m)) = false).
Proof.
  unfold range_ok_free. destruct (Z.eqb_spec cb 0), (Z.ltb_spec x 1048576); simpl; try (split; [done|lia]).
  destruct (range_overlaps _ _ (fst (g_paKernel m)) _); [naive_solver|].
  destruct (Z.ltb_spec (fst (g_paSoftMedia m)) (snd (g_paSoftMedia m))); simpl.
  - destruct (range_overlaps _ _ _ _); naive_solver.
  - split; [intros _|done]. split_and!; [done|done|done|lia].
Qed.

(** If a range meets none of the pages of a block, it does not meet the block. *)
Lemma overlaps_block x n c d :
  0 <= x -> 0 < n -> x + n * 4096 < 2 ^ 64 -> c < d ->
  (forall i, 0 <= i < n -> range_overlaps (x + i * 4096) (u64_add (x + i * 4096) 4096) c d = false) ->
  range_overlaps x (u64_add x (n * 4096)) c d = false.
Proof.
  intros Hx Hn Hb Hcd Hall. unfold range_overlaps in *. apply andb_false_iff.
  destruct (Z.ltb_spec x d); [|by left]. right. apply Z.ltb_ge. rewrite u64_add_small by lia.
  destruct (Z_lt_le_dec c (x + n * 4096)) as [Hc|Hc]; [|lia]. exfalso.
  set (i := if c <? x then 0 else (c - x) / 4096).
  assert (0 <= i < n /\ x + i * 4096 <= Z.max x c < x + i * 4096 + 4096) as [Hi Hic].
  { unfold i. destruct (Z.ltb_spec c x); [lia|].
    pose proof (Z.div_mod (c - x) 4096 ltac:(lia)). pose proof (Z.mod_pos_bound (c - x) 4096 ltac:(lia)). lia. }
  specialize (Hall i Hi). rewrite u64_add_small in Hall by lia.
  apply andb_false_iff in Hall as [Hl|Hl]; apply Z.ltb_ge in Hl; lia.
Qed.

(** A block all of whose pages may be freed may be freed, when the kernel image
    is not empty. *)
Lemma range_ok_block m x o :
  (o <= PMM_MAX_ORDER)%nat -> fst (g_paKernel m) < snd (g_paKernel m) ->
  Forall (page_ok m) (node_pages (o, x)) -> range_ok_free m x (block_bytes o) = true.
Proof.
  intros Ho Hk HF. rewrite Forall_forall in HF.
  pose proof (pages_of_pos o) as Hp. pose proof (pages_of_max o Ho) as Hp2.
  assert (forall i, 0 <= i < pages_of o -> page_ok m (x + i * 4096)) as HP.
  { intros i Hi. apply HF, elem_of_run. by exists i. }
  assert (forall i, 0 <= i < pages_of o -> range_ok_free m (x + i * 4096) 4096 = true) as HR.
  { intros i Hi. by apply HP. }
  setoid_rewrite range_ok_free_spec in HR. destruct (HR 0 ltac:(lia)) as (_ & Hx & _).
  pose proof (pk_bound _ _ (HP (pages_of o - 1) ltac:(lia))) as Hb. unfold PA_MAX, block_bytes, GJ_PAGE_SIZE in *.
  apply range_ok_free_spec. split_and!; [lia|lia| |intros Hm].
  - apply overlaps_block; [lia|lia|lia|done|]. intros i Hi. by apply HR.
  - apply overlaps_block; [lia|lia|lia|done|]. intros i Hi. by apply HR.
Qed.

(** ** The free lists *)
Definition is_node (z : bool) (o : nat) (n : nat * Z) : Prop := fst n = o /\ zone (snd n) = z.
#[export] Instance is_node_dec z o n : Decision (is_node z o n).
Proof. unfold is_node. apply _. Defined.

(** The blocks of order [o] in a zone, in list order. *)
Definition sel (z : bool) (o : nat) (N : list (nat * Z)) : list Z := snd <$> filter (is_node z o) N.

Fixpoint chain (p : gmap Z Z) (h : Z) (l : list Z) : Prop :=
  match l with
  | [] => h = 0
  | x :: l' => h = x /\ exists nx, p !! x = Some nx /\ chain p nx l'
  end.

Definition node_wf (m : pmm_mem) (n : nat * Z) : Prop :=
  (fst n <= PMM_MAX_ORDER)%nat /\ snd n mod block_bytes (fst n) = 0 /\ Forall (page_ok m) (node_pages n).

(** The allocator's memory represents the free blocks [N]. *)
Record pmm_rep (m : pmm_mem) (N : list (nat * Z)) : Prop := {
  pr_low : length (g_aOrderLow m) = S PMM_MAX_ORDER;
  pr_high : length (g_aOrderHigh m) = S PMM_MAX_ORDER;
  pr_cnt : length (g_aOrderCount m) = S PMM_MAX_ORDER;
  pr_chain : forall z o h, orders z m !! o = Some h -> chain (pm_phys m) h (sel z o N);
  pr_count : forall o c, g_aOrderCount m !! o = Some c -> c = Z.of_nat (countb (fun n => (fst n =? o)%nat) N);
  pr_free : g_cFramesFree m = Z.of_nat (length (pages N));
  pr_flow : g_cFramesFreeLow m = Z.of_nat (countb zone (pages N));
  pr_fhigh : g_cFramesFreeHigh m = Z.of_nat (countb (fun x => negb (zone x)) (pages N));
  pr_nodes : Forall (node_wf m) N;
  pr_nodup : NoDup (pages N);
  pr_ker : fst (g_paKernel m) < snd (g_paKernel m) }.

(** From [m] to [m'] the configuration and the mapped words are the same, and
    only words of the pages [P] have changed. *)
Record pstep (P : list Z) (m m' : pmm_mem) : Prop := {
  ps_ker : g_paKernel m' = g_paKernel m;
  ps_media : g_paSoftMedia m' = g_paSoftMedia m;
  ps_hi : g_aHigh m' = g_aHigh m;
  ps_rel : g_fHighReleased m' = g_fHighReleased m;
  ps_hhdm : pm_hhdm m' = pm_hhdm m;
  ps_dom : forall a, is_Some (pm_phys m' !! a) <-> is_Some (pm_phys m !! a);
  ps_frame : forall a, page_of a ∉ P -> pm_phys m' !! a = pm_phys m !! a }.

Lemma pstep_refl P m : pstep P m m.
Proof. by split. Qed.

Lemma pstep_trans P Q R m1 m2 m3 : P ⊆ R -> Q ⊆ R -> pstep P m1 m2 -> pstep Q m2 m3 -> pstep R m1 m3.
Proof.
  intros HP HQ [] []. split; try congruence.
  - intros a. rewrite <-ps_dom0. done.
  - intros a Ha. rewrite ps_frame1, ps_frame0; [done|set_solver..].
Qed.

Lemma pstep_mono P R m1 m2 : P ⊆ R -> pstep P m1 m2 -> pstep R m1 m2.
Proof. intros HP []. split; try done. intros a Ha. apply ps_frame0. set_solver. Qed.

Lemma page_ok_step P m m' x : pstep P m m' -> page_ok m x -> page_ok m' x.
Proof.
  intros [] []. split; try done.
  - unfold range_ok_free in *. by rewrite ps_ker0, ps_media0.
  - by rewrite ps_hhdm0.
  - by apply ps_dom0.
  - by apply ps_dom0.
Qed.

Lemma node_wf_step P m m' n : pstep P m m' -> node_wf m n -> node_wf m' n.
Proof. intros Hs (? & ? & HF). split_and!; [done|done|]. eapply Forall_impl; [done|]. eauto using page_ok_step. Qed.

(** ** Counting *)
Lemma countb_perm {A} (p : A -> bool) (l k : list A) : l ≡ₚ k -> countb p l = countb p k.
Proof. intros H. unfold countb. by rewrite H. Qed.
Lemma countb_app {A} (p : A -> bool) (l k : list A) : countb p (l ++ k) = (countb p l + countb p k)%nat.
Proof. unfold countb. by rewrite filter_app, length_app. Qed.
Lemma countb_all {A} (p : A -> bool) (l : list A) : Forall (fun x => p x = true) l -> countb p l = length l.
Proof.
  induction 1 as [|x l Hx _ IH]; [done|]. unfold countb in *. by rewrite filter_cons_True, length_cons, IH.
Qed.
Lemma countb_none {A} (p : A -> bool) (l : list A) : Forall (fun x => p x = false) l -> countb p l = 0%nat.
Proof.
  induction 1 as [|x l Hx _ IH]; [done|]. unfold countb in *. rewrite filter_cons_False; [done|]. by rewrite Hx.
Qed.
Lemma countb_le {A} (p : A -> bool) (l : list A) : (countb p l <= length l)%nat.
Proof. unfold countb. apply length_filter. Qed.

Lemma nodup_range_bound (l : list Z) n : NoDup l -> (forall x, x ∈ l -> 0 <= x < n) -> Z.of_nat (length l) <= Z.max 0 n.
Proof.
  intros Hd Hr. assert (l ⊆+ seqZ 0 n) as Hs.
  { apply NoDup_submseteq; [done|]. intros x Hx. apply elem_of_seqZ. specialize (Hr x Hx). lia. }
  apply submseteq_length in Hs. rewrite length_seqZ in Hs. lia.
Qed.

Lemma pages_cons n N : pages (n :: N) = node_pages n ++ pages N.
Proof. done. Qed.
Lemma pages_app N1 N2 : pages (N1 ++ N2) = pages N1 ++ pages N2.
Proof. apply bind_app. Qed.
Lemma pages_perm N1 N2 : N1 ≡ₚ N2 -> pages N1 ≡ₚ pages N2.
Proof. intros H. unfold pages. by rewrite H. Qed.

Lemma length_node_pages n : length (node_pages n) = Z.to_nat (pages_of (fst n)).
Proof. apply length_run. Qed.

Lemma page_ok_bounds m x : page_ok m x -> 1048576 <= x /\ x + GJ_PAGE_SIZE <= PA_MAX.
Proof. intros []. apply range_ok_free_spec in pk_free0 as (_ & ? & _). lia. Qed.

Lemma pages_ok m N x : Forall (node_wf m) N -> x ∈ pages N -> page_ok m x.
Proof.
  intros HF Hx. unfold pages in Hx. apply list_elem_of_bind in Hx as (n & Hx & Hn).
  rewrite Forall_forall in HF. destruct (HF n Hn) as (_ & _ & H). rewrite Forall_forall in H. auto.
Qed.

Lemma pages_bound m N : Forall (node_wf m) N -> NoDup (pages N) -> Z.of_nat (length (pages N)) <= 2 ^ 47.
Proof.
  intros HF Hd. pose proof (nodup_range_bound (pages N) PA_MAX Hd) as H.
  unfold PA_MAX in *. apply H. intros x Hx. pose proof (page_ok_bounds m x (pages_ok m N x HF Hx)).
  unfold PA_MAX, GJ_PAGE_SIZE in *. lia.
Qed.

Lemma node_zone m n : node_wf m n ->
  countb zone (node_pages n) = (if zone (snd n) then length (node_pages n) else 0)%nat /\
  countb (fun x => negb (zone x)) (node_pages n) = (if zone (snd n) then 0 else length (node_pages n))%nat.
Proof.
  destruct n as [o x]. intros (Ho & Hx & _). simpl in *.
  assert (Forall (fun p => zone p = zone x) (node_pages (o, x))) as HF.
  { apply Forall_forall. intros p. by apply zone_run. }
  destruct (zone x); split; (apply countb_all || apply countb_none); eapply Forall_impl; try done;
    simpl; intros p ->; done.
Qed.

(** ** Chains *)
Lemma chain_store p h l x v : x ∉ l -> chain p h l -> chain (<[x := v]> p) h l.
Proof.
  revert h. induction l as [|y l IH]; intros h Hx; [done|]. simpl. intros (-> & nx & E & H).
  split; [done|]. exists nx. rewrite lookup_insert_ne by set_solver. split; [done|]. apply IH; set_solver.
Qed.

Lemma chain_frame (P : list Z) p p' h l :
  (forall a, page_of a ∉ P -> p' !! a = p !! a) -> (forall x, x ∈ l -> page_of x ∉ P) ->
  chain p h l -> chain p' h l.
Proof.
  intros Hp. revert h. induction l as [|y l IH]; intros h Hl; [done|]. simpl. intros (-> & nx & E & H).
  split; [done|]. exists nx. rewrite Hp by (apply Hl; set_solver). split; [done|]. apply IH; [|done].
  intros x Hx. apply Hl. set_solver.
Qed.

Lemma elem_of_sel z o N x : x ∈ sel z o N <-> (o, x) ∈ N /\ zone x = z.
Proof.
  unfold sel. rewrite list_elem_of_fmap. split.
  - intros ([o' y] & -> & Hn). apply list_elem_of_filter in Hn as [[<- Hz] Hn]. done.
  - intros [Hn Hz]. exists (o, x). split; [done|]. apply list_elem_of_filter. by split.
Qed.

Lemma node_head_page n : snd n ∈ node_pages n.
Proof. apply elem_of_run. exists 0. pose proof (pages_of_pos (fst n)). lia. Qed.

Lemma sel_pages z o N x : x ∈ sel z o N -> x ∈ pages N.
Proof.
  intros Hx. apply elem_of_sel in Hx as [Hx _]. unfold pages. apply list_elem_of_bind.
  exists (o, x). split; [apply (node_head_page (o, x))|done].
Qed.

Lemma page_of_aligned x : x mod GJ_PAGE_SIZE = 0 -> page_of x = x.
Proof. unfold page_of. lia. Qed.

Lemma orders_length z m N : pmm_rep m N -> length (orders z m) = S PMM_MAX_ORDER.
Proof. intros []. by destruct z. Qed.

Lemma orders_lookup z o m N : pmm_rep m N -> (o <= PMM_MAX_ORDER)%nat -> exists h, orders z m !! o = Some h.
Proof. intros Hr Ho. apply lookup_lt_is_Some. rewrite (orders_length z m N Hr). unfold PMM_MAX_ORDER in *. lia. Qed.

Lemma sel_cons z o o' x N :
  sel z o ((o', x) :: N) = if decide (is_node z o (o', x)) then x :: sel z o N else sel z o N.
Proof. unfold sel. rewrite filter_cons. by destruct (decide _). Qed.

(** The counters after an insertion. *)
Lemma count_push_rep m N o pa m1 :
  pmm_rep m N -> node_wf m (o, pa) -> NoDup (node_pages (o, pa) ++ pages N) ->
  g_aOrderCount m1 = g_aOrderCount m -> g_cFramesFree m1 = g_cFramesFree m ->
  g_cFramesFreeLow m1 = g_cFramesFreeLow m -> g_cFramesFreeHigh m1 = g_cFramesFreeHigh m ->
  let m' := count_push pa (order_pages o) o m1 in
  length (g_aOrderCount m') = S PMM_MAX_ORDER /\
  (forall o' c, g_aOrderCount m' !! o' = Some c ->
     c = Z.of_nat (countb (fun n => (fst n =? o')%nat) ((o, pa) :: N))) /\
  g_cFramesFree m' = Z.of_nat (length (pages ((o, pa) :: N))) /\
  g_cFramesFreeLow m' = Z.of_nat (countb zone (pages ((o, pa) :: N))) /\
  g_cFramesFreeHigh m' = Z.of_nat (countb (fun x => negb (zone x)) (pages ((o, pa) :: N))).
Proof.
  intros Hr Hn Hd E1 E2 E3 E4. cbv zeta. destruct Hr.
  assert (Forall (node_wf m) ((o, pa) :: N)) as HF by (by constructor).
  pose proof (pages_bound m _ HF Hd) as Hb. rewrite pages_cons, length_app in Hb.
  destruct (node_zone m _ Hn) as [Hz1 Hz2]. simpl in Hz1, Hz2.
  pose proof (countb_le zone (pages N)). pose proof (countb_le (fun x => negb (zone x)) (pages N)).
  pose proof (length_node_pages (o, pa)) as Hl. simpl in Hl. pose proof (pages_of_pos o).
  unfold count_push. cbn [g_aOrderCount g_cFramesFree g_cFramesFreeLow g_cFramesFreeHigh set_counts].
  rewrite E1, E2, E3, E4, !pages_cons, length_app, !countb_app, Hz1, Hz2, order_pages_eq.
  fold (zone pa). split_and!.
  - by rewrite length_alter.
  - intros o' c Hc. unfold countb. rewrite filter_cons. cbn [fst].
    destruct (decide (o = o')) as [->|Hne].
    + rewrite list_lookup_alter_eq in Hc. apply fmap_Some in Hc as (c0 & Hc & ->).
      apply pr_count0 in Hc as ->. rewrite Nat.eqb_refl, decide_True by done. cbn [length]. unfold countb.
      assert (length (filter (fun n : nat * Z => (n.1 =? o')%nat = true) N) <= length (pages N))%nat as Hle.
      { clear. induction N as [|n N IH]; [done|]. rewrite filter_cons, pages_cons, length_app.
        pose proof (length_node_pages n). pose proof (pages_of_pos (fst n)). case_decide; simpl; lia. }
      rewrite u64_add_small; lia.
    + rewrite list_lookup_alter_ne in Hc by done. rewrite decide_False; [by apply pr_count0|].
      intros Hx. apply Nat.eqb_eq in Hx. congruence.
  - rewrite pr_free0, u64_add_small; lia.
  - destruct (zone pa); rewrite pr_flow0; [rewrite u64_add_small|]; lia.
  - destruct (zone pa); rewrite pr_fhigh0; [|rewrite u64_add_small]; lia.
Qed.

Lemma pstep_word m x v :
  x mod GJ_PAGE_SIZE = 0 -> is_Some (pm_phys m !! x) -> pstep [x] m (set_phys (<[x := v]> (pm_phys m)) m).
Proof.
  intros Hx Hs. split; try done; simpl.
  - intros a. rewrite lookup_insert_is_Some. destruct (decide (x = a)); naive_solver.
  - intros a Ha. rewrite lookup_insert_ne; [done|]. intros <-. apply Ha. rewrite page_of_aligned by done. set_solver.
Qed.

Lemma pstep_orders P m m1 z l : pstep P m m1 -> pstep P m (set_orders z l m1).
Proof. intros []. by split. Qed.
Lemma pstep_counts P m m1 c a b d : pstep P m m1 -> pstep P m (set_counts c a b d m1).
Proof. intros []. by split. Qed.

Lemma orders_set_eq z l m : orders z (set_orders z l m) = l.
Proof. by destruct z. Qed.
Lemma orders_set_ne z z' l m : z <> z' -> orders z' (set_orders z l m) = orders z' m.
Proof. by destruct z, z'. Qed.

(** One block inserted at the head of its list. *)
Definition push_mem (o : nat) (pa h : Z) (m : pmm_mem) : pmm_mem :=
  count_push pa (order_pages o) o
    (set_orders (zone pa) (<[o := pa]> (orders (zone pa) m)) (set_phys (<[pa := h]> (pm_phys m)) m)).

Lemma push_mem_rep m N o pa h :
  pmm_rep m N -> node_wf m (o, pa) -> NoDup (node_pages (o, pa) ++ pages N) ->
  orders (zone pa) m !! o = Some h ->
  pmm_rep (push_mem o pa h m) ((o, pa) :: N) /\ pstep [pa] m (push_mem o pa h m).
Proof.
  intros Hr Hn Hd Eh. pose proof Hn as (Ho & Hx & HF). simpl in Ho, Hx.
  assert (page_ok m pa) as Hpa.
  { rewrite Forall_forall in HF. apply HF, (node_head_page (o, pa)). }
  assert (pstep [pa] m (push_mem o pa h m)) as Hs.
  { apply pstep_counts, pstep_orders, pstep_word; apply Hpa. }
  split; [|done].
  edestruct (count_push_rep m N o pa
    (set_orders (zone pa) (<[o := pa]> (orders (zone pa) m)) (set_phys (<[pa := h]> (pm_phys m)) m)))
    as (C1 & C2 & C3 & C4 & C5); [done..|].
  split; try done.
  - simpl. destruct (zone pa); rewrite ?length_insert; apply Hr.
  - simpl. destruct (zone pa); rewrite ?length_insert; apply Hr.
  - intros z o' h' E. change (pm_phys (push_mem o pa h m)) with (<[pa := h]> (pm_phys m)).
    change (orders z (push_mem o pa h m)) with
      (orders z (set_orders (zone pa) (<[o := pa]> (orders (zone pa) m)) m)) in E.
    assert (forall z o, pa ∉ sel z o N) as Hnew.
    { intros z1 o1 Hin. apply sel_pages in Hin. apply NoDup_app in Hd as (_ & Hd & _).
      apply (Hd pa); [apply (node_head_page (o, pa))|done]. }
    rewrite sel_cons. destruct (decide (zone pa = z)) as [<-|Hz].
    + rewrite orders_set_eq in E. apply list_lookup_insert_Some in E as [(-> & <- & _)|[Hne E]].
      * rewrite decide_True by done. simpl. split; [done|]. exists h. rewrite lookup_insert_eq.
        split; [done|]. apply chain_store; [done|]. by apply Hr.
      * rewrite decide_False by (intros [? _]; simpl in *; congruence). apply chain_store; [done|]. by apply Hr.
    + rewrite orders_set_ne in E by done. rewrite decide_False by (intros [_ ?]; simpl in *; congruence).
      apply chain_store; [done|]. by apply Hr.
  - constructor; [by eapply node_wf_step|]. eapply Forall_impl; [apply Hr|]. intros n. by apply node_wf_step with [pa].
  - apply Hr.
Qed.

Lemma wp_push_body single m N o pa :
  pmm_rep m N -> node_wf m (o, pa) -> NoDup (node_pages (o, pa) ++ pages N) ->
  wp (push_order_body single pa o) (fun _ m' => pmm_rep m' ((o, pa) :: N) /\ pstep [pa] m m') m.
Proof.
  intros Hr Hn Hd. pose proof Hn as (Ho & Hx & HF). simpl in Ho, Hx.
  assert (page_ok m pa) as Hpa.
  { rewrite Forall_forall in HF. apply HF, (node_head_page (o, pa)). }
  pose proof (page_ok_bounds m pa Hpa) as [Hlo _].
  unfold push_order_body. rewrite (proj2 (Z.eqb_neq _ _)) by lia.
  rewrite (proj2 (page_aligned_spec pa)) by apply Hpa. simpl.
  rewrite (proj2 (Nat.ltb_ge _ _)) by done.
  rewrite (proj2 (order_aligned_spec pa o Ho) Hx), andb_false_r.
  wsteps. rewrite order_pages_eq. fold (block_bytes o).
  rewrite (range_ok_block m pa o Ho) by (try done; apply Hr). simpl.
  unfold pa_to_ptr. fold (zone pa).
  destruct ((PMM_LOW_MAX <=? pa) && negb (pm_hhdm m)) eqn:Ep.
  { apply andb_true_iff in Ep as [Ep1 Ep2]. destruct (pk_reach _ _ Hpa) as [Hz|Hh].
    - unfold zone in Hz. apply Z.leb_le in Ep1. apply Z.ltb_lt in Hz. lia.
    - by rewrite Hh in Ep2. }
  destruct (orders_lookup (zone pa) o m N Hr Ho) as [h Eh].
  destruct (pk_word _ _ Hpa) as [w Ew].
  unfold ld_head, st_word, st_head. wsteps. rewrite Eh. wsteps. rewrite Ew. wsteps.
  assert (pmm_rep (push_mem o pa h m) ((o, pa) :: N) /\ pstep [pa] m (push_mem o pa h m)) as HP
    by by apply push_mem_rep.
  unfold push_mem in HP. rewrite order_pages_eq in HP.
  destruct (0 <? o)%nat; wsteps; exact HP.
Qed.
