(* ===== verification/PmmOps.v ===== *)
(** The page allocator's operations: taking a block off a free list, splitting,
    pushing and joining. *)
From stdpp Require Import base gmap list strings.
From Stdlib Require Import ZArith Lia.
From S2P Require Import Prelude Pmm PmmInv.

(** * Removal of a block from the free lists, and splitting. *)

Lemma sel_app z o N1 N2 : sel z o (N1 ++ N2) = sel z o N1 ++ sel z o N2.
Proof. unfold sel. by rewrite filter_app, fmap_app. Qed.

Lemma sel_head z o N x l :
  sel z o N = x :: l ->
  exists N1 N2, N = N1 ++ (o, x) :: N2 /\ sel z o (N1 ++ N2) = l /\ zone x = z.
Proof.
  induction N as [|[o' y] N IH]; [done|]. rewrite sel_cons. destruct (decide _) as [[Ho Hz]|Hn]; simpl in *.
  - intros [= -> <-]. subst. by exists [], N.
  - intros (N1 & N2 & -> & E & Hz)%IH. exists ((o', y) :: N1), N2. split; [done|]. simpl.
    rewrite sel_cons, decide_False by done. done.
Qed.

Lemma sel_other o z' o' N1 N2 x :
  ~ is_node z' o' (o, x) -> sel z' o' (N1 ++ (o, x) :: N2) = sel z' o' (N1 ++ N2).
Proof. intros Hn. rewrite !sel_app, sel_cons, decide_False; done. Qed.

(** The counters after a removal. *)
Lemma count_pop_rep m N o pa m1 N0 :
  pmm_rep m N0 -> N0 ≡ₚ (o, pa) :: N ->
  g_aOrderCount m1 = g_aOrderCount m -> g_cFramesFree m1 = g_cFramesFree m ->
  g_cFramesFreeLow m1 = g_cFramesFreeLow m -> g_cFramesFreeHigh m1 = g_cFramesFreeHigh m ->
  let m' := count_pop pa (order_pages o) o m1 in
  length (g_aOrderCount m') = S PMM_MAX_ORDER /\
  (forall o' c, g_aOrderCount m' !! o' = Some c -> c = Z.of_nat (countb (fun n => (fst n =? o')%nat) N)) /\
  g_cFramesFree m' = Z.of_nat (length (pages N)) /\
  g_cFramesFreeLow m' = Z.of_nat (countb zone (pages N)) /\
  g_cFramesFreeHigh m' = Z.of_nat (countb (fun x => negb (zone x)) (pages N)).
Proof.
  intros Hr HN E1 E2 E3 E4. cbv zeta. destruct Hr as [Rl Rh Rc Rch Rcount Rfree Rflow Rfhigh Rnodes Rnd Rk].
  assert (node_wf m (o, pa)) as Hn.
  { rewrite HN in Rnodes. by inversion Rnodes. }
  destruct (node_zone m _ Hn) as [Hz1 Hz2]. simpl in Hz1, Hz2.
  pose proof (length_node_pages (o, pa)) as Hl. simpl in Hl. pose proof (pages_of_pos o).
  rewrite (Permutation_length (pages_perm _ _ HN)), pages_cons, length_app in Rfree.
  rewrite (countb_perm _ _ _ (pages_perm _ _ HN)), pages_cons, countb_app, Hz1 in Rflow.
  rewrite (countb_perm _ _ _ (pages_perm _ _ HN)), pages_cons, countb_app, Hz2 in Rfhigh.
  unfold count_pop, sub_floor. cbn [g_aOrderCount g_cFramesFree g_cFramesFreeLow g_cFramesFreeHigh set_counts].
  rewrite E1, E2, E3, E4, order_pages_eq. fold (zone pa). split_and!.
  - by rewrite length_alter.
  - intros o' c Hc. destruct (decide (o = o')) as [->|Hne].
    + rewrite list_lookup_alter_eq in Hc. apply fmap_Some in Hc as (c0 & Hc & ->).
      apply Rcount in Hc as ->. rewrite (countb_perm _ _ _ HN). unfold countb.
      rewrite filter_cons_True by (simpl; apply Nat.eqb_refl). cbn [length]. rewrite (proj2 (Z.ltb_lt _ _)) by lia. lia.
    + rewrite list_lookup_alter_ne in Hc by done. apply Rcount in Hc as ->.
      rewrite (countb_perm _ _ _ HN). unfold countb. rewrite filter_cons_False; [done|].
      simpl. intros Hx. apply Nat.eqb_eq in Hx. congruence.
  - rewrite Rfree. rewrite (proj2 (Z.leb_le _ _)) by lia. lia.
  - destruct (zone pa); rewrite Rflow; [|lia]. rewrite (proj2 (Z.leb_le _ _)) by lia. lia.
  - destruct (zone pa); rewrite Rfhigh; [lia|]. rewrite (proj2 (Z.leb_le _ _)) by lia. lia.
Qed.

(** The first block of a list taken out. *)
Definition pop_mem (o : nat) (z : bool) (pa next : Z) (m : pmm_mem) : pmm_mem :=
  let m1 := set_orders z (<[o := next]> (orders z m)) m in
  count_pop pa (order_pages o) o (set_phys (<[pa := 0]> (pm_phys m1)) m1).

Lemma pop_mem_rep m N1 N2 o pa next :
  pmm_rep m (N1 ++ (o, pa) :: N2) -> sel (zone pa) o (N1 ++ (o, pa) :: N2) = pa :: sel (zone pa) o (N1 ++ N2) ->
  chain (pm_phys m) next (sel (zone pa) o (N1 ++ N2)) -> is_Some (pm_phys m !! pa) ->
  pmm_rep (pop_mem o (zone pa) pa next m) (N1 ++ N2) /\ pstep [pa] m (pop_mem o (zone pa) pa next m).
Proof.
  intros Hr Hsel Hch Hw.
  assert (N1 ++ (o, pa) :: N2 ≡ₚ (o, pa) :: N1 ++ N2) as HN by by rewrite Permutation_middle.
  assert (node_wf m (o, pa) /\ Forall (node_wf m) (N1 ++ N2)) as [Hn HF].
  { pose proof (pr_nodes _ _ Hr) as H. rewrite HN in H. by inversion H. }
  assert (page_ok m pa) as Hpa.
  { destruct Hn as (_ & _ & H). rewrite Forall_forall in H. apply H, (node_head_page (o, pa)). }
  assert (pstep [pa] m (pop_mem o (zone pa) pa next m)) as Hs.
  { apply pstep_counts.
    change (pstep [pa] m (set_orders (zone pa) (<[o := next]> (orders (zone pa) m)) (set_phys (<[pa := 0]> (pm_phys m)) m))).
    apply pstep_orders, pstep_word; apply Hpa. }
  assert (NoDup (node_pages (o, pa) ++ pages (N1 ++ N2))) as Hd.
  { pose proof (pr_nodup _ _ Hr) as H. by rewrite (pages_perm _ _ HN), pages_cons in H. }
  assert (forall z o, pa ∉ sel z o (N1 ++ N2)) as Hnew.
  { intros z1 o1 Hin. apply sel_pages in Hin. apply NoDup_app in Hd as (_ & Hd & _).
    apply (Hd pa); [apply (node_head_page (o, pa))|done]. }
  split; [|done]. pose (m1 := set_orders (zone pa) (<[o := next]> (orders (zone pa) m)) m).
  destruct (count_pop_rep m (N1 ++ N2) o pa (set_phys (<[pa := 0]> (pm_phys m1)) m1) _ Hr HN)
    as (C1 & C2 & C3 & C4 & C5); [done..|].
  split; try done.
  - simpl. destruct (zone pa); rewrite ?length_insert; apply Hr.
  - simpl. destruct (zone pa); rewrite ?length_insert; apply Hr.
  - intros z o' h' E. change (pm_phys (pop_mem o (zone pa) pa next m)) with (<[pa := 0]> (pm_phys m)).
    change (orders z (pop_mem o (zone pa) pa next m)) with
      (orders z (set_orders (zone pa) (<[o := next]> (orders (zone pa) m)) m)) in E.
    apply chain_store; [done|]. destruct (decide (zone pa = z)) as [<-|Hz].
    + rewrite orders_set_eq in E. apply list_lookup_insert_Some in E as [(-> & <- & _)|[Hne E]]; [done|].
      apply (pr_chain _ _ Hr) in E. rewrite sel_other in E; [done|]. intros [? _]. simpl in *. congruence.
    + rewrite orders_set_ne in E by done. apply (pr_chain _ _ Hr) in E. rewrite sel_other in E; [done|].
      intros [_ ?]. simpl in *. congruence.
  - eapply Forall_impl; [done|]. intros n. by apply node_wf_step with [pa].
  - by apply NoDup_app in Hd as (_ & _ & ?).
  - apply Hr.
Qed.

(** What a removal returns: nothing from an empty list, else its first block. *)
Definition pop_post (z : bool) (o : nat) (N : list (nat * Z)) (m : pmm_mem) (pa : Z) (m' : pmm_mem) : Prop :=
  (pa = 0 /\ m' = m /\ sel z o N = []) \/
  (exists N1 N2, N = N1 ++ (o, pa) :: N2 /\ zone pa = z /\ node_wf m (o, pa) /\
     pmm_rep m' (N1 ++ N2) /\ pstep [pa] m m').

Lemma wp_pop_order_from m N o z :
  pmm_rep m N -> (o <= PMM_MAX_ORDER)%nat -> wp (pop_order_from o z) (pop_post z o N m) m.
Proof.
  intros Hr Ho. unfold pop_order_from. rewrite (proj2 (Nat.ltb_ge _ _)) by done.
  destruct (orders_lookup z o m N Hr Ho) as [h Eh]. unfold ld_head. wsteps. rewrite Eh. wsteps.
  pose proof (pr_chain _ _ Hr _ _ _ Eh) as Hch. destruct (sel z o N) as [|x l] eqn:Es; simpl in Hch.
  { subst h. simpl. wsteps. by left. }
  destruct Hch as (-> & next & Ew & Hch).
  destruct (sel_head z o N x l Es) as (N1 & N2 & -> & El & Hz).
  assert (node_wf m (o, x)) as Hn.
  { pose proof (pr_nodes _ _ Hr) as H. apply Forall_app in H as [_ H]. by inversion H. }
  assert (page_ok m x) as Hpa.
  { destruct Hn as (_ & _ & H). rewrite Forall_forall in H. apply H, (node_head_page (o, x)). }
  pose proof (page_ok_bounds m x Hpa) as [Hlo _].
  rewrite (proj2 (Z.eqb_neq _ _)) by lia. simpl. destruct Hn as (Ho' & Hx & HF).
  rewrite (proj2 (order_aligned_spec x o Ho) Hx). simpl.
  assert ((if z then PMM_LOW_MAX <=? x else x <? PMM_LOW_MAX) = false) as ->.
  { unfold zone in Hz. destruct z; [apply Z.leb_gt; apply Z.ltb_lt in Hz; lia|done]. }
  wsteps. unfold pa_to_ptr. destruct ((PMM_LOW_MAX <=? x) && negb (pm_hhdm m)) eqn:Ep.
  { apply andb_true_iff in Ep as [Ep1 Ep2]. destruct (pk_reach _ _ Hpa) as [Hz'|Hh].
    - unfold zone in Hz'. apply Z.leb_le in Ep1. apply Z.ltb_lt in Hz'. lia.
    - by rewrite Hh in Ep2. }
  unfold ld_word, st_head, st_word. wsteps. rewrite Ew. wsteps. cbn [pm_phys set_orders]. rewrite Ew. wsteps.
  right. exists N1, N2. split_and!; [done|done|done|..].
  all: subst z l; edestruct (pop_mem_rep m N1 N2 o x next); eauto.
Qed.

(** ** Splitting *)
Lemma node_pages_halves o x :
  node_pages (S o, x) = node_pages (o, x) ++ node_pages (o, x + pages_of o * GJ_PAGE_SIZE).
Proof. unfold node_pages. simpl. pose proof (pages_of_pos o). rewrite pages_of_S, run_split by lia. done. Qed.

Lemma node_wf_halves m o x :
  node_wf m (S o, x) -> node_wf m (o, x) /\ node_wf m (o, x + pages_of o * GJ_PAGE_SIZE).
Proof.
  intros (Ho & Hx & HF). simpl in Ho, Hx. rewrite node_pages_halves in HF. apply Forall_app in HF as [HF1 HF2].
  assert (x mod block_bytes o = 0) as Hx'.
  { pose proof (pages_of_pos o). unfold block_bytes in *. rewrite pages_of_S in Hx.
    apply Z.mod_divide in Hx; [|unfold GJ_PAGE_SIZE; lia]. apply Z.mod_divide; [unfold GJ_PAGE_SIZE; lia|].
    destruct Hx as [k ->]. exists (k * 2). lia. }
  split; (split_and!; [simpl; lia| |done]); simpl; [done|].
  fold (block_bytes o). pose proof (pages_of_pos o).
  rewrite <-(Z.mul_1_l (block_bytes o)) at 1. rewrite Z.mod_add; [done|]. unfold block_bytes, GJ_PAGE_SIZE. lia.
Qed.

Lemma node_bounds m o x : node_wf m (o, x) -> 1048576 <= x /\ x + block_bytes o <= PA_MAX.
Proof.
  intros (Ho & Hx & HF). rewrite Forall_forall in HF. pose proof (pages_of_pos o).
  pose proof (page_ok_bounds m x (HF x (node_head_page (o, x)))).
  assert (x + (pages_of o - 1) * GJ_PAGE_SIZE ∈ node_pages (o, x)) as Hl.
  { apply elem_of_run. exists (pages_of o - 1). simpl. lia. }
  pose proof (page_ok_bounds m _ (HF _ Hl)). unfold block_bytes. lia.
Qed.

Lemma wp_split_down k m N pa want :
  pmm_rep m N -> node_wf m ((want + k)%nat, pa) -> NoDup (node_pages ((want + k)%nat, pa) ++ pages N) ->
  wp (split_down pa want k) (fun _ m' => exists N', pmm_rep m' N' /\
    node_pages (want, pa) ++ pages N' ≡ₚ node_pages ((want + k)%nat, pa) ++ pages N /\
    node_wf m (want, pa) /\ pstep (node_pages ((want + k)%nat, pa)) m m') m.
Proof.
  revert m N. induction k as [|k IH]; intros m N Hr Hn Hd.
  { rewrite Nat.add_0_r in *. cbn [split_down]. wsteps. exists N. split_and!; try done. }
  cbn [split_down]. replace (want + S k)%nat with (S (want + k)) in * by lia.
  pose proof (node_wf_halves m _ _ Hn) as [Hn1 Hn2]. pose proof (node_bounds m _ _ Hn) as [Hb1 Hb2].
  set (o := (want + k)%nat) in *. pose proof (pages_of_pos o) as Hp.
  rewrite order_pages_eq, u64_add_small.
  2:{ unfold block_bytes, PA_MAX in Hb2. rewrite pages_of_S in Hb2. unfold GJ_PAGE_SIZE in *. lia. }
  rewrite node_pages_halves in Hd |- *. rewrite <-app_assoc in Hd.
  apply wp_bind. eapply wp_mono.
  { apply (wp_push_body push_free m N); [done|done|]. by apply NoDup_app in Hd as (_ & _ & ?). }
  cbn beta. intros _ m1 [Hr1 Hs1]. eapply wp_mono.
  { apply (IH m1 _ Hr1); [by eapply node_wf_step|]. by rewrite pages_cons. }
  cbn beta. intros _ m' (N' & Hr' & Hp' & Hn' & Hs').
  exists N'. split_and!; [done| | |].
  - rewrite Hp', pages_cons. by rewrite (app_assoc (node_pages (o, pa))).
  - destruct Hn' as (? & ? & ?). split_and!; [done|done|].
    destruct Hn1 as (_ & _ & HF). apply Forall_forall. intros p Hpp. rewrite Forall_forall in HF. apply HF.
    unfold node_pages in *. simpl in *. apply elem_of_run in Hpp as (i & Hi & ->). apply elem_of_run.
    exists i. split; [|done]. assert (pages_of want <= pages_of o); [|lia].
    unfold pages_of, o. apply Z.pow_le_mono_r; lia.
  - eapply pstep_trans; [..|exact Hs1|exact Hs']; [|set_solver].
    intros x Hx. apply elem_of_app. right. apply list_elem_of_singleton in Hx as ->. apply (node_head_page (o, _)).
Qed.

Definition split_post (z : bool) (want : nat) (N : list (nat * Z)) (m : pmm_mem) (pa : Z) (m' : pmm_mem) : Prop :=
  (pa = 0 /\ m' = m /\ forall o, (want <= o <= PMM_MAX_ORDER)%nat -> sel z o N = []) \/
  (exists N', zone pa = z /\ node_wf m (want, pa) /\ pages N ≡ₚ node_pages (want, pa) ++ pages N' /\
     pmm_rep m' N' /\ pstep (pages N) m m').

(** A block of order [o] taken off and split down to order [want]. *)
Lemma pages_pop N1 N2 o x : pages (N1 ++ (o, x) :: N2) ≡ₚ node_pages (o, x) ++ pages (N1 ++ N2).
Proof. rewrite !pages_app, pages_cons. by rewrite Permutation_app_swap_app. Qed.

Lemma wp_split_scan k m N want z o :
  pmm_rep m N -> (want < o)%nat -> (o + k = S PMM_MAX_ORDER)%nat ->
  (forall o', (want <= o' < o)%nat -> sel z o' N = []) ->
  wp (split_scan want z k o) (split_post z want N m) m.
Proof.
  revert o. induction k as [|k IH]; intros o Hr Hw Hk Hno; cbn [split_scan].
  { wsteps. left. split_and!; [done|done|]. intros o' Ho'. apply Hno. lia. }
  apply wp_bind. eapply wp_mono; [apply (wp_pop_order_from m N o z Hr); lia|].
  intros pa m1 [(-> & -> & Hs)|(N1 & N2 & HN & Hz & Hn & Hr1 & Hs1)].
  { simpl. apply IH; [done|lia|lia|]. intros o' Ho'. destruct (decide (o' = o)) as [->|]; [done|]. apply Hno. lia. }
  pose proof (node_bounds m _ _ Hn) as [Hb _]. rewrite (proj2 (Z.eqb_neq _ _)) by lia. wstep. wstep.
  assert (pages N ≡ₚ node_pages (o, pa) ++ pages (N1 ++ N2)) as HP by (subst N; apply pages_pop).
  assert (o = want + (o - want))%nat as Eo by lia. rewrite Eo in HP, Hn.
  apply wp_bind. eapply wp_mono.
  { apply (wp_split_down (o - want) m1 (N1 ++ N2) pa want Hr1); [by eapply node_wf_step|].
    rewrite <-HP. apply Hr. }
  cbn beta. intros _ m' (N' & Hr' & HP' & Hn' & Hs'). wsteps. right. exists N'. split_and!; [done| | |done|].
  - destruct Hn as (? & ? & HF). destruct Hn' as (? & ? & _). split_and!; [done|done|].
    apply Forall_forall. intros p Hp. apply (pages_ok m N); [apply Hr|]. rewrite HP.
    rewrite <-HP'. set_solver.
  - rewrite HP, <-HP'. done.
  - eapply pstep_trans; [..|exact Hs1|exact Hs'].
    + intros x Hx. apply list_elem_of_singleton in Hx as ->. rewrite HP. apply elem_of_app. left.
      apply (node_head_page (_, pa)).
    + intros x Hx. rewrite HP. set_solver.
Qed.

Lemma wp_pop_split_zone m N want z :
  pmm_rep m N -> (want <= PMM_MAX_ORDER)%nat -> wp (pop_split_zone want z) (split_post z want N m) m.
Proof.
  intros Hr Hw. unfold pop_split_zone. apply wp_bind.
  eapply wp_mono; [by apply (wp_pop_order_from m N want z Hr)|].
  intros pa m1 [(-> & -> & Hs)|(N1 & N2 & HN & Hz & Hn & Hr1 & Hs1)].
  { simpl. apply wp_split_scan; [done|lia|lia|]. intros o' Ho'. by replace o' with want by lia. }
  pose proof (node_bounds m _ _ Hn) as [Hb _]. rewrite (proj2 (Z.eqb_neq _ _)) by lia. simpl. wsteps.
  right. exists (N1 ++ N2). assert (pages N ≡ₚ node_pages (want, pa) ++ pages (N1 ++ N2)) as HP
    by (subst N; apply pages_pop).
  split_and!; try done. eapply pstep_mono; [|done]. intros x Hx. apply list_elem_of_singleton in Hx as ->.
  rewrite HP. apply elem_of_app. left. apply (node_head_page (_, pa)).
Qed.

(** * The page allocator against its set of free pages: [pmm_ok m F] says that
    the allocator's memory is well formed and that exactly the pages [F] are
    free; each operation changes [F] as its contract says. *)

Definition pmm_ok (m : pmm_mem) (F : list Z) : Prop := exists N, pmm_rep m N /\ F ≡ₚ pages N.

Lemma pmm_ok_perm m F F' : F ≡ₚ F' -> pmm_ok m F -> pmm_ok m F'.
Proof. intros HF (N & Hr & HN). exists N. by rewrite <-HF. Qed.

#[export] Instance pmm_ok_proper m : Proper ((≡ₚ) ==> iff) (pmm_ok m).
Proof. intros F F' HF. split; apply pmm_ok_perm; [done|by symmetry]. Qed.

Lemma pmm_ok_nodup m F : pmm_ok m F -> NoDup F.
Proof. intros (N & Hr & ->). apply Hr. Qed.

Lemma pmm_ok_page m F x : pmm_ok m F -> x ∈ F -> page_ok m x.
Proof. intros (N & Hr & ->). apply pages_ok, Hr. Qed.

Lemma pmm_ok_pages m F : pmm_ok m F -> Forall (page_ok m) F.
Proof. intros H. apply Forall_forall. eauto using pmm_ok_page. Qed.

Lemma pmm_ok_free m F : pmm_ok m F -> g_cFramesFree m = Z.of_nat (length F).
Proof. intros (N & Hr & HN). rewrite (Permutation_length HN). apply Hr. Qed.

Lemma pmm_ok_low m F : pmm_ok m F -> g_cFramesFreeLow m = Z.of_nat (countb zone F).
Proof. intros (N & Hr & HN). rewrite (countb_perm _ _ _ HN). apply Hr. Qed.

Lemma pmm_ok_high m F : pmm_ok m F -> g_cFramesFreeHigh m = Z.of_nat (countb (fun x => negb (zone x)) F).
Proof. intros (N & Hr & HN). rewrite (countb_perm _ _ _ HN). apply Hr. Qed.

Lemma pmm_ok_ker m F : pmm_ok m F -> fst (g_paKernel m) < snd (g_paKernel m).
Proof. intros (N & Hr & _). apply Hr. Qed.

(** ** Release *)
Lemma wp_push_block single m F o pa :
  pmm_ok m F -> node_wf m (o, pa) -> NoDup (node_pages (o, pa) ++ F) ->
  wp (push_order_body single pa o) (fun _ m' => pmm_ok m' (node_pages (o, pa) ++ F) /\ pstep (node_pages (o, pa)) m m') m.
Proof.
  intros (N & Hr & HN) Hn Hd. rewrite HN in Hd.
  eapply wp_mono; [by apply wp_push_body|]. intros _ m' [Hr' Hs]. split.
  - exists ((o, pa) :: N). split; [done|]. by rewrite pages_cons, HN.
  - eapply pstep_mono; [|done]. intros x Hx. apply list_elem_of_singleton in Hx as ->. apply (node_head_page (o, pa)).
Qed.

Lemma node_pages_0 pa : node_pages (0%nat, pa) = [pa].
Proof. apply run_one. Qed.

Lemma node_wf_0 m pa : page_ok m pa -> node_wf m (0%nat, pa).
Proof.
  intros Hp. split_and!; [simpl; lia|apply Hp|]. rewrite node_pages_0. by constructor.
Qed.

Lemma wp_push_free m F pa :
  pmm_ok m F -> page_ok m pa -> pa ∉ F ->
  wp (push_free pa) (fun _ m' => pmm_ok m' (pa :: F) /\ pstep [pa] m m') m.
Proof.
  intros Hok Hp Hin. pose proof (wp_push_block (fun _ => pret tt) m F 0 pa Hok (node_wf_0 m pa Hp)) as H.
  rewrite node_pages_0 in H. apply H. apply NoDup_cons. split; [done|]. by eapply pmm_ok_nodup.
Qed.

Lemma Forall_page_step P m m' l : pstep P m m' -> Forall (page_ok m) l -> Forall (page_ok m') l.
Proof. intros Hs H. eapply Forall_impl; [done|]. intros x. by apply page_ok_step with P. Qed.

Lemma wp_push_list l m F :
  pmm_ok m F -> Forall (page_ok m) l -> NoDup (l ++ F) ->
  wp (push_list l) (fun _ m' => pmm_ok m' (l ++ F) /\ pstep l m m') m.
Proof.
  revert m F. induction l as [|pa l IH]; intros m F Hok Hl Hd; cbn [push_list].
  { wsteps. split; [done|apply pstep_refl]. }
  inversion Hl as [|? ? Hp Hl']; subst. simpl in Hd. apply NoDup_cons in Hd as [Hin Hd].
  apply wp_bind. eapply wp_mono; [apply wp_push_free; [done|done|set_solver]|].
  cbn beta. intros _ m1 [Hok1 Hs1]. eapply wp_mono.
  { apply (IH m1 (pa :: F)); [done|by eapply Forall_page_step|].
    rewrite <-Permutation_middle. apply NoDup_cons. done. }
  cbn beta. intros _ m' [Hok' Hs']. split.
  - rewrite <-Permutation_middle in Hok'. done.
  - eapply pstep_trans; [..|exact Hs1|exact Hs']; set_solver.
Qed.

Lemma wp_push_run n m F pa i :
  pmm_ok m F -> 0 <= i -> 0 <= pa -> Forall (page_ok m) (run (pa + i * GJ_PAGE_SIZE) (Z.of_nat n)) ->
  NoDup (run (pa + i * GJ_PAGE_SIZE) (Z.of_nat n) ++ F) ->
  wp (push_run push_free pa n i) (fun _ m' => pmm_ok m' (run (pa + i * GJ_PAGE_SIZE) (Z.of_nat n) ++ F) /\
    pstep (run (pa + i * GJ_PAGE_SIZE) (Z.of_nat n)) m m') m.
Proof.
  revert m F i. induction n as [|n IH]; intros m F i Hok Hi Hpa Hl Hd; cbn [push_run].
  { wsteps. split; [done|apply pstep_refl]. }
  rewrite Nat2Z.inj_succ, <-Z.add_1_r, run_S in Hl, Hd |- * by lia.
  replace (pa + i * GJ_PAGE_SIZE + GJ_PAGE_SIZE) with (pa + (i + 1) * GJ_PAGE_SIZE) in * by lia.
  inversion Hl as [|? ? Hp Hl']; subst. simpl in Hd. apply NoDup_cons in Hd as [Hin Hd].
  pose proof (page_ok_bounds _ _ Hp). unfold PA_MAX in *.
  rewrite u64_add_small by (unfold GJ_PAGE_SIZE in *; lia).
  apply wp_bind. eapply wp_mono; [apply wp_push_free; [done|done|set_solver]|].
  cbn beta. intros _ m1 [Hok1 Hs1]. eapply wp_mono.
  { apply (IH m1 (pa + i * GJ_PAGE_SIZE :: F)); [done|lia|done|by eapply Forall_page_step|].
    rewrite <-Permutation_middle. apply NoDup_cons. done. }
  cbn beta. intros _ m' [Hok' Hs']. split.
  - rewrite <-Permutation_middle in Hok'. done.
  - eapply pstep_trans; [..|exact Hs1|exact Hs']; set_solver.
Qed.

(** A block of [2^o] pages that need not be aligned. *)
Lemma wp_push_order m F o pa :
  pmm_ok m F -> (o <= PMM_MAX_ORDER)%nat -> Forall (page_ok m) (run pa (pages_of o)) -> NoDup (run pa (pages_of o) ++ F) ->
  wp (push_order pa o) (fun _ m' => pmm_ok m' (run pa (pages_of o) ++ F) /\ pstep (run pa (pages_of o)) m m') m.
Proof.
  intros Hok Ho HF Hd. unfold push_order.
  destruct (decide (pa mod block_bytes o = 0)) as [Ha|Ha].
  { apply (wp_push_block push_free m F o pa); done. }
  assert (page_ok m pa) as Hpa.
  { rewrite Forall_forall in HF. apply HF, (node_head_page (o, pa)). }
  pose proof (page_ok_bounds m pa Hpa) as [Hlo _]. unfold push_order_body.
  rewrite (proj2 (Z.eqb_neq _ _)) by lia. rewrite (proj2 (page_aligned_spec pa)) by apply Hpa. simpl.
  rewrite (proj2 (Nat.ltb_ge _ _)) by done.
  destruct (order_aligned pa o) eqn:Eo; [by apply order_aligned_spec in Eo|].
  destruct o as [|o]; [by destruct Ha; apply Hpa|]. simpl. rewrite order_pages_eq.
  pose proof (pages_of_pos (S o)).
  pose proof (wp_push_run (Z.to_nat (pages_of (S o))) m F pa 0 Hok) as H'.
  rewrite Z2Nat.id, Z.mul_0_l, Z.add_0_r in H' by lia. apply H'; [lia|lia|done|done].
Qed.

Lemma pages_loop_le c n k o : (pages_loop c n k o <= o + k)%nat.
Proof. revert n o. induction k as [|k IH]; intros n o; simpl; [lia|]. destruct (n <? c); [|lia]. specialize (IH (n * 2) (S o)). lia. Qed.

Lemma pages_to_order_max c : (pages_to_order c <= PMM_MAX_ORDER)%nat.
Proof. unfold pages_to_order. destruct (c =? 0); [lia|]. pose proof (pages_loop_le c 1 PMM_MAX_ORDER 0). lia. Qed.

Lemma wp_pmm_free_pages m F pa c :
  pmm_ok m F -> 0 <= c -> Forall (page_ok m) (run pa c) -> NoDup (run pa c ++ F) ->
  wp (pmm_free_pages pa c) (fun _ m' => pmm_ok m' (run pa c ++ F) /\ pstep (run pa c) m m') m.
Proof.
  intros Hok Hc HF Hd. unfold pmm_free_pages. destruct (Z.eqb_spec c 0) as [->|Hc0].
  { simpl. wsteps. split; [done|apply pstep_refl]. }
  assert (page_ok m pa) as Hpa.
  { rewrite Forall_forall in HF. apply HF, elem_of_run. exists 0. lia. }
  pose proof (page_ok_bounds m pa Hpa) as [Hlo _]. rewrite (proj2 (Z.eqb_neq pa _)) by lia.
  rewrite (proj2 (page_aligned_spec pa)) by apply Hpa. simpl. rewrite order_pages_eq.
  destruct ((pages_of (pages_to_order c) =? c) && _ && _) eqn:Eb.
  - apply andb_true_iff in Eb as [Eb _]. apply andb_true_iff in Eb as [Eb _]. apply Z.eqb_eq in Eb.
    rewrite <-Eb in *. rewrite Eb at 1. apply wp_push_order; try done. apply pages_to_order_max.
  - pose proof (wp_push_run (Z.to_nat c) m F pa 0 Hok) as H'.
    rewrite Z2Nat.id, Z.mul_0_l, Z.add_0_r in H' by lia. apply H'; [lia|lia|done|done].
Qed.

(** ** Allocation *)

(** [n] pages from [pa] on have been taken from the free pages [F]. *)
Definition got (F : list Z) (n pa : Z) (m m' : pmm_mem) : Prop :=
  pa <> 0 /\ exists F', F ≡ₚ run pa n ++ F' /\ pmm_ok m' F' /\ pstep F m m'.

Lemma zone_pages m N z x :
  Forall (node_wf m) N -> x ∈ pages N -> zone x = z -> exists o, (o <= PMM_MAX_ORDER)%nat /\ sel z o N <> [].
Proof.
  intros HF Hx Hz. unfold pages in Hx. apply list_elem_of_bind in Hx as ([o y] & Hx & Hn).
  rewrite Forall_forall in HF. destruct (HF _ Hn) as (Ho & Ha & _). simpl in Ho, Ha.
  exists o. split; [done|]. intros E. assert (y ∈ sel z o N) as Hy.
  { apply elem_of_sel. split; [done|]. rewrite <-Hz. symmetry. by apply (zone_run y o x). }
  rewrite E in Hy. by apply elem_of_nil in Hy.
Qed.

(** The result of taking a block of order [o] from a zone. *)
Definition zone_post (z : bool) (o : nat) (F : list Z) (m : pmm_mem) (pa : Z) (m' : pmm_mem) : Prop :=
  (pa = 0 /\ m' = m /\ (o = 0%nat -> Forall (fun x => zone x = negb z) F)) \/
  (got F (pages_of o) pa m m' /\ zone pa = z /\ pa mod block_bytes o = 0).

Lemma wp_pop_zone m F o z :
  pmm_ok m F -> (o <= PMM_MAX_ORDER)%nat -> wp (pop_split_zone o z) (zone_post z o F m) m.
Proof.
  intros (N & Hr & HN) Ho. eapply wp_mono; [by apply (wp_pop_split_zone m N)|].
  intros pa m' [(-> & -> & Hno)|(N' & Hz & Hn & HP & Hr' & Hs)].
  - left. split_and!; [done|done|]. intros ->. apply Forall_forall. intros x Hx. rewrite HN in Hx.
    destruct (zone x) eqn:E, z; try done; exfalso.
    + destruct (zone_pages m N true x (pr_nodes _ _ Hr) Hx E) as (o & Ho' & Hs). apply Hs, Hno. lia.
    + destruct (zone_pages m N false x (pr_nodes _ _ Hr) Hx E) as (o & Ho' & Hs). apply Hs, Hno. lia.
  - right. pose proof (node_bounds m _ _ Hn) as [Hb _]. split_and!; [|done|apply Hn]. split; [lia|].
    exists (pages N'). split_and!; [by rewrite HN, HP|by exists N'|].
    eapply pstep_mono; [|done]. intros x Hx. by rewrite HN.
Qed.

(** A block of order [o] from the low zone if there is one, else from the high. *)
Definition split_alloc_post (o : nat) (F : list Z) (m : pmm_mem) (pa : Z) (m' : pmm_mem) : Prop :=
  (pa = 0 /\ m' = m /\ (o = 0%nat -> F = [])) \/
  (got F (pages_of o) pa m m' /\ pa mod block_bytes o = 0 /\
   (o = 0%nat -> zone pa = true \/ Forall (fun x => zone x = false) F)).

Lemma wp_pop_order_split m F o :
  pmm_ok m F -> (o <= PMM_MAX_ORDER)%nat -> wp (pop_order_split o) (split_alloc_post o F m) m.
Proof.
  intros Hok Ho. unfold pop_order_split. rewrite (proj2 (Nat.ltb_ge _ _)) by done.
  apply wp_bind. eapply wp_mono; [by apply (wp_pop_zone m F o true)|].
  intros pa m1 [(-> & -> & Hl)|(Hg & Hz & Ha)].
  2:{ destruct (Hg) as [Hne _]. rewrite (proj2 (Z.eqb_neq _ _) Hne). simpl. wsteps. right.
      split_and!; [done|done|by left]. }
  simpl. apply wp_bind. eapply wp_mono; [by apply (wp_pop_zone m F o false)|].
  intros pa m2 [(-> & -> & Hh)|(Hg & Hz & Ha)].
  - simpl. wsteps. left. split_and!; [done|done|]. intros Eo. specialize (Hl Eo). specialize (Hh Eo).
    destruct F as [|x F]; [done|]. inversion Hl. inversion Hh. simpl in *. congruence.
  - destruct (Hg) as [Hne _]. rewrite (proj2 (Z.eqb_neq _ _) Hne). simpl. wsteps. right.
    split_and!; [done|done|]. intros Eo. right. by apply Hl.
Qed.

(** One page: refused exactly when no page is free, high only when no low page
    is free. *)
Definition alloc_post (F : list Z) (m : pmm_mem) (pa : Z) (m' : pmm_mem) : Prop :=
  (pa = 0 /\ m' = m /\ F = []) \/
  (got F 1 pa m m' /\ (zone pa = true \/ Forall (fun x => zone x = false) F)).

Lemma wp_pmm_alloc m F : pmm_ok m F -> wp pmm_alloc (alloc_post F m) m.
Proof.
  intros Hok. eapply wp_mono; [apply (wp_pop_order_split m F 0 Hok); lia|].
  intros pa m' [(-> & -> & H)|(Hg & _ & H)]; [left|right]; auto.
Qed.

Lemma got_1 F pa m m' : got F 1 pa m m' -> exists F', F ≡ₚ pa :: F' /\ pmm_ok m' F' /\ pstep F m m'.
Proof. intros (_ & F' & HF & H). rewrite run_one in HF. by exists F'. Qed.

(** One low page. *)
Definition low_post (F : list Z) (m : pmm_mem) (pa : Z) (m' : pmm_mem) : Prop :=
  (pa = 0 /\ m' = m /\ Forall (fun x => zone x = false) F) \/ (got F 1 pa m m' /\ zone pa = true).

Lemma got_page F n pa m m' : pmm_ok m F -> 0 < n -> got F n pa m m' -> Forall (page_ok m) (run pa n).
Proof.
  intros Hok Hn (_ & F' & HF & _). apply Forall_forall. intros x Hx. eapply pmm_ok_page; [done|].
  rewrite HF. set_solver.
Qed.

Lemma got_head F n pa m m' : pmm_ok m F -> 0 < n -> got F n pa m m' -> page_ok m pa.
Proof.
  intros Hok Hn Hg. pose proof (got_page F n pa m m' Hok Hn Hg) as H. rewrite Forall_forall in H.
  apply H, elem_of_run. exists 0. lia.
Qed.

Definition low_block_post (o : nat) (F : list Z) (m : pmm_mem) (pa : Z) (m' : pmm_mem) : Prop :=
  (pa = 0 /\ m' = m /\ (o = 0%nat -> Forall (fun x => zone x = false) F)) \/
  (got F (pages_of o) pa m m' /\ pa + block_bytes o <= PMM_LOW_MAX /\ pa mod block_bytes o = 0).

Lemma wp_pop_order_low_only m F o :
  pmm_ok m F -> (o <= PMM_MAX_ORDER)%nat -> wp (pop_order_low_only o) (low_block_post o F m) m.
Proof.
  intros Hok Ho. unfold pop_order_low_only. rewrite (proj2 (Nat.ltb_ge _ _)) by done.
  apply wp_bind. eapply wp_mono; [by apply (wp_pop_zone m F o true)|].
  intros pa m1 [(-> & -> & Hl)|(Hg & Hz & Ha)].
  { simpl. wsteps. left. auto. }
  pose proof (pages_of_pos o). pose proof (got_head F (pages_of o) pa m m1 Hok ltac:(lia) Hg) as Hp.
  pose proof (page_ok_bounds _ _ Hp) as [Hlo _]. pose proof (zone_block pa o Ho Ha Hz) as Hb.
  pose proof (proj1 (Z.ltb_lt _ _) Hz) as Hzl. unfold PMM_LOW_MAX, block_bytes in Hb, Hzl. assert (0 <= pages_of o * GJ_PAGE_SIZE) by (unfold GJ_PAGE_SIZE; lia).
  rewrite (proj2 (Z.eqb_neq _ _)) by lia. rewrite order_pages_eq, u64_add_small by lia.
  rewrite (proj2 (Z.leb_gt _ _)), (proj2 (Z.ltb_ge _ _)) by (unfold PMM_LOW_MAX; lia). simpl. wsteps.
  right. split_and!; [done|unfold block_bytes, PMM_LOW_MAX; lia|done].
Qed.

Lemma wp_tick_sat64 c Q m : Q tt m -> wp (tick_sat64 c) Q m.
Proof. intros H. apply wp_bind, wp_tel. intros t. case_match; [by apply wp_tel_put|by apply wp_ret]. Qed.

Ltac wstep_hook ::=
  lazymatch goal with
  | |- wp (tick_sat64 _) _ _ => apply wp_tick_sat64
  end.

Lemma wp_pmm_alloc_low m F : pmm_ok m F -> wp pmm_alloc_low (low_post F m) m.
Proof.
  intros Hok. unfold pmm_alloc_low. apply wp_bind.
  eapply wp_mono; [apply (wp_pop_order_low_only m F 0 Hok); lia|].
  intros pa m1 [(-> & -> & Hl)|(Hg & Hb & Ha)].
  { simpl. wsteps. left. auto. }
  pose proof (got_head F (pages_of 0) pa m m1 Hok ltac:(done) Hg) as Hp. pose proof (page_ok_bounds _ _ Hp) as [Hlo _].
  rewrite (proj2 (Z.eqb_neq _ _)) by lia. simpl.
  assert (zone pa = true) as Hz.
  { unfold zone. apply Z.ltb_lt. change (block_bytes 0) with 4096 in Hb. lia. }
  pose proof Hz as Hz'. unfold zone in Hz'. rewrite Z.leb_antisym, Hz'.
  rewrite (proj2 (page_aligned_spec pa)) by apply Hp. simpl. wsteps. by right.
Qed.

Lemma count_pop_high m x :
  zone x = false -> 0 <= g_cFramesFree m -> 0 <= g_cFramesFreeHigh m ->
  set_counts (alter (fun c => if 0 <? c then c - 1 else c) 0%nat (g_aOrderCount m))
    (if 0 <? g_cFramesFree m then g_cFramesFree m - 1 else g_cFramesFree m) (g_cFramesFreeLow m)
    (if 0 <? g_cFramesFreeHigh m then g_cFramesFreeHigh m - 1 else g_cFramesFreeHigh m) m =
  count_pop x (order_pages 0) 0 m.
Proof.
  assert (forall c, 0 <= c -> (if 0 <? c then c - 1 else c) = sub_floor c 1) as E.
  { intros c Hc. unfold sub_floor. destruct (Z.ltb_spec 0 c), (Z.leb_spec 1 c); lia. }
  intros Hz H1 H2. unfold count_pop. fold (zone x). rewrite Hz. change (order_pages 0) with 1. by rewrite !E.
Qed.

(** A high page if a single one is listed, else as [pmm_alloc]. *)
Lemma wp_pmm_alloc_high m F :
  pmm_ok m F -> wp pmm_alloc_high (fun pa m' => (pa = 0 /\ m' = m /\ F = []) \/ got F 1 pa m m') m.
Proof.
  intros (N & Hr & HN). assert (pmm_ok m F) as Hok by by exists N.
  assert (wp pop_free (fun pa m' => (pa = 0 /\ m' = m /\ F = []) \/ got F 1 pa m m') m) as Hpop.
  { eapply wp_mono; [by apply wp_pmm_alloc|]. intros pa m' [H|[H _]]; auto. }
  unfold pmm_alloc_high, ld_head. destruct (orders_lookup false 0 m N Hr) as [h Eh]; [lia|].
  wsteps. rewrite Eh. wsteps. pose proof (pr_chain _ _ Hr _ _ _ Eh) as Hch.
  destruct (sel false 0 N) as [|x l] eqn:Es; simpl in Hch.
  { subst h. done. }
  destruct Hch as (-> & next & Ew & Hch).
  destruct (sel_head false 0 N x l Es) as (N1 & N2 & -> & El & Hz).
  assert (page_ok m x) as Hp.
  { apply (pages_ok m _ x (pr_nodes _ _ Hr)). rewrite pages_pop, node_pages_0. set_solver. }
  pose proof (page_ok_bounds m x Hp) as [Hlo _]. rewrite (proj2 (Z.eqb_neq _ _)) by lia.
  rewrite (proj2 (order_aligned_spec x 0 ltac:(lia))) by apply Hp. simpl. wsteps.
  unfold pa_to_ptr. assert (pm_hhdm m = true) as -> by (destruct (pk_reach _ _ Hp); [congruence|done]).
  rewrite andb_false_r. unfold ld_word, st_head, st_word. wsteps. rewrite Ew. wsteps.
  cbn [pm_phys set_orders]. rewrite Ew. wsteps. right. split; [lia|].
  destruct (pop_mem_rep m N1 N2 0 x next Hr) as [Hr' Hs']; [by rewrite Hz, Es, El|by rewrite Hz, El|done|].
  rewrite Hz in Hr', Hs'. rewrite (count_pop_high _ x); [|done|..].
  2:{ simpl. rewrite (pr_free _ _ Hr). lia. }
  2:{ simpl. rewrite (pr_fhigh _ _ Hr). lia. }
  exists (pages (N1 ++ N2)). rewrite run_one. split_and!.
  - by rewrite HN, pages_pop, node_pages_0.
  - by exists (N1 ++ N2).
  - eapply pstep_mono; [|exact Hs']. intros y Hy. apply list_elem_of_singleton in Hy as ->.
    rewrite HN, pages_pop, node_pages_0. set_solver.
Qed.
