(* ===== verification/PmmBoot.v ===== *)
(** The page allocator's multi-page requests and its initialisation from the
    memory map. *)
From stdpp Require Import base gmap list strings.
From Stdlib Require Import ZArith Lia.
From S2P Require Import Prelude Pmm PmmInv PmmOps.

(** * Allocation of several pages: the search for a run among single pages, and
    the operations built on it. *)

Ltac wstep_hook ::=
  lazymatch goal with
  | |- wp (tick_sat64 _) _ _ => apply wp_tick_sat64
  end.

Lemma bubble_perm pa l : bubble pa l ≡ₚ pa :: l.
Proof.
  induction l as [|y l IH]; simpl; [done|]. destruct (pa <? y); [|done]. rewrite IH. constructor.
Qed.

Lemma rev_perm {A} (l : list A) : rev l ≡ₚ l.
Proof. symmetry. apply Permutation_rev. Qed.

Lemma hold_insert_perm pa l : hold_insert pa l ≡ₚ pa :: l.
Proof. unfold hold_insert. by rewrite rev_perm, bubble_perm, rev_perm. Qed.

Lemma nth_run x n i : (i < Z.to_nat n)%nat -> nth i (run x n) 0 = x + Z.of_nat i * GJ_PAGE_SIZE.
Proof. intros Hi. rewrite nth_lookup. unfold run. rewrite list_lookup_fmap, lookup_seqZ_lt by lia. simpl. f_equal; lia. Qed.

(** What [find_run] finds: [cPages] neighbouring entries that are neighbouring
    pages.  The entries before position [j] end in a run of [c] pages. *)
Lemma find_run_spec n aHold cPages j c :
  (j + n = length aHold)%nat -> 1 <= c < cPages -> (Z.to_nat c <= j)%nat ->
  (forall x, x ∈ aHold -> 0 <= x /\ x + GJ_PAGE_SIZE <= PA_MAX) ->
  (forall i, (i < Z.to_nat c)%nat ->
     nth (j - Z.to_nat c + i) aHold 0 = nth (j - Z.to_nat c) aHold 0 + Z.of_nat i * GJ_PAGE_SIZE) ->
  let r := find_run aHold cPages n j c in
  r = 0 \/ exists A B, aHold = A ++ run r cPages ++ B.
Proof.
  cbv zeta. revert j c. induction n as [|n IH]; intros j c Hj Hc Hcj Hx Hseg; cbn [find_run]; [by left|].
  assert (nth (j - 1) aHold 0 ∈ aHold) as Hin by (apply list_elem_of_In, nth_In; lia).
  destruct (Hx _ Hin) as [Hx1 Hx2]. rewrite u64_add_small by (unfold PA_MAX, GJ_PAGE_SIZE in *; lia).
  destruct (Z.eqb_spec (nth j aHold 0) (nth (j - 1) aHold 0 + GJ_PAGE_SIZE)) as [E|E].
  2:{ apply IH; [lia|lia|lia|done|]. intros i Hi. replace i with 0%nat by lia. rewrite Nat.add_0_r. lia. }
  assert (forall i, (i < Z.to_nat (c + 1))%nat ->
    nth (S j - Z.to_nat (c + 1) + i) aHold 0 = nth (S j - Z.to_nat (c + 1)) aHold 0 + Z.of_nat i * GJ_PAGE_SIZE) as Hseg'.
  { intros i Hi. replace (S j - Z.to_nat (c + 1))%nat with (j - Z.to_nat c)%nat by lia.
    destruct (decide (i < Z.to_nat c)%nat); [by apply Hseg|].
    replace (j - Z.to_nat c + i)%nat with j by lia. rewrite E.
    replace (j - 1)%nat with (j - Z.to_nat c + (Z.to_nat c - 1))%nat by lia. rewrite Hseg by lia. unfold GJ_PAGE_SIZE. lia. }
  destruct (Z.leb_spec cPages (c + 1)).
  2:{ apply IH; [lia|lia|lia|done|done]. }
  right. replace (c + 1) with cPages in Hseg' by lia.
  exists (take (S j - Z.to_nat cPages) aHold), (drop (S j) aHold).
  rewrite <-(take_drop (S j - Z.to_nat cPages) aHold) at 1. f_equal.
  rewrite <-(take_drop (Z.to_nat cPages) (drop (S j - Z.to_nat cPages) aHold)) at 1.
  rewrite drop_drop. f_equal; [|f_equal; lia].
  apply nth_ext with 0 0; rewrite length_take, length_drop, ?length_run; [lia|].
  intros i Hi. rewrite nth_run by lia. rewrite nth_lookup, lookup_take_lt, lookup_drop, <-nth_lookup by lia.
  rewrite Hseg' by lia. by replace (j + 1 - Z.to_nat cPages)%nat with (S j - Z.to_nat cPages)%nat by lia.
Qed.

Lemma NoDup_app_perm (a b c d : list Z) : a ++ b ≡ₚ c ++ d -> NoDup (c ++ d) -> NoDup (a ++ b).
Proof. intros ->. done. Qed.

Section Hold.
Context (pop : prog pmm_mem Z) (avail : pmm_mem -> Z) (P : Z -> Prop).
Hypothesis pop_spec : forall m F, pmm_ok m F ->
  wp pop (fun pa m' => (pa = 0 /\ m' = m) \/ (got F 1 pa m m' /\ P pa)) m.

Definition hold_post (cPages : Z) (k : nat) (H : list Z) (F : list Z) (m : pmm_mem) (r : Z * list Z) (m' : pmm_mem) : Prop :=
  Forall P (snd r) /\
  (fst r = 0 \/ exists A B, snd r = A ++ run (fst r) cPages ++ B) /\
  (Z.of_nat (k + length H) < cPages -> fst r = 0) /\
  exists F', snd r ++ F' ≡ₚ H ++ F /\ pmm_ok m' F' /\ pstep F m m'.

Lemma wp_hold_loop k m F H cPages :
  pmm_ok m F -> NoDup (H ++ F) -> Forall (page_ok m) H -> Forall P H -> 2 <= cPages ->
  wp (hold_loop pop avail cPages k H) (hold_post cPages k H F m) m.
Proof.
  revert m F H. induction k as [|k IH]; intros m F H Hok Hd Hp HP Hc; cbn [hold_loop].
  { wsteps. split_and!; [done|by left|done|]. exists F. split_and!; [done|done|apply pstep_refl]. }
  assert (hold_post cPages (S k) H F m (0, H) m) as Hstop.
  { split_and!; [done|by left|done|]. exists F. split_and!; [done|done|apply pstep_refl]. }
  wsteps. destruct (0 <? avail m); simpl; [|by wsteps].
  apply wp_bind. eapply wp_mono; [by apply pop_spec|].
  intros pa m1 [[-> ->]|[Hg HPa]]; [simpl; by wsteps|].
  pose proof (got_head F 1 pa m m1 Hok ltac:(lia) Hg) as Hpa. pose proof (page_ok_bounds _ _ Hpa) as [Hlo _].
  rewrite (proj2 (Z.eqb_neq _ _)) by lia. destruct (got_1 _ _ _ _ Hg) as (F1 & HF & Hok1 & Hs1).
  pose proof (hold_insert_perm pa H) as HI.
  assert (hold_insert pa H ++ F1 ≡ₚ H ++ F) as Hperm by (rewrite HI, HF; simpl; by rewrite Permutation_middle).
  assert (Forall (page_ok m1) (hold_insert pa H)) as Hp1.
  { rewrite HI. constructor; [by eapply page_ok_step|by eapply Forall_page_step]. }
  assert (Forall P (hold_insert pa H)) as HP1 by (rewrite HI; by constructor).
  assert (length (hold_insert pa H) = S (length H)) as Hl by (rewrite HI; done).
  assert (forall r m', hold_post cPages k (hold_insert pa H) F1 m1 r m' -> hold_post cPages (S k) H F m r m') as Hnext.
  { intros r m' (Q1 & Q2 & Q3 & F' & Q4 & Q5 & Q6). split_and!; [done|done|rewrite Hl in Q3; intros; apply Q3; lia|].
    exists F'. split_and!; [by rewrite Q4|done|]. eapply pstep_trans; [..|exact Hs1|exact Q6]; [done|].
    intros x Hx. rewrite HF. set_solver. }
  assert (wp (hold_loop pop avail cPages k (hold_insert pa H)) (hold_post cPages (S k) H F m) m1) as Hloop.
  { eapply wp_mono; [apply IH; [done|by eapply NoDup_app_perm|done|done|done]|done]. }
  destruct (Z.ltb_spec (Z.of_nat (length (hold_insert pa H))) cPages) as [|Hlen]; [done|].
  destruct (find_run_spec (length (hold_insert pa H) - 1) (hold_insert pa H) cPages 1 1) as [->|Hrun];
    [lia|lia|lia|..].
  { intros x Hx. rewrite Forall_forall in Hp1. pose proof (page_ok_bounds _ _ (Hp1 x Hx)). lia. }
  { intros i Hi. replace i with 0%nat by lia. simpl. lia. }
  { done. }
  destruct (_ =? 0); simpl; [done|]. wsteps. apply Hnext. split_and!; [done|by right|simpl; lia|].
  exists F1. split_and!; [done|done|apply pstep_refl].
Qed.
End Hold.

(** The pages outside a run that the array contains. *)
Lemma outside_run_spec base c x :
  0 <= base -> 0 <= c -> base + c * GJ_PAGE_SIZE < 2 ^ 64 -> base mod GJ_PAGE_SIZE = 0 -> x mod GJ_PAGE_SIZE = 0 ->
  outside_run base c x = true <-> x ∉ run base c.
Proof.
  intros Hb Hc Hw Ha Hx. unfold outside_run. unfold GJ_PAGE_SIZE in *. rewrite u64_add_small by lia.
  rewrite orb_true_iff, Z.ltb_lt, Z.leb_le, elem_of_run. unfold GJ_PAGE_SIZE. split.
  - intros H (i & Hi & ->). lia.
  - intros H. destruct (Z_lt_le_dec x base) as [|H1]; [by left|].
    destruct (Z_lt_le_dec x (base + c * 4096)) as [H2|]; [|by right]. exfalso. apply H.
    exists ((x - base) / 4096). pose proof (Z.div_mod x 4096 ltac:(lia)). pose proof (Z.div_mod base 4096 ltac:(lia)).
    replace (x - base) with ((x / 4096 - base / 4096) * 4096) by lia. rewrite Z.div_mul by lia. lia.
Qed.

Lemma filter_outside base c A B :
  0 <= c -> (forall x, x ∈ A ++ run base c ++ B -> x mod GJ_PAGE_SIZE = 0 /\ 0 <= x /\ x + GJ_PAGE_SIZE <= PA_MAX) ->
  0 < c -> NoDup (A ++ run base c ++ B) ->
  List.filter (outside_run base c) (A ++ run base c ++ B) = A ++ B.
Proof.
  intros Hc Hx Hc0 Hd.
  assert (base ∈ run base c) as Hb by (apply elem_of_run; exists 0; lia).
  assert (base + (c - 1) * GJ_PAGE_SIZE ∈ run base c) as Hl by (apply elem_of_run; exists (c - 1); lia).
  assert (forall x, x ∈ A ++ run base c ++ B -> outside_run base c x = true <-> x ∉ run base c) as HS.
  { intros x Hin. destruct (Hx base ltac:(set_solver)) as (B1 & B2 & _).
    destruct (Hx _ ltac:(apply elem_of_app; right; apply elem_of_app; left; exact Hl)) as (_ & _ & B3).
    apply outside_run_spec; [done|done|unfold PA_MAX, GJ_PAGE_SIZE in *; lia|done|by apply Hx]. }
  apply NoDup_app in Hd as (_ & HA & Hd). apply NoDup_app in Hd as (_ & HB & _).
  rewrite !List.filter_app.
  assert (forall l, (forall x, x ∈ l -> outside_run base c x = true) -> List.filter (outside_run base c) l = l) as Hall.
  { induction l as [|y l IH]; intros Hy; simpl; [done|]. rewrite Hy by set_solver. f_equal. apply IH. set_solver. }
  assert (List.filter (outside_run base c) (run base c) = []) as ->.
  { destruct (List.filter _ (run base c)) as [|y l] eqn:E; [done|]. exfalso.
    assert (In y (List.filter (outside_run base c) (run base c))) as Hy by (rewrite E; by left).
    apply filter_In in Hy as [Hy1 Hy2]. apply list_elem_of_In in Hy1.
    apply HS in Hy2; [done|set_solver]. }
  rewrite !Hall; [done|..].
  - intros x Hin. apply HS; [set_solver|]. intros Hr. by apply (HB x Hr).
  - intros x Hin. apply HS; [set_solver|]. intros Hr. apply (HA x Hin). set_solver.
Qed.

(** [n] pages: either all of them, neighbours, or no change of the free pages. *)
Definition pages_post (n : Z) (F : list Z) (m : pmm_mem) (pa : Z) (m' : pmm_mem) : Prop :=
  (pa = 0 /\ pmm_ok m' F /\ pstep F m m') \/ got F n pa m m'.

(** The end of both multi-page allocations: give back what is held. *)
Lemma wp_give_back m0 m F F' H :
  pmm_ok m0 F -> pstep F m0 m -> pmm_ok m F' -> H ++ F' ≡ₚ F ->
  wp (push_list H) (fun _ m' => pmm_ok m' F /\ pstep F m0 m') m.
Proof.
  intros Hok0 Hs Hok HF. eapply wp_mono.
  { apply (wp_push_list H m F' Hok).
    - apply (Forall_page_step F m0 m); [done|]. apply Forall_forall. intros x Hx.
      eapply pmm_ok_page; [done|]. rewrite <-HF. set_solver.
    - rewrite HF. by eapply pmm_ok_nodup. }
  cbn beta. intros _ m' [Hok' Hs']. split; [by rewrite HF in Hok'|].
  eapply pstep_trans; [..|exact Hs|exact Hs']; [done|]. intros x Hx. rewrite <-HF. set_solver.
Qed.

Lemma wp_keep_run m0 m F F' H base c :
  pmm_ok m0 F -> pstep F m0 m -> pmm_ok m F' -> H ++ F' ≡ₚ F -> 0 < c -> base <> 0 ->
  (exists A B, H = A ++ run base c ++ B) ->
  wp (push_list (List.filter (outside_run base c) H)) (fun _ m' => got F c base m0 m') m.
Proof.
  intros Hok0 Hs Hok HF Hc Hb (A & B & ->).
  assert (forall x, x ∈ A ++ run base c ++ B -> x ∈ F) as HinF by (intros x Hx; rewrite <-HF; set_solver).
  assert (Forall (page_ok m) (A ++ B)) as Hpg.
  { apply (Forall_page_step F m0 m); [done|]. apply Forall_forall. intros x Hx.
    eapply pmm_ok_page; [done|]. apply HinF. set_solver. }
  assert (F ≡ₚ run base c ++ (A ++ B) ++ F') as HF2.
  { rewrite <-HF. rewrite !(app_assoc A), (Permutation_app_comm A). by rewrite <-!app_assoc. }
  pose proof (pmm_ok_nodup _ _ Hok0) as Hd. rewrite HF2 in Hd.
  rewrite filter_outside; [|lia| |lia|].
  2:{ intros x Hx. pose proof (pmm_ok_page _ _ x Hok0 (HinF x Hx)) as Hp. pose proof (page_ok_bounds _ _ Hp).
      split_and!; [apply Hp|lia|lia]. }
  2:{ pose proof (pmm_ok_nodup _ _ Hok0) as Hd'. rewrite <-HF in Hd'. by apply NoDup_app in Hd' as (? & _). }
  eapply wp_mono; [apply (wp_push_list (A ++ B) m F' Hok Hpg); by apply NoDup_app in Hd as (_ & _ & ?)|].
  cbn beta. intros _ m' [Hok' Hs']. split; [done|]. exists ((A ++ B) ++ F'). split_and!; [done|done|].
  eapply pstep_trans; [..|exact Hs|exact Hs']; [done|]. intros x Hx. rewrite HF2. set_solver.
Qed.

Lemma got_split_pow c o F pa m m' : order_pages o = c -> got F (pages_of o) pa m m' -> got F c pa m m'.
Proof. by rewrite order_pages_eq; intros <-. Qed.

Lemma wp_pmm_alloc_pages m F c :
  pmm_ok m F -> 0 <= c -> wp (pmm_alloc_pages c) (pages_post c F m) m.
Proof.
  intros Hok Hc. unfold pmm_alloc_pages. pose proof (pstep_refl F m) as Hs0.
  destruct (Z.eqb_spec c 0) as [->|Hc0]; [wsteps; by left|].
  destruct (Z.eqb_spec c 1) as [->|Hc1].
  { eapply wp_mono; [by apply wp_pmm_alloc|]. intros pa m' [(-> & -> & _)|[Hg _]]; [by left|by right]. }
  destruct (_ <? c); [wsteps; by left|]. apply wp_bind.
  apply (wp_mono _ (fun pa m' => (pa = 0 /\ m' = m) \/ got F c pa m m')).
  { destruct (Z.eqb_spec (order_pages (pages_to_order c)) c) as [E|]; [|wsteps; by left].
    eapply wp_mono; [apply (wp_pop_order_split m F _ Hok), pages_to_order_max|].
    intros pa m' [(-> & -> & _)|(Hg & _)]; [by left|right; by eapply got_split_pow]. }
  intros pa m1 [[-> ->]|Hg].
  2:{ destruct (Hg) as [Hne _]. rewrite (proj2 (Z.eqb_neq _ _) Hne). cbn [negb]. wsteps. by right. }
  rewrite Z.eqb_refl. cbn [negb]. apply wp_bind. eapply wp_mono.
  { apply (wp_hold_loop pop_free g_cFramesFree (fun _ => True)); [|done|by apply (pmm_ok_nodup m)|done..|lia].
    intros m1 F1 Hok1. eapply wp_mono; [by apply wp_pmm_alloc|].
    intros pa m' [(-> & -> & _)|[Hg _]]; [by left|by right]. }
  intros [base H] m1 (_ & Hrun & _ & F' & HF & Hok1 & Hs1). cbn [fst snd app] in *.
  destruct (Z.eqb_spec base 0) as [->|Hb].
  - apply wp_bind. eapply wp_mono; [by apply (wp_give_back m m1 F F' H)|].
    cbn beta. intros _ m' [? ?]. wsteps. by left.
  - destruct Hrun as [?|Hrun]; [done|]. apply wp_bind.
    eapply wp_mono; [apply (wp_keep_run m m1 F F' H base c); try done; lia|].
    cbn beta. intros _ m' Hg. wsteps. by right.
Qed.

(** Low pages only. *)
Definition pages_low_post (n : Z) (F : list Z) (m : pmm_mem) (pa : Z) (m' : pmm_mem) : Prop :=
  (pa = 0 /\ pmm_ok m' F /\ pstep F m m') \/ (got F n pa m m' /\ pa + n * GJ_PAGE_SIZE <= PMM_LOW_MAX).

Lemma crosses_low_false pa c : 0 <= pa -> 0 <= c -> crosses_low pa c = false -> pa + c * GJ_PAGE_SIZE < 2 ^ 64 ->
  pa + c * GJ_PAGE_SIZE <= PMM_LOW_MAX.
Proof.
  intros Hp Hc Hx Hb. unfold crosses_low in Hx. unfold GJ_PAGE_SIZE in *.
  rewrite u64_add_small in Hx by lia. apply orb_false_iff in Hx as [_ Hx]. by apply Z.ltb_ge in Hx.
Qed.

Lemma got_bounds F n pa m m' : pmm_ok m F -> 0 < n -> got F n pa m m' -> 0 < pa /\ pa + n * GJ_PAGE_SIZE <= PA_MAX.
Proof.
  intros Hok Hn Hg. pose proof (got_page F n pa m m' Hok Hn Hg) as HF. rewrite Forall_forall in HF.
  pose proof (page_ok_bounds _ _ (got_head F n pa m m' Hok Hn Hg)).
  assert (pa + (n - 1) * GJ_PAGE_SIZE ∈ run pa n) as Hl by (apply elem_of_run; exists (n - 1); lia).
  pose proof (page_ok_bounds _ _ (HF _ Hl)). lia.
Qed.

Lemma wp_pages_low_fail m0 F c m : pmm_ok m F -> pstep F m0 m -> wp pages_low_fail (pages_low_post c F m0) m.
Proof. intros Hok Hs. unfold pages_low_fail. wsteps. by left. Qed.

Lemma wp_pages_low_ok m0 F c pa m :
  got F c pa m0 m -> pa + c * GJ_PAGE_SIZE <= PMM_LOW_MAX -> wp (pages_low_ok pa) (pages_low_post c F m0) m.
Proof. intros Hg Hb. unfold pages_low_ok. wsteps. by right. Qed.

Lemma wp_pmm_alloc_pages_low m F c :
  pmm_ok m F -> 0 <= c -> wp (pmm_alloc_pages_low c) (pages_low_post c F m) m.
Proof.
  intros Hok Hc. unfold pmm_alloc_pages_low.
  pose proof (wp_pages_low_fail m F c m Hok (pstep_refl F m)) as Hfail.
  destruct (Z.eqb_spec c 0) as [->|Hc0]; [done|].
  destruct (Z.eqb_spec c 1) as [->|Hc1].
  { apply wp_bind. eapply wp_mono; [by apply wp_pmm_alloc_low|]. intros pa m' [(-> & -> & _)|[Hg Hz]]; [done|].
    destruct (Hg) as [Hne _]. rewrite (proj2 (Z.eqb_neq _ _) Hne). simpl. apply wp_pages_low_ok; [done|].
    pose proof (got_head F 1 pa m m' Hok ltac:(lia) Hg) as Hp.
    pose proof (zone_block pa 0 ltac:(lia) (pk_aligned _ _ Hp) Hz). done. }
  destruct (_ <? c); [done|].
  destruct (Z.eqb_spec (order_pages (pages_to_order c)) c) as [E|E].
  { apply wp_bind. eapply wp_mono; [apply (wp_pop_order_low_only m F _ Hok), pages_to_order_max|].
    intros pa m1 [(-> & -> & _)|(Hg & Hb & _)]; [done|]. apply (got_split_pow c) in Hg; [|done].
    destruct (Hg) as [Hne _]. rewrite (proj2 (Z.eqb_neq _ _) Hne). simpl.
    unfold block_bytes in Hb. rewrite <-order_pages_eq, E in Hb.
    pose proof (got_bounds F c pa m m1 Hok ltac:(lia) Hg) as [H1 H2].
    assert (crosses_low pa c = false) as ->; [|by apply wp_pages_low_ok].
    unfold crosses_low. rewrite u64_add_small by (unfold PA_MAX, GJ_PAGE_SIZE in *; lia).
    apply orb_false_iff. split; [apply Z.leb_gt|apply Z.ltb_ge; done].
    unfold GJ_PAGE_SIZE in *. lia. }
  apply wp_bind. eapply wp_mono.
  { apply (wp_hold_loop (pop_order_low_only 0) g_cFramesFreeLow (fun _ => True));
      [|done|by apply (pmm_ok_nodup m)|done..|lia].
    intros m1 F1 Hok1. eapply wp_mono; [apply (wp_pop_order_low_only m1 F1 0 Hok1); lia|].
    intros pa m' [(-> & -> & _)|(Hg & _)]; [by left|by right]. }
  intros [base H] m1 (_ & Hrun & _ & F' & HF & Hok1 & Hs1). cbn [fst snd app] in *.
  assert (wp (push_list H ;;; pages_low_fail) (pages_low_post c F m) m1) as Hback.
  { apply wp_bind. eapply wp_mono; [by apply (wp_give_back m m1 F F' H)|].
    cbn beta. intros _ m' [? ?]. by apply wp_pages_low_fail. }
  destruct (Z.eqb_spec base 0) as [->|Hb]; [done|].
  destruct Hrun as [?|Hrun]; [done|]. destruct (crosses_low base c) eqn:Ex; [done|].
  apply wp_bind. eapply wp_mono; [apply (wp_keep_run m m1 F F' H base c); try done; lia|].
  cbn beta. intros _ m' Hg. pose proof (got_bounds F c base m m' Hok ltac:(lia) Hg) as [H1 H2].
  apply wp_pages_low_ok; [done|]. apply crosses_low_false; [lia|lia|done|]. unfold PA_MAX in *. lia.
Qed.

(** More than 256 pages that are not a power of two do not fit the array. *)
Lemma wp_pages_unfit m F c :
  pmm_ok m F -> 0 <= c ->
  wp (pmm_alloc_pages c) (fun pa _ => 256 < c -> order_pages (pages_to_order c) <> c -> pa = 0) m.
Proof.
  intros Hok Hc. destruct (Z_lt_le_dec 256 c) as [Hbig|].
  2:{ eapply wp_mono; [by apply wp_pmm_alloc_pages|]. lia. }
  destruct (decide (order_pages (pages_to_order c) = c)) as [|Hne].
  { eapply wp_mono; [by apply wp_pmm_alloc_pages|]. done. }
  unfold pmm_alloc_pages. rewrite (proj2 (Z.eqb_neq c 0)), (proj2 (Z.eqb_neq c 1)) by lia.
  destruct (_ <? c); [by wsteps|]. rewrite (proj2 (Z.eqb_neq _ _) Hne). apply wp_bind, wp_ret.
  rewrite Z.eqb_refl. cbn [negb]. apply wp_bind. eapply wp_mono.
  { apply (wp_hold_loop pop_free g_cFramesFree (fun _ => True)); [|done|by apply (pmm_ok_nodup m)|done..|lia].
    intros m1 F1 Hok1. eapply wp_mono; [by apply wp_pmm_alloc|].
    intros pa m' [(-> & -> & _)|[Hg _]]; [by left|by right]. }
  intros [base H] m1 (_ & _ & Hnone & F' & HF & Hok1 & Hs1). cbn [fst snd app length] in *.
  rewrite Hnone by lia. rewrite Z.eqb_refl. apply wp_bind.
  eapply wp_mono; [by apply (wp_give_back m m1 F F' H)|]. cbn beta. intros _ m' _. by wsteps.
Qed.

(** * Boot of the page allocator: the memory map becomes the set of free pages;
    the self-exercise and the soak tests leave that set as it was. *)

Ltac wstep_hook ::=
  lazymatch goal with
  | |- wp (tick_sat64 _) _ _ => apply wp_tick_sat64
  end.

(** The page may be handed out: not firmware, kernel image or boot medium. *)
Definition usable (m : pmm_mem) (x : Z) : bool := range_ok_free m x GJ_PAGE_SIZE.

Lemma usable_step P m m' x : pstep P m m' -> usable m' x = usable m x.
Proof. intros []. unfold usable, range_ok_free. by rewrite ps_ker, ps_media. Qed.

Lemma range_ok_sub m x n i :
  range_ok_free m x (n * GJ_PAGE_SIZE) = true -> 0 <= i < n -> 0 <= x -> x + n * GJ_PAGE_SIZE < 2 ^ 64 ->
  usable m (x + i * GJ_PAGE_SIZE) = true.
Proof.
  intros H Hi Hx Hb. unfold usable. rewrite !range_ok_free_spec in *. unfold range_overlaps, GJ_PAGE_SIZE in *.
  destruct H as (_ & H1 & H2 & H3). rewrite u64_add_small in * by lia.
  rewrite !andb_false_iff, !Z.ltb_ge in *. split_and!; [lia|lia|lia|]. intros Hm. specialize (H3 Hm). lia.
Qed.

Lemma fit_order_spec m pa paEnd o :
  pa mod GJ_PAGE_SIZE = 0 -> 0 <= pa -> pa + GJ_PAGE_SIZE <= paEnd -> paEnd <= PA_MAX -> usable m pa = true ->
  (o <= PMM_MAX_ORDER)%nat ->
  let o' := fit_order m pa paEnd o in
  (o' <= PMM_MAX_ORDER)%nat /\ pa mod block_bytes o' = 0 /\ pa + block_bytes o' <= paEnd /\
  range_ok_free m pa (block_bytes o') = true.
Proof.
  intros Ha H0 Hp He Hu Ho. cbv zeta.
  assert (forall o1, (o1 <= PMM_MAX_ORDER)%nat ->
    (Z.land pa (order_bytes o1 - 1) =? 0) && (u64_add pa (order_bytes o1) <=? paEnd) &&
    range_ok_free m pa (order_bytes o1) = true ->
    (o1 <= PMM_MAX_ORDER)%nat /\ pa mod block_bytes o1 = 0 /\ pa + block_bytes o1 <= paEnd /\
    range_ok_free m pa (block_bytes o1) = true) as Hfit.
  { intros o1 Ho1 Hb. rewrite order_bytes_eq in Hb by done. apply andb_true_iff in Hb as [Hb Hr].
    apply andb_true_iff in Hb as [Hb1 Hb2]. apply Z.eqb_eq in Hb1. apply Z.leb_le in Hb2.
    split_and!; [done| | |done].
    - by rewrite block_bytes_pow, land_pow2 in * by lia.
    - pose proof (pages_of_max o1 Ho1). pose proof (pages_of_pos o1). unfold PA_MAX, block_bytes, GJ_PAGE_SIZE in *.
      rewrite u64_add_small in Hb2 by lia. done. }
  induction o as [|o IH]; cbn [fit_order].
  - destruct (_ && _) eqn:Eb; [by apply Hfit|]. split_and!; [lia|by change (block_bytes 0) with 4096|done|done].
  - destruct (_ && _) eqn:Eb; [by apply Hfit|]. apply IH. lia.
Qed.

Lemma pmm_rep_totals m N a b d e : pmm_rep m N -> pmm_rep (set_totals a b (g_paKernel m) (g_paSoftMedia m) d e m) N.
Proof.
  intros []. split; try done. eapply Forall_impl; [done|]. intros n (? & ? & HF).
  split_and!; [done|done|]. eapply Forall_impl; [done|]. intros x []. by split.
Qed.
Lemma pmm_ok_totals m F a b d e : pmm_ok m F -> pmm_ok (set_totals a b (g_paKernel m) (g_paSoftMedia m) d e m) F.
Proof. intros (N & Hr & HN). exists N. split; [by apply pmm_rep_totals|done]. Qed.
Lemma pstep_totals P m m1 a b :
  pstep P m m1 -> pstep P m (set_totals a b (g_paKernel m1) (g_paSoftMedia m1) (g_aHigh m1) (g_fHighReleased m1) m1).
Proof. intros []. by split. Qed.

Lemma filter_all (p : Z -> bool) l : Forall (fun x => p x = true) l -> List.filter p l = l.
Proof. induction 1 as [|x l Hx _ IH]; simpl; [done|]. by rewrite Hx, IH. Qed.

Lemma filter_ext_usable P m m' l : pstep P m m' -> List.filter (usable m') l = List.filter (usable m) l.
Proof. intros Hs. induction l as [|x l IH]; simpl; [done|]. by rewrite (usable_step P m m' x Hs), IH. Qed.

(** The pages a range offers to the allocator. *)
Definition offered (m : pmm_mem) (F l : list Z) : Prop :=
  forall x, x ∈ l -> usable m x = true -> page_ok m x /\ x ∉ F.

Lemma run_cut x n k : 0 <= k <= n -> run x n = run x k ++ run (x + k * GJ_PAGE_SIZE) (n - k).
Proof. intros Hk. rewrite <-run_split by lia. f_equal. lia. Qed.

(** An allowed block at the start of an offered range can be inserted. *)
Lemma offered_block m F pa n k :
  pmm_ok m F -> 0 <= pa -> 1 <= k <= n -> pa + n * GJ_PAGE_SIZE <= PA_MAX -> offered m F (run pa n) ->
  range_ok_free m pa (k * GJ_PAGE_SIZE) = true ->
  Forall (fun x => usable m x = true) (run pa k) /\ Forall (page_ok m) (run pa k) /\ NoDup (run pa k ++ F).
Proof.
  intros Hok Hpa Hk Hb Hof Hr. rewrite (run_cut pa n k) in Hof by lia.
  assert (Forall (fun x => usable m x = true) (run pa k)) as HU.
  { apply Forall_forall. intros x Hx. apply elem_of_run in Hx as (i & Hi & ->).
    apply (range_ok_sub m pa k); [done|done|done|unfold PA_MAX, GJ_PAGE_SIZE in *; lia]. }
  split; [done|]. rewrite Forall_forall in HU.
  split; [apply Forall_forall; intros x Hx; apply Hof; [set_solver|auto]|].
  apply NoDup_app. split_and!; [apply NoDup_run| |by eapply pmm_ok_nodup].
  intros x Hx. apply Hof; [set_solver|auto].
Qed.

Lemma offered_rest m m1 F P pa n k :
  pstep P m m1 -> 1 <= k <= n -> offered m F (run pa n) ->
  offered m1 (run pa k ++ F) (run (pa + k * GJ_PAGE_SIZE) (n - k)).
Proof.
  intros Hs Hk Hof x Hx Hu. rewrite (run_cut pa n k) in Hof by lia. rewrite (usable_step _ m m1 x Hs) in Hu.
  destruct (Hof x ltac:(set_solver) Hu) as [Hpx HnF]. split; [by eapply page_ok_step|].
  intros Hin. apply elem_of_app in Hin as [Hin|Hin]; [|done].
  apply elem_of_run in Hin as (i & Hi & ->). apply elem_of_run in Hx as (j & Hj & E).
  unfold GJ_PAGE_SIZE in E. lia.
Qed.

Lemma wp_count_total (tot : bool) n m F :
  pmm_ok m F ->
  wp (if tot then pmod (add_total n) else pret tt) (fun _ m1 => pmm_ok m1 F /\ pstep [] m m1) m.
Proof.
  intros Hok. destruct tot; wsteps; [|by split; [|apply pstep_refl]].
  split; [by apply pmm_ok_totals|]. apply (pstep_totals [] m m), pstep_refl.
Qed.

Lemma wp_free_range_loop fuel m F pa n tot :
  pmm_ok m F -> pa mod GJ_PAGE_SIZE = 0 -> 0 <= pa -> 0 <= n <= Z.of_nat fuel -> pa + n * GJ_PAGE_SIZE <= PA_MAX ->
  offered m F (run pa n) ->
  wp (free_range_loop fuel pa (pa + n * GJ_PAGE_SIZE) tot)
    (fun _ m' => pmm_ok m' (List.filter (usable m) (run pa n) ++ F) /\ pstep (run pa n) m m') m.
Proof.
  revert m F pa n. induction fuel as [|fuel IH]; intros m F pa n Hok Ha Hpa Hn Hb Hof; cbn [free_range_loop].
  { replace n with 0 by lia. wsteps. split; [done|apply pstep_refl]. }
  pose proof Hb as Hb'. unfold PA_MAX in Hb'. rewrite u64_add_small by (unfold GJ_PAGE_SIZE in *; lia).
  destruct (Z.leb_spec (pa + GJ_PAGE_SIZE) (pa + n * GJ_PAGE_SIZE)) as [Hle|Hlt]; cbn [negb].
  2:{ replace n with 0 by (unfold GJ_PAGE_SIZE in *; lia). wsteps. split; [done|apply pstep_refl]. }
  assert (1 <= n) as Hn1 by (unfold GJ_PAGE_SIZE in *; lia). wsteps. fold (usable m pa).
  destruct (usable m pa) eqn:Hu; cbn [negb].
  2:{ rewrite (run_cut pa n 1) in Hof |- * by lia. rewrite run_one, Z.mul_1_l in *. cbn [app List.filter]. rewrite Hu.
      replace (pa + n * GJ_PAGE_SIZE) with (pa + GJ_PAGE_SIZE + (n - 1) * GJ_PAGE_SIZE) by lia.
      eapply wp_mono; [apply (IH m F); [done| |unfold GJ_PAGE_SIZE in *; lia|lia|unfold GJ_PAGE_SIZE in *; lia|]|].
      - by rewrite Z.add_mod, Ha, Z.mod_same by done.
      - intros x Hx. apply Hof. set_solver.
      - cbn beta. intros _ m' [? ?]. split; [done|]. eapply pstep_mono; [|done]. set_solver. }
  destruct (fit_order_spec m pa (pa + n * GJ_PAGE_SIZE) PMM_MAX_ORDER) as (Fo & Fa & Fe & Fr);
    [done|done|done|done|done|lia|].
  set (o := fit_order m pa (pa + n * GJ_PAGE_SIZE) PMM_MAX_ORDER) in *.
  pose proof (pages_of_pos o) as Hp1. assert (pages_of o <= n) as Hp2.
  { unfold block_bytes, GJ_PAGE_SIZE in Fe. lia. }
  destruct (offered_block m F pa n (pages_of o)) as (HU & HP & Hd); [done..|].
  apply wp_bind. eapply wp_mono; [by apply wp_count_total|]. cbn beta. intros _ m1 [Hok1 Hs1].
  apply wp_bind. eapply wp_mono; [apply (wp_push_order m1 F o pa Hok1 Fo); [by eapply Forall_page_step|done]|].
  cbn beta. intros _ m2 [Hok2 Hs2].
  assert (pstep (run pa (pages_of o)) m m2) as Hs02 by (eapply pstep_trans; [..|exact Hs1|exact Hs2]; set_solver).
  rewrite order_bytes_eq by done. unfold block_bytes. rewrite u64_add_small by (unfold GJ_PAGE_SIZE in *; lia).
  replace (pa + n * GJ_PAGE_SIZE) with (pa + pages_of o * GJ_PAGE_SIZE + (n - pages_of o) * GJ_PAGE_SIZE) by lia.
  eapply wp_mono.
  { apply (IH m2 (run pa (pages_of o) ++ F)); [done| |unfold GJ_PAGE_SIZE in *; lia|lia|unfold GJ_PAGE_SIZE in *; lia|].
    - by rewrite Z.add_mod, Ha, Z.mod_mul by done.
    - by eapply offered_rest. }
  cbn beta. intros _ m' [Hok' Hs']. rewrite (run_cut pa n (pages_of o)) by lia. split.
  - rewrite List.filter_app, (filter_all _ _ HU). rewrite (filter_ext_usable _ m m2 _ Hs02) in Hok'.
    eapply pmm_ok_perm; [|exact Hok']. rewrite !app_assoc. by rewrite (Permutation_app_comm (List.filter _ _)).
  - eapply pstep_trans; [..|exact Hs02|exact Hs']; set_solver.
Qed.

(** ** Ranges and regions *)

(** The whole pages inside a byte range. *)
Definition range_pages (base len : Z) : list Z :=
  run (page_of (base + GJ_PAGE_SIZE - 1)) ((page_of (base + len) - page_of (base + GJ_PAGE_SIZE - 1)) / GJ_PAGE_SIZE).

Lemma page_of_mod a : page_of a mod GJ_PAGE_SIZE = 0.
Proof.
  unfold page_of. pose proof (Z.div_mod a GJ_PAGE_SIZE ltac:(done)).
  replace (a - a mod GJ_PAGE_SIZE) with (a / GJ_PAGE_SIZE * GJ_PAGE_SIZE) by lia. by apply Z.mod_mul.
Qed.

Lemma page_of_le a : 0 <= a -> 0 <= page_of a <= a.
Proof. intros Ha. unfold page_of. pose proof (Z.mod_pos_bound a GJ_PAGE_SIZE ltac:(done)). pose proof (Z.mod_le a GJ_PAGE_SIZE Ha ltac:(done)). lia. Qed.

Lemma page_span a b : (page_of a - page_of b) / GJ_PAGE_SIZE * GJ_PAGE_SIZE = page_of a - page_of b.
Proof.
  pose proof (page_of_mod a) as Ha. pose proof (page_of_mod b) as Hb.
  apply Z.mod_divide in Ha as [i ->]; [|done]. apply Z.mod_divide in Hb as [j ->]; [|done].
  rewrite <-Z.mul_sub_distr_r, Z.div_mul by done. done.
Qed.

Lemma wp_free_range m F base len tot :
  pmm_ok m F -> 0 <= base -> 0 <= len -> base + len <= PA_MAX -> offered m F (range_pages base len) ->
  wp (free_range base len tot) (fun _ m' =>
    pmm_ok m' (List.filter (usable m) (range_pages base len) ++ F) /\ pstep (range_pages base len) m m') m.
Proof.
  intros Hok Hb Hl Hm Hof. unfold free_range, page_up. rewrite !page_down_eq. unfold PA_MAX in Hm.
  rewrite !u64_add_small by (unfold GJ_PAGE_SIZE; lia).
  replace (base + (GJ_PAGE_SIZE - 1)) with (base + GJ_PAGE_SIZE - 1) by lia. unfold range_pages in *.
  set (n := (page_of (base + len) - page_of (base + GJ_PAGE_SIZE - 1)) / GJ_PAGE_SIZE) in *.
  pose proof (page_span (base + len) (base + GJ_PAGE_SIZE - 1)) as Hspan. fold n in Hspan.
  destruct (Z_lt_le_dec n 0) as [Hn|Hn].
  { rewrite Z2Nat.nonpos by lia. cbn [free_range_loop].
    assert (run (page_of (base + GJ_PAGE_SIZE - 1)) n = []) as ->.
    { apply nil_length_inv. rewrite length_run. lia. }
    wsteps. split; [done|apply pstep_refl]. }
  pose proof (wp_free_range_loop (Z.to_nat n) m F (page_of (base + GJ_PAGE_SIZE - 1)) n tot Hok) as HW.
  replace (page_of (base + GJ_PAGE_SIZE - 1) + n * GJ_PAGE_SIZE) with (page_of (base + len)) in HW by lia.
  apply HW; [apply page_of_mod|apply page_of_le; unfold GJ_PAGE_SIZE; lia|lia| |done].
  pose proof (page_of_le (base + len)). unfold PA_MAX. lia.
Qed.

(** The part of a region that is freed at once, and the part that waits. *)
Definition low_pages (r : gj_mem_region) : list Z :=
  if mr_paBase r + mr_cbLength r <=? PMM_LOW_MAX then range_pages (mr_paBase r) (mr_cbLength r)
  else if mr_paBase r <? PMM_LOW_MAX then range_pages (mr_paBase r) (PMM_LOW_MAX - mr_paBase r) else [].
Definition high_part (r : gj_mem_region) : list pmm_pending :=
  let e := mr_paBase r + mr_cbLength r in
  if e <=? PMM_LOW_MAX then []
  else if mr_paBase r <? PMM_LOW_MAX then [MkPending PMM_LOW_MAX (e - PMM_LOW_MAX)]
  else if 0 <? mr_cbLength r then [MkPending (mr_paBase r) (mr_cbLength r)] else [].

Definition region_ok (r : gj_mem_region) : Prop :=
  0 <= mr_paBase r /\ 0 <= mr_cbLength r /\ mr_paBase r + mr_cbLength r <= PA_MAX.

Definition with_high (h : list pmm_pending) (m : pmm_mem) : pmm_mem :=
  set_totals (g_cFramesTotal m) (g_paMaxSeen m) (g_paKernel m) (g_paSoftMedia m) h (g_fHighReleased m) m.

Lemma pstep_with_high P m m1 h : pstep P m m1 -> pstep P (with_high h m) (with_high h m1).
Proof. intros []. by split. Qed.

Lemma wp_init_region m F r :
  pmm_ok m F -> region_ok r -> offered m F (low_pages r) ->
  wp (init_region r) (fun _ m' =>
    pmm_ok m' (List.filter (usable m) (low_pages r) ++ F) /\
    pstep (low_pages r) (with_high (g_aHigh m ++ (if (length (g_aHigh m) <? PMM_HIGH_PENDING_MAX)%nat then high_part r else [])) m) m') m.
Proof.
  intros Hok (Hb & Hl & Hm) Hof. unfold init_region. unfold PA_MAX in Hm. rewrite u64_add_small by lia.
  apply wp_bind, wp_pmod. set (m0 := set_totals _ _ _ _ _ _ m).
  assert (pmm_ok m0 F) as Hok0 by by apply pmm_ok_totals.
  assert (pstep [] m m0) as Hs0 by apply (pstep_totals [] m m), pstep_refl.
  assert (offered m0 F (low_pages r)) as Hof0.
  { intros x Hx Hu. rewrite (usable_step _ m m0 x Hs0) in Hu. destruct (Hof x Hx Hu). split; [|done]. by eapply page_ok_step. }
  assert (List.filter (usable m0) (low_pages r) = List.filter (usable m) (low_pages r)) as HU
    by by eapply filter_ext_usable.
  unfold low_pages, high_part in *.
  destruct (Z.leb_spec (mr_paBase r + mr_cbLength r) PMM_LOW_MAX) as [Hlow|Hhigh].
  { eapply wp_mono; [apply (wp_free_range m0 F); [done|done|done|unfold PA_MAX; lia|done]|].
    cbn beta. intros _ m' [Hok' Hs']. rewrite HU in Hok'. split; [done|].
    replace (g_aHigh m ++ _) with (g_aHigh m) by (destruct (_ <? _)%nat; by rewrite app_nil_r).
    eapply (pstep_trans [] (range_pages (mr_paBase r) (mr_cbLength r))); [set_solver|done| |exact Hs'].
    by destruct Hs0; split. }
  apply wp_bind. destruct (Z.ltb_spec (mr_paBase r) PMM_LOW_MAX) as [Hlo|Hlo].
  - eapply wp_mono; [apply (wp_free_range m0 F); [done|done|lia|unfold PA_MAX, PMM_LOW_MAX in *; lia|done]|].
    cbn beta. intros _ m1 [Hok1 Hs1]. rewrite HU in Hok1. wsteps.
    rewrite (proj2 (Z.ltb_lt _ _)) by lia. cbn [andb].
    rewrite (ps_hi _ _ _ Hs1). change (g_aHigh m0) with (g_aHigh m).
    destruct (length (g_aHigh m) <? PMM_HIGH_PENDING_MAX)%nat; wsteps.
    + split; [by apply pmm_ok_totals|]. by destruct Hs1; split.
    + split; [done|]. rewrite app_nil_r. by destruct Hs1; split.
  - wsteps. change (g_aHigh m0) with (g_aHigh m). change (pm_phys m0) with (pm_phys m).
    destruct (0 <? mr_cbLength r), (length (g_aHigh m) <? PMM_HIGH_PENDING_MAX)%nat; cbn [andb]; wsteps;
      (split; [first [done|by apply pmm_ok_totals]|]); rewrite ?app_nil_r; by split.
Qed.

Definition map_low (l : list gj_mem_region) : list Z := l ≫= low_pages.
Fixpoint pend (h : list pmm_pending) (l : list gj_mem_region) : list pmm_pending :=
  match l with
  | [] => h
  | r :: l' => pend (h ++ (if (length h <? PMM_HIGH_PENDING_MAX)%nat then high_part r else [])) l'
  end.

Lemma offered_app m F l1 l2 P m1 h :
  pstep P (with_high h m) m1 -> NoDup (l1 ++ l2) -> offered m F (l1 ++ l2) ->
  offered m1 (List.filter (usable m) l1 ++ F) l2.
Proof.
  intros Hs Hd Hof x Hx Hu. rewrite (usable_step _ _ m1 x Hs) in Hu.
  destruct (Hof x ltac:(set_solver) Hu) as [Hp HF]. split.
  - eapply page_ok_step; [done|]. by destruct Hp; split.
  - rewrite elem_of_app. intros [Hin|]; [|done]. apply list_elem_of_In, filter_In in Hin as [Hin _].
    apply list_elem_of_In in Hin. apply NoDup_app in Hd as (_ & Hd & _). by apply (Hd x Hin).
Qed.

Lemma filter_usable_high h m l : List.filter (usable (with_high h m)) l = List.filter (usable m) l.
Proof. done. Qed.

Lemma wp_init_regions l m F :
  pmm_ok m F -> Forall region_ok l -> NoDup (map_low l) -> offered m F (map_low l) ->
  wp (init_regions l) (fun _ m' =>
    pmm_ok m' (List.filter (usable m) (map_low l) ++ F) /\
    pstep (map_low l) (with_high (pend (g_aHigh m) l) m) m') m.
Proof.
  revert m F. induction l as [|r l IH]; intros m F Hok Hr Hd Hof; cbn [init_regions].
  { wsteps. split; [done|]. by split. }
  inversion Hr as [|? ? Hr1 Hr2]; subst. change (map_low (r :: l)) with (low_pages r ++ map_low l) in *.
  apply wp_bind. eapply wp_mono; [apply (wp_init_region m F r Hok Hr1); intros x Hx; apply Hof; set_solver|].
  cbn beta. intros _ m1 [Hok1 Hs1].
  eapply wp_mono.
  { apply (IH m1 _ Hok1 Hr2); [by apply NoDup_app in Hd as (_ & _ & ?)|by eapply offered_app]. }
  cbn beta. intros _ m' [Hok' Hs']. rewrite (filter_ext_usable _ _ m1 _ Hs1), filter_usable_high in Hok'. split.
  - rewrite List.filter_app. eapply pmm_ok_perm; [|exact Hok']. rewrite !app_assoc.
    by rewrite (Permutation_app_comm (List.filter (usable m) (map_low l))).
  - rewrite (ps_hi _ _ _ Hs1) in Hs'.
    eapply pstep_trans; [..|exact (pstep_with_high _ _ _ (pend _ l) Hs1)|exact Hs']; set_solver.
Qed.

(** ** What leaves the free pages as they are *)
Definition pkeeps {A} (c : prog pmm_mem A) : Prop :=
  forall m F, pmm_ok m F -> wp c (fun _ m' => pmm_ok m' F /\ pstep F m m') m.

Lemma pkeeps_ret {A} (a : A) : pkeeps (pret a).
Proof. intros m F Hok. wsteps. split; [done|apply pstep_refl]. Qed.

Lemma pkeeps_bind {A B} (c : prog pmm_mem A) (k : A -> prog pmm_mem B) :
  pkeeps c -> (forall a, pkeeps (k a)) -> pkeeps (pbind c k).
Proof.
  intros Hc Hk m F Hok. apply wp_bind. eapply wp_mono; [by apply Hc|]. cbn beta. intros a m1 [Hok1 Hs1].
  eapply wp_mono; [by apply Hk|]. cbn beta. intros b m2 [Hok2 Hs2]. split; [done|].
  by eapply pstep_trans; [..|exact Hs1|exact Hs2].
Qed.

Lemma pkeeps_tick c : pkeeps (tick_sat64 c).
Proof. intros m F Hok. wsteps. split; [done|apply pstep_refl]. Qed.

Lemma pkeeps_get {A} (k : pmm_mem -> prog pmm_mem A) : (forall m, pkeeps (k m)) -> pkeeps (pbind pget k).
Proof. intros Hk m F Hok. wsteps. by apply Hk. Qed.

Lemma pkeeps_free_0 : pkeeps (pmm_free 0).
Proof. apply pkeeps_ret. Qed.

(** A page taken from [F0] is held while the rest goes on. *)
Record holding (m0 : pmm_mem) (F0 : list Z) (H F : list Z) (m : pmm_mem) : Prop := {
  h_ok0 : pmm_ok m0 F0;
  h_perm : F0 ≡ₚ H ++ F;
  h_ok : pmm_ok m F;
  h_step : pstep F0 m0 m }.

Lemma holding_refl m F : pmm_ok m F -> holding m F [] F m.
Proof. intros Hok. split; [done|done|done|apply pstep_refl]. Qed.

Lemma holding_take m0 F0 H F m n pa m1 :
  holding m0 F0 H F m -> 0 < n -> got F n pa m m1 -> exists F1, holding m0 F0 (run pa n ++ H) F1 m1.
Proof.
  intros [Hok0 HF Hok Hs] Hn (_ & F1 & HF1 & Hok1 & Hs1). exists F1. split; [done| |done|].
  - rewrite HF, HF1. rewrite !app_assoc. by rewrite (Permutation_app_comm H).
  - eapply pstep_trans; [..|exact Hs|exact Hs1]; [done|]. intros x Hx. rewrite HF. set_solver.
Qed.

Lemma holding_pages m0 F0 H F m x : holding m0 F0 H F m -> x ∈ H -> page_ok m x.
Proof.
  intros [Hok0 HF Hok Hs] Hx. eapply page_ok_step; [done|]. eapply pmm_ok_page; [exact Hok0|]. rewrite HF. set_solver.
Qed.

Lemma holding_nodup m0 F0 H F m : holding m0 F0 H F m -> NoDup (H ++ F).
Proof. intros [Hok0 HF Hok Hs]. rewrite <-HF. by eapply pmm_ok_nodup. Qed.

Lemma holding_keep {A} m0 F0 H F m (c : prog pmm_mem A) :
  holding m0 F0 H F m -> pkeeps c -> wp c (fun _ m' => holding m0 F0 H F m') m.
Proof.
  intros [Hok0 HF Hok Hs] Hk. eapply wp_mono; [by apply Hk|]. cbn beta. intros _ m' [Hok' Hs'].
  split; [done|done|done|]. eapply pstep_trans; [..|exact Hs|exact Hs']; [done|]. intros x Hx. rewrite HF. set_solver.
Qed.

Lemma holding_give m0 F0 l H F m (c : prog pmm_mem unit) :
  holding m0 F0 (l ++ H) F m ->
  (pmm_ok m F -> Forall (page_ok m) l -> NoDup (l ++ F) -> wp c (fun _ m' => pmm_ok m' (l ++ F) /\ pstep l m m') m) ->
  wp c (fun _ m' => holding m0 F0 H (l ++ F) m') m.
Proof.
  intros Hh Hc. pose proof Hh as [Hok0 HF Hok Hs]. pose proof (holding_nodup _ _ _ _ _ Hh) as Hd.
  eapply wp_mono; [apply Hc; [done| |]|].
  - apply Forall_forall. intros x Hx. eapply holding_pages; [done|]. set_solver.
  - rewrite <-app_assoc, Permutation_app_swap_app in Hd. by apply NoDup_app in Hd as (_ & _ & ?).
  - cbn beta. intros _ m' [Hok' Hs']. split; [done| |done|].
    + rewrite HF. rewrite !app_assoc. by rewrite (Permutation_app_comm l).
    + eapply pstep_trans; [..|exact Hs|exact Hs']; [done|]. intros x Hx. rewrite HF. set_solver.
Qed.
