(* ===== verification/PmmSelf.v ===== *)
(** The self-exercise, the soak tests and the boot sequence of the page
    allocator: all of them leave the set of free pages as it was, up to what the
    memory map adds. *)
From stdpp Require Import base gmap list strings.
From Stdlib Require Import ZArith Lia.
From S2P Require Import Prelude Pmm PmmInv PmmOps PmmBoot.

Ltac wstep_hook ::=
  lazymatch goal with
  | |- wp (tick_sat64 _) _ _ => apply wp_tick_sat64
  end.

(** A store to a page that is not free is invisible to the allocator. *)
Lemma pmm_ok_store m F a v :
  pmm_ok m F -> page_of a ∉ F -> is_Some (pm_phys m !! a) ->
  pmm_ok (set_phys (<[a := v]> (pm_phys m)) m) F /\ pstep [page_of a] m (set_phys (<[a := v]> (pm_phys m)) m).
Proof.
  intros (N & Hr & HN) Ha Hs. set (m' := set_phys _ m).
  assert (pstep [page_of a] m m') as Hst.
  { split; try done; simpl.
    - intros b. rewrite lookup_insert_is_Some. destruct (decide (a = b)); naive_solver.
    - intros b Hb. rewrite lookup_insert_ne; [done|]. intros <-. set_solver. }
  split; [|done]. exists N. split; [|done]. destruct Hr as [R1 R2 R3 R4 R5 R6 R7 R8 R9 R10 R11].
  split; try done.
  - intros z o h E. apply chain_store; [|by apply R4]. intros Hin. apply sel_pages in Hin. apply Ha.
    pose proof (pages_ok m N a R9 Hin) as Hp. rewrite page_of_aligned by apply Hp. by rewrite HN.
  - eapply Forall_impl; [done|]. intros n. by apply node_wf_step with [page_of a].
Qed.

Section Holding.
Context (m0 : pmm_mem) (F0 : list Z).

Lemma h_done F m : holding m0 F0 [] F m -> pmm_ok m F0 /\ pstep F0 m0 m.
Proof. intros []. split; [by rewrite h_perm|done]. Qed.

Lemma h_alloc_low H F m :
  holding m0 F0 H F m ->
  wp pmm_alloc_low (fun pa m' => (pa = 0 /\ holding m0 F0 H F m') \/
    (zone pa = true /\ page_ok m0 pa /\ exists F1, holding m0 F0 (pa :: H) F1 m')) m.
Proof.
  intros Hh. pose proof (h_ok _ _ _ _ _ Hh) as Hok.
  eapply wp_mono; [by apply wp_pmm_alloc_low|]. intros pa m' [(-> & -> & _)|[Hg Hz]]; [by left|]. right.
  split; [done|]. destruct (holding_take _ _ _ _ _ 1 pa m' Hh ltac:(lia) Hg) as [F1 H1]. rewrite run_one in H1.
  split; [|by exists F1]. eapply pmm_ok_page; [apply H1|]. rewrite (h_perm _ _ _ _ _ H1). set_solver.
Qed.

Lemma h_alloc H F m :
  holding m0 F0 H F m ->
  wp pmm_alloc (fun pa m' => (pa = 0 /\ holding m0 F0 H F m') \/
    (pa <> 0 /\ exists F1, holding m0 F0 (pa :: H) F1 m')) m.
Proof.
  intros Hh. pose proof (h_ok _ _ _ _ _ Hh) as Hok.
  eapply wp_mono; [by apply wp_pmm_alloc|]. intros pa m' [(-> & -> & _)|[Hg _]]; [by left|]. right.
  split; [apply Hg|]. destruct (holding_take _ _ _ _ _ 1 pa m' Hh ltac:(lia) Hg) as [F1 H1].
  rewrite run_one in H1. by exists F1.
Qed.

(** Both multi-page allocations, whatever the zone. *)
Lemma h_pages (c : prog pmm_mem Z) n H F m :
  holding m0 F0 H F m -> 0 < n -> (forall m F, pmm_ok m F -> wp c (pages_post n F m) m) ->
  wp c (fun pa m' => (pa = 0 /\ holding m0 F0 H F m') \/ (pa <> 0 /\ exists F1, holding m0 F0 (run pa n ++ H) F1 m')) m.
Proof.
  intros Hh Hn Hc. pose proof Hh as [Hok0 HF Hok Hs].
  eapply wp_mono; [by apply Hc|]. intros pa m' [(-> & Hok' & Hs')|Hg].
  - left. split; [done|]. split; [done|done|done|]. eapply pstep_trans; [..|exact Hs|exact Hs']; [done|].
    intros x Hx. rewrite HF. set_solver.
  - right. split; [apply Hg|]. by eapply holding_take.
Qed.

Lemma h_free pa H F m :
  holding m0 F0 (pa :: H) F m -> wp (pmm_free pa) (fun _ m' => holding m0 F0 H (pa :: F) m') m.
Proof.
  intros Hh. apply (holding_give m0 F0 [pa] H F m); [done|]. intros Hok HP Hd.
  apply wp_push_free; [done|by inversion HP|]. by apply NoDup_cons in Hd as [? _].
Qed.

Lemma h_free_pages pa n H F m :
  holding m0 F0 (run pa n ++ H) F m -> 0 <= n ->
  wp (pmm_free_pages pa n) (fun _ m' => exists F1, holding m0 F0 H F1 m') m.
Proof.
  intros Hh Hn. eapply wp_mono; [apply (holding_give m0 F0 (run pa n) H F m); [done|]|].
  - intros Hok HP Hd. by apply wp_pmm_free_pages.
  - cbn beta. intros _ m' Hh'. by exists (run pa n ++ F).
Qed.

Lemma h_push_list l H F m :
  holding m0 F0 (l ++ H) F m -> wp (push_list l) (fun _ m' => exists F1, holding m0 F0 H F1 m') m.
Proof.
  intros Hh. eapply wp_mono; [apply (holding_give m0 F0 l H F m); [done|]|].
  - intros Hok HP Hd. by apply wp_push_list.
  - cbn beta. intros _ m' Hh'. by exists (l ++ F).
Qed.

Lemma h_perm_held H H' F m : H ≡ₚ H' -> holding m0 F0 H F m -> holding m0 F0 H' F m.
Proof. intros HH []. split; [done|by rewrite <-HH|done|done]. Qed.

Lemma h_store H F m pa a v :
  holding m0 F0 H F m -> pa ∈ H -> page_of a = pa -> is_Some (pm_phys m !! a) ->
  wp (st_word a v) (fun _ m' => holding m0 F0 H F m' /\ pm_phys m' = <[a := v]> (pm_phys m)) m.
Proof.
  intros Hh Hpa Ea [w Ew]. pose proof Hh as [Hok0 HF Hok Hs]. pose proof (holding_nodup _ _ _ _ _ Hh) as Hd.
  assert (page_of a ∉ F) as Hn.
  { rewrite Ea. apply NoDup_app in Hd as (_ & Hd & _). by apply Hd. }
  unfold st_word. wsteps. rewrite Ew. wsteps.
  destruct (pmm_ok_store m F a v Hok Hn) as [Hok' Hs']; [by rewrite Ew|].
  split; [|done]. split; [done|done|done|]. eapply pstep_trans; [..|exact Hs|exact Hs']; [done|].
  intros x Hx. apply list_elem_of_singleton in Hx as ->. rewrite HF, Ea. set_solver.
Qed.

Lemma h_paint H F m pa a b :
  holding m0 F0 H F m -> pa ∈ H ->
  wp (paint pa a b) (fun ok m' => ok = true /\ holding m0 F0 H F m') m.
Proof.
  intros Hh Hpa. pose proof (holding_pages _ _ _ _ _ pa Hh Hpa) as Hp. unfold paint.
  assert (page_of pa = pa /\ page_of (pa + 8) = pa) as [E1 E2].
  { pose proof (pk_aligned _ _ Hp) as Ha. unfold page_of. rewrite Z.add_mod, Ha by done. simpl.
    change (8 mod GJ_PAGE_SIZE) with 8. split; [lia|]. rewrite Z.mod_small; unfold GJ_PAGE_SIZE; lia. }
  apply wp_bind. eapply wp_mono; [apply (h_store H F m pa); [done|done|done|apply Hp]|].
  cbn beta. intros _ m1 [Hh1 P1]. apply wp_bind.
  eapply wp_mono; [apply (h_store H F m1 pa); [done|done|done|]|].
  { rewrite P1, lookup_insert_is_Some. right. split; [lia|apply Hp]. }
  cbn beta. intros _ m2 [Hh2 P2]. unfold ld_word. wsteps.
  rewrite P2, P1, lookup_insert_ne, lookup_insert_eq by lia. wsteps.
  rewrite P2, lookup_insert_eq. wsteps. by rewrite !Z.eqb_refl.
Qed.
End Holding.

(** ** The exercise *)
Lemma pkeeps_ex_null a b : pkeeps (ex_null a b).
Proof.
  intros m F Hok. unfold ex_null. change (pmm_free 0) with (@pret pmm_mem unit tt). wsteps.
  destruct (_ && _); wsteps; (split; [done|apply pstep_refl]).
Qed.

Lemma wp_ex_paint m0 F0 H F m pa :
  holding m0 F0 H F m -> pa ∈ H -> zone pa = true ->
  wp (ex_paint pa) (fun _ m' => holding m0 F0 H F m') m.
Proof.
  intros Hh Hpa Hz. unfold ex_paint. wsteps. unfold pa_to_ptr. unfold zone in Hz.
  rewrite Z.leb_antisym, Hz. cbn [negb andb].
  apply wp_bind. eapply wp_mono; [by apply h_paint|]. cbn beta. intros ok m1 [-> Hh1]. cbn [negb].
  apply wp_bind. eapply wp_mono; [by apply h_paint|]. cbn beta. intros ok m2 [-> Hh2]. cbn [negb]. by wsteps.
Qed.

Lemma page_ok_nonzero m x : page_ok m x -> (x =? 0) = false.
Proof. intros Hp. pose proof (page_ok_bounds m x Hp). apply Z.eqb_neq. lia. Qed.

(** The pages held, whatever is free. *)
Definition pheld (m0 : pmm_mem) (F0 H : list Z) (m : pmm_mem) : Prop := exists F, holding m0 F0 H F m.
(** The outcome of asking for one low page while [H] is held. *)
Definition took (m0 : pmm_mem) (F0 : list Z) (pa : Z) (H : list Z) (m : pmm_mem) : Prop :=
  (pa = 0 /\ pheld m0 F0 H m) \/ (page_ok m0 pa /\ zone pa = true /\ pheld m0 F0 (pa :: H) m).

Section Held.
Context (m0 : pmm_mem) (F0 : list Z).

Lemma pheld_refl : pmm_ok m0 F0 -> pheld m0 F0 [] m0.
Proof. intros Hok. exists F0. by apply holding_refl. Qed.

Lemma pheld_done m : pheld m0 F0 [] m -> pmm_ok m F0 /\ pstep F0 m0 m.
Proof. intros [F Hh]. by eapply h_done. Qed.

Lemma pheld_alloc_low H m : pheld m0 F0 H m -> wp pmm_alloc_low (fun pa m' => took m0 F0 pa H m') m.
Proof.
  intros [F Hh]. eapply wp_mono; [by apply h_alloc_low|].
  intros pa m' [[E H1]|(Hz & Hp & H1)]; [left|right].
  - split; [done|]. by exists F.
  - by split_and!.
Qed.

Lemma pheld_free pa H m : pheld m0 F0 (pa :: H) m -> wp (pmm_free pa) (fun _ m' => pheld m0 F0 H m') m.
Proof. intros [F Hh]. eapply wp_mono; [by apply h_free|]. cbn beta. intros _ m' H1. by exists (pa :: F). Qed.

Lemma pheld_free_nonzero pa H m : took m0 F0 pa H m -> wp (free_nonzero pa) (fun _ m' => pheld m0 F0 H m') m.
Proof.
  unfold free_nonzero. intros [(-> & Hh)|(Hp & _ & Hh)].
  - cbn. by wsteps.
  - rewrite (page_ok_nonzero m0 pa Hp). cbn [negb]. by apply pheld_free.
Qed.

Lemma pheld_push_list l H m : pheld m0 F0 (l ++ H) m -> wp (push_list l) (fun _ m' => pheld m0 F0 H m') m.
Proof. intros [F Hh]. by eapply h_push_list. Qed.

Lemma pheld_perm H H' m : H ≡ₚ H' -> pheld m0 F0 H m -> pheld m0 F0 H' m.
Proof. intros HH [F Hh]. exists F. by eapply h_perm_held. Qed.
End Held.

(** A low page passes the checks that the code makes on it. *)
Lemma low_page_checks m pa :
  page_ok m pa -> zone pa = true ->
  (pa =? 0) = false /\ (pa <? PMM_LOW_MAX) = true /\ (PMM_LOW_MAX <=? pa) = false /\ page_aligned pa = true.
Proof.
  intros Hp Hz. split_and!; [by eapply page_ok_nonzero|done|by rewrite Z.leb_antisym; unfold zone in Hz; rewrite Hz|].
  apply page_aligned_spec, Hp.
Qed.

Lemma pkeeps_ex_single : pkeeps ex_single.
Proof.
  intros m F Hok. unfold ex_single. apply wp_bind.
  eapply wp_mono; [by apply (pheld_alloc_low m F []), pheld_refl|].
  cbn beta. intros pa m1 [(-> & Hh)|(Hp & Hz & F1 & Hh)].
  { cbn. wsteps. case_match; wsteps; by apply pheld_done. }
  destruct (low_page_checks m pa Hp Hz) as (-> & -> & _ & ->). cbn [negb andb]. wstep. wstep. wstep. wstep.
  eapply wp_mono; [apply (wp_ex_paint m F _ F1 m1 pa Hh); [set_solver|done]|].
  cbn beta. intros g m2 Hh2. wstep. wstep. eapply wp_mono; [apply pheld_free; by exists F1|].
  cbn beta. intros _ m3 Hh3. wsteps. by apply pheld_done.
Qed.

Lemma pkeeps_ex_pages : pkeeps ex_pages.
Proof.
  intros m F Hok. unfold ex_pages. apply wp_bind.
  eapply wp_mono; [apply (h_pages m F (pmm_alloc_pages_low 4) 4 [] F m); [by apply holding_refl|lia|]|].
  { intros m1 F1 Hok1. eapply wp_mono; [by apply wp_pmm_alloc_pages_low|].
    intros pa m' [H|[H _]]; [by left|by right]. }
  cbn beta. intros pa m1 [(-> & Hh)|(Hne & F1 & Hh)].
  { cbn. wsteps. by eapply h_done. }
  rewrite (proj2 (Z.eqb_neq _ _) Hne). apply wp_bind.
  apply (wp_mono _ (fun _ m2 => m2 = m1)).
  { destruct (_ && _); wsteps; [|done]. destruct (_ <=? _); by wsteps. }
  intros g m2 ->. apply wp_bind. eapply wp_mono; [by apply (h_free_pages m F pa 4 [] F1 m1)|].
  cbn beta. intros _ m3 [F3 Hh3]. wsteps. by eapply h_done.
Qed.

Lemma pkeeps_ex_lifo : pkeeps ex_lifo.
Proof.
  intros m F Hok. unfold ex_lifo. apply wp_bind.
  eapply wp_mono; [by apply (pheld_alloc_low m F []), pheld_refl|].
  cbn beta. intros paA m1 [(-> & HA)|(HpA & HzA & HA)].
  - apply wp_bind. eapply wp_mono; [by apply pheld_alloc_low|]. cbn beta. intros paB m2 HB.
    rewrite Z.eqb_refl. cbn [negb andb]. apply wp_bind. change (free_nonzero 0) with (@pret pmm_mem unit tt). wsteps.
    eapply wp_mono; [by apply pheld_free_nonzero|]. cbn beta. intros _ m3 H3. wsteps. by apply pheld_done.
  - apply wp_bind. eapply wp_mono; [by apply pheld_alloc_low|].
    destruct (low_page_checks m paA HpA HzA) as (EA1 & EA2 & _ & EA3).
    cbn beta. intros paB m2 [(-> & HB)|(HpB & HzB & HB)].
    + rewrite EA1, Z.eqb_refl. cbn [negb andb]. apply wp_bind. unfold free_nonzero at 1. rewrite EA1. cbn [negb].
      eapply wp_mono; [by apply pheld_free|]. cbn beta. intros _ m3 H3.
      change (free_nonzero 0) with (@pret pmm_mem unit tt). wsteps. by apply pheld_done.
    + destruct (low_page_checks m paB HpB HzB) as (EB1 & EB2 & _ & EB3).
      rewrite EA1, EA2, EA3, EB1, EB2, EB3. cbn [negb andb].
      apply wp_bind. eapply wp_mono; [by apply pheld_free|]. cbn beta. intros _ m3 H3.
      apply wp_bind. eapply wp_mono; [by apply pheld_alloc_low|]. cbn beta. intros paC m4 H4.
      apply wp_bind, (wp_mono _ (fun _ m5 => m5 = m4)); [case_match; by wsteps|]. intros g m5 ->.
      apply wp_bind. eapply wp_mono; [by apply pheld_free_nonzero|]. cbn beta. intros _ m6 H6.
      apply wp_bind. eapply wp_mono; [by apply pheld_free|]. cbn beta. intros _ m7 H7. wsteps. by apply pheld_done.
Qed.

Lemma wp_hunt_loop k m0 F0 H m :
  pheld m0 F0 H m -> (k + length H <= PMM_SOFT_ID_HOLD)%nat ->
  wp (hunt_loop k H) (fun r m' => took m0 F0 (fst r) (snd r) m') m.
Proof.
  revert H m. induction k as [|k IH]; intros H m Hh Hk; cbn [hunt_loop].
  { wsteps. by left. }
  apply wp_bind. eapply wp_mono; [by apply pheld_alloc_low|]. cbn beta. intros pa m1 [(-> & H1)|(Hp & Hz & H1)].
  { cbn. wsteps. by left. }
  destruct (low_page_checks m0 pa Hp Hz) as (-> & _ & -> & ->). cbn [negb orb].
  destruct (_ <=? _); [wsteps; by right|]. rewrite (proj2 (Nat.ltb_lt _ _)) by lia. wstep. wstep.
  apply IH; [done|simpl; lia].
Qed.

Lemma pkeeps_ex_hunt : pkeeps ex_hunt.
Proof.
  intros m F Hok. unfold ex_hunt. apply wp_bind.
  eapply wp_mono; [apply (wp_hunt_loop PMM_SOFT_ID_HOLD m F); [by apply pheld_refl|done]|].
  cbn beta. intros [paId H] m1 HT. cbn [fst snd] in HT. apply wp_bind.
  eapply wp_mono; [apply (pheld_push_list m F H (if paId =? 0 then [] else [paId]))|].
  { destruct HT as [(-> & Hh)|(Hp & _ & Hh)]; [by rewrite app_nil_r|].
    rewrite (page_ok_nonzero m paId Hp). eapply pheld_perm; [|done]. by rewrite Permutation_app_comm. }
  cbn beta. intros _ m2 H2. destruct (Z.eqb_spec paId 0) as [->|Hne]; cbn [negb].
  - wsteps. destruct (0 <? _); wsteps; by apply pheld_done.
  - wstep. wstep. wstep. wstep. wstep. eapply wp_mono; [by apply pheld_free|]. cbn beta. intros _ m3 H3. wsteps. by apply pheld_done.
Qed.

Lemma pkeeps_if_tick {A} (b : bool) c (x y : A) : pkeeps (if b then tick_sat64 c ;;; pret x else pret y).
Proof. destruct b; [apply pkeeps_bind; [apply pkeeps_tick|]; intros _|]; apply pkeeps_ret. Qed.

Lemma pkeeps_tel_set c v : pkeeps (tel_set c v).
Proof. intros m F Hok. wsteps. split; [done|apply pstep_refl]. Qed.

Lemma pkeeps_ex_gates g : pkeeps (ex_gates g).
Proof.
  unfold ex_gates. apply pkeeps_bind; [apply pkeeps_tel_set|]. intros _.
  destruct (_ =? _); [apply pkeeps_tick|]. destruct (negb _); [apply pkeeps_tick|apply pkeeps_ret].
Qed.

Lemma pkeeps_force32 : pkeeps soft_force32_alloc_low_ex.
Proof.
  assert (pkeeps (@tick_wrap pmm_mem "g_cForce32SoftEx")) as Ht.
  { intros m F Hok. wsteps. split; [done|apply pstep_refl]. }
  intros m F Hok. unfold soft_force32_alloc_low_ex. apply wp_bind, wp_tel. intros t.
  destruct (_ <=? _); [by apply pkeeps_ret|]. revert m F Hok. fold (@pkeeps unit).
  apply pkeeps_bind; [done|]. intros _. apply pkeeps_get. intros m0.
  apply pkeeps_bind; [apply pkeeps_ex_null|]. intros g1.
  apply pkeeps_bind; [apply pkeeps_ex_single|]. intros g2.
  apply pkeeps_bind; [apply pkeeps_ex_pages|]. intros g3.
  apply pkeeps_bind; [apply pkeeps_ex_lifo|]. intros g4.
  apply pkeeps_bind; [apply pkeeps_ex_hunt|]. intros g5. apply pkeeps_get. intros m1.
  apply pkeeps_bind; [apply pkeeps_if_tick|]. intros g6.
  apply pkeeps_bind; [apply pkeeps_if_tick|]. intros g7. apply pkeeps_ex_gates.
Qed.

(** Some pages taken and given back at once. *)
Lemma pkeeps_alloc_free {A} n (k1 k2 : prog pmm_mem A) :
  0 < n -> pkeeps k1 -> pkeeps k2 ->
  pkeeps (pa <- pmm_alloc_pages n ;; if negb (pa =? 0) then pmm_free_pages pa n ;;; k1 else k2).
Proof.
  intros Hn H1 H2 m F Hok. apply wp_bind.
  eapply wp_mono; [apply (h_pages m F (pmm_alloc_pages n) n [] F m); [by apply holding_refl|done|]|].
  { intros m1 F1 Hok1. apply wp_pmm_alloc_pages; [done|lia]. }
  cbn beta. intros pa m1 [(-> & Hh)|(Hne & F1 & Hh)].
  - cbn. apply h_done in Hh as [Hok1 Hs1]. eapply wp_mono; [by apply H2|]. cbn beta.
    intros a m2 [? Hs2]. split; [done|]. by eapply pstep_trans; [..|exact Hs1|exact Hs2].
  - rewrite (proj2 (Z.eqb_neq _ _) Hne). cbn [negb]. apply wp_bind.
    eapply wp_mono; [apply (h_free_pages m F pa n [] F1 m1 Hh); lia|]. cbn beta. intros _ m2 [F2 H3].
    apply h_done in H3 as [Hok2 Hs2]. eapply wp_mono; [by apply H1|]. cbn beta.
    intros a m3 [? Hs3]. split; [done|]. by eapply pstep_trans; [..|exact Hs2|exact Hs3].
Qed.

Lemma pkeeps_ext {A} (c d : prog pmm_mem A) : (forall s, c s = d s) -> pkeeps c -> pkeeps d.
Proof. intros He Hc m F Hok t. rewrite <-He. by apply Hc. Qed.

Lemma pbind_assoc {A B C} (c : prog pmm_mem A) (f : A -> prog pmm_mem B) (g : B -> prog pmm_mem C) s :
  pbind (pbind c f) g s = pbind c (fun a => pbind (f a) g) s.
Proof. unfold pbind. by destruct (c s) as [[a s']|]. Qed.

Lemma pkeeps_hier_orders k o c : pkeeps (hier_orders k o c).
Proof.
  revert o c. induction k as [|k IH]; intros o c; cbn [hier_orders]; [apply pkeeps_ret|].
  apply (pkeeps_alloc_free (order_pages o) (hier_orders k (S o) (c + 1)) (hier_orders k (S o) c)); try done.
  rewrite order_pages_eq. pose proof (pages_of_pos o). lia.
Qed.

Lemma pkeeps_hier_big k n : pkeeps (hier_big k n).
Proof.
  revert n. induction k as [|k IH]; intros n; cbn [hier_big]; [apply pkeeps_ret|].
  eapply pkeeps_ext; [|apply (pkeeps_alloc_free (order_pages PMM_MAX_ORDER) (hier_big k (n + 1)) (pret n)); [done|done|apply pkeeps_ret]].
  intros s. unfold pbind at 1 3. destruct (pmm_alloc_pages _ s) as [[pa s']|]; [|done]. by destruct (pa =? 0).
Qed.

Lemma pkeeps_soft_hier : pkeeps soft_hier_exercise.
Proof.
  unfold soft_hier_exercise. apply pkeeps_bind; [apply pkeeps_force32|]. intros _.
  assert (pkeeps (paLow <- pmm_alloc_low ;;
    (if negb (paLow =? 0) then pmm_free paLow ;;; pret (if paLow <? PMM_LOW_MAX then 1 else 0) else pret 0))) as H1.
  { intros m F Hok. apply wp_bind. eapply wp_mono; [by apply (pheld_alloc_low m F []), pheld_refl|].
    cbn beta. intros pa m1 [(-> & Hh)|(Hp & Hz & Hh)]; [cbn; wsteps; by apply pheld_done|].
    rewrite (page_ok_nonzero m pa Hp). cbn [negb]. apply wp_bind. eapply wp_mono; [by apply pheld_free|].
    cbn beta. intros _ m2 H2. wsteps. by apply pheld_done. }
  eapply (pkeeps_ext (c0 <- (paLow <- pmm_alloc_low ;;
    (if negb (paLow =? 0) then pmm_free paLow ;;; pret (if paLow <? PMM_LOW_MAX then 1 else 0) else pret 0)) ;;
    cOk <- hier_orders PMM_MAX_ORDER 1 c0 ;; nBig <- hier_big 8 0 ;; pret (cOk, nBig))).
  { intros s. apply pbind_assoc. }
  apply pkeeps_bind; [done|]. intros c0. apply pkeeps_bind; [apply pkeeps_hier_orders|]. intros c1.
  apply pkeeps_bind; [apply pkeeps_hier_big|]. intros n. apply pkeeps_ret.
Qed.

Lemma pkeeps_inventory b : pkeeps (pmm_soft_inventory b).
Proof.
  unfold pmm_soft_inventory. destruct b; [apply pkeeps_ret|]. apply pkeeps_bind; [|intros _; apply pkeeps_force32].
  intros m F Hok. wsteps. split; [done|apply pstep_refl].
Qed.

Lemma wp_soak_singles n m0 F0 H m :
  pheld m0 F0 H m ->
  wp (soak_singles n H) (fun r m' => match r with None => pheld m0 F0 [] m' | Some l => pheld m0 F0 l m' end) m.
Proof.
  revert H m. induction n as [|n IH]; intros H m Hh; cbn [soak_singles]; [by wsteps|].
  apply wp_bind. destruct Hh as [F Hh]. eapply wp_mono; [by apply h_alloc|].
  cbn beta. intros pa m1 [(-> & H1)|(Hne & F1 & H1)].
  - cbn. apply wp_bind. eapply wp_mono; [apply (pheld_push_list m0 F0 H []); rewrite app_nil_r; by exists F|].
    cbn beta. intros _ m2 H2. by wsteps.
  - rewrite (proj2 (Z.eqb_neq _ _) Hne). apply IH. by exists F1.
Qed.

Lemma pkeeps_step {A} m F (c : prog pmm_mem A) m1 :
  pkeeps c -> pmm_ok m1 F -> pstep F m m1 -> wp c (fun _ m' => pmm_ok m' F /\ pstep F m m') m1.
Proof.
  intros Hk Hok Hs. eapply wp_mono; [by apply Hk|]. cbn beta. intros _ m2 [? Hs2]. split; [done|].
  by eapply pstep_trans; [..|exact Hs|exact Hs2].
Qed.

Lemma pkeeps_soak b s c : 0 <= c -> pkeeps (pmm_soak b s c).
Proof.
  intros Hc m F Hok. unfold pmm_soak.
  set (contig := if c =? 0 then 4 else if 64 <? c then 64 else c).
  assert (0 < contig) as Hn.
  { unfold contig. destruct (Z.eqb_spec c 0), (Z.ltb_spec 64 c); lia. }
  apply wp_bind. eapply wp_mono; [by apply (wp_soak_singles _ m F), pheld_refl|].
  cbn beta. intros [l|] m1 Hh; [|wsteps; by apply pheld_done].
  apply wp_bind. eapply wp_mono; [apply (pheld_push_list m F (rev l) [])|].
  { rewrite app_nil_r. eapply pheld_perm; [|done]. by rewrite rev_perm. }
  cbn beta. intros _ m2 H2. apply pheld_done in H2 as [Hok2 Hs2]. apply pkeeps_step; [|done|done].
  eapply pkeeps_ext; [|apply (pkeeps_alloc_free contig (pmm_soft_inventory b ;;; pret 0) (pret (-1)) Hn)].
  - intros st. unfold pbind at 1 4. destruct (pmm_alloc_pages _ st) as [[pa s']|]; [|done]. by destruct (pa =? 0).
  - apply pkeeps_bind; [apply pkeeps_inventory|intros _; apply pkeeps_ret].
  - apply pkeeps_ret.
Qed.

(** [pmm_soak_tib]: four and sixteen pages at once, then the exercise. *)
Lemma pkeeps_soak_tib_body b : pkeeps (soak_tib_body b).
Proof.
  assert (forall n m1 F1, 0 < n -> pmm_ok m1 F1 -> wp (pmm_alloc_pages n) (pages_post n F1 m1) m1) as HP.
  { intros n m1 F1 Hn Hok1. apply wp_pmm_alloc_pages; [done|lia]. }
  intros m F Hok. unfold soak_tib_body. apply wp_bind.
  eapply wp_mono; [apply (h_pages m F _ 4 [] F m); [by apply holding_refl|lia|intros; apply HP; [lia|done]]|].
  cbn beta. intros pa4 m1 H4. apply wp_bind.
  destruct H4 as [(-> & Hh)|(Hne & F1 & Hh)].
  - eapply wp_mono; [apply (h_pages m F _ 16 [] F m1 Hh); [lia|intros; apply HP; [lia|done]]|].
    cbn beta. intros pa16 m2 [(-> & H2)|(Hne2 & F2 & H2)].
    + cbn. wsteps. by eapply h_done.
    + rewrite (proj2 (Z.eqb_neq _ _) Hne2). cbn [negb orb Z.eqb]. wsteps.
      eapply wp_mono; [by apply (h_free_pages m F pa16 16 [] F2 m2)|]. cbn beta. intros _ m3 [F3 H3]. wsteps. by eapply h_done.
  - eapply wp_mono; [apply (h_pages m F _ 16 _ F1 m1 Hh); [lia|intros; apply HP; [lia|done]]|].
    cbn beta. intros pa16 m2 [(-> & H2)|(Hne2 & F2 & H2)]; rewrite (proj2 (Z.eqb_neq _ _) Hne).
    + cbn [negb orb Z.eqb]. wsteps. eapply wp_mono; [by apply (h_free_pages m F pa4 4 [] F1 m2)|].
      cbn beta. intros _ m3 [F3 H3]. wsteps. by eapply h_done.
    + rewrite (proj2 (Z.eqb_neq _ _) Hne2). cbn [negb orb].
      apply wp_bind. eapply wp_mono; [by apply (h_free_pages m F pa16 16 (run pa4 4 ++ []) F2 m2)|].
      cbn beta. intros _ m3 [F3 H3]. apply wp_bind. eapply wp_mono; [by apply (h_free_pages m F pa4 4 [] F3 m3)|].
      cbn beta. intros _ m4 [F4 H5]. apply h_done in H5 as [Hok4 Hs4]. apply pkeeps_step; [|done|done].
      apply pkeeps_bind; [apply pkeeps_soft_hier|]. intros _.
      apply pkeeps_bind; [apply pkeeps_inventory|intros _; apply pkeeps_ret].
Qed.

Lemma pkeeps_soak_tib b need : pkeeps (pmm_soak_tib b need).
Proof.
  unfold pmm_soak_tib. apply pkeeps_get. intros m. destruct (_ <? _); [|apply pkeeps_soak_tib_body].
  apply pkeeps_bind; [apply pkeeps_soft_hier|]. intros _.
  apply pkeeps_bind; [apply pkeeps_inventory|intros _; apply pkeeps_ret].
Qed.
