(* ===== verification/PmmSys.v ===== *)
(** The page allocator in use: boot, then any sequence of calls by clients that
    free only what they own and write only to their own pages. *)
From stdpp Require Import base gmap list strings.
From Stdlib Require Import ZArith Lia.
From S2P Require Import Prelude Pmm PmmInv PmmOps PmmBoot PmmSelf.

Ltac wstep_hook ::=
  lazymatch goal with
  | |- wp (tick_sat64 _) _ _ => apply wp_tick_sat64
  end.

(** ** Boot *)
Definition map_high (l : list pmm_pending) : list Z := l ≫= (fun p => range_pages (pp_paBase p) (pp_cbLen p)).

(** A memory map that [pmm_init] can be given: regions inside physical memory
    that share no page, whose words exist, and a kernel image that is not empty. *)
Record boot_ok (m : pmm_mem) (regions : list gj_mem_region) (k0 k1 : Z) : Prop := {
  bo_ker : 0 <= k0 < k1 /\ k1 <= PA_MAX;
  bo_reg : Forall region_ok regions;
  bo_nodup : NoDup (map_low regions ++ map_high (pend [] regions));
  bo_word : forall x, x ∈ map_low regions ++ map_high (pend [] regions) ->
    is_Some (pm_phys m !! x) /\ is_Some (pm_phys m !! (x + 8)) }.

(** The pages the allocator manages, before and after the release of high memory. *)
Definition managed (B : pmm_mem) (regions : list gj_mem_region) (released : bool) : list Z :=
  List.filter (usable B) (map_low regions ++ (if released then map_high (pend [] regions) else [])).

Lemma range_pages_in base len x :
  0 <= base -> x ∈ range_pages base len -> x mod GJ_PAGE_SIZE = 0 /\ base <= x /\ x + GJ_PAGE_SIZE <= base + len.
Proof.
  intros Hb Hx. unfold range_pages in Hx. apply elem_of_run in Hx as (i & Hi & ->).
  pose proof (page_span (base + len) (base + GJ_PAGE_SIZE - 1)) as Hs.
  set (n := _ / GJ_PAGE_SIZE) in *. pose proof (page_of_mod (base + GJ_PAGE_SIZE - 1)) as Hm.
  assert (page_of (base + len) <= base + len) as Hu.
  { unfold page_of. pose proof (Z.mod_pos_bound (base + len) GJ_PAGE_SIZE ltac:(done)). lia. }
  assert (base <= page_of (base + GJ_PAGE_SIZE - 1)) as Hl.
  { unfold page_of. pose proof (Z.mod_pos_bound (base + GJ_PAGE_SIZE - 1) GJ_PAGE_SIZE ltac:(done)). lia. }
  split_and!.
  - by rewrite Z.add_mod, Hm, Z.mod_mul by done.
  - unfold GJ_PAGE_SIZE in *. lia.
  - unfold GJ_PAGE_SIZE in *. lia.
Qed.

Lemma low_pages_in r x :
  region_ok r -> x ∈ low_pages r -> x mod GJ_PAGE_SIZE = 0 /\ x + GJ_PAGE_SIZE <= PA_MAX /\ zone x = true.
Proof.
  intros (Hb & Hl & Hm) Hx. unfold low_pages in Hx. unfold zone. rewrite Z.ltb_lt.
  destruct (Z.leb_spec (mr_paBase r + mr_cbLength r) PMM_LOW_MAX); [|destruct (Z.ltb_spec (mr_paBase r) PMM_LOW_MAX)];
    [..|by apply elem_of_nil in Hx]; apply range_pages_in in Hx as (? & ? & ?); try done;
    unfold PMM_LOW_MAX, PA_MAX, GJ_PAGE_SIZE in *; lia.
Qed.

Lemma pend_ok h l : Forall (fun p => 0 <= pp_paBase p /\ 0 <= pp_cbLen p /\ pp_paBase p + pp_cbLen p <= PA_MAX) h -> Forall region_ok l ->
  Forall (fun p => 0 <= pp_paBase p /\ 0 <= pp_cbLen p /\ pp_paBase p + pp_cbLen p <= PA_MAX) (pend h l).
Proof.
  intros Hh Hl. revert h Hh. induction Hl as [|r l (Hb & Hc & Hm) _ IH]; intros h Hh; simpl; [done|]. apply IH, Forall_app.
  split; [done|]. destruct (_ <? _)%nat; [|done]. unfold high_part.
  destruct (Z.leb_spec (mr_paBase r + mr_cbLength r) PMM_LOW_MAX); [done|].
  destruct (Z.ltb_spec (mr_paBase r) PMM_LOW_MAX); [|destruct (Z.ltb_spec 0 (mr_cbLength r)); [|done]];
    (constructor; [|done]); simpl; unfold PMM_LOW_MAX in *; lia.
Qed.

Lemma map_in B regions k0 k1 x :
  boot_ok B regions k0 k1 -> x ∈ map_low regions ++ map_high (pend [] regions) ->
  x mod GJ_PAGE_SIZE = 0 /\ x + GJ_PAGE_SIZE <= PA_MAX /\ (x ∈ map_low regions -> zone x = true).
Proof.
  intros [_ Hr _ _] Hx. rewrite Forall_forall in Hr.
  assert (x ∈ map_low regions -> x mod GJ_PAGE_SIZE = 0 /\ x + GJ_PAGE_SIZE <= PA_MAX /\ zone x = true) as Hlow.
  { intros Hin. apply list_elem_of_bind in Hin as (r & Hin & Hrin). by apply (low_pages_in r); [apply Hr|]. }
  apply elem_of_app in Hx as [Hx|Hx]; [destruct (Hlow Hx) as (? & ? & ?); by split_and!|].
  apply list_elem_of_bind in Hx as (p & Hx & Hp).
  assert (0 <= pp_paBase p /\ 0 <= pp_cbLen p /\ pp_paBase p + pp_cbLen p <= PA_MAX) as (H1 & H2 & H3).
  { pose proof (pend_ok [] regions ltac:(done) ltac:(by apply Forall_forall)) as HF.
    rewrite Forall_forall in HF. by apply HF. }
  apply range_pages_in in Hx as (? & ? & ?); [|done]. split_and!; [done|lia|]. intros Hin. by apply Hlow.
Qed.

Lemma reset_rep m k0 k1 :
  0 <= k0 < k1 -> k1 <= PA_MAX -> pmm_ok (pmm_reset k0 k1 m) [].
Proof.
  intros Hk Hm. exists []. split; [|done]. split; try done.
  - intros z o h E. assert (h = 0) as ->; [|done].
    destruct z; apply lookup_replicate_1 in E as [? _]; done.
  - intros o c E. apply lookup_replicate_1 in E as [-> _]. done.
  - by constructor.
  - simpl. unfold page_up. rewrite !page_down_eq. unfold PA_MAX in *. rewrite u64_add_small by (unfold GJ_PAGE_SIZE; lia).
    assert (k1 <= page_of (k1 + (GJ_PAGE_SIZE - 1))); [|pose proof (page_of_le k0 ltac:(lia)); lia].
    unfold page_of. pose proof (Z.mod_pos_bound (k1 + (GJ_PAGE_SIZE - 1)) GJ_PAGE_SIZE ltac:(done)). lia.
Qed.

(** ** The invariant *)
Record pmm_inv (B : pmm_mem) (regions : list gj_mem_region) (A : list Z) (m : pmm_mem) : Prop := {
  iv_ker : g_paKernel m = g_paKernel B;
  iv_media : g_paSoftMedia m = g_paSoftMedia B;
  iv_high : g_aHigh m = pend [] regions;
  iv_hhdm : g_fHighReleased m = true -> pm_hhdm m = true;
  iv_dom : forall a, is_Some (pm_phys m !! a) <-> is_Some (pm_phys B !! a);
  iv_own : exists F, pmm_ok m F /\ F ++ A ≡ₚ managed B regions (g_fHighReleased m) }.

Lemma inv_usable B regions A m x : pmm_inv B regions A m -> usable m x = usable B x.
Proof. intros []. unfold usable, range_ok_free. by rewrite iv_ker0, iv_media0. Qed.

Lemma managed_in B regions rel x :
  x ∈ managed B regions rel <->
  usable B x = true /\ (x ∈ map_low regions \/ (rel = true /\ x ∈ map_high (pend [] regions))).
Proof.
  unfold managed. rewrite list_elem_of_In, filter_In, <-list_elem_of_In, elem_of_app. destruct rel; [naive_solver|].
  rewrite elem_of_nil. naive_solver.
Qed.

Lemma managed_ok B regions k0 k1 A m x :
  boot_ok B regions k0 k1 -> pmm_inv B regions A m -> x ∈ managed B regions (g_fHighReleased m) -> page_ok m x.
Proof.
  intros Hb Hi Hx. apply managed_in in Hx as [Hu Hx].
  assert (x ∈ map_low regions ++ map_high (pend [] regions)) as Hin by (apply elem_of_app; naive_solver).
  destruct (map_in B regions k0 k1 x Hb Hin) as (H1 & H2 & H3). destruct (bo_word _ _ _ _ Hb x Hin).
  split; [done|done| | |by apply (iv_dom _ _ _ _ Hi)..].
  - fold (usable m x). by rewrite (inv_usable B regions A m x Hi).
  - destruct Hx as [Hx|[Hr _]]; [left; by apply H3|right; by apply Hi].
Qed.

Lemma managed_nodup B regions k0 k1 rel : boot_ok B regions k0 k1 -> NoDup (managed B regions rel).
Proof.
  intros Hb. unfold managed. apply NoDup_ListNoDup, List.NoDup_filter, NoDup_ListNoDup.
  pose proof (bo_nodup _ _ _ _ Hb) as H. destruct rel; [done|]. rewrite app_nil_r. by apply NoDup_app in H as (? & _).
Qed.

(** Every call that leaves the free pages alone up to what it takes or gives. *)
Lemma inv_step B regions A m P m' F A' :
  pmm_inv B regions A m -> pstep P m m' -> pmm_ok m' F ->
  F ++ A' ≡ₚ managed B regions (g_fHighReleased m) -> pmm_inv B regions A' m'.
Proof.
  intros [] [] Hok HF. split; try congruence.
  - rewrite ps_rel, ps_hhdm. done.
  - intros a. by rewrite ps_dom.
  - exists F. by rewrite ps_rel.
Qed.

Lemma inv_got B regions A m F n pa m' :
  pmm_inv B regions A m -> pmm_ok m F -> F ++ A ≡ₚ managed B regions (g_fHighReleased m) ->
  got F n pa m m' -> pmm_inv B regions (run pa n ++ A) m'.
Proof.
  intros Hi Hok HF (_ & F' & HF' & Hok' & Hs). eapply inv_step; [done|done|done|].
  rewrite <-HF, HF'. rewrite <-!app_assoc. rewrite !app_assoc. by rewrite (Permutation_app_comm F').
Qed.

Lemma inv_keep B regions A m F m' :
  pmm_inv B regions A m -> F ++ A ≡ₚ managed B regions (g_fHighReleased m) ->
  pmm_ok m' F -> pstep F m m' -> pmm_inv B regions A m'.
Proof. intros Hi HF Hok Hs. by eapply inv_step. Qed.

(** Pages of the owners given back. *)
Lemma inv_given B regions k0 k1 A m l A0 F :
  boot_ok B regions k0 k1 -> pmm_inv B regions A m -> A ≡ₚ l ++ A0 ->
  F ++ A ≡ₚ managed B regions (g_fHighReleased m) ->
  Forall (page_ok m) l /\ NoDup (l ++ F) /\
  forall m', pmm_ok m' (l ++ F) -> pstep l m m' -> pmm_inv B regions A0 m'.
Proof.
  intros Hb Hi HA HF. split_and!.
  - apply Forall_forall. intros x Hx. eapply managed_ok; [done|done|]. rewrite <-HF, HA. set_solver.
  - pose proof (managed_nodup B regions k0 k1 (g_fHighReleased m) Hb) as Hd. rewrite <-HF, HA in Hd.
    rewrite app_assoc, (Permutation_app_comm F) in Hd. by apply NoDup_app in Hd as (? & _).
  - intros m' Hok Hs. eapply inv_step; [done|done|done|]. rewrite <-HF, HA.
    rewrite !app_assoc. by rewrite (Permutation_app_comm l).
Qed.

(** ** Events *)
Inductive pmm_ev : Type :=
| PvAlloc
| PvAllocHigh
| PvAllocLow
| PvPages (n : Z)
| PvPagesLow (n : Z)
| PvFree (pa : Z)
| PvFreePages (pa n : Z)
| PvStore (a v : Z)
| PvHhdm
| PvRelease (fDead : bool)
| PvLog (fDead : bool)
| PvSoak (fDead : bool) (s c : Z)
| PvSoakTib (fDead : bool) (need : Z).

Definition pexec (ev : pmm_ev) : prog pmm_mem Z :=
  match ev with
  | PvAlloc => pmm_alloc
  | PvAllocHigh => pmm_alloc_high
  | PvAllocLow => pmm_alloc_low
  | PvPages n => pmm_alloc_pages n
  | PvPagesLow n => pmm_alloc_pages_low n
  | PvFree pa => pmm_free pa ;;; pret 0
  | PvFreePages pa n => pmm_free_pages pa n ;;; pret 0
  | PvStore a v => st_word a v ;;; pret 0
  | PvHhdm => pmod (set_hhdm true) ;;; pret 0
  | PvRelease d => pmm_release_high d ;;; pret 0
  | PvLog d => pmm_log_orders d ;;; pret 0
  | PvSoak d s c => pmm_soak d s c
  | PvSoakTib d need => pmm_soak_tib d need
  end.

(** The pages an event hands out when it returns [r], takes back, and the words
    it writes for its owner. *)
Definition taken (ev : pmm_ev) (r : Z) : list Z :=
  match ev with
  | PvAlloc | PvAllocHigh | PvAllocLow => if r =? 0 then [] else [r]
  | PvPages n | PvPagesLow n => if r =? 0 then [] else run r n
  | _ => []
  end.
Definition given (ev : pmm_ev) : list Z :=
  match ev with
  | PvFree pa => [pa]
  | PvFreePages pa n => run pa n
  | _ => []
  end.
Definition written (ev : pmm_ev) : list Z := match ev with PvStore a _ => [a] | _ => [] end.

(** What a client that owns the pages [A] may do. *)
Definition allowed (ev : pmm_ev) (A : list Z) (m : pmm_mem) : Prop :=
  given ev ⊆ A /\
  match ev with
  | PvPages n | PvPagesLow n => 0 <= n
  | PvFreePages _ n => 0 <= n
  | PvStore a _ => page_of a ∈ A /\ is_Some (pm_phys m !! a)
  | PvSoak _ _ c => 0 <= c
  | _ => True
  end.

(** The effect of an event: the invariant with the new owners, and no word of a
    page that stays with its owner changes, except by its own store. *)
Definition ev_post (B : pmm_mem) (regions : list gj_mem_region) (ev : pmm_ev) (A0 : list Z) (m : pmm_mem)
  (r : Z) (m' : pmm_mem) : Prop :=
  pmm_inv B regions (taken ev r ++ A0) m' /\
  forall a, page_of a ∈ A0 -> a ∉ written ev -> pm_phys m' !! a = pm_phys m !! a.

Lemma ev_frame (P A0 A F : list Z) m m' :
  pstep P m m' -> NoDup (F ++ A) -> (forall x, x ∈ P -> x ∈ F) -> A0 ⊆ A ->
  forall a, page_of a ∈ A0 -> pm_phys m' !! a = pm_phys m !! a.
Proof.
  intros [] Hd HP HA a Ha. apply ps_frame. intros Hin. apply NoDup_app in Hd as (_ & Hd & _).
  apply (Hd (page_of a)); [by apply HP|by apply HA].
Qed.

Section Events.
Context (B : pmm_mem) (regions : list gj_mem_region) (k0 k1 : Z) (Hboot : boot_ok B regions k0 k1).

Lemma inv_free_nodup A m F :
  pmm_inv B regions A m -> F ++ A ≡ₚ managed B regions (g_fHighReleased m) -> NoDup (F ++ A).
Proof. intros _ HF. rewrite HF. by eapply managed_nodup. Qed.

(** An event that takes nothing back and returns pages or 0. *)
Lemma ev_alloc ev A A0 m F r m' n :
  pmm_inv B regions A m -> pmm_ok m F -> F ++ A ≡ₚ managed B regions (g_fHighReleased m) -> A ≡ₚ A0 ->
  written ev = [] -> (taken ev 0 = []) -> (r <> 0 -> taken ev r = run r n) ->
  pages_post n F m r m' -> ev_post B regions ev A0 m r m'.
Proof.
  intros Hi Hok HF HA Hw Ht0 Ht Hp. pose proof (inv_free_nodup A m F Hi HF) as Hd. rewrite HA in HF, Hd.
  destruct Hi as [I1 I2 I3 I4 I5 I6]. assert (pmm_inv B regions A0 m) as Hi by (split; eauto).
  destruct Hp as [(-> & Hok' & Hs)|Hg].
  - split.
    + rewrite Ht0. by eapply inv_keep.
    + intros a Ha _. by eapply ev_frame.
  - split.
    + rewrite Ht by apply Hg. by eapply inv_got.
    + destruct Hg as (_ & F' & _ & _ & Hs). intros a Ha _. by eapply ev_frame.
Qed.

Lemma ev_keeps ev A A0 m (c : prog pmm_mem Z) :
  pmm_inv B regions A m -> A ≡ₚ A0 -> (forall r, taken ev r = []) -> written ev = [] ->
  pkeeps c -> wp c (ev_post B regions ev A0 m) m.
Proof.
  intros Hi HA Ht Hw Hk. pose proof (iv_own _ _ _ _ Hi) as (F & Hok & HF).
  eapply wp_mono; [by apply Hk|]. cbn beta. intros r m' [Hok' Hs].
  pose proof (inv_free_nodup A m F Hi HF) as Hd. rewrite HA in HF, Hd.
  destruct Hi as [I1 I2 I3 I4 I5 I6]. assert (pmm_inv B regions A0 m) as Hi by (split; eauto).
  split; [rewrite Ht; by eapply inv_keep|]. intros a Ha _. by eapply ev_frame.
Qed.

Lemma ev_give ev A A0 m (c : prog pmm_mem unit) :
  pmm_inv B regions A m -> A ≡ₚ given ev ++ A0 -> (forall r, taken ev r = []) ->
  (forall F, pmm_ok m F -> Forall (page_ok m) (given ev) -> NoDup (given ev ++ F) ->
     wp c (fun _ m' => pmm_ok m' (given ev ++ F) /\ pstep (given ev) m m') m) ->
  wp (c ;;; pret 0) (ev_post B regions ev A0 m) m.
Proof.
  intros Hi HA Ht Hc. pose proof (iv_own _ _ _ _ Hi) as (F & Hok & HF).
  destruct (inv_given B regions k0 k1 A m (given ev) A0 F) as (Hp & Hd & Hnext); [done..|].
  apply wp_bind. eapply wp_mono; [by apply (Hc F)|]. cbn beta. intros _ m' [Hok' Hs]. wsteps.
  split; [rewrite Ht; by apply Hnext|]. intros a Ha _.
  pose proof (inv_free_nodup A m F Hi HF) as HD. rewrite HA in HD.
  apply (ps_frame _ _ _ Hs). intros Hin. apply NoDup_app in HD as (_ & _ & HD).
  apply NoDup_app in HD as (_ & HD & _). by apply (HD (page_of a) Hin).
Qed.

Lemma ev_store a v A A0 m :
  pmm_inv B regions A m -> A ≡ₚ A0 -> page_of a ∈ A -> is_Some (pm_phys m !! a) ->
  wp (st_word a v ;;; pret 0) (ev_post B regions (PvStore a v) A0 m) m.
Proof.
  intros Hi HA Ha [w Ew]. pose proof (iv_own _ _ _ _ Hi) as (F & Hok & HF).
  pose proof (inv_free_nodup A m F Hi HF) as Hd. unfold st_word. wsteps. rewrite Ew. wsteps.
  destruct (pmm_ok_store m F a v Hok) as [Hok' Hs]; [|by rewrite Ew|].
  { intros Hin. apply NoDup_app in Hd as (_ & Hd & _). by apply (Hd _ Hin). }
  rewrite HA in HF. split.
  - destruct Hi as [I1 I2 I3 I4 I5 I6]. assert (pmm_inv B regions A0 m) as Hi by (split; eauto). by eapply inv_step.
  - intros b _ Hb. simpl in *. rewrite lookup_insert_ne; [done|]. set_solver.
Qed.

Lemma pmm_ok_hhdm m F : pmm_ok m F -> pmm_ok (set_hhdm true m) F.
Proof.
  intros (N & Hr & HN). exists N. split; [|done]. destruct Hr. split; try done.
  eapply Forall_impl; [done|]. intros n (? & ? & HF). split_and!; [done|done|].
  eapply Forall_impl; [done|]. intros x []. split; try done. by right.
Qed.

Lemma ev_hhdm A A0 m :
  pmm_inv B regions A m -> A ≡ₚ A0 ->
  wp (pmod (set_hhdm true) ;;; pret 0) (ev_post B regions PvHhdm A0 m) m.
Proof.
  intros [I1 I2 I3 I4 I5 (F & Hok & HF)] HA. wsteps. split; [|done].
  split; try done. exists F. split; [by apply pmm_ok_hhdm|]. simpl. by rewrite <-HA.
Qed.

Lemma wp_release_ranges l m F :
  pmm_ok m F -> Forall (fun p => 0 <= pp_paBase p /\ 0 <= pp_cbLen p /\ pp_paBase p + pp_cbLen p <= PA_MAX) l ->
  NoDup (map_high l) -> offered m F (map_high l) ->
  wp (release_ranges l) (fun _ m' =>
    pmm_ok m' (List.filter (usable m) (map_high l) ++ F) /\ pstep (map_high l) m m') m.
Proof.
  revert m F. induction l as [|p l IH]; intros m F Hok Hl Hd Hof; cbn [release_ranges].
  { wsteps. split; [done|apply pstep_refl]. }
  inversion Hl as [|? ? (H1 & H2 & H3) Hl2]; subst.
  change (map_high (p :: l)) with (range_pages (pp_paBase p) (pp_cbLen p) ++ map_high l) in *.
  apply wp_bind. eapply wp_mono; [apply (wp_free_range m F _ _ false Hok H1 H2 H3); intros x Hx; apply Hof; set_solver|].
  cbn beta. intros _ m1 [Hok1 Hs1]. assert (pstep (range_pages (pp_paBase p) (pp_cbLen p)) (with_high (g_aHigh m) m) m1) as Hs1'.
  { by destruct Hs1; split. }
  eapply wp_mono; [apply (IH m1 _ Hok1 Hl2); [by apply NoDup_app in Hd as (_ & _ & ?)|by eapply offered_app]|].
  cbn beta. intros _ m' [Hok' Hs']. rewrite (filter_ext_usable _ _ m1 _ Hs1) in Hok'. split.
  - rewrite List.filter_app. eapply pmm_ok_perm; [|exact Hok']. rewrite !app_assoc.
    by rewrite (Permutation_app_comm (List.filter (usable m) (map_high l))).
  - eapply pstep_trans; [..|exact Hs1|exact Hs']; intros x Hx; apply elem_of_app; auto.
Qed.

(** High memory is offered once the higher-half map is there. *)
Lemma high_offered A m F :
  pmm_inv B regions A m -> F ++ A ≡ₚ managed B regions (g_fHighReleased m) -> g_fHighReleased m = false ->
  pm_hhdm m = true -> offered m F (map_high (pend [] regions)) /\ forall x, x ∈ A -> x ∉ map_high (pend [] regions).
Proof.
  intros Hi HF Hr Hh. pose proof (bo_nodup _ _ _ _ Hboot) as Hd. apply NoDup_app in Hd as (_ & Hd & _).
  assert (forall x, x ∈ F ++ A -> x ∉ map_high (pend [] regions)) as Hn.
  { intros x Hx. rewrite HF, Hr in Hx. apply managed_in in Hx as [_ [Hx|[? _]]]; [|done]. by apply Hd. }
  split; [|set_solver]. intros x Hx Hu. split; [|set_solver].
  assert (x ∈ map_low regions ++ map_high (pend [] regions)) as Hin by set_solver.
  destruct (map_in B regions k0 k1 x Hboot Hin) as (H1 & H2 & _). destruct (bo_word _ _ _ _ Hboot x Hin).
  split; [done|done|done|by right|by apply (iv_dom _ _ _ _ Hi)..].
Qed.

Lemma release_managed A m F :
  pmm_inv B regions A m -> F ++ A ≡ₚ managed B regions false ->
  (List.filter (usable m) (map_high (pend [] regions)) ++ F) ++ A ≡ₚ managed B regions true.
Proof.
  intros [I1 I2 _ _ _ _] HF. unfold managed in *. rewrite List.filter_app, app_nil_r in *. rewrite <-HF.
  assert (List.filter (usable m) (map_high (pend [] regions)) = List.filter (usable B) (map_high (pend [] regions))) as ->.
  { apply filter_ext. intros x. unfold usable, range_ok_free. by rewrite I1, I2. }
  rewrite <-app_assoc. by rewrite Permutation_app_comm.
Qed.

Lemma inv_released A m F P m1 a b :
  pmm_inv B regions A m -> pm_hhdm m = true -> pstep P m m1 -> pmm_ok m1 F -> F ++ A ≡ₚ managed B regions true ->
  pmm_inv B regions A (set_totals a b (g_paKernel m1) (g_paSoftMedia m1) (g_aHigh m1) true m1).
Proof.
  intros [I1 I2 I3 I4 I5 _] Hh [S1 S2 S3 S4 S5 S6 S7] Hok HF. split; simpl; try congruence.
  - intros c. by rewrite S6.
  - exists F. split; [by apply pmm_ok_totals|done].
Qed.

Lemma ev_release d A A0 m :
  pmm_inv B regions A m -> A ≡ₚ A0 ->
  wp (pmm_release_high d ;;; pret 0) (ev_post B regions (PvRelease d) A0 m) m.
Proof.
  intros Hi0 HA. assert (pmm_inv B regions A0 m) as Hi.
  { destruct Hi0 as [I1 I2 I3 I4 I5 (F & ? & ?)]. split; try done. exists F. by rewrite <-HA. }
  clear A HA Hi0. unfold pmm_release_high. apply wp_bind. wstep. wstep.
  destruct (g_fHighReleased m || negb (pm_hhdm m)) eqn:E; [by wsteps|].
  apply orb_false_iff in E as [Hr Hh]. apply negb_false_iff in Hh.
  pose proof (iv_own _ _ _ _ Hi) as (F & Hok & HF). pose proof (inv_free_nodup A0 m F Hi HF) as Hd.
  destruct (high_offered A0 m F Hi HF Hr Hh) as [Hof HnA]. rewrite Hr in HF.
  rewrite (iv_high _ _ _ _ Hi). apply wp_bind. eapply wp_mono.
  { apply (wp_release_ranges _ m F Hok); [apply pend_ok; [done|apply Hboot]| |done].
    pose proof (bo_nodup _ _ _ _ Hboot) as H. by apply NoDup_app in H as (_ & _ & ?). }
  cbn beta. intros _ m1 [Hok1 Hs1]. wstep. wstep.
  pose proof (release_managed A0 m F Hi HF) as HM. set (F1 := List.filter _ _ ++ F) in *.
  pose proof (inv_released A0 m F1 _ m1 (g_cFramesTotal m1) (g_paMaxSeen m1) Hi Hh Hs1 Hok1 HM) as Hi2.
  set (m2 := set_totals _ _ _ _ _ _ m1) in *.
  eapply wp_mono; [apply (pkeeps_inventory d m2 F1); by apply pmm_ok_totals|].
  cbn beta. intros _ m3 [Hok3 Hs3]. wstep. split; [by eapply inv_keep|].
  intros a Ha _. rewrite (ps_frame _ _ _ Hs3); [apply (ps_frame _ _ _ Hs1); by apply HnA|].
  unfold F1. rewrite elem_of_app. intros [Hin|Hin].
  - apply list_elem_of_In, filter_In in Hin as [Hin _]. apply list_elem_of_In in Hin. by apply (HnA (page_of a)).
  - apply NoDup_app in Hd as (_ & Hd & _). by apply (Hd _ Hin).
Qed.

(** Every allowed event completes, pkeeps the invariant and leaves the words of
    the pages that stay owned as they were. *)
Lemma wp_pexec ev A A0 m :
  pmm_inv B regions A m -> allowed ev A m -> A ≡ₚ given ev ++ A0 ->
  wp (pexec ev) (ev_post B regions ev A0 m) m.
Proof.
  intros Hi [_ Hal] HA. pose proof (iv_own _ _ _ _ Hi) as (F & Hok & HF).
  assert (forall c n, written ev = [] -> taken ev 0 = [] -> (forall r, r <> 0 -> taken ev r = run r n) -> A ≡ₚ A0 ->
    wp c (pages_post n F m) m -> wp c (ev_post B regions ev A0 m) m) as Halloc.
  { intros c n Hw H0 Ht HA' Hc. eapply wp_mono; [exact Hc|]. intros r m'. apply (ev_alloc ev A A0 m F r m' n); auto. }
  destruct ev; cbn [pexec given app] in *.
  - apply (Halloc _ 1); try done; [|eapply wp_mono; [by apply wp_pmm_alloc|]].
    + intros r Hr. simpl. by rewrite (proj2 (Z.eqb_neq _ _) Hr), run_one.
    + intros r m' [(-> & -> & _)|[? _]]; [left|by right]. split_and!; [done|done|apply pstep_refl].
  - apply (Halloc _ 1); try done; [|eapply wp_mono; [by apply wp_pmm_alloc_high|]].
    + intros r Hr. simpl. by rewrite (proj2 (Z.eqb_neq _ _) Hr), run_one.
    + intros r m' [(-> & -> & _)|?]; [left|by right]. split_and!; [done|done|apply pstep_refl].
  - apply (Halloc _ 1); try done; [|eapply wp_mono; [by apply wp_pmm_alloc_low|]].
    + intros r Hr. simpl. by rewrite (proj2 (Z.eqb_neq _ _) Hr), run_one.
    + intros r m' [(-> & -> & _)|[? _]]; [left|by right]. split_and!; [done|done|apply pstep_refl].
  - apply (Halloc _ n); try done; [|by apply wp_pmm_alloc_pages].
    intros r Hr. simpl. by rewrite (proj2 (Z.eqb_neq _ _) Hr).
  - apply (Halloc _ n); try done; [|eapply wp_mono; [by apply wp_pmm_alloc_pages_low|]].
    + intros r Hr. simpl. by rewrite (proj2 (Z.eqb_neq _ _) Hr).
    + intros r m' [?|[? _]]; [by left|by right].
  - apply (ev_give (PvFree pa) A A0); try done. intros F1 Hok1 Hp Hd.
    apply wp_push_free; [done|by inversion Hp|by apply NoDup_cons in Hd as [? _]].
  - apply (ev_give (PvFreePages pa n) A A0); try done. intros F1 Hok1 Hp Hd. by apply wp_pmm_free_pages.
  - destruct Hal. by apply (ev_store a v A A0).
  - by apply (ev_hhdm A A0).
  - by apply (ev_release fDead A A0).
  - apply (ev_keeps (PvLog fDead) A A0); try done. apply pkeeps_bind; [apply pkeeps_inventory|intros _; apply pkeeps_ret].
  - by apply (ev_keeps (PvSoak fDead s c) A A0); [..|apply pkeeps_soak].
  - by apply (ev_keeps (PvSoakTib fDead need) A A0); [..|apply pkeeps_soak_tib].
Qed.
End Events.

(** ** Runs *)
Inductive psteps : list pmm_ev -> pmm_mem * list Z -> pmm_mem * list Z -> Prop :=
| ps_nil s : psteps [] s s
| ps_cons ev evs m A A0 t r m1 t1 s :
    allowed ev A m -> A ≡ₚ given ev ++ A0 ->
    pexec ev (KSt m t) = Some (r, KSt m1 t1) ->
    psteps evs (m1, taken ev r ++ A0) s ->
    psteps (ev :: evs) (m, A) s.

Lemma psteps_inv B regions k0 k1 evs s s' :
  boot_ok B regions k0 k1 -> psteps evs s s' -> pmm_inv B regions (snd s) (fst s) -> pmm_inv B regions (snd s') (fst s').
Proof.
  intros Hb. induction 1 as [|ev evs m A A0 t r m1 t1 s Hal HA E _ IH]; [done|]. intros Hi. apply IH. simpl in *.
  by destruct (wp_run _ _ _ _ _ _ _ (wp_pexec B regions k0 k1 Hb ev A A0 m Hi Hal HA) E).
Qed.

Lemma wp_pmm_init m regions k0 k1 d :
  boot_ok m regions k0 k1 ->
  wp (pmm_init d regions k0 k1) (fun _ m' => pmm_inv (pmm_reset k0 k1 m) regions [] m') m.
Proof.
  intros Hb. unfold pmm_init. wstep. wstep. set (m0 := pmm_reset k0 k1 m). apply wp_bind, wp_tel. intros t.
  apply wp_bind, wp_tel_put. destruct (bo_ker _ _ _ _ Hb) as [Hk Hk1].
  assert (pmm_ok m0 []) as Hok by by apply reset_rep.
  assert (boot_ok m0 regions k0 k1) as Hb0 by (destruct Hb; by split).
  assert (NoDup (map_low regions)) as Hd.
  { pose proof (bo_nodup _ _ _ _ Hb) as H. by apply NoDup_app in H as (? & _). }
  apply wp_bind. eapply wp_mono; [apply (wp_init_regions regions m0 []); [done|apply Hb|done|]|].
  { intros x Hx Hu. split; [|apply not_elem_of_nil].
    assert (x ∈ map_low regions ++ map_high (pend [] regions)) as Hin by set_solver.
    destruct (map_in m0 regions k0 k1 x Hb0 Hin) as (H1 & H2 & H3). destruct (bo_word _ _ _ _ Hb0 x Hin).
    split; try done. left. auto. }
  cbn beta. intros _ m1 [Hok1 Hs1]. rewrite app_nil_r in Hok1. change (g_aHigh m0) with (@nil pmm_pending) in Hs1.
  assert (pmm_inv m0 regions [] m1) as Hi1.
  { destruct Hs1 as [S1 S2 S3 S4 S5 S6 S7]. split; try done; [by rewrite S4|].
    exists (List.filter (usable m0) (map_low regions)). rewrite S4. split; [done|]. unfold managed. simpl. by rewrite !app_nil_r. }
  pose proof (iv_own _ _ _ _ Hi1) as (F & HokF & HF).
  eapply wp_mono; [by apply (pkeeps_inventory d m1 F)|]. cbn beta. intros _ m2 [Hok2 Hs2]. by eapply inv_keep.
Qed.
