(* ===== verification/PmmClaims.v ===== *)
(** The properties of the physical page allocator, with witnesses. *)
From stdpp Require Import base gmap list strings.
From Stdlib Require Import ZArith Lia.
From S2P Require Import Prelude Pmm PmmInv PmmOps PmmBoot PmmSelf PmmSys.

(** C37: no page is ever handed out twice, lost or invented.  After [pmm_init]
    on a memory map, and after any sequence of calls in which clients free only
    pages they own and write only to pages they own, the free pages and the
    owned pages together are exactly the managed pages (the usable pages of the
    map, those above 4 GiB once they are released), without repetition, and the
    three free counters are exact.  Every further call completes, and it changes
    no word of a page that stays with its owner, except by the owner's store. *)
Theorem pmm_conserves_pages m regions k0 k1 d :
  boot_ok m regions k0 k1 ->
  wp (pmm_init d regions k0 k1) (fun _ m1 => forall evs m2 A, psteps evs (m1, []) (m2, A) ->
    (exists F, pmm_ok m2 F /\ NoDup (F ++ A) /\
       F ++ A ≡ₚ managed (pmm_reset k0 k1 m) regions (g_fHighReleased m2) /\
       pmm_free_count m2 = Z.of_nat (length F) /\
       pmm_free_frames_low m2 = Z.of_nat (countb zone F) /\
       pmm_free_frames_high m2 = Z.of_nat (countb (fun x => negb (zone x)) F)) /\
    (forall ev A0, allowed ev A m2 -> A ≡ₚ given ev ++ A0 ->
       wp (pexec ev) (fun r m3 => psteps [ev] (m2, A) (m3, taken ev r ++ A0) /\
         forall a, page_of a ∈ A0 -> a ∉ written ev -> pm_phys m3 !! a = pm_phys m2 !! a) m2)) m.
Proof.
  intros Hb. eapply wp_mono; [by apply wp_pmm_init|]. cbn beta. intros _ m1 Hi evs m2 A Hs.
  assert (boot_ok (pmm_reset k0 k1 m) regions k0 k1) as Hb0 by (destruct Hb; by split).
  pose proof (psteps_inv _ _ _ _ _ _ _ Hb0 Hs Hi) as Hi2. simpl in Hi2. split.
  - pose proof (iv_own _ _ _ _ Hi2) as (F & Hok & HF). exists F. split_and!; [done| |done|..].
    + rewrite HF. by eapply managed_nodup.
    + by apply pmm_ok_free.
    + by apply pmm_ok_low.
    + by apply pmm_ok_high.
  - intros ev A0 Hal HA t.
    destruct (wp_pexec _ _ _ _ Hb0 ev A A0 m2 Hi2 Hal HA t) as (r & m3 & t3 & E & _ & Hfr).
    exists r, m3, t3. split; [done|]. split; [|done]. by eapply ps_cons; [..|apply ps_nil].
Qed.


(** A machine with four pages at 2 MiB and two at 4 GiB, the kernel image at
    1 MiB. *)
Definition demo_regions : list gj_mem_region := [MkRegion 2097152 16384; MkRegion 4294967296 8192].
Definition demo_phys : gmap Z Z :=
  list_to_map ((fun x => (x, 0)) <$>
    ([2097152; 2101248; 2105344; 2109440; 4294967296; 4294971392] ≫= fun x => [x; x + 8])).
Definition demo_pmm : pmm_mem := MkPmm [] [] [] 0 0 0 0 0 (0, 0) (0, 0) [] false false demo_phys.

Lemma demo_boot_ok : boot_ok demo_pmm demo_regions 1048576 1052672.
Proof.
  split.
  - vm_compute. split; [split|]; congruence.
  - repeat constructor; vm_compute; congruence.
  - apply (bool_decide_unpack _). vm_compute. exact I.
  - assert (Forall (fun x => is_Some (pm_phys demo_pmm !! x) /\ is_Some (pm_phys demo_pmm !! (x + 8)))
      (map_low demo_regions ++ map_high (pend [] demo_regions))) as H.
    { apply (bool_decide_unpack _). vm_compute. exact I. }
    by rewrite Forall_forall in H.
Qed.

(** Boot, release of high memory, four neighbouring pages, then the rest: the
    block at 2 MiB is split off whole, the high pages follow, then nothing. *)
Example pmm_demo_run :
  (fst <$> (pmm_init true demo_regions 1048576 1052672 ;;; pmod (set_hhdm true) ;;; pmm_release_high true ;;;
    a <- pmm_alloc_pages 4 ;; b <- pmm_alloc ;; c <- pmm_alloc ;; d <- pmm_alloc ;;
    pmm_free_pages a 4 ;;; e <- pmm_alloc_pages_low 3 ;; f <- pmm_alloc_low ;; g <- pmm_alloc_low ;;
    pret [a; b; c; d; e; f; g]) (KSt demo_pmm ∅)) =
  Some [2097152; 4294967296; 4294971392; 0; 2097152; 2109440; 0].
Proof. vm_compute. reflexivity. Qed.

Lemma pmm_conserves_pages_witness :
  wp (pmm_init true demo_regions 1048576 1052672) (fun _ m1 => forall evs m2 A, psteps evs (m1, []) (m2, A) ->
    exists F, pmm_ok m2 F /\ F ++ A ≡ₚ managed (pmm_reset 1048576 1052672 demo_pmm) demo_regions (g_fHighReleased m2)) demo_pmm.
Proof.
  eapply wp_mono; [exact (pmm_conserves_pages demo_pmm demo_regions 1048576 1052672 true demo_boot_ok)|].
  cbn beta. intros _ m1 H evs m2 A Hs. destruct (H evs m2 A Hs) as [(F & H1 & _ & H2 & _) _]. by exists F.
Defined.

