(* ===== verification/Kheap.v ===== *)
(** The kernel heap, [kernel/mm/kheap.c].

    Memory is a byte map ([KString.bmem]); a block is a 24-byte header (size,
    magic, two waste fields, next) followed by its payload, and every field is
    read and written as its little-endian bytes, so a stray store would destroy
    a header here as it does there.  Pages come from a page source, of which the
    heap uses only [pmm_alloc]: [PageSource] states what it relies on.  A page
    is reached at [hhdm_to_virt] of its physical address.  Pointers are
    addresses, 0 is NULL.  Statistics are named counters. *)
From stdpp Require Import base gmap list strings.
From Stdlib Require Import ZArith Lia.
From S2P Require Import Prelude CapTypes KString Pmm.

(** What the heap relies on: [pmm_alloc] hands out a page that was available
    and is not afterwards, or 0 when there is none; available pages are aligned,
    distinct and lie in physical memory. *)
Class PageSource (S : Type) : Type := {
  psrc_alloc : prog S Z;
  psrc_avail : S -> list Z -> Prop;
  psrc_take : forall s F, psrc_avail s F -> wp psrc_alloc (fun pa s' =>
    (pa = 0 /\ F = [] /\ psrc_avail s' F) \/ (exists F', F ≡ₚ pa :: F' /\ psrc_avail s' F')) s;
  psrc_page : forall s F x, psrc_avail s F -> x ∈ F ->
    x mod GJ_PAGE_SIZE = 0 /\ 0 < x /\ x + GJ_PAGE_SIZE <= 2 ^ 47;
  psrc_nodup : forall s F, psrc_avail s F -> NoDup F }.

Definition GJ_HHDM_BASE : Z := 18446603336221196288.
Definition GJ_KHEAP_MAGIC_LIVE : Z := 1263290710.
Definition GJ_KHEAP_MAGIC_FREE : Z := 1262899781.
(** [sizeof(struct kheap_block)]. *)
Definition cbHdr : Z := 24.
Definition GJ_KHEAP_PAGE_PAYLOAD : Z := GJ_PAGE_SIZE - cbHdr.
Definition GJ_KHEAP_SPLIT_MIN : Z := cbHdr + 16.

Record kheap (S : Type) : Type := MkKheap {
  g_pFree : Z;
  g_cbUsed : Z;
  g_cbFree : Z;
  g_cFreeBlocks : Z;
  g_cbSoftAlign : Z;
  g_cbSoftUnsplit : Z;
  g_fInit : bool;
  kh_hhdm : bool;
  kh_bytes : bmem;
  kh_src : S }.
Arguments MkKheap {S} _ _ _ _ _ _ _ _ _ _.
Arguments g_pFree {S} _.
Arguments g_cbUsed {S} _.
Arguments g_cbFree {S} _.
Arguments g_cFreeBlocks {S} _.
Arguments g_cbSoftAlign {S} _.
Arguments g_cbSoftUnsplit {S} _.
Arguments g_fInit {S} _.
Arguments kh_hhdm {S} _.
Arguments kh_bytes {S} _.
Arguments kh_src {S} _.

Definition align_up (cb : Z) : Z := Z.land (u64_add cb 15) (u64_wrap (Z.lnot 15)).

Definition block_from_payload (p : Z) : Z := p - cbHdr.
Definition payload_from_block (pBlk : Z) : Z := pBlk + cbHdr.

Definition hhdm_to_virt (ready : bool) (pa : Z) : Z := if ready then u64_add GJ_HHDM_BASE pa else pa.

Section Kheap.
Context {S : Type}.
Implicit Types (m : kheap S).

Definition set_free (p : Z) m : kheap S :=
  MkKheap p (g_cbUsed m) (g_cbFree m) (g_cFreeBlocks m) (g_cbSoftAlign m) (g_cbSoftUnsplit m)
    (g_fInit m) (kh_hhdm m) (kh_bytes m) (kh_src m).
Definition set_stats (used free blocks al un : Z) m : kheap S :=
  MkKheap (g_pFree m) used free blocks al un (g_fInit m) (kh_hhdm m) (kh_bytes m) (kh_src m).
Definition set_bytes (u : bmem) m : kheap S :=
  MkKheap (g_pFree m) (g_cbUsed m) (g_cbFree m) (g_cFreeBlocks m) (g_cbSoftAlign m) (g_cbSoftUnsplit m)
    (g_fInit m) (kh_hhdm m) u (kh_src m).
Definition set_src (s : S) m : kheap S :=
  MkKheap (g_pFree m) (g_cbUsed m) (g_cbFree m) (g_cFreeBlocks m) (g_cbSoftAlign m) (g_cbSoftUnsplit m)
    (g_fInit m) (kh_hhdm m) (kh_bytes m) s.

(** The string helpers and the page source in the heap's state. *)
Definition on_bytes {A} (c : prog bmem A) : prog (kheap S) A :=
  fun s => match c (KSt (kh_bytes (k_mem s)) (k_tel s)) with
           | Some (a, s') => Some (a, KSt (set_bytes (k_mem s') (k_mem s)) (k_tel s'))
           | None => None
           end.
Definition on_src {A} (c : prog S A) : prog (kheap S) A :=
  fun s => match c (KSt (kh_src (k_mem s)) (k_tel s)) with
           | Some (a, s') => Some (a, KSt (set_src (k_mem s') (k_mem s)) (k_tel s'))
           | None => None
           end.

(** Loads and stores of [n] bytes. *)
Definition ldn (n : nat) (p : Z) : prog (kheap S) Z :=
  m <- pget ;; match user_bytes n (kh_bytes m) p with Some v => pret v | None => pfault end.
Definition stn (n : nat) (p v : Z) : prog (kheap S) unit :=
  m <- pget ;;
  match user_bytes n (kh_bytes m) p with
  | Some _ => pput (set_bytes (put_bytes n p v (kh_bytes m)) m)
  | None => pfault
  end.

(** The fields of [struct kheap_block]. *)
Definition ld_cbSize (b : Z) := ldn 8 b.
Definition ld_u32Magic (b : Z) := ldn 4 (b + 8).
Definition ld_u16SoftAlign (b : Z) := ldn 2 (b + 12).
Definition ld_u16SoftUnsplit (b : Z) := ldn 2 (b + 14).
Definition ld_pNext (b : Z) := ldn 8 (b + 16).
Definition st_cbSize (b v : Z) := stn 8 b v.
Definition st_u32Magic (b v : Z) := stn 4 (b + 8) v.
Definition st_u16SoftAlign (b v : Z) := stn 2 (b + 12) v.
Definition st_u16SoftUnsplit (b v : Z) := stn 2 (b + 14) v.
Definition st_pNext (b v : Z) := stn 8 (b + 16) v.

(** ** Statistics *)
Definition heap_add64 (c : string) (n : Z) : prog (kheap S) unit :=
  t <- ptel ;; tel_set c (u64_add (tel_val t c) n).

Definition soft_note_alloc (cbAlignWaste cbUnsplit : Z) : prog (kheap S) unit :=
  (if 0 <? cbAlignWaste then tick64 "kh.g_cSoftAlignHit" else pret tt) ;;;
  (if 0 <? cbUnsplit then tick64 "kh.g_cSoftUnsplitHit" else pret tt) ;;;
  (if (0 <? cbAlignWaste) || (0 <? cbUnsplit) then
     tick64 "kh.g_cSoftWasteAlloc" ;;; heap_add64 "kh.g_cbSoftCharged" (u64_add cbAlignWaste cbUnsplit)
   else pret tt) ;;;
  tel_peak "kh.g_cbSoftMaxAlignOne" cbAlignWaste ;;;
  tel_peak "kh.g_cbSoftMaxUnsplitOne" cbUnsplit ;;;
  m <- pget ;;
  tel_peak "kh.g_cbSoftPeakAlign" (g_cbSoftAlign m) ;;;
  tel_peak "kh.g_cbSoftPeakUnsplit" (g_cbSoftUnsplit m) ;;;
  tel_peak "kh.g_cbSoftPeak" (u64_add (g_cbSoftAlign m) (g_cbSoftUnsplit m)).

Definition soft_note_free (cbAlign cbUnsplit : Z) : prog (kheap S) unit :=
  if (0 <? cbAlign) || (0 <? cbUnsplit) then
    tick64 "kh.g_cSoftWasteFree" ;;; heap_add64 "kh.g_cbSoftReleased" (u64_add cbAlign cbUnsplit)
  else pret tt.

Definition soft_note_peaks : prog (kheap S) unit :=
  m <- pget ;;
  tel_peak "kh.g_cbUsedPeak" (g_cbUsed m) ;;; tel_peak "kh.g_cFreeBlocksPeak" (g_cFreeBlocks m).

(** The statistics variables of this file carry the prefix [kh.]: the page
    allocator has a [g_cSplit] of its own. *)
Definition kheap_counter (c : string) : bool := String.prefix "kh." c.

Definition kheap_init : prog (kheap S) unit :=
  pmod (fun m => MkKheap 0 0 0 0 0 0 true (kh_hhdm m) (kh_bytes m) (kh_src m)) ;;;
  t <- ptel ;;
  ptel_put (filter (fun kv => kheap_counter kv.1 = false) t).

(** ** Growth *)
Definition grow `{PageSource S} : prog (kheap S) gj_status :=
  pa <- on_src psrc_alloc ;;
  if pa =? 0 then pret GJ_ERR_NOMEM else
  m <- pget ;;
  let pBlk := hhdm_to_virt (kh_hhdm m) pa in
  st_cbSize pBlk GJ_KHEAP_PAGE_PAYLOAD ;;;
  st_u32Magic pBlk GJ_KHEAP_MAGIC_FREE ;;;
  st_u16SoftAlign pBlk 0 ;;;
  st_u16SoftUnsplit pBlk 0 ;;;
  m <- pget ;;
  st_pNext pBlk (g_pFree m) ;;;
  pmod (set_free pBlk) ;;;
  cb <- ld_cbSize pBlk ;;
  pmod (fun m => set_stats (g_cbUsed m) (u64_add (g_cbFree m) cb) (u64_add (g_cFreeBlocks m) 1)
                   (g_cbSoftAlign m) (g_cbSoftUnsplit m) m) ;;;
  tick64 "kh.g_cGrow" ;;;
  soft_note_peaks ;;;
  pret GJ_OK.

(** ** Allocation *)

(** Steps after which a walk of the free list has ended or met a block twice. *)
Definition walk_fuel : prog (kheap S) nat := m <- pget ;; pret (Datatypes.S (size (kh_bytes m))).

(** The best-fit search: the smallest free block of at least [cbNeed] bytes and
    its predecessor on the list. *)
Fixpoint best_fit (fuel : nat) (cbNeed pCur pPrev pBest pBestPrev : Z) : prog (kheap S) (Z * Z) :=
  match fuel with
  | O => pfault
  | Datatypes.S f =>
      if pCur =? 0 then pret (pBest, pBestPrev) else
      magic <- ld_u32Magic pCur ;;
      if negb (magic =? GJ_KHEAP_MAGIC_FREE) then
        next <- ld_pNext pCur ;; best_fit f cbNeed next pCur pBest pBestPrev
      else
      size <- ld_cbSize pCur ;;
      better <- (if cbNeed <=? size then
                   if pBest =? 0 then pret true else best <- ld_cbSize pBest ;; pret (size <? best)
                 else pret false) ;;
      next <- ld_pNext pCur ;;
      if (better : bool) then best_fit f cbNeed next pCur pCur pPrev
      else best_fit f cbNeed next pCur pBest pBestPrev
  end.

(** The list without [pBest], or with [pNew] in its place. *)
Definition relink (pBestPrev pNew : Z) : prog (kheap S) unit :=
  if negb (pBestPrev =? 0) then st_pNext pBestPrev pNew else pmod (set_free pNew).

Definition take_split (cbNeed pBest pBestPrev : Z) : prog (kheap S) Z :=
  size <- ld_cbSize pBest ;;
  let cbLeft := size - cbNeed - cbHdr in
  let pSplit := payload_from_block pBest + cbNeed in
  st_cbSize pSplit cbLeft ;;;
  st_u32Magic pSplit GJ_KHEAP_MAGIC_FREE ;;;
  st_u16SoftAlign pSplit 0 ;;;
  st_u16SoftUnsplit pSplit 0 ;;;
  next <- ld_pNext pBest ;;
  st_pNext pSplit next ;;;
  pmod (fun m => set_stats (g_cbUsed m) (sub_floor (g_cbFree m) (cbNeed + cbHdr)) (g_cFreeBlocks m)
                   (g_cbSoftAlign m) (g_cbSoftUnsplit m) m) ;;;
  st_cbSize pBest cbNeed ;;;
  st_pNext pBest pSplit ;;;
  relink pBestPrev pSplit ;;;
  tick64 "kh.g_cSplit" ;;;
  pret 0.

Definition take_whole (cbNeed pBest pBestPrev : Z) : prog (kheap S) Z :=
  size <- ld_cbSize pBest ;;
  tick64 "kh.g_cSoftTakeWhole" ;;;
  pmod (fun m => set_stats (g_cbUsed m) (sub_floor (g_cbFree m) size)
                   (if 0 <? g_cFreeBlocks m then g_cFreeBlocks m - 1 else g_cFreeBlocks m)
                   (g_cbSoftAlign m) (g_cbSoftUnsplit m) m) ;;;
  next <- ld_pNext pBest ;;
  relink pBestPrev next ;;;
  pret (size - cbNeed).

(** The chosen block is taken off the list, marked and zeroed. *)
Definition take_best (cbNeed cbAlignWaste pBest pBestPrev : Z) : prog (kheap S) Z :=
  tick64 "kh.g_cSoftBestFit" ;;;
  size <- ld_cbSize pBest ;;
  cbUnsplit <- (if cbNeed + GJ_KHEAP_SPLIT_MIN <=? size then take_split cbNeed pBest pBestPrev
                else take_whole cbNeed pBest pBestPrev) ;;
  st_u32Magic pBest GJ_KHEAP_MAGIC_LIVE ;;;
  st_pNext pBest 0 ;;;
  st_u16SoftAlign pBest (u16_wrap cbAlignWaste) ;;;
  st_u16SoftUnsplit pBest (u16_wrap cbUnsplit) ;;;
  pmod (fun m => set_stats (g_cbUsed m) (g_cbFree m) (g_cFreeBlocks m)
                   (u64_add (g_cbSoftAlign m) cbAlignWaste) (u64_add (g_cbSoftUnsplit m) cbUnsplit) m) ;;;
  soft_note_alloc cbAlignWaste cbUnsplit ;;;
  size <- ld_cbSize pBest ;;
  pmod (fun m => set_stats (u64_add (g_cbUsed m) size) (g_cbFree m) (g_cFreeBlocks m)
                   (g_cbSoftAlign m) (g_cbSoftUnsplit m) m) ;;;
  tick64 "kh.g_cAlloc" ;;;
  soft_note_peaks ;;;
  let pOut := payload_from_block pBest in
  size <- ld_cbSize pBest ;;
  on_bytes (memset pOut 0 (Z.to_nat size)) ;;;
  pret pOut.

(** The loop of [kheap_alloc].  A grown page satisfies every request that passes
    the size check, so two turns are enough; a third would be an endless loop. *)
Fixpoint alloc_loop `{PageSource S} (fuel : nat) (cbNeed cbAlignWaste : Z) : prog (kheap S) Z :=
  match fuel with
  | O => pfault
  | Datatypes.S f =>
      k <- walk_fuel ;;
      m <- pget ;;
      r <- best_fit k cbNeed (g_pFree m) 0 0 0 ;;
      let '(pBest, pBestPrev) := r in
      if negb (pBest =? 0) then take_best cbNeed cbAlignWaste pBest pBestPrev else
      st <- grow ;;
      if bool_decide (st = GJ_OK) then alloc_loop f cbNeed cbAlignWaste
      else tick64 "kh.g_cFail" ;;; tick64 "kh.g_cSoftFailOom" ;;; pret 0
  end.

Definition kheap_alloc `{PageSource S} (cb : Z) : prog (kheap S) Z :=
  m <- pget ;;
  if negb (g_fInit m) then tick64 "kh.g_cFail" ;;; tick64 "kh.g_cSoftFailUninit" ;;; pret 0 else
  if cb =? 0 then tick64 "kh.g_cFail" ;;; tick64 "kh.g_cSoftFailZero" ;;; pret 0 else
  let cbNeed := align_up cb in
  let cbAlignWaste := u64_wrap (cbNeed - cb) in
  if GJ_KHEAP_PAGE_PAYLOAD <? cbNeed then tick64 "kh.g_cFail" ;;; tick64 "kh.g_cSoftFailOversize" ;;; pret 0 else
  alloc_loop 2 cbNeed cbAlignWaste.

(** ** Release *)
Definition kheap_free (p : Z) : prog (kheap S) unit :=
  if p =? 0 then tick64 "kh.g_cSoftNullFree" else
  m <- pget ;;
  if negb (g_fInit m) then tick64 "kh.g_cSoftFreeUninit" else
  let pBlk := block_from_payload p in
  magic <- ld_u32Magic pBlk ;;
  if negb (magic =? GJ_KHEAP_MAGIC_LIVE) then tick64 "kh.g_cDoubleFree" else
  cbAlign <- ld_u16SoftAlign pBlk ;;
  cbUnsplit <- ld_u16SoftUnsplit pBlk ;;
  pmod (fun m => set_stats (g_cbUsed m) (g_cbFree m) (g_cFreeBlocks m)
                   (sub_floor (g_cbSoftAlign m) cbAlign) (sub_floor (g_cbSoftUnsplit m) cbUnsplit) m) ;;;
  soft_note_free cbAlign cbUnsplit ;;;
  size <- ld_cbSize pBlk ;;
  pmod (fun m => set_stats (sub_floor (g_cbUsed m) size) (g_cbFree m) (g_cFreeBlocks m)
                   (g_cbSoftAlign m) (g_cbSoftUnsplit m) m) ;;;
  on_bytes (memset (payload_from_block pBlk) 0 (Z.to_nat size)) ;;;
  st_u32Magic pBlk GJ_KHEAP_MAGIC_FREE ;;;
  st_u16SoftAlign pBlk 0 ;;;
  st_u16SoftUnsplit pBlk 0 ;;;
  m <- pget ;;
  st_pNext pBlk (g_pFree m) ;;;
  pmod (set_free pBlk) ;;;
  size <- ld_cbSize pBlk ;;
  pmod (fun m => set_stats (g_cbUsed m) (u64_add (g_cbFree m) size) (u64_add (g_cFreeBlocks m) 1)
                   (g_cbSoftAlign m) (g_cbSoftUnsplit m) m) ;;;
  tick64 "kh.g_cFree" ;;;
  soft_note_peaks.

(** ** Queries *)
Definition kheap_used_bytes m : Z := g_cbUsed m.
Definition kheap_free_bytes m : Z := g_cbFree m.
Definition kheap_free_blocks m : Z := g_cFreeBlocks m.
Definition kheap_soft_frag_bytes m : Z := u64_add (g_cbSoftAlign m) (g_cbSoftUnsplit m).

(** [soft_freelist_scan]: smallest, largest and total free size, blocks walked,
    bad magics; [fFirst] until the first block. *)
Record fl_scan : Type := MkScan { sc_min : Z; sc_max : Z; sc_sum : Z; sc_walk : Z; sc_bad : Z }.

Fixpoint scan_loop (fuel : nat) (pCur : Z) (fFirst : bool) (r : fl_scan) : prog (kheap S) fl_scan :=
  match fuel with
  | O => pfault
  | Datatypes.S f =>
      if pCur =? 0 then pret r else
      magic <- ld_u32Magic pCur ;;
      if negb (magic =? GJ_KHEAP_MAGIC_FREE) then
        next <- ld_pNext pCur ;;
        scan_loop f next fFirst (MkScan (sc_min r) (sc_max r) (sc_sum r) (u32_wrap (sc_walk r + 1)) (u32_wrap (sc_bad r + 1)))
      else
      size <- ld_cbSize pCur ;;
      next <- ld_pNext pCur ;;
      scan_loop f next false
        (MkScan (if fFirst || (size <? sc_min r) then size else sc_min r)
           (if fFirst || (sc_max r <? size) then size else sc_max r)
           (u64_add (sc_sum r) size) (u32_wrap (sc_walk r + 1)) (sc_bad r))
  end.

Definition soft_freelist_scan : prog (kheap S) fl_scan :=
  k <- walk_fuel ;; m <- pget ;; scan_loop k (g_pFree m) true (MkScan 0 0 0 0 0).

(** [kheap_dump_stats]: the integrity verdict it prints. *)
Definition kheap_dump_stats : prog (kheap S) bool :=
  tick64 "kh.g_cSoftLogN" ;;;
  r <- soft_freelist_scan ;;
  m <- pget ;;
  pret ((sc_sum r =? g_cbFree m) && (sc_walk r =? g_cFreeBlocks m) && (sc_bad r =? 0)).
End Kheap.
