(* ===== verification/KheapInv.v ===== *)
(** The kernel heap: its invariant and the primitive steps on blocks. *)
From stdpp Require Import base gmap list strings.
From Stdlib Require Import ZArith Lia.
From S2P Require Import Prelude CapTypes KString KStringProofs Pmm Kheap.

(** * The heap's memory: headers, the free list, and the bytes each block covers. *)

(** ** Headers *)
Record hdr (u : bmem) (b size magic al un next : Z) : Prop := {
  h_size : user_bytes 8 u b = Some size;
  h_magic : user_bytes 4 u (b + 8) = Some magic;
  h_al : user_bytes 2 u (b + 12) = Some al;
  h_un : user_bytes 2 u (b + 14) = Some un;
  h_next : user_bytes 8 u (b + 16) = Some next }.

(** Two memories that agree outside [lo, hi) and map the same bytes. *)
Definition same_out (lo hi : Z) (u u' : bmem) : Prop :=
  (forall a, ~ (lo <= a < hi) -> u' !! a = u !! a) /\ (forall a, is_Some (u' !! a) <-> is_Some (u !! a)).

Lemma same_out_refl lo hi u : same_out lo hi u u.
Proof. by split. Qed.

Lemma same_out_trans lo hi u1 u2 u3 : same_out lo hi u1 u2 -> same_out lo hi u2 u3 -> same_out lo hi u1 u3.
Proof. intros [A1 B1] [A2 B2]. split; [intros a Ha; rewrite A2, A1; done|intros a; by rewrite B2, B1]. Qed.

Lemma same_out_mono lo hi lo' hi' u u' : lo' <= lo -> hi <= hi' -> same_out lo hi u u' -> same_out lo' hi' u u'.
Proof. intros H1 H2 [A B]. split; [intros a Ha; apply A; lia|done]. Qed.

Lemma user_bytes_is_Some n u p : is_Some (user_bytes n u p) -> forall a, p <= a < p + Z.of_nat n -> is_Some (u !! a).
Proof. intros [v E]. by eapply user_bytes_mapped. Qed.

Lemma same_out_put n p v u : is_Some (user_bytes n u p) -> same_out p (p + Z.of_nat n) u (put_bytes n p v u).
Proof.
  intros Hs. split; [intros a Ha; by apply put_bytes_outside|]. intros a.
  destruct (decide (p <= a < p + Z.of_nat n)) as [Hi|Ho].
  - split; intros _; [by eapply user_bytes_is_Some|by apply put_bytes_inside].
  - by rewrite put_bytes_outside.
Qed.

Lemma user_bytes_same n lo hi u u' q :
  same_out lo hi u u' -> q + Z.of_nat n <= lo \/ hi <= q -> user_bytes n u' q = user_bytes n u q.
Proof. intros [A _] H. apply user_bytes_ext. intros a Ha. apply A. lia. Qed.

Lemma user_bytes_put_ne n p v u k q :
  q + Z.of_nat k <= p \/ p + Z.of_nat n <= q -> user_bytes k (put_bytes n p v u) q = user_bytes k u q.
Proof. intros H. apply user_bytes_ext. intros a Ha. apply put_bytes_outside. lia. Qed.

Lemma user_bytes_put_eq n p v u : 0 <= v < 256 ^ Z.of_nat n -> user_bytes n (put_bytes n p v u) p = Some v.
Proof. intros H. rewrite user_bytes_put. f_equal. by apply Z.mod_small. Qed.

Lemma user_bytes_some_same n lo hi u u' q :
  same_out lo hi u u' -> is_Some (user_bytes n u q) -> is_Some (user_bytes n u' q).
Proof. intros [_ B] H. apply user_bytes_total. intros a Ha. apply B. by eapply user_bytes_is_Some. Qed.

Lemma hdr_same lo hi u u' b s mg al un nx :
  same_out lo hi u u' -> b + cbHdr <= lo \/ hi <= b -> hdr u b s mg al un nx -> hdr u' b s mg al un nx.
Proof.
  unfold cbHdr. intros Hs H []. split; (erewrite user_bytes_same; [eassumption|exact Hs|lia]).
Qed.

(** Reads of one field after a store to the same or another field. *)
Ltac fields :=
  repeat first
    [ rewrite user_bytes_put_eq by (simpl; lia)
    | rewrite user_bytes_put_ne by (simpl; lia) ].

Lemma hdr_put_size u b s mg al un nx v :
  0 <= v < 2 ^ 64 -> hdr u b s mg al un nx -> hdr (put_bytes 8 b v u) b v mg al un nx.
Proof. intros Hv []. split; fields; done. Qed.
Lemma hdr_put_magic u b s mg al un nx v :
  0 <= v < 2 ^ 32 -> hdr u b s mg al un nx -> hdr (put_bytes 4 (b + 8) v u) b s v al un nx.
Proof. intros Hv []. split; fields; done. Qed.
Lemma hdr_put_al u b s mg al un nx v :
  0 <= v < 2 ^ 16 -> hdr u b s mg al un nx -> hdr (put_bytes 2 (b + 12) v u) b s mg v un nx.
Proof. intros Hv []. split; fields; done. Qed.
Lemma hdr_put_un u b s mg al un nx v :
  0 <= v < 2 ^ 16 -> hdr u b s mg al un nx -> hdr (put_bytes 2 (b + 14) v u) b s mg al v nx.
Proof. intros Hv []. split; fields; done. Qed.
Lemma hdr_put_next u b s mg al un nx v :
  0 <= v < 2 ^ 64 -> hdr u b s mg al un nx -> hdr (put_bytes 8 (b + 16) v u) b s mg al un v.
Proof. intros Hv []. split; fields; done. Qed.

(** A fresh header written over mapped bytes. *)
Definition put_fields (b size magic : Z) (u : bmem) : bmem :=
  put_bytes 2 (b + 14) 0 (put_bytes 2 (b + 12) 0 (put_bytes 4 (b + 8) magic (put_bytes 8 b size u))).
Definition put_hdr (b size magic next : Z) (u : bmem) : bmem := put_bytes 8 (b + 16) next (put_fields b size magic u).

Lemma hdr_put_hdr b size magic next u :
  0 <= size < 2 ^ 64 -> 0 <= magic < 2 ^ 32 -> 0 <= next < 2 ^ 64 -> hdr (put_hdr b size magic next u) b size magic 0 0 next.
Proof. intros. unfold put_hdr, put_fields. split; fields; done. Qed.

Lemma same_out_put_fields b size magic u :
  (forall a, b <= a < b + cbHdr -> is_Some (u !! a)) -> same_out b (b + cbHdr) u (put_fields b size magic u).
Proof.
  unfold cbHdr. intros Hm. unfold put_fields.
  assert (forall n p v u', same_out b (b + 24) u u' -> b <= p -> p + Z.of_nat n <= b + 24 ->
    same_out b (b + 24) u (put_bytes n p v u')) as Hput.
  { intros n p v u' Hs H1 H2. eapply same_out_trans; [exact Hs|].
    eapply same_out_mono; [exact H1|exact H2|]. apply same_out_put.
    eapply user_bytes_some_same; [exact Hs|]. apply user_bytes_total. intros a Ha. apply Hm. lia. }
  apply Hput; [|lia|simpl; lia]. apply Hput; [|lia|simpl; lia].
  apply Hput; [|lia|simpl; lia]. apply Hput; [apply same_out_refl|lia|simpl; lia].
Qed.

Lemma mapped_bytes n u p : (forall a, p <= a < p + Z.of_nat n -> is_Some (u !! a)) -> is_Some (user_bytes n u p).
Proof. apply user_bytes_total. Qed.

Lemma put_some n p v u a : is_Some (u !! a) -> is_Some (put_bytes n p v u !! a).
Proof.
  intros Hs. destruct (decide (p <= a < p + Z.of_nat n)); [by apply put_bytes_inside|]. by rewrite put_bytes_outside.
Qed.

Lemma same_out_put_hdr b size magic next u :
  (forall a, b <= a < b + cbHdr -> is_Some (u !! a)) -> same_out b (b + cbHdr) u (put_hdr b size magic next u).
Proof.
  intros Hm. pose proof (same_out_put_fields b size magic u Hm) as Hs. unfold put_hdr. eapply same_out_trans; [exact Hs|].
  eapply same_out_mono; [| |apply same_out_put]; [lia|unfold cbHdr; simpl; lia|].
  apply mapped_bytes. intros a Ha. apply Hs, Hm. unfold cbHdr. simpl in Ha. lia.
Qed.

(** ** The free list *)
Fixpoint flist (u : bmem) (h : Z) (l : list (Z * Z)) : Prop :=
  match l with
  | [] => h = 0
  | (b, s) :: l' => h = b /\ exists nx, 0 <= nx < 2 ^ 64 /\ hdr u b s GJ_KHEAP_MAGIC_FREE 0 0 nx /\ flist u nx l'
  end.

Lemma flist_same lo hi u u' h l :
  same_out lo hi u u' -> (forall b s, (b, s) ∈ l -> b + cbHdr <= lo \/ hi <= b) -> flist u h l -> flist u' h l.
Proof.
  intros Hs. revert h. induction l as [|[b s] l IH]; intros h Hd; simpl; [done|].
  intros (-> & nx & Hn & Hh & Hl). split; [done|]. exists nx. split; [done|]. split.
  - eapply hdr_same; [done| |done]. apply (Hd b s). set_solver.
  - apply IH; [|done]. intros b' s' Hin. apply (Hd b' s'). set_solver.
Qed.

(** Address of the last block, 0 for the empty list. *)
Definition last_addr (l : list (Z * Z)) : Z := from_option fst 0 (last l).

Lemma last_addr_snoc l b s : last_addr (l ++ [(b, s)]) = b.
Proof. unfold last_addr. by rewrite last_snoc. Qed.

(** The segment of a list from [h] to [y]. *)
Fixpoint lseg (u : bmem) (h : Z) (l : list (Z * Z)) (y : Z) : Prop :=
  match l with
  | [] => h = y
  | (b, s) :: l' => h = b /\ exists nx, 0 <= nx < 2 ^ 64 /\ hdr u b s GJ_KHEAP_MAGIC_FREE 0 0 nx /\ lseg u nx l' y
  end.

Lemma flist_seg u h l1 l2 : flist u h (l1 ++ l2) <-> exists y, lseg u h l1 y /\ flist u y l2.
Proof.
  revert h. induction l1 as [|[b s] l1 IH]; intros h; cbn [flist lseg app].
  - split; [eauto|]. by intros (y & -> & ?).
  - setoid_rewrite IH. split.
    + intros (-> & nx & Hn & Hh & y & Hs & Hf). exists y. split; [|done]. split; [done|]. by exists nx.
    + intros (y & (-> & nx & Hn & Hh & Hs) & Hf). split; [done|]. exists nx. split; [done|]. split; [done|]. by exists y.
Qed.

Lemma lseg_same lo hi u u' h l y :
  same_out lo hi u u' -> (forall b s, (b, s) ∈ l -> b + cbHdr <= lo \/ hi <= b) -> lseg u h l y -> lseg u' h l y.
Proof.
  intros Hs. revert h. induction l as [|[b s] l IH]; intros h Hd; cbn [lseg]; [done|].
  intros (-> & nx & Hn & Hh & Hl). split; [done|]. exists nx. split; [done|]. split.
  - eapply hdr_same; [done| |done]. apply (Hd b s). set_solver.
  - apply IH; [|done]. intros b' s' Hin. apply (Hd b' s'). set_solver.
Qed.

Lemma lseg_last u h l c s y : lseg u h (l ++ [(c, s)]) y -> is_Some (user_bytes 8 u (c + 16)).
Proof.
  revert h. induction l as [|[b t] l IH]; intros h; cbn [lseg app].
  - intros (_ & nx & _ & Hh & _). rewrite (h_next _ _ _ _ _ _ _ Hh). by eexists.
  - intros (_ & nx & _ & _ & Hf). by eapply IH.
Qed.

(** A store to the link of the last block moves the end of the segment. *)
Lemma lseg_relink u h l c s y x :
  lseg u h (l ++ [(c, s)]) y -> 0 <= x < 2 ^ 64 ->
  (forall b t, (b, t) ∈ l -> b + cbHdr <= c \/ c + cbHdr <= b) ->
  lseg (put_bytes 8 (c + 16) x u) h (l ++ [(c, s)]) x.
Proof.
  intros Hf Hx Hd. pose proof (same_out_put 8 (c + 16) x u (lseg_last _ _ _ _ _ _ Hf)) as Hs.
  revert h Hf Hd. induction l as [|[b t] l IH]; intros h; cbn [lseg app].
  - intros (-> & nx & Hn & Hh & _) _. split; [done|]. exists x. split; [done|]. split; [by apply hdr_put_next with nx|done].
  - intros (-> & nx & Hn & Hh & Hf) Hd. split; [done|]. exists nx. split; [done|]. split.
    + eapply hdr_same; [exact Hs| |done]. specialize (Hd b t ltac:(set_solver)). unfold cbHdr in *. simpl. lia.
    + apply IH; [done|]. intros b' t' Hin. apply (Hd b' t'). set_solver.
Qed.

(** ** Blocks and the bytes they cover *)
Record lblk : Type := MkLive { lb_addr : Z; lb_size : Z; lb_al : Z; lb_un : Z }.

Definition ext (b s : Z) : list Z := seqZ b (cbHdr + s).
Definition fext (f : Z * Z) : list Z := ext (fst f) (snd f).
Definition lext (l : lblk) : list Z := ext (lb_addr l) (lb_size l).

Lemma elem_of_ext a b s : a ∈ ext b s <-> b <= a < b + cbHdr + s.
Proof. unfold ext. rewrite elem_of_seqZ. lia. Qed.

Lemma length_ext b s : 0 <= s -> Z.of_nat (length (ext b s)) = cbHdr + s.
Proof. intros Hs. unfold ext, cbHdr. rewrite length_seqZ. lia. Qed.

Lemma ext_split b s k : 0 <= k -> k + cbHdr <= s -> ext b s = ext b k ++ ext (b + cbHdr + k) (s - k - cbHdr).
Proof.
  intros Hk Hs. unfold ext, cbHdr in *. replace (24 + s) with (24 + k + (24 + (s - k - 24))) by lia.
  rewrite (seqZ_app b (24 + k)) by lia. by replace (b + (24 + k)) with (b + 24 + k) by lia.
Qed.

Definition zsum {A} (f : A -> Z) (l : list A) : Z := foldr (fun x n => f x + n) 0 l.
Lemma zsum_app {A} (f : A -> Z) l k : zsum f (l ++ k) = zsum f l + zsum f k.
Proof. induction l as [|x l IH]; simpl; [lia|]. rewrite IH. lia. Qed.
Lemma zsum_perm {A} (f : A -> Z) l k : l ≡ₚ k -> zsum f l = zsum f k.
Proof. induction 1; simpl; lia. Qed.
Lemma zsum_nonneg {A} (f : A -> Z) l : Forall (fun x => 0 <= f x) l -> 0 <= zsum f l.
Proof. induction 1; simpl; lia. Qed.
Lemma zsum_le {A} (f g : A -> Z) l : Forall (fun x => f x <= g x) l -> zsum f l <= zsum g l.
Proof. induction 1; simpl; lia. Qed.

Definition free_wf (f : Z * Z) : Prop := 0 < fst f /\ 0 <= snd f <= GJ_KHEAP_PAGE_PAYLOAD /\ fst f + cbHdr + snd f <= 2 ^ 64.
Definition live_wf (l : lblk) : Prop :=
  0 < lb_addr l /\ 0 <= lb_size l <= GJ_KHEAP_PAGE_PAYLOAD /\ lb_addr l + cbHdr + lb_size l <= 2 ^ 64 /\
  0 <= lb_al l < 16 /\ 0 <= lb_un l <= lb_size l /\ lb_un l < 2 ^ 16.
Definition live_hdr (u : bmem) (l : lblk) : Prop :=
  hdr u (lb_addr l) (lb_size l) GJ_KHEAP_MAGIC_LIVE (lb_al l) (lb_un l) 0.

Definition page_bytes (hh : bool) (x : Z) : list Z := seqZ (hhdm_to_virt hh x) GJ_PAGE_SIZE.

(** All bytes the heap may touch: free blocks, live blocks, available pages. *)
Definition space (hh : bool) (Fl : list (Z * Z)) (L : list lblk) (F : list Z) : list Z :=
  (Fl ≫= fext) ++ (L ≫= lext) ++ (F ≫= page_bytes hh).

Section Rep.
Context {S : Type} `{PageSource S}.

(** The heap's state represents the free blocks [Fl], in list order, the live
    blocks [L] and the available pages [F]. *)
Record heap_rep (m : kheap S) (Fl : list (Z * Z)) (L : list lblk) (F : list Z) : Prop := {
  hr_init : g_fInit m = true;
  hr_free : flist (kh_bytes m) (g_pFree m) Fl;
  hr_live : Forall (live_hdr (kh_bytes m)) L;
  hr_fwf : Forall free_wf Fl;
  hr_lwf : Forall live_wf L;
  hr_nodup : NoDup (space (kh_hhdm m) Fl L F);
  hr_map : forall a, a ∈ space (kh_hhdm m) Fl L F -> is_Some (kh_bytes m !! a);
  hr_src : psrc_avail (kh_src m) F;
  hr_cused : g_cbUsed m = zsum lb_size L;
  hr_cfree : g_cbFree m = zsum snd Fl;
  hr_cblk : g_cFreeBlocks m = Z.of_nat (length Fl);
  hr_cal : g_cbSoftAlign m = zsum lb_al L;
  hr_cun : g_cbSoftUnsplit m = zsum lb_un L }.

(** Two different blocks do not overlap. *)
Lemma space_perm hh Fl Fl' L L' F F' :
  Fl ≡ₚ Fl' -> L ≡ₚ L' -> F ≡ₚ F' -> space hh Fl L F ≡ₚ space hh Fl' L' F'.
Proof. intros H1 H2 H3. unfold space. by rewrite H1, H2, H3. Qed.

Lemma disjoint_ext b s b' s' l :
  NoDup (ext b s ++ l) -> 0 <= s -> (forall a, a ∈ ext b' s' -> a ∈ l) -> 0 <= s' ->
  b + cbHdr + s <= b' \/ b' + cbHdr + s' <= b.
Proof.
  intros Hd Hs Hin Hs'. apply NoDup_app in Hd as (_ & Hd & _).
  destruct (Z_lt_le_dec b' (b + cbHdr + s)) as [H1|]; [|by left].
  destruct (Z_lt_le_dec b (b' + cbHdr + s')) as [H2|]; [|by right]. exfalso.
  apply (Hd (Z.max b b')); [apply elem_of_ext|apply Hin, elem_of_ext]; unfold cbHdr in *; lia.
Qed.

(** The total size of the blocks is bounded by the address space. *)
Lemma ext_in_range Fl L a :
  Forall free_wf Fl -> Forall live_wf L -> a ∈ (Fl ≫= fext) ++ (L ≫= lext) -> 0 <= a < 2 ^ 64.
Proof.
  intros HF HL Ha. rewrite Forall_forall in HF. rewrite Forall_forall in HL. apply elem_of_app in Ha as [Ha|Ha];
    apply list_elem_of_bind in Ha as (x & Ha & Hx).
  - destruct (HF x Hx) as (H1 & H2 & H3). apply elem_of_ext in Ha. lia.
  - destruct (HL x Hx) as (H1 & H2 & H3 & _). apply elem_of_ext in Ha. lia.
Qed.

Lemma length_bind_ext {A} (f : A -> list Z) (g : A -> Z) l :
  Forall (fun x => Z.of_nat (length (f x)) = cbHdr + g x) l ->
  Z.of_nat (length (l ≫= f)) = cbHdr * Z.of_nat (length l) + zsum g l.
Proof.
  unfold cbHdr. induction 1 as [|x l Hx _ IH]; [done|]. cbn [zsum foldr length].
  change (mbind f (x :: l)) with (f x ++ mbind f l). rewrite length_app. fold (zsum g l). lia.
Qed.

Lemma total_bound hh Fl L F :
  Forall free_wf Fl -> Forall live_wf L -> NoDup (space hh Fl L F) ->
  cbHdr * Z.of_nat (length Fl) + zsum snd Fl + (cbHdr * Z.of_nat (length L) + zsum lb_size L) <= 2 ^ 64.
Proof.
  intros HF HL Hd. unfold space in Hd. rewrite app_assoc in Hd. apply NoDup_app in Hd as (Hd & _).
  assert (((Fl ≫= fext) ++ (L ≫= lext)) ⊆+ seqZ 0 (2 ^ 64)) as Hs.
  { apply NoDup_submseteq; [done|]. intros a Ha. apply elem_of_seqZ. by apply (ext_in_range Fl L). }
  apply submseteq_length in Hs. rewrite length_app, length_seqZ in Hs.
  pose proof (length_bind_ext fext snd Fl) as H1. pose proof (length_bind_ext lext lb_size L) as H2.
  rewrite <-H1, <-H2; [lia|..].
  - eapply Forall_impl; [exact HL|]. intros l (_ & Hl & _). apply length_ext; lia.
  - eapply Forall_impl; [exact HF|]. intros f (_ & Hf & _). apply length_ext; lia.
Qed.

(** Each counter of a well-formed heap fits its 64 bits. *)
Lemma sums_bound hh Fl L F :
  Forall free_wf Fl -> Forall live_wf L -> NoDup (space hh Fl L F) ->
  0 <= zsum snd Fl <= 2 ^ 64 /\ 0 <= zsum lb_size L <= 2 ^ 64 /\
  0 <= zsum lb_al L <= cbHdr * Z.of_nat (length L) /\ 0 <= zsum lb_un L <= zsum lb_size L.
Proof.
  intros HF HL Hd. pose proof (total_bound hh Fl L F HF HL Hd) as Hb. unfold cbHdr in *.
  assert (0 <= zsum snd Fl) by (apply zsum_nonneg; eapply Forall_impl; [exact HF|]; intros x (? & ? & ?); lia).
  assert (0 <= zsum lb_size L) by (apply zsum_nonneg; eapply Forall_impl; [exact HL|]; intros x (? & ? & ?); lia).
  assert (0 <= zsum lb_al L) by (apply zsum_nonneg; eapply Forall_impl; [exact HL|]; intros x (? & ? & ? & ? & ?); lia).
  assert (0 <= zsum lb_un L) by (apply zsum_nonneg; eapply Forall_impl; [exact HL|]; intros x (? & ? & ? & ? & ? & ?); lia).
  assert (zsum lb_un L <= zsum lb_size L) by (apply zsum_le; eapply Forall_impl; [exact HL|]; intros x (? & ? & ? & ? & ? & ?); lia).
  assert (zsum lb_al L <= zsum (fun _ => 24) L) by (apply zsum_le; eapply Forall_impl; [exact HL|]; intros x (? & ? & ? & ? & ?); lia).
  assert (zsum (fun _ => 24) L = 24 * Z.of_nat (length L)) as E.
  { clear. induction L as [|x L IH]; [done|]. cbn [zsum foldr length] in *. unfold zsum in IH. lia. }
  lia.
Qed.
End Rep.

(** * The heap's operations against its representation. *)

Section Ops.
Context {S : Type} `{PageSource S}.
Implicit Types (m : kheap S).

Lemma wp_ldn n p v m Q : user_bytes n (kh_bytes m) p = Some v -> Q v m -> wp (ldn n p) Q m.
Proof. intros E HQ. unfold ldn. wsteps. rewrite E. by wsteps. Qed.

Lemma wp_stn n p v m (Q : unit -> kheap S -> Prop) :
  is_Some (user_bytes n (kh_bytes m) p) -> Q tt (set_bytes (put_bytes n p v (kh_bytes m)) m) -> wp (stn n p v) Q m.
Proof. intros [x E] HQ. unfold stn. wsteps. rewrite E. by wsteps. Qed.

Lemma wp_on_bytes {A} (c : prog bmem A) Q m :
  wp c (fun a u => Q a (set_bytes u m)) (kh_bytes m) -> wp (on_bytes c) Q m.
Proof.
  intros Hc t. destruct (Hc t) as (a & u & t' & E & HQ). exists a, (set_bytes u m), t'. split; [|done].
  unfold on_bytes. simpl. by rewrite E.
Qed.

Lemma wp_on_src {A} (c : prog S A) Q m :
  wp c (fun a s => Q a (set_src s m)) (kh_src m) -> wp (on_src c) Q m.
Proof.
  intros Hc t. destruct (Hc t) as (a & u & t' & E & HQ). exists a, (set_src u m), t'. split; [|done].
  unfold on_src. simpl. by rewrite E.
Qed.

Lemma wp_heap_add64 c n Q m : Q tt m -> wp (heap_add64 c n) Q m.
Proof. intros HQ. unfold heap_add64. apply wp_bind, wp_tel. intros t. by apply wp_tel_set. Qed.

Lemma wp_note_peaks Q m : Q tt m -> wp soft_note_peaks Q m.
Proof. intros HQ. unfold soft_note_peaks. by wsteps. Qed.

Lemma wp_note_alloc a b Q m : Q tt m -> wp (soft_note_alloc a b) Q m.
Proof.
  intros HQ. unfold soft_note_alloc.
  apply wp_bind, (wp_mono _ (fun _ m' => m' = m)); [destruct (_ <? _); by wsteps|]. intros _ ? ->.
  apply wp_bind, (wp_mono _ (fun _ m' => m' = m)); [destruct (_ <? _); by wsteps|]. intros _ ? ->.
  apply wp_bind, (wp_mono _ (fun _ m' => m' = m)); [destruct (_ || _); wsteps; try by apply wp_heap_add64|].
  { done. }
  intros _ ? ->. by wsteps.
Qed.

Lemma wp_note_free a b Q m : Q tt m -> wp (soft_note_free a b) Q m.
Proof. intros HQ. unfold soft_note_free. destruct (_ || _); wsteps; [by apply wp_heap_add64|done]. Qed.

(** ** The best-fit search *)

(** [(b, s)] is the first of the smallest blocks of at least [need] bytes. *)
Definition best_block (need : Z) (l1 : list (Z * Z)) (s : Z) (l2 : list (Z * Z)) : Prop :=
  need <= s /\ Forall (fun f => need <= snd f -> s < snd f) l1 /\ Forall (fun f => need <= snd f -> s <= snd f) l2.

(** The result of the search over the blocks [pre]. *)
Definition best_of (need : Z) (pre : list (Z * Z)) (pBest pBestPrev : Z) : Prop :=
  (pBest = 0 /\ pBestPrev = 0 /\ Forall (fun f => snd f < need) pre) \/
  (exists l1 s l2, pre = l1 ++ (pBest, s) :: l2 /\ pBestPrev = last_addr l1 /\ best_block need l1 s l2).

Lemma flist_lookup u h l1 b s l2 :
  flist u h (l1 ++ (b, s) :: l2) -> exists nx, 0 <= nx < 2 ^ 64 /\ hdr u b s GJ_KHEAP_MAGIC_FREE 0 0 nx /\ flist u nx l2.
Proof.
  revert h. induction l1 as [|[c t] l1 IH]; intros h; cbn [flist app].
  - intros (_ & nx & ?). eauto.
  - intros (_ & nx & _ & _ & Hf). eauto.
Qed.

Lemma best_of_snoc_no need pre c s pb pp : best_of need pre pb pp -> s < need -> best_of need (pre ++ [(c, s)]) pb pp.
Proof.
  intros [(-> & -> & HF)|(l1 & t & l2 & -> & -> & Hn & H1 & H2)] Hs.
  - left. split_and!; [done|done|]. apply Forall_app. split; [done|]. by constructor.
  - right. exists l1, t, (l2 ++ [(c, s)]). split_and!; [by rewrite <-app_assoc|done|]. split_and!; [done|done|].
    apply Forall_app. split; [done|]. constructor; [simpl; lia|done].
Qed.

Lemma best_of_snoc_worse need pre c s l1 b t l2 pp :
  pre = l1 ++ (b, t) :: l2 -> pp = last_addr l1 -> best_block need l1 t l2 -> t <= s -> best_of need (pre ++ [(c, s)]) b pp.
Proof.
  intros -> -> (Hn & H1 & H2) Ht. right. exists l1, t, (l2 ++ [(c, s)]). split_and!; [by rewrite <-app_assoc|done|].
  split_and!; [done|done|]. apply Forall_app. split; [done|]. constructor; [simpl; lia|done].
Qed.

Lemma best_of_snoc_new need pre c s :
  need <= s -> Forall (fun f => need <= snd f -> s < snd f) pre -> best_of need (pre ++ [(c, s)]) c (last_addr pre).
Proof. intros Hn HF. right. exists pre, s, []. split_and!; [done|done|]. split_and!; [done|done|by constructor]. Qed.

Lemma wp_best_fit fuel need pre suf pb pp m h :
  flist (kh_bytes m) (g_pFree m) (pre ++ suf) -> flist (kh_bytes m) h suf ->
  Forall free_wf (pre ++ suf) -> (length suf < fuel)%nat -> best_of need pre pb pp ->
  wp (best_fit fuel need h (last_addr pre) pb pp) (fun r m' => m' = m /\ best_of need (pre ++ suf) (fst r) (snd r)) m.
Proof.
  revert pre suf pb pp h. induction fuel as [|fuel IH]; intros pre suf pb pp h Hall Hsuf Hwf Hlen Hb; [lia|].
  cbn [best_fit]. destruct suf as [|[c s] suf]; cbn [flist] in Hsuf.
  { subst h. cbn. wsteps. split; [done|]. by rewrite app_nil_r. }
  destruct Hsuf as (-> & nx & Hnx & Hh & Hsuf).
  assert (free_wf (c, s)) as (Hc & Hs & _).
  { apply Forall_app in Hwf as [_ Hwf]. by inversion Hwf. }
  simpl in Hc, Hs. rewrite (proj2 (Z.eqb_neq _ _)) by lia.
  apply wp_bind. eapply wp_ldn; [apply Hh|]. rewrite Z.eqb_refl. cbn [negb].
  apply wp_bind. eapply wp_ldn; [apply Hh|].
  assert (forall pb' pp', best_of need (pre ++ [(c, s)]) pb' pp' ->
    wp (best_fit fuel need nx c pb' pp') (fun r m' => m' = m /\ best_of need (pre ++ (c, s) :: suf) (fst r) (snd r)) m) as Hnext.
  { intros pb' pp' Hb'. replace (pre ++ (c, s) :: suf) with ((pre ++ [(c, s)]) ++ suf) in * by by rewrite <-app_assoc.
    pose proof (last_addr_snoc pre c s) as E. rewrite <-E at 1. apply IH; [done|done|done|simpl in Hlen; lia|done]. }
  destruct (Z.leb_spec need s) as [Hfit|Hno].
  2:{ apply wp_bind, wp_ret, wp_bind. eapply wp_ldn; [apply Hh|]. apply Hnext. by apply best_of_snoc_no. }
  destruct Hb as [(-> & -> & HF)|(l1 & t & l2 & Epre & Epp & Hbb)].
  { apply wp_bind. cbn. wsteps. eapply wp_ldn; [apply Hh|]. apply Hnext. apply best_of_snoc_new; [done|].
    eapply Forall_impl; [exact HF|]. cbn beta. lia. }
  assert (free_wf (pb, t)) as (Hpb & _ & _).
  { subst pre. apply Forall_app in Hwf as [Hwf _]. apply Forall_app in Hwf as [_ Hwf]. by inversion Hwf. }
  simpl in Hpb. rewrite (proj2 (Z.eqb_neq _ _)) by lia.
  destruct (flist_lookup (kh_bytes m) (g_pFree m) l1 pb t (l2 ++ (c, s) :: suf)) as (nx' & _ & Hh' & _).
  { subst pre. by rewrite <-app_assoc in Hall. }
  apply wp_bind, wp_bind. eapply wp_ldn; [apply Hh'|]. apply wp_ret, wp_bind. eapply wp_ldn; [apply Hh|].
  destruct (Z.ltb_spec s t) as [Hlt|Hge]; apply Hnext.
  - apply best_of_snoc_new; [done|]. destruct Hbb as (_ & H1 & H2). subst pre. apply Forall_app. split; [|constructor].
    + eapply Forall_impl; [exact H1|]. cbn beta. lia.
    + done.
    + eapply Forall_impl; [exact H2|]. cbn beta. lia.
  - by eapply best_of_snoc_worse.
Qed.

(** ** Taking a block off the list *)

Lemma space_free hh l c t r L F : space hh (l ++ (c, t) :: r) L F ≡ₚ ext c t ++ space hh (l ++ r) L F.
Proof.
  unfold space. rewrite !bind_app, bind_cons. change (fext (c, t)) with (ext c t).
  rewrite <-!app_assoc. by rewrite (Permutation_app_swap_app (l ≫= fext)).
Qed.

Lemma space_live hh Fl x L F : space hh Fl (x :: L) F ≡ₚ lext x ++ space hh Fl L F.
Proof. unfold space. rewrite bind_cons, <-!app_assoc. by rewrite (Permutation_app_swap_app (Fl ≫= fext)). Qed.

(** A block of the free list does not overlap the other blocks. *)
Lemma free_apart hh l c t r L F :
  NoDup (space hh (l ++ (c, t) :: r) L F) -> Forall free_wf (l ++ (c, t) :: r) -> Forall live_wf L ->
  (forall b s, (b, s) ∈ l ++ r -> c + cbHdr + t <= b \/ b + cbHdr + s <= c) /\
  (forall x, x ∈ L -> c + cbHdr + t <= lb_addr x \/ lb_addr x + cbHdr + lb_size x <= c).
Proof.
  intros Hd Hf Hl. rewrite Forall_forall in Hf. rewrite Forall_forall in Hl.
  assert (NoDup (ext c t ++ space hh (l ++ r) L F)) as Hd'.
  { by rewrite <-space_free. }
  assert (0 <= t) by (destruct (Hf (c, t)) as (_ & ? & _); [set_solver|simpl in *; lia]).
  split.
  - intros b s Hin. eapply disjoint_ext; [exact Hd'|done| |].
    + intros a Ha. unfold space. apply elem_of_app. left. apply list_elem_of_bind. by exists (b, s).
    + destruct (Hf (b, s)) as (_ & ? & _); [set_solver|simpl in *; lia].
  - intros x Hin. eapply disjoint_ext; [exact Hd'|done| |].
    + intros a Ha. unfold space. apply elem_of_app. right. apply elem_of_app. left. apply list_elem_of_bind. by exists x.
    + destruct (Hl x Hin) as (_ & ? & _). lia.
Qed.

Lemma wp_relink m l1 y x l3 :
  lseg (kh_bytes m) (g_pFree m) l1 y -> flist (kh_bytes m) x l3 -> 0 <= x < 2 ^ 64 ->
  (forall l c t, l1 = l ++ [(c, t)] -> c <> 0 /\ forall b s, (b, s) ∈ l ++ l3 -> b + cbHdr <= c \/ c + cbHdr <= b) ->
  wp (relink (last_addr l1) x) (fun _ m' => exists u' f', m' = set_bytes u' (set_free f' m) /\ flist u' f' (l1 ++ l3) /\
    ((l1 = [] /\ u' = kh_bytes m) \/
     exists l c t, l1 = l ++ [(c, t)] /\ same_out (c + 16) (c + cbHdr) (kh_bytes m) u')) m.
Proof.
  intros Hseg Hf Hx Hap. unfold relink. destruct l1 as [|[c t] l] using rev_ind.
  { cbn. wsteps. exists (kh_bytes m), x. split; [done|]. split; [done|by left]. }
  clear IHl. destruct (Hap l c t eq_refl) as [Hc Hap']. rewrite last_addr_snoc, (proj2 (Z.eqb_neq _ _) Hc). cbn [negb].
  pose proof (lseg_last _ _ _ _ _ _ Hseg) as Hm. apply wp_stn; [done|].
  exists (put_bytes 8 (c + 16) x (kh_bytes m)), (g_pFree m). split; [done|].
  pose proof (same_out_put 8 (c + 16) x (kh_bytes m) Hm) as Hs. split.
  - apply flist_seg. exists x. split.
    + eapply lseg_relink; [done|done|]. intros b s Hin. apply (Hap' b s). set_solver.
    + eapply flist_same; [exact Hs| |done]. intros b s Hin. specialize (Hap' b s ltac:(set_solver)).
      unfold cbHdr in *. simpl. lia.
  - right. exists l, c, t. split; [done|]. eapply same_out_mono; [| |exact Hs]; [lia|unfold cbHdr; simpl; lia].
Qed.
End Ops.
