(* ===== verification/KheapTake.v ===== *)
(** Allocation: the chosen block is detached from the list, whole or split, and
    becomes a live block. *)
From stdpp Require Import base gmap list strings.
From Stdlib Require Import ZArith Lia.
From S2P Require Import Prelude CapTypes KString KStringProofs Pmm Kheap KheapInv.

Section Take.
Context {S : Type} `{PageSource S}.
Implicit Types (m : kheap S).

(** The block [b] of [sz] bytes belongs neither to the list nor to a client. *)
Record heap_det (m : kheap S) (b sz : Z) (Fl : list (Z * Z)) (L : list lblk) (F : list Z) : Prop := {
  hd_init : g_fInit m = true;
  hd_hdr : exists mg al un nx, hdr (kh_bytes m) b sz mg al un nx;
  hd_bwf : free_wf (b, sz);
  hd_free : flist (kh_bytes m) (g_pFree m) Fl;
  hd_live : Forall (live_hdr (kh_bytes m)) L;
  hd_fwf : Forall free_wf Fl;
  hd_lwf : Forall live_wf L;
  hd_nodup : NoDup (ext b sz ++ space (kh_hhdm m) Fl L F);
  hd_map : forall a, a ∈ ext b sz ++ space (kh_hhdm m) Fl L F -> is_Some (kh_bytes m !! a);
  hd_src : psrc_avail (kh_src m) F;
  hd_cused : g_cbUsed m = zsum lb_size L;
  hd_cfree : g_cbFree m = zsum snd Fl;
  hd_cblk : g_cFreeBlocks m = Z.of_nat (length Fl);
  hd_cal : g_cbSoftAlign m = zsum lb_al L;
  hd_cun : g_cbSoftUnsplit m = zsum lb_un L }.

(** What an operation may not touch: the bytes of the live blocks [L], the set
    of mapped bytes, the page source and the mapping. *)
Record heap_frame (L : list lblk) (m m' : kheap S) : Prop := {
  hf_live : forall a, a ∈ L ≫= lext -> kh_bytes m' !! a = kh_bytes m !! a;
  hf_map : forall a, is_Some (kh_bytes m' !! a) <-> is_Some (kh_bytes m !! a);
  hf_hhdm : kh_hhdm m' = kh_hhdm m }.

Lemma heap_frame_refl L m : heap_frame L m m.
Proof. by split. Qed.
Lemma heap_frame_trans L m1 m2 m3 : heap_frame L m1 m2 -> heap_frame L m2 m3 -> heap_frame L m1 m3.
Proof.
  intros [] []. split; [|intros a; by rewrite hf_map1|congruence]. intros a Ha. rewrite hf_live1, hf_live0; done.
Qed.

Lemma live_outside lo hi (L : list lblk) u u' :
  same_out lo hi u u' -> (forall x, x ∈ L -> hi <= lb_addr x \/ lb_addr x + cbHdr + lb_size x <= lo) ->
  forall a, a ∈ L ≫= lext -> u' !! a = u !! a.
Proof.
  intros [A _] Hd a Ha. apply list_elem_of_bind in Ha as (x & Ha & Hx). apply elem_of_ext in Ha. apply A.
  specialize (Hd x Hx). lia.
Qed.

Lemma live_hdrs_same lo hi L u u' :
  same_out lo hi u u' -> Forall live_wf L -> (forall x, x ∈ L -> hi <= lb_addr x \/ lb_addr x + cbHdr + lb_size x <= lo) ->
  Forall (live_hdr u) L -> Forall (live_hdr u') L.
Proof.
  intros Hs Hw Hd HL. rewrite Forall_forall in *. intros x Hx. unfold live_hdr.
  eapply hdr_same; [exact Hs| |by apply HL]. specialize (Hd x Hx). destruct (Hw x Hx) as (_ & ? & _). lia.
Qed.

(** The facts on the chosen block. *)
Lemma rep_block m l1 b s l2 L F :
  heap_rep m (l1 ++ (b, s) :: l2) L F ->
  free_wf (b, s) /\ Forall free_wf (l1 ++ l2) /\
  exists nx, lseg (kh_bytes m) (g_pFree m) l1 b /\ hdr (kh_bytes m) b s GJ_KHEAP_MAGIC_FREE 0 0 nx /\
    0 <= nx < 2 ^ 64 /\ flist (kh_bytes m) nx l2.
Proof.
  intros Hr. pose proof (hr_fwf _ _ _ _ Hr) as Hw. apply Forall_app in Hw as [Hw1 Hw2]. inversion Hw2; subst.
  split; [done|]. split; [by apply Forall_app|]. pose proof (hr_free _ _ _ _ Hr) as Hf.
  apply flist_seg in Hf as (y & Hs & Hf). cbn [flist] in Hf. destruct Hf as (-> & nx & Hn & Hh & Hf). eauto 10.
Qed.

(** The predecessor's link is apart from everything else. *)
Lemma prev_apart m l1 b s l2 L F :
  heap_rep m (l1 ++ (b, s) :: l2) L F ->
  forall l c t, l1 = l ++ [(c, t)] ->
    c <> 0 /\ (forall b' s', (b', s') ∈ l ++ (b, s) :: l2 -> c + cbHdr <= b' \/ b' + cbHdr + s' <= c) /\
    (forall x, x ∈ L -> c + cbHdr <= lb_addr x \/ lb_addr x + cbHdr + lb_size x <= c).
Proof.
  intros Hr l c t ->. pose proof (hr_nodup _ _ _ _ Hr) as Hd. pose proof (hr_fwf _ _ _ _ Hr) as Hf.
  rewrite <-app_assoc in Hd, Hf. cbn [app] in Hd, Hf.
  destruct (free_apart _ _ _ _ _ _ _ Hd Hf (hr_lwf _ _ _ _ Hr)) as [H1 H2].
  assert (free_wf (c, t)) as (Hc & Ht & _) by (apply Forall_app in Hf as [_ Hf]; by inversion Hf). simpl in Hc, Ht.
  split; [lia|]. split; [intros b' s' Hin; specialize (H1 b' s' Hin); lia|intros x Hx; specialize (H2 x Hx); lia].
Qed.

(** The bytes a relink may change, apart from the chosen block, the rest of the
    list and the live blocks. *)
Lemma relink_apart m l1 b s l2 L F (u u' : bmem) :
  heap_rep m (l1 ++ (b, s) :: l2) L F ->
  (l1 = [] /\ u' = u) \/ (exists l c t, l1 = l ++ [(c, t)] /\ same_out (c + 16) (c + cbHdr) u u') ->
  exists lo hi, same_out lo hi u u' /\ (hi <= b \/ b + cbHdr + s <= lo) /\
    (forall x, x ∈ L -> hi <= lb_addr x \/ lb_addr x + cbHdr + lb_size x <= lo).
Proof.
  intros Hr Hu. destruct (rep_block m l1 b s l2 L F Hr) as ((_ & _ & Hb) & _). simpl in Hb.
  destruct Hu as [[_ ->]|(l & c & t & E & Hs)].
  - exists (2 ^ 64), (2 ^ 64). split; [apply same_out_refl|]. split; [by right|]. intros x Hx. right.
    pose proof (hr_lwf _ _ _ _ Hr) as Hl. rewrite Forall_forall in Hl. by destruct (Hl x Hx) as (_ & _ & ? & _).
  - destruct (prev_apart m l1 b s l2 L F Hr l c t E) as (_ & H1 & H2). exists (c + 16), (c + cbHdr).
    split; [done|]. specialize (H1 b s ltac:(set_solver)). unfold cbHdr in *.
    split; [lia|]. intros x Hx. specialize (H2 x Hx). lia.
Qed.

Lemma relink_pre m l1 b s l2 l3 L F :
  heap_rep m (l1 ++ (b, s) :: l2) L F -> 
  (forall b' s', (b', s') ∈ l3 -> (b', s') ∈ l2 \/ (b <= b' /\ b' + cbHdr <= b + cbHdr + s)) ->
  forall l c t, l1 = l ++ [(c, t)] -> c <> 0 /\ forall b' s', (b', s') ∈ l ++ l3 -> b' + cbHdr <= c \/ c + cbHdr <= b'.
Proof.
  intros Hr H3 l c t E. destruct (prev_apart m l1 b s l2 L F Hr l c t E) as (Hc & H1 & _). split; [done|].
  pose proof (hr_fwf _ _ _ _ Hr) as Hw. rewrite Forall_forall in Hw.
  assert (forall b' s', (b', s') ∈ l ++ (b, s) :: l2 -> b' + cbHdr <= c \/ c + cbHdr <= b') as Hold.
  { intros b' s' Hin. specialize (H1 b' s' Hin). destruct (Hw (b', s')) as (_ & ? & _); [subst l1; set_solver|].
    simpl in *. lia. }
  intros b' s' Hin. apply elem_of_app in Hin as [Hin|Hin]; [apply (Hold b' s'); set_solver|].
  destruct (H3 b' s' Hin) as [Hin2|Hin2]; [apply (Hold b' s'); set_solver|].
  specialize (H1 b s ltac:(set_solver)). lia.
Qed.

Lemma wp_take_whole m l1 b s l2 L F need :
  heap_rep m (l1 ++ (b, s) :: l2) L F ->
  wp (take_whole need b (last_addr l1)) (fun r m' =>
    r = s - need /\ heap_det m' b s (l1 ++ l2) L F /\ heap_frame L m m') m.
Proof.
  intros Hr. destruct (rep_block m l1 b s l2 L F Hr) as (Hb & Hw & nx & Hseg & Hh & Hnx & Hf).
  unfold take_whole. apply wp_bind. eapply wp_ldn; [apply Hh|]. wstep. wstep. wstep. wstep.
  apply wp_bind. eapply wp_ldn; [apply Hh|]. apply wp_bind. set (m1 := set_stats _ _ _ _ _ m).
  eapply wp_mono; [apply (wp_relink m1 l1 b nx l2 Hseg Hf Hnx), (relink_pre m l1 b s l2 l2 L F Hr); by left|].
  cbn beta. intros _ m2 (u' & f' & -> & Hf' & Hu). wsteps. split; [done|].
  destruct (relink_apart m l1 b s l2 L F (kh_bytes m) u' Hr Hu) as (lo & hi & Hs & Hbd & HLd).
  destruct Hb as (Hb1 & Hb2 & Hb3). simpl in Hb1, Hb2, Hb3.
  pose proof (space_free (kh_hhdm m) l1 b s l2 L F) as Hsp. destruct Hr.
  assert (zsum snd (l1 ++ (b, s) :: l2) = s + zsum snd (l1 ++ l2)) as Hz by (rewrite !zsum_app; cbn; unfold zsum; lia).
  assert (length (l1 ++ (b, s) :: l2) = Datatypes.S (length (l1 ++ l2))) as Hlen by (rewrite !length_app; simpl; lia).
  pose proof (zsum_nonneg snd (l1 ++ l2)) as Hnn.
  split; [|split; [by apply (live_outside lo hi)|apply Hs|done]].
  split; try done.
  - exists GJ_KHEAP_MAGIC_FREE, 0, 0, nx. eapply hdr_same; [exact Hs|lia|done].
  - eapply live_hdrs_same; [exact Hs|done|done|done].
  - cbn [kh_hhdm set_bytes set_free set_stats m1]. by rewrite <-Hsp.
  - cbn [kh_hhdm set_bytes set_free set_stats m1]. intros a Ha. apply Hs. apply hr_map. by rewrite Hsp.
  - simpl. rewrite hr_cfree, Hz. unfold sub_floor. rewrite (proj2 (Z.leb_le _ _)); [lia|].
    specialize (Hnn ltac:(eapply Forall_impl; [exact Hw|]; intros x (? & ? & ?); lia)). lia.
  - simpl. rewrite hr_cblk, Hlen. rewrite (proj2 (Z.ltb_lt _ _)) by lia. lia.
Qed.

(** Four stores start a header; the link follows. *)
Lemma wp_new_hdr {A} p s mg (k : prog (kheap S) A) Q m :
  (forall a, p <= a < p + cbHdr -> is_Some (kh_bytes m !! a)) ->
  wp k Q (set_bytes (put_fields p s mg (kh_bytes m)) m) ->
  wp (st_cbSize p s ;;; (st_u32Magic p mg ;;; (st_u16SoftAlign p 0 ;;; (st_u16SoftUnsplit p 0 ;;; k)))) Q m.
Proof.
  unfold cbHdr. intros Hm Hk.
  apply wp_bind, wp_stn; [apply mapped_bytes; simpl; intros a Ha; apply Hm; lia|].
  apply wp_bind, wp_stn; [apply mapped_bytes; intros a Ha; apply put_some, Hm; simpl in Ha; lia|].
  apply wp_bind, wp_stn; [apply mapped_bytes; intros a Ha; apply put_some, put_some, Hm; simpl in Ha; lia|].
  apply wp_bind, wp_stn; [apply mapped_bytes; intros a Ha; apply put_some, put_some, put_some, Hm; simpl in Ha; lia|].
  exact Hk.
Qed.

Lemma ext_mapped m b s Fl L F :
  heap_rep m Fl L F -> (b, s) ∈ Fl -> forall a, b <= a < b + cbHdr + s -> is_Some (kh_bytes m !! a).
Proof.
  intros Hr Hin a Ha. apply (hr_map _ _ _ _ Hr). unfold space. apply elem_of_app. left.
  apply list_elem_of_bind. exists (b, s). split; [by apply elem_of_ext|done].
Qed.

(** A store inside a mapped range. *)
Lemma same_out_store lo hi n p v u :
  lo <= p -> p + Z.of_nat n <= hi -> (forall a, p <= a < p + Z.of_nat n -> is_Some (u !! a)) ->
  same_out lo hi u (put_bytes n p v u).
Proof.
  intros H1 H2 Hm. eapply same_out_mono; [exact H1|exact H2|]. apply same_out_put. by apply mapped_bytes.
Qed.

(** The bytes after a split: the rest at [p] has a header of its own. *)
Definition split_bytes (b need p left nx : Z) (u : bmem) : bmem :=
  put_bytes 8 (b + 16) p (put_bytes 8 b need (put_hdr p left GJ_KHEAP_MAGIC_FREE nx u)).

Lemma split_bytes_facts b s need nx u :
  hdr u b s GJ_KHEAP_MAGIC_FREE 0 0 nx -> 0 < b -> 0 <= need -> need + cbHdr <= s -> b + cbHdr + s <= 2 ^ 64 ->
  0 <= nx < 2 ^ 64 -> (forall a, b <= a < b + cbHdr + s -> is_Some (u !! a)) ->
  let p := b + cbHdr + need in
  let u' := split_bytes b need p (s - need - cbHdr) nx u in
  same_out b (b + cbHdr + s) u u' /\ hdr u' b need GJ_KHEAP_MAGIC_FREE 0 0 p /\
  hdr u' p (s - need - cbHdr) GJ_KHEAP_MAGIC_FREE 0 0 nx.
Proof.
  intros Hh Hb Hn Hs Hw Hnx Hmap. cbv zeta. set (p := b + cbHdr + need). set (left := s - need - cbHdr).
  unfold cbHdr in *. assert (p + 24 <= b + 24 + s /\ b + 24 <= p /\ 0 <= left < 2 ^ 64 /\ p < 2 ^ 64) as (Hp1 & Hp2 & Hlf & Hp3)
    by (unfold p, left; lia).
  assert (same_out p (p + cbHdr) u (put_hdr p left GJ_KHEAP_MAGIC_FREE nx u)) as Hs1.
  { apply same_out_put_hdr. unfold cbHdr. intros a Ha. apply Hmap. lia. }
  unfold cbHdr in Hs1. unfold split_bytes. split.
  - eapply same_out_trans; [eapply same_out_mono; [| |exact Hs1]; lia|].
    assert (forall a, b <= a < b + 24 -> is_Some (put_hdr p left GJ_KHEAP_MAGIC_FREE nx u !! a)) as Hm1.
    { intros a Ha. apply Hs1, Hmap. lia. }
    eapply same_out_trans; [apply (same_out_store b (b + 24 + s) 8 b need); [lia|lia|]|].
    { intros a Ha. apply Hm1. lia. }
    apply (same_out_store b (b + 24 + s) 8 (b + 16) p); [lia|lia|]. intros a Ha. apply put_some, Hm1. lia.
  - assert (hdr (put_hdr p left GJ_KHEAP_MAGIC_FREE nx u) b s GJ_KHEAP_MAGIC_FREE 0 0 nx) as Hb1.
    { eapply hdr_same; [exact Hs1|unfold cbHdr; lia|done]. }
    split.
    + eapply hdr_put_next; [lia|]. by eapply hdr_put_size; [unfold p in *; lia|].
    + destruct (hdr_put_hdr p left GJ_KHEAP_MAGIC_FREE nx u) as [P1 P2 P3 P4 P5]; [lia|done|done|].
      split; rewrite !user_bytes_put_ne by (simpl; lia); done.
Qed.

(** The free list with the rest of the block in its place. *)
Lemma split_flist m l1 b s l2 L F need nx :
  heap_rep m (l1 ++ (b, s) :: l2) L F -> 0 <= need -> need + cbHdr <= s ->
  hdr (kh_bytes m) b s GJ_KHEAP_MAGIC_FREE 0 0 nx -> 0 <= nx < 2 ^ 64 -> flist (kh_bytes m) nx l2 ->
  lseg (kh_bytes m) (g_pFree m) l1 b ->
  let p := b + cbHdr + need in
  let u' := split_bytes b need p (s - need - cbHdr) nx (kh_bytes m) in
  same_out b (b + cbHdr + s) (kh_bytes m) u' /\ hdr u' b need GJ_KHEAP_MAGIC_FREE 0 0 p /\
  lseg u' (g_pFree m) l1 b /\ flist u' p ((p, s - need - cbHdr) :: l2) /\ Forall (live_hdr u') L /\
  (forall a, a ∈ L ≫= lext -> u' !! a = kh_bytes m !! a).
Proof.
  intros Hr Hn Hs Hh Hnx Hf Hseg. cbv zeta.
  destruct (rep_block m l1 b s l2 L F Hr) as ((Hb1 & Hb2 & Hb3) & Hw & _). simpl in Hb1, Hb2, Hb3.
  destruct (free_apart _ _ _ _ _ _ _ (hr_nodup _ _ _ _ Hr) (hr_fwf _ _ _ _ Hr) (hr_lwf _ _ _ _ Hr)) as [Hap HapL].
  pose proof (ext_mapped m b s _ L F Hr ltac:(set_solver)) as Hmap.
  destruct (split_bytes_facts b s need nx (kh_bytes m)) as (Hs1 & Hh1 & Hh2); try done.
  rewrite Forall_forall in Hw.
  assert (forall b' s', (b', s') ∈ l1 ++ l2 -> b' + cbHdr <= b \/ b + cbHdr + s <= b') as Hap'.
  { intros b' s' Hin. specialize (Hap b' s' Hin). destruct (Hw (b', s') Hin) as (_ & ? & _). simpl in *. lia. }
  assert (forall x, x ∈ L -> b + cbHdr + s <= lb_addr x \/ lb_addr x + cbHdr + lb_size x <= b) as HL by done.
  split_and!; [done|done|..].
  - eapply lseg_same; [exact Hs1| |done]. intros b' s' Hin. apply (Hap' b' s'). set_solver.
  - cbn [flist]. split; [done|]. exists nx. split; [done|]. split; [done|].
    eapply flist_same; [exact Hs1| |done]. intros b' s' Hin. apply (Hap' b' s'). set_solver.
  - eapply live_hdrs_same; [exact Hs1|apply Hr|done|apply Hr].
  - by eapply live_outside.
Qed.

(** The state after a split: what remains of the block replaces it. *)
Lemma split_det m l1 b s l2 L F need u1 u' lo hi f' :
  heap_rep m (l1 ++ (b, s) :: l2) L F -> 0 <= need -> need + cbHdr <= s ->
  same_out b (b + cbHdr + s) (kh_bytes m) u1 -> hdr u1 b need GJ_KHEAP_MAGIC_FREE 0 0 (b + cbHdr + need) ->
  Forall (live_hdr u1) L -> (forall a, a ∈ L ≫= lext -> u1 !! a = kh_bytes m !! a) ->
  same_out lo hi u1 u' -> hi <= b \/ b + cbHdr + s <= lo ->
  (forall x, x ∈ L -> hi <= lb_addr x \/ lb_addr x + cbHdr + lb_size x <= lo) ->
  flist u' f' (l1 ++ (b + cbHdr + need, s - need - cbHdr) :: l2) ->
  let m' := set_bytes u' (set_free f' (set_stats (g_cbUsed m) (sub_floor (g_cbFree m) (need + cbHdr)) (g_cFreeBlocks m)
              (g_cbSoftAlign m) (g_cbSoftUnsplit m) m)) in
  heap_det m' b need (l1 ++ (b + cbHdr + need, s - need - cbHdr) :: l2) L F /\ heap_frame L m m'.
Proof.
  intros Hr Hn Hsz Hs1 Hh1 HL1 Hfr1 Hs Hbd HLd Hf'. cbv zeta. set (p := b + cbHdr + need) in *. set (left := s - need - cbHdr) in *.
  destruct (rep_block m l1 b s l2 L F Hr) as ((Hb1 & Hb2 & Hb3) & Hw & _). simpl in Hb1, Hb2, Hb3.
  assert (forall F0, ext b need ++ space (kh_hhdm m) (l1 ++ (p, left) :: l2) L F0 ≡ₚ space (kh_hhdm m) (l1 ++ (b, s) :: l2) L F0) as Hsp.
  { intros F0. rewrite !space_free, app_assoc. by rewrite (ext_split b s need) by done. }
  assert (Forall free_wf (l1 ++ (p, left) :: l2)) as Hw'.
  { apply Forall_app in Hw as [? ?]. apply Forall_app. split; [done|]. constructor; [|done].
    unfold free_wf, p, left, GJ_KHEAP_PAGE_PAYLOAD, GJ_PAGE_SIZE, cbHdr in *. simpl. lia. }
  assert (zsum snd (l1 ++ (b, s) :: l2) = need + cbHdr + zsum snd (l1 ++ (p, left) :: l2)) as Hz.
  { rewrite !zsum_app. cbn. unfold left. lia. }
  pose proof (zsum_nonneg snd (l1 ++ (p, left) :: l2)) as Hnn.
  specialize (Hnn ltac:(eapply Forall_impl; [exact Hw'|]; intros x (? & ? & ?); lia)).
  destruct Hr. split.
  - split; try done.
    + exists GJ_KHEAP_MAGIC_FREE, 0, 0, p. eapply hdr_same; [exact Hs|unfold cbHdr in *; lia|done].
    + unfold free_wf, GJ_KHEAP_PAGE_PAYLOAD, GJ_PAGE_SIZE, cbHdr in *. simpl. lia.
    + by eapply live_hdrs_same.
    + cbn [kh_hhdm set_bytes set_free set_stats]. by rewrite Hsp.
    + cbn [kh_hhdm set_bytes set_free set_stats]. intros a Ha. apply Hs, Hs1, hr_map. by rewrite <-Hsp.
    + simpl. rewrite hr_cfree, Hz. unfold sub_floor. rewrite (proj2 (Z.leb_le _ _)); lia.
    + simpl. rewrite hr_cblk, !length_app. simpl. lia.
  - split; [|intros a; simpl; rewrite (proj2 Hs); apply Hs1|done]. intros a Ha. simpl. rewrite <-Hfr1 by done.
    by apply (live_outside lo hi L u1 u').
Qed.

Lemma wp_take_split m l1 b s l2 L F need :
  heap_rep m (l1 ++ (b, s) :: l2) L F -> 0 <= need -> need + GJ_KHEAP_SPLIT_MIN <= s ->
  wp (take_split need b (last_addr l1)) (fun r m' =>
    r = 0 /\ heap_det m' b need (l1 ++ (b + cbHdr + need, s - need - cbHdr) :: l2) L F /\ heap_frame L m m') m.
Proof.
  intros Hr Hn Hsz. destruct (rep_block m l1 b s l2 L F Hr) as (Hb & Hw & nx & Hseg & Hh & Hnx & Hf).
  pose proof Hb as (Hb1 & Hb2 & Hb3). simpl in Hb1, Hb2, Hb3.
  unfold GJ_KHEAP_SPLIT_MIN, cbHdr in Hsz. assert (need + cbHdr <= s) as Hsz' by (unfold cbHdr; lia).
  destruct (split_flist m l1 b s l2 L F need nx) as (Hs1 & Hh1 & Hseg1 & Hf1 & HL1 & Hfr1); [done..|].
  pose proof (ext_mapped m b s _ L F Hr ltac:(set_solver)) as Hmap.
  unfold take_split, payload_from_block. apply wp_bind. eapply wp_ldn; [apply Hh|].
  set (p := b + cbHdr + need) in *. set (left := s - need - cbHdr) in *.
  assert (forall a, p <= a < p + cbHdr -> is_Some (kh_bytes m !! a)) as Hmp.
  { intros a Ha. apply Hmap. unfold p, cbHdr in *. lia. }
  apply wp_new_hdr; [done|]. apply wp_bind. eapply wp_ldn.
  { cbn [kh_bytes set_bytes]. erewrite user_bytes_same; [apply Hh|by apply same_out_put_fields|].
    left. unfold p, cbHdr. simpl. lia. }
  apply wp_bind, wp_stn.
  { apply mapped_bytes. intros a Ha. cbn [kh_bytes set_bytes]. apply (same_out_put_fields p left GJ_KHEAP_MAGIC_FREE _ Hmp), Hmp.
    unfold cbHdr. simpl in Ha. lia. }
  apply wp_bind, wp_pmod. cbn [kh_bytes set_bytes set_stats]. fold (put_hdr p left GJ_KHEAP_MAGIC_FREE nx (kh_bytes m)).
  assert (forall a, b <= a < b + cbHdr -> is_Some (put_hdr p left GJ_KHEAP_MAGIC_FREE nx (kh_bytes m) !! a)) as Hmb.
  { intros a Ha. apply (same_out_put_hdr p left GJ_KHEAP_MAGIC_FREE nx _ Hmp), Hmap. lia. }
  apply wp_bind, wp_stn; [apply mapped_bytes; intros a Ha; apply Hmb; unfold cbHdr; simpl in Ha; lia|].
  apply wp_bind, wp_stn; [apply mapped_bytes; intros a Ha; apply put_some, Hmb; unfold cbHdr; simpl in Ha; lia|].
  cbn [kh_bytes set_bytes set_stats]. fold (split_bytes b need p left nx (kh_bytes m)).
  set (u1 := split_bytes b need p left nx (kh_bytes m)) in *. apply wp_bind.
  match goal with |- wp (relink _ _) _ ?m0 => set (m1 := m0) end.
  eapply wp_mono; [apply (wp_relink m1 l1 b p ((p, left) :: l2)); [exact Hseg1|exact Hf1|unfold p, cbHdr in *; lia|]|].
  { apply (relink_pre m l1 b s l2 ((p, left) :: l2) L F Hr). intros b' s' Hin. apply elem_of_cons in Hin as [[= -> ->]|]; [right|by left].
    unfold p, cbHdr in *. lia. }
  cbn beta. intros _ m2 (u' & f' & -> & Hf' & Hu). wsteps. split; [done|].
  destruct (relink_apart m l1 b s l2 L F u1 u' Hr Hu) as (lo & hi & Hs & Hbd & HLd).
  by apply (split_det m l1 b s l2 L F need u1 u' lo hi f').
Qed.
End Take.
