(* ===== verification/KheapAlloc.v ===== *)
(** Allocation: a detached block becomes live, and the page source refills the
    list. *)
From stdpp Require Import base gmap list strings.
From Stdlib Require Import ZArith Lia.
From S2P Require Import Prelude CapTypes KString KStringProofs Pmm PmmInv Kheap KheapInv KheapTake.

(** The current state as one record of the fields of the first one. *)
Ltac kh_norm :=
  lazymatch goal with
  | |- wp _ _ ?s =>
      let s' := eval cbn [set_bytes set_stats set_free set_src g_pFree g_cbUsed g_cbFree g_cFreeBlocks g_cbSoftAlign
        g_cbSoftUnsplit g_fInit kh_hhdm kh_bytes kh_src] in s in change s with s'
  end.

Section Alloc.
Context {S : Type} `{PageSource S}.
Implicit Types (m : kheap S).

(** All payload bytes of the block are zero. *)
Definition zeroed (u : bmem) (b s : Z) : Prop := forall a, b + cbHdr <= a < b + cbHdr + s -> u !! a = Some 0.

Lemma wp_zero_payload b s m (Q : Z -> kheap S -> Prop) :
  0 <= s -> (forall a, b <= a < b + cbHdr + s -> is_Some (kh_bytes m !! a)) ->
  (forall r u', same_out (b + cbHdr) (b + cbHdr + s) (kh_bytes m) u' -> zeroed u' b s -> Q r (set_bytes u' m)) ->
  wp (on_bytes (memset (payload_from_block b) 0 (Z.to_nat s))) Q m.
Proof.
  intros Hs Hmap HQ. apply wp_on_bytes. unfold payload_from_block. eapply wp_mono; [apply wp_memset|].
  { intros i Hi. apply Hmap. unfold cbHdr. lia. }
  cbn beta. intros r u' [_ Hu]. apply HQ.
  - split; intros a; rewrite Hu; [intros Ha; rewrite decide_False by lia; done|].
    case_decide as Hd; [|done]. split; [|by eexists]. intros _. apply Hmap. unfold cbHdr in *. lia.
  - intros a Ha. rewrite Hu, decide_True by lia. done.
Qed.

(** The header of a live block. *)
Definition mark_live (b al un : Z) (u : bmem) : bmem :=
  put_bytes 2 (b + 14) un (put_bytes 2 (b + 12) al (put_bytes 8 (b + 16) 0 (put_bytes 4 (b + 8) GJ_KHEAP_MAGIC_LIVE u))).

Lemma mark_live_facts b s mg al0 un0 nx al un u :
  hdr u b s mg al0 un0 nx -> 0 <= al < 2 ^ 16 -> 0 <= un < 2 ^ 16 ->
  (forall a, b <= a < b + cbHdr -> is_Some (u !! a)) ->
  hdr (mark_live b al un u) b s GJ_KHEAP_MAGIC_LIVE al un 0 /\ same_out b (b + cbHdr) u (mark_live b al un u).
Proof.
  intros Hh Ha Hu Hm. unfold mark_live, cbHdr in *. split.
  - eapply hdr_put_un, hdr_put_al, hdr_put_next, hdr_put_magic; try exact Hh; try done.
  - eapply same_out_trans; [apply (same_out_store b (b + 24) 4 (b + 8)); [lia|lia|]|].
    { intros a H1. apply Hm. lia. }
    eapply same_out_trans; [apply (same_out_store b (b + 24) 8 (b + 16)); [lia|lia|]|].
    { intros a H1. apply put_some, Hm. lia. }
    eapply same_out_trans; [apply (same_out_store b (b + 24) 2 (b + 12)); [lia|lia|]|].
    { intros a H1. apply put_some, put_some, Hm. lia. }
    apply (same_out_store b (b + 24) 2 (b + 14)); [lia|lia|]. intros a H1. apply put_some, put_some, put_some, Hm. lia.
Qed.

(** Bytes that change inside a detached block leave the rest of the heap. *)
Lemma det_apart m b s Fl L F :
  heap_det m b s Fl L F ->
  (forall b' s', (b', s') ∈ Fl -> b' + cbHdr <= b \/ b + cbHdr + s <= b') /\
  (forall x, x ∈ L -> b + cbHdr + s <= lb_addr x \/ lb_addr x + cbHdr + lb_size x <= b).
Proof.
  intros []. pose proof hd_bwf as (_ & Hb & _). simpl in Hb.
  destruct (free_apart (kh_hhdm m) [] b s Fl L F) as [H1 H2]; [|by constructor|done|].
  { rewrite space_free. done. }
  split; [|done]. intros b' s' Hin. specialize (H1 b' s' Hin). rewrite Forall_forall in hd_fwf.
  destruct (hd_fwf (b', s') Hin) as (_ & ? & _). simpl in *. lia.
Qed.

Lemma det_live m b s Fl L F al un u' :
  heap_det m b s Fl L F -> 0 <= al < 16 -> 0 <= un <= s -> un < 2 ^ 16 ->
  same_out b (b + cbHdr + s) (kh_bytes m) u' -> hdr u' b s GJ_KHEAP_MAGIC_LIVE al un 0 ->
  let m' := set_bytes u' (set_stats (g_cbUsed m + s) (g_cbFree m) (g_cFreeBlocks m)
              (g_cbSoftAlign m + al) (g_cbSoftUnsplit m + un) m) in
  heap_rep m' Fl (MkLive b s al un :: L) F /\ heap_frame L m m'.
Proof.
  intros Hd Hal Hun Hun2 Hs Hh. cbv zeta. destruct (det_apart m b s Fl L F Hd) as [H1 H2]. destruct Hd.
  destruct hd_bwf as (Hb1 & Hb2 & Hb3). simpl in Hb1, Hb2, Hb3.
  assert (space (kh_hhdm m) Fl (MkLive b s al un :: L) F ≡ₚ ext b s ++ space (kh_hhdm m) Fl L F) as Hsp by apply space_live.
  split; [|split; [by apply (live_outside b (b + cbHdr + s))|apply Hs|done]].
  split; try done; cbn [kh_hhdm kh_bytes set_bytes set_free set_stats g_cbUsed g_cbSoftAlign g_cbSoftUnsplit g_pFree].
  - eapply flist_same; [exact Hs| |done]. intros b' s' Hin. by apply (H1 b' s').
  - constructor; [exact Hh|]. by eapply live_hdrs_same.
  - constructor; [|done]. by unfold live_wf.
  - by rewrite Hsp.
  - intros a Ha. apply Hs, hd_map. by rewrite <-Hsp.
  - cbn [zsum foldr lb_size]. fold (zsum lb_size L). lia.
  - cbn [zsum foldr lb_al]. fold (zsum lb_al L). lia.
  - cbn [zsum foldr lb_un]. fold (zsum lb_un L). lia.
Qed.
(** The counters of a heap with one block aside do not wrap. *)
Lemma det_bounds m b s Fl L F al un :
  heap_det m b s Fl L F -> 0 <= al < 16 -> 0 <= un <= s ->
  u64_add (g_cbUsed m) s = g_cbUsed m + s /\ u64_add (g_cbSoftAlign m) al = g_cbSoftAlign m + al /\
  u64_add (g_cbSoftUnsplit m) un = g_cbSoftUnsplit m + un /\
  u64_add (g_cbFree m) s = g_cbFree m + s /\ u64_add (g_cFreeBlocks m) 1 = g_cFreeBlocks m + 1.
Proof.
  intros [] Hal Hun.
  assert (NoDup (space (kh_hhdm m) ((b, s) :: Fl) L F)) as Hnd
    by (pose proof (space_free (kh_hhdm m) [] b s Fl L F) as E; cbn [app] in E; by rewrite E).
  assert (Forall free_wf ((b, s) :: Fl)) as Hw by by constructor.
  pose proof (total_bound _ _ _ _ Hw hd_lwf Hnd) as Ht. pose proof (sums_bound _ _ _ _ Hw hd_lwf Hnd) as Hsb.
  assert (0 <= zsum snd Fl) by (apply zsum_nonneg; eapply Forall_impl; [exact hd_fwf|]; intros x (? & ? & ?); lia).
  cbn [zsum foldr length snd] in Ht, Hsb. fold (zsum (@snd Z Z) Fl) in Ht, Hsb. unfold cbHdr in *.
  rewrite hd_cused, hd_cal, hd_cun, hd_cfree, hd_cblk. rewrite !u64_add_small by lia. done.
Qed.

(** The second half of [take_best]. *)
Definition finish_live (cbAlignWaste pBest cbUnsplit : Z) : prog (kheap S) Z :=
  st_u32Magic pBest GJ_KHEAP_MAGIC_LIVE ;;;
  st_pNext pBest 0 ;;;
  st_u16SoftAlign pBest (u16_wrap cbAlignWaste) ;;;
  st_u16SoftUnsplit pBest (u16_wrap cbUnsplit) ;;;
  pmod (fun m => set_stats (g_cbUsed m) (g_cbFree m) (g_cFreeBlocks m)
                   (u64_add (g_cbSoftAlign m) cbAlignWaste) (u64_add (g_cbSoftUnsplit m) cbUnsplit) m) ;;;
  soft_note_alloc cbAlignWaste cbUnsplit ;;;
  size <- ld_cbSize pBest ;;
  pmod (fun m => set_stats (u64_add (g_cbUsed m) size) (g_cbFree m) (g_cFreeBlocks m)
                   (g_cbSoftAlign m) (g_cbSoftUnsplit m) m) ;;;
  tick64 "kh.g_cAlloc" ;;;
  soft_note_peaks ;;;
  let pOut := payload_from_block pBest in
  size <- ld_cbSize pBest ;;
  on_bytes (memset pOut 0 (Z.to_nat size)) ;;;
  pret pOut.

Lemma wp_finish_live m b s Fl L F al un :
  heap_det m b s Fl L F -> 0 <= al < 16 -> 0 <= un <= s ->
  wp (finish_live al b un) (fun p m' => p = b + cbHdr /\ heap_rep m' Fl (MkLive b s al un :: L) F /\
    heap_frame L m m' /\ zeroed (kh_bytes m') b s) m.
Proof.
  intros Hd Hal Hun. pose proof (hd_bwf _ _ _ _ _ _ Hd) as (Hb1 & Hb2 & Hb3). simpl in Hb1, Hb2, Hb3.
  unfold GJ_KHEAP_PAGE_PAYLOAD, GJ_PAGE_SIZE in Hb2.
  destruct (hd_hdr _ _ _ _ _ _ Hd) as (mg & al0 & un0 & nx & Hh).
  assert (forall a, b <= a < b + cbHdr + s -> is_Some (kh_bytes m !! a)) as Hm.
  { intros a Ha. apply (hd_map _ _ _ _ _ _ Hd), elem_of_app. left. by apply elem_of_ext. }
  assert (forall a, b <= a < b + cbHdr -> is_Some (kh_bytes m !! a)) as Hmh by (intros a Ha; apply Hm; lia).
  destruct (mark_live_facts b s mg al0 un0 nx al un (kh_bytes m) Hh) as [Hh1 Hs1]; [unfold cbHdr in *; lia..|done|].
  unfold finish_live. assert (u16_wrap al = al) as -> by (unfold u16_wrap; apply Z.mod_small; lia).
  assert (u16_wrap un = un) as -> by (unfold u16_wrap; apply Z.mod_small; unfold cbHdr in *; lia).
  unfold cbHdr in Hmh.
  apply wp_bind, wp_stn; [apply mapped_bytes; intros a Ha; apply Hmh; lia|]. kh_norm.
  apply wp_bind, wp_stn; [apply mapped_bytes; intros a Ha; apply put_some, Hmh; lia|]. kh_norm.
  apply wp_bind, wp_stn; [apply mapped_bytes; intros a Ha; apply put_some, put_some, Hmh; lia|]. kh_norm.
  apply wp_bind, wp_stn; [apply mapped_bytes; intros a Ha; apply put_some, put_some, put_some, Hmh; lia|]. kh_norm.
  fold (mark_live b al un (kh_bytes m)). set (u1 := mark_live b al un (kh_bytes m)) in *.
  apply wp_bind, wp_pmod. kh_norm. apply wp_bind, wp_note_alloc, wp_bind. eapply wp_ldn; [apply Hh1|].
  apply wp_bind, wp_pmod. kh_norm. apply wp_bind, wp_tick64, wp_bind, wp_note_peaks, wp_bind. eapply wp_ldn; [apply Hh1|].
  apply wp_bind, wp_zero_payload; [lia|intros a Ha; apply Hs1, Hm; done|].
  cbn [kh_bytes]. intros r u2 Hs2 Hz. kh_norm. wsteps. split; [done|].
  destruct (det_bounds m b s Fl L F al un Hd Hal Hun) as (-> & -> & -> & _).
  destruct (det_live m b s Fl L F al un u2 Hd Hal Hun) as [Hr Hf]; [unfold cbHdr in *; lia|..|done].
  - eapply same_out_trans; [eapply same_out_mono; [| |exact Hs1]|eapply same_out_mono; [| |exact Hs2]]; unfold cbHdr; lia.
  - eapply hdr_same; [exact Hs2|by left|done].
Qed.
(** What a request of [need] bytes leaves of the block [(b, s)] and its
    neighbours, the size it gets, and how much of that is slack. *)
Definition carve (need : Z) (l1 : list (Z * Z)) (b s : Z) (l2 : list (Z * Z)) : list (Z * Z) * Z * Z :=
  if need + GJ_KHEAP_SPLIT_MIN <=? s then (l1 ++ (b + cbHdr + need, s - need - cbHdr) :: l2, need, 0)
  else (l1 ++ l2, s, s - need).

Lemma wp_take_best m l1 b s l2 L F need al Fl' sz un :
  heap_rep m (l1 ++ (b, s) :: l2) L F -> 0 <= need <= s -> 0 <= al < 16 -> carve need l1 b s l2 = (Fl', sz, un) ->
  wp (take_best need al b (last_addr l1)) (fun p m' => p = b + cbHdr /\ heap_rep m' Fl' (MkLive b sz al un :: L) F /\
    heap_frame L m m' /\ zeroed (kh_bytes m') b sz) m.
Proof.
  intros Hr Hn Hal Hc. destruct (rep_block m l1 b s l2 L F Hr) as (_ & _ & nx & _ & Hh & _).
  unfold take_best. apply wp_bind, wp_tick64, wp_bind. eapply wp_ldn; [apply Hh|]. apply wp_bind. unfold carve in Hc.
  eapply (wp_mono _ (fun r m' => r = un /\ heap_det m' b sz Fl' L F /\ heap_frame L m m' /\ 0 <= un <= sz)).
  - destruct (Z.leb_spec (need + GJ_KHEAP_SPLIT_MIN) s) as [Hsp|Hwh]; injection Hc as <- <- <-.
    + eapply wp_mono; [apply (wp_take_split m l1 b s l2 L F need Hr); lia|]. cbn beta. intros r m' (-> & ? & ?). auto with lia.
    + eapply wp_mono; [apply (wp_take_whole m l1 b s l2 L F need Hr)|]. cbn beta. intros r m' (-> & ? & ?). auto with lia.
  - cbn beta. intros r m1 (-> & Hd & Hf & Hun). fold (finish_live al b un).
    eapply wp_mono; [by apply (wp_finish_live m1 b sz Fl' L F al un)|]. cbn beta. intros p m2 (-> & ? & ? & ?).
    split_and!; [done|done|by eapply heap_frame_trans|done].
Qed.

(** ** Growth *)
Lemma virt_range hh x :
  x mod GJ_PAGE_SIZE = 0 -> 0 < x -> x + GJ_PAGE_SIZE <= 2 ^ 47 ->
  0 < hhdm_to_virt hh x /\ hhdm_to_virt hh x + GJ_PAGE_SIZE <= 2 ^ 64.
Proof.
  unfold hhdm_to_virt, GJ_PAGE_SIZE, GJ_HHDM_BASE. intros _ H1 H2. destruct hh; [rewrite u64_add_small|]; lia.
Qed.

Lemma page_ext hh x : page_bytes hh x = ext (hhdm_to_virt hh x) GJ_KHEAP_PAGE_PAYLOAD.
Proof. done. Qed.

Lemma space_page hh Fl L x F :
  space hh Fl L (x :: F) ≡ₚ space hh ((hhdm_to_virt hh x, GJ_KHEAP_PAGE_PAYLOAD) :: Fl) L F.
Proof.
  unfold space. rewrite !bind_cons, page_ext. change (fext _) with (ext (hhdm_to_virt hh x) GJ_KHEAP_PAGE_PAYLOAD).
  rewrite (Permutation_app_swap_app (L ≫= lext)), (Permutation_app_swap_app (Fl ≫= fext)). by rewrite <-!app_assoc.
Qed.
Lemma head_range u h l : flist u h l -> Forall free_wf l -> 0 <= h < 2 ^ 64.
Proof.
  destruct l as [|[b s] l]; cbn [flist]; [intros ->; lia|]. intros (-> & _) Hw. inversion Hw as [|? ? (H1 & H2 & H3)]; subst.
  unfold cbHdr in *. simpl in *. lia.
Qed.

(** A detached block becomes the head of the free list. *)
Lemma det_push m b s Fl L F u' :
  heap_det m b s Fl L F -> same_out b (b + cbHdr + s) (kh_bytes m) u' ->
  hdr u' b s GJ_KHEAP_MAGIC_FREE 0 0 (g_pFree m) ->
  let m' := set_bytes u' (set_free b (set_stats (g_cbUsed m) (g_cbFree m + s) (g_cFreeBlocks m + 1)
              (g_cbSoftAlign m) (g_cbSoftUnsplit m) m)) in
  heap_rep m' ((b, s) :: Fl) L F /\ heap_frame L m m'.
Proof.
  intros Hd Hs Hh. cbv zeta. destruct (det_apart m b s Fl L F Hd) as [H1 H2]. destruct Hd.
  pose proof (space_free (kh_hhdm m) [] b s Fl L F) as Hsp. cbn [app] in Hsp.
  split; [|split; [by apply (live_outside b (b + cbHdr + s))|apply Hs|done]].
  split; try done; cbn [kh_hhdm kh_bytes set_bytes set_free set_stats g_cbFree g_cFreeBlocks g_pFree].
  - cbn [flist]. split; [done|]. exists (g_pFree m). split; [by eapply head_range|]. split; [done|].
    eapply flist_same; [exact Hs| |done]. intros b' s' Hin. by apply (H1 b' s').
  - by eapply live_hdrs_same.
  - by constructor.
  - by rewrite Hsp.
  - intros a Ha. apply Hs, hd_map. by rewrite <-Hsp.
  - cbn [zsum foldr snd]. fold (zsum (@snd Z Z) Fl). lia.
  - cbn [length]. lia.
Qed.

(** A page taken from the source, with its header written. *)
Lemma page_det m Fl L F F' x s' nx :
  heap_rep m Fl L F -> F ≡ₚ x :: F' -> psrc_avail s' F' -> 0 <= nx < 2 ^ 64 ->
  let b := hhdm_to_virt (kh_hhdm m) x in
  let u1 := put_hdr b GJ_KHEAP_PAGE_PAYLOAD GJ_KHEAP_MAGIC_FREE nx (kh_bytes m) in
  heap_det (set_bytes u1 (set_src s' m)) b GJ_KHEAP_PAGE_PAYLOAD Fl L F' /\
  same_out b (b + GJ_PAGE_SIZE) (kh_bytes m) u1 /\ heap_frame L m (set_bytes u1 (set_src s' m)) /\
  (forall a, b <= a < b + GJ_PAGE_SIZE -> is_Some (kh_bytes m !! a)).
Proof.
  intros Hr HF Hav Hnx. cbv zeta. set (b := hhdm_to_virt (kh_hhdm m) x).
  destruct (psrc_page (kh_src m) F x (hr_src _ _ _ _ Hr)) as (Hx1 & Hx2 & Hx3); [rewrite HF; set_solver|].
  destruct (virt_range (kh_hhdm m) x Hx1 Hx2 Hx3) as [Hb1 Hb2]. fold b in Hb1, Hb2.
  assert (space (kh_hhdm m) Fl L F ≡ₚ ext b GJ_KHEAP_PAGE_PAYLOAD ++ space (kh_hhdm m) Fl L F') as Hsp.
  { rewrite (space_perm _ Fl Fl L L F (x :: F')) by done. rewrite space_page. apply (space_free _ [] b). }
  assert (free_wf (b, GJ_KHEAP_PAGE_PAYLOAD)) as Hbw.
  { unfold free_wf, GJ_KHEAP_PAGE_PAYLOAD, GJ_PAGE_SIZE, cbHdr in *. simpl. lia. }
  destruct Hr.
  assert (forall a, b <= a < b + GJ_PAGE_SIZE -> is_Some (kh_bytes m !! a)) as Hm.
  { intros a Ha. apply hr_map. rewrite Hsp. apply elem_of_app. left. apply elem_of_ext.
    unfold GJ_KHEAP_PAGE_PAYLOAD, GJ_PAGE_SIZE, cbHdr in *. lia. }
  set (u1 := put_hdr b GJ_KHEAP_PAGE_PAYLOAD GJ_KHEAP_MAGIC_FREE nx (kh_bytes m)).
  assert (same_out b (b + cbHdr) (kh_bytes m) u1) as Hs0.
  { apply same_out_put_hdr. intros a Ha. apply Hm. unfold cbHdr, GJ_PAGE_SIZE in *. lia. }
  assert (same_out b (b + cbHdr + GJ_KHEAP_PAGE_PAYLOAD) (kh_bytes m) u1) as Hs.
  { eapply same_out_mono; [| |exact Hs0]; unfold GJ_KHEAP_PAGE_PAYLOAD, GJ_PAGE_SIZE, cbHdr; lia. }
  assert (hdr u1 b GJ_KHEAP_PAGE_PAYLOAD GJ_KHEAP_MAGIC_FREE 0 0 nx) as Hh by (apply hdr_put_hdr; done).
  destruct (free_apart (kh_hhdm m) [] b GJ_KHEAP_PAGE_PAYLOAD Fl L F') as [H1 H2]; [|by constructor|done|].
  { cbn [app]. pose proof (space_free (kh_hhdm m) [] b GJ_KHEAP_PAGE_PAYLOAD Fl L F') as E. cbn [app] in E.
    by rewrite E, <-Hsp. }
  split_and!; [| | |done].
  2:{ eapply same_out_mono; [| |exact Hs0]; unfold GJ_PAGE_SIZE, cbHdr; lia. }
  - split; try done; cbn [kh_hhdm kh_bytes set_bytes set_src g_pFree].
    + by eauto.
    + eapply flist_same; [exact Hs| |done]. intros b' s1 Hin. specialize (H1 b' s1 Hin). rewrite Forall_forall in hr_fwf.
      destruct (hr_fwf _ Hin) as (_ & ? & _). simpl in *. lia.
    + by eapply live_hdrs_same.
    + by rewrite <-Hsp.
    + intros a Ha. apply Hs, hr_map. by rewrite Hsp.
  - split; [by apply (live_outside b (b + cbHdr + GJ_KHEAP_PAGE_PAYLOAD))|apply Hs|done].
Qed.
Definition grow_post (m : kheap S) (Fl : list (Z * Z)) (L : list lblk) (F : list Z) (st : gj_status) (m' : kheap S) : Prop :=
  heap_frame L m m' /\
  ((st = GJ_ERR_NOMEM /\ F = [] /\ heap_rep m' Fl L F) \/
   (st = GJ_OK /\ exists x F', F ≡ₚ x :: F' /\
      heap_rep m' ((hhdm_to_virt (kh_hhdm m) x, GJ_KHEAP_PAGE_PAYLOAD) :: Fl) L F')).

Lemma wp_grow m Fl L F : heap_rep m Fl L F -> wp grow (grow_post m Fl L F) m.
Proof.
  intros Hr. unfold grow. apply wp_bind, wp_on_src. eapply wp_mono; [apply (psrc_take (kh_src m) F), Hr|].
  cbn beta. intros pa s' [(-> & HF & Hav)|(F' & HF & Hav)].
  { cbn. wsteps. split; [by split|]. left. subst F. destruct Hr. by split_and!. }
  destruct (psrc_page (kh_src m) F pa (hr_src _ _ _ _ Hr)) as (_ & Hx & _); [rewrite HF; set_solver|].
  rewrite (proj2 (Z.eqb_neq _ _)) by lia. apply wp_bind, wp_get. cbn [kh_hhdm set_src].
  pose proof (head_range _ _ _ (hr_free _ _ _ _ Hr) (hr_fwf _ _ _ _ Hr)) as Hnx.
  destruct (page_det m Fl L F F' pa s' (g_pFree m) Hr HF Hav Hnx) as (Hd & Hs & Hf & Hm).
  set (b := hhdm_to_virt (kh_hhdm m) pa) in *. unfold GJ_PAGE_SIZE in Hm.
  set (u1 := put_hdr b GJ_KHEAP_PAGE_PAYLOAD GJ_KHEAP_MAGIC_FREE (g_pFree m) (kh_bytes m)) in *.
  assert (hdr u1 b GJ_KHEAP_PAGE_PAYLOAD GJ_KHEAP_MAGIC_FREE 0 0 (g_pFree m)) as Hh by (apply hdr_put_hdr; done).
  assert (forall a, b <= a < b + cbHdr -> is_Some (kh_bytes m !! a)) as Hm' by (unfold cbHdr; intros a Ha; apply Hm; lia).
  apply wp_new_hdr; [done|]. kh_norm. apply wp_bind, wp_get, wp_bind, wp_stn.
  { apply mapped_bytes. intros a Ha. cbn [kh_bytes].
    apply (same_out_put_fields b GJ_KHEAP_PAGE_PAYLOAD GJ_KHEAP_MAGIC_FREE (kh_bytes m) Hm'), Hm'. unfold cbHdr. lia. }
  kh_norm. fold (put_hdr b GJ_KHEAP_PAGE_PAYLOAD GJ_KHEAP_MAGIC_FREE (g_pFree m) (kh_bytes m)). fold u1.
  apply wp_bind, wp_pmod. kh_norm. apply wp_bind. eapply wp_ldn; [apply Hh|].
  apply wp_bind, wp_pmod. kh_norm. apply wp_bind, wp_tick64, wp_bind, wp_note_peaks. wsteps.
  destruct (det_push _ b GJ_KHEAP_PAGE_PAYLOAD Fl L F' u1 Hd) as [Hr' Hf']; [apply same_out_refl|exact Hh|].
  destruct (det_bounds _ b GJ_KHEAP_PAGE_PAYLOAD Fl L F' 0 0 Hd ltac:(lia)) as (_ & _ & _ & E1 & E2);
    [unfold GJ_KHEAP_PAGE_PAYLOAD, GJ_PAGE_SIZE, cbHdr; lia|].
  cbn [g_cbFree g_cFreeBlocks set_bytes set_src] in E1, E2. rewrite E1, E2.
  split; [by eapply heap_frame_trans|]. right. split; [done|]. exists pa, F'. by split.
Qed.
End Alloc.
