(* ===== verification/KheapMain.v ===== *)
(** [kheap_alloc], [kheap_free] and the integrity report against the heap's
    representation. *)
From stdpp Require Import base gmap list strings.
From Stdlib Require Import ZArith Lia.
From S2P Require Import Prelude CapTypes KString KStringProofs Pmm PmmInv Kheap KheapInv KheapTake KheapAlloc.

Section Main.
Context {S : Type} `{PageSource S}.
Implicit Types (m : kheap S).

(** ** The walk of the list ends *)
Lemma heads_sub (Fl : list (Z * Z)) : Forall free_wf Fl -> (fst <$> Fl) ⊆+ (Fl ≫= fext).
Proof.
  induction 1 as [|[b s] l (Hb & Hs & _) _ IH]; [done|]. rewrite bind_cons. cbn [fmap list_fmap fst snd] in *.
  unfold fext at 1, ext. cbn [fst snd]. rewrite seqZ_cons by (unfold cbHdr; simpl in *; lia). cbn [app].
  apply submseteq_skip. etrans; [exact IH|]. apply submseteq_inserts_l. done.
Qed.

Lemma walk_enough m Fl L F : heap_rep m Fl L F -> (length Fl <= size (kh_bytes m))%nat.
Proof.
  intros []. pose proof (heads_sub Fl hr_fwf) as Hs.
  assert (NoDup (fst <$> Fl)) as Hn.
  { destruct (submseteq_Permutation _ _ Hs) as [k Hk]. unfold space in hr_nodup.
    apply NoDup_app in hr_nodup as (Hd & _). rewrite Hk in Hd. by apply NoDup_app in Hd as (? & _). }
  rewrite <-(length_fmap fst Fl), <-(size_list_to_set (C := gset Z)) by done. rewrite <-(size_dom (D := gset Z)).
  apply subseteq_size. intros a Ha. apply elem_of_list_to_set in Ha. apply elem_of_dom, hr_map.
  unfold space. apply elem_of_app. left. by eapply elem_of_submseteq.
Qed.

(** ** Allocation *)
Lemma align_up_spec cb : 0 < cb < 2 ^ 64 ->
  let need := align_up cb in let al := u64_wrap (need - cb) in
  0 <= need < 2 ^ 64 /\ need mod 16 = 0 /\ 0 <= al < 16 /\ (cb <= 2 ^ 64 - 16 -> need = cb + al) /\
  (2 ^ 64 - 16 < cb -> need = 0).
Proof.
  intros Hcb. cbv zeta. unfold align_up, u64_add.
  change (u64_wrap (Z.lnot 15)) with (Z.shiftl (Z.ones 60) 4).
  set (w := u64_wrap (cb + 15)).
  assert (0 <= w < 2 ^ 64) as Hw by (apply Z.mod_pos_bound; lia).
  assert (Z.land w (Z.shiftl (Z.ones 60) 4) = 16 * (w / 16)) as ->.
  { apply Z.bits_inj'. intros i Hi. change 16 with (2 ^ 4) at 2. rewrite <-Z.shiftr_div_pow2, Z.mul_comm by lia.
    change 16 with (2 ^ 4). rewrite <-Z.shiftl_mul_pow2 by lia. rewrite Z.land_spec, !Z.shiftl_spec by lia.
    destruct (Z_lt_le_dec i 4) as [Hlt|Hge].
    { rewrite !(Z.testbit_neg_r _ (i - 4)) by lia. by rewrite andb_false_r. }
    rewrite Z.shiftr_spec by lia. replace (i - 4 + 4) with i by lia. destruct (Z_lt_le_dec i 64) as [H64|H64].
    - rewrite Z.ones_spec_low by lia. by rewrite andb_true_r.
    - rewrite <-(Z.mod_small w (2 ^ 64)) by done. by rewrite Z.mod_pow2_bits_high by lia. }
  assert (w = cb + 15 /\ cb <= 2 ^ 64 - 16 \/ w = cb + 15 - 2 ^ 64 /\ 2 ^ 64 - 16 < cb) as Hc.
  { unfold w, u64_wrap. destruct (Z_le_gt_dec cb (2 ^ 64 - 16)); [left|right]; (split; [|lia]).
    - apply Z.mod_small. lia.
    - rewrite <-(Z_mod_plus _ (-1)) by lia. rewrite Z.mod_small; lia. }
  pose proof (Z.div_mod w 16 ltac:(lia)) as Hdm. pose proof (Z.mod_pos_bound w 16 ltac:(lia)) as Hmb.
  rewrite (Z.mul_comm 16 (w / 16)), Z.mod_mul by lia.
  unfold u64_wrap. destruct Hc as [[Hw1 Hc]|[Hw1 Hc]].
  - rewrite (Z.mod_small (w / 16 * 16 - cb)) by lia. lia.
  - assert (w / 16 = 0) as -> by (apply Z.div_small; lia). 
    replace (0 * 16 - cb) with (2 ^ 64 - cb + (-1) * 2 ^ 64) by lia. rewrite Z_mod_plus by lia. rewrite Z.mod_small; lia.
Qed.
(** The request is served from the block [(b, s)]. *)
Definition served (need al : Z) (l1 : list (Z * Z)) (b s : Z) (l2 : list (Z * Z)) (L : list lblk) (F : list Z)
    (p : Z) (m' : kheap S) : Prop :=
  let '(Fl', sz, un) := carve need l1 b s l2 in
  p = b + cbHdr /\ heap_rep m' Fl' (MkLive b sz al un :: L) F /\ zeroed (kh_bytes m') b sz.

(** The outcome of a request that passes the checks. *)
Definition alloc_out (need al : Z) (m : kheap S) (Fl : list (Z * Z)) (L : list lblk) (F : list Z) (p : Z) (m' : kheap S) : Prop :=
  heap_frame L m m' /\
  ((exists l1 b s l2, Fl = l1 ++ (b, s) :: l2 /\ best_block need l1 s l2 /\ served need al l1 b s l2 L F p m') \/
   (Forall (fun f => snd f < need) Fl /\
    ((F = [] /\ p = 0 /\ heap_rep m' Fl L F) \/
     exists x F', F ≡ₚ x :: F' /\
       served need al [] (hhdm_to_virt (kh_hhdm m) x) GJ_KHEAP_PAGE_PAYLOAD Fl L F' p m'))).

Lemma wp_search m Fl L F need k :
  heap_rep m Fl L F -> (size (kh_bytes m) < k)%nat ->
  wp (best_fit k need (g_pFree m) 0 0 0) (fun r m' => m' = m /\ best_of need Fl (fst r) (snd r)) m.
Proof.
  intros Hr Hk. pose proof (walk_enough m Fl L F Hr) as Hw. destruct Hr.
  apply (wp_best_fit k need [] Fl 0 0 m (g_pFree m)); [done|done|done|lia|]. left. by constructor.
Qed.

Lemma wp_serve m Fl L F need al l1 b s l2 :
  heap_rep m Fl L F -> Fl = l1 ++ (b, s) :: l2 -> 0 <= need -> best_block need l1 s l2 -> 0 <= al < 16 ->
  wp (take_best need al b (last_addr l1)) (fun p m' => heap_frame L m m' /\ served need al l1 b s l2 L F p m') m.
Proof.
  intros Hr -> Hn (Hs & _) Hal. unfold served. destruct (carve need l1 b s l2) as [[Fl' sz] un] eqn:Ec.
  eapply wp_mono; [by apply (wp_take_best m l1 b s l2 L F need al Fl' sz un)|]. cbn beta. intros p m' (? & ? & ? & ?). done.
Qed.

Lemma alloc_turn fuel need al m Fl L F (Q : Z -> kheap S -> Prop) :
  heap_rep m Fl L F -> 0 <= need -> 0 <= al < 16 ->
  (forall l1 b s l2 p m', Fl = l1 ++ (b, s) :: l2 -> best_block need l1 s l2 -> heap_frame L m m' ->
     served need al l1 b s l2 L F p m' -> Q p m') ->
  (Forall (fun f => snd f < need) Fl -> forall st m1, grow_post m Fl L F st m1 ->
     wp (if bool_decide (st = GJ_OK) then alloc_loop fuel need al
         else tick64 "kh.g_cFail" ;;; tick64 "kh.g_cSoftFailOom" ;;; pret 0) Q m1) ->
  wp (alloc_loop (Datatypes.S fuel) need al) Q m.
Proof.
  intros Hr Hn Hal Hserve Hgrow. cbn [alloc_loop]. unfold walk_fuel. apply wp_bind. apply wp_bind, wp_get, wp_ret.
  apply wp_bind, wp_get, wp_bind. eapply wp_mono; [apply (wp_search m Fl L F need); [done|lia]|].
  cbn beta. intros [pb pp] m' [-> Hb]. cbn [fst snd] in Hb.
  destruct Hb as [(-> & -> & Hno)|(l1 & s & l2 & E & -> & Hbb)].
  - cbn [negb Z.eqb]. apply wp_bind. eapply wp_mono; [by apply wp_grow|]. intros st m1 Hg. by apply Hgrow.
  - assert (free_wf (pb, s)) as (Hp & _).
    { pose proof (hr_fwf _ _ _ _ Hr) as Hw. subst Fl. apply Forall_app in Hw as [_ Hw]. by inversion Hw. }
    simpl in Hp. rewrite (proj2 (Z.eqb_neq _ _)) by lia. cbn [negb].
    eapply wp_mono; [by eapply wp_serve|]. cbn beta. intros p m' [? ?]. by eapply Hserve.
Qed.

Lemma best_first need (x : Z * Z) Fl l1 b s l2 :
  Forall (fun f => snd f < need) Fl -> x :: Fl = l1 ++ (b, s) :: l2 -> need <= s -> l1 = [] /\ x = (b, s) /\ Fl = l2.
Proof.
  intros Hno E Hs. destruct l1 as [|y l1]; injection E as -> E; [done|]. subst Fl.
  apply Forall_app in Hno as [_ Hno]. inversion Hno. simpl in *. lia.
Qed.

Lemma wp_alloc_loop need al m Fl L F :
  heap_rep m Fl L F -> 0 <= need <= GJ_KHEAP_PAGE_PAYLOAD -> 0 <= al < 16 ->
  wp (alloc_loop 2 need al) (alloc_out need al m Fl L F) m.
Proof.
  intros Hr Hn Hal. eapply alloc_turn; [done|lia|done|..].
  { intros l1 b s l2 p m' E Hb Hf Hs. split; [done|]. left. eauto 10. }
  intros Hno st m1 [Hf1 [(-> & HF & Hr1)|(-> & x & F' & HF & Hr1)]].
  { rewrite bool_decide_eq_false_2 by done. apply wp_bind, wp_tick64, wp_bind, wp_tick64, wp_ret.
    split; [done|]. right. auto. }
  rewrite bool_decide_eq_true_2 by done. set (b := hhdm_to_virt (kh_hhdm m) x) in *.
  eapply alloc_turn; [exact Hr1|lia|done|..].
  - intros l1 c s l2 p m' E Hb Hf Hs. destruct (best_first need _ _ _ _ _ _ Hno E (proj1 Hb)) as (-> & [= <- <-] & <-).
    split; [by eapply heap_frame_trans|]. right. eauto 10.
  - intros Hno' st m2 _. inversion Hno' as [|? ? Hbad]. simpl in Hbad. lia.
Qed.

Definition alloc_spec (cb : Z) (m : kheap S) (Fl : list (Z * Z)) (L : list lblk) (F : list Z) (p : Z) (m' : kheap S) : Prop :=
  if (cb =? 0) || (GJ_KHEAP_PAGE_PAYLOAD <? align_up cb) then p = 0 /\ m' = m
  else alloc_out (align_up cb) (u64_wrap (align_up cb - cb)) m Fl L F p m'.

Lemma wp_kheap_alloc cb m Fl L F :
  heap_rep m Fl L F -> 0 <= cb < 2 ^ 64 -> wp (kheap_alloc cb) (alloc_spec cb m Fl L F) m.
Proof.
  intros Hr Hcb. unfold kheap_alloc, alloc_spec. apply wp_bind, wp_get. rewrite (hr_init _ _ _ _ Hr). cbn [negb].
  destruct (Z.eqb_spec cb 0) as [->|Hne]; cbn [orb]; [by wsteps|].
  destruct (align_up_spec cb ltac:(lia)) as (Hn & _ & Hal & _).
  destruct (Z.ltb_spec GJ_KHEAP_PAGE_PAYLOAD (align_up cb)); [by wsteps|]. by apply wp_alloc_loop; [|lia|].
Qed.
(** ** Release *)
Lemma heap_rep_perm m Fl L L' F : L ≡ₚ L' -> heap_rep m Fl L F -> heap_rep m Fl L' F.
Proof.
  intros HL []. pose proof (space_perm (kh_hhdm m) Fl Fl L L' F F ltac:(done) HL ltac:(done)) as Hsp.
  split; try done; try by rewrite <-HL.
  - by rewrite <-Hsp.
  - intros a Ha. apply hr_map. by rewrite Hsp.
  - by rewrite <-(zsum_perm lb_size L L').
  - by rewrite <-(zsum_perm lb_al L L').
  - by rewrite <-(zsum_perm lb_un L L').
Qed.

Lemma live_det m Fl x L F :
  heap_rep m Fl (x :: L) F ->
  heap_det (set_stats (g_cbUsed m - lb_size x) (g_cbFree m) (g_cFreeBlocks m) (g_cbSoftAlign m - lb_al x)
              (g_cbSoftUnsplit m - lb_un x) m) (lb_addr x) (lb_size x) Fl L F /\
  sub_floor (g_cbUsed m) (lb_size x) = g_cbUsed m - lb_size x /\
  sub_floor (g_cbSoftAlign m) (lb_al x) = g_cbSoftAlign m - lb_al x /\
  sub_floor (g_cbSoftUnsplit m) (lb_un x) = g_cbSoftUnsplit m - lb_un x.
Proof.
  intros []. inversion hr_live as [|? ? Hx HL]; subst. inversion hr_lwf as [|? ? Hxw HLw]; subst.
  pose proof (space_live (kh_hhdm m) Fl x L F) as Hsp.
  cbn [zsum foldr] in hr_cused, hr_cal, hr_cun. fold (zsum lb_size L) (zsum lb_al L) (zsum lb_un L) in *.
  assert (0 <= zsum lb_size L) by (apply zsum_nonneg; eapply Forall_impl; [exact HLw|]; intros y (? & ? & ?); lia).
  assert (0 <= zsum lb_al L) by (apply zsum_nonneg; eapply Forall_impl; [exact HLw|]; intros y (? & ? & ? & ? & ?); lia).
  assert (0 <= zsum lb_un L) by (apply zsum_nonneg; eapply Forall_impl; [exact HLw|]; intros y (? & ? & ? & ? & ? & ?); lia).
  split; [|unfold sub_floor; rewrite !(proj2 (Z.leb_le _ _)) by lia; done].
  destruct Hxw as (Hw1 & Hw2 & Hw3 & _).
  split; try done; cbn [kh_hhdm kh_bytes set_stats g_cbUsed g_cbSoftAlign g_cbSoftUnsplit]; try lia.
  - unfold live_hdr in Hx. eauto.
  - change (NoDup (lext x ++ space (kh_hhdm m) Fl L F)). by rewrite <-Hsp.
  - intros a Ha. apply hr_map. by rewrite Hsp.
Qed.

(** The header of a block given back. *)
Definition mark_free (b nx : Z) (u : bmem) : bmem :=
  put_bytes 8 (b + 16) nx (put_bytes 2 (b + 14) 0 (put_bytes 2 (b + 12) 0 (put_bytes 4 (b + 8) GJ_KHEAP_MAGIC_FREE u))).

Lemma mark_free_facts b s mg al0 un0 nx0 nx u :
  hdr u b s mg al0 un0 nx0 -> 0 <= nx < 2 ^ 64 -> (forall a, b <= a < b + cbHdr -> is_Some (u !! a)) ->
  hdr (mark_free b nx u) b s GJ_KHEAP_MAGIC_FREE 0 0 nx /\ same_out b (b + cbHdr) u (mark_free b nx u).
Proof.
  intros Hh Hnx Hm. unfold mark_free, cbHdr in *. split.
  - eapply hdr_put_next, hdr_put_un, hdr_put_al, hdr_put_magic; try exact Hh; try done.
  - eapply same_out_trans; [apply (same_out_store b (b + 24) 4 (b + 8)); [lia|lia|]|].
    { intros a H1. apply Hm. lia. }
    eapply same_out_trans; [apply (same_out_store b (b + 24) 2 (b + 12)); [lia|lia|]|].
    { intros a H1. apply put_some, Hm. lia. }
    eapply same_out_trans; [apply (same_out_store b (b + 24) 2 (b + 14)); [lia|lia|]|].
    { intros a H1. apply put_some, put_some, Hm. lia. }
    apply (same_out_store b (b + 24) 8 (b + 16)); [lia|lia|]. intros a H1. apply put_some, put_some, put_some, Hm. lia.
Qed.

Lemma wp_kheap_free m Fl x L F :
  heap_rep m Fl (x :: L) F ->
  wp (kheap_free (lb_addr x + cbHdr)) (fun _ m' =>
    heap_rep m' ((lb_addr x, lb_size x) :: Fl) L F /\ heap_frame L m m' /\
    zeroed (kh_bytes m') (lb_addr x) (lb_size x)) m.
Proof.
  intros Hr. destruct (live_det m Fl x L F Hr) as (Hd & E1 & E2 & E3). unfold kheap_free, block_from_payload.
  replace (lb_addr x + cbHdr - cbHdr) with (lb_addr x) by lia.
  assert (live_hdr (kh_bytes m) x) as Hh by (pose proof (hr_live _ _ _ _ Hr) as HL; by inversion HL). unfold live_hdr in Hh.
  destruct (hd_bwf _ _ _ _ _ _ Hd) as (Hb1 & Hb2 & Hb3). simpl in Hb1, Hb2, Hb3.
  assert (forall a, lb_addr x <= a < lb_addr x + cbHdr + lb_size x -> is_Some (kh_bytes m !! a)) as Hm.
  { intros a Ha. apply (hd_map _ _ _ _ _ _ Hd), elem_of_app. left. by apply elem_of_ext. }
  pose proof (head_range _ _ _ (hr_free _ _ _ _ Hr) (hr_fwf _ _ _ _ Hr)) as Hnx.
  set (b := lb_addr x) in *. set (sz := lb_size x) in *. unfold cbHdr in Hb3 at 1.
  rewrite (proj2 (Z.eqb_neq _ _)) by (unfold cbHdr; lia). apply wp_bind, wp_get. rewrite (hr_init _ _ _ _ Hr). cbn [negb].
  apply wp_bind. eapply wp_ldn; [apply Hh|]. rewrite Z.eqb_refl. cbn [negb].
  apply wp_bind. eapply wp_ldn; [apply Hh|]. apply wp_bind. eapply wp_ldn; [apply Hh|].
  apply wp_bind, wp_pmod. kh_norm. apply wp_bind, wp_note_free, wp_bind. eapply wp_ldn; [apply Hh|].
  apply wp_bind, wp_pmod. kh_norm. apply wp_bind, wp_zero_payload; [lia|done|]. cbn [kh_bytes]. intros _ u1 Hs1 Hz.
  kh_norm. rewrite E1, E2, E3.
  assert (hdr u1 b sz GJ_KHEAP_MAGIC_LIVE (lb_al x) (lb_un x) 0) as Hh1 by (eapply hdr_same; [exact Hs1|by left|done]).
  assert (forall a, b <= a < b + 24 -> is_Some (u1 !! a)) as Hm1 by (intros a Ha; apply Hs1, Hm; unfold cbHdr; lia).
  destruct (mark_free_facts b sz _ _ _ _ (g_pFree m) u1 Hh1 Hnx) as [Hh2 Hs2]; [done|].
  apply wp_bind, wp_stn; [apply mapped_bytes; intros a Ha; apply Hm1; lia|]. kh_norm.
  apply wp_bind, wp_stn; [apply mapped_bytes; intros a Ha; apply put_some, Hm1; lia|]. kh_norm.
  apply wp_bind, wp_stn; [apply mapped_bytes; intros a Ha; apply put_some, put_some, Hm1; lia|]. kh_norm.
  apply wp_bind, wp_get, wp_bind, wp_stn; [apply mapped_bytes; intros a Ha; apply put_some, put_some, put_some, Hm1; lia|].
  kh_norm. fold (mark_free b (g_pFree m) u1). set (u2 := mark_free b (g_pFree m) u1) in *.
  apply wp_bind, wp_pmod. kh_norm. apply wp_bind. eapply wp_ldn; [apply Hh2|]. apply wp_bind, wp_pmod. kh_norm.
  apply wp_bind, wp_tick64, wp_note_peaks.
  destruct (det_bounds _ b sz Fl L F 0 0 Hd ltac:(lia) ltac:(lia)) as (_ & _ & _ & E4 & E5).
  cbn [g_cbFree g_cFreeBlocks set_stats] in E4, E5. rewrite E4, E5.
  destruct (det_push _ b sz Fl L F u2 Hd) as [Hr' Hf']; [|exact Hh2|].
  { cbn [kh_bytes set_stats]. eapply same_out_trans; [eapply same_out_mono; [| |exact Hs1]|eapply same_out_mono; [| |exact Hs2]];
      unfold cbHdr; lia. }
  split; [exact Hr'|]. split; [destruct Hf'; by split|]. intros a Ha. cbn [kh_bytes]. rewrite (proj1 Hs2); [by apply Hz|lia].
Qed.

(** A block already on the list is left alone. *)
Lemma wp_double_free m Fl L F b s :
  heap_rep m Fl L F -> (b, s) ∈ Fl -> wp (kheap_free (b + cbHdr)) (fun _ m' => m' = m) m.
Proof.
  intros Hr Hin. apply list_elem_of_split in Hin as (l1 & l2 & ->).
  destruct (rep_block m l1 b s l2 L F Hr) as ((Hb & _) & _ & nx & _ & Hh & _). simpl in Hb.
  unfold kheap_free, block_from_payload. rewrite (proj2 (Z.eqb_neq _ _)) by (unfold cbHdr; lia).
  apply wp_bind, wp_get. rewrite (hr_init _ _ _ _ Hr). cbn [negb]. replace (b + cbHdr - cbHdr) with b by lia.
  apply wp_bind. eapply wp_ldn; [apply Hh|]. cbn. by wsteps.
Qed.
End Main.
