(* ===== verification/KheapSys.v ===== *)
(** The heap in use: initialisation, then any sequence of requests and releases
    by clients that write only inside the blocks they own. *)
From stdpp Require Import base gmap list strings.
From Stdlib Require Import ZArith Lia.
From S2P Require Import Prelude CapTypes KString KStringProofs Pmm PmmInv Kheap KheapInv KheapTake KheapAlloc KheapMain.

Section Sys.
Context {S : Type} `{PageSource S}.
Implicit Types (m : kheap S).

(** ** The integrity report *)
Lemma wp_scan_loop fuel l m h first r :
  flist (kh_bytes m) h l -> Forall free_wf l -> (length l < fuel)%nat ->
  0 <= sc_sum r -> sc_sum r + zsum snd l < 2 ^ 64 -> 0 <= sc_walk r -> sc_walk r + Z.of_nat (length l) < 2 ^ 32 ->
  wp (scan_loop fuel h first r) (fun r' m' => m' = m /\ sc_sum r' = sc_sum r + zsum snd l /\
    sc_walk r' = sc_walk r + Z.of_nat (length l) /\ sc_bad r' = sc_bad r) m.
Proof.
  revert l h first r. induction fuel as [|fuel IH]; intros l h first r Hf Hw Hl Hs0 Hs Hk0 Hk; [lia|]. cbn [scan_loop].
  destruct l as [|[b s] l]; cbn [flist] in Hf.
  { subst h. cbn. wsteps. split_and!; [done|unfold zsum; simpl; lia|lia|done]. }
  destruct Hf as (-> & nx & _ & Hh & Hf). inversion Hw as [|? ? (Hb & Hb2 & _) Hw']; subst. simpl in Hb, Hb2.
  rewrite (proj2 (Z.eqb_neq _ _)) by lia. apply wp_bind. eapply wp_ldn; [apply Hh|]. rewrite Z.eqb_refl. cbn [negb].
  apply wp_bind. eapply wp_ldn; [apply Hh|]. apply wp_bind. eapply wp_ldn; [apply Hh|].
  cbn [zsum foldr snd length] in *. fold (zsum (@snd Z Z) l) in *.
  assert (0 <= zsum snd l) by (apply zsum_nonneg; eapply Forall_impl; [exact Hw'|]; intros x (? & ? & ?); lia).
  assert (u64_add (sc_sum r) s = sc_sum r + s) as E1 by (apply u64_add_small; lia).
  assert (u32_wrap (sc_walk r + 1) = sc_walk r + 1) as E2 by (unfold u32_wrap; apply Z.mod_small; lia).
  eapply wp_mono; [apply (IH l); [done|done|lia|..]; cbn [sc_sum sc_walk]; rewrite ?E1, ?E2; lia|].
  cbn beta. cbn [sc_sum sc_walk sc_bad]. rewrite E1, E2. intros r' m' (-> & -> & -> & ->). split_and!; [done|lia|lia|done].
Qed.

Lemma wp_dump m Fl L F :
  heap_rep m Fl L F -> Z.of_nat (length Fl) < 2 ^ 32 -> wp kheap_dump_stats (fun ok m' => m' = m /\ ok = true) m.
Proof.
  intros Hr Hlen. pose proof (walk_enough m Fl L F Hr) as Hw. pose proof (total_bound _ _ _ _ (hr_fwf _ _ _ _ Hr)
    (hr_lwf _ _ _ _ Hr) (hr_nodup _ _ _ _ Hr)) as Ht. destruct (sums_bound _ _ _ _ (hr_fwf _ _ _ _ Hr)
    (hr_lwf _ _ _ _ Hr) (hr_nodup _ _ _ _ Hr)) as (Hb1 & Hb2 & _). unfold cbHdr in Ht.
  destruct Hr. unfold kheap_dump_stats, soft_freelist_scan, walk_fuel. apply wp_bind, wp_tick64, wp_bind, wp_bind.
  apply wp_bind, wp_get, wp_ret, wp_bind, wp_get.
  assert (zsum snd Fl < 2 ^ 64) as Hlt by (destruct Fl; [done|]; cbn [length] in Ht; lia).
  eapply wp_mono; [apply (wp_scan_loop _ Fl m (g_pFree m)); cbn [sc_sum sc_walk]; try done; lia|].
  cbn beta. intros r m' (-> & E1 & E2 & E3). apply wp_bind, wp_get, wp_ret. split; [done|].
  cbn [sc_sum sc_walk sc_bad] in *. rewrite E1, E2, E3, hr_cfree, hr_cblk, !Z.add_0_l, !Z.eqb_refl. done.
Qed.

(** ** Clients *)

(** The bytes a request moves from the free blocks to the live one. *)
Lemma carve_space hh need l1 b s l2 L F Fl' sz un al :
  carve need l1 b s l2 = (Fl', sz, un) -> 0 <= need <= s ->
  space hh Fl' (MkLive b sz al un :: L) F ≡ₚ space hh (l1 ++ (b, s) :: l2) L F.
Proof.
  unfold carve. intros Hc Hn. rewrite space_live. change (lext (MkLive b sz al un)) with (ext b sz).
  destruct (Z.leb_spec (need + GJ_KHEAP_SPLIT_MIN) s) as [Hs|Hs]; injection Hc as <- <- <-; rewrite !space_free; [|done].
  rewrite app_assoc. unfold GJ_KHEAP_SPLIT_MIN, cbHdr in Hs. rewrite (ext_split b s need) by (unfold cbHdr; lia). done.
Qed.

Lemma flist_det u h l l' : flist u h l -> flist u h l' -> Forall free_wf l -> Forall free_wf l' -> l = l'.
Proof.
  revert h l'. induction l as [|[b s] l IH]; intros h l'; destruct l' as [|[b' s'] l']; cbn [flist].
  - done.
  - intros -> (<- & _) _ Hw. inversion Hw as [|? ? (? & _)]. simpl in *. lia.
  - intros (-> & _) -> Hw _. inversion Hw as [|? ? (? & _)]. simpl in *. lia.
  - intros (-> & nx & _ & Hh & Hf) (<- & nx' & _ & Hh' & Hf') Hw Hw'.
    inversion Hw. inversion Hw'. subst. pose proof (h_size _ _ _ _ _ _ _ Hh). pose proof (h_size _ _ _ _ _ _ _ Hh').
    pose proof (h_next _ _ _ _ _ _ _ Hh). pose proof (h_next _ _ _ _ _ _ _ Hh'). simplify_eq. f_equal. by eapply IH.
Qed.

Definition payload (x : lblk) : Z := lb_addr x + cbHdr.

(** The heap owns the bytes [sp] and has handed out the pointers [P]. *)
Definition heap_inv (sp : list Z) (P : list Z) (m : kheap S) : Prop :=
  exists Fl L F, heap_rep m Fl L F /\ space (kh_hhdm m) Fl L F ≡ₚ sp /\ P ≡ₚ payload <$> L.

(** The byte [a] is in the block that [p] points to. *)
Definition in_block (m : kheap S) (p a : Z) : Prop :=
  exists s, user_bytes 8 (kh_bytes m) (p - cbHdr) = Some s /\ p <= a < p + s.

(** [p] is a block on the free list. *)
Definition listed (m : kheap S) (p : Z) : Prop :=
  exists Fl s, flist (kh_bytes m) (g_pFree m) Fl /\ Forall free_wf Fl /\ (p - cbHdr, s) ∈ Fl.

Inductive heap_ev : Type :=
| HvAlloc (cb : Z)
| HvFree (p : Z)
| HvAgain (p : Z)
| HvStore (a v : Z)
| HvDump.

Definition hexec (ev : heap_ev) : prog (kheap S) Z :=
  match ev with
  | HvAlloc cb => kheap_alloc cb
  | HvFree p | HvAgain p => kheap_free p ;;; pret 0
  | HvStore a v => stn 1 a v ;;; pret 0
  | HvDump => kheap_dump_stats ;;; pret 0
  end.

Definition h_taken (ev : heap_ev) (r : Z) : list Z := match ev with HvAlloc _ => if r =? 0 then [] else [r] | _ => [] end.
Definition h_given (ev : heap_ev) : list Z := match ev with HvFree p => if p =? 0 then [] else [p] | _ => [] end.
Definition h_written (ev : heap_ev) : list Z := match ev with HvStore a _ => [a] | _ => [] end.

(** What clients that hold the pointers [P] may do: ask for any size, release a
    block they hold or NULL, release again a block still on the list, store
    inside a block they hold. *)
Definition h_allowed (ev : heap_ev) (P : list Z) (m : kheap S) : Prop :=
  h_given ev ⊆ P /\
  match ev with
  | HvAlloc cb => 0 <= cb < 2 ^ 64
  | HvAgain p => listed m p
  | HvStore a v => exists p, p ∈ P /\ in_block m p a
  | HvDump => g_cFreeBlocks m < 2 ^ 32
  | _ => True
  end.

(** Blocks that stay with their owner keep their size and their bytes. *)
Definition h_post (sp : list Z) (ev : heap_ev) (P0 : list Z) (m : kheap S) (r : Z) (m' : kheap S) : Prop :=
  heap_inv sp (h_taken ev r ++ P0) m' /\
  forall p a, p ∈ P0 -> in_block m p a -> in_block m' p a /\ (a ∉ h_written ev -> kh_bytes m' !! a = kh_bytes m !! a).
Lemma live_size m Fl L F x : heap_rep m Fl L F -> x ∈ L -> user_bytes 8 (kh_bytes m) (payload x - cbHdr) = Some (lb_size x).
Proof.
  intros Hr Hx. pose proof (hr_live _ _ _ _ Hr) as HL. rewrite Forall_forall in HL. unfold payload.
  replace (lb_addr x + cbHdr - cbHdr) with (lb_addr x) by lia. apply (HL x Hx).
Qed.

Lemma in_block_live m Fl L F p a :
  heap_rep m Fl L F -> p ∈ payload <$> L -> in_block m p a ->
  exists x, x ∈ L /\ p = payload x /\ payload x <= a < payload x + lb_size x.
Proof.
  intros Hr Hp (s & Es & Ha). apply list_elem_of_fmap in Hp as (x & -> & Hx). exists x. split; [done|]. split; [done|].
  rewrite (live_size m Fl L F x Hr Hx) in Es. by injection Es as <-.
Qed.

(** A block outside the footprint keeps its size and its bytes. *)
Lemma frame_blocks m m' Fl L F L0 P0 :
  heap_rep m Fl L F -> L0 ⊆ L -> P0 ≡ₚ payload <$> L0 -> heap_frame L0 m m' ->
  forall p a, p ∈ P0 -> in_block m p a -> in_block m' p a /\ kh_bytes m' !! a = kh_bytes m !! a.
Proof.
  intros Hr HL HP Hf p a Hp Hin. rewrite HP in Hp. apply list_elem_of_fmap in Hp as (x & -> & Hx).
  destruct Hin as (s & Es & Ha). pose proof (live_size m Fl L F x Hr (HL _ Hx)) as E. rewrite E in Es. injection Es as <-.
  assert (forall c, lb_addr x <= c < lb_addr x + cbHdr + lb_size x -> kh_bytes m' !! c = kh_bytes m !! c) as Hb.
  { intros c Hc. apply Hf, list_elem_of_bind. exists x. split; [by apply elem_of_ext|done]. }
  assert (live_wf x) as (_ & Hw & _).
  { pose proof (hr_lwf _ _ _ _ Hr) as Hw. rewrite Forall_forall in Hw. by apply Hw, HL. }
  unfold payload, cbHdr in *. split; [|apply Hb; lia]. exists (lb_size x). split; [|done].
  erewrite user_bytes_ext; [exact E|]. intros c Hc. apply Hb. unfold cbHdr in Hc. lia.
Qed.

(** A client's store. *)
Lemma rep_store m Fl x L F a v :
  heap_rep m Fl (x :: L) F -> payload x <= a < payload x + lb_size x ->
  heap_rep (set_bytes (put_bytes 1 a v (kh_bytes m)) m) Fl (x :: L) F /\
  is_Some (user_bytes 1 (kh_bytes m) a) /\ same_out a (a + 1) (kh_bytes m) (put_bytes 1 a v (kh_bytes m)).
Proof.
  intros Hr Ha. destruct (live_det m Fl x L F Hr) as (Hd & _). destruct (det_apart _ _ _ _ _ _ Hd) as [H1 H2].
  unfold payload in Ha. assert (is_Some (kh_bytes m !! a)) as Hm.
  { apply (hd_map _ _ _ _ _ _ Hd), elem_of_app. left. apply elem_of_ext. unfold cbHdr in *. lia. }
  assert (is_Some (user_bytes 1 (kh_bytes m) a)) as Hu.
  { apply mapped_bytes. intros c Hc. by replace c with a by lia. }
  pose proof (same_out_put 1 a v (kh_bytes m) Hu) as Hs. change (Z.of_nat 1) with 1 in Hs. split; [|done].
  destruct Hr. inversion hr_live as [|? ? Hx HL]; subst. inversion hr_lwf as [|? ? Hxw HLw]; subst.
  unfold cbHdr in *.
  split; try done; cbn [kh_bytes set_bytes g_pFree kh_hhdm].
  - eapply flist_same; [exact Hs| |done]. intros b s Hin. specialize (H1 b s Hin). unfold cbHdr. lia.
  - constructor; [eapply hdr_same; [exact Hs|unfold cbHdr; lia|exact Hx]|].
    eapply live_hdrs_same; [exact Hs|done| |done]. intros y Hy. specialize (H2 y Hy). unfold cbHdr. lia.
  - intros c Hc. apply Hs. by apply hr_map.
Qed.

Lemma hev_store sp P P0 a v m :
  heap_inv sp P m -> (exists p, p ∈ P /\ in_block m p a) -> P ≡ₚ P0 ->
  wp (stn 1 a v ;;; pret 0) (h_post sp (HvStore a v) P0 m) m.
Proof.
  intros (Fl & L & F & Hr & Hsp & HP) (p & Hp & Hin) HP0. rewrite HP in Hp.
  destruct (in_block_live m Fl L F p a Hr Hp Hin) as (x & Hx & _ & Ha).
  apply list_elem_of_split in Hx as (L1 & L2 & ->). pose proof (Permutation_middle L1 L2 x) as HLp.
  destruct (rep_store m Fl x (L1 ++ L2) F a v) as (Hr' & Hu & Hs); [by eapply heap_rep_perm|done|].
  apply wp_bind, wp_stn; [done|]. apply wp_ret. split.
  - exists Fl, (L1 ++ x :: L2), F. split; [by eapply heap_rep_perm|]. split; [done|]. cbn [h_taken app]. by rewrite <-HP0.
  - intros q c Hq Hc. rewrite <-HP0, HP in Hq. destruct (in_block_live m Fl _ F q c Hr Hq Hc) as (y & Hy & -> & Hyc). split.
    + exists (lb_size y). split; [|done]. eapply live_size; [|exact Hy]. by eapply heap_rep_perm.
    + intros Hn. cbn [h_written] in Hn. apply (proj1 Hs). intros Hca. apply Hn. assert (c = a) as -> by lia. set_solver.
Qed.
Lemma inv_perm sp P P' m : heap_inv sp P m -> P ≡ₚ P' -> heap_inv sp P' m.
Proof. intros (Fl & L & F & ? & ? & HP) E. exists Fl, L, F. by rewrite <-E. Qed.

(** Nothing changed. *)
Lemma hev_same sp ev P P0 m r :
  heap_inv sp P m -> P ≡ₚ P0 -> h_taken ev r = [] -> h_post sp ev P0 m r m.
Proof. intros Hi HP E. split; [rewrite E; by eapply inv_perm|]. by intros p a _ Hin. Qed.

Lemma hev_served sp P P0 m Fl L F need al l1 b s l2 F' cb p m' :
  heap_rep m Fl L F -> space (kh_hhdm m) Fl L F ≡ₚ sp -> P ≡ₚ payload <$> L -> P ≡ₚ P0 -> heap_frame L m m' ->
  space (kh_hhdm m) (l1 ++ (b, s) :: l2) L F' ≡ₚ space (kh_hhdm m) Fl L F -> 0 <= need <= s ->
  served need al l1 b s l2 L F' p m' -> h_post sp (HvAlloc cb) P0 m p m'.
Proof.
  intros Hr Hsp HP HP0 Hf Hs' Hn. unfold served. destruct (carve need l1 b s l2) as [[Fl' sz] un] eqn:Ec.
  intros (-> & Hr' & _). assert (b + cbHdr <> 0) as Hnz.
  { pose proof (hr_lwf _ _ _ _ Hr') as Hw. inversion Hw as [|? ? (Hb & _)]. simpl in Hb. unfold cbHdr. lia. }
  split.
  - exists Fl', (MkLive b sz al un :: L), F'. split; [done|]. split.
    + rewrite (hf_hhdm _ _ _ Hf), (carve_space _ _ _ _ _ _ _ _ _ _ _ _ Ec Hn). by rewrite Hs'.
    + cbn [h_taken]. rewrite (proj2 (Z.eqb_neq _ _) Hnz). cbn [app fmap list_fmap]. by rewrite <-HP0, HP.
  - intros q a Hq Hin. rewrite <-HP0 in Hq.
    destruct (frame_blocks m m' Fl L F L P Hr ltac:(done) HP Hf q a Hq Hin). done.
Qed.

Lemma hev_alloc sp P P0 m cb :
  heap_inv sp P m -> 0 <= cb < 2 ^ 64 -> P ≡ₚ P0 -> wp (kheap_alloc cb) (h_post sp (HvAlloc cb) P0 m) m.
Proof.
  intros Hi Hcb HP0. pose proof Hi as (Fl & L & F & Hr & Hsp & HP).
  eapply wp_mono; [by apply (wp_kheap_alloc cb m Fl L F)|]. intros p m' Ha. unfold alloc_spec in Ha.
  destruct ((cb =? 0) || (GJ_KHEAP_PAGE_PAYLOAD <? align_up cb)) eqn:Ec.
  { destruct Ha as [-> ->]. by eapply hev_same. }
  apply orb_false_iff in Ec as [Hc0 Hcp]. apply Z.eqb_neq in Hc0. apply Z.ltb_ge in Hcp.
  destruct (align_up_spec cb ltac:(lia)) as (Hn & _).
  destruct Ha as [Hf [(l1 & b & s & l2 & -> & (Hs & _) & Hv)|[_ [(-> & -> & Hr')|(x & F' & HF & Hv)]]]].
  - eapply hev_served; [exact Hr|done|done|done|done|done| |exact Hv]. lia.
  - split.
    + exists Fl, L, []. split; [done|]. rewrite (hf_hhdm _ _ _ Hf). split; [done|]. cbn. by rewrite <-HP0.
    + intros q a Hq Hin. rewrite <-HP0 in Hq. destruct (frame_blocks m m' Fl L [] L P Hr ltac:(done) HP Hf q a Hq Hin). done.
  - eapply (hev_served sp P P0 m Fl L F _ _ []); [exact Hr|done|done|done|done| | |exact Hv]; [|lia].
    cbn [app]. rewrite <-space_page. by apply space_perm.
Qed.

Lemma hev_free sp P P0 m p :
  heap_inv sp P m -> P ≡ₚ p :: P0 -> p <> 0 -> wp (kheap_free p ;;; pret 0) (h_post sp (HvFree p) P0 m) m.
Proof.
  intros (Fl & L & F & Hr & Hsp & HP) HP0 Hp.
  assert (p ∈ payload <$> L) as Hin by (rewrite <-HP, HP0; set_solver). apply list_elem_of_fmap in Hin as (x & -> & Hx).
  apply list_elem_of_split in Hx as (L1 & L2 & ->). pose proof (Permutation_middle L1 L2 x) as HLp.
  assert (heap_rep m Fl (x :: L1 ++ L2) F) as Hrx by by eapply heap_rep_perm.
  assert (P0 ≡ₚ payload <$> (L1 ++ L2)) as HP1.
  { rewrite HP, <-HLp in HP0. cbn [fmap list_fmap] in HP0. symmetry. by apply Permutation_cons_inv in HP0. }
  apply wp_bind. eapply wp_mono; [by apply (wp_kheap_free m Fl x (L1 ++ L2) F)|]. cbn beta.
  intros _ m' (Hr' & Hf & _). apply wp_ret. split.
  - exists ((lb_addr x, lb_size x) :: Fl), (L1 ++ L2), F. split; [done|]. split; [|done].
    rewrite (hf_hhdm _ _ _ Hf), <-Hsp. rewrite (space_perm _ Fl Fl (L1 ++ x :: L2) (x :: L1 ++ L2) F F) by done.
    rewrite space_live. apply (space_free (kh_hhdm m) [] (lb_addr x)).
  - intros q a Hq Hin. destruct (frame_blocks m m' Fl (x :: L1 ++ L2) F (L1 ++ L2) P0 Hrx ltac:(set_solver) HP1 Hf q a Hq Hin). done.
Qed.

Lemma wp_hexec sp P P0 m ev :
  heap_inv sp P m -> h_allowed ev P m -> P ≡ₚ h_given ev ++ P0 -> wp (hexec ev) (h_post sp ev P0 m) m.
Proof.
  intros Hi [Hg Hal] HP0. destruct ev as [cb|p|p|a v|]; cbn [hexec h_given app] in *.
  - by apply (hev_alloc sp P P0).
  - destruct (Z.eqb_spec p 0) as [->|Hp]; [|by apply (hev_free sp P P0)].
    unfold kheap_free. cbn. wsteps. by eapply hev_same.
  - pose proof Hi as (Fl & L & F & Hr & _). destruct Hal as (Fl' & s & Hf & Hw & Hin).
    rewrite (flist_det _ _ _ _ Hf (hr_free _ _ _ _ Hr) Hw (hr_fwf _ _ _ _ Hr)) in Hin.
    replace p with (p - cbHdr + cbHdr) by lia. apply wp_bind. eapply wp_mono; [by eapply wp_double_free|].
    cbn beta. intros _ m' ->. apply wp_ret. by eapply hev_same.
  - by apply (hev_store sp P P0).
  - pose proof Hi as (Fl & L & F & Hr & _). rewrite (hr_cblk _ _ _ _ Hr) in Hal.
    apply wp_bind. eapply wp_mono; [by eapply wp_dump|]. cbn beta. intros ok m' [-> _]. apply wp_ret. by eapply hev_same.
Qed.

Inductive hsteps : list heap_ev -> kheap S * list Z -> kheap S * list Z -> Prop :=
| hs_nil s : hsteps [] s s
| hs_cons ev evs m P P0 t r m1 t1 s :
    h_allowed ev P m -> P ≡ₚ h_given ev ++ P0 ->
    hexec ev (KSt m t) = Some (r, KSt m1 t1) ->
    hsteps evs (m1, h_taken ev r ++ P0) s ->
    hsteps (ev :: evs) (m, P) s.

Lemma hsteps_inv sp evs s s' : hsteps evs s s' -> heap_inv sp (snd s) (fst s) -> heap_inv sp (snd s') (fst s').
Proof.
  induction 1 as [|ev evs m P P0 t r m1 t1 s Hal HP E _ IH]; [done|]. intros Hi. apply IH. simpl in *.
  by destruct (wp_run _ _ _ _ _ _ _ (wp_hexec sp P P0 m ev Hi Hal HP) E).
Qed.

(** ** Initialisation *)
Lemma pages_nodup (s : S) hh F : psrc_avail s F -> NoDup (F ≫= page_bytes hh).
Proof.
  intros Hav. pose proof (psrc_nodup s F Hav) as Hd. pose proof (fun x => psrc_page s F x Hav) as Hp. clear Hav.
  assert (exists base, forall x, x ∈ F -> hhdm_to_virt hh x = base + x) as [base Hb].
  { unfold hhdm_to_virt. destruct hh; [|by exists 0]. exists GJ_HHDM_BASE. intros x Hx. destruct (Hp x Hx) as (_ & ? & ?).
    apply u64_add_small. unfold GJ_HHDM_BASE, GJ_PAGE_SIZE in *. lia. }
  induction F as [|x F IH]; [by constructor|]. rewrite bind_cons. apply NoDup_cons in Hd as [Hx Hd].
  apply NoDup_app. split_and!; [apply NoDup_seqZ| |apply IH; [done|intros; apply Hp; set_solver|intros; apply Hb; set_solver]].
  intros a Ha Hin. apply list_elem_of_bind in Hin as (y & Hay & Hy). unfold page_bytes in *.
  rewrite Hb in Ha by set_solver. rewrite Hb in Hay by set_solver. apply elem_of_seqZ in Ha, Hay.
  destruct (Hp x ltac:(set_solver)) as (Hx1 & _). destruct (Hp y ltac:(set_solver)) as (Hy1 & _).
  unfold GJ_PAGE_SIZE in *. apply Hx. replace x with y; [done|].
  apply Z.mod_divide in Hx1 as [i ->]; [|done]. apply Z.mod_divide in Hy1 as [j ->]; [|done]. lia.
Qed.

Lemma fresh_rep m F :
  psrc_avail (kh_src m) F -> (forall a, a ∈ F ≫= page_bytes (kh_hhdm m) -> is_Some (kh_bytes m !! a)) ->
  heap_rep (MkKheap 0 0 0 0 0 0 true (kh_hhdm m) (kh_bytes m) (kh_src m)) [] [] F.
Proof.
  intros Hav Hm. split; try done. cbn [kh_hhdm space mbind list_bind app]. by eapply pages_nodup.
Qed.

Lemma wp_kheap_init m F :
  psrc_avail (kh_src m) F -> (forall a, a ∈ F ≫= page_bytes (kh_hhdm m) -> is_Some (kh_bytes m !! a)) ->
  wp kheap_init (fun _ m' => heap_inv (F ≫= page_bytes (kh_hhdm m)) [] m') m.
Proof.
  intros Hav Hm. unfold kheap_init. apply wp_bind, wp_pmod, wp_bind, wp_tel. intros t. apply wp_tel_put.
  exists [], [], F. split; [by apply fresh_rep|done].
Qed.
End Sys.
