(* ===== verification/KheapClaims.v ===== *)
(** The properties of the kernel heap, over any page source and over the
    physical page allocator, with witnesses. *)
From stdpp Require Import base gmap list strings.
From Stdlib Require Import ZArith Lia.
From S2P Require Import Prelude CapTypes KString KStringProofs Pmm PmmInv PmmOps PmmSys PmmClaims Kheap KheapInv KheapTake KheapAlloc KheapMain KheapSys.

(** ** The page allocator is a page source *)
Lemma pmm_take m F : pmm_ok m F -> wp pmm_alloc (fun pa m' =>
  (pa = 0 /\ F = [] /\ pmm_ok m' F) \/ (exists F', F ≡ₚ pa :: F' /\ pmm_ok m' F')) m.
Proof.
  intros Hok. eapply wp_mono; [by apply wp_pmm_alloc|]. intros pa m' [(-> & -> & ->)|[Hg _]]; [left; done|right].
  apply got_1 in Hg as (F' & ? & ? & _). eauto.
Qed.

Lemma pmm_page m F x : pmm_ok m F -> x ∈ F -> x mod GJ_PAGE_SIZE = 0 /\ 0 < x /\ x + GJ_PAGE_SIZE <= 2 ^ 47.
Proof.
  intros Hok Hx. pose proof (pmm_ok_page m F x Hok Hx) as Hp. destruct (page_ok_bounds m x Hp). destruct Hp.
  unfold PA_MAX in *. split_and!; [done|lia|done].
Qed.

#[export] Instance pmm_source : PageSource pmm_mem :=
  {| psrc_alloc := pmm_alloc; psrc_avail := pmm_ok; psrc_take := pmm_take; psrc_page := pmm_page;
     psrc_nodup := pmm_ok_nodup |}.

Section Claims.
Context {S : Type} `{PageSource S}.

(** C39: the heap neither loses nor duplicates memory.  After [kheap_init], and
    after any sequence of requests, releases (of NULL and double ones too) and
    stores by clients that write only inside the blocks they hold, the free
    blocks, the live blocks and the pages not yet taken cover exactly the bytes
    of the pages that were available, each byte once; the pointers handed out
    are the live blocks and the counters are the exact sums.  Every further
    call completes, and a block that stays with its owner keeps its size and
    every byte the owner does not write. *)
Theorem heap_conserves_bytes (m : kheap S) (F : list Z) :
  psrc_avail (kh_src m) F -> (forall a, a ∈ F ≫= page_bytes (kh_hhdm m) -> is_Some (kh_bytes m !! a)) ->
  wp kheap_init (fun _ m1 => forall evs m2 P, hsteps evs (m1, []) (m2, P) ->
    (exists Fl L F', heap_rep m2 Fl L F' /\ P ≡ₚ payload <$> L /\ NoDup (space (kh_hhdm m2) Fl L F') /\
       space (kh_hhdm m2) Fl L F' ≡ₚ F ≫= page_bytes (kh_hhdm m) /\
       kheap_used_bytes m2 = zsum lb_size L /\ kheap_free_bytes m2 = zsum snd Fl /\
       kheap_free_blocks m2 = Z.of_nat (length Fl) /\
       kheap_soft_frag_bytes m2 = u64_add (zsum lb_al L) (zsum lb_un L)) /\
    (forall ev P0, h_allowed ev P m2 -> P ≡ₚ h_given ev ++ P0 ->
       wp (hexec ev) (fun r m3 => hsteps [ev] (m2, P) (m3, h_taken ev r ++ P0) /\
         forall p a, p ∈ P0 -> in_block m2 p a ->
           in_block m3 p a /\ (a ∉ h_written ev -> kh_bytes m3 !! a = kh_bytes m2 !! a)) m2)) m.
Proof.
  intros Hav Hm. eapply wp_mono; [by apply (wp_kheap_init m F)|]. cbn beta. intros _ m1 Hi evs m2 P Hs.
  pose proof (hsteps_inv _ _ _ _ Hs Hi) as Hi2. simpl in Hi2. split.
  - destruct Hi2 as (Fl & L & F' & Hr & Hsp & HP). exists Fl, L, F'. destruct (Hr). split_and!; try done.
    unfold kheap_soft_frag_bytes. by rewrite hr_cal, hr_cun.
  - intros ev P0 Hal HP t. destruct (wp_hexec _ P P0 m2 ev Hi2 Hal HP t) as (r & m3 & t3 & E & _ & Hfr).
    exists r, m3, t3. split; [done|]. split; [|done]. by eapply hs_cons; [..|apply hs_nil].
Qed.

End Claims.

(** ** Witnesses *)
Definition demo_heap (s : pmm_mem) (F : list Z) : kheap pmm_mem :=
  MkKheap 0 0 0 0 0 0 false true (list_to_map ((fun a => (a, 165)) <$> (F ≫= page_bytes true))) s.

Lemma demo_heap_mapped s F a : a ∈ F ≫= page_bytes true -> is_Some (kh_bytes (demo_heap s F) !! a).
Proof.
  intros Ha. cbn [kh_bytes demo_heap]. apply not_eq_None_Some. intros Hn. apply not_elem_of_list_to_map in Hn. apply Hn.
  rewrite <-list_fmap_compose. apply list_elem_of_fmap. by exists a.
Qed.

Lemma demo_source : exists s F, pmm_ok s F /\ F <> [].
Proof.
  destruct (wp_pmm_init demo_pmm demo_regions 1048576 1052672 true demo_boot_ok ∅) as (u & m1 & t1 & _ & Hi).
  destruct (iv_own _ _ _ _ Hi) as (F & Hok & HF). rewrite app_nil_r in HF. exists m1, F. split; [done|]. intros ->.
  apply Permutation_nil_l in HF. destruct (g_fHighReleased m1); vm_compute in HF; discriminate.
Qed.

(** Three requests from one page, the second released: the third reuses the
    second's block, the rest of the page stays free.  A request of [SIZE_MAX]
    bytes gets a block of no bytes. *)
Definition demo_run : prog pmm_mem Z * (forall s : pmm_mem, prog (kheap pmm_mem) (list Z)) :=
  (pmm_init true demo_regions 1048576 1052672 ;;; pret 0,
   fun _ => kheap_init ;;; a <- kheap_alloc 100 ;; b <- kheap_alloc 40 ;; c <- kheap_alloc 200 ;;
     kheap_free b ;;; d <- kheap_alloc 33 ;; kheap_free d ;;; kheap_free d ;;; e <- kheap_alloc (2 ^ 64 - 1) ;;
     f <- kheap_alloc 5000 ;; ok <- kheap_dump_stats ;; m <- pget ;;
     pret ([b - a; c - a; d - b; if e =? 0 then 0 else 1; f; g_cbUsed m; g_cFreeBlocks m; if (ok : bool) then 1 else 0])).

Example kheap_demo :
  (match fst demo_run (KSt demo_pmm ∅) with
   | Some (_, KSt s _) => fst <$> snd demo_run s (KSt (demo_heap s [2097152; 2101248; 2105344; 2109440]) ∅)
   | None => None
   end) = Some [136; 208; 0; 1; 0; 320; 2; 1].
Proof. vm_compute. reflexivity. Qed.

Lemma heap_conserves_bytes_witness :
  exists m F, F <> [] /\ wp kheap_init (fun _ m1 => forall evs m2 P, hsteps evs (m1, []) (m2, P) ->
    exists Fl L F', heap_rep m2 Fl L F' /\ P ≡ₚ payload <$> L /\ space (kh_hhdm m2) Fl L F' ≡ₚ F ≫= page_bytes true) m.
Proof.
  destruct demo_source as (s & F & Hok & HF). exists (demo_heap s F), F. split; [exact HF|].
  eapply wp_mono; [exact (heap_conserves_bytes (demo_heap s F) F Hok (demo_heap_mapped s F))|].
  cbn beta. intros _ m1 Hall evs m2 P Hs. destruct (Hall evs m2 P Hs) as [(Fl & L & F' & H1 & H2 & _ & H3 & _) _]. eauto 10.
Defined.

