(* ===== verification/KernObj.v ===== *)
(** Kernel objects shared by doors and notifications: the capability state and
    the thread table embedded in a larger state, sleeping and waking there, and
    a state with objects for the examples. *)
From stdpp Require Import base gmap list strings.
From Stdlib Require Import ZArith Lia.
From S2P Require Import Prelude CapTypes CapCnode CapInv CapDerive CapRevoke CapWalk CapDefer CapSystem CapLean CapLeanCnode CapLeanRevoke CapTrace Thread ThreadProofs.

(** * Memories that contain the capability system: the objects of other components
    (doors, notifications) have their headers in it. *)

Class HasCaps (M : Type) : Type := {
  cap_of : M -> cap_mem;
  cap_upd : cap_mem -> M -> M;
  cap_of_upd : forall c m, cap_of (cap_upd c m) = c;
  cap_upd_id : forall m, cap_upd (cap_of m) m = m }.

(** A capability operation inside the larger memory. *)
Definition on_cap {M A} `{HasCaps M} (c : capM A) : prog M A :=
  fun s => match c (KSt (cap_of (k_mem s)) (k_tel s)) with
           | Some (a, s') => Some (a, KSt (cap_upd (k_mem s') (k_mem s)) (k_tel s'))
           | None => None
           end.

Lemma wp_on_cap {M A} `{HasCaps M} (c : capM A) (P : A -> cap_mem -> Prop) m (Q : A -> M -> Prop) :
  wp c P (cap_of m) -> (forall a c', P a c' -> Q a (cap_upd c' m)) -> wp (on_cap c) Q m.
Proof.
  intros Hc HQ t. destruct (Hc t) as (a & c' & t' & E & HP). exists a, (cap_upd c' m), t'.
  split; [|by apply HQ]. unfold on_cap. simpl. by rewrite E.
Qed.

Lemma wp_cap_load {M} `{HasCaps M} o h m (Q : gj_obj_hdr -> M -> Prop) :
  m_objs (cap_of m) !! o = Some h -> Q h m -> wp (on_cap (obj_load o)) Q m.
Proof.
  intros E HQ. apply (wp_on_cap _ (fun a c => a = h /\ c = cap_of m)); [by eapply wp_obj_load|].
  intros a c [-> ->]. by rewrite cap_upd_id.
Qed.

(** ** The death of an object *)

(** The capability memory after the death of [d]: only its header state and the
    bookkeeping of revocation have changed. *)
Record buried (d : objp) (c c' : cap_mem) : Prop := {
  bu_wf : wf c';
  bu_dead : exists h, m_objs c' !! d = Some h /\ hdr_u32State h = GJ_OBJ_DEAD;
  bu_other : forall o, o <> d -> hdr_u32State <$> m_objs c' !! o = hdr_u32State <$> m_objs c !! o }.

Lemma core_state (a b : option gj_obj_hdr) : hdr_core <$> a = hdr_core <$> b -> hdr_u32State <$> a = hdr_u32State <$> b.
Proof. unfold hdr_core. destruct a, b; intros [=]; cbn; congruence. Qed.

Lemma wp_bury d h c : wf c -> m_objs c !! d = Some h -> hdr_u32State h = GJ_OBJ_LIVE ->
  wp (gj_obj_revoke_begin soft_revoke_inventory_maybe_once (Some d)) (fun _ c' => buried d c c') c.
Proof.
  intros Hw Eh Hl. eapply wp_mono; [by apply (wp_begin soft_revoke_inventory_maybe_once c d h)|].
  intros st c' [Hw' Hp]. rewrite Hl, Z.eqb_refl in Hp.
  destruct Hp as (c1 & Hk & Hd & _). destruct Hk as (h' & q & len & E' & _ & -> & _). rewrite Eh in E'. injection E' as <-.
  pose proof (fun o => core_state _ _ (hy_objs _ _ _ (df_hygiene _ _ Hd) o)) as Hy. split; [done|..].
  - specialize (Hy d). cbn in Hy. rewrite lookup_insert_eq in Hy. destruct (m_objs c' !! d) as [h'|]; [|done].
    exists h'. split; [done|]. by injection Hy as ->.
  - intros o Hne. rewrite Hy. cbn. by rewrite lookup_insert_ne.
Qed.

(** Storing DEAD in a dead header changes nothing. *)
Lemma wp_bury_again d h c : wf c -> m_objs c !! d = Some h -> hdr_u32State h = GJ_OBJ_DEAD ->
  wp (obj_store d (hdr_set_state h GJ_OBJ_DEAD)) (fun _ c' => buried d c c') c.
Proof.
  intros Hw Eh Hs. assert (hdr_set_state h GJ_OBJ_DEAD = h) as -> by (destruct h; cbn in *; by subst).
  eapply wp_obj_store; [exact Eh|]. replace (set_objs _ c) with c; [split; [done|by exists h|done]|].
  unfold set_objs. rewrite insert_id by done. by destruct c.
Qed.

(** * Who sleeps, who is woken, who is gone: the thread table as the blocking
    components see it. *)

(** ** Waking *)

(** Some sleepers have been woken, nothing else. *)
Definition wakes (l l' : list gj_thread) : Prop :=
  length l' = length l /\
  forall i p', l' !! i = Some p' -> exists p, l !! i = Some p /\ (p' = p \/ (u32State p = GJ_THR_BLOCKED /\ p' = woken p)).

#[export] Instance wakes_preorder : PreOrder wakes.
Proof.
  split.
  - intros l. split; [done|]. intros i p E. exists p. auto.
  - intros l1 l2 l3 [L1 H1] [L2 H2]. split; [congruence|]. intros i p3 E3.
    destruct (H2 i p3 E3) as (p2 & E2 & Hp). destruct (H1 i p2 E2) as (p1 & E1 & Hq). exists p1. split; [done|].
    destruct Hp as [->|[Hb ->]]; [done|]. destruct Hq as [->|[_ ->]]; [by right|]. simpl in Hb. discriminate.
Qed.

Lemma wakes_ref obj tag max l : wakes l (wake_ref obj tag max 0 l).
Proof.
  split; [apply wake_ref_length|]. intros i p' E.
  destruct (l !! i) as [p|] eqn:Ei.
  2:{ apply lookup_ge_None in Ei. apply lookup_lt_Some in E. rewrite wake_ref_length in E. lia. }
  rewrite (wake_ref_lookup obj tag max l 0 i p Ei) in E. injection E as <-. exists p. split; [done|].
  destruct (wake_match obj tag p && _) eqn:Em; [|by left]. right. split; [|done].
  apply andb_true_iff in Em as [Em _]. unfold wake_match in Em. rewrite !andb_true_iff in Em.
  destruct Em as [[Em _] _]. by apply bool_decide_eq_true in Em.
Qed.

(** Thread [i] sleeps on [obj] with this tag. *)
Definition asleep_on (l : list gj_thread) (i : nat) (obj tag : Z) : Prop :=
  exists p, l !! i = Some p /\ u32State p = GJ_THR_BLOCKED /\ pBlockObj p = obj /\ u32BlockTag p = tag.

Lemma asleep_wakes l l' i obj tag : wakes l l' -> asleep_on l' i obj tag -> asleep_on l i obj tag.
Proof.
  intros [_ H] (p' & E & Hs & Ho & Ht). destruct (H i p' E) as (p & E0 & [->|[_ ->]]); [by exists p|]. discriminate.
Qed.

Lemma waiting_pos_take obj tag l i :
  0 < waiting obj tag (take i l) -> exists j p, (j < i)%nat /\ l !! j = Some p /\ wake_match obj tag p = true.
Proof.
  revert i. induction l as [|p l IH]; intros i; [by rewrite take_nil|]. destruct i as [|i]; [done|].
  cbn [take]. rewrite waiting_cons. intros Hw. destruct (wake_match obj tag p) eqn:Em.
  - exists 0%nat, p. split; [lia|done].
  - destruct (IH i) as (j & q & Hj & Eq & Hm); [lia|]. exists (S j), q. split; [lia|done].
Qed.

(** A wake reaches the only sleeper. *)
Lemma wake_only_ge obj tag max l :
  tag <> 0 -> 1 <= max -> (forall i j, asleep_on l i obj tag -> asleep_on l j obj tag -> i = j) ->
  forall i, ~ asleep_on (wake_ref obj tag max 0 l) i obj tag.
Proof.
  intros Ht Hmax Hu i Ha. pose proof (asleep_wakes _ _ _ _ _ (wakes_ref obj tag max l) Ha) as Ha0.
  destruct Ha0 as (p & E & Hs & Ho & Hg). destruct Ha as (p' & E' & Hs' & _).
  rewrite (wake_ref_lookup obj tag max l 0 i p E) in E'. injection E' as <-.
  assert (wake_match obj tag p = true) as Hm.
  { unfold wake_match. rewrite bool_decide_true by done. rewrite Ho, Hg, !Z.eqb_refl. by rewrite orb_true_r. }
  rewrite Hm in Hs'. simpl in Hs'. destruct (Z.ltb_spec (0 + waiting obj tag (take i l)) max) as [|Hge]; [discriminate|].
  destruct (waiting_pos_take obj tag l i) as (j & q & Hj & Eq & Hq); [lia|].
  assert (j = i) as ->; [|lia]. apply Hu; [|by exists p]. exists q. split; [done|].
  unfold wake_match in Hq. rewrite !andb_true_iff, orb_true_iff, !Z.eqb_eq in Hq.
  destruct Hq as [[Hq1 Hq2] [Hq3|Hq3]]; [done|]. by apply bool_decide_eq_true in Hq1.
Qed.

(** ** Moves of the table *)
Definition gone (l : list gj_thread) (i : nat) : bool :=
  match l !! i with Some p => bool_decide (u32State p = GJ_THR_EXITED) || (u32Id p =? 0) | None => false end.

(** The sleepers of [l'] slept in [l], but for [new]. *)
Record tmove (new : option (nat * Z * Z)) (l l' : list gj_thread) : Prop := {
  tm_len : length l' = length l;
  tm_gone : forall i, gone l' i = gone l i;
  tm_sleep : forall i o g, asleep_on l' i o g -> asleep_on l i o g \/ new = Some (i, o, g) }.

Lemma wakes_tmove l l' : wakes l l' -> tmove None l l'.
Proof.
  intros Hw. pose proof Hw as [Hl H]. split; [done| |].
  - intros i. unfold gone. destruct (l' !! i) as [p'|] eqn:E'.
    + destruct (H i p' E') as (p & E & [->|[Hb ->]]); rewrite E; [done|]. cbn [woken u32State u32Id]. by rewrite Hb.
    + apply lookup_ge_None in E'. rewrite Hl in E'. apply lookup_ge_None in E'. by rewrite E'.
  - intros i o g Ha. left. by eapply asleep_wakes.
Qed.

Definition slept (o g : Z) (p : gj_thread) : gj_thread := MkThread (u32Id p) GJ_THR_BLOCKED o g.

Lemma block_tmove l i p o g :
  l !! i = Some p -> gone l i = false -> tmove (Some (i, o, g)) l (<[i := slept o g p]> l).
Proof.
  intros E Hg. split; [apply length_insert| |].
  - intros j. destruct (decide (i = j)) as [<-|Hne]; unfold gone in *; [|by rewrite list_lookup_insert_ne].
    rewrite list_lookup_insert_eq by (by eapply lookup_lt_Some). rewrite E in *. simpl in *.
    apply orb_false_iff in Hg as [-> ->]. done.
  - intros j o' g' (q & Eq & Hq & Ho & Ht). destruct (decide (i = j)) as [<-|Hne].
    + right. rewrite list_lookup_insert_eq in Eq by (by eapply lookup_lt_Some). injection Eq as <-. simpl in *. by subst.
    + left. rewrite list_lookup_insert_ne in Eq by done. by exists q.
Qed.

Lemma tmove_trans l l1 l2 new : tmove None l l1 -> tmove new l1 l2 -> tmove new l l2.
Proof.
  intros [] []. split; [congruence|intros; congruence|]. intros i o g Ha.
  destruct (tm_sleep1 i o g Ha) as [Hs|]; [|by right]. left. by destruct (tm_sleep0 i o g Hs).
Qed.

Lemma waiting_app obj tag l1 l2 : waiting obj tag (l1 ++ l2) = waiting obj tag l1 + waiting obj tag l2.
Proof. induction l1 as [|p l1 IH]; [done|]. cbn [app]. rewrite !waiting_cons, IH. lia. Qed.

(** A wake with room for every sleeper leaves none. *)
Lemma wake_all obj tag max l :
  tag <> 0 -> waiting obj tag l <= max -> forall i, ~ asleep_on (wake_ref obj tag max 0 l) i obj tag.
Proof.
  intros Ht Hmax i Ha. pose proof (asleep_wakes _ _ _ _ _ (wakes_ref obj tag max l) Ha) as Ha0.
  destruct Ha0 as (p & E & Hs & Ho & Hg). destruct Ha as (p' & E' & Hs' & _).
  rewrite (wake_ref_lookup obj tag max l 0 i p E) in E'. injection E' as <-.
  assert (wake_match obj tag p = true) as Hm.
  { unfold wake_match. rewrite bool_decide_true by done. rewrite Ho, Hg, !Z.eqb_refl. by rewrite orb_true_r. }
  rewrite Hm in Hs'. simpl in Hs'. destruct (Z.ltb_spec (0 + waiting obj tag (take i l)) max) as [|Hge]; [discriminate|].
  rewrite <-(take_drop_middle l i p E) in Hmax. rewrite waiting_app, waiting_cons, Hm in Hmax.
  pose proof (waiting_nonneg obj tag (drop (S i) l)). lia.
Qed.

(** ** Running threads *)
Definition awake (l : list gj_thread) (c : nat) : Prop :=
  is_Some (l !! c) /\ gone l c = false /\ forall o g, ~ asleep_on l c o g.

Lemma awake_tmove l l' c : tmove None l l' -> awake l c -> awake l' c.
Proof.
  intros [] (H1 & H2 & H3). split_and!.
  - apply lookup_lt_is_Some. rewrite tm_len0. by apply lookup_lt_is_Some.
  - congruence.
  - intros o g Ha. destruct (tm_sleep0 c o g Ha) as [Ha'|]; [by eapply H3|done].
Qed.

Lemma awake_wakes l l' c : wakes l l' -> awake l c -> awake l' c.
Proof. intros Hw. by apply awake_tmove, wakes_tmove. Qed.

(** * Two live objects and thirty-two running threads: the ground of the concrete
    systems in the witnesses. *)

Definition obj_calls : list cap_call := [KNewObj 1; KObjInit 1; KNewObj 2; KObjInit 2]%positive.
Definition obj_caps : cap_mem :=
  default cap_mem0 (run_trace cdt_soft_inventory_maybe_once soft_revoke_inventory_maybe_once obj_calls cap_mem0).

Lemma obj_caps_wf : wf obj_caps.
Proof.
  apply (reach_wf cdt_soft_inventory_maybe_once soft_revoke_inventory_maybe_once). exists obj_calls.
  apply run_trace_steps. vm_compute. reflexivity.
Qed.

Definition run_threads : list gj_thread :=
  imap (fun i _ => MkThread (Z.of_nat i + 1) GJ_THR_RUNNING 0 0) (replicate GJ_MAX_THREADS tt).

Lemma run_threads_awake : Forall (fun p => u32State p <> GJ_THR_BLOCKED) run_threads.
Proof.
  apply Forall_lookup. intros i p E. unfold run_threads in E. rewrite list_lookup_imap in E.
  destruct (_ !! i); [|done]. by injection E as <-.
Qed.

Definition run_thr_mem : thr_mem := MkThrMem run_threads [] [] [] [] [] [] None 0 1.

(** A map with the two objects. *)
Definition two_objs {A} (a : A) : gmap objp A := <[1%positive := a]> (<[2%positive := a]> ∅).

Lemma two_objs_all {A} (P : objp -> A -> Prop) (a : A) :
  P 1%positive a -> P 2%positive a -> map_Forall P (two_objs a).
Proof.
  intros H1 H2 o y E. unfold two_objs in E. rewrite !lookup_insert_Some, lookup_empty in E.
  destruct E as [[<- <-]|[_ [[<- <-]|[_ E]]]]; done.
Qed.
