(* ===== verification/Door.v ===== *)
(** Doors, the synchronous call/reply channel of [kernel/ipc/door.c].

    A door is an object of the capability system (its header lives in
    [cap_mem] under the door's address) with a single-flight client slot, a
    serving thread, a posted request and a reply.  Threads block on the door
    with one of three tags; the thread table is that of [Thread.v].  Threads of
    this kernel switch only in [schedule], so the code between two calls of it
    is one step: the two waiting loops of [door_call_timeout] and the one of
    [door_recv] are cut there, the result says where the thread is parked, and
    [call_claim], [call_wait] and [recv_resume] are what it does when it runs
    again.  The current thread and the clock are arguments.

    The self-check that runs once at start-up is not modelled: the flag that it
    has run is part of the state. *)
From stdpp Require Import base gmap list strings.
From Stdlib Require Import ZArith Lia.
From S2P Require Import Prelude CapTypes CapCnode CapRevoke CapLean LinuxAbi Thread KernObj.

Definition DOOR_TAG_SERVER : Z := 1.
Definition DOOR_TAG_CLIENT : Z := 2.
Definition DOOR_TAG_SLOT : Z := 3.
Definition DOOR_REPLY_SOFT_SLOTS : nat := 8.

(** The reasons of [door_reply_soft_invalidate]. *)
Inductive su_why : Type := DOOR_SU_INVAL_CANCEL | DOOR_SU_INVAL_ABORT | DOOR_SU_INVAL_THR | DOOR_SU_INVAL_INIT.

Record gj_linux_regs : Type := MkRegs {
  rg_u64Nr : Z; rg_u64Arg0 : Z; rg_u64Arg1 : Z; rg_u64Arg2 : Z; rg_u64Arg3 : Z; rg_u64Arg4 : Z; rg_u64Arg5 : Z; rg_i64Ret : Z }.

(** [struct gj_door] without its header. *)
Record gj_door : Type := MkDoor {
  d_u32Ready : bool;
  d_u32PeerDead : bool;
  d_u32Badge : Z;
  d_u32LastBadge : Z;
  d_pServer : option nat;
  d_pClient : option nat;
  d_req : gj_linux_regs;
  d_i64Reply : Z;
  d_u32HasReq : bool;
  d_u32HasReply : bool;
  d_u64Calls : Z;
  d_u64Replies : Z;
  d_u64Aborts : Z;
  d_u64Timeouts : Z;
  d_u64BadgeMask : Z }.

(** A reply right of a flight: used once, or dead. *)
Record door_reply_soft : Type := MkReply {
  rp_pDoor : option objp;
  rp_u32Gen : Z;
  rp_u32Live : bool;
  rp_u32Consumed : bool }.

Record door_mem : Type := MkDoorMem {
  dm_cap : cap_mem;
  dm_thr : thr_mem;
  dm_doors : gmap objp gj_door;
  g_aReplySoft : list door_reply_soft;
  g_u32ReplySoftGen : Z;
  g_fSoftOnce : bool;
  g_fLeanResidualOnce : bool }.

(** The address of [g_doorCold]. *)
Definition g_doorCold : objp := 1%positive.
(** The address of a door as a wait object. *)
Definition door_key (d : objp) : Z := Zpos d.

Definition set_dcap (c : cap_mem) (m : door_mem) : door_mem :=
  MkDoorMem c (dm_thr m) (dm_doors m) (g_aReplySoft m) (g_u32ReplySoftGen m) (g_fSoftOnce m) (g_fLeanResidualOnce m).
Definition set_dthr (t : thr_mem) (m : door_mem) : door_mem :=
  MkDoorMem (dm_cap m) t (dm_doors m) (g_aReplySoft m) (g_u32ReplySoftGen m) (g_fSoftOnce m) (g_fLeanResidualOnce m).
Definition set_doors (l : gmap objp gj_door) (m : door_mem) : door_mem :=
  MkDoorMem (dm_cap m) (dm_thr m) l (g_aReplySoft m) (g_u32ReplySoftGen m) (g_fSoftOnce m) (g_fLeanResidualOnce m).
Definition set_replies (l : list door_reply_soft) (g : Z) (m : door_mem) : door_mem :=
  MkDoorMem (dm_cap m) (dm_thr m) (dm_doors m) l g (g_fSoftOnce m) (g_fLeanResidualOnce m).
Definition set_once (o : bool) (m : door_mem) : door_mem :=
  MkDoorMem (dm_cap m) (dm_thr m) (dm_doors m) (g_aReplySoft m) (g_u32ReplySoftGen m) o (g_fLeanResidualOnce m).

#[export] Instance door_has_threads : HasThreads door_mem :=
  {| thr_of := dm_thr; thr_upd := set_dthr; thr_of_upd := fun t m => eq_refl |}.

#[export] Instance door_has_caps : HasCaps door_mem.
Proof. refine {| cap_of := dm_cap; cap_upd := set_dcap |}; [done|by intros []]. Defined.

(** Loads and stores of one door. *)
Definition ld_door (d : objp) : prog door_mem gj_door :=
  m <- pget ;; match dm_doors m !! d with Some x => pret x | None => pfault end.
Definition upd_door (d : objp) (f : gj_door -> gj_door) : prog door_mem unit :=
  m <- pget ;; match dm_doors m !! d with Some x => pput (set_doors (<[d := f x]> (dm_doors m)) m) | None => pfault end.

Definition with_server (s : option nat) (x : gj_door) : gj_door :=
  MkDoor (d_u32Ready x) (d_u32PeerDead x) (d_u32Badge x) (d_u32LastBadge x) s (d_pClient x) (d_req x) (d_i64Reply x)
    (d_u32HasReq x) (d_u32HasReply x) (d_u64Calls x) (d_u64Replies x) (d_u64Aborts x) (d_u64Timeouts x) (d_u64BadgeMask x).
Definition with_client (c : option nat) (x : gj_door) : gj_door :=
  MkDoor (d_u32Ready x) (d_u32PeerDead x) (d_u32Badge x) (d_u32LastBadge x) (d_pServer x) c (d_req x) (d_i64Reply x)
    (d_u32HasReq x) (d_u32HasReply x) (d_u64Calls x) (d_u64Replies x) (d_u64Aborts x) (d_u64Timeouts x) (d_u64BadgeMask x).
Definition with_req (r : gj_linux_regs) (x : gj_door) : gj_door :=
  MkDoor (d_u32Ready x) (d_u32PeerDead x) (d_u32Badge x) (d_u32LastBadge x) (d_pServer x) (d_pClient x) r (d_i64Reply x)
    (d_u32HasReq x) (d_u32HasReply x) (d_u64Calls x) (d_u64Replies x) (d_u64Aborts x) (d_u64Timeouts x) (d_u64BadgeMask x).
Definition with_reply (v : Z) (x : gj_door) : gj_door :=
  MkDoor (d_u32Ready x) (d_u32PeerDead x) (d_u32Badge x) (d_u32LastBadge x) (d_pServer x) (d_pClient x) (d_req x) v
    (d_u32HasReq x) (d_u32HasReply x) (d_u64Calls x) (d_u64Replies x) (d_u64Aborts x) (d_u64Timeouts x) (d_u64BadgeMask x).
Definition with_has (q p : bool) (x : gj_door) : gj_door :=
  MkDoor (d_u32Ready x) (d_u32PeerDead x) (d_u32Badge x) (d_u32LastBadge x) (d_pServer x) (d_pClient x) (d_req x) (d_i64Reply x)
    q p (d_u64Calls x) (d_u64Replies x) (d_u64Aborts x) (d_u64Timeouts x) (d_u64BadgeMask x).
Definition with_counts (c r a t : Z) (x : gj_door) : gj_door :=
  MkDoor (d_u32Ready x) (d_u32PeerDead x) (d_u32Badge x) (d_u32LastBadge x) (d_pServer x) (d_pClient x) (d_req x) (d_i64Reply x)
    (d_u32HasReq x) (d_u32HasReply x) c r a t (d_u64BadgeMask x).
Definition with_badges (b l k : Z) (x : gj_door) : gj_door :=
  MkDoor (d_u32Ready x) (d_u32PeerDead x) b l (d_pServer x) (d_pClient x) (d_req x) (d_i64Reply x)
    (d_u32HasReq x) (d_u32HasReply x) (d_u64Calls x) (d_u64Replies x) (d_u64Aborts x) (d_u64Timeouts x) k.
Definition with_life (r p : bool) (x : gj_door) : gj_door :=
  MkDoor r p (d_u32Badge x) (d_u32LastBadge x) (d_pServer x) (d_pClient x) (d_req x) (d_i64Reply x)
    (d_u32HasReq x) (d_u32HasReply x) (d_u64Calls x) (d_u64Replies x) (d_u64Aborts x) (d_u64Timeouts x) (d_u64BadgeMask x).

Definition inc64 (z : Z) : Z := u64_wrap (z + 1).
Definition count_call (x : gj_door) : gj_door :=
  with_counts (inc64 (d_u64Calls x)) (d_u64Replies x) (d_u64Aborts x) (d_u64Timeouts x) x.
Definition count_reply (x : gj_door) : gj_door :=
  with_counts (d_u64Calls x) (inc64 (d_u64Replies x)) (d_u64Aborts x) (d_u64Timeouts x) x.
Definition count_abort (x : gj_door) : gj_door :=
  with_counts (d_u64Calls x) (d_u64Replies x) (inc64 (d_u64Aborts x)) (d_u64Timeouts x) x.
Definition count_timeout (x : gj_door) : gj_door :=
  with_counts (d_u64Calls x) (d_u64Replies x) (d_u64Aborts x) (inc64 (d_u64Timeouts x)) x.

Definition door_wake (d : objp) (tag max : Z) : prog door_mem unit :=
  on_threads (thread_wake (door_key d) tag max) ;;; pret tt.
Definition door_block (cur : nat) (d : objp) (tag : Z) : prog door_mem unit :=
  on_threads (thread_block (Some cur) (door_key d) tag).

(** ** Flight flags *)
Definition door_store_has_req (pDoor : option objp) (v : bool) : prog door_mem unit :=
  match pDoor with None => pret tt | Some d => upd_door d (fun x => with_has v (d_u32HasReply x) x) end.
Definition door_load_has_req (pDoor : option objp) : prog door_mem bool :=
  match pDoor with None => pret false | Some d => x <- ld_door d ;; pret (d_u32HasReq x) end.
Definition door_store_has_reply (pDoor : option objp) (v : bool) : prog door_mem unit :=
  match pDoor with None => pret tt | Some d => upd_door d (fun x => with_has (d_u32HasReq x) v x) end.
Definition door_load_has_reply (pDoor : option objp) : prog door_mem bool :=
  match pDoor with None => pret false | Some d => x <- ld_door d ;; pret (d_u32HasReply x) end.

Definition door_clear_serve (pDoor : option objp) : prog door_mem unit :=
  match pDoor with
  | None => pret tt
  | Some d =>
      x <- ld_door d ;;
      match d_pServer x with
      | None => pret tt
      | Some _ => upd_door d (with_server None) ;;; tick64 "g_u64SoftServeRelease"
      end
  end.

Definition door_live (pDoor : option objp) : prog door_mem bool :=
  match pDoor with
  | None => pret false
  | Some d =>
      x <- ld_door d ;;
      if negb (d_u32Ready x) then pret false else
      h <- on_cap (obj_load d) ;;
      if negb (hdr_u32State h =? GJ_OBJ_LIVE) then pret false else
      if d_u32PeerDead x then pret false else pret true
  end.

(** ** Reply rights *)
Definition door_reply_soft_find (m : door_mem) (pDoor : option objp) : option nat :=
  match pDoor with
  | None => None
  | Some d => find_from (fun r => bool_decide (rp_pDoor r = Some d)) 0 (g_aReplySoft m)
  end.
Definition door_reply_soft_live_count (m : door_mem) : Z :=
  Z.of_nat (countb (fun r => bool_decide (is_Some (rp_pDoor r)) && rp_u32Live r) (g_aReplySoft m)).
Definition door_reply_soft_bound_count (m : door_mem) : Z :=
  Z.of_nat (countb (fun r => bool_decide (is_Some (rp_pDoor r))) (g_aReplySoft m)).
Definition door_reply_soft_note_live_peak : prog door_mem unit :=
  m <- pget ;; tel_peak "g_u32ReplySuLivePeak" (door_reply_soft_live_count m).

Definition ld_reply (i : nat) : prog door_mem door_reply_soft :=
  m <- pget ;; match g_aReplySoft m !! i with Some r => pret r | None => pfault end.
Definition st_reply (i : nat) (r : door_reply_soft) : prog door_mem unit :=
  m <- pget ;;
  match g_aReplySoft m !! i with
  | Some _ => pput (set_replies (<[i := r]> (g_aReplySoft m)) (g_u32ReplySoftGen m) m)
  | None => pfault
  end.

(** The next generation; 0 is reserved. *)
Definition next_gen (g : Z) : Z := let g' := u32_wrap (g + 1) in if g' =? 0 then 1 else g'.

Definition door_reply_soft_create (pDoor : option objp) : prog door_mem unit :=
  match pDoor with
  | None => tick64 "g_u64ReplySuDrop"
  | Some d =>
      m <- pget ;;
      let found := door_reply_soft_find m (Some d) in
      let slot := match found with
                  | Some i => Some i
                  | None => find_from (fun r => bool_decide (rp_pDoor r = None)) 0 (g_aReplySoft m)
                  end in
      match slot with
      | None => tick64 "g_u64ReplySuDrop"
      | Some i =>
          let g := next_gen (g_u32ReplySoftGen m) in
          pmod (fun m => set_replies (g_aReplySoft m) g m) ;;;
          st_reply i (MkReply (Some d) g true false) ;;;
          tick64 "g_u64ReplySuCreate" ;;;
          (match found with
           | Some _ => tick64 "g_u64ReplySuCreateRebind"
           | None => tick64 "g_u64ReplySuCreateNew"
           end) ;;;
          door_reply_soft_note_live_peak
      end
  end.

(** May the reply proceed? *)
Definition door_reply_soft_try_consume (pDoor : option objp) : prog door_mem bool :=
  m <- pget ;;
  match door_reply_soft_find m pDoor with
  | None => tick64 "g_u64ReplySuFallback" ;;; pret true
  | Some i =>
      r <- ld_reply i ;;
      if negb (rp_u32Live r) || rp_u32Consumed r then tick64 "g_u64ReplySuSecondFail" ;;; pret false else
      st_reply i (MkReply (rp_pDoor r) (rp_u32Gen r) false true) ;;;
      tick64 "g_u64ReplySuConsume" ;;;
      pret true
  end.

Definition inval_counter (w : su_why) : string :=
  match w with
  | DOOR_SU_INVAL_CANCEL => "g_u64ReplySuInvalCancel"
  | DOOR_SU_INVAL_ABORT => "g_u64ReplySuInvalAbort"
  | DOOR_SU_INVAL_THR => "g_u64ReplySuInvalThr"
  | DOOR_SU_INVAL_INIT => "g_u64ReplySuInvalInit"
  end.

Definition door_reply_soft_invalidate (pDoor : option objp) (w : su_why) : prog door_mem unit :=
  m <- pget ;;
  match door_reply_soft_find m pDoor with
  | None => pret tt
  | Some i =>
      r <- ld_reply i ;;
      (if rp_u32Live r || rp_u32Consumed r || negb (rp_u32Gen r =? 0) then
         tick64 "g_u64ReplySuInval" ;;; tick64 (inval_counter w)
       else pret tt) ;;;
      st_reply i (MkReply (rp_pDoor r) (rp_u32Gen r) false true)
  end.

(** ** Badges and statistics *)
Definition door_snapshot_last_badge (pDoor : option objp) : prog door_mem unit :=
  match pDoor with
  | None => tick64 "g_u64BadgeXferFail"
  | Some d =>
      upd_door d (fun x => with_badges (d_u32Badge x) (d_u32Badge x) (d_u64BadgeMask x) x) ;;;
      tick64 "g_u64BadgeXferMove"
  end.
Definition door_set_badge (pDoor : option objp) (b : Z) : prog door_mem unit :=
  match pDoor with
  | None => tick64 "g_u64BadgeXferFail"
  | Some d =>
      upd_door d (fun x => with_badges b (d_u32LastBadge x) (d_u64BadgeMask x) x) ;;; tick64 "g_u64BadgeXferGrant"
  end.
Definition door_get_badge (pDoor : option objp) : prog door_mem Z :=
  match pDoor with None => pret 0 | Some d => x <- ld_door d ;; pret (d_u32Badge x) end.
Definition door_get_last_badge (pDoor : option objp) : prog door_mem Z :=
  match pDoor with None => pret 0 | Some d => x <- ld_door d ;; pret (d_u32LastBadge x) end.
Definition door_badge_or (pDoor : option objp) (bits : Z) : prog door_mem unit :=
  match pDoor with
  | None => tick64 "g_u64BadgeXferFail"
  | Some d =>
      if bits =? 0 then tick64 "g_u64BadgeXferFail" else
      upd_door d (fun x => with_badges (d_u32Badge x) (d_u32LastBadge x) (Z.lor (d_u64BadgeMask x) bits) x)
  end.
Definition door_get_badge_mask (pDoor : option objp) : prog door_mem Z :=
  match pDoor with None => pret 0 | Some d => x <- ld_door d ;; pret (d_u64BadgeMask x) end.
Definition door_stats (pDoor : option objp) : prog door_mem (Z * Z * Z * Z) :=
  match pDoor with
  | None => pret (0, 0, 0, 0)
  | Some d => x <- ld_door d ;; pret (d_u64Calls x, d_u64Replies x, d_u64Aborts x, d_u64Timeouts x)
  end.

(** The call of the self-check once it has run; a state in which it has not run
    is outside the model. *)
Definition lean_residual_guard : prog door_mem unit :=
  m <- pget ;; if g_fLeanResidualOnce m then pret tt else pfault.

(** The inventory this hook prints changes nothing but a counter. *)
Definition door_soft_maybe_once : prog door_mem unit :=
  m <- pget ;;
  if g_fSoftOnce m then pret tt else
  t <- ptel ;;
  if tel_val t "g_u64SoftCallEnter" =? 0 then pret tt else
  pmod (set_once true) ;;; lean_residual_guard ;;; tick64 "g_u64SoftLogN".

(** ** Release, cancellation, death *)
Definition door_release_client_slot (pDoor : option objp) (cur : nat) : prog door_mem unit :=
  match pDoor with
  | None => pret tt
  | Some d =>
      x <- ld_door d ;;
      (if bool_decide (d_pClient x = Some cur) then upd_door d (with_client None) else pret tt) ;;;
      door_wake d DOOR_TAG_SLOT 1
  end.

Definition door_cancel_inflight (pDoor : option objp) (cur : nat) : prog door_mem unit :=
  match pDoor with
  | None => pret tt
  | Some d =>
      tick64 "g_u64SoftCancel" ;;;
      door_store_has_req pDoor false ;;;
      door_store_has_reply pDoor false ;;;
      door_reply_soft_invalidate pDoor DOOR_SU_INVAL_CANCEL ;;;
      door_release_client_slot pDoor cur ;;;
      door_wake d DOOR_TAG_SERVER 1
  end.

Definition zero_regs : gj_linux_regs := MkRegs 0 0 0 0 0 0 0 0.
Definition zero_door : gj_door := MkDoor false false 0 0 None None zero_regs 0 false false 0 0 0 0 0.

Definition door_init (pDoor : option objp) : prog door_mem unit :=
  match pDoor with
  | None => pret tt
  | Some d =>
      door_reply_soft_invalidate pDoor DOOR_SU_INVAL_INIT ;;;
      m <- pget ;;
      (match door_reply_soft_find m pDoor with
       | Some i => st_reply i (MkReply None 0 false false)
       | None => pret tt
       end) ;;;
      upd_door d (fun _ => zero_door) ;;;
      on_cap (gj_obj_hdr_init (Some d)) ;;;
      upd_door d (with_life true false)
  end.

Definition door_abort_waiters (pDoor : option objp) : prog door_mem unit :=
  match pDoor with
  | None => pret tt
  | Some d =>
      tick64 "g_u64SoftAbort" ;;;
      upd_door d (fun x => count_abort (with_life (d_u32Ready x) true x)) ;;;
      door_reply_soft_invalidate pDoor DOOR_SU_INVAL_ABORT ;;;
      x <- ld_door d ;;
      (match d_pClient x with
       | None => pret tt
       | Some _ =>
           upd_door d (with_reply (- LINUX_EIO)) ;;;
           door_store_has_reply pDoor true ;;;
           door_wake d DOOR_TAG_CLIENT 1
       end) ;;;
      door_clear_serve pDoor ;;;
      door_wake d DOOR_TAG_SERVER 1 ;;;
      door_wake d DOOR_TAG_SLOT 8
  end.

Definition door_mark_dead (pDoor : option objp) : prog door_mem unit :=
  match pDoor with
  | None => pret tt
  | Some d =>
      upd_door d (with_life false true) ;;;
      h <- on_cap (obj_load d) ;;
      (if hdr_u32State h =? GJ_OBJ_LIVE then
         on_cap (gj_obj_revoke_begin soft_revoke_inventory_maybe_once (Some d)) ;;; pret tt
       else on_cap (obj_store d (hdr_set_state h GJ_OBJ_DEAD))) ;;;
      door_abort_waiters pDoor
  end.

(** ** Death of a thread *)
Definition door_thr_exit_server_role (pDoor : option objp) (pThr : option nat) : prog door_mem unit :=
  match pDoor, pThr with
  | Some d, Some t =>
      x <- ld_door d ;;
      if negb (bool_decide (d_pServer x = Some t)) then pret tt else
      tick64 "g_u64SoftThrExitServer" ;;;
      rp <- door_load_has_reply pDoor ;;
      (if bool_decide (is_Some (d_pClient x)) && negb rp then
         tick64 "g_u64SoftThrSrvEio" ;;;
         door_store_has_req pDoor false ;;;
         upd_door d (with_reply (- LINUX_EIO)) ;;;
         door_store_has_reply pDoor true ;;;
         upd_door d count_abort ;;;
         door_reply_soft_invalidate pDoor DOOR_SU_INVAL_THR ;;;
         door_wake d DOOR_TAG_CLIENT 1
       else pret tt) ;;;
      door_clear_serve pDoor ;;;
      door_wake d DOOR_TAG_SERVER 1 ;;;
      door_wake d DOOR_TAG_SLOT 8
  | _, _ => pret tt
  end.

Definition door_thr_exit_one (pDoor : option objp) (pThr : option nat) : prog door_mem unit :=
  match pDoor, pThr with
  | Some d, Some t =>
      x <- ld_door d ;;
      (if bool_decide (d_pClient x = Some t) then
         upd_door d (with_client None) ;;;
         tick64 "g_u64SoftThrExitClient" ;;;
         door_store_has_req pDoor false ;;;
         door_store_has_reply pDoor false ;;;
         upd_door d (with_reply (- LINUX_EIO)) ;;;
         upd_door d count_abort ;;;
         door_reply_soft_invalidate pDoor DOOR_SU_INVAL_THR ;;;
         door_clear_serve pDoor ;;;
         door_wake d DOOR_TAG_CLIENT 1 ;;;
         door_wake d DOOR_TAG_SERVER 1 ;;;
         door_wake d DOOR_TAG_SLOT 8
       else pret tt) ;;;
      door_thr_exit_server_role pDoor pThr
  | _, _ => pret tt
  end.

(** The walk over the doors of the reply table: [k] entries from [i], doors in
    [seen] are done. *)
Fixpoint exit_walk (pThr : option nat) (k i : nat) (seen : list objp) : prog door_mem unit :=
  match k with
  | O => pret tt
  | S k' =>
      r <- ld_reply i ;;
      match rp_pDoor r with
      | None => exit_walk pThr k' (S i) seen
      | Some d =>
          if bool_decide (d ∈ seen) then exit_walk pThr k' (S i) seen else
          tick64 "g_u64SoftThrExitBound" ;;;
          door_thr_exit_one (Some d) pThr ;;;
          exit_walk pThr k' (S i) (d :: seen)
      end
  end.

Definition door_cold_personality : objp := g_doorCold.

Definition door_on_thread_exit (pThr : option nat) : prog door_mem unit :=
  match pThr with
  | None => pret tt
  | Some _ =>
      tick64 "g_u64SoftThrExit" ;;;
      door_thr_exit_one (Some door_cold_personality) pThr ;;;
      exit_walk pThr DOOR_REPLY_SOFT_SLOTS 0 [door_cold_personality]
  end.

(** ** Call *)

(** Where a call stands when the thread gives up the processor. *)
Inductive call_res : Type :=
| CallRet (r : Z)      (** it has returned [r] *)
| CallSlot             (** parked for the client slot *)
| CallWait.            (** parked for the reply *)

(** An error return: its counter and the value. *)
Definition call_fail (c : string) (e : Z) : prog door_mem call_res :=
  tick64 c ;;; tick64 "g_u64SoftCallRetNeg" ;;; door_soft_maybe_once ;;; pret (CallRet (- e)).

Definition call_expired (deadline : Z) (ready : bool) (now : Z) : bool :=
  negb (deadline =? 0) && (negb ready || (deadline <=? now)).

(** The second loop of [door_call_timeout], up to [schedule]. *)
Definition call_wait (d : objp) (cur : nat) (deadline : Z) (ready : bool) (now : Z) : prog door_mem call_res :=
  rp <- door_load_has_reply (Some d) ;;
  if (rp : bool) then
    x <- ld_door d ;;
    let r := d_i64Reply x in
    door_store_has_reply (Some d) false ;;;
    door_store_has_req (Some d) false ;;;
    door_snapshot_last_badge (Some d) ;;;
    door_release_client_slot (Some d) cur ;;;
    tick64 "g_u64SoftCallReply" ;;;
    (if r =? - LINUX_EIO then tick64 "g_u64SoftCallEio" else pret tt) ;;;
    (if r <? 0 then tick64 "g_u64SoftCallRetNeg" else tick64 "g_u64SoftCallRetPos") ;;;
    door_soft_maybe_once ;;;
    pret (CallRet r)
  else
  lv <- door_live (Some d) ;;
  if negb lv then
    door_snapshot_last_badge (Some d) ;;;
    door_cancel_inflight (Some d) cur ;;;
    call_fail "g_u64SoftCallEio" LINUX_EIO
  else if call_expired deadline ready now then
    door_cancel_inflight (Some d) cur ;;;
    upd_door d count_timeout ;;;
    call_fail "g_u64SoftCallEtimedout" LINUX_ETIMEDOUT
  else
  tick64 "g_u64SoftCallClientWait" ;;;
  door_block cur d DOOR_TAG_CLIENT ;;;
  rp <- door_load_has_reply (Some d) ;;
  lv <- door_live (Some d) ;;
  (if (rp : bool) || negb lv then door_wake d DOOR_TAG_CLIENT 1 else pret tt) ;;;
  pret CallWait.

(** The request is posted. *)
Definition call_post (d : objp) (regs : gj_linux_regs) : prog door_mem unit :=
  tick64 "g_u64SoftCallClaim" ;;;
  upd_door d (with_req regs) ;;;
  door_store_has_reply (Some d) false ;;;
  door_store_has_req (Some d) true ;;;
  upd_door d count_call ;;;
  door_reply_soft_create (Some d) ;;;
  x <- ld_door d ;;
  match d_pServer x with
  | Some _ => door_wake d DOOR_TAG_SERVER 1
  | None => pret tt
  end.

(** Has the holder of the slot exited? *)
Definition thr_gone (h : nat) : prog door_mem bool :=
  m <- pget ;;
  match g_aThreads (dm_thr m) !! h with
  | None => pfault
  | Some p => pret (bool_decide (u32State p = GJ_THR_EXITED) || (u32Id p =? 0))
  end.

(** The first loop of [door_call_timeout], up to [schedule], and what follows a
    successful claim.  A holder that has exited is removed and the claim tried
    again; [fuel] turns are left. *)
Fixpoint call_claim (fuel : nat) (d : objp) (cur : nat) (regs : gj_linux_regs) (deadline : Z) (ready : bool) (now : Z) :
    prog door_mem call_res :=
  match fuel with
  | O => pfault
  | S f =>
      lv <- door_live (Some d) ;;
      if negb lv then call_fail "g_u64SoftCallEio" LINUX_EIO else
      if call_expired deadline ready now then
        upd_door d count_timeout ;;; call_fail "g_u64SoftCallEtimedout" LINUX_ETIMEDOUT
      else
      x <- ld_door d ;;
      match d_pClient x with
      | None =>
          upd_door d (with_client (Some cur)) ;;;
          call_post d regs ;;;
          call_wait d cur deadline ready now
      | Some h =>
          gone <- thr_gone h ;;
          if (gone : bool) then door_on_thread_exit (Some h) ;;; call_claim f d cur regs deadline ready now else
          tick64 "g_u64SoftCallSlotWait" ;;;
          door_block cur d DOOR_TAG_SLOT ;;;
          x <- ld_door d ;;
          lv <- door_live (Some d) ;;
          (if bool_decide (d_pClient x = None) || negb lv then door_wake d DOOR_TAG_SLOT 1 else pret tt) ;;;
          pret CallSlot
      end
  end.

(** Two turns: a holder that has exited and can be removed is gone after one. *)
Definition CLAIM_FUEL : nat := 2.

Definition door_call_timeout (pDoor : option objp) (pRegs : option gj_linux_regs) (deadline : Z) (cur : option nat)
    (ready : bool) (now : Z) : prog door_mem call_res :=
  tick64 "g_u64SoftCallEnter" ;;;
  match pDoor, pRegs with
  | Some d, Some regs =>
      x <- ld_door d ;;
      if negb (d_u32Ready x) then call_fail "g_u64SoftCallEnosys" LINUX_ENOSYS else
      lv <- door_live pDoor ;;
      if negb lv then call_fail "g_u64SoftCallEio" LINUX_EIO else
      match cur with
      | None => call_fail "g_u64SoftCallEnosys" LINUX_ENOSYS
      | Some c => call_claim CLAIM_FUEL d c regs deadline ready now
      end
  | _, _ => call_fail "g_u64SoftCallEnosys" LINUX_ENOSYS
  end.

Definition door_call (pDoor : option objp) (pRegs : option gj_linux_regs) (cur : option nat) (ready : bool) (now : Z) :=
  door_call_timeout pDoor pRegs 0 cur ready now.

(** ** Receive and reply *)
Inductive recv_res : Type :=
| RecvOk (r : gj_linux_regs)   (** 0, with the request *)
| RecvErr (st : gj_status)
| RecvForeign                  (** parked behind another thread's service *)
| RecvWait.                    (** parked as the server *)

(** The loop of [door_recv], up to [schedule]. *)
Definition recv_loop (d : objp) (cur : nat) : prog door_mem recv_res :=
  lv <- door_live (Some d) ;;
  if negb lv then
    x <- ld_door d ;;
    (if bool_decide (d_pServer x = Some cur) then door_clear_serve (Some d) else pret tt) ;;;
    tick64 "g_u64SoftRecvPeerDead" ;;;
    pret (RecvErr GJ_ERR_PEER_DEAD)
  else
  x <- ld_door d ;;
  if d_u32HasReq x && (bool_decide (d_pServer x = None) || bool_decide (d_pServer x = Some cur)) then
    door_store_has_req (Some d) false ;;;
    upd_door d (with_server (Some cur)) ;;;
    tick64 "g_u64SoftServeHold" ;;;
    tick64 "g_u64SoftRecvOk" ;;;
    pret (RecvOk (d_req x))
  else if bool_decide (is_Some (d_pServer x)) && negb (bool_decide (d_pServer x = Some cur)) && bool_decide (is_Some (d_pClient x)) then
    tick64 "g_u64SoftRecvBlock" ;;;
    door_block cur d DOOR_TAG_SERVER ;;;
    y <- ld_door d ;;
    lv <- door_live (Some d) ;;
    (if d_u32HasReq y || negb lv || bool_decide (d_pServer y = None) then door_wake d DOOR_TAG_SERVER 1 else pret tt) ;;;
    pret RecvForeign
  else
  upd_door d (with_server (Some cur)) ;;;
  tick64 "g_u64SoftRecvBlock" ;;;
  door_block cur d DOOR_TAG_SERVER ;;;
  y <- ld_door d ;;
  lv <- door_live (Some d) ;;
  (if d_u32HasReq y || negb lv then door_wake d DOOR_TAG_SERVER 1 else pret tt) ;;;
  pret RecvWait.

(** After [schedule]: the server mark is dropped when nothing came. *)
Definition recv_resume (d : objp) (cur : nat) (foreign : bool) : prog door_mem recv_res :=
  (if foreign then pret tt else
   x <- ld_door d ;;
   if bool_decide (d_pServer x = Some cur) && negb (d_u32HasReq x) && bool_decide (d_pClient x = None)
   then upd_door d (with_server None) else pret tt) ;;;
  recv_loop d cur.

Definition door_recv (pDoor : option objp) (pRegs : bool) (cur : option nat) : prog door_mem recv_res :=
  tick64 "g_u64SoftRecvEnter" ;;;
  let inval := tick64 "g_u64SoftRecvInval" ;;; pret (RecvErr GJ_ERR_INVAL) in
  match pDoor with
  | None => inval
  | Some d =>
      if negb pRegs then inval else
      x <- ld_door d ;;
      if negb (d_u32Ready x) then inval else
      lv <- door_live pDoor ;;
      if negb lv then tick64 "g_u64SoftRecvPeerDead" ;;; pret (RecvErr GJ_ERR_PEER_DEAD) else
      match cur with None => inval | Some c => recv_loop d c end
  end.

Definition door_reply (pDoor : option objp) (ret : Z) (cur : option nat) : prog door_mem unit :=
  tick64 "g_u64SoftReplyEnter" ;;;
  match pDoor with
  | None => tick64 "g_u64SoftReplyNotReady"
  | Some d =>
      x <- ld_door d ;;
      if negb (d_u32Ready x) then tick64 "g_u64SoftReplyNotReady" else
      match d_pClient x with
      | None =>
          tick64 "g_u64SoftReplyStale" ;;;
          if bool_decide (is_Some cur) && bool_decide (d_pServer x = cur) then
            door_clear_serve pDoor ;;; door_wake d DOOR_TAG_SERVER 1
          else pret tt
      | Some _ =>
          ok <- door_reply_soft_try_consume pDoor ;;
          if negb ok then tick64 "g_u64SoftReplyStale" else
          upd_door d (with_reply ret) ;;;
          door_store_has_reply pDoor true ;;;
          upd_door d count_reply ;;;
          tick64 "g_u64SoftReplyOk" ;;;
          door_clear_serve pDoor ;;;
          door_wake d DOOR_TAG_CLIENT 1 ;;;
          door_wake d DOOR_TAG_SERVER 1
      end
  end.

(** ** Endpoint capabilities *)
Definition door_install_endpoint (pProc : option (option cnp)) (pDoor : option objp) (rights : Z) (pOutRef : bool) :
    prog door_mem (gj_status * option gj_cap_ref) :=
  match pProc, pDoor with
  | Some (Some c), Some d =>
      if negb pOutRef then
        tick64 "g_u64SoftInstallFail" ;;; tick64 "g_u64SoftInstallFailNull" ;;; pret (GJ_ERR_INVAL, None)
      else
      lv <- door_live pDoor ;;
      if negb lv then tick64 "g_u64SoftInstallFail" ;;; tick64 "g_u64SoftInstallFailDead" ;;; pret (GJ_ERR_NODEV, None) else
      let rights := if rights =? 0 then Z.lor (Z.lor GJ_RIGHT_READ GJ_RIGHT_GRANT) GJ_RIGHT_IDENTIFY else rights in
      r <- on_cap (gj_cap_alloc_install cdt_soft_inventory_maybe_once (Some c) GJ_CAP_ENDPOINT rights (Some d) true) ;;
      (if bool_decide (fst r = GJ_OK) then tick64 "g_u64SoftInstallOk"
       else tick64 "g_u64SoftInstallFail" ;;; tick64 "g_u64SoftInstallFailCap") ;;;
      pret r
  | _, _ => tick64 "g_u64SoftInstallFail" ;;; tick64 "g_u64SoftInstallFailNull" ;;; pret (GJ_ERR_INVAL, None)
  end.
