(* ===== verification/DoorProofs.v ===== *)
(** The door operations as changes of one door, of its reply right and of the
    threads they wake. *)
From stdpp Require Import base gmap list strings.
From Stdlib Require Import ZArith Lia.
From S2P Require Import Prelude CapTypes CapCnode CapRevoke CapLean LinuxAbi Thread ThreadProofs KernObj Door.

(** ** Reply rights *)

(** The right of a door: [Some true] while it can be used. *)
Definition right_of (l : list door_reply_soft) (d : objp) : option bool :=
  i ← find_from (fun r => bool_decide (rp_pDoor r = Some d)) 0 l;
  r ← l !! i;
  Some (rp_u32Live r && negb (rp_u32Consumed r)).

Lemma find_reply_pdoor d l l' k :
  rp_pDoor <$> l' = rp_pDoor <$> l ->
  find_from (fun r => bool_decide (rp_pDoor r = Some d)) k l' = find_from (fun r => bool_decide (rp_pDoor r = Some d)) k l.
Proof.
  revert l' k. induction l as [|r l IH]; intros [|r' l'] k E; simplify_eq/=; [done|].
  rewrite H. destruct (bool_decide _); [done|]. by apply IH.
Qed.

Lemma find_reply_spec d l i :
  find_from (fun r => bool_decide (rp_pDoor r = Some d)) 0 l = Some i -> exists r, l !! i = Some r /\ rp_pDoor r = Some d.
Proof.
  intros E. apply find_from_Some in E as (j & r & -> & Ej & Hr & _). exists r. split; [done|]. by apply bool_decide_eq_true in Hr.
Qed.

Lemma right_set d l i r r' :
  find_from (fun r => bool_decide (rp_pDoor r = Some d)) 0 l = Some i -> l !! i = Some r -> rp_pDoor r' = rp_pDoor r ->
  right_of (<[i := r']> l) d = Some (rp_u32Live r' && negb (rp_u32Consumed r')) /\
  (forall d', d' <> d -> right_of (<[i := r']> l) d' = right_of l d') /\
  rp_pDoor <$> <[i := r']> l = rp_pDoor <$> l.
Proof.
  intros Ef Ei Hr. pose proof (lookup_lt_Some _ _ _ Ei) as Hi.
  assert (rp_pDoor <$> <[i := r']> l = rp_pDoor <$> l) as Hp.
  { rewrite list_fmap_insert. apply list_insert_id. by rewrite list_lookup_fmap, Ei, Hr. }
  destruct (find_reply_spec d l i Ef) as (r0 & Er0 & Hr0). rewrite Ei in Er0. injection Er0 as <-.
  split_and!; [| |done].
  - unfold right_of. rewrite (find_reply_pdoor d l _ 0 Hp), Ef. simpl. by rewrite list_lookup_insert_eq.
  - intros d' Hd. unfold right_of. rewrite (find_reply_pdoor d' l _ 0 Hp).
    destruct (find_from (fun r => bool_decide (rp_pDoor r = Some d')) 0 l) as [j|] eqn:Ej; [|done]. simpl.
    destruct (find_reply_spec d' l j Ej) as (q & Eq & Hq). rewrite list_lookup_insert_ne; [done|]. intros ->. congruence.
Qed.

(** ** One door changes *)
Definition dthreads (m : door_mem) : list gj_thread := g_aThreads (dm_thr m).

(** At most one thread sleeps as the client of the door. *)
Definition sole (d : objp) (m : door_mem) : Prop :=
  forall i j, asleep_on (dthreads m) i (door_key d) DOOR_TAG_CLIENT ->
    asleep_on (dthreads m) j (door_key d) DOOR_TAG_CLIENT -> i = j.

(** From [m0] to [m] the door [d] has become [x], its reply right is [rt], some
    sleepers were woken, and nothing else has changed; with [up], the client of
    the door is awake. *)
Record dres (d : objp) (x : gj_door) (rt : option bool) (up : bool) (m0 m : door_mem) : Prop := {
  dr_doors : dm_doors m = <[d := x]> (dm_doors m0);
  dr_cap : dm_cap m = dm_cap m0;
  dr_lean : g_fLeanResidualOnce m = g_fLeanResidualOnce m0;
  dr_thr : wakes (dthreads m0) (dthreads m);
  dr_rep : rp_pDoor <$> g_aReplySoft m = rp_pDoor <$> g_aReplySoft m0;
  dr_right : forall d', d' <> d -> right_of (g_aReplySoft m) d' = right_of (g_aReplySoft m0) d';
  dr_own : right_of (g_aReplySoft m) d = rt;
  dr_up : up = true -> sole d m0 -> forall i, ~ asleep_on (dthreads m) i (door_key d) DOOR_TAG_CLIENT }.

Lemma dres_refl d x m : dm_doors m !! d = Some x -> dres d x (right_of (g_aReplySoft m) d) false m m.
Proof. intros E. split; try done. by rewrite insert_id. Qed.

Lemma dres_door d x rt up m0 m : dres d x rt up m0 m -> dm_doors m !! d = Some x.
Proof. intros []. rewrite dr_doors0. by rewrite lookup_insert_eq. Qed.

(** Tables of the right size. *)
Definition dsized (m : door_mem) : Prop :=
  length (dthreads m) = GJ_MAX_THREADS /\ length (g_aReplySoft m) = DOOR_REPLY_SOFT_SLOTS.

Lemma dres_sized d x rt up m0 m : dres d x rt up m0 m -> dsized m0 -> dsized m.
Proof.
  intros [] [H1 H2]. destruct dr_thr0 as [Hl _]. split; [congruence|].
  apply (f_equal length) in dr_rep0. rewrite !length_fmap in dr_rep0. congruence.
Qed.

(** The same tables and threads. *)
Lemma dres_same d x f rt up m0 m m' :
  dres d x rt up m0 m -> dm_doors m' = <[d := f x]> (dm_doors m) -> dm_cap m' = dm_cap m ->
  g_fLeanResidualOnce m' = g_fLeanResidualOnce m -> dthreads m' = dthreads m -> g_aReplySoft m' = g_aReplySoft m ->
  dres d (f x) rt up m0 m'.
Proof.
  intros [] E1 E2 E3 E4 E5. split; try congruence.
  - rewrite E1, dr_doors0. by rewrite insert_insert_eq.
  - intros d' Hd. rewrite E5. auto.
  - intros Hu Hs. rewrite E4. auto.
Qed.

Section Rules.
Context (d : objp) (m0 : door_mem) (Hsz : dsized m0).

Lemma wp_ld x rt up m Q : dres d x rt up m0 m -> Q x m -> wp (ld_door d) Q m.
Proof. intros H HQ. unfold ld_door. apply wp_bind, wp_get. rewrite (dres_door _ _ _ _ _ _ H). by apply wp_ret. Qed.

Lemma wp_upd f x rt up m (Q : unit -> door_mem -> Prop) :
  dres d x rt up m0 m -> (forall m', dres d (f x) rt up m0 m' -> dthreads m' = dthreads m -> Q tt m') ->
  wp (upd_door d f) Q m.
Proof.
  intros H HQ. unfold upd_door. apply wp_bind, wp_get. rewrite (dres_door _ _ _ _ _ _ H). apply wp_put.
  apply HQ; [|done]. by eapply dres_same.
Qed.

Lemma wp_set_req v x rt up m (Q : unit -> door_mem -> Prop) :
  dres d x rt up m0 m -> (forall m', dres d (with_has v (d_u32HasReply x) x) rt up m0 m' -> dthreads m' = dthreads m -> Q tt m') ->
  wp (door_store_has_req (Some d) v) Q m.
Proof. intros H HQ. unfold door_store_has_req. eapply wp_upd; [exact H|exact HQ]. Qed.

Lemma wp_set_rep v x rt up m (Q : unit -> door_mem -> Prop) :
  dres d x rt up m0 m -> (forall m', dres d (with_has (d_u32HasReq x) v x) rt up m0 m' -> dthreads m' = dthreads m -> Q tt m') ->
  wp (door_store_has_reply (Some d) v) Q m.
Proof. intros H HQ. unfold door_store_has_reply. eapply wp_upd; [exact H|exact HQ]. Qed.

Lemma wp_get_rep x rt up m Q : dres d x rt up m0 m -> Q (d_u32HasReply x) m -> wp (door_load_has_reply (Some d)) Q m.
Proof. intros H HQ. unfold door_load_has_reply. apply wp_bind. eapply wp_ld; [done|]. by apply wp_ret. Qed.

Lemma wp_tk s x rt up m (Q : unit -> door_mem -> Prop) :
  dres d x rt up m0 m -> (forall m', dres d x rt up m0 m' -> dthreads m' = dthreads m -> Q tt m') -> wp (tick64 s) Q m.
Proof. intros H HQ. apply wp_tick64. by apply HQ. Qed.

(** A wake on the door. *)
Lemma wp_wk tag max x rt up m (Q : unit -> door_mem -> Prop) :
  dres d x rt up m0 m -> 1 <= max ->
  (forall m', dres d x rt (up || (tag =? DOOR_TAG_CLIENT)) m0 m' -> Q tt m') -> wp (door_wake d tag max) Q m.
Proof.
  intros H Hmax HQ. pose proof (dres_sized _ _ _ _ _ _ H Hsz) as [Hl _]. unfold door_wake.
  apply wp_bind, wp_on_threads, wp_thread_wake; [done|lia|]. apply wp_ret. apply HQ. destruct H.
  split; try done.
  - etrans; [exact dr_thr0|apply wakes_ref].
  - intros Hu Hs i. change (dthreads _) with (wake_ref (door_key d) tag max 0 (dthreads m)).
    apply orb_true_iff in Hu as [Hu|Hu].
    + intros Ha. eapply (dr_up0 Hu Hs i). eapply asleep_wakes; [apply wakes_ref|exact Ha].
    + apply Z.eqb_eq in Hu as ->. apply wake_only_ge; [done|done|]. intros a b Ha Hb. apply Hs; by eapply asleep_wakes.
Qed.

(** ** The operations *)
Lemma wp_clear x rt up m (Q : unit -> door_mem -> Prop) :
  dres d x rt up m0 m -> (forall m', dres d (with_server None x) rt up m0 m' -> Q tt m') -> wp (door_clear_serve (Some d)) Q m.
Proof.
  intros H HQ. unfold door_clear_serve. apply wp_bind. eapply wp_ld; [done|].
  destruct (d_pServer x) as [s|] eqn:Es.
  - apply wp_bind. eapply wp_upd; [done|]. intros m' Hd _. by apply wp_tick64, HQ.
  - apply wp_ret. apply HQ. assert (with_server None x = x) as -> by (destruct x; simpl in *; by subst). done.
Qed.

Lemma wp_st_reply x rt up m i r r' (Q : unit -> door_mem -> Prop) :
  dres d x rt up m0 m -> door_reply_soft_find m (Some d) = Some i -> g_aReplySoft m !! i = Some r ->
  rp_pDoor r' = rp_pDoor r ->
  (forall m', dres d x (Some (rp_u32Live r' && negb (rp_u32Consumed r'))) up m0 m' -> Q tt m') ->
  wp (st_reply i r') Q m.
Proof.
  intros [] Ef Ei Hr HQ. unfold st_reply. apply wp_bind, wp_get. rewrite Ei. apply wp_put.
  destruct (right_set d (g_aReplySoft m) i r r' Ef Ei Hr) as (H1 & H2 & H3).
  apply HQ. split; try done; cbn [set_replies g_aReplySoft]; [congruence|]. intros d' Hd. by rewrite H2, dr_right0.
Qed.

(** Spending or cancelling a right. *)
Definition spent (o : option bool) : option bool := match o with Some _ => Some false | None => None end.

Lemma right_found m i r :
  door_reply_soft_find m (Some d) = Some i -> g_aReplySoft m !! i = Some r ->
  right_of (g_aReplySoft m) d = Some (rp_u32Live r && negb (rp_u32Consumed r)).
Proof. unfold door_reply_soft_find, right_of. intros -> Ei. simpl. by rewrite Ei. Qed.

Lemma right_none m : door_reply_soft_find m (Some d) = None -> right_of (g_aReplySoft m) d = None.
Proof. unfold door_reply_soft_find, right_of. by intros ->. Qed.

Lemma wp_inval w x rt up m (Q : unit -> door_mem -> Prop) :
  dres d x rt up m0 m -> (forall m', dres d x (spent rt) up m0 m' -> Q tt m') ->
  wp (door_reply_soft_invalidate (Some d) w) Q m.
Proof.
  intros H HQ. pose proof (dr_own _ _ _ _ _ _ H) as Ho. unfold door_reply_soft_invalidate. apply wp_bind, wp_get.
  destruct (door_reply_soft_find m (Some d)) as [i|] eqn:Ef.
  2:{ apply wp_ret. rewrite (right_none m Ef) in Ho. subst rt. by apply HQ. }
  destruct (find_reply_spec d _ i Ef) as (r & Ei & Hr). apply wp_bind. unfold ld_reply. apply wp_bind, wp_get.
  rewrite Ei. apply wp_ret. apply wp_bind.
  apply (wp_mono _ (fun _ m' => m' = m)); [destruct (_ || _); by wsteps|]. intros _ ? ->.
  eapply wp_st_reply; [done|done|done|done|]. intros m' Hd. apply HQ. rewrite (right_found m i r Ef Ei) in Ho. by subst rt.
Qed.

Lemma wp_consume x rt up m (Q : bool -> door_mem -> Prop) :
  dres d x rt up m0 m -> (forall m', dres d x (spent rt) up m0 m' -> Q (default true rt) m') ->
  wp (door_reply_soft_try_consume (Some d)) Q m.
Proof.
  intros H HQ. pose proof (dr_own _ _ _ _ _ _ H) as Ho. unfold door_reply_soft_try_consume. apply wp_bind, wp_get.
  destruct (door_reply_soft_find m (Some d)) as [i|] eqn:Ef.
  2:{ rewrite (right_none m Ef) in Ho. subst rt. wsteps. by apply HQ. }
  destruct (find_reply_spec d _ i Ef) as (r & Ei & Hr). apply wp_bind. unfold ld_reply. apply wp_bind, wp_get.
  rewrite Ei. apply wp_ret. rewrite (right_found m i r Ef Ei) in Ho. subst rt. simpl in HQ.
  destruct (rp_u32Live r) eqn:El, (rp_u32Consumed r) eqn:Ec; cbn [negb orb andb] in *; try (wsteps; by apply HQ).
  apply wp_bind. eapply wp_st_reply; [done|done|done|done|]. intros m' Hd. wsteps. by apply HQ.
Qed.

(** Is a door with this header live? *)
Definition alive (m : door_mem) (x : gj_door) : bool :=
  d_u32Ready x && (from_option hdr_u32State 0 (m_objs (dm_cap m) !! d) =? GJ_OBJ_LIVE) && negb (d_u32PeerDead x).

Lemma wp_live x rt up m (Q : bool -> door_mem -> Prop) :
  dres d x rt up m0 m -> is_Some (m_objs (dm_cap m0) !! d) -> Q (alive m0 x) m -> wp (door_live (Some d)) Q m.
Proof.
  intros H [h Eh] HQ. unfold door_live. apply wp_bind. eapply wp_ld; [done|]. revert HQ. unfold alive. rewrite Eh. cbn [from_option].
  destruct (d_u32Ready x); cbn [negb andb]; [|intros HQ; by apply wp_ret]. intros HQ. apply wp_bind.
  eapply wp_cap_load; [cbn; rewrite (dr_cap _ _ _ _ _ _ H); exact Eh|]. revert HQ. destruct (hdr_u32State h =? GJ_OBJ_LIVE); cbn [negb andb]; [|intros; by apply wp_ret].
  destruct (d_u32PeerDead x); intros; by apply wp_ret.
Qed.

Lemma wp_maybe x rt up m (Q : unit -> door_mem -> Prop) :
  dres d x rt up m0 m -> g_fLeanResidualOnce m0 = true ->
  (forall m', dres d x rt up m0 m' -> dthreads m' = dthreads m -> Q tt m') -> wp door_soft_maybe_once Q m.
Proof.
  intros H Hl HQ. pose proof (dr_lean _ _ _ _ _ _ H) as Hl'. unfold door_soft_maybe_once, lean_residual_guard.
  wsteps. destruct (g_fSoftOnce m); [wsteps; by apply HQ|]. apply wp_bind, wp_tel. intros t. case_match; wsteps; [by apply HQ|]. simpl.
  rewrite Hl', Hl. wsteps. apply HQ; [|done]. destruct H. by split.
Qed.
End Rules.
