(* ===== verification/DoorOps.v ===== *)
(** Release, cancellation, death and exit as functions on one door. *)
From stdpp Require Import base gmap list strings.
From Stdlib Require Import ZArith Lia.
From S2P Require Import Prelude CapTypes CapCnode CapRevoke CapLean LinuxAbi Thread ThreadProofs KernObj Door DoorProofs.

Definition px_release (cur : nat) (x : gj_door) : gj_door :=
  if bool_decide (d_pClient x = Some cur) then with_client None x else x.
Definition px_cancel (cur : nat) (x : gj_door) : gj_door := px_release cur (with_has false false x).
Definition px_answer (v : Z) (x : gj_door) : gj_door := with_has (d_u32HasReq x) true (with_reply v x).
Definition px_abort (x : gj_door) : gj_door :=
  let y := count_abort (with_life (d_u32Ready x) true x) in
  with_server None (match d_pClient x with None => y | Some _ => px_answer (- LINUX_EIO) y end).

(** The server [t] of an unanswered flight dies. *)
Definition deserts (t : nat) (x : gj_door) : bool :=
  bool_decide (d_pServer x = Some t) && bool_decide (is_Some (d_pClient x)) && negb (d_u32HasReply x).
Definition px_cli_exit (t : nat) (x : gj_door) : gj_door :=
  if bool_decide (d_pClient x = Some t)
  then with_server None (count_abort (with_reply (- LINUX_EIO) (with_has false false (with_client None x)))) else x.
Definition px_srv_exit (t : nat) (x : gj_door) : gj_door :=
  if bool_decide (d_pServer x = Some t)
  then with_server None (if deserts t x then count_abort (px_answer (- LINUX_EIO) (with_has false (d_u32HasReply x) x)) else x)
  else x.
Definition px_exit (t : nat) (x : gj_door) : gj_door := px_srv_exit t (px_cli_exit t x).
Definition rt_exit (t : nat) (x : gj_door) (rt : option bool) : option bool :=
  if bool_decide (d_pClient x = Some t) || deserts t x then spent rt else rt.
Definition up_exit (t : nat) (x : gj_door) : bool := bool_decide (d_pClient x = Some t) || deserts t x.

(** Symbolic execution of the rules on one door. *)
Ltac dnext H :=
  clear H; let m' := fresh "m" in let D := fresh "D" in intros m' D; try (intros _); cbn beta.
Ltac dgo1 :=
  lazymatch goal with
  | |- wp (pbind _ _) _ _ => apply wp_bind
  | |- wp (pret _) _ _ => apply wp_ret
  | |- wp (tick64 _) _ _ => apply wp_tick64
  | H : dres _ _ _ _ _ ?m |- wp ?c _ ?m =>
      lazymatch c with
      | ld_door _ => eapply wp_ld; [exact H|]
      | upd_door _ _ => eapply wp_upd; [exact H|]; dnext H
      | door_store_has_req _ _ => eapply wp_set_req; [exact H|]; dnext H
      | door_store_has_reply _ _ => eapply wp_set_rep; [exact H|]; dnext H
      | door_load_has_reply _ => eapply wp_get_rep; [exact H|]
      | door_wake _ _ _ => eapply wp_wk; [eassumption|exact H|lia|]; dnext H
      | door_clear_serve _ => eapply wp_clear; [exact H|]; dnext H
      | door_reply_soft_invalidate _ _ => eapply wp_inval; [exact H|]; dnext H
      | door_reply_soft_try_consume _ => eapply wp_consume; [exact H|]; dnext H
      | door_live _ => eapply wp_live; [exact H|eassumption|]
      | door_soft_maybe_once => eapply wp_maybe; [exact H|eassumption|]; dnext H
      end
  end; cbv beta zeta.
Ltac dgo := repeat dgo1.

Section Ops.
Context (d : objp) (m0 : door_mem) (Hsz : dsized m0).

Lemma wp_release cur x rt up m (Q : unit -> door_mem -> Prop) :
  dres d x rt up m0 m -> (forall m', dres d (px_release cur x) rt up m0 m' -> Q tt m') ->
  wp (door_release_client_slot (Some d) cur) Q m.
Proof.
  intros H HQ. unfold door_release_client_slot, px_release in *. dgo. case_bool_decide; dgo; rewrite orb_false_r in *; by apply HQ.
Qed.

Lemma wp_cancel cur x rt up m (Q : unit -> door_mem -> Prop) :
  dres d x rt up m0 m -> (forall m', dres d (px_cancel cur x) (spent rt) up m0 m' -> Q tt m') ->
  wp (door_cancel_inflight (Some d) cur) Q m.
Proof.
  intros H HQ. unfold door_cancel_inflight. dgo. eapply wp_release; [done..|]. intros m' D'. dgo. rewrite orb_false_r in *. by apply HQ.
Qed.

Lemma wp_abort x rt up m (Q : unit -> door_mem -> Prop) :
  dres d x rt up m0 m ->
  (forall m', dres d (px_abort x) (spent rt) (up || bool_decide (is_Some (d_pClient x))) m0 m' -> Q tt m') ->
  wp (door_abort_waiters (Some d)) Q m.
Proof.
  intros H HQ. unfold door_abort_waiters, px_abort in *. dgo.
  change (d_pClient (count_abort _)) with (d_pClient x). destruct (d_pClient x) as [c|]; dgo;
    rewrite ?orb_false_r in *; by apply HQ.
Qed.

Lemma wp_srv_exit t x rt up m (Q : unit -> door_mem -> Prop) :
  dres d x rt up m0 m ->
  (forall m', dres d (px_srv_exit t x) (if deserts t x then spent rt else rt) (up || deserts t x) m0 m' -> Q tt m') ->
  wp (door_thr_exit_server_role (Some d) (Some t)) Q m.
Proof.
  intros H HQ. unfold door_thr_exit_server_role, px_srv_exit, deserts in *. dgo.
  case_bool_decide; cbn [negb andb] in *; [|dgo; rewrite orb_false_r in HQ; by apply HQ]. dgo.
  destruct (bool_decide (is_Some (d_pClient x)) && negb (d_u32HasReply x)); dgo; rewrite ?orb_false_r in *; by apply HQ.
Qed.

Lemma wp_exit_one t x rt up m (Q : unit -> door_mem -> Prop) :
  dres d x rt up m0 m ->
  (forall m', dres d (px_exit t x) (rt_exit t x rt) (up || up_exit t x) m0 m' -> Q tt m') ->
  wp (door_thr_exit_one (Some d) (Some t)) Q m.
Proof.
  intros H HQ. unfold door_thr_exit_one, rt_exit, up_exit, px_exit, px_cli_exit in *. dgo.
  case_bool_decide as Hc; cbn [orb] in *; dgo; (eapply wp_srv_exit; [eassumption|]; intros m' D'; rewrite ?orb_false_r in *).
  - rewrite orb_true_r in *. by apply HQ.
  - by apply HQ.
Qed.
End Ops.

(** ** The exit of a thread, on every door it may hold *)

(** From [m0] to [m] the thread [t] has left the doors of [done]. *)
Record xres (t : nat) (done : list objp) (m0 m : door_mem) : Prop := {
  xr_doors : forall d, dm_doors m !! d = (fun x => if bool_decide (d ∈ done) then px_exit t x else x) <$> dm_doors m0 !! d;
  xr_cap : dm_cap m = dm_cap m0;
  xr_lean : g_fLeanResidualOnce m = g_fLeanResidualOnce m0;
  xr_thr : wakes (dthreads m0) (dthreads m);
  xr_rep : rp_pDoor <$> g_aReplySoft m = rp_pDoor <$> g_aReplySoft m0;
  xr_right : forall d x, dm_doors m0 !! d = Some x -> right_of (g_aReplySoft m) d =
    if bool_decide (d ∈ done) then rt_exit t x (right_of (g_aReplySoft m0) d) else right_of (g_aReplySoft m0) d;
  xr_up : forall d x, d ∈ done -> dm_doors m0 !! d = Some x -> up_exit t x = true -> sole d m0 ->
    forall i, ~ asleep_on (dthreads m) i (door_key d) DOOR_TAG_CLIENT }.

Lemma xres_refl t m : xres t [] m m.
Proof.
  split; try done. 2:{ intros d x Hd. by apply not_elem_of_nil in Hd. }
  intros d. rewrite bool_decide_false by apply not_elem_of_nil. by destruct (dm_doors m !! d).
Qed.

Lemma xres_sized t done m0 m : xres t done m0 m -> dsized m0 -> dsized m.
Proof.
  intros [] [H1 H2]. destruct xr_thr0 as [Hl _]. split; [congruence|].
  apply (f_equal length) in xr_rep0. rewrite !length_fmap in xr_rep0. congruence.
Qed.

Lemma xres_step t done d x m0 m m' :
  xres t done m0 m -> d ∉ done -> dm_doors m0 !! d = Some x ->
  dres d (px_exit t x) (rt_exit t x (right_of (g_aReplySoft m) d)) (up_exit t x) m m' -> xres t (d :: done) m0 m'.
Proof.
  intros [] Hd E []. split; try congruence.
  - intros d'. rewrite dr_doors. destruct (decide (d = d')) as [<-|Hne].
    + rewrite lookup_insert_eq, E, bool_decide_true; [done|]. by left.
    + rewrite lookup_insert_ne, xr_doors0 by done. destruct (dm_doors m0 !! d') as [y|]; [|done]. cbn.
      rewrite (bool_decide_ext (d' ∈ done) (d' ∈ d :: done)); [done|]. rewrite elem_of_cons. naive_solver.
  - by etrans.
  - intros d' y Ey. destruct (decide (d = d')) as [<-|Hne].
    + rewrite bool_decide_true by (by left). rewrite E in Ey. injection Ey as <-. rewrite dr_own, (xr_right0 d x E).
      by rewrite bool_decide_false.
    + rewrite dr_right, (xr_right0 d' y Ey) by done.
      rewrite (bool_decide_ext (d' ∈ done) (d' ∈ d :: done)); [done|]. rewrite elem_of_cons. naive_solver.
  - intros d' y Hin Ey Hu Hs i. destruct (decide (d = d')) as [<-|Hne].
    + rewrite E in Ey. injection Ey as <-. apply dr_up; [done|]. intros a b Ha Hb. apply Hs; by eapply asleep_wakes.
    + apply elem_of_cons in Hin as [->|Hin]; [done|]. intros Ha. apply (xr_up0 d' y Hin Ey Hu Hs i). by eapply asleep_wakes.
Qed.

Lemma wp_exit_step t done d x m0 m (Q : unit -> door_mem -> Prop) :
  dsized m0 -> xres t done m0 m -> d ∉ done -> dm_doors m0 !! d = Some x ->
  (forall m', xres t (d :: done) m0 m' -> Q tt m') -> wp (door_thr_exit_one (Some d) (Some t)) Q m.
Proof.
  intros Hsz Hx Hd E HQ. pose proof (xres_sized _ _ _ _ Hx Hsz) as Hsz'.
  assert (dm_doors m !! d = Some x) as E'.
  { rewrite (xr_doors _ _ _ _ Hx), E. simpl. by rewrite bool_decide_false. }
  eapply wp_exit_one; [exact Hsz'|apply dres_refl, E'|]. intros m' D. apply HQ. by eapply xres_step.
Qed.

(** The doors of the table exist. *)
Definition bound_in (m : door_mem) : Prop :=
  forall i r d, g_aReplySoft m !! i = Some r -> rp_pDoor r = Some d -> is_Some (dm_doors m !! d).

Lemma wp_exit_walk t k : forall i done m0 m (Q : unit -> door_mem -> Prop),
  dsized m0 -> bound_in m0 -> xres t done m0 m -> (i + k = DOOR_REPLY_SOFT_SLOTS)%nat ->
  (forall m' done', xres t done' m0 m' ->
     (forall d, d ∈ done' <-> d ∈ done \/ exists j r, (i <= j)%nat /\ g_aReplySoft m0 !! j = Some r /\ rp_pDoor r = Some d) ->
     Q tt m') ->
  wp (exit_walk (Some t) k i done) Q m.
Proof.
  induction k as [|k IH]; intros i done m0 m Q Hsz Hb Hx Hi HQ; cbn [exit_walk].
  { apply wp_ret. eapply HQ; [exact Hx|]. intros d. split; [by left|]. intros [|(j & r & Hj & Ej & _)]; [done|].
    apply lookup_lt_Some in Ej. destruct Hsz as [_ Hsz]. rewrite Hsz in Ej. lia. }
  destruct (lookup_lt_is_Some_2 (g_aReplySoft m0) i) as [r0 Er0].
  { destruct Hsz as [_ Hsz]. rewrite Hsz. lia. }
  assert (exists r, g_aReplySoft m !! i = Some r /\ rp_pDoor r = rp_pDoor r0) as (r & Er & Hr).
  { pose proof (xr_rep _ _ _ _ Hx) as Hrep. apply (f_equal (.!! i)) in Hrep. rewrite !list_lookup_fmap, Er0 in Hrep.
    destruct (g_aReplySoft m !! i) as [r|]; [|done]. exists r. split; [done|]. by injection Hrep. }
  apply wp_bind. unfold ld_reply. apply wp_bind, wp_get. rewrite Er. apply wp_ret. rewrite Hr.
  assert (forall dn m' (Q' := Q), xres t dn m0 m' ->
    (forall d, d ∈ dn <-> d ∈ done \/ rp_pDoor r0 = Some d) -> wp (exit_walk (Some t) k (S i) dn) Q m') as Hrest.
  { intros dn m' _ Hx' Hdn. eapply IH; [done..|lia|]. intros m'' dn' Hx'' Hdn'. eapply HQ; [exact Hx''|].
    intros d. rewrite Hdn', Hdn. split.
    - intros [[|Hd]|(j & q & Hj & Ej & Hq)]; [by left|right; exists i, r0; auto|right; exists j, q; split; [lia|done]].
    - intros [|(j & q & Hj & Ej & Hq)]; [auto|]. destruct (decide (j = i)) as [->|]; [left; right; congruence|].
      right. exists j, q. split; [lia|done]. }
  destruct (rp_pDoor r0) as [d|] eqn:Ed; [|apply Hrest; [done|]; naive_solver].
  case_bool_decide as Hin; [apply Hrest; [done|]; naive_solver|]. apply wp_bind, wp_tick64, wp_bind.
  destruct (Hb i r0 d Er0 Ed) as [x E]. eapply wp_exit_step; [done..|]. intros m' Hx'. apply Hrest; [done|].
  intros d'. rewrite elem_of_cons. naive_solver.
Qed.

(** The doors an exiting thread is taken off: the cold door and every door that
    has carried a call. *)
Definition swept (m : door_mem) (d : objp) : bool :=
  bool_decide (d = g_doorCold) || bool_decide (is_Some (right_of (g_aReplySoft m) d)).

Lemma bound_right l d :
  is_Some (right_of l d) <-> exists j r, l !! j = Some r /\ rp_pDoor r = Some d.
Proof.
  unfold right_of. split.
  - destruct (find_from (fun r => bool_decide (rp_pDoor r = Some d)) 0 l) as [i|] eqn:Ef; [|by intros []].
    intros _. destruct (find_reply_spec d l i Ef) as (r & Er & Hr). by exists i, r.
  - intros (j & r & Ej & Hr). destruct (find_from (fun r => bool_decide (rp_pDoor r = Some d)) 0 l) as [i|] eqn:Ef.
    + destruct (find_reply_spec d l i Ef) as (q & Eq & _). simpl. rewrite Eq. by eexists.
    + apply (find_from_None _ _ _ Ef) in Ej.
      by apply bool_decide_eq_false in Ej.
Qed.

Lemma wp_thread_exit t m (Q : unit -> door_mem -> Prop) :
  dsized m -> bound_in m -> is_Some (dm_doors m !! g_doorCold) ->
  (forall m' done, xres t done m m' -> (forall d, bool_decide (d ∈ done) = swept m d) -> Q tt m') ->
  wp (door_on_thread_exit (Some t)) Q m.
Proof.
  intros Hsz Hb [x0 Ec] HQ. unfold door_on_thread_exit. apply wp_bind, wp_tick64, wp_bind.
  eapply wp_exit_step; [done|apply xres_refl|apply not_elem_of_nil|exact Ec|]. intros m1 Hx.
  eapply wp_exit_walk; [done|done|exact Hx|done|]. intros m' done Hx' Hd. eapply HQ; [exact Hx'|]. intros d.
  unfold swept. rewrite <-bool_decide_or. apply bool_decide_ext. rewrite Hd, list_elem_of_singleton, bound_right.
  split; [intros [->|(j & r & _ & ?)]; [by left|right; by exists j, r]|].
  intros [->|(j & r & ?)]; [by left|right; exists j, r; split; [lia|done]].
Qed.
