(* ===== verification/DoorInv.v ===== *)
(** The invariant of the doors and of the threads that wait on them, and what it
    takes for a step to keep it. *)
From stdpp Require Import base gmap list strings.
From Stdlib Require Import ZArith Lia.
From S2P Require Import Prelude CapTypes CapCnode CapInv CapRevoke CapLean LinuxAbi Thread ThreadProofs KernObj Door DoorProofs DoorOps.

(** Where a thread inside a door call is parked, with what it needs when it
    runs again. *)
Inductive dpc : Type :=
| PcSlot (d : objp) (r : gj_linux_regs) (deadline : Z)
| PcWait (d : objp) (deadline : Z)
| PcRecv (d : objp) (foreign : bool).

(** ** The reply table *)
Definition table_ok (m : door_mem) : Prop :=
  bound_in m /\ NoDup (omap rp_pDoor (g_aReplySoft m)) /\ (size (dm_doors m) <= DOOR_REPLY_SOFT_SLOTS)%nat.

Lemma omap_pdoor (l : list door_reply_soft) : omap rp_pDoor l = omap id (rp_pDoor <$> l).
Proof. induction l as [|r l IH]; [done|]. cbn. destruct (rp_pDoor r); simpl; by rewrite IH. Qed.

Lemma bound_in_elem m :
  bound_in m <-> forall d, d ∈ omap rp_pDoor (g_aReplySoft m) -> is_Some (dm_doors m !! d).
Proof.
  split.
  - intros H d Hd. apply list_elem_of_omap in Hd as (r & Hr & E). apply list_elem_of_lookup in Hr as [i Ei]. by eapply H.
  - intros H i r d Ei E. apply H. apply list_elem_of_omap. exists r. split; [|done]. by apply list_elem_of_lookup_2 in Ei.
Qed.

Lemma table_ok_same m m' :
  rp_pDoor <$> g_aReplySoft m' = rp_pDoor <$> g_aReplySoft m -> dom (dm_doors m') = dom (dm_doors m) -> table_ok m -> table_ok m'.
Proof.
  intros Hr Hd (H1 & H2 & H3). pose proof (omap_pdoor (g_aReplySoft m')) as E. rewrite Hr, <-omap_pdoor in E.
  split; [|split].
  - apply bound_in_elem. rewrite E. intros d Hin. apply elem_of_dom. rewrite Hd. apply elem_of_dom.
    by apply (proj1 (bound_in_elem m)).
  - by rewrite E.
  - by rewrite <-size_dom, Hd, size_dom.
Qed.

(** ** The invariant *)
Definition pc_waits (pcs : gmap nat dpc) (c : nat) (d : objp) : Prop := exists dl, pcs !! c = Some (PcWait d dl).

Definition hdr_state (m : door_mem) (d : objp) : Z := from_option hdr_u32State 0 (m_objs (dm_cap m) !! d).
Definition hdr_ok (m : door_mem) (d : objp) : Prop :=
  is_Some (m_objs (dm_cap m) !! d) /\ (hdr_state m d = GJ_OBJ_LIVE \/ hdr_state m d = GJ_OBJ_DEAD).

(** What holds of one door: an idle door has no flags; the right of a flight is
    unused exactly while the flight is unanswered; its client is parked for the
    answer or gone; a flight of a dead door is answered; and only the client of
    an unanswered flight sleeps. *)
Record door_ok (pcs : gmap nat dpc) (m : door_mem) (d : objp) (x : gj_door) : Prop := {
  do_idle : d_pClient x = None -> d_u32HasReq x = false /\ d_u32HasReply x = false;
  do_right : forall c, d_pClient x = Some c -> right_of (g_aReplySoft m) d = Some (negb (d_u32HasReply x));
  do_client : forall c, d_pClient x = Some c -> gone (dthreads m) c = true \/ pc_waits pcs c d;
  do_dead : forall c, d_pClient x = Some c -> alive d m x = false -> d_u32HasReply x = true;
  do_pc : forall c, pc_waits pcs c d -> d_pClient x = Some c;
  do_sleep : forall i, asleep_on (dthreads m) i (door_key d) DOOR_TAG_CLIENT -> pc_waits pcs i d /\ d_u32HasReply x = false }.

Record dinv (pcs : gmap nat dpc) (m : door_mem) : Prop := {
  iv_sized : dsized m;
  iv_lean : g_fLeanResidualOnce m = true;
  iv_table : table_ok m;
  iv_cold : is_Some (dm_doors m !! g_doorCold);
  iv_wf : wf (dm_cap m);
  iv_hdr : forall d x, dm_doors m !! d = Some x -> hdr_ok m d;
  iv_door : forall d x, dm_doors m !! d = Some x -> door_ok pcs m d x;
  iv_pc : forall c d, pc_waits pcs c d -> gone (dthreads m) c = false /\ is_Some (dm_doors m !! d);
  iv_tid : forall c d, pc_waits pcs c d -> (c < GJ_MAX_THREADS)%nat;
  iv_park : forall c d o g, pc_waits pcs c d -> asleep_on (dthreads m) c o g -> o = door_key d /\ g = DOOR_TAG_CLIENT }.

(** The client is the only one to sleep. *)
Lemma dinv_sole pcs m d x : dinv pcs m -> dm_doors m !! d = Some x -> sole d m.
Proof.
  intros Hi E i j Ha Hb. pose proof (iv_door _ _ Hi d x E) as Ho.
  destruct (do_sleep _ _ _ _ Ho i Ha) as [Hpi _]. destruct (do_sleep _ _ _ _ Ho j Hb) as [Hpj _].
  apply (do_pc _ _ _ _ Ho) in Hpi, Hpj. congruence.
Qed.

(** A step at one door. *)
Record dmove (d : objp) (x : gj_door) (rt : option bool) (new : option (nat * Z * Z)) (m0 m : door_mem) : Prop := {
  mv_doors : dm_doors m = <[d := x]> (dm_doors m0);
  mv_lean : g_fLeanResidualOnce m = g_fLeanResidualOnce m0;
  mv_thr : tmove new (dthreads m0) (dthreads m);
  mv_reps : length (g_aReplySoft m) = length (g_aReplySoft m0);
  mv_right : forall d', d' <> d -> right_of (g_aReplySoft m) d' = right_of (g_aReplySoft m0) d';
  mv_own : right_of (g_aReplySoft m) d = rt;
  mv_table : table_ok m0 -> table_ok m;
  mv_wf : wf (dm_cap m0) -> wf (dm_cap m);
  mv_hdr : hdr_ok m0 d -> hdr_ok m d;
  mv_hdrs : forall d', d' <> d -> hdr_state m d' = hdr_state m0 d' /\ (is_Some (m_objs (dm_cap m0) !! d') -> is_Some (m_objs (dm_cap m) !! d')) }.

Lemma dom_insert_same (D : gmap objp gj_door) d x x' : D !! d = Some x -> dom (<[d := x']> D) = dom D.
Proof. intros E. apply dom_insert_lookup_L. by eexists. Qed.

Lemma dres_move d x x' rt up m0 m : dres d x' rt up m0 m -> dm_doors m0 !! d = Some x -> dmove d x' rt None m0 m.
Proof.
  intros [] E. split; unfold hdr_ok, hdr_state in *; rewrite ?dr_cap; try done.
  - by apply wakes_tmove.
  - apply (f_equal length) in dr_rep. by rewrite !length_fmap in dr_rep.
  - apply table_ok_same; [done|]. rewrite dr_doors. by eapply dom_insert_same.
Qed.

Lemma dmove_trans d x1 x2 rt1 rt2 new m m1 m2 :
  dmove d x1 rt1 None m m1 -> dmove d x2 rt2 new m1 m2 -> dmove d x2 rt2 new m m2.
Proof.
  intros [] []. split; try congruence; try tauto.
  - rewrite mv_doors1, mv_doors0. by rewrite insert_insert_eq.
  - by eapply tmove_trans.
  - intros d' Hd. rewrite mv_right1, mv_right0 by done. done.
  - intros d' Hd. destruct (mv_hdrs0 d' Hd), (mv_hdrs1 d' Hd). split; [congruence|tauto].
Qed.

Lemma alive_state m m' d x : hdr_state m' d = hdr_state m d -> alive d m' x = alive d m x.
Proof. unfold hdr_state, alive. by intros ->. Qed.

(** What a step at [d] must establish. *)
Lemma dinv_move pcs pcs' d x x' rt new m m' :
  dinv pcs m -> dm_doors m !! d = Some x -> dmove d x' rt new m m' -> door_ok pcs' m' d x' ->
  (forall c d', d' <> d -> pc_waits pcs' c d' <-> pc_waits pcs c d') ->
  (forall c, pc_waits pcs' c d -> gone (dthreads m) c = false /\ (c < GJ_MAX_THREADS)%nat) ->
  (forall i o g, new = Some (i, o, g) -> o = door_key d /\ (forall d', pc_waits pcs' i d' -> d' = d /\ g = DOOR_TAG_CLIENT)) ->
  (forall c o g, pc_waits pcs' c d -> asleep_on (dthreads m) c o g -> o = door_key d /\ g = DOOR_TAG_CLIENT) ->
  dinv pcs' m'.
Proof.
  intros Hi E Hm Hd Hpc Hg Hnew Hpk. pose proof Hi as Hi0. destruct Hi0, Hm. destruct mv_thr0 as [Tl Tg Ts].
  assert (forall d' y, dm_doors m' !! d' = Some y -> d' <> d -> dm_doors m !! d' = Some y) as Hother.
  { intros d' y Ey Hne. by rewrite mv_doors0, lookup_insert_ne in Ey. }
  assert (forall d', is_Some (dm_doors m !! d') -> is_Some (dm_doors m' !! d')) as Hsome.
  { intros d' [y Ey]. rewrite mv_doors0. destruct (decide (d = d')) as [<-|]; [rewrite lookup_insert_eq|rewrite lookup_insert_ne]; by eauto. }
  split; [|congruence|by apply mv_table0|by apply Hsome|by apply mv_wf0|..].
  - destruct iv_sized0. split; congruence.
  - intros d' y Ey. destruct (decide (d' = d)) as [->|Hne]; [apply mv_hdr0; by eapply iv_hdr0|].
    destruct (iv_hdr0 d' y) as [Hs1 Hs2]; [by apply Hother|]. destruct (mv_hdrs0 d' Hne) as [H1 H2].
    unfold hdr_ok. rewrite H1. auto.
  - intros d' y Ey. destruct (decide (d' = d)) as [->|Hne].
    { rewrite mv_doors0, lookup_insert_eq in Ey. by injection Ey as <-. }
    destruct (iv_door0 d' y (Hother d' y Ey Hne)) as [Q1 Q2 Q3 Q4 Q5 Q6]. destruct (mv_hdrs0 d' Hne) as [Hs _].
    split; [done|..].
    + intros c Hc. rewrite mv_right0 by done. by eapply Q2.
    + intros c Hc. rewrite Tg. destruct (Q3 c Hc); [by left|right]. by apply Hpc.
    + intros c Hc. rewrite (alive_state m m' d' y Hs). by eapply Q4.
    + intros c Hc. apply Q5. by apply Hpc.
    + intros i Ha. destruct (Ts _ _ _ Ha) as [Ha'|Hn].
      * destruct (Q6 i Ha'). split; [by apply Hpc|done].
      * destruct (Hnew _ _ _ Hn) as [Hk _]. by injection Hk as ->.
  - intros c d' Hc. rewrite Tg. destruct (decide (d' = d)) as [->|Hne]; [split; [by apply Hg|apply Hsome; by eexists]|].
    apply Hpc in Hc as Hc; [|done]. destruct (iv_pc0 c d' Hc). auto.
  - intros c d' Hc. destruct (decide (d' = d)) as [->|Hne]; [by apply Hg|]. apply Hpc in Hc as Hc; [|done]. by eapply iv_tid0.
  - intros c d' o g Hc Ha. destruct (Ts _ _ _ Ha) as [Ha'|Hn].
    + destruct (decide (d' = d)) as [->|Hne]; [by eapply Hpk|]. apply Hpc in Hc as Hc; [|done]. by eapply iv_park0.
    + destruct (Hnew _ _ _ Hn) as [-> Hk]. destruct (Hk d' Hc) as [-> ->]. done.
Qed.

(** ** Exits *)

(** A door that is not touched, while threads are woken. *)
Lemma door_ok_wakes pcs m m' d x :
  door_ok pcs m d x -> wakes (dthreads m) (dthreads m') -> right_of (g_aReplySoft m') d = right_of (g_aReplySoft m) d ->
  hdr_state m' d = hdr_state m d -> door_ok pcs m' d x.
Proof.
  intros [Q1 Q2 Q3 Q4 Q5 Q6] Hw Hr Hs. pose proof (wakes_tmove _ _ Hw) as []. split; [done|..|done|].
  - intros c Hc. rewrite Hr. by eapply Q2.
  - intros c Hc. rewrite tm_gone. by apply Q3.
  - intros c Hc. rewrite (alive_state m m' d x Hs). by eapply Q4.
  - intros i Ha. apply Q6. by eapply asleep_wakes.
Qed.

Lemma alive_exit t m d x : alive d m (px_exit t x) = alive d m x.
Proof. unfold px_exit, px_srv_exit, px_cli_exit, alive. repeat case_match; done. Qed.

Lemma deserts_client t x : deserts t x = true -> is_Some (d_pClient x) /\ d_u32HasReply x = false.
Proof.
  unfold deserts. rewrite !andb_true_iff, negb_true_iff. intros [[_ Hc] Hr]. by apply bool_decide_eq_true in Hc.
Qed.

(** The door after the exit: three cases. *)
Lemma px_exit_cases t x :
  (d_pClient x = Some t /\ up_exit t x = true /\ d_pClient (px_exit t x) = None /\
     d_u32HasReq (px_exit t x) = false /\ d_u32HasReply (px_exit t x) = false) \/
  (d_pClient x <> Some t /\ deserts t x = true /\ d_pClient (px_exit t x) = d_pClient x /\
     d_u32HasReply (px_exit t x) = true) \/
  (d_pClient x <> Some t /\ deserts t x = false /\ exists s, px_exit t x = with_server s x).
Proof.
  unfold up_exit, px_exit, px_cli_exit. case_bool_decide as Hc.
  - left. done.
  - right. unfold px_srv_exit. destruct (deserts t x) eqn:Hd.
    + left. unfold deserts in Hd. rewrite !andb_true_iff in Hd. destruct Hd as [[-> _] _]. done.
    + right. split_and!; [done|done|]. case_bool_decide; [by exists None|]. exists (d_pServer x). by destruct x.
Qed.

Lemma exit_door_ok t pcs m m' d x :
  door_ok pcs m d x -> sole d m -> gone (dthreads m) t = true -> ~ pc_waits pcs t d -> wakes (dthreads m) (dthreads m') ->
  right_of (g_aReplySoft m') d = rt_exit t x (right_of (g_aReplySoft m) d) -> hdr_state m' d = hdr_state m d ->
  (up_exit t x = true -> sole d m -> forall i, ~ asleep_on (dthreads m') i (door_key d) DOOR_TAG_CLIENT) ->
  door_ok pcs m' d (px_exit t x).
Proof.
  intros Ho Hsole Hg Hpc Hw Hr Hs Hup. pose proof Ho as [Q1 Q2 Q3 Q4 Q5 Q6]. pose proof (wakes_tmove _ _ Hw) as [_ Tg _].
  destruct (px_exit_cases t x) as [(Hc & Hu & H1 & H2 & H3)|[(Hc & Hd & H1 & H2)|(Hc & Hd & s & Hx)]].
  - split; rewrite ?H1; try done.
    + intros c Hw'. apply Q5 in Hw' as Hw''. congruence.
    + intros i Ha. by destruct (Hup Hu Hsole i).
  - destruct (deserts_client t x Hd) as [[c Ec] Hrep].
    assert (up_exit t x = true) as Hu by (unfold up_exit; rewrite Hd; apply orb_true_r).
    split; rewrite ?H1, ?H2; try done.
    + congruence.
    + intros c' Hc'. rewrite Hr. unfold rt_exit. rewrite Hd, orb_true_r. by rewrite (Q2 c' Hc').
    + intros c' Hc'. rewrite Tg. by apply Q3.
    + intros i Ha. by destruct (Hup Hu Hsole i).
  - rewrite Hx. assert (right_of (g_aReplySoft m') d = right_of (g_aReplySoft m) d) as Hr'.
    { rewrite Hr. unfold rt_exit. by rewrite Hd, bool_decide_false. }
    destruct (door_ok_wakes pcs m m' d x Ho Hw Hr' Hs). by split.
Qed.

Lemma xres_dom t done m m' : xres t done m m' -> dom (dm_doors m') = dom (dm_doors m).
Proof.
  intros []. apply set_eq. intros d. rewrite !elem_of_dom, xr_doors. by rewrite fmap_is_Some.
Qed.

Lemma dinv_exit t done pcs m m' :
  dinv pcs m -> gone (dthreads m) t = true -> xres t done m m' -> dinv pcs m'.
Proof.
  intros Hi Hg Hx. pose proof (xres_dom _ _ _ _ Hx) as Hdom. pose proof (wakes_tmove _ _ (xr_thr _ _ _ _ Hx)) as [Tl Tg Ts].
  pose proof (xr_cap _ _ _ _ Hx) as Hcap. pose proof Hi as []. split.
  - by eapply xres_sized.
  - by rewrite (xr_lean _ _ _ _ Hx).
  - eapply table_ok_same; [apply Hx|done|done].
  - apply elem_of_dom. rewrite Hdom. by apply elem_of_dom.
  - by rewrite Hcap.
  - intros d x' E. rewrite (xr_doors _ _ _ _ Hx) in E. destruct (dm_doors m !! d) as [x|] eqn:Ex; [|done].
    destruct (iv_hdr0 d x Ex). unfold hdr_ok, hdr_state in *. by rewrite Hcap.
  - intros d x' E. rewrite (xr_doors _ _ _ _ Hx) in E. destruct (dm_doors m !! d) as [x|] eqn:Ex; [|done].
    injection E as <-. pose proof (iv_door0 d x Ex) as Ho. pose proof (xr_right _ _ _ _ Hx d x Ex) as Hr.
    assert (hdr_state m' d = hdr_state m d) as Hs by (unfold hdr_state; by rewrite Hcap).
    case_bool_decide as Hin.
    + eapply exit_door_ok; [done|by eapply dinv_sole|done| |apply Hx|done|done|].
      * intros Hpc. destruct (iv_pc0 t d Hpc). congruence.
      * intros Hu Hso. by eapply xr_up.
    + eapply door_ok_wakes; [done|apply Hx|done|done].
  - intros c d Hc. rewrite Tg. destruct (iv_pc0 c d Hc). split; [done|]. apply elem_of_dom. rewrite Hdom. by apply elem_of_dom.
  - done.
  - intros c d o g Hc Ha. eapply iv_park0; [done|]. by eapply asleep_wakes; [apply Hx|].
Qed.

(** A thread is marked as exited. *)
Definition exit_thr (p : gj_thread) : gj_thread := with_state GJ_THR_EXITED p.
Definition mark_exited (t : nat) (m : door_mem) : door_mem :=
  set_dthr (set_threads (alter exit_thr t (dthreads m)) (dm_thr m)) m.

Lemma mark_gone t m i :
  gone (dthreads (mark_exited t m)) i = (bool_decide (i = t) && bool_decide (is_Some (dthreads m !! t))) || gone (dthreads m) i.
Proof.
  unfold gone. change (dthreads (mark_exited t m)) with (alter exit_thr t (dthreads m)). case_bool_decide as Hi.
  - subst i. rewrite list_lookup_alter_eq. by destruct (dthreads m !! t).
  - by rewrite list_lookup_alter_ne.
Qed.

Lemma mark_asleep t m i o g : asleep_on (dthreads (mark_exited t m)) i o g -> i <> t /\ asleep_on (dthreads m) i o g.
Proof.
  intros (p & E & Hp). change (dthreads (mark_exited t m)) with (alter exit_thr t (dthreads m)) in E.
  destruct (decide (i = t)) as [->|Hne]; [|rewrite list_lookup_alter_ne in E by done; split; [done|by exists p]].
  rewrite list_lookup_alter_eq in E. destruct (dthreads m !! t); [|done]. injection E as <-. by destruct Hp.
Qed.

Lemma pc_waits_delete pcs t c d : pc_waits (delete t pcs) c d <-> c <> t /\ pc_waits pcs c d.
Proof.
  unfold pc_waits. destruct (decide (c = t)) as [->|Hne]; [rewrite lookup_delete_eq|rewrite lookup_delete_ne by done].
  - split; [by intros []|by intros []].
  - naive_solver.
Qed.

Lemma dinv_kill t pcs m : dinv pcs m -> is_Some (dthreads m !! t) -> dinv (delete t pcs) (mark_exited t m).
Proof.
  intros [] Ht. split; try done.
  - destruct iv_sized0 as [H1 H2]. split; [|done].
    change (dthreads (mark_exited t m)) with (alter exit_thr t (dthreads m)). by rewrite length_alter.
  - intros d x E. destruct (iv_door0 d x E) as [Q1 Q2 Q3 Q4 Q5 Q6]. split; try done.
    + intros c Hc. rewrite mark_gone, pc_waits_delete, (bool_decide_true (is_Some _)), andb_true_r by done.
      case_bool_decide; [by left|]. destruct (Q3 c Hc); [by left|by right].
    + intros c Hc. apply pc_waits_delete in Hc as [_ Hc]. by apply Q5.
    + intros i Ha. apply mark_asleep in Ha as [Hne Ha]. destruct (Q6 i Ha). by rewrite pc_waits_delete.
  - intros c d Hc. apply pc_waits_delete in Hc as [Hne Hc]. rewrite mark_gone, bool_decide_false by done. by apply iv_pc0.
  - intros c d Hc. apply pc_waits_delete in Hc as [_ Hc]. by eapply iv_tid0.
  - intros c d o g Hc Ha. apply pc_waits_delete in Hc as [Hne Hc]. apply mark_asleep in Ha as [_ Ha]. by eapply iv_park0.
Qed.

(** The client of a door is a thread of the table. *)
Lemma client_thread pcs m d x c :
  dinv pcs m -> dm_doors m !! d = Some x -> d_pClient x = Some c -> is_Some (dthreads m !! c).
Proof.
  intros Hi E Hc. destruct (do_client _ _ _ _ (iv_door _ _ Hi d x E) c Hc) as [Hg|Hw].
  - unfold gone in Hg. by destruct (dthreads m !! c).
  - apply lookup_lt_is_Some_2. destruct (iv_sized _ _ Hi) as [-> _]. by eapply iv_tid.
Qed.
