(* ===== verification/DoorSpec.v ===== *)
(** Doors: what each call keeps, what it leaves, and the abstract rendezvous. *)
From stdpp Require Import base gmap list strings.
From Stdlib Require Import ZArith Lia.
From S2P Require Import Prelude CapTypes CapInv CapLean LinuxAbi Thread ThreadProofs KernObj Door DoorProofs DoorOps DoorInv.

(** * The steps of a flight, as changes that keep the invariant. *)

Lemma pc_waits_inj pcs c d d' : pc_waits pcs c d -> pc_waits pcs c d' -> d' = d.
Proof. intros [dl E] [dl' E']. congruence. Qed.

Section Keep.
Context (pcs pcs' : gmap nat dpc) (d : objp) (x x' : gj_door) (rt : option bool) (new : option (nat * Z * Z)) (m m' : door_mem).
Context (Hi : dinv pcs m) (E : dm_doors m !! d = Some x) (Hm : dmove d x' rt new m m').

(** The flight goes on. *)
Lemma dinv_keep :
  (forall c, d_pClient x = Some c -> rt = right_of (g_aReplySoft m) d) ->
  d_pClient x' = d_pClient x -> d_u32HasReply x' = d_u32HasReply x -> (d_u32HasReq x' = true -> d_u32HasReq x = true) ->
  (forall c, d_pClient x = Some c -> alive d m' x' = alive d m x) ->
  (forall c d', pc_waits pcs' c d' <-> pc_waits pcs c d') ->
  (forall i o g, new = Some (i, o, g) -> o = door_key d /\
     ((g <> DOOR_TAG_CLIENT /\ forall d', ~ pc_waits pcs i d') \/ (g = DOOR_TAG_CLIENT /\ pc_waits pcs i d /\ d_u32HasReply x = false))) ->
  dinv pcs' m'.
Proof.
  intros Hrt Hc Hr Hq Hal Hpc Hnew. pose proof (iv_door _ _ Hi d x E) as [Q1 Q2 Q3 Q4 Q5 Q6].
  pose proof (mv_thr _ _ _ _ _ _ Hm) as [Tl Tg Ts].
  eapply dinv_move; [exact Hi|exact E|exact Hm|..].
  - split; rewrite ?Hc, ?Hr, ?(mv_own _ _ _ _ _ _ Hm).
    + intros Hn. destruct (Q1 Hn) as [Hq1 ->]. split; [|done]. destruct (d_u32HasReq x'); [|done]. by rewrite Hq in Hq1.
    + intros c Ec. rewrite (Hrt c Ec). by eapply Q2.
    + intros c Ec. rewrite Tg, Hpc. by apply Q3.
    + intros c Ec Ha. apply (Q4 c Ec). by rewrite <-(Hal c Ec).
    + intros c Hw. apply Q5. by apply Hpc.
    + intros i Ha. rewrite Hpc. destruct (Ts _ _ _ Ha) as [Ha'|Hn]; [by apply Q6|].
      destruct (Hnew _ _ _ Hn) as [_ [[? _]|(_ & ? & ?)]]; done.
  - intros. apply Hpc.
  - intros c Hw. apply Hpc in Hw. split; [by destruct (iv_pc _ _ Hi c d Hw)|by eapply iv_tid].
  - intros i o g Hn. destruct (Hnew _ _ _ Hn) as [-> [[_ Hno]|(-> & Hw & _)]]; (split; [done|]); intros d' Hw'; apply Hpc in Hw'.
    + by destruct (Hno d').
    + split; [by eapply pc_waits_inj|done].
  - intros c o g Hw. apply Hpc in Hw. by eapply iv_park.
Qed.

(** A free door is claimed and its new client falls asleep. *)
Lemma dinv_claim c dl :
  d_pClient x = None -> (forall d', ~ pc_waits pcs c d') -> gone (dthreads m) c = false -> (c < GJ_MAX_THREADS)%nat -> (forall o g, ~ asleep_on (dthreads m) c o g) ->
  pcs' = <[c := PcWait d dl]> pcs -> rt = Some true -> new = Some (c, door_key d, DOOR_TAG_CLIENT) ->
  d_pClient x' = Some c -> d_u32HasReply x' = false -> alive d m' x' = true -> dinv pcs' m'.
Proof.
  intros Hc Hno Hg Hlt Haw Hp Hrt Hnew Hc' Hr Hal. pose proof (iv_door _ _ Hi d x E) as [Q1 Q2 Q3 Q4 Q5 Q6].
  pose proof (mv_thr _ _ _ _ _ _ Hm) as [Tl Tg Ts].
  assert (pc_waits pcs' c d) as Hme by (exists dl; subst pcs'; by rewrite lookup_insert_eq).
  assert (forall c' d', c' <> c -> pc_waits pcs' c' d' <-> pc_waits pcs c' d') as Hot.
  { intros c' d' Hne. unfold pc_waits. subst pcs'. by rewrite lookup_insert_ne. }
  assert (forall c', pc_waits pcs' c' d -> c' = c) as Hd.
  { intros c' Hw. destruct (decide (c' = c)) as [|Hne]; [done|]. apply Hot in Hw as Hw'; [|done]. apply Q5 in Hw'. congruence. }
  eapply dinv_move; [exact Hi|exact E|exact Hm|..].
  - split; rewrite ?Hc', ?Hr, ?Hal, ?(mv_own _ _ _ _ _ _ Hm); try done.
    + intros ? [= <-]. by right.
    + intros c' Hw. f_equal. symmetry. by apply Hd.
    + intros i Ha. split; [|done]. destruct (Ts _ _ _ Ha) as [Ha'|Hn]; [|congruence].
      destruct (Q6 i Ha') as [Hw _]. apply Q5 in Hw. congruence.
  - intros c' d' Hne. destruct (decide (c' = c)) as [->|]; [|by apply Hot]. split; [|intros Hw; by destruct (Hno d')].
    intros Hw. by destruct (Hne (pc_waits_inj _ _ _ _ Hme Hw)).
  - intros c' Hw. by rewrite (Hd c' Hw).
  - intros i o g Hn. rewrite Hnew in Hn. injection Hn as <- <- <-. split; [done|]. intros d' Hw. split; [|done]. by eapply pc_waits_inj.
  - intros c' o g Hw Ha. rewrite (Hd c' Hw) in Ha. by destruct (Haw o g).
Qed.

(** The client takes its leave. *)
Lemma dinv_done c :
  d_pClient x = Some c -> (forall o g, ~ asleep_on (dthreads m) c o g) -> pcs' = delete c pcs -> new = None ->
  d_pClient x' = None -> d_u32HasReq x' = false -> d_u32HasReply x' = false -> dinv pcs' m'.
Proof.
  intros Hc Haw Hp Hnew Hc' Hq Hr. pose proof (iv_door _ _ Hi d x E) as [Q1 Q2 Q3 Q4 Q5 Q6].
  pose proof (mv_thr _ _ _ _ _ _ Hm) as [Tl Tg Ts].
  assert (forall c', ~ pc_waits pcs' c' d) as Hno.
  { intros c' Hw. subst pcs'. apply pc_waits_delete in Hw as [Hne Hw]. apply Q5 in Hw. congruence. }
  eapply dinv_move; [exact Hi|exact E|exact Hm|..].
  - split; rewrite ?Hc', ?Hq, ?Hr; try done.
    + intros c' Hw. by destruct (Hno c').
    + intros i Ha. destruct (Ts _ _ _ Ha) as [Ha'|Hn]; [|congruence]. destruct (Q6 i Ha') as [Hw _].
      apply Q5 in Hw. rewrite Hc in Hw. injection Hw as <-. by destruct (Haw _ _ Ha').
  - intros c' d' Hne. subst pcs'. rewrite pc_waits_delete. split; [naive_solver|]. intros Hw. split; [|done].
    intros ->. destruct (iv_pc _ _ Hi c d' Hw) as [Hg [y Ey]].
    destruct (Q3 c Hc) as [|Hw']; [congruence|]. by destruct (Hne (pc_waits_inj _ _ _ _ Hw' Hw)).
  - intros c' Hw. by destruct (Hno c').
  - intros. congruence.
  - intros c' o g Hw. by destruct (Hno c').
Qed.

(** The flight is answered and the client woken. *)
Lemma dinv_answer c :
  d_pClient x = Some c -> rt = Some false -> new = None -> pcs' = pcs ->
  d_pClient x' = Some c -> d_u32HasReply x' = true ->
  (forall i, ~ asleep_on (dthreads m') i (door_key d) DOOR_TAG_CLIENT) -> dinv pcs' m'.
Proof.
  intros Hc Hrt Hnew Hp Hc' Hr Hup. pose proof (iv_door _ _ Hi d x E) as [Q1 Q2 Q3 Q4 Q5 Q6]. subst pcs'.
  pose proof (mv_thr _ _ _ _ _ _ Hm) as [Tl Tg Ts].
  eapply dinv_move; [exact Hi|exact E|exact Hm|..].
  - split; rewrite ?Hc', ?Hr, ?(mv_own _ _ _ _ _ _ Hm), ?Hrt; try done.
    + intros c' [= <-]. rewrite Tg. by apply Q3.
    + intros c' Hw. rewrite <-Hc. by apply Q5.
    + intros i Ha. by destruct (Hup i).
  - done.
  - intros c' Hw. split; [by destruct (iv_pc _ _ Hi c' d Hw)|by eapply iv_tid].
  - intros. congruence.
  - intros c' o g Hw. by eapply iv_park.
Qed.
End Keep.

(** * Posting a request: the reply right of the new flight. *)

Lemma find_from_insert {A} (p : A -> bool) l : forall k i r r',
  l !! i = Some r -> p r' = p r -> find_from p k (<[i := r']> l) = find_from p k l.
Proof.
  induction l as [|a l IH]; intros k [|i] r r' E Hp; simplify_eq/=; [by rewrite Hp|]. destruct (p a); [done|]. by eapply IH.
Qed.

(** A free slot is bound to a door that had none. *)
Lemma right_bind d l i r r' :
  right_of l d = None -> l !! i = Some r -> rp_pDoor r = None -> rp_pDoor r' = Some d ->
  right_of (<[i := r']> l) d = Some (rp_u32Live r' && negb (rp_u32Consumed r')) /\
  (forall d', d' <> d -> right_of (<[i := r']> l) d' = right_of l d').
Proof.
  intros Hn Ei Hr Hr'. pose proof (lookup_lt_Some _ _ _ Ei) as Hi. split.
  - destruct (find_from (fun r => bool_decide (rp_pDoor r = Some d)) 0 (<[i := r']> l)) as [j|] eqn:Ef.
    + destruct (find_reply_spec d _ j Ef) as (q & Eq & Hq). unfold right_of. rewrite Ef. simpl. rewrite Eq.
      destruct (decide (i = j)) as [<-|Hne]; [rewrite list_lookup_insert_eq in Eq by done; by injection Eq as ->|].
      rewrite list_lookup_insert_ne in Eq by done. assert (is_Some (right_of l d)) as [? Hs]; [|congruence].
      apply bound_right. by exists j, q.
    + pose proof (find_from_None _ _ _ Ef i r') as H. rewrite list_lookup_insert_eq in H by done.
      specialize (H eq_refl). by apply bool_decide_eq_false in H.
  - intros d' Hne. unfold right_of. rewrite (find_from_insert _ l 0 i r r' Ei).
    2:{ rewrite Hr, Hr'. rewrite !bool_decide_false by congruence. done. }
    destruct (find_from (fun r => bool_decide (rp_pDoor r = Some d')) 0 l) as [j|] eqn:Ef; [|done]. simpl.
    destruct (find_reply_spec d' l j Ef) as (q & Eq & Hq). rewrite list_lookup_insert_ne; [done|]. intros ->. congruence.
Qed.

Lemma omap_bind d l i r r' :
  l !! i = Some r -> rp_pDoor r = None -> rp_pDoor r' = Some d ->
  omap rp_pDoor (<[i := r']> l) ≡ₚ d :: omap rp_pDoor l.
Proof.
  revert i. induction l as [|a l IH]; intros [|i] E Hr Hr'; simplify_eq/=; [by rewrite Hr, Hr'|].
  destruct (rp_pDoor a) as [d'|]; rewrite IH by done; [by constructor|done].
Qed.

Lemma omap_full (l : list door_reply_soft) :
  (forall i r, l !! i = Some r -> rp_pDoor r <> None) -> length (omap rp_pDoor l) = length l.
Proof.
  induction l as [|a l IH]; intros H; [done|]. simpl. pose proof (H 0%nat a eq_refl) as Ha.
  destruct (rp_pDoor a); [|done]. simpl. f_equal. apply IH. intros i r E. by apply (H (S i) r).
Qed.

(** With no more doors than slots there is a slot for every door. *)
Lemma slot_free m d :
  dsized m -> table_ok m -> is_Some (dm_doors m !! d) -> right_of (g_aReplySoft m) d = None ->
  exists i r, find_from (fun r => bool_decide (rp_pDoor r = None)) 0 (g_aReplySoft m) = Some i /\
    g_aReplySoft m !! i = Some r /\ rp_pDoor r = None.
Proof.
  intros [_ Hl] (Hb & Hnd & Hs) Hd Hn.
  destruct (find_from (fun r => bool_decide (rp_pDoor r = None)) 0 (g_aReplySoft m)) as [i|] eqn:Ef.
  { apply find_from_Some in Ef as (j & r & -> & Ej & Hr & _). exists j, r. apply bool_decide_eq_true in Hr. done. }
  exfalso. assert (length (omap rp_pDoor (g_aReplySoft m)) = DOOR_REPLY_SOFT_SLOTS) as Hf.
  { rewrite omap_full; [done|]. intros i r E Hr. pose proof (find_from_None _ _ _ Ef i r E) as H. by apply bool_decide_eq_false in H. }
  assert (d ∉ omap rp_pDoor (g_aReplySoft m)) as Hnot.
  { intros Hin. apply list_elem_of_omap in Hin as (r & Hr & E). apply list_elem_of_lookup in Hr as [i Ei].
    assert (is_Some (right_of (g_aReplySoft m) d)) as [? ?]; [|congruence]. apply bound_right. by exists i, r. }
  assert (size (list_to_set (d :: omap rp_pDoor (g_aReplySoft m)) : gset objp) <= size (dom (dm_doors m)))%nat as Hle.
  { apply subseteq_size. intros e. rewrite elem_of_list_to_set, elem_of_cons, elem_of_dom. intros [->|He]; [done|].
    by apply (proj1 (bound_in_elem m)). }
  rewrite size_list_to_set in Hle by (by constructor). simpl in Hle. rewrite Hf, size_dom in Hle. unfold DOOR_REPLY_SOFT_SLOTS in *. lia.
Qed.

Lemma wp_create d x m (Q : unit -> door_mem -> Prop) :
  dsized m -> table_ok m -> dm_doors m !! d = Some x ->
  (forall m', dmove d x (Some true) None m m' -> dthreads m' = dthreads m -> dm_cap m' = dm_cap m -> Q tt m') ->
  wp (door_reply_soft_create (Some d)) Q m.
Proof.
  intros Hsz Ht E HQ. unfold door_reply_soft_create, door_reply_soft_note_live_peak. apply wp_bind, wp_get. cbv zeta.
  assert (forall i r l' g, g_aReplySoft m !! i = Some r -> l' = <[i := MkReply (Some d) g true false]> (g_aReplySoft m) ->
    right_of l' d = Some true -> (forall d', d' <> d -> right_of l' d' = right_of (g_aReplySoft m) d') ->
    table_ok (set_replies l' g m) -> Q tt (set_replies l' g m)) as Hgo.
  { intros i r l' g Ei -> H1 H2 H3. apply HQ; [|done|done]. split; try done.
    - by rewrite insert_id.
    - by apply wakes_tmove.
    - cbn. by rewrite length_insert. }
  destruct (door_reply_soft_find m (Some d)) as [i|] eqn:Ef.
  - destruct (find_reply_spec d _ i Ef) as (r & Ei & Hr).
    destruct (right_set d _ i r (MkReply (Some d) (next_gen (g_u32ReplySoftGen m)) true false) Ef Ei) as (H1 & H2 & H3); [done|].
    wsteps. unfold st_reply. wsteps. cbn [set_replies g_aReplySoft]. rewrite Ei. wsteps.
    eapply (Hgo i r); [done|done|done|done|]. by eapply table_ok_same.
  - pose proof (right_none d m Ef) as Hn. destruct (slot_free m d Hsz Ht) as (i & r & -> & Ei & Hr); [by eexists|done|].
    set (r' := MkReply (Some d) (next_gen (g_u32ReplySoftGen m)) true false).
    destruct (right_bind d _ i r r' Hn Ei Hr eq_refl) as (H1 & H2). wsteps. unfold st_reply. wsteps.
    cbn [set_replies g_aReplySoft]. rewrite Ei. wsteps. eapply (Hgo i r); [done|done|done|done|].
    destruct Ht as (Hb & Hnd & Hs). pose proof (omap_bind d _ i r r' Ei Hr eq_refl) as Hp. split; [|split; [|done]].
    + apply bound_in_elem. cbn [set_replies g_aReplySoft dm_doors]. intros e. rewrite Hp, elem_of_cons.
      intros [->|He]; [by eexists|]. by apply (proj1 (bound_in_elem m)).
    + cbn [set_replies g_aReplySoft]. rewrite Hp. constructor; [|done]. intros Hin.
      apply list_elem_of_omap in Hin as (q & Hq & Eq). apply list_elem_of_lookup in Hq as [j Ej].
      assert (is_Some (right_of (g_aReplySoft m) d)) as [? ?]; [|congruence]. apply bound_right. by exists j, q.
Qed.

(** * What a door promises, without threads, counters or reply rights.

    A door carries at most one flight: the client, the request while no server
    has taken it, and the answer once there is one.  The first answer of a
    flight stands until the client takes it, unless the door dies first. *)

Record flight : Type := MkFlight {
  fl_client : nat;
  fl_req : option gj_linux_regs;
  fl_reply : option Z }.

Record adoor : Type := MkADoor {
  a_ready : bool;
  a_live : bool;
  a_used : bool;          (** an exiting thread is taken off this door *)
  a_server : option nat;
  a_flight : option flight }.

Definition a_set (s : option nat) (f : option flight) (a : adoor) : adoor := MkADoor (a_ready a) (a_live a) (a_used a) s f.

(** A request is posted. *)
Definition a_post (c : nat) (r : gj_linux_regs) (a : adoor) : adoor :=
  MkADoor (a_ready a) (a_live a) true (a_server a) (Some (MkFlight c (Some r) None)).

(** A thread leaves. *)
Definition a_exit (t : nat) (a : adoor) : adoor :=
  if negb (a_used a) then a else
  match a_flight a with
  | Some f =>
      if bool_decide (fl_client f = t) then a_set None None a else
      if negb (bool_decide (a_server a = Some t)) then a else
      match fl_reply f with
      | None => a_set None (Some (MkFlight (fl_client f) None (Some (- LINUX_EIO)))) a
      | Some _ => a_set None (Some f) a
      end
  | None => if bool_decide (a_server a = Some t) then a_set None None a else a
  end.

(** The turn of a caller that has no flight yet; [gone] tells dead threads. *)
Definition a_claim (gone : nat -> bool) (d : objp) (c : nat) (r : gj_linux_regs) (expired : bool) (D : gmap objp adoor) :
    gmap objp adoor * call_res :=
  match D !! d with
  | None => (D, CallSlot)
  | Some a =>
      if negb (a_live a) then (D, CallRet (- LINUX_EIO)) else
      if expired then (D, CallRet (- LINUX_ETIMEDOUT)) else
      match a_flight a with
      | None => (<[d := a_post c r a]> D, CallWait)
      | Some f =>
          if gone (fl_client f)
          then (alter (a_post c r) d (a_exit (fl_client f) <$> D), CallWait)
          else (D, CallSlot)
      end
  end.

(** The turn of a client that waits for its answer. *)
Definition a_wait (expired : bool) (a : adoor) : adoor * call_res :=
  match a_flight a ≫= fl_reply with
  | Some v => (a_set (a_server a) None a, CallRet v)
  | None =>
      if negb (a_live a) then (a_set (a_server a) None a, CallRet (- LINUX_EIO)) else
      if expired then (a_set (a_server a) None a, CallRet (- LINUX_ETIMEDOUT)) else (a, CallWait)
  end.

(** The turn of a server. *)
Definition a_recv (s : nat) (a : adoor) : adoor * recv_res :=
  if negb (a_live a) then
    (a_set (if bool_decide (a_server a = Some s) then None else a_server a) (a_flight a) a, RecvErr GJ_ERR_PEER_DEAD)
  else
  let free := bool_decide (a_server a = None) || bool_decide (a_server a = Some s) in
  match a_flight a with
  | Some f =>
      match fl_req f with
      | Some r =>
          if free then (a_set (Some s) (Some (MkFlight (fl_client f) None (fl_reply f))) a, RecvOk r) else (a, RecvForeign)
      | None => if free then (a_set (Some s) (Some f) a, RecvWait) else (a, RecvForeign)
      end
  | None => (a_set (Some s) None a, RecvWait)
  end.

(** After a wake-up a server without work gives up its place first. *)
Definition a_resume (s : nat) (foreign : bool) (a : adoor) : adoor * recv_res :=
  a_recv s (match a_flight a with
            | None => if negb foreign && bool_decide (a_server a = Some s) then a_set None None a else a
            | Some _ => a
            end).

(** A reply, by any thread. *)
Definition a_reply (s : nat) (v : Z) (a : adoor) : adoor :=
  if negb (a_ready a) then a else
  match a_flight a with
  | None => if bool_decide (a_server a = Some s) then a_set None None a else a
  | Some f =>
      match fl_reply f with
      | Some _ => a
      | None => a_set None (Some (MkFlight (fl_client f) (fl_req f) (Some v))) a
      end
  end.

(** The peer of the door dies; with [final] the door does. *)
Definition a_abort (final : bool) (a : adoor) : adoor :=
  MkADoor (a_ready a && negb final) false (a_used a) None
    (match a_flight a with
     | None => None
     | Some f => Some (MkFlight (fl_client f) (fl_req f) (Some (- LINUX_EIO)))
     end).

(** ** The promise of a door in memory *)
Definition flight_of (x : gj_door) : option flight :=
  match d_pClient x with
  | None => None
  | Some c => Some (MkFlight c (if d_u32HasReq x then Some (d_req x) else None)
                             (if d_u32HasReply x then Some (d_i64Reply x) else None))
  end.
Definition abs (m : door_mem) (d : objp) (x : gj_door) : adoor :=
  MkADoor (d_u32Ready x) (alive d m x) (swept m d) (d_pServer x) (flight_of x).
Definition absm (m : door_mem) : gmap objp adoor := map_imap (fun d x => Some (abs m d x)) (dm_doors m).

Lemma absm_lookup m d : absm m !! d = abs m d <$> dm_doors m !! d.
Proof. unfold absm. rewrite map_lookup_imap. by destruct (dm_doors m !! d). Qed.

(** A step at one door changes the promise of that door. *)
Lemma absm_move d x' rt new m m' : dmove d x' rt new m m' -> absm m' = <[d := abs m' d x']> (absm m).
Proof.
  intros []. apply map_eq. intros d'. rewrite absm_lookup, mv_doors. destruct (decide (d = d')) as [<-|Hne].
  - by rewrite !lookup_insert_eq.
  - rewrite !lookup_insert_ne, absm_lookup by done. destruct (dm_doors m !! d') as [y|]; [|done]. simpl. f_equal.
    unfold abs, swept. rewrite (alive_state m m' d' y) by (by apply mv_hdrs). by rewrite mv_right.
Qed.

Lemma swept_rep m m' d :
  rp_pDoor <$> g_aReplySoft m' = rp_pDoor <$> g_aReplySoft m -> swept m' d = swept m d.
Proof.
  intros H. unfold swept. f_equal. apply bool_decide_ext. rewrite !bound_right.
  assert (forall l l' : list door_reply_soft, rp_pDoor <$> l' = rp_pDoor <$> l ->
    (exists j r, l' !! j = Some r /\ rp_pDoor r = Some d) -> exists j r, l !! j = Some r /\ rp_pDoor r = Some d) as Hgo.
  { intros l l' E (j & r & Ej & Hr). apply (f_equal (.!! j)) in E. rewrite !list_lookup_fmap, Ej in E.
    destruct (l !! j) as [q|] eqn:Eq; [|done]. injection E as E. exists j, q. split; [done|congruence]. }
  split; by apply Hgo.
Qed.

Lemma abs_exit t m m' d x :
  swept m d = true -> swept m' d = true -> hdr_state m' d = hdr_state m d -> abs m' d (px_exit t x) = a_exit t (abs m d x).
Proof.
  intros Hs Hs' Hh. unfold abs. rewrite (alive_state m m' d _ Hh), alive_exit, Hs, Hs'. generalize (alive d m x) as al.
  intros al. unfold px_exit, px_cli_exit, px_srv_exit, deserts, a_exit, flight_of, a_set.
  destruct x as [rd ? ? ? sv cl ? ? rq rp ? ? ? ? ?].
  cbn.
  destruct cl as [c|].
  - cbn [fl_client]. destruct (decide (c = t)) as [->|Hne].
    + rewrite (bool_decide_true (Some t = Some t)), (bool_decide_true (t = t)) by done. done.
    + rewrite (bool_decide_false (Some c = Some t)), (bool_decide_false (c = t)) by congruence.
      cbn. case_bool_decide; [|done]. destruct rp; done.
  - rewrite (bool_decide_false (None = Some t)) by done. cbn. case_bool_decide; done.
Qed.

(** The exit of a thread, on all doors. *)
Lemma absm_exit t done m m' :
  xres t done m m' -> (forall d, bool_decide (d ∈ done) = swept m d) -> absm m' = a_exit t <$> absm m.
Proof.
  intros Hx Hd. apply map_eq. intros d. rewrite lookup_fmap, !absm_lookup, (xr_doors _ _ _ _ Hx).
  destruct (dm_doors m !! d) as [x|]; [|done]. cbn. f_equal. rewrite Hd.
  assert (hdr_state m' d = hdr_state m d) as Hh by (unfold hdr_state; by rewrite (xr_cap _ _ _ _ Hx)).
  pose proof (swept_rep m m' d (xr_rep _ _ _ _ Hx)) as Hs. destruct (swept m d) eqn:Hsw; [by apply abs_exit|].
  unfold abs, a_exit. rewrite Hs, Hsw, (alive_state m m' d x Hh). done.
Qed.
