(* ===== verification/DoorCall.v ===== *)
(** Calls, receives and replies follow the specification of [DoorSpec] and keep
    the invariant. *)
From stdpp Require Import base gmap list strings.
From Stdlib Require Import ZArith Lia.
From S2P Require Import Prelude CapTypes CapInv CapRevoke CapLean LinuxAbi Thread ThreadProofs KernObj Door DoorProofs DoorOps DoorInv DoorSpec.

(** The program counter of the caller after its turn. *)
Definition call_pcs (c : nat) (d : objp) (r : gj_linux_regs) (dl : Z) (o : call_res) (pcs : gmap nat dpc) : gmap nat dpc :=
  match o with
  | CallRet _ => delete c pcs
  | CallSlot => <[c := PcSlot d r dl]> pcs
  | CallWait => <[c := PcWait d dl]> pcs
  end.

Lemma dinv_hdr pcs m d x : dinv pcs m -> dm_doors m !! d = Some x -> is_Some (m_objs (dm_cap m) !! d).
Proof. intros Hi E. by destruct (iv_hdr _ _ Hi d x E). Qed.

Lemma abs_dres d x' rt up m m' :
  dres d x' rt up m m' -> abs m' d x' = MkADoor (d_u32Ready x') (alive d m x') (swept m d) (d_pServer x') (flight_of x').
Proof.
  intros []. unfold abs. rewrite (swept_rep m m' d dr_rep). f_equal. apply alive_state. unfold hdr_state. by rewrite dr_cap.
Qed.

(** A thread parks on the door. *)
Lemma wp_park d x m c tag (Q : unit -> door_mem -> Prop) :
  dm_doors m !! d = Some x -> awake (dthreads m) c ->
  (forall m', dmove d x (right_of (g_aReplySoft m) d) (Some (c, door_key d, tag)) m m' ->
     dm_cap m' = dm_cap m -> g_aReplySoft m' = g_aReplySoft m -> Q tt m') ->
  wp (door_block c d tag) Q m.
Proof.
  intros E ([p Ep] & Hg & _) HQ. unfold door_block. apply wp_on_threads. unfold thread_block. wsteps.
  change (g_aThreads (thr_of m)) with (dthreads m). rewrite Ep. wsteps. apply HQ; [|done|done]. split; try done.
  - by rewrite insert_id.
  - change (tmove (Some (c, door_key d, tag)) (dthreads m) (<[c := slept (door_key d) tag p]> (dthreads m))). by apply block_tmove.
Qed.

Lemma dmove_dsized d x rt new m m' : dmove d x rt new m m' -> dsized m -> dsized m'.
Proof. intros [] [H1 H2]. destruct mv_thr. split; congruence. Qed.

Lemma dmove_door d x rt new m m' : dmove d x rt new m m' -> dm_doors m' !! d = Some x.
Proof. intros []. rewrite mv_doors. apply lookup_insert_eq. Qed.

(** A wake after the park. *)
Lemma dmove_dres d x x2 rt rt2 up new m m1 m2 :
  dmove d x rt new m m1 -> dres d x2 rt2 up m1 m2 -> dmove d x2 rt2 new m m2.
Proof.
  intros H1 H2. pose proof (dres_move d x x2 rt2 up m1 m2 H2 (dmove_door _ _ _ _ _ _ H1)) as H3. destruct H1, H3.
  split; try congruence; try tauto.
  - rewrite mv_doors0, mv_doors. by rewrite insert_insert_eq.
  - destruct mv_thr, mv_thr0. split; [congruence|intros; congruence|]. intros i o g Ha.
    destruct (tm_sleep0 i o g Ha) as [Ha'|]; [|done]. by apply tm_sleep.
  - intros d' Hd. by rewrite mv_right0, mv_right.
  - intros d' Hd. destruct (mv_hdrs d' Hd), (mv_hdrs0 d' Hd). split; [congruence|tauto].
Qed.

Ltac dcall :=
  match goal with
  | H : dres _ _ _ _ _ ?m |- wp ?c _ ?m =>
      lazymatch c with
      | door_release_client_slot _ _ => eapply wp_release; [eassumption|exact H|]; dnext H
      | door_cancel_inflight _ _ => eapply wp_cancel; [eassumption|exact H|]; dnext H
      | door_abort_waiters _ => eapply wp_abort; [eassumption|exact H|]; dnext H
      end
  end.

(** Names the last state. *)
Ltac dlast D n := match goal with H : dres _ _ _ _ _ ?k |- _ => rename H into D; rename k into n end.

(** ** The client *)
Lemma wp_call_wait pcs m d x c r dl ready now :
  dinv pcs m -> dm_doors m !! d = Some x -> pcs !! c = Some (PcWait d dl) -> awake (dthreads m) c ->
  wp (call_wait d c dl ready now) (fun o m' =>
    o = snd (a_wait (call_expired dl ready now) (abs m d x)) /\
    absm m' = <[d := fst (a_wait (call_expired dl ready now) (abs m d x))]> (absm m) /\
    dinv (call_pcs c d r dl o pcs) m') m.
Proof.
  intros Hi E Hpc Haw. pose proof (iv_sized _ _ Hi) as Hsz. pose proof (iv_lean _ _ Hi) as Hl.
  pose proof (dinv_hdr _ _ _ _ Hi E) as Hh. pose proof (iv_door _ _ Hi d x E) as Ho.
  assert (d_pClient x = Some c) as Hc by (apply (do_pc _ _ _ _ Ho); by exists dl).
  pose proof (dres_refl d x m E) as D.
  assert (forall m' x' rt up v, dres d x' rt up m m' -> d_pClient x' = None -> d_u32HasReq x' = false -> d_u32HasReply x' = false ->
    d_u32Ready x' = d_u32Ready x -> d_u32PeerDead x' = d_u32PeerDead x -> d_pServer x' = d_pServer x ->
    absm m' = <[d := a_set (d_pServer x) None (abs m d x)]> (absm m) /\ dinv (call_pcs c d r dl (CallRet v) pcs) m') as Hdone.
  { intros m' x' rt up v D' H1 H2 H3 H4 H5 H6. pose proof (dres_move _ _ _ _ _ _ _ D' E) as Hm. split.
    - rewrite (absm_move _ _ _ _ _ _ Hm), (abs_dres _ _ _ _ _ _ D'). unfold a_set, flight_of, alive. cbn. by rewrite H1, H4, H5, H6.
    - eapply dinv_done; [exact Hi|exact E|exact Hm|exact Hc|apply Haw|done..]. }
  assert (forall y, d_pClient y = Some c -> d_pClient (px_release c y) = None) as Hrel.
  { intros y Hy. unfold px_release. by rewrite bool_decide_true. }
  assert (forall y, d_pClient y = Some c -> px_release c y = with_client None y) as Hrel2.
  { intros y Hy. unfold px_release. by rewrite bool_decide_true. }
  unfold call_wait, a_wait. cbn [abs a_flight a_live]. unfold flight_of. rewrite Hc. cbn [mbind option_bind fl_reply]. dgo.
  destruct (d_u32HasReply x) eqn:Hr.
  - dgo. unfold door_snapshot_last_badge. dgo. dcall. dgo.
    destruct (d_i64Reply x =? - LINUX_EIO), (d_i64Reply x <? 0); dgo; (split; [done|]); rewrite Hrel2 in * by done; by eapply Hdone.
  - dgo. destruct (alive d m x) eqn:Hal; cbn [negb].
    2:{ unfold door_snapshot_last_badge, call_fail. dgo. dcall. dgo. unfold px_cancel in *. rewrite Hrel2 in * by done.
        split; [done|]. by eapply Hdone. }
    destruct (call_expired dl ready now) eqn:He.
    { unfold call_fail. dgo. dcall. dgo. unfold px_cancel in *. rewrite Hrel2 in * by done.
      split; [done|]. by eapply Hdone. }
    dgo. eapply wp_park; [exact E|exact Haw|]. intros m1 Hm Hcap Hrep.
    pose proof (dres_refl d x m1 (dmove_door _ _ _ _ _ _ Hm)) as D1. assert (is_Some (m_objs (dm_cap m1) !! d)) as Hh1 by (by rewrite Hcap).
    clear D. dgo. rewrite Hr. cbn [orb]. rewrite (alive_state m m1 d x) by (unfold hdr_state; by rewrite Hcap). rewrite Hal. cbn [negb]. dgo.
    split; [done|]. split.
    + rewrite (absm_move _ _ _ _ _ _ Hm). f_equal. cbn [fst]. unfold abs, swept. rewrite Hrep.
      by rewrite (alive_state m m1 d x) by (unfold hdr_state; by rewrite Hcap).
    + cbn [call_pcs]. rewrite insert_id by done. eapply dinv_keep; [exact Hi|exact E|exact Hm|done|done|done|done|..].
      * intros c' _. apply alive_state. unfold hdr_state. by rewrite Hcap.
      * done.
      * intros i o g [= <- <- <-]. split; [done|]. right. split_and!; [done|by exists dl|done].
Qed.

Lemma awake_move d x rt m m' c : dmove d x rt None m m' -> awake (dthreads m) c -> awake (dthreads m') c.
Proof. intros []. by apply awake_tmove. Qed.

(** The door of a posted request. *)
Definition px_post (c : nat) (r : gj_linux_regs) (x : gj_door) : gj_door :=
  count_call (with_has true false (with_req r (with_client (Some c) x))).

Lemma wp_post d m x c r (Q : unit -> door_mem -> Prop) :
  dsized m -> table_ok m -> dm_doors m !! d = Some x ->
  (forall m', dmove d (px_post c r x) (Some true) None m m' -> dm_cap m' = dm_cap m -> Q tt m') ->
  wp (upd_door d (with_client (Some c)) ;;; call_post d r) Q m.
Proof.
  intros Hsz Ht E HQ. pose proof (dres_refl d x m E) as D. unfold call_post. dgo.
  dlast D1 n1.
  pose proof (dres_move _ _ _ _ _ _ _ D1 E) as Hn1.
  eapply wp_create; [by eapply dres_sized|by apply Hn1|by eapply dres_door|]. intros n2 Hm2 _ Hc2.
  pose proof (dmove_trans _ _ _ _ _ _ _ _ _ Hn1 Hm2) as Hm. pose proof (dr_cap _ _ _ _ _ _ D1) as Hc1.
  pose proof (dres_refl d _ n2 (dmove_door _ _ _ _ _ _ Hm2)) as D2. rewrite (mv_own _ _ _ _ _ _ Hm2) in D2.
  pose proof (dmove_dsized _ _ _ _ _ _ Hm Hsz) as Hsz2. clear D1. dgo.
  destruct (d_pServer _); dgo; [|apply HQ; [done|congruence]].
  apply HQ; [by eapply dmove_dres|]. rewrite (dr_cap _ _ _ _ _ _ D). congruence.
Qed.

Lemma wp_claim_free pcs m d x c r dl ready now :
  dinv pcs m -> dm_doors m !! d = Some x -> d_pClient x = None -> alive d m x = true -> call_expired dl ready now = false ->
  (forall d', ~ pc_waits pcs c d') -> awake (dthreads m) c ->
  wp (upd_door d (with_client (Some c)) ;;; call_post d r ;;; call_wait d c dl ready now) (fun o m' =>
    o = CallWait /\ absm m' = <[d := a_post c r (abs m d x)]> (absm m) /\ dinv (<[c := PcWait d dl]> pcs) m') m.
Proof.
  intros Hi E Hc Hal He Hno Haw. pose proof (iv_sized _ _ Hi) as Hsz. pose proof (dinv_hdr _ _ _ _ Hi E) as Hh.
  apply wp_assoc.
  apply wp_bind. eapply wp_post; [done|apply Hi|done|]. intros m1 Hm1 Hc1.
  pose proof (dres_refl d _ m1 (dmove_door _ _ _ _ _ _ Hm1)) as D. assert (is_Some (m_objs (dm_cap m1) !! d)) as Hh1 by (by rewrite Hc1).
  assert (forall m', dm_cap m' = dm_cap m -> alive d m' (px_post c r x) = true) as Hal'.
  { intros m' Hcap. rewrite (alive_state m m' d) by (unfold hdr_state; by rewrite Hcap). done. }
  unfold call_wait. dgo. change (d_u32HasReply (px_post c r x)) with false. cbv iota. dgo. rewrite (Hal' m1 Hc1), He. cbn [negb].
  dgo. eapply wp_park; [by eapply dmove_door|by eapply awake_move|]. intros m2 Hm2 Hc2 Hr2. rewrite (mv_own _ _ _ _ _ _ Hm1) in Hm2.
  pose proof (dmove_trans _ _ _ _ _ _ _ _ _ Hm1 Hm2) as Hm. clear D.
  pose proof (dres_refl d _ m2 (dmove_door _ _ _ _ _ _ Hm2)) as D. assert (is_Some (m_objs (dm_cap m2) !! d)) as Hh2 by (by rewrite Hc2).
  dgo. change (d_u32HasReply (px_post c r x)) with false. cbn [orb]. rewrite (Hal' m2) by congruence. cbn [negb]. dgo. split; [done|]. split.
  - rewrite (absm_move _ _ _ _ _ _ Hm). f_equal. unfold a_post, abs. rewrite (Hal' m2) by congruence. cbn. rewrite Hal. f_equal.
    unfold swept. rewrite (mv_own _ _ _ _ _ _ Hm). by rewrite orb_true_r.
  - eapply (dinv_claim _ _ _ _ _ _ _ _ _ Hi E Hm c dl); try done; [apply Haw| |apply Haw|].
    { destruct Haw as [Ht _]. apply lookup_lt_is_Some in Ht. by destruct Hsz as [<- _]. }
    apply Hal'. congruence.
Qed.

Lemma dinv_pcs pcs pcs' m : (forall c d, pc_waits pcs' c d <-> pc_waits pcs c d) -> dinv pcs m -> dinv pcs' m.
Proof.
  intros Hp []. split; try done.
  - intros d x E. destruct (iv_door d x E) as [Q1 Q2 Q3 Q4 Q5 Q6]. split; try done.
    + intros c Hc. rewrite Hp. auto.
    + intros c Hc. apply Hp in Hc. auto.
    + intros i Ha. rewrite Hp. auto.
  - intros c d Hc. apply Hp in Hc. auto.
  - intros c d Hc. apply Hp in Hc. eauto.
  - intros c d o g Hc. apply Hp in Hc. by apply iv_park.
Qed.

(** The program counter of a thread that is not a client. *)
Lemma pc_other pcs c p :
  (forall d', ~ pc_waits pcs c d') -> (forall d dl, p <> Some (PcWait d dl)) ->
  forall c' d', pc_waits (partial_alter (fun _ => p) c pcs) c' d' <-> pc_waits pcs c' d'.
Proof.
  intros Hno Hp c' d'. unfold pc_waits. destruct (decide (c = c')) as [<-|Hne]; [|by rewrite lookup_partial_alter_ne].
  rewrite lookup_partial_alter_eq. split; [intros [dl ->]; by destruct (Hp d' dl)|intros Hw; by destruct (Hno d')].
Qed.

Lemma pc_out pcs c d r dl v : (forall d', ~ pc_waits pcs c d') ->
  forall c' d', pc_waits (call_pcs c d r dl (CallRet v) pcs) c' d' <-> pc_waits pcs c' d'.
Proof. intros Hno. by apply (pc_other pcs c None). Qed.

Lemma pc_slot pcs c d r dl : (forall d', ~ pc_waits pcs c d') ->
  forall c' d', pc_waits (call_pcs c d r dl CallSlot pcs) c' d' <-> pc_waits pcs c' d'.
Proof. intros Hno. by apply (pc_other pcs c (Some (PcSlot d r dl))). Qed.

(** Nothing of the promise has changed. *)
Lemma absm_quiet d x x' rt new m m' :
  dmove d x' rt new m m' -> dm_doors m !! d = Some x -> abs m' d x' = abs m d x -> absm m' = absm m.
Proof.
  intros Hm E Ha. rewrite (absm_move _ _ _ _ _ _ Hm), Ha. apply insert_id. by rewrite absm_lookup, E.
Qed.

Lemma wp_call_fail pcs m d x c r dl s e :
  dinv pcs m -> dm_doors m !! d = Some x -> (forall d', ~ pc_waits pcs c d') ->
  wp (call_fail s e) (fun o m' => o = CallRet (- e) /\ absm m' = absm m /\ dinv (call_pcs c d r dl o pcs) m') m.
Proof.
  intros Hi E Hno. pose proof (iv_sized _ _ Hi) as Hsz. pose proof (iv_lean _ _ Hi) as Hl. pose proof (dres_refl d x m E) as D.
  unfold call_fail. dgo. split; [done|].
  dlast D0 n0. pose proof (dres_move _ _ _ _ _ _ _ D0 E) as Hm. split.
  - eapply absm_quiet; [exact Hm|exact E|]. by rewrite (abs_dres _ _ _ _ _ _ D0).
  - eapply dinv_keep; [exact Hi|exact E|exact Hm|done|done|done|done| |by apply pc_out|done].
    intros c' _. apply alive_state. unfold hdr_state. by rewrite (dr_cap _ _ _ _ _ _ D0).
Qed.

Lemma wp_thr_gone m h (Q : bool -> door_mem -> Prop) :
  is_Some (dthreads m !! h) -> Q (gone (dthreads m) h) m -> wp (thr_gone h) Q m.
Proof.
  intros [p E] HQ. unfold thr_gone. apply wp_bind, wp_get. unfold gone in HQ. unfold dthreads in *. rewrite E in *. by apply wp_ret.
Qed.

(** One turn at a door whose holder is not dead. *)
Lemma wp_claim_turn f pcs m d x c r dl ready now :
  dinv pcs m -> dm_doors m !! d = Some x -> (forall d', ~ pc_waits pcs c d') -> awake (dthreads m) c ->
  (forall h, d_pClient x = Some h -> alive d m x = true -> call_expired dl ready now = false -> gone (dthreads m) h = false) ->
  wp (call_claim (S f) d c r dl ready now) (fun o m' =>
    (absm m', o) = a_claim (gone (dthreads m)) d c r (call_expired dl ready now) (absm m) /\
    dinv (call_pcs c d r dl o pcs) m') m.
Proof.
  intros Hi E Hno Haw Hg. pose proof (iv_sized _ _ Hi) as Hsz. pose proof (dinv_hdr _ _ _ _ Hi E) as Hh.
  pose proof (dres_refl d x m E) as D. unfold a_claim. rewrite absm_lookup, E. cbn [fmap option_fmap option_map abs a_live a_flight].
  cbn [call_claim]. dgo. destruct (alive d m x) eqn:Hal; cbn [negb].
  2:{ eapply wp_mono; [by apply (wp_call_fail pcs m d x c r dl)|]. intros o m' (-> & -> & Hd). done. }
  destruct (call_expired dl ready now) eqn:He.
  { dgo. dlast D1 n1.
    pose proof (dres_move _ _ _ _ _ _ _ D1 E) as Hm.
    assert (dinv pcs n1) as Hi1.
    { eapply dinv_keep; [exact Hi|exact E|exact Hm|done|done|done|done| |done|done].
      intros c' _. rewrite (alive_state m n1 d) by (unfold hdr_state; by rewrite (dr_cap _ _ _ _ _ _ D1)). done. }
    eapply wp_mono; [by apply (wp_call_fail pcs n1 d (count_timeout x) c r dl); [|eapply dres_door|]|].
    intros o m' (-> & -> & Hd). split; [|done]. f_equal. eapply absm_quiet; [exact Hm|exact E|]. by rewrite (abs_dres _ _ _ _ _ _ D1). }
  dgo. unfold flight_of. destruct (d_pClient x) as [h|] eqn:Hc; cbn [fl_client].
  - specialize (Hg h eq_refl eq_refl eq_refl). rewrite Hg. dgo. apply wp_thr_gone; [by eapply client_thread|]. rewrite Hg. dgo.
    eapply wp_park; [exact E|exact Haw|]. intros m1 Hm Hcap Hrep. clear D.
    pose proof (dres_refl d x m1 (dmove_door _ _ _ _ _ _ Hm)) as D. assert (is_Some (m_objs (dm_cap m1) !! d)) as Hh1 by (by rewrite Hcap).
    assert (forall y, alive d m1 y = alive d m y) as Hal1 by (intros y; apply alive_state; unfold hdr_state; by rewrite Hcap).
    dgo. rewrite Hc, bool_decide_false, Hal1, Hal by done. cbn [orb negb]. dgo. split.
    + f_equal. eapply absm_quiet; [exact Hm|exact E|]. unfold abs, swept. by rewrite Hrep, Hal1.
    + eapply dinv_keep; [exact Hi|exact E|exact Hm|done|done|done|done| |by apply pc_slot|]; [by intros|].
      intros i o g [= <- <- <-]. split; [done|]. left. by split.
  - eapply wp_mono; [by apply (wp_claim_free pcs m d x c r dl)|]. intros o m' (-> & -> & Hd). done.
Qed.

Lemma swept_client pcs m d x c : dinv pcs m -> dm_doors m !! d = Some x -> d_pClient x = Some c -> swept m d = true.
Proof.
  intros Hi E Hc. unfold swept. rewrite (do_right _ _ _ _ (iv_door _ _ Hi d x E) c Hc). apply orb_true_r.
Qed.

Lemma px_exit_client t x : d_pClient x = Some t -> d_pClient (px_exit t x) = None.
Proof. intros Hc. by destruct (px_exit_cases t x) as [(_ & _ & H & _)|[(H & _)|(H & _)]]. Qed.

(** The turn of a caller: a dead holder is swept away first. *)
Lemma wp_call_claim pcs m d x c r dl ready now :
  dinv pcs m -> dm_doors m !! d = Some x -> (forall d', ~ pc_waits pcs c d') -> awake (dthreads m) c ->
  wp (call_claim CLAIM_FUEL d c r dl ready now) (fun o m' =>
    (absm m', o) = a_claim (gone (dthreads m)) d c r (call_expired dl ready now) (absm m) /\
    dinv (call_pcs c d r dl o pcs) m') m.
Proof.
  intros Hi E Hno Haw.
  destruct (match d_pClient x with
            | Some h => alive d m x && negb (call_expired dl ready now) && gone (dthreads m) h
            | None => false
            end) eqn:Hb.
  2:{ apply (wp_claim_turn 1 pcs m d x); [done..|]. intros h Hc Hal He. by rewrite Hc, Hal, He in Hb. }
  destruct (d_pClient x) as [h|] eqn:Hc; [|done]. rewrite !andb_true_iff, negb_true_iff in Hb. destruct Hb as [[Hal He] Hg].
  pose proof (dinv_hdr _ _ _ _ Hi E) as Hh. pose proof (dres_refl d x m E) as D.
  change CLAIM_FUEL with (S 1). remember 1%nat as f eqn:Hf. cbn [call_claim]. dgo. rewrite Hal, He. cbn [negb]. dgo. rewrite Hc. dgo.
  apply wp_thr_gone; [by eapply client_thread|]. rewrite Hg. dgo.
  eapply wp_thread_exit; [apply Hi|apply Hi|apply Hi|]. intros m1 done Hx Hdone.
  pose proof (dinv_exit _ _ _ _ _ Hi Hg Hx) as Hi1.
  assert (dm_doors m1 !! d = Some (px_exit h x)) as E1.
  { rewrite (xr_doors _ _ _ _ Hx), E. cbn. by rewrite Hdone, (swept_client pcs m d x h). }
  assert (alive d m1 (px_exit h x) = true) as Hal1.
  { rewrite (alive_state m m1 d), alive_exit; [done|]. unfold hdr_state. by rewrite (xr_cap _ _ _ _ Hx). }
  subst f. eapply wp_mono; [apply (wp_claim_turn 0 pcs m1 d (px_exit h x)); [done|done|done|eapply awake_wakes; [apply Hx|done]|]|].
  { intros h' Hc'. rewrite px_exit_client in Hc'; done. }
  intros o m' [Ha Hd]. split; [|done]. rewrite Ha. unfold a_claim. rewrite !absm_lookup, E, E1.
  cbn [fmap option_fmap option_map abs a_live a_flight]. rewrite Hal1, Hal, He. cbn [negb].
  assert (flight_of (px_exit h x) = None) as -> by (unfold flight_of; by rewrite px_exit_client).
  unfold flight_of at 1. rewrite Hc. cbn [fl_client]. rewrite Hg, <-(absm_exit _ _ _ _ Hx Hdone). f_equal.
  symmetry. apply alter_Some_insert. by rewrite absm_lookup, E1.
Qed.

(** ** The server *)
Definition recv_pcs (s : nat) (d : objp) (o : recv_res) (pcs : gmap nat dpc) : gmap nat dpc :=
  match o with
  | RecvOk _ | RecvErr _ => delete s pcs
  | RecvForeign => <[s := PcRecv d true]> pcs
  | RecvWait => <[s := PcRecv d false]> pcs
  end.

Lemma pc_recv pcs s d o : (forall d', ~ pc_waits pcs s d') -> forall c d', pc_waits (recv_pcs s d o pcs) c d' <-> pc_waits pcs c d'.
Proof.
  intros Hno. destruct o; [by apply (pc_other pcs s None)|by apply (pc_other pcs s None)|..].
  - by apply (pc_other pcs s (Some (PcRecv d true))).
  - by apply (pc_other pcs s (Some (PcRecv d false))).
Qed.

(** The flight of a door whose server or request flag changes. *)
Lemma recv_step pcs pcs' m m' d x x' rt new :
  dinv pcs m -> dm_doors m !! d = Some x -> dmove d x' rt new m m' -> dm_cap m' = dm_cap m ->
  rt = right_of (g_aReplySoft m) d ->
  d_pClient x' = d_pClient x -> d_u32HasReply x' = d_u32HasReply x -> (d_u32HasReq x' = true -> d_u32HasReq x = true) ->
  d_u32Ready x' = d_u32Ready x -> d_u32PeerDead x' = d_u32PeerDead x ->
  (forall c d', pc_waits pcs' c d' <-> pc_waits pcs c d') ->
  (forall i o g, new = Some (i, o, g) -> o = door_key d /\ g <> DOOR_TAG_CLIENT /\ forall d', ~ pc_waits pcs i d') ->
  absm m' = <[d := a_set (d_pServer x') (flight_of x') (abs m d x)]> (absm m) /\ dinv pcs' m'.
Proof.
  intros Hi E Hm Hcap Hrt H1 H2 H3 H4 H5 Hpc Hnew.
  assert (alive d m' x' = alive d m x) as Hal.
  { rewrite (alive_state m m' d) by (unfold hdr_state; by rewrite Hcap). unfold alive. by rewrite H4, H5. }
  split.
  - rewrite (absm_move _ _ _ _ _ _ Hm). f_equal. unfold abs, a_set. cbn. rewrite Hal, H4. f_equal. unfold swept.
    by rewrite (mv_own _ _ _ _ _ _ Hm), Hrt.
  - eapply dinv_keep; [exact Hi|exact E|exact Hm|done|done|done|done|done|done|].
    intros i o g Hn. destruct (Hnew _ _ _ Hn) as (-> & Hg & Hno). auto.
Qed.

(** A server parks, and is woken at once when there is something to do. *)
Lemma wp_park_server d x rt m n s (f : gj_door -> bool -> bool) o (Q : recv_res -> door_mem -> Prop) :
  dmove d x rt None m n -> dsized m -> dm_cap n = dm_cap m -> is_Some (m_objs (dm_cap m) !! d) -> awake (dthreads n) s ->
  (forall m', dmove d x rt (Some (s, door_key d, DOOR_TAG_SERVER)) m m' -> dm_cap m' = dm_cap m -> Q o m') ->
  wp (door_block s d DOOR_TAG_SERVER ;;; y <- ld_door d ;; lv <- door_live (Some d) ;;
      (if f y lv then door_wake d DOOR_TAG_SERVER 1 else pret tt) ;;; pret o) Q n.
Proof.
  intros Hn Hsz Hcn Hh Haw HQ. apply wp_bind. eapply wp_park; [by eapply dmove_door|exact Haw|]. intros m1 Hm1 Hc1 _.
  rewrite (mv_own _ _ _ _ _ _ Hn) in Hm1. pose proof (dmove_trans _ _ _ _ _ _ _ _ _ Hn Hm1) as Hm.
  pose proof (dres_refl d x m1 (dmove_door _ _ _ _ _ _ Hm)) as D. rewrite (mv_own _ _ _ _ _ _ Hm) in D.
  pose proof (dmove_dsized _ _ _ _ _ _ Hm Hsz) as Hsz1. assert (is_Some (m_objs (dm_cap m1) !! d)) as Hh1 by (by rewrite Hc1, Hcn).
  dgo. destruct (f x (alive d m1 x)); dgo.
  - dlast D1 n1.
    apply HQ; [by eapply dmove_dres|]. rewrite (dr_cap _ _ _ _ _ _ D1). congruence.
  - apply HQ; [done|congruence].
Qed.

(** A server takes its place and parks. *)
Lemma wp_recv_wait pcs m d x s :
  dinv pcs m -> dm_doors m !! d = Some x -> (forall d', ~ pc_waits pcs s d') -> awake (dthreads m) s ->
  wp (upd_door d (with_server (Some s)) ;;; tick64 "g_u64SoftRecvBlock" ;;; door_block s d DOOR_TAG_SERVER ;;;
      y <- ld_door d ;; lv <- door_live (Some d) ;;
      (if d_u32HasReq y || negb lv then door_wake d DOOR_TAG_SERVER 1 else pret tt) ;;; pret RecvWait) (fun o m' =>
    o = RecvWait /\ absm m' = <[d := a_set (Some s) (flight_of x) (abs m d x)]> (absm m) /\ dinv (recv_pcs s d o pcs) m') m.
Proof.
  intros Hi E Hno Haw. apply wp_bind. eapply wp_upd; [apply dres_refl, E|]. intros n1 D1 Ht. apply wp_bind, wp_tick64.
  pose proof (dres_move _ _ _ _ _ _ _ D1 E) as Hm1.
  eapply (wp_park_server _ _ _ _ _ _ (fun y lv => d_u32HasReq y || negb lv));
    [exact Hm1|apply Hi|apply D1|by eapply dinv_hdr|eapply awake_wakes; [apply D1|done]|].
  intros m' Hm Hcap. split; [done|].
  apply (recv_step pcs _ m m' d x (with_server (Some s) x) _ _ Hi E Hm); [done..|by apply pc_recv|].
  by intros i o g [= <- <- <-].
Qed.

Lemma wp_recv_loop pcs m d x s :
  dinv pcs m -> dm_doors m !! d = Some x -> (forall d', ~ pc_waits pcs s d') -> awake (dthreads m) s ->
  wp (recv_loop d s) (fun o m' =>
    o = snd (a_recv s (abs m d x)) /\ absm m' = <[d := fst (a_recv s (abs m d x))]> (absm m) /\ dinv (recv_pcs s d o pcs) m') m.
Proof.
  intros Hi E Hno Haw. pose proof (iv_sized _ _ Hi) as Hsz. pose proof (dinv_hdr _ _ _ _ Hi E) as Hh.
  pose proof (dres_refl d x m E) as D. pose proof (do_idle _ _ _ _ (iv_door _ _ Hi d x E)) as Hidle.
  assert (forall m' x' new o a, dmove d x' (right_of (g_aReplySoft m) d) new m m' -> dm_cap m' = dm_cap m -> d_pClient x' = d_pClient x ->
    d_u32HasReply x' = d_u32HasReply x -> (d_u32HasReq x' = true -> d_u32HasReq x = true) -> d_u32Ready x' = d_u32Ready x ->
    d_u32PeerDead x' = d_u32PeerDead x -> new = None \/ new = Some (s, door_key d, DOOR_TAG_SERVER) ->
    a_set (d_pServer x') (flight_of x') (abs m d x) = a ->
    absm m' = <[d := a]> (absm m) /\ dinv (recv_pcs s d o pcs) m') as Hstep.
  { intros m' x' new o a Hm Hcap ? ? ? ? ? Hnew <-. eapply recv_step; [exact Hi|exact E|exact Hm|done..|by apply pc_recv|].
    intros i o' g Hn. destruct Hnew as [->| ->]; [done|]. by injection Hn as <- <- <-. }
  unfold recv_loop, a_recv. cbn [abs a_live a_server a_flight]. dgo. destruct (alive d m x) eqn:Hal; cbn [negb].
  2:{ dgo. case_bool_decide as Hs; dgo; (split; [done|]); (eapply Hstep; [by eapply dres_move|by eapply dr_cap|..]; by auto). }
  dgo. unfold flight_of at 1 2. destruct (d_u32HasReq x) eqn:Hq; cbn [andb].
  - destruct (d_pClient x) as [c|] eqn:Hc; [|by destruct (Hidle eq_refl)]. cbn [fl_req fl_client fl_reply].
    destruct (bool_decide (d_pServer x = None) || bool_decide (d_pServer x = Some s)) eqn:Hf.
    + dgo. split; [done|]. dlast D1 n1.
      eapply Hstep; [by eapply dres_move|by eapply dr_cap|by auto..|]. unfold flight_of. cbn. by rewrite Hc.
    + apply orb_false_iff in Hf as [Hf1 Hf2]. apply bool_decide_eq_false in Hf1. rewrite Hf2.
      rewrite (bool_decide_true (is_Some (d_pServer x))) by (by apply not_eq_None_Some). cbn [andb negb].
      rewrite (bool_decide_true (is_Some (Some c))) by by eexists. apply wp_bind, wp_tick64.
      eapply (wp_park_server _ _ _ _ _ _ (fun y lv => d_u32HasReq y || negb lv || bool_decide (d_pServer y = None))); [eapply dres_move; [exact D|exact E]|done..|]. intros m' Hm Hcap. split; [done|].
      eapply Hstep; [exact Hm|done|first [by auto|cbn; congruence]..|]. unfold a_set, abs, flight_of. cbn. by rewrite Hc, Hq.
  - destruct (d_pClient x) as [c|] eqn:Hc; cbn [fl_req fl_client fl_reply].
    2:{ rewrite (bool_decide_false (is_Some None)), andb_false_r by (by intros []).
        eapply wp_mono; [by apply (wp_recv_wait pcs m d x s)|]. intros o m' (-> & -> & Hd). unfold flight_of. by rewrite Hc. }
    rewrite (bool_decide_true (is_Some (Some c))), andb_true_r by by eexists.
    destruct (bool_decide (d_pServer x = None) || bool_decide (d_pServer x = Some s)) eqn:Hf.
    + replace (bool_decide (is_Some (d_pServer x)) && negb (bool_decide (d_pServer x = Some s))) with false.
      2:{ destruct (d_pServer x) as [s'|]; [|done]. simpl in Hf. by rewrite Hf, andb_false_r. }
      eapply wp_mono; [by apply (wp_recv_wait pcs m d x s)|]. intros o m' (-> & -> & Hd). unfold flight_of. by rewrite Hc, Hq.
    + apply orb_false_iff in Hf as [Hf1 ->]. apply bool_decide_eq_false in Hf1.
      rewrite (bool_decide_true (is_Some (d_pServer x))) by (by apply not_eq_None_Some). cbn [andb negb]. apply wp_bind, wp_tick64.
      eapply (wp_park_server _ _ _ _ _ _ (fun y lv => d_u32HasReq y || negb lv || bool_decide (d_pServer y = None))); [eapply dres_move; [exact D|exact E]|done..|].
      intros m' Hm Hcap. split; [done|]. eapply Hstep; [exact Hm|done|first [by auto|cbn; congruence]..|]. unfold a_set, abs, flight_of. cbn. by rewrite Hc, Hq.
Qed.
