(* ===== verification/DoorSys.v ===== *)
(** Doors: the remaining calls, runs of the system and their simulation. *)
From stdpp Require Import base gmap list strings.
From Stdlib Require Import ZArith Lia.
From S2P Require Import Prelude CapTypes CapCnode CapInv CapDerive CapRevoke CapWalk CapDefer CapSystem CapLean CapLeanCnode CapLeanRevoke CapTrace LinuxAbi Thread ThreadProofs KernObj Door DoorProofs DoorOps DoorInv DoorSpec DoorCall.

(** * Entry points, replies and the death of a door against the specification. *)

(** ** Entry points *)
Definition a_call (gone : nat -> bool) (d : objp) (c : nat) (r : gj_linux_regs) (expired : bool) (D : gmap objp adoor) :
    gmap objp adoor * call_res :=
  if negb (from_option a_ready false (D !! d)) then (D, CallRet (- LINUX_ENOSYS)) else a_claim gone d c r expired D.

Lemma wp_call pcs m d x c r dl ready now :
  dinv pcs m -> dm_doors m !! d = Some x -> (forall d', ~ pc_waits pcs c d') -> awake (dthreads m) c ->
  wp (door_call_timeout (Some d) (Some r) dl (Some c) ready now) (fun o m' =>
    (absm m', o) = a_call (gone (dthreads m)) d c r (call_expired dl ready now) (absm m) /\
    dinv (call_pcs c d r dl o pcs) m') m.
Proof.
  intros Hi E Hno Haw. pose proof (dinv_hdr _ _ _ _ Hi E) as Hh. pose proof (dres_refl d x m E) as D.
  unfold door_call_timeout, a_call. rewrite absm_lookup, E. cbn [fmap option_fmap option_map from_option abs a_ready]. dgo.
  destruct (d_u32Ready x) eqn:Hr; cbn [negb].
  2:{ eapply wp_mono; [by apply (wp_call_fail pcs m d x c r dl)|]. by intros o m' (-> & -> & Hd). }
  dgo. destruct (alive d m x) eqn:Hal; cbn [negb]; [by apply wp_call_claim with x|].
  eapply wp_mono; [by apply (wp_call_fail pcs m d x c r dl)|]. intros o m' (-> & -> & Hd). split; [|done].
  unfold a_claim. rewrite absm_lookup, E. cbn [fmap option_fmap option_map abs a_live]. by rewrite Hal.
Qed.

Definition a_enter_recv (s : nat) (a : adoor) : adoor * recv_res :=
  if negb (a_ready a) then (a, RecvErr GJ_ERR_INVAL) else
  if negb (a_live a) then (a, RecvErr GJ_ERR_PEER_DEAD) else a_recv s a.

Lemma wp_recv pcs m d x s :
  dinv pcs m -> dm_doors m !! d = Some x -> (forall d', ~ pc_waits pcs s d') -> awake (dthreads m) s ->
  wp (door_recv (Some d) true (Some s)) (fun o m' =>
    o = snd (a_enter_recv s (abs m d x)) /\ absm m' = <[d := fst (a_enter_recv s (abs m d x))]> (absm m) /\
    dinv (recv_pcs s d o pcs) m') m.
Proof.
  intros Hi E Hno Haw. pose proof (dinv_hdr _ _ _ _ Hi E) as Hh. pose proof (dres_refl d x m E) as D.
  assert (forall o, absm m = <[d := abs m d x]> (absm m) /\ dinv (recv_pcs s d o pcs) m) as Hsame.
  { intros o. split; [|eapply dinv_pcs; [by apply pc_recv|done]]. symmetry. apply insert_id. by rewrite absm_lookup, E. }
  unfold door_recv, a_enter_recv. cbn [abs a_ready a_live negb]. dgo. destruct (d_u32Ready x); cbn [negb]; [|dgo; by split].
  dgo. destruct (alive d m x) eqn:Hal; cbn [negb]; [by apply wp_recv_loop|dgo; by split].
Qed.

Lemma wp_recv_resume pcs m d x s foreign :
  dinv pcs m -> dm_doors m !! d = Some x -> (forall d', ~ pc_waits pcs s d') -> awake (dthreads m) s ->
  wp (recv_resume d s foreign) (fun o m' =>
    o = snd (a_resume s foreign (abs m d x)) /\ absm m' = <[d := fst (a_resume s foreign (abs m d x))]> (absm m) /\
    dinv (recv_pcs s d o pcs) m') m.
Proof.
  intros Hi E Hno Haw. pose proof (dres_refl d x m E) as D. pose proof (do_idle _ _ _ _ (iv_door _ _ Hi d x E)) as Hidle.
  unfold recv_resume, a_resume. cbn [abs a_flight a_server]. unfold flight_of at 1 2. apply wp_bind.
  destruct foreign; cbn [negb andb].
  { dgo. destruct (d_pClient x); by apply wp_recv_loop. }
  dgo. destruct (d_pClient x) as [c|] eqn:Hc.
  { rewrite (bool_decide_false (Some c = None)), andb_false_r by done. dgo. by apply wp_recv_loop. }
  destruct Hidle as [-> _]; [done|]. rewrite (bool_decide_true (None = None)), andb_true_r by done. cbn [negb]. rewrite andb_true_r.
  case_bool_decide as Hs; [|dgo; by apply wp_recv_loop]. eapply wp_upd; [exact D|]. intros n D1 Ht.
  destruct (recv_step pcs pcs m n d x (with_server None x) (right_of (g_aReplySoft m) d) None) as [Ha Hi']; try done.
  { by eapply dres_move. }
  { apply D1. }
  eapply wp_mono; [eapply (wp_recv_loop pcs n d (with_server None x)); [done|by eapply dres_door|done|by eapply awake_wakes; [apply D1|]]|].
  assert (abs n d (with_server None x) = a_set None None (abs m d x)) as ->.
  { rewrite (abs_dres _ _ _ _ _ _ D1). unfold flight_of. cbn. by rewrite Hc. }
  intros o m' (-> & -> & Hd). split_and!; [done| |done]. rewrite Ha. by rewrite insert_insert_eq.
Qed.

(** ** Replies *)
Lemma wp_reply pcs m d x s v :
  dinv pcs m -> dm_doors m !! d = Some x ->
  wp (door_reply (Some d) v (Some s)) (fun _ m' => absm m' = <[d := a_reply s v (abs m d x)]> (absm m) /\ dinv pcs m') m.
Proof.
  intros Hi E. pose proof (dres_refl d x m E) as D. pose proof (iv_sized _ _ Hi) as Hsz. pose proof (iv_door _ _ Hi d x E) as Ho.
  assert (absm m = <[d := abs m d x]> (absm m) /\ dinv pcs m) as Hsame.
  { split; [|done]. symmetry. apply insert_id. by rewrite absm_lookup, E. }
  unfold door_reply, a_reply. cbn [abs a_ready a_flight a_server]. unfold flight_of at 1. dgo.
  destruct (d_u32Ready x) eqn:Hrd; cbn [negb]; [|by dgo].
  destruct (d_pClient x) as [c|] eqn:Hc; cbn [fl_reply fl_client fl_req].
  2:{ dgo. rewrite (bool_decide_true (is_Some (Some s))) by by eexists. cbn [andb]. case_bool_decide as Hs; [|by dgo]. dgo.
      dlast D1 nn.
      destruct (recv_step pcs pcs m nn d x (with_server None x) (right_of (g_aReplySoft m) d) None) as [-> Hi']; try done.
      { by eapply dres_move. }
      { apply D1. }
      split; [|done]. unfold flight_of. cbn. by rewrite Hc. }
  rewrite (do_right _ _ _ _ Ho c Hc) in D. dgo. cbn [default from_option]. destruct (d_u32HasReply x) eqn:Hr; cbn [negb id].
  - dgo. dlast D1 nn. cbn [spent] in D1.
    destruct (recv_step pcs pcs m nn d x x (Some false) None) as [-> Hi']; try done.
    { by eapply dres_move. }
    { apply D1. }
    { by rewrite (do_right _ _ _ _ Ho c Hc), Hr. }
  - dgo. dlast D1 nn. cbn [spent orb] in D1.
    pose proof (dres_move _ _ _ _ _ _ _ D1 E) as Hm. split.
    + rewrite (absm_move _ _ _ _ _ _ Hm), (abs_dres _ _ _ _ _ _ D1). f_equal. unfold a_set, flight_of. cbn. by rewrite Hc, Hrd.
    + eapply dinv_answer; [exact Hi|exact E|exact Hm|exact Hc|done..|]. eapply dr_up; [exact D1|done|by eapply dinv_sole].
Qed.

(** ** Abort *)
Lemma wp_abort_inv pcs m d x :
  dinv pcs m -> dm_doors m !! d = Some x ->
  wp (door_abort_waiters (Some d)) (fun _ m' => absm m' = <[d := a_abort false (abs m d x)]> (absm m) /\ dinv pcs m') m.
Proof.
  intros Hi E. pose proof (dres_refl d x m E) as D. pose proof (iv_sized _ _ Hi) as Hsz. pose proof (iv_door _ _ Hi d x E) as Ho.
  eapply wp_abort; [exact Hsz|exact D|]. intros m' D1. pose proof (dres_move _ _ _ _ _ _ _ D1 E) as Hm.
  assert (alive d m (px_abort x) = false) as Hal.
  { unfold alive, px_abort. destruct (d_pClient x); cbn; apply andb_false_r. }
  split.
  - rewrite (absm_move _ _ _ _ _ _ Hm), (abs_dres _ _ _ _ _ _ D1), Hal. f_equal. unfold a_abort, px_abort, flight_of, abs. cbn.
    rewrite andb_true_r. unfold flight_of. destruct (d_pClient x) as [c|] eqn:Hc; cbn; by rewrite Hc.
  - destruct (d_pClient x) as [c|] eqn:Hc.
    + eapply dinv_answer; [exact Hi|exact E|exact Hm|exact Hc| |done|done|..].
      * by rewrite (do_right _ _ _ _ Ho c Hc).
      * unfold px_abort. rewrite Hc. done.
      * unfold px_abort. rewrite Hc. done.
      * eapply dr_up; [exact D1|done|by eapply dinv_sole].
    + eapply dinv_keep; [exact Hi|exact E|exact Hm|..]; unfold px_abort; rewrite ?Hc; try done.
Qed.

(** ** Death *)

(** The same, whatever state the door was in. *)
Lemma wp_bury_any pcs m d x : dinv pcs m -> dm_doors m !! d = Some x -> forall n, dm_cap n = dm_cap m ->
  wp (h <- on_cap (obj_load d) ;;
      (if hdr_u32State h =? GJ_OBJ_LIVE then on_cap (gj_obj_revoke_begin soft_revoke_inventory_maybe_once (Some d)) ;;; pret tt
       else on_cap (obj_store d (hdr_set_state h GJ_OBJ_DEAD))))
    (fun _ n' => exists c', n' = set_dcap c' n /\ buried d (dm_cap m) c') n.
Proof.
  intros Hi E n Hn. destruct (iv_hdr _ _ Hi d x E) as [[h Eh] Hs]. unfold hdr_state in Hs. rewrite Eh in Hs. cbn in Hs.
  pose proof (iv_wf _ _ Hi) as Hw. rewrite <-Hn in *. apply wp_bind. eapply wp_cap_load; [exact Eh|].
  destruct Hs as [Hs|Hs]; rewrite Hs; cbn [Z.eqb]; cbv iota.
  - apply wp_bind. eapply wp_on_cap; [by apply (wp_bury d h)|]. intros st c' Hb. apply wp_ret. by exists c'.
  - eapply wp_on_cap; [by apply (wp_bury_again d h)|]. intros [] c' Hb. by exists c'.
Qed.

Lemma bury_move pcs m d x x1 rt n c' :
  dinv pcs m -> dm_doors m !! d = Some x -> dmove d x1 rt None m n -> dm_cap n = dm_cap m -> buried d (dm_cap m) c' ->
  dmove d x1 rt None m (set_dcap c' n).
Proof.
  intros Hi E Hm Hn [Hw (h & Eh & Hs) Ho]. destruct Hm. split; try done.
  - intros _. split; [by exists h|]. right. unfold hdr_state. cbn. by rewrite Eh.
  - intros d' Hne. specialize (Ho d' Hne). unfold hdr_state. cbn.
    destruct (m_objs c' !! d') as [a|], (m_objs (dm_cap m) !! d') as [b|]; try done. cbn. split; [by injection Ho|by eexists].
Qed.

Lemma wp_dead_inv pcs m d x :
  dinv pcs m -> dm_doors m !! d = Some x ->
  wp (door_mark_dead (Some d)) (fun _ m' => absm m' = <[d := a_abort true (abs m d x)]> (absm m) /\ dinv pcs m') m.
Proof.
  intros Hi E. pose proof (dres_refl d x m E) as D. pose proof (iv_sized _ _ Hi) as Hsz. pose proof (iv_door _ _ Hi d x E) as Ho.
  unfold door_mark_dead. apply wp_bind. eapply wp_upd; [exact D|]. intros n D1 _. pose proof (dres_move _ _ _ _ _ _ _ D1 E) as Hm1.
  apply wp_assoc.
  apply wp_bind. eapply wp_mono; [by eapply wp_bury_any; [exact Hi|exact E|apply D1]|]. intros _ n' (c' & -> & Hb).
  pose proof (bury_move _ _ _ _ _ _ _ _ Hi E Hm1 (dr_cap _ _ _ _ _ _ D1) Hb) as Hm2.
  pose proof (dres_refl d _ _ (dmove_door _ _ _ _ _ _ Hm2)) as D2. rewrite (mv_own _ _ _ _ _ _ Hm2) in D2.
  eapply wp_abort; [by eapply dmove_dsized|exact D2|]. intros m' D3. pose proof (dmove_dres _ _ _ _ _ _ _ _ _ _ Hm2 D3) as Hm.
  set (x' := px_abort (with_life false true x)) in *.
  assert (forall k, alive d k x' = false) as Hal.
  { intros k. unfold alive, x', px_abort. cbn. destruct (d_pClient x); reflexivity. }
  split.
  - rewrite (absm_move _ _ _ _ _ _ Hm). f_equal. unfold abs. rewrite Hal. unfold a_abort. cbn. rewrite andb_false_r.
    assert (swept m' d = swept m d) as ->.
    { rewrite (swept_rep _ _ _ (dr_rep _ _ _ _ _ _ D3)). apply (swept_rep _ _ _ (dr_rep _ _ _ _ _ _ D1)). }
    unfold x', px_abort, flight_of. cbn. destruct (d_pClient x) as [c|] eqn:Hc; cbn; by rewrite Hc.
  - destruct (d_pClient x) as [c|] eqn:Hc.
    + eapply dinv_answer; [exact Hi|exact E|exact Hm|exact Hc| |done|done|..].
      * by rewrite (do_right _ _ _ _ Ho c Hc).
      * unfold x', px_abort. cbn. by rewrite Hc.
      * unfold x', px_abort. cbn. by rewrite Hc.
      * eapply dr_up; [exact D3|cbn; by rewrite Hc|]. intros i j Ha Hb'. eapply (dinv_sole _ _ _ _ Hi E);
          (eapply asleep_wakes; [apply D1|done]).
    + eapply dinv_keep; [exact Hi|exact E|exact Hm|..]; unfold x', px_abort; cbn; rewrite ?Hc; try done.
Qed.

(** * Doors in use: any interleaving of calls, turns of parked threads, receives,
    replies, deaths of threads and of doors. *)

(** [thread_exit] up to [schedule]. *)
Definition thread_exit (t : nat) : prog door_mem unit :=
  on_threads (thread_exit_mark (Some t)) ;;; door_on_thread_exit (Some t).
(** The exits of the trap handler that leave the doors alone. *)
Definition thread_kill (t : nat) : prog door_mem unit := on_threads (thread_exit_mark (Some t)).

Record dsys : Type := MkDSys { ds_mem : door_mem; ds_pcs : gmap nat dpc }.

Inductive dev : Type :=
| EvCall (c : nat) (d : objp) (r : gj_linux_regs) (deadline : Z) (ready : bool) (now : Z)
| EvTurn (c : nat) (ready : bool) (now : Z)   (** a parked thread that was woken runs *)
| EvRecv (s : nat) (d : objp)
| EvReply (s : nat) (d : objp) (v : Z)
| EvExit (t : nat)
| EvKill (t : nat)
| EvAbort (d : objp)
| EvDead (d : objp)
| EvBadge (d : objp) (b : Z).

Inductive dout : Type :=
| OutCall (o : call_res)
| OutRecv (o : recv_res)
| OutDone.

(** Which events can happen: a thread that acts runs and is not parked in a door
    already, and doors exist. *)
Definition free_thr (s : dsys) (t : nat) : Prop := awake (dthreads (ds_mem s)) t /\ ds_pcs s !! t = None.
Definition door_at (s : dsys) (d : objp) : Prop := is_Some (dm_doors (ds_mem s) !! d).

Definition ev_ok (s : dsys) (e : dev) : Prop :=
  match e with
  | EvCall c d _ _ _ _ => free_thr s c /\ door_at s d
  | EvTurn c _ _ =>
      awake (dthreads (ds_mem s)) c /\
      match ds_pcs s !! c with
      | Some (PcSlot d _ _) | Some (PcWait d _) | Some (PcRecv d _) => door_at s d
      | None => False
      end
  | EvRecv c d | EvReply c d _ => free_thr s c /\ door_at s d
  | EvExit t | EvKill t => is_Some (dthreads (ds_mem s) !! t)
  | EvAbort d | EvDead d | EvBadge d _ => door_at s d
  end.

Definition ev_prog (pcs : gmap nat dpc) (e : dev) : prog door_mem dout :=
  match e with
  | EvCall c d r dl ready now => o <- door_call_timeout (Some d) (Some r) dl (Some c) ready now ;; pret (OutCall o)
  | EvTurn c ready now =>
      match pcs !! c with
      | Some (PcSlot d r dl) => o <- call_claim CLAIM_FUEL d c r dl ready now ;; pret (OutCall o)
      | Some (PcWait d dl) => o <- call_wait d c dl ready now ;; pret (OutCall o)
      | Some (PcRecv d f) => o <- recv_resume d c f ;; pret (OutRecv o)
      | None => pret OutDone
      end
  | EvRecv s d => o <- door_recv (Some d) true (Some s) ;; pret (OutRecv o)
  | EvReply s d v => door_reply (Some d) v (Some s) ;;; pret OutDone
  | EvExit t => thread_exit t ;;; pret OutDone
  | EvKill t => thread_kill t ;;; pret OutDone
  | EvAbort d => door_abort_waiters (Some d) ;;; pret OutDone
  | EvDead d => door_mark_dead (Some d) ;;; pret OutDone
  | EvBadge d b => door_set_badge (Some d) b ;;; pret OutDone
  end.

(** Where the acting thread is afterwards. *)
Definition ev_pcs (e : dev) (o : dout) (pcs : gmap nat dpc) : gmap nat dpc :=
  match e, o with
  | EvCall c d r dl _ _, OutCall o => call_pcs c d r dl o pcs
  | EvTurn c _ _, OutCall o =>
      match pcs !! c with
      | Some (PcSlot d r dl) => call_pcs c d r dl o pcs
      | Some (PcWait d dl) => call_pcs c d zero_regs dl o pcs
      | _ => pcs
      end
  | EvTurn c _ _, OutRecv o => match pcs !! c with Some (PcRecv d _) => recv_pcs c d o pcs | _ => pcs end
  | EvRecv s d, OutRecv o => recv_pcs s d o pcs
  | EvExit t, _ | EvKill t, _ => delete t pcs
  | _, _ => pcs
  end.

(** The same event on the promise. *)
Definition a_at {O} (d : objp) (f : adoor -> adoor * O) (o0 : O) (D : gmap objp adoor) : gmap objp adoor * O :=
  match D !! d with None => (D, o0) | Some a => (<[d := fst (f a)]> D, snd (f a)) end.

Definition a_step (gone : nat -> bool) (pcs : gmap nat dpc) (e : dev) (D : gmap objp adoor) : gmap objp adoor * dout :=
  match e with
  | EvCall c d r dl ready now => prod_map id OutCall (a_call gone d c r (call_expired dl ready now) D)
  | EvTurn c ready now =>
      match pcs !! c with
      | Some (PcSlot d r dl) => prod_map id OutCall (a_claim gone d c r (call_expired dl ready now) D)
      | Some (PcWait d dl) => prod_map id OutCall (a_at d (a_wait (call_expired dl ready now)) CallSlot D)
      | Some (PcRecv d f) => prod_map id OutRecv (a_at d (a_resume c f) RecvWait D)
      | None => (D, OutDone)
      end
  | EvRecv s d => prod_map id OutRecv (a_at d (a_enter_recv s) RecvWait D)
  | EvReply s d v => (alter (a_reply s v) d D, OutDone)
  | EvExit t => (a_exit t <$> D, OutDone)
  | EvAbort d => (alter (a_abort false) d D, OutDone)
  | EvDead d => (alter (a_abort true) d D, OutDone)
  | EvKill _ | EvBadge _ _ => (D, OutDone)
  end.

Lemma free_no_wait pcs t : pcs !! t = None -> forall d, ~ pc_waits pcs t d.
Proof. intros E d [dl E']. congruence. Qed.

Lemma absm_alter m d x f : dm_doors m !! d = Some x -> alter f d (absm m) = <[d := f (abs m d x)]> (absm m).
Proof. intros E. apply alter_Some_insert. by rewrite absm_lookup, E. Qed.

Lemma absm_at {O} m d x (f : adoor -> adoor * O) o0 :
  dm_doors m !! d = Some x -> a_at d f o0 (absm m) = (<[d := fst (f (abs m d x))]> (absm m), snd (f (abs m d x))).
Proof. intros E. unfold a_at. by rewrite absm_lookup, E. Qed.

(** ** Exits *)
Lemma wp_mark t m (Q : unit -> door_mem -> Prop) :
  is_Some (dthreads m !! t) -> Q tt (mark_exited t m) -> wp (on_threads (thread_exit_mark (Some t))) Q m.
Proof.
  intros [p E] HQ. apply wp_on_threads. unfold thread_exit_mark. wsteps.
  change (g_aThreads (thr_of m)) with (dthreads m). rewrite E. wsteps.
  replace (<[t := with_state GJ_THR_EXITED p]> (dthreads m)) with (alter exit_thr t (dthreads m)); [done|].
  apply list_eq. intros j. destruct (decide (t = j)) as [<-|Hne].
  - rewrite list_lookup_alter_eq, E, list_lookup_insert_eq by (by eapply lookup_lt_Some). done.
  - by rewrite list_lookup_alter_ne, list_lookup_insert_ne.
Qed.

Lemma absm_mark t m : absm (mark_exited t m) = absm m.
Proof. done. Qed.

Lemma wp_exit_inv pcs m t :
  dinv pcs m -> is_Some (dthreads m !! t) ->
  wp (thread_exit t) (fun _ m' => absm m' = a_exit t <$> absm m /\ dinv (delete t pcs) m') m.
Proof.
  intros Hi Ht. unfold thread_exit. apply wp_bind, wp_mark; [done|]. pose proof (dinv_kill t pcs m Hi Ht) as Hk.
  eapply wp_thread_exit; [apply Hk|apply Hk|apply Hk|]. intros m' done Hx Hd. split.
  - rewrite (absm_exit _ _ _ _ Hx Hd). by rewrite absm_mark.
  - eapply dinv_exit; [exact Hk| |exact Hx]. rewrite mark_gone, !bool_decide_true by done. done.
Qed.

(** ** Every event *)
Lemma ev_correct pcs m e :
  dinv pcs m -> ev_ok (MkDSys m pcs) e ->
  wp (ev_prog pcs e) (fun o m' => a_step (gone (dthreads m)) pcs e (absm m) = (absm m', o) /\ dinv (ev_pcs e o pcs) m') m.
Proof.
  intros Hi. destruct e as [c d r dl rd now|c rd now|s d|s d v|t|t|d|d|d b]; unfold ev_ok, free_thr, door_at; cbn [ds_mem ds_pcs ev_prog a_step].
  - intros [[Haw Hp] [x E]]. apply wp_bind. eapply wp_mono; [by apply (wp_call pcs m d x); [..|apply free_no_wait|]|].
    intros o m' [<- Hd]. by apply wp_ret.
  - intros [Haw Hp]. destruct (pcs !! c) as [[d r dl|d dl|d f]|] eqn:Ep; [..|done]; destruct Hp as [x E]; apply wp_bind.
    + eapply wp_mono; [apply (wp_call_claim pcs m d x); [done|done| |done]|]. { intros d' [dl' ?]. congruence. }
      intros o m' [<- Hd]. apply wp_ret. cbn [ev_pcs]. by rewrite Ep.
    + eapply wp_mono; [by apply (wp_call_wait pcs m d x c zero_regs)|]. intros o m' (-> & Ha & Hd). apply wp_ret.
      rewrite (absm_at m d x), Ha by done. cbn [ev_pcs]. by rewrite Ep.
    + eapply wp_mono; [apply (wp_recv_resume pcs m d x); [done|done| |done]|]. { intros d' [dl' ?]. congruence. }
      intros o m' (-> & Ha & Hd). apply wp_ret. rewrite (absm_at m d x), Ha by done. cbn [ev_pcs]. by rewrite Ep.
  - intros [[Haw Hp] [x E]]. apply wp_bind. eapply wp_mono; [by apply (wp_recv pcs m d x); [..|apply free_no_wait|]|].
    intros o m' (-> & Ha & Hd). apply wp_ret. rewrite (absm_at m d x), Ha by done. done.
  - intros [_ [x E]]. apply wp_bind. eapply wp_mono; [by apply (wp_reply pcs m d x)|]. intros _ m' [Ha Hd]. apply wp_ret.
    rewrite (absm_alter m d x) by done. by rewrite Ha.
  - intros Ht. apply wp_bind. eapply wp_mono; [by apply (wp_exit_inv pcs m t)|]. intros _ m' [Ha Hd]. apply wp_ret. by rewrite Ha.
  - intros Ht. apply wp_bind. apply wp_mark; [done|]. apply wp_ret. split; [done|]. by apply dinv_kill.
  - intros [x E]. apply wp_bind. eapply wp_mono; [by apply (wp_abort_inv pcs m d x)|]. intros _ m' [Ha Hd]. apply wp_ret.
    rewrite (absm_alter m d x) by done. by rewrite Ha.
  - intros [x E]. apply wp_bind. eapply wp_mono; [by apply (wp_dead_inv pcs m d x)|]. intros _ m' [Ha Hd]. apply wp_ret.
    rewrite (absm_alter m d x) by done. by rewrite Ha.
  - intros [x E]. apply wp_bind. unfold door_set_badge. pose proof (dres_refl d x m E) as D. apply wp_bind.
    eapply wp_upd; [exact D|]. intros n D1 _. apply wp_tick64, wp_ret. pose proof (dres_move _ _ _ _ _ _ _ D1 E) as Hm. split.
    + f_equal. symmetry. eapply absm_quiet; [exact Hm|exact E|]. by rewrite (abs_dres _ _ _ _ _ _ D1).
    + eapply dinv_keep; [exact Hi|exact E|exact Hm|done|done|done|done| |done|done].
      intros c' _. rewrite (alive_state m n d) by (unfold hdr_state; by rewrite (dr_cap _ _ _ _ _ _ D1)). done.
Qed.

(** ** Reachable states *)

(** Idle doors, nobody asleep on them, an unused reply table large enough. *)
Record door_boot (m : door_mem) : Prop := {
  db_sized : dsized m;
  db_lean : g_fLeanResidualOnce m = true;
  db_table : Forall (fun r => rp_pDoor r = None) (g_aReplySoft m) /\ (size (dm_doors m) <= DOOR_REPLY_SOFT_SLOTS)%nat;
  db_cold : is_Some (dm_doors m !! g_doorCold);
  db_wf : wf (dm_cap m);
  db_hdr : map_Forall (fun d _ => hdr_ok m d) (dm_doors m);
  db_idle : map_Forall (fun _ x => d_pClient x = None /\ d_u32HasReq x = false /\ d_u32HasReply x = false) (dm_doors m);
  db_awake : Forall (fun p => u32State p <> GJ_THR_BLOCKED) (dthreads m) }.

Inductive dreach : dsys -> Prop :=
| dreach_boot m : door_boot m -> dreach (MkDSys m ∅)
| dreach_step s e t o m' t' :
    dreach s -> ev_ok s e -> ev_prog (ds_pcs s) e (KSt (ds_mem s) t) = Some (o, KSt m' t') ->
    dreach (MkDSys m' (ev_pcs e o (ds_pcs s))).

Lemma boot_dinv m : door_boot m -> dinv ∅ m.
Proof.
  intros []. destruct db_table0 as [Hu Hs].
  assert (forall c d, ~ pc_waits ∅ c d) as Hno by (intros c d [dl E]; by rewrite lookup_empty in E).
  assert (omap rp_pDoor (g_aReplySoft m) = []) as Hem.
  { clear -Hu. induction Hu as [|r l Hr Hl IH]; [done|]. simpl. by rewrite Hr. }
  split; try done.
  - split_and!; [|rewrite Hem; constructor|done]. apply bound_in_elem. rewrite Hem. intros d Hd. by apply not_elem_of_nil in Hd.
  - intros d x E. destruct (db_idle0 d x E) as (H1 & H2 & H3). split; try congruence; try done.
    + intros c Hc. by destruct (Hno c d).
    + intros i (p & Ep & Hp & _). rewrite Forall_lookup in db_awake0. by destruct (db_awake0 i p Ep).
  - intros c d Hc. by destruct (Hno c d).
  - intros c d Hc. by destruct (Hno c d).
  - intros c d o g Hc. by destruct (Hno c d).
Qed.

Lemma dreach_dinv s : dreach s -> dinv (ds_pcs s) (ds_mem s).
Proof.
  induction 1 as [m Hb|s e t o m' t' Hr IH Hok Hrun]; [by apply boot_dinv|]. destruct s as [m pcs]. cbn [ds_mem ds_pcs] in *.
  by destruct (wp_run _ _ _ _ _ _ _ (ev_correct pcs m e IH Hok) Hrun).
Qed.

(** One event, with its outcome. *)
Definition dev_step (s : dsys) (e : dev) (o : dout) (s' : dsys) : Prop :=
  ev_ok s e /\ (exists t t', ev_prog (ds_pcs s) e (KSt (ds_mem s) t) = Some (o, KSt (ds_mem s') t')) /\
  ds_pcs s' = ev_pcs e o (ds_pcs s).

Lemma dev_step_reach s e o s' : dreach s -> dev_step s e o s' -> dreach s'.
Proof. intros Hr (Hok & (t & t' & Hrun) & Hp). destruct s' as [m' pcs']. cbn in *. subst pcs'. by eapply dreach_step. Qed.

Lemma dev_step_abs s e o s' :
  dreach s -> dev_step s e o s' -> a_step (gone (dthreads (ds_mem s))) (ds_pcs s) e (absm (ds_mem s)) = (absm (ds_mem s'), o).
Proof.
  intros Hr (Hok & (t & t' & Hrun) & _). destruct s as [m pcs]. cbn [ds_mem ds_pcs] in *.
  by destruct (wp_run _ _ _ _ _ _ _ (ev_correct pcs m e (dreach_dinv _ Hr) Hok) Hrun).
Qed.

(** Other events, which leave the promise of the door [d] and the call of [c] as
    they are. *)
Definition calm (d : objp) (c : nat) : dsys -> dsys -> Prop :=
  rtc (fun s s' => (exists e o, dev_step s e o s') /\ absm (ds_mem s') !! d = absm (ds_mem s) !! d /\ ds_pcs s' !! c = ds_pcs s !! c).

Lemma calm_keeps d c s s' :
  calm d c s s' -> dreach s -> dreach s' /\ absm (ds_mem s') !! d = absm (ds_mem s) !! d /\ ds_pcs s' !! c = ds_pcs s !! c.
Proof.
  induction 1 as [s|s1 s2 s3 ((e & o & Hs) & Ha & Hp) _ IH]; [done|]. intros Hr.
  destruct (IH (dev_step_reach _ _ _ _ Hr Hs)) as (H1 & H2 & H3). split_and!; [done|congruence|congruence].
Qed.

(** * Runs of the door system that can be evaluated, and the concrete system of
    the witnesses: thirty-two running threads, the cold door and one other. *)

Definition awakeb (m : door_mem) (c : nat) : bool :=
  match dthreads m !! c with
  | Some p => negb (bool_decide (u32State p = GJ_THR_BLOCKED)) && negb (gone (dthreads m) c)
  | None => false
  end.
Definition door_atb (s : dsys) (d : objp) : bool := bool_decide (is_Some (dm_doors (ds_mem s) !! d)).
Definition free_thrb (s : dsys) (t : nat) : bool := awakeb (ds_mem s) t && bool_decide (ds_pcs s !! t = None).

#[export] Instance regs_eq_dec : EqDecision gj_linux_regs.
Proof. solve_decision. Defined.
#[export] Instance dpc_eq_dec : EqDecision dpc.
Proof. solve_decision. Defined.

Definition ev_okb (s : dsys) (e : dev) : bool :=
  match e with
  | EvCall c d _ _ _ _ | EvRecv c d | EvReply c d _ => free_thrb s c && door_atb s d
  | EvTurn c _ _ =>
      awakeb (ds_mem s) c &&
      match ds_pcs s !! c with
      | Some (PcSlot d _ _) | Some (PcWait d _) | Some (PcRecv d _) => door_atb s d
      | None => false
      end
  | EvExit t | EvKill t => bool_decide (is_Some (dthreads (ds_mem s) !! t))
  | EvAbort d | EvDead d | EvBadge d _ => door_atb s d
  end.

Lemma awakeb_ok m c : awakeb m c = true -> awake (dthreads m) c.
Proof.
  unfold awakeb, awake. destruct (dthreads m !! c) as [p|] eqn:E; [|done]. rewrite andb_true_iff, !negb_true_iff.
  intros [Hb Hg]. apply bool_decide_eq_false in Hb. split_and!; [by eexists|done|]. intros o g (q & Eq & Hq & _). congruence.
Qed.

Lemma door_atb_ok s d : door_atb s d = true -> door_at s d.
Proof. apply bool_decide_eq_true. Qed.

Lemma free_thrb_ok s t : free_thrb s t = true -> free_thr s t.
Proof. unfold free_thrb, free_thr. rewrite andb_true_iff, bool_decide_eq_true. intros [H1 H2]. split; [by apply awakeb_ok|done]. Qed.

Lemma ev_okb_ok s e : ev_okb s e = true -> ev_ok s e.
Proof.
  destruct e; cbn [ev_okb ev_ok]; rewrite ?andb_true_iff, ?bool_decide_eq_true;
    try (intros [H1 H2]; split; [by apply free_thrb_ok|by apply door_atb_ok]); try done; try apply door_atb_ok.
  intros [H1 H2]. split; [by apply awakeb_ok|]. destruct (ds_pcs s !! c) as [[]|]; try done; by apply door_atb_ok.
Qed.

(** One event and several. *)
Definition run_ev (e : dev) (s : dsys) : option (dout * dsys) :=
  if ev_okb s e then
    match ev_prog (ds_pcs s) e (KSt (ds_mem s) ∅) with
    | Some (o, KSt m' _) => Some (o, MkDSys m' (ev_pcs e o (ds_pcs s)))
    | None => None
    end
  else None.

Fixpoint run_evs (l : list dev) (s : dsys) : option (list dout * dsys) :=
  match l with
  | [] => Some ([], s)
  | e :: l' =>
      match run_ev e s with
      | None => None
      | Some (o, s') =>
          match run_evs l' s' with
          | None => None
          | Some (os, s'') => Some (o :: os, s'')
          end
      end
  end.

Lemma run_ev_step e s o s' : run_ev e s = Some (o, s') -> dev_step s e o s'.
Proof.
  unfold run_ev. destruct (ev_okb s e) eqn:Hok; [|done].
  destruct (ev_prog (ds_pcs s) e (KSt (ds_mem s) ∅)) as [[o1 [m1 t1]]|] eqn:Er; [|done]. intros [= <- <-].
  split; [by apply ev_okb_ok|]. split; [|done]. by exists ∅, t1.
Qed.

Lemma run_evs_reach l : forall s os s', dreach s -> run_evs l s = Some (os, s') -> dreach s'.
Proof.
  induction l as [|e l IH]; intros s os s' Hr; cbn [run_evs]; [by intros [= _ <-]|].
  destruct (run_ev e s) as [[o s1]|] eqn:E; [|done]. destruct (run_evs l s1) as [[os1 s2]|] eqn:E2; [|done]. intros [= _ <-].
  eapply IH; [|exact E2]. eapply dev_step_reach; [exact Hr|by apply run_ev_step].
Qed.

(** ** The concrete system *)
Definition door_demo : door_mem :=
  MkDoorMem obj_caps run_thr_mem (two_objs (with_life true false zero_door))
    (replicate DOOR_REPLY_SOFT_SLOTS (MkReply None 0 false false)) 0 false true.

Lemma door_demo_boot : door_boot door_demo.
Proof.
  split.
  - split; vm_compute; reflexivity.
  - done.
  - split; [by apply Forall_replicate|vm_compute; lia].
  - by vm_compute; eexists.
  - apply obj_caps_wf.
  - apply two_objs_all; vm_compute; by eauto.
  - by apply two_objs_all.
  - apply run_threads_awake.
Qed.

Definition door_start : dsys := MkDSys door_demo ∅.
Lemma door_start_reach : dreach door_start.
Proof. apply dreach_boot, door_demo_boot. Qed.
