(* ===== verification/DoorClaims.v ===== *)
(** The properties of doors. *)
From stdpp Require Import base gmap list strings.
From Stdlib Require Import ZArith Lia.
From S2P Require Import Prelude CapTypes CapInv CapSystem CapLean CapLeanCnode CapLeanRevoke CapTrace LinuxAbi Thread ThreadProofs KernObj Door DoorProofs DoorOps DoorInv DoorSpec DoorCall DoorSys.


(** C20: a client never sleeps through its answer.  In every reachable state, if
    the flight of a client that is parked for its answer has been answered, or
    its door is no longer live, then the client is awake, and its next turn
    returns the answer. *)
Theorem door_client_wakes s c d dl x :
  dreach s -> ds_pcs s !! c = Some (PcWait d dl) -> dm_doors (ds_mem s) !! d = Some x ->
  d_u32HasReply x = true \/ alive d (ds_mem s) x = false ->
  awake (dthreads (ds_mem s)) c /\
  forall ready now t, exists m' t',
    ev_prog (ds_pcs s) (EvTurn c ready now) (KSt (ds_mem s) t) = Some (OutCall (CallRet (d_i64Reply x)), KSt m' t').
Proof.
  intros Hr Hp E Hor. pose proof (dreach_dinv _ Hr) as Hi. destruct s as [m pcs]. cbn [ds_mem ds_pcs] in *.
  assert (pc_waits pcs c d) as Hw by (by exists dl). pose proof (iv_door _ _ Hi d x E) as Ho.
  pose proof (do_pc _ _ _ _ Ho c Hw) as Hc.
  assert (d_u32HasReply x = true) as Hrep by (destruct Hor; [done|by eapply do_dead]).
  assert (awake (dthreads m) c) as Haw.
  { split_and!; [by eapply client_thread|by eapply iv_pc|]. intros o g Ha. destruct (iv_park _ _ Hi c d o g Hw Ha) as [-> ->].
    destruct (do_sleep _ _ _ _ Ho c Ha). congruence. }
  split; [done|]. intros ready now t.
  assert (ev_ok (MkDSys m pcs) (EvTurn c ready now)) as Hok by (split; [done|]; cbn; rewrite Hp; by eexists).
  destruct (ev_correct pcs m _ Hi Hok t) as (o & m' & t' & Er & Ha & _). cbn [a_step] in Ha. rewrite Hp in Ha.
  rewrite (absm_at m d x) in Ha by done. cbn in Ha. unfold flight_of, a_wait in Ha. cbn in Ha. unfold flight_of in Ha.
  rewrite Hc in Ha. cbn in Ha. rewrite Hrep in Ha. cbn in Ha. injection Ha as _ <-. by exists m', t'.
Qed.

(** C33: a call through a free live door is a remote procedure call: the caller
    is parked, the server receives exactly the request of the caller, and the
    value the server replies is what the call returns, whatever happens in
    between at other doors and among other threads. *)
Theorem door_round_trip s0 s1 s1' s2 s2' s3 s3' s4 x c sv d r v ready now ready' now' o1 o2 o3 o4 :
  dreach s0 -> dm_doors (ds_mem s0) !! d = Some x -> d_pClient x = None -> alive d (ds_mem s0) x = true ->
  d_pServer x = None \/ d_pServer x = Some sv ->
  dev_step s0 (EvCall c d r 0 ready now) o1 s1 -> calm d c s1 s1' ->
  dev_step s1' (EvRecv sv d) o2 s2 -> calm d c s2 s2' ->
  dev_step s2' (EvReply sv d v) o3 s3 -> calm d c s3 s3' ->
  dev_step s3' (EvTurn c ready' now') o4 s4 ->
  o1 = OutCall CallWait /\ o2 = OutRecv (RecvOk r) /\ o4 = OutCall (CallRet v).
Proof.
  intros Hr0 E Hc Hal Hsv H1 C1 H2 C2 H3 C3 H4.
  assert (d_u32Ready x = true) as Hrd by (unfold alive in Hal; by destruct (d_u32Ready x)).
  pose proof (dev_step_abs _ _ _ _ Hr0 H1) as A1. cbn [a_step] in A1. unfold a_call, a_claim in A1.
  rewrite absm_lookup, E in A1. cbn in A1. unfold flight_of in A1. rewrite Hrd, Hal, Hc in A1. cbn in A1. injection A1 as A1 <-.
  pose proof (dev_step_reach _ _ _ _ Hr0 H1) as Hr1. destruct (calm_keeps _ _ _ _ C1 Hr1) as (Hr1' & E1 & P1).
  rewrite <-A1, lookup_insert_eq in E1. pose proof (proj2 (proj2 H1)) as P0. cbn in P0. rewrite P0, lookup_insert_eq in P1.
  pose proof (dev_step_abs _ _ _ _ Hr1' H2) as A2. cbn [a_step] in A2. unfold a_at in A2. rewrite E1 in A2.
  unfold a_enter_recv, a_recv in A2. cbn in A2. rewrite Hrd, Hal in A2. cbn in A2.
  replace (bool_decide (d_pServer x = None) || bool_decide (d_pServer x = Some sv)) with true in A2
    by (destruct Hsv as [->| ->]; [done|by rewrite (bool_decide_true (Some sv = Some sv)), orb_true_r]).
  cbn in A2. injection A2 as A2 <-.
  pose proof (dev_step_reach _ _ _ _ Hr1' H2) as Hr2. destruct (calm_keeps _ _ _ _ C2 Hr2) as (Hr2' & E2 & P2).
  rewrite <-A2, lookup_insert_eq in E2.
  pose proof (dev_step_abs _ _ _ _ Hr2' H3) as A3. cbn [a_step] in A3. rewrite (alter_Some_insert _ _ _ _ E2) in A3.
  unfold a_reply in A3. cbn in A3. rewrite Hrd in A3. cbn in A3. injection A3 as A3 <-.
  pose proof (dev_step_reach _ _ _ _ Hr2' H3) as Hr3. destruct (calm_keeps _ _ _ _ C3 Hr3) as (Hr3' & E3 & P3).
  rewrite <-A3, lookup_insert_eq in E3.
  assert (ds_pcs s3' !! c = Some (PcWait d 0)) as Hpc.
  { rewrite P3. pose proof (proj2 (proj2 H3)) as Q3. cbn in Q3. rewrite Q3, P2. pose proof (proj2 (proj2 H2)) as Q2. cbn in Q2.
    rewrite Q2. destruct (decide (sv = c)) as [->|Hne]; [|by rewrite lookup_delete_ne].
    destruct H2 as [[[_ Hfree] _] _]. congruence. }
  pose proof (dev_step_abs _ _ _ _ Hr3' H4) as A4. cbn [a_step] in A4. rewrite Hpc in A4. unfold a_at in A4. rewrite E3 in A4.
  cbn in A4. injection A4 as _ <-. done.
Qed.

(** ** Witnesses *)
Definition rq (n : Z) : gj_linux_regs := MkRegs n 0 0 0 0 0 0 0.
Definition after (l : list dev) : dsys := from_option snd door_start (run_evs l door_start).
Definition outs (l : list dev) : option (list dout) := fst <$> run_evs l door_start.

Lemma after_reach l : dreach (after l).
Proof.
  unfold after. destruct (run_evs l door_start) as [[os s]|] eqn:E; [|apply door_start_reach].
  by eapply run_evs_reach; [apply door_start_reach|].
Qed.

Definition w_call : dev := EvCall 1 2%positive (rq 7) 0 true 0.
Definition w_recv : dev := EvRecv 2 2%positive.
Definition w_reply : dev := EvReply 2 2%positive 55.
Definition w_turn : dev := EvTurn 1 true 3.


Definition door_of (s : dsys) (d : objp) : gj_door := default zero_door (dm_doors (ds_mem s) !! d).

Lemma door_client_wakes_witness :
  awake (dthreads (ds_mem (after [w_call; w_recv; w_reply]))) 1 /\
  forall ready now t, exists m' t',
    ev_prog (ds_pcs (after [w_call; w_recv; w_reply])) (EvTurn 1 ready now) (KSt (ds_mem (after [w_call; w_recv; w_reply])) t) =
    Some (OutCall (CallRet (d_i64Reply (door_of (after [w_call; w_recv; w_reply]) 2%positive))), KSt m' t').
Proof.
  apply (door_client_wakes _ 1 2%positive 0); [apply after_reach|vm_compute; reflexivity|vm_compute; reflexivity|].
  left. vm_compute. reflexivity.
Defined.

Lemma door_round_trip_witness :
  OutCall CallWait = OutCall CallWait /\ OutRecv (RecvOk (rq 7)) = OutRecv (RecvOk (rq 7)) /\
  OutCall (CallRet 55) = OutCall (CallRet 55).
Proof.
  apply (door_round_trip door_start (after [w_call]) (after [w_call]) (after [w_call; w_recv]) (after [w_call; w_recv])
    (after [w_call; w_recv; w_reply]) (after [w_call; w_recv; w_reply]) (after [w_call; w_recv; w_reply; w_turn])
    (door_of door_start 2%positive) 1 2 2%positive (rq 7) 55 true 0 true 3 (OutCall CallWait) (OutRecv (RecvOk (rq 7))) OutDone
    (OutCall (CallRet 55))).
  - apply door_start_reach.
  - vm_compute. reflexivity.
  - vm_compute. reflexivity.
  - vm_compute. reflexivity.
  - left. vm_compute. reflexivity.
  - apply run_ev_step. vm_compute. reflexivity.
  - apply rtc_refl.
  - apply run_ev_step. vm_compute. reflexivity.
  - apply rtc_refl.
  - apply run_ev_step. vm_compute. reflexivity.
  - apply rtc_refl.
  - apply run_ev_step. vm_compute. reflexivity.
Defined.

(** ** What the code does not prevent *)

(** The client of a taken request exits, another thread claims the door, and the
    server's late reply answers the new request, which no server has seen. *)
Example late_reply_misdelivered :
  outs [w_call; w_recv; EvExit 1; EvCall 3 2%positive (rq 8) 0 true 0; EvReply 2 2%positive 70; EvTurn 3 true 0] =
  Some [OutCall CallWait; OutRecv (RecvOk (rq 7)); OutDone; OutCall CallWait; OutDone; OutCall (CallRet 70)].
Proof. vm_compute. reflexivity. Qed.

(** A server that parks on a door without calls and then exits stays its server:
    the next request is posted, and other servers park behind the dead one. *)
Example dead_server_keeps_door :
  outs [EvRecv 2 2%positive; EvExit 2; w_call; EvRecv 3 2%positive] =
  Some [OutRecv RecvWait; OutDone; OutCall CallWait; OutRecv RecvForeign] /\
  d_pServer (door_of (after [EvRecv 2 2%positive; EvExit 2; w_call; EvRecv 3 2%positive]) 2%positive) = Some 2%nat.
Proof. split; vm_compute; reflexivity. Qed.

(** A dead door wakes eight of the callers that wait for its slot, and the client one more; the tenth
    stays asleep when all the others have returned. *)
Definition contenders : list dev := (fun c => EvCall c 2%positive (rq 0) 0 true 0) <$> seq 1 11.
Definition turns : list dev := (fun c => EvTurn c true 0) <$> seq 1 10.
Example dead_door_leaves_a_caller :
  outs (contenders ++ EvDead 2%positive :: turns) =
  Some (OutCall CallWait :: replicate 10 (OutCall CallSlot) ++ OutDone :: replicate 10 (OutCall (CallRet (- LINUX_EIO)))) /\
  asleep_on (dthreads (ds_mem (after (contenders ++ EvDead 2%positive :: turns)))) 11 (door_key 2%positive) DOOR_TAG_SLOT /\
  d_u32Ready (door_of (after (contenders ++ EvDead 2%positive :: turns)) 2%positive) = false.
Proof.
  split_and!; [vm_compute; reflexivity| |vm_compute; reflexivity].
  eexists. split_and!; vm_compute; reflexivity.
Qed.
