(* ===== verification/Notify.v ===== *)
(** Notifications, [kernel/ipc/notify.c]: objects with a word of pending badge
    bits that interrupts and threads set and threads wait for.

    The object header lives in the capability memory; the thread table is that of
    [Thread.v].  A wait is cut where the thread gives up the processor, as for
    doors.  Interrupts may pulse an object while a thread is inside
    [notify_wait]: the pulses that arrive between the load of the pending word and
    its compare-and-swap, before the thread blocks and before the word is sampled
    again are arguments of the turn.

    The self-check at start-up and the printed inventory are not modelled. *)
From stdpp Require Import base gmap list strings.
From Stdlib Require Import ZArith Lia.
From S2P Require Import Prelude CapTypes CapCnode CapRevoke CapLean Thread KernObj.

Definition NOTIFY_SOFT_MULTI_MAX : Z := 8.
Definition NOTIFY_TAG_WAITER : Z := 1.
Definition NOTIFY_WAKER_DRAIN_ROUNDS : nat := 4.

(** [struct gj_notify] without its header. *)
Record gj_notify : Type := MkNotify {
  n_u32Ready : bool;
  n_u32Signals : Z;
  n_u64Pending : Z;
  n_u64LastBadge : Z;
  n_pWaiter : option nat;
  n_u32Waiters : Z }.

Record ntf_mem : Type := MkNtfMem {
  nm_cap : cap_mem;
  nm_thr : thr_mem;
  nm_objs : gmap objp gj_notify;
  g_fSoftStatsOnce : bool }.

(** The address of a notification as a wait object. *)
Definition ntf_key (n : objp) : Z := Zpos n.

Definition set_ncap (c : cap_mem) (m : ntf_mem) : ntf_mem := MkNtfMem c (nm_thr m) (nm_objs m) (g_fSoftStatsOnce m).
Definition set_nthr (t : thr_mem) (m : ntf_mem) : ntf_mem := MkNtfMem (nm_cap m) t (nm_objs m) (g_fSoftStatsOnce m).
Definition set_nobjs (l : gmap objp gj_notify) (m : ntf_mem) : ntf_mem := MkNtfMem (nm_cap m) (nm_thr m) l (g_fSoftStatsOnce m).
Definition set_stats_once (m : ntf_mem) : ntf_mem := MkNtfMem (nm_cap m) (nm_thr m) (nm_objs m) true.

#[export] Instance ntf_has_threads : HasThreads ntf_mem :=
  {| thr_of := nm_thr; thr_upd := set_nthr; thr_of_upd := fun t m => eq_refl |}.
#[export] Instance ntf_has_caps : HasCaps ntf_mem.
Proof. refine {| cap_of := nm_cap; cap_upd := set_ncap |}; [done|by intros []]. Defined.

(** Loads and stores of one object. *)
Definition ld_ntf (n : objp) : prog ntf_mem gj_notify :=
  m <- pget ;; match nm_objs m !! n with Some x => pret x | None => pfault end.
Definition upd_ntf (n : objp) (f : gj_notify -> gj_notify) : prog ntf_mem unit :=
  m <- pget ;; match nm_objs m !! n with Some x => pput (set_nobjs (<[n := f x]> (nm_objs m)) m) | None => pfault end.

Definition with_ready (r : bool) (x : gj_notify) : gj_notify :=
  MkNotify r (n_u32Signals x) (n_u64Pending x) (n_u64LastBadge x) (n_pWaiter x) (n_u32Waiters x).
Definition with_pending (p : Z) (x : gj_notify) : gj_notify :=
  MkNotify (n_u32Ready x) (n_u32Signals x) p (n_u64LastBadge x) (n_pWaiter x) (n_u32Waiters x).
Definition with_signal (b : Z) (x : gj_notify) : gj_notify :=
  MkNotify (n_u32Ready x) (u32_wrap (n_u32Signals x + 1)) (Z.lor (n_u64Pending x) b) b (n_pWaiter x) (n_u32Waiters x).
Definition with_waiter (w : option nat) (x : gj_notify) : gj_notify :=
  MkNotify (n_u32Ready x) (n_u32Signals x) (n_u64Pending x) (n_u64LastBadge x) w (n_u32Waiters x).
Definition with_waiters (k : Z) (x : gj_notify) : gj_notify :=
  MkNotify (n_u32Ready x) (n_u32Signals x) (n_u64Pending x) (n_u64LastBadge x) (n_pWaiter x) (u32_wrap k).

(** ** Counters *)

(** [notify_soft_popcount64], on the 64 bits of a badge. *)
Fixpoint popcount_loop (fuel : nat) (v c : Z) : Z :=
  match fuel with
  | O => c
  | S f => if v =? 0 then c else popcount_loop f (Z.shiftr v 1) (u32_wrap (c + Z.land v 1))
  end.
Definition notify_soft_popcount64 (v : Z) : Z := popcount_loop 64 v 0.

Definition notify_soft_add (c : string) (k : Z) : prog ntf_mem unit :=
  if k =? 0 then pret tt else t <- ptel ;; ptel_put (<[c := u64_wrap (tel_val t c + k)]> t).

Definition notify_soft_note_wake (cWoken : Z) : prog ntf_mem unit :=
  if cWoken =? 0 then tick64 "u64MultiWakeZero" else
  notify_soft_add "u64MultiWakeSum" cWoken ;;; tel_peak "u64MultiWakePeak" cWoken.

Definition notify_soft_note_waiters (cWaiters : Z) : prog ntf_mem unit := tel_peak "u64WaitersPeak" cWaiters.

Definition notify_soft_log_once : prog ntf_mem unit :=
  m <- pget ;; if g_fSoftStatsOnce m then pret tt else pmod set_stats_once ;;; tick64 "u64SoftLog".

(** ** Waking *)
Definition notify_live (pN : option objp) : prog ntf_mem bool :=
  match pN with
  | None => pret false
  | Some n =>
      x <- ld_ntf n ;;
      if negb (n_u32Ready x) then pret false else
      h <- on_cap (obj_load n) ;;
      pret (hdr_u32State h =? GJ_OBJ_LIVE)
  end.

Definition notify_soft_multi_wake_n (pN : option objp) (u32Max : Z) : prog ntf_mem Z :=
  match pN with
  | None => tick64 "u64MultiWakeNull" ;;; pret 0
  | Some n =>
      let u32Max := if u32Max =? 0 then NOTIFY_SOFT_MULTI_MAX else u32Max in
      tick64 "u64MultiWakeCalls" ;;;
      cWoken <- on_threads (thread_wake (ntf_key n) NOTIFY_TAG_WAITER u32Max) ;;
      notify_soft_note_wake cWoken ;;;
      pret cWoken
  end.

Definition notify_soft_multi_wake (pN : option objp) : prog ntf_mem Z := notify_soft_multi_wake_n pN NOTIFY_SOFT_MULTI_MAX.

Definition notify_has_waiter (pN : option objp) : prog ntf_mem bool :=
  match pN with
  | None => pret false
  | Some n =>
      x <- ld_ntf n ;;
      match n_pWaiter x with
      | Some _ => pret true
      | None => pret (0 <? n_u32Waiters x)
      end
  end.

(** The rounds of [notify_soft_waker_drain]: [k] are left. *)
Fixpoint drain_loop (k : nat) (n : objp) (cTotal : Z) : prog ntf_mem Z :=
  match k with
  | O => pret cTotal
  | S k' =>
      w <- notify_has_waiter (Some n) ;;
      if negb w then pret cTotal else
      cRound <- notify_soft_multi_wake (Some n) ;;
      let cTotal := u32_wrap (cTotal + cRound) in
      if cRound =? 0 then pret cTotal else drain_loop k' n cTotal
  end.

Definition notify_soft_waker_drain (pN : option objp) : prog ntf_mem Z :=
  match pN with
  | None => pret 0
  | Some n =>
      tick64 "u64WakerDrain" ;;;
      cTotal <- drain_loop NOTIFY_WAKER_DRAIN_ROUNDS n 0 ;;
      (if negb (cTotal =? 0) then notify_soft_add "u64WakerDrainSum" cTotal else pret tt) ;;;
      pret cTotal
  end.

(** ** The interface *)
Definition zero_notify : gj_notify := MkNotify false 0 0 0 None 0.

Definition notify_init (pN : option objp) : prog ntf_mem unit :=
  match pN with
  | None => pret tt
  | Some n =>
      upd_ntf n (fun _ => zero_notify) ;;;
      on_cap (gj_obj_hdr_init (Some n)) ;;;
      upd_ntf n (with_ready true) ;;;
      tick64 "u64Init"
  end.

Definition notify_is_live (pN : option objp) : prog ntf_mem bool :=
  tick64 "u64QueryIsLive" ;;;
  fLive <- notify_live pN ;;
  (if (fLive : bool) then tick64 "u64QueryIsLiveYes" else tick64 "u64QueryIsLiveNo") ;;;
  pret fLive.

(** A badge of 0 counts as bit 0. *)
Definition badge_of (b : Z) : Z := if b =? 0 then 1 else b.

Definition notify_pulse (pN : option objp) (u64Badge : Z) : prog ntf_mem unit :=
  tick64 "u64PulseEnter" ;;;
  match pN with
  | None => tick64 "u64PulseDead" ;;; tick64 "u64PulseDeadNull"
  | Some n =>
      x <- ld_ntf n ;;
      if negb (n_u32Ready x) then tick64 "u64PulseDead" ;;; tick64 "u64PulseDeadReady" else
      h <- on_cap (obj_load n) ;;
      if negb (hdr_u32State h =? GJ_OBJ_LIVE) then tick64 "u64PulseDead" ;;; tick64 "u64PulseDeadState" else
      (if u64Badge =? 0 then tick64 "u64PulseZeroCoalesce" else pret tt) ;;;
      let u64Badge := badge_of u64Badge in
      upd_ntf n (with_signal u64Badge) ;;;
      tick64 "u64PulseHit" ;;;
      notify_soft_add "u64BadgeBitsSum" (notify_soft_popcount64 u64Badge) ;;;
      tel_or "u64BadgeLastOr" u64Badge ;;;
      w <- notify_has_waiter (Some n) ;;
      if (w : bool) then notify_soft_multi_wake (Some n) ;;; tick64 "u64PulseWake"
      else tick64 "u64PulseNoWaiter"
  end.

Definition notify_signal (pN : option objp) (u64Badge : Z) : prog ntf_mem unit :=
  tick64 "u64SignalAlias" ;;; notify_pulse pN u64Badge.
Definition notify_event (pN : option objp) (u64Badge : Z) : prog ntf_mem unit :=
  tick64 "u64EventPost" ;;; notify_pulse pN u64Badge.

Definition notify_wake (pN : option objp) (u32Max : Z) : prog ntf_mem Z :=
  tick64 "u64WakerKick" ;;;
  match pN with
  | None => tick64 "u64WakerKickZero" ;;; pret 0
  | Some n =>
      w <- notify_has_waiter pN ;;
      if negb w then tick64 "u64WakerKickZero" ;;; pret 0 else
      cWoken <- notify_soft_multi_wake_n pN u32Max ;;
      (if cWoken =? 0 then tick64 "u64WakerKickZero" else tick64 "u64WakerKickHit") ;;;
      pret cWoken
  end.
Definition notify_wake_drain (pN : option objp) : prog ntf_mem Z := notify_soft_waker_drain pN.

(** Pulses of interrupt handlers. *)
Fixpoint irq_pulses (l : list (objp * Z)) : prog ntf_mem unit :=
  match l with
  | [] => pret tt
  | (n, b) :: l' => notify_pulse (Some n) b ;;; irq_pulses l'
  end.

(** ** Wait *)
Inductive wait_res : Type :=
| WaitRet (bits : Z)   (** it has returned these bits *)
| WaitPark.            (** parked, registered as a waiter *)

(** The registration of a waiter that leaves. *)
Definition wait_unregister (n : objp) (cur : option nat) : prog ntf_mem unit :=
  x <- ld_ntf n ;;
  (if bool_decide (n_pWaiter x = cur) then upd_ntf n (with_waiter None) else pret tt) ;;;
  upd_ntf n (fun x => with_waiters (n_u32Waiters x - 1) x).

(** The swap has succeeded: the matched bits are cleared and returned. *)
Definition wait_hit (n : objp) (cur : option nat) (reg : bool) (pend got : Z) : prog ntf_mem wait_res :=
  upd_ntf n (with_pending (Z.ldiff pend got)) ;;;
  (if reg then wait_unregister n cur else pret tt) ;;;
  tick64 "u64WaitHit" ;;; tick64 "u64WaitRetBits" ;;; notify_soft_log_once ;;;
  pret (WaitRet got).

(** The thread registers and blocks; [before] and [after] are the interrupts
    around [thread_block]. *)
Definition wait_park (n : objp) (c : nat) (mask : Z) (reg : bool) (before after : list (objp * Z)) : prog ntf_mem wait_res :=
  (if reg then pret tt else
   upd_ntf n (fun x => with_waiters (n_u32Waiters x + 1) x) ;;;
   x <- ld_ntf n ;;
   tick64 "u64WaitRegister" ;;; notify_soft_note_waiters (n_u32Waiters x)) ;;;
  upd_ntf n (with_waiter (Some c)) ;;;
  irq_pulses before ;;;
  on_threads (thread_block (Some c) (ntf_key n) NOTIFY_TAG_WAITER) ;;;
  irq_pulses after ;;;
  x <- ld_ntf n ;;
  lv <- notify_live (Some n) ;;
  (if negb (Z.land (n_u64Pending x) mask =? 0) || negb lv then
     notify_soft_multi_wake (Some n) ;;; tick64 "u64WaitSelfWake"
   else pret tt) ;;;
  pret WaitPark.

(** The loop of [notify_wait], up to [schedule].  Each element of [irqs] holds the
    interrupts between one load of the pending word and its swap. *)
Fixpoint wait_loop (n : objp) (cur : option nat) (mask : Z) (fBlock reg : bool)
    (irqs : list (list (objp * Z))) (before after : list (objp * Z)) : prog ntf_mem wait_res :=
  tick64 "u64WaitLoop" ;;;
  lv <- notify_live (Some n) ;;
  if negb lv then
    (if reg then wait_unregister n cur else pret tt) ;;;
    tick64 "u64WaitDead" ;;; tick64 "u64WaitDeadLoop" ;;; tick64 "u64WaitRetZero" ;;; notify_soft_log_once ;;;
    pret (WaitRet 0)
  else
  x <- ld_ntf n ;;
  let pend := n_u64Pending x in
  let got := Z.land pend mask in
  if negb (got =? 0) then
    match irqs with
    | [] => wait_hit n cur reg pend got
    | l :: irqs' =>
        irq_pulses l ;;;
        y <- ld_ntf n ;;
        if n_u64Pending y =? pend then wait_hit n cur reg pend got
        else tick64 "u64WaitCasRetry" ;;; wait_loop n cur mask fBlock reg irqs' before after
    end
  else
  let miss :=
    (if bool_decide (cur = None) && fBlock then tick64 "u64WaitNoThr" else pret tt) ;;;
    (if reg then wait_unregister n cur else pret tt) ;;;
    tick64 "u64WaitPollMiss" ;;; tick64 "u64WaitRetZero" ;;; notify_soft_log_once ;;;
    pret (WaitRet 0) in
  match cur with
  | Some c => if fBlock then wait_park n c mask reg before after else miss
  | None => miss
  end.

(** A mask of 0 means any badge. *)
Definition mask_of (mask : Z) : Z := if mask =? 0 then 2 ^ 64 - 1 else mask.

Definition notify_wait (pN : option objp) (u64Mask : Z) (fBlock : bool) (cur : option nat)
    (irqs : list (list (objp * Z))) (before after : list (objp * Z)) : prog ntf_mem wait_res :=
  tick64 "u64WaitEnter" ;;;
  (if fBlock then tick64 "u64WaitBlock" else tick64 "u64WaitNoblock") ;;;
  lv <- notify_live pN ;;
  let dead := tick64 "u64WaitDead" ;;; tick64 "u64WaitDeadEnter" ;;; tick64 "u64WaitRetZero" ;;; pret (WaitRet 0) in
  match pN with
  | None => dead
  | Some n =>
      if negb lv then dead else
      (if u64Mask =? 0 then tick64 "u64WaitMaskAny" else pret tt) ;;;
      wait_loop n cur (mask_of u64Mask) fBlock false irqs before after
  end.

(** After [schedule]. *)
Definition wait_resume (n : objp) (c : nat) (mask : Z) (irqs : list (list (objp * Z))) (before after : list (objp * Z)) :
    prog ntf_mem wait_res :=
  tick64 "u64WaitPark" ;;;
  x <- ld_ntf n ;;
  (if bool_decide (n_pWaiter x = Some c) then upd_ntf n (with_waiter None) else pret tt) ;;;
  wait_loop n (Some c) mask true true irqs before after.

Definition notify_poll (pN : option objp) (u64Mask : Z) (cur : option nat) (irqs : list (list (objp * Z))) : prog ntf_mem wait_res :=
  tick64 "u64Poll" ;;; notify_wait pN u64Mask false cur irqs [] [].

(** ** Queries *)
Definition ntf_query (c : string) (f : gj_notify -> Z) (pN : option objp) : prog ntf_mem Z :=
  tick64 c ;;; match pN with None => pret 0 | Some n => x <- ld_ntf n ;; pret (f x) end.
Definition notify_signals : option objp -> prog ntf_mem Z := ntf_query "u64QuerySignals" n_u32Signals.
Definition notify_pending : option objp -> prog ntf_mem Z := ntf_query "u64QueryPending" n_u64Pending.
Definition notify_last_badge : option objp -> prog ntf_mem Z := ntf_query "u64QueryLastBadge" n_u64LastBadge.
Definition notify_waiters : option objp -> prog ntf_mem Z := ntf_query "u64QueryWaiters" n_u32Waiters.

(** ** Death *)
Definition notify_abort_waiter (pN : option objp) : prog ntf_mem unit :=
  match pN with
  | None => pret tt
  | Some n =>
      tick64 "u64Abort" ;;;
      w <- notify_has_waiter pN ;;
      if (w : bool) then
        cWoken <- notify_soft_waker_drain pN ;;
        if negb (cWoken =? 0) then tick64 "u64AbortWake" else tick64 "u64AbortNoWaiter"
      else tick64 "u64AbortNoWaiter"
  end.

Definition notify_mark_dead (pN : option objp) : prog ntf_mem unit :=
  match pN with
  | None => pret tt
  | Some n =>
      tick64 "u64MarkDead" ;;;
      upd_ntf n (with_ready false) ;;;
      h <- on_cap (obj_load n) ;;
      (if hdr_u32State h =? GJ_OBJ_LIVE then
         on_cap (gj_obj_revoke_begin soft_revoke_inventory_maybe_once (Some n)) ;;; tick64 "u64MarkDeadRevoke"
       else
         on_cap (obj_store n (hdr_set_state h GJ_OBJ_DEAD)) ;;; tick64 "u64MarkDeadForce") ;;;
      notify_abort_waiter pN
  end.

(** ** Capabilities *)
Definition notify_install (pProc : option (option cnp)) (pN : option objp) (rights : Z) (pOutRef : bool) :
    prog ntf_mem (gj_status * option gj_cap_ref) :=
  match pProc, pN with
  | Some (Some c), Some n =>
      if negb pOutRef then
        tick64 "u64InstallFail" ;;; tick64 "u64InstallFailNull" ;;; pret (GJ_ERR_INVAL, None)
      else
      lv <- notify_live pN ;;
      if negb lv then tick64 "u64InstallFail" ;;; tick64 "u64InstallFailDead" ;;; pret (GJ_ERR_NODEV, None) else
      (if rights =? 0 then tick64 "u64InstallDefaultRights" else pret tt) ;;;
      let rights := if rights =? 0 then Z.lor (Z.lor GJ_RIGHT_READ GJ_RIGHT_WAIT) GJ_RIGHT_IDENTIFY else rights in
      r <- on_cap (gj_cap_alloc_install cdt_soft_inventory_maybe_once (Some c) GJ_CAP_NOTIFICATION rights (Some n) true) ;;
      (if bool_decide (fst r = GJ_OK) then tick64 "u64InstallOk"
       else tick64 "u64InstallFail" ;;; tick64 "u64InstallFailCap") ;;;
      pret r
  | _, _ => tick64 "u64InstallFail" ;;; tick64 "u64InstallFailNull" ;;; pret (GJ_ERR_INVAL, None)
  end.
