(* ===== verification/NotifyInv.v ===== *)
(** The invariant of the notifications and of the threads that wait for them. *)
From stdpp Require Import base gmap list strings.
From Stdlib Require Import ZArith Lia.
From S2P Require Import Prelude CapTypes CapInv CapRevoke CapLean Thread ThreadProofs KernObj Notify.

Definition nthreads (m : ntf_mem) : list gj_thread := g_aThreads (nm_thr m).

(** ** Counters change nothing else *)
Lemma wp_soft_add c k m (Q : unit -> ntf_mem -> Prop) : Q tt m -> wp (notify_soft_add c k) Q m.
Proof.
  intros HQ. unfold notify_soft_add. case_match; [by apply wp_ret|]. apply wp_bind, wp_tel. intros t t'. by exists tt, m, (<[c := u64_wrap (tel_val t c + k)]> t).
Qed.

(** ** One object changes *)

(** From [m0] to [m] the object [n] has become [x] and some sleepers were woken;
    with [up], eight of them on [n]. *)
Record nres (n : objp) (x : gj_notify) (up : bool) (m0 m : ntf_mem) : Prop := {
  nr_objs : nm_objs m = <[n := x]> (nm_objs m0);
  nr_cap : nm_cap m = nm_cap m0;
  nr_thr : wakes (nthreads m0) (nthreads m);
  nr_up : up = true -> waiting (ntf_key n) NOTIFY_TAG_WAITER (nthreads m0) <= NOTIFY_SOFT_MULTI_MAX ->
    forall i, ~ asleep_on (nthreads m) i (ntf_key n) NOTIFY_TAG_WAITER }.

Lemma nres_refl n x m : nm_objs m !! n = Some x -> nres n x false m m.
Proof. intros E. split; try done. by rewrite insert_id. Qed.

Lemma nres_obj n x up m0 m : nres n x up m0 m -> nm_objs m !! n = Some x.
Proof. intros []. rewrite nr_objs0. apply lookup_insert_eq. Qed.

Lemma nres_len n x up m0 m : nres n x up m0 m -> length (nthreads m) = length (nthreads m0).
Proof. intros [? ? [] ?]. done. Qed.

(** Waking can only shrink the crowd of sleepers. *)
Lemma waiting_le obj tag l l' : wakes l l' -> waiting obj tag l' <= waiting obj tag l.
Proof.
  intros [Hl H]. revert l Hl H. induction l' as [|p' l' IH]; intros [|p l] Hl H; try done.
  rewrite !waiting_cons. specialize (IH l). simpl in Hl.
  assert (waiting obj tag l' <= waiting obj tag l) as Hle.
  { apply IH; [lia|]. intros i q E. by apply (H (S i) q). }
  destruct (H 0%nat p' eq_refl) as (q & Eq & Hq). injection Eq as <-. destruct Hq as [->|[Hb ->]]; [lia|].
  assert (wake_match obj tag (woken p) = false) as -> by done. destruct (wake_match obj tag p); lia.
Qed.

Section Rules.
Context (n : objp) (m0 : ntf_mem) (Hlen : length (nthreads m0) = GJ_MAX_THREADS).

Lemma wp_nld x up m Q : nres n x up m0 m -> Q x m -> wp (ld_ntf n) Q m.
Proof. intros H HQ. unfold ld_ntf. apply wp_bind, wp_get. rewrite (nres_obj _ _ _ _ _ H). by apply wp_ret. Qed.

Lemma wp_nupd f x up m (Q : unit -> ntf_mem -> Prop) :
  nres n x up m0 m -> (forall m', nres n (f x) up m0 m' -> nthreads m' = nthreads m -> Q tt m') -> wp (upd_ntf n f) Q m.
Proof.
  intros H HQ. unfold upd_ntf. apply wp_bind, wp_get. rewrite (nres_obj _ _ _ _ _ H). apply wp_put.
  apply HQ; [|done]. destruct H. split; try done. cbn. rewrite nr_objs0. by rewrite insert_insert_eq.
Qed.

Definition nalive (m : ntf_mem) (x : gj_notify) : bool :=
  n_u32Ready x && (from_option hdr_u32State 0 (m_objs (nm_cap m) !! n) =? GJ_OBJ_LIVE).

Lemma wp_nhdr h x up m Q : nres n x up m0 m -> m_objs (nm_cap m0) !! n = Some h -> Q h m -> wp (on_cap (obj_load n)) Q m.
Proof. intros H Eh HQ. eapply wp_cap_load; [cbn; rewrite (nr_cap _ _ _ _ _ H); exact Eh|done]. Qed.

Lemma wp_nlive x up m (Q : bool -> ntf_mem -> Prop) :
  nres n x up m0 m -> is_Some (m_objs (nm_cap m0) !! n) -> Q (nalive m0 x) m -> wp (notify_live (Some n)) Q m.
Proof.
  intros H [h Eh] HQ. unfold notify_live. apply wp_bind. eapply wp_nld; [done|]. revert HQ. unfold nalive. rewrite Eh. cbn [from_option].
  destruct (n_u32Ready x); cbn [negb andb]; intros HQ; [|by apply wp_ret]. apply wp_bind. eapply wp_nhdr; [done|done|]. by apply wp_ret.
Qed.

Lemma wp_nwake_n k x up m (Q : Z -> ntf_mem -> Prop) :
  nres n x up m0 m -> 0 <= k ->
  (forall m', nres n x (up || ((k =? 0) || (NOTIFY_SOFT_MULTI_MAX <=? k))) m0 m' ->
     Q (Z.min (if k =? 0 then NOTIFY_SOFT_MULTI_MAX else k) (waiting (ntf_key n) NOTIFY_TAG_WAITER (nthreads m))) m') ->
  wp (notify_soft_multi_wake_n (Some n) k) Q m.
Proof.
  intros H Hk HQ. pose proof (nres_len _ _ _ _ _ H) as Hl. unfold notify_soft_multi_wake_n.
  set (k' := if k =? 0 then NOTIFY_SOFT_MULTI_MAX else k) in *.
  assert (0 <= k') as Hk' by (unfold k'; destruct (k =? 0); unfold NOTIFY_SOFT_MULTI_MAX; lia). apply wp_bind, wp_tick64, wp_bind.
  apply wp_on_threads, wp_thread_wake; [by rewrite <-Hlen, <-Hl|done|]. apply wp_bind.
  apply (wp_mono _ (fun _ m' => m' = thr_upd (set_threads (wake_ref (ntf_key n) NOTIFY_TAG_WAITER k' 0 (g_aThreads (thr_of m))) (thr_of m)) m)).
  { unfold notify_soft_note_wake. case_match; [by wsteps|]. apply wp_bind, wp_soft_add. by apply wp_tel_peak. }
  intros _ ? ->. apply wp_ret. apply HQ. destruct H. split; try done.
  - etrans; [exact nr_thr0|apply wakes_ref].
  - intros Hu Hw i. change (nthreads _) with (wake_ref (ntf_key n) NOTIFY_TAG_WAITER k' 0 (nthreads m)).
    apply orb_true_iff in Hu as [Hu|Hu].
    + intros Ha. eapply (nr_up0 Hu Hw i). eapply asleep_wakes; [apply wakes_ref|exact Ha].
    + apply wake_all; [done|]. pose proof (waiting_le (ntf_key n) NOTIFY_TAG_WAITER _ _ nr_thr0).
      unfold k'. destruct (k =? 0); [lia|]. simpl in Hu. apply Z.leb_le in Hu. lia.
Qed.

Lemma wp_nwake x up m (Q : Z -> ntf_mem -> Prop) :
  nres n x up m0 m ->
  (forall m', nres n x true m0 m' -> Q (Z.min NOTIFY_SOFT_MULTI_MAX (waiting (ntf_key n) NOTIFY_TAG_WAITER (nthreads m))) m') ->
  wp (notify_soft_multi_wake (Some n)) Q m.
Proof.
  intros H HQ. unfold notify_soft_multi_wake. eapply wp_nwake_n; [done|done|]. intros m' D. cbn in D. rewrite orb_true_r in D. by apply HQ.
Qed.

Definition has_waiter (x : gj_notify) : bool := bool_decide (is_Some (n_pWaiter x)) || (0 <? n_u32Waiters x).

Lemma wp_nhas x up m (Q : bool -> ntf_mem -> Prop) :
  nres n x up m0 m -> Q (has_waiter x) m -> wp (notify_has_waiter (Some n)) Q m.
Proof.
  intros H HQ. unfold notify_has_waiter. apply wp_bind. eapply wp_nld; [done|]. unfold has_waiter in HQ.
  destruct (n_pWaiter x) as [w|]; by apply wp_ret.
Qed.

Lemma wp_nonce x up m (Q : unit -> ntf_mem -> Prop) :
  nres n x up m0 m -> (forall m', nres n x up m0 m' -> Q tt m') -> wp notify_soft_log_once Q m.
Proof.
  intros H HQ. unfold notify_soft_log_once. apply wp_bind, wp_get. case_match; [apply wp_ret; by apply HQ|].
  apply wp_bind, wp_pmod, wp_tick64, HQ. destruct H. by split.
Qed.
End Rules.

(** ** The crowd at an object *)

(** The parked threads: the object and the mask of each. *)
Implicit Types (pcs : gmap nat (objp * Z)).
Definition crowd (n : objp) pcs : nat := map_sum (fun p => if bool_decide (fst p = n) then 1%nat else 0%nat) pcs.

Lemma crowd_new n pcs c p : pcs !! c = None -> crowd n (<[c := p]> pcs) = ((if bool_decide (fst p = n) then 1 else 0) + crowd n pcs)%nat.
Proof. apply map_sum_new. Qed.

Lemma crowd_leave n pcs c p : pcs !! c = Some p -> crowd n pcs = ((if bool_decide (fst p = n) then 1 else 0) + crowd n (delete c pcs))%nat.
Proof. apply (map_sum_split (fun p => if bool_decide (fst p = n) then 1%nat else 0%nat)). Qed.

Lemma crowd_delete_le n pcs c : (crowd n (delete c pcs) <= crowd n pcs)%nat.
Proof.
  destruct (pcs !! c) as [p|] eqn:E; [rewrite (crowd_leave n pcs c p E); lia|]. by rewrite delete_id.
Qed.

(** Every sleeper is parked, so the crowd bounds the sleepers. *)
Lemma waiting_crowd n l : forall k pcs,
  (forall i p, l !! i = Some p -> wake_match (ntf_key n) NOTIFY_TAG_WAITER p = true -> exists mk, pcs !! (k + i)%nat = Some (n, mk)) ->
  waiting (ntf_key n) NOTIFY_TAG_WAITER l <= Z.of_nat (crowd n pcs).
Proof.
  induction l as [|p l IH]; intros k pcs H; [unfold waiting, countb; simpl; lia|]. rewrite waiting_cons.
  destruct (wake_match (ntf_key n) NOTIFY_TAG_WAITER p) eqn:Em.
  - destruct (H 0%nat p eq_refl Em) as (mk & E). rewrite Nat.add_0_r in E. rewrite (crowd_leave n pcs k _ E), bool_decide_true by done.
    specialize (IH (S k) (delete k pcs)). enough (waiting (ntf_key n) NOTIFY_TAG_WAITER l <= Z.of_nat (crowd n (delete k pcs))) by lia.
    apply IH. intros i q Eq Hq. destruct (H (S i) q Eq Hq) as (mk' & E'). exists mk'. rewrite lookup_delete_ne by lia. by rewrite <-E'; f_equal; lia.
  - enough (waiting (ntf_key n) NOTIFY_TAG_WAITER l <= Z.of_nat (crowd n pcs)) by lia. apply (IH (S k)). intros i q Eq Hq.
    destruct (H (S i) q Eq Hq) as (mk' & E'). exists mk'. rewrite <-E'. f_equal. lia.
Qed.

(** ** The invariant *)
Definition nhdr_state (m : ntf_mem) (n : objp) : Z := from_option hdr_u32State 0 (m_objs (nm_cap m) !! n).
Definition nhdr_ok (m : ntf_mem) (n : objp) : Prop :=
  is_Some (m_objs (nm_cap m) !! n) /\ (nhdr_state m n = GJ_OBJ_LIVE \/ nhdr_state m n = GJ_OBJ_DEAD).

(** What holds of one object: the count covers the crowd (threads that exited
    while parked, at most [kills], are still counted), and whoever sleeps is
    parked at a live object none of whose pending bits it waits for. *)
Record ntf_ok (kills : Z) pcs (m : ntf_mem) (n : objp) (x : gj_notify) : Prop := {
  no_count : Z.of_nat (crowd n pcs) <= n_u32Waiters x <= Z.of_nat (crowd n pcs) + kills;
  no_sleep : forall i, asleep_on (nthreads m) i (ntf_key n) NOTIFY_TAG_WAITER ->
    exists mk, pcs !! i = Some (n, mk) /\ nalive n m x = true /\ Z.land (n_u64Pending x) mk = 0 }.

Record ninv (kills : Z) pcs (m : ntf_mem) : Prop := {
  ni_len : length (nthreads m) = GJ_MAX_THREADS;
  ni_wf : wf (nm_cap m);
  ni_hdr : forall n x, nm_objs m !! n = Some x -> nhdr_ok m n;
  ni_ntf : forall n x, nm_objs m !! n = Some x -> ntf_ok kills pcs m n x;
  ni_crowd : forall n, Z.of_nat (crowd n pcs) <= NOTIFY_SOFT_MULTI_MAX;
  ni_pc : forall c n mk, pcs !! c = Some (n, mk) -> is_Some (nm_objs m !! n) /\ is_Some (nthreads m !! c) /\ gone (nthreads m) c = false;
  ni_park : forall c n mk o g, pcs !! c = Some (n, mk) -> asleep_on (nthreads m) c o g -> o = ntf_key n /\ g = NOTIFY_TAG_WAITER }.

Lemma ninv_waiting kills pcs m n x :
  ninv kills pcs m -> nm_objs m !! n = Some x -> waiting (ntf_key n) NOTIFY_TAG_WAITER (nthreads m) <= NOTIFY_SOFT_MULTI_MAX.
Proof.
  intros Hi E. etrans; [|apply (ni_crowd _ _ _ Hi n)]. apply (waiting_crowd n _ 0). intros i p Ep Hm.
  destruct (no_sleep _ _ _ _ _ (ni_ntf _ _ _ Hi n x E) i) as (mk & Hp & _); [|by exists mk].
  exists p. unfold wake_match in Hm. rewrite !andb_true_iff, orb_true_iff, !Z.eqb_eq in Hm. destruct Hm as [[H1 H2] [H3|H3]]; [done|].
  by apply bool_decide_eq_true in H1.
Qed.

(** A step at one object. *)
Record nmove (n : objp) (x : gj_notify) (new : option (nat * Z * Z)) (m0 m : ntf_mem) : Prop := {
  nv_objs : nm_objs m = <[n := x]> (nm_objs m0);
  nv_thr : tmove new (nthreads m0) (nthreads m);
  nv_wf : wf (nm_cap m0) -> wf (nm_cap m);
  nv_hdr : nhdr_ok m0 n -> nhdr_ok m n;
  nv_hdrs : forall n', n' <> n -> nhdr_state m n' = nhdr_state m0 n' /\ (is_Some (m_objs (nm_cap m0) !! n') -> is_Some (m_objs (nm_cap m) !! n')) }.

Lemma nres_move n x up m0 m : nres n x up m0 m -> nmove n x None m0 m.
Proof. intros []. split; unfold nhdr_ok, nhdr_state in *; rewrite ?nr_cap0; try done. by apply wakes_tmove. Qed.

Lemma nalive_state m m' n x : nhdr_state m' n = nhdr_state m n -> nalive n m' x = nalive n m x.
Proof. unfold nhdr_state, nalive. by intros ->. Qed.

Lemma ninv_move kills pcs pcs' n x x' new m m' :
  ninv kills pcs m -> nm_objs m !! n = Some x -> nmove n x' new m m' -> ntf_ok kills pcs' m' n x' ->
  (forall n', n' <> n -> crowd n' pcs' = crowd n' pcs) -> Z.of_nat (crowd n pcs') <= NOTIFY_SOFT_MULTI_MAX ->
  (forall c n' mk, n' <> n -> pcs' !! c = Some (n', mk) <-> pcs !! c = Some (n', mk)) ->
  (forall c mk, pcs' !! c = Some (n, mk) -> is_Some (nthreads m !! c) /\ gone (nthreads m) c = false /\
     forall o g, asleep_on (nthreads m') c o g -> o = ntf_key n /\ g = NOTIFY_TAG_WAITER) ->
  (forall i o g, new = Some (i, o, g) -> o = ntf_key n /\ forall n' mk, pcs' !! i = Some (n', mk) -> n' = n) ->
  ninv kills pcs' m'.
Proof.
  intros Hi E Hm Hn Hcr Hcn Hpc Hme Hnew. pose proof Hi as []. destruct Hm. destruct nv_thr0 as [Tl Tg Ts].
  assert (forall n' y, nm_objs m' !! n' = Some y -> n' <> n -> nm_objs m !! n' = Some y) as Hother.
  { intros n' y Ey Hne. by rewrite nv_objs0, lookup_insert_ne in Ey. }
  assert (forall n', is_Some (nm_objs m !! n') -> is_Some (nm_objs m' !! n')) as Hsome.
  { intros n' [y Ey]. rewrite nv_objs0. destruct (decide (n = n')) as [<-|]; [rewrite lookup_insert_eq|rewrite lookup_insert_ne]; by eauto. }
  split; [congruence|by apply nv_wf0|..].
  - intros n' y Ey. destruct (decide (n' = n)) as [->|Hne]; [apply nv_hdr0; by eapply ni_hdr0|].
    destruct (ni_hdr0 n' y) as [Hs1 Hs2]; [by apply Hother|]. destruct (nv_hdrs0 n' Hne) as [H1 H2]. unfold nhdr_ok. rewrite H1. auto.
  - intros n' y Ey. destruct (decide (n' = n)) as [->|Hne].
    { rewrite nv_objs0, lookup_insert_eq in Ey. by injection Ey as <-. }
    destruct (ni_ntf0 n' y (Hother n' y Ey Hne)) as [Q1 Q2]. destruct (nv_hdrs0 n' Hne) as [Hs _]. split; [by rewrite Hcr|].
    intros i Ha. destruct (Ts _ _ _ Ha) as [Ha'|Hnw].
    + destruct (Q2 i Ha') as (mk & Hp & Hal & Hz). exists mk. rewrite Hpc by done. by rewrite (nalive_state m m' n' y Hs).
    + destruct (Hnew _ _ _ Hnw) as [Hk _]. by injection Hk as ->.
  - intros n'. destruct (decide (n' = n)) as [->|Hne]; [done|]. by rewrite Hcr.
  - intros c n' mk Hc. rewrite Tg. assert (forall j, is_Some (nthreads m !! j) -> is_Some (nthreads m' !! j)) as Hth.
    { intros j. rewrite !lookup_lt_is_Some. by rewrite Tl. }
    destruct (decide (n' = n)) as [->|Hne].
    + destruct (Hme c mk Hc) as (H1 & H2 & _). split_and!; [apply Hsome; by eexists|auto|done].
    + apply Hpc in Hc; [|done]. destruct (ni_pc0 c n' mk Hc) as (H1 & H2 & H3). auto.
  - intros c n' mk o g Hc Ha. destruct (decide (n' = n)) as [->|Hne]; [by eapply Hme|].
    destruct (Ts _ _ _ Ha) as [Ha'|Hnw]; [apply Hpc in Hc; [|done]; by eapply ni_park0|].
    destruct (Hnew _ _ _ Hnw) as [_ Hk]. by destruct (Hne (Hk n' mk Hc)).
Qed.
