(* ===== verification/NotifySpec.v ===== *)
(** What a notification promises: a set of pending bits that pulses join and
    waits take from, while the object lives. *)
From stdpp Require Import base gmap list strings.
From Stdlib Require Import ZArith Lia.
From S2P Require Import Prelude CapTypes CapInv CapRevoke CapLean Thread ThreadProofs KernObj Notify NotifyInv.

Record antf : Type := MkANtf { an_live : bool; an_pending : Z }.

Definition an_post (b : Z) (a : antf) : antf :=
  if an_live a then MkANtf true (Z.lor (an_pending a) (badge_of b)) else a.
Definition an_take (got : Z) (a : antf) : antf := MkANtf (an_live a) (Z.ldiff (an_pending a) got).
Definition an_kill (a : antf) : antf := MkANtf false (an_pending a).

Implicit Types (N : gmap objp antf).
Definition a_pulses (l : list (objp * Z)) N : gmap objp antf := foldl (fun N p => alter (an_post (snd p)) (fst p) N) N l.

(** The turn of a waiter.  The bits it finds are taken in one piece: when an
    interrupt has changed the pending word in between, it looks again. *)
Fixpoint a_wait (n : objp) (mask : Z) (park : bool) (irqs : list (list (objp * Z))) (before after : list (objp * Z)) N :
    gmap objp antf * wait_res :=
  match N !! n with
  | None => (N, WaitRet 0)
  | Some a =>
      if negb (an_live a) then (N, WaitRet 0) else
      let got := Z.land (an_pending a) mask in
      if got =? 0 then if park then (a_pulses after (a_pulses before N), WaitPark) else (N, WaitRet 0) else
      match irqs with
      | [] => (alter (an_take got) n N, WaitRet got)
      | l :: irqs' =>
          let N' := a_pulses l N in
          if from_option an_pending 0 (N' !! n) =? an_pending a then (alter (an_take got) n N', WaitRet got)
          else a_wait n mask park irqs' before after N'
      end
  end.

(** ** The promise of the objects in memory *)
Definition absx (m : ntf_mem) (n : objp) (x : gj_notify) : antf := MkANtf (nalive n m x) (n_u64Pending x).
Definition absn (m : ntf_mem) : gmap objp antf := map_imap (fun n x => Some (absx m n x)) (nm_objs m).

Lemma absn_lookup m n : absn m !! n = absx m n <$> nm_objs m !! n.
Proof. unfold absn. rewrite map_lookup_imap. by destruct (nm_objs m !! n). Qed.

Lemma absn_move n x' new m m' : nmove n x' new m m' -> absn m' = <[n := absx m' n x']> (absn m).
Proof.
  intros []. apply map_eq. intros n'. rewrite absn_lookup, nv_objs. destruct (decide (n = n')) as [<-|Hne].
  - by rewrite !lookup_insert_eq.
  - rewrite !lookup_insert_ne, absn_lookup by done. destruct (nm_objs m !! n') as [y|]; [|done]. simpl. f_equal.
    unfold absx. by rewrite (nalive_state m m' n' y) by (by apply nv_hdrs).
Qed.

Lemma absn_alter m n x f : nm_objs m !! n = Some x -> alter f n (absn m) = <[n := f (absx m n x)]> (absn m).
Proof. intros E. apply alter_Some_insert. by rewrite absn_lookup, E. Qed.

Lemma absx_res n x' up m m' : nres n x' up m m' -> absx m' n x' = absx m n x'.
Proof. intros []. unfold absx. f_equal. apply nalive_state. unfold nhdr_state. by rewrite nr_cap. Qed.

(** A quiet step. *)
Lemma absn_quiet n x x' up m m' :
  nres n x' up m m' -> nm_objs m !! n = Some x -> n_u32Ready x' = n_u32Ready x -> n_u64Pending x' = n_u64Pending x -> absn m' = absn m.
Proof.
  intros Hr E H1 H2. rewrite (absn_move _ _ _ _ _ (nres_move _ _ _ _ _ Hr)), (absx_res _ _ _ _ _ Hr). apply insert_id.
  rewrite absn_lookup, E. simpl. unfold absx, nalive. by rewrite H1, H2.
Qed.

(** Symbolic execution of the rules on one object. *)
Ltac nnext H := clear H; let m' := fresh "m" in let D := fresh "D" in intros m' D; try (intros _); cbn beta.
Ltac ngo1 :=
  lazymatch goal with
  | |- wp (pbind _ _) _ _ => apply wp_bind
  | |- wp (pret _) _ _ => apply wp_ret
  | |- wp (tick64 _) _ _ => apply wp_tick64
  | |- wp (notify_soft_add _ _) _ _ => apply wp_soft_add
  | |- wp (tel_or _ _) _ _ => apply wp_tel_or
  | |- wp (tel_peak _ _) _ _ => apply wp_tel_peak
  | H : nres _ _ _ _ ?m |- wp ?c _ ?m =>
      lazymatch c with
      | ld_ntf _ => eapply wp_nld; [exact H|]
      | upd_ntf _ _ => eapply wp_nupd; [exact H|]; nnext H
      | notify_soft_multi_wake _ => eapply wp_nwake; [eassumption|exact H|]; nnext H
      | notify_has_waiter _ => eapply wp_nhas; [exact H|]
      | notify_live _ => eapply wp_nlive; [exact H|eassumption|]
      | notify_soft_log_once => eapply wp_nonce; [exact H|]; nnext H
      | on_cap (obj_load _) => eapply wp_nhdr; [exact H|eassumption|]
      end
  end; cbv beta zeta.
Ltac ngo := repeat ngo1.
Ltac nlast D n := match goal with H : nres _ _ _ _ ?k |- _ => rename H into D; rename k into n end.

(** The object keeps its waiters. *)
Lemma ninv_res kills pcs n x x' up m m' :
  ninv kills pcs m -> nm_objs m !! n = Some x -> nres n x' up m m' -> n_u32Waiters x' = n_u32Waiters x ->
  up = true \/ crowd n pcs = 0%nat \/
    (n_u32Ready x' = n_u32Ready x /\ forall mk, Z.land (n_u64Pending x) mk = 0 -> Z.land (n_u64Pending x') mk = 0) ->
  ninv kills pcs m'.
Proof.
  intros Hi E Hr Hw Hor. pose proof (ni_ntf _ _ _ Hi n x E) as [Q1 Q2]. pose proof (ninv_waiting _ _ _ _ _ Hi E) as Hwt.
  eapply ninv_move; [exact Hi|exact E|by eapply nres_move|..]; try done.
  - split; [by rewrite Hw|]. intros i Ha. destruct Hor as [->|[H0|[H1 H2]]].
    + by destruct (nr_up _ _ _ _ _ Hr eq_refl Hwt i).
    + destruct (Q2 i (asleep_wakes _ _ _ _ _ (nr_thr _ _ _ _ _ Hr) Ha)) as (mk & Hp & _).
      rewrite (crowd_leave n pcs i _ Hp), bool_decide_true in H0 by done. lia.
    + destruct (Q2 i (asleep_wakes _ _ _ _ _ (nr_thr _ _ _ _ _ Hr) Ha)) as (mk & Hp & Hal & Hz). exists mk. split_and!; [done| |by apply H2].
      rewrite (nalive_state m m' n) by (unfold nhdr_state; by rewrite (nr_cap _ _ _ _ _ Hr)). unfold nalive in *. by rewrite H1.
  - apply (ni_crowd _ _ _ Hi).
  - intros c mk Hc. destruct (ni_pc _ _ _ Hi c n mk Hc) as (H1 & H2 & H3). split_and!; [done|done|].
    intros o g Ha. eapply ni_park; [exact Hi|exact Hc|]. by eapply asleep_wakes; [apply Hr|].
Qed.

Lemma ninv_hdr kills pcs m n x : ninv kills pcs m -> nm_objs m !! n = Some x -> is_Some (m_objs (nm_cap m) !! n).
Proof. intros Hi E. by destruct (ni_hdr _ _ _ Hi n x E). Qed.

(** A crowd shows. *)
Lemma no_waiter kills pcs m n x :
  ninv kills pcs m -> nm_objs m !! n = Some x -> has_waiter x = false -> crowd n pcs = 0%nat.
Proof.
  intros Hi E Hh. destruct (ni_ntf _ _ _ Hi n x E) as [Q1 _]. unfold has_waiter in Hh. apply orb_false_iff in Hh as [_ Hh].
  apply Z.ltb_ge in Hh. lia.
Qed.

(** ** Pulses *)
Lemma wp_pulse kills pcs m n x b :
  ninv kills pcs m -> nm_objs m !! n = Some x ->
  wp (notify_pulse (Some n) b) (fun _ m' =>
    ninv kills pcs m' /\ absn m' = alter (an_post b) n (absn m) /\ wakes (nthreads m) (nthreads m') /\ dom (nm_objs m') = dom (nm_objs m)) m.
Proof.
  intros Hi E. destruct (ninv_hdr _ _ _ _ _ Hi E) as [h Eh]. pose proof (ni_len _ _ _ Hi) as Hlen. pose proof (nres_refl n x m E) as D.
  rewrite (absn_alter m n x) by done.
  assert (nalive n m x = false -> ninv kills pcs m /\ absn m = <[n := an_post b (absx m n x)]> (absn m) /\
    wakes (nthreads m) (nthreads m) /\ dom (nm_objs m) = dom (nm_objs m)) as Hdead.
  { intros Hal. split_and!; [done| |done|done]. symmetry. apply insert_id. rewrite absn_lookup, E. unfold an_post, absx. cbn. by rewrite Hal. }
  unfold notify_pulse. ngo. destruct (n_u32Ready x) eqn:Hrd; cbn [negb]; [|ngo; apply Hdead; unfold nalive; by rewrite Hrd].
  ngo. destruct (hdr_u32State h =? GJ_OBJ_LIVE) eqn:Hl; cbn [negb]; [|ngo; apply Hdead; unfold nalive; by rewrite Hrd, Eh, <-Hl].
  assert (nalive n m x = true) as Hal by (unfold nalive; by rewrite Hrd, Eh).
  assert (forall m' up, nres n (with_signal (badge_of b) x) up m m' -> up = true \/ crowd n pcs = 0%nat ->
    ninv kills pcs m' /\ absn m' = <[n := an_post b (absx m n x)]> (absn m) /\
    wakes (nthreads m) (nthreads m') /\ dom (nm_objs m') = dom (nm_objs m)) as Hdone.
  { intros m' up D' Hor. split_and!.
    - eapply ninv_res; [exact Hi|exact E|exact D'|done|]. destruct Hor; auto.
    - rewrite (absn_move _ _ _ _ _ (nres_move _ _ _ _ _ D')), (absx_res _ _ _ _ _ D'). f_equal. unfold an_post, absx.
      change (nalive n m (with_signal (badge_of b) x)) with (nalive n m x). cbn [an_live]. by rewrite Hal.
    - apply D'.
    - rewrite (nr_objs _ _ _ _ _ D'). apply dom_insert_lookup_L. by eexists. }
  apply wp_bind. apply (wp_mono _ (fun _ m' => m' = m)); [case_match; by wsteps|]. intros _ ? ->. ngo.
  nlast D1 n1. destruct (has_waiter _) eqn:Hh; ngo.
  - nlast D2 n2. by eapply Hdone; [|left].
  - eapply Hdone; [exact D1|]. right. change (has_waiter x = false) in Hh. by eapply no_waiter.
Qed.

Lemma wp_irq_pulses kills pcs l : forall m,
  ninv kills pcs m -> Forall (fun p => is_Some (nm_objs m !! fst p)) l ->
  wp (irq_pulses l) (fun _ m' =>
    ninv kills pcs m' /\ absn m' = a_pulses l (absn m) /\ wakes (nthreads m) (nthreads m') /\ dom (nm_objs m') = dom (nm_objs m)) m.
Proof.
  induction l as [|[n b] l IH]; intros m Hi Hl; cbn [irq_pulses]; [by apply wp_ret|].
  apply Forall_cons in Hl as [[x E] Hl]. apply wp_bind. eapply wp_mono; [by apply (wp_pulse kills pcs m n x b)|].
  intros _ m1 (Hi1 & Ha1 & Hw1 & Hd1). eapply wp_mono; [apply IH; [done|]|].
  - eapply Forall_impl; [exact Hl|]. intros p. rewrite <-!elem_of_dom. by rewrite Hd1.
  - intros _ m' (Hi' & Ha' & Hw' & Hd'). split_and!; [done|by rewrite Ha', Ha1|by etrans|congruence].
Qed.
