(* ===== verification/NotifyWait.v ===== *)
(** Waits follow the specification and keep the invariant. *)
From stdpp Require Import base gmap list strings.
From Stdlib Require Import ZArith Lia.
From S2P Require Import Prelude CapTypes CapInv CapRevoke CapLean Thread ThreadProofs KernObj Notify NotifyInv NotifySpec.

Implicit Types (pcs : gmap nat (objp * Z)).

(** Is the caller registered as a waiter? *)
Definition reg_ok (cur : option nat) (n : objp) (mask : Z) (reg : bool) pcs : Prop :=
  match cur with
  | Some c => pcs !! c = if reg then Some (n, mask) else None
  | None => reg = false
  end.

(** Where the caller is after its turn. *)
Definition wait_pcs (cur : option nat) (n : objp) (mask : Z) (r : wait_res) pcs : gmap nat (objp * Z) :=
  match cur, r with
  | Some c, WaitPark => <[c := (n, mask)]> pcs
  | Some c, WaitRet _ => delete c pcs
  | None, _ => pcs
  end.

Definition kills_ok (kills : Z) : Prop := 0 <= kills /\ kills + NOTIFY_SOFT_MULTI_MAX < 2 ^ 32.

Section Wait.
Context (kills : Z) (Hkills : kills_ok kills).

(** A registered waiter leaves. *)
Lemma ninv_leave pcs n x x' up m m' c mask :
  ninv kills pcs m -> nm_objs m !! n = Some x -> nres n x' up m m' -> pcs !! c = Some (n, mask) -> awake (nthreads m) c ->
  n_u32Waiters x' = n_u32Waiters x - 1 -> n_u32Ready x' = n_u32Ready x ->
  (forall mk, Z.land (n_u64Pending x) mk = 0 -> Z.land (n_u64Pending x') mk = 0) -> ninv kills (delete c pcs) m'.
Proof.
  intros Hi E Hr Hc Haw Hw Hrd Hp. pose proof (ni_ntf _ _ _ Hi n x E) as [Q1 Q2].
  pose proof (crowd_leave n pcs c _ Hc) as Hcr. rewrite bool_decide_true in Hcr by done.
  eapply ninv_move; [exact Hi|exact E|by eapply nres_move|..].
  - split; [lia|]. intros i Ha. pose proof (asleep_wakes _ _ _ _ _ (nr_thr _ _ _ _ _ Hr) Ha) as Ha'.
    destruct (Q2 i Ha') as (mk & Hpi & Hal & Hz). exists mk. split_and!; [|
      rewrite (nalive_state m m' n) by (unfold nhdr_state; by rewrite (nr_cap _ _ _ _ _ Hr)); unfold nalive in *; by rewrite Hrd|by apply Hp].
    rewrite lookup_delete_ne; [done|]. intros ->. destruct Haw as (_ & _ & Hno). by destruct (Hno _ _ Ha').
  - intros n' Hne. pose proof (crowd_leave n' pcs c _ Hc) as Hcr'. rewrite bool_decide_false in Hcr' by (simpl; congruence). lia.
  - pose proof (ni_crowd _ _ _ Hi n). lia.
  - intros c' n' mk Hne. destruct (decide (c = c')) as [<-|]; [rewrite lookup_delete_eq, Hc; naive_solver|by rewrite lookup_delete_ne].
  - intros c' mk Hc'. apply lookup_delete_Some in Hc' as [_ Hc']. destruct (ni_pc _ _ _ Hi c' n mk Hc') as (H1 & H2 & H3). split_and!; [done|done|].
    intros o g Ha. eapply ni_park; [exact Hi|exact Hc'|]. by eapply asleep_wakes; [apply Hr|].
  - done.
Qed.

(** The waiter's exit from the loop, with or without registration. *)
Definition px_leave (cur : option nat) (reg : bool) (x : gj_notify) : gj_notify :=
  if reg then with_waiters (n_u32Waiters x - 1) (if bool_decide (n_pWaiter x = cur) then with_waiter None x else x) else x.

Lemma wp_leave m0 n cur (reg : bool) x up m (Q : unit -> ntf_mem -> Prop) :
  nres n x up m0 m -> (forall m', nres n (px_leave cur reg x) up m0 m' -> Q tt m') ->
  wp (if reg then wait_unregister n cur else pret tt) Q m.
Proof.
  intros H HQ. unfold px_leave in HQ. destruct reg; [|by apply wp_ret, HQ]. unfold wait_unregister.
  ngo. case_bool_decide; ngo; by apply HQ.
Qed.

Lemma wait_done pcs n x y up m m' cur mask reg v :
  ninv kills pcs m -> nm_objs m !! n = Some x -> reg_ok cur n mask reg pcs -> (forall c, cur = Some c -> awake (nthreads m) c) ->
  nres n (px_leave cur reg y) up m m' -> n_u32Waiters y = n_u32Waiters x -> n_u32Ready y = n_u32Ready x ->
  (forall mk, Z.land (n_u64Pending x) mk = 0 -> Z.land (n_u64Pending y) mk = 0) ->
  ninv kills (wait_pcs cur n mask (WaitRet v) pcs) m' /\ absn m' = <[n := MkANtf (nalive n m x) (n_u64Pending y)]> (absn m).
Proof.
  intros Hi E Hreg Haw D Hw Hrd Hp.
  assert (n_u32Ready (px_leave cur reg y) = n_u32Ready x /\ n_u64Pending (px_leave cur reg y) = n_u64Pending y) as [H1 H2].
  { unfold px_leave. by repeat case_match. }
  split.
  - unfold wait_pcs. destruct reg; unfold reg_ok in Hreg.
    + destruct cur as [c|]; [|done]. eapply ninv_leave; [exact Hi|exact E|exact D|exact Hreg|by apply Haw| |done|by rewrite H2].
      unfold px_leave. cbn. rewrite Hw. destruct (ni_ntf _ _ _ Hi n x E) as [Q1 _].
      pose proof (crowd_leave n pcs c _ Hreg) as Hcr. rewrite bool_decide_true in Hcr by done. pose proof (ni_crowd _ _ _ Hi n).
      destruct Hkills. unfold u32_wrap. apply Z.mod_small. lia.
    + assert (ninv kills pcs m') as Hi'.
      { eapply ninv_res; [exact Hi|exact E|exact D|done|]. right. right. split; [done|by rewrite H2]. }
      destruct cur as [c|]; [|done]. by rewrite delete_id.
  - rewrite (absn_move _ _ _ _ _ (nres_move _ _ _ _ _ D)), (absx_res _ _ _ _ _ D). f_equal. unfold absx, nalive. by rewrite H1, H2.
Qed.

Lemma ldiff_land_0 p g mk : Z.land p mk = 0 -> Z.land (Z.ldiff p g) mk = 0.
Proof.
  intros H. apply Z.bits_inj_0. intros i. rewrite Z.land_spec, Z.ldiff_spec. apply (f_equal (fun z => Z.testbit z i)) in H.
  rewrite Z.land_spec, Z.bits_0 in H. destruct (Z.testbit p i), (Z.testbit mk i); try done. by rewrite andb_false_r.
Qed.

Lemma wp_wait_hit pcs m n x cur mask reg :
  ninv kills pcs m -> nm_objs m !! n = Some x -> reg_ok cur n mask reg pcs -> (forall c, cur = Some c -> awake (nthreads m) c) ->
  forall got, wp (wait_hit n cur reg (n_u64Pending x) got) (fun r m' =>
    (absn m', r) = (alter (an_take got) n (absn m), WaitRet got) /\ ninv kills (wait_pcs cur n mask r pcs) m') m.
Proof.
  intros Hi E Hreg Haw got. pose proof (nres_refl n x m E) as D. unfold wait_hit. ngo. eapply wp_leave; [eassumption|].
  intros m1 D1. ngo. nlast D2 n2.
  destruct (wait_done pcs n x _ _ m n2 cur mask reg got Hi E Hreg Haw D2) as [H1 H2]; [done|done|intros mk; apply ldiff_land_0|].
  split; [|done]. f_equal. rewrite H2, (absn_alter m n x) by done. done.
Qed.

(** A thread registers. *)
Lemma ninv_register pcs n x x' m m' c mask :
  ninv kills pcs m -> nm_objs m !! n = Some x -> nres n x' false m m' -> pcs !! c = None -> awake (nthreads m) c ->
  Z.of_nat (crowd n pcs) < NOTIFY_SOFT_MULTI_MAX -> n_u32Waiters x' = n_u32Waiters x + 1 -> n_u32Ready x' = n_u32Ready x ->
  n_u64Pending x' = n_u64Pending x -> ninv kills (<[c := (n, mask)]> pcs) m'.
Proof.
  intros Hi E Hr Hc Haw Hlt Hw Hrd Hp. pose proof (ni_ntf _ _ _ Hi n x E) as [Q1 Q2].
  pose proof (crowd_new n pcs c (n, mask) Hc) as Hcr. rewrite bool_decide_true in Hcr by done.
  eapply ninv_move; [exact Hi|exact E|by eapply nres_move|..].
  - split; [lia|]. intros i Ha. pose proof (asleep_wakes _ _ _ _ _ (nr_thr _ _ _ _ _ Hr) Ha) as Ha'.
    destruct (Q2 i Ha') as (mk & Hpi & Hal & Hz). exists mk. split_and!; [|
      rewrite (nalive_state m m' n) by (unfold nhdr_state; by rewrite (nr_cap _ _ _ _ _ Hr)); unfold nalive in *; by rewrite Hrd|by rewrite Hp].
    rewrite lookup_insert_ne; [done|]. intros ->. congruence.
  - intros n' Hne. rewrite (crowd_new n' pcs c _ Hc), bool_decide_false by (simpl; congruence). done.
  - lia.
  - intros c' n' mk Hne. destruct (decide (c = c')) as [<-|]; [rewrite lookup_insert_eq, Hc; naive_solver|by rewrite lookup_insert_ne].
  - intros c' mk Hc'. destruct (decide (c = c')) as [<-|Hne].
    + destruct Haw as (H1 & H2 & H3). split_and!; [done|done|]. intros o g Ha.
      by destruct (H3 _ _ (asleep_wakes _ _ _ _ _ (nr_thr _ _ _ _ _ Hr) Ha)).
    + rewrite lookup_insert_ne in Hc' by done. destruct (ni_pc _ _ _ Hi c' n mk Hc') as (H1 & H2 & H3). split_and!; [done|done|].
      intros o g Ha. eapply ni_park; [exact Hi|exact Hc'|]. by eapply asleep_wakes; [apply Hr|].
  - done.
Qed.

(** The mask of a parked thread may be replaced when it is awake or the new one
    finds nothing. *)
Lemma ninv_remask pcs n x m c mk0 mask :
  ninv kills (<[c := (n, mk0)]> pcs) m -> nm_objs m !! n = Some x ->
  (asleep_on (nthreads m) c (ntf_key n) NOTIFY_TAG_WAITER -> Z.land (n_u64Pending x) mask = 0) ->
  ninv kills (<[c := (n, mask)]> pcs) m.
Proof.
  intros Hi E Hz.
  assert (forall n', crowd n' (<[c := (n, mask)]> pcs) = crowd n' (<[c := (n, mk0)]> pcs)) as Hcr.
  { intros n'. rewrite <-(insert_delete_eq pcs c (n, mask)), <-(insert_delete_eq pcs c (n, mk0)).
    by rewrite !crowd_new by apply lookup_delete_eq. }
  assert (forall c' n' mk, <[c := (n, mask)]> pcs !! c' = Some (n', mk) -> exists mk', <[c := (n, mk0)]> pcs !! c' = Some (n', mk')) as Hpc.
  { intros c' n' mk. destruct (decide (c = c')) as [<-|Hne]; [rewrite !lookup_insert_eq|rewrite !lookup_insert_ne by done]; naive_solver. }
  destruct Hi. split; try done.
  - intros n' y Ey. destruct (ni_ntf n' y Ey) as [Q1 Q2]. split; [by rewrite Hcr|]. intros i Ha.
    destruct (Q2 i Ha) as (mk & Hp & Hal & Hzi). destruct (decide (c = i)) as [<-|Hne].
    + rewrite lookup_insert_eq in Hp. injection Hp as <- <-. rewrite E in Ey. injection Ey as <-. exists mask.
      rewrite lookup_insert_eq. auto.
    + exists mk. rewrite lookup_insert_ne in * by done. done.
  - intros n'. by rewrite Hcr.
  - intros c' n' mk Hc'. destruct (Hpc c' n' mk Hc') as (mk' & Hc''). by eapply ni_pc.
  - intros c' n' mk o g Hc'. destruct (Hpc c' n' mk Hc') as (mk' & Hc''). by eapply ni_park.
Qed.

(** A parked thread falls asleep. *)
Lemma wp_nblock pcs m n x c (Q : unit -> ntf_mem -> Prop) :
  ninv kills pcs m -> nm_objs m !! n = Some x -> pcs !! c = Some (n, 0) -> awake (nthreads m) c -> nalive n m x = true ->
  (forall m', ninv kills pcs m' -> absn m' = absn m -> dom (nm_objs m') = dom (nm_objs m) -> Q tt m') ->
  wp (on_threads (thread_block (Some c) (ntf_key n) NOTIFY_TAG_WAITER)) Q m.
Proof.
  intros Hi E Hc ([p Ep] & Hg & Hno) Hal HQ. apply wp_on_threads. unfold thread_block. wsteps.
  change (g_aThreads (thr_of m)) with (nthreads m). rewrite Ep. wsteps.
  set (m' := thr_upd _ _). assert (nmove n x (Some (c, ntf_key n, NOTIFY_TAG_WAITER)) m m') as Hm.
  { split; try done; [by rewrite insert_id|].
    change (tmove (Some (c, ntf_key n, NOTIFY_TAG_WAITER)) (nthreads m) (<[c := slept (ntf_key n) NOTIFY_TAG_WAITER p]> (nthreads m))).
    by apply block_tmove. }
  apply HQ; [|done|done]. pose proof (ni_ntf _ _ _ Hi n x E) as [Q1 Q2]. pose proof (nv_thr _ _ _ _ _ Hm) as [_ _ Ts].
  eapply ninv_move; [exact Hi|exact E|exact Hm|..]; try done.
  - split; [done|]. intros i Ha. destruct (Ts _ _ _ Ha) as [Ha'|[= <-]]; [by apply Q2|]. exists 0. by rewrite Z.land_0_r.
  - apply (ni_crowd _ _ _ Hi).
  - intros c' mk Hc'. destruct (ni_pc _ _ _ Hi c' n mk Hc') as (H1 & H2 & H3). split_and!; [done|done|]. intros o g Ha.
    destruct (Ts _ _ _ Ha) as [Ha'|[= _ <- <-]]; [by eapply ni_park|done].
  - intros i o g [= <- <- <-]. split; [done|]. intros n' mk Hc'. congruence.
Qed.

Lemma alive_pulses l : forall N n, from_option an_live false (a_pulses l N !! n) = from_option an_live false (N !! n).
Proof.
  induction l as [|[n' b] l IH]; intros N n; [done|]. change (a_pulses ((n', b) :: l) N) with (a_pulses l (alter (an_post b) n' N)).
  rewrite IH. destruct (decide (n' = n)) as [->|Hne]; [rewrite lookup_alter_eq|by rewrite lookup_alter_ne].
  destruct (N !! n) as [a|]; [|done]. cbn. unfold an_post. by destruct (an_live a) eqn:El; cbn.
Qed.

Lemma absn_alive m n x : nm_objs m !! n = Some x -> from_option an_live false (absn m !! n) = nalive n m x.
Proof. intros E. by rewrite absn_lookup, E. Qed.

(** The registration. *)
Lemma wp_nregister pcs m n x c mask (reg : bool) (Q : unit -> ntf_mem -> Prop) :
  ninv kills pcs m -> nm_objs m !! n = Some x -> reg_ok (Some c) n mask reg pcs -> awake (nthreads m) c ->
  Z.of_nat (crowd n (delete c pcs)) < NOTIFY_SOFT_MULTI_MAX ->
  (forall m', ninv kills (<[c := (n, 0)]> pcs) m' -> absn m' = absn m -> dom (nm_objs m') = dom (nm_objs m) ->
     wakes (nthreads m) (nthreads m') -> Q tt m') ->
  wp ((if reg then pret tt else
       upd_ntf n (fun x => with_waiters (n_u32Waiters x + 1) x) ;;;
       x <- ld_ntf n ;;
       tick64 "u64WaitRegister" ;;; notify_soft_note_waiters (n_u32Waiters x)) ;;;
      upd_ntf n (with_waiter (Some c))) Q m.
Proof.
  intros Hi E Hreg Haw Hlt HQ. pose proof (nres_refl n x m E) as D. apply wp_bind.
  assert (forall y m', nres n y false m m' -> dom (nm_objs m') = dom (nm_objs m)) as Hdom.
  { intros y m' D'. rewrite (nr_objs _ _ _ _ _ D'). apply dom_insert_lookup_L. by eexists. }
  unfold reg_ok in Hreg. destruct reg.
  - ngo. nlast D1 n1. apply HQ; [|by eapply absn_quiet|by eapply Hdom|by apply D1].
    eapply (ninv_remask pcs n _ n1 c mask); [|by eapply nres_obj|intros _; apply Z.land_0_r]. rewrite insert_id by done.
    eapply ninv_res; [exact Hi|exact E|exact D1|done|]. right. right. done.
  - unfold notify_soft_note_waiters. ngo. nlast D1 n1. apply HQ; [|by eapply absn_quiet|by eapply Hdom|by apply D1].
    rewrite delete_id in Hlt by done. eapply ninv_register; [exact Hi|exact E|exact D1|done|done|done| |done|done].
    cbn. destruct (ni_ntf _ _ _ Hi n x E) as [Q1 _]. destruct Hkills. unfold u32_wrap. apply Z.mod_small. lia.
Qed.

(** Interrupts name objects that exist. *)
Definition irq_ok (m : ntf_mem) (l : list (objp * Z)) : Prop := Forall (fun p => is_Some (nm_objs m !! fst p)) l.

Lemma irq_ok_dom m m' l : dom (nm_objs m') = dom (nm_objs m) -> irq_ok m l -> irq_ok m' l.
Proof. intros Hd Hf. eapply Forall_impl; [exact Hf|]. intros p. rewrite <-!elem_of_dom. by rewrite Hd. Qed.

Lemma obj_dom m m' n : dom (nm_objs m') = dom (nm_objs m) -> is_Some (nm_objs m !! n) -> is_Some (nm_objs m' !! n).
Proof. intros Hd. rewrite <-!elem_of_dom. by rewrite Hd. Qed.

Lemma wp_wait_park pcs m n x c mask reg before after :
  ninv kills pcs m -> nm_objs m !! n = Some x -> reg_ok (Some c) n mask reg pcs -> awake (nthreads m) c ->
  nalive n m x = true -> Z.of_nat (crowd n (delete c pcs)) < NOTIFY_SOFT_MULTI_MAX -> irq_ok m before -> irq_ok m after ->
  wp (wait_park n c mask reg before after) (fun r m' =>
    (absn m', r) = (a_pulses after (a_pulses before (absn m)), WaitPark) /\ ninv kills (wait_pcs (Some c) n mask r pcs) m') m.
Proof.
  intros Hi E Hreg Haw Hal Hlt Hb Ha.
  unfold wait_park. apply wp_assoc.
  apply wp_bind. eapply wp_nregister; [done..|]. intros m1 Hi1 Ha1 Hd1 Hw1. apply wp_bind.
  eapply wp_mono; [apply (wp_irq_pulses kills (<[c := (n, 0)]> pcs)); [done|by eapply irq_ok_dom]|].
  intros _ m2 (Hi2 & Ha2 & Hw2 & Hd2). apply wp_bind.
  assert (is_Some (nm_objs m2 !! n)) as [x2 E2] by (eapply obj_dom; [exact Hd2|]; eapply obj_dom; [exact Hd1|by eexists]).
  eapply wp_nblock; [exact Hi2|exact E2|by rewrite lookup_insert_eq|by eapply awake_wakes; [etrans; [exact Hw1|exact Hw2]|]| |].
  { rewrite <-(absn_alive m2 n x2 E2), Ha2, alive_pulses, Ha1. by rewrite (absn_alive m n x). }
  intros m3 Hi3 Ha3 Hd3. apply wp_bind.
  eapply wp_mono; [apply (wp_irq_pulses kills (<[c := (n, 0)]> pcs)); [done|eapply irq_ok_dom; [|exact Ha]; congruence]|].
  intros _ m4 (Hi4 & Ha4 & Hw4 & Hd4). assert (is_Some (nm_objs m4 !! n)) as [x4 E4].
  { eapply obj_dom; [exact Hd4|]. eapply obj_dom; [exact Hd3|by eexists]. }
  assert (absn m4 = a_pulses after (a_pulses before (absn m))) as Habs by (by rewrite Ha4, Ha3, Ha2, Ha1).
  pose proof (ninv_hdr _ _ _ _ _ Hi4 E4) as Hh4. pose proof (ni_len _ _ _ Hi4) as Hlen4. pose proof (nres_refl n x4 m4 E4) as D. ngo.
  unfold wait_pcs. destruct (Z.eqb_spec (Z.land (n_u64Pending x4) mask) 0) as [Hz|Hz]; cbn [negb orb].
  - destruct (nalive n m4 x4) eqn:Hal4; cbn [negb].
    + ngo. split; [by rewrite Habs|]. by eapply ninv_remask.
    + ngo. nlast D5 n5. split; [f_equal; rewrite <-Habs; by eapply absn_quiet|].
      eapply (ninv_remask pcs n x4 n5 c 0); [by eapply ninv_res; [exact Hi4|exact E4|exact D5|done|left]|by eapply nres_obj|done].
  - ngo. nlast D5 n5. split; [f_equal; rewrite <-Habs; by eapply absn_quiet|].
    eapply (ninv_remask pcs n x4 n5 c 0); [by eapply ninv_res; [exact Hi4|exact E4|exact D5|done|left]|by eapply nres_obj|].
    intros Has. by destruct (nr_up _ _ _ _ _ D5 eq_refl (ninv_waiting _ _ _ _ _ Hi4 E4) c).
Qed.

Definition parks (cur : option nat) (fBlock : bool) : bool := fBlock && bool_decide (is_Some cur).

(** The loop ends with nothing. *)
Lemma wp_wait_none pcs m n x cur mask reg (K : prog ntf_mem wait_res) :
  ninv kills pcs m -> nm_objs m !! n = Some x -> reg_ok cur n mask reg pcs -> (forall c, cur = Some c -> awake (nthreads m) c) ->
  (forall y up m1 (Q : wait_res -> ntf_mem -> Prop), nres n y up m m1 -> (forall m2, nres n y up m m2 -> Q (WaitRet 0) m2) -> wp K Q m1) ->
  wp ((if reg then wait_unregister n cur else pret tt) ;;; K) (fun r m' =>
    (absn m', r) = (absn m, WaitRet 0) /\ ninv kills (wait_pcs cur n mask r pcs) m') m.
Proof.
  intros Hi E Hreg Haw HK. apply wp_bind. eapply wp_leave; [by apply nres_refl|]. intros m1 D1. eapply HK; [exact D1|]. intros m2 D2.
  destruct (wait_done pcs n x x _ m m2 cur mask reg 0 Hi E Hreg Haw D2) as [H1 H2]; [done..|]. split; [|done]. f_equal.
  rewrite H2. apply insert_id. by rewrite absn_lookup, E.
Qed.

(** One round of the loop; [swap] is what happens around the compare-and-swap. *)
Lemma wp_wait_round pcs m n x cur mask fBlock reg before after irqs (swap : Z -> Z -> prog ntf_mem wait_res) :
  ninv kills pcs m -> nm_objs m !! n = Some x -> reg_ok cur n mask reg pcs -> (forall c, cur = Some c -> awake (nthreads m) c) ->
  (forall c, cur = Some c -> fBlock = true -> Z.of_nat (crowd n (delete c pcs)) < NOTIFY_SOFT_MULTI_MAX) ->
  irq_ok m before -> irq_ok m after ->
  (forall got, got = Z.land (n_u64Pending x) mask -> got <> 0 -> nalive n m x = true -> wp (swap (n_u64Pending x) got) (fun r m' =>
    (absn m', r) = a_wait n mask (parks cur fBlock) irqs before after (absn m) /\ ninv kills (wait_pcs cur n mask r pcs) m') m) ->
  wp (tick64 "u64WaitLoop" ;;;
      lv <- notify_live (Some n) ;;
      if negb lv then
        (if reg then wait_unregister n cur else pret tt) ;;;
        tick64 "u64WaitDead" ;;; tick64 "u64WaitDeadLoop" ;;; tick64 "u64WaitRetZero" ;;; notify_soft_log_once ;;;
        pret (WaitRet 0)
      else
      x <- ld_ntf n ;;
      let pend := n_u64Pending x in
      let got := Z.land pend mask in
      if negb (got =? 0) then swap pend got
      else
      let miss :=
        (if bool_decide (cur = None) && fBlock then tick64 "u64WaitNoThr" else pret tt) ;;;
        (if reg then wait_unregister n cur else pret tt) ;;;
        tick64 "u64WaitPollMiss" ;;; tick64 "u64WaitRetZero" ;;; notify_soft_log_once ;;;
        pret (WaitRet 0) in
      match cur with
      | Some c => if fBlock then wait_park n c mask reg before after else miss
      | None => miss
      end) (fun r m' =>
    (absn m', r) = a_wait n mask (parks cur fBlock) irqs before after (absn m) /\ ninv kills (wait_pcs cur n mask r pcs) m') m.
Proof.
  intros Hi E Hreg Haw Hlt Hb Ha Hswap. pose proof (ninv_hdr _ _ _ _ _ Hi E) as Hh. pose proof (nres_refl n x m E) as D.
  assert (absn m !! n = Some (absx m n x)) as Eabs by (by rewrite absn_lookup, E). ngo.
  destruct (nalive n m x) eqn:Hal; cbn [negb].
  2:{ eapply wp_mono; [apply (wp_wait_none pcs m n x cur mask reg); [done..|]|].
      - intros y up m1 Q D1 HQ. ngo. by apply HQ.
      - intros r m' [Hr Hd]. split; [|done]. rewrite Hr. destruct irqs; cbn [a_wait]; rewrite Eabs; cbn [absx an_live]; by rewrite Hal. }
  ngo. destruct (Z.eqb_spec (Z.land (n_u64Pending x) mask) 0) as [Hz|Hz]; cbn [negb]; [|by apply Hswap].
  assert (forall N r, (if parks cur fBlock then (a_pulses after (a_pulses before (absn m)), WaitPark) else (absn m, WaitRet 0)) = (N, r) ->
    a_wait n mask (parks cur fBlock) irqs before after (absn m) = (N, r)) as Haw'.
  { intros N r <-. destruct irqs; cbn [a_wait]; rewrite Eabs; cbn [absx an_live an_pending]; rewrite Hal, Hz; done. }
  destruct cur as [c|]; [destruct fBlock|].
  - eapply wp_mono; [by apply (wp_wait_park pcs m n x c mask reg before after); auto|]. intros r m' [Hr Hd]. split; [|done].
    rewrite Hr. symmetry. by apply Haw'.
  - rewrite andb_false_r. apply wp_bind, wp_ret. eapply wp_mono; [apply (wp_wait_none pcs m n x (Some c) mask reg); [done..|]|].
    + intros y up m1 Q D1 HQ. ngo. by apply HQ.
    + intros r m' [Hr Hd]. split; [|done]. rewrite Hr. symmetry. by apply Haw'.
  - apply wp_bind. apply (wp_mono _ (fun _ m' => m' = m)); [destruct (bool_decide (@None nat = None) && fBlock); by wsteps|]. intros _ ? ->.
    eapply wp_mono; [apply (wp_wait_none pcs m n x None mask reg); [done..|]|].
    + intros y up m1 Q D1 HQ. ngo. by apply HQ.
    + intros r m' [Hr Hd]. split; [|done]. rewrite Hr. symmetry. apply Haw'. unfold parks. by rewrite andb_false_r.
Qed.

Lemma wp_wait_loop n cur mask fBlock reg before after : forall irqs pcs m x,
  ninv kills pcs m -> nm_objs m !! n = Some x -> reg_ok cur n mask reg pcs -> (forall c, cur = Some c -> awake (nthreads m) c) ->
  (forall c, cur = Some c -> fBlock = true -> Z.of_nat (crowd n (delete c pcs)) < NOTIFY_SOFT_MULTI_MAX) ->
  Forall (irq_ok m) irqs -> irq_ok m before -> irq_ok m after ->
  wp (wait_loop n cur mask fBlock reg irqs before after) (fun r m' =>
    (absn m', r) = a_wait n mask (parks cur fBlock) irqs before after (absn m) /\ ninv kills (wait_pcs cur n mask r pcs) m') m.
Proof.
  induction irqs as [|l irqs IH]; intros pcs m x Hi E Hreg Haw Hlt Hirq Hb Ha; cbn [wait_loop].
  - apply (wp_wait_round pcs m n x cur mask fBlock reg before after [] (fun pend got => wait_hit n cur reg pend got)); try done.
    intros got Hg Hnz Hal. eapply wp_mono; [by apply wp_wait_hit|]. intros r m' [Hr Hd]. split; [|done]. rewrite Hr.
    cbn [a_wait]. rewrite absn_lookup, E. cbn [fmap option_fmap option_map absx an_live an_pending]. rewrite Hal, <-Hg.
    by rewrite (proj2 (Z.eqb_neq _ _) Hnz).
  - apply Forall_cons in Hirq as [Hl Hirq].
    apply (wp_wait_round pcs m n x cur mask fBlock reg before after (l :: irqs) (fun pend got =>
      irq_pulses l ;;; y <- ld_ntf n ;;
      if n_u64Pending y =? pend then wait_hit n cur reg pend got
      else tick64 "u64WaitCasRetry" ;;; wait_loop n cur mask fBlock reg irqs before after)); try done.
    intros got Hg Hnz Hal. apply wp_bind. eapply wp_mono; [by apply (wp_irq_pulses kills pcs)|]. intros _ m1 (Hi1 & Ha1 & Hw1 & Hd1).
    assert (is_Some (nm_objs m1 !! n)) as [x1 E1] by (eapply obj_dom; [exact Hd1|by eexists]).
    assert (forall c, cur = Some c -> awake (nthreads m1) c) as Haw1 by (intros c Hc; eapply awake_wakes; [exact Hw1|auto]).
    cbn [a_wait]. rewrite (absn_lookup m), E. cbn [fmap option_fmap option_map absx an_live an_pending]. rewrite Hal, <-Hg. cbn [negb].
    rewrite (proj2 (Z.eqb_neq _ _) Hnz), <-Ha1, absn_lookup, E1. cbn [fmap option_fmap option_map from_option absx an_pending].
    pose proof (nres_refl n x1 m1 E1) as D. ngo. destruct (Z.eqb_spec (n_u64Pending x1) (n_u64Pending x)) as [Heq|Hne].
    + rewrite <-Heq. by apply wp_wait_hit.
    + ngo. apply (IH pcs m1 x1); try done; [|by eapply irq_ok_dom..]. eapply Forall_impl; [exact Hirq|]. intros l'. by apply irq_ok_dom.
Qed.
End Wait.
