(* ===== verification/NotifySys.v ===== *)
(** Notifications in use: any interleaving of waits, turns of parked threads,
    pulses, kicks, deaths of objects and of threads. *)
From stdpp Require Import base gmap list strings.
From Stdlib Require Import ZArith Lia.
From S2P Require Import Prelude CapTypes CapInv CapRevoke CapLean Thread ThreadProofs KernObj Notify NotifyInv NotifySpec NotifyWait.

Implicit Types (pcs : gmap nat (objp * Z)).

(** ** Entry and resumption of a wait *)
Section Ops.
Context (kills : Z) (Hkills : kills_ok kills).

Lemma wp_wait pcs m n x cur mask fBlock irqs before after :
  ninv kills pcs m -> nm_objs m !! n = Some x -> (forall c, cur = Some c -> awake (nthreads m) c /\ pcs !! c = None) ->
  (forall c, cur = Some c -> fBlock = true -> Z.of_nat (crowd n pcs) < NOTIFY_SOFT_MULTI_MAX) ->
  Forall (irq_ok m) irqs -> irq_ok m before -> irq_ok m after ->
  wp (notify_wait (Some n) mask fBlock cur irqs before after) (fun r m' =>
    (absn m', r) = a_wait n (mask_of mask) (parks cur fBlock) irqs before after (absn m) /\
    ninv kills (wait_pcs cur n (mask_of mask) r pcs) m') m.
Proof.
  intros Hi E Hcur Hlt H1 H2 H3. pose proof (ninv_hdr _ _ _ _ _ Hi E) as Hh. pose proof (nres_refl n x m E) as D.
  assert (reg_ok cur n (mask_of mask) false pcs) as Hreg by (destruct cur as [c|]; [by apply Hcur|done]).
  unfold notify_wait. apply wp_bind, wp_tick64, wp_bind.
  apply (wp_mono _ (fun _ m' => m' = m)); [destruct fBlock; by wsteps|]. intros _ ? ->. ngo.
  destruct (nalive n m x) eqn:Hal; cbn [negb].
  - apply wp_bind. apply (wp_mono _ (fun _ m' => m' = m)); [case_match; by wsteps|]. intros _ ? ->.
    eapply wp_wait_loop; [done|done|done|done|by apply Hcur| |done..].
    intros c Hc Hb. rewrite delete_id; [by eapply Hlt|]. by apply Hcur.
  - ngo. split.
    + assert (absn m !! n = Some (absx m n x)) as Eabs by (by rewrite absn_lookup, E).
      destruct irqs; cbn [a_wait]; rewrite Eabs; cbn [absx an_live]; by rewrite Hal.
    + unfold wait_pcs. destruct cur as [c|]; [|done]. rewrite delete_id; [done|]. by apply Hcur.
Qed.

Lemma crowd_but_one pcs m n c mask :
  ninv kills pcs m -> pcs !! c = Some (n, mask) -> Z.of_nat (crowd n (delete c pcs)) < NOTIFY_SOFT_MULTI_MAX.
Proof.
  intros Hi Hc. pose proof (ni_crowd _ _ _ Hi n) as Hle. rewrite (crowd_leave n pcs c _ Hc), bool_decide_true in Hle by done. lia.
Qed.

Lemma wp_wait_resume pcs m n x c mask irqs before after :
  ninv kills pcs m -> nm_objs m !! n = Some x -> pcs !! c = Some (n, mask) -> awake (nthreads m) c ->
  Forall (irq_ok m) irqs -> irq_ok m before -> irq_ok m after ->
  wp (wait_resume n c mask irqs before after) (fun r m' =>
    (absn m', r) = a_wait n mask true irqs before after (absn m) /\ ninv kills (wait_pcs (Some c) n mask r pcs) m') m.
Proof.
  intros Hi E Hc Haw H1 H2 H3. pose proof (nres_refl n x m E) as D. unfold wait_resume. ngo.
  set (y := if bool_decide (n_pWaiter x = Some c) then with_waiter None x else x).
  apply (wp_mono _ (fun _ m1 => nres n y false m m1)).
  { unfold y. case_bool_decide; ngo; done. }
  intros _ m1 D1. assert (ninv kills pcs m1) as Hi1.
  { eapply ninv_res; [exact Hi|exact E|exact D1|by unfold y; case_bool_decide|]. right. right. unfold y. by case_bool_decide. }
  assert (absn m1 = absn m) as Ha by (eapply absn_quiet; [exact D1|exact E|by unfold y; case_bool_decide..]).
  assert (dom (nm_objs m1) = dom (nm_objs m)) as Hd.
  { rewrite (nr_objs _ _ _ _ _ D1). apply dom_insert_lookup_L. by eexists. }
  rewrite <-Ha. eapply (wp_wait_loop kills Hkills n (Some c) mask true true); [exact Hi1|by eapply nres_obj|done| |..].
  - intros c' [= <-]. by eapply awake_wakes; [apply D1|].
  - intros c' [= <-] _. by eapply crowd_but_one.
  - eapply Forall_impl; [exact H1|]. intros l. by apply irq_ok_dom.
  - by eapply irq_ok_dom.
  - by eapply irq_ok_dom.
Qed.

(** ** Kicks and death *)
Lemma wp_drain_loop k n x m0 : length (nthreads m0) = GJ_MAX_THREADS -> forall up m tot (Q : Z -> ntf_mem -> Prop),
  nres n x up m0 m -> (forall r m' up', nres n x up' m0 m' -> (up = true \/ (k <> 0%nat /\ has_waiter x = true) -> up' = true) -> Q r m') ->
  wp (drain_loop k n tot) Q m.
Proof.
  intros Hlen. induction k as [|k IH]; intros up m tot Q D HQ; cbn [drain_loop].
  { apply wp_ret. eapply HQ; [exact D|]. by intros [|[]]. }
  ngo. destruct (has_waiter x) eqn:Hh; cbn [negb].
  2:{ ngo. eapply HQ; [exact D|]. by intros [|[]]. }
  ngo. nlast D1 n1. case_match; ngo; [by eapply HQ|]. eapply IH; [exact D1|]. intros r m' up' D' Hu. eapply HQ; [exact D'|]. auto.
Qed.

Lemma wp_drain n x m0 m (Q : Z -> ntf_mem -> Prop) :
  length (nthreads m0) = GJ_MAX_THREADS -> nres n x false m0 m ->
  (forall r m' up, nres n x up m0 m' -> (has_waiter x = true -> up = true) -> Q r m') -> wp (notify_soft_waker_drain (Some n)) Q m.
Proof.
  intros Hlen D HQ. unfold notify_soft_waker_drain. ngo. eapply wp_drain_loop; [done|exact D|]. intros r m' up D' Hu.
  apply wp_bind. apply (wp_mono _ (fun _ m'' => m'' = m')); [case_match; [by apply wp_soft_add|by wsteps]|]. intros _ ? ->. apply wp_ret.
  eapply HQ; [exact D'|]. auto.
Qed.

Lemma wp_nabort n x m0 m (Q : unit -> ntf_mem -> Prop) :
  length (nthreads m0) = GJ_MAX_THREADS -> nres n x false m0 m ->
  (forall m' up, nres n x up m0 m' -> (has_waiter x = true -> up = true) -> Q tt m') -> wp (notify_abort_waiter (Some n)) Q m.
Proof.
  intros Hlen D HQ. unfold notify_abort_waiter. ngo. destruct (has_waiter x) eqn:Hh.
  - ngo. eapply wp_drain; [done|exact D|]. intros r m' up D' Hu. destruct (negb _); ngo; (eapply HQ; [exact D'|auto]).
  - ngo. by eapply HQ; [exact D|].
Qed.

(** Wakes alone change nothing of the promise. *)
Lemma nres_keeps pcs n x up m m' :
  ninv kills pcs m -> nm_objs m !! n = Some x -> nres n x up m m' -> absn m' = absn m /\ ninv kills pcs m'.
Proof.
  intros Hi E D. split; [by eapply absn_quiet|]. eapply ninv_res; [exact Hi|exact E|exact D|done|]. right. by right.
Qed.

Lemma wp_kick pcs m n x k :
  ninv kills pcs m -> nm_objs m !! n = Some x -> 0 <= k ->
  wp (notify_wake (Some n) k) (fun _ m' => absn m' = absn m /\ ninv kills pcs m') m.
Proof.
  intros Hi E Hk. pose proof (ni_len _ _ _ Hi) as Hlen. pose proof (nres_refl n x m E) as D. unfold notify_wake. ngo.
  destruct (has_waiter x); cbn [negb]; [|by ngo]. apply wp_bind. eapply wp_nwake_n; [done|exact D|done|]. intros m' D'.
  case_match; ngo; by eapply nres_keeps.
Qed.

(** The death of an object: the header goes, then everybody is woken. *)
Lemma wp_nbury pcs m n x : ninv kills pcs m -> nm_objs m !! n = Some x -> forall k, nm_cap k = nm_cap m ->
  wp (h <- on_cap (obj_load n) ;;
      (if hdr_u32State h =? GJ_OBJ_LIVE then
         on_cap (gj_obj_revoke_begin soft_revoke_inventory_maybe_once (Some n)) ;;; tick64 "u64MarkDeadRevoke"
       else on_cap (obj_store n (hdr_set_state h GJ_OBJ_DEAD)) ;;; tick64 "u64MarkDeadForce"))
    (fun _ k' => exists c', k' = set_ncap c' k /\ buried n (nm_cap m) c') k.
Proof.
  intros Hi E k Hk. destruct (ni_hdr _ _ _ Hi n x E) as [[h Eh] Hs]. unfold nhdr_state in Hs. rewrite Eh in Hs. cbn in Hs.
  pose proof (ni_wf _ _ _ Hi) as Hw. rewrite <-Hk in *. apply wp_bind. eapply wp_cap_load; [exact Eh|].
  destruct Hs as [Hs|Hs]; rewrite Hs; cbn [Z.eqb]; cbv iota; apply wp_bind.
  - eapply wp_on_cap; [by apply (wp_bury n h)|]. intros st c' Hb. apply wp_tick64. by exists c'.
  - eapply wp_on_cap; [by apply (wp_bury_again n h)|]. intros st c' Hb. apply wp_tick64. by exists c'.
Qed.

Lemma nbury_move m n x1 up k c' :
  nres n x1 up m k -> buried n (nm_cap m) c' -> nmove n x1 None m (set_ncap c' k).
Proof.
  intros D [Hw (h & Eh & Hs) Ho]. destruct (nres_move _ _ _ _ _ D). split; try done.
  - intros _. split; [by exists h|]. right. unfold nhdr_state. cbn. by rewrite Eh.
  - intros n' Hne. specialize (Ho n' Hne). unfold nhdr_state. cbn.
    destruct (m_objs c' !! n') as [a|], (m_objs (nm_cap m) !! n') as [b|]; try done. cbn. split; [by injection Ho|by eexists].
Qed.

Lemma nmove_res n x1 x2 up m k m' : nmove n x1 None m k -> nres n x2 up k m' -> nmove n x2 None m m'.
Proof.
  intros [] D. pose proof (nres_move _ _ _ _ _ D) as []. split; try tauto.
  - rewrite nv_objs0, nv_objs. by rewrite insert_insert_eq.
  - by eapply tmove_trans.
  - intros n' Hne. destruct (nv_hdrs n' Hne), (nv_hdrs0 n' Hne). split; [congruence|tauto].
Qed.

Lemma wp_ndead pcs m n x :
  ninv kills pcs m -> nm_objs m !! n = Some x ->
  wp (notify_mark_dead (Some n)) (fun _ m' => absn m' = alter an_kill n (absn m) /\ ninv kills pcs m') m.
Proof.
  intros Hi E. pose proof (ni_len _ _ _ Hi) as Hlen. pose proof (nres_refl n x m E) as D. unfold notify_mark_dead.
  apply wp_bind, wp_tick64, wp_bind. eapply wp_nupd; [exact D|]. intros k D1 _. apply wp_assoc, wp_bind.
  eapply wp_mono; [by eapply wp_nbury; [exact Hi|exact E|apply D1]|]. intros _ ? (c' & -> & Hb).
  pose proof (nbury_move _ _ _ _ _ _ D1 Hb) as Hm1. set (k' := set_ncap c' k) in *.
  assert (nm_objs k' !! n = Some (with_ready false x)) as E1 by exact (nres_obj _ _ _ _ _ D1).
  eapply wp_nabort; [|by apply nres_refl|].
  { change (length (nthreads k) = GJ_MAX_THREADS). by rewrite (nres_len _ _ _ _ _ D1). }
  intros m' up D2 Hu. pose proof (nmove_res _ _ _ _ _ _ _ Hm1 D2) as Hm. split.
  - rewrite (absn_move _ _ _ _ _ Hm), (absn_alter m n x) by done. f_equal.
  - pose proof (ni_ntf _ _ _ Hi n x E) as [Q1 Q2].
    assert (wakes (nthreads m) (nthreads m')) as Hw by (etrans; [apply D1|apply D2]).
    assert (forall i, ~ asleep_on (nthreads m') i (ntf_key n) NOTIFY_TAG_WAITER) as Hno.
    { destruct (has_waiter x) eqn:Hh.
      - eapply nr_up; [exact D2|by apply Hu|]. etrans; [apply (waiting_le _ _ _ _ (nr_thr _ _ _ _ _ D1))|]. by eapply ninv_waiting.
      - intros i Ha. destruct (Q2 i (asleep_wakes _ _ _ _ _ Hw Ha)) as (mk & Hp & _).
        pose proof (no_waiter _ _ _ _ _ Hi E Hh) as H0. rewrite (crowd_leave n pcs i _ Hp), bool_decide_true in H0 by done. lia. }
    eapply ninv_move; [exact Hi|exact E|exact Hm|..]; try done.
    + split; [done|]. intros i Ha. by destruct (Hno i).
    + apply (ni_crowd _ _ _ Hi).
    + intros c mk Hc. destruct (ni_pc _ _ _ Hi c n mk Hc) as (H1 & H2 & H3). split_and!; [done|done|].
      intros o g Ha. eapply ni_park; [exact Hi|exact Hc|]. by eapply asleep_wakes.
Qed.
End Ops.

(** ** Events *)
Record nsys : Type := MkNSys { ns_mem : ntf_mem; ns_pcs : gmap nat (objp * Z); ns_kills : Z }.

Inductive nev : Type :=
| NvWait (cur : option nat) (n : objp) (mask : Z) (fBlock : bool) (irqs : list (list (objp * Z))) (before after : list (objp * Z))
| NvTurn (c : nat) (irqs : list (list (objp * Z))) (before after : list (objp * Z))   (** a parked thread that was woken runs *)
| NvPulse (n : objp) (b : Z)
| NvKick (n : objp) (k : Z)
| NvAbort (n : objp)
| NvDead (n : objp)
| NvExit (t : nat).

Inductive nout : Type := NoWait (r : wait_res) | NoDone.

Definition obj_at (s : nsys) (n : objp) : Prop := is_Some (nm_objs (ns_mem s) !! n).
Definition irqs_at (s : nsys) (irqs : list (list (objp * Z))) (before after : list (objp * Z)) : Prop :=
  Forall (irq_ok (ns_mem s)) irqs /\ irq_ok (ns_mem s) before /\ irq_ok (ns_mem s) after.

(** Which events can happen: the acting thread runs and is not parked already,
    objects exist, at most eight threads wait at one object, and fewer than
    2^32 - 9 threads have exited. *)
Definition nev_ok (s : nsys) (e : nev) : Prop :=
  match e with
  | NvWait cur n mask fBlock irqs before after =>
      obj_at s n /\ irqs_at s irqs before after /\
      match cur with
      | None => True
      | Some c => awake (nthreads (ns_mem s)) c /\ ns_pcs s !! c = None /\
          (fBlock = true -> Z.of_nat (crowd n (ns_pcs s)) < NOTIFY_SOFT_MULTI_MAX)
      end
  | NvTurn c irqs before after => awake (nthreads (ns_mem s)) c /\ is_Some (ns_pcs s !! c) /\ irqs_at s irqs before after
  | NvPulse n _ | NvAbort n | NvDead n => obj_at s n
  | NvKick n k => obj_at s n /\ 0 <= k
  | NvExit t => is_Some (nthreads (ns_mem s) !! t) /\ kills_ok (ns_kills s + 1)
  end.

Definition nev_prog pcs (e : nev) : prog ntf_mem nout :=
  match e with
  | NvWait cur n mask fBlock irqs before after => r <- notify_wait (Some n) mask fBlock cur irqs before after ;; pret (NoWait r)
  | NvTurn c irqs before after =>
      match pcs !! c with
      | Some (n, mask) => r <- wait_resume n c mask irqs before after ;; pret (NoWait r)
      | None => pret NoDone
      end
  | NvPulse n b => notify_pulse (Some n) b ;;; pret NoDone
  | NvKick n k => notify_wake (Some n) k ;;; pret NoDone
  | NvAbort n => notify_abort_waiter (Some n) ;;; pret NoDone
  | NvDead n => notify_mark_dead (Some n) ;;; pret NoDone
  | NvExit t => on_threads (thread_exit_mark (Some t)) ;;; pret NoDone
  end.

Definition nev_pcs (e : nev) (o : nout) pcs : gmap nat (objp * Z) :=
  match e, o with
  | NvWait cur n mask _ _ _ _, NoWait r => wait_pcs cur n (mask_of mask) r pcs
  | NvTurn c _ _ _, NoWait r => match pcs !! c with Some (n, mask) => wait_pcs (Some c) n mask r pcs | None => pcs end
  | NvExit t, _ => delete t pcs
  | _, _ => pcs
  end.
Definition nev_kills (e : nev) (k : Z) : Z := match e with NvExit _ => k + 1 | _ => k end.

(** The same event on the promise. *)
Definition na_step pcs (e : nev) (N : gmap objp antf) : gmap objp antf * nout :=
  match e with
  | NvWait cur n mask fBlock irqs before after =>
      prod_map id NoWait (a_wait n (mask_of mask) (parks cur fBlock) irqs before after N)
  | NvTurn c irqs before after =>
      match pcs !! c with
      | Some (n, mask) => prod_map id NoWait (a_wait n mask true irqs before after N)
      | None => (N, NoDone)
      end
  | NvPulse n b => (alter (an_post b) n N, NoDone)
  | NvDead n => (alter an_kill n N, NoDone)
  | NvKick _ _ | NvAbort _ | NvExit _ => (N, NoDone)
  end.

Lemma ninv_kill k t p pcs m (m' := set_nthr (set_threads (<[t := with_state GJ_THR_EXITED p]> (nthreads m)) (nm_thr m)) m) :
  ninv k pcs m -> nthreads m !! t = Some p -> ninv (k + 1) (delete t pcs) m'.
Proof.
  intros Hi Ep. assert (forall i, i <> t -> nthreads m' !! i = nthreads m !! i) as Hth.
  { intros i Hne. change (nthreads m') with (<[t := with_state GJ_THR_EXITED p]> (nthreads m)). by rewrite list_lookup_insert_ne. }
  assert (nthreads m' !! t = Some (with_state GJ_THR_EXITED p)) as Ht.
  { change (nthreads m') with (<[t := with_state GJ_THR_EXITED p]> (nthreads m)).
    by rewrite list_lookup_insert_eq by (by eapply lookup_lt_Some). }
  assert (forall i o g, asleep_on (nthreads m') i o g -> i <> t /\ asleep_on (nthreads m) i o g) as Has.
  { intros i o g (q & Eq & Hq). destruct (decide (i = t)) as [->|Hne]; [rewrite Ht in Eq; injection Eq as <-; by destruct Hq|].
    rewrite Hth in Eq by done. split; [done|by exists q]. }
  assert (forall n, (crowd n (delete t pcs) <= crowd n pcs <= crowd n (delete t pcs) + 1)%nat) as Hcr.
  { intros n. split; [apply crowd_delete_le|]. destruct (pcs !! t) as [q|] eqn:Eq; [rewrite (crowd_leave n pcs t q Eq); case_match; lia|].
    rewrite delete_id by done. lia. }
  destruct Hi. split; try done.
  - change (nthreads m') with (<[t := with_state GJ_THR_EXITED p]> (nthreads m)). by rewrite length_insert.
  - intros n x E. destruct (ni_ntf n x E) as [Q1 Q2]. specialize (Hcr n). split; [lia|]. intros i Ha. destruct (Has _ _ _ Ha) as [Hne Ha'].
    destruct (Q2 i Ha') as (mk & Hp & Hr). exists mk. by rewrite lookup_delete_ne.
  - intros n. specialize (Hcr n). specialize (ni_crowd n). lia.
  - intros c n mk Hc. apply lookup_delete_Some in Hc as [Hne Hc]. destruct (ni_pc c n mk Hc) as (H1 & H2 & H3).
    split_and!; [done|by rewrite Hth|unfold gone in *; by rewrite Hth].
  - intros c n mk o g Hc Ha. apply lookup_delete_Some in Hc as [_ Hc]. destruct (Has _ _ _ Ha) as [_ Ha']. by eapply ni_park.
Qed.

(** ** Every event *)
Lemma nev_correct kills pcs m e :
  kills_ok kills -> ninv kills pcs m -> nev_ok (MkNSys m pcs kills) e ->
  wp (nev_prog pcs e) (fun o m' => na_step pcs e (absn m) = (absn m', o) /\ ninv (nev_kills e kills) (nev_pcs e o pcs) m') m.
Proof.
  intros Hk Hi. destruct e as [cur n mask fb irqs bf af|c irqs bf af|n b|n k|n|n|t];
    unfold nev_ok, obj_at, irqs_at; cbn [ns_mem ns_pcs ns_kills nev_prog na_step nev_kills].
  - intros ([x E] & (H1 & H2 & H3) & Hc). apply wp_bind. eapply wp_mono; [apply (wp_wait kills Hk pcs m n x cur mask fb irqs bf af); try done|].
    + intros c ->. by destruct Hc as (? & ? & _).
    + intros c ->. by destruct Hc as (_ & _ & ?).
    + intros r m' [<- Hd]. by apply wp_ret.
  - intros (Haw & [[n mask] Hc] & H1 & H2 & H3). rewrite Hc. destruct (ni_pc _ _ _ Hi c n mask Hc) as ([x E] & _ & _). apply wp_bind.
    eapply wp_mono; [by apply (wp_wait_resume kills Hk pcs m n x c mask irqs bf af)|]. intros r m' [<- Hd]. apply wp_ret. cbn [nev_pcs]. by rewrite Hc.
  - intros [x E]. apply wp_bind. eapply wp_mono; [by apply (wp_pulse kills pcs m n x)|]. intros _ m' (Hd & Ha & _). apply wp_ret. by rewrite Ha.
  - intros [[x E] Hk0]. apply wp_bind. eapply wp_mono; [by apply (wp_kick kills pcs m n x)|]. intros _ m' [Ha Hd]. apply wp_ret. by rewrite Ha.
  - intros [x E]. apply wp_bind. eapply wp_nabort; [apply Hi|by apply nres_refl|]. intros m' up D _.
    destruct (nres_keeps kills pcs n x up m m' Hi E D) as [Ha Hd]. apply wp_ret. by rewrite Ha.
  - intros [x E]. apply wp_bind. eapply wp_mono; [by apply (wp_ndead kills pcs m n x)|]. intros _ m' [Ha Hd]. apply wp_ret. by rewrite Ha.
  - intros [[p Ep] _]. apply wp_bind, wp_on_threads. unfold thread_exit_mark. wsteps.
    change (g_aThreads (thr_of m)) with (nthreads m). rewrite Ep. wsteps. split; [done|].
    by apply (ninv_kill kills t p pcs m).
Qed.

(** ** Reachable states *)
Record ntf_boot (m : ntf_mem) : Prop := {
  nb_len : length (nthreads m) = GJ_MAX_THREADS;
  nb_wf : wf (nm_cap m);
  nb_hdr : map_Forall (fun n _ => nhdr_ok m n) (nm_objs m);
  nb_idle : map_Forall (fun _ x => n_u32Waiters x = 0) (nm_objs m);
  nb_awake : Forall (fun p => u32State p <> GJ_THR_BLOCKED) (nthreads m) }.

(** One event, with its outcome. *)
Definition nev_step (s : nsys) (e : nev) (o : nout) (s' : nsys) : Prop :=
  nev_ok s e /\ (exists t t', nev_prog (ns_pcs s) e (KSt (ns_mem s) t) = Some (o, KSt (ns_mem s') t')) /\
  ns_pcs s' = nev_pcs e o (ns_pcs s) /\ ns_kills s' = nev_kills e (ns_kills s).

(** Runs, with the events and their outcomes. *)
Inductive nrun : nsys -> list (nev * nout) -> nsys -> Prop :=
| nrun_nil s : nrun s [] s
| nrun_cons s1 e o s2 l s3 : nev_step s1 e o s2 -> nrun s2 l s3 -> nrun s1 ((e, o) :: l) s3.

Definition nreach (s : nsys) : Prop := exists m l, ntf_boot m /\ nrun (MkNSys m ∅ 0) l s.

Lemma boot_ninv m : ntf_boot m -> ninv 0 ∅ m.
Proof.
  intros []. assert (forall n, crowd n ∅ = 0%nat) as Hc by done. split; try done.
  - intros n x E. split; [rewrite Hc, (nb_idle0 n x E); lia|]. intros i (p & Ep & Hp & _). rewrite Forall_lookup in nb_awake0.
    by destruct (nb_awake0 i p Ep).
Qed.

Definition sys_ok (s : nsys) : Prop := kills_ok (ns_kills s) /\ ninv (ns_kills s) (ns_pcs s) (ns_mem s).

Lemma nev_step_ok s e o s' :
  sys_ok s -> nev_step s e o s' -> sys_ok s' /\ na_step (ns_pcs s) e (absn (ns_mem s)) = (absn (ns_mem s'), o).
Proof.
  intros [Hk Hi] (Hok & (t & t' & Hrun) & Hp & Hks). destruct s as [m pcs k], s' as [m' pcs' k']. cbn [ns_mem ns_pcs ns_kills] in *.
  destruct (wp_run _ _ _ _ _ _ _ (nev_correct k pcs m e Hk Hi Hok) Hrun) as [Ha Hd]. subst. split; [|done]. split; [|done]. cbn.
  destruct e; cbn; try done. by destruct Hok.
Qed.

Lemma nrun_ok s l s' : nrun s l s' -> sys_ok s -> sys_ok s'.
Proof. induction 1 as [|s1 e o s2 l s3 Hs _ IH]; [done|]. intros H1. apply IH. by destruct (nev_step_ok _ _ _ _ H1 Hs). Qed.

Lemma nreach_ok s : nreach s -> sys_ok s.
Proof. intros (m & l & Hb & Hr). eapply nrun_ok; [exact Hr|]. split; [by split|]. by apply boot_ninv. Qed.
