(* ===== verification/NotifyClaims.v ===== *)
(** The properties of notifications. *)
From stdpp Require Import base gmap list strings.
From Stdlib Require Import ZArith Lia.
From S2P Require Import Prelude CapTypes CapInv CapRevoke CapLean Thread ThreadProofs KernObj Notify NotifyInv NotifySpec NotifyWait NotifySys.

(** ** Bits stay until they are taken *)
Definition pend (N : gmap objp antf) (n : objp) : Z := from_option an_pending 0 (N !! n).

Lemma pend_post b n N n' k : Z.testbit (pend N n') k = true -> Z.testbit (pend (alter (an_post b) n N) n') k = true.
Proof.
  unfold pend. destruct (decide (n = n')) as [<-|Hne]; [rewrite lookup_alter_eq|by rewrite lookup_alter_ne].
  destruct (N !! n) as [a|]; [|done]. cbn. unfold an_post. destruct (an_live a); [|done]. cbn. rewrite Z.lor_spec. by intros ->.
Qed.

Lemma pend_pulses l : forall N n k, Z.testbit (pend N n) k = true -> Z.testbit (pend (a_pulses l N) n) k = true.
Proof.
  induction l as [|[n' b] l IH]; intros N n k H; [done|]. change (a_pulses ((n', b) :: l) N) with (a_pulses l (alter (an_post b) n' N)).
  by apply IH, pend_post.
Qed.

Lemma pend_take got N n n' k :
  Z.testbit (pend N n') k = true ->
  Z.testbit (pend (alter (an_take got) n N) n') k = true \/ (n = n' /\ Z.testbit got k = true).
Proof.
  unfold pend. destruct (decide (n = n')) as [<-|Hne]; [rewrite lookup_alter_eq|rewrite lookup_alter_ne by done; by left].
  destruct (N !! n) as [a|]; [|by left]. cbn. rewrite Z.ldiff_spec. intros ->. destruct (Z.testbit got k); auto.
Qed.

Lemma pend_wait n mask park before after n' k : forall irqs N N' r,
  a_wait n mask park irqs before after N = (N', r) -> Z.testbit (pend N n') k = true ->
  Z.testbit (pend N' n') k = true \/ (n = n' /\ exists got, r = WaitRet got /\ Z.testbit got k = true).
Proof.
  induction irqs as [|l irqs IH]; intros N N' r H Hk; cbn [a_wait] in H.
  - destruct (N !! n) as [a|]; [|injection H as <- <-; by left]. destruct (an_live a); cbn [negb] in H; [|injection H as <- <-; by left].
    case_match; [destruct park; injection H as <- <-; left; [by apply pend_pulses, pend_pulses|done]|].
    injection H as <- <-. destruct (pend_take (Z.land (an_pending a) mask) N n n' k Hk) as [|[-> Hg]]; [by left|]. right. split; [done|]. by eexists.
  - destruct (N !! n) as [a|]; [|injection H as <- <-; by left]. destruct (an_live a); cbn [negb] in H; [|injection H as <- <-; by left].
    case_match; [destruct park; injection H as <- <-; left; [by apply pend_pulses, pend_pulses|done]|].
    pose proof (pend_pulses l N n' k Hk) as Hk'. destruct (_ =? an_pending a) in H; [|by eapply IH].
    injection H as <- <-. destruct (pend_take (Z.land (an_pending a) mask) _ n n' k Hk') as [|[-> Hg]]; [by left|]. right. split; [done|]. by eexists.
Qed.

(** The event is a wait at [n] that returns [got]. *)
Definition returns_at (s : nsys) (e : nev) (o : nout) (n : objp) (got : Z) : Prop :=
  o = NoWait (WaitRet got) /\
  match e with
  | NvWait _ n' _ _ _ _ _ => n' = n
  | NvTurn c _ _ _ => exists mk, ns_pcs s !! c = Some (n, mk)
  | _ => False
  end.

Lemma step_keeps s e o N' n k :
  na_step (ns_pcs s) e (absn (ns_mem s)) = (N', o) -> Z.testbit (pend (absn (ns_mem s)) n) k = true ->
  Z.testbit (pend N' n) k = true \/ exists got, returns_at s e o n got /\ Z.testbit got k = true.
Proof.
  intros H Hk. destruct e as [cur n' mask fb irqs bf af|c irqs bf af|n' b|n' j|n'|n'|t]; cbn [na_step] in H; unfold returns_at.
  - destruct (a_wait _ _ _ _ _ _ _) as [N1 r] eqn:Ea. injection H as <- <-.
    destruct (pend_wait _ _ _ _ _ n k _ _ _ _ Ea Hk) as [|(-> & got & -> & Hg)]; [by left|]. right. by exists got.
  - destruct (ns_pcs s !! c) as [[n' mask]|] eqn:Ep; [|injection H as <- <-; by left].
    destruct (a_wait _ _ _ _ _ _ _) as [N1 r] eqn:Ea. injection H as <- <-.
    destruct (pend_wait _ _ _ _ _ n k _ _ _ _ Ea Hk) as [|(-> & got & -> & Hg)]; [by left|]. right. exists got. split; [|done].
    split; [done|]. by exists mask.
  - injection H as <- <-. left. by apply pend_post.
  - injection H as <- <-. by left.
  - injection H as <- <-. by left.
  - injection H as <- <-. left. unfold pend in *. destruct (decide (n' = n)) as [->|Hne]; [rewrite lookup_alter_eq|by rewrite lookup_alter_ne].
    by destruct (absn (ns_mem s) !! n).
  - injection H as <- <-. by left.
Qed.


(** C16: no lost wake-up.  As long as at most eight threads wait at an object, a
    parked thread is awake whenever its object has died or has a pending bit of
    its mask, however interrupts fell between its test and its sleep, and its
    next turn returns those bits, or 0 for a dead object. *)
Theorem notify_no_lost_wake s c n mask x :
  nreach s -> ns_pcs s !! c = Some (n, mask) -> nm_objs (ns_mem s) !! n = Some x ->
  nalive n (ns_mem s) x = false \/ Z.land (n_u64Pending x) mask <> 0 ->
  awake (nthreads (ns_mem s)) c /\
  forall t, exists m' t', nev_prog (ns_pcs s) (NvTurn c [] [] []) (KSt (ns_mem s) t) =
    Some (NoWait (WaitRet (if nalive n (ns_mem s) x then Z.land (n_u64Pending x) mask else 0)), KSt m' t').
Proof.
  intros Hr Hp E Hor. destruct (nreach_ok s Hr) as [Hk Hi]. destruct s as [m pcs k]. cbn [ns_mem ns_pcs ns_kills] in *.
  destruct (ni_pc _ _ _ Hi c n mask Hp) as (_ & Ht & Hg).
  assert (awake (nthreads m) c) as Haw.
  { split_and!; [done|done|]. intros o g Ha. destruct (ni_park _ _ _ Hi c n mask o g Hp Ha) as [-> ->].
    destruct (no_sleep _ _ _ _ _ (ni_ntf _ _ _ Hi n x E) c Ha) as (mk & Hp' & Hal & Hz). rewrite Hp in Hp'. injection Hp' as <-.
    destruct Hor; congruence. }
  split; [done|]. intros t. assert (nev_ok (MkNSys m pcs k) (NvTurn c [] [] [])) as Hok.
  { split; [done|]. split; [by eexists|]. split_and!; constructor. }
  destruct (nev_correct k pcs m _ Hk Hi Hok t) as (o & m' & t' & Er & Ha & _). exists m', t'. rewrite Er. do 2 f_equal.
  cbn [na_step] in Ha. rewrite Hp in Ha. cbn [a_wait] in Ha. rewrite absn_lookup, E in Ha. cbn [fmap option_fmap option_map absx an_live an_pending] in Ha.
  destruct (nalive n m x) eqn:Hal; cbn [negb] in Ha; [|by injection Ha as _ <-]. destruct Hor as [|Hz]; [done|].
  rewrite (proj2 (Z.eqb_neq _ _) Hz) in Ha. by injection Ha as _ <-.
Qed.


(** ** A system to run *)
Definition ntf_demo : ntf_mem := MkNtfMem obj_caps run_thr_mem (two_objs (with_ready true zero_notify)) false.

Lemma ntf_demo_boot : ntf_boot ntf_demo.
Proof.
  split; [by vm_compute|apply obj_caps_wf| | |apply run_threads_awake].
  - apply two_objs_all; vm_compute; by eauto.
  - by apply two_objs_all.
Qed.

(** One event of the program, whatever the crowd. *)
Definition run_nev (e : nev) (s : nsys) : option (nout * nsys) :=
  match nev_prog (ns_pcs s) e (KSt (ns_mem s) ∅) with
  | Some (o, KSt m' _) => Some (o, MkNSys m' (nev_pcs e o (ns_pcs s)) (nev_kills e (ns_kills s)))
  | None => None
  end.
Fixpoint run_nevs (l : list nev) (s : nsys) : option (list nout * nsys) :=
  match l with
  | [] => Some ([], s)
  | e :: l' =>
      match run_nev e s with
      | None => None
      | Some (o, s') => match run_nevs l' s' with None => None | Some (os, s'') => Some (o :: os, s'') end
      end
  end.

Lemma run_nev_step e s o s' : nev_ok s e -> run_nev e s = Some (o, s') -> nev_step s e o s'.
Proof.
  unfold run_nev. intros Hok. destruct (nev_prog (ns_pcs s) e (KSt (ns_mem s) ∅)) as [[o1 [m1 t1]]|] eqn:Er; [|done]. intros [= <- <-].
  split; [done|]. split; [|done]. by exists ∅, t1.
Qed.

Definition ntf_start : nsys := MkNSys ntf_demo ∅ 0.
Definition after_nev (l : list nev) : nsys := from_option snd ntf_start (run_nevs l ntf_start).

(** Thread 1 waits for bit 1 of object 2 and an interrupt sets it just before the
    thread blocks. *)
Definition w_wait : nev := NvWait (Some 1%nat) 2%positive 2 true [] [(2%positive, 6)] [].

Lemma awake_ok (l : list gj_thread) c p :
  l !! c = Some p -> u32State p <> GJ_THR_BLOCKED -> gone l c = false -> awake l c.
Proof. intros E Hb Hg. split_and!; [by eexists|done|]. intros o g (q & Eq & Hq & _). congruence. Qed.

Lemma w_wait_ok : nev_ok ntf_start w_wait.
Proof.
  unfold nev_ok, w_wait, obj_at, irqs_at. split; [by vm_compute; eexists|]. split.
  - split_and!; [constructor|constructor; [by vm_compute; eexists|constructor]|constructor].
  - split_and!; [|done|done]. eapply awake_ok; [vm_compute; reflexivity|done|vm_compute; reflexivity].
Qed.

Lemma w_wait_run : nrun ntf_start [(w_wait, NoWait WaitPark)] (after_nev [w_wait]).
Proof.
  econstructor; [|constructor]. apply run_nev_step; [apply w_wait_ok|]. vm_compute. reflexivity.
Qed.

Lemma w_wait_reach : nreach (after_nev [w_wait]).
Proof. exists ntf_demo, [(w_wait, NoWait WaitPark)]. split; [apply ntf_demo_boot|apply w_wait_run]. Qed.

Lemma start_reach : nreach ntf_start.
Proof. exists ntf_demo, []. split; [apply ntf_demo_boot|constructor]. Qed.


Definition ntf_of (s : nsys) (n : objp) : gj_notify := default zero_notify (nm_objs (ns_mem s) !! n).

Lemma notify_no_lost_wake_witness :
  awake (nthreads (ns_mem (after_nev [w_wait]))) 1 /\
  forall t, exists m' t', nev_prog (ns_pcs (after_nev [w_wait])) (NvTurn 1 [] [] []) (KSt (ns_mem (after_nev [w_wait])) t) =
    Some (NoWait (WaitRet (if nalive 2%positive (ns_mem (after_nev [w_wait])) (ntf_of (after_nev [w_wait]) 2%positive)
                           then Z.land (n_u64Pending (ntf_of (after_nev [w_wait]) 2%positive)) 2 else 0)), KSt m' t').
Proof.
  apply (notify_no_lost_wake (after_nev [w_wait]) 1 2%positive 2); [apply w_wait_reach|vm_compute; reflexivity|vm_compute; reflexivity|].
  right. vm_compute. discriminate.
Defined.


(** ** What the code does not prevent *)

(** Eight threads wait for bit 0 and a ninth for bit 1.  A pulse of bit 1 wakes the
    first eight, which park again; the ninth sleeps on with its bit pending, and
    so it does after every further pulse. *)
Definition crowd_waits : list nev :=
  ((fun c => NvWait (Some c) 2%positive 1 true [] [] []) <$> seq 1 8) ++ [NvWait (Some 9%nat) 2%positive 2 true [] [] []].
Definition crowd_round : list nev := NvPulse 2%positive 2 :: ((fun c => NvTurn c [] [] []) <$> seq 1 8).

Example crowd_loses_a_wake :
  (fst <$> run_nevs (crowd_waits ++ crowd_round ++ crowd_round) ntf_start) =
    Some (replicate 9 (NoWait WaitPark) ++ (NoDone :: replicate 8 (NoWait WaitPark)) ++ NoDone :: replicate 8 (NoWait WaitPark)) /\
  asleep_on (nthreads (ns_mem (after_nev (crowd_waits ++ crowd_round ++ crowd_round)))) 9 (ntf_key 2%positive) NOTIFY_TAG_WAITER /\
  n_u64Pending (ntf_of (after_nev (crowd_waits ++ crowd_round ++ crowd_round)) 2%positive) = 2.
Proof.
  split_and!; [vm_compute; reflexivity| |vm_compute; reflexivity].
  eexists. split_and!; vm_compute; reflexivity.
Qed.
