(* ===== verification/Vmm.v ===== *)
(** Virtual memory ([kernel/mm/vmm.c]): the machine state, the walks of the page
    tables, the page and range operations, copy-on-write, fork and exit; and the
    processor's own walk, the [view] of an address space. *)
From stdpp Require Import base gmap list strings.
From Stdlib Require Import ZArith Lia.
From S2P Require Import Prelude CapTypes Pmm PmmInv.

(** * Address spaces, [kernel/mm/vmm.c].

    The page tables are words of physical memory, the same memory whose free
    pages the allocator of [Pmm] links together: a table that was freed by
    mistake is overwritten here as it is there.  The code reaches a table
    through [phys_to_virt], whose two mappings (identity below 4 GiB, higher
    half) are views of one physical word, so a pointer into a table is the
    physical address of the word; NULL is [None].  The control registers that
    the code reads or loads are part of the state, [tlb_shootdown] appends to the
    list of flushed pages.  [memset] and [memcpy] of a whole page are loops over
    its 512 words.  Statistics are named counters; log lines and the printed
    inventories are left out. *)

(** ** Constants *)
Definition PTE_P : Z := 1.
Definition PTE_W : Z := 2.
Definition PTE_U : Z := 4.
Definition PTE_PWT : Z := 8.
Definition PTE_PCD : Z := 16.
Definition PTE_PS : Z := 128.
Definition PTE_COW : Z := 512.
Definition PTE_NX : Z := 9223372036854775808.
Definition PTE_ADDR_MASK : Z := 4503599627366400.
Definition GJ_VMM_ANON_BASE : Z := 1073741824.
Definition GJ_VMM_ANON_END : Z := 2147483648.
Definition GJ_USER_VA_BASE : Z := 8388608.
Definition GJ_USER_VA_END : Z := 2147483648.
Definition GJ_COW_REF_MAX : nat := 256.
Definition GJ_VMM_PROT_READ : Z := 1.
Definition GJ_VMM_PROT_WRITE : Z := 2.
Definition GJ_VMM_PROT_EXEC : Z := 4.
Definition GJ_VMM_PROT_USER : Z := 8.

Record gj_cow_ref : Type := MkCowRef { cr_pa : Z; cr_cRef : Z; cr_used : bool }.

Record vmm_mem : Type := MkVmm {
  vm_pmm : pmm_mem;
  vm_cr3 : Z;
  vm_wp : bool;                  (** CR0.WP *)
  vm_smap : bool;                (** CR4.SMAP *)
  vm_ac : bool;                  (** EFLAGS.AC *)
  g_pKernelPml4 : option Z;
  g_u64KernelCr3 : Z;
  g_aCowRef : list gj_cow_ref;
  vm_cursors : gmap nat Z;       (** the cells [g_pAnonCursor] may point to; 0 is [g_u64AnonNext] *)
  g_pAnonCursor : nat;
  vm_image : Z * Z;              (** [__kernel_start], [__kernel_end] *)
  vm_flushed : list Z }.

Definition set_pmm (p : pmm_mem) (m : vmm_mem) : vmm_mem :=
  MkVmm p (vm_cr3 m) (vm_wp m) (vm_smap m) (vm_ac m) (g_pKernelPml4 m) (g_u64KernelCr3 m) (g_aCowRef m) (vm_cursors m) (g_pAnonCursor m)
    (vm_image m) (vm_flushed m).
Definition set_cr3 (c : Z) (m : vmm_mem) : vmm_mem :=
  MkVmm (vm_pmm m) c (vm_wp m) (vm_smap m) (vm_ac m) (g_pKernelPml4 m) (g_u64KernelCr3 m) (g_aCowRef m) (vm_cursors m) (g_pAnonCursor m)
    (vm_image m) (vm_flushed m).
Definition set_template (k : option Z) (c : Z) (m : vmm_mem) : vmm_mem :=
  MkVmm (vm_pmm m) (vm_cr3 m) (vm_wp m) (vm_smap m) (vm_ac m) k c (g_aCowRef m) (vm_cursors m) (g_pAnonCursor m) (vm_image m) (vm_flushed m).
Definition set_cow (l : list gj_cow_ref) (m : vmm_mem) : vmm_mem :=
  MkVmm (vm_pmm m) (vm_cr3 m) (vm_wp m) (vm_smap m) (vm_ac m) (g_pKernelPml4 m) (g_u64KernelCr3 m) l (vm_cursors m) (g_pAnonCursor m)
    (vm_image m) (vm_flushed m).
Definition set_cursors (cs : gmap nat Z) (p : nat) (m : vmm_mem) : vmm_mem :=
  MkVmm (vm_pmm m) (vm_cr3 m) (vm_wp m) (vm_smap m) (vm_ac m) (g_pKernelPml4 m) (g_u64KernelCr3 m) (g_aCowRef m) cs p (vm_image m) (vm_flushed m).
Definition set_flushed (l : list Z) (m : vmm_mem) : vmm_mem :=
  MkVmm (vm_pmm m) (vm_cr3 m) (vm_wp m) (vm_smap m) (vm_ac m) (g_pKernelPml4 m) (g_u64KernelCr3 m) (g_aCowRef m) (vm_cursors m) (g_pAnonCursor m)
    (vm_image m) l.

Definition set_ac (b : bool) (m : vmm_mem) : vmm_mem :=
  MkVmm (vm_pmm m) (vm_cr3 m) (vm_wp m) (vm_smap m) b (g_pKernelPml4 m) (g_u64KernelCr3 m) (g_aCowRef m) (vm_cursors m)
    (g_pAnonCursor m) (vm_image m) (vm_flushed m).

Definition vphys (m : vmm_mem) : gmap Z Z := pm_phys (vm_pmm m).
Definition set_vphys (ph : gmap Z Z) (m : vmm_mem) : vmm_mem := set_pmm (set_phys ph (vm_pmm m)) m.

(** [(x & bit) != 0]. *)
Definition has (x bit : Z) : bool := negb (Z.land x bit =? 0).

(** ** The page allocator and physical words *)
Definition on_pmm {A} (c : prog pmm_mem A) : prog vmm_mem A :=
  fun s => match c (KSt (vm_pmm (k_mem s)) (k_tel s)) with
           | Some (a, s') => Some (a, KSt (set_pmm (k_mem s') (k_mem s)) (k_tel s'))
           | None => None
           end.

(** Word [p] through [phys_to_virt]. *)
Definition rd (p : Z) : prog vmm_mem Z :=
  m <- pget ;;
  if (PMM_LOW_MAX <=? p) && negb (pm_hhdm (vm_pmm m)) then pfault else
  match vphys m !! p with Some v => pret v | None => pfault end.
Definition wr (p v : Z) : prog vmm_mem unit :=
  m <- pget ;;
  if (PMM_LOW_MAX <=? p) && negb (pm_hhdm (vm_pmm m)) then pfault else
  match vphys m !! p with Some _ => pput (set_vphys (<[p := v]> (vphys m)) m) | None => pfault end.

Fixpoint fill_words (n : nat) (p v : Z) : prog vmm_mem unit :=
  match n with
  | O => pret tt
  | S n' => wr p v ;;; fill_words n' (p + 8) v
  end.
Fixpoint copy_words (n : nat) (d s : Z) : prog vmm_mem unit :=
  match n with
  | O => pret tt
  | S n' => v <- rd s ;; wr d v ;;; copy_words n' (d + 8) (s + 8)
  end.
(** Words in a page and entries in a table. *)
Definition PT_WORDS : nat := 512.

Definition read_cr3 : prog vmm_mem Z := m <- pget ;; pret (vm_cr3 m).
Definition load_cr3 (c : Z) : prog vmm_mem unit := pmod (set_cr3 c).

Definition vmm_tlb_flush_page (va : Z) : prog vmm_mem unit := pmod (fun m => set_flushed (vm_flushed m ++ [va]) m).

(** ** Statistics *)
Definition vmm_soft_note_peaks : prog vmm_mem unit :=
  t <- ptel ;;
  tel_peak "g_cAsLivePeak" (tel_val t "g_cAsLive") ;;;
  tel_peak "g_cCowLivePeak" (tel_val t "g_cCowLive") ;;;
  tel_peak "g_cMapDeviceUcPagesPeak" (tel_val t "g_cMapDeviceUcPages") ;;;
  (if 0 <? tel_val t "g_cSoftUserMmioOk" then tel_peak "g_cSoftUserMmioPagesPeak" (tel_val t "g_cSoftUserMmioLastPages")
   else pret tt).
(** [if (c > 0) c--]. *)
Definition soft_dec (c : string) : prog vmm_mem unit :=
  t <- ptel ;; if 0 <? tel_val t c then tel_set c (tel_val t c - 1) else pret tt.

(** ** Shared frames *)
Definition cow_slot (pa : Z) (r : gj_cow_ref) : bool := cr_used r && (cr_pa r =? pa).
Fixpoint cow_scan (p : gj_cow_ref -> bool) (i : nat) (l : list gj_cow_ref) : option nat :=
  match l with
  | [] => None
  | r :: l => if p r then Some i else cow_scan p (S i) l
  end.

Definition cow_ref_find (pa : Z) : prog vmm_mem (option nat) :=
  m <- pget ;; pret (cow_scan (cow_slot (Z.land pa PTE_ADDR_MASK)) 0 (g_aCowRef m)).

Definition cow_ref_share (pa0 : Z) : prog vmm_mem Z :=
  let pa := Z.land pa0 PTE_ADDR_MASK in
  if pa =? 0 then pret (-1) else
  iSlot <- cow_ref_find pa ;;
  match iSlot with
  | Some i =>
      pmod (fun m => set_cow (alter (fun r => MkCowRef (cr_pa r) (u32_wrap (cr_cRef r + 1)) (cr_used r)) i (g_aCowRef m)) m) ;;;
      tick_wrap "g_cCowShareOk" ;;; pret 0
  | None =>
      m <- pget ;;
      match cow_scan (fun r => negb (cr_used r)) 0 (g_aCowRef m) with
      | Some i =>
          pput (set_cow (<[i := MkCowRef pa 2 true]> (g_aCowRef m)) m) ;;;
          tick_wrap "g_cCowLive" ;;; vmm_soft_note_peaks ;;; tick_wrap "g_cCowShareOk" ;;; pret 0
      | None => tick_wrap "g_cCowShareFull" ;;; pret (-1)
      end
  end.

(** The references that remain; 0 tells the caller to free the frame. *)
Definition cow_ref_drop (pa0 : Z) : prog vmm_mem Z :=
  let pa := Z.land pa0 PTE_ADDR_MASK in
  if pa =? 0 then pret 1 else
  iSlot <- cow_ref_find pa ;;
  match iSlot with
  | None => pret 0
  | Some i =>
      m <- pget ;;
      match g_aCowRef m !! i with
      | None => pfault
      | Some r =>
          if 1 <? cr_cRef r then
            pput (set_cow (<[i := MkCowRef (cr_pa r) (cr_cRef r - 1) (cr_used r)]> (g_aCowRef m)) m) ;;;
            pret (cr_cRef r - 1)
          else
            pput (set_cow (<[i := MkCowRef 0 0 false]> (g_aCowRef m)) m) ;;;
            soft_dec "g_cCowLive" ;;; tick_wrap "g_cCowFrees" ;;; pret 0
      end
  end.

Definition release_leaf_frame (pa : Z) : prog vmm_mem unit :=
  if pa =? 0 then pret tt else
  n <- cow_ref_drop pa ;; if n =? 0 then on_pmm (pmm_free pa) else pret tt.

(** ** Tables *)
Definition alloc_table : prog vmm_mem Z :=
  pa <- on_pmm pmm_alloc ;;
  if pa =? 0 then pret 0 else fill_words PT_WORDS pa 0 ;;; pret pa.

Definition active_pml4 : prog vmm_mem Z := c <- read_cr3 ;; pret (Z.land c PTE_ADDR_MASK).

Definition vmm_init : prog vmm_mem unit :=
  c <- read_cr3 ;;
  let k := Z.land c PTE_ADDR_MASK in
  pmod (fun m => set_cursors (<[0%nat := GJ_VMM_ANON_BASE]> (vm_cursors m)) 0
    (set_pmm (set_hhdm false (vm_pmm m)) (set_template (Some k) k m))).

Definition vmm_set_anon_cursor (p : option nat) : prog vmm_mem unit :=
  pmod (fun m => set_cursors (vm_cursors m) (default 0%nat p) m).

(** The index of [va] in the table whose entries map [2^s] bytes each. *)
Definition vidx (s va : Z) : Z := Z.land (Z.shiftr va s) 511.
(** [&table[i]]. *)
Definition slot (t i : Z) : Z := t + 8 * i.

(** The loop of [vmm_as_create] over the entries from [i]. *)
Fixpoint share_slots (n : nat) (i pDst pSrc cShared : Z) : prog vmm_mem Z :=
  match n with
  | O => pret cShared
  | S n' =>
      e <- rd (slot pSrc i) ;; wr (slot pDst i) e ;;;
      share_slots n' (i + 1) pDst pSrc (if has e PTE_P then cShared + 1 else cShared)
  end.

Definition vmm_as_create : prog vmm_mem Z :=
  m <- pget ;;
  match g_pKernelPml4 m with
  | None => tick_wrap "g_cSoftAsCreateFail" ;;; pret 0
  | Some pSrc =>
      paPml4 <- alloc_table ;;
      if paPml4 =? 0 then tick_wrap "g_cSoftAsCreateFail" ;;; pret 0 else
      cShared <- share_slots PT_WORDS 0 paPml4 pSrc 0 ;;
      tick_wrap "g_cAsCreate" ;;; tick_wrap "g_cAsLive" ;;; vmm_soft_note_peaks ;;;
      tick_wrap "g_cHhAsShareIdentity" ;;; tel_set "g_cHhAsShareSlotsLast" cShared ;;;
      pret paPml4
  end.

Definition as_is_private : prog vmm_mem bool :=
  c <- read_cr3 ;; m <- pget ;;
  pret (negb (g_u64KernelCr3 m =? 0) && negb (Z.land c PTE_ADDR_MASK =? g_u64KernelCr3 m)).

Definition cow_table_entry (pEntry u64KerEntry : Z) : prog vmm_mem gj_status :=
  e <- rd pEntry ;;
  if negb (has e PTE_P) then pret GJ_OK else
  if has e PTE_PS then pret GJ_OK else
  if negb (e =? u64KerEntry) then pret GJ_OK else
  paNew <- alloc_table ;;
  if paNew =? 0 then pret GJ_ERR_NOMEM else
  e <- rd pEntry ;;
  copy_words PT_WORDS paNew (Z.land e PTE_ADDR_MASK) ;;;
  e <- rd pEntry ;;
  wr pEntry (Z.lor (Z.land paNew PTE_ADDR_MASK) (Z.ldiff e PTE_ADDR_MASK)) ;;;
  tick_wrap "g_cCowTable" ;;; pret GJ_OK.

Definition prot_to_flags (u32Prot : Z) : Z :=
  let f := PTE_P in
  let f := if has u32Prot GJ_VMM_PROT_WRITE then Z.lor f PTE_W else f in
  let f := if has u32Prot GJ_VMM_PROT_USER then Z.lor f PTE_U else f in
  if has u32Prot GJ_VMM_PROT_EXEC then f else Z.lor f PTE_NX.

Definition ensure_user_flag (pEntry : Z) : prog vmm_mem unit :=
  e <- rd pEntry ;;
  if has e PTE_P then wr pEntry (Z.lor e (Z.lor PTE_U PTE_W)) else pret tt.

(** ** The walk *)

(** The template's entry above [va] at the three upper levels, when the
    template's tables reach that far. *)
Definition ker_pml4e (va : Z) : prog vmm_mem (option Z) :=
  m <- pget ;;
  match g_pKernelPml4 m with
  | None => pret None
  | Some k => e <- rd (slot k (vidx 39 va)) ;; pret (Some e)
  end.
Definition ker_pdpte (va : Z) : prog vmm_mem (option Z) :=
  k <- ker_pml4e va ;;
  match k with
  | None => pret None
  | Some e4 =>
      if negb (has e4 PTE_P) then pret None else
      e <- rd (slot (Z.land e4 PTE_ADDR_MASK) (vidx 30 va)) ;; pret (Some e)
  end.
Definition ker_pde (va : Z) : prog vmm_mem (option Z) :=
  k <- ker_pdpte va ;;
  match k with
  | None => pret None
  | Some e3 =>
      if negb (has e3 PTE_P) || has e3 PTE_PS then pret None else
      e <- rd (slot (Z.land e3 PTE_ADDR_MASK) (vidx 21 va)) ;; pret (Some e)
  end.

(** An absent entry gets an empty table when [fCreate]; a present one that is
    still the template's gets a private copy when [fCow].  [false] is the
    early return of NULL. *)
Definition grow_entry (pEntry : Z) (fCreate fCow : bool) (ker : prog vmm_mem (option Z)) : prog vmm_mem bool :=
  e <- rd pEntry ;;
  if negb (has e PTE_P) then
    if negb fCreate then pret false else
    pa <- alloc_table ;;
    if pa =? 0 then pret false else
    wr pEntry (Z.lor pa (Z.lor PTE_P (Z.lor PTE_W PTE_U))) ;;; pret true
  else if fCow then
    k <- ker ;;
    match k with
    | None => pret true
    | Some ke => st <- cow_table_entry pEntry ke ;; pret (is_ok st)
    end
  else pret true.

Definition walk_pd_entry (va : Z) (fCreate : bool) : prog vmm_mem (option Z) :=
  pPml4 <- active_pml4 ;;
  fPriv <- as_is_private ;;
  let fCow := fCreate && fPriv in
  let pPml4e := slot pPml4 (vidx 39 va) in
  ok <- grow_entry pPml4e fCreate fCow (ker_pml4e va) ;;
  if negb ok then pret None else
  (if fCreate then ensure_user_flag pPml4e else pret tt) ;;;
  e4 <- rd pPml4e ;;
  let pPdpte := slot (Z.land e4 PTE_ADDR_MASK) (vidx 30 va) in
  ok <- grow_entry pPdpte fCreate fCow (ker_pdpte va) ;;
  if negb ok then pret None else
  (if fCreate then ensure_user_flag pPdpte else pret tt) ;;;
  e3 <- rd pPdpte ;;
  if has e3 PTE_PS then pret None else
  pret (Some (slot (Z.land e3 PTE_ADDR_MASK) (vidx 21 va))).

(** The loop of [split_large_pde] over the entries from [i]. *)
Fixpoint split_fill (n : nat) (i pPt paLarge u64Flags : Z) : prog vmm_mem unit :=
  match n with
  | O => pret tt
  | S n' =>
      wr (slot pPt i) (Z.lor (u64_add paLarge (i * GJ_PAGE_SIZE)) (Z.lor PTE_P u64Flags)) ;;;
      split_fill n' (i + 1) pPt paLarge u64Flags
  end.

Definition split_large_pde (pPde va : Z) : prog vmm_mem gj_status :=
  e <- rd pPde ;;
  if negb (has e PTE_P) then pret GJ_ERR_NOENT else
  if negb (has e PTE_PS) then pret GJ_OK else
  let paLarge := Z.land e PTE_ADDR_MASK in
  let u64Flags := Z.land e (Z.lor PTE_W (Z.lor PTE_U PTE_NX)) in
  paPt <- alloc_table ;;
  if paPt =? 0 then pret GJ_ERR_NOMEM else
  split_fill PT_WORDS 0 paPt paLarge u64Flags ;;;
  wr pPde (Z.lor paPt (Z.lor PTE_P (Z.lor PTE_W PTE_U))) ;;;
  vmm_tlb_flush_page (Z.ldiff va 2097151) ;;;
  pret GJ_OK.

(** The copy-on-write of a PD entry that is still the template's. *)
Definition unshare_pde (pPde va : Z) (fCow : bool) : prog vmm_mem bool :=
  if negb fCow then pret true else
  k <- ker_pde va ;;
  match k with
  | None => pret true
  | Some ke =>
      e <- rd pPde ;;
      if has e PTE_P && (e =? ke) then
        st <- (if has ke PTE_PS then split_large_pde pPde va else cow_table_entry pPde ke) ;; pret (is_ok st)
      else pret true
  end.

Definition walk_pte (va : Z) (fCreate : bool) : prog vmm_mem (option Z) :=
  fPriv <- as_is_private ;;
  let fCow := fCreate && fPriv in
  p <- walk_pd_entry va fCreate ;;
  match p with
  | None => pret None
  | Some pPde =>
      ok <- unshare_pde pPde va fCow ;;
      if negb ok then pret None else
      e <- rd pPde ;;
      st <- (if has e PTE_P && has e PTE_PS then split_large_pde pPde va else pret GJ_OK) ;;
      if negb (is_ok st) then pret None else
      ok <- grow_entry pPde fCreate fCow (ker_pde va) ;;
      if negb ok then pret None else
      (if fCreate then ensure_user_flag pPde else pret tt) ;;;
      e2 <- rd pPde ;;
      pret (Some (slot (Z.land e2 PTE_ADDR_MASK) (vidx 12 va)))
  end.

Definition va_in_kernel_identity (va : Z) : prog vmm_mem bool :=
  m <- pget ;;
  let va0 := page_down (fst (vm_image m)) in
  let va1 := page_down (u64_wrap (snd (vm_image m) + GJ_PAGE_SIZE - 1)) in
  pret ((va0 <=? va) && (va <? va1)).

(** ** Pages *)
Definition map_install (va pa u32Prot : Z) : prog vmm_mem gj_status :=
  p <- walk_pte va true ;;
  match p with
  | None => tick_wrap "g_cSoftMapNomem" ;;; pret GJ_ERR_NOMEM
  | Some pPte =>
      wr pPte (Z.lor (Z.land pa PTE_ADDR_MASK) (prot_to_flags u32Prot)) ;;;
      e <- rd pPte ;; wr pPte (Z.ldiff e PTE_COW) ;;;
      vmm_tlb_flush_page va ;;;
      tick_wrap "g_cSoftMapOk" ;;;
      (if has u32Prot GJ_VMM_PROT_USER then tick_wrap "g_cSoftUserMapOk" else pret tt) ;;;
      pret GJ_OK
  end.

Definition vmm_map_page (va pa u32Prot : Z) : prog vmm_mem gj_status :=
  if negb (page_aligned va) || negb (page_aligned pa) then tick_wrap "g_cSoftMapInval" ;;; pret GJ_ERR_INVAL else
  ker <- va_in_kernel_identity va ;;
  if (ker : bool) then
    if has u32Prot GJ_VMM_PROT_USER || negb (pa =? va) then tick_wrap "g_cSoftMapPerm" ;;; pret GJ_ERR_PERM else
    map_install va pa (Z.lor GJ_VMM_PROT_READ (Z.lor GJ_VMM_PROT_WRITE GJ_VMM_PROT_EXEC))
  else map_install va pa u32Prot.

Definition vmm_unmap_page (va : Z) : prog vmm_mem gj_status :=
  p <- walk_pte va false ;;
  match p with
  | None => tick_wrap "g_cSoftUnmapMiss" ;;; pret GJ_ERR_NOENT
  | Some pPte =>
      e <- rd pPte ;;
      if negb (has e PTE_P) then tick_wrap "g_cSoftUnmapMiss" ;;; pret GJ_ERR_NOENT else
      let pa := Z.land e PTE_ADDR_MASK in
      wr pPte 0 ;;;
      vmm_tlb_flush_page va ;;;
      (if has e PTE_U && has e PTE_COW && negb (pa =? 0) && negb (pa =? va) then release_leaf_frame pa else pret tt) ;;;
      tick_wrap "g_cSoftUnmapOk" ;;; pret GJ_OK
  end.

Definition vmm_protect_page (va u32Prot : Z) : prog vmm_mem gj_status :=
  p <- walk_pte va false ;;
  match p with
  | None => tick_wrap "g_cSoftProtMiss" ;;; pret GJ_ERR_NOENT
  | Some pPte =>
      e <- rd pPte ;;
      if negb (has e PTE_P) then tick_wrap "g_cSoftProtMiss" ;;; pret GJ_ERR_NOENT else
      let pa := Z.land e PTE_ADDR_MASK in
      ker <- va_in_kernel_identity va ;;
      if (ker : bool) then
        if (pa =? va) || (pa =? 0) then
          wr pPte (Z.lor (Z.land va PTE_ADDR_MASK) (Z.lor PTE_P PTE_W)) ;;;
          vmm_tlb_flush_page va ;;; tick_wrap "g_cSoftProtOk" ;;; pret GJ_OK
        else tick_wrap "g_cSoftProtPerm" ;;; pret GJ_ERR_PERM
      else
      wr pPte (Z.lor pa (prot_to_flags u32Prot)) ;;;
      vmm_tlb_flush_page va ;;; tick_wrap "g_cSoftProtOk" ;;; pret GJ_OK
  end.

Definition vmm_virt_to_phys (va : Z) : prog vmm_mem Z :=
  p <- walk_pte va false ;;
  match p with
  | None => pret 0
  | Some pPte =>
      e <- rd pPte ;;
      if negb (has e PTE_P) then pret 0 else
      pret (Z.lor (Z.land e PTE_ADDR_MASK) (Z.land va (GJ_PAGE_SIZE - 1)))
  end.

Definition vmm_read_pte (va : Z) : prog vmm_mem Z :=
  p <- walk_pte va false ;;
  match p with None => pret 0 | Some pPte => rd pPte end.

Definition vmm_cow_break_page (va : Z) : prog vmm_mem gj_status :=
  if negb (page_aligned va) then pret GJ_ERR_INVAL else
  p <- walk_pte va false ;;
  match p with
  | None => pret GJ_ERR_NOENT
  | Some pPte =>
      e <- rd pPte ;;
      if negb (has e PTE_P) || negb (has e PTE_COW) then pret GJ_ERR_NOENT else
      let paSrc := Z.land e PTE_ADDR_MASK in
      paDst <- on_pmm pmm_alloc ;;
      if paDst =? 0 then tick_wrap "g_cSoftCowBreakNomem" ;;; pret GJ_ERR_NOMEM else
      u64Saved <- read_cr3 ;; m <- pget ;;
      load_cr3 (g_u64KernelCr3 m) ;;;
      copy_words PT_WORDS paDst paSrc ;;;
      load_cr3 u64Saved ;;;
      wr pPte (Z.lor (Z.land paDst PTE_ADDR_MASK)
                     (Z.lor (Z.ldiff e (Z.lor PTE_ADDR_MASK PTE_COW)) (Z.lor PTE_W PTE_P))) ;;;
      vmm_tlb_flush_page va ;;;
      tick_wrap "g_cCowBreak" ;;;
      u32Rem <- cow_ref_drop paSrc ;;
      (if u32Rem =? 0 then on_pmm (pmm_free paSrc) ;;; tick_wrap "g_cSoftCowFreeOld" else pret tt) ;;;
      vmm_soft_note_peaks ;;; pret GJ_OK
  end.

(** * Page tables as the processor reads them: entry bits, the walk, and what a
    walk depends on. *)

(** ** Entry bits *)
Definition addr (e : Z) : Z := Z.land e PTE_ADDR_MASK.

Lemma has_bit x n : 0 <= n -> has x (2 ^ n) = Z.testbit x n.
Proof.
  intros Hn. unfold has. destruct (Z.testbit x n) eqn:E.
  - apply negb_true_iff, Z.eqb_neq. intros H. apply (f_equal (fun z => Z.testbit z n)) in H.
    rewrite Z.land_spec, E, Z.pow2_bits_true, Z.bits_0 in H by done. done.
  - apply negb_false_iff, Z.eqb_eq. apply Z.bits_inj'. intros i Hi. rewrite Z.land_spec, Z.bits_0.
    destruct (decide (n = i)) as [->|Hni]; [by rewrite E|]. by rewrite Z.pow2_bits_false, andb_false_r.
Qed.

Lemma mask_bit i : 0 <= i -> Z.testbit PTE_ADDR_MASK i = (12 <=? i) && (i <? 52).
Proof.
  intros Hi. change PTE_ADDR_MASK with (Z.shiftl (Z.ones 40) 12). rewrite Z.shiftl_spec by done.
  destruct (Z.leb_spec 12 i); [|by rewrite Z.testbit_neg_r by lia]. rewrite Z.testbit_ones by lia.
  destruct (Z.ltb_spec i 52); destruct (Z.ltb_spec (i - 12) 40); try lia;
    by rewrite (proj2 (Z.leb_le 0 (i - 12))) by lia.
Qed.

Lemma has_P x : has x PTE_P = Z.testbit x 0. Proof. apply (has_bit x 0). lia. Qed.
Lemma has_W x : has x PTE_W = Z.testbit x 1. Proof. apply (has_bit x 1). lia. Qed.
Lemma has_U x : has x PTE_U = Z.testbit x 2. Proof. apply (has_bit x 2). lia. Qed.
Lemma has_PS x : has x PTE_PS = Z.testbit x 7. Proof. apply (has_bit x 7). lia. Qed.
Lemma has_COW x : has x PTE_COW = Z.testbit x 9. Proof. apply (has_bit x 9). lia. Qed.
Lemma has_NX x : has x PTE_NX = Z.testbit x 63. Proof. apply (has_bit x 63). lia. Qed.

(** A frame address: page aligned, inside the address bits. *)
Definition frame (pa : Z) : Prop := pa mod GJ_PAGE_SIZE = 0 /\ 0 <= pa < 2 ^ 52.

Lemma frame_addr e : frame (addr e).
Proof.
  assert (0 <= addr e) by (unfold addr; apply Z.land_nonneg; right; done). split; [|split; [done|]].
  - unfold GJ_PAGE_SIZE. change 4096 with (2 ^ 12). rewrite <-Z.land_ones by lia. apply Z.bits_inj'. intros i Hi.
    unfold addr. rewrite !Z.land_spec, mask_bit, Z.testbit_ones, Z.bits_0 by lia.
    destruct (Z.leb_spec 12 i), (Z.ltb_spec i 12); try lia; by rewrite ?andb_false_r.
  - assert (addr e = addr e mod 2 ^ 52) as ->; [|by apply Z.mod_pos_bound]. rewrite <-Z.land_ones by lia.
    apply Z.bits_inj'. intros i Hi. unfold addr. rewrite !Z.land_spec, mask_bit, Z.testbit_ones by lia.
    destruct (Z.leb_spec 12 i), (Z.ltb_spec i 52), (Z.leb_spec 0 i); try lia; by rewrite ?andb_false_r, ?andb_true_r.
Qed.

Lemma frame_bits pa i : frame pa -> 0 <= i -> Z.testbit pa i = Z.testbit pa i && ((12 <=? i) && (i <? 52)).
Proof.
  intros [Ha Hb] Hi. destruct (Z.leb_spec 12 i) as [H1|H1].
  - destruct (Z.ltb_spec i 52) as [H2|H2]; [by rewrite andb_true_r|]. simpl. rewrite andb_false_r.
    destruct (decide (pa = 0)) as [->|]; [by rewrite Z.bits_0|]. apply Z.bits_above_log2; [lia|].
    apply Z.log2_lt_pow2; [lia|]. eapply Z.lt_le_trans; [apply Hb|]. apply Z.pow_le_mono_r; lia.
  - simpl. rewrite andb_false_r. unfold GJ_PAGE_SIZE in Ha. change 4096 with (2 ^ 12) in Ha.
    rewrite <-(Z.mod_pow2_bits_low pa 12 i) by lia. by rewrite Ha, Z.bits_0.
Qed.

Lemma addr_frame pa : frame pa -> addr pa = pa.
Proof.
  intros Hf. apply Z.bits_inj'. intros i Hi. unfold addr. rewrite Z.land_spec, mask_bit by done.
  symmetry. by apply frame_bits.
Qed.

(** The address part of an entry built from a frame and flags outside the
    address bits. *)
Lemma addr_lor pa f : frame pa -> addr f = 0 -> addr (Z.lor pa f) = pa.
Proof. intros Hf H0. unfold addr in *. rewrite Z.land_lor_distr_l, H0, Z.lor_0_r. by apply addr_frame. Qed.

Lemma addr_or_flags e f : addr f = 0 -> addr (Z.lor e f) = addr e.
Proof. intros H0. unfold addr in *. by rewrite Z.land_lor_distr_l, H0, Z.lor_0_r. Qed.

Lemma addr_ldiff e : addr (Z.ldiff e PTE_ADDR_MASK) = 0.
Proof.
  apply Z.bits_inj'. intros i Hi. unfold addr. rewrite Z.land_spec, Z.ldiff_spec, Z.bits_0.
  destruct (Z.testbit PTE_ADDR_MASK i); by rewrite ?andb_false_r.
Qed.

(** The flags of an entry built from a frame. *)
Lemma bit_lor_frame pa f i : frame pa -> 0 <= i -> (i < 12 \/ 52 <= i) -> Z.testbit (Z.lor pa f) i = Z.testbit f i.
Proof.
  intros Hf Hi Hr. rewrite Z.lor_spec, (frame_bits pa i Hf Hi).
  destruct (Z.leb_spec 12 i), (Z.ltb_spec i 52); try lia; by rewrite ?andb_false_r.
Qed.

Lemma bit_ldiff_mask e i : 0 <= i -> (i < 12 \/ 52 <= i) -> Z.testbit (Z.ldiff e PTE_ADDR_MASK) i = Z.testbit e i.
Proof.
  intros Hi Hr. rewrite Z.ldiff_spec, mask_bit by done.
  destruct (Z.leb_spec 12 i), (Z.ltb_spec i 52); try lia; by rewrite ?andb_true_r.
Qed.

(** ** Positions *)
(** The position of the table at level [l] above [va]: level 3 is the root,
    level 0 the table of 4 KiB entries. *)
Definition shift_of (l : nat) : Z := 12 + 9 * Z.of_nat l.
Definition key (l : nat) (va : Z) : Z := (va mod 2 ^ 48) / 2 ^ (21 + 9 * Z.of_nat l).
(** The page of [va], from its 48 translated bits. *)
Definition vpage (va : Z) : Z := (va mod 2 ^ 48) / 2 ^ 12.

Lemma vidx_div s va : 0 <= s -> vidx s va = (va / 2 ^ s) mod 512.
Proof. intros Hs. unfold vidx. change 511 with (Z.ones 9). by rewrite Z.land_ones, Z.shiftr_div_pow2. Qed.

Lemma vidx_bound s va : 0 <= s -> 0 <= vidx s va < 512.
Proof. intros Hs. rewrite vidx_div by done. by apply Z.mod_pos_bound. Qed.

(** Digits of the translated bits. *)
Lemma vidx_mod l va : (l <= 3)%nat -> vidx (shift_of l) va = (va mod 2 ^ 48 / 2 ^ shift_of l) mod 512.
Proof.
  intros Hl. rewrite vidx_div by (unfold shift_of; lia). change 512 with (2 ^ 9).
  assert (48 = shift_of l + 9 + (27 - 9 * Z.of_nat l)) as -> by (unfold shift_of; lia).
  apply Z.bits_inj'. intros i Hi. destruct (Z.ltb_spec i 9).
  - rewrite !(Z.mod_pow2_bits_low _ 9 i) by lia. rewrite !Z.div_pow2_bits by (unfold shift_of; lia).
    rewrite Z.mod_pow2_bits_low; [done|unfold shift_of; lia].
  - by rewrite !Z.mod_pow2_bits_high by lia.
Qed.

Lemma key_child l va : (S l <= 3)%nat -> key l va = key (S l) va * 512 + vidx (shift_of (S l)) va.
Proof.
  intros Hl. rewrite vidx_mod by done. unfold key, shift_of. set (u := va mod 2 ^ 48).
  replace (21 + 9 * Z.of_nat (S l)) with (12 + 9 * Z.of_nat (S l) + 9) by lia.
  replace (21 + 9 * Z.of_nat l) with (12 + 9 * Z.of_nat (S l)) by lia.
  rewrite (Z.pow_add_r 2 (12 + 9 * Z.of_nat (S l)) 9), <-Z.div_div by lia. change (2 ^ 9) with 512.
  pose proof (Z.div_mod (u / 2 ^ (12 + 9 * Z.of_nat (S l))) 512). lia.
Qed.

Lemma key_root va : key 3 va = 0.
Proof. unfold key. change (21 + 9 * Z.of_nat 3) with 48. apply Z.div_small, Z.mod_pos_bound. done. Qed.

Lemma vpage_key va : vpage va = key 0 va * 512 + vidx 12 va.
Proof.
  change 12 with (shift_of 0) at 1. rewrite vidx_mod by lia. unfold key, vpage. change (21 + 9 * Z.of_nat 0) with (12 + 9).
  change (shift_of 0) with 12. rewrite (Z.pow_add_r 2 12 9), <-Z.div_div by lia. change (2 ^ 9) with 512.
  pose proof (Z.div_mod (va mod 2 ^ 48 / 2 ^ 12) 512). lia.
Qed.

Lemma digits_inj c i c' i' : 0 <= i < 512 -> 0 <= i' < 512 -> c * 512 + i = c' * 512 + i' -> c = c' /\ i = i'.
Proof. lia. Qed.

Lemma slot_inj t i i' : slot t i = slot t i' -> i = i'.
Proof. unfold slot. lia. Qed.

Lemma slot_page t i : t mod GJ_PAGE_SIZE = 0 -> 0 <= i < 512 -> page_of (slot t i) = t.
Proof. unfold slot, page_of, GJ_PAGE_SIZE. intros. Z.div_mod_to_equations. lia. Qed.

(** ** Translation *)

(** A translated page: the frame and the permissions of its leaf entry. *)
Record leaf : Type := Leaf { lf_pa : Z; lf_w : bool; lf_u : bool; lf_nx : bool; lf_cow : bool }.
#[export] Instance leaf_eq_dec : EqDecision leaf.
Proof. solve_decision. Defined.

Definition leaf_at (pa e : Z) : leaf := Leaf pa (has e PTE_W) (has e PTE_U) (has e PTE_NX) (has e PTE_COW).

(** The frame of [va] under a large leaf at level [l]. *)
Definition large_pa (l : nat) (e va : Z) : Z := addr e + ((va / 2 ^ 12) mod 2 ^ (9 * Z.of_nat l)) * GJ_PAGE_SIZE.

(** The processor's walk from table [t] at level [l]. *)
Fixpoint hwleaf (ph : gmap Z Z) (l : nat) (t va : Z) : option leaf :=
  match ph !! slot t (vidx (shift_of l) va) with
  | None => None
  | Some e =>
      if negb (has e PTE_P) then None else
      match l with
      | O => Some (leaf_at (addr e) e)
      | S l' => if has e PTE_PS then Some (leaf_at (large_pa l e va) e) else hwleaf ph l' (addr e) va
      end
  end.

(** Whether every entry of the walk has permission [bit]. *)
Fixpoint hwperm (bit : Z) (ph : gmap Z Z) (l : nat) (t va : Z) : bool :=
  match ph !! slot t (vidx (shift_of l) va) with
  | None => false
  | Some e =>
      has e PTE_P && has e bit &&
      match l with
      | O => true
      | S l' => if has e PTE_PS then true else hwperm bit ph l' (addr e) va
      end
  end.

(** What the walk yields below an entry. *)
Definition hwstep (ph : gmap Z Z) (l : nat) (e va : Z) : option leaf :=
  if negb (has e PTE_P) then None else
  match l with
  | O => Some (leaf_at (addr e) e)
  | S l' => if has e PTE_PS then Some (leaf_at (large_pa l e va) e) else hwleaf ph l' (addr e) va
  end.

Lemma hwleaf_step ph l t va e :
  ph !! slot t (vidx (shift_of l) va) = Some e -> hwleaf ph l t va = hwstep ph l e va.
Proof. intros E. destruct l; cbn [hwleaf]; by rewrite E. Qed.

(** Address space [r] of machine [m]. *)
Definition view (m : vmm_mem) (r va : Z) : option leaf := hwleaf (vphys m) 3 r va.

(** * The operations of [kernel/mm/vmm.c] on whole address spaces: anonymous maps,
    fork and destruction, with the processor's view of a kernel store. *)

(** ** Accesses of the kernel through the active tables *)

Definition canonical (va : Z) : bool := (va <? 2 ^ 47) || (2 ^ 64 - 2 ^ 47 <=? va).

(** The physical address of a kernel access to [va], or [None] for a page fault:
    a missing page, a read-only one under CR0.WP, a user one under CR4.SMAP
    without EFLAGS.AC. *)
Definition kaccess (m : vmm_mem) (fWrite : bool) (va : Z) : option Z :=
  let root := Z.land (vm_cr3 m) PTE_ADDR_MASK in
  if negb (canonical va) then None else
  match view m root va with
  | None => None
  | Some lf =>
      if fWrite && vm_wp m && negb (hwperm PTE_W (vphys m) 3 root va) then None else
      if vm_smap m && hwperm PTE_U (vphys m) 3 root va && negb (vm_ac m) then None else
      Some (lf_pa lf + va mod GJ_PAGE_SIZE)
  end.

Definition vst_word (va v : Z) : prog vmm_mem unit :=
  m <- pget ;;
  match kaccess m true va with
  | None => pfault
  | Some p => match vphys m !! p with Some _ => pput (set_vphys (<[p := v]> (vphys m)) m) | None => pfault end
  end.

(** [memset] of [n] words at [va] to zero. *)
Fixpoint vzero (n : nat) (va : Z) : prog vmm_mem unit :=
  match n with
  | O => pret tt
  | S n' => vst_word va 0 ;;; vzero n' (va + 8)
  end.

(** ** Anonymous memory *)
Definition free_if (pa : Z) : prog vmm_mem unit :=
  if negb (pa =? 0) then on_pmm (pmm_free (page_down pa)) else pret tt.

Fixpoint mmap_unwind (iPage : nat) (vaBase : Z) : prog vmm_mem unit :=
  match iPage with
  | O => pret tt
  | S i =>
      let va := u64_add vaBase (Z.of_nat i * GJ_PAGE_SIZE) in
      pa <- vmm_virt_to_phys va ;;
      vmm_unmap_page va ;;;
      free_if pa ;;;
      mmap_unwind i vaBase
  end.

(** The loop of [vmm_mmap_anon]: [iPage] pages are mapped, [n] are left. *)
Fixpoint mmap_pages (n iPage : nat) (vaBase u32Prot : Z) : prog vmm_mem Z :=
  match n with
  | O => pret vaBase
  | S n' =>
      let va := u64_add vaBase (Z.of_nat iPage * GJ_PAGE_SIZE) in
      pa <- on_pmm pmm_alloc ;;
      if pa =? 0 then mmap_unwind iPage vaBase ;;; pret 0 else
      st <- vmm_map_page va pa (Z.lor u32Prot GJ_VMM_PROT_USER) ;;
      if negb (is_ok st) then
        on_pmm (pmm_free pa) ;;; mmap_unwind iPage vaBase ;;; pret 0
      else
      vzero PT_WORDS va ;;;
      mmap_pages n' (S iPage) vaBase u32Prot
  end.

Definition vmm_mmap_anon (u64Hint cbLen u32Prot : Z) (fFixed : bool) : prog vmm_mem Z :=
  if cbLen =? 0 then pret 0 else
  let cbAligned := page_down (u64_wrap (cbLen + GJ_PAGE_SIZE - 1)) in
  let cPages := Z.to_nat (cbAligned / GJ_PAGE_SIZE) in
  if fFixed then
    if negb (page_aligned u64Hint) then pret 0 else mmap_pages cPages 0 u64Hint u32Prot
  else
  m <- pget ;;
  match vm_cursors m !! g_pAnonCursor m with
  | None => pfault
  | Some cur =>
      let vaBase :=
        if negb (u64Hint =? 0) && (GJ_VMM_ANON_BASE <=? u64Hint) && (u64_add u64Hint cbAligned <=? GJ_VMM_ANON_END)
        then u64Hint else cur in
      if GJ_VMM_ANON_END <? u64_add vaBase cbAligned then pret 0 else
      let cur' :=
        if vaBase =? cur then u64_add cur cbAligned
        else if cur <? u64_add vaBase cbAligned then u64_add vaBase cbAligned else cur in
      pput (set_cursors (<[g_pAnonCursor m := cur']> (vm_cursors m)) (g_pAnonCursor m) m) ;;;
      mmap_pages cPages 0 vaBase u32Prot
  end.

Fixpoint munmap_pages (n : nat) (iPage : nat) (va0 : Z) : prog vmm_mem unit :=
  match n with
  | O => pret tt
  | S n' =>
      let va := u64_add va0 (Z.of_nat iPage * GJ_PAGE_SIZE) in
      u64Pte <- vmm_read_pte va ;;
      pa <- vmm_virt_to_phys va ;;
      vmm_unmap_page va ;;;
      (if negb (pa =? 0) && negb (has u64Pte PTE_COW) then on_pmm (pmm_free (page_down pa)) else pret tt) ;;;
      munmap_pages n' (S iPage) va0
  end.

Definition vmm_munmap (va cbLen : Z) : prog vmm_mem gj_status :=
  if negb (page_aligned va) || (cbLen =? 0) then pret GJ_ERR_INVAL else
  let cbAligned := page_down (u64_wrap (cbLen + GJ_PAGE_SIZE - 1)) in
  munmap_pages (Z.to_nat (cbAligned / GJ_PAGE_SIZE)) 0 va ;;; pret GJ_OK.

(** ** Fork *)

(** The tallies [cCopy], [cCow], [cRoCopy]; an error ends all loops and reports
    [cCopy]. *)
Record clone_st : Type := MkClone { cl_copy : Z; cl_cow : Z; cl_ro : Z }.
Definition clone_out : Type := clone_st + gj_status * Z.

(** [for (; i < n && cCopy < u32Limit; i++)]. *)
Fixpoint clone_loop (n : nat) (i limit : Z) (body : Z -> clone_st -> prog vmm_mem clone_out) (s : clone_st) :
    prog vmm_mem clone_out :=
  match n with
  | O => pret (inl s)
  | S n' =>
      if cl_copy s <? limit then
        r <- body i s ;;
        match r with
        | inl s' => clone_loop n' (i + 1) limit body s'
        | inr st => pret (inr st)
        end
      else pret (inl s)
  end.

Definition in_band (va : Z) : bool := (GJ_USER_VA_BASE <=? va) && (va <? GJ_USER_VA_END).

Definition clone_fail (saved : Z) (s : clone_st) : prog vmm_mem clone_out :=
  load_cr3 saved ;;; tick_wrap "g_cSoftCloneNomem" ;;; pret (inr (GJ_ERR_NOMEM, cl_copy s)).

Definition clone_prot (u64Pte : Z) : Z :=
  let p := Z.lor GJ_VMM_PROT_READ GJ_VMM_PROT_USER in
  if has u64Pte PTE_NX then p else Z.lor p GJ_VMM_PROT_EXEC.

(** The leaf at [p] becomes read-only and copy-on-write. *)
Definition demote (p va : Z) : prog vmm_mem unit :=
  e <- rd p ;;
  wr p (Z.ldiff (Z.lor e (Z.lor PTE_COW (Z.lor PTE_P PTE_U))) PTE_W) ;;; vmm_tlb_flush_page va.

(** A writable or copy-on-write page: shared, read-only in both. *)
Definition clone_share (va u64Pte srcCr3 dstCr3 saved : Z) (s : clone_st) : prog vmm_mem clone_out :=
  let paSrc := Z.land u64Pte PTE_ADDR_MASK in
  load_cr3 srcCr3 ;;;
  p <- walk_pte va false ;;
  (match p with
   | None => pret tt
   | Some pSrcPte =>
       e <- rd pSrcPte ;;
       ker <- va_in_kernel_identity va ;;
       if has e PTE_P && has e PTE_U && negb ker then demote pSrcPte va else pret tt
   end) ;;;
  cow_ref_share paSrc ;;;
  load_cr3 dstCr3 ;;;
  st <- vmm_map_page va paSrc (clone_prot u64Pte) ;;
  if negb (is_ok st) then cow_ref_drop paSrc ;;; clone_fail saved s else
  p <- walk_pte va false ;;
  (match p with None => pret tt | Some pDstPte => demote pDstPte va end) ;;;
  load_cr3 srcCr3 ;;;
  pret (inl (MkClone (cl_copy s + 1) (cl_cow s + 1) (cl_ro s))).

(** A read-only page: a private copy. *)
Definition clone_copy (va u64Pte srcCr3 dstCr3 saved : Z) (s : clone_st) : prog vmm_mem clone_out :=
  let paSrc := Z.land u64Pte PTE_ADDR_MASK in
  paDst <- on_pmm pmm_alloc ;;
  if paDst =? 0 then clone_fail saved s else
  m <- pget ;;
  load_cr3 (g_u64KernelCr3 m) ;;;
  copy_words PT_WORDS paDst paSrc ;;;
  load_cr3 dstCr3 ;;;
  st <- vmm_map_page va paDst (clone_prot u64Pte) ;;
  if negb (is_ok st) then
    load_cr3 (g_u64KernelCr3 m) ;;; on_pmm (pmm_free paDst) ;;; clone_fail saved s
  else
  load_cr3 srcCr3 ;;;
  pret (inl (MkClone (cl_copy s + 1) (cl_cow s) (cl_ro s + 1))).

Definition clone_leaf (i4 i3 i2 pPt : Z) (pKerPt : option Z) (srcCr3 dstCr3 saved i1 : Z) (s : clone_st) :
    prog vmm_mem clone_out :=
  u64Pte <- rd (slot pPt i1) ;;
  if negb (has u64Pte PTE_P) || negb (has u64Pte PTE_U) then pret (inl s) else
  shared <- (match pKerPt with None => pret false | Some pk => ke <- rd (slot pk i1) ;; pret (u64Pte =? ke) end) ;;
  if (shared : bool) then pret (inl s) else
  let va := Z.lor (Z.shiftl i4 39) (Z.lor (Z.shiftl i3 30) (Z.lor (Z.shiftl i2 21) (Z.shiftl i1 12))) in
  if negb (in_band va) then pret (inl s) else
  if Z.land u64Pte PTE_ADDR_MASK =? va then pret (inl s) else
  ker <- va_in_kernel_identity va ;;
  if (ker : bool) then pret (inl s) else
  if has u64Pte PTE_W || has u64Pte PTE_COW then clone_share va u64Pte srcCr3 dstCr3 saved s
  else clone_copy va u64Pte srcCr3 dstCr3 saved s.

(** The template's table below entry [i] of a template table, when it has one. *)
Definition ker_child (pKer : option Z) (i : Z) : prog vmm_mem (option Z) :=
  match pKer with
  | None => pret None
  | Some t =>
      ke <- rd (slot t i) ;;
      pret (if has ke PTE_P && negb (has ke PTE_PS) then Some (Z.land ke PTE_ADDR_MASK) else None)
  end.
Definition ker_same (pKer : option Z) (i e : Z) : prog vmm_mem bool :=
  match pKer with None => pret false | Some t => ke <- rd (slot t i) ;; pret (e =? ke) end.

(** One upper level: skip absent, large and shared entries, else go on below. *)
Definition clone_level (pTab : Z) (pKer : option Z) (below : Z -> Z -> option Z -> clone_st -> prog vmm_mem clone_out)
    (i : Z) (s : clone_st) : prog vmm_mem clone_out :=
  e <- rd (slot pTab i) ;;
  if negb (has e PTE_P) || has e PTE_PS then pret (inl s) else
  same <- ker_same pKer i e ;;
  if (same : bool) then pret (inl s) else
  pk <- ker_child pKer i ;;
  below i (Z.land e PTE_ADDR_MASK) pk s.

Definition clone_reject : prog vmm_mem (gj_status * Z) := tick_wrap "g_cSoftCloneReject" ;;; pret (GJ_ERR_INVAL, 0).

Definition vmm_as_clone_user_pages (u64SrcCr3 u64DstCr3 u32Max : Z) : prog vmm_mem (gj_status * Z) :=
  let limit := if u32Max =? 0 then 256 else u32Max in
  tick_wrap "g_cSoftCloneCall" ;;;
  if (u64SrcCr3 =? 0) || (u64DstCr3 =? 0) || (Z.ldiff u64SrcCr3 4095 =? Z.ldiff u64DstCr3 4095) then clone_reject else
  m <- pget ;;
  match g_pKernelPml4 m with
  | None => clone_reject
  | Some pKer =>
      u64Saved <- read_cr3 ;;
      r <- clone_loop 256 0 limit
        (clone_level (Z.land u64SrcCr3 PTE_ADDR_MASK) (Some pKer) (fun i4 pPdpt kPdpt =>
          clone_loop PT_WORDS 0 limit
            (clone_level pPdpt kPdpt (fun i3 pPd kPd =>
              clone_loop PT_WORDS 0 limit
                (clone_level pPd kPd (fun i2 pPt kPt =>
                  clone_loop PT_WORDS 0 limit (clone_leaf i4 i3 i2 pPt kPt u64SrcCr3 u64DstCr3 u64Saved)))))))
        (MkClone 0 0 0) ;;
      match r with
      | inr r => pret r
      | inl s =>
          load_cr3 u64Saved ;;;
          tick_wrap "g_cSoftCloneOk" ;;; tel_add "g_cSoftClonePages" (cl_copy s) ;;; tel_add "g_cSoftCloneCow" (cl_cow s) ;;;
          tel_add "g_cSoftCloneRo" (cl_ro s) ;;; vmm_soft_note_peaks ;;;
          pret (GJ_OK, cl_copy s)
      end
  end.

(** ** Destruction *)

(** The tallies [cLeaf], [cCowDrop], [cPrivFree], [cTables], [cSharedSkip]. *)
Record destroy_st : Type := MkDestroy { ds_leaf : Z; ds_cow : Z; ds_priv : Z; ds_tabs : Z; ds_skip : Z }.
Definition ds_add_tab (s : destroy_st) : destroy_st := MkDestroy (ds_leaf s) (ds_cow s) (ds_priv s) (ds_tabs s + 1) (ds_skip s).
Definition ds_add_skip (s : destroy_st) : destroy_st := MkDestroy (ds_leaf s) (ds_cow s) (ds_priv s) (ds_tabs s) (ds_skip s + 1).

Fixpoint destroy_loop (n : nat) (i : Z) (body : Z -> destroy_st -> prog vmm_mem destroy_st) (s : destroy_st) :
    prog vmm_mem destroy_st :=
  match n with
  | O => pret s
  | S n' => s' <- body i s ;; destroy_loop n' (i + 1) body s'
  end.

Definition destroy_leaf (i4 i3 i2 pPt : Z) (pKerPt : option Z) (i1 : Z) (s : destroy_st) : prog vmm_mem destroy_st :=
  u64Pte <- rd (slot pPt i1) ;;
  if negb (has u64Pte PTE_P) || negb (has u64Pte PTE_U) then pret s else
  shared <- ker_same pKerPt i1 u64Pte ;;
  if (shared : bool) then pret s else
  let va := Z.lor (Z.shiftl i4 39) (Z.lor (Z.shiftl i3 30) (Z.lor (Z.shiftl i2 21) (Z.shiftl i1 12))) in
  let pa := Z.land u64Pte PTE_ADDR_MASK in
  if pa =? va then pret s else
  if negb (in_band va) then pret s else
  if has u64Pte PTE_COW then
    release_leaf_frame pa ;;; wr (slot pPt i1) 0 ;;;
    pret (MkDestroy (ds_leaf s + 1) (ds_cow s + 1) (ds_priv s) (ds_tabs s) (ds_skip s))
  else
    on_pmm (pmm_free pa) ;;; wr (slot pPt i1) 0 ;;;
    pret (MkDestroy (ds_leaf s + 1) (ds_cow s) (ds_priv s + 1) (ds_tabs s) (ds_skip s)).

(** The page directory and the level above it: shared entries are counted and
    skipped, a private table is emptied by [below] and freed. *)
Definition destroy_level (pTab : Z) (pKer : option Z) (below : Z -> Z -> option Z -> destroy_st -> prog vmm_mem destroy_st)
    (i : Z) (s : destroy_st) : prog vmm_mem destroy_st :=
  e <- rd (slot pTab i) ;;
  if negb (has e PTE_P) || has e PTE_PS then pret s else
  same <- ker_same pKer i e ;;
  if (same : bool) then pret (ds_add_skip s) else
  pk <- ker_child pKer i ;;
  s <- below i (Z.land e PTE_ADDR_MASK) pk s ;;
  e <- rd (slot pTab i) ;;
  on_pmm (pmm_free (Z.land e PTE_ADDR_MASK)) ;;;
  pret (ds_add_tab s).

(** The root: no large entries, and the template's tables are reached through any
    present entry. *)
Definition destroy_root (pTab : Z) (pKer : option Z) (below : Z -> Z -> option Z -> destroy_st -> prog vmm_mem destroy_st)
    (i : Z) (s : destroy_st) : prog vmm_mem destroy_st :=
  e <- rd (slot pTab i) ;;
  if negb (has e PTE_P) then pret s else
  same <- ker_same pKer i e ;;
  if (same : bool) then pret (ds_add_skip s) else
  pk <- (match pKer with
         | None => pret None
         | Some t => ke <- rd (slot t i) ;; pret (if has ke PTE_P then Some (Z.land ke PTE_ADDR_MASK) else None)
         end) ;;
  s <- below i (Z.land e PTE_ADDR_MASK) pk s ;;
  e <- rd (slot pTab i) ;;
  on_pmm (pmm_free (Z.land e PTE_ADDR_MASK)) ;;;
  pret (ds_add_tab s).

Definition vmm_as_destroy (u64Cr3 : Z) : prog vmm_mem gj_status :=
  m <- pget ;;
  if (u64Cr3 =? 0) || (u64Cr3 =? g_u64KernelCr3 m) then tick_wrap "g_cSoftAsDestroyReject" ;;; pret GJ_ERR_INVAL else
  s <- destroy_loop PT_WORDS 0
    (destroy_root (Z.land u64Cr3 PTE_ADDR_MASK) (g_pKernelPml4 m) (fun i4 pPdpt kPdpt =>
      destroy_loop PT_WORDS 0
        (destroy_level pPdpt kPdpt (fun i3 pPd kPd =>
          destroy_loop PT_WORDS 0
            (destroy_level pPd kPd (fun i2 pPt kPt =>
              destroy_loop PT_WORDS 0 (destroy_leaf i4 i3 i2 pPt kPt)))))))
    (MkDestroy 0 0 0 0 0) ;;
  on_pmm (pmm_free (Z.land u64Cr3 PTE_ADDR_MASK)) ;;;
  tick_wrap "g_cAsDestroy" ;;; soft_dec "g_cAsLive" ;;;
  tel_add "g_cSoftDestroyLeaf" (ds_leaf s) ;;; tel_add "g_cSoftDestroyPriv" (ds_priv s) ;;;
  tel_add "g_cSoftDestroyCowDrop" (ds_cow s) ;;; tel_add "g_cSoftDestroyTables" (ds_tabs s + 1) ;;;
  tel_add "g_cSoftDestroySkip" (ds_skip s) ;;; vmm_soft_note_peaks ;;;
  pret GJ_OK.
