(* ===== verification/VmmTables.v ===== *)
(** The tables in memory: which pages are tables of which address space, what
    their entries may hold, and growth that no walk sees. *)
From stdpp Require Import base gmap list strings.
From Stdlib Require Import ZArith Lia.
From S2P Require Import Prelude CapTypes Pmm PmmInv PmmOps PmmBoot PmmSelf PmmSys Vmm.

(** * The tables of all address spaces: a forest over physical memory.

    [W] names every table by its owner (the root of the address space), its
    level and its position.  An entry of a table of [r] points to a table of [r],
    or is a copy of the template's entry at the same position and points to the
    template's table: this is what the comparison with the template in
    [cow_table_entry] decides. *)

Abbreviation tabs := (gmap (Z * nat * Z) Z).

(** A 2 MiB leaf as the boot code and the device maps install it. *)
Definition large_ok (e : Z) : Prop := addr e mod 2 ^ 21 = 0 /\ has e PTE_COW = false.

(** Entry [i], with value [e], of the table of [r] at level [l], position [c]. *)
Definition ent_ok (ph : gmap Z Z) (k : Z) (W : tabs) (r : Z) (l : nat) (c i e : Z) : Prop :=
  match l with
  | O => True
  | S l' =>
      match W !! (r, l', c * 512 + i) with
      | Some t => has e PTE_P = true /\ has e PTE_PS = false /\ addr e = t
      | None =>
          has e PTE_P = true ->
          if has e PTE_PS then l' = 0%nat /\ large_ok e
          else r <> k /\ exists tk, W !! (k, l, c) = Some tk /\ ph !! slot tk i = Some e
      end
  end.

Record pt_ok (ph : gmap Z Z) (k : Z) (W : tabs) : Prop := MkPtOk {
  pt_root : W !! (k, 3%nat, 0) = Some k;
  pt_lvl : forall r l c t, W !! (r, l, c) = Some t ->
    (l <= 3)%nat /\ (l = 3%nat -> c = 0 /\ t = r) /\ W !! (r, 3%nat, 0) = Some r;
  pt_parent : forall r l c t, W !! (r, l, c) = Some t -> (l < 3)%nat -> is_Some (W !! (r, S l, c / 512));
  pt_ent : forall r l c t i, W !! (r, l, c) = Some t -> 0 <= i < 512 ->
    exists e, ph !! slot t i = Some e /\ ent_ok ph k W r l c i e;
  pt_inj : forall x y t, W !! x = Some t -> W !! y = Some t -> x = y;
  pt_align : forall x t, W !! x = Some t -> t mod GJ_PAGE_SIZE = 0 }.

Lemma slot_ne t i t' i' : t mod GJ_PAGE_SIZE = 0 -> t' mod GJ_PAGE_SIZE = 0 -> 0 <= i < 512 -> 0 <= i' < 512 ->
  slot t i = slot t' i' -> t = t' /\ i = i'.
Proof.
  intros Ht Ht' Hi Hi' E. assert (t = t') as ->.
  { rewrite <-(slot_page t i), <-(slot_page t' i') by done. by rewrite E. }
  split; [done|]. by eapply slot_inj.
Qed.

Section Walk.
Context (ph : gmap Z Z) (k : Z) (W : tabs) (Hok : pt_ok ph k W).

Lemma ent_next o l c t i e :
  W !! (o, S l, c) = Some t -> 0 <= i < 512 -> ph !! slot t i = Some e -> has e PTE_P = true -> has e PTE_PS = false ->
  exists o', (o' = o \/ o' = k) /\ W !! (o', l, c * 512 + i) = Some (addr e).
Proof.
  intros HW Hi He HP HS. destruct (pt_ent _ _ _ Hok _ _ _ _ _ HW Hi) as (e0 & E0 & H0).
  rewrite E0 in He. injection He as ->. simpl in H0. destruct (W !! (o, l, c * 512 + i)) as [t'|] eqn:E.
  { destruct H0 as (_ & _ & <-). eauto. }
  specialize (H0 HP). rewrite HS in H0. destruct H0 as (Hne & tk & Hk & Hek).
  destruct (pt_ent _ _ _ Hok _ _ _ _ _ Hk Hi) as (e1 & E1 & H1). rewrite E1 in Hek. injection Hek as ->.
  simpl in H1. destruct (W !! (k, l, c * 512 + i)) as [t'|] eqn:Ek.
  { destruct H1 as (_ & _ & <-). eauto. }
  specialize (H1 HP). rewrite HS in H1. by destruct H1.
Qed.

Lemma ent_walk o l va t e :
  W !! (o, S l, key (S l) va) = Some t -> ph !! slot t (vidx (shift_of (S l)) va) = Some e ->
  has e PTE_P = true -> has e PTE_PS = false ->
  exists o', (o' = o \/ o' = k) /\ W !! (o', l, key l va) = Some (addr e).
Proof.
  intros HW He HP HS. pose proof (pt_lvl _ _ _ Hok _ _ _ _ HW) as (Hl & _).
  rewrite (key_child l va) by done. eapply ent_next; try done. apply vidx_bound. unfold shift_of. lia.
Qed.

(** Entries with the same meaning: equal, or pointers to the same table. *)
Definition alike (l : nat) (e e' : Z) : Prop :=
  e' = e \/ (l <> 0%nat /\ has e PTE_P = true /\ has e PTE_PS = false /\
             has e' PTE_P = true /\ has e' PTE_PS = false /\ addr e' = addr e).

(** The walk depends on the owner's tables and on the template's, and there on
    what the entries mean. *)
Lemma hw_agree ph' o l va t :
  W !! (o, l, key l va) = Some t ->
  (forall o' l' c t' i e, o' = o \/ o' = k -> (l' <= l)%nat -> W !! (o', l', c) = Some t' -> 0 <= i < 512 ->
     ph !! slot t' i = Some e -> exists e', ph' !! slot t' i = Some e' /\ alike l' e e') ->
  hwleaf ph' l t va = hwleaf ph l t va.
Proof.
  intros HW HA. assert (forall o', o' = o \/ o' = k -> forall l' t', (l' <= l)%nat ->
    W !! (o', l', key l' va) = Some t' -> hwleaf ph' l' t' va = hwleaf ph l' t' va) as H; [|exact (H o (or_introl eq_refl) l t (le_n l) HW)].
  clear HW t. intros o' Ho l'. revert o' Ho. induction l' as [|l' IH]; intros o' Ho t' Hl HW.
  - assert (0 <= vidx (shift_of 0) va < 512) as Hi by (apply vidx_bound; unfold shift_of; lia).
    destruct (pt_ent _ _ _ Hok _ _ _ _ _ HW Hi) as (e & E & _).
    destruct (HA o' 0%nat _ _ _ _ Ho Hl HW Hi E) as (e' & E' & [->|(Hn & _)]); [|done].
    cbn [hwleaf]. by rewrite E, E'.
  - assert (0 <= vidx (shift_of (S l')) va < 512) as Hi by (apply vidx_bound; unfold shift_of; lia).
    destruct (pt_ent _ _ _ Hok _ _ _ _ _ HW Hi) as (e & E & _).
    destruct (HA o' (S l') _ _ _ _ Ho Hl HW Hi E) as (e' & E' & Ha).
    cbn [hwleaf]. rewrite E, E'. assert (has e PTE_P = true -> has e PTE_PS = false ->
      hwleaf ph' l' (addr e) va = hwleaf ph l' (addr e) va) as Hd.
    { intros HP HS. destruct (ent_walk o' l' va t' e HW E HP HS) as (o2 & Ho2 & HW2).
      apply (IH o2); [|lia|done]. destruct Ho2 as [->| ->]; auto. }
    destruct Ha as [->|(_ & HP & HS & HP' & HS' & Ea)].
    + destruct (has e PTE_P); [|done]. cbn [negb]. destruct (has e PTE_PS); [done|]. by apply Hd.
    + rewrite HP, HP', HS, HS', Ea. cbn [negb]. by apply Hd.
Qed.

(** One entry is changed; if the walk of [va] comes to it, it yields there what
    it did. *)
Lemma hw_retarget ph' r L c t i e e' va :
  W !! (r, L, c) = Some t -> 0 <= i < 512 -> ph !! slot t i = Some e -> ph' !! slot t i = Some e' ->
  (forall x t' j, W !! x = Some t' -> 0 <= j < 512 -> slot t' j <> slot t i -> ph' !! slot t' j = ph !! slot t' j) ->
  (key L va = c -> vidx (shift_of L) va = i -> hwstep ph' L e' va = hwstep ph L e va) ->
  forall l o t', W !! (o, l, key l va) = Some t' -> hwleaf ph' l t' va = hwleaf ph l t' va.
Proof.
  intros HW Hi He He' Hfr Hst l. induction l as [|l IH]; intros o t' HW'.
  all: match goal with |- hwleaf _ ?l _ _ = _ =>
         assert (0 <= vidx (shift_of l) va < 512) as Hj by (apply vidx_bound; unfold shift_of; lia);
         destruct (pt_ent _ _ _ Hok _ _ _ _ _ HW' Hj) as (e0 & E0 & _);
         destruct (decide (slot t' (vidx (shift_of l) va) = slot t i)) as [Es|Es]
       end.
  1,3: apply slot_ne in Es as [-> Ei]; [|by eapply pt_align|by eapply pt_align|done|done];
       pose proof (pt_inj _ _ _ Hok _ _ _ HW HW') as Ex; injection Ex as -> -> ->;
       rewrite Ei in *; rewrite (hwleaf_step ph _ _ _ e) by (by rewrite Ei);
       rewrite (hwleaf_step ph' _ _ _ e') by (by rewrite Ei); by apply Hst.
  - pose proof (Hfr _ _ _ HW' Hj Es) as E1. cbn [hwleaf]. by rewrite E1, E0.
  - pose proof (Hfr _ _ _ HW' Hj Es) as E1. rewrite E0 in E1.
    rewrite (hwleaf_step ph' _ _ _ e0), (hwleaf_step ph _ _ _ e0) by done. unfold hwstep.
    destruct (has e0 PTE_P) eqn:HP; [|done]. cbn [negb]. destruct (has e0 PTE_PS) eqn:HS; [done|].
    destruct (ent_walk o l va t' e0 HW' E0 HP HS) as (o2 & _ & HW2). by eapply IH.
Qed.
End Walk.

(** ** Changes that keep the forest *)
Section Change.
Context (ph : gmap Z Z) (k : Z) (W : tabs) (Hok : pt_ok ph k W).

(** Every word of a table is as before, except [slot t i]. *)
Definition same_but (ph' : gmap Z Z) (t i : Z) : Prop :=
  forall x t' j, W !! x = Some t' -> 0 <= j < 512 -> slot t' j <> slot t i -> ph' !! slot t' j = ph !! slot t' j.

Lemma pt_slot x y t i t' j :
  W !! x = Some t -> W !! y = Some t' -> 0 <= i < 512 -> 0 <= j < 512 -> slot t' j = slot t i -> x = y /\ t' = t /\ j = i.
Proof.
  intros Hx Hy Hi Hj E. apply slot_ne in E as [-> ->]; [|by eapply pt_align|by eapply pt_align|done|done].
  split_and!; [|done|done]. by eapply pt_inj.
Qed.

(** No table hangs below a position that has none. *)
Lemma pt_no_below r l c j : (l < 3)%nat -> 0 <= j < 512 -> W !! (r, l, c) = None ->
  match l with O => True | S l' => W !! (r, l', c * 512 + j) = None end.
Proof.
  intros Hl Hj HN. destruct l as [|l]; [done|]. destruct (W !! (r, l, c * 512 + j)) as [t|] eqn:E; [|done].
  apply (pt_parent _ _ _ Hok) in E as [t' E]; [|lia].
  replace ((c * 512 + j) / 512) with c in E by (Z.div_mod_to_equations; lia). congruence.
Qed.

Lemma pt_word ph' r l c t i e e' :
  W !! (r, l, c) = Some t -> 0 <= i < 512 -> ph !! slot t i = Some e -> ph' !! slot t i = Some e' -> same_but ph' t i ->
  (r <> k \/ l = 0%nat \/ (forall o l c t, W !! (o, l, c) = Some t -> o = k)) ->
  (ent_ok ph k W r l c i e -> ent_ok ph' k W r l c i e') ->
  pt_ok ph' k W.
Proof.
  intros HW Hi He He' Hfr Hsh Hent. destruct Hok as [H1 H2 H3 H4 H5 H6]. split; try done.
  intros o l0 c0 t0 j HW0 Hj. destruct (H4 _ _ _ _ _ HW0 Hj) as (e0 & E0 & Hent0).
  destruct (decide (slot t0 j = slot t i)) as [Es|Es].
  { destruct (pt_slot _ _ _ _ _ _ HW HW0 Hi Hj Es) as (Ex & -> & ->). injection Ex as -> -> ->.
    rewrite He in E0. injection E0 as ->. eauto. }
  rewrite (Hfr _ _ _ HW0 Hj Es). exists e0. split; [done|]. destruct l0 as [|l']; [done|]. simpl in *.
  destruct (W !! (o, l', c0 * 512 + j)); [done|]. intros HP. specialize (Hent0 HP).
  destruct (has e0 PTE_PS) eqn:HS; [done|]. destruct Hent0 as (Hne & tk & Hk & Ek). split; [done|]. exists tk. split; [done|].
  rewrite (Hfr _ _ _ Hk Hj); [done|]. intros E. destruct (pt_slot _ _ _ _ _ _ HW Hk Hi Hj E) as (Ex & -> & ->).
  injection Ex as -> -> ->. destruct Hsh as [Hsh|[Hsh|Hsh]]; [done|done|]. by apply Hsh in HW0.
Qed.

Lemma pt_frame ph' :
  (forall x t j, W !! x = Some t -> 0 <= j < 512 -> ph' !! slot t j = ph !! slot t j) -> pt_ok ph' k W.
Proof.
  intros Hfr. destruct Hok as [H1 H2 H3 H4 H5 H6]. split; try done.
  intros o l c t j HW Hj. destruct (H4 _ _ _ _ _ HW Hj) as (e & E & He). rewrite (Hfr _ _ _ HW Hj). exists e.
  split; [done|]. destruct l as [|l]; [done|]. simpl in *. destruct (W !! (o, l, c * 512 + j)); [done|]. intros HP.
  specialize (He HP). destruct (has e PTE_PS); [done|]. destruct He as (Hne & tk & Hk & Ek). split; [done|].
  exists tk. split; [done|]. by rewrite (Hfr _ _ _ Hk Hj).
Qed.

Lemma hw_frame ph' l o t va :
  (forall x t j, W !! x = Some t -> 0 <= j < 512 -> ph' !! slot t j = ph !! slot t j) ->
  W !! (o, l, key l va) = Some t -> hwleaf ph' l t va = hwleaf ph l t va.
Proof.
  intros Hfr HW. eapply (hw_agree ph k W Hok); [done|]. intros o' l' c t' i e _ _ HW' Hi He. exists e.
  rewrite (Hfr _ _ _ HW' Hi). split; [done|by left].
Qed.

(** A fresh table [n] is hung below an entry of [r] that had none of its own. *)
Lemma pt_new_table ph' r L c t i e e' n :
  W !! (r, S L, c) = Some t -> 0 <= i < 512 -> ph !! slot t i = Some e -> ph' !! slot t i = Some e' -> same_but ph' t i ->
  W !! (r, L, c * 512 + i) = None ->
  has e' PTE_P = true -> has e' PTE_PS = false -> addr e' = n ->
  n mod GJ_PAGE_SIZE = 0 -> (forall x, W !! x <> Some n) ->
  (r = k -> has e PTE_P = true -> has e PTE_PS = true) ->
  (forall j, 0 <= j < 512 -> exists ej, ph' !! slot n j = Some ej /\
     match L with
     | O => True
     | S _ => has ej PTE_P = true ->
              if has ej PTE_PS then L = 1%nat /\ large_ok ej
              else r <> k /\ exists tk, W !! (k, L, c * 512 + i) = Some tk /\ ph !! slot tk j = Some ej
     end) ->
  pt_ok ph' k (<[(r, L, c * 512 + i) := n]> W).
Proof.
  intros HW Hi He He' Hfr HN HP' HS' Ha Hn Hfresh Hker Hnew. pose proof Hok as [H1 H2 H3 H4 H5 H6].
  destruct (H2 _ _ _ _ HW) as (HL & _ & Hroot).
  assert (forall y t0, W !! y = Some t0 -> <[(r, L, c * 512 + i) := n]> W !! y = Some t0) as Hmono.
  { intros y t0 Hy. rewrite lookup_insert_ne; [done|]. intros <-. congruence. }
  split.
  - by apply Hmono.
  - intros o l c0 t0 H. apply lookup_insert_Some in H as [[Ex <-]|[_ H]].
    + injection Ex as <- <- <-. split_and!; [lia|lia|by apply Hmono].
    + apply H2 in H as (? & ? & ?). split_and!; [done|done|by apply Hmono].
  - intros o l c0 t0 H Hl. apply lookup_insert_Some in H as [[Ex <-]|[_ H]].
    + injection Ex as <- <- <-. exists t. apply Hmono.
      by replace ((c * 512 + i) / 512) with c by (Z.div_mod_to_equations; lia).
    + apply H3 in H as [t' H]; [|done]. exists t'. by apply Hmono.
  - intros o l c0 t0 j H Hj. apply lookup_insert_Some in H as [[Ex <-]|[_ H]].
    + injection Ex as <- <- <-. destruct (Hnew j Hj) as (ej & Ej & Hej). exists ej. split; [done|].
      pose proof (pt_no_below r L (c * 512 + i) j) as Hb. destruct L as [|L']; [done|]. simpl in Hb |- *.
      rewrite lookup_insert_ne by (intros Ex; injection Ex as Ex1 _; lia).
      rewrite Hb by (done || lia). intros HP. specialize (Hej HP). destruct (has ej PTE_PS).
      { destruct Hej as [Hej ?]. injection Hej as ->. done. }
      destruct Hej as (Hne & tk & Hk & Ek). split; [done|]. exists tk. split; [by apply Hmono|].
      rewrite (Hfr _ _ _ Hk Hj); [done|]. intros E. destruct (pt_slot _ _ _ _ _ _ HW Hk Hi Hj E) as (Ex & _).
      injection Ex as -> _ _. lia.
    + destruct (H4 _ _ _ _ _ H Hj) as (e0 & E0 & Hent0). destruct (decide (slot t0 j = slot t i)) as [Es|Es].
      { destruct (pt_slot _ _ _ _ _ _ HW H Hi Hj Es) as (Ex & -> & ->). injection Ex as <- <- <-.
        exists e'. split; [done|]. simpl. by rewrite lookup_insert_eq. }
      rewrite (Hfr _ _ _ H Hj Es). exists e0. split; [done|]. destruct l as [|l']; [done|]. simpl in *.
      rewrite lookup_insert_ne.
      2: { intros Ex. injection Ex as <- <- Ex. apply digits_inj in Ex as [<- <-]; [|done|done].
           pose proof (eq_trans (eq_sym HW) H) as Et. injection Et as ->. done. }
      destruct (W !! (o, l', c0 * 512 + j)); [done|]. intros HP. specialize (Hent0 HP).
      destruct (has e0 PTE_PS) eqn:HS; [done|]. destruct Hent0 as (Hne & tk & Hk & Ek). split; [done|].
      exists tk. split; [by apply Hmono|]. rewrite (Hfr _ _ _ Hk Hj); [done|]. intros E.
      destruct (pt_slot _ _ _ _ _ _ HW Hk Hi Hj E) as (Ex & -> & ->). injection Ex as -> -> ->.
      rewrite He in Ek. injection Ek as ->. by rewrite Hker in HS.
  - intros x y t0 Hx Hy. apply lookup_insert_Some in Hx as [[<- <-]|[Hx1 Hx]], Hy as [[<- Hy]|[Hy1 Hy]].
    all: first [done | by destruct (Hfresh y) | by subst; destruct (Hfresh x) | by eapply H5].
  - intros x t0 Hx. apply lookup_insert_Some in Hx as [[_ <-]|[_ Hx]]; [done|]. by eapply H6.
Qed.
End Change.

(** * Words and pages of physical memory under the operations of [Vmm]. *)

Lemma PT_WORDS_512 : Z.of_nat PT_WORDS = 512.
Proof. done. Qed.
#[global] Opaque PT_WORDS.

Lemma wp_on_pmm {A} (c : prog pmm_mem A) Q m :
  wp c (fun a p => Q a (set_pmm p m)) (vm_pmm m) -> wp (on_pmm c) Q m.
Proof.
  intros Hc t. destruct (Hc t) as (a & u & t' & E & HQ). exists a, (set_pmm u m), t'. split; [|done].
  unfold on_pmm. simpl. by rewrite E.
Qed.

(** A page the kernel can reach. *)
Record tp_ok (p : pmm_mem) (t : Z) : Prop := {
  tp_pos : 0 < t;
  tp_align : t mod GJ_PAGE_SIZE = 0;
  tp_bound : t + GJ_PAGE_SIZE <= PA_MAX;
  tp_reach : zone t = true \/ pm_hhdm p = true }.

Lemma page_tp p t : page_ok p t -> tp_ok p t.
Proof. intros Hp. pose proof (page_ok_bounds p t Hp). destruct Hp. split; try done. lia. Qed.

Lemma tp_frame p t : tp_ok p t -> frame t.
Proof.
  intros []. split; [done|]. split; [lia|]. unfold PA_MAX, GJ_PAGE_SIZE in *.
  eapply Z.lt_le_trans; [|apply (Z.pow_le_mono_r 2 47 52); lia]. lia.
Qed.

Lemma tp_low p t i : tp_ok p t -> 0 <= i < 512 -> (PMM_LOW_MAX <=? slot t i) && negb (pm_hhdm p) = false.
Proof.
  intros [Hp Ha _ [Hz| ->]] Hi; [|by rewrite andb_false_r]. apply Z.ltb_lt in Hz.
  rewrite (proj2 (Z.leb_gt _ _)); [done|]. unfold slot, GJ_PAGE_SIZE, PMM_LOW_MAX in *. Z.div_mod_to_equations. lia.
Qed.

Lemma wp_rd t i v Q m :
  tp_ok (vm_pmm m) t -> 0 <= i < 512 -> vphys m !! slot t i = Some v -> Q v m -> wp (rd (slot t i)) Q m.
Proof. intros Ht Hi Hv HQ. unfold rd. apply wp_bind, wp_get. rewrite tp_low, Hv by done. by apply wp_ret. Qed.

Lemma wp_wr t i v Q m :
  tp_ok (vm_pmm m) t -> 0 <= i < 512 -> is_Some (vphys m !! slot t i) ->
  Q tt (set_vphys (<[slot t i := v]> (vphys m)) m) -> wp (wr (slot t i) v) Q m.
Proof. intros Ht Hi [v0 Hv] HQ. unfold wr. apply wp_bind, wp_get. rewrite tp_low, Hv by done. by apply wp_put. Qed.

Lemma vphys_set ph m : vphys (set_vphys ph m) = ph. Proof. done. Qed.
Lemma set_vphys_set ph ph' m : set_vphys ph (set_vphys ph' m) = set_vphys ph m. Proof. done. Qed.

Lemma tp_set_phys ph m t : tp_ok (vm_pmm m) t -> tp_ok (vm_pmm (set_vphys ph m)) t.
Proof. by intros []. Qed.

(** ** Loops over the words of a page *)
Fixpoint put_words (n : nat) (i x : Z) (f : Z -> Z) (ph : gmap Z Z) : gmap Z Z :=
  match n with
  | O => ph
  | S n' => put_words n' (i + 1) x f (<[slot x i := f i]> ph)
  end.

Lemma put_words_out n : forall i x f ph a,
  (forall j, i <= j < i + Z.of_nat n -> a <> slot x j) -> put_words n i x f ph !! a = ph !! a.
Proof.
  induction n as [|n IH]; intros i x f ph a Ha; [done|]. cbn [put_words]. rewrite IH.
  - rewrite lookup_insert_ne; [done|]. intros E. apply (Ha i); [lia|done].
  - intros j Hj. apply Ha. lia.
Qed.

Lemma put_words_in n : forall i x f ph j,
  i <= j < i + Z.of_nat n -> put_words n i x f ph !! slot x j = Some (f j).
Proof.
  induction n as [|n IH]; intros i x f ph j Hj; [lia|]. cbn [put_words]. destruct (decide (j = i)) as [->|Hne].
  - rewrite put_words_out; [by rewrite lookup_insert_eq|]. intros j Hj' E. apply slot_inj in E. lia.
  - apply IH. lia.
Qed.

Lemma put_words_dom n i x f ph a :
  (forall j, i <= j < i + Z.of_nat n -> is_Some (ph !! slot x j)) ->
  is_Some (put_words n i x f ph !! a) <-> is_Some (ph !! a).
Proof.
  revert i ph. induction n as [|n IH]; intros i ph H; [done|]. cbn [put_words]. rewrite IH.
  - rewrite lookup_insert_is_Some. destruct (decide (slot x i = a)) as [<-|]; [|naive_solver].
    split; [|by left]. intros _. apply H. lia.
  - intros j Hj. apply lookup_insert_is_Some. destruct (decide (slot x i = slot x j)); [by left|right].
    split; [done|]. apply H. lia.
Qed.

Lemma put_words_page n i x f ph a :
  x mod GJ_PAGE_SIZE = 0 -> 0 <= i -> i + Z.of_nat n <= 512 -> page_of a <> x -> put_words n i x f ph !! a = ph !! a.
Proof. intros Hx Hi Hn Ha. apply put_words_out. intros j Hj ->. apply Ha, slot_page; [done|lia]. Qed.

Lemma put_words_same n x f ph : forall i,
  (forall j, i <= j < i + Z.of_nat n -> ph !! slot x j = Some (f j)) -> put_words n i x f ph = ph.
Proof.
  induction n as [|n IH]; intros i H; [done|]. cbn [put_words]. rewrite insert_id by (apply H; lia). apply IH.
  intros j Hj. apply H. lia.
Qed.

Lemma pmm_put_words n p F x f : forall i ph,
  ph = pm_phys p -> pmm_ok p F -> x mod GJ_PAGE_SIZE = 0 -> x ∉ F -> 0 <= i -> i + Z.of_nat n <= 512 ->
  (forall j, i <= j < i + Z.of_nat n -> is_Some (ph !! slot x j)) ->
  pmm_ok (set_phys (put_words n i x f ph) p) F /\ pstep [x] p (set_phys (put_words n i x f ph) p).
Proof.
  revert p. induction n as [|n IH]; intros p i ph -> Hok Hx Hin Hi Hn Hw.
  { cbn [put_words]. destruct p. split; [done|apply pstep_refl]. }
  cbn [put_words].
  assert (page_of (slot x i) = x) as Hpg by (apply slot_page; [done|lia]).
  destruct (pmm_ok_store p F (slot x i) (f i) Hok) as [Hok1 Hs1]; [by rewrite Hpg|apply Hw; lia|].
  rewrite Hpg in Hs1.
  destruct (IH (set_phys (<[slot x i := f i]> (pm_phys p)) p) (i + 1) (<[slot x i := f i]> (pm_phys p))) as [H1 H2]; try done.
  { lia. }
  { lia. }
  { intros j Hj. apply lookup_insert_is_Some. destruct (decide (slot x i = slot x j)); [by left|right].
    split; [done|]. apply Hw. lia. }
  split; [exact H1|]. eapply pstep_trans; [..|exact Hs1|exact H2]; done.
Qed.

Section Loops.
Context (x : Z).

(** The page is reachable and mapped. *)
Definition page_in (m : vmm_mem) : Prop :=
  tp_ok (vm_pmm m) x /\ (forall j, 0 <= j < 512 -> is_Some (vphys m !! slot x j)).

Lemma page_in_put m n i f :
  page_in m -> 0 <= i -> i + Z.of_nat n <= 512 -> page_in (set_vphys (put_words n i x f (vphys m)) m).
Proof.
  intros [Ht Hw] Hi Hn. split; [by destruct Ht|]. intros j Hj. rewrite vphys_set. apply put_words_dom; [|by apply Hw].
  intros j' Hj'. apply Hw. lia.
Qed.

Lemma page_in_insert m i v : page_in m -> 0 <= i < 512 -> page_in (set_vphys (<[slot x i := v]> (vphys m)) m).
Proof. intros H Hi. apply (page_in_put m 1 i (fun _ => v)); [done|lia|lia]. Qed.

Lemma wp_fill_words v n : forall i Q m,
  page_in m -> 0 <= i -> i + Z.of_nat n <= 512 ->
  Q tt (set_vphys (put_words n i x (fun _ => v) (vphys m)) m) -> wp (fill_words n (slot x i) v) Q m.
Proof.
  induction n as [|n IH]; intros i Q m Hp Hi Hn HQ; cbn [fill_words].
  { apply wp_ret. by destruct m as [[] ]. }
  apply wp_bind. apply wp_wr; [apply Hp|lia|apply Hp; lia|].
  replace (slot x i + 8) with (slot x (i + 1)) by (unfold slot; lia).
  apply IH; [by apply page_in_insert; [|lia]|lia|lia|exact HQ].
Qed.

Lemma wp_copy_words s f n : forall i Q m,
  page_in m -> tp_ok (vm_pmm m) s -> s <> x -> 0 <= i -> i + Z.of_nat n <= 512 ->
  (forall j, i <= j < i + Z.of_nat n -> vphys m !! slot s j = Some (f j)) ->
  Q tt (set_vphys (put_words n i x f (vphys m)) m) -> wp (copy_words n (slot x i) (slot s i)) Q m.
Proof.
  induction n as [|n IH]; intros i Q m Hp Hs Hne Hi Hn Hf HQ; cbn [copy_words].
  { apply wp_ret. by destruct m as [[] ]. }
  apply wp_bind. apply (wp_rd s i (f i)); [done|lia|apply Hf; lia|].
  apply wp_bind. apply wp_wr; [apply Hp|lia|apply Hp; lia|].
  replace (slot x i + 8) with (slot x (i + 1)) by (unfold slot; lia).
  replace (slot s i + 8) with (slot s (i + 1)) by (unfold slot; lia).
  apply IH; [by apply page_in_insert; [|lia]|by destruct Hs|done|lia|lia| |exact HQ].
  intros j Hj. rewrite vphys_set, lookup_insert_ne; [apply Hf; lia|]. intros E.
  apply slot_ne in E as [-> _]; [done|apply Hp|apply Hs|lia|lia].
Qed.

Lemma wp_split_fill pa fl n : forall i Q m,
  page_in m -> 0 <= i -> i + Z.of_nat n <= 512 ->
  Q tt (set_vphys (put_words n i x (fun j => Z.lor (u64_add pa (j * GJ_PAGE_SIZE)) (Z.lor PTE_P fl)) (vphys m)) m) ->
  wp (split_fill n i x pa fl) Q m.
Proof.
  induction n as [|n IH]; intros i Q m Hp Hi Hn HQ; cbn [split_fill].
  { apply wp_ret. by destruct m as [[] ]. }
  apply wp_bind. apply wp_wr; [apply Hp|lia|apply Hp; lia|].
  apply IH; [by apply page_in_insert; [|lia]|lia|lia|exact HQ].
Qed.

Lemma wp_share_slots s f n : forall i cs Q m,
  page_in m -> tp_ok (vm_pmm m) s -> s <> x -> 0 <= i -> i + Z.of_nat n <= 512 ->
  (forall j, i <= j < i + Z.of_nat n -> vphys m !! slot s j = Some (f j)) ->
  (forall c, Q c (set_vphys (put_words n i x f (vphys m)) m)) -> wp (share_slots n i x s cs) Q m.
Proof.
  induction n as [|n IH]; intros i cs Q m Hp Hs Hne Hi Hn Hf HQ; cbn [share_slots].
  { apply wp_ret. specialize (HQ cs). by destruct m as [[] ]. }
  apply wp_bind. apply (wp_rd s i (f i)); [done|lia|apply Hf; lia|].
  apply wp_bind. apply wp_wr; [apply Hp|lia|apply Hp; lia|].
  apply IH; [by apply page_in_insert; [|lia]|by destruct Hs|done|lia|lia| |exact HQ].
  intros j Hj. rewrite vphys_set, lookup_insert_ne; [apply Hf; lia|]. intros E.
  apply slot_ne in E as [-> _]; [done|apply Hp|apply Hs|lia|lia].
Qed.
End Loops.

(** * The invariant of the machine, and steps that grow the tables without
    changing what any address space sees. *)

(** [k] is the template's root, [W] the tables, [F] the free pages. *)
Record vm_inv (k : Z) (W : tabs) (F : list Z) (m : vmm_mem) : Prop := MkVmInv {
  vi_pmm : pmm_ok (vm_pmm m) F;
  vi_full : forall x i, x ∈ F -> 0 <= i < 512 -> is_Some (vphys m !! slot x i);
  vi_ker : g_pKernelPml4 m = Some k;
  vi_kcr3 : g_u64KernelCr3 m = k;
  vi_pt : pt_ok (vphys m) k W;
  vi_tab : forall x t, W !! x = Some t -> tp_ok (vm_pmm m) t /\ t ∉ F;
  vi_priv : forall r l c t, W !! (r, l, c) = Some t -> r <> k -> page_ok (vm_pmm m) t }.

(** What the table code never touches. *)
Record vkeep (m m' : vmm_mem) : Prop := MkVkeep {
  vk_cr3 : vm_cr3 m' = vm_cr3 m;
  vk_wp : vm_wp m' = vm_wp m;
  vk_smap : vm_smap m' = vm_smap m;
  vk_ac : vm_ac m' = vm_ac m;
  vk_kp : g_pKernelPml4 m' = g_pKernelPml4 m;
  vk_kc : g_u64KernelCr3 m' = g_u64KernelCr3 m;
  vk_cow : g_aCowRef m' = g_aCowRef m;
  vk_cur : vm_cursors m' = vm_cursors m;
  vk_acur : g_pAnonCursor m' = g_pAnonCursor m;
  vk_img : vm_image m' = vm_image m;
  vk_flush : vm_flushed m `prefix_of` vm_flushed m';
  vk_pmm : exists P, pstep P (vm_pmm m) (vm_pmm m') }.

#[export] Instance vkeep_preorder : PreOrder vkeep.
Proof.
  split.
  - intros m. split; try done. exists []. apply pstep_refl.
  - intros m1 m2 m3 [? ? ? ? ? ? ? ? ? ? ? [P HP]] [? ? ? ? ? ? ? ? ? ? ? [R HR]]. split; try congruence; [by etrans|].
    exists (P ++ R). eapply pstep_trans; [..|exact HP|exact HR]; set_solver.
Qed.

Lemma vkeep_page m m' x : vkeep m m' -> page_ok (vm_pmm m) x -> page_ok (vm_pmm m') x.
Proof. intros H. destruct (vk_pmm _ _ H) as [P HP]. by apply page_ok_step with P. Qed.

Lemma vkeep_tp m m' x : vkeep m m' -> tp_ok (vm_pmm m) x -> tp_ok (vm_pmm m') x.
Proof. intros H. destruct (vk_pmm _ _ H) as [P HP]. intros []. split; try done. by rewrite (ps_hhdm _ _ _ HP). Qed.

Lemma vkeep_dom m m' a : vkeep m m' -> is_Some (vphys m' !! a) <-> is_Some (vphys m !! a).
Proof. intros H. destruct (vk_pmm _ _ H) as [P HP]. apply HP. Qed.

Lemma vkeep_pmm p m : (exists P, pstep P (vm_pmm m) p) -> vkeep m (set_pmm p m).
Proof. by split. Qed.

(** The page is no table. *)
Definition no_tab (W : tabs) (x : Z) : Prop := forall y, W !! y <> Some x.

(** From [m] to [m'] the tables grew from [W] to [W'] with pages of [F]; every
    address space sees what it saw, and memory that is neither table nor free is
    untouched. *)
Record grow (k : Z) (W : tabs) (F : list Z) (m : vmm_mem) (W' : tabs) (F' : list Z) (m' : vmm_mem) : Prop := MkGrow {
  gr_inv : vm_inv k W' F' m';
  gr_sub : W ⊆ W';
  gr_roots : forall o, W' !! (o, 3%nat, 0) = W !! (o, 3%nat, 0);
  gr_view : forall o l t va, W !! (o, l, key l va) = Some t -> hwleaf (vphys m') l t va = hwleaf (vphys m) l t va;
  gr_flags : forall x t i e, W !! x = Some t -> 0 <= i < 512 -> vphys m !! slot t i = Some e ->
    exists e', vphys m' !! slot t i = Some e' /\ (has e PTE_U = true -> has e' PTE_U = true) /\
      (has e PTE_W = true -> has e' PTE_W = true);
  gr_keep : vkeep m m';
  gr_data : forall a, page_of a ∉ F -> no_tab W (page_of a) -> vphys m' !! a = vphys m !! a;
  gr_free : F' ⊆ F;
  gr_used : forall t, t ∈ F -> t ∈ F' \/ exists x, W' !! x = Some t;
  gr_new : forall x t, W' !! x = Some t -> W !! x = Some t \/ t ∈ F }.

Lemma grow_refl k W F m : vm_inv k W F m -> grow k W F m W F m.
Proof. intros H. split; try done. all: eauto. Qed.

Lemma grow_trans k W F m W1 F1 m1 W2 F2 m2 :
  grow k W F m W1 F1 m1 -> grow k W1 F1 m1 W2 F2 m2 -> grow k W F m W2 F2 m2.
Proof.
  intros [A1 A2 A3 A4 AF A5 A6 A7 A8 A9] [B1 B2 B3 B4 BF B5 B6 B7 B8 B9]. split.
  - done.
  - by transitivity W1.
  - intros o. by rewrite B3.
  - intros o l t va H. rewrite (B4 o), (A4 o); [done|done|]. by eapply lookup_weaken.
  - intros x t i e Hx Hj He. destruct (AF x t i e Hx Hj He) as (e1 & E1 & ? & ?).
    destruct (BF x t i e1) as (e2 & E2 & ? & ?); [by eapply lookup_weaken|done|done|]. exists e2. auto.
  - by transitivity m1.
  - intros a Ha Hn. rewrite B6, A6; [done|done|done|set_solver|]. intros y Hy. apply A9 in Hy as [Hy|Hy]; [by eapply Hn|done].
  - by transitivity F1.
  - intros t Ht. apply A8 in Ht as [Ht|[x Hx]]; [by apply B8|]. right. exists x. by eapply lookup_weaken.
  - intros x t Hx. apply B9 in Hx as [Hx|Hx]; [by apply A9|]. right. set_solver.
Qed.

Lemma grow_root k W F m W' F' m' o va :
  grow k W F m W' F' m' -> W !! (o, 3%nat, 0) = Some o -> view m' o va = view m o va.
Proof. intros Hg Ho. apply (gr_view _ _ _ _ _ _ _ Hg o). by rewrite key_root. Qed.

(** ** Allocation of a page and of a table *)
Section Inv.
Context (k : Z) (W : tabs) (F : list Z) (m : vmm_mem) (Hi : vm_inv k W F m).

Lemma inv_tab_page x t a : W !! x = Some t -> 0 <= a < 512 -> page_of (slot t a) = t /\ t ∉ F.
Proof. intros Hx Ha. destruct (vi_tab _ _ _ _ Hi x t Hx) as [[] ?]. split; [by apply slot_page|done]. Qed.

(** A page has been taken from the free pages, and only free pages changed. *)
Definition taken (pa : Z) (F' : list Z) (m' : vmm_mem) : Prop :=
  F ≡ₚ pa :: F' /\ vm_inv k W F' m' /\ vkeep m m' /\ vm_flushed m' = vm_flushed m /\
  (forall a, page_of a ∉ F -> vphys m' !! a = vphys m !! a).

Lemma inv_pmm_step p F' P :
  pmm_ok p F' -> F' ⊆ F -> pstep P (vm_pmm m) p -> P ⊆ F ->
  vm_inv k W F' (set_pmm p m) /\ (forall a, page_of a ∉ F -> vphys (set_pmm p m) !! a = vphys m !! a).
Proof.
  intros Hp HF Hs HP. assert (vkeep m (set_pmm p m)) as Hk by (apply vkeep_pmm; by exists P).
  assert (forall a, page_of a ∉ F -> vphys (set_pmm p m) !! a = vphys m !! a) as Hfr.
  { intros a Ha. apply Hs. set_solver. }
  split; [|done]. destruct Hi as [H1 H2 H3 H4 H5 H6 H7]. split; try done.
  - intros x i Hx Hj. apply (vkeep_dom _ _ _ Hk), H2; [set_solver|done].
  - apply (pt_frame (vphys m)); [done|]. intros x t j Hx Hj. destruct (inv_tab_page x t j Hx Hj) as [E ?].
    apply Hfr. by rewrite E.
  - intros x t Hx. destruct (H6 x t Hx). split; [by eapply vkeep_tp|set_solver].
  - intros r l c t Hx Hr. eapply vkeep_page; [done|]. by eapply H7.
Qed.

Lemma wp_page_alloc Q :
  (F = [] -> Q 0 m) ->
  (forall pa F' m', pa <> 0 -> taken pa F' m' -> Q pa m') ->
  wp (on_pmm pmm_alloc) Q m.
Proof.
  intros HQ0 HQ. apply wp_on_pmm. eapply wp_mono; [apply wp_pmm_alloc, Hi|].
  intros pa p [(-> & -> & HF)|[Hg _]]; [destruct m; by apply HQ0|].
  pose proof Hg as (Hpa & _). apply got_1 in Hg as (F' & HF & Hok & Hs). apply (HQ pa F'); [done|].
  destruct (inv_pmm_step p F' F) as [H1 H2]; [done|rewrite HF; set_solver|done|done|].
  split_and!; try done. apply vkeep_pmm. by exists F.
Qed.

Lemma inv_free_page pa : pa ∈ F -> page_ok (vm_pmm m) pa /\ page_in pa m /\ no_tab W pa.
Proof.
  intros Hpa. assert (page_ok (vm_pmm m) pa) as Hp by (eapply pmm_ok_page; [apply Hi|done]). split_and!; [done| |].
  - split; [by apply page_tp|]. intros j Hj. by apply (vi_full _ _ _ _ Hi).
  - intros y Hy. by apply (vi_tab _ _ _ _ Hi) in Hy as [_ Hy].
Qed.

(** Words of a page that is neither table nor free may be anything. *)
Lemma inv_put_page pa n i f :
  page_in pa m -> no_tab W pa -> pa ∉ F -> 0 <= i -> i + Z.of_nat n <= 512 ->
  vm_inv k W F (set_vphys (put_words n i pa f (vphys m)) m) /\
  vkeep m (set_vphys (put_words n i pa f (vphys m)) m).
Proof.
  intros [Ht Hw] Hn Hin H0 H1. destruct (pmm_put_words n (vm_pmm m) F pa f i (vphys m)) as [Hp Hs]; try done.
  { apply Hi. }
  { apply Ht. }
  { intros j Hj. apply Hw. lia. }
  assert (vkeep m (set_vphys (put_words n i pa f (vphys m)) m)) as Hk by (apply vkeep_pmm; by exists [pa]).
  split; [|exact Hk]. destruct Hi as [I1 I2 I3 I4 I5 I6 I7]. split; try done.
  - intros x j Hx Hj. apply (vkeep_dom _ _ _ Hk), I2; done.
  - apply (pt_frame (vphys m)); [done|]. intros x t j Hx Hj. destruct (inv_tab_page x t j Hx Hj) as [E ?].
    rewrite vphys_set. apply put_words_page; [apply Ht|lia|lia|]. rewrite E. intros ->. by apply (Hn x).
  - intros x t Hx. destruct (I6 x t Hx). split; [by eapply vkeep_tp|done].
  - intros r l c t Hx Hr. eapply vkeep_page; [done|]. by eapply I7.
Qed.
End Inv.

Lemma slot_0 x : slot x 0 = x. Proof. unfold slot. lia. Qed.

(** A zeroed page that belongs to nobody yet. *)
Definition fresh_table k W F m (pa : Z) F' m' : Prop :=
  taken k W F m pa F' m' /\ page_in pa m' /\ page_ok (vm_pmm m') pa /\ no_tab W pa /\ (pa ∉ F') /\
  (forall j, 0 <= j < 512 -> vphys m' !! slot pa j = Some 0).

Lemma taken_page k W F m pa F' m' :
  vm_inv k W F m -> taken k W F m pa F' m' -> page_ok (vm_pmm m') pa /\ page_in pa m' /\ no_tab W pa /\ pa ∉ F'.
Proof.
  intros Hi (HF & Hi' & Hk & _ & _). assert (pa ∈ F) as Hpa by (rewrite HF; set_solver).
  destruct (inv_free_page k W F m Hi pa Hpa) as (Hp & [Ht Hw] & Hn). split_and!.
  - by eapply vkeep_page.
  - split; [by eapply vkeep_tp|]. intros j Hj. apply (vkeep_dom _ _ _ Hk). by apply Hw.
  - done.
  - pose proof (pmm_ok_nodup _ _ (vi_pmm _ _ _ _ Hi)) as Hd. rewrite HF in Hd. by apply NoDup_cons in Hd as [? _].
Qed.

Lemma wp_alloc_table k W F m Q :
  vm_inv k W F m -> (F = [] -> Q 0 m) -> (forall pa F' m', pa <> 0 -> fresh_table k W F m pa F' m' -> Q pa m') ->
  wp alloc_table Q m.
Proof.
  intros Hi HQ0 HQ. unfold alloc_table. apply wp_bind, (wp_page_alloc k W F m Hi).
  { intros HF. cbn. by apply wp_ret, HQ0. }
  intros pa F' m1 Hpa Ht. rewrite (proj2 (Z.eqb_neq _ _)) by done.
  destruct (taken_page k W F m pa F' m1 Hi Ht) as (Hp & Hin & Hn & Hf).
  apply wp_bind. rewrite <-(slot_0 pa) at 1. apply wp_fill_words; [done|lia|rewrite PT_WORDS_512; lia|]. apply wp_ret.
  apply (HQ pa F'); [done|]. destruct Ht as (HF & Hi1 & Hk1 & Hfl & Hfr).
  destruct (inv_put_page k W F' m1 Hi1 pa PT_WORDS 0 (fun _ => 0) Hin Hn Hf) as [Hi2 Hk2]; [lia|rewrite PT_WORDS_512; lia|].
  split_and!.
  - split_and!; [done|done|by etrans|done|]. intros a Ha. rewrite vphys_set, put_words_page; [by apply Hfr|apply Hp|lia|rewrite PT_WORDS_512; lia|].
    intros E. apply Ha. rewrite E, HF. set_solver.
  - by apply page_in_put; [|lia|rewrite PT_WORDS_512; lia].
  - by eapply vkeep_page.
  - done.
  - done.
  - intros j Hj. rewrite vphys_set. apply put_words_in. rewrite PT_WORDS_512; lia.
Qed.
