(* ===== verification/VmmEntry.v ===== *)
(** One level of the walk: an entry that is absent, private, or shared with the
    template, and the private copies the walk makes of shared tables. *)
From stdpp Require Import base gmap list strings.
From Stdlib Require Import ZArith Lia.
From S2P Require Import Prelude CapTypes Pmm PmmInv PmmOps PmmBoot PmmSelf PmmSys Vmm VmmTables.

(** * The walk grows the tables and changes nothing an address space sees. *)

Lemma vidx_lvl l va : 0 <= vidx (shift_of l) va < 512.
Proof. apply vidx_bound. unfold shift_of. lia. Qed.

Lemma vm_inv_flush k W F m l : vm_inv k W F m -> vm_inv k W F (set_flushed l m).
Proof. intros []. by split. Qed.

Lemma grow_flush k W F m W' F' m' va :
  grow k W F m W' F' m' -> grow k W F m W' F' (set_flushed (vm_flushed m' ++ [va]) m').
Proof.
  intros [A1 A2 A3 A4 AF A5 A6 A7 A8 A9]. split; try done; [by apply vm_inv_flush|].
  etrans; [exact A5|]. split; try done; [by apply prefix_app_r|]. exists []. apply pstep_refl.
Qed.

Section Hang.
Context (k : Z) (W : tabs) (F : list Z) (m : vmm_mem) (Hi : vm_inv k W F m).
Context (r : Z) (L : nat) (c t i e : Z).
Context (Ht : W !! (r, S L, c) = Some t) (Hidx : 0 <= i < 512) (He : vphys m !! slot t i = Some e).

Lemma hang_L : (L <= 2)%nat.
Proof. destruct (pt_lvl _ _ _ (vi_pt _ _ _ _ Hi) _ _ _ _ Ht). lia. Qed.

(** A new table with entries [f] is hung below entry [i] of [t]. *)
Section New.
Context (n : Z) (F1 : list Z) (m1 : vmm_mem) (f : Z -> Z) (e' : Z).
Context (Hfresh : fresh_table k W F m n F1 m1).
Context (HN : W !! (r, L, c * 512 + i) = None).
Context (HP' : has e' PTE_P = true) (HS' : has e' PTE_PS = false) (Ha' : addr e' = n).
Context (HfU : has e PTE_U = true -> has e' PTE_U = true) (HfW : has e PTE_W = true -> has e' PTE_W = true).
Context (Hker : r = k -> has e PTE_P = true -> has e PTE_PS = true).
Context (Hf : forall j, 0 <= j < 512 ->
  match L with
  | O => True
  | S _ => has (f j) PTE_P = true ->
           if has (f j) PTE_PS then L = 1%nat /\ large_ok (f j)
           else r <> k /\ exists tk, W !! (k, L, c * 512 + i) = Some tk /\ vphys m !! slot tk j = Some (f j)
  end).

Definition hung : gmap Z Z := <[slot t i := e']> (put_words PT_WORDS 0 n f (vphys m1)).

Lemma hung_tab x t' j : W !! x = Some t' -> 0 <= j < 512 -> slot t' j <> slot t i -> hung !! slot t' j = vphys m !! slot t' j.
Proof.
  intros Hx Hj Hne. destruct (inv_tab_page k W F m Hi x t' j Hx Hj) as [E Hout].
  destruct Hfresh as ((HF & _ & _ & _ & Hfr) & _ & Hp & Hn & _). unfold hung. rewrite lookup_insert_ne by done.
  rewrite put_words_page; [apply Hfr; by rewrite E|apply Hp|lia|rewrite PT_WORDS_512; lia|].
  rewrite E. intros ->. by apply (Hn x).
Qed.

Lemma hung_new j : 0 <= j < 512 -> hung !! slot n j = Some (f j).
Proof.
  intros Hj. destruct Hfresh as ((HF & _ & _ & _ & Hfr) & _ & Hp & Hn & _). unfold hung. rewrite lookup_insert_ne.
  - apply put_words_in. rewrite PT_WORDS_512. lia.
  - intros E. destruct (vi_tab _ _ _ _ Hi _ _ Ht) as [Htp _]. apply slot_ne in E as [-> _]; try done.
    + by apply (Hn (r, S L, c)).
    + apply Htp.
    + apply Hp.
Qed.

(** Below level [L] nothing changed. *)
Lemma hung_low o l t' va : (l <= L)%nat -> W !! (o, l, key l va) = Some t' -> hwleaf hung l t' va = hwleaf (vphys m) l t' va.
Proof.
  intros Hl Ho. apply (hw_agree (vphys m) k W (vi_pt _ _ _ _ Hi) hung o l va t' Ho).
  intros o' l' c' t2 j e0 _ Hl' Hx Hj E0. exists e0. split; [|by left]. rewrite <-E0. apply (hung_tab _ _ _ Hx Hj).
  intros E. destruct (pt_slot _ _ _ (vi_pt _ _ _ _ Hi) _ _ _ _ _ _ Ht Hx Hidx Hj E) as (Ex & _). injection Ex as _ <- _. lia.
Qed.

Context (Hstep : forall va, key (S L) va = c -> vidx (shift_of (S L)) va = i ->
  hwstep hung L (f (vidx (shift_of L) va)) va = hwstep (vphys m) (S L) e va).

Lemma hang_grow : grow k W F m (<[(r, L, c * 512 + i) := n]> W) F1 (set_vphys hung m1).
Proof.
  pose proof hang_L as HL. pose proof Hfresh as ((HF & Hi1 & Hk1 & _ & Hfr) & Hin & Hp & Hn & Hf1 & _).
  destruct (inv_put_page k W F1 m1 Hi1 n PT_WORDS 0 f Hin Hn Hf1) as [Hi2 Hk2]; [lia|rewrite PT_WORDS_512; lia|].
  destruct (vi_tab _ _ _ _ Hi2 _ _ Ht) as [Htp Ht1].
  assert (page_of (slot t i) = t) as Hpg by (apply slot_page; [apply Htp|done]).
  assert (forall a, page_of a ∉ F -> page_of a <> t -> hung !! a = vphys m !! a) as Hout.
  { intros a Ha Hne. unfold hung. rewrite lookup_insert_ne by congruence.
    rewrite put_words_page; [by apply Hfr|apply Hp|lia|rewrite PT_WORDS_512; lia|]. intros E. apply Ha. rewrite E, HF. set_solver. }
  destruct (pmm_ok_store (vm_pmm (set_vphys (put_words PT_WORDS 0 n f (vphys m1)) m1)) F1 (slot t i) e' (vi_pmm _ _ _ _ Hi2))
    as [Hok3 Hs3]; [by rewrite Hpg| |].
  { change (is_Some (put_words PT_WORDS 0 n f (vphys m1) !! slot t i)). apply (vkeep_dom _ _ (slot t i) Hk2).
    apply (vkeep_dom _ _ (slot t i) Hk1). by exists e. }
  change (pmm_ok (vm_pmm (set_vphys hung m1)) F1) in Hok3.
  assert (vkeep (set_vphys (put_words PT_WORDS 0 n f (vphys m1)) m1) (set_vphys hung m1)) as Hk3.
  { split; try done. by exists [page_of (slot t i)]. }
  assert (vkeep m (set_vphys hung m1)) as Hk by (etrans; [exact Hk1|]; etrans; [exact Hk2|exact Hk3]).
  split.
  - split; try done.
    + intros x j Hx Hj. apply (vkeep_dom _ _ _ Hk), (vi_full _ _ _ _ Hi); [rewrite HF; set_solver|done].
    + apply (vi_ker _ _ _ _ Hi1).
    + apply (vi_kcr3 _ _ _ _ Hi1).
    + rewrite vphys_set. eapply (pt_new_table (vphys m) k W (vi_pt _ _ _ _ Hi) hung r L c t i e e' n); try done.
      * unfold hung. by rewrite lookup_insert_eq.
      * intros x t' j. apply hung_tab.
      * apply Hp.
      * intros j Hj. exists (f j). split; [by apply hung_new|by apply Hf].
    + intros x t' Hx. apply lookup_insert_Some in Hx as [[_ <-]|[_ Hx]].
      * split; [|done]. eapply (vkeep_tp m1); [by etrans|]. by apply page_tp.
      * destruct (vi_tab _ _ _ _ Hi2 _ _ Hx). split; [by eapply (vkeep_tp _ _ _ Hk3)|done].
    + intros o l c' t' Hx Ho. apply lookup_insert_Some in Hx as [[_ <-]|[_ Hx]].
      * eapply (vkeep_page m1); [by etrans|done].
      * eapply (vkeep_page m); [done|]. by eapply (vi_priv _ _ _ _ Hi).
  - by apply insert_subseteq.
  - intros o. rewrite lookup_insert_ne; [done|]. intros Ex. injection Ex as _ Ex _. lia.
  - intros o l t' va Ho. rewrite vphys_set.
    eapply (hw_retarget (vphys m) k W (vi_pt _ _ _ _ Hi) hung r (S L) c t i e e' va); try done.
    + unfold hung. by rewrite lookup_insert_eq.
    + intros x t2 j. apply hung_tab.
    + intros Hc Hv. unfold hwstep at 1. rewrite HP', HS', Ha'. cbn [negb].
      rewrite (hwleaf_step hung L n va (f (vidx (shift_of L) va))) by apply hung_new, vidx_lvl. by apply Hstep.
  - intros x t' j e0 Hx Hj E0. rewrite vphys_set. destruct (decide (slot t' j = slot t i)) as [Es|Es].
    + rewrite Es in *. rewrite He in E0. injection E0 as <-. exists e'. unfold hung. by rewrite lookup_insert_eq.
    + rewrite (hung_tab _ _ _ Hx Hj Es). eauto.
  - done.
  - intros a Ha Hna. apply Hout; [done|]. intros E. apply (Hna (r, S L, c)). by rewrite E.
  - rewrite HF. set_solver.
  - intros x Hx. rewrite HF in Hx. apply elem_of_cons in Hx as [->|Hx]; [right|by left].
    exists (r, L, c * 512 + i). by rewrite lookup_insert_eq.
  - intros x t' Hx. apply lookup_insert_Some in Hx as [[_ <-]|[_ Hx]]; [right|by left]. rewrite HF. set_solver.
Qed.
End New.
End Hang.

(** * The steps of the walk at one entry: a private copy, an empty table, a split
    large page, the user flags. *)

(** ** Bits of the entries the code builds *)
Ltac bits := rewrite ?has_P, ?has_W, ?has_U, ?has_PS, ?has_COW, ?has_NX in *.

Definition PWU : Z := Z.lor PTE_P (Z.lor PTE_W PTE_U).

Lemma has_lor x y b : has (Z.lor x y) (2 ^ b) = has x (2 ^ b) || has y (2 ^ b).
Proof.
  destruct (Z.leb_spec 0 b) as [Hb|Hb].
  - by rewrite !has_bit, Z.lor_spec by done.
  - unfold has. rewrite Z.pow_neg_r by done. by rewrite !Z.land_0_r.
Qed.

Lemma table_entry n : frame n ->
  has (Z.lor n PWU) PTE_P = true /\ has (Z.lor n PWU) PTE_PS = false /\ addr (Z.lor n PWU) = n /\
  has (Z.lor n PWU) PTE_U = true /\ has (Z.lor n PWU) PTE_W = true.
Proof. intros Hn. bits. rewrite !bit_lor_frame by (done || lia). split_and!; try done. by apply addr_lor. Qed.

Lemma copy_entry n e : frame n -> let e' := Z.lor (addr n) (Z.ldiff e PTE_ADDR_MASK) in
  has e' PTE_P = has e PTE_P /\ has e' PTE_PS = has e PTE_PS /\ addr e' = n /\
  has e' PTE_U = has e PTE_U /\ has e' PTE_W = has e PTE_W.
Proof.
  intros Hn e'. subst e'. rewrite addr_frame by done. bits. rewrite !bit_lor_frame, !bit_ldiff_mask by (done || lia).
  split_and!; try done. apply addr_lor; [done|apply addr_ldiff].
Qed.

Lemma flag_entry e : let e' := Z.lor e (Z.lor PTE_U PTE_W) in
  has e' PTE_P = has e PTE_P /\ has e' PTE_PS = has e PTE_PS /\ addr e' = addr e /\
  has e' PTE_U = true /\ has e' PTE_W = true.
Proof.
  intros e'. subst e'. bits. rewrite !Z.lor_spec. cbn. rewrite !orb_false_r, !orb_true_r. split_and!; try done.
  by apply addr_or_flags.
Qed.

Lemma ent_own ph k W r L c i e n :
  ent_ok ph k W r (S L) c i e -> W !! (r, L, c * 512 + i) = Some n ->
  has e PTE_P = true /\ has e PTE_PS = false /\ addr e = n.
Proof. simpl. intros H E. by rewrite E in H. Qed.

(** Entry [j] of the table that replaces the large leaf [e]. *)
Definition split_ent (e j : Z) : Z :=
  Z.lor (u64_add (Z.land e PTE_ADDR_MASK) (j * GJ_PAGE_SIZE)) (Z.lor PTE_P (Z.land e (Z.lor PTE_W (Z.lor PTE_U PTE_NX)))).

Lemma large_frame e j : large_ok e -> 0 <= j < 512 -> frame (addr e + j * GJ_PAGE_SIZE) /\
  u64_add (addr e) (j * GJ_PAGE_SIZE) = addr e + j * GJ_PAGE_SIZE.
Proof.
  intros [Ha _] Hj. pose proof (frame_addr e) as [_ Hb]. unfold frame, u64_add, u64_wrap, GJ_PAGE_SIZE.
  assert (addr e + j * 4096 < 2 ^ 52) by (Z.div_mod_to_equations; lia).
  split_and!; [|lia|done|].
  - Z.div_mod_to_equations. lia.
  - apply Z.mod_small. split; [lia|]. eapply Z.lt_trans; [done|]. by apply Z.pow_lt_mono_r.
Qed.

Lemma split_leaf e j : large_ok e -> 0 <= j < 512 ->
  has (split_ent e j) PTE_P = true /\
  leaf_at (addr (split_ent e j)) (split_ent e j) = leaf_at (addr e + j * GJ_PAGE_SIZE) e.
Proof.
  intros Hl Hj. destruct (large_frame e j Hl Hj) as [Hf Hu]. destruct Hl as [_ HC]. unfold split_ent. fold (addr e). rewrite Hu.
  assert (addr (Z.lor PTE_P (Z.land e (Z.lor PTE_W (Z.lor PTE_U PTE_NX)))) = 0) as H0.
  { unfold addr. rewrite Z.land_lor_distr_l, <-Z.land_assoc. cbn. apply Z.land_0_r. }
  split.
  - bits. rewrite bit_lor_frame by (done || lia). by rewrite Z.lor_spec.
  - unfold leaf_at. rewrite addr_lor by done. bits.
    rewrite (bit_lor_frame _ _ 1), (bit_lor_frame _ _ 2), (bit_lor_frame _ _ 63), (bit_lor_frame _ _ 9) by (done || lia).
    rewrite !Z.lor_spec, !Z.land_spec, !Z.lor_spec, HC.
    generalize (Z.testbit e 1), (Z.testbit e 2), (Z.testbit e 63). intros b1 b2 b3. cbn. by rewrite !andb_true_r.
Qed.

(** No address space but the template's. *)
Definition solo (k : Z) (W : tabs) : Prop := forall o l c t, W !! (o, l, c) = Some t -> o = k.

Section Entry.
Context (k : Z) (W : tabs) (F : list Z) (m : vmm_mem) (Hi : vm_inv k W F m).
Context (r : Z) (L : nat) (c t i : Z).
Context (Ht : W !! (r, S L, c) = Some t) (Hidx : 0 <= i < 512).

Lemma entry_read : exists e, vphys m !! slot t i = Some e /\ ent_ok (vphys m) k W r (S L) c i e.
Proof. by apply (pt_ent _ _ _ (vi_pt _ _ _ _ Hi)). Qed.

Lemma entry_tp : tp_ok (vm_pmm m) t.
Proof. apply (vi_tab _ _ _ _ Hi _ _ Ht). Qed.

(** A word of a table is written. *)
Lemma inv_word e' l x :
  W !! (x, l, c) = Some t -> pt_ok (<[slot t i := e']> (vphys m)) k W ->
  vm_inv k W F (set_vphys (<[slot t i := e']> (vphys m)) m) /\ vkeep m (set_vphys (<[slot t i := e']> (vphys m)) m).
Proof.
  intros Hx Hpt. destruct (inv_tab_page k W F m Hi _ t i Hx Hidx) as [Hpg Hout].
  destruct (pt_ent _ _ _ (vi_pt _ _ _ _ Hi) _ _ _ _ i Hx Hidx) as (e & E & _).
  destruct (pmm_ok_store (vm_pmm m) F (slot t i) e' (vi_pmm _ _ _ _ Hi)) as [Hok Hs]; [by rewrite Hpg|by exists e|].
  assert (vkeep m (set_vphys (<[slot t i := e']> (vphys m)) m)) as Hk by (apply vkeep_pmm; by exists [page_of (slot t i)]).
  split; [|done]. destruct Hi as [H1 H2 H3 H4 H5 H6 H7]. split; try done.
  - intros y j Hy Hj. by apply (vkeep_dom _ _ _ Hk), H2.
  - intros y t' Hy. destruct (H6 y t' Hy). split; [by eapply vkeep_tp|done].
  - intros o l' c' t' Hy Ho. eapply vkeep_page; [done|]. by eapply H7.
Qed.

Lemma same_but_insert e' : same_but (vphys m) W (<[slot t i := e']> (vphys m)) t i.
Proof. intros x t' j _ _ Hne. by rewrite lookup_insert_ne. Qed.

Lemma wp_ensure_user_flag Q :
  is_Some (W !! (r, L, c * 512 + i)) -> r <> k \/ solo k W ->
  (forall m', grow k W F m W F m' -> (exists e, vphys m' !! slot t i = Some e /\ has e PTE_U = true /\ has e PTE_W = true) ->
     Q tt m') ->
  wp (ensure_user_flag (slot t i)) Q m.
Proof.
  intros [n Hn] Hsolo HQ. destruct entry_read as (e & E & Hent). destruct (ent_own _ _ _ _ _ _ _ _ _ Hent Hn) as (HP & HS & Ha).
  unfold ensure_user_flag. apply wp_bind. apply (wp_rd t i e); [apply entry_tp|done|done|]. rewrite HP.
  apply wp_wr; [apply entry_tp|done|by exists e|]. set (e' := Z.lor e _). pose proof (flag_entry e) as He'. fold e' in He'. simpl in He'.
  destruct He' as (HP' & HS' & Ha' & HU' & HW'). rewrite HP in HP'. rewrite HS in HS'. apply HQ.
  2: { exists e'. split; [|done]. rewrite vphys_set. by rewrite lookup_insert_eq. }
  destruct (inv_word e' (S L) r Ht) as [Hi' Hk'].
  { eapply (pt_word (vphys m) k W (vi_pt _ _ _ _ Hi)); [exact Ht|done|exact E|by rewrite lookup_insert_eq|apply same_but_insert| |].
    - destruct Hsolo as [?|Hs]; [by left|right; right]. exact Hs.
    - intros _. simpl. rewrite Hn. by rewrite Ha'. }
  split; try done.
  - intros o l t' va Ho. rewrite vphys_set. apply (hw_agree (vphys m) k W (vi_pt _ _ _ _ Hi) _ o l va t' Ho).
    intros o' l' c' t2 j e0 _ _ Hx Hj E0. destruct (decide (slot t2 j = slot t i)) as [Es|Es].
    + rewrite Es in *. rewrite E in E0. injection E0 as <-. exists e'. rewrite lookup_insert_eq. split; [done|]. right.
      destruct (pt_slot _ _ _ (vi_pt _ _ _ _ Hi) _ _ _ _ _ _ Ht Hx Hidx Hj Es) as (Ex & _). injection Ex as _ <- _. done.
    + exists e0. rewrite lookup_insert_ne by done. split; [done|by left].
  - intros x t' j e0 Hx Hj E0. rewrite vphys_set. destruct (decide (slot t' j = slot t i)) as [Es|Es].
    + rewrite Es, lookup_insert_eq. by exists e'.
    + rewrite lookup_insert_ne by done. eauto.
  - intros a Ha0 Hna. rewrite vphys_set, lookup_insert_ne; [done|]. intros <-. apply (Hna (r, S L, c)).
    by rewrite (proj1 (inv_tab_page k W F m Hi _ _ _ Ht Hidx)).
  - auto.
  - auto.
Qed.

(** An absent entry gets an empty table. *)
Lemma wp_fill_entry e Q :
  vphys m !! slot t i = Some e -> has e PTE_P = false ->
  (F = [] -> Q false m) ->
  (forall W' F' m', grow k W F m W' F' m' -> is_Some (W' !! (r, L, c * 512 + i)) -> Q true m') ->
  wp (pa <- alloc_table ;;
      if pa =? 0 then pret false else wr (slot t i) (Z.lor pa (Z.lor PTE_P (Z.lor PTE_W PTE_U))) ;;; pret true) Q m.
Proof.
  intros E HP HQ0 HQ. destruct (entry_read) as (e0 & E0 & Hent). rewrite E in E0. injection E0 as <-.
  apply wp_bind, (wp_alloc_table k W F m); [done|intros HF; by apply wp_ret, HQ0|]. intros n F1 m1 Hn Hfr.
  rewrite (proj2 (Z.eqb_neq _ _)) by done. pose proof Hfr as ((HF & Hi1 & Hk1 & _ & _) & Hin & Hp & Hnt & Hf1 & Hz).
  fold PWU. destruct (table_entry n) as (HP' & HS' & Ha' & HU' & HW'); [by eapply tp_frame, page_tp|].
  apply wp_bind, wp_wr; [by eapply vkeep_tp, entry_tp|done|apply (vkeep_dom _ _ _ Hk1); by exists e|]. apply wp_ret.
  assert (vphys m1 = put_words PT_WORDS 0 n (fun _ => 0) (vphys m1)) as Hput.
  { rewrite put_words_same; [done|]. rewrite PT_WORDS_512. intros j Hj. apply Hz. lia. }
  rewrite Hput. eapply HQ; [|by rewrite lookup_insert_eq].
  apply (hang_grow k W F m Hi r L c t i e Ht Hidx E n F1 m1 (fun _ => 0) (Z.lor n PWU) Hfr).
  - destruct (W !! (r, L, c * 512 + i)) as [t'|] eqn:Et; [|done]. destruct (ent_own _ _ _ _ _ _ _ _ _ Hent Et). congruence.
  - exact HP'.
  - exact HS'.
  - exact Ha'.
  - intros _. exact HU'.
  - intros _. exact HW'.
  - intros _. congruence.
  - intros j Hj. by destruct L.
  - intros va _ _. unfold hwstep. by rewrite HP.
Qed.

(** A private copy of a table that is still the template's. *)
Section Copy.
Context (tk ke : Z).
Context (Hrk : r <> k) (Htk : W !! (k, S L, c) = Some tk) (Hke : vphys m !! slot tk i = Some ke).
Context (E : vphys m !! slot t i = Some ke) (HP : has ke PTE_P = true) (HS : has ke PTE_PS = false).

Lemma copy_child : W !! (k, L, c * 512 + i) = Some (addr ke).
Proof.
  destruct (ent_next (vphys m) k W (vi_pt _ _ _ _ Hi) k L c tk i ke Htk Hidx Hke HP HS) as (o & Ho & Hck).
  by destruct Ho as [->| ->].
Qed.

Lemma copy_none : W !! (r, L, c * 512 + i) = None.
Proof.
  destruct entry_read as (e & E0 & Hent). rewrite E in E0. injection E0 as <-.
  destruct (W !! (r, L, c * 512 + i)) as [n0|] eqn:En; [|done].
  destruct (ent_own _ _ _ _ _ _ _ _ _ Hent En) as (_ & _ & <-).
  pose proof (pt_inj _ _ _ (vi_pt _ _ _ _ Hi) _ _ _ En copy_child) as Ex. by injection Ex as ->.
Qed.

Definition copied (j : Z) : Z := default 0 (vphys m !! slot (addr ke) j).

Lemma copied_at j : 0 <= j < 512 -> vphys m !! slot (addr ke) j = Some (copied j).
Proof.
  intros Hj. destruct (pt_ent _ _ _ (vi_pt _ _ _ _ Hi) _ _ _ _ j copy_child Hj) as (ej & Ej & _). unfold copied. by rewrite Ej.
Qed.

Lemma copy_grow n F1 m1 : fresh_table k W F m n F1 m1 ->
  grow k W F m (<[(r, L, c * 512 + i) := n]> W) F1
    (set_vphys (hung t i n m1 copied (Z.lor (addr n) (Z.ldiff ke PTE_ADDR_MASK))) m1).
Proof.
  intros Hfr. pose proof Hfr as (_ & _ & Hp & _). pose proof copy_child as Hck.
  destruct (copy_entry n ke) as (HP' & HS' & Ha' & HU' & HW'); [by eapply tp_frame, page_tp|].
  set (e' := Z.lor (addr n) _) in *.
  apply (hang_grow k W F m Hi r L c t i ke Ht Hidx E n F1 m1 copied e' Hfr copy_none).
  - by rewrite HP'.
  - by rewrite HS'.
  - exact Ha'.
  - by rewrite HU'.
  - by rewrite HW'.
  - done.
  - intros j Hj. pose proof (pt_ent _ _ _ (vi_pt _ _ _ _ Hi) _ _ _ _ j Hck Hj) as (ej & Ej & Hej).
    pose proof (copied_at j Hj) as Hcj. rewrite Hcj in Ej. injection Ej as <-. destruct L as [|L']; [done|]. simpl in Hej. intros HPj.
    assert (r <> k /\ exists tk0, W !! (k, S L', c * 512 + i) = Some tk0 /\ vphys m !! slot tk0 j = Some (copied j)) as Hsh.
    { split; [done|]. by exists (addr ke). }
    destruct (W !! (k, L', (c * 512 + i) * 512 + j)).
    + destruct Hej as (_ & -> & _). done.
    + specialize (Hej HPj). destruct (has (copied j) PTE_PS); [|done]. destruct Hej as [-> ?]. done.
  - intros va Hc Hv. unfold hwstep at 2. rewrite HP, HS. cbn [negb].
    assert (W !! (k, L, key L va) = Some (addr ke)) as Hck'.
    { rewrite (key_child L va), Hc, Hv; [done|]. pose proof (hang_L k W F m Hi r L c t Ht). lia. }
    rewrite <-(hung_low k W F m Hi r L c t i Ht Hidx n F1 m1 copied e' Hfr k L (addr ke) va) by done.
    symmetry. apply hwleaf_step.
    rewrite (hung_tab k W F m Hi t i n F1 m1 copied e' Hfr _ _ _ Hck (vidx_lvl L va)); [apply copied_at, vidx_lvl|].
    intros Es. destruct (pt_slot _ _ _ (vi_pt _ _ _ _ Hi) _ _ _ _ _ _ Ht Hck Hidx (vidx_lvl L va) Es) as (Ex & _).
    injection Ex as _ Ex _. lia.
Qed.
End Copy.

(** Entries of tables after a page has been taken. *)
Lemma fresh_tab n F1 m1 x t' j :
  fresh_table k W F m n F1 m1 -> W !! x = Some t' -> 0 <= j < 512 -> vphys m1 !! slot t' j = vphys m !! slot t' j.
Proof. intros ((_ & _ & _ & _ & Hs) & _) Hx Hj. apply Hs. by destruct (inv_tab_page k W F m Hi x t' j Hx Hj) as [-> ?]. Qed.

Lemma fresh_put n F1 m1 f : fresh_table k W F m n F1 m1 ->
  put_words PT_WORDS 0 n f (vphys m1) !! slot t i = vphys m !! slot t i.
Proof.
  intros Hfr. pose proof Hfr as (_ & _ & Hp & Hnt & _). rewrite put_words_page; [by eapply fresh_tab|apply Hp|lia|rewrite PT_WORDS_512; lia|].
  rewrite slot_page by (done || apply entry_tp). intros <-. by apply (Hnt _ Ht).
Qed.

Lemma wp_cow_table_entry tk ke Q :
  r <> k -> W !! (k, S L, c) = Some tk -> vphys m !! slot tk i = Some ke ->
  (F = [] -> Q GJ_ERR_NOMEM m) ->
  (forall W' F' m', grow k W F m W' F' m' ->
     (forall e, vphys m !! slot t i = Some e -> has e PTE_P = true -> has e PTE_PS = false -> is_Some (W' !! (r, L, c * 512 + i))) ->
     (forall e, vphys m !! slot t i = Some e -> has e PTE_PS = true -> m' = m /\ W' = W /\ F' = F) ->
     Q GJ_OK m') ->
  wp (cow_table_entry (slot t i) ke) Q m.
Proof.
  intros Hrk Htk Hke HQ0 HQ. destruct entry_read as (e & E & Hent). unfold cow_table_entry.
  apply wp_bind, (wp_rd t i e); [apply entry_tp|done|done|].
  destruct (has e PTE_P) eqn:HP; cbn [negb].
  2: { apply wp_ret, (HQ W F); [by apply grow_refl| |]; intros e0 E0; rewrite E in E0; injection E0 as <-; [congruence|done]. }
  destruct (has e PTE_PS) eqn:HS.
  { apply wp_ret, (HQ W F); [by apply grow_refl| |]; intros e0 E0; rewrite E in E0; injection E0 as <-; [congruence|done]. }
  destruct (Z.eqb_spec e ke) as [->|Hne]; cbn [negb].
  2: { apply wp_ret, (HQ W F); [by apply grow_refl| |]; intros e0 E0; rewrite E in E0; injection E0 as <-; [|congruence].
       intros _ _. simpl in Hent. destruct (W !! (r, L, c * 512 + i)); [by eexists|]. specialize (Hent HP). rewrite HS in Hent.
       destruct Hent as (_ & tk' & Htk' & Ek). congruence. }
  pose proof (copy_child tk ke Htk Hke HP HS) as Hck.
  apply wp_bind, (wp_alloc_table k W F m); [done|intros HF; by apply wp_ret, HQ0|]. intros n F1 m1 Hn Hfr.
  rewrite (proj2 (Z.eqb_neq _ _)) by done. pose proof Hfr as ((HF & Hi1 & Hk1 & _) & Hin & Hp & Hnt & Hf1 & Hz).
  assert (tp_ok (vm_pmm m1) (addr ke)) as Htpk by (apply (vi_tab _ _ _ _ Hi1 _ _ Hck)).
  assert (tp_ok (vm_pmm m1) t) as Htp by (by eapply vkeep_tp, entry_tp).
  apply wp_bind, (wp_rd t i ke); [done|done|by rewrite (fresh_tab _ _ _ _ _ _ Hfr Ht)|]. fold (addr ke).
  rewrite <-(slot_0 n) at 1. rewrite <-(slot_0 (addr ke)) at 1.
  apply wp_bind, (wp_copy_words n (addr ke) (copied ke)); [done|done|intros <-; by apply (Hnt _ Hck)|lia|rewrite PT_WORDS_512; lia| |].
  { rewrite PT_WORDS_512. intros j Hj. rewrite (fresh_tab _ _ _ _ _ _ Hfr Hck) by lia. eapply copied_at; [exact Htk|done..|lia]. }
  pose proof (fresh_put n F1 m1 (copied ke) Hfr) as Ept. rewrite E in Ept.
  apply wp_bind, (wp_rd t i ke); [exact (tp_set_phys _ _ _ Htp)|done|exact Ept|].
  apply wp_bind, wp_wr; [exact (tp_set_phys _ _ _ Htp)|done|exists ke; exact Ept|]. rewrite vphys_set, set_vphys_set. wsteps. fold (addr n).
  eapply HQ; [by eapply (copy_grow tk)|intros e0 E0 _ _; by rewrite lookup_insert_eq|].
  intros e0 E0; rewrite E in E0; injection E0 as <-; congruence.
Qed.
End Entry.

(** A large leaf is replaced by a table of the same 4 KiB leaves. *)
Lemma wp_split_large_pde k W F m r c t i e va0 Q :
  vm_inv k W F m -> W !! (r, 1%nat, c) = Some t -> 0 <= i < 512 -> vphys m !! slot t i = Some e ->
  has e PTE_P = true -> has e PTE_PS = true ->
  (F = [] -> Q GJ_ERR_NOMEM m) ->
  (forall n F' m', grow k W F m (<[(r, 0%nat, c * 512 + i) := n]> W) F' m' -> Q GJ_OK m') ->
  wp (split_large_pde (slot t i) va0) Q m.
Proof.
  intros Hi Ht Hidx E HP HS HQ0 HQ. destruct (entry_read k W F m Hi r 0 c t i Ht Hidx) as (e0 & E0 & Hent).
  rewrite E in E0. injection E0 as <-. pose proof (entry_tp k W F m Hi r 0 c t Ht) as Htp.
  unfold split_large_pde. apply wp_bind, (wp_rd t i e); [done|done|done|]. rewrite HP, HS. cbn [negb].
  assert (W !! (r, 0%nat, c * 512 + i) = None /\ large_ok e) as [HN Hlg].
  { simpl in Hent. destruct (W !! (r, 0%nat, c * 512 + i)); [destruct Hent as (_ & ? & _); congruence|].
    specialize (Hent HP). rewrite HS in Hent. by destruct Hent. }
  apply wp_bind, (wp_alloc_table k W F m); [done|intros HF; by apply wp_ret, HQ0|]. intros n F1 m1 Hn Hfr.
  rewrite (proj2 (Z.eqb_neq _ _)) by done. pose proof Hfr as ((HF & Hi1 & Hk1 & _) & Hin & Hp & Hnt & Hf1 & Hz).
  apply wp_bind, wp_split_fill; [done|lia|rewrite PT_WORDS_512; lia|]. fold (split_ent e).
  pose proof (fresh_put k W F m Hi r 0 c t i Ht Hidx n F1 m1 (split_ent e) Hfr) as Ept. rewrite E in Ept.
  assert (tp_ok (vm_pmm m1) t) as Htp1 by (by eapply vkeep_tp).
  apply wp_bind, wp_wr; [exact (tp_set_phys _ _ _ Htp1)|done|exists e; exact Ept|]. rewrite vphys_set, set_vphys_set. fold PWU.
  unfold vmm_tlb_flush_page. wsteps. eapply HQ, grow_flush.
  destruct (table_entry n) as (HP' & HS' & Ha' & HU' & HW'); [by eapply tp_frame, page_tp|].
  apply (hang_grow k W F m Hi r 0 c t i e Ht Hidx E n F1 m1 (split_ent e) (Z.lor n PWU) Hfr HN); [exact HP'|exact HS'|exact Ha'|intros _; exact HU'|intros _; exact HW'|intros _ _; exact HS|intros; exact I|].
  intros va Hc Hv. destruct (split_leaf e (vidx (shift_of 0) va) Hlg (vidx_lvl 0 va)) as [HPs Hls].
  unfold hwstep. rewrite HPs, HP, HS, Hls. cbn [negb]. f_equal. unfold large_pa. by rewrite (vidx_div 12).
Qed.

(** * The walk of [walk_pte], creating and reading. *)

(** [r] is the root of the active address space. *)
Definition active (W : tabs) (m : vmm_mem) (r : Z) : Prop := addr (vm_cr3 m) = r /\ W !! (r, 3%nat, 0) = Some r.

Lemma active_grow k W F m W' F' m' r : grow k W F m W' F' m' -> active W m r -> active W' m' r.
Proof.
  intros Hg [Ha Hr]. split; [by rewrite (vk_cr3 _ _ (gr_keep _ _ _ _ _ _ _ Hg))|]. by rewrite (gr_roots _ _ _ _ _ _ _ Hg).
Qed.

(** The entry above [va] in the table of [r] at level [l] gives user and write
    permission. *)
Definition uw (W : tabs) (m : vmm_mem) (r : Z) (l : nat) (va : Z) : Prop :=
  exists t e, W !! (r, l, key l va) = Some t /\ vphys m !! slot t (vidx (shift_of l) va) = Some e /\
    has e PTE_U = true /\ has e PTE_W = true.

Lemma uw_grow k W F m W' F' m' r l va : grow k W F m W' F' m' -> uw W m r l va -> uw W' m' r l va.
Proof.
  intros Hg (t & e & Ht & He & HU & HW). destruct (gr_flags _ _ _ _ _ _ _ Hg _ _ _ _ Ht (vidx_lvl l va) He) as (e' & E' & HU' & HW').
  exists t, e'. split_and!; [by eapply lookup_weaken; [|apply Hg]|done|auto|auto].
Qed.

Section Path.
Context (k : Z) (W : tabs) (F : list Z) (m : vmm_mem) (Hi : vm_inv k W F m).
Context (r va : Z).

Lemma root_tp o : W !! (o, 3%nat, 0) = Some o -> tp_ok (vm_pmm m) o.
Proof. intros Ho. by apply (vi_tab _ _ _ _ Hi _ _ Ho). Qed.

Lemma k_pos : 0 < k.
Proof. apply (root_tp k), (vi_pt _ _ _ _ Hi). Qed.

Lemma wp_as_is_private Q : active W m r -> Q (negb (r =? k)) m -> wp as_is_private Q m.
Proof.
  intros [Ha _] HQ. unfold as_is_private, read_cr3. wsteps. fold (addr (vm_cr3 m)). rewrite Ha, (vi_kcr3 _ _ _ _ Hi).
  pose proof k_pos. by rewrite (proj2 (Z.eqb_neq k 0)) by lia.
Qed.

Lemma wp_active_pml4 Q : active W m r -> Q r m -> wp active_pml4 Q m.
Proof. intros [Ha _] HQ. unfold active_pml4, read_cr3. wsteps. fold (addr (vm_cr3 m)). by rewrite Ha. Qed.

Lemma tab_read o l t : W !! (o, l, key l va) = Some t ->
  exists e, vphys m !! slot t (vidx (shift_of l) va) = Some e /\ ent_ok (vphys m) k W o l (key l va) (vidx (shift_of l) va) e /\
    tp_ok (vm_pmm m) t.
Proof.
  intros Ht. destruct (pt_ent _ _ _ (vi_pt _ _ _ _ Hi) _ _ _ _ _ Ht (vidx_lvl l va)) as (e & E & He). exists e.
  split_and!; [done|done|]. by apply (vi_tab _ _ _ _ Hi _ _ Ht).
Qed.

Lemma key_next o L t : W !! (o, S L, key (S L) va) = Some t -> key L va = key (S L) va * 512 + vidx (shift_of (S L)) va.
Proof. intros Ht. apply key_child. by destruct (pt_lvl _ _ _ (vi_pt _ _ _ _ Hi) _ _ _ _ Ht). Qed.

(** ** The template's entries *)
Definition ker_res (L : nat) (ko : option Z) : Prop :=
  match W !! (k, S L, key (S L) va) with
  | Some tk => exists ke, ko = Some ke /\ vphys m !! slot tk (vidx (shift_of (S L)) va) = Some ke
  | None => ko = None
  end.

Lemma wp_ker_pml4e Q : (forall ko, ker_res 2 ko -> Q ko m) -> wp (ker_pml4e va) Q m.
Proof.
  intros HQ. unfold ker_pml4e. wsteps. rewrite (vi_ker _ _ _ _ Hi). pose proof (pt_root _ _ _ (vi_pt _ _ _ _ Hi)) as Hk.
  assert (W !! (k, 3%nat, key 3 va) = Some k) as Hk3 by (by rewrite key_root).
  destruct (tab_read k 3 k Hk3) as (e & E & _ & Htp). apply wp_bind, (wp_rd k (vidx 39 va) e); [done|apply (vidx_lvl 3)|done|].
  apply wp_ret, HQ. unfold ker_res. rewrite Hk3. eauto.
Qed.

(** The template's table below a template entry. *)
Lemma ker_below L tk ke : W !! (k, S L, key (S L) va) = Some tk -> vphys m !! slot tk (vidx (shift_of (S L)) va) = Some ke ->
  W !! (k, L, key L va) = if has ke PTE_P && negb (has ke PTE_PS) then Some (addr ke) else None.
Proof.
  intros Ht E. destruct (tab_read k (S L) tk Ht) as (e & E0 & Hent & _). rewrite E in E0. injection E0 as <-.
  rewrite (key_next k L tk Ht). simpl in Hent. destruct (W !! (k, L, _)) as [t|].
  - by destruct Hent as (-> & -> & <-).
  - destruct (has ke PTE_P); [|done]. specialize (Hent eq_refl). destruct (has ke PTE_PS); [done|]. by destruct Hent.
Qed.

Lemma ker_large L tk ke : (1 <= L)%nat ->
  W !! (k, S L, key (S L) va) = Some tk -> vphys m !! slot tk (vidx (shift_of (S L)) va) = Some ke ->
  has ke PTE_P = true -> has ke PTE_PS = false.
Proof.
  intros HL Ht E HP. destruct (tab_read k (S L) tk Ht) as (e & E0 & Hent & _). rewrite E in E0. injection E0 as <-.
  simpl in Hent. destruct (W !! (k, L, _)); [by destruct Hent as (_ & ? & _)|]. specialize (Hent HP).
  destruct (has ke PTE_PS); [destruct Hent; lia|done].
Qed.

Lemma wp_ker_pdpte Q : (forall ko, ker_res 1 ko -> Q ko m) -> wp (ker_pdpte va) Q m.
Proof.
  intros HQ. unfold ker_pdpte. apply wp_bind, wp_ker_pml4e. intros ko Hko. unfold ker_res in Hko.
  destruct (W !! (k, 3%nat, key 3 va)) as [tk|] eqn:Ht.
  2: { rewrite key_root, (pt_root _ _ _ (vi_pt _ _ _ _ Hi)) in Ht. done. }
  destruct Hko as (ke & -> & E). pose proof (ker_below 2 tk ke Ht E) as Hb. pose proof (ker_large 2 tk ke ltac:(lia) Ht E) as Hlg.
  destruct (has ke PTE_P) eqn:HP; cbn [negb].
  - rewrite (Hlg eq_refl) in Hb. cbn in Hb. destruct (tab_read k 2 _ Hb) as (e & E2 & _ & Htp).
    apply wp_bind, (wp_rd (addr ke) (vidx 30 va) e); [done|apply (vidx_lvl 2)|done|]. apply wp_ret, HQ. unfold ker_res. rewrite Hb. eauto.
  - apply wp_ret, HQ. unfold ker_res. by rewrite Hb.
Qed.

Lemma wp_ker_pde Q : (forall ko, ker_res 0 ko -> Q ko m) -> wp (ker_pde va) Q m.
Proof.
  intros HQ. unfold ker_pde. apply wp_bind, wp_ker_pdpte. intros ko Hko. unfold ker_res in Hko.
  destruct (W !! (k, 2%nat, key 2 va)) as [tk|] eqn:Ht.
  - destruct Hko as (ke & -> & E). pose proof (ker_below 1 tk ke Ht E) as Hb.
    destruct (has ke PTE_P), (has ke PTE_PS); cbn in Hb |- *; try (apply wp_ret, HQ; unfold ker_res; by rewrite Hb).
    destruct (tab_read k 1 _ Hb) as (e & E2 & _ & Htp).
    apply wp_bind, (wp_rd (addr ke) (vidx 21 va) e); [done|apply (vidx_lvl 1)|done|]. apply wp_ret, HQ. unfold ker_res. rewrite Hb. eauto.
  - subst ko. apply wp_ret, HQ. unfold ker_res. destruct (W !! (k, 1%nat, key 1 va)) as [t1|] eqn:Et; [|done].
    apply (pt_parent _ _ _ (vi_pt _ _ _ _ Hi)) in Et as [t2 Et]; [|lia]. rewrite (key_child 1) in Et by lia.
    replace ((key 2 va * 512 + vidx (shift_of 2) va) / 512) with (key 2 va) in Et; [congruence|].
    pose proof (vidx_lvl 2 va). Z.div_mod_to_equations. lia.
Qed.

(** ** One level down, creating *)
Definition down (L : nat) (W' : tabs) (F' : list Z) (m' : vmm_mem) : Prop :=
  is_Some (W' !! (r, L, key L va)) \/
  (L = 0%nat /\ W' = W /\ F' = F /\ m' = m /\ exists t e, W !! (r, S L, key (S L) va) = Some t /\
     vphys m !! slot t (vidx (shift_of (S L)) va) = Some e /\ has e PTE_P = true /\ has e PTE_PS = true).

Lemma wp_grow_entry L t ker Q :
  W !! (r, S L, key (S L) va) = Some t ->
  (r <> k -> forall R : option Z -> vmm_mem -> Prop, (forall ko, ker_res L ko -> R ko m) -> wp ker R m) ->
  (F = [] -> Q false m) ->
  (forall W' F' m', grow k W F m W' F' m' -> down L W' F' m' -> Q true m') ->
  wp (grow_entry (slot t (vidx (shift_of (S L)) va)) true (true && negb (r =? k)) ker) Q m.
Proof.
  intros Ht Hker HQ0 HQ. destruct (tab_read r (S L) t Ht) as (e & E & Hent & Htp). unfold grow_entry.
  apply wp_bind, (wp_rd t _ e); [done|apply vidx_lvl|done|]. destruct (has e PTE_P) eqn:HP; cbn [negb].
  2: { apply (wp_fill_entry k W F m Hi r L _ t _ Ht (vidx_lvl _ va) e); [done|done|done|].
       intros W' F' m' Hg Hs. apply (HQ W' F'); [done|]. left. by rewrite (key_next r L t Ht). }
  assert ((r = k \/ W !! (k, S L, key (S L) va) = None) -> down L W F m) as Hno.
  { intros Hor. simpl in Hent. unfold down. rewrite (key_next r L t Ht).
    destruct (W !! (r, L, _)) as [t'|]; [left; by eexists|right]. specialize (Hent HP).
    destruct (has e PTE_PS) eqn:HS; [destruct Hent as [-> _]; split_and!; try done; by exists t, e|].
    destruct Hent as (Hne & tk & Htk & _). destruct Hor; congruence. }
  cbn [andb]. destruct (Z.eqb_spec r k) as [Hrk|Hrk]; cbn [negb].
  { apply wp_ret, (HQ W F); [by apply grow_refl|auto]. }
  apply wp_bind, (Hker Hrk). intros ko Hko. unfold ker_res in Hko. destruct (W !! (k, S L, key (S L) va)) as [tk|] eqn:Htk.
  2: { subst ko. apply wp_ret, (HQ W F); [by apply grow_refl|auto]. }
  destruct Hko as (ke & -> & Eke).
  apply wp_bind. eapply (wp_cow_table_entry k W F m Hi r L _ t _ Ht (vidx_lvl _ va) tk ke); [done|done|done| |].
  { intros HF. by apply wp_ret, HQ0. }
  intros W' F' m' Hg H1 H2. apply wp_ret. apply (HQ W' F'); [done|]. specialize (H1 e E HP). specialize (H2 e E).
  destruct (has e PTE_PS) eqn:HS.
  - right. destruct (H2 eq_refl) as (-> & -> & ->). simpl in Hent. split_and!; try done; [|by exists t, e].
    destruct (W !! (r, L, _)); [destruct Hent as (_ & ? & _); congruence|]. specialize (Hent HP). rewrite HS in Hent. apply Hent.
  - left. rewrite (key_next r L t Ht). auto.
Qed.

(** Then the flags are set and the next table is read. *)
Lemma wp_flag_entry L t Q :
  W !! (r, S L, key (S L) va) = Some t -> is_Some (W !! (r, L, key L va)) -> r <> k \/ solo k W ->
  (forall m', grow k W F m W F m' -> uw W m' r (S L) va -> Q tt m') ->
  wp (ensure_user_flag (slot t (vidx (shift_of (S L)) va))) Q m.
Proof.
  intros Ht Hs Hsolo HQ. rewrite (key_next r L t Ht) in Hs.
  apply (wp_ensure_user_flag k W F m Hi r L _ t _ Ht (vidx_lvl _ va)); [done|done|]. intros m' Hg (e & E & HU & HW).
  apply HQ; [done|]. exists t, e. done.
Qed.

Lemma wp_next_table L t Q :
  W !! (r, S L, key (S L) va) = Some t -> is_Some (W !! (r, L, key L va)) ->
  (forall e, has e PTE_PS = false -> W !! (r, L, key L va) = Some (addr e) -> Q e m) ->
  wp (rd (slot t (vidx (shift_of (S L)) va))) Q m.
Proof.
  intros Ht [n Hn] HQ. destruct (tab_read r (S L) t Ht) as (e & E & Hent & Htp).
  apply (wp_rd t _ e); [done|apply vidx_lvl|done|]. rewrite (key_next r L t Ht) in Hn. simpl in Hent. rewrite Hn in Hent.
  destruct Hent as (HP & HS & <-). apply HQ; [done|]. by rewrite (key_next r L t Ht).
Qed.
End Path.
