(* ===== verification/VmmWalks.v ===== *)
(** The whole walks: with creation of tables, for reading, and the effect of a
    write to the leaf they return. *)
From stdpp Require Import base gmap list strings.
From Stdlib Require Import ZArith Lia.
From S2P Require Import Prelude CapTypes Pmm PmmInv PmmOps PmmBoot PmmSelf PmmSys Vmm VmmTables VmmEntry.

(** * [walk_pte] with [fCreate]: it ends at an entry of a table that belongs to the
    active address space, or runs out of pages. *)

(** The kernel may create in the template only while nobody shares it. *)
Definition may_create (k : Z) (W : tabs) (r : Z) : Prop := r <> k \/ solo k W.

Lemma grow_owner_solo k W F m W' F' m' :
  grow k W F m W' F' m' -> solo k W -> solo k W'.
Proof.
  intros Hg Hs o l c t Ho. pose proof (vi_pt _ _ _ _ (gr_inv _ _ _ _ _ _ _ Hg)) as Hp.
  destruct (pt_lvl _ _ _ Hp _ _ _ _ Ho) as (_ & _ & Hr). rewrite (gr_roots _ _ _ _ _ _ _ Hg) in Hr. by apply Hs in Hr.
Qed.

Lemma may_create_grow k W F m W' F' m' r : grow k W F m W' F' m' -> may_create k W r -> may_create k W' r.
Proof. intros Hg [?|Hs]; [by left|right]. by eapply grow_owner_solo. Qed.

Section Create.
Context (k r va : Z).

(** One of the two upper levels: absent or shared tables are replaced, the flags
    are set, the entry is read. *)
Lemma wp_level W F m L t ker (Q : option Z -> vmm_mem -> Prop) (kont : Z -> prog vmm_mem (option Z)) :
  vm_inv k W F m -> active W m r -> may_create k W r -> W !! (r, S (S L), key (S (S L)) va) = Some t ->
  (r <> k -> forall R : option Z -> vmm_mem -> Prop, (forall ko, ker_res k W m va (S L) ko -> R ko m) -> wp ker R m) ->
  (F = [] -> Q None m) ->
  (forall W' F' m' e, grow k W F m W' F' m' -> uw W' m' r (S (S L)) va -> has e PTE_PS = false ->
     W' !! (r, S L, key (S L) va) = Some (addr e) -> wp (kont e) Q m') ->
  wp (ok <- grow_entry (slot t (vidx (shift_of (S (S L))) va)) true (true && negb (r =? k)) ker ;;
      if negb ok then pret None else
      ensure_user_flag (slot t (vidx (shift_of (S (S L))) va)) ;;;
      e <- rd (slot t (vidx (shift_of (S (S L))) va)) ;; kont e) Q m.
Proof.
  intros Hi Hact Hmc Ht Hker HQ0 HQ. apply wp_bind, (wp_grow_entry k W F m Hi r va (S L) t ker); [done|done| |].
  { intros HF. by apply wp_ret, HQ0. }
  intros W1 F1 m1 Hg1 [Hd|(? & _)]; [|done]. cbn [negb]. pose proof (gr_inv _ _ _ _ _ _ _ Hg1) as Hi1.
  assert (W1 !! (r, S (S L), key (S (S L)) va) = Some t) as Ht1 by (by eapply lookup_weaken; [|apply Hg1]).
  apply wp_bind, (wp_flag_entry k W1 F1 m1 Hi1 r va (S L) t); [done|done|by eapply may_create_grow|].
  intros m2 Hg2 Huw. pose proof (grow_trans _ _ _ _ _ _ _ _ _ _ Hg1 Hg2) as Hg. pose proof (gr_inv _ _ _ _ _ _ _ Hg2) as Hi2.
  apply wp_bind, (wp_next_table k W1 F1 m2 Hi2 r va (S L) t); [done|done|]. intros e HS He. by eapply HQ.
Qed.

Lemma wp_walk_pd_create W F m (Q : option Z -> vmm_mem -> Prop) :
  vm_inv k W F m -> active W m r -> may_create k W r ->
  (forall W' m', grow k W F m W' [] m' -> Q None m') ->
  (forall W' F' m' t, grow k W F m W' F' m' -> W' !! (r, 1%nat, key 1 va) = Some t ->
     uw W' m' r 3 va -> uw W' m' r 2 va -> Q (Some (slot t (vidx (shift_of 1) va))) m') ->
  wp (walk_pd_entry va true) Q m.
Proof.
  intros Hi Hact Hmc HQ0 HQ. unfold walk_pd_entry. apply wp_bind, (wp_active_pml4 W m r); [done|].
  apply wp_bind, (wp_as_is_private k W F m Hi r); [done|]. change 39 with (shift_of 3).
  apply (wp_level W F m 1 r (ker_pml4e va) Q); try done.
  - rewrite key_root. apply Hact.
  - intros _ R HR. by apply (wp_ker_pml4e k W F m Hi va).
  - intros ->. by apply (HQ0 W), grow_refl.
  - intros W1 F1 m1 e4 Hg1 Huw3 _ Ht2. change 30 with (shift_of 2). pose proof (gr_inv _ _ _ _ _ _ _ Hg1) as Hi1.
    apply (wp_level W1 F1 m1 0 (addr e4) (ker_pdpte va) Q); try done.
    + by eapply active_grow.
    + by eapply may_create_grow.
    + intros _ R HR. by apply (wp_ker_pdpte k W1 F1 m1 Hi1 va).
    + intros ->. by apply (HQ0 W1).
    + intros W2 F2 m2 e3 Hg2 Huw2 HS Ht1. rewrite HS. apply wp_ret. eapply (HQ W2 F2); [by eapply grow_trans|done| |done].
      by eapply uw_grow.
Qed.

(** The entry of the page directory loses its large leaf and its sharing. *)
Lemma wp_unshare_pde W F m t Q :
  vm_inv k W F m -> W !! (r, 1%nat, key 1 va) = Some t ->
  (F = [] -> Q false m) ->
  (forall W' F' m', grow k W F m W' F' m' -> Q true m') ->
  wp (unshare_pde (slot t (vidx (shift_of 1) va)) va (true && negb (r =? k))) Q m.
Proof.
  intros Hi Ht HQ0 HQ. unfold unshare_pde. cbn [andb]. destruct (Z.eqb_spec r k) as [Hrk|Hrk]; cbn [negb].
  { by apply wp_ret, (HQ W F), grow_refl. }
  apply wp_bind, (wp_ker_pde k W F m Hi va). intros ko Hko. unfold ker_res in Hko.
  destruct (W !! (k, 1%nat, key 1 va)) as [tk|] eqn:Htk.
  2: { subst ko. by apply wp_ret, (HQ W F), grow_refl. }
  destruct Hko as (ke & -> & Eke). destruct (tab_read k W F m Hi va r 1 t Ht) as (e & E & _ & Htp).
  apply wp_bind, (wp_rd t _ e); [done|apply vidx_lvl|done|]. destruct (has e PTE_P) eqn:HP; cbn [andb].
  2: { by apply wp_ret, (HQ W F), grow_refl. }
  destruct (Z.eqb_spec e ke) as [->|Hne].
  2: { by apply wp_ret, (HQ W F), grow_refl. }
  apply wp_bind. destruct (has ke PTE_PS) eqn:HS.
  - apply (wp_split_large_pde k W F m r (key 1 va) t (vidx (shift_of 1) va) ke); try done; [apply vidx_lvl|intros HF; by apply wp_ret, HQ0|].
    intros n F' m' Hg. by eapply wp_ret, HQ.
  - apply (wp_cow_table_entry k W F m Hi r 0 _ t _ Ht (vidx_lvl 1 va) tk ke); try done; [intros HF; by apply wp_ret, HQ0|].
    intros W' F' m' Hg _ _. by apply wp_ret, (HQ W' F').
Qed.

Lemma wp_split_pde W F m t Q :
  vm_inv k W F m -> W !! (r, 1%nat, key 1 va) = Some t ->
  (F = [] -> Q GJ_ERR_NOMEM m) ->
  (forall W' F' m', grow k W F m W' F' m' ->
     (forall e, vphys m' !! slot t (vidx (shift_of 1) va) = Some e -> has e PTE_P = true -> has e PTE_PS = false) -> Q GJ_OK m') ->
  wp (e <- rd (slot t (vidx (shift_of 1) va)) ;;
      if has e PTE_P && has e PTE_PS then split_large_pde (slot t (vidx (shift_of 1) va)) va else pret GJ_OK) Q m.
Proof.
  intros Hi Ht HQ0 HQ. destruct (tab_read k W F m Hi va r 1 t Ht) as (e & E & _ & Htp).
  apply wp_bind, (wp_rd t _ e); [done|apply vidx_lvl|done|].
  destruct (has e PTE_P) eqn:HP, (has e PTE_PS) eqn:HS; cbn [andb].
  1: { apply (wp_split_large_pde k W F m r (key 1 va) t (vidx (shift_of 1) va) e); try done; [apply vidx_lvl|].
       intros n F' m' Hg. set (W' := <[_ := n]> W) in *. apply (HQ W' F'); [done|]. intros e' E' HP'.
       assert (W' !! (r, 1%nat, key 1 va) = Some t) as Ht' by (by eapply lookup_weaken; [|apply Hg]).
       destruct (tab_read k W' F' m' (gr_inv _ _ _ _ _ _ _ Hg) va r 1 t Ht') as (e1 & E1 & Hent & _).
       rewrite E' in E1. injection E1 as <-. simpl in Hent. unfold W' in Hent. rewrite lookup_insert_eq in Hent. by destruct Hent as (_ & ? & _). }
  all: apply wp_ret, (HQ W F); [by apply grow_refl|]; intros e' E'; rewrite E in E'; injection E' as <-; congruence.
Qed.

Lemma wp_walk_pte_create W F m (Q : option Z -> vmm_mem -> Prop) :
  vm_inv k W F m -> active W m r -> may_create k W r ->
  (forall W' m', grow k W F m W' [] m' -> Q None m') ->
  (forall W' F' m' t, grow k W F m W' F' m' -> W' !! (r, 0%nat, key 0 va) = Some t ->
     (forall l, (1 <= l <= 3)%nat -> uw W' m' r l va) -> Q (Some (slot t (vidx 12 va))) m') ->
  wp (walk_pte va true) Q m.
Proof.
  intros Hi Hact Hmc HQ0 HQ. unfold walk_pte. apply wp_bind, (wp_as_is_private k W F m Hi r); [done|]. cbv zeta.
  apply wp_bind, (wp_walk_pd_create W F m); try done.
  { intros W' m' Hg. by apply wp_ret, (HQ0 W'). }
  intros W1 F1 m1 t Hg1 Ht1 Hu3 Hu2. pose proof (gr_inv _ _ _ _ _ _ _ Hg1) as Hi1.
  apply wp_bind, (wp_unshare_pde W1 F1 m1); [done|done|intros ->; by apply wp_ret, (HQ0 W1)|].
  intros W2 F2 m2 Hg2. cbn [negb]. pose proof (gr_inv _ _ _ _ _ _ _ Hg2) as Hi2.
  assert (W2 !! (r, 1%nat, key 1 va) = Some t) as Ht2 by (by eapply lookup_weaken; [|apply Hg2]).
  pose proof (grow_trans _ _ _ _ _ _ _ _ _ _ Hg1 Hg2) as Hg12.
  apply wp_assoc, wp_bind, (wp_split_pde W2 F2 m2); [done|done|intros ->; by apply wp_ret, (HQ0 W2)|].
  intros W3 F3 m3 Hg3 Hns. change (is_ok GJ_OK) with true. cbn [negb]. pose proof (gr_inv _ _ _ _ _ _ _ Hg3) as Hi3.
  assert (W3 !! (r, 1%nat, key 1 va) = Some t) as Ht3 by (by eapply lookup_weaken; [|apply Hg3]).
  pose proof (grow_trans _ _ _ _ _ _ _ _ _ _ Hg12 Hg3) as Hg13.
  apply wp_bind, (wp_grow_entry k W3 F3 m3 Hi3 r va 0 t (ker_pde va)); [done| |intros ->; by apply wp_ret, (HQ0 W3)|].
  { intros _ R HR. by apply (wp_ker_pde k W3 F3 m3 Hi3 va). }
  intros W4 F4 m4 Hg4 Hd. cbn [negb]. pose proof (gr_inv _ _ _ _ _ _ _ Hg4) as Hi4.
  assert (W4 !! (r, 1%nat, key 1 va) = Some t) as Ht4 by (by eapply lookup_weaken; [|apply Hg4]).
  assert (is_Some (W4 !! (r, 0%nat, key 0 va))) as Hs4.
  { destruct Hd as [Hd|(_ & -> & _ & -> & t' & e & Ht' & E & HP & HS)]; [done|]. rewrite Ht' in Ht3. injection Ht3 as ->.
    by rewrite (Hns e E HP) in HS. }
  pose proof (grow_trans _ _ _ _ _ _ _ _ _ _ Hg13 Hg4) as Hg14.
  apply wp_bind, (wp_flag_entry k W4 F4 m4 Hi4 r va 0 t); [done|done|by eapply may_create_grow|].
  intros m5 Hg5 Hu1. pose proof (grow_trans _ _ _ _ _ _ _ _ _ _ Hg14 Hg5) as Hg.
  apply wp_bind, (wp_next_table k W4 F4 m5 (gr_inv _ _ _ _ _ _ _ Hg5) r va 0 t); [done|done|]. intros e _ He.
  apply wp_ret. eapply (HQ W4 F4); [done|done|]. intros l Hl.
  assert (grow k W1 F1 m1 W4 F4 m5) as Hg15 by (do 3 (eapply grow_trans; [done|]); done).
  assert (l = 1 \/ l = 2 \/ l = 3)%nat as [->|[->| ->]] by lia; [done|by eapply uw_grow..].
Qed.
End Create.

(** * [walk_pte] without [fCreate]: it ends at the entry the processor would use,
    in a table of the active address space or of the template. *)

Section Read.
Context (k r va : Z).

(** The walk from the root of [r] has reached table [t] of [o]. *)
Record at_tab (W : tabs) (m : vmm_mem) (l : nat) (o t : Z) : Prop := MkAt {
  at_in : W !! (o, l, key l va) = Some t;
  at_own : o = r \/ (o = k /\ W !! (r, l, key l va) = None);
  at_view : view m r va = hwleaf (vphys m) l t va }.

Lemma at_root W m : W !! (r, 3%nat, 0) = Some r -> at_tab W m 3 r r.
Proof. intros Hr. split; [by rewrite key_root|by left|done]. Qed.

Lemma at_next W F m l o t e :
  vm_inv k W F m -> at_tab W m (S l) o t -> vphys m !! slot t (vidx (shift_of (S l)) va) = Some e ->
  has e PTE_P = true -> has e PTE_PS = false -> exists o', at_tab W m l o' (addr e).
Proof.
  intros Hi [Hin Hown Hv] E HP HS. pose proof (vi_pt _ _ _ _ Hi) as Hp.
  assert (view m r va = hwleaf (vphys m) l (addr e) va) as Hv'.
  { rewrite Hv, (hwleaf_step _ _ _ _ e) by done. unfold hwstep. by rewrite HP, HS. }
  pose proof (key_next k W F m Hi va o l t Hin) as Hk.
  destruct (tab_read k W F m Hi va o (S l) t Hin) as (e0 & E0 & Hent & _). rewrite E in E0. injection E0 as <-.
  simpl in Hent. rewrite <-Hk in Hent. destruct (W !! (o, l, key l va)) as [n|] eqn:En.
  - destruct Hent as (_ & _ & <-). exists o. split; [done| |done]. destruct Hown as [->|[-> HN]]; [by left|right]. split; [done|].
    rewrite Hk. pose proof (pt_lvl _ _ _ Hp _ _ _ _ Hin) as (Hl & _).
    destruct (W !! (r, l, key (S l) va * 512 + vidx (shift_of (S l)) va)) as [t'|] eqn:Et; [|done].
    apply (pt_parent _ _ _ Hp) in Et as [t2 Et]; [|lia]. pose proof (vidx_lvl (S l) va).
    replace ((key (S l) va * 512 + vidx (shift_of (S l)) va) / 512) with (key (S l) va) in Et
      by (Z.div_mod_to_equations; lia). congruence.
  - specialize (Hent HP). rewrite HS in Hent. destruct Hent as (Hne & tk & Htk & Ek).
    pose proof (ker_below k W F m Hi va l tk e Htk Ek) as Hb. rewrite HP, HS in Hb. cbn in Hb.
    exists k. split; [done| |done]. destruct Hown as [->|[-> _]]; [by right|done].
Qed.

Lemma at_absent W m l o t e :
  at_tab W m l o t -> vphys m !! slot t (vidx (shift_of l) va) = Some e -> has e PTE_P = false -> view m r va = None.
Proof. intros [_ _ Hv] E HP. rewrite Hv, (hwleaf_step _ _ _ _ e) by done. unfold hwstep. by rewrite HP. Qed.

Lemma at_absent_own W F m l o t e :
  vm_inv k W F m -> at_tab W m l o t -> vphys m !! slot t (vidx (shift_of l) va) = Some e ->
  (has e PTE_P = false \/ has e PTE_PS = true) -> forall l', (l' < l)%nat -> W !! (r, l', key l' va) = None.
Proof.
  intros Hi Hat E HPS l'. destruct Hat as [Hin Hown _]. pose proof (vi_pt _ _ _ _ Hi) as Hp.
  pose proof (pt_lvl _ _ _ Hp _ _ _ _ Hin) as (Hl3 & _).
  assert (forall j, (j < l)%nat -> W !! (r, j, key j va) = None -> forall i, (i <= j)%nat -> W !! (r, i, key i va) = None) as Hdown.
  { intros j Hj HN i Hij. induction Hij as [|j Hij IH]; [done|]. apply IH; [lia|].
    destruct (W !! (r, j, key j va)) as [t'|] eqn:Et; [|done]. apply (pt_parent _ _ _ Hp) in Et as [t2 Et]; [|lia].
    rewrite (key_child j) in Et by lia. pose proof (vidx_lvl (S j) va).
    replace ((key (S j) va * 512 + vidx (shift_of (S j)) va) / 512) with (key (S j) va) in Et
      by (Z.div_mod_to_equations; lia). congruence. }
  intros Hl. destruct l as [|l]; [lia|]. apply (Hdown l); [lia| |lia].
  destruct (W !! (r, l, key l va)) as [n|] eqn:En; [|done]. exfalso.
  destruct (tab_read k W F m Hi va o (S l) t Hin) as (e0 & E0 & Hent & _). rewrite E in E0. injection E0 as <-.
  destruct Hown as [->|[-> HN]].
  - simpl in Hent. rewrite <-(key_next k W F m Hi va r l t Hin), En in Hent. destruct Hent as (? & ? & _). destruct HPS; congruence.
  - apply (pt_parent _ _ _ Hp) in En as [t2 En]; [|lia]. rewrite (key_child l) in En by lia. pose proof (vidx_lvl (S l) va).
    replace ((key (S l) va * 512 + vidx (shift_of (S l)) va) / 512) with (key (S l) va) in En
      by (Z.div_mod_to_equations; lia). congruence.
Qed.

Lemma wp_grow_entry_read W F m l o t ker Q :
  vm_inv k W F m -> at_tab W m l o t ->
  (forall e, vphys m !! slot t (vidx (shift_of l) va) = Some e -> Q (has e PTE_P) m) ->
  wp (grow_entry (slot t (vidx (shift_of l) va)) false false ker) Q m.
Proof.
  intros Hi Hat HQ. destruct (tab_read k W F m Hi va o l t (at_in _ _ _ _ _ Hat)) as (e & E & _ & Htp).
  specialize (HQ e E). unfold grow_entry. apply wp_bind, (wp_rd t _ e); [done|apply vidx_lvl|done|].
  destruct (has e PTE_P); by apply wp_ret.
Qed.

(** Level [S l] of the walk. *)
Lemma wp_level_read W F m l o t ker (Q : option Z -> vmm_mem -> Prop) (kont : Z -> prog vmm_mem (option Z)) :
  vm_inv k W F m -> at_tab W m (S (S l)) o t ->
  (view m r va = None -> W !! (r, 0%nat, key 0 va) = None -> Q None m) ->
  (forall o' e, at_tab W m (S l) o' (addr e) -> has e PTE_PS = false -> wp (kont e) Q m) ->
  wp (ok <- grow_entry (slot t (vidx (shift_of (S (S l))) va)) false false ker ;;
      if negb ok then pret None else
      pret tt ;;; e <- rd (slot t (vidx (shift_of (S (S l))) va)) ;; kont e) Q m.
Proof.
  intros Hi Hat HQ0 HQ. apply wp_bind, (wp_grow_entry_read W F m (S (S l)) o t); [done|done|]. intros e E.
  destruct (has e PTE_P) eqn:HP; cbn [negb].
  2: { apply wp_ret, HQ0; [by eapply at_absent|]. eapply (at_absent_own W F m); [done|done|done|by left|lia]. }
  destruct (tab_read k W F m Hi va o _ t (at_in _ _ _ _ _ Hat)) as (e0 & E0 & Hent & Htp). rewrite E in E0. injection E0 as <-.
  apply wp_bind, wp_ret, wp_bind, (wp_rd t _ e); [done|apply vidx_lvl|done|].
  assert (has e PTE_PS = false) as HS.
  { simpl in Hent. destruct (W !! (o, S l, _)); [by destruct Hent as (_ & ? & _)|]. specialize (Hent HP).
    destruct (has e PTE_PS); [by destruct Hent|done]. }
  destruct (at_next W F m (S l) o t e) as [o' Hat']; try done. by eapply HQ.
Qed.

(** Where the walk ends. *)
Definition read_at (W' : tabs) (m' : vmm_mem) (p : Z) : Prop :=
  exists o t, at_tab W' m' 0 o t /\ p = slot t (vidx 12 va).

(** The page table entry, when the directory entry points to a table. *)
Lemma wp_last_read W F m o t e Q :
  vm_inv k W F m -> at_tab W m 1 o t -> vphys m !! slot t (vidx (shift_of 1) va) = Some e ->
  has e PTE_P = true -> has e PTE_PS = false -> (forall p, read_at W m p -> Q (Some p) m) ->
  wp (ok <- grow_entry (slot t (vidx (shift_of 1) va)) false false (ker_pde va) ;;
      if negb ok then pret None else
      pret tt ;;; e2 <- rd (slot t (vidx (shift_of 1) va)) ;;
      pret (Some (slot (Z.land e2 PTE_ADDR_MASK) (vidx 12 va)))) Q m.
Proof.
  intros Hi Hat E HP HS HQ. apply wp_bind, (wp_grow_entry_read W F m 1 o); [done|done|].
  intros e2 E2. rewrite E in E2. injection E2 as <-. rewrite HP. cbn [negb]. apply wp_bind, wp_ret.
  apply wp_bind, (wp_rd _ _ e); [|apply vidx_lvl|done|].
  { apply (vi_tab _ _ _ _ Hi _ _ (at_in _ _ _ _ _ Hat)). }
  apply wp_ret, HQ. destruct (at_next W F m 0 o t e) as [o' Hat']; try done. by exists o', (addr e).
Qed.

Lemma at_split W F m o t n F' m' :
  at_tab W m 1 o t -> active W m r -> grow k W F m (<[(o, 0%nat, key 1 va * 512 + vidx (shift_of 1) va) := n]> W) F' m' ->
  at_tab (<[(o, 0%nat, key 1 va * 512 + vidx (shift_of 1) va) := n]> W) m' 1 o t.
Proof.
  intros [Hin Hown Hv] [_ Hr] Hg. split.
  - by rewrite lookup_insert_ne.
  - destruct Hown as [->|[-> HN]]; [by left|right]. by rewrite lookup_insert_ne.
  - rewrite (grow_root _ _ _ _ _ _ _ _ va Hg Hr), Hv. symmetry. by apply (gr_view _ _ _ _ _ _ _ Hg o).
Qed.

Definition pde_read (pPde : Z) : prog vmm_mem (option Z) :=
  e <- rd pPde ;;
  st <- (if has e PTE_P && has e PTE_PS then split_large_pde pPde va else pret GJ_OK) ;;
  if negb (is_ok st) then pret None else
  ok <- grow_entry pPde false false (ker_pde va) ;;
  if negb ok then pret None else
  pret tt ;;; e2 <- rd pPde ;; pret (Some (slot (Z.land e2 PTE_ADDR_MASK) (vidx 12 va))).

Lemma wp_pde_read W F m o t (Q : option Z -> vmm_mem -> Prop) :
  vm_inv k W F m -> active W m r -> at_tab W m 1 o t ->
  (W !! (r, 0%nat, key 0 va) = None -> view m r va = None \/ F = [] -> Q None m) ->
  (forall W' F' m' p, grow k W F m W' F' m' -> read_at W' m' p -> Q (Some p) m') ->
  wp (pde_read (slot t (vidx (shift_of 1) va))) Q m.
Proof.
  intros Hi Hact Hat HQ0 HQ. unfold pde_read.
  destruct (tab_read k W F m Hi va o 1 t (at_in _ _ _ _ _ Hat)) as (e & E & _ & Htp).
  apply wp_bind, (wp_rd _ _ e); [done|apply vidx_lvl|done|]. destruct (has e PTE_P) eqn:HP; cbn [andb].
  2: { apply wp_bind, wp_ret. change (is_ok GJ_OK) with true. cbn [negb].
       apply wp_bind, (wp_grow_entry_read W F m 1 o); [done|done|]. intros e2 E2. rewrite E in E2. injection E2 as <-. rewrite HP.
       apply wp_ret, HQ0; [|left; by eapply at_absent]. eapply (at_absent_own W F m); [done|done|done|by left|lia]. }
  destruct (has e PTE_PS) eqn:HS.
  2: { apply wp_bind, wp_ret. change (is_ok GJ_OK) with true. cbn [negb]. eapply (wp_last_read W F m o t e); try done.
       intros p Hp. eapply HQ; [by apply grow_refl|done]. }
  apply wp_bind, (wp_split_large_pde k W F m o (key 1 va) t (vidx (shift_of 1) va) e); try done; [apply Hat|apply vidx_lvl| |].
  { intros HF. apply wp_ret, HQ0; [|by right]. eapply (at_absent_own W F m); [done|done|done|by right|lia]. }
  intros n F1 m1 Hg1. change (is_ok GJ_OK) with true. cbn [negb]. pose proof (at_split _ _ _ _ _ _ _ _ Hat Hact Hg1) as Hat1.
  pose proof (gr_inv _ _ _ _ _ _ _ Hg1) as Hi1. set (W1 := <[_ := n]> W) in *.
  destruct (tab_read k W1 F1 m1 Hi1 va o 1 _ (at_in _ _ _ _ _ Hat1)) as (e1 & E1 & Hent1 & _). simpl in Hent1.
  unfold W1 in Hent1. rewrite lookup_insert_eq in Hent1. destruct Hent1 as (HP1 & HS1 & _).
  eapply (wp_last_read W1 F1 m1 o t e1); try done. intros p Hp. by eapply HQ.
Qed.

Lemma wp_walk_pte_read W F m (Q : option Z -> vmm_mem -> Prop) :
  vm_inv k W F m -> active W m r ->
  (W !! (r, 0%nat, key 0 va) = None -> view m r va = None \/ F = [] -> Q None m) ->
  (forall W' F' m' p, grow k W F m W' F' m' -> read_at W' m' p -> Q (Some p) m') ->
  wp (walk_pte va false) Q m.
Proof.
  intros Hi Hact HQ0 HQ. unfold walk_pte. apply wp_bind, (wp_as_is_private k W F m Hi r); [done|]. cbv zeta. cbn [andb].
  apply wp_bind. unfold walk_pd_entry. apply wp_bind, (wp_active_pml4 W m r); [done|].
  apply wp_bind, (wp_as_is_private k W F m Hi r); [done|]. cbv zeta. cbn [andb]. change 39 with (shift_of 3).
  apply (wp_level_read W F m 1 r r); [done|by apply at_root, Hact|intros Hv HN; apply wp_ret, HQ0; [done|by left]|].
  intros o2 e4 Hat2 _. change 30 with (shift_of 2).
  apply (wp_level_read W F m 0 o2 (addr e4)); [done|done|intros Hv HN; apply wp_ret, HQ0; [done|by left]|].
  intros o1 e3 Hat1 HS3. rewrite HS3. apply wp_ret. change 21 with (shift_of 1). fold (addr e3).
  unfold unshare_pde. cbn [negb]. apply wp_bind, wp_ret. cbn [negb]. by apply (wp_pde_read W F m o1).
Qed.
End Read.

(** * A page table entry of an address space's own is written: one page of that
    address space changes and nothing else. *)

(** What a page table entry maps. *)
Definition pte_leaf (e : Z) : option leaf := if has e PTE_P then Some (leaf_at (addr e) e) else None.

Lemma hwleaf_0 ph t va e : ph !! slot t (vidx 12 va) = Some e -> hwleaf ph 0 t va = pte_leaf e.
Proof. intros E. rewrite (hwleaf_step ph 0 t va e) by done. unfold hwstep, pte_leaf. by destruct (has e PTE_P). Qed.

Lemma vpage_digits va va' : vpage va' = vpage va <-> key 0 va' = key 0 va /\ vidx 12 va' = vidx 12 va.
Proof.
  rewrite !vpage_key. pose proof (vidx_lvl 0 va). pose proof (vidx_lvl 0 va'). change (shift_of 0) with 12 in *.
  split; [by apply digits_inj|]. by intros [-> ->].
Qed.

Section Leaf.
Context (k : Z) (W : tabs) (F : list Z) (m : vmm_mem) (Hi : vm_inv k W F m).

(** The walk goes through the tables of the address space's own. *)
Lemma own_view r va l t : W !! (r, l, key l va) = Some t -> view m r va = hwleaf (vphys m) l t va.
Proof.
  pose proof (vi_pt _ _ _ _ Hi) as Hp. intros Ht. destruct (pt_lvl _ _ _ Hp _ _ _ _ Ht) as (Hl & _ & Hr).
  assert (forall d t, (d <= 3)%nat -> W !! (r, (3 - d)%nat, key (3 - d) va) = Some t ->
    view m r va = hwleaf (vphys m) (3 - d) t va) as H.
  { intros d. induction d as [|d IH]; intros t' Hd Ht'.
    - rewrite Nat.sub_0_r in *. rewrite key_root, Hr in Ht'. by injection Ht' as <-.
    - set (l' := (3 - S d)%nat) in *. replace (3 - d)%nat with (S l') in IH by lia.
      destruct (pt_parent _ _ _ Hp _ _ _ _ Ht') as [t2 Ht2]; [lia|]. rewrite (key_child l') in Ht2 by lia.
      pose proof (vidx_lvl (S l') va). replace ((key (S l') va * 512 + vidx (shift_of (S l')) va) / 512) with (key (S l') va) in Ht2
        by (Z.div_mod_to_equations; lia).
      rewrite (IH t2) by (lia || done). destruct (tab_read k W F m Hi va r (S l') t2 Ht2) as (e & E & Hent & _).
      rewrite (hwleaf_step _ _ _ _ e) by done. simpl in Hent. rewrite <-(key_child l') in Hent by lia. rewrite Ht' in Hent.
      destruct Hent as (HP & HS & <-). unfold hwstep. by rewrite HP, HS. }
  specialize (H (3 - l)%nat t). replace (3 - (3 - l))%nat with l in H by lia. apply H; [lia|done].
Qed.

Lemma own_pte r va t e : W !! (r, 0%nat, key 0 va) = Some t -> vphys m !! slot t (vidx 12 va) = Some e -> view m r va = pte_leaf e.
Proof. intros Ht E. rewrite (own_view r va 0 t Ht). by apply hwleaf_0. Qed.

End Leaf.

Section Write.
Context (k : Z) (W : tabs) (F : list Z) (m : vmm_mem) (Hi : vm_inv k W F m).

(** Page [va] of [r] becomes [o]; memory outside the tables stays. *)
Record leaf_step (r va : Z) (o : option leaf) (m' : vmm_mem) : Prop := MkLeafStep {
  ls_inv : vm_inv k W F m';
  ls_keep : vkeep m m';
  ls_other : forall a va', W !! (a, 3%nat, 0) = Some a -> a <> r \/ vpage va' <> vpage va -> view m' a va' = view m a va';
  ls_here : forall va', vpage va' = vpage va -> view m' r va' = o;
  ls_data : forall a, no_tab W (page_of a) -> vphys m' !! a = vphys m !! a;
  ls_flags : forall x t i, W !! x = Some t -> x.1.2 <> 0%nat -> 0 <= i < 512 -> vphys m' !! slot t i = vphys m !! slot t i }.

Lemma leaf_write r va t e' :
  W !! (r, 0%nat, key 0 va) = Some t -> r <> k \/ solo k W ->
  leaf_step r va (pte_leaf e') (set_vphys (<[slot t (vidx 12 va) := e']> (vphys m)) m).
Proof.
  intros Ht Hsolo. pose proof (vi_pt _ _ _ _ Hi) as Hp. pose proof (vidx_lvl 0 va) as Hx. change (shift_of 0) with 12 in Hx.
  destruct (tab_read k W F m Hi va r 0 t Ht) as (e & E & _ & Htp). change (shift_of 0) with 12 in E.
  set (ph' := <[slot t (vidx 12 va) := e']> (vphys m)).
  assert (ph' !! slot t (vidx 12 va) = Some e') as E' by (unfold ph'; by rewrite lookup_insert_eq).
  assert (forall x t' j, W !! x = Some t' -> 0 <= j < 512 -> slot t' j <> slot t (vidx 12 va) -> ph' !! slot t' j = vphys m !! slot t' j) as Hsb.
  { intros x t' j _ _ Hne. unfold ph'. by rewrite lookup_insert_ne. }
  assert (pt_ok ph' k W) as Hp'.
  { eapply (pt_word (vphys m) k W Hp); [exact Ht|exact Hx|exact E|exact E'|exact Hsb|auto|done]. }
  destruct (inv_word k W F m Hi (key 0 va) t (vidx 12 va) Hx e' 0 r Ht Hp') as [Hi' Hk'].
  split; [done|done| | | |].
  - intros a va' Ha Hor. unfold view. rewrite vphys_set.
    assert (W !! (a, 3%nat, key 3 va') = Some a) as Ha3 by (by rewrite key_root).
    destruct (decide (vpage va' = vpage va)) as [Epg|Epg].
    + destruct Hor as [Hne|]; [|done]. apply (hw_agree (vphys m) k W Hp ph' a 3 va' a Ha3).
      intros o' l' c t' i e0 Ho _ Ht' Hj E0. exists e0. split; [|by left]. rewrite (Hsb _ _ _ Ht' Hj); [done|]. intros Es.
      destruct (pt_slot _ _ _ Hp _ _ _ _ _ _ Ht Ht' Hx Hj Es) as (Ex & _). injection Ex as <- <- <-.
      destruct Ho as [->| ->]; [done|]. destruct Hsolo as [|Hs]; [done|]. by rewrite (Hs _ _ _ _ Ha) in Hne.
    + eapply (hw_retarget (vphys m) k W Hp ph' r 0 (key 0 va) t (vidx 12 va) e e' va'); try done.
      intros Ek Ev. exfalso. apply Epg, vpage_digits. done.
  - intros va' Epg. apply vpage_digits in Epg as [Ek Ev]. unfold view. rewrite vphys_set.
    change (hwleaf ph' 3 r va') with (view (set_vphys ph' m) r va').
    eapply (own_pte k W F (set_vphys ph' m) Hi' r va' t); [by rewrite Ek|by rewrite vphys_set, Ev].
  - intros a Ha. rewrite vphys_set. unfold ph'. rewrite lookup_insert_ne; [done|]. intros <-. apply (Ha (r, 0%nat, key 0 va)).
    rewrite slot_page; [done|apply Htp|done].
  - intros x t' i Hx0 Hl Hj. rewrite vphys_set. apply (Hsb _ _ _ Hx0 Hj). intros Es.
    destruct (pt_slot _ _ _ Hp _ _ _ _ _ _ Ht Hx0 Hx Hj Es) as (<- & _). done.
Qed.

Lemma leaf_flush r va o m' l : leaf_step r va o m' -> vm_flushed m' `prefix_of` l -> leaf_step r va o (set_flushed l m').
Proof.
  intros [H1 H2 H3 H4 H5 H6] Hl. split; try done; [by apply vm_inv_flush|]. etrans; [exact H2|]. split; try done.
  exists []. apply pstep_refl.
Qed.
End Write.

Lemma uw_leaf k W F m r va o m' a l va' : leaf_step k W F m r va o m' -> (1 <= l)%nat -> uw W m a l va' -> uw W m' a l va'.
Proof.
  intros Hs Hl (t & e & Ht & E & H). exists t, e. split; [done|].
  rewrite (ls_flags _ _ _ _ _ _ _ _ Hs _ _ _ Ht); [done|simpl; lia|apply vidx_lvl].
Qed.
