(* ===== verification/VmmOps.v ===== *)
(** The page operations on any address space, moves of the view, and the
    reference counts of shared frames. *)
From stdpp Require Import base gmap list strings.
From Stdlib Require Import ZArith Lia.
From S2P Require Import Prelude CapTypes Pmm PmmInv PmmOps PmmBoot PmmSelf PmmSys Vmm VmmTables VmmEntry VmmWalks.

(** * The page operations: which leaf each leaves behind, and on every return path
    what it touches. *)

(** ** Entries *)
Definition prot_leaf (pa u32Prot : Z) : leaf :=
  Leaf (addr pa) (has u32Prot GJ_VMM_PROT_WRITE) (has u32Prot GJ_VMM_PROT_USER) (negb (has u32Prot GJ_VMM_PROT_EXEC)) false.

Lemma prot_flags u32Prot : let f := prot_to_flags u32Prot in
  addr f = 0 /\ Z.testbit f 0 = true /\ Z.testbit f 1 = has u32Prot GJ_VMM_PROT_WRITE /\
  Z.testbit f 2 = has u32Prot GJ_VMM_PROT_USER /\ Z.testbit f 63 = negb (has u32Prot GJ_VMM_PROT_EXEC) /\ Z.testbit f 9 = false.
Proof.
  unfold prot_to_flags. destruct (has u32Prot GJ_VMM_PROT_WRITE), (has u32Prot GJ_VMM_PROT_USER), (has u32Prot GJ_VMM_PROT_EXEC); done.
Qed.

Lemma prot_pte pa u32Prot : pte_leaf (Z.lor (addr pa) (prot_to_flags u32Prot)) = Some (prot_leaf pa u32Prot).
Proof.
  destruct (prot_flags u32Prot) as (H0 & HP & HW & HU & HX & HC). pose proof (frame_addr pa) as Hf.
  unfold pte_leaf, leaf_at, prot_leaf. bits. rewrite addr_lor by done.
  rewrite (bit_lor_frame _ _ 0), (bit_lor_frame _ _ 1), (bit_lor_frame _ _ 2), (bit_lor_frame _ _ 63), (bit_lor_frame _ _ 9) by (done || lia).
  by rewrite HP, HW, HU, HX, HC.
Qed.

Lemma map_pte pa u32Prot : pte_leaf (Z.ldiff (Z.lor (addr pa) (prot_to_flags u32Prot)) PTE_COW) = Some (prot_leaf pa u32Prot).
Proof.
  destruct (prot_flags u32Prot) as (H0 & HP & HW & HU & HX & HC). pose proof (frame_addr pa) as Hf.
  rewrite <-prot_pte. f_equal. apply Z.bits_inj'. intros i Hi. rewrite Z.ldiff_spec. change PTE_COW with (2 ^ 9).
  destruct (decide (i = 9)) as [->|Hne].
  - rewrite (bit_lor_frame _ _ 9) by (done || lia). by rewrite HC.
  - rewrite Z.pow2_bits_false by lia. by rewrite andb_true_r.
Qed.

(** ** Reading *)
Definition image_va (m : vmm_mem) (va : Z) : bool :=
  (page_down (fst (vm_image m)) <=? va) && (va <? page_down (u64_wrap (snd (vm_image m) + GJ_PAGE_SIZE - 1))).

Lemma wp_va_in_kernel_identity va Q m : Q (image_va m va) m -> wp (va_in_kernel_identity va) Q m.
Proof. intros HQ. unfold va_in_kernel_identity. wsteps. exact HQ. Qed.

Section Ops.
Context (k : Z) (W : tabs) (F : list Z) (m : vmm_mem) (Hi : vm_inv k W F m).
Context (r : Z) (Hact : active W m r).

(** The entry that a reading walk ends at. *)
Lemma read_at_pte va W' F' m' p : vm_inv k W' F' m' -> read_at k r va W' m' p ->
  exists o t e, W' !! (o, 0%nat, key 0 va) = Some t /\ p = slot t (vidx 12 va) /\ vphys m' !! p = Some e /\
    tp_ok (vm_pmm m') t /\ view m' r va = pte_leaf e /\ (is_Some (W' !! (r, 0%nat, key 0 va)) -> o = r).
Proof.
  intros Hi' (o & t & [Hin Hown Hv] & ->). destruct (tab_read k W' F' m' Hi' va o 0 t Hin) as (e & E & _ & Htp).
  exists o, t, e. split_and!; try done.
  - rewrite Hv. by apply hwleaf_0.
  - intros [n Hn]. destruct Hown as [?|[_ HN]]; [done|congruence].
Qed.

(** [walk_pte] for reading, with the entry it finds. *)
Lemma wp_walk_read va (Q : option Z -> vmm_mem -> Prop) :
  (W !! (r, 0%nat, key 0 va) = None -> view m r va = None \/ F = [] -> Q None m) ->
  (forall W' F' m' o t e, grow k W F m W' F' m' -> W' !! (o, 0%nat, key 0 va) = Some t ->
     vphys m' !! slot t (vidx 12 va) = Some e -> tp_ok (vm_pmm m') t -> view m r va = pte_leaf e ->
     (is_Some (W !! (r, 0%nat, key 0 va)) -> o = r) -> Q (Some (slot t (vidx 12 va))) m') ->
  wp (walk_pte va false) Q m.
Proof.
  intros HQ0 HQ. apply (wp_walk_pte_read k r va W F m); [done|done|done|]. intros W' F' m' p Hg Hp.
  destruct (read_at_pte va W' F' m' p (gr_inv _ _ _ _ _ _ _ Hg) Hp) as (o & t & e & Ho & -> & E & Htp & Hv & Hown).
  eapply HQ; try done.
  - rewrite <-(grow_root _ _ _ _ _ _ _ r va Hg); [done|apply Hact].
  - intros [n Hn]. apply Hown. exists n. by eapply lookup_weaken; [|apply Hg].
Qed.

(** [vmm_read_pte] reports the leaf the processor uses, and 0 for a large leaf
    when there is no page to split it. *)
Lemma wp_vmm_read_pte va Q :
  (forall W' F' m' e, grow k W F m W' F' m' -> (pte_leaf e = view m r va \/ (e = 0 /\ F = [])) -> Q e m') ->
  wp (vmm_read_pte va) Q m.
Proof.
  intros HQ. unfold vmm_read_pte. apply wp_bind, wp_walk_read.
  - intros _ Hor. apply wp_ret. eapply HQ; [by apply grow_refl|]. destruct Hor as [->|]; [by left|by right].
  - intros W' F' m' o t e Hg Ho E Htp Hv _. apply (wp_rd t _ e); [done|apply (vidx_lvl 0)|done|]. eapply HQ; [done|by left].
Qed.

Lemma wp_vmm_virt_to_phys va Q :
  (forall W' F' m' pa, grow k W F m W' F' m' ->
     (match view m r va with
      | Some lf => pa = Z.lor (lf_pa lf) (Z.land va (GJ_PAGE_SIZE - 1)) \/ (pa = 0 /\ F = [])
      | None => pa = 0
      end) -> Q pa m') ->
  wp (vmm_virt_to_phys va) Q m.
Proof.
  intros HQ. unfold vmm_virt_to_phys. apply wp_bind, wp_walk_read.
  - intros _ Hor. apply wp_ret. eapply HQ; [by apply grow_refl|]. destruct (view m r va); [destruct Hor; [done|by right]|done].
  - intros W' F' m' o t e Hg Ho E Htp Hv _. apply wp_bind, (wp_rd t _ e); [done|apply (vidx_lvl 0)|done|].
    rewrite Hv in HQ. unfold pte_leaf in HQ. destruct (has e PTE_P); apply wp_ret; (eapply HQ; [done|]); [by left|done].
Qed.

(** ** Mapping *)
Definition mapped (va : Z) (lf : leaf) (W' : tabs) (F' : list Z) (m' : vmm_mem) : Prop :=
  exists m1, grow k W F m W' F' m1 /\ leaf_step k W' F' m1 r va (Some lf) m' /\
    is_Some (W' !! (r, 0%nat, key 0 va)) /\ (forall l, (1 <= l <= 3)%nat -> uw W' m' r l va) /\ va ∈ vm_flushed m'.

Lemma wp_map_install va pa u32Prot Q :
  may_create k W r ->
  (forall W' m', grow k W F m W' [] m' -> Q GJ_ERR_NOMEM m') ->
  (forall W' F' m', mapped va (prot_leaf pa u32Prot) W' F' m' -> Q GJ_OK m') ->
  wp (map_install va pa u32Prot) Q m.
Proof.
  intros Hmc HQ0 HQ. unfold map_install. apply wp_bind, (wp_walk_pte_create k r va W F m); [done|done|done| |].
  { intros W' m' Hg. wsteps. by eapply HQ0. }
  intros W' F' m1 t Hg Ht Huw. pose proof (gr_inv _ _ _ _ _ _ _ Hg) as Hi1. pose proof (vidx_lvl 0 va) as Hx.
  destruct (tab_read k W' F' m1 Hi1 va r 0 t Ht) as (e & E & _ & Htp). change (shift_of 0) with 12 in E, Hx.
  apply wp_bind, wp_wr; [done|done|by exists e|]. fold (addr pa). set (e1 := Z.lor (addr pa) _).
  apply wp_bind, (wp_rd t _ e1); [by apply tp_set_phys|done|by rewrite vphys_set, lookup_insert_eq|].
  apply wp_bind, wp_wr; [by apply tp_set_phys|done|rewrite vphys_set, lookup_insert_eq; by eexists|].
  rewrite vphys_set, set_vphys_set, insert_insert_eq.
  pose proof (leaf_write k W' F' m1 Hi1 r va t (Z.ldiff e1 PTE_COW) Ht (may_create_grow _ _ _ _ _ _ _ _ Hg Hmc)) as Hs.
  subst e1. rewrite map_pte in Hs. unfold vmm_tlb_flush_page. set (m2 := set_vphys _ m1) in *.
  assert (mapped va (prot_leaf pa u32Prot) W' F' (set_flushed (vm_flushed m2 ++ [va]) m2)) as Hm.
  { exists m1. split_and!; [done|by apply leaf_flush; [|apply prefix_app_r]|by exists t| |].
    - intros l Hl. eapply (uw_leaf k W' F' m1 r va); [by apply leaf_flush; [exact Hs|apply prefix_app_r]|lia|by apply Huw].
    - simpl. set_solver. }
  destruct (has u32Prot GJ_VMM_PROT_USER); wsteps; by eapply HQ.
Qed.

(** The leaf that [vmm_map_page] installs. *)
Definition map_leaf (va pa u32Prot : Z) : leaf :=
  prot_leaf pa (if image_va m va then Z.lor GJ_VMM_PROT_READ (Z.lor GJ_VMM_PROT_WRITE GJ_VMM_PROT_EXEC) else u32Prot).

Definition map_refused (va pa u32Prot : Z) : option gj_status :=
  if negb (page_aligned va) || negb (page_aligned pa) then Some GJ_ERR_INVAL
  else if image_va m va && (has u32Prot GJ_VMM_PROT_USER || negb (pa =? va)) then Some GJ_ERR_PERM else None.

Lemma wp_vmm_map_page va pa u32Prot Q :
  may_create k W r ->
  (forall st, map_refused va pa u32Prot = Some st -> Q st m) ->
  (map_refused va pa u32Prot = None -> forall W' m', grow k W F m W' [] m' -> Q GJ_ERR_NOMEM m') ->
  (map_refused va pa u32Prot = None -> forall W' F' m', mapped va (map_leaf va pa u32Prot) W' F' m' -> Q GJ_OK m') ->
  wp (vmm_map_page va pa u32Prot) Q m.
Proof.
  intros Hmc HQr HQ0 HQ. unfold vmm_map_page, map_refused, map_leaf in *.
  destruct (negb (page_aligned va) || negb (page_aligned pa)). { wsteps. by apply HQr. }
  apply wp_bind, wp_va_in_kernel_identity. destruct (image_va m va); cbn [andb] in *.
  - destruct (has u32Prot GJ_VMM_PROT_USER || negb (pa =? va)). { wsteps. by apply HQr. }
    apply wp_map_install; [done|by apply HQ0|by apply HQ].
  - apply wp_map_install; [done|by apply HQ0|by apply HQ].
Qed.

(** ** Unmapping and changing the protection of a page of one's own *)
Context (Hrk : r <> k).

Lemma wp_own_read va t0 Q :
  W !! (r, 0%nat, key 0 va) = Some t0 ->
  (forall W' F' m' e, grow k W F m W' F' m' -> W' !! (r, 0%nat, key 0 va) = Some t0 ->
     vphys m' !! slot t0 (vidx 12 va) = Some e -> tp_ok (vm_pmm m') t0 -> view m r va = pte_leaf e ->
     Q (Some (slot t0 (vidx 12 va))) m') ->
  wp (walk_pte va false) Q m.
Proof.
  intros Ht HQ. apply wp_walk_read; [congruence|]. intros W' F' m' o t e Hg Ho E Htp Hv Hown.
  rewrite (Hown ltac:(by eexists)) in Ho. assert (W' !! (r, 0%nat, key 0 va) = Some t0) as Ht' by (by eapply lookup_weaken; [|apply Hg]).
  rewrite Ht' in Ho. injection Ho as <-. by eapply HQ.
Qed.

(** The leaf [lf] of [va] has become [o]. *)
Definition changed (va : Z) (lf : leaf) (o : option leaf) (W' : tabs) (F' : list Z) (m' : vmm_mem) : Prop :=
  view m r va = Some lf /\ exists m1, grow k W F m W' F' m1 /\ leaf_step k W' F' m1 r va o m' /\ va ∈ vm_flushed m'.

Lemma wp_leaf_change va t0 e e' W' F' m1 lf Q :
  grow k W F m W' F' m1 -> W' !! (r, 0%nat, key 0 va) = Some t0 -> vphys m1 !! slot t0 (vidx 12 va) = Some e ->
  tp_ok (vm_pmm m1) t0 -> view m r va = Some lf ->
  (forall m', changed va lf (pte_leaf e') W' F' m' -> Q tt m') ->
  wp (wr (slot t0 (vidx 12 va)) e' ;;; vmm_tlb_flush_page va) Q m1.
Proof.
  intros Hg Ht E Htp Hv HQ. apply wp_bind, wp_wr; [done|apply (vidx_lvl 0)|by exists e|]. unfold vmm_tlb_flush_page. wsteps.
  apply HQ. split; [done|]. exists m1. split_and!; [done| |simpl; set_solver].
  apply leaf_flush; [|by apply prefix_app_r].
  apply (leaf_write k W' F' m1 (gr_inv _ _ _ _ _ _ _ Hg) r va t0 e'); [done|by left].
Qed.

Definition releases (va : Z) (lf : leaf) : bool :=
  lf_u lf && lf_cow lf && negb (lf_pa lf =? 0) && negb (lf_pa lf =? va).

Lemma wp_vmm_unmap_page va t0 Q :
  W !! (r, 0%nat, key 0 va) = Some t0 ->
  (forall W' F' m', grow k W F m W' F' m' -> view m r va = None -> Q GJ_ERR_NOENT m') ->
  (forall W' F' m' lf, changed va lf None W' F' m' ->
     wp (if releases va lf then release_leaf_frame (lf_pa lf) else pret tt) (fun _ m2 => Q GJ_OK m2) m') ->
  wp (vmm_unmap_page va) Q m.
Proof.
  intros Ht HQ0 HQ. unfold vmm_unmap_page. apply wp_bind, (wp_own_read va t0); [done|].
  intros W' F' m1 e Hg Ht' E Htp Hv. apply wp_bind, (wp_rd t0 _ e); [done|apply (vidx_lvl 0)|done|].
  unfold pte_leaf in Hv. destruct (has e PTE_P) eqn:HP; cbn [negb]. 2: { wsteps. by eapply HQ0. }
  apply wp_assoc, wp_bind, (wp_leaf_change va t0 e 0 W' F' m1 (leaf_at (addr e) e)); try done. intros m2 Hch.
  apply wp_bind. eapply wp_mono; [exact (HQ _ _ _ _ Hch)|]. cbn beta. intros _ m3 HQ3. wsteps. exact HQ3.
Qed.

(** The leaf that [vmm_protect_page] leaves. *)
Definition protect_leaf (va u32Prot : Z) (lf : leaf) : option leaf :=
  if image_va m va then
    if (lf_pa lf =? va) || (lf_pa lf =? 0) then Some (Leaf (addr va) true false false false) else None
  else Some (Leaf (lf_pa lf) (has u32Prot GJ_VMM_PROT_WRITE) (has u32Prot GJ_VMM_PROT_USER)
               (negb (has u32Prot GJ_VMM_PROT_EXEC)) false).

Lemma wp_vmm_protect_page va t0 u32Prot Q :
  W !! (r, 0%nat, key 0 va) = Some t0 ->
  (forall W' F' m', grow k W F m W' F' m' -> view m r va = None -> Q GJ_ERR_NOENT m') ->
  (forall W' F' m' lf, grow k W F m W' F' m' -> view m r va = Some lf -> protect_leaf va u32Prot lf = None -> Q GJ_ERR_PERM m') ->
  (forall W' F' m' lf lf', protect_leaf va u32Prot lf = Some lf' -> changed va lf (Some lf') W' F' m' -> Q GJ_OK m') ->
  wp (vmm_protect_page va u32Prot) Q m.
Proof.
  intros Ht HQ0 HQ1 HQ. unfold vmm_protect_page. apply wp_bind, (wp_own_read va t0); [done|].
  intros W' F' m1 e Hg Ht' E Htp Hv. apply wp_bind, (wp_rd t0 _ e); [done|apply (vidx_lvl 0)|done|].
  unfold pte_leaf in Hv. destruct (has e PTE_P) eqn:HP; cbn [negb]. 2: { wsteps. by eapply HQ0. }
  fold (addr e). apply wp_bind, wp_va_in_kernel_identity.
  assert (image_va m1 va = image_va m va) as Him by (unfold image_va; by rewrite (vk_img _ _ (gr_keep _ _ _ _ _ _ _ Hg))).
  rewrite Him. specialize (HQ W' F'). specialize (HQ1 W' F' m1 (leaf_at (addr e) e) Hg Hv). unfold protect_leaf in HQ1, HQ.
  destruct (image_va m va).
  - simpl in HQ1. destruct ((addr e =? va) || (addr e =? 0)) eqn:Ec.
    + apply wp_assoc, wp_bind, (wp_leaf_change va t0 e _ W' F' m1 (leaf_at (addr e) e)); try done. intros m2 Hch. wsteps.
      eapply (HQ m2 (leaf_at (addr e) e)); [simpl; by rewrite Ec|]. fold (addr va) in Hch.
      assert (pte_leaf (Z.lor (addr va) (Z.lor PTE_P PTE_W)) = Some (Leaf (addr va) true false false false)) as Hl; [|by rewrite Hl in Hch].
      pose proof (frame_addr va) as Hf. unfold pte_leaf, leaf_at. bits. rewrite addr_lor by done.
      rewrite (bit_lor_frame _ _ 0), (bit_lor_frame _ _ 1), (bit_lor_frame _ _ 2), (bit_lor_frame _ _ 63), (bit_lor_frame _ _ 9) by (done || lia).
      done.
    + wsteps. by apply HQ1.
  - apply wp_assoc, wp_bind, (wp_leaf_change va t0 e _ W' F' m1 (leaf_at (addr e) e)); try done. intros m2 Hch. wsteps.
    eapply (HQ m2 (leaf_at (addr e) e)); [done|]. rewrite <-(addr_frame (addr e)) in Hch by apply frame_addr.
    rewrite prot_pte in Hch. unfold prot_leaf in Hch. by rewrite addr_frame in Hch by apply frame_addr.
Qed.
End Ops.

(** * Steps that change some pages of some address spaces: the composition of
    growth and leaf writes. *)

(** Pages of address spaces, by root and page number. *)
Abbreviation overlay := (gmap (Z * Z) (option leaf)).

(** The pages of [D] become what [D] says; no other page of any address space
    changes, nor does memory that is neither table nor free. *)
Record vmove (k : Z) (D : overlay) (W : tabs) (F : list Z) (m : vmm_mem) (W' : tabs) (F' : list Z) (m' : vmm_mem) : Prop := MkVmove {
  mv_inv : vm_inv k W' F' m';
  mv_sub : W ⊆ W';
  mv_roots : forall o, W' !! (o, 3%nat, 0) = W !! (o, 3%nat, 0);
  mv_view : forall o va, W !! (o, 3%nat, 0) = Some o -> view m' o va = default (view m o va) (D !! (o, vpage va));
  mv_flags : forall o l c t i e, W !! (o, l, c) = Some t -> (1 <= l)%nat -> 0 <= i < 512 -> vphys m !! slot t i = Some e ->
    exists e', vphys m' !! slot t i = Some e' /\ (has e PTE_U = true -> has e' PTE_U = true) /\
      (has e PTE_W = true -> has e' PTE_W = true);
  mv_keep : vkeep m m';
  mv_data : forall a, page_of a ∉ F -> no_tab W (page_of a) -> vphys m' !! a = vphys m !! a;
  mv_free : F' ⊆ F;
  mv_used : forall t, t ∈ F -> t ∈ F' \/ exists x, W' !! x = Some t;
  mv_new : forall x t, W' !! x = Some t -> W !! x = Some t \/ t ∈ F }.

Lemma grow_move k W F m W' F' m' : grow k W F m W' F' m' -> vmove k ∅ W F m W' F' m'.
Proof.
  intros Hg. destruct (Hg). split; try done.
  - intros o va Ho. rewrite lookup_empty. simpl. by eapply grow_root.
  - intros o l c t i e Ht _. by eapply gr_flags.
Qed.

Lemma leaf_move k W F m r va o m' : vm_inv k W F m -> leaf_step k W F m r va o m' -> vmove k {[(r, vpage va) := o]} W F m W F m'.
Proof.
  intros Hi [H1 H2 H3 H4 H5 H6]. split; try done.
  - intros a va' Ha. destruct (decide (a = r /\ vpage va' = vpage va)) as [[-> E]|Hne].
    + rewrite E, lookup_singleton_eq. simpl. by apply H4.
    + rewrite lookup_singleton_ne; [|intros Ex; apply Hne; by injection Ex]. simpl. apply H3; [done|].
      destruct (decide (a = r)); [right; naive_solver|by left].
  - intros a l c t i e Ht Hl Hj E. exists e. rewrite (H6 _ _ _ Ht); [done|simpl; lia|done].
  - intros a _. apply H5.
  - auto.
  - auto.
Qed.

Lemma move_trans k D1 D2 W F m W1 F1 m1 W2 F2 m2 :
  vmove k D1 W F m W1 F1 m1 -> vmove k D2 W1 F1 m1 W2 F2 m2 -> vmove k (D2 ∪ D1) W F m W2 F2 m2.
Proof.
  intros [A1 A2 A3 A4 AF A5 A6 A7 A8 A9] [B1 B2 B3 B4 BF B5 B6 B7 B8 B9]. split.
  - done.
  - by transitivity W1.
  - intros o. by rewrite B3.
  - intros o va Ho. rewrite B4, A4 by (done || by rewrite A3). rewrite lookup_union. by destruct (D2 !! _), (D1 !! _).
  - intros o l c t i e Ht Hl Hj He. destruct (AF o l c t i e Ht Hl Hj He) as (e1 & E1 & ? & ?).
    destruct (BF o l c t i e1) as (e2 & E2 & ? & ?); [by eapply lookup_weaken|done|done|done|]. exists e2. auto.
  - by transitivity m1.
  - intros a Ha Hn. rewrite B6, A6; [done|done|done|set_solver|]. intros y Hy. apply A9 in Hy as [Hy|Hy]; [by eapply Hn|done].
  - by transitivity F1.
  - intros t Ht. apply A8 in Ht as [Ht|[x Hx]]; [by apply B8|]. right. exists x. by eapply lookup_weaken.
  - intros x t Hx. apply B9 in Hx as [Hx|Hx]; [by apply A9|]. right. set_solver.
Qed.

Lemma move_refl k W F m : vm_inv k W F m -> vmove k ∅ W F m W F m.
Proof. intros Hi. by apply grow_move, grow_refl. Qed.

Lemma move_grow_leaf k W F m W' F' m1 r va o m' :
  grow k W F m W' F' m1 -> leaf_step k W' F' m1 r va o m' -> vmove k {[(r, vpage va) := o]} W F m W' F' m'.
Proof.
  intros Hg Hs. rewrite <-(right_id_L ∅ (∪) {[(r, vpage va) := o]}).
  eapply move_trans; [by apply grow_move|]. apply leaf_move; [apply Hg|done].
Qed.

Lemma move_again k o1 o2 x W F m W1 F1 m1 W2 F2 m2 :
  vmove k {[x := o1]} W F m W1 F1 m1 -> vmove k {[x := o2]} W1 F1 m1 W2 F2 m2 -> vmove k {[x := o2]} W F m W2 F2 m2.
Proof.
  intros H1 H2. pose proof (move_trans _ _ _ _ _ _ _ _ _ _ _ _ H1 H2) as H. rewrite <-insert_union_singleton_l in H.
  by rewrite insert_singleton_eq in H.
Qed.

Lemma move_empty_l k D W F m W1 F1 m1 W2 F2 m2 :
  vmove k ∅ W F m W1 F1 m1 -> vmove k D W1 F1 m1 W2 F2 m2 -> vmove k D W F m W2 F2 m2.
Proof. intros H1 H2. pose proof (move_trans _ _ _ _ _ _ _ _ _ _ _ _ H1 H2) as H. by rewrite (right_id_L ∅ (∪)) in H. Qed.

Lemma move_empty_r k D W F m W1 F1 m1 W2 F2 m2 :
  vmove k D W F m W1 F1 m1 -> vmove k ∅ W1 F1 m1 W2 F2 m2 -> vmove k D W F m W2 F2 m2.
Proof. intros H1 H2. pose proof (move_trans _ _ _ _ _ _ _ _ _ _ _ _ H1 H2) as H. by rewrite (left_id_L ∅ (∪)) in H. Qed.

Lemma uw_move k D W F m W' F' m' r l va : vmove k D W F m W' F' m' -> (1 <= l)%nat -> uw W m r l va -> uw W' m' r l va.
Proof.
  intros Hg Hl (t & e & Ht & He & HU & HW).
  destruct (mv_flags _ _ _ _ _ _ _ _ Hg _ _ _ _ _ _ Ht Hl (vidx_lvl l va) He) as (e' & E' & HU' & HW').
  exists t, e'. split_and!; [by eapply lookup_weaken; [|apply Hg]|done|auto|auto].
Qed.

Lemma active_move k D W F m W' F' m' r : vmove k D W F m W' F' m' -> active W m r -> active W' m' r.
Proof.
  intros Hg [Ha Hr]. split; [by rewrite (vk_cr3 _ _ (mv_keep _ _ _ _ _ _ _ _ Hg))|]. by rewrite (mv_roots _ _ _ _ _ _ _ _ Hg).
Qed.

(** The upper entries of pages with the same number are the same. *)
Lemma vpage_upper l va va' : vpage va = vpage va' -> key l va = key l va' /\ ((l <= 3)%nat -> vidx (shift_of l) va = vidx (shift_of l) va').
Proof.
  intros E. unfold vpage in E.
  assert (forall s, 12 <= s -> (va mod 2 ^ 48) / 2 ^ s = (va' mod 2 ^ 48) / 2 ^ s) as H.
  { intros s Hs. replace s with (12 + (s - 12)) by lia. rewrite Z.pow_add_r, <-!Z.div_div by lia. by rewrite E. }
  split; [apply H; lia|]. intros Hl. rewrite !vidx_mod by done. rewrite H; [done|]. unfold shift_of. lia.
Qed.

Lemma uw_page W m r l va va' : vpage va = vpage va' -> (l <= 3)%nat -> uw W m r l va -> uw W m r l va'.
Proof. intros E Hl. destruct (vpage_upper l va va' E) as [Ek Ev]. unfold uw. by rewrite Ek, Ev. Qed.

(** * The table of shared frames: its counts are the numbers of copy-on-write
    leaves. *)

Record cow_ok (l : list gj_cow_ref) (cnt : Z -> nat) : Prop := MkCowOk {
  co_used : forall i r, l !! i = Some r -> cr_used r = true ->
    cr_pa r <> 0 /\ cr_cRef r = Z.of_nat (cnt (cr_pa r)) /\ (1 <= cnt (cr_pa r))%nat;
  co_inj : forall i j r r', l !! i = Some r -> l !! j = Some r' -> cr_used r = true -> cr_used r' = true ->
    cr_pa r = cr_pa r' -> i = j;
  co_all : forall pa, (1 <= cnt pa)%nat -> exists i r, l !! i = Some r /\ cr_used r = true /\ cr_pa r = pa }.

Lemma cow_ok_ext l c c' : (forall pa, c pa = c' pa) -> cow_ok l c -> cow_ok l c'.
Proof.
  intros E [H1 H2 H3]. split; [|done|].
  - intros i r Hi Hu. rewrite <-E. eauto.
  - intros pa. rewrite <-E. apply H3.
Qed.

Lemma cow_scan_Some p l : forall i j, cow_scan p i l = Some j -> exists n r, (j = i + n)%nat /\ l !! n = Some r /\ p r = true.
Proof.
  induction l as [|r l IH]; intros i j H; [done|]. simpl in H. destruct (p r) eqn:E.
  - injection H as <-. exists 0%nat, r. split_and!; [lia|done|done].
  - apply IH in H as (n & r' & -> & Hn & Hp). exists (S n), r'. split_and!; [lia|done|done].
Qed.

Lemma cow_scan_None p l : forall i, cow_scan p i l = None -> forall n r, l !! n = Some r -> p r = false.
Proof.
  induction l as [|r l IH]; intros i H n r' Hn; [done|]. simpl in H. destruct (p r) eqn:E; [done|].
  destruct n as [|n]; simpl in Hn; [by injection Hn as <-|by eapply IH].
Qed.

Definition cnt_set (pa : Z) (n : nat) (cnt : Z -> nat) (x : Z) : nat := if x =? pa then n else cnt x.

Section Table.
Context (l : list gj_cow_ref) (cnt : Z -> nat) (Hok : cow_ok l cnt).

Lemma cow_find pa : pa <> 0 ->
  match cow_scan (cow_slot pa) 0 l with
  | Some i => exists r, l !! i = Some r /\ cr_used r = true /\ cr_pa r = pa /\ (1 <= cnt pa)%nat /\ cr_cRef r = Z.of_nat (cnt pa)
  | None => cnt pa = 0%nat
  end.
Proof.
  intros Hpa. destruct (cow_scan (cow_slot pa) 0 l) as [i|] eqn:E.
  - apply cow_scan_Some in E as (n & r & -> & Hn & Hp). apply andb_true_iff in Hp as [Hu Hp]. apply Z.eqb_eq in Hp as <-.
    destruct (co_used _ _ Hok _ _ Hn Hu) as (_ & ? & ?). exists r. done.
  - destruct (decide (1 <= cnt pa)%nat) as [H|H]; [|lia]. destruct (co_all _ _ Hok pa H) as (i & r & Hi & Hu & <-).
    pose proof (cow_scan_None _ _ _ E _ _ Hi) as Hf. unfold cow_slot in Hf. by rewrite Hu, Z.eqb_refl in Hf.
Qed.

(** An entry is replaced by one for the same frame with another count. *)
Lemma cow_ok_count i r n :
  l !! i = Some r -> cr_used r = true -> (1 <= n)%nat ->
  cow_ok (<[i := MkCowRef (cr_pa r) (Z.of_nat n) (cr_used r)]> l) (cnt_set (cr_pa r) n cnt).
Proof.
  intros Hi Hu Hn. split.
  - intros j r' Hj Hu'. apply list_lookup_insert_Some in Hj as [(-> & <- & _)|[Hne Hj]]; cbn in *.
    + unfold cnt_set. rewrite Z.eqb_refl. split_and!; [by destruct (co_used _ _ Hok _ _ Hi Hu)|done|done].
    + destruct (co_used _ _ Hok _ _ Hj Hu') as (? & ? & ?). unfold cnt_set.
      rewrite (proj2 (Z.eqb_neq _ _)); [done|]. intros E. apply Hne. by eapply (co_inj _ _ Hok i j).
  - intros a b ra rb Ha Hb Hua Hub E.
    apply list_lookup_insert_Some in Ha as [(-> & <- & _)|[Hna Ha]], Hb as [(-> & <- & _)|[Hnb Hb]]; cbn in *; try done.
    + by eapply (co_inj _ _ Hok).
    + by eapply (co_inj _ _ Hok).
    + by eapply (co_inj _ _ Hok).
  - intros pa Hc. unfold cnt_set in Hc. destruct (Z.eqb_spec pa (cr_pa r)) as [E|Hne].
    + rewrite E. eexists i, _. split; [by apply list_lookup_insert_eq, (lookup_lt_Some _ _ _ Hi)|done].
    + destruct (co_all _ _ Hok pa Hc) as (j & r' & Hj & Hu' & <-). exists j, r'. split; [|done].
      rewrite list_lookup_insert_ne; [done|]. intros <-. congruence.
Qed.

Lemma cow_ok_clear i r :
  l !! i = Some r -> cr_used r = true -> cow_ok (<[i := MkCowRef 0 0 false]> l) (cnt_set (cr_pa r) 0 cnt).
Proof.
  intros Hi Hu. split.
  - intros j r' Hj Hu'. apply list_lookup_insert_Some in Hj as [(-> & <- & _)|[Hne Hj]]; [done|].
    destruct (co_used _ _ Hok _ _ Hj Hu') as (? & ? & ?). unfold cnt_set.
    rewrite (proj2 (Z.eqb_neq _ _)); [done|]. intros E. apply Hne. by eapply (co_inj _ _ Hok i j).
  - intros a b ra rb Ha Hb Hua Hub E.
    apply list_lookup_insert_Some in Ha as [(-> & <- & _)|[Hna Ha]]; [done|].
    apply list_lookup_insert_Some in Hb as [(-> & <- & _)|[Hnb Hb]]; [done|]. by eapply (co_inj _ _ Hok).
  - intros pa Hc. unfold cnt_set in Hc. destruct (Z.eqb_spec pa (cr_pa r)) as [E|Hne]; [lia|].
    destruct (co_all _ _ Hok pa Hc) as (j & r' & Hj & Hu' & <-). exists j, r'. split; [|done].
    rewrite list_lookup_insert_ne; [done|]. intros <-. congruence.
Qed.

(** A frame enters the table with two references. *)
Lemma cow_ok_new i r0 pa : l !! i = Some r0 -> cr_used r0 = false -> pa <> 0 -> cnt pa = 0%nat ->
  cow_ok (<[i := MkCowRef pa 2 true]> l) (cnt_set pa 2 cnt).
Proof.
  intros Hi Hu Hpa Hc0. assert (forall j r, l !! j = Some r -> cr_used r = true -> cr_pa r <> pa) as Hne.
  { intros j r Hj Hur <-. destruct (co_used _ _ Hok _ _ Hj Hur). lia. }
  split.
  - intros j r' Hj Hu'. unfold cnt_set. apply list_lookup_insert_Some in Hj as [(-> & <- & _)|[_ Hj]]; cbn in *.
    + rewrite Z.eqb_refl. split_and!; [done|done|lia].
    + rewrite (proj2 (Z.eqb_neq _ _)) by eauto. eapply co_used; eauto.
  - intros a b ra rb Ha Hb Hua Hub E.
    apply list_lookup_insert_Some in Ha as [(-> & <- & _)|[Hna Ha]], Hb as [(-> & <- & _)|[Hnb Hb]]; cbn in *; try done.
    + by destruct (Hne _ _ Hb).
    + by destruct (Hne _ _ Ha).
    + by eapply (co_inj _ _ Hok).
  - intros x Hc. unfold cnt_set in Hc. destruct (Z.eqb_spec x pa) as [E|Hx].
    + rewrite E. eexists i, _. split; [by apply list_lookup_insert_eq, (lookup_lt_Some _ _ _ Hi)|done].
    + destruct (co_all _ _ Hok x Hc) as (j & r' & Hj & Hu' & <-). exists j, r'. split; [|done].
      rewrite list_lookup_insert_ne; [done|]. intros <-. congruence.
Qed.
End Table.

Lemma alter_at {A} (f : A -> A) (l : list A) i x : l !! i = Some x -> alter f i l = <[i := f x]> l.
Proof.
  intros E. apply list_eq. intros j. destruct (decide (i = j)) as [<-|Hne].
  - rewrite list_lookup_alter_eq, E, list_lookup_insert_eq; [done|]. by eapply lookup_lt_Some.
  - by rewrite list_lookup_alter_ne, list_lookup_insert_ne.
Qed.

(** ** The operations *)
Lemma wp_vmm_note_peaks Q m : Q tt m -> wp vmm_soft_note_peaks Q m.
Proof.
  intros HQ. unfold vmm_soft_note_peaks. apply wp_bind, wp_tel. intros t. wsteps. destruct (0 <? _); wsteps; exact HQ.
Qed.

Lemma wp_soft_dec c Q m : Q tt m -> wp (soft_dec c) Q m.
Proof. intros HQ. unfold soft_dec. apply wp_bind, wp_tel. intros t. destruct (0 <? _); wsteps; exact HQ. Qed.

(** One reference is given up. *)
Lemma wp_cow_ref_drop pa cnt m Q :
  cow_ok (g_aCowRef m) cnt -> addr pa = pa -> pa <> 0 -> (1 <= cnt pa)%nat ->
  (forall l, cow_ok l (cnt_set pa (cnt pa - 1) cnt) -> Q (Z.of_nat (cnt pa - 1)) (set_cow l m)) ->
  wp (cow_ref_drop pa) Q m.
Proof.
  intros Hok Ha Hpa Hc HQ. unfold cow_ref_drop, cow_ref_find. fold (addr pa). rewrite Ha, (proj2 (Z.eqb_neq _ _)) by done. cbv zeta.
  fold (addr pa). rewrite Ha. wsteps. pose proof (cow_find _ _ Hok pa Hpa) as Hf. destruct (cow_scan (cow_slot pa) 0 (g_aCowRef m)) as [i|]; [|lia].
  destruct Hf as (r & Hr & Hu & <- & _ & Href). wsteps. rewrite Hr, Href. destruct (Z.ltb_spec 1 (Z.of_nat (cnt (cr_pa r)))).
  - wsteps. replace (Z.of_nat (cnt (cr_pa r)) - 1) with (Z.of_nat (cnt (cr_pa r) - 1)) by lia. apply HQ.
    apply cow_ok_count; [done|done|done|lia].
  - wsteps. apply wp_soft_dec. wsteps. replace (cnt (cr_pa r)) with 1%nat in * by lia. apply HQ. cbn [Nat.sub]. by eapply cow_ok_clear.
Qed.

(** One reference more for a tracked frame; an untracked one gets two. *)
Lemma wp_cow_ref_share pa cnt m Q :
  cow_ok (g_aCowRef m) cnt -> addr pa = pa -> pa <> 0 -> Z.of_nat (cnt pa) < U32_MAX ->
  (forall l, length l = length (g_aCowRef m) -> cow_ok l (cnt_set pa (if decide (cnt pa = 0)%nat then 2 else cnt pa + 1)%nat cnt) -> Q 0 (set_cow l m)) ->
  (cnt pa = 0%nat -> Forall (fun r => cr_used r = true) (g_aCowRef m) -> Q (-1) m) ->
  wp (cow_ref_share pa) Q m.
Proof.
  intros Hok Ha Hpa Hc HQ HQf. unfold cow_ref_share, cow_ref_find. fold (addr pa). rewrite Ha, (proj2 (Z.eqb_neq _ _)) by done. cbv zeta.
  fold (addr pa). rewrite Ha. wsteps. pose proof (cow_find _ _ Hok pa Hpa) as Hf. destruct (cow_scan (cow_slot pa) 0 (g_aCowRef m)) as [i|].
  - destruct Hf as (r & Hr & Hu & <- & H1 & Href). wsteps. rewrite (alter_at _ _ _ _ Hr), Href. apply HQ; [by rewrite length_insert|]. rewrite decide_False by lia.
    replace (u32_wrap (Z.of_nat (cnt (cr_pa r)) + 1)) with (Z.of_nat (cnt (cr_pa r) + 1)).
    + apply cow_ok_count; [done|done|done|lia].
    + unfold u32_wrap. rewrite Z.mod_small; [lia|]. unfold U32_MAX in Hc. change (2 ^ 32) with 4294967296. lia.
  - wsteps. destruct (cow_scan (fun r => negb (cr_used r)) 0 (g_aCowRef m)) as [i|] eqn:E.
    + apply cow_scan_Some in E as (n & r & -> & Hn & Hu). wsteps. apply wp_vmm_note_peaks. wsteps. apply HQ; [by rewrite length_insert|].
      rewrite decide_True by done. eapply cow_ok_new; [done|exact Hn|by apply negb_true_iff|done|done].
    + wsteps. apply HQf; [done|]. apply Forall_lookup. intros n r Hn. pose proof (cow_scan_None _ _ _ E _ _ Hn) as Hu.
      by apply negb_false_iff in Hu.
Qed.
