(* ===== verification/VmmSpace.v ===== *)
(** The invariant of all address spaces over one memory: own pages, private and
    shared frames, pages in hand; and how it changes with one page. *)
From stdpp Require Import base gmap list strings.
From Stdlib Require Import ZArith Lia.
From S2P Require Import Prelude CapTypes Pmm PmmInv PmmOps PmmBoot PmmSelf PmmSys Vmm VmmTables VmmEntry VmmWalks VmmOps.

(** * Address spaces with their frames: who maps what, which page belongs to whom,
    and what the table of shared frames counts.

    [O] holds the pages that an address space has changed since it was created,
    [None] for a page it has unmapped; every other page is the template's, [T].
    [H] are pages in the hands of the running operation, [E] references it
    holds. *)

(** ** Counting *)
Definition cow_at (pa : Z) (o : option leaf) : nat :=
  match o with Some lf => if lf_cow lf && (lf_pa lf =? pa) then 1%nat else 0%nat | None => 0%nat end.
Definition cows (O : overlay) (pa : Z) : nat := map_sum (cow_at pa) O.
Definition refs (O : overlay) (E : list Z) (pa : Z) : nat := (cows O pa + countb (fun x => (x =? pa)%Z) E)%nat.

Lemma refs_cons O pa E x : refs O (pa :: E) x = ((if (pa =? x)%Z then 1 else 0) + refs O E x)%nat.
Proof.
  unfold refs, countb. rewrite filter_cons. destruct (pa =? x) eqn:Ex; destruct (decide _) as [Hd|Hd]; cbn [length]; try lia.
Qed.

Lemma cows_insert O x o pa :
  (cows (<[x := o]> O) pa + cow_at pa (default None (O !! x)) = cows O pa + cow_at pa o)%nat.
Proof.
  unfold cows. destruct (O !! x) as [o0|] eqn:Ex.
  - by apply map_sum_update.
  - rewrite map_sum_new by done. simpl. lia.
Qed.

Lemma map_sum_0 {K B} `{Countable K} (f : B -> nat) (M : gmap K B) :
  (forall x a, M !! x = Some a -> f a = 0%nat) -> map_sum f M = 0%nat.
Proof.
  induction M as [|x a M Hx IH] using map_ind; intros Hf; [done|]. rewrite map_sum_new by done.
  rewrite (Hf x a) by apply lookup_insert_eq. apply IH. intros y b Hy. apply (Hf y). rewrite lookup_insert_ne; [done|].
  intros <-. congruence.
Qed.

(** ** The invariant *)
Record user_frame (W : tabs) (F : list Z) (m : vmm_mem) (pa : Z) : Prop := MkFrame {
  uf_ok : page_ok (vm_pmm m) pa;
  uf_in : page_in pa m;
  uf_free : pa ∉ F;
  uf_tab : no_tab W pa }.

Record space_inv (k : Z) (T : Z -> option leaf) (A : gset Z) (H E : list Z) (W : tabs) (F : list Z) (O : overlay) (m : vmm_mem) :
    Prop := MkSpace {
  si_inv : vm_inv k W F m;
  si_view : forall r va, W !! (r, 3%nat, 0) = Some r -> view m r va = default (T (vpage va)) (O !! (r, vpage va));
  si_own : forall r va o, O !! (r, vpage va) = Some o ->
    r <> k /\ is_Some (W !! (r, 0%nat, key 0 va)) /\ (forall l, (1 <= l <= 3)%nat -> uw W m r l va);
  si_leaf : forall x lf, O !! x = Some (Some lf) ->
    lf_u lf = true /\ (lf_cow lf = true -> lf_w lf = false) /\ user_frame W F m (lf_pa lf);
  si_priv : forall x y lf lf', O !! x = Some (Some lf) -> O !! y = Some (Some lf') -> lf_pa lf = lf_pa lf' ->
    lf_cow lf = false -> x = y;
  si_cow : cow_ok (g_aCowRef m) (refs O E);
  si_refs : forall pa, pa ∈ E -> user_frame W F m pa /\
    (forall y lf, O !! y = Some (Some lf) -> lf_pa lf = pa -> lf_cow lf = true);
  si_nodup : NoDup H;
  si_hand : forall x, x ∈ H -> user_frame W F m x /\ (x ∉ E) /\ (forall y lf, O !! y = Some (Some lf) -> lf_pa lf <> x);
  si_pages : forall x, x ∈ A -> x ∈ F \/ (exists y, W !! y = Some x) \/
    (exists y lf, O !! y = Some (Some lf) /\ lf_pa lf = x) \/ x ∈ H \/ x ∈ E }.

Lemma frame_move k D W F m W' F' m' pa : vmove k D W F m W' F' m' -> user_frame W F m pa -> user_frame W' F' m' pa.
Proof.
  intros Hv [H1 [H2 H2'] H3 H4]. pose proof (mv_keep _ _ _ _ _ _ _ _ Hv) as Hk. split.
  - by eapply vkeep_page.
  - split; [by eapply vkeep_tp|]. intros j Hj. apply (vkeep_dom _ _ _ Hk). by apply H2'.
  - intros Hin. apply H3. by apply (mv_free _ _ _ _ _ _ _ _ Hv).
  - intros y Hy. apply (mv_new _ _ _ _ _ _ _ _ Hv) in Hy as [Hy|Hy]; [by apply (H4 y)|done].
Qed.

Lemma frame_data k D W F m W' F' m' pa i : vmove k D W F m W' F' m' -> user_frame W F m pa -> 0 <= i < 512 ->
  vphys m' !! slot pa i = vphys m !! slot pa i.
Proof.
  intros Hv [H1 _ H3 H4] Hi. assert (page_of (slot pa i) = pa) as Hp by (apply slot_page; [apply H1|done]).
  apply (mv_data _ _ _ _ _ _ _ _ Hv); by rewrite Hp.
Qed.

Lemma refs_0 O E x : (forall y lf, O !! y = Some (Some lf) -> lf_pa lf <> x) -> x ∉ E -> refs O E x = 0%nat.
Proof.
  intros Hf He. unfold refs. assert (cows O x = 0%nat) as ->.
  { apply map_sum_0. intros y o Ho. unfold cow_at. destruct o as [lf|]; [|done].
    specialize (Hf _ _ Ho). apply Z.eqb_neq in Hf. by rewrite Hf, andb_false_r. }
  rewrite countb_none; [done|]. apply Forall_forall. intros z Hz. apply Z.eqb_neq. intros ->. done.
Qed.

Section Space.
Context (k : Z) (T : Z -> option leaf) (A : gset Z).

(** Growth of tables. *)
Lemma space_move0 H E W F O m W' F' m' :
  space_inv k T A H E W F O m -> vmove k ∅ W F m W' F' m' -> space_inv k T A H E W' F' O m'.
Proof.
  intros [I1 I2 I3 I4 I5 I6 I7 I8 I9 I10] Hv. split.
  - apply Hv.
  - intros r va Hr. rewrite (mv_roots _ _ _ _ _ _ _ _ Hv) in Hr. rewrite (mv_view _ _ _ _ _ _ _ _ Hv), lookup_empty by done. by apply I2.
  - intros r va o Ho. destruct (I3 _ _ _ Ho) as (? & [t Ht] & Hu). split_and!; [done| |].
    + exists t. by eapply lookup_weaken; [|apply Hv].
    + intros l Hl. eapply uw_move; [done|lia|]. by apply Hu.
  - intros x lf Hx. destruct (I4 _ _ Hx) as (? & ? & ?). split_and!; [done|done|]. by eapply frame_move.
  - done.
  - by rewrite (vk_cow _ _ (mv_keep _ _ _ _ _ _ _ _ Hv)).
  - intros pa Hpa. destruct (I7 pa Hpa). split; [by eapply frame_move|done].
  - done.
  - intros x Hx. destruct (I9 x Hx) as (? & ? & ?). split_and!; [by eapply frame_move|done|done].
  - intros x Hx. destruct (I10 x Hx) as [Hf|[[y Hy]|Hr]].
    + destruct (mv_used _ _ _ _ _ _ _ _ Hv x Hf) as [?|?]; auto.
    + right. left. exists y. by eapply lookup_weaken; [|apply Hv].
    + auto.
Qed.

(** A page is taken from, or given back to, the allocator. *)
Lemma space_taken H E W F O m pa F' m' :
  space_inv k T A H E W F O m -> taken k W F m pa F' m' -> g_aCowRef m' = g_aCowRef m ->
  space_inv k T A (pa :: H) E W F' O m' /\ pa ∉ H.
Proof.
  intros HI Ht Hc. pose proof HI as [I1 I2 I3 I4 I5 I6 I7 I8 I9 I10]. pose proof Ht as (HF & Hi' & Hk & Hfl & Hfr).
  assert (pa ∈ F) as HpF by (rewrite HF; set_solver).
  assert (pa ∉ H) as HpH by (intros Hin; destruct (I9 _ Hin) as [[] _]; done).
  destruct (taken_page k W F m pa F' m' I1 Ht) as (Hp & Hin & Hn & Hf').
  assert (forall x, user_frame W F m x -> user_frame W F' m' x) as Huf.
  { intros x [U1 [U2 U2'] U3 U4]. split; [by eapply vkeep_page| |rewrite HF in U3; set_solver|done].
    split; [by eapply vkeep_tp|]. intros j Hj. apply (vkeep_dom _ _ _ Hk). by apply U2'. }
  assert (forall x t j, W !! x = Some t -> 0 <= j < 512 -> vphys m' !! slot t j = vphys m !! slot t j) as Htab.
  { intros x t j Hx Hj. apply Hfr. by destruct (inv_tab_page k W F m I1 x t j Hx Hj) as [-> ?]. }
  assert (forall r va, W !! (r, 3%nat, 0) = Some r -> view m' r va = view m r va) as Hvw.
  { intros r va Hr. unfold view. eapply (hw_frame (vphys m) k W (vi_pt _ _ _ _ I1)); [exact Htab|by rewrite key_root]. }
  split; [|done]. split; try done.
  - intros r va Hr. rewrite Hvw by done. by apply I2.
  - intros r va o Ho. destruct (I3 _ _ _ Ho) as (? & ? & Hu). split_and!; [done|done|]. intros l Hl.
    destruct (Hu l Hl) as (t & e & Htt & Ee & Hb). exists t, e. split; [done|]. rewrite (Htab _ _ _ Htt (vidx_lvl l va)). done.
  - intros x lf Hx. destruct (I4 _ _ Hx) as (? & ? & ?). split_and!; auto.
  - by rewrite Hc.
  - intros x Hx. destruct (I7 x Hx). split; auto.
  - by constructor.
  - intros x Hx. apply elem_of_cons in Hx as [->|Hx].
    + split_and!; [by split| |].
      * intros He. destruct (I7 _ He) as [[] _]. done.
      * intros y lf Hy <-. destruct (I4 _ _ Hy) as (_ & _ & []). done.
    + destruct (I9 x Hx) as (? & ? & ?). split_and!; auto.
  - intros x Hx. pose proof (I10 x Hx) as Hp10. rewrite HF, elem_of_cons in Hp10. rewrite elem_of_cons. tauto.
Qed.

Lemma wp_space_alloc H E W F O m Q :
  space_inv k T A H E W F O m ->
  (F = [] -> Q 0 m) ->
  (forall pa F' m', pa <> 0 -> taken k W F m pa F' m' -> space_inv k T A (pa :: H) E W F' O m' -> Q pa m') ->
  wp (on_pmm pmm_alloc) Q m.
Proof.
  intros HI HQ0 HQ. apply (wp_page_alloc k W F m (si_inv _ _ _ _ _ _ _ _ _ HI)); [done|]. intros pa F' m' Hpa Ht.
  apply (HQ pa F'); [done|done|]. eapply (space_taken H E W F O m); [done|done|]. destruct Ht as (_ & _ & Hk & _). apply Hk.
Qed.

Lemma wp_space_free H E W F O m pa Q :
  space_inv k T A (pa :: H) E W F O m ->
  (forall m', space_inv k T A H E W (pa :: F) O m' -> vkeep m m' ->
     (forall a, page_of a <> pa -> vphys m' !! a = vphys m !! a) -> Q tt m') ->
  wp (on_pmm (pmm_free pa)) Q m.
Proof.
  intros HI HQ. pose proof HI as [I1 I2 I3 I4 I5 I6 I7 I8 I9 I10]. apply wp_on_pmm.
  destruct (I9 pa ltac:(set_solver)) as ([U1 [U2 U2'] U3 U4] & HE & Hnl). apply NoDup_cons in I8 as [HpH HdH].
  eapply wp_mono; [by apply wp_push_free; [apply I1|..]|]. cbn beta. intros u p [Hok Hs]. destruct u.
  assert (vkeep m (set_pmm p m)) as Hk by (apply vkeep_pmm; by exists [pa]).
  assert (forall a, page_of a <> pa -> vphys (set_pmm p m) !! a = vphys m !! a) as Hfr.
  { intros a Ha. apply Hs. set_solver. }
  apply HQ; [|done|done].
  assert (forall x t j, W !! x = Some t -> 0 <= j < 512 -> vphys (set_pmm p m) !! slot t j = vphys m !! slot t j) as Htab.
  { intros x t j Hx Hj. apply Hfr. destruct (inv_tab_page k W F m I1 x t j Hx Hj) as [-> ?]. intros ->. by apply (U4 x). }
  assert (forall r va, W !! (r, 3%nat, 0) = Some r -> view (set_pmm p m) r va = view m r va) as Hvw.
  { intros r va Hr. unfold view. eapply (hw_frame (vphys m) k W (vi_pt _ _ _ _ I1)); [exact Htab|by rewrite key_root]. }
  assert (forall x, x <> pa -> user_frame W F m x -> user_frame W (pa :: F) (set_pmm p m) x) as Huf.
  { intros x Hx [V1 [V2 V2'] V3 V4]. split; [by eapply vkeep_page| |set_solver|done].
    split; [by eapply vkeep_tp|]. intros j Hj. apply (vkeep_dom _ _ _ Hk). by apply V2'. }
  split; try done.
  - destruct I1 as [V1 V2 V3 V4 V5 V6 V7]. split; try done.
    + intros x i Hx Hj. apply (vkeep_dom _ _ _ Hk). apply elem_of_cons in Hx as [->|Hx]; [by apply U2'|by apply V2].
    + by apply (pt_frame (vphys m)).
    + intros x t Hx. destruct (V6 x t Hx). split; [by eapply vkeep_tp|]. apply not_elem_of_cons. split; [|done].
      intros ->. by apply (U4 x).
    + intros r l c t Hx Hr. eapply vkeep_page; [done|]. by eapply V7.
  - intros r va Hr. rewrite Hvw by done. by apply I2.
  - intros r va o Ho. destruct (I3 _ _ _ Ho) as (? & ? & Hu). split_and!; [done|done|]. intros l Hl.
    destruct (Hu l Hl) as (t & e & Htt & Ee & Hb). exists t, e. split; [done|]. rewrite (Htab _ _ _ Htt (vidx_lvl l va)). done.
  - intros x lf Hx. destruct (I4 _ _ Hx) as (? & ? & ?). split_and!; [done|done|]. apply Huf; [by eapply Hnl|done].
  - intros x Hx. destruct (I7 x Hx). split; [|done]. apply Huf; [by intros ->|done].
  - intros x Hx. destruct (I9 x ltac:(set_solver)) as (? & ? & ?). split_and!; [|done|done]. apply Huf; [by intros ->|done].
  - intros x Hx. pose proof (I10 x Hx) as Hp10. rewrite elem_of_cons in Hp10. rewrite elem_of_cons. tauto.
Qed.
End Space.

(** * One page of an address space changes: what becomes of frames and references. *)

Lemma vm_inv_cow k W F m l : vm_inv k W F m -> vm_inv k W F (set_cow l m).
Proof. intros []. by split. Qed.

Lemma set_cow_id m : set_cow (g_aCowRef m) m = m.
Proof. by destruct m. Qed.

(** The frame of the leaf at a page. *)
Definition frame_at (O : overlay) (x : Z * Z) : option Z := lf_pa <$> default None (O !! x).

Section Put.
Context (k : Z) (T : Z -> option leaf) (A : gset Z).
Context (H E : list Z) (W : tabs) (F : list Z) (O : overlay) (m : vmm_mem) (HI : space_inv k T A H E W F O m).
Context (r va : Z) (o : option leaf) (W' : tabs) (F' : list Z) (m' : vmm_mem).
Context (Hv : vmove k {[(r, vpage va) := o]} W F m W' F' m') (Hrk : r <> k).
Context (Hpt : is_Some (W' !! (r, 0%nat, key 0 va))) (Huw : forall l, (1 <= l <= 3)%nat -> uw W' m' r l va).
Let O' := <[(r, vpage va) := o]> O.

(** The leaf that was put there fits the others. *)
Definition leaf_fits : Prop :=
  match o with
  | Some lf => lf_u lf = true /\ (lf_cow lf = true -> lf_w lf = false) /\ user_frame W F m (lf_pa lf) /\
      (forall y lf', y <> (r, vpage va) -> O !! y = Some (Some lf') -> lf_pa lf' = lf_pa lf -> lf_cow lf = true /\ lf_cow lf' = true)
  | None => True
  end.

Lemma space_put H' E' l :
  leaf_fits -> cow_ok l (refs O' E') ->
  (forall pa, pa ∈ E' -> user_frame W F m pa /\ (forall y lf, O' !! y = Some (Some lf) -> lf_pa lf = pa -> lf_cow lf = true)) ->
  NoDup H' -> (forall x, x ∈ H' -> user_frame W F m x /\ (x ∉ E') /\ (forall y lf, O' !! y = Some (Some lf) -> lf_pa lf <> x)) ->
  (forall p, p ∈ H \/ p ∈ E \/ frame_at O (r, vpage va) = Some p ->
     p ∈ H' \/ p ∈ E' \/ exists y lf, O' !! y = Some (Some lf) /\ lf_pa lf = p) ->
  space_inv k T A H' E' W' F' O' (set_cow l m').
Proof.
  intros Hfit Hcow HE Hd HH Hpg. destruct HI as [I1 I2 I3 I4 I5 I6 I7 I8 I9 I10].
  assert (forall x, user_frame W F m x -> user_frame W' F' (set_cow l m') x) as Huf.
  { intros x Hx. by destruct (frame_move _ _ _ _ _ _ _ _ x Hv Hx). }
  split; try done.
  - apply vm_inv_cow, Hv.
  - intros a va' Ha. change (view (set_cow l m') a va') with (view m' a va'). rewrite (mv_roots _ _ _ _ _ _ _ _ Hv) in Ha.
    rewrite (mv_view _ _ _ _ _ _ _ _ Hv) by done. unfold O'. destruct (decide ((a, vpage va') = (r, vpage va))) as [Ex|Ex].
    + rewrite Ex, lookup_singleton_eq, lookup_insert_eq. done.
    + rewrite lookup_singleton_ne, lookup_insert_ne by done. by apply I2.
  - intros a va' o' Ho. unfold O' in Ho. apply lookup_insert_Some in Ho as [[Ex _]|[_ Ho]].
    + injection Ex as <- Epg. destruct (vpage_upper 0 va va' Epg) as [Ek _]. rewrite <-Ek. split_and!; [done|done|].
      intros l0 Hl. change (uw W' m' r l0 va'). eapply uw_page; [done|lia|by apply Huw].
    + destruct (I3 _ _ _ Ho) as (? & [t Ht] & Hu). split_and!; [done| |].
      * exists t. by eapply lookup_weaken; [|apply Hv].
      * intros l0 Hl. change (uw W' m' a l0 va'). eapply uw_move; [done|lia|]. by apply Hu.
  - intros x lf Hx. unfold O' in Hx. apply lookup_insert_Some in Hx as [[_ Ho]|[_ Hx]].
    + unfold leaf_fits in Hfit. rewrite Ho in Hfit. destruct Hfit as (? & ? & ? & _). auto.
    + destruct (I4 _ _ Hx) as (? & ? & ?). auto.
  - intros x y lf lf' Hx Hy Hpa Hc. unfold O' in Hx, Hy. unfold leaf_fits in Hfit.
    apply lookup_insert_Some in Hx as [[<- Hx]|[Hnx Hx]], Hy as [[<- Hy]|[Hny Hy]].
    + done.
    + rewrite Hx in Hfit. destruct Hfit as (_ & _ & _ & Hu). destruct (Hu y lf'); [done|done|by rewrite Hpa|congruence].
    + rewrite Hy in Hfit. destruct Hfit as (_ & _ & _ & Hu). destruct (Hu x lf); [done|done|done|congruence].
    + by eapply I5.
  - intros pa Hpa. destruct (HE pa Hpa). auto.
  - intros x Hx. destruct (HH x Hx) as (? & ? & ?). auto.
  - intros x Hx. destruct (I10 x Hx) as [Hf|[[y Hy]|[(y & lf & Hy & <-)|HHE]]].
    + destruct (mv_used _ _ _ _ _ _ _ _ Hv x Hf) as [?|?]; auto.
    + right. left. exists y. by eapply lookup_weaken; [|apply Hv].
    + destruct (decide (y = (r, vpage va))) as [->|Hne].
      * destruct (Hpg (lf_pa lf)) as [?|[?|?]]; [|by auto..]. right. right. unfold frame_at. by rewrite Hy.
      * right. right. left. exists y, lf. split; [|done]. unfold O'. by rewrite lookup_insert_ne.
    + destruct (Hpg x) as [?|[?|?]]; [tauto|by auto..].
Qed.
End Put.

Lemma refs_put O x o E pa :
  (refs (<[x := o]> O) E pa + cow_at pa (default None (O !! x)) = refs O E pa + cow_at pa o)%nat.
Proof. unfold refs. pose proof (cows_insert O x o pa). lia. Qed.

Section Cases.
Context (k : Z) (T : Z -> option leaf) (A : gset Z).
Context (H E : list Z) (W : tabs) (F : list Z) (O : overlay) (m : vmm_mem).
Context (r va : Z) (W' : tabs) (F' : list Z) (m' : vmm_mem) (Hrk : r <> k).
Context (Hpt : is_Some (W' !! (r, 0%nat, key 0 va))) (Huw : forall l, (1 <= l <= 3)%nat -> uw W' m' r l va).

(** A page in hand is mapped where nothing was mapped. *)
Lemma space_map pa lf :
  space_inv k T A (pa :: H) E W F O m -> vmove k {[(r, vpage va) := Some lf]} W F m W' F' m' ->
  lf_pa lf = pa -> lf_u lf = true -> lf_cow lf = false -> frame_at O (r, vpage va) = None ->
  space_inv k T A H E W' F' (<[(r, vpage va) := Some lf]> O) m'.
Proof.
  intros HI Hv Hpa Hu Hc Hold. rewrite <-(set_cow_id m'). pose proof HI as [I1 I2 I3 I4 I5 I6 I7 I8 I9 I10].
  destruct (I9 pa ltac:(set_solver)) as (Uf & HnE & Hnm). apply NoDup_cons in I8 as [HnH HdH].
  assert (default None (O !! (r, vpage va)) = None) as Hnone by (unfold frame_at in Hold; by destruct (default None _)).
  eapply (space_put k T A (pa :: H) E W F O m HI r va (Some lf) W' F' m' Hv Hrk Hpt Huw).
  - unfold leaf_fits. rewrite Hpa. split_and!; [done|congruence|done|]. intros y lf' _ Hy Ep. by destruct (Hnm _ _ Hy).
  - rewrite (vk_cow _ _ (mv_keep _ _ _ _ _ _ _ _ Hv)). eapply cow_ok_ext; [|exact I6]. intros p.
    pose proof (refs_put O (r, vpage va) (Some lf) E p) as Hr. rewrite Hnone in Hr. simpl in Hr. rewrite Hc in Hr. simpl in Hr. lia.
  - intros p Hp. destruct (I7 p Hp) as [? Hcow]. split; [done|]. intros y lf' Hy Ep.
    apply lookup_insert_Some in Hy as [[_ Hy]|[_ Hy]]; [|by eapply Hcow]. injection Hy as <-. congruence.
  - done.
  - intros x Hx. destruct (I9 x ltac:(set_solver)) as (? & ? & Hnx). split_and!; [done|done|]. intros y lf' Hy.
    apply lookup_insert_Some in Hy as [[_ Hy]|[_ Hy]]; [|by eapply Hnx]. injection Hy as <-. rewrite Hpa. by intros ->.
  - intros p [Hp|[Hp|Hp]]; [|by auto|congruence]. apply elem_of_cons in Hp as [->|Hp]; [|by auto]. right. right.
    exists (r, vpage va), lf. by rewrite lookup_insert_eq.
Qed.

(** A private page is unmapped: its frame is in hand. *)
Lemma space_unmap lf :
  space_inv k T A H E W F O m -> vmove k {[(r, vpage va) := None]} W F m W' F' m' ->
  O !! (r, vpage va) = Some (Some lf) -> lf_cow lf = false ->
  space_inv k T A (lf_pa lf :: H) E W' F' (<[(r, vpage va) := None]> O) m'.
Proof.
  intros HI Hv Hold Hc. rewrite <-(set_cow_id m'). pose proof HI as [I1 I2 I3 I4 I5 I6 I7 I8 I9 I10].
  destruct (I4 _ _ Hold) as (_ & _ & Uf).
  assert (forall y lf', y <> (r, vpage va) -> O !! y = Some (Some lf') -> lf_pa lf' <> lf_pa lf) as Huniq.
  { intros y lf' Hne Hy Ep. apply Hne. symmetry. by eapply I5. }
  assert (lf_pa lf ∉ H) as HnH by (intros Hin; destruct (I9 _ Hin) as (_ & _ & Hn); by destruct (Hn _ _ Hold)).
  assert (lf_pa lf ∉ E) as HnE by (intros Hin; destruct (I7 _ Hin) as [_ Hn]; rewrite (Hn _ _ Hold) in Hc; done).
  eapply (space_put k T A H E W F O m HI r va None W' F' m' Hv Hrk Hpt Huw).
  - done.
  - rewrite (vk_cow _ _ (mv_keep _ _ _ _ _ _ _ _ Hv)). eapply cow_ok_ext; [|exact I6]. intros p.
    pose proof (refs_put O (r, vpage va) None E p) as Hr. rewrite Hold in Hr. simpl in Hr. rewrite Hc in Hr. simpl in Hr. lia.
  - intros p Hp. destruct (I7 p Hp) as [? Hcow]. split; [done|]. intros y lf' Hy.
    apply lookup_insert_Some in Hy as [[_ Hy]|[_ Hy]]; [done|by eapply Hcow].
  - by constructor.
  - intros x Hx. apply elem_of_cons in Hx as [->|Hx].
    + split_and!; [done|done|]. intros y lf' Hy. apply lookup_insert_Some in Hy as [[_ Hy]|[Hne Hy]]; [done|]. by eapply Huniq.
    + destruct (I9 x Hx) as (? & ? & Hnx). split_and!; [done|done|]. intros y lf' Hy.
      apply lookup_insert_Some in Hy as [[_ Hy]|[_ Hy]]; [done|by eapply Hnx].
  - intros p [Hp|[Hp|Hp]]; [set_solver|by auto|]. unfold frame_at in Hp. rewrite Hold in Hp. simpl in Hp. injection Hp as <-.
    left. set_solver.
Qed.

(** A shared page is unmapped, or replaced by a page in hand: its reference is
    in hand. *)
Lemma space_unshare lf o H0 :
  space_inv k T A H0 E W F O m -> vmove k {[(r, vpage va) := o]} W F m W' F' m' ->
  O !! (r, vpage va) = Some (Some lf) -> lf_cow lf = true ->
  match o with
  | None => H0 = H
  | Some lf' => H0 = lf_pa lf' :: H /\ lf_u lf' = true /\ lf_cow lf' = false
  end ->
  space_inv k T A H (lf_pa lf :: E) W' F' (<[(r, vpage va) := o]> O) m'.
Proof.
  intros HI Hv Hold Hc Ho. rewrite <-(set_cow_id m'). pose proof HI as [I1 I2 I3 I4 I5 I6 I7 I8 I9 I10].
  destruct (I4 _ _ Hold) as (_ & _ & Uf).
  assert (forall lf', o = Some lf' -> lf_pa lf' ∈ H0 /\ lf_u lf' = true /\ lf_cow lf' = false) as Ho'.
  { intros lf' ->. destruct Ho as (-> & ? & ?). split_and!; [set_solver|done|done]. }
  assert (forall x, x ∈ H -> x ∈ H0) as Hsub by (intros x Hx; destruct o; [destruct Ho as (-> & _); set_solver|by subst]).
  assert (NoDup H) as HdH by (destruct o; [destruct Ho as (-> & _); by apply NoDup_cons in I8 as [_ ?]|by subst]).
  assert (forall x, x ∈ H0 -> lf_pa lf <> x) as Hpn by (intros x Hx; destruct (I9 _ Hx) as (_ & _ & Hn); by eapply Hn).
  eapply (space_put k T A H0 E W F O m HI r va o W' F' m' Hv Hrk Hpt Huw).
  - unfold leaf_fits. destruct o as [lf'|]; [|done]. destruct (Ho' lf' eq_refl) as (Hin & ? & Hc'). destruct (I9 _ Hin) as (? & ? & Hn).
    split_and!; [done|congruence|done|]. intros y lf2 _ Hy Ep. by destruct (Hn _ _ Hy).
  - rewrite (vk_cow _ _ (mv_keep _ _ _ _ _ _ _ _ Hv)). eapply cow_ok_ext; [|exact I6]. intros p. rewrite refs_cons.
    pose proof (refs_put O (r, vpage va) o E p) as Hr. rewrite Hold in Hr. simpl in Hr. rewrite Hc in Hr. simpl in Hr.
    assert (cow_at p o = 0%nat) as Ho0; [|lia]. destruct o as [lf'|]; [|done]. simpl. by destruct (Ho' lf' eq_refl) as (_ & _ & ->).
  - intros p Hp. assert (user_frame W F m p /\ forall y lf0, O !! y = Some (Some lf0) -> lf_pa lf0 = p -> lf_cow lf0 = true) as [? Hcow].
    { apply elem_of_cons in Hp as [->|Hp]; [|by apply I7]. split; [done|]. intros y lf0 Hy Ep.
      destruct (lf_cow lf0) eqn:Hc0; [done|]. pose proof (I5 _ _ _ _ Hy Hold Ep Hc0) as ->. rewrite Hold in Hy. congruence. }
    split; [done|]. intros y lf' Hy Ep. apply lookup_insert_Some in Hy as [[_ Hy]|[_ Hy]]; [|by eapply Hcow].
    exfalso. destruct (Ho' lf' Hy) as (Hin & _). rewrite Ep in Hin. apply elem_of_cons in Hp as [->|Hp]; [by destruct (Hpn _ Hin)|].
    by destruct (I9 _ Hin) as (_ & ? & _).
  - done.
  - intros x Hx. destruct (I9 x (Hsub x Hx)) as (? & ? & Hnx). split_and!; [done| |].
    + apply not_elem_of_cons. split; [|done]. intros ->. by destruct (Hpn _ (Hsub _ Hx)).
    + intros y lf' Hy. apply lookup_insert_Some in Hy as [[_ Hy]|[_ Hy]]; [|by eapply Hnx].
      destruct o as [lf2|]; [|done]. destruct Ho as (-> & _). injection Hy as <-. apply NoDup_cons in I8 as [HnH _]. intros Ex. by rewrite Ex in HnH.
  - intros p [Hp|[Hp|Hp]]; [|set_solver|].
    + destruct o as [lf'|]; [|subst; auto]. destruct Ho as (-> & _). apply elem_of_cons in Hp as [->|Hp]; [|by auto]. right. right.
      exists (r, vpage va), lf'. by rewrite lookup_insert_eq.
    + unfold frame_at in Hp. rewrite Hold in Hp. simpl in Hp. injection Hp as <-. right. left. set_solver.
Qed.

(** The protection of a private page changes. *)
Lemma space_protect lf lf' :
  space_inv k T A H E W F O m -> vmove k {[(r, vpage va) := Some lf']} W F m W' F' m' ->
  O !! (r, vpage va) = Some (Some lf) -> lf_cow lf = false -> lf_pa lf' = lf_pa lf -> lf_u lf' = true -> lf_cow lf' = false ->
  space_inv k T A H E W' F' (<[(r, vpage va) := Some lf']> O) m'.
Proof.
  intros HI Hv Hold Hc Hpa Hu Hc'. rewrite <-(set_cow_id m'). pose proof HI as [I1 I2 I3 I4 I5 I6 I7 I8 I9 I10].
  destruct (I4 _ _ Hold) as (_ & _ & Uf).
  eapply (space_put k T A H E W F O m HI r va (Some lf') W' F' m' Hv Hrk Hpt Huw).
  - unfold leaf_fits. rewrite Hpa. split_and!; [done|congruence|done|]. intros y lf2 Hne Hy Ep. destruct Hne. symmetry.
    by eapply I5.
  - rewrite (vk_cow _ _ (mv_keep _ _ _ _ _ _ _ _ Hv)). eapply cow_ok_ext; [|exact I6]. intros p.
    pose proof (refs_put O (r, vpage va) (Some lf') E p) as Hr. rewrite Hold in Hr. simpl in Hr. rewrite Hc, Hc' in Hr. simpl in Hr. lia.
  - intros p Hp. destruct (I7 p Hp) as [? Hcow]. split; [done|]. intros y lf2 Hy Ep.
    apply lookup_insert_Some in Hy as [[_ Hy]|[_ Hy]]; [|by eapply Hcow]. injection Hy as <-. rewrite Hpa in Ep.
    rewrite (Hcow _ _ Hold Ep) in Hc. done.
  - done.
  - intros x Hx. destruct (I9 x Hx) as (? & ? & Hnx). split_and!; [done|done|]. intros y lf2 Hy.
    apply lookup_insert_Some in Hy as [[_ Hy]|[_ Hy]]; [|by eapply Hnx]. injection Hy as <-. rewrite Hpa. by eapply Hnx.
  - intros p [Hp|[Hp|Hp]]; [by auto|by auto|]. unfold frame_at in Hp. rewrite Hold in Hp. simpl in Hp. injection Hp as <-.
    right. right. exists (r, vpage va), lf'. by rewrite lookup_insert_eq.
Qed.
End Cases.

(** * The calls of [Vmm] on address spaces with frames: release of references,
    unmapping, protection, and breaking of copy-on-write. *)

(** Registers and configuration. *)
Record vregs (m m' : vmm_mem) : Prop := MkVregs {
  vr_cr3 : vm_cr3 m' = vm_cr3 m;
  vr_wp : vm_wp m' = vm_wp m;
  vr_smap : vm_smap m' = vm_smap m;
  vr_ac : vm_ac m' = vm_ac m;
  vr_cur : vm_cursors m' = vm_cursors m;
  vr_acur : g_pAnonCursor m' = g_pAnonCursor m;
  vr_img : vm_image m' = vm_image m }.
#[export] Instance vregs_preorder : PreOrder vregs.
Proof. split; [by intros m; split|]. intros m1 m2 m3 [] []. split; congruence. Qed.
Lemma vkeep_regs m m' : vkeep m m' -> vregs m m'.
Proof. intros []. by split. Qed.
Lemma regs_cow l m m' : vregs m m' -> vregs m (set_cow l m').
Proof. intros []. by split. Qed.

Definition mapped_frame (O : overlay) (pa : Z) : Prop := exists y lf, O !! y = Some (Some lf) /\ lf_pa lf = pa.

(** The contents of frame [pa] are the same. *)
Definition same_frame (m m' : vmm_mem) (pa : Z) : Prop := forall i, 0 <= i < 512 -> vphys m' !! slot pa i = vphys m !! slot pa i.

Lemma vcountb_pos {B} (p : B -> bool) (l : list B) : (1 <= countb p l)%nat -> exists x, x ∈ l /\ p x = true.
Proof.
  unfold countb. intros Hc. destruct (filter (fun x => p x = true) l) as [|x l'] eqn:Ef; [simpl in Hc; lia|].
  exists x. assert (x ∈ filter (fun x => p x = true) l) as Hx by (rewrite Ef; set_solver). apply list_elem_of_filter in Hx. naive_solver.
Qed.

Lemma map_sum_pos {K B} `{Countable K} (f : B -> nat) (M : gmap K B) :
  (1 <= map_sum f M)%nat -> exists x a, M !! x = Some a /\ (1 <= f a)%nat.
Proof.
  induction M as [|x a M Hx IH] using map_ind; intros Hs; [unfold map_sum in Hs; rewrite map_fold_empty in Hs; lia|].
  rewrite map_sum_new in Hs by done. destruct (decide (1 <= f a)%nat) as [Ha|Ha].
  - exists x, a. by rewrite lookup_insert_eq.
  - destruct IH as (y & b & Hy & Hb); [lia|]. exists y, b. split; [|done]. rewrite lookup_insert_ne; [done|]. intros <-. congruence.
Qed.

Lemma cows_mapped O pa : (1 <= cows O pa)%nat -> mapped_frame O pa.
Proof.
  intros Hc. apply map_sum_pos in Hc as (y & o & Hy & Ho). destruct o as [lf|]; [|simpl in Ho; lia]. exists y, lf. split; [done|].
  simpl in Ho. destruct (lf_cow lf && (lf_pa lf =? pa)) eqn:Eb; [|lia]. apply andb_true_iff in Eb as [_ Eb]. by apply Z.eqb_eq.
Qed.

Lemma mapped_cow_refs O E y lf : O !! y = Some (Some lf) -> lf_cow lf = true -> (1 <= refs O E (lf_pa lf))%nat.
Proof.
  intros Hy Hc. unfold refs. enough (1 <= cows O (lf_pa lf))%nat by lia. pose proof (map_sum_le (cow_at (lf_pa lf)) O y _ Hy) as Hle.
  unfold cows. simpl in Hle. rewrite Hc, Z.eqb_refl in Hle. simpl in Hle. lia.
Qed.

Section Calls.
Context (k : Z) (T : Z -> option leaf) (A : gset Z).

(** ** References *)
Lemma space_drop H E W F O m pa l :
  space_inv k T A H (pa :: E) W F O m -> cow_ok l (refs O E) ->
  space_inv k T A (if decide (refs O E pa = 0)%nat then pa :: H else H) E W F O (set_cow l m).
Proof.
  intros [I1 I2 I3 I4 I5 I6 I7 I8 I9 I10] Hok. destruct (I7 pa ltac:(set_solver)) as [Uf Hcow].
  assert (forall x, user_frame W F m x -> user_frame W F (set_cow l m) x) as Huf by (intros x []; by split).
  assert (pa ∉ H) as HnH by (intros Hin; destruct (I9 _ Hin) as (_ & Hn & _); set_solver).
  assert (refs O E pa = 0%nat -> forall y lf, O !! y = Some (Some lf) -> lf_pa lf <> pa) as Hz.
  { intros Hr y lf Hy <-. pose proof (mapped_cow_refs O E y lf Hy (Hcow _ _ Hy eq_refl)). lia. }
  assert (refs O E pa = 0%nat -> pa ∉ E) as HzE.
  { intros Hr Hin. unfold refs in Hr. assert (countb (fun x => (x =? pa)%Z) E = 0)%nat as H0 by lia. unfold countb in H0.
    apply length_zero_iff_nil in H0. assert (pa ∈ filter (fun x => (x =? pa) = true) E) as Hf.
    { apply list_elem_of_filter. by rewrite Z.eqb_refl. }
    rewrite H0 in Hf. by apply elem_of_nil in Hf. }
  split; try done.
  - by apply vm_inv_cow.
  - intros x lf Hx. destruct (I4 _ _ Hx) as (? & ? & ?). auto.
  - intros x Hx. destruct (I7 x ltac:(set_solver)). auto.
  - destruct (decide (refs O E pa = 0%nat)) as [Hr|Hr]; [apply NoDup_cons; by split|exact I8].
  - intros x Hx. assert (x ∈ H -> user_frame W F (set_cow l m) x /\ (x ∉ E) /\ forall y lf, O !! y = Some (Some lf) -> lf_pa lf <> x) as Hh.
    { intros Hin. destruct (I9 x Hin) as (? & ? & ?). split_and!; [by auto|set_solver|done]. }
    destruct (decide (refs O E pa = 0%nat)) as [Hr|Hr]; [|by apply Hh]. apply elem_of_cons in Hx as [->|Hx]; [|by apply Hh].
    split_and!; [by apply Huf|by apply HzE|by apply Hz].
  - intros x Hx. pose proof (I10 x Hx) as Hp. rewrite elem_of_cons in Hp. destruct (decide (x = pa)) as [->|Hne].
    + destruct (decide (refs O E pa = 0%nat)) as [Hr|Hr]; [right; right; right; left; set_solver|].
      unfold refs in Hr. destruct (decide (1 <= cows O pa)%nat) as [Hc|Hc].
      * right. right. left. by apply cows_mapped.
      * destruct (vcountb_pos (fun x => x =? pa) E) as (z & Hz' & Ez); [lia|]. apply Z.eqb_eq in Ez as ->. auto.
    + destruct (decide (refs O E pa = 0%nat)); [rewrite elem_of_cons|]; tauto.
Qed.

Lemma refs_drop O E pa : forall x, cnt_set pa (refs O (pa :: E) pa - 1) (refs O (pa :: E)) x = refs O E x.
Proof.
  intros x. unfold cnt_set. rewrite !refs_cons, Z.eqb_refl. destruct (Z.eqb_spec x pa) as [->|Hne]; [lia|].
  rewrite (proj2 (Z.eqb_neq pa x)); [lia|done].
Qed.

Lemma frame_addr_id W F m pa : user_frame W F m pa -> addr pa = pa /\ pa <> 0.
Proof.
  intros [Hp _ _ _]. pose proof (page_ok_bounds _ _ Hp). split; [|lia]. by eapply addr_frame, tp_frame, page_tp.
Qed.

(** One reference in hand is dropped. *)
Lemma wp_space_drop H E W F O m pa Q :
  space_inv k T A H (pa :: E) W F O m ->
  (forall l, space_inv k T A (if decide (refs O E pa = 0)%nat then pa :: H else H) E W F O (set_cow l m) ->
     Q (Z.of_nat (refs O E pa)) (set_cow l m)) ->
  wp (cow_ref_drop pa) Q m.
Proof.
  intros HI HQ. destruct (si_refs _ _ _ _ _ _ _ _ _ HI pa ltac:(set_solver)) as [Uf _]. destruct (frame_addr_id _ _ _ _ Uf) as [Ha Hn].
  assert (1 <= refs O (pa :: E) pa)%nat as H1 by (rewrite refs_cons, Z.eqb_refl; lia).
  apply (wp_cow_ref_drop pa (refs O (pa :: E))); [apply HI|done|done|done|]. intros l Hl.
  replace (refs O (pa :: E) pa - 1)%nat with (refs O E pa) by (rewrite refs_cons, Z.eqb_refl; lia). apply HQ.
  apply space_drop; [done|]. eapply cow_ok_ext; [|exact Hl]. apply refs_drop.
Qed.

(** What a call did to the free pages, the registers and the frames that are
    still mapped. *)
Record did (O' : overlay) (H' : list Z) (m m' : vmm_mem) : Prop := MkDid {
  di_regs : vregs m m';
  di_data : forall pa, mapped_frame O' pa \/ pa ∈ H' -> same_frame m m' pa }.

Definition same_tabs (W : tabs) (m m' : vmm_mem) : Prop :=
  forall x t i, W !! x = Some t -> 0 <= i < 512 -> vphys m' !! slot t i = vphys m !! slot t i.

Lemma wp_frame_release H E W F O m pa Q :
  space_inv k T A H (pa :: E) W F O m ->
  (forall F' m', space_inv k T A H E W F' O m' -> did O H m m' -> same_tabs W m m' -> Q tt m') ->
  wp (release_leaf_frame pa) Q m.
Proof.
  intros HI HQ. destruct (si_refs _ _ _ _ _ _ _ _ _ HI pa ltac:(set_solver)) as [Uf _]. destruct (frame_addr_id _ _ _ _ Uf) as [Ha Hn].
  unfold release_leaf_frame. rewrite (proj2 (Z.eqb_neq _ _)) by done. apply wp_bind, (wp_space_drop H E W F O); [done|].
  intros l HI1. destruct (decide (refs O E pa = 0)%nat) as [Hr|Hr].
  - rewrite Hr. simpl. apply (wp_space_free k T A H E W F O); [done|]. intros m' HI' Hk Hfr.
    pose proof HI1 as [J1 J2 J3 J4 J5 J6 J7 J8 J9 J10]. destruct (J9 pa ltac:(set_solver)) as ([_ _ _ Hnt] & _ & Hnm). eapply HQ; [done| |].
    2: { intros x t i Hx Hi. rewrite Hfr; [done|]. destruct (inv_tab_page k W F _ J1 x t i Hx Hi) as [-> _]. intros ->. by apply (Hnt x). }
    split.
    + etrans; [apply (regs_cow l m m); reflexivity|]. by apply vkeep_regs.
    + intros x Hx i Hj. rewrite Hfr; [done|]. assert (x <> pa /\ x mod GJ_PAGE_SIZE = 0) as [Hne Hal].
      { destruct Hx as [(y & lf & Hy & <-)|Hx].
        - split; [by eapply Hnm|]. destruct (J4 _ _ Hy) as (_ & _ & [[] _ _ _]). done.
        - split; [|destruct (J9 x ltac:(set_solver)) as ([[] _ _ _] & _); done]. apply NoDup_cons in J8 as [? _]. by intros ->. }
      by rewrite slot_page.
  - rewrite (proj2 (Z.eqb_neq _ _)) by lia. apply wp_ret. eapply HQ; [done| |done]. split; [|done].
    apply (regs_cow l m m). reflexivity.
Qed.
End Calls.
