(* ===== verification/VmmUser.v ===== *)
(** What processes see: pages by content and permission, and the operations on a
    process's own pages up to a store that ends copy-on-write. *)
From stdpp Require Import base gmap list strings.
From Stdlib Require Import ZArith Lia.
From S2P Require Import Prelude CapTypes Pmm PmmInv PmmOps PmmBoot PmmSelf PmmSys Vmm VmmTables VmmEntry VmmWalks VmmOps VmmSpace.

(** * What processes see of their pages: contents and permissions, whoever shares
    the frames. *)

(** The words of a frame. *)
Definition words (m : vmm_mem) (pa : Z) : list Z := (fun i => default 0 (vphys m !! slot pa i)) <$> seqZ 0 512.

#[global] Arguments words : simpl never.

(** A private page: a copy-on-write page is one that can be written. *)
Record upage : Type := UPage { up_words : list Z; up_w : bool; up_nx : bool }.
Definition abs_leaf (m : vmm_mem) (lf : leaf) : upage := UPage (words m (lf_pa lf)) (lf_w lf || lf_cow lf) (lf_nx lf).

(** The pages of all processes, by root and page number; [None] is a hole. *)
Abbreviation uspace := (gmap (Z * Z) (option upage)).
Definition abs (m : vmm_mem) (O : overlay) : uspace := (fun o : option leaf => abs_leaf m <$> o) <$> O.

Lemma words_same m m' pa : same_frame m m' pa -> words m' pa = words m pa.
Proof.
  intros Hs. unfold words. apply list_fmap_ext. intros j i Hj. apply lookup_seqZ in Hj as [-> Hj]. by rewrite Hs by lia.
Qed.

Lemma words_put m pa f : words (set_vphys (put_words PT_WORDS 0 pa f (vphys m)) m) pa = f <$> seqZ 0 512.
Proof.
  unfold words. apply list_fmap_ext. intros j i Hj. apply lookup_seqZ in Hj as [-> Hj].
  rewrite vphys_set, put_words_in; [done|]. rewrite PT_WORDS_512. lia.
Qed.

Lemma words_length m pa : length (words m pa) = 512%nat.
Proof. unfold words. by rewrite length_fmap, length_seqZ. Qed.

Lemma words_lookup m pa i : 0 <= i < 512 -> words m pa !! Z.to_nat i = Some (default 0 (vphys m !! slot pa i)).
Proof.
  intros Hi. unfold words. rewrite list_lookup_fmap. rewrite lookup_seqZ_lt by lia. simpl. by rewrite Z2Nat.id by lia.
Qed.

Lemma words_put_same m pa : page_in pa m -> vphys m = put_words PT_WORDS 0 pa (fun i => default 0 (vphys m !! slot pa i)) (vphys m).
Proof.
  intros [_ Hin]. symmetry. apply put_words_same. intros j Hj. rewrite PT_WORDS_512 in Hj. destruct (Hin j ltac:(lia)) as [v ->]. done.
Qed.

Lemma abs_ext m m' O : (forall pa, mapped_frame O pa -> same_frame m m' pa) -> abs m' O = abs m O.
Proof.
  intros Hs. apply map_eq. intros x. unfold abs. rewrite !lookup_fmap. destruct (O !! x) as [[lf|]|] eqn:Hx; [|done..]. simpl.
  unfold abs_leaf. rewrite (words_same m m'); [done|]. apply Hs. by exists x, lf.
Qed.

Lemma abs_insert m O x o : abs m (<[x := o]> O) = <[x := abs_leaf m <$> o]> (abs m O).
Proof. unfold abs. by rewrite fmap_insert. Qed.

Lemma abs_lookup m O x o : O !! x = Some o -> abs m O !! x = Some (abs_leaf m <$> o).
Proof. intros Hx. unfold abs. by rewrite lookup_fmap, Hx. Qed.

Lemma abs_insert_same m O x lf lf' : O !! x = Some (Some lf) -> abs_leaf m lf' = abs_leaf m lf ->
  abs m (<[x := Some lf']> O) = abs m O.
Proof. intros Hx E. rewrite abs_insert. simpl. rewrite E. apply insert_id. by rewrite (abs_lookup m O x _ Hx). Qed.

(** The machine after a call: which pages it has, and what they hold. *)
Record after (k : Z) (T : Z -> option leaf) (A : gset Z) (H E : list Z) (O : overlay) (N : uspace) (W : tabs) (m : vmm_mem)
    (W' : tabs) (F' : list Z) (m' : vmm_mem) : Prop := MkAfter {
  af_inv : space_inv k T A H E W' F' O m';
  af_roots : forall o, W' !! (o, 3%nat, 0) = W !! (o, 3%nat, 0);
  af_regs : vregs m m';
  af_abs : abs m' O = N }.

Lemma active_regs W m W' m' r : (forall o, W' !! (o, 3%nat, 0) = W !! (o, 3%nat, 0)) -> vregs m m' -> active W m r -> active W' m' r.
Proof. intros Hr Hg [Ha Hw]. split; [by rewrite (vr_cr3 _ _ Hg)|by rewrite Hr]. Qed.

Lemma after_active k T A H E O N W m W' F' m' r : after k T A H E O N W m W' F' m' -> active W m r -> active W' m' r.
Proof. intros Ha. apply active_regs; apply Ha. Qed.

(** A call that starts where another ended. *)
Lemma after_from k T A H E O N N0 W0 m0 W m W' F' m' F :
  (exists H0 E0 O0, after k T A H0 E0 O0 N0 W0 m0 W F m) -> after k T A H E O N W m W' F' m' -> after k T A H E O N W0 m0 W' F' m'.
Proof.
  intros (H0 & E0 & O0 & [A1 A2 A3 A4]) [B1 B2 B3 B4]. split; [done| |by etrans|done]. intros o. by rewrite B2.
Qed.

Section Abs.
Context (k : Z) (T : Z -> option leaf) (A : gset Z).

Lemma mapped_user H E W F O m pa : space_inv k T A H E W F O m -> mapped_frame O pa -> user_frame W F m pa.
Proof. intros HI (y & lf & Hy & <-). by apply (si_leaf _ _ _ _ _ _ _ _ _ HI y). Qed.

Lemma move_same D W F m W' F' m' pa : vmove k D W F m W' F' m' -> user_frame W F m pa -> same_frame m m' pa.
Proof. intros Hv Hu i Hi. by eapply frame_data. Qed.

(** Growth of tables is invisible. *)
Lemma after_grow H E W F O m W' F' m' :
  space_inv k T A H E W F O m -> grow k W F m W' F' m' -> after k T A H E O (abs m O) W m W' F' m'.
Proof.
  intros HI Hg. pose proof (grow_move _ _ _ _ _ _ _ Hg) as Hv. split.
  - by eapply space_move0.
  - apply Hg.
  - apply vkeep_regs, Hg.
  - apply abs_ext. intros pa Hpa. eapply move_same; [done|]. by eapply mapped_user.
Qed.

(** One page changes. *)
Lemma after_put H E W F O m W' F' m' H' E' r va o :
  space_inv k T A H E W F O m -> vmove k {[(r, vpage va) := o]} W F m W' F' m' ->
  space_inv k T A H' E' W' F' (<[(r, vpage va) := o]> O) m' ->
  (forall lf, o = Some lf -> user_frame W F m (lf_pa lf)) ->
  after k T A H' E' (<[(r, vpage va) := o]> O) (<[(r, vpage va) := abs_leaf m <$> o]> (abs m O)) W m W' F' m'.
Proof.
  intros HI Hv HI' Ho. split; [done|apply Hv|apply vkeep_regs, Hv|]. rewrite <-abs_insert. apply abs_ext.
  intros pa (y & lf & Hy & <-). eapply move_same; [done|]. apply lookup_insert_Some in Hy as [[_ Hy]|[_ Hy]]; [by apply Ho|].
  eapply mapped_user; [done|]. by exists y, lf.
Qed.

Lemma after_did H W O m H' E' F' m' :
  space_inv k T A H' E' W F' O m' -> did O H m m' -> after k T A H' E' O (abs m O) W m W F' m'.
Proof. intros HI Hd. split; [done|done|apply Hd|]. apply abs_ext. intros pa Hpa. apply Hd. by left. Qed.

(** An address space's own page. *)
Lemma own_page H E W F O m r va o : space_inv k T A H E W F O m -> active W m r -> O !! (r, vpage va) = Some o ->
  r <> k /\ view m r va = o /\ exists t, W !! (r, 0%nat, key 0 va) = Some t.
Proof.
  intros HI [_ Hr] Ho. destruct (si_own _ _ _ _ _ _ _ _ _ HI _ _ _ Ho) as (Hk & Ht & _). split_and!; [done| |done].
  rewrite (si_view _ _ _ _ _ _ _ _ _ HI) by done. by rewrite Ho.
Qed.

(** A leaf of an address space's own has been written. *)
Lemma changed_move H E W F O m r va o0 lf o W' F' m' :
  space_inv k T A H E W F O m -> O !! (r, vpage va) = Some o0 -> changed k W F m r va lf o W' F' m' ->
  vmove k {[(r, vpage va) := o]} W F m W' F' m' /\ is_Some (W' !! (r, 0%nat, key 0 va)) /\
  (forall l, (1 <= l <= 3)%nat -> uw W' m' r l va).
Proof.
  intros HI Ho (Hv & m1 & Hg & Hs & _). pose proof (move_grow_leaf _ _ _ _ _ _ _ _ _ _ _ Hg Hs) as Hm.
  destruct (si_own _ _ _ _ _ _ _ _ _ HI _ _ _ Ho) as (_ & [t Ht] & Hu). split_and!; [done| |].
  - exists t. by eapply lookup_weaken; [|apply Hg].
  - intros l Hl. eapply uw_move; [done|lia|by apply Hu].
Qed.
End Abs.

(** * The page operations on a process's own pages: unmapping, protection, and the
    private copy that ends copy-on-write. *)

Section User.
Context (k : Z) (T : Z -> option leaf) (A : gset Z).
Context (H E : list Z) (W : tabs) (F : list Z) (O : overlay) (m : vmm_mem).
Context (HI : space_inv k T A H E W F O m) (r : Z) (Hact : active W m r).

Let Hi : vm_inv k W F m := si_inv _ _ _ _ _ _ _ _ _ HI.

Lemma leaf_pa_pos x lf : O !! x = Some (Some lf) -> lf_pa lf <> 0 /\ addr (lf_pa lf) = lf_pa lf.
Proof.
  intros Hx. destruct (si_leaf _ _ _ _ _ _ _ _ _ HI _ _ Hx) as (_ & _ & Hu). destruct (frame_addr_id _ _ _ _ Hu). done.
Qed.

(** ** Unmapping *)
Lemma wp_unmap_hole va Q :
  O !! (r, vpage va) = Some None ->
  (forall W' F' m', after k T A H E O (abs m O) W m W' F' m' -> Q GJ_ERR_NOENT m') ->
  wp (vmm_unmap_page va) Q m.
Proof.
  intros Ho HQ. destruct (own_page k T A H E W F O m r va _ HI Hact Ho) as (Hk & Hv & t & Ht).
  eapply (wp_vmm_unmap_page k W F m Hi r Hact); [done|done| |].
  - intros W' F' m' Hg _. eapply HQ. by eapply after_grow.
  - intros W' F' m' lf (Hv' & _). congruence.
Qed.

(** The reference of a shared page is dropped, unless the page maps its own
    address; the frame of a private one is the caller's. *)
Definition unmap_hand (lf : leaf) : list Z := if lf_cow lf then H else lf_pa lf :: H.
Definition unmap_refs (va : Z) (lf : leaf) : list Z := if lf_cow lf && (lf_pa lf =? va) then lf_pa lf :: E else E.

Lemma wp_unmap_own va lf Q :
  O !! (r, vpage va) = Some (Some lf) ->
  (forall W' F' m', after k T A (unmap_hand lf) (unmap_refs va lf) (<[(r, vpage va) := None]> O)
     (<[(r, vpage va) := None]> (abs m O)) W m W' F' m' -> Q GJ_OK m') ->
  wp (vmm_unmap_page va) Q m.
Proof.
  intros Ho HQ. destruct (own_page k T A H E W F O m r va _ HI Hact Ho) as (Hk & Hv & t & Ht).
  destruct (leaf_pa_pos _ _ Ho) as [Hp _]. destruct (si_leaf _ _ _ _ _ _ _ _ _ HI _ _ Ho) as (Hu & _ & _).
  eapply (wp_vmm_unmap_page k W F m Hi r Hact); [done|done| |].
  - intros W' F' m' _ Hv'. congruence.
  - intros W' F' m1 lf' Hch. pose proof Hch as (Hv' & _). rewrite Hv in Hv'. injection Hv' as <-.
    destruct (changed_move k T A H E W F O m r va _ lf None W' F' m1 HI Ho Hch) as (Hm & Hpt & Huw).
    unfold releases. rewrite Hu, (proj2 (Z.eqb_neq (lf_pa lf) 0)) by done. unfold unmap_hand, unmap_refs in HQ.
    destruct (lf_cow lf) eqn:Hc; cbn [andb negb].
    + pose proof (space_unshare k T A H E W F O m r va W' F' m1 Hk Hpt Huw lf None H HI Hm Ho Hc eq_refl) as HI1.
      destruct (lf_pa lf =? va) eqn:Eva; cbn [negb andb] in *.
      * apply wp_ret. eapply HQ. eapply (after_put k T A H E W F O m W' F' m1 _ _ r va None); done.
      * apply (wp_frame_release k T A H E W' F' (<[(r, vpage va) := None]> O)); [done|]. intros F2 m2 HI2 Hd _. eapply HQ.
        assert (after k T A H (lf_pa lf :: E) (<[(r, vpage va) := None]> O) (<[(r, vpage va) := None]> (abs m O)) W m W' F' m1) as Ha1.
        { eapply (after_put k T A H E W F O m W' F' m1 _ _ r va None); done. }
        eapply after_from; [by exists H, (lf_pa lf :: E), (<[(r, vpage va) := None]> O)|]. rewrite <-(af_abs _ _ _ _ _ _ _ _ _ _ _ _ Ha1).
        by eapply after_did.
    + apply wp_ret. eapply HQ. eapply (after_put k T A H E W F O m W' F' m1 _ _ r va None); [done|done| |done].
      eapply space_unmap; done.
Qed.

(** ** Protection *)
Lemma wp_protect_own va lf u32Prot Q :
  O !! (r, vpage va) = Some (Some lf) -> lf_cow lf = false -> image_va m va = false -> has u32Prot GJ_VMM_PROT_USER = true ->
  (forall W' F' m' lf', lf_pa lf' = lf_pa lf -> after k T A H E (<[(r, vpage va) := Some lf']> O)
     (<[(r, vpage va) := Some (UPage (words m (lf_pa lf)) (has u32Prot GJ_VMM_PROT_WRITE) (negb (has u32Prot GJ_VMM_PROT_EXEC)))]> (abs m O))
     W m W' F' m' -> Q GJ_OK m') ->
  wp (vmm_protect_page va u32Prot) Q m.
Proof.
  intros Ho Hc Him Hus HQ. destruct (own_page k T A H E W F O m r va _ HI Hact Ho) as (Hk & Hv & t & Ht).
  destruct (si_leaf _ _ _ _ _ _ _ _ _ HI _ _ Ho) as (_ & _ & Huf).
  eapply (wp_vmm_protect_page k W F m Hi r Hact); [done|done|..]; unfold protect_leaf; rewrite ?Him.
  - intros W' F' m' _ Hv'. congruence.
  - done.
  - intros W' F' m1 lf0 lf' [= <-] Hch. pose proof Hch as (Hv' & _). rewrite Hv in Hv'. injection Hv' as <-. rewrite Hus in Hch.
    destruct (changed_move k T A H E W F O m r va _ lf _ W' F' m1 HI Ho Hch) as (Hm & Hpt & Huw).
    set (lf' := Leaf _ _ _ _ _) in *. apply (HQ W' F' m1 lf' eq_refl).
    pose proof (after_put k T A H E W F O m W' F' m1 H E r va (Some lf') HI Hm) as Ha. simpl in Ha. unfold abs_leaf in Ha.
    simpl in Ha. rewrite orb_false_r in Ha. apply Ha; [by eapply (space_protect k T A H E W F O m r va W' F' m1 Hk Hpt Huw lf lf')|].
    intros ? [= <-]. done.
Qed.
End User.

(** * The private copy that ends copy-on-write. *)

Lemma in_head {B} (x : B) l : x ∈ x :: l.
Proof. by left. Qed.

(** The words of a frame may be anything. *)
Section Store.
Context (k : Z) (T : Z -> option leaf) (A : gset Z).
Context (H E : list Z) (W : tabs) (F : list Z) (O : overlay) (m : vmm_mem).
Context (HI : space_inv k T A H E W F O m).

Lemma frame_put_same x n i f y : user_frame W F m x -> 0 <= i -> i + Z.of_nat n <= 512 -> y <> x -> y mod GJ_PAGE_SIZE = 0 ->
  same_frame m (set_vphys (put_words n i x f (vphys m)) m) y.
Proof.
  intros [[] _ _ _] H0 H1 Hne Hy j Hj. rewrite vphys_set. apply put_words_page; [done|done|done|]. by rewrite slot_page.
Qed.

Lemma space_frame_put x n i f : user_frame W F m x -> 0 <= i -> i + Z.of_nat n <= 512 ->
  space_inv k T A H E W F O (set_vphys (put_words n i x f (vphys m)) m).
Proof.
  intros Hx H0 H1. pose proof HI as [I1 I2 I3 I4 I5 I6 I7 I8 I9 I10]. pose proof Hx as [X1 X2 X3 X4].
  destruct (inv_put_page k W F m I1 x n i f X2 X4 X3 H0 H1) as [Hi' Hk]. set (m' := set_vphys _ m) in *.
  assert (forall y t j, W !! y = Some t -> 0 <= j < 512 -> vphys m' !! slot t j = vphys m !! slot t j) as Htab.
  { intros y t j Hy Hj. unfold m'. rewrite vphys_set. apply put_words_page; [apply X1|done|done|].
    destruct (inv_tab_page k W F m I1 y t j Hy Hj) as [-> ?]. intros ->. by apply (X4 y). }
  assert (forall y, user_frame W F m y -> user_frame W F m' y) as Huf.
  { intros y [U1 [U2 U2'] U3 U4]. split; [by eapply vkeep_page| |done|done]. split; [by eapply vkeep_tp|]. intros j Hj.
    apply (vkeep_dom _ _ _ Hk). by apply U2'. }
  split; try done.
  - intros r va Hr. rewrite <-I2 by done. unfold view. eapply (hw_frame (vphys m) k W (vi_pt _ _ _ _ I1)); [exact Htab|by rewrite key_root].
  - intros r va o Ho. destruct (I3 _ _ _ Ho) as (? & ? & Hu). split_and!; [done|done|]. intros l Hl.
    destruct (Hu l Hl) as (t & e & Htt & Ee & Hb). exists t, e. split; [done|]. by rewrite (Htab _ _ _ Htt (vidx_lvl l va)).
  - intros y lf Hy. destruct (I4 _ _ Hy) as (? & ? & ?). split_and!; [done|done|by apply Huf].
  - intros y Hy. destruct (I7 y Hy). split; [by apply Huf|done].
  - intros y Hy. destruct (I9 y Hy) as (? & ? & ?). split_and!; [by apply Huf|done|done].
Qed.
End Store.

Lemma set_cr3_back ph m c : set_cr3 (vm_cr3 m) (set_vphys ph (set_cr3 c m)) = set_vphys ph m.
Proof. by destruct m. Qed.

Lemma break_pte e pa : frame pa ->
  pte_leaf (Z.lor (addr pa) (Z.lor (Z.ldiff e (Z.lor PTE_ADDR_MASK PTE_COW)) (Z.lor PTE_W PTE_P))) =
  Some (Leaf pa true (has e PTE_U) (has e PTE_NX) false).
Proof.
  intros Hf. rewrite addr_frame by done. set (f := Z.lor (Z.ldiff e (Z.lor PTE_ADDR_MASK PTE_COW)) (Z.lor PTE_W PTE_P)).
  assert (forall i, 0 <= i -> Z.testbit f i =
    (Z.testbit e i && negb ((12 <=? i) && (i <? 52) || (i =? 9))) || ((i =? 1) || (i =? 0))) as Hb.
  { intros i Hi. unfold f. rewrite Z.lor_spec, Z.ldiff_spec, !Z.lor_spec, mask_bit by done. change PTE_COW with (2 ^ 9).
    change PTE_W with (2 ^ 1). change PTE_P with (2 ^ 0). rewrite !Z.pow2_bits_eqb by lia. by rewrite !(Z.eqb_sym _ i). }
  assert (addr f = 0) as Ha.
  { apply Z.bits_inj'. intros i Hi. unfold addr. rewrite Z.land_spec, Z.bits_0, Hb, mask_bit by done.
    destruct (Z.leb_spec 12 i); [|by rewrite andb_false_r]. destruct (Z.ltb_spec i 52); [|by rewrite andb_false_r].
    rewrite (proj2 (Z.eqb_neq i 1)), (proj2 (Z.eqb_neq i 0)) by lia. cbn. by rewrite !andb_false_r. }
  unfold pte_leaf, leaf_at. bits. rewrite addr_lor by done.
  rewrite (bit_lor_frame _ _ 0), (bit_lor_frame _ _ 1), (bit_lor_frame _ _ 2), (bit_lor_frame _ _ 63), (bit_lor_frame _ _ 9) by (done || lia).
  rewrite !Hb by lia. cbn. by rewrite !andb_true_r, !orb_false_r, !orb_true_r, andb_false_r.
Qed.

Section Break.
Context (k : Z) (T : Z -> option leaf) (A : gset Z).

(** The copy of a frame into a page in hand, under the template's tables. *)
Lemma wp_copy_frame H E W F O m pa src Q :
  space_inv k T A (pa :: H) E W F O m -> user_frame W F m src -> src <> pa ->
  (forall m', m' = set_vphys (put_words PT_WORDS 0 pa (fun i => default 0 (vphys m !! slot src i)) (vphys m)) m ->
     space_inv k T A (pa :: H) E W F O m' -> words m' pa = words m src -> words m' src = words m src -> abs m' O = abs m O -> Q tt m') ->
  wp (copy_words PT_WORDS pa src) Q m.
Proof.
  intros HI Hs Hne HQ. destruct (si_hand _ _ _ _ _ _ _ _ _ HI pa (in_head _ _)) as (Hp & _ & Hnm).
  rewrite <-(slot_0 pa), <-(slot_0 src). pose proof PT_WORDS_512 as H512.
  apply (wp_copy_words pa src (fun i => default 0 (vphys m !! slot src i))); [apply Hp|apply Hs|done|lia|lia| |].
  - intros j Hj. destruct (uf_in _ _ _ _ Hs) as [_ Hin]. destruct (Hin j ltac:(lia)) as [v ->]. done.
  - apply HQ; [done|..].
    + apply space_frame_put; [done|done|lia|lia].
    + rewrite words_put. done.
    + apply words_same, (frame_put_same _ _ _ _ _ _ _ _ Hp); [lia|lia|done|]. by destruct Hs as [[] _ _ _].
    + apply abs_ext. intros x Hx. pose proof (mapped_user _ _ _ _ _ _ _ _ _ _ HI Hx) as [[] _ _ _].
      apply (frame_put_same _ _ _ _ _ _ _ _ Hp); [lia|lia| |done]. destruct Hx as (y & lf & Hy & <-). by eapply Hnm.
Qed.

Lemma taken_same W F m pa F' m' x : taken k W F m pa F' m' -> user_frame W F m x -> same_frame m m' x.
Proof.
  intros (_ & _ & _ & _ & Hfr) [[] _ Hf _] i Hi. apply Hfr. by rewrite slot_page.
Qed.

Lemma space_cr3 H E W F O m c : space_inv k T A H E W F O m -> space_inv k T A H E W F O (set_cr3 c m).
Proof.
  intros [I1 I2 I3 I4 I5 I6 I7 I8 I9 I10]. split; try done.
  - by destruct I1.
  - intros x lf Hx. destruct (I4 _ _ Hx) as (? & ? & []). done.
  - intros x Hx. destruct (I7 x Hx) as [[] ?]. done.
  - intros x Hx. destruct (I9 x Hx) as ([] & ? & ?). done.
Qed.

Lemma frame_cr3 W F m c x : user_frame W F m x -> user_frame W F (set_cr3 c m) x.
Proof. intros []. by split. Qed.

Lemma regs_keep_phys m m1 ph : vkeep m m1 -> vregs m (set_vphys ph m1).
Proof. intros []. by split. Qed.

(** The tables of a copied page: from the copy on, [va] is private and
    writable, and one reference to the old frame is in hand. *)
Lemma wp_break_leaf H E W F O m r va t lf e pa Q :
  space_inv k T A (pa :: H) E W F O m -> active W m r -> W !! (r, 0%nat, key 0 va) = Some t ->
  O !! (r, vpage va) = Some (Some lf) -> lf_cow lf = true -> lf = leaf_at (addr e) e -> words m pa = words m (lf_pa lf) ->
  (forall m' lf', lf_pa lf' = pa -> lf_w lf' = true -> lf_cow lf' = false ->
     after k T A H (lf_pa lf :: E) (<[(r, vpage va) := Some lf']> O) (abs m O) W m W F m' -> Q tt m') ->
  wp (wr (slot t (vidx 12 va)) (Z.lor (addr pa) (Z.lor (Z.ldiff e (Z.lor PTE_ADDR_MASK PTE_COW)) (Z.lor PTE_W PTE_P))) ;;;
      vmm_tlb_flush_page va) Q m.
Proof.
  intros HI Hact Ht Ho Hc Hlf Hw HQ. destruct (own_page _ _ _ _ _ _ _ _ _ _ _ _ HI Hact Ho) as (Hk & Hv & _).
  pose proof (si_inv _ _ _ _ _ _ _ _ _ HI) as Hi. pose proof (vidx_lvl 0 va) as Hx. change (shift_of 0) with 12 in Hx.
  destruct (tab_read k W F m Hi va r 0 t Ht) as (e0 & E0 & _ & Htp). change (shift_of 0) with 12 in E0.
  destruct (si_hand _ _ _ _ _ _ _ _ _ HI pa (in_head _ _)) as (Hp & _ & _).
  assert (frame pa) as Hf by (by eapply tp_frame, page_tp, Hp).
  eapply (wp_leaf_change k W F m Hi r Hact Hk va t e0); [by apply grow_refl|done|done|done|exact Hv|].
  intros m' Hch. rewrite break_pte in Hch by done.
  destruct (changed_move _ _ _ _ _ _ _ _ _ _ _ _ _ _ _ _ _ HI Ho Hch) as (Hm & Hpt & Huw).
  destruct (si_leaf _ _ _ _ _ _ _ _ _ HI _ _ Ho) as (Hu & _ & _).
  set (lf' := Leaf _ _ _ _ _) in *. apply (HQ m' lf'); [done..|].
  assert (has e PTE_U = true) as HeU by (rewrite Hlf in Hu; exact Hu).
  pose proof (after_put k T A (pa :: H) E W F O m W F m' H (lf_pa lf :: E) r va (Some lf') HI Hm) as Ha. simpl in Ha.
  rewrite (insert_id (abs m O)) in Ha.
  - apply Ha; [|by intros ? [= <-]]. eapply (space_unshare k T A H E W F O m r va W F m' Hk Hpt Huw lf (Some lf') (pa :: H)); done.
  - rewrite (abs_lookup m O _ _ Ho). simpl. unfold abs_leaf. simpl. rewrite Hw, Hc, orb_true_r. by rewrite Hlf.
Qed.

Lemma free_same H E W F O m l m' pa : space_inv k T A (pa :: H) E W F O (set_cow l m) ->
  (forall a, page_of a <> pa -> vphys m' !! a = vphys (set_cow l m) !! a) ->
  forall x, mapped_frame O x -> same_frame m m' x.
Proof.
  intros HI Hfr x Hx i Hi. rewrite Hfr; [done|]. pose proof (mapped_user _ _ _ _ _ _ _ _ _ _ HI Hx) as [[] _ _ _].
  rewrite slot_page by done. destruct (si_hand _ _ _ _ _ _ _ _ _ HI pa (in_head _ _)) as (_ & _ & Hn).
  destruct Hx as (y & lf & Hy & <-). by eapply Hn.
Qed.

Lemma wp_break H E W F O m r va lf Q :
  space_inv k T A H E W F O m -> active W m r -> page_aligned va = true ->
  O !! (r, vpage va) = Some (Some lf) -> lf_cow lf = true ->
  (forall W' m', after k T A H E O (abs m O) W m W' [] m' -> Q GJ_ERR_NOMEM m') ->
  (forall W' F' m' lf', lf_w lf' = true -> lf_cow lf' = false ->
     after k T A H E (<[(r, vpage va) := Some lf']> O) (abs m O) W m W' F' m' -> Q GJ_OK m') ->
  wp (vmm_cow_break_page va) Q m.
Proof.
  intros HI Hact Hal Ho Hc HQ0 HQ. destruct (own_page _ _ _ _ _ _ _ _ _ _ _ _ HI Hact Ho) as (Hk & Hv & t & Ht).
  unfold vmm_cow_break_page. rewrite Hal. cbn [negb].
  apply wp_bind, (wp_own_read k W F m (si_inv _ _ _ _ _ _ _ _ _ HI) r Hact va t); [done|].
  intros W1 F1 m1 e Hg Ht1 E1 Htp Hve. apply wp_bind, (wp_rd t _ e); [done|apply (vidx_lvl 0)|done|].
  rewrite Hv in Hve. unfold pte_leaf in Hve. destruct (has e PTE_P) eqn:HP; [|done]. injection Hve as Hlf.
  assert (has e PTE_COW = true) as HC by (rewrite Hlf in Hc; exact Hc). rewrite HC. cbn [negb orb]. fold (addr e).
  pose proof (after_grow k T A H E W F O m W1 F1 m1 HI Hg) as Ha1. pose proof (after_active _ _ _ _ _ _ _ _ _ _ _ _ _ Ha1 Hact) as Hact1.
  pose proof (af_inv _ _ _ _ _ _ _ _ _ _ _ _ Ha1) as HI1.
  apply wp_bind, (wp_space_alloc k T A H E W1 F1 O); [done| |].
  { intros ->. cbn. wsteps. by eapply HQ0. }
  intros pa F2 m2 Hpa Htk HI2. rewrite (proj2 (Z.eqb_neq _ _)) by done. pose proof Htk as (_ & _ & Hk2 & _ & _).
  destruct (si_leaf _ _ _ _ _ _ _ _ _ HI2 _ _ Ho) as (_ & _ & Hsrc).
  assert (lf_pa lf = addr e) as Hpe by (by rewrite Hlf). unfold read_cr3, load_cr3. wsteps. rewrite <-Hpe. fold (addr pa).
  apply (wp_copy_frame H E W1 F2 O); [by apply space_cr3|by apply frame_cr3| |].
  { intros Ex. by destruct (si_hand _ _ _ _ _ _ _ _ _ HI2 pa (in_head _ _)) as (_ & _ & Hn); destruct (Hn _ _ Ho). }
  intros m3 -> HI3 Hw3 Hs3 Hab3. apply (space_cr3 _ _ _ _ _ _ (vm_cr3 m2)) in HI3. rewrite set_cr3_back in HI3.
  change (vphys (set_cr3 (g_u64KernelCr3 m2) m2)) with (vphys m2) in *. apply wp_bind, wp_pmod. rewrite set_cr3_back.
  set (m3 := set_vphys _ m2) in *. change (words m3 pa = words m2 (lf_pa lf)) in Hw3. change (abs m3 O = abs m2 O) in Hab3.
  assert (vregs m1 m3) as Hr3 by (by apply regs_keep_phys).
  assert (abs m2 O = abs m1 O) as Hab2.
  { apply abs_ext. intros x Hx. eapply taken_same; [done|]. by eapply mapped_user. }
  apply wp_assoc, wp_bind, (wp_break_leaf H E W1 F2 O m3 r va t lf e pa); [done|by eapply active_regs|done|done|done|done| |].
  { change (words m3 (lf_pa lf) = words m2 (lf_pa lf)) in Hs3. by rewrite Hw3, Hs3. }
  intros m4 lf' _ Hw' Hc' Ha4. rewrite Hab3, Hab2, (af_abs _ _ _ _ _ _ _ _ _ _ _ _ Ha1) in Ha4.
  wsteps. apply (wp_space_drop k T A H E W1 F2 (<[(r, vpage va) := Some lf']> O)); [apply Ha4|]. intros l HI5.
  assert (forall F5 m5, vregs m4 m5 -> (forall x, mapped_frame (<[(r, vpage va) := Some lf']> O) x -> same_frame m4 m5 x) ->
    space_inv k T A H E W1 F5 (<[(r, vpage va) := Some lf']> O) m5 -> Q GJ_OK m5) as Hend.
  { intros F5 m5 Hr5 Hs5 HI6. apply (HQ W1 F5 m5 lf' Hw' Hc'). split; [done|apply Ha1| |].
    - etrans; [apply Ha1|]. etrans; [exact Hr3|]. by etrans; [apply Ha4|].
    - by rewrite (abs_ext m4 m5), (af_abs _ _ _ _ _ _ _ _ _ _ _ _ Ha4). }
  destruct (decide (refs (<[(r, vpage va) := Some lf']> O) E (lf_pa lf) = 0)%nat) as [Hr|Hr].
  - rewrite Hr. apply wp_bind. change (Z.of_nat 0 =? 0) with true. cbv iota. apply wp_bind, (wp_space_free k T A H E W1 F2 (<[(r, vpage va) := Some lf']> O)); [done|]. intros m6 HI6 Hk6 Hfr.
    wsteps. apply wp_vmm_note_peaks. wsteps. apply (Hend (lf_pa lf :: F2)); [|by eapply free_same; [exact HI5|exact Hfr]|exact HI6]. etrans; [apply (regs_cow l m4 m4); reflexivity|].
    by apply vkeep_regs.
  - apply wp_bind. rewrite (proj2 (Z.eqb_neq _ _)) by lia. wsteps. apply wp_vmm_note_peaks. wsteps. apply (Hend F2); [|by intros x _ i _|exact HI5].
    apply (regs_cow l m4 m4). reflexivity.
Qed.
End Break.

(** * Stores to mapped pages: the kernel's own ([memset] of a fresh page) and those
    of a process, with the fault that ends copy-on-write. *)

(** ** The stores of a process *)

(** The physical address of a user access. *)
Definition uaccess (m : vmm_mem) (fWrite : bool) (va : Z) : option Z :=
  let root := Z.land (vm_cr3 m) PTE_ADDR_MASK in
  if negb (canonical va) then None else
  match view m root va with
  | None => None
  | Some lf =>
      if hwperm PTE_U (vphys m) 3 root va && (negb fWrite || hwperm PTE_W (vphys m) 3 root va)
      then Some (lf_pa lf + va mod GJ_PAGE_SIZE) else None
  end.

(** The page fault of a store: the error code says whether the page is present;
    the handler runs on the tables of the process, and [true] resumes it. *)
Definition pf_cow (u64Cr3 u64Cr2 : Z) (fPresent : bool) : prog vmm_mem bool :=
  if fPresent then
    tick_wrap "u64PfCowCand" ;;;
    (if negb (u64Cr3 =? 0) then load_cr3 u64Cr3 ;;; tick_wrap "u64PfCowCr3Sw" else pret tt) ;;;
    st <- vmm_cow_break_page (page_down u64Cr2) ;;
    if is_ok st then tick_wrap "u64PfCowOk" ;;; pret true else tick_wrap "u64PfCowMiss" ;;; pret false
  else tick_wrap "u64PfCowSkip" ;;; pret false.

Definition ust (va v : Z) : prog vmm_mem bool :=
  m <- pget ;;
  match uaccess m true va with
  | None => pret false
  | Some p => match vphys m !! p with
              | Some _ => pput (set_vphys (<[p := v]> (vphys m)) m) ;;; pret true
              | None => pfault
              end
  end.

(** A store instruction of a process, retried once when the handler resumes it. *)
Definition user_store (u64Cr3 va v : Z) : prog vmm_mem bool :=
  ok <- ust va v ;;
  if (ok : bool) then pret true else
  m <- pget ;;
  again <- pf_cow u64Cr3 va (match view m (Z.land (vm_cr3 m) PTE_ADDR_MASK) va with Some _ => true | None => false end) ;;
  if (again : bool) then ust va v else pret false.

(** ** Permissions *)
Section Perm.
Context (k : Z) (W : tabs) (F : list Z) (m : vmm_mem) (Hi : vm_inv k W F m).

Lemma own_perm bit r va t e :
  bit = PTE_U \/ bit = PTE_W ->
  W !! (r, 0%nat, key 0 va) = Some t -> (forall l, (1 <= l <= 3)%nat -> uw W m r l va) ->
  vphys m !! slot t (vidx 12 va) = Some e -> has e PTE_P = true -> hwperm bit (vphys m) 3 r va = has e bit.
Proof.
  intros Hbit Ht Huw He HP. pose proof (vi_pt _ _ _ _ Hi) as Hp.
  assert (forall l t', (l <= 3)%nat -> W !! (r, l, key l va) = Some t' -> hwperm bit (vphys m) l t' va = has e bit) as Hl.
  { induction l as [|l IH]; intros t' Hl Ht'.
    - rewrite Ht in Ht'. injection Ht' as <-. cbn [hwperm]. change (shift_of 0) with 12. rewrite He, HP. cbn. by rewrite andb_true_r.
    - destruct (Huw (S l) ltac:(lia)) as (t2 & e2 & Ht2 & E2 & HU & HW). rewrite Ht' in Ht2. injection Ht2 as <-.
      cbn [hwperm]. rewrite E2. assert (is_Some (W !! (r, l, key l va))) as [t3 Ht3].
      { destruct l as [|l]; [by exists t|]. destruct (Huw (S l) ltac:(lia)) as (t3 & _ & Ht3 & _). by exists t3. }
      destruct (tab_read k W F m Hi va r (S l) t' Ht') as (e3 & E3 & Hent & _). rewrite E2 in E3. injection E3 as <-.
      simpl in Hent. rewrite <-(key_next k W F m Hi va r l t' Ht'), Ht3 in Hent. destruct Hent as (HP2 & HS & Ha). rewrite HP2, HS, Ha.
      assert (has e2 bit = true) as -> by (by destruct Hbit as [->| ->]). cbn. by apply IH; [lia|]. }
  apply Hl; [done|]. rewrite key_root. by destruct (pt_lvl _ _ _ Hp _ _ _ _ Ht) as (_ & _ & ?).
Qed.
End Perm.

(** Word [i] of the page at [va]. *)
Definition word_va (va i : Z) : Z := va + 8 * i.

Lemma vpage_div va : vpage va = (va / 4096) mod 2 ^ 36.
Proof.
  unfold vpage. change (2 ^ 48) with (4096 * 2 ^ 36). change (2 ^ 12) with 4096. rewrite Z.rem_mul_r by lia.
  rewrite (Z.mul_comm 4096), Z.div_add by lia. rewrite Z.div_small; [lia|]. apply Z.mod_pos_bound. lia.
Qed.

Lemma word_page va i : page_aligned va = true -> 0 <= i < 512 ->
  word_va va i mod GJ_PAGE_SIZE = 8 * i /\ vpage (word_va va i) = vpage va /\ canonical (word_va va i) = canonical va.
Proof.
  intros Ha Hi. apply page_aligned_spec in Ha. unfold word_va, canonical, GJ_PAGE_SIZE in *.
  change (2 ^ 47) with 140737488355328. change (2 ^ 64 - 140737488355328) with 18446603336221196288. split_and!.
  - Z.div_mod_to_equations; lia.
  - rewrite !vpage_div. f_equal. Z.div_mod_to_equations; lia.
  - f_equal; apply Bool.eq_iff_eq_true; rewrite ?Z.ltb_lt, ?Z.leb_le; Z.div_mod_to_equations; lia.
Qed.

Section Stores.
Context (k : Z) (T : Z -> option leaf) (A : gset Z).
Context (H E : list Z) (W : tabs) (F : list Z) (O : overlay).
Context (r va : Z) (lf : leaf) (Hal : page_aligned va = true) (Hcan : canonical va = true).
Context (Ho : O !! (r, vpage va) = Some (Some lf)).

(** The walk of a word of an own page. *)
Lemma own_word m i : space_inv k T A H E W F O m -> active W m r -> 0 <= i < 512 ->
  view m r (word_va va i) = Some lf /\ hwperm PTE_U (vphys m) 3 r (word_va va i) = true /\
  hwperm PTE_W (vphys m) 3 r (word_va va i) = lf_w lf.
Proof.
  intros HI Hact Hj. destruct (word_page va i Hal Hj) as (_ & Hpg & _). pose proof (si_inv _ _ _ _ _ _ _ _ _ HI) as Hi.
  assert (O !! (r, vpage (word_va va i)) = Some (Some lf)) as Ho' by (by rewrite Hpg).
  destruct (own_page _ _ _ _ _ _ _ _ _ _ _ _ HI Hact Ho') as (_ & Hv & t & Ht).
  destruct (si_own _ _ _ _ _ _ _ _ _ HI _ _ _ Ho') as (_ & _ & Huw). destruct (si_leaf _ _ _ _ _ _ _ _ _ HI _ _ Ho) as (Hu & _ & _).
  destruct (tab_read k W F m Hi _ r 0 t Ht) as (e & Ee & _ & _). change (shift_of 0) with 12 in Ee.
  pose proof (own_pte k W F m Hi r _ t e Ht Ee) as Hpl. rewrite Hv in Hpl. unfold pte_leaf in Hpl.
  destruct (has e PTE_P) eqn:HP; [|done]. injection Hpl as ->. split; [done|].
  rewrite (own_perm k W F m Hi PTE_U r _ t e), (own_perm k W F m Hi PTE_W r _ t e) by auto. done.
Qed.

(** Whether the kernel may store through the leaf. *)
Definition kstore_ok (m : vmm_mem) : Prop := (vm_wp m = true -> lf_w lf = true) /\ (vm_smap m = true -> vm_ac m = true).

Lemma kaccess_own m i : space_inv k T A H E W F O m -> active W m r -> 0 <= i < 512 -> kstore_ok m ->
  kaccess m true (word_va va i) = Some (slot (lf_pa lf) i).
Proof.
  intros HI Hact Hj [Hwp Hsm]. destruct (own_word m i HI Hact Hj) as (Hv & HU & HW). destruct (word_page va i Hal Hj) as (Hm & _ & Hc).
  unfold kaccess. fold (addr (vm_cr3 m)). destruct Hact as [-> _]. rewrite Hc, Hcan, Hv, HU, HW, Hm. cbn [negb andb].
  assert (vm_wp m && negb (lf_w lf) = false) as -> by (destruct (vm_wp m); [by rewrite Hwp|done]).
  assert (vm_smap m && true && negb (vm_ac m) = false) as -> by (destruct (vm_smap m); [by rewrite Hsm|done]). done.
Qed.

Lemma put_1 i x (v : Z) ph : put_words 1 i x (fun _ => v) ph = <[slot x i := v]> ph.
Proof. done. Qed.

Lemma put_words_app n : forall i x f ph, put_words (S n) i x f ph = put_words n (i + 1) x f (put_words 1 i x (fun _ => f i) ph).
Proof. done. Qed.

(** Zeroing. *)
Lemma wp_vzero_words n : forall i m Q,
  space_inv k T A H E W F O m -> active W m r -> kstore_ok m -> 0 <= i -> i + Z.of_nat n <= 512 ->
  (forall m', m' = set_vphys (put_words n i (lf_pa lf) (fun _ => 0) (vphys m)) m -> space_inv k T A H E W F O m' -> Q tt m') ->
  wp (vzero n (word_va va i)) Q m.
Proof.
  induction n as [|n IH]; intros i m Q HI Hact Hks H0 H1 HQ; cbn [vzero].
  { apply wp_ret, HQ; [|done]. by destruct m as [[] ]. }
  destruct (si_leaf _ _ _ _ _ _ _ _ _ HI _ _ Ho) as (_ & _ & Huf). destruct (uf_in _ _ _ _ Huf) as [_ Hin].
  apply wp_bind. unfold vst_word. apply wp_bind, wp_get. rewrite kaccess_own by (done || lia).
  destruct (Hin i ltac:(lia)) as [v Hv]. rewrite Hv. apply wp_put.
  replace (word_va va i + 8) with (word_va va (i + 1)) by (unfold word_va; lia).
  pose proof (space_frame_put k T A H E W F O m HI (lf_pa lf) 1 i (fun _ => 0) Huf H0 ltac:(lia)) as HI1. cbn [put_words] in HI1.
  apply IH; [exact HI1|done|done|lia|lia|]. intros m' -> HI'. apply HQ; [done|exact HI'].
Qed.

(** One word of a writable page: no other page changes. *)
Lemma words_store m pa i v : 0 <= i < 512 ->
  words (set_vphys (<[slot pa i := v]> (vphys m)) m) pa = <[Z.to_nat i := v]> (words m pa).
Proof.
  intros Hj. apply list_eq. intros n. destruct (decide (n = Z.to_nat i)) as [->|Hne].
  - rewrite list_lookup_insert_eq by (rewrite words_length; lia). rewrite words_lookup by done.
    by rewrite vphys_set, lookup_insert_eq.
  - rewrite list_lookup_insert_ne by done. destruct (decide (n < 512)%nat) as [Hn|Hn].
    + replace n with (Z.to_nat (Z.of_nat n)) by lia. rewrite !words_lookup by lia. rewrite vphys_set, lookup_insert_ne; [done|].
      intros Es. apply slot_inj in Es. lia.
    + rewrite !lookup_ge_None_2; [done|rewrite words_length; lia..].
Qed.

Definition stored (m : vmm_mem) (i v : Z) : uspace :=
  <[(r, vpage va) := Some (UPage (<[Z.to_nat i := v]> (words m (lf_pa lf))) true (lf_nx lf))]> (abs m O).

Lemma space_store m i v : space_inv k T A H E W F O m -> lf_w lf = true -> 0 <= i < 512 ->
  after k T A H E O (stored m i v) W m W F (set_vphys (<[slot (lf_pa lf) i := v]> (vphys m)) m).
Proof.
  intros HI Hw Hj. pose proof HI as [I1 I2 I3 I4 I5 I6 I7 I8 I9 I10]. destruct (I4 _ _ Ho) as (Hu & Hwc & Huf).
  assert (lf_cow lf = false) as Hc by (destruct (lf_cow lf); [by rewrite Hwc in Hw|done]). split; [|done|done|].
  - pose proof (space_frame_put k T A H E W F O m HI (lf_pa lf) 1 i (fun _ => v) Huf ltac:(lia) ltac:(lia)) as HI1. exact HI1.
  - apply map_eq. intros x. unfold stored. destruct (decide (x = (r, vpage va))) as [->|Hne].
    + rewrite lookup_insert_eq. unfold abs. rewrite lookup_fmap, Ho. simpl. unfold abs_leaf. by rewrite words_store, Hw by done.
    + rewrite lookup_insert_ne by done. unfold abs. rewrite !lookup_fmap. destruct (O !! x) as [[lf'|]|] eqn:Hx; [|done..]. simpl.
      unfold abs_leaf. rewrite (words_same m); [done|]. destruct (I4 _ _ Hx) as (_ & _ & [[] _ _ _]).
      apply (frame_put_same W F m (lf_pa lf) 1 i (fun _ => v)); [done|lia|lia| |done]. intros Ep. apply Hne. symmetry.
      by eapply I5.
Qed.

Lemma wp_ust_own m i v (Q : bool -> vmm_mem -> Prop) :
  space_inv k T A H E W F O m -> active W m r -> 0 <= i < 512 ->
  (lf_w lf = false -> Q false m) ->
  (forall m', lf_w lf = true -> after k T A H E O (stored m i v) W m W F m' -> Q true m') ->
  wp (ust (word_va va i) v) Q m.
Proof.
  intros HI Hact Hj HQ0 HQ. destruct (own_word m i HI Hact Hj) as (Hv & HU & HW). destruct (word_page va i Hal Hj) as (Hm & _ & Hc).
  unfold ust. apply wp_bind, wp_get. unfold uaccess. fold (addr (vm_cr3 m)). destruct (Hact) as [-> _].
  rewrite Hc, Hcan, Hv, HU, HW, Hm. cbn [negb andb orb]. destruct (lf_w lf) eqn:Hw; [|by apply wp_ret, HQ0].
  destruct (si_leaf _ _ _ _ _ _ _ _ _ HI _ _ Ho) as (_ & _ & Huf). destruct (uf_in _ _ _ _ Huf) as [_ Hin].
  destruct (Hin i Hj) as [w Hw']. change (lf_pa lf + 8 * i) with (slot (lf_pa lf) i). rewrite Hw'. wsteps. apply HQ; [done|]. by apply space_store.
Qed.

(** [vmm_cow_break_page] refuses a page that is not copy-on-write. *)
Lemma wp_break_refused m o Q :
  space_inv k T A H E W F O m -> active W m r -> O !! (r, vpage va) = Some o -> (forall lf', o = Some lf' -> lf_cow lf' = false) ->
  (forall W' F' m', after k T A H E O (abs m O) W m W' F' m' -> Q GJ_ERR_NOENT m') ->
  wp (vmm_cow_break_page va) Q m.
Proof.
  intros HI Hact Ho' Hc HQ. destruct (own_page _ _ _ _ _ _ _ _ _ _ _ _ HI Hact Ho') as (Hk & Hv & t & Ht).
  unfold vmm_cow_break_page. rewrite Hal. cbn [negb].
  apply wp_bind, (wp_own_read k W F m (si_inv _ _ _ _ _ _ _ _ _ HI) r Hact va t); [done|].
  intros W1 F1 m1 e Hg Ht1 E1 Htp Hve. apply wp_bind, (wp_rd t _ e); [done|apply (vidx_lvl 0)|done|].
  rewrite Hv in Hve. unfold pte_leaf in Hve. assert (negb (has e PTE_P) || negb (has e PTE_COW) = true) as ->.
  { destruct (has e PTE_P); [|done]. specialize (Hc _ Hve). simpl in Hc. by rewrite Hc. }
  apply wp_ret. eapply HQ. by eapply after_grow.
Qed.
End Stores.

Lemma word_down va i : page_aligned va = true -> 0 <= i < 512 -> page_down (word_va va i) = va.
Proof.
  intros Ha Hi. rewrite page_down_eq. apply page_aligned_spec in Ha. unfold word_va. by apply (slot_page va i).
Qed.

Definition ustored (N : uspace) (x : Z * Z) (i v : Z) (p : upage) : uspace :=
  <[x := Some (UPage (<[Z.to_nat i := v]> (up_words p)) (up_w p) (up_nx p))]> N.

(** A process stores a word: its page changes if the page can be written, and the
    store fails otherwise, or when no page is left for the private copy. *)
Section UserStore.
Context (k : Z) (T : Z -> option leaf) (A : gset Z).

Lemma wp_pf_cow m va i fP Q : vm_cr3 m <> 0 -> page_aligned va = true -> 0 <= i < 512 ->
  (fP = true -> wp (vmm_cow_break_page va) (fun st m' => Q (is_ok st) m') m) -> (fP = false -> Q false m) ->
  wp (pf_cow (vm_cr3 m) (word_va va i) fP) Q m.
Proof.
  intros Hc Hal Hj HQ1 HQ0. unfold pf_cow. destruct fP; [|wsteps; by apply HQ0].
  rewrite (proj2 (Z.eqb_neq _ _)) by done. cbn [negb]. unfold load_cr3. rewrite word_down by done. wsteps.
  replace (set_cr3 (vm_cr3 m) m) with m by (by destruct m). eapply wp_mono; [by apply HQ1|]. cbn beta.
  intros st m' HQ. destruct (is_ok st); wsteps; exact HQ.
Qed.

Lemma wp_user_store H E W F O m r va i v o (Q : bool -> vmm_mem -> Prop) :
  space_inv k T A H E W F O m -> active W m r -> page_aligned va = true -> canonical va = true -> 0 <= i < 512 ->
  O !! (r, vpage va) = Some o ->
  (forall W' F' O' m', after k T A H E O' (abs m O) W m W' F' m' ->
     (forall p, abs m O !! (r, vpage va) = Some (Some p) -> up_w p = true -> F' = []) -> Q false m') ->
  (forall W' F' O' m' p, abs m O !! (r, vpage va) = Some (Some p) -> up_w p = true ->
     after k T A H E O' (ustored (abs m O) (r, vpage va) i v p) W m W' F' m' -> Q true m') ->
  wp (user_store (vm_cr3 m) (word_va va i) v) Q m.
Proof.
  intros HI Hact Hal Hcan Hj Ho HQ0 HQ. assert (vm_cr3 m <> 0) as Hc0.
  { destruct Hact as [Ha Hr]. pose proof (root_tp k W F m (si_inv _ _ _ _ _ _ _ _ _ HI) r Hr) as [Hp _ _ _]. intros E0. rewrite E0 in Ha. change (addr 0) with 0 in Ha. lia. }
  unfold user_store. apply wp_bind. pose proof (abs_lookup m O _ _ Ho) as Hab. destruct o as [lf|].
  - apply (wp_ust_own k T A H E W F O r va lf Hal Hcan Ho); [done|done|done| |].
    + intros Hw. apply wp_bind, wp_get, wp_bind. fold (addr (vm_cr3 m)). destruct (Hact) as [-> _].
      destruct (own_word k T A H E W F O r va lf Hal Ho m i HI Hact Hj) as (-> & _ & _).
      apply wp_pf_cow; [done|done|done| |done]. intros _. destruct (lf_cow lf) eqn:Hc.
      * apply (wp_break k T A H E W F O m r va lf); [done..| |].
        { intros W' m' Ha. apply wp_ret. by eapply HQ0. }
        intros W' F' m' lf' Hw' Hc' Ha. change (is_ok GJ_OK) with true. cbv iota.
        pose proof (after_active _ _ _ _ _ _ _ _ _ _ _ _ _ Ha Hact) as Hact'.
        assert (abs m' (<[(r, vpage va) := Some lf']> O) !! (r, vpage va) = Some (Some (abs_leaf m lf))) as Hab'
          by (by rewrite (af_abs _ _ _ _ _ _ _ _ _ _ _ _ Ha)).
        rewrite abs_insert, lookup_insert_eq in Hab'. assert (abs_leaf m' lf' = abs_leaf m lf) as Hal' by (apply (inj Some), (inj Some), Hab').
        pose proof (f_equal up_words Hal' : words m' (lf_pa lf') = words m (lf_pa lf)) as Hw1.
        pose proof (f_equal up_nx Hal' : lf_nx lf' = lf_nx lf) as Hn.
        apply (wp_ust_own k T A H E W' F' (<[(r, vpage va) := Some lf']> O) r va lf'); [done|done|by rewrite lookup_insert_eq|apply Ha|done|done|congruence|].
        intros m2 _ Ha2. apply (HQ W' F' (<[(r, vpage va) := Some lf']> O) m2 (abs_leaf m lf)); [done|simpl; by rewrite Hc, orb_true_r|].
        eapply after_from; [by exists H, E, (<[(r, vpage va) := Some lf']> O)|]. unfold stored in Ha2. rewrite (af_abs _ _ _ _ _ _ _ _ _ _ _ _ Ha) in Ha2.
        unfold ustored. simpl. by rewrite Hc, orb_true_r, <-Hw1, <-Hn.
      * apply (wp_break_refused k T A H E W F O r va Hal m (Some lf)); [done|done|done|by intros ? [= <-]|]. intros W' F' m' Ha.
        apply wp_ret. eapply HQ0; [done|]. intros p Hp Hup. rewrite Hab in Hp. injection Hp as <-. simpl in Hup. by rewrite Hw, Hc in Hup.
    + intros m' Hw Ha. apply wp_ret. eapply (HQ W F O m' (abs_leaf m lf)); [done|simpl; by rewrite Hw|]. unfold stored in Ha.
      unfold ustored. simpl. by rewrite Hw.
  - assert (view m r (word_va va i) = None) as Hv.
    { destruct (word_page va i Hal Hj) as (_ & Hpg & _). rewrite (si_view _ _ _ _ _ _ _ _ _ HI) by apply Hact. by rewrite Hpg, Ho. }
    unfold ust. apply wp_bind, wp_get. unfold uaccess. fold (addr (vm_cr3 m)). destruct (Hact) as [-> _]. rewrite Hv.
    assert ((if negb (canonical (word_va va i)) then @None Z else None) = None) as -> by (by destruct (negb _)).
    apply wp_ret, wp_bind, wp_get, wp_bind. fold (addr (vm_cr3 m)). destruct (Hact) as [-> _]. rewrite Hv.
    apply wp_pf_cow; [done|done|done|done|]. intros _. apply wp_ret. eapply (HQ0 W F O).
    { by eapply after_grow, grow_refl, HI. }
    intros p Hp. rewrite Hab in Hp. done.
Qed.
End UserStore.
