(* ===== verification/VmmAnon.v ===== *)
(** Anonymous mappings, their return, and the creation of address spaces. *)
From stdpp Require Import base gmap list strings.
From Stdlib Require Import ZArith Lia.
From S2P Require Import Prelude CapTypes Pmm PmmInv PmmOps PmmBoot PmmSelf PmmSys Vmm VmmTables VmmEntry VmmWalks VmmOps VmmSpace VmmUser.

(** * Anonymous memory: fresh zeroed pages, all or none, and their return. *)

(** ** Ranges of pages *)
Definition page_at (va : Z) (i : nat) : Z := u64_add va (Z.of_nat i * GJ_PAGE_SIZE).
Definition page_key (r va : Z) (i : nat) : Z * Z := (r, vpage (page_at va i)).

(** The first [n] pages of a range become [o]. *)
Fixpoint uput {B} (n : nat) (r va : Z) (o : B) (N : gmap (Z * Z) B) : gmap (Z * Z) B :=
  match n with
  | 0%nat => N
  | S n' => uput n' r va o (<[page_key r va n' := o]> N)
  end.

Lemma uput_lookup {B} n r va (o : B) N x :
  uput n r va o N !! x = if decide (x ∈ page_key r va <$> seq 0 n) then Some o else N !! x.
Proof.
  revert N. induction n as [|n IH]; intros N; [done|]. cbn [uput]. rewrite IH, seq_S, fmap_app. cbn [fmap list_fmap Nat.add].
  destruct (decide (x ∈ page_key r va <$> seq 0 n)) as [Hx|Hx].
  - rewrite decide_True; [done|]. apply elem_of_app. by left.
  - destruct (decide (x = page_key r va n)) as [->|Hne].
    + rewrite lookup_insert_eq, decide_True; [done|]. apply elem_of_app. right. apply list_elem_of_singleton. done.
    + rewrite lookup_insert_ne by done. rewrite decide_False; [done|]. intros Hin. apply elem_of_app in Hin as [?|Hin]; [done|].
      apply list_elem_of_singleton in Hin. done.
Qed.

Lemma uput_snoc {B} n r va (o : B) N : <[page_key r va n := o]> (uput n r va o N) = uput (S n) r va o N.
Proof.
  apply map_eq. intros x. cbn [uput]. rewrite uput_lookup. destruct (decide (x = page_key r va n)) as [->|Hne].
  - rewrite !lookup_insert_eq. by destruct (decide _).
  - rewrite !lookup_insert_ne by done. apply uput_lookup.
Qed.

Lemma uput_over {B} n r va (o o' : B) N : uput n r va o (uput n r va o' N) = uput n r va o N.
Proof. apply map_eq. intros x. rewrite !uput_lookup. by destruct (decide _). Qed.

Lemma page_at_small va i n : 0 <= va -> va + Z.of_nat n * GJ_PAGE_SIZE <= 2 ^ 47 -> (i < n)%nat ->
  page_at va i = va + Z.of_nat i * GJ_PAGE_SIZE.
Proof.
  intros H0 H1 Hi. unfold page_at, u64_add, u64_wrap. apply Z.mod_small. unfold GJ_PAGE_SIZE in *.
  change (2 ^ 47) with 140737488355328 in H1. change (2 ^ 64) with 18446744073709551616. lia.
Qed.

Lemma page_at_ok va i n : page_aligned va = true -> 0 <= va -> va + Z.of_nat n * GJ_PAGE_SIZE <= 2 ^ 47 -> (i < n)%nat ->
  page_aligned (page_at va i) = true /\ canonical (page_at va i) = true.
Proof.
  intros Ha H0 H1 Hi. rewrite (page_at_small va i n) by done. rewrite page_aligned_spec in Ha |- *. unfold GJ_PAGE_SIZE in *. split.
  - rewrite Z.mod_add by lia. done.
  - unfold canonical. rewrite (proj2 (Z.ltb_lt _ _)) by lia. done.
Qed.

Lemma page_key_inj r va n i j : page_aligned va = true -> 0 <= va -> va + Z.of_nat n * GJ_PAGE_SIZE <= 2 ^ 47 -> (i < n)%nat -> (j < n)%nat ->
  page_key r va i = page_key r va j -> i = j.
Proof.
  intros Ha H0 H1 Hi Hj E. injection E as E. rewrite !(page_at_small va _ n) in E by done. rewrite !vpage_div in E.
  unfold GJ_PAGE_SIZE in *. rewrite !Z.div_add in E by lia. change (2 ^ 47) with 140737488355328 in H1. change (2 ^ 36) with 68719476736 in E.
  rewrite !Z.mod_small in E by (Z.div_mod_to_equations; lia). lia.
Qed.

(** ** Reading an own page *)
Section Own.
Context (k : Z) (T : Z -> option leaf) (A : gset Z).
Context (H E : list Z) (W : tabs) (F : list Z) (O : overlay) (m : vmm_mem).
Context (HI : space_inv k T A H E W F O m) (r : Z) (Hact : active W m r).

Let Hi : vm_inv k W F m := si_inv _ _ _ _ _ _ _ _ _ HI.

Lemma wp_read_own va o Q :
  O !! (r, vpage va) = Some o ->
  (forall W' F' m' e, after k T A H E O (abs m O) W m W' F' m' -> pte_leaf e = o -> Q e m') ->
  wp (vmm_read_pte va) Q m.
Proof.
  intros Ho HQ. destruct (own_page _ _ _ _ _ _ _ _ _ _ _ _ HI Hact Ho) as (Hk & Hv & t & Ht).
  unfold vmm_read_pte. apply wp_bind, (wp_own_read k W F m Hi r Hact va t); [done|].
  intros W1 F1 m1 e Hg Ht1 E1 Htp Hve. apply (wp_rd t _ e); [done|apply (vidx_lvl 0)|done|]. eapply HQ; [by eapply after_grow|congruence].
Qed.

Lemma wp_virt_own va o Q :
  page_aligned va = true -> O !! (r, vpage va) = Some o ->
  (forall W' F' m', after k T A H E O (abs m O) W m W' F' m' -> Q (match o with Some lf => lf_pa lf | None => 0 end) m') ->
  wp (vmm_virt_to_phys va) Q m.
Proof.
  intros Hal Ho HQ. destruct (own_page _ _ _ _ _ _ _ _ _ _ _ _ HI Hact Ho) as (Hk & Hv & t & Ht).
  unfold vmm_virt_to_phys. apply wp_bind, (wp_own_read k W F m Hi r Hact va t); [done|].
  intros W1 F1 m1 e Hg Ht1 E1 Htp Hve. apply wp_bind, (wp_rd t _ e); [done|apply (vidx_lvl 0)|done|].
  pose proof (after_grow k T A H E W F O m W1 F1 m1 HI Hg) as Ha. specialize (HQ W1 F1 m1 Ha). rewrite Hv in Hve. clear Hv. unfold pte_leaf in Hve.
  destruct (has e PTE_P); subst o; apply wp_ret; [|exact HQ]. unfold page_aligned in Hal. apply Z.eqb_eq in Hal. rewrite Hal, Z.lor_0_r. exact HQ.
Qed.

(** ** Mapping a page in hand *)
Definition anon_page (ws : list Z) (u32Prot : Z) : upage :=
  UPage ws (has u32Prot GJ_VMM_PROT_WRITE) (negb (has u32Prot GJ_VMM_PROT_EXEC)).
End Own.

Section MapOwn.
Context (k : Z) (T : Z -> option leaf) (A : gset Z).
Context (H E : list Z) (W : tabs) (F : list Z) (O : overlay) (m : vmm_mem) (pa : Z).
Context (HI : space_inv k T A (pa :: H) E W F O m) (r : Z) (Hact : active W m r) (Hrk : r <> k).

Lemma wp_map_own va u32Prot Q :
  page_aligned va = true -> image_va m va = false -> frame_at O (r, vpage va) = None -> has u32Prot GJ_VMM_PROT_USER = true ->
  (forall W' m', after k T A (pa :: H) E O (abs m O) W m W' [] m' -> Q GJ_ERR_NOMEM m') ->
  (forall W' F' m' lf, W ⊆ W' -> g_aCowRef m' = g_aCowRef m -> lf_pa lf = pa -> lf_cow lf = false -> lf_w lf = has u32Prot GJ_VMM_PROT_WRITE ->
     after k T A H E (<[(r, vpage va) := Some lf]> O) (<[(r, vpage va) := Some (anon_page (words m pa) u32Prot)]> (abs m O)) W m W' F' m' ->
     Q GJ_OK m') ->
  wp (vmm_map_page va pa u32Prot) Q m.
Proof.
  intros Hal Him Hold Hus HQ0 HQ. pose proof (si_inv _ _ _ _ _ _ _ _ _ HI) as Hi.
  destruct (si_hand _ _ _ _ _ _ _ _ _ HI pa (in_head _ _)) as (Hp & _ & _). destruct (frame_addr_id _ _ _ _ Hp) as [Hap Hp0].
  assert (page_aligned pa = true) as Hpal by (apply page_aligned_spec, Hp).
  apply (wp_vmm_map_page k W F m Hi r Hact); [by left|..]; unfold map_refused, map_leaf; rewrite Hal, Hpal, Him; cbn [negb orb andb].
  - done.
  - intros _ W' m' Hg. eapply HQ0. by eapply after_grow.
  - intros _ W' F' m' (m1 & Hg & Hs & Hpt & Huw & _). pose proof (move_grow_leaf _ _ _ _ _ _ _ _ _ _ _ Hg Hs) as Hm.
    clear Hs. unfold prot_leaf in Hm. rewrite Hap, Hus in Hm. set (lf := Leaf _ _ _ _ _) in *. apply (HQ W' F' m' lf); [apply Hm|apply (vk_cow _ _ (mv_keep _ _ _ _ _ _ _ _ Hm))|done..|].
    pose proof (after_put k T A (pa :: H) E W F O m W' F' m' H E r va (Some lf) HI Hm) as Ha. simpl in Ha. unfold abs_leaf in Ha. simpl in Ha.
    rewrite orb_false_r in Ha. apply Ha; [|by intros ? [= <-]].
    eapply (space_map k T A H E W F O m r va W' F' m' Hrk Hpt Huw pa lf); done.
Qed.
End MapOwn.

Section Anon.
Context (k : Z) (T : Z -> option leaf) (A : gset Z) (r : Z) (Hrk : r <> k).

Lemma after_free H E W F O m pa m' :
  space_inv k T A (pa :: H) E W F O m -> space_inv k T A H E W (pa :: F) O m' -> vkeep m m' ->
  (forall a, page_of a <> pa -> vphys m' !! a = vphys m !! a) -> after k T A H E O (abs m O) W m W (pa :: F) m'.
Proof.
  intros HI HI' Hk Hfr. split; [done|done|by apply vkeep_regs|]. apply abs_ext. rewrite <-(set_cow_id m) in HI. by eapply free_same.
Qed.

Lemma wp_hand_free H E W F O m pa Q :
  space_inv k T A (pa :: H) E W F O m ->
  (forall F' m', after k T A H E O (abs m O) W m W F' m' -> Q tt m') -> wp (on_pmm (pmm_free pa)) Q m.
Proof.
  intros HI HQ. apply (wp_space_free k T A H E W F O); [done|]. intros m' HI' Hk Hfr. eapply HQ. by eapply after_free.
Qed.

(** A page of the range goes back. *)
Lemma wp_unwind_page {B} (c : prog vmm_mem B) H E W F O m va lf Q :
  space_inv k T A H E W F O m -> active W m r -> page_aligned va = true -> O !! (r, vpage va) = Some (Some lf) -> lf_cow lf = false ->
  (forall W' F' m', after k T A H E (<[(r, vpage va) := None]> O) (<[(r, vpage va) := None]> (abs m O)) W m W' F' m' -> wp c Q m') ->
  wp (pa <- vmm_virt_to_phys va ;; vmm_unmap_page va ;;; free_if pa ;;; c) Q m.
Proof.
  intros HI Hact Hal Ho Hc HQ. apply wp_bind, (wp_virt_own k T A H E W F O m HI r Hact va (Some lf)); [done|done|].
  intros W1 F1 m1 Ha1. pose proof (after_active _ _ _ _ _ _ _ _ _ _ _ _ _ Ha1 Hact) as Hact1. pose proof (af_inv _ _ _ _ _ _ _ _ _ _ _ _ Ha1) as HI1.
  apply wp_bind, (wp_unmap_own k T A H E W1 F1 O m1 HI1 r Hact1 va lf); [done|]. intros W2 F2 m2 Ha2.
  unfold unmap_hand, unmap_refs in Ha2. rewrite Hc in Ha2. cbn [andb] in Ha2. rewrite (af_abs _ _ _ _ _ _ _ _ _ _ _ _ Ha1) in Ha2.
  destruct (leaf_pa_pos _ _ _ _ _ _ _ _ _ HI _ _ Ho) as [Hp _]. unfold free_if. rewrite (proj2 (Z.eqb_neq _ _)) by done. cbn [negb].
  destruct (si_leaf _ _ _ _ _ _ _ _ _ HI _ _ Ho) as (_ & _ & [[] _ _ _]). rewrite page_down_eq, page_of_aligned by done.
  apply wp_bind, (wp_hand_free H E W2 F2 (<[(r, vpage va) := None]> O)); [apply Ha2|]. intros F3 m3 Ha3. eapply HQ.
  rewrite (af_abs _ _ _ _ _ _ _ _ _ _ _ _ Ha2) in Ha3. eapply after_from; [|exact Ha3].
  eexists _, _, _. eapply after_from; [|exact Ha2]. eexists _, _, _. exact Ha1.
Qed.

(** The range [va, va + n pages) lies in the user half. *)
Context (va : Z) (n : nat) (Hal : page_aligned va = true) (H0 : 0 <= va) (H1 : va + Z.of_nat n * GJ_PAGE_SIZE <= 2 ^ 47).

Definition private_at (O : overlay) (i : nat) : Prop := exists lf, O !! page_key r va i = Some (Some lf) /\ lf_cow lf = false.

Lemma wp_mmap_unwind j : forall H E W F O m Q,
  (j <= n)%nat -> space_inv k T A H E W F O m -> active W m r -> (forall i, (i < j)%nat -> private_at O i) ->
  (forall W' F' m', after k T A H E (uput j r va None O) (uput j r va None (abs m O)) W m W' F' m' -> Q tt m') ->
  wp (mmap_unwind j va) Q m.
Proof.
  induction j as [|j IH]; intros H E W F O m Q Hj HI Hact Hpr HQ; cbn [mmap_unwind].
  { apply wp_ret. eapply HQ. by eapply after_grow, grow_refl, HI. }
  destruct (Hpr j ltac:(lia)) as (lf & Ho & Hc). destruct (page_at_ok va j n) as [Hal' _]; [done|done|done|lia|].
  fold (page_at va j). apply (wp_unwind_page _ H E W F O m (page_at va j) lf); [done..|]. intros W1 F1 m1 Ha1.
  apply (IH H E W1 F1 (<[page_key r va j := None]> O)); [lia|apply Ha1|by eapply after_active| |].
  - intros i Hi. destruct (Hpr i ltac:(lia)) as (lf' & Ho' & Hc'). exists lf'. split; [|done]. rewrite lookup_insert_ne; [done|].
    intros Ek. apply (page_key_inj r va n) in Ek; [lia|done|done|done|lia|lia].
  - intros W2 F2 m2 Ha2. eapply HQ. pose proof (af_abs _ _ _ _ _ _ _ _ _ _ _ _ Ha1) as Hab1. fold (page_key r va j) in Hab1.
    rewrite Hab1 in Ha2. eapply after_from; [|exact Ha2]. eexists _, _, _. exact Ha1.
Qed.

Definition zero_words : list Z := (fun _ => 0) <$> seqZ 0 512.

Lemma abs_zero H E W F O m x lf : space_inv k T A H E W F O m -> O !! x = Some (Some lf) -> lf_cow lf = false ->
  abs (set_vphys (put_words PT_WORDS 0 (lf_pa lf) (fun _ => 0) (vphys m)) m) O = <[x := Some (UPage zero_words (lf_w lf) (lf_nx lf))]> (abs m O).
Proof.
  intros HI Ho Hc. pose proof HI as [I1 I2 I3 I4 I5 I6 I7 I8 I9 I10]. destruct (I4 _ _ Ho) as (_ & _ & Huf).
  apply map_eq. intros y. destruct (decide (y = x)) as [->|Hne].
  - rewrite lookup_insert_eq. unfold abs. rewrite lookup_fmap, Ho. simpl. unfold abs_leaf. by rewrite words_put, Hc, orb_false_r.
  - rewrite lookup_insert_ne by done. unfold abs. rewrite !lookup_fmap. destruct (O !! y) as [[lf'|]|] eqn:Hy; [|done..]. simpl.
    unfold abs_leaf. rewrite (words_same m); [done|]. destruct (I4 _ _ Hy) as (_ & _ & [[] _ _ _]).
    pose proof PT_WORDS_512. apply (frame_put_same W F m (lf_pa lf) PT_WORDS 0 (fun _ => 0)); [done|lia|lia| |done]. intros Ep. apply Hne.
    symmetry. by eapply I5.
Qed.

(** The kernel can clear a fresh page through the user mapping. *)
Definition clears (m : vmm_mem) (u32Prot : Z) : Prop :=
  (vm_wp m = true -> has u32Prot GJ_VMM_PROT_WRITE = true) /\ (vm_smap m = true -> vm_ac m = true).

Lemma clears_regs m m' p : vregs m m' -> clears m p -> clears m' p.
Proof. intros R [? ?]. split; [by rewrite (vr_wp _ _ R)|by rewrite (vr_smap _ _ R), (vr_ac _ _ R)]. Qed.

Lemma wp_zero_fresh H E W O m v u32Prot ws lf W' F' m1 Q :
  page_aligned v = true -> canonical v = true -> clears m u32Prot -> lf_cow lf = false -> lf_w lf = has u32Prot GJ_VMM_PROT_WRITE ->
  active W m r ->
  after k T A H E (<[(r, vpage v) := Some lf]> O) (<[(r, vpage v) := Some (anon_page ws u32Prot)]> (abs m O)) W m W' F' m1 ->
  (forall m', after k T A H E (<[(r, vpage v) := Some lf]> O) (<[(r, vpage v) := Some (anon_page zero_words u32Prot)]> (abs m O)) W m W' F' m' ->
     Q tt m') ->
  wp (vzero PT_WORDS v) Q m1.
Proof.
  intros Ha Hcan [Hc1 Hc2] Hc Hw Hact Ha1 HQ.
  pose proof (after_active _ _ _ _ _ _ _ _ _ _ _ _ _ Ha1 Hact) as Hact1. pose proof (af_inv _ _ _ _ _ _ _ _ _ _ _ _ Ha1) as HI1.
  assert ((<[(r, vpage v) := Some lf]> O) !! (r, vpage v) = Some (Some lf)) as Ho1 by apply lookup_insert_eq.
  replace v with (word_va v 0) at 1 by (unfold word_va; lia). pose proof PT_WORDS_512. pose proof (af_regs _ _ _ _ _ _ _ _ _ _ _ _ Ha1) as Hrg.
  apply (wp_vzero_words k T A H E W' F' (<[(r, vpage v) := Some lf]> O) r v lf Ha Hcan Ho1); [done|done| |lia|lia|].
  { split; [rewrite (vr_wp _ _ Hrg), Hw; exact Hc1|by rewrite (vr_smap _ _ Hrg), (vr_ac _ _ Hrg)]. }
  intros m2 Hm2 HI2. eapply HQ. split; [exact HI2|apply Ha1|rewrite Hm2; by destruct Hrg|].
  pose proof (af_abs _ _ _ _ _ _ _ _ _ _ _ _ Ha1) as Hab.
  rewrite Hm2, (abs_zero H E W' F' _ m1 (r, vpage v) lf HI1 Ho1 Hc), Hab, insert_insert_eq.
  rewrite abs_insert in Hab. apply (f_equal (lookup (r, vpage v))) in Hab. rewrite !lookup_insert_eq in Hab.
  apply (inj Some), (inj Some), (f_equal up_nx) in Hab. unfold anon_page. rewrite <-Hw. simpl in Hab. by rewrite Hab.
Qed.

(** The loop: [i] pages are mapped and cleared. *)
Lemma wp_mmap_pages u32Prot N0 c : forall i H E W F O m Q,
  (i + c = n)%nat -> space_inv k T A H E W F O m -> active W m r -> clears m (Z.lor u32Prot GJ_VMM_PROT_USER) ->
  (forall j, (j < i)%nat -> private_at O j) -> (forall j, (i <= j < n)%nat -> frame_at O (page_key r va j) = None) ->
  (forall j, (j < n)%nat -> image_va m (page_at va j) = false) ->
  abs m O = uput i r va (Some (anon_page zero_words (Z.lor u32Prot GJ_VMM_PROT_USER))) N0 ->
  (forall W' F' O' m', after k T A H E O' (uput n r va (Some (anon_page zero_words (Z.lor u32Prot GJ_VMM_PROT_USER))) N0) W m W' F' m' -> Q va m') ->
  (forall j W' F' O' m', (j < n)%nat -> after k T A H E O' (uput j r va None N0) W m W' F' m' -> Q 0 m') ->
  wp (mmap_pages c i va u32Prot) Q m.
Proof.
  assert (has (Z.lor u32Prot GJ_VMM_PROT_USER) GJ_VMM_PROT_USER = true) as Hus.
  { rewrite !(has_bit _ 3 ltac:(lia) : has _ GJ_VMM_PROT_USER = _), Z.lor_spec. change GJ_VMM_PROT_USER with (2 ^ 3). by rewrite Z.pow2_bits_true, orb_true_r by lia. }
  induction c as [|c IH]; intros i H E W F O m Q Hn HI Hact Hcl Hpr Hfree Him HN HQ HQ0; cbn [mmap_pages].
  { apply wp_ret. replace n with i in HQ by lia. eapply HQ. rewrite <-HN. by eapply after_grow, grow_refl, HI. }
  destruct (page_at_ok va i n) as [Hal' Hcan']; [done|done|done|lia|]. fold (page_at va i).
  assert (forall W1 F1 m1, after k T A H E O (abs m O) W m W1 F1 m1 -> wp (mmap_unwind i va ;;; pret 0) Q m1) as Hfail.
  { intros W1 F1 m1 Ha1. apply wp_bind, (wp_mmap_unwind i H E W1 F1 O); [lia|apply Ha1|by eapply after_active|done|].
    intros W2 F2 m2 Ha2. apply wp_ret. eapply (HQ0 i); [lia|]. rewrite (af_abs _ _ _ _ _ _ _ _ _ _ _ _ Ha1), HN, uput_over in Ha2.
    eapply after_from; [|exact Ha2]. eexists _, _, _. exact Ha1. }
  apply wp_bind, (wp_space_alloc k T A H E W F O); [done| |].
  { intros HF. cbn. eapply Hfail. by eapply after_grow, grow_refl, HI. }
  intros pa F1 m1 Hpa Htk HI1. rewrite (proj2 (Z.eqb_neq _ _)) by done.
  assert (vregs m m1) as Hr1 by (apply vkeep_regs; by destruct Htk as (_ & _ & ? & _)).
  assert (abs m1 O = abs m O) as Hab1 by (apply abs_ext; intros x Hx; eapply taken_same; [done|]; by eapply mapped_user).
  assert (active W m1 r) as Hact1 by (by eapply active_regs).
  apply wp_bind, (wp_map_own k T A H E W F1 O m1 pa HI1 r Hact1 Hrk (page_at va i)); [done| | |exact Hus| |].
  { unfold image_va. rewrite (vr_img _ _ Hr1). apply Him. lia. }
  { apply Hfree. lia. }
  { intros W2 m2 Ha2. change (is_ok GJ_ERR_NOMEM) with false. cbn [negb]. apply wp_bind, (wp_hand_free H E W2 [] O); [apply Ha2|].
    intros F3 m3 Ha3. eapply Hfail. rewrite (af_abs _ _ _ _ _ _ _ _ _ _ _ _ Ha2), Hab1 in Ha3.
    destruct Ha3 as [? _ ? ?]. split; [done|apply Ha2|etrans; [exact Hr1|]; by etrans; [apply Ha2|]|done]. }
  intros W2 F2 m2 lf _ _ Hlp Hc Hw Ha2. change (is_ok GJ_OK) with true. cbn [negb]. rewrite Hab1 in Ha2.
  apply wp_bind, (wp_zero_fresh H E W O m1 (page_at va i) (Z.lor u32Prot GJ_VMM_PROT_USER) (words m1 pa) lf W2 F2 m2); [done|done|by eapply clears_regs|done|done|done|by rewrite Hab1|].
  intros m3 Ha3. rewrite Hab1, HN in Ha3. fold (page_key r va i) in Ha3. rewrite uput_snoc in Ha3.
  assert (vregs m m3) as Hr3 by (etrans; [exact Hr1|apply Ha3]).
  apply (IH (S i) H E W2 F2 (<[page_key r va i := Some lf]> O)); [lia|apply Ha3|by eapply after_active|by eapply clears_regs| | | |apply Ha3| |].
  - intros j Hj. destruct (decide (j = i)) as [->|Hne]; [exists lf; by rewrite lookup_insert_eq|].
    destruct (Hpr j ltac:(lia)) as (lf' & Ho' & Hc'). exists lf'. split; [|done]. rewrite lookup_insert_ne; [done|]. intros Ek.
    apply (page_key_inj r va n) in Ek; [lia|done|done|done|lia|lia].
  - intros j Hj. unfold frame_at. rewrite lookup_insert_ne; [apply Hfree; lia|]. intros Ek.
    apply (page_key_inj r va n) in Ek; [lia|done|done|done|lia|lia].
  - intros j Hj. unfold image_va. rewrite (vr_img _ _ Hr3). by apply Him.
  - intros W4 F4 O4 m4 [B1 B2 B3 B4]. apply (HQ W4 F4 O4). split; [done|intros o; rewrite B2; apply Ha3|by etrans|done].
  - intros j W4 F4 O4 m4 Hj [B1 B2 B3 B4]. apply (HQ0 j W4 F4 O4); [done|]. split; [done|intros o; rewrite B2; apply Ha3|by etrans|done].
Qed.
End Anon.

(** * [vmm_mmap_anon] and [vmm_munmap] as a whole. *)

(** Bytes and pages of a request. *)
Definition anon_bytes (cbLen : Z) : Z := page_down (u64_wrap (cbLen + GJ_PAGE_SIZE - 1)).
Definition anon_pages (cbLen : Z) : nat := Z.to_nat (anon_bytes cbLen / GJ_PAGE_SIZE).

(** Where a request that is not refused goes, and the cursor it leaves. *)
Definition anon_place (cur u64Hint cb : Z) : option (Z * Z) :=
  let va := if negb (u64Hint =? 0) && (GJ_VMM_ANON_BASE <=? u64Hint) && (u64_add u64Hint cb <=? GJ_VMM_ANON_END) then u64Hint else cur in
  if GJ_VMM_ANON_END <? u64_add va cb then None else
  Some (va, if va =? cur then u64_add cur cb else if cur <? u64_add va cb then u64_add va cb else cur).

Section Calls.
Context (k : Z) (T : Z -> option leaf) (A : gset Z) (r : Z) (Hrk : r <> k).

Lemma space_cursors H E W F O m cs p : space_inv k T A H E W F O m -> space_inv k T A H E W F O (set_cursors cs p m).
Proof.
  intros [I1 I2 I3 I4 I5 I6 I7 I8 I9 I10]. split; try done.
  - by destruct I1.
  - intros x lf Hx. destruct (I4 _ _ Hx) as (? & ? & []). done.
  - intros x Hx. destruct (I7 x Hx) as [[] ?]. done.
  - intros x Hx. destruct (I9 x Hx) as ([] & ? & ?). done.
Qed.

(** The pages of a request at [va] are the process's to map. *)
Record anon_ok (O : overlay) (m : vmm_mem) (va : Z) (n : nat) (u32Prot : Z) : Prop := MkAnonOk {
  ao_align : page_aligned va = true;
  ao_low : 0 <= va;
  ao_high : va + Z.of_nat n * GJ_PAGE_SIZE <= 2 ^ 47;
  ao_free : forall j, (j < n)%nat -> frame_at O (page_key r va j) = None;
  ao_image : forall j, (j < n)%nat -> image_va m (page_at va j) = false;
  ao_clear : clears m (Z.lor u32Prot GJ_VMM_PROT_USER) }.

Definition anon_done (n : nat) (va u32Prot : Z) (N : uspace) : uspace :=
  uput n r va (Some (anon_page zero_words (Z.lor u32Prot GJ_VMM_PROT_USER))) N.

Lemma wp_anon_pages H E W F O m va n u32Prot Q :
  space_inv k T A H E W F O m -> active W m r -> anon_ok O m va n u32Prot ->
  (forall W' F' O' m', after k T A H E O' (anon_done n va u32Prot (abs m O)) W m W' F' m' -> Q va m') ->
  (forall j W' F' O' m', (j < n)%nat -> after k T A H E O' (uput j r va None (abs m O)) W m W' F' m' -> Q 0 m') ->
  wp (mmap_pages n 0 va u32Prot) Q m.
Proof.
  intros HI Hact [A1 A2 A3 A4 A5 A6] HQ HQ0.
  apply (wp_mmap_pages k T A r Hrk va n A1 A2 A3 u32Prot (abs m O) n 0 H E W F O m); [lia|done|done|done|lia|by intros j [_ Hj]; apply A4|done|done|done|done].
Qed.

Lemma wp_mmap_fixed H E W F O m va cbLen u32Prot Q :
  space_inv k T A H E W F O m -> active W m r -> cbLen <> 0 -> anon_ok O m va (anon_pages cbLen) u32Prot ->
  (forall W' F' O' m', after k T A H E O' (anon_done (anon_pages cbLen) va u32Prot (abs m O)) W m W' F' m' -> Q va m') ->
  (forall j W' F' O' m', (j < anon_pages cbLen)%nat -> after k T A H E O' (uput j r va None (abs m O)) W m W' F' m' -> Q 0 m') ->
  wp (vmm_mmap_anon va cbLen u32Prot true) Q m.
Proof.
  intros HI Hact Hl Hao HQ HQ0. unfold vmm_mmap_anon. rewrite (proj2 (Z.eqb_neq _ _)), (ao_align _ _ _ _ _ Hao) by done.
  eapply (wp_anon_pages H E W F O); done.
Qed.

Lemma wp_mmap_hint H E W F O m u64Hint cbLen u32Prot cur Q :
  space_inv k T A H E W F O m -> active W m r -> cbLen <> 0 -> vm_cursors m !! g_pAnonCursor m = Some cur ->
  (anon_place cur u64Hint (anon_bytes cbLen) = None -> Q 0 m) ->
  (forall va cur' m0, anon_place cur u64Hint (anon_bytes cbLen) = Some (va, cur') ->
     m0 = set_cursors (<[g_pAnonCursor m := cur']> (vm_cursors m)) (g_pAnonCursor m) m ->
     anon_ok O m0 va (anon_pages cbLen) u32Prot /\
     (forall W' F' O' m', after k T A H E O' (anon_done (anon_pages cbLen) va u32Prot (abs m O)) W m0 W' F' m' -> Q va m') /\
     (forall j W' F' O' m', (j < anon_pages cbLen)%nat -> after k T A H E O' (uput j r va None (abs m O)) W m0 W' F' m' -> Q 0 m')) ->
  wp (vmm_mmap_anon u64Hint cbLen u32Prot false) Q m.
Proof.
  intros HI Hact Hl Hcur HQn HQs. unfold vmm_mmap_anon. rewrite (proj2 (Z.eqb_neq _ _)) by done. cbv zeta. fold (anon_bytes cbLen).
  fold (anon_pages cbLen). apply wp_bind, wp_get. rewrite Hcur. unfold anon_place in *. cbv zeta in *.
  set (va := if _ && _ then u64Hint else cur) in *.
  destruct (GJ_VMM_ANON_END <? u64_add va (anon_bytes cbLen)); [by apply wp_ret, HQn|]. apply wp_bind, wp_put.
  set (m0 := set_cursors _ _ _). destruct (HQs va _ m0 eq_refl eq_refl) as (Hao & HQ & HQ0).
  apply (wp_anon_pages H E W F O); [by apply space_cursors|done|done|exact HQ|exact HQ0].
Qed.

(** ** Return *)

(** References that stay behind: of shared pages that map their own address. *)
Definition leaks (O : overlay) (va : Z) (n : nat) (E E' : list Z) : Prop :=
  forall x, x ∈ E' -> x ∈ E \/ exists j lf, (j < n)%nat /\ x = page_at va j /\ O !! page_key r va j = Some (Some lf) /\ lf_pa lf = x.

Lemma wp_munmap_page {B} (c : prog vmm_mem B) H E W F O m v o Q :
  space_inv k T A H E W F O m -> active W m r -> page_aligned v = true -> O !! (r, vpage v) = Some o ->
  (forall W' F' E' m', (E' = E \/ (E' = v :: E /\ exists lf, o = Some lf /\ lf_pa lf = v)) ->
     after k T A H E' (<[(r, vpage v) := None]> O) (<[(r, vpage v) := None]> (abs m O)) W m W' F' m' -> wp c Q m') ->
  wp (u64Pte <- vmm_read_pte v ;; pa <- vmm_virt_to_phys v ;; vmm_unmap_page v ;;;
      (if negb (pa =? 0) && negb (has u64Pte PTE_COW) then on_pmm (pmm_free (page_down pa)) else pret tt) ;;; c) Q m.
Proof.
  intros HI Hact Hal Ho HQ. apply wp_bind, (wp_read_own k T A H E W F O m HI r Hact v o); [done|].
  intros W1 F1 m1 e Ha1 He. pose proof (after_active _ _ _ _ _ _ _ _ _ _ _ _ _ Ha1 Hact) as Hact1.
  apply wp_bind, (wp_virt_own k T A H E W1 F1 O m1 (af_inv _ _ _ _ _ _ _ _ _ _ _ _ Ha1) r Hact1 v o); [done|done|].
  intros W2 F2 m2 Ha2. rewrite (af_abs _ _ _ _ _ _ _ _ _ _ _ _ Ha1) in Ha2.
  assert (after k T A H E O (abs m O) W m W2 F2 m2) as Ha by (eapply after_from; [eexists _, _, _; exact Ha1|exact Ha2]).
  clear Ha1 Ha2 Hact1. pose proof (after_active _ _ _ _ _ _ _ _ _ _ _ _ _ Ha Hact) as Hact2.
  pose proof (af_inv _ _ _ _ _ _ _ _ _ _ _ _ Ha) as HI2. pose proof (af_abs _ _ _ _ _ _ _ _ _ _ _ _ Ha) as Hab. destruct o as [lf|].
  - destruct (leaf_pa_pos _ _ _ _ _ _ _ _ _ HI _ _ Ho) as [Hp _]. rewrite (proj2 (Z.eqb_neq _ _)) by done.
    assert (has e PTE_COW = lf_cow lf) as -> by (unfold pte_leaf in He; destruct (has e PTE_P); [by injection He as <-|done]).
    apply wp_bind, (wp_unmap_own k T A H E W2 F2 O m2 HI2 r Hact2 v lf); [done|]. intros W3 F3 m3 Ha3. rewrite Hab in Ha3.
    apply (after_from _ _ _ _ _ _ _ _ _ _ _ _ _ _ _ _ (ex_intro _ _ (ex_intro _ _ (ex_intro _ _ Ha)))) in Ha3. apply wp_bind.
    unfold unmap_hand, unmap_refs in Ha3. destruct (lf_cow lf); cbn [negb andb] in *.
    + apply wp_ret. eapply HQ; [|exact Ha3]. destruct (Z.eqb_spec (lf_pa lf) v) as [Ev|]; [|by left]. right. rewrite Ev. split; [done|]. by exists lf.
    + destruct (si_leaf _ _ _ _ _ _ _ _ _ HI _ _ Ho) as (_ & _ & [[] _ _ _]). rewrite page_down_eq, page_of_aligned by done.
      apply (wp_hand_free k T A H E W3 F3 (<[(r, vpage v) := None]> O)); [apply Ha3|]. intros F4 m4 Ha4. eapply HQ; [by left|].
      rewrite (af_abs _ _ _ _ _ _ _ _ _ _ _ _ Ha3) in Ha4. eapply after_from; [|exact Ha4]. eexists _, _, _. exact Ha3.
  - apply wp_bind, (wp_unmap_hole k T A H E W2 F2 O m2 HI2 r Hact2 v); [done|]. intros W3 F3 m3 Ha3. rewrite Hab in Ha3.
    apply (after_from _ _ _ _ _ _ _ _ _ _ _ _ _ _ _ _ (ex_intro _ _ (ex_intro _ _ (ex_intro _ _ Ha)))) in Ha3.
    apply wp_bind, wp_ret. eapply HQ; [by left|]. rewrite (insert_id O), (insert_id (abs m O)); [exact Ha3| |done].
    by rewrite (abs_lookup m O _ _ Ho).
Qed.

Lemma wp_munmap_pages va n O0 N0 E0 c : forall i H E W F O m Q,
  page_aligned va = true -> 0 <= va -> va + Z.of_nat n * GJ_PAGE_SIZE <= 2 ^ 47 -> (i + c = n)%nat ->
  space_inv k T A H E W F O m -> active W m r -> (forall j, (i <= j < n)%nat -> is_Some (O !! page_key r va j)) ->
  (forall x lf, O !! x = Some (Some lf) -> O0 !! x = Some (Some lf)) ->
  leaks O0 va n E0 E -> abs m O = uput i r va None N0 ->
  (forall W' F' E' O' m', leaks O0 va n E0 E' -> after k T A H E' O' (uput n r va None N0) W m W' F' m' -> Q tt m') ->
  wp (munmap_pages c i va) Q m.
Proof.
  induction c as [|c IH]; intros i H E W F O m Q Hal H0 H1 Hn HI Hact Hown Hsub Hlk HN HQ; cbn [munmap_pages].
  { apply wp_ret. replace n with i in * by lia. eapply HQ; [exact Hlk|]. rewrite <-HN. by eapply after_grow, grow_refl, HI. }
  destruct (page_at_ok va i n) as [Hal' _]; [done|done|done|lia|]. fold (page_at va i). destruct (Hown i ltac:(lia)) as [o Ho].
  apply (wp_munmap_page _ H E W F O m (page_at va i) o); [done..|]. intros W1 F1 E1 m1 HE1 Ha1.
  fold (page_key r va i) in Ha1. rewrite HN, uput_snoc in Ha1.
  apply (IH (S i) H E1 W1 F1 (<[page_key r va i := None]> O)); [done|done|done|lia|apply Ha1|by eapply after_active| | | |apply Ha1|].
  - intros j Hj. apply lookup_insert_is_Some. destruct (decide (page_key r va i = page_key r va j)); [by left|right]. split; [done|].
    apply Hown. lia.
  - intros x lf Hx. apply lookup_insert_Some in Hx as [[_ ?]|[_ Hx]]; [done|by apply Hsub].
  - intros x Hx. destruct HE1 as [->|(-> & lf & -> & Hlf)]; [by apply Hlk|]. apply elem_of_cons in Hx as [->|Hx]; [|by apply Hlk].
    right. exists i, lf. split_and!; [lia|done|by apply Hsub|done].
  - intros W2 F2 E2 O2 m2 Hlk2 Ha2. eapply HQ; [exact Hlk2|]. eapply after_from; [|exact Ha2]. eexists _, _, _. exact Ha1.
Qed.

(** The pages of a request are the process's own, mapped or already gone. *)
Record unmap_ok (O : overlay) (va : Z) (n : nat) : Prop := MkUnmapOk {
  uo_align : page_aligned va = true;
  uo_low : 0 <= va;
  uo_high : va + Z.of_nat n * GJ_PAGE_SIZE <= 2 ^ 47;
  uo_own : forall j, (j < n)%nat -> is_Some (O !! page_key r va j) }.

Lemma wp_munmap H E W F O m va cbLen Q :
  space_inv k T A H E W F O m -> active W m r -> cbLen <> 0 -> unmap_ok O va (anon_pages cbLen) ->
  (forall W' F' E' O' m', leaks O va (anon_pages cbLen) E E' ->
     after k T A H E' O' (uput (anon_pages cbLen) r va None (abs m O)) W m W' F' m' -> Q GJ_OK m') ->
  wp (vmm_munmap va cbLen) Q m.
Proof.
  intros HI Hact Hl [U1 U2 U3 U4] HQ. unfold vmm_munmap. rewrite U1, (proj2 (Z.eqb_neq _ _)) by done. cbn [negb orb]. cbv zeta.
  fold (anon_bytes cbLen). fold (anon_pages cbLen). apply wp_bind.
  apply (wp_munmap_pages va (anon_pages cbLen) O (abs m O) E (anon_pages cbLen) 0 H E W F O m); [done|done|done|lia|done|done| |done|by intros x Hx; left|done|].
  - intros j [_ Hj]. by apply U4.
  - intros W' F' E' O' m' Hlk Ha. apply wp_ret. by eapply HQ.
Qed.
End Calls.

(** * A new address space: a copy of the template's root. *)

Section Root.
Context (ph : gmap Z Z) (k : Z) (W : tabs) (Hok : pt_ok ph k W) (n : Z).
Context (Hal : n mod GJ_PAGE_SIZE = 0) (Hfresh : no_tab W n).
Context (Hcopy : forall i, 0 <= i < 512 -> ph !! slot n i = ph !! slot k i).

Lemma no_owner l c : W !! (n, l, c) = None.
Proof.
  destruct (W !! (n, l, c)) as [t|] eqn:Et; [|done]. destruct (pt_lvl _ _ _ Hok _ _ _ _ Et) as (_ & _ & Hr). by destruct (Hfresh (n, 3%nat, 0)).
Qed.

Lemma not_template : n <> k.
Proof. intros Ek. apply (Hfresh (k, 3%nat, 0)). rewrite Ek. apply (pt_root _ _ _ Hok). Qed.

Lemma root_lookup_ne x t : W !! x = Some t -> <[(n, 3%nat, 0) := n]> W !! x = Some t.
Proof. intros Hx. rewrite lookup_insert_ne; [done|]. intros <-. by rewrite no_owner in Hx. Qed.

Lemma pt_new_root : pt_ok ph k (<[(n, 3%nat, 0) := n]> W).
Proof.
  pose proof Hok as [H1 H2 H3 H4 H5 H6]. pose proof root_lookup_ne as Hm. split.
  - by apply Hm.
  - intros r l c t Ht. apply lookup_insert_Some in Ht as [[Ex <-]|[_ Ht]].
    + injection Ex as <- <- <-. split_and!; [lia|done|by rewrite lookup_insert_eq].
    + destruct (H2 _ _ _ _ Ht) as (? & ? & ?). split_and!; [done|done|by apply Hm].
  - intros r l c t Ht Hl. apply lookup_insert_Some in Ht as [[Ex <-]|[_ Ht]]; [injection Ex as <- <- <-; lia|].
    destruct (H3 _ _ _ _ Ht Hl) as [t' Ht']. exists t'. by apply Hm.
  - intros r l c t i Ht Hj. apply lookup_insert_Some in Ht as [[Ex <-]|[_ Ht]].
    + injection Ex as <- <- <-. destruct (H4 _ _ _ _ _ H1 Hj) as (e & Ee & Hent). exists e. rewrite Hcopy by done. split; [done|].
      simpl in *. rewrite lookup_insert_ne by (intros Ex; congruence). rewrite no_owner. intros HP.
      assert (has e PTE_PS = false) as HS.
      { destruct (W !! (k, 2%nat, 0 * 512 + i)); [by destruct Hent as (_ & ? & _)|]. specialize (Hent HP). by destruct (has e PTE_PS); [destruct Hent|]. }
      rewrite HS. split; [apply not_template|]. exists k. split; [by apply Hm|done].
    + destruct (H4 _ _ _ _ _ Ht Hj) as (e & Ee & Hent). exists e. split; [done|]. destruct l as [|l]; [done|]. simpl in *.
      rewrite lookup_insert_ne by (intros [= <- _]; by rewrite no_owner in Ht). destruct (W !! (r, l, c * 512 + i)); [done|].
      intros HP. specialize (Hent HP). destruct (has e PTE_PS); [done|]. destruct Hent as (Hne & tk & Hk & Ek). split; [done|]. exists tk.
      split; [by apply Hm|done].
  - intros x y t Hx Hy. apply lookup_insert_Some in Hx as [[<- <-]|[_ Hx]], Hy as [[<- Hy]|[_ Hy]].
    + done.
    + by destruct (Hfresh y).
    + subst t. by destruct (Hfresh x).
    + by eapply H5.
  - intros x t Hx. apply lookup_insert_Some in Hx as [[_ <-]|[_ Hx]]; [done|by eapply H6].
Qed.

Lemma root_leaf va : hwleaf ph 3 n va = hwleaf ph 3 k va.
Proof. cbn [hwleaf]. rewrite Hcopy by apply (vidx_lvl 3). done. Qed.
End Root.

Section New.
Context (k : Z) (T : Z -> option leaf) (A : gset Z).

(** A page in hand that copies the template's root is an address space. *)
Lemma space_new_root H E W F O m n :
  space_inv k T A (n :: H) E W F O m -> (forall i, 0 <= i < 512 -> vphys m !! slot n i = vphys m !! slot k i) ->
  space_inv k T A H E (<[(n, 3%nat, 0) := n]> W) F O m.
Proof.
  intros HI Hcopy. pose proof HI as [I1 I2 I3 I4 I5 I6 I7 I8 I9 I10]. apply NoDup_cons in I8 as [HnH HdH].
  destruct (I9 n (in_head _ _)) as ([U1 [U2 U2'] U3 U4] & HnE & Hnm). pose proof (vi_pt _ _ _ _ I1) as Hp.
  pose proof (no_owner (vphys m) k W Hp n U4) as Hno. pose proof (root_lookup_ne (vphys m) k W Hp n U4) as Hm.
  assert (forall x, user_frame W F m x -> x <> n -> user_frame (<[(n, 3%nat, 0) := n]> W) F m x) as Huf.
  { intros x [V1 V2 V3 V4] Hne. split; [done..|]. intros y Hy. apply lookup_insert_Some in Hy as [[_ ->]|[_ Hy]]; [done|by apply (V4 y)]. }
  split; try done.
  - destruct I1 as [J1 J2 J3 J4 J5 J6 J7]. split; try done.
    + by apply pt_new_root; [|apply U1|..].
    + intros x t Hx. apply lookup_insert_Some in Hx as [[_ <-]|[_ Hx]]; [done|by eapply J6].
    + intros r l c t Hx Hr. apply lookup_insert_Some in Hx as [[_ <-]|[_ Hx]]; [done|by eapply J7].
  - intros r va Hr. apply lookup_insert_Some in Hr as [[Ex _]|[_ Hr]]; [|by apply I2]. injection Ex as <-.
    assert (forall r', (forall o, O !! (r', vpage va) <> Some o) -> O !! (r', vpage va) = None) as Hn by (intros r' Hx; destruct (O !! _) eqn:?; [by destruct (Hx o)|done]).
    assert (O !! (n, vpage va) = None) as ->.
    { apply Hn. intros o Ho. destruct (I3 _ _ _ Ho) as (_ & [t Ht] & _). by rewrite Hno in Ht. }
    unfold view. rewrite (root_leaf (vphys m) k n Hcopy). fold (view m k va). rewrite I2 by apply Hp.
    rewrite (Hn k); [done|]. intros o Ho. by destruct (I3 _ _ _ Ho).
  - intros r va o Ho. destruct (I3 _ _ _ Ho) as (? & [t Ht] & Hu). split_and!; [done|exists t; by apply Hm|]. intros l Hl.
    destruct (Hu l Hl) as (t2 & e & Ht2 & He). exists t2, e. split; [by apply Hm|done].
  - intros x lf Hx. destruct (I4 _ _ Hx) as (? & ? & ?). split_and!; [done|done|]. apply Huf; [done|by eapply Hnm].
  - intros x Hx. destruct (I7 x Hx). split; [|done]. apply Huf; [done|by intros ->].
  - intros x Hx. destruct (I9 x ltac:(by right)) as (? & ? & ?). split_and!; [|done|done]. apply Huf; [done|by intros ->].
  - intros x Hx. destruct (I10 x Hx) as [?|[[y Hy]|[?|[Hh|?]]]]; [by left| |by auto| |by auto].
    + right. left. exists y. by apply Hm.
    + apply elem_of_cons in Hh as [->|Hh]; [|by auto]. right. left. exists (n, 3%nat, 0). by rewrite lookup_insert_eq.
Qed.

Record created (H E : list Z) (W : tabs) (O : overlay) (m : vmm_mem) (n : Z) (F' : list Z) (m' : vmm_mem) : Prop := MkCreated {
  cd_inv : space_inv k T A H E (<[(n, 3%nat, 0) := n]> W) F' O m';
  cd_new : W !! (n, 3%nat, 0) = None;
  cd_regs : vregs m m';
  cd_abs : abs m' O = abs m O }.

Lemma wp_as_create H E W F O m Q :
  space_inv k T A H E W F O m ->
  (F = [] -> Q 0 m) -> (forall n F' m', n <> 0 -> created H E W O m n F' m' -> Q n m') ->
  wp vmm_as_create Q m.
Proof.
  intros HI HQ0 HQ. pose proof (si_inv _ _ _ _ _ _ _ _ _ HI) as Hi. unfold vmm_as_create. apply wp_bind, wp_get. rewrite (vi_ker _ _ _ _ Hi).
  apply wp_bind. unfold alloc_table. apply wp_bind, (wp_space_alloc k T A H E W F O); [done| |].
  { intros HF. apply wp_ret. change (0 =? 0) with true. cbv iota. wsteps. by apply HQ0. }
  intros n F1 m1 Hn Htk HI1. rewrite (proj2 (Z.eqb_neq _ _)) by done. pose proof PT_WORDS_512 as H512.
  destruct (si_hand _ _ _ _ _ _ _ _ _ HI1 n (in_head _ _)) as (Huf1 & _ & Hnm).
  apply wp_bind. rewrite <-(slot_0 n) at 1. apply wp_fill_words; [apply Huf1|lia|lia|]. apply wp_ret. rewrite (proj2 (Z.eqb_neq _ _)) by done.
  pose proof (space_frame_put k T A (n :: H) E W F1 O m1 HI1 n PT_WORDS 0 (fun _ => 0) Huf1 ltac:(lia) ltac:(lia)) as HI2.
  set (m2 := set_vphys _ m1) in *. destruct (si_hand _ _ _ _ _ _ _ _ _ HI2 n (in_head _ _)) as (Huf2 & _ & _).
  pose proof (si_inv _ _ _ _ _ _ _ _ _ HI2) as Hi2. pose proof (pt_root _ _ _ (vi_pt _ _ _ _ Hi2)) as Hkr.
  pose proof (not_template _ _ _ (vi_pt _ _ _ _ Hi2) n (uf_tab _ _ _ _ Huf2)) as Hnk.
  apply wp_bind, (wp_share_slots n k (fun i => default 0 (vphys m2 !! slot k i))); [apply Huf2|apply (vi_tab _ _ _ _ Hi2 _ _ Hkr)|done|lia|lia| |].
  { intros j Hj. destruct (pt_ent _ _ _ (vi_pt _ _ _ _ Hi2) _ _ _ _ j Hkr ltac:(lia)) as (e & -> & _). done. }
  intros cs. pose proof (space_frame_put k T A (n :: H) E W F1 O m2 HI2 n PT_WORDS 0 (fun i => default 0 (vphys m2 !! slot k i)) Huf2 ltac:(lia) ltac:(lia)) as HI3.
  set (m3 := set_vphys _ m2) in *. wsteps. apply wp_vmm_note_peaks. wsteps. apply (HQ n F1 m3); [done|].
  assert (forall x, mapped_frame O x -> same_frame m1 m3 x) as Hs.
  { intros x Hx i Hj. pose proof (mapped_user _ _ _ _ _ _ _ _ _ _ HI1 Hx) as [[] _ _ _].
    assert (x <> n) as Hne by (destruct Hx as (y & lf & Hy & <-); by eapply Hnm).
    unfold m3. rewrite (frame_put_same W F1 m2 n PT_WORDS 0 _ x Huf2); [|lia|lia|done|done|done].
    unfold m2. rewrite (frame_put_same W F1 m1 n PT_WORDS 0 _ x Huf1); [done|lia|lia|done|done|done]. }
  split.
  - apply space_new_root; [exact HI3|]. intros i Hj. unfold m3. rewrite vphys_set, put_words_in by lia.
    rewrite put_words_page; [|apply Huf1|lia|lia|].
    + destruct (pt_ent _ _ _ (vi_pt _ _ _ _ Hi2) _ _ _ _ i Hkr Hj) as (e & -> & _). done.
    + destruct (inv_tab_page _ _ _ _ Hi2 _ _ i Hkr Hj) as [-> _]. done.
  - apply (no_owner _ _ _ (vi_pt _ _ _ _ Hi2) n (uf_tab _ _ _ _ Huf2)).
  - destruct Htk as (_ & _ & Hk1 & _). etrans; [apply vkeep_regs, Hk1|]. by split.
  - rewrite (abs_ext m1 m3 O Hs). apply abs_ext. intros x Hx. eapply taken_same; [done|]. by eapply mapped_user.
Qed.
End New.
