(* ===== verification/VmmFork.v ===== *)
(** [vmm_as_clone_user_pages]: one page, the tables above it, and the whole. *)
From stdpp Require Import base gmap list strings.
From Stdlib Require Import ZArith Lia.
From S2P Require Import Prelude CapTypes Pmm PmmInv PmmOps PmmBoot PmmSelf PmmSys Vmm VmmTables VmmEntry VmmWalks VmmOps VmmSpace VmmUser VmmAnon.

(** * Fork of one page: shared copy-on-write, or copied when it is read-only. *)

(** A reading walk through an address space's own tables changes nothing. *)
Section OwnWalk.
Context (k : Z) (W : tabs) (F : list Z) (m : vmm_mem) (Hi : vm_inv k W F m) (r : Z) (Hact : active W m r) (va t0 : Z).
Context (Ht : W !! (r, 0%nat, key 0 va) = Some t0).

Lemma own_up l : (l <= 3)%nat -> is_Some (W !! (r, l, key l va)).
Proof.
  pose proof (vi_pt _ _ _ _ Hi) as Hp. induction l as [|l IH]; intros Hl; [by exists t0|]. destruct (IH ltac:(lia)) as [t Hl0].
  destruct (pt_parent _ _ _ Hp _ _ _ _ Hl0) as [t' Ht']; [lia|]. exists t'. rewrite (key_child l) in Ht' by lia.
  pose proof (vidx_lvl (S l) va). by replace ((key (S l) va * 512 + vidx (shift_of (S l)) va) / 512) with (key (S l) va) in Ht'
    by (Z.div_mod_to_equations; lia).
Qed.

Lemma wp_read_entry L t (Q : bool -> vmm_mem -> Prop) ker :
  W !! (r, S L, key (S L) va) = Some t -> is_Some (W !! (r, L, key L va)) -> Q true m ->
  wp (grow_entry (slot t (vidx (shift_of (S L)) va)) false false ker) Q m.
Proof.
  intros Ht1 Hd HQ. unfold grow_entry. apply wp_bind. destruct (tab_read k W F m Hi va r (S L) t Ht1) as (e & Ee & Hent & Htp).
  apply (wp_rd t _ e); [done|apply vidx_lvl|done|]. destruct Hd as [n Hn]. rewrite (key_next k W F m Hi va r L t Ht1) in Hn. simpl in Hent.
  rewrite Hn in Hent. destruct Hent as (-> & _ & _). by apply wp_ret.
Qed.

Lemma wp_own_walk Q : Q (Some (slot t0 (vidx 12 va))) m -> wp (walk_pte va false) Q m.
Proof.
  intros HQ. pose proof (own_up 3 ltac:(lia)) as [t3 H3]. pose proof (own_up 2 ltac:(lia)) as [t2 H2]. pose proof (own_up 1 ltac:(lia)) as [t1 H1].
  assert (t3 = r) as -> by (rewrite key_root in H3; destruct Hact as [_ Hr]; congruence).
  unfold walk_pte. apply wp_bind, (wp_as_is_private k W F m Hi r); [done|]. cbn [andb]. apply wp_bind. unfold walk_pd_entry.
  apply wp_bind, (wp_active_pml4 W m r); [done|]. apply wp_bind, (wp_as_is_private k W F m Hi r); [done|]. cbn [andb].
  apply wp_bind, (wp_read_entry 2 r); [done|by exists t2|]. cbn [negb]. apply wp_bind, wp_ret.
  apply wp_bind, (wp_next_table k W F m Hi r va 2 r); [done|by exists t2|]. intros e4 _ E4. fold (addr e4). rewrite H2 in E4. injection E4 as <-.
  apply wp_bind, (wp_read_entry 1 t2); [done|by exists t1|]. cbn [negb]. apply wp_bind, wp_ret.
  apply wp_bind, (wp_next_table k W F m Hi r va 1 t2); [done|by exists t1|]. intros e3 HS3 E3. rewrite HS3. fold (addr e3). rewrite H1 in E3. injection E3 as <-.
  apply wp_ret. apply wp_bind, wp_ret. cbn [negb].
  apply wp_bind, (wp_next_table k W F m Hi r va 0 t1); [done|by exists t0|]. intros e2 HS2 E2. rewrite HS2, andb_false_r.
  apply wp_bind, wp_ret. change (is_ok GJ_OK) with true. cbn [negb]. apply wp_bind, (wp_read_entry 0 t1); [done|by exists t0|]. cbn [negb].
  apply wp_bind, wp_ret, wp_bind, (wp_next_table k W F m Hi r va 0 t1); [done|by exists t0|]. intros e HS E0. fold (addr e).
  apply wp_ret. rewrite Ht in E0. by injection E0 as <-.
Qed.
End OwnWalk.

(** ** Copy-on-write leaves *)
Definition cow_leaf (lf : leaf) : leaf := Leaf (lf_pa lf) false true (lf_nx lf) true.

Lemma demote_bits e i : 0 <= i ->
  Z.testbit (Z.ldiff (Z.lor e (Z.lor PTE_COW (Z.lor PTE_P PTE_U))) PTE_W) i =
  (Z.testbit e i || ((i =? 9) || ((i =? 0) || (i =? 2)))) && negb (i =? 1).
Proof.
  intros Hi. rewrite Z.ldiff_spec, !Z.lor_spec. change PTE_COW with (2 ^ 9). change PTE_W with (2 ^ 1). change PTE_P with (2 ^ 0).
  change PTE_U with (2 ^ 2). rewrite !Z.pow2_bits_eqb by lia. by rewrite !(Z.eqb_sym _ i).
Qed.

Lemma demote_pte e : pte_leaf (Z.ldiff (Z.lor e (Z.lor PTE_COW (Z.lor PTE_P PTE_U))) PTE_W) = Some (cow_leaf (leaf_at (addr e) e)).
Proof.
  set (f := Z.ldiff _ _). assert (addr f = addr e) as Ha.
  { apply Z.bits_inj'. intros i Hi. unfold addr. rewrite !Z.land_spec, mask_bit by done. unfold f. rewrite demote_bits by done.
    destruct (Z.leb_spec 12 i); [|by rewrite !andb_false_r].
    rewrite (proj2 (Z.eqb_neq i 9)), (proj2 (Z.eqb_neq i 0)), (proj2 (Z.eqb_neq i 2)), (proj2 (Z.eqb_neq i 1)) by lia.
    cbn [orb negb]. by rewrite orb_false_r, andb_true_r. }
  unfold pte_leaf, leaf_at, cow_leaf. rewrite Ha. bits. unfold f. rewrite !demote_bits by lia. cbn [lf_pa lf_nx leaf_at]. bits.
  change (9 =? 9) with true. change (0 =? 0) with true. change (2 =? 2) with true. change (1 =? 1) with true.
  cbn [Z.eqb Pos.eqb orb negb]. rewrite !orb_true_r, !andb_true_r, !orb_false_r, andb_false_r. done.
Qed.

Section Demote.
Context (k : Z) (W : tabs) (F : list Z) (m : vmm_mem) (Hi : vm_inv k W F m) (r : Z) (Hact : active W m r) (Hrk : r <> k) (va t : Z).
Context (Ht : W !! (r, 0%nat, key 0 va) = Some t).

Lemma wp_demote lf Q : view m r va = Some lf ->
  (forall m', changed k W F m r va lf (Some (cow_leaf lf)) W F m' -> Q tt m') -> wp (demote (slot t (vidx 12 va)) va) Q m.
Proof.
  intros Hv HQ. destruct (tab_read k W F m Hi va r 0 t Ht) as (e & Ee & _ & Htp). change (shift_of 0) with 12 in Ee.
  unfold demote. apply wp_bind, (wp_rd t _ e); [done|apply (vidx_lvl 0)|done|].
  apply (wp_leaf_change k W F m Hi r Hact Hrk va t e _ W F m lf); [by apply grow_refl|done|done|done|done|]. rewrite demote_pte.
  pose proof (own_pte k W F m Hi r va t e Ht Ee) as Hl. rewrite Hv in Hl. unfold pte_leaf in Hl. destruct (has e PTE_P); [|done].
  injection Hl as <-. exact HQ.
Qed.
End Demote.

(** ** Room in the table of shared frames *)
Record roomy (C : gset Z) (O : overlay) (E : list Z) (m : vmm_mem) : Prop := MkRoomy {
  ro_size : (size C <= length (g_aCowRef m))%nat;
  ro_leaf : forall y lf, O !! y = Some (Some lf) -> lf_w lf || lf_cow lf = true -> lf_pa lf ∈ C;
  ro_refs : forall x, x ∈ E -> x ∈ C }.

Lemma refs_in C O E m pa : roomy C O E m -> (1 <= refs O E pa)%nat -> pa ∈ C.
Proof.
  intros [_ R1 R2] Hr. unfold refs in Hr. destruct (decide (1 <= cows O pa)%nat) as [Hc|Hc].
  - unfold cows in Hc. apply map_sum_pos in Hc as (y & o & Hy & Ho). destruct o as [lf|]; [|simpl in Ho; lia]. simpl in Ho.
    destruct (lf_cow lf) eqn:Ec; [|simpl in Ho; lia]. destruct (Z.eqb_spec (lf_pa lf) pa) as [<-|]; [|simpl in Ho; lia].
    apply (R1 y); [done|]. by rewrite Ec, orb_true_r.
  - destruct (vcountb_pos (fun x => (x =? pa)%Z) E) as (z & Hz & Ez); [lia|]. apply Z.eqb_eq in Ez as ->. by apply R2.
Qed.

Lemma cow_not_full C O E m pa : roomy C O E m -> cow_ok (g_aCowRef m) (refs O E) -> pa ∈ C -> refs O E pa = 0%nat ->
  Forall (fun r => cr_used r = true) (g_aCowRef m) -> False.
Proof.
  intros HR [O1 O2 O3] Hpa Hz Hu. set (l := g_aCowRef m) in *. rewrite Forall_lookup in Hu.
  assert (NoDup (cr_pa <$> l)) as Hd.
  { apply NoDup_alt. intros i j x Hx Hy. rewrite list_lookup_fmap in Hx, Hy. apply fmap_Some in Hx as (r1 & Hx & ->), Hy as (r2 & Hy & Ep).
    eapply O2; eauto. }
  assert (list_to_set (cr_pa <$> l) ⊆ C ∖ {[pa]}) as Hsub.
  { intros x Hx. apply elem_of_list_to_set in Hx. apply list_elem_of_fmap in Hx as (r0 & -> & Hr0). apply list_elem_of_lookup in Hr0 as [i Hi].
    destruct (O1 _ _ Hi (Hu _ _ Hi)) as (_ & _ & Hc). apply elem_of_difference. split; [by eapply refs_in|].
    rewrite elem_of_singleton. intros Ep. rewrite Ep in Hc. lia. }
  apply subseteq_size in Hsub. rewrite size_list_to_set in Hsub by done. rewrite length_fmap in Hsub.
  assert (size (C ∖ {[pa]}) = size C - 1)%nat as Hs by (rewrite size_difference by set_solver; by rewrite size_singleton).
  assert (1 <= size C)%nat by (assert (size ({[pa]} : gset Z) <= size C)%nat as Hz' by (apply subseteq_size; set_solver); by rewrite size_singleton in Hz').
  pose proof (ro_size _ _ _ _ HR). fold l in H0. lia.
Qed.

Lemma map_sum_size {K B} `{Countable K} (f : B -> nat) (M : gmap K B) : (forall a, f a <= 1)%nat -> (map_sum f M <= size M)%nat.
Proof.
  intros Hf. induction M as [|x a M Hx IH] using map_ind; [done|]. rewrite map_sum_new, map_size_insert_None by done. specialize (Hf a). lia.
Qed.

Lemma refs_bound O E pa : (refs O E pa <= size O + length E)%nat.
Proof.
  unfold refs, cows. assert (map_sum (cow_at pa) O <= size O)%nat.
  { apply map_sum_size. intros [lf|]; simpl; [destruct (_ && _)|]; lia. }
  assert (countb (fun x => (x =? pa)%Z) E <= length E)%nat by (unfold countb; apply length_filter). lia.
Qed.

(** ** The parent's half *)
Section Parent.
Context (k : Z) (T : Z -> option leaf) (A : gset Z).
Context (H E : list Z) (W : tabs) (F : list Z) (O : overlay) (m : vmm_mem).
Context (HI : space_inv k T A H E W F O m) (src va : Z) (Hact : active W m src).
Context (lf : leaf) (Ho : O !! (src, vpage va) = Some (Some lf)) (Hwc : lf_w lf || lf_cow lf = true).

Lemma refs_leaf : refs O E (lf_pa lf) = 0%nat \/ lf_cow lf = true.
Proof.
  destruct (lf_cow lf) eqn:Hc; [by right|]. left. pose proof HI as [I1 I2 I3 I4 I5 I6 I7 I8 I9 I10]. unfold refs.
  destruct (decide (1 <= cows O (lf_pa lf))%nat) as [H1|H1].
  - apply map_sum_pos in H1 as (y & o & Hy & Ho'). destruct o as [lf'|]; [|simpl in Ho'; lia]. simpl in Ho'.
    destruct (lf_cow lf') eqn:Ec; [|simpl in Ho'; lia]. destruct (Z.eqb_spec (lf_pa lf') (lf_pa lf)) as [Ep|]; [|simpl in Ho'; lia].
    pose proof (I5 _ _ _ _ Ho Hy (eq_sym Ep) Hc) as <-. congruence.
  - assert (countb (fun x => (x =? lf_pa lf)%Z) E = 0)%nat as ->; [|lia]. apply countb_none, Forall_forall. intros x Hx.
    apply Z.eqb_neq. intros ->. destruct (I7 _ Hx) as [_ Hc']. rewrite (Hc' _ _ Ho eq_refl) in Hc. done.
Qed.

(** The parent's leaf becomes copy-on-write, and a reference for the child is in
    hand. *)
Lemma share_refs p :
  cnt_set (lf_pa lf) (if decide (refs O E (lf_pa lf) = 0)%nat then 2 else refs O E (lf_pa lf) + 1)%nat (refs O E) p =
  refs (<[(src, vpage va) := Some (cow_leaf lf)]> O) (lf_pa lf :: E) p.
Proof.
  rewrite refs_cons. pose proof (refs_put O (src, vpage va) (Some (cow_leaf lf)) E p) as Hr. rewrite Ho in Hr. simpl in Hr.
  unfold cnt_set. rewrite (Z.eqb_sym p). destruct (Z.eqb_spec (lf_pa lf) p) as [Ep|Hne]; [rewrite <-Ep in Hr |- *|].
  - destruct refs_leaf as [Hz|Hc].
    + rewrite decide_True by done. destruct (lf_cow lf) eqn:Hc; [|simpl in Hr; lia].
      pose proof (mapped_cow_refs O E _ _ Ho Hc). lia.
    + pose proof (mapped_cow_refs O E _ _ Ho Hc). rewrite decide_False by lia. rewrite Hc in Hr. simpl in Hr. lia.
  - rewrite !andb_false_r in Hr. lia.
Qed.

Lemma space_share m' l :
  vmove k {[(src, vpage va) := Some (cow_leaf lf)]} W F m W F m' -> is_Some (W !! (src, 0%nat, key 0 va)) ->
  (forall i, (1 <= i <= 3)%nat -> uw W m' src i va) -> src <> k ->
  cow_ok l (refs (<[(src, vpage va) := Some (cow_leaf lf)]> O) (lf_pa lf :: E)) ->
  space_inv k T A H (lf_pa lf :: E) W F (<[(src, vpage va) := Some (cow_leaf lf)]> O) (set_cow l m').
Proof.
  intros Hv Hpt Huw Hk Hok. pose proof HI as [I1 I2 I3 I4 I5 I6 I7 I8 I9 I10]. destruct (I4 _ _ Ho) as (Hu & Hcw & Huf).
  assert (forall y lf', O !! y = Some (Some lf') -> y <> (src, vpage va) -> lf_pa lf' = lf_pa lf -> lf_cow lf' = true) as Hoth.
  { intros y lf' Hy Hne Ep. destruct (lf_cow lf') eqn:Hc; [done|]. destruct Hne. by eapply I5. }
  eapply (space_put k T A H E W F O m HI src va (Some (cow_leaf lf)) W F m' Hv Hk Hpt Huw).
  - unfold leaf_fits. simpl. split_and!; [done|done|done|]. intros y lf' Hne Hy Ep. split; [done|by eapply Hoth].
  - done.
  - intros p Hp. assert (user_frame W F m p) as Hup by (apply elem_of_cons in Hp as [->|Hp]; [done|by apply I7]). split; [done|].
    intros y lf' Hy Ep. apply lookup_insert_Some in Hy as [[_ [= <-]]|[Hne Hy]]; [done|].
    apply elem_of_cons in Hp as [->|Hp]; [by eapply Hoth|]. destruct (I7 p Hp) as [_ Hc]. by eapply Hc.
  - done.
  - intros x Hx. destruct (I9 x Hx) as (? & Hn & Hnx). split_and!; [done| |].
    + intros Hin. apply elem_of_cons in Hin as [->|Hin]; [|done]. by destruct (Hnx _ _ Ho).
    + intros y lf' Hy. apply lookup_insert_Some in Hy as [[_ [= <-]]|[_ Hy]]; [by eapply (Hnx _ _ Ho)|by eapply Hnx].
  - intros p [Hp|[Hp|Hp]]; [by auto|by right; left; right|]. unfold frame_at in Hp. rewrite Ho in Hp. injection Hp as <-.
    right. left. by left.
Qed.

Lemma wp_share_src {B} (c : prog vmm_mem B) C R :
  image_va m va = false -> roomy C O E m -> Z.of_nat (size O + length E) < U32_MAX ->
  (forall m', space_inv k T A H (lf_pa lf :: E) W F (<[(src, vpage va) := Some (cow_leaf lf)]> O) m' -> vregs m m' ->
     abs m' (<[(src, vpage va) := Some (cow_leaf lf)]> O) = abs m O -> length (g_aCowRef m') = length (g_aCowRef m) -> wp c R m') ->
  wp (p <- walk_pte va false ;;
      (match p with
       | None => pret tt
       | Some pSrcPte =>
           e <- rd pSrcPte ;; ker <- va_in_kernel_identity va ;;
           if has e PTE_P && has e PTE_U && negb ker then demote pSrcPte va else pret tt
       end) ;;; cow_ref_share (lf_pa lf) ;;; c) R m.
Proof.
  intros Him HR Hsz HQ. destruct (own_page _ _ _ _ _ _ _ _ _ _ _ _ HI Hact Ho) as (Hk & Hv & t & Ht).
  pose proof (si_inv _ _ _ _ _ _ _ _ _ HI) as Hi. destruct (si_leaf _ _ _ _ _ _ _ _ _ HI _ _ Ho) as (Hu & _ & Huf).
  apply wp_bind, (wp_own_walk k W F m Hi src Hact va t Ht), wp_bind.
  destruct (tab_read k W F m Hi va src 0 t Ht) as (e & Ee & _ & Htp). change (shift_of 0) with 12 in Ee.
  apply wp_bind, (wp_rd t _ e); [done|apply (vidx_lvl 0)|done|]. apply wp_bind, wp_va_in_kernel_identity. rewrite Him.
  pose proof (own_pte k W F m Hi src va t e Ht Ee) as Hl. rewrite Hv in Hl. unfold pte_leaf in Hl. destruct (has e PTE_P); [|done].
  assert (has e PTE_U = true) as -> by (injection Hl as Hl; by rewrite Hl in Hu). cbn [negb andb].
  apply (wp_demote k W F m Hi src Hact Hk va t Ht lf); [done|]. intros m1 Hch.
  destruct (changed_move k T A H E W F O m src va _ lf _ W F m1 HI Ho Hch) as (Hm & Hpt & Huw).
  destruct (frame_addr_id _ _ _ _ Huf) as [Hap Hp0]. pose proof (mv_keep _ _ _ _ _ _ _ _ Hm) as Hkp.
  assert (abs m1 (<[(src, vpage va) := Some (cow_leaf lf)]> O) = abs m O) as Hab.
  { rewrite <-(abs_insert_same m O (src, vpage va) lf (cow_leaf lf) Ho).
    - apply abs_ext. intros x (y & lf' & Hy & <-). eapply move_same; [done|]. apply lookup_insert_Some in Hy as [[_ [= <-]]|[_ Hy]]; [done|].
      eapply mapped_user; [done|]. by exists y, lf'.
    - unfold abs_leaf, cow_leaf. simpl. by rewrite Hwc. }
  apply wp_bind, (wp_cow_ref_share (lf_pa lf) (refs O E)); [rewrite (vk_cow _ _ Hkp); apply HI|done|done| | |].
  - pose proof (refs_bound O E (lf_pa lf)). lia.
  - intros l Hlen Hok. apply HQ; [|by apply regs_cow, vkeep_regs|exact Hab|simpl; by rewrite Hlen, (vk_cow _ _ Hkp)].
    apply space_share; [done|done|done|done|]. eapply cow_ok_ext; [apply share_refs|done].
  - intros Hz Hfull. rewrite (vk_cow _ _ Hkp) in Hfull. exfalso. eapply (cow_not_full C O E m (lf_pa lf)); [done|apply HI| |done|done].
    by eapply ro_leaf.
Qed.
End Parent.

(** ** The child's half *)
Lemma clone_prot_bits e : has (clone_prot e) GJ_VMM_PROT_WRITE = false /\ has (clone_prot e) GJ_VMM_PROT_USER = true /\
  has (clone_prot e) GJ_VMM_PROT_EXEC = negb (has e PTE_NX).
Proof. unfold clone_prot. by destruct (has e PTE_NX). Qed.

Section Child.
Context (k : Z) (T : Z -> option leaf) (A : gset Z).
Context (H E : list Z) (W : tabs) (F : list Z) (O : overlay) (m : vmm_mem) (pa : Z).
Context (HI : space_inv k T A H (pa :: E) W F O m) (dst va : Z) (Hact : active W m dst) (Hdk : dst <> k).
Context (Hnew : O !! (dst, vpage va) = None).

Lemma space_adopt lf W' F' m' :
  vmove k {[(dst, vpage va) := Some lf]} W F m W' F' m' -> is_Some (W' !! (dst, 0%nat, key 0 va)) ->
  (forall i, (1 <= i <= 3)%nat -> uw W' m' dst i va) ->
  lf_pa lf = pa -> lf_u lf = true -> lf_w lf = false -> lf_cow lf = true ->
  space_inv k T A H E W' F' (<[(dst, vpage va) := Some lf]> O) m'.
Proof.
  intros Hv Hpt Huw Hpa Hu Hw Hc. rewrite <-(set_cow_id m'). pose proof HI as [I1 I2 I3 I4 I5 I6 I7 I8 I9 I10].
  destruct (I7 pa (in_head _ _)) as [Huf Hall].
  eapply (space_put k T A H (pa :: E) W F O m HI dst va (Some lf) W' F' m' Hv Hdk Hpt Huw).
  - unfold leaf_fits. rewrite Hpa. split_and!; [done|done|done|]. intros y lf' _ Hy Ep. split; [done|by eapply Hall].
  - rewrite (vk_cow _ _ (mv_keep _ _ _ _ _ _ _ _ Hv)). eapply cow_ok_ext; [|exact I6]. intros p. rewrite refs_cons.
    pose proof (refs_put O (dst, vpage va) (Some lf) E p) as Hr. rewrite Hnew in Hr. simpl in Hr. rewrite Hc, Hpa in Hr. simpl in Hr.
    destruct (pa =? p); lia.
  - intros p Hp. destruct (I7 p ltac:(by right)) as [? Hcow]. split; [done|]. intros y lf' Hy Ep.
    apply lookup_insert_Some in Hy as [[_ [= <-]]|[_ Hy]]; [done|by eapply Hcow].
  - done.
  - intros x Hx. destruct (I9 x Hx) as (? & Hn & Hnx). apply not_elem_of_cons in Hn as [Hne Hn]. split_and!; [done|done|].
    intros y lf' Hy. apply lookup_insert_Some in Hy as [[_ [= <-]]|[_ Hy]]; [by rewrite Hpa|by eapply Hnx].
  - intros p [Hp|[Hp|Hp]]; [by auto| |unfold frame_at in Hp; by rewrite Hnew in Hp].
    apply elem_of_cons in Hp as [->|Hp]; [|by auto]. right. right. exists (dst, vpage va), lf. by rewrite lookup_insert_eq.
Qed.

Lemma child_wp_adopt {B} (c : prog vmm_mem B) (f : gj_status -> prog vmm_mem B) e R :
  page_aligned va = true -> image_va m va = false ->
  (forall W' m', after k T A H (pa :: E) O (abs m O) W m W' [] m' -> wp (f GJ_ERR_NOMEM) R m') ->
  (forall W' F' m', W ⊆ W' -> g_aCowRef m' = g_aCowRef m ->
     after k T A H E (<[(dst, vpage va) := Some (Leaf pa false true (has e PTE_NX) true)]> O)
       (<[(dst, vpage va) := Some (UPage (words m pa) true (has e PTE_NX))]> (abs m O)) W m W' F' m' -> wp c R m') ->
  wp (st <- vmm_map_page va pa (clone_prot e) ;; if negb (is_ok st) then f st else
      p <- walk_pte va false ;; (match p with None => pret tt | Some pDstPte => demote pDstPte va end) ;;; c) R m.
Proof.
  intros Hal Him HQ0 HQ. pose proof (si_inv _ _ _ _ _ _ _ _ _ HI) as Hi. destruct (clone_prot_bits e) as (Bw & Bu & Bx).
  destruct (si_refs _ _ _ _ _ _ _ _ _ HI pa (in_head _ _)) as [Huf _]. destruct (frame_addr_id _ _ _ _ Huf) as [Hap Hp0].
  assert (page_aligned pa = true) as Hpal by (apply page_aligned_spec, Huf).
  apply wp_bind, (wp_vmm_map_page k W F m Hi dst Hact); [by left|..]; unfold map_refused, map_leaf; rewrite Hal, Hpal, Him; cbn [negb orb andb].
  - done.
  - intros _ W' m' Hg. eapply HQ0. by eapply after_grow.
  - intros _ W1 F1 m1 (m0 & Hg & Hs & [t Ht] & Huw & _). pose proof (move_grow_leaf _ _ _ _ _ _ _ _ _ _ _ Hg Hs) as Hm.
    change (is_ok GJ_OK) with true. cbn [negb]. unfold prot_leaf in Hm, Hs. rewrite Hap, Bw, Bu, Bx, negb_involutive in Hm, Hs.
    pose proof (ls_inv _ _ _ _ _ _ _ _ Hs) as Hi1. pose proof (active_move _ _ _ _ _ _ _ _ _ Hm Hact) as Hact1.
    apply wp_bind, (wp_own_walk k W1 F1 m1 Hi1 dst Hact1 va t Ht), wp_bind.
    apply (wp_demote k W1 F1 m1 Hi1 dst Hact1 Hdk va t Ht (Leaf pa false true (has e PTE_NX) false)); [by apply (ls_here _ _ _ _ _ _ _ _ Hs)|].
    intros m2 (_ & m1' & Hg2 & Hs2 & _). pose proof (move_again _ _ _ _ _ _ _ _ _ _ _ _ _ Hm (move_grow_leaf _ _ _ _ _ _ _ _ _ _ _ Hg2 Hs2)) as Hm2.
    unfold cow_leaf in Hm2. simpl in Hm2. set (lf2 := Leaf pa false true (has e PTE_NX) true) in *.
    assert (forall i, (1 <= i <= 3)%nat -> uw W1 m2 dst i va) as Huw2.
    { intros i Hx. eapply (uw_leaf _ _ _ m1'); [exact Hs2|lia|]. eapply uw_grow; [exact Hg2|by apply Huw]. }
    apply (HQ W1 F1 m2); [apply Hm2|apply (vk_cow _ _ (mv_keep _ _ _ _ _ _ _ _ Hm2))|].
    apply (after_put k T A H (pa :: E) W F O m W1 F1 m2 H E dst va (Some lf2) HI Hm2).
    + by eapply space_adopt.
    + by intros ? [= <-].
Qed.
End Child.

(** * One page of [vmm_as_clone_user_pages]. *)

(** Registers other than CR3. *)
Definition rregs (m m' : vmm_mem) : Prop := vregs (set_cr3 0 m) (set_cr3 0 m').
#[export] Instance rregs_preorder : PreOrder rregs.
Proof. split; [by intros m; split|]. intros m1 m2 m3 H1 H2. unfold rregs in *. by etrans. Qed.
Lemma vregs_rregs m m' : vregs m m' -> rregs m m'.
Proof. intros []. by split. Qed.
Lemma rregs_cr3 c m : rregs m (set_cr3 c m).
Proof. by split. Qed.
Lemma rregs_vregs m m' : rregs m m' -> vm_cr3 m' = vm_cr3 m -> vregs m m'.
Proof. intros [] Hc. by split. Qed.
Lemma rregs_image m m' va : rregs m m' -> image_va m' va = image_va m va.
Proof. intros []. unfold image_va. simpl in *. congruence. Qed.

Section ForkPage.
Context (k : Z) (T : Z -> option leaf) (A : gset Z) (C : gset Z) (H E : list Z) (src dst saved : Z).
Context (Hsk : src <> k) (Hdk : dst <> k) (Hsd : src <> dst).

(** From [O] to [O'] the child got page [p], and nothing else that a process
    sees changed. *)
Record cloned (p : Z) (W : tabs) (O : overlay) (m : vmm_mem) (W' : tabs) (F' : list Z) (O' : overlay) (m' : vmm_mem) : Prop := MkCloned {
  cl_inv : space_inv k T A H E W' F' O' m';
  cl_sub : W ⊆ W';
  cl_roots : forall o, W' !! (o, 3%nat, 0) = W !! (o, 3%nat, 0);
  cl_regs : rregs m m';
  cl_abs : abs m' O' = <[(dst, p) := default None (abs m O !! (src, p))]> (abs m O);
  cl_room : roomy C O' E m';
  cl_size : (size O' <= size O + 1)%nat;
  cl_rest : forall z, z <> (src, p) -> z <> (dst, p) -> O' !! z = O !! z }.

(** Fork has failed: no process sees a difference. *)
Record clone_failed (W : tabs) (O : overlay) (m : vmm_mem) (m' : vmm_mem) : Prop := MkCloneFailed {
  cf_inv : exists W' F' O', space_inv k T A H E W' F' O' m' /\ (forall o, W' !! (o, 3%nat, 0) = W !! (o, 3%nat, 0)) /\ abs m' O' = abs m O;
  cf_regs : rregs m m';
  cf_cr3 : vm_cr3 m' = saved }.

Definition is_root (W : tabs) (r : Z) : Prop := W !! (r, 3%nat, 0) = Some r.

Lemma root_active W F O m r : space_inv k T A H E W F O m -> is_root W r -> active W (set_cr3 r m) r.
Proof.
  intros HI Hr. split; [|done]. simpl. pose proof (root_tp k W F m (si_inv _ _ _ _ _ _ _ _ _ HI) r Hr) as Ht.
  by eapply addr_frame, tp_frame.
Qed.

Lemma size_insert_le (O : overlay) x o : (size (<[x := o]> O) <= size O + 1)%nat.
Proof. rewrite map_size_insert. destruct (O !! x); simpl; lia. Qed.

Lemma size_insert_old (O : overlay) x o : is_Some (O !! x) -> size (<[x := o]> O) = size O.
Proof. intros [y Hy]. rewrite map_size_insert, Hy. simpl. lia. Qed.

Lemma wp_clone_fail W O m m1 s Q :
  (exists W' F' O', space_inv k T A H E W' F' O' m1 /\ (forall o, W' !! (o, 3%nat, 0) = W !! (o, 3%nat, 0)) /\ abs m1 O' = abs m O) ->
  rregs m m1 -> (forall m', clone_failed W O m m' -> Q (inr (GJ_ERR_NOMEM, cl_copy s)) m') -> wp (clone_fail saved s) Q m1.
Proof.
  intros (W' & F' & O' & HI & Hr & Hab) Hrg HQ. unfold clone_fail, load_cr3. wsteps. apply HQ. split; [|etrans; [exact Hrg|apply rregs_cr3]|done].
  exists W', F', O'. split; [by apply space_cr3|done].
Qed.

Section Page.
Context (W : tabs) (F : list Z) (O : overlay) (m : vmm_mem) (HI : space_inv k T A H E W F O m).
Context (Hsr : is_root W src) (Hdr : is_root W dst) (va e : Z) (lf : leaf).
Context (Ho : O !! (src, vpage va) = Some (Some lf)) (He : lf = leaf_at (addr e) e) (Hnew : O !! (dst, vpage va) = None).
Context (Hal : page_aligned va = true) (Him : image_va m va = false) (HR : roomy C O E m).

Lemma wp_clone_share s Q :
  lf_w lf || lf_cow lf = true -> Z.of_nat (size O + length E) < U32_MAX ->
  (forall m', clone_failed W O m m' -> Q (inr (GJ_ERR_NOMEM, cl_copy s)) m') ->
  (forall W' F' O' m', cloned (vpage va) W O m W' F' O' m' -> Q (inl (MkClone (cl_copy s + 1) (cl_cow s + 1) (cl_ro s))) m') ->
  wp (clone_share va e src dst saved s) Q m.
Proof.
  intros Hwc Hsz HQ0 HQ. unfold clone_share. cbv zeta. fold (addr e). assert (addr e = lf_pa lf) as Hpe by (by rewrite He). rewrite Hpe.
  unfold load_cr3 at 1. apply wp_bind, wp_pmod. pose proof (space_cr3 k T A H E W F O m src HI) as HI1.
  apply (wp_share_src k T A H E W F O _ HI1 src va (root_active W F O m src HI Hsr) lf Ho Hwc _ C); [done|by destruct HR|done|].
  intros m2 HI2 Hr2 Hab2 Hlen2. unfold load_cr3 at 1. apply wp_bind, wp_pmod. set (O2 := <[(src, vpage va) := Some (cow_leaf lf)]> O) in *.
  pose proof (space_cr3 k T A _ _ _ _ _ _ dst HI2) as HI3. change (abs (set_cr3 src m) O) with (abs m O) in Hab2.
  assert (rregs m m2) as Hrr2 by (etrans; [apply (rregs_cr3 src)|by apply vregs_rregs]).
  assert (active W (set_cr3 dst m2) dst) as Hact3 by (split; [apply (root_active W F O m dst HI Hdr)|done]).
  assert (O2 !! (dst, vpage va) = None) as Hnew2 by (unfold O2; rewrite lookup_insert_ne; [done|congruence]).
  eapply (child_wp_adopt k T A H E W F O2 _ (lf_pa lf) HI3 dst va Hact3 Hdk Hnew2 _ (fun _ => cow_ref_drop (lf_pa lf) ;;; clone_fail saved s)); [done| | |].
  { rewrite <-Him. change (image_va (set_cr3 dst m2) va) with (image_va m2 va). by apply rregs_image. }
  - intros W4 m4 Ha4. apply wp_bind, (wp_space_drop k T A H E W4 [] O2); [apply Ha4|]. intros l HI5.
    assert (1 <= refs O2 E (lf_pa lf))%nat as H1.
    { apply (mapped_cow_refs O2 E (src, vpage va) (cow_leaf lf)); [unfold O2; by rewrite lookup_insert_eq|done]. }
    rewrite decide_False in HI5 by lia. apply (wp_clone_fail W O m); [|..].
    + exists W4, [], O2. split_and!; [done|apply Ha4|]. change (abs (set_cow l m4) O2) with (abs m4 O2).
      rewrite (af_abs _ _ _ _ _ _ _ _ _ _ _ _ Ha4). change (abs (set_cr3 dst m2) O2) with (abs m2 O2). done.
    + etrans; [exact Hrr2|]. etrans; [apply (rregs_cr3 dst)|]. apply vregs_rregs, regs_cow, Ha4.
    + exact HQ0.
  - intros W4 F4 m4 Hsub4 Hc4 Ha4. unfold load_cr3. apply wp_bind, wp_pmod, wp_ret.
    set (lf2 := Leaf (lf_pa lf) false true (has e PTE_NX) true) in *.
    apply (HQ W4 F4 (<[(dst, vpage va) := Some lf2]> O2)). split.
    + by apply space_cr3, Ha4.
    + done.
    + apply Ha4.
    + etrans; [exact Hrr2|]. etrans; [apply (rregs_cr3 dst)|]. etrans; [apply vregs_rregs, Ha4|]. apply rregs_cr3.
    + change (abs (set_cr3 src m4) (<[(dst, vpage va) := Some lf2]> O2)) with (abs m4 (<[(dst, vpage va) := Some lf2]> O2)).
      rewrite (af_abs _ _ _ _ _ _ _ _ _ _ _ _ Ha4). change (abs (set_cr3 dst m2) O2) with (abs m2 O2). rewrite Hab2. f_equal.
      rewrite (abs_lookup m O _ _ Ho). simpl. f_equal. unfold abs_leaf. rewrite Hwc.
      assert (words (set_cr3 dst m2) (lf_pa lf) = words m (lf_pa lf)) as ->; [|by rewrite He].
      apply (f_equal (lookup (src, vpage va))) in Hab2. rewrite (abs_lookup m O _ _ Ho) in Hab2. unfold O2 in Hab2.
      rewrite abs_insert, lookup_insert_eq in Hab2. apply (inj Some), (inj Some), (f_equal up_words) in Hab2. exact Hab2.
    + destruct HR as [R1 R2 R3]. split; [simpl; rewrite Hc4; simpl; rewrite Hlen2; exact R1| |done].
      intros y lf' Hy Hwc'. apply lookup_insert_Some in Hy as [[_ [= <-]]|[_ Hy]]; [simpl; by eapply R2|].
      unfold O2 in Hy. apply lookup_insert_Some in Hy as [[_ [= <-]]|[_ Hy]]; [simpl; by eapply R2|by eapply R2].
    + etrans; [apply size_insert_le|]. unfold O2. rewrite size_insert_old; [done|]. by rewrite Ho.
    + intros z Hz1 Hz2. unfold O2. rewrite !lookup_insert_ne by done. done.
Qed.

Lemma wp_clone_copy s Q :
  lf_w lf || lf_cow lf = false ->
  (forall m', clone_failed W O m m' -> Q (inr (GJ_ERR_NOMEM, cl_copy s)) m') ->
  (forall W' F' O' m', cloned (vpage va) W O m W' F' O' m' -> Q (inl (MkClone (cl_copy s + 1) (cl_cow s) (cl_ro s + 1))) m') ->
  wp (clone_copy va e src dst saved s) Q m.
Proof.
  intros Hwc HQ0 HQ. apply orb_false_iff in Hwc as [Hw Hc]. destruct (clone_prot_bits e) as (Bw & Bu & Bx).
  unfold clone_copy. cbv zeta. fold (addr e). assert (addr e = lf_pa lf) as Hpe by (by rewrite He). rewrite Hpe.
  apply wp_bind, (wp_space_alloc k T A H E W F O); [done| |].
  { intros HF. cbn. apply (wp_clone_fail W O m); [|done|done]. exists W, F, O. done. }
  intros pa F1 m1 Hpa Htk HI1. rewrite (proj2 (Z.eqb_neq _ _)) by done. pose proof Htk as (_ & _ & Hk1 & _ & _).
  assert (abs m1 O = abs m O) as Hab1 by (apply abs_ext; intros x Hx; eapply taken_same; [done|]; by eapply mapped_user).
  apply wp_bind, wp_get. unfold load_cr3 at 1. apply wp_bind, wp_pmod. destruct (si_leaf _ _ _ _ _ _ _ _ _ HI1 _ _ Ho) as (_ & _ & Hsrc).
  apply wp_bind, (wp_copy_frame k T A H E W F1 O); [by apply space_cr3|by apply frame_cr3| |].
  { intros Ex. destruct (si_hand _ _ _ _ _ _ _ _ _ HI1 pa (in_head _ _)) as (_ & _ & Hn). by destruct (Hn _ _ Ho). }
  intros m2 Hm2 HI2 Hw2 _ Hab2. change (abs (set_cr3 (g_u64KernelCr3 m1) m1) O) with (abs m1 O) in Hab2.
  change (words (set_cr3 (g_u64KernelCr3 m1) m1) (lf_pa lf)) with (words m1 (lf_pa lf)) in Hw2.
  assert (rregs m m2) as Hr2.
  { etrans; [apply vregs_rregs, vkeep_regs, Hk1|]. etrans; [apply (rregs_cr3 (g_u64KernelCr3 m1))|]. rewrite Hm2. by split. }
  assert (g_aCowRef m2 = g_aCowRef m) as Hc2 by (rewrite Hm2; apply (vk_cow _ _ Hk1)). clear Hm2.
  unfold load_cr3 at 1. apply wp_bind, wp_pmod. pose proof (space_cr3 k T A _ _ _ _ _ _ dst HI2) as HI3.
  assert (active W (set_cr3 dst m2) dst) as Hact3 by (split; [apply (root_active W F O m dst HI Hdr)|done]).
  apply wp_bind, (wp_map_own k T A H E W F1 O _ pa HI3 dst Hact3 Hdk va); [done| | |exact Bu| |].
  { rewrite <-Him. change (image_va (set_cr3 dst m2) va) with (image_va m2 va). by apply rregs_image. }
  { unfold frame_at. by rewrite Hnew. }
  - intros W4 m4 Ha4. change (is_ok GJ_ERR_NOMEM) with false. cbn [negb]. unfold load_cr3. apply wp_bind, wp_pmod.
    apply wp_bind, (wp_hand_free k T A H E W4 [] O); [by apply space_cr3, Ha4|]. intros F5 m5 Ha5.
    apply (wp_clone_fail W O m); [| |exact HQ0].
    + exists W4, F5, O. split_and!; [apply Ha5|apply Ha4|]. rewrite (af_abs _ _ _ _ _ _ _ _ _ _ _ _ Ha5).
      change (abs (set_cr3 (g_u64KernelCr3 m1) m4) O) with (abs m4 O). rewrite (af_abs _ _ _ _ _ _ _ _ _ _ _ _ Ha4).
      change (abs (set_cr3 dst m2) O) with (abs m2 O). by rewrite Hab2.
    + etrans; [exact Hr2|]. etrans; [apply (rregs_cr3 dst)|]. etrans; [apply vregs_rregs, Ha4|].
      etrans; [apply (rregs_cr3 (g_u64KernelCr3 m1))|]. apply vregs_rregs, Ha5.
  - intros W4 F4 m4 lf4 Hsub Hc4 Hp4 Hcw4 Hw4 Ha4. change (is_ok GJ_OK) with true. cbn [negb]. unfold load_cr3. apply wp_bind, wp_pmod, wp_ret.
    apply (HQ W4 F4 (<[(dst, vpage va) := Some lf4]> O)). split.
    + by apply space_cr3, Ha4.
    + done.
    + apply Ha4.
    + etrans; [exact Hr2|]. etrans; [apply (rregs_cr3 dst)|]. etrans; [apply vregs_rregs, Ha4|]. apply rregs_cr3.
    + change (abs (set_cr3 src m4) (<[(dst, vpage va) := Some lf4]> O)) with (abs m4 (<[(dst, vpage va) := Some lf4]> O)).
      rewrite (af_abs _ _ _ _ _ _ _ _ _ _ _ _ Ha4). change (abs (set_cr3 dst m2) O) with (abs m2 O). rewrite Hab2, Hab1. f_equal.
      rewrite (abs_lookup m O _ _ Ho). simpl. f_equal. unfold abs_leaf, anon_page. rewrite Hw, Hc, Bw, Bx, negb_involutive.
      change (words (set_cr3 dst m2) pa) with (words m2 pa). rewrite Hw2.
      assert (words m1 (lf_pa lf) = words m (lf_pa lf)) as ->; [|by rewrite He].
      apply words_same. eapply taken_same; [done|]. by apply (si_leaf _ _ _ _ _ _ _ _ _ HI _ _ Ho).
    + destruct HR as [R1 R2 R3]. split; [simpl; rewrite Hc4; simpl; by rewrite Hc2| |done].
      intros y lf' Hy Hwc'. apply lookup_insert_Some in Hy as [[_ [= <-]]|[_ Hy]]; [|by eapply R2].
      by rewrite Hw4, Hcw4, Bw in Hwc'.
    + apply size_insert_le.
    + intros z Hz1 Hz2. by rewrite lookup_insert_ne.
Qed.
End Page.
End ForkPage.

(** * The loops of [vmm_as_clone_user_pages]: every page of the parent that is to be
    inherited is, and the walk meets no other. *)

(** ** Page numbers *)
Definition span (l : nat) : Z := 512 ^ Z.of_nat l.

Lemma span_S l : span (S l) = 512 * span l.
Proof. unfold span. rewrite Nat2Z.inj_succ, Z.pow_succ_r by lia. done. Qed.
Lemma span_pos l : 0 < span l.
Proof. unfold span. apply Z.pow_pos_nonneg; lia. Qed.

Definition page_va (p : Z) : Z := p * GJ_PAGE_SIZE.

Lemma page_va_ok p : 0 <= p < 2 ^ 36 -> vpage (page_va p) = p /\ page_aligned (page_va p) = true.
Proof.
  intros Hp. rewrite page_aligned_spec, vpage_div. unfold page_va, GJ_PAGE_SIZE. rewrite Z.div_mul, Z.mod_small by lia.
  split; [done|]. by rewrite Z.mod_mul by lia.
Qed.

Lemma key_page l p : 0 <= p < 2 ^ 36 -> key l (page_va p) = p / span (S l).
Proof.
  intros Hp. unfold key, page_va, GJ_PAGE_SIZE, span. rewrite Z.mod_small by (change (2 ^ 48) with (2 ^ 36 * 4096); lia).
  replace (2 ^ (21 + 9 * Z.of_nat l)) with (4096 * 512 ^ Z.of_nat (S l)).
  - rewrite (Z.mul_comm p), Z.div_mul_cancel_l; [done|apply Z.pow_nonzero; lia|done].
  - change 512 with (2 ^ 9). change 4096 with (2 ^ 12). rewrite <-Z.pow_mul_r, <-Z.pow_add_r by lia. f_equal. lia.
Qed.

Lemma vidx_page p : 0 <= p < 2 ^ 36 -> vidx 12 (page_va p) = p mod 512.
Proof. intros Hp. rewrite vidx_div by lia. unfold page_va, GJ_PAGE_SIZE. change (2 ^ 12) with 4096. by rewrite Z.div_mul by lia. Qed.

Lemma shift_or a b s : 0 <= s -> 0 <= b < 2 ^ s -> Z.lor (Z.shiftl a s) b = a * 2 ^ s + b.
Proof.
  intros Hs Hb. rewrite Z.shiftl_mul_pow2 by done. assert (Z.land (a * 2 ^ s) b = 0) as H0.
  { apply Z.bits_inj'. intros i Hi. rewrite Z.land_spec, Z.bits_0. destruct (Z.ltb_spec i s) as [H|H]; [by rewrite Z.mul_pow2_bits_low|].
    assert (Z.testbit b i = false) as ->; [|by rewrite andb_false_r]. apply Z.testbit_false; [done|]. rewrite Z.div_small; [done|].
    split; [lia|]. eapply Z.lt_le_trans; [apply Hb|]. by apply Z.pow_le_mono_r. }
  rewrite Z.add_nocarry_lxor, Z.lxor_lor by done. done.
Qed.

Lemma clone_va i4 i3 i2 i1 : 0 <= i3 < 512 -> 0 <= i2 < 512 -> 0 <= i1 < 512 ->
  Z.lor (Z.shiftl i4 39) (Z.lor (Z.shiftl i3 30) (Z.lor (Z.shiftl i2 21) (Z.shiftl i1 12))) =
  page_va ((((i4 * 512) + i3) * 512 + i2) * 512 + i1).
Proof.
  intros H3 H2 H1. assert (Z.shiftl i1 12 = i1 * 4096) as E1 by (by rewrite Z.shiftl_mul_pow2 by lia).
  rewrite E1. rewrite (shift_or i2) by (change (2 ^ 21) with 2097152; lia). rewrite (shift_or i3) by (change (2 ^ 30) with 1073741824; change (2 ^ 21) with 2097152; lia).
  rewrite (shift_or i4) by (change (2 ^ 39) with 549755813888; change (2 ^ 30) with 1073741824; change (2 ^ 21) with 2097152; lia).
  unfold page_va, GJ_PAGE_SIZE. change (2 ^ 39) with 549755813888. change (2 ^ 30) with 1073741824. change (2 ^ 21) with 2097152. lia.
Qed.

(** ** Entries and pages *)
Section See.
Context (k : Z) (T : Z -> option leaf) (A : gset Z) (H E : list Z).

(** The leaf entry of page [q] in a table of [o]. *)
Lemma leaf_see m W F O o c t i e :
  space_inv k T A H E W F O m -> W !! (o, 0%nat, c) = Some t -> 0 <= c -> (c + 1) * span 1 <= 2 ^ 36 -> 0 <= i < 512 ->
  vphys m !! slot t i = Some e -> pte_leaf e = default (T (c * 512 + i)) (O !! (o, c * 512 + i)).
Proof.
  intros J1 Ht Hc Htop Hi Ee. change (span 1) with 512 in Htop. set (q := c * 512 + i). assert (0 <= q < 2 ^ 36) as Hq by lia.
  destruct (page_va_ok q Hq) as [Hvp _].
  assert (key 0 (page_va q) = c) as Hk by (rewrite key_page by done; change (span 1) with 512; unfold q; Z.div_mod_to_equations; lia).
  assert (vidx 12 (page_va q) = i) as Hx by (rewrite vidx_page by done; unfold q; Z.div_mod_to_equations; lia). rewrite <-Hk in Ht.
  pose proof (own_pte k W F m (si_inv _ _ _ _ _ _ _ _ _ J1) o (page_va q) t e Ht) as Hv. rewrite Hx in Hv. specialize (Hv Ee).
  destruct (pt_lvl _ _ _ (vi_pt _ _ _ _ (si_inv _ _ _ _ _ _ _ _ _ J1)) _ _ _ _ Ht) as (_ & _ & Hro).
  by rewrite (si_view _ _ _ _ _ _ _ _ _ J1 o _ Hro), Hvp in Hv.
Qed.

Lemma no_ker_page m W F O p o : space_inv k T A H E W F O m -> 0 <= p < 2 ^ 36 -> O !! (k, p) = Some o -> False.
Proof.
  intros HI Hp Ho. destruct (page_va_ok p Hp) as [Hvp _]. rewrite <-Hvp in Ho. by destruct (si_own _ _ _ _ _ _ _ _ _ HI _ _ _ Ho).
Qed.
End See.

(** ** Which pages a child inherits *)
Definition clonable (m : vmm_mem) (p : Z) (lf : leaf) : bool :=
  in_band (page_va p) && negb (lf_pa lf =? page_va p) && negb (image_va m (page_va p)).

Section ForkAll.
Context (k : Z) (T : Z -> option leaf) (A : gset Z) (C : gset Z) (H E : list Z) (src dst saved limit : Z).
Context (Hsk : src <> k) (Hdk : dst <> k) (Hsd : src <> dst) (HT : forall p lf, T p = Some lf -> lf_u lf = false).
Context (W0 : tabs) (F0 : list Z) (O0 : overlay) (m0 : vmm_mem) (HI0 : space_inv k T A H E W0 F0 O0 m0).
Context (Hsr : is_root W0 src) (Hdr : is_root W0 dst) (Hempty : forall p, O0 !! (dst, p) = None).
Context (P : gset Z) (HP : forall p, p ∈ P <-> exists lf, O0 !! (src, p) = Some (Some lf) /\ clonable m0 p lf = true).
Context (Hlim : Z.of_nat (size P) < limit) (Hroom : Z.of_nat (size O0 + length E + size P) < U32_MAX).

Let N0 := abs m0 O0.

(** What processes see when the pages below [q] are inherited. *)
Definition fork_see (q : Z) (N : uspace) : Prop :=
  forall x, N !! x = if decide (x.1 = dst /\ x.2 ∈ P /\ x.2 < q) then N0 !! (src, x.2) else N0 !! x.

Definition below (q : Z) : gset Z := filter (fun p => p < q) P.

Record clone_at (Wb : tabs) (q : Z) (s : clone_st) (m : vmm_mem) (W : tabs) (F : list Z) (O : overlay) : Prop := MkCloneAt {
  ca_inv : space_inv k T A H E W F O m;
  ca_sub : Wb ⊆ W;
  ca_roots : forall o, W !! (o, 3%nat, 0) = W0 !! (o, 3%nat, 0);
  ca_regs : rregs m0 m;
  ca_see : fork_see q (abs m O);
  ca_room : roomy C O E m;
  ca_size : (size O + length E <= size O0 + length E + Z.to_nat (cl_copy s))%nat;
  ca_copy : cl_copy s = Z.of_nat (size (below q));
  ca_src : forall p, q <= p -> O !! (src, p) = O0 !! (src, p);
  ca_dst : forall p, q <= p -> O !! (dst, p) = None }.

Definition clone_inv (Wb : tabs) (q : Z) (s : clone_st) (m : vmm_mem) : Prop := exists W F O, clone_at Wb q s m W F O.

Definition fork_failed (c : Z) (m : vmm_mem) : Prop :=
  exists q W F O, c = Z.of_nat (size (below q)) /\ space_inv k T A H E W F O m /\ (forall o, W !! (o, 3%nat, 0) = W0 !! (o, 3%nat, 0)) /\ fork_see q (abs m O) /\
    rregs m0 m /\ vm_cr3 m = saved.

Definition clone_post (Wb : tabs) (q : Z) (r : clone_out) (m : vmm_mem) : Prop :=
  match r with inl s => clone_inv Wb q s m | inr r => r.1 = GJ_ERR_NOMEM /\ fork_failed r.2 m end.

Lemma clone_inv_weaken Wb Wb' q s m : Wb ⊆ Wb' -> clone_inv Wb' q s m -> clone_inv Wb q s m.
Proof. intros Hs (W & F & O & [J1 J2 J3 J4 J5 J6 J7 J8 J9 J10]). exists W, F, O. split; try done. by etrans. Qed.

(** Pages that are not inherited are passed over. *)
Lemma clone_skip Wb q q' s m : q <= q' -> (forall p, p ∈ P -> ~ (q <= p < q')) -> clone_inv Wb q s m -> clone_inv Wb q' s m.
Proof.
  intros Hq Hn (W & F & O & [J1 J2 J3 J4 J5 J6 J7 J8 J9 J10]). exists W, F, O.
  assert (forall p, p ∈ P -> p < q' <-> p < q) as Hlt by (intros p Hp; specialize (Hn p Hp); lia).
  split; try done.
  - intros x. rewrite J5. destruct (decide (x.1 = dst /\ x.2 ∈ P /\ x.2 < q)) as [(? & ? & ?)|Hd].
    + rewrite decide_True; [done|]. split_and!; [done|done|lia].
    + rewrite decide_False; [done|]. intros (? & HPx & ?). apply Hd. split_and!; [done|done|by apply Hlt].
  - rewrite J8. do 2 f_equal. unfold below. apply set_eq. intros p. rewrite !elem_of_filter. naive_solver.
  - intros p Hp. apply J9. lia.
  - intros p Hp. apply J10. lia.
Qed.

(** One page is inherited. *)
Lemma clone_step Wb q s s' m W F O W' F' O' m' :
  clone_at Wb q s m W F O -> q ∈ P -> cl_copy s' = cl_copy s + 1 -> cloned k T A C H E src dst q W O m W' F' O' m' ->
  clone_inv Wb (q + 1) s' m'.
Proof.
  intros [J1 J2 J3 J4 J5 J6 J7 J8 J9 J10] Hq Hs [K1 K2 K3 K4 K5 K6 K7 K8]. exists W', F', O'.
  assert (below (q + 1) = {[q]} ∪ below q) as Hb.
  { apply set_eq. intros p. unfold below. rewrite elem_of_union, elem_of_singleton, !elem_of_filter. split.
    - intros [Hlt Hp]. destruct (decide (p = q)); [by left|right]. split; [lia|done].
    - intros [->|[Hlt Hp]]; split; (done || lia). }
  split; [done|by etrans|intros o; by rewrite K3|by etrans| |done| | | |].
  - intros x. rewrite K5. destruct (decide (x = (dst, q))) as [->|Hne].
    + rewrite lookup_insert_eq. simpl. rewrite decide_True by (split_and!; [done|done|lia]).
      rewrite J5. simpl. rewrite decide_False by (intros [E0 _]; done). apply HP in Hq as (lf & Ho & _). unfold N0. by rewrite (abs_lookup m0 O0 _ _ Ho).
    + rewrite lookup_insert_ne by done. rewrite J5. destruct (decide (x.1 = dst /\ x.2 ∈ P /\ x.2 < q)) as [(? & ? & ?)|Hd].
      * rewrite decide_True; [done|]. split_and!; [done|done|lia].
      * rewrite decide_False; [done|]. intros (Hx1 & Hx2 & Hx3). apply Hd. split_and!; [done|done|]. destruct (decide (x.2 = q)) as [Hx|]; [|lia].
        destruct Hne. destruct x as [x1 x2]. simpl in *. congruence.
  - rewrite Hs. lia.
  - rewrite Hs, J8, Hb, size_union, size_singleton by (unfold below; set_solver by lia). lia.
  - intros p Hp. rewrite K8; [apply J9; lia|intros [= ]; lia|intros [= ]; lia].
  - intros p Hp. rewrite K8; [apply J10; lia|intros [= ]; lia|intros [= ]; lia].
Qed.

Lemma copy_below q s m Wb : clone_inv Wb q s m -> cl_copy s < limit.
Proof.
  intros (W & F & O & [J1 J2 J3 J4 J5 J6 J7 J8 J9 J10]). rewrite J8. assert (size (below q) <= size P)%nat; [|lia].
  apply subseteq_size. unfold below. set_solver.
Qed.

(** ** Tables met by the walk *)

(** A table of the parent, or one of the template's under which the parent has
    nothing to inherit. *)
Record tab_here (Wb : tabs) (l : nat) (c t : Z) (o : Z) : Prop := MkTabHere {
  th_tab : Wb !! (o, l, c) = Some t;
  th_own : o = src \/ (o = k /\ forall p, p ∈ P -> ~ (c * span (S l) <= p < (c + 1) * span (S l)));
  th_pos : 0 <= c;
  th_top : (c + 1) * span (S l) <= 2 ^ 36 }.

Definition ker_here (Wb : tabs) (l : nat) (c : Z) (pk : option Z) : Prop :=
  match pk with None => True | Some tk => Wb !! (k, l, c) = Some tk end.

Lemma clone_own W F O m q p lf : clone_at W0 q lf m W F O -> q <= p -> p ∈ P ->
  exists lf', O !! (src, p) = Some (Some lf') /\ O0 !! (src, p) = Some (Some lf') /\ clonable m0 p lf' = true.
Proof.
  intros [J1 J2 J3 J4 J5 J6 J7 J8 J9 J10] Hq Hp. apply HP in Hp as (lf' & Ho & Hc). exists lf'. by rewrite J9.
Qed.

Lemma leaf_entry Wb q s m W F O o c t i e :
  clone_at Wb q s m W F O -> tab_here Wb 0 c t o -> 0 <= i < 512 -> q = c * 512 + i -> vphys m !! slot t i = Some e ->
  (has e PTE_P && has e PTE_U = true -> o = src /\ O0 !! (src, q) = Some (Some (leaf_at (addr e) e))) /\
  (q ∈ P -> has e PTE_P && has e PTE_U = true).
Proof.
  intros HA [Ht Hown Hc Htop] Hi -> Ee. pose proof HA as [J1 J2 J3 J4 J5 J6 J7 J8 J9 J10]. change (span 1) with 512 in Htop, Hown.
  pose proof (leaf_see k T A H E m W F O o c t i e J1 (lookup_weaken _ _ _ _ Ht J2) Hc Htop Hi Ee) as Hv. unfold pte_leaf in Hv. split.
  - intros Hpu. apply andb_true_iff in Hpu as [HPr HU]. rewrite HPr in Hv.
    destruct (O !! (o, c * 512 + i)) as [o'|] eqn:Ho; simpl in Hv.
    + subst o'. assert (o = src) as ->.
      { destruct Hown as [?|[-> _]]; [done|]. exfalso. eapply no_ker_page; [exact J1| |exact Ho]. lia. }
      split; [done|]. rewrite <-J9 by lia. done.
    + symmetry in Hv. apply HT in Hv. simpl in Hv. congruence.
  - intros Hin. destruct Hown as [->|[_ Hno]]; [|exfalso; apply (Hno _ Hin); lia].
    apply HP in Hin as (lf & Ho & _). rewrite <-J9 in Ho by lia. rewrite Ho in Hv. simpl in Hv.
    destruct (has e PTE_P); [|done]. destruct (si_leaf _ _ _ _ _ _ _ _ _ J1 _ _ Ho) as (Hu & _ & _). injection Hv as <-. exact Hu.
Qed.

Lemma tab_word Wb q s m W F O o l c t i : clone_at Wb q s m W F O -> Wb !! (o, l, c) = Some t -> 0 <= i < 512 ->
  exists e, vphys m !! slot t i = Some e /\ ent_ok (vphys m) k W o l c i e /\ tp_ok (vm_pmm m) t /\ W !! (o, l, c) = Some t.
Proof.
  intros [J1 J2 J3 J4 J5 J6 J7 J8 J9 J10] Ht Hi. pose proof (lookup_weaken _ _ _ _ Ht J2) as HtW. pose proof (si_inv _ _ _ _ _ _ _ _ _ J1) as Hv.
  destruct (pt_ent _ _ _ (vi_pt _ _ _ _ Hv) _ _ _ _ _ HtW Hi) as (e & Ee & He). exists e. split_and!; [done|done| |done].
  by apply (vi_tab _ _ _ _ Hv _ _ HtW).
Qed.

Lemma wp_clone_leaf Wb c t pk o i4 i3 i2 i1 s m :
  W0 ⊆ Wb -> tab_here Wb 0 c t o -> ker_here Wb 0 c pk -> c = ((i4 * 512) + i3) * 512 + i2 -> 0 <= i3 < 512 -> 0 <= i2 < 512 -> 0 <= i1 < 512 ->
  clone_inv Wb (c * 512 + i1) s m ->
  wp (clone_leaf i4 i3 i2 t pk src dst saved i1 s) (clone_post Wb (c * 512 + i1 + 1)) m.
Proof.
  intros HWb Hth Hkh Hc H3 H2 H1 HC. pose proof HC as (W & F & O & HA). set (q := c * 512 + i1) in *.
  destruct (tab_word Wb q s m W F O o 0 c t i1 HA (th_tab _ _ _ _ _ Hth) H1) as (e & Ee & _ & Htp & HtW).
  destruct (leaf_entry Wb q s m W F O o c t i1 e HA Hth H1 eq_refl Ee) as [Hl1 Hl2].
  assert (q ∉ P -> clone_post Wb (q + 1) (inl s) m) as Hskip.
  { intros Hn. simpl. eapply clone_skip; [| |exact HC]; [lia|]. intros p Hp Hr. replace p with q in Hp by lia. done. }
  unfold clone_leaf. apply wp_bind, (wp_rd t i1 e); [done|done|done|].
  destruct (has e PTE_P && has e PTE_U) eqn:Hpu.
  2: { assert (negb (has e PTE_P) || negb (has e PTE_U) = true) as -> by (by rewrite <-negb_andb, Hpu). apply wp_ret, Hskip.
       intros Hin. by specialize (Hl2 Hin). }
  assert (negb (has e PTE_P) || negb (has e PTE_U) = false) as -> by (by rewrite <-negb_andb, Hpu).
  destruct (Hl1 eq_refl) as [-> Ho0]. clear Hl1 Hl2. apply wp_bind.
  assert (forall Q, Q false m -> wp (match pk with None => pret false | Some pk => ke <- rd (slot pk i1) ;; pret (e =? ke) end) Q m) as Hsh.
  { intros Q HQ. destruct pk as [tk|]; [|by apply wp_ret]. simpl in Hkh.
    destruct (tab_word Wb q s m W F O k 0 c tk i1 HA Hkh H1) as (ke & Eke & _ & Htpk & _). apply wp_bind, (wp_rd tk i1 ke); [done|done|done|].
    apply wp_ret. rewrite (proj2 (Z.eqb_neq e ke)); [done|]. intros ->. pose proof (ca_inv _ _ _ _ _ _ _ HA) as J1.
    pose proof (leaf_see k T A H E m W F O k c tk i1 ke J1 (lookup_weaken _ _ _ _ Hkh (ca_sub _ _ _ _ _ _ _ HA)) (th_pos _ _ _ _ _ Hth) (th_top _ _ _ _ _ Hth) H1 Eke) as Hv.
    apply andb_true_iff in Hpu as [HPr HU]. unfold pte_leaf in Hv. rewrite HPr in Hv. pose proof (th_top _ _ _ _ _ Hth) as Htop.
    change (span 1) with 512 in Htop. pose proof (th_pos _ _ _ _ _ Hth).
    destruct (O !! (k, c * 512 + i1)) as [o'|] eqn:Ho; [eapply no_ker_page; [exact J1| |exact Ho]; lia|]. symmetry in Hv. apply HT in Hv. simpl in Hv. congruence. }
  apply Hsh. clear Hsh. cbv zeta. rewrite (clone_va i4 i3 i2 i1) by done. rewrite <-Hc. fold q.
  assert (0 <= q < 2 ^ 36) as Hq by (pose proof (th_top _ _ _ _ _ Hth) as Htop; change (span 1) with 512 in Htop; pose proof (th_pos _ _ _ _ _ Hth); unfold q; lia).
  destruct (page_va_ok q Hq) as [Hvp Hal]. set (lf := leaf_at (addr e) e) in *.
  assert (clonable m0 q lf = false -> q ∉ P) as Hncl.
  { intros Hcl Hin. apply HP in Hin as (lf' & Ho' & Hc'). rewrite Ho0 in Ho'. injection Ho' as <-. congruence. }
  unfold clonable in Hncl. destruct (in_band (page_va q)) eqn:Hb; cbn [negb andb] in *; [|by apply wp_ret, Hskip, Hncl].
  change (lf_pa lf) with (Z.land e PTE_ADDR_MASK) in Hncl. destruct (Z.land e PTE_ADDR_MASK =? page_va q) eqn:Epa; cbn [negb andb] in *; [by apply wp_ret, Hskip, Hncl|].
  apply wp_bind, wp_va_in_kernel_identity. pose proof HA as [J1 J2 J3 J4 J5 J6 J7 J8 J9 J10]. rewrite (rregs_image m0 m) by done.
  destruct (image_va m0 (page_va q)) eqn:Him; cbn [negb] in *; [by apply wp_ret, Hskip, Hncl|].
  assert (q ∈ P) as Hin.
  { apply HP. exists lf. split; [done|]. unfold clonable. rewrite Hb, Him. change (lf_pa lf) with (Z.land e PTE_ADDR_MASK). by rewrite Epa. }
  assert (O !! (src, vpage (page_va q)) = Some (Some lf)) as Ho by (rewrite Hvp, J9 by lia; done).
  assert (O !! (dst, vpage (page_va q)) = None) as Hn by (rewrite Hvp; apply J10; lia).
  assert (is_root W src /\ is_root W dst) as [Hr1 Hr2] by (unfold is_root; by rewrite !J3).
  assert (forall m', clone_failed k T A H E saved W O m m' -> clone_post Wb (q + 1) (inr (GJ_ERR_NOMEM, cl_copy s)) m') as Hf.
  { intros m' [(W' & F' & O' & HI' & HR' & Hab') Hrg Hcr]. split; [done|]. exists q, W', F', O'. split_and!; [done|done| | |by etrans|done].
    - intros o. by rewrite HR'.
    - by rewrite Hab'. }
  assert (has e PTE_W || has e PTE_COW = lf_w lf || lf_cow lf) as Hwc by done. rewrite Hwc.
  assert (image_va m (page_va q) = false) as Him' by (by rewrite (rregs_image m0 m)).
  destruct (lf_w lf || lf_cow lf) eqn:Ewc.
  - apply (wp_clone_share k T A C H E src dst saved Hdk W F O m J1 Hr1 Hr2 (page_va q) e lf Ho eq_refl Hn Hal Him' J6); [done| |exact Hf|].
    + assert (size (below q) <= size P)%nat by (apply subseteq_size; unfold below; set_solver). rewrite J8, Nat2Z.id in J7. lia.
    + intros W' F' O' m' Hcl. rewrite Hvp in Hcl. eapply clone_step; [exact HA|exact Hin|done|exact Hcl].
  - apply (wp_clone_copy k T A C H E src dst saved Hdk W F O m J1 Hr2 (page_va q) e lf Ho eq_refl Hn Hal Him' J6); [done|exact Hf|].
    intros W' F' O' m' Hcl. rewrite Hvp in Hcl. eapply clone_step; [exact HA|exact Hin|done|exact Hcl].
Qed.

(** ** The loops *)
Lemma wp_clone_loop Wb base step body n : forall i s m,
  (forall j s m, i <= j < i + Z.of_nat n -> clone_inv Wb (base + j * step) s m -> wp (body j s) (clone_post Wb (base + (j + 1) * step)) m) ->
  clone_inv Wb (base + i * step) s m -> wp (clone_loop n i limit body s) (clone_post Wb (base + (i + Z.of_nat n) * step)) m.
Proof.
  induction n as [|n IH]; intros i s m Hb HC; cbn [clone_loop].
  { apply wp_ret. simpl. by replace (i + Z.of_nat 0) with i by lia. }
  rewrite (proj2 (Z.ltb_lt _ _)) by (by eapply copy_below). apply wp_bind. eapply wp_mono; [by apply Hb; [lia|]|]. intros r m' Hr.
  destruct r as [s'|st]; [|by apply wp_ret]. simpl in Hr. replace (i + Z.of_nat (S n)) with (i + 1 + Z.of_nat n) by lia.
  apply IH; [|done]. intros j s2 m2 Hj. apply Hb. lia.
Qed.

Lemma own_child l c p : p ∈ P -> (l <= 3)%nat -> 0 <= c -> (c + 1) * span (S l) <= 2 ^ 36 -> c * span (S l) <= p < (c + 1) * span (S l) ->
  is_Some (W0 !! (src, l, c)).
Proof.
  intros Hp Hl Hc Htop Hr. pose proof (span_pos (S l)). assert (0 <= p < 2 ^ 36) as Hpb by nia. destruct (page_va_ok p Hpb) as [Hvp _].
  apply HP in Hp as (lf & Ho & _). rewrite <-Hvp in Ho. destruct (si_own _ _ _ _ _ _ _ _ _ HI0 _ _ _ Ho) as (_ & [t Ht] & _).
  pose proof (own_up k W0 F0 m0 (si_inv _ _ _ _ _ _ _ _ _ HI0) src (page_va p) t Ht l Hl) as Hs. rewrite key_page in Hs by done.
  replace (p / span (S l)) with c in Hs; [done|]. apply Z.div_unique with (p - c * span (S l)); lia.
Qed.

Section Level.
Context (l : nat) (Hl : (l < 3)%nat) (Wb : tabs) (HWb : W0 ⊆ Wb) (c t : Z) (pk : option Z) (o : Z).
Context (Hth : tab_here Wb (S l) c t o) (Hkh : ker_here Wb (S l) c pk).

Lemma entry_range i : 0 <= i < 512 -> 0 <= c * 512 + i /\ (c * 512 + i + 1) * span (S l) <= (c + 1) * span (S (S l)) /\
  c * span (S (S l)) <= (c * 512 + i) * span (S l) /\ (c * 512 + i + 1) * span (S l) <= 2 ^ 36.
Proof. intros Hi. pose proof (th_pos _ _ _ _ _ Hth). pose proof (th_top _ _ _ _ _ Hth) as Htop. rewrite (span_S (S l)) in *. pose proof (span_pos (S l)). nia. Qed.

(** An entry over a page to be inherited points to a table of the parent. *)
Lemma entry_own q s m W F O i e p :
  clone_at Wb q s m W F O -> 0 <= i < 512 -> ent_ok (vphys m) k W o (S l) c i e ->
  p ∈ P -> (c * 512 + i) * span (S l) <= p < (c * 512 + i + 1) * span (S l) ->
  o = src /\ has e PTE_P = true /\ has e PTE_PS = false /\ W !! (src, l, c * 512 + i) = Some (addr e).
Proof.
  intros HA Hi Hent Hp Hr. destruct (entry_range i Hi) as (E1 & E2 & E3 & E4). destruct (own_child l (c * 512 + i) p Hp) as [t' Ht']; [lia|done|done|done|].
  assert (W !! (src, l, c * 512 + i) = Some t') as Hw by (eapply lookup_weaken; [exact Ht'|]; etrans; [exact HWb|apply HA]).
  destruct (th_own _ _ _ _ _ Hth) as [Hos|[_ Hno]]; [|exfalso; apply (Hno p Hp); lia]. split; [done|]. rewrite Hos in Hent. simpl in Hent. rewrite Hw in Hent.
  destruct Hent as (? & ? & <-). done.
Qed.

Lemma wp_clone_level below i s m :
  (forall Wb' t' pk' o' s m, W0 ⊆ Wb' -> tab_here Wb' l (c * 512 + i) t' o' -> ker_here Wb' l (c * 512 + i) pk' ->
     clone_inv Wb' ((c * 512 + i) * span (S l)) s m -> wp (below i t' pk' s) (clone_post Wb' ((c * 512 + i + 1) * span (S l))) m) ->
  0 <= i < 512 -> clone_inv Wb ((c * 512 + i) * span (S l)) s m ->
  wp (clone_level t pk below i s) (clone_post Wb ((c * 512 + i + 1) * span (S l))) m.
Proof.
  intros Hbelow Hi HC. pose proof HC as (W & F & O & HA). set (q := (c * 512 + i) * span (S l)) in *. pose proof (span_pos (S l)) as Hsp.
  destruct (entry_range i Hi) as (R1 & R2 & R3 & R4). destruct (tab_word Wb q s m W F O o (S l) c t i HA (th_tab _ _ _ _ _ Hth) Hi) as (e & Ee & Hent & Htp & HtW).
  pose proof (vi_pt _ _ _ _ (si_inv _ _ _ _ _ _ _ _ _ (ca_inv _ _ _ _ _ _ _ HA))) as Hpt.
  assert ((forall p, p ∈ P -> ~ (q <= p < (c * 512 + i + 1) * span (S l))) -> clone_post Wb ((c * 512 + i + 1) * span (S l)) (inl s) m) as Hskip.
  { intros Hn. simpl. eapply clone_skip; [|exact Hn|exact HC]. unfold q. nia. }
  pose proof (entry_own q s m W F O i e) as Heo.
  unfold clone_level. apply wp_bind, (wp_rd t i e); [done|done|done|].
  destruct (negb (has e PTE_P) || has e PTE_PS) eqn:Hps.
  { apply wp_ret, Hskip. intros p Hp Hr. destruct (Heo p HA Hi Hent Hp Hr) as (_ & HP1 & HP2 & _). by rewrite HP1, HP2 in Hps. }
  apply orb_false_iff in Hps as [HPr HPS]. apply negb_false_iff in HPr.
  destruct (ent_next (vphys m) k W Hpt o l c t i e HtW Hi Ee HPr HPS) as (o' & Ho' & Hchild).
  assert (forall tk ke, pk = Some tk -> vphys m !! slot tk i = Some ke -> has ke PTE_P = true -> has ke PTE_PS = false -> W !! (k, l, c * 512 + i) = Some (addr ke)) as Hkc.
  { intros tk ke -> Eke KP KS. simpl in Hkh. pose proof (lookup_weaken _ _ _ _ Hkh (ca_sub _ _ _ _ _ _ _ HA)) as HkW.
    destruct (ent_next (vphys m) k W Hpt k l c tk i ke HkW Hi Eke KP KS) as (o2 & [->| ->] & Hk2); done. }
  assert (forall p, p ∈ P -> q <= p < (c * 512 + i + 1) * span (S l) -> W !! (k, l, c * 512 + i) <> Some (addr e)) as Hnk.
  { intros p Hp Hr Hk. destruct (Heo p HA Hi Hent Hp Hr) as (_ & _ & _ & Hs). pose proof (pt_inj _ _ _ Hpt _ _ _ Hs Hk) as Ex. by injection Ex. }
  assert (tab_here W l (c * 512 + i) (addr e) o') as Hth'.
  { split; [done| |done|done]. destruct Ho' as [->| ->].
    - destruct (th_own _ _ _ _ _ Hth) as [?|[-> Hno]]; [by left|right]. split; [done|]. intros p Hp Hr. apply (Hno p Hp). lia.
    - right. split; [done|]. intros p Hp Hr. by apply (Hnk p Hp Hr). }
  assert (forall pk', ker_here W l (c * 512 + i) pk' -> wp (below i (addr e) pk' s) (clone_post Wb ((c * 512 + i + 1) * span (S l))) m) as Hgo.
  { intros pk' Hk'. pose proof (ca_sub _ _ _ _ _ _ _ HA) as Hsub. eapply wp_mono; [apply (Hbelow W (addr e) pk' o' s m)|]; [by etrans|done|done| |].
    - exists W, F, O. destruct HA as [J1 J2 J3 J4 J5 J6 J7 J8 J9 J10]. by split.
    - intros [s'|st] m' Hr; [|done]. by eapply clone_inv_weaken. }
  fold (addr e). unfold ker_same, ker_child. destruct pk as [tk|].
  - simpl in Hkh. destruct (tab_word Wb q s m W F O k (S l) c tk i HA Hkh Hi) as (ke & Eke & _ & Htpk & _).
    apply wp_bind, wp_bind, (wp_rd tk i ke); [done|done|done|]. apply wp_ret. destruct (Z.eqb_spec e ke) as [->|Hne].
    + apply wp_ret, Hskip. intros p Hp Hr. by apply (Hnk p Hp Hr), (Hkc tk ke).
    + apply wp_bind, wp_bind, (wp_rd tk i ke); [done|done|done|]. apply wp_ret, Hgo.
      destruct (has ke PTE_P) eqn:KP; [|done]. destruct (has ke PTE_PS) eqn:KS; [done|]. simpl. by apply (Hkc tk ke).
  - apply wp_bind, wp_ret, wp_bind, wp_ret. by apply Hgo.
Qed.
End Level.

Lemma wp_tab_loop l Wb c t pk o below s m : (l < 3)%nat -> W0 ⊆ Wb -> tab_here Wb (S l) c t o -> ker_here Wb (S l) c pk ->
  (forall i Wb' t' pk' o' s m, 0 <= i < 512 -> W0 ⊆ Wb' -> tab_here Wb' l (c * 512 + i) t' o' -> ker_here Wb' l (c * 512 + i) pk' ->
     clone_inv Wb' ((c * 512 + i) * span (S l)) s m -> wp (below i t' pk' s) (clone_post Wb' ((c * 512 + i + 1) * span (S l))) m) ->
  clone_inv Wb (c * span (S (S l))) s m ->
  wp (clone_loop PT_WORDS 0 limit (clone_level t pk below) s) (clone_post Wb ((c + 1) * span (S (S l)))) m.
Proof.
  intros Hl HWb Hth Hkh Hb HC. pose proof PT_WORDS_512 as H512. pose proof (span_S (S l)) as Hs.
  replace ((c + 1) * span (S (S l))) with (c * span (S (S l)) + (0 + Z.of_nat PT_WORDS) * span (S l)) by (rewrite Hs; lia).
  apply wp_clone_loop; [|by rewrite Z.mul_0_l, Z.add_0_r]. intros j s' m' Hj HC'.
  replace (c * span (S (S l)) + (j + 1) * span (S l)) with ((c * 512 + j + 1) * span (S l)) by (rewrite Hs; lia).
  apply (wp_clone_level l Hl Wb HWb c t pk o Hth Hkh); [|lia|].
  - intros Wb' t' pk' o' s2 m2. apply Hb. lia.
  - by replace ((c * 512 + j) * span (S l)) with (c * span (S (S l)) + j * span (S l)) by (rewrite Hs; lia).
Qed.

Lemma wp_leaf_loop i4 i3 i2 Wb t pk o s m : 0 <= i3 < 512 -> 0 <= i2 < 512 -> let c := (i4 * 512 + i3) * 512 + i2 in
  W0 ⊆ Wb -> tab_here Wb 0 c t o -> ker_here Wb 0 c pk -> clone_inv Wb (c * span 1) s m ->
  wp (clone_loop PT_WORDS 0 limit (clone_leaf i4 i3 i2 t pk src dst saved) s) (clone_post Wb ((c + 1) * span 1)) m.
Proof.
  intros H3 H2 c HWb Hth Hkh HC. change (span 1) with 512 in *. pose proof PT_WORDS_512 as H512.
  replace ((c + 1) * 512) with (c * 512 + (0 + Z.of_nat PT_WORDS) * 1) by lia.
  apply wp_clone_loop; [|by rewrite Z.mul_0_l, Z.add_0_r]. intros j s' m' Hj HC'. rewrite !Z.mul_1_r in *. rewrite Z.add_assoc.
  by apply (wp_clone_leaf Wb c t pk o i4 i3 i2 j); [..|lia|].
Qed.

Lemma clone_start : roomy C O0 E m0 -> 0 <= cl_copy (MkClone 0 0 0) -> clone_inv W0 0 (MkClone 0 0 0) m0.
Proof.
  intros HR _. assert (forall p, p ∈ P -> 0 <= p) as Hpos.
  { intros p Hp. apply HP in Hp as (lf & _ & Hc). unfold clonable in Hc. apply andb_true_iff in Hc as [Hc _]. apply andb_true_iff in Hc as [Hc _].
    unfold in_band in Hc. apply andb_true_iff in Hc as [Hc _]. apply Z.leb_le in Hc. unfold page_va, GJ_PAGE_SIZE, GJ_USER_VA_BASE in Hc. lia. }
  assert (below 0 = ∅) as Hb.
  { apply set_eq. intros p. unfold below. rewrite elem_of_filter, elem_of_empty. split; [|done]. intros [Hlt Hp]. specialize (Hpos p Hp). lia. }
  exists W0, F0, O0. split; try done.
  - intros x. rewrite decide_False; [done|]. intros (_ & Hp & Hlt). specialize (Hpos _ Hp). lia.
  - simpl. lia.
  - rewrite Hb. done.
Qed.

(** ** Fork *)
Definition fork_result (r : gj_status * Z) (m : vmm_mem) : Prop :=
  rregs m0 m /\ exists W F O, space_inv k T A H E W F O m /\ (forall o, W !! (o, 3%nat, 0) = W0 !! (o, 3%nat, 0)) /\
  ((r = (GJ_OK, Z.of_nat (size P)) /\ fork_see (2 ^ 36) (abs m O)) \/ (exists q, r = (GJ_ERR_NOMEM, Z.of_nat (size (below q))) /\ fork_see q (abs m O))).

Lemma wp_clone_user_pages max Q :
  roomy C O0 E m0 -> (if max =? 0 then 256 else max) = limit -> saved = vm_cr3 m0 ->
  (forall r m, fork_result r m -> vm_cr3 m = vm_cr3 m0 -> Q r m) -> wp (vmm_as_clone_user_pages src dst max) Q m0.
Proof.
  intros HR Hmax Hsv HQ. pose proof (si_inv _ _ _ _ _ _ _ _ _ HI0) as Hi. pose proof (root_tp k W0 F0 m0 Hi src Hsr) as Ts.
  pose proof (root_tp k W0 F0 m0 Hi dst Hdr) as Td. unfold vmm_as_clone_user_pages. cbv zeta. rewrite Hmax. wsteps.
  rewrite (proj2 (Z.eqb_neq src 0)), (proj2 (Z.eqb_neq dst 0)) by (destruct Ts, Td; lia). cbn [orb].
  assert (forall x, tp_ok (vm_pmm m0) x -> Z.ldiff x 4095 = x) as Hld.
  { intros x Hx. change (page_down x = x). rewrite page_down_eq. apply page_of_aligned, Hx. }
  rewrite !Hld, (proj2 (Z.eqb_neq src dst)) by done. apply wp_bind, wp_get. rewrite (vi_ker _ _ _ _ Hi).
  unfold read_cr3. apply wp_bind, wp_bind, wp_get, wp_ret. rewrite <-Hsv. apply wp_bind.
  fold (addr src). rewrite (addr_frame src) by (by eapply tp_frame).
  eapply wp_mono; [apply (wp_clone_loop W0 0 (span 3) _ 256 0); [|by apply clone_start]|].
  - intros i4 s m Hj HC. rewrite Z.add_0_l in *. replace (i4 * span 3) with ((0 * 512 + i4) * span 3) in HC by lia.
    replace ((i4 + 1) * span 3) with ((0 * 512 + i4 + 1) * span 3) by lia.
    apply (wp_clone_level 2 ltac:(lia) W0 ltac:(done) 0 src (Some k) src); [split; [exact Hsr|by left|done|vm_compute; congruence]| | |lia|exact HC].
    { simpl. apply (vi_pt _ _ _ _ Hi). }
    clear s m HC. intros W3 t3 k3 o3 s3 m3 HW3 Hth3 Hkh3 HC3. apply (wp_tab_loop 1 W3 (0 * 512 + i4) t3 k3 o3); [lia|done|done|done| |exact HC3].
    intros i3 W2 t2 k2 o2 s2 m2 Hi3 HW2 Hth2 Hkh2 HC2. apply (wp_tab_loop 0 W2 ((0 * 512 + i4) * 512 + i3) t2 k2 o2); [lia|done|done|done| |exact HC2].
    intros i2 W1 t1 k1 o1 s1 m1 Hi2 HW1 Hth1 Hkh1 HC1. apply (wp_leaf_loop i4 i3 i2 W1 t1 k1 o1); [done|done|done|exact Hth1|exact Hkh1|exact HC1].
  - intros r m Hr. destruct r as [s|[st c]]; simpl in Hr.
    2: { destruct Hr as (-> & q & W & F & O & -> & HI & Hro & Hsee & Hrg & Hcr). apply wp_ret, HQ; [|congruence]. split; [done|].
         exists W, F, O. split_and!; [done|done|]. right. exists q. done. }
    assert (forall p, p ∈ P -> p < 256 * span 3) as Hpb.
    { intros p Hp. apply HP in Hp as (lf & _ & Hc). unfold clonable in Hc. apply andb_true_iff in Hc as [Hc _]. apply andb_true_iff in Hc as [Hc _].
      unfold in_band in Hc. apply andb_true_iff in Hc as [_ Hc]. apply Z.ltb_lt in Hc. unfold page_va, GJ_PAGE_SIZE, GJ_USER_VA_END in Hc.
      change (256 * span 3) with 34359738368. lia. }
    apply (clone_skip _ _ (2 ^ 36)) in Hr; [|vm_compute; congruence|].
    2: { intros p Hp [Hr1 _]. specialize (Hpb p Hp). change (0 + (0 + Z.of_nat 256) * span 3) with (256 * span 3) in Hr1. lia. }
    destruct Hr as (W & F & O & [J1 J2 J3 J4 J5 J6 J7 J8 J9 J10]). unfold load_cr3. wsteps. apply wp_vmm_note_peaks. wsteps. apply HQ; [|done].
    split; [etrans; [exact J4|apply rregs_cr3]|]. exists W, F, O. split_and!; [by apply space_cr3|done|]. left. split; [|exact J5]. rewrite J8.
    do 3 f_equal. unfold below. apply set_eq. intros p. rewrite elem_of_filter. split; [by intros [_ ?]|]. intros Hp. split; [|done].
    specialize (Hpb p Hp). change (256 * span 3) with 34359738368 in Hpb. change (2 ^ 36) with 68719476736. lia.
Qed.
End ForkAll.
