(* ===== verification/VmmDestroy.v ===== *)
(** [vmm_as_destroy]: an address space whose pages are in the caller's hand, and
    the loops that give them back. *)
From stdpp Require Import base gmap list strings.
From Stdlib Require Import ZArith Lia.
From S2P Require Import Prelude CapTypes Pmm PmmInv PmmOps PmmBoot PmmSelf PmmSys Vmm VmmTables VmmEntry VmmWalks VmmOps VmmSpace VmmUser VmmAnon VmmFork.

(** * An address space is given up: its tables, frames and references are in the
    hands of [vmm_as_destroy]. *)

(** ** Order does not matter *)
Lemma refs_perm O E E' pa : E ≡ₚ E' -> refs O E pa = refs O E' pa.
Proof. intros He. unfold refs, countb. by rewrite He. Qed.

Lemma space_hand_perm k T A H H' E E' W F O m : H ≡ₚ H' -> E ≡ₚ E' -> space_inv k T A H E W F O m -> space_inv k T A H' E' W F O m.
Proof.
  intros Hh He [I1 I2 I3 I4 I5 I6 I7 I8 I9 I10]. split; try done.
  - eapply cow_ok_ext; [|exact I6]. intros pa. by apply refs_perm.
  - intros pa Hpa. apply I7. by rewrite He.
  - by rewrite <-Hh.
  - intros x Hx. rewrite <-He. apply I9. by rewrite Hh.
  - intros x Hx. rewrite <-Hh, <-He. by apply I10.
Qed.

(** ** The frames of some leaves *)
Definition leaf_frames (f : leaf -> bool) (o : option leaf) : list Z :=
  match o with Some lf => if f lf then [lf_pa lf] else [] | None => [] end.
Definition frames_of (f : leaf -> bool) (R : overlay) : list Z := map_to_list R ≫= (fun y => leaf_frames f y.2).
Definition is_priv (lf : leaf) : bool := negb (lf_cow lf).

Lemma frames_insert f R x o : R !! x = None -> frames_of f (<[x := o]> R) ≡ₚ leaf_frames f o ++ frames_of f R.
Proof. intros Hx. unfold frames_of. by rewrite map_to_list_insert. Qed.

Lemma frames_delete f R x o : R !! x = Some o -> frames_of f R ≡ₚ leaf_frames f o ++ frames_of f (delete x R).
Proof. intros Hx. rewrite <-(insert_delete_id R x o) at 1 by done. apply frames_insert. apply lookup_delete_eq. Qed.

Lemma elem_frames f R pa : pa ∈ frames_of f R <-> exists x lf, R !! x = Some (Some lf) /\ f lf = true /\ lf_pa lf = pa.
Proof.
  unfold frames_of. rewrite list_elem_of_bind. split.
  - intros ([x o] & Hpa & Hin). apply elem_of_map_to_list in Hin. simpl in Hpa. destruct o as [lf|]; simpl in Hpa; [|by apply elem_of_nil in Hpa].
    destruct (f lf) eqn:Hf; [|by apply elem_of_nil in Hpa]. apply list_elem_of_singleton in Hpa as ->. by exists x, lf.
  - intros (x & lf & Hx & Hf & <-). exists (x, Some lf). split; [|by apply elem_of_map_to_list]. simpl. rewrite Hf. by apply list_elem_of_singleton.
Qed.

Lemma frames_nodup f R :
  (forall x y lf lf', R !! x = Some (Some lf) -> R !! y = Some (Some lf') -> f lf = true -> f lf' = true -> lf_pa lf = lf_pa lf' -> x = y) ->
  NoDup (frames_of f R).
Proof.
  induction R as [|x o R Hx IH] using map_ind; intros Hinj; [apply NoDup_nil_2|]. rewrite frames_insert by done.
  assert (NoDup (frames_of f R)) as Hd.
  { apply IH. intros y z lf lf' Hy Hz. apply Hinj; rewrite lookup_insert_ne; try done; intros ->; congruence. }
  destruct o as [lf|]; simpl; [|done]. destruct (f lf) eqn:Hf; [|done]. simpl. apply NoDup_cons. split; [|done].
  rewrite elem_frames. intros (y & lf' & Hy & Hf' & Ep). assert (x = y) as ->; [|congruence].
  apply (Hinj x y lf lf'); [by rewrite lookup_insert_eq|rewrite lookup_insert_ne; [done|intros ->; congruence]|done|done|done].
Qed.

(** ** Splitting off one address space *)
Definition tabs_of (r : Z) (W : tabs) : tabs := filter (fun y => y.1.1.1 = r) W.
Definition tabs_but (r : Z) (W : tabs) : tabs := filter (fun y => y.1.1.1 <> r) W.
Definition pages_of (r : Z) (O : overlay) : overlay := filter (fun y => y.1.1 = r) O.
Definition pages_but (r : Z) (O : overlay) : overlay := filter (fun y => y.1.1 <> r) O.
Definition tab_list (B : tabs) : list Z := (map_to_list B).*2.

Lemma countb_1 {B} (p : B -> bool) x : countb p [x] = if p x then 1%nat else 0%nat.
Proof. unfold countb. rewrite filter_cons. destruct (p x) eqn:Hp; by case_decide. Qed.

Lemma refs_split r O E pa : refs (pages_but r O) (frames_of lf_cow (pages_of r O) ++ E) pa = refs O E pa.
Proof.
  unfold refs. rewrite countb_app. enough (cows (pages_but r O) pa + countb (fun x => (x =? pa)%Z) (frames_of lf_cow (pages_of r O)) = cows O pa)%nat by lia.
  induction O as [|x o O Hx IH] using map_ind; [done|]. unfold cows in *. rewrite map_sum_new by done. rewrite <-IH. clear IH.
  destruct (decide (x.1 = r)) as [Hr|Hr].
  - unfold pages_but, pages_of. rewrite map_filter_insert_False by (simpl; tauto). rewrite map_filter_insert_True by done. rewrite delete_id by done.
    assert (filter (fun y : Z * Z * option leaf => y.1.1 = r) O !! x = None) as Hn by (apply map_lookup_filter_None; by left).
    rewrite (countb_perm _ _ _ (frames_insert _ _ _ _ Hn)), countb_app.
    destruct o as [lf|]; simpl; [|lia]. destruct (lf_cow lf); [|simpl; lia]. rewrite countb_1. simpl. destruct (lf_pa lf =? pa); lia.
  - unfold pages_but, pages_of. rewrite map_filter_insert_True by done. rewrite map_filter_insert_False by done. rewrite delete_id by done.
    rewrite map_sum_new by (apply map_lookup_filter_None; by left). lia.
Qed.

Section Abandon.
Context (k : Z) (T : Z -> option leaf) (A : gset Z) (H E : list Z) (W : tabs) (F : list Z) (O : overlay) (m : vmm_mem) (r : Z) (Hrk : r <> k).
Context (HI : space_inv k T A H E W F O m).

Lemma but_tab x t : tabs_but r W !! x = Some t <-> W !! x = Some t /\ x.1.1 <> r.
Proof. unfold tabs_but. by rewrite map_lookup_filter_Some. Qed.
Lemma but_page x o : pages_but r O !! x = Some o <-> O !! x = Some o /\ x.1 <> r.
Proof. unfold pages_but. by rewrite map_lookup_filter_Some. Qed.
Lemma of_tab x t : tabs_of r W !! x = Some t <-> W !! x = Some t /\ x.1.1 = r.
Proof. unfold tabs_of. by rewrite map_lookup_filter_Some. Qed.
Lemma of_page x o : pages_of r O !! x = Some o <-> O !! x = Some o /\ x.1 = r.
Proof. unfold pages_of. by rewrite map_lookup_filter_Some. Qed.

Lemma but_tab_ne o l c : o <> r -> tabs_but r W !! (o, l, c) = W !! (o, l, c).
Proof.
  intros Hne. destruct (W !! (o, l, c)) as [t|] eqn:Et; [by apply but_tab|]. apply map_lookup_filter_None. by left.
Qed.
Lemma but_page_ne o p : o <> r -> pages_but r O !! (o, p) = O !! (o, p).
Proof.
  intros Hne. destruct (O !! (o, p)) as [t|] eqn:Et; [by apply but_page|]. apply map_lookup_filter_None. by left.
Qed.

Lemma pt_but : pt_ok (vphys m) k (tabs_but r W).
Proof.
  pose proof (vi_pt _ _ _ _ (si_inv _ _ _ _ _ _ _ _ _ HI)) as [H1 H2 H3 H4 H5 H6]. split.
  - by rewrite but_tab_ne.
  - intros o l c t Ht. apply but_tab in Ht as [Ht Hne]. simpl in Hne. destruct (H2 _ _ _ _ Ht) as (? & ? & ?). split_and!; [done|done|by rewrite but_tab_ne].
  - intros o l c t Ht Hl. apply but_tab in Ht as [Ht Hne]. rewrite but_tab_ne by done. by eapply H3.
  - intros o l c t i Ht Hj. apply but_tab in Ht as [Ht Hne]. simpl in Hne. destruct (H4 _ _ _ _ _ Ht Hj) as (e & Ee & Hent). exists e.
    split; [done|]. destruct l as [|l]; [done|]. simpl in *. rewrite but_tab_ne by done. destruct (W !! (o, l, c * 512 + i)); [done|].
    intros HP. specialize (Hent HP). destruct (has e PTE_PS); [done|]. by rewrite but_tab_ne.
  - intros x y t Hx Hy. apply but_tab in Hx as [Hx _], Hy as [Hy _]. by eapply H5.
  - intros x t Hx. apply but_tab in Hx as [Hx _]. by eapply H6.
Qed.

Lemma frame_but x : user_frame W F m x -> user_frame (tabs_but r W) F m x.
Proof. intros [U1 U2 U3 U4]. split; [done..|]. intros y Hy. apply but_tab in Hy as [Hy _]. by apply (U4 y). Qed.

(** A table of [r] is a page like any other once [r] is gone. *)
Lemma tab_frame x t : tabs_of r W !! x = Some t -> user_frame (tabs_but r W) F m t /\ ~ no_tab W t.
Proof.
  intros Hx. apply of_tab in Hx as [Hx Hr]. destruct x as [[o l] c]. simpl in Hr. subst o. pose proof (si_inv _ _ _ _ _ _ _ _ _ HI) as Hi.
  split; [|intros Hn; by apply (Hn (r, l, c))]. split.
  - by eapply (vi_priv _ _ _ _ Hi).
  - split; [by apply (vi_tab _ _ _ _ Hi _ _ Hx)|]. intros j Hj. destruct (pt_ent _ _ _ (vi_pt _ _ _ _ Hi) _ _ _ _ _ Hx Hj) as (e & -> & _). by exists e.
  - by apply (vi_tab _ _ _ _ Hi _ _ Hx).
  - intros y Hy. apply but_tab in Hy as [Hy Hne]. pose proof (pt_inj _ _ _ (vi_pt _ _ _ _ Hi) _ _ _ Hx Hy) as <-. done.
Qed.

Definition left_hand (B : tabs) (R : overlay) : list Z := tab_list B ++ frames_of is_priv R ++ H.
Definition left_refs (R : overlay) : list Z := frames_of lf_cow R ++ E.

Lemma elem_tab_list (B : tabs) t : t ∈ tab_list B <-> exists x, B !! x = Some t.
Proof.
  unfold tab_list. rewrite list_elem_of_fmap. split.
  - intros ([x t'] & -> & Hin). exists x. by apply elem_of_map_to_list.
  - intros [x Hx]. exists (x, t). split; [done|]. by apply elem_of_map_to_list.
Qed.

Lemma tab_list_nodup : NoDup (tab_list (tabs_of r W)).
Proof.
  unfold tab_list. apply NoDup_fmap_2_strong; [|apply NoDup_map_to_list]. intros [x t] [y t'] Hx Hy Et. simpl in Et. subst t'.
  apply elem_of_map_to_list in Hx, Hy. apply of_tab in Hx as [Hx _], Hy as [Hy _].
  by rewrite (pt_inj _ _ _ (vi_pt _ _ _ _ (si_inv _ _ _ _ _ _ _ _ _ HI)) _ _ _ Hx Hy).
Qed.

Lemma in_frames f pa : pa ∈ frames_of f (pages_of r O) -> exists x lf, O !! x = Some (Some lf) /\ x.1 = r /\ f lf = true /\ lf_pa lf = pa.
Proof. rewrite elem_frames. intros (x & lf & Hx & Hf & Hp). apply of_page in Hx as [Hx Hr]. by exists x, lf. Qed.

Lemma left_hand_nodup : NoDup (left_hand (tabs_of r W) (pages_of r O)).
Proof.
  pose proof HI as [I1 I2 I3 I4 I5 I6 I7 I8 I9 I10]. unfold left_hand. apply NoDup_app. split_and!; [apply tab_list_nodup| |].
  - intros t Ht Hin. apply elem_tab_list in Ht as [x Hx]. destruct (tab_frame x t Hx) as [_ Hn]. apply elem_of_app in Hin as [Hin|Hin].
    + apply in_frames in Hin as (y & lf & Hy & _ & _ & <-). apply Hn. by destruct (I4 _ _ Hy) as (_ & _ & []).
    + apply Hn. by destruct (I9 _ Hin) as ([] & _).
  - apply NoDup_app. split_and!; [|intros pa Hpa Hin|done].
    + apply frames_nodup. intros x y lf lf' Hx Hy Hf Hf' Ep. apply of_page in Hx as [Hx _], Hy as [Hy _]. eapply I5; try done.
      unfold is_priv in Hf. by apply negb_true_iff.
    + apply in_frames in Hpa as (y & lf & Hy & _ & _ & <-). destruct (I9 _ Hin) as (_ & _ & Hn). by destruct (Hn _ _ Hy).
Qed.

Lemma space_abandon : space_inv k T A (left_hand (tabs_of r W) (pages_of r O)) (left_refs (pages_of r O)) (tabs_but r W) F (pages_but r O) m.
Proof.
  pose proof HI as [I1 I2 I3 I4 I5 I6 I7 I8 I9 I10].
  assert (forall x lf y lf', O !! x = Some (Some lf) -> lf_cow lf = true -> O !! y = Some (Some lf') -> lf_pa lf' = lf_pa lf -> lf_cow lf' = true) as Hcc.
  { intros x lf y lf' Hx Hc Hy Ep. destruct (lf_cow lf') eqn:Hc'; [done|]. pose proof (I5 _ _ _ _ Hy Hx Ep Hc') as ->. congruence. }
  split.
  - destruct I1 as [J1 J2 J3 J4 J5 J6 J7]. split; try done.
    + apply pt_but.
    + intros x t Hx. apply but_tab in Hx as [Hx _]. by eapply J6.
    + intros o l c t Hx Hne. apply but_tab in Hx as [Hx _]. by eapply J7.
  - intros o va Ho. apply but_tab in Ho as [Ho Hne]. rewrite but_page_ne by done. by apply I2.
  - intros o va o' Ho. apply but_page in Ho as [Ho Hne]. simpl in Hne. destruct (I3 _ _ _ Ho) as (? & ? & Hu). rewrite but_tab_ne by done.
    split_and!; [done|done|]. intros l Hl. destruct (Hu l Hl) as (t & e & Ht & He). exists t, e. by rewrite but_tab_ne.
  - intros x lf Hx. apply but_page in Hx as [Hx _]. destruct (I4 _ _ Hx) as (? & ? & ?). split_and!; [done|done|by apply frame_but].
  - intros x y lf lf' Hx Hy. apply but_page in Hx as [Hx _], Hy as [Hy _]. by apply I5.
  - eapply cow_ok_ext; [|exact I6]. intros pa. symmetry. apply refs_split.
  - intros pa Hpa. apply elem_of_app in Hpa as [Hpa|Hpa].
    + apply in_frames in Hpa as (x & lf & Hx & _ & Hc & <-). split; [by apply frame_but, (I4 _ _ Hx)|].
      intros y lf' Hy Ep. apply but_page in Hy as [Hy _]. by apply (Hcc x lf y lf').
    + destruct (I7 pa Hpa) as [? Hc]. split; [by apply frame_but|]. intros y lf' Hy Ep. apply but_page in Hy as [Hy _]. by eapply Hc.
  - apply left_hand_nodup.
  - intros x Hx. unfold left_hand, left_refs in *. apply elem_of_app in Hx as [Hx|Hx]; [|apply elem_of_app in Hx as [Hx|Hx]].
    + apply elem_tab_list in Hx as [y Hy]. destruct (tab_frame y x Hy) as [Hf Hn]. split_and!; [done| |].
      * intros Hin. apply Hn. apply elem_of_app in Hin as [Hin|Hin].
        -- apply in_frames in Hin as (z & lf & Hz & _ & _ & <-). by destruct (I4 _ _ Hz) as (_ & _ & []).
        -- by destruct (I7 _ Hin) as [[] _].
      * intros z lf Hz <-. apply Hn. apply but_page in Hz as [Hz _]. by destruct (I4 _ _ Hz) as (_ & _ & []).
    + apply in_frames in Hx as (y & lf & Hy & Hyr & Hf & <-). unfold is_priv in Hf. apply negb_true_iff in Hf.
      split_and!; [by apply frame_but, (I4 _ _ Hy)| |].
      * intros Hin. apply elem_of_app in Hin as [Hin|Hin].
        -- apply in_frames in Hin as (z & lf' & Hz & _ & Hc & Ep). rewrite (Hcc z lf' y lf) in Hf; done.
        -- destruct (I7 _ Hin) as [_ Hc]. rewrite (Hc _ _ Hy eq_refl) in Hf. done.
      * intros z lf' Hz Ep. apply but_page in Hz as [Hz Hzr]. pose proof (I5 _ _ _ _ Hy Hz (eq_sym Ep) Hf) as ->. done.
    + destruct (I9 x Hx) as (? & Hne & Hnm). split_and!; [by apply frame_but| |].
      * intros Hin. apply elem_of_app in Hin as [Hin|Hin]; [|done]. apply in_frames in Hin as (z & lf & Hz & _ & _ & <-). by destruct (Hnm _ _ Hz).
      * intros z lf Hz. apply but_page in Hz as [Hz _]. by eapply Hnm.
  - intros x Hx. unfold left_hand, left_refs. rewrite !elem_of_app, elem_tab_list, !elem_frames. destruct (I10 x Hx) as [?|[[y Hy]|[(y & lf & Hy & <-)|[?|?]]]].
    + by left.
    + destruct (decide (y.1.1 = r)) as [Hr|Hr]; right; [|left; exists y; by apply but_tab]. right. right. left. left. exists y. by apply of_tab.
    + right. right. destruct (decide (y.1 = r)) as [Hr|Hr]; [|left; exists y, lf; split; [by apply but_page|done]]. right.
      destruct (lf_cow lf) eqn:Hc; [right|left; right]; left; exists y, lf; (split; [by apply of_page|]); (split; [|done]); [done|].
      unfold is_priv. by rewrite Hc.
    + tauto.
    + tauto.
Qed.
End Abandon.

(** * [vmm_as_destroy]: every table and frame of the address space goes back, and
    no other address space sees a difference. *)

Section Destroy.
Context (k : Z) (T : Z -> option leaf) (A : gset Z) (H E : list Z) (W : tabs) (F : list Z) (O : overlay) (m0 : vmm_mem) (r : Z).
Context (Hrk : r <> k) (HI : space_inv k T A H E W F O m0) (Hroot : is_root W r) (HT : forall p lf, T p = Some lf -> lf_u lf = false).

Let W1 := tabs_but r W.
Let O1 := pages_but r O.
Let B0 := tabs_of r W.
Let R0 := pages_of r O.

(** [B] are the tables and [R] the pages that are still to be given back. *)
Record holds (B : tabs) (R : overlay) (m : vmm_mem) (F' : list Z) : Prop := MkHolds {
  ho_inv : space_inv k T A (left_hand H B R) (left_refs E R) W1 F' O1 m;
  ho_B : B ⊆ B0;
  ho_R : R ⊆ R0;
  ho_ker : same_tabs W1 m0 m;
  ho_tab : forall l c t i, B !! (r, l, c) = Some t -> 0 <= i < 512 -> (1 <= l)%nat \/ R !! (r, c * 512 + i) = R0 !! (r, c * 512 + i) ->
    vphys m !! slot t i = vphys m0 !! slot t i;
  ho_regs : vregs m0 m;
  ho_abs : abs m O1 = abs m0 O1 }.

Lemma tab_in B x t : B ⊆ B0 -> B !! x = Some t -> W !! x = Some t /\ x.1.1 = r.
Proof. intros HB Hx. apply of_tab. by eapply lookup_weaken. Qed.

Lemma left_hand_tab B R x t : B !! x = Some t -> left_hand H B R ≡ₚ t :: left_hand H (delete x B) R.
Proof. intros Hx. unfold left_hand, tab_list. rewrite <-(map_to_list_delete B x t Hx). simpl. done. Qed.

Lemma hold_frame B R m F' x t : holds B R m F' -> B !! x = Some t -> user_frame W1 F' m t.
Proof.
  intros Hh Hx. apply (si_hand _ _ _ _ _ _ _ _ _ (ho_inv _ _ _ _ Hh)). rewrite (left_hand_tab B R x t Hx). by left.
Qed.

(** Words outside one page in hand. *)
Lemma abs_off B R m F' m' pa : holds B R m F' -> pa ∈ left_hand H B R -> (forall a, page_of a <> pa -> vphys m' !! a = vphys m !! a) ->
  abs m' O1 = abs m0 O1 /\ same_tabs W1 m0 m'.
Proof.
  intros Hh Hin Hfr. pose proof (ho_inv _ _ _ _ Hh) as HI'. destruct (si_hand _ _ _ _ _ _ _ _ _ HI' pa Hin) as ([_ _ _ Hnt] & _ & Hnm). split.
  - rewrite <-(ho_abs _ _ _ _ Hh). apply abs_ext. intros x Hx i Hi. apply Hfr. pose proof (mapped_user _ _ _ _ _ _ _ _ _ _ HI' Hx) as [[] _ _ _].
    rewrite slot_page by done. destruct Hx as (y & lf & Hy & <-). by eapply Hnm.
  - intros x t i Hx Hi. rewrite Hfr; [exact (ho_ker _ _ _ _ Hh x t i Hx Hi)|]. destruct (inv_tab_page k W1 F' m (si_inv _ _ _ _ _ _ _ _ _ HI') x t i Hx Hi) as [-> _].
    intros ->. by apply (Hnt x).
Qed.

(** A table goes back. *)
Lemma wp_free_tab B R m F' x t (Q : unit -> vmm_mem -> Prop) :
  holds B R m F' -> B !! x = Some t -> (forall F2 m', holds (delete x B) R m' F2 -> Q tt m') -> wp (on_pmm (pmm_free t)) Q m.
Proof.
  intros Hh Hx HQ. pose proof Hh as [HI' HB HR Hk Ht Hrg Hab]. pose proof (left_hand_tab B R x t Hx) as Hp.
  apply (wp_space_free k T A (left_hand H (delete x B) R) (left_refs E R) W1 F' O1); [by eapply space_hand_perm|]. intros m' HI2 Hkp Hfr. apply (HQ (t :: F')).
  destruct (abs_off B R m F' m' t Hh) as [Hab' Hk']; [rewrite Hp; by left|done|]. split; [done| |done|done| |by etrans; [|apply vkeep_regs]|done].
  - etrans; [apply delete_subseteq|done].
  - intros l c t' i Hy Hi Hor. apply lookup_delete_Some in Hy as [Hne Hy]. rewrite Hfr; [by eapply Ht|].
    destruct (hold_frame B R m F' _ _ Hh Hy) as [[] _ _ _]. rewrite slot_page by done. intros ->. destruct Hne.
    destruct (tab_in B x t HB Hx) as [Hw1 _], (tab_in B (r, l, c) t HB Hy) as [Hw2 _].
    by eapply (pt_inj _ _ _ (vi_pt _ _ _ _ (si_inv _ _ _ _ _ _ _ _ _ HI))).
Qed.

(** The entry of a page that has gone is cleared. *)
Lemma wp_clear_entry B R m F' c t i (Q : unit -> vmm_mem -> Prop) :
  let x := (r, c * 512 + i) in
  space_inv k T A (left_hand H B (delete x R)) (left_refs E (delete x R)) W1 F' O1 m -> B ⊆ B0 -> R ⊆ R0 -> same_tabs W1 m0 m ->
  (forall l c' t' j, B !! (r, l, c') = Some t' -> 0 <= j < 512 -> (1 <= l)%nat \/ R !! (r, c' * 512 + j) = R0 !! (r, c' * 512 + j) ->
     vphys m !! slot t' j = vphys m0 !! slot t' j) ->
  vregs m0 m -> abs m O1 = abs m0 O1 -> B !! (r, 0%nat, c) = Some t -> 0 <= i < 512 -> is_Some (R0 !! x) ->
  (forall m', holds B (delete x R) m' F' -> Q tt m') -> wp (wr (slot t i) 0) Q m.
Proof.
  intros x HI1 HB HR Hk Ht Hrg Hab Hc Hi Hx HQ.
  destruct (si_hand _ _ _ _ _ _ _ _ _ HI1 t) as (Huf & _ & Hnm); [rewrite (left_hand_tab B _ _ t Hc); by left|].
  pose proof (uf_in _ _ _ _ Huf) as [Htp Hin]. apply wp_wr; [done|done|by apply Hin|]. apply HQ.
  pose proof (space_frame_put k T A _ _ W1 F' O1 m HI1 t 1 i (fun _ => 0) Huf ltac:(lia) ltac:(lia)) as HI2. cbn [put_words] in HI2.
  assert (forall t' j, t' mod GJ_PAGE_SIZE = 0 -> 0 <= j < 512 -> t' <> t \/ j <> i -> (<[slot t i := 0]> (vphys m)) !! slot t' j = vphys m !! slot t' j) as Hoff.
  { intros t' j Hal Hj Hne. rewrite lookup_insert_ne; [done|]. intros Es. apply slot_ne in Es as [-> ->]; [|apply Huf|done|done|done]. destruct Hne; done. }
  pose proof (vi_pt _ _ _ _ (si_inv _ _ _ _ _ _ _ _ _ HI)) as Hpt.
  split; [exact HI2|done|by etrans; [apply delete_subseteq|]| | |by destruct Hrg|].
  - intros y t' j Hy Hj. rewrite vphys_set, Hoff; [by eapply Hk| |done|].
    + apply but_tab in Hy as [Hy _]. by eapply (pt_align _ _ _ Hpt).
    + left. intros ->. by apply (uf_tab _ _ _ _ Huf y).
  - intros l c' t' j Hy Hj Hor. destruct (tab_in B _ _ HB Hy) as [Hy' _]. rewrite vphys_set, Hoff; [|by eapply (pt_align _ _ _ Hpt)|done|].
    + apply (Ht l c' t' j Hy Hj). destruct Hor as [?|Hor]; [by left|right]. rewrite <-Hor. destruct (decide ((r, c' * 512 + j) = x)) as [Ex|Ex].
      * exfalso. rewrite Ex, lookup_delete_eq in Hor. destruct Hx as [? Hx]. congruence.
      * by rewrite lookup_delete_ne by done.
    + destruct (decide (t' = t)) as [->|]; [|by left]. right. intros ->. destruct (tab_in B _ _ HB Hc) as [Hc' _].
      pose proof (pt_inj _ _ _ Hpt _ _ _ Hy' Hc') as Ex. injection Ex as -> ->. destruct Hor as [?|Hor]; [lia|].
      fold x in Hor. rewrite lookup_delete_eq in Hor. destruct Hx as [? Hx]. congruence.
  - rewrite <-Hab. apply abs_ext. intros y Hy j Hj. rewrite vphys_set. pose proof (mapped_user _ _ _ _ _ _ _ _ _ _ HI1 Hy) as [[] _ _ _].
    apply Hoff; [done|done|]. left. destruct Hy as (z & lf & Hz & <-). by eapply Hnm.
Qed.

(** ** One page *)
Definition goes (p : Z) (o : option leaf) : bool :=
  match o with Some lf => in_band (page_va p) && negb (lf_pa lf =? page_va p) | None => false end.

Lemma left_page B R x lf : R !! x = Some (Some lf) ->
  left_hand H B R ≡ₚ (if lf_cow lf then [] else [lf_pa lf]) ++ left_hand H B (delete x R) /\
  left_refs E R ≡ₚ (if lf_cow lf then [lf_pa lf] else []) ++ left_refs E (delete x R).
Proof.
  intros Hx. unfold left_hand, left_refs. rewrite (frames_delete is_priv R x _ Hx), (frames_delete lf_cow R x _ Hx). simpl. unfold is_priv.
  destruct (lf_cow lf); simpl; [done|]. split; [|done]. by rewrite <-Permutation_middle.
Qed.

Lemma wp_give_page B R m F' c t i lf (Q : unit -> vmm_mem -> Prop) :
  let x := (r, c * 512 + i) in
  holds B R m F' -> B !! (r, 0%nat, c) = Some t -> 0 <= i < 512 -> R !! x = Some (Some lf) ->
  (forall F2 m', holds B (delete x R) m' F2 -> Q tt m') ->
  wp ((if lf_cow lf then release_leaf_frame (lf_pa lf) else on_pmm (pmm_free (lf_pa lf))) ;;; wr (slot t i) 0) Q m.
Proof.
  intros x Hh Hc Hi Hx HQ. pose proof Hh as [HI' HB HR Hk Ht Hrg Hab]. destruct (left_page B R x lf Hx) as [Hp1 Hp2].
  pose proof (space_hand_perm _ _ _ _ _ _ _ _ _ _ _ Hp1 Hp2 HI') as HI1. apply wp_bind.
  assert (is_Some (R0 !! x)) as Hx0 by (eexists; by eapply lookup_weaken).
  destruct (lf_cow lf); simpl in HI1, Hp1.
  - apply (wp_frame_release k T A (left_hand H B (delete x R)) (left_refs E (delete x R)) W1 F' O1); [exact HI1|]. intros F2 m2 HI2 [Hr2 Hd2] Hst.
    apply (wp_clear_entry B R m2 F2 c t i); [exact HI2|done|done| | |by etrans| |done|done|done|by apply HQ].
    + intros y t' j Hy Hj. rewrite (Hst y t' j Hy Hj). exact (Hk y t' j Hy Hj).
    + intros l c' t' j Hy Hj Hor. rewrite (Hd2 t'); [by eapply Ht| |done]. right. rewrite (left_hand_tab B _ _ _ Hy). by left.
    + rewrite <-Hab. apply abs_ext. intros y Hy. apply Hd2. by left.
  - apply (wp_space_free k T A (left_hand H B (delete x R)) (left_refs E (delete x R)) W1 F' O1); [exact HI1|]. intros m2 HI2 Hkp Hfr.
    destruct (abs_off B R m F' m2 (lf_pa lf) Hh) as [Hab2 Hk2]; [rewrite Hp1; by left|done|].
    apply (wp_clear_entry B R m2 (lf_pa lf :: F') c t i); [exact HI2|done|done|done| |by etrans; [|apply vkeep_regs]|done|done|done|done|by apply HQ].
    intros l c' t' j Hy Hj Hor. rewrite Hfr; [by eapply Ht|]. destruct (hold_frame B R m F' _ _ Hh Hy) as [[] _ _ _]. rewrite slot_page by done.
    intros ->. pose proof (si_nodup _ _ _ _ _ _ _ _ _ HI1) as Hd. apply NoDup_cons in Hd as [Hd _]. apply Hd. rewrite (left_hand_tab B _ _ _ Hy). by left.
Qed.

(** What the entry of a page says. *)
Lemma page_entry B R m F' c t i :
  holds B R m F' -> B !! (r, 0%nat, c) = Some t -> 0 <= i < 512 -> 0 <= c -> (c + 1) * 512 <= 2 ^ 36 -> R !! (r, c * 512 + i) = R0 !! (r, c * 512 + i) ->
  exists e, vphys m !! slot t i = Some e /\ tp_ok (vm_pmm m) t /\
    if has e PTE_P && has e PTE_U then R !! (r, c * 512 + i) = Some (Some (leaf_at (addr e) e)) else default None (R !! (r, c * 512 + i)) = None.
Proof.
  intros Hh Hc Hi Hc0 Hc1 HR. destruct (hold_frame B R m F' _ _ Hh Hc) as [_ [Htp Hin] _ _]. destruct (Hin i Hi) as [e Ee]. exists e.
  split_and!; [done|done|]. destruct (tab_in B _ _ (ho_B _ _ _ _ Hh) Hc) as [HcW _].
  rewrite (ho_tab _ _ _ _ Hh 0 c t i Hc Hi (or_intror HR)) in Ee.
  pose proof (leaf_see k T A H E m0 W F O r c t i e HI HcW Hc0 Hc1 Hi Ee) as Hv. rewrite HR. unfold R0.
  assert (pages_of r O !! (r, c * 512 + i) = O !! (r, c * 512 + i)) as ->.
  { destruct (O !! (r, c * 512 + i)) as [o|] eqn:Eo; [by apply of_page|]. apply map_lookup_filter_None. by left. }
  unfold pte_leaf in Hv. destruct (O !! (r, c * 512 + i)) as [[lf|]|] eqn:Eo; simpl in Hv |- *.
  - destruct (has e PTE_P); [|done]. injection Hv as <-. destruct (si_leaf _ _ _ _ _ _ _ _ _ HI _ _ Eo) as (Hu & _ & _). simpl in Hu. by rewrite Hu.
  - by destruct (has e PTE_P).
  - destruct (has e PTE_P); [|done]. symmetry in Hv. apply HT in Hv. simpl in Hv. by rewrite Hv.
Qed.

Lemma ker_not_user m B R F' c tk i ke :
  holds B R m F' -> W1 !! (k, 0%nat, c) = Some tk -> 0 <= i < 512 -> 0 <= c -> (c + 1) * 512 <= 2 ^ 36 -> vphys m !! slot tk i = Some ke ->
  has ke PTE_P && has ke PTE_U = false.
Proof.
  intros Hh Hk Hi Hc0 Hc1 Ee. rewrite (ho_ker _ _ _ _ Hh _ _ i Hk Hi) in Ee. apply but_tab in Hk as [Hk _].
  pose proof (leaf_see k T A H E m0 W F O k c tk i ke HI Hk Hc0 Hc1 Hi Ee) as Hv. unfold pte_leaf in Hv. destruct (has ke PTE_P); [|done]. simpl.
  destruct (O !! (k, c * 512 + i)) as [o|] eqn:Eo; [exfalso; eapply no_ker_page; [exact HI| |exact Eo]; lia|].
  simpl in Hv. symmetry in Hv. by apply HT in Hv.
Qed.

Definition ker_at (l : nat) (c : Z) (pk : option Z) : Prop := pk = W1 !! (k, l, c).

Lemma wp_destroy_leaf B R m F' c t pk i4 i3 i2 i1 s :
  holds B R m F' -> B !! (r, 0%nat, c) = Some t -> ker_at 0 c pk -> c = ((i4 * 512) + i3) * 512 + i2 -> 0 <= i3 < 512 -> 0 <= i2 < 512 -> 0 <= i1 < 512 ->
  0 <= c -> (c + 1) * 512 <= 2 ^ 36 -> R !! (r, c * 512 + i1) = R0 !! (r, c * 512 + i1) ->
  wp (destroy_leaf i4 i3 i2 t pk i1 s)
    (fun _ m' => exists F2, holds B (if goes (c * 512 + i1) (default None (R !! (r, c * 512 + i1))) then delete (r, c * 512 + i1) R else R) m' F2) m.
Proof.
  intros Hh Hc Hk Hci H3 H2 H1 Hc0 Hc1 HR. destruct (page_entry B R m F' c t i1 Hh Hc H1 Hc0 Hc1 HR) as (e & Ee & Htp & Hent).
  unfold destroy_leaf. apply wp_bind, (wp_rd t i1 e); [done|done|done|]. rewrite <-negb_andb.
  destruct (has e PTE_P && has e PTE_U) eqn:Hpu; cbn [negb]; [|apply wp_ret; exists F'; by rewrite Hent]. rewrite Hent. simpl default.
  apply wp_bind. assert (forall Q : bool -> vmm_mem -> Prop, Q false m -> wp (ker_same pk i1 e) Q m) as Hsh.
  { intros Q HQ. unfold ker_same. destruct pk as [tk|]; [|by apply wp_ret]. unfold ker_at in Hk. symmetry in Hk.
    pose proof (si_inv _ _ _ _ _ _ _ _ _ (ho_inv _ _ _ _ Hh)) as Hi. destruct (pt_ent _ _ _ (vi_pt _ _ _ _ Hi) _ _ _ _ _ Hk H1) as (ke & Eke & _).
    apply wp_bind, (wp_rd tk i1 ke); [by apply (vi_tab _ _ _ _ Hi _ _ Hk)|done|done|]. apply wp_ret.
    rewrite (proj2 (Z.eqb_neq e ke)); [done|]. intros ->. by rewrite (ker_not_user m B R F' c tk i1 ke) in Hpu. }
  apply Hsh. cbv zeta. rewrite (clone_va i4 i3 i2 i1), <-Hci by done. set (q := c * 512 + i1) in *. set (lf := leaf_at (addr e) e) in *.
  change (Z.land e PTE_ADDR_MASK) with (lf_pa lf). unfold goes. destruct (lf_pa lf =? page_va q); [apply wp_ret; exists F'; by rewrite andb_false_r|].
  destruct (in_band (page_va q)); cbn [negb andb]; [|apply wp_ret; by exists F'].
  change (has e PTE_COW) with (lf_cow lf).
  pose proof (wp_give_page B R m F' c t i1 lf (fun _ m' => exists F2, holds B (delete (r, q) R) m' F2) Hh Hc H1 Hent) as Hg.
  destruct (lf_cow lf); apply wp_assoc, wp_bind; (eapply wp_mono; [apply Hg; by eauto|]); intros u m' Hm'; by apply wp_ret.
Qed.

(** ** Ranges *)
Definition rmp (lo hi : Z) (R : overlay) : overlay := filter (fun y => ~ (lo <= y.1.2 < hi /\ goes y.1.2 y.2 = true)) R.
Definition rmt (l : nat) (lo hi : Z) (B : tabs) : tabs :=
  filter (fun y => ~ ((y.1.1.2 < l)%nat /\ lo <= y.1.2 * span (S y.1.1.2) < hi)) B.

Lemma rmp_sub lo hi R : rmp lo hi R ⊆ R.
Proof. apply map_filter_subseteq. Qed.
Lemma rmt_sub l lo hi B : rmt l lo hi B ⊆ B.
Proof. apply map_filter_subseteq. Qed.

Lemma rmp_out lo hi R x : ~ (lo <= x.2 < hi) -> rmp lo hi R !! x = R !! x.
Proof.
  intros Hx. apply option_eq. intros o. unfold rmp. rewrite map_lookup_filter_Some. simpl. tauto.
Qed.
Lemma rmt_out l lo hi B o l' c : ~ ((l' < l)%nat /\ lo <= c * span (S l') < hi) -> rmt l lo hi B !! (o, l', c) = B !! (o, l', c).
Proof. intros Hx. apply option_eq. intros t. unfold rmt. rewrite map_lookup_filter_Some. simpl. tauto. Qed.

Lemma rmp_none lo q q' R : q <= q' -> (forall x o, R !! x = Some o -> ~ (q <= x.2 < q')) -> rmp lo q' R = rmp lo q R.
Proof.
  intros Hq Hn. apply map_eq. intros x. apply option_eq. intros o. unfold rmp. rewrite !map_lookup_filter_Some. simpl.
  split; intros [Hx Hno]; (split; [done|]); intros [Hr Hg]; apply Hno; (split; [|done]); specialize (Hn x o Hx); lia.
Qed.

Lemma rmp_cat lo q q' R : lo <= q <= q' -> rmp q q' (rmp lo q R) = rmp lo q' R.
Proof.
  intros Hq. apply map_eq. intros x. apply option_eq. intros o. unfold rmp. rewrite !map_lookup_filter_Some. simpl. split.
  - intros [[Hx H1] H2]. split; [done|]. intros [Hr Hg]. destruct (decide (x.2 < q)); [apply H1|apply H2]; (split; [lia|done]).
  - intros [Hx H1]. split_and!; [done| |]; intros [Hr Hg]; apply H1; (split; [lia|done]).
Qed.

Lemma rmp_step lo q R : R ⊆ R0 -> lo <= q ->
  (if goes q (default None (rmp lo q R !! (r, q))) then delete (r, q) (rmp lo q R) else rmp lo q R) = rmp lo (q + 1) R.
Proof.
  intros HR Hq. rewrite rmp_out by (simpl; lia). rewrite <-(rmp_cat lo q (q + 1)) by lia. set (R1 := rmp lo q R).
  assert (R1 !! (r, q) = R !! (r, q)) as Hl by (apply rmp_out; simpl; lia). rewrite <-Hl.
  assert (forall x o, R1 !! x = Some o -> q <= x.2 < q + 1 -> x = (r, q)) as Hk.
  { intros x o Hx Hr. assert (R0 !! x = Some o) as H0 by (eapply lookup_weaken; [eapply lookup_weaken; [exact Hx|apply rmp_sub]|done]).
    apply of_page in H0 as [_ H0]. destruct x as [x1 x2]. simpl in *. f_equal; lia. }
  apply map_eq. intros x. apply option_eq. intros o. unfold rmp at 1. rewrite map_lookup_filter_Some. simpl.
  destruct (goes q (default None (R1 !! (r, q)))) eqn:Hg.
  - rewrite lookup_delete_Some. split.
    + intros [Hne Hx]. split; [done|]. intros [Hr _]. by destruct Hne, (Hk x o Hx Hr).
    + intros [Hx Hno]. split; [|done]. intros <-. apply Hno. rewrite Hx in Hg. simpl in *. split; [lia|done].
  - split; [|tauto]. intros Hx. split; [done|]. intros [Hr Hgo]. pose proof (Hk x o Hx Hr) as ->. rewrite Hx in Hg. simpl in *. congruence.
Qed.

Lemma rmt_0 lo hi B : rmt 0 lo hi B = B.
Proof. apply map_eq. intros x. apply option_eq. intros t. unfold rmt. rewrite map_lookup_filter_Some. split; [tauto|]. intros Hx. split; [done|]. lia. Qed.

Lemma rmt_cat l lo c B : B ⊆ B0 -> lo <= c * span (S l) ->
  delete (r, l, c) (rmt l (c * span (S l)) ((c + 1) * span (S l)) (rmt (S l) lo (c * span (S l)) B)) = rmt (S l) lo ((c + 1) * span (S l)) B.
Proof.
  intros HB Hlo. pose proof (span_pos (S l)) as Hsp. apply map_eq. intros [[o l'] c']. apply option_eq. intros t.
  rewrite lookup_delete_Some. unfold rmt. rewrite !map_lookup_filter_Some. simpl. split.
  - intros [Hne [[Hx H1] H2]]. split; [done|]. intros [Hl' Hr]. destruct (decide (c' * span (S l') < c * span (S l))); [apply H1; lia|].
    destruct (decide (l' = l)) as [->|]; [|apply H2; lia]. destruct (tab_in B _ _ HB Hx) as [_ Ho]. simpl in Ho. subst o. destruct Hne. f_equal. nia.
  - intros [Hx H1]. split_and!; [|done| |].
    + intros [= <- <- <-]. apply H1. split; [lia|nia].
    + intros [Hl' Hr]. apply H1. split; [lia|nia].
    + intros [Hl' Hr]. apply H1. split; [lia|]. lia.
Qed.

Lemma rmt_none l lo q q' B : q <= q' -> (forall o l' c t, B !! (o, l', c) = Some t -> (l' < l)%nat -> ~ (q <= c * span (S l') < q')) ->
  rmt l lo q' B = rmt l lo q B.
Proof.
  intros Hq Hn. apply map_eq. intros [[o l'] c]. apply option_eq. intros t. unfold rmt. rewrite !map_lookup_filter_Some. simpl.
  split; intros [Hx Hno]; (split; [done|]); intros [Hl Hr]; apply Hno; (split; [done|]); specialize (Hn _ _ _ _ Hx Hl); lia.
Qed.

(** ** What lies below an entry *)
Lemma tab_up l l' c t : W !! (r, l', c) = Some t -> (l' <= l <= 3)%nat -> is_Some (W !! (r, l, c / span (l - l'))).
Proof.
  pose proof (vi_pt _ _ _ _ (si_inv _ _ _ _ _ _ _ _ _ HI)) as Hpt. intros Ht. induction l as [|l IH]; intros Hl.
  - replace l' with 0%nat in * by lia. exists t. simpl. change (span 0) with 1. by rewrite Z.div_1_r.
  - destruct (decide (l' = S l)) as [->|Hne]; [exists t; rewrite Nat.sub_diag; change (span 0) with 1; by rewrite Z.div_1_r|].
    destruct IH as [t' Ht']; [lia|]. destruct (pt_parent _ _ _ Hpt _ _ _ _ Ht') as [t2 Ht2]; [lia|]. exists t2.
    rewrite Z.div_div in Ht2 by (pose proof (span_pos (l - l')); lia). replace (S l - l')%nat with (S (l - l')) by lia. by rewrite span_S, Z.mul_comm.
Qed.

Lemma nothing_below l c : (l <= 3)%nat -> 0 <= c -> (c + 1) * span (S l) <= 2 ^ 36 -> W !! (r, l, c) = None ->
  (forall l' c' t, (l' <= l)%nat -> c * span (S l) <= c' * span (S l') < (c + 1) * span (S l) -> W !! (r, l', c') <> Some t) /\
  (forall p, c * span (S l) <= p < (c + 1) * span (S l) -> O !! (r, p) = None).
Proof.
  intros Hl Hc Htop HN.
  assert (forall l' c' t, (l' <= l)%nat -> c * span (S l) <= c' * span (S l') < (c + 1) * span (S l) -> W !! (r, l', c') <> Some t) as Ht.
  { intros l' c' t Hl' Hr Ht. destruct (tab_up l l' c' t Ht) as [t' Ht']; [lia|].
    replace (c' / span (l - l')) with c in Ht'; [congruence|]. pose proof (span_pos (S l')). pose proof (span_pos (l - l')).
    assert (span (S l) = span (l - l') * span (S l')) as Hs by (unfold span; rewrite <-Z.pow_add_r by lia; f_equal; lia). rewrite Hs in Hr.
    apply Z.div_unique with (c' - span (l - l') * c); [left|lia]. split; nia. }
  split; [done|]. intros p Hp. destruct (O !! (r, p)) as [o|] eqn:Ho; [|done]. exfalso. pose proof (span_pos (S l)).
  assert (0 <= p < 2 ^ 36) as Hpb by nia. destruct (page_va_ok p Hpb) as [Hvp _]. rewrite <-Hvp in Ho.
  destruct (si_own _ _ _ _ _ _ _ _ _ HI _ _ _ Ho) as (_ & [t Htt] & _).
  pose proof (own_up k W F m0 (si_inv _ _ _ _ _ _ _ _ _ HI) r (page_va p) t Htt l Hl) as [t' Hs]. rewrite key_page in Hs by done.
  replace (p / span (S l)) with c in Hs; [congruence|]. apply Z.div_unique with (p - c * span (S l)); lia.
Qed.

(** Nothing below table [c] of level [l] has gone yet. *)
Definition intact (l : nat) (c : Z) (B : tabs) (R : overlay) : Prop :=
  (forall l' c', (l' <= l)%nat -> c * span (S l) <= c' * span (S l') < (c + 1) * span (S l) -> B !! (r, l', c') = B0 !! (r, l', c')) /\
  (forall p, c * span (S l) <= p < (c + 1) * span (S l) -> R !! (r, p) = R0 !! (r, p)).

Definition dpost (B : tabs) (R : overlay) (s : destroy_st) (m : vmm_mem) : Prop := exists F', holds B R m F'.

Definition lo_of (l : nat) (c : Z) : Z := c * span (S l).

(** Table [c] of level [l] is emptied by [body]. *)
Definition empties (l : nat) (c : Z) (body : Z -> option Z -> destroy_st -> prog vmm_mem destroy_st) : Prop :=
  forall B R m F' t pk s, holds B R m F' -> intact l c B R -> B !! (r, l, c) = Some t -> ker_at l c pk ->
    wp (body t pk s) (dpost (rmt l (lo_of l c) (lo_of l (c + 1)) B) (rmp (lo_of l c) (lo_of l (c + 1)) R)) m.

Lemma own_entry B R m F' l c t i : holds B R m F' -> B !! (r, S l, c) = Some t -> 0 <= i < 512 ->
  exists e, vphys m !! slot t i = Some e /\ tp_ok (vm_pmm m) t /\ ent_ok (vphys m0) k W r (S l) c i e.
Proof.
  intros Hh Ht Hi. destruct (tab_in B _ _ (ho_B _ _ _ _ Hh) Ht) as [HtW _].
  destruct (pt_ent _ _ _ (vi_pt _ _ _ _ (si_inv _ _ _ _ _ _ _ _ _ HI)) _ _ _ _ _ HtW Hi) as (e & Ee & Hent). exists e.
  split_and!; [|apply (uf_in _ _ _ _ (hold_frame B R m F' _ _ Hh Ht))|done].
  rewrite (ho_tab _ _ _ _ Hh (S l) c t i Ht Hi); [done|left; lia].
Qed.

Lemma ker_entry B R m F' l c tk i : holds B R m F' -> W1 !! (k, l, c) = Some tk -> 0 <= i < 512 ->
  exists e, vphys m !! slot tk i = Some e /\ vphys m0 !! slot tk i = Some e /\ tp_ok (vm_pmm m) tk /\ ent_ok (vphys m0) k W k l c i e /\ W !! (k, l, c) = Some tk.
Proof.
  intros Hh Hk Hi. pose proof (si_inv _ _ _ _ _ _ _ _ _ (ho_inv _ _ _ _ Hh)) as Hv. pose proof Hk as [HkW _]%but_tab.
  destruct (pt_ent _ _ _ (vi_pt _ _ _ _ (si_inv _ _ _ _ _ _ _ _ _ HI)) _ _ _ _ _ HkW Hi) as (e & Ee & Hent). exists e.
  split_and!; [by rewrite (ho_ker _ _ _ _ Hh _ _ i Hk Hi)|done|by apply (vi_tab _ _ _ _ Hv _ _ Hk)|done|done].
Qed.

(** The template's entry at the same place, and its child. *)
Lemma wp_ker_same B R m F' l c pk i e (Q : bool -> vmm_mem -> Prop) :
  holds B R m F' -> ker_at l c pk -> 0 <= i < 512 ->
  (forall b, (b = true <-> exists tk, W !! (k, l, c) = Some tk /\ vphys m0 !! slot tk i = Some e) -> Q b m) -> wp (ker_same pk i e) Q m.
Proof.
  intros Hh Hk Hi HQ. unfold ker_same, ker_at in *. destruct pk as [tk|]; symmetry in Hk.
  - destruct (ker_entry B R m F' l c tk i Hh Hk Hi) as (ke & Ee & Ee0 & Htp & _ & HkW). apply wp_bind, (wp_rd tk i ke); [done|done|done|].
    apply wp_ret, HQ. rewrite Z.eqb_eq. split; [intros ->; by exists tk|]. intros (tk' & Hk' & Ek'). congruence.
  - apply wp_ret, HQ. split; [done|]. intros (tk & Hk' & _). unfold W1 in Hk. rewrite but_tab_ne in Hk by congruence. congruence.
Qed.

Lemma ker_down l c tk i ke : W !! (k, S l, c) = Some tk -> 0 <= i < 512 -> ent_ok (vphys m0) k W k (S l) c i ke ->
  W1 !! (k, l, c * 512 + i) = if has ke PTE_P && negb (has ke PTE_PS) then Some (addr ke) else None.
Proof.
  intros Hk Hi Hent. unfold W1. rewrite but_tab_ne by congruence. simpl in Hent. destruct (W !! (k, l, c * 512 + i)) as [t|].
  - by destruct Hent as (-> & -> & <-).
  - destruct (has ke PTE_P); [|done]. specialize (Hent eq_refl). destruct (has ke PTE_PS); [done|]. by destruct Hent.
Qed.

Lemma wp_ker_child B R m F' l c pk i (Q : option Z -> vmm_mem -> Prop) :
  holds B R m F' -> ker_at (S l) c pk -> 0 <= i < 512 -> (forall pk', ker_at l (c * 512 + i) pk' -> Q pk' m) -> (l < 3)%nat -> wp (ker_child pk i) Q m.
Proof.
  intros Hh Hk Hi HQ Hl. unfold ker_child, ker_at in *. destruct pk as [tk|]; symmetry in Hk.
  - destruct (ker_entry B R m F' (S l) c tk i Hh Hk Hi) as (ke & Ee & _ & Htp & Hent & HkW). apply wp_bind, (wp_rd tk i ke); [done|done|done|].
    apply wp_ret, HQ. rewrite (ker_down l c tk i ke HkW Hi Hent). done.
  - apply wp_ret, HQ. unfold W1 in *. rewrite but_tab_ne in * by congruence. destruct (W !! (k, l, c * 512 + i)) as [t|] eqn:Et; [|done]. exfalso.
    destruct (pt_parent _ _ _ (vi_pt _ _ _ _ (si_inv _ _ _ _ _ _ _ _ _ HI)) _ _ _ _ Et) as [t' Ht']; [lia|].
    replace ((c * 512 + i) / 512) with c in Ht' by (Z.div_mod_to_equations; lia). congruence.
Qed.

(** An entry that is present, not large and not the template's has a table of the
    address space below; any other has nothing. *)
Lemma entry_cases l c t i e b :
  W !! (r, S l, c) = Some t -> 0 <= i < 512 -> ent_ok (vphys m0) k W r (S l) c i e ->
  (b = true <-> exists tk, W !! (k, S l, c) = Some tk /\ vphys m0 !! slot tk i = Some e) ->
  W !! (r, l, c * 512 + i) = if has e PTE_P && negb (has e PTE_PS) && negb b then Some (addr e) else None.
Proof.
  intros Ht Hi Hent Hb. pose proof (vi_pt _ _ _ _ (si_inv _ _ _ _ _ _ _ _ _ HI)) as Hpt. simpl in Hent. destruct (W !! (r, l, c * 512 + i)) as [t'|] eqn:Et.
  - destruct Hent as (HP & HS & <-). rewrite HP, HS. simpl. destruct b; [|done]. exfalso. destruct (proj1 Hb eq_refl) as (tk & Hk & Ek).
    destruct (ent_next (vphys m0) k W Hpt k l c tk i e Hk Hi Ek HP HS) as (o & Ho & Hkc). assert (o = k) as -> by tauto.
    pose proof (pt_inj _ _ _ Hpt _ _ _ Et Hkc) as Ex. by injection Ex.
  - destruct (has e PTE_P); [|done]. specialize (Hent eq_refl). destruct (has e PTE_PS); [done|]. simpl. destruct Hent as (_ & Hx).
    by rewrite (proj2 Hb Hx).
Qed.

Section Entry.
Context (l : nat) (Hl : (l < 3)%nat) (c i : Z) (Hc0 : 0 <= c) (Hi : 0 <= i < 512) (Htop : (c * 512 + i + 1) * span (S l) <= 2 ^ 36).
Context (below : Z -> Z -> option Z -> destroy_st -> prog vmm_mem destroy_st) (Hbelow : empties l (c * 512 + i) (below i)).
Context (B : tabs) (R : overlay) (m : vmm_mem) (F' : list Z) (t : Z) (pk : option Z).
Context (Hh : holds B R m F') (Ht : B !! (r, S l, c) = Some t) (Hk : ker_at (S l) c pk) (Hin : intact l (c * 512 + i) B R).

Definition epost : destroy_st -> vmm_mem -> Prop :=
  let c' := c * 512 + i in dpost (delete (r, l, c') (rmt l (lo_of l c') (lo_of l (c' + 1)) B)) (rmp (lo_of l c') (lo_of l (c' + 1)) R).

Lemma entry_skip s : W !! (r, l, c * 512 + i) = None -> epost s m.
Proof.
  intros HN. destruct (nothing_below l (c * 512 + i)) as [Hnt Hnp]; [lia|lia|done|done|]. exists F'. unfold lo_of.
  pose proof (span_pos (S l)) as Hsp. pose proof Hh as [_ HB HR _ _ _ _].
  assert (forall x o, R !! x = Some o -> ~ ((c * 512 + i) * span (S l) <= x.2 < (c * 512 + i + 1) * span (S l))) as Hp.
  { intros x o Hx Hr. pose proof (lookup_weaken _ _ _ _ Hx HR) as Hx0. apply of_page in Hx0 as [Hx0 Hxr]. destruct x as [x1 x2]. simpl in *. subst x1.
    rewrite (Hnp x2 Hr) in Hx0. done. }
  rewrite (rmp_none _ ((c * 512 + i) * span (S l))) by (nia || done). replace (rmp _ ((c * 512 + i) * span (S l)) R) with R.
  2: { apply map_eq. intros x. symmetry. apply rmp_out. lia. }
  rewrite (rmt_none l _ ((c * 512 + i) * span (S l))); [|nia|].
  2: { intros o l' c' t' Hy Hl' Hr. destruct (tab_in B _ _ HB Hy) as [Hw Ho]. simpl in Ho. subst o. by apply (Hnt l' c' t'); [lia| |]. }
  replace (rmt l _ ((c * 512 + i) * span (S l)) B) with B.
  2: { apply map_eq. intros [[o l'] c']. symmetry. apply rmt_out. lia. }
  rewrite delete_id; [done|]. destruct (B !! (r, l, c * 512 + i)) as [t'|] eqn:Eb; [|done]. destruct (tab_in B _ _ HB Eb) as [Hw _]. congruence.
Qed.

Lemma wp_entry_go e pk' s :
  vphys m !! slot t i = Some e -> W !! (r, l, c * 512 + i) = Some (addr e) -> ker_at l (c * 512 + i) pk' ->
  wp (s <- below i (addr e) pk' s ;; e <- rd (slot t i) ;; on_pmm (pmm_free (Z.land e PTE_ADDR_MASK)) ;;; pret (ds_add_tab s)) epost m.
Proof.
  intros Ee Hw Hk'. pose proof (span_pos (S l)) as Hsp. pose proof Hin as [Hin1 _].
  assert (B !! (r, l, c * 512 + i) = Some (addr e)) as Hb.
  { rewrite (Hin1 l (c * 512 + i)); [by apply of_tab|lia|]. split; [lia|]. nia. }
  apply wp_bind. eapply wp_mono; [apply (Hbelow B R m F' (addr e) pk' s Hh Hin Hb Hk')|]. intros s1 m1 [F1 Hh1].
  set (B1 := rmt l _ _ B) in *. assert (B1 !! (r, S l, c) = Some t) as Ht1 by (unfold B1; rewrite rmt_out by (intros [? _]; lia); done).
  assert (B1 !! (r, l, c * 512 + i) = Some (addr e)) as Hb1 by (unfold B1; rewrite rmt_out by (intros [? _]; lia); done).
  assert (vphys m1 !! slot t i = Some e) as Ee1.
  { rewrite (ho_tab _ _ _ _ Hh1 (S l) c t i Ht1 Hi) by (left; lia). by rewrite <-(ho_tab _ _ _ _ Hh (S l) c t i Ht Hi) by (left; lia). }
  apply wp_bind, (wp_rd t i e); [apply (uf_in _ _ _ _ (hold_frame _ _ _ _ _ _ Hh1 Ht1))|done|done|]. fold (addr e).
  apply wp_bind, (wp_free_tab B1 (rmp (lo_of l (c * 512 + i)) (lo_of l (c * 512 + i + 1)) R) m1 F1 (r, l, c * 512 + i) (addr e)); [exact Hh1|done|]. intros F2 m2 Hh2. apply wp_ret. exists F2. exact Hh2.
Qed.

Lemma wp_destroy_level s : wp (destroy_level t pk below i s) epost m.
Proof.
  destruct (own_entry B R m F' l c t i Hh Ht Hi) as (e & Ee & Htp & Hent). destruct (tab_in B _ _ (ho_B _ _ _ _ Hh) Ht) as [HtW _].
  unfold destroy_level. apply wp_bind, (wp_rd t i e); [done|done|done|].
  assert (forall b, (b = true <-> exists tk, W !! (k, S l, c) = Some tk /\ vphys m0 !! slot tk i = Some e) ->
    W !! (r, l, c * 512 + i) = if has e PTE_P && negb (has e PTE_PS) && negb b then Some (addr e) else None) as Hcs by (intros b Hb; by eapply entry_cases).
  destruct (negb (has e PTE_P) || has e PTE_PS) eqn:Hps.
  { apply wp_ret, entry_skip. assert (exists b, b = true <-> exists tk, W !! (k, S l, c) = Some tk /\ vphys m0 !! slot tk i = Some e) as [b Hb].
    { destruct (W !! (k, S l, c)) as [tk|] eqn:Hkk; [|exists false; naive_solver]. exists (bool_decide (vphys m0 !! slot tk i = Some e)).
      rewrite bool_decide_eq_true. naive_solver. }
    rewrite (Hcs b Hb). destruct (has e PTE_P); [|done]. simpl in Hps. by rewrite Hps. }
  apply orb_false_iff in Hps as [HP%negb_false_iff HS]. rewrite HP, HS in Hcs.
  apply wp_bind, (wp_ker_same B R m F' (S l) c pk i e); [done|done|done|]. intros b Hb. specialize (Hcs b Hb). destruct b; simpl in Hcs.
  - by apply wp_ret, entry_skip.
  - apply wp_bind, (wp_ker_child B R m F' l c pk i); [done|done|done| |done]. intros pk' Hk'. by apply wp_entry_go.
Qed.

(** The root has no large entries. *)
Lemma wp_destroy_root s : l = 2%nat -> wp (destroy_root t pk below i s) epost m.
Proof.
  intros El. destruct (own_entry B R m F' l c t i Hh Ht Hi) as (e & Ee & Htp & Hent). destruct (tab_in B _ _ (ho_B _ _ _ _ Hh) Ht) as [HtW _].
  assert (forall o e', ent_ok (vphys m0) k W o (S l) c i e' -> has e' PTE_P = true -> has e' PTE_PS = false) as Hlg.
  { intros o e' He HP. simpl in He. destruct (W !! (o, l, c * 512 + i)); [by destruct He as (_ & ? & _)|]. specialize (He HP).
    destruct (has e' PTE_PS); [destruct He; lia|done]. }
  unfold destroy_root. apply wp_bind, (wp_rd t i e); [done|done|done|].
  assert (forall b, (b = true <-> exists tk, W !! (k, S l, c) = Some tk /\ vphys m0 !! slot tk i = Some e) ->
    W !! (r, l, c * 512 + i) = if has e PTE_P && negb (has e PTE_PS) && negb b then Some (addr e) else None) as Hcs by (intros b Hb; by eapply entry_cases).
  destruct (has e PTE_P) eqn:HP; cbn [negb].
  2: { apply wp_ret, entry_skip. simpl in Hent. destruct (W !! (r, l, c * 512 + i)); [|done]. destruct Hent. congruence. }
  rewrite (Hlg r e Hent HP) in Hcs. apply wp_bind, (wp_ker_same B R m F' (S l) c pk i e); [done|done|done|]. intros b Hb. specialize (Hcs b Hb).
  destruct b; simpl in Hcs; [by apply wp_ret, entry_skip|]. apply wp_bind. unfold ker_at in Hk.
  assert (W !! (k, 3%nat, c) = W !! (k, S l, c)) as E3 by (by rewrite El).
  destruct pk as [tk|]; symmetry in Hk.
  - destruct (ker_entry B R m F' (S l) c tk i Hh Hk Hi) as (ke & Eke & _ & Htpk & Hentk & HkW). apply wp_bind, (wp_rd tk i ke); [done|done|done|].
    apply wp_ret, wp_entry_go; [done|done|]. unfold ker_at. rewrite (ker_down l c tk i ke HkW Hi Hentk). destruct (has ke PTE_P) eqn:KP; [|done].
    by rewrite (Hlg k ke Hentk KP).
  - exfalso. destruct (pt_lvl _ _ _ (vi_pt _ _ _ _ (si_inv _ _ _ _ _ _ _ _ _ HI)) _ _ _ _ HtW) as (_ & Hr & _). destruct Hr as [-> _]; [lia|].
    unfold W1 in Hk. rewrite but_tab_ne in Hk by congruence. rewrite <-E3, (pt_root _ _ _ (vi_pt _ _ _ _ (si_inv _ _ _ _ _ _ _ _ _ HI))) in Hk. done.
Qed.
End Entry.

(** ** The loops *)
Lemma wp_destroy_loop (I : Z -> vmm_mem -> Prop) body n : forall i s m,
  (forall j s m, i <= j < i + Z.of_nat n -> I j m -> wp (body j s) (fun _ => I (j + 1)) m) -> I i m ->
  wp (destroy_loop n i body s) (fun _ => I (i + Z.of_nat n)) m.
Proof.
  induction n as [|n IH]; intros i s m Hb HIi; cbn [destroy_loop].
  { apply wp_ret. by replace (i + Z.of_nat 0) with i by lia. }
  apply wp_bind. eapply wp_mono; [by apply Hb; [lia|]|]. intros s' m' Hm'. replace (i + Z.of_nat (S n)) with (i + 1 + Z.of_nat n) by lia.
  apply IH; [|done]. intros j s2 m2 Hj. apply Hb. lia.
Qed.

Section Loop.
Context (l : nat) (Hl : (l < 3)%nat) (c : Z) (Hc0 : 0 <= c) (Htop : (c + 1) * span (S (S l)) <= 2 ^ 36).
Context (below : Z -> Z -> option Z -> destroy_st -> prog vmm_mem destroy_st) (Hbelow : forall i, 0 <= i < 512 -> empties l (c * 512 + i) (below i)).
Context (B : tabs) (R : overlay) (t : Z) (pk : option Z).
Context (HB : B ⊆ B0) (Ht : B !! (r, S l, c) = Some t) (Hk : ker_at (S l) c pk) (Hin : intact (S l) c B R).

Definition upto (j : Z) : Z := lo_of (S l) c + j * span (S l).
Definition linv (j : Z) (m : vmm_mem) : Prop :=
  exists F', holds (rmt (S l) (lo_of (S l) c) (upto j) B) (rmp (lo_of (S l) c) (upto j) R) m F'.

Lemma upto_lo j : upto j = lo_of l (c * 512 + j).
Proof. unfold upto, lo_of. rewrite (span_S (S l)). lia. Qed.

Lemma linv_entry j m : 0 <= j < 512 -> linv j m -> exists B1 R1 F', holds B1 R1 m F' /\ B1 !! (r, S l, c) = Some t /\ intact l (c * 512 + j) B1 R1 /\
  (forall s m', epost l c j B1 R1 s m' -> linv (j + 1) m').
Proof.
  intros Hj [F' Hh]. pose proof (span_pos (S l)) as Hsp. pose proof (span_S (S l)) as HS. eexists _, _, F'. split; [exact Hh|].
  assert (lo_of (S l) c <= upto j) as Hlo by (unfold upto; nia). assert (upto (j + 1) = lo_of l (c * 512 + j + 1)) as Hnx by (unfold upto, lo_of; lia).
  split_and!.
  - rewrite rmt_out; [done|]. intros [? _]. lia.
  - destruct Hin as [Hin1 Hin2]. fold (lo_of l (c * 512 + j)). split.
    + intros l' c' Hl' Hr. fold (lo_of l (c * 512 + j)) in Hr. rewrite <-upto_lo in Hr. rewrite rmt_out by lia. apply Hin1; [lia|].
      fold (lo_of (S l) c). split; [lia|]. unfold upto, lo_of in *. nia.
    + intros p Hr. fold (lo_of l (c * 512 + j)) in Hr. rewrite <-upto_lo in Hr. rewrite rmp_out by (simpl; lia). apply Hin2.
      fold (lo_of (S l) c). split; [lia|]. unfold upto, lo_of in *. nia.
  - intros s m' [F2 Hh2]. exists F2. rewrite upto_lo in *. rewrite rmp_cat in Hh2 by (rewrite <-Hnx; unfold lo_of, upto in *; nia).
    unfold lo_of in Hh2 at 1 2 3 4 5. fold (lo_of (S l) c) in Hh2. rewrite (rmt_cat l (lo_of (S l) c) (c * 512 + j)) in Hh2; [|done|unfold lo_of in *; nia].
    rewrite Z.add_assoc. exact Hh2.
Qed.

Lemma linv_start m F' : holds B R m F' -> linv 0 m.
Proof.
  intros Hh. exists F'. assert (upto 0 = lo_of (S l) c) as -> by (unfold upto; lia).
  replace (rmt _ _ _ B) with B; [replace (rmp _ _ R) with R; [done|]|].
  - apply map_eq. intros x. symmetry. apply rmp_out. lia.
  - apply map_eq. intros [[o l'] c']. symmetry. apply rmt_out. lia.
Qed.

Lemma linv_end m s : linv (0 + Z.of_nat PT_WORDS) m -> dpost (rmt (S l) (lo_of (S l) c) (lo_of (S l) (c + 1)) B) (rmp (lo_of (S l) c) (lo_of (S l) (c + 1)) R) s m.
Proof.
  intros [F' Hh]. exists F'. replace (lo_of (S l) (c + 1)) with (upto (0 + Z.of_nat PT_WORDS)); [done|]. rewrite PT_WORDS_512.
  unfold upto, lo_of. rewrite (span_S (S l)). lia.
Qed.

Lemma entry_top j : 0 <= j < 512 -> (c * 512 + j + 1) * span (S l) <= 2 ^ 36.
Proof. intros Hj. rewrite (span_S (S l)) in Htop. pose proof (span_pos (S l)). nia. Qed.

Lemma wp_level_loop m F' s : holds B R m F' ->
  wp (destroy_loop PT_WORDS 0 (destroy_level t pk below) s)
    (dpost (rmt (S l) (lo_of (S l) c) (lo_of (S l) (c + 1)) B) (rmp (lo_of (S l) c) (lo_of (S l) (c + 1)) R)) m.
Proof.
  intros Hh. pose proof PT_WORDS_512 as H512. eapply wp_mono; [apply (wp_destroy_loop linv); [|by eapply linv_start]|intros s' m'; apply linv_end].
  intros j s1 m1 Hj Hj1. destruct (linv_entry j m1 ltac:(lia) Hj1) as (B1 & R1 & F1 & Hh1 & Ht1 & Hin1 & Hnext).
  eapply wp_mono; [apply (wp_destroy_level l Hl c j Hc0 ltac:(lia) (entry_top j ltac:(lia)) below (Hbelow j ltac:(lia)) B1 R1 m1 F1 t pk Hh1 Ht1 Hk Hin1)|].
  intros s2 m2. apply Hnext.
Qed.

Lemma wp_root_loop m F' s : l = 2%nat -> holds B R m F' ->
  wp (destroy_loop PT_WORDS 0 (destroy_root t pk below) s)
    (dpost (rmt (S l) (lo_of (S l) c) (lo_of (S l) (c + 1)) B) (rmp (lo_of (S l) c) (lo_of (S l) (c + 1)) R)) m.
Proof.
  intros El Hh. pose proof PT_WORDS_512 as H512. eapply wp_mono; [apply (wp_destroy_loop linv); [|by eapply linv_start]|intros s' m'; apply linv_end].
  intros j s1 m1 Hj Hj1. destruct (linv_entry j m1 ltac:(lia) Hj1) as (B1 & R1 & F1 & Hh1 & Ht1 & Hin1 & Hnext).
  eapply wp_mono; [apply (wp_destroy_root l Hl c j Hc0 ltac:(lia) (entry_top j ltac:(lia)) below (Hbelow j ltac:(lia)) B1 R1 m1 F1 t pk Hh1 Ht1 Hk Hin1 s1 El)|].
  intros s2 m2. apply Hnext.
Qed.
End Loop.

Lemma empties_leaf i4 i3 i2 : 0 <= i3 < 512 -> 0 <= i2 < 512 -> let c := (i4 * 512 + i3) * 512 + i2 in 0 <= c -> (c + 1) * 512 <= 2 ^ 36 ->
  empties 0 c (fun t pk s => destroy_loop PT_WORDS 0 (destroy_leaf i4 i3 i2 t pk) s).
Proof.
  intros H3 H2 c Hc0 Hc1 B R m F' t pk s Hh [_ Hin] Ht Hk. pose proof PT_WORDS_512 as H512. unfold lo_of. change (span 1) with 512 in *. rewrite rmt_0.
  eapply wp_mono; [apply (wp_destroy_loop (fun j m => exists F', holds B (rmp (c * 512) (c * 512 + j) R) m F'))|].
  - intros j s1 m1 Hj [F1 Hh1]. eapply wp_mono; [apply (wp_destroy_leaf B (rmp (c * 512) (c * 512 + j) R) m1 F1 c t pk i4 i3 i2 j s1)|]; try done; try lia.
    + rewrite rmp_out by (simpl; lia). apply Hin. lia.
    + intros s2 m2 [F2 Hh2]. exists F2. rewrite rmp_step in Hh2; [by rewrite Z.add_assoc|apply Hh|lia].
  - exists F'. rewrite Z.add_0_r. replace (rmp _ _ R) with R; [done|]. apply map_eq. intros x. symmetry. apply rmp_out. lia.
  - intros s1 m1 [F1 Hh1]. exists F1. by replace ((c + 1) * 512) with (c * 512 + (0 + Z.of_nat PT_WORDS)) by lia.
Qed.

Lemma empties_level l c below : (l < 3)%nat -> 0 <= c -> (c + 1) * span (S (S l)) <= 2 ^ 36 -> (forall i, 0 <= i < 512 -> empties l (c * 512 + i) (below i)) ->
  empties (S l) c (fun t pk s => destroy_loop PT_WORDS 0 (destroy_level t pk below) s).
Proof. intros Hl Hc0 Hc1 Hb B R m F' t pk s Hh Hin Ht Hk. eapply wp_level_loop; try done. apply Hh. Qed.

(** ** The address space *)
Lemma tab_bounds l c t : W !! (r, l, c) = Some t -> (l <= 3)%nat /\ (l = 3%nat -> c = 0 /\ t = r) /\ 0 <= c * span (S l) < 2 ^ 36.
Proof.
  intros Ht. pose proof (vi_pt _ _ _ _ (si_inv _ _ _ _ _ _ _ _ _ HI)) as Hpt. destruct (pt_lvl _ _ _ Hpt _ _ _ _ Ht) as (Hl & H3 & _). split_and!; [done|done|..].
  all: destruct (tab_up 3 l c t Ht) as [t' Ht']; [lia|]; destruct (pt_lvl _ _ _ Hpt _ _ _ _ Ht') as (_ & Hz & _); destruct Hz as [Hz _]; [done|].
  all: pose proof (span_pos (3 - l)); pose proof (span_pos (S l)); assert (0 <= c < span (3 - l)) as Hc by (apply Z.div_small_iff in Hz; lia).
  - nia.
  - replace (2 ^ 36) with (span (3 - l) * span (S l)); [nia|]. unfold span. rewrite <-Z.pow_add_r by lia.
    replace (Z.of_nat (3 - l) + Z.of_nat (S l)) with 4 by lia. done.
Qed.

Lemma hold_start : holds B0 R0 m0 F.
Proof. split; try done. by apply space_abandon. Qed.

(** Pages that stay behind: those that map their own address, or lie outside the
    user band. *)
Definition stays : overlay := rmp 0 (2 ^ 36) R0.

Lemma tree_below i4 : 0 <= i4 < 512 -> empties 2 (0 * 512 + i4) ((fun i4 pPdpt kPdpt =>
      destroy_loop PT_WORDS 0
        (destroy_level pPdpt kPdpt (fun i3 pPd kPd =>
          destroy_loop PT_WORDS 0
            (destroy_level pPd kPd (fun i2 pPt kPt =>
              destroy_loop PT_WORDS 0 (destroy_leaf i4 i3 i2 pPt kPt)))))) i4).
Proof.
  intros H4. change (span 4) with 68719476736 in *. apply (empties_level 1); [lia|lia|change (span 3) with 134217728; lia|]. intros i3 H3.
  apply (empties_level 0); [lia|lia|change (span 2) with 262144; lia|]. intros i2 H2. apply (empties_leaf i4 i3 i2); lia.
Qed.

Lemma wp_as_destroy Q :
  (forall F' m', space_inv k T A (frames_of is_priv stays ++ H) (frames_of lf_cow stays ++ E) (tabs_but r W) F' (pages_but r O) m' ->
     vregs m0 m' -> abs m' (pages_but r O) = abs m0 (pages_but r O) -> Q GJ_OK m') ->
  wp (vmm_as_destroy r) Q m0.
Proof.
  intros HQ. pose proof (si_inv _ _ _ _ _ _ _ _ _ HI) as Hi. pose proof (root_tp k W F m0 Hi r Hroot) as Htp. pose proof PT_WORDS_512 as H512.
  unfold vmm_as_destroy. apply wp_bind, wp_get. rewrite (vi_kcr3 _ _ _ _ Hi), (vi_ker _ _ _ _ Hi).
  rewrite (proj2 (Z.eqb_neq r 0)), (proj2 (Z.eqb_neq r k)) by (destruct Htp; done || lia). cbn [orb].
  fold (addr r). rewrite (addr_frame r) by (by eapply tp_frame). apply wp_bind.
  assert (B0 !! (r, 3%nat, 0) = Some r) as Hr3 by (by apply of_tab).
  assert (ker_at 3 0 (Some k)) as Hk3 by (unfold ker_at, W1; rewrite but_tab_ne by congruence; symmetry; apply (vi_pt _ _ _ _ Hi)).
  eapply wp_mono; [apply (wp_root_loop 2 ltac:(lia) 0 ltac:(lia) ltac:(vm_compute; congruence) _ tree_below B0 R0 r (Some k) ltac:(done) Hr3 Hk3 (conj (fun _ _ _ _ => eq_refl) (fun _ _ => eq_refl)) m0 F _ eq_refl hold_start)|].
  - intros s m1 [F1 Hh1]. change (lo_of 3 (0 + 1)) with (2 ^ 36) in Hh1. change (lo_of 3 0) with 0 in Hh1. fold stays in Hh1.
    apply wp_bind, (wp_free_tab _ _ m1 F1 (r, 3%nat, 0) r _ Hh1); [rewrite rmt_out; [done|]; intros [? _]; lia|]. intros F2 m2 Hh2.
    assert (delete (r, 3%nat, 0) (rmt 3 0 (2 ^ 36) B0) = ∅) as HB.
    { apply map_eq. intros [[o l] c]. rewrite lookup_empty. destruct (delete _ _ !! _) as [t|] eqn:Ed; [|done]. exfalso.
      apply lookup_delete_Some in Ed as [Hne Ed]. unfold rmt in Ed. apply map_lookup_filter_Some in Ed as [Ed Hno]. simpl in Hno.
      apply of_tab in Ed as [Ed Ho]. simpl in Ho. subst o. destruct (tab_bounds l c t Ed) as (Hl & H3 & Hb). destruct (decide (l = 3%nat)) as [->|].
      - destruct H3 as [-> _]; [done|]. done.
      - apply Hno. split; [lia|done]. }
    rewrite HB in Hh2. destruct Hh2 as [HI2 _ _ _ _ Hrg2 Hab2]. wsteps. apply wp_soft_dec. wsteps. apply wp_vmm_note_peaks. wsteps.
    apply (HQ F2); [exact HI2|done|done].
Qed.
End Destroy.
