(* ===== verification/VmmSys.v ===== *)
(** Processes and their memory: events, the machine without sharing, the
    simulation of each event and of runs, and the state after boot. *)
From stdpp Require Import base gmap list strings.
From Stdlib Require Import ZArith Lia.
From S2P Require Import Prelude CapTypes Pmm PmmInv PmmOps PmmBoot PmmSelf PmmSys Vmm VmmTables VmmEntry VmmWalks VmmOps VmmSpace VmmUser VmmAnon VmmFork VmmDestroy.

(** * Processes and their memory: the calls of the kernel and the accesses of
    processes as events, and the machine without sharing that they implement. *)

(** A load of a process. *)
Definition user_load (va : Z) : prog vmm_mem (option Z) :=
  m <- pget ;;
  match uaccess m false va with
  | None => pret None
  | Some p => match vphys m !! p with Some v => pret (Some v) | None => pfault end
  end.

Inductive vev : Type :=
| EvCreate
| EvSwitch (r : Z)
| EvMmap (va cbLen u32Prot : Z)
| EvMmapAny (u64Hint cbLen u32Prot : Z)
| EvMunmap (va cbLen : Z)
| EvProtect (va u32Prot : Z)
| EvStore (va i v : Z)
| EvLoad (va i : Z)
| EvFork (src dst max : Z)
| EvDestroy (r : Z).

Inductive vres : Type :=
| RUnit | RAddr (a : Z) | RStat (st : gj_status) | RDone (b : bool) | RWord (w : option Z) | RFork (st : gj_status) (n : Z).

Definition vexec (ev : vev) : prog vmm_mem vres :=
  match ev with
  | EvCreate => a <- vmm_as_create ;; pret (RAddr a)
  | EvSwitch r => load_cr3 r ;;; pret RUnit
  | EvMmap va cb p => a <- vmm_mmap_anon va cb p true ;; pret (RAddr a)
  | EvMmapAny h cb p => a <- vmm_mmap_anon h cb p false ;; pret (RAddr a)
  | EvMunmap va cb => st <- vmm_munmap va cb ;; pret (RStat st)
  | EvProtect va p => st <- vmm_protect_page va p ;; pret (RStat st)
  | EvStore va i v => m <- pget ;; b <- user_store (vm_cr3 m) (word_va va i) v ;; pret (RDone b)
  | EvLoad va i => w <- user_load (word_va va i) ;; pret (RWord w)
  | EvFork s d n => r <- vmm_as_clone_user_pages s d n ;; pret (RFork (fst r) (snd r))
  | EvDestroy r => st <- vmm_as_destroy r ;; pret (RStat st)
  end.

(** ** The machine without sharing *)
Record usys : Type := USys { us_roots : gset Z; us_cur : Z; us_pages : uspace }.

(** The pages of [src] given to [dst]. *)
Definition inherits (src dst : Z) (Sel : Z -> Prop) (N N' : uspace) : Prop :=
  forall x, (x.1 = dst /\ Sel x.2 /\ N' !! x = N !! (src, x.2)) \/ (~ (x.1 = dst /\ Sel x.2) /\ N' !! x = N !! x).

Definition present (N : uspace) (r p : Z) : Prop := exists u, N !! (r, p) = Some (Some u).

Inductive ustep : usys -> vev -> vres -> usys -> Prop :=
| us_create S n : n <> 0 -> n ∉ us_roots S -> ustep S EvCreate (RAddr n) (USys ({[n]} ∪ us_roots S) (us_cur S) (us_pages S))
| us_create_fail S : ustep S EvCreate (RAddr 0) S
| us_switch S r : ustep S (EvSwitch r) RUnit (USys (us_roots S) r (us_pages S))
| us_mmap S va cb p : ustep S (EvMmap va cb p) (RAddr va)
    (USys (us_roots S) (us_cur S) (anon_done (us_cur S) (anon_pages cb) va p (us_pages S)))
| us_mmap_fail S va cb p j : (j < anon_pages cb)%nat ->
    ustep S (EvMmap va cb p) (RAddr 0) (USys (us_roots S) (us_cur S) (uput j (us_cur S) va None (us_pages S)))
| us_any S h cb p va : va <> 0 -> ustep S (EvMmapAny h cb p) (RAddr va)
    (USys (us_roots S) (us_cur S) (anon_done (us_cur S) (anon_pages cb) va p (us_pages S)))
| us_any_none S h cb p : ustep S (EvMmapAny h cb p) (RAddr 0) S
| us_any_fail S h cb p va j : (j < anon_pages cb)%nat ->
    ustep S (EvMmapAny h cb p) (RAddr 0) (USys (us_roots S) (us_cur S) (uput j (us_cur S) va None (us_pages S)))
| us_munmap S va cb : ustep S (EvMunmap va cb) (RStat GJ_OK)
    (USys (us_roots S) (us_cur S) (uput (anon_pages cb) (us_cur S) va None (us_pages S)))
| us_protect S va p u : us_pages S !! (us_cur S, vpage va) = Some (Some u) ->
    ustep S (EvProtect va p) (RStat GJ_OK) (USys (us_roots S) (us_cur S) (<[(us_cur S, vpage va) := Some (anon_page (up_words u) p)]> (us_pages S)))
| us_store S va i v u : us_pages S !! (us_cur S, vpage va) = Some (Some u) -> up_w u = true ->
    ustep S (EvStore va i v) (RDone true) (USys (us_roots S) (us_cur S) (ustored (us_pages S) (us_cur S, vpage va) i v u))
| us_store_fail S va i v : ustep S (EvStore va i v) (RDone false) S
| us_load S va i u : us_pages S !! (us_cur S, vpage va) = Some (Some u) -> ustep S (EvLoad va i) (RWord (up_words u !! Z.to_nat i)) S
| us_load_hole S va i : us_pages S !! (us_cur S, vpage va) = Some None -> ustep S (EvLoad va i) (RWord None) S
| us_fork S src dst n (P : gset Z) N : (forall p, p ∈ P <-> present (us_pages S) src p) -> inherits src dst (present (us_pages S) src) (us_pages S) N ->
    ustep S (EvFork src dst n) (RFork GJ_OK (Z.of_nat (size P))) (USys (us_roots S) (us_cur S) N)
| us_fork_fail S src dst n q (P : gset Z) N : (forall p, p ∈ P <-> present (us_pages S) src p /\ p < q) ->
    inherits src dst (fun p => present (us_pages S) src p /\ p < q) (us_pages S) N ->
    ustep S (EvFork src dst n) (RFork GJ_ERR_NOMEM (Z.of_nat (size P))) (USys (us_roots S) (us_cur S) N)
| us_destroy S r : ustep S (EvDestroy r) (RStat GJ_OK)
    (USys (us_roots S ∖ {[r]}) (us_cur S) (filter (fun y => y.1.1 <> r) (us_pages S))).

(** ** What a caller has to respect *)

(** No user page of [r] maps its own address. *)
Definition no_self (m : vmm_mem) (r : Z) : Prop :=
  forall p lf, 0 <= p < 2 ^ 36 -> view m r (page_va p) = Some lf -> lf_u lf = true -> lf_pa lf <> page_va p.

(** The pages of [r] lie in the user band, outside the kernel image. *)
Definition in_user (m : vmm_mem) (N : uspace) (r : Z) : Prop :=
  forall p, present N r p -> in_band (page_va p) = true /\ image_va m (page_va p) = false.

Record map_ok (S : usys) (m : vmm_mem) (va : Z) (n : nat) (u32Prot : Z) : Prop := MkMapOk {
  mo_align : page_aligned va = true;
  mo_low : 0 < va;
  mo_high : va + Z.of_nat n * GJ_PAGE_SIZE <= 2 ^ 47;
  mo_free : forall j, (j < n)%nat -> default None (us_pages S !! page_key (us_cur S) va j) = None;
  mo_image : forall j, (j < n)%nat -> image_va m (page_at va j) = false;
  mo_clear : clears m (Z.lor u32Prot GJ_VMM_PROT_USER) }.

Record range_own (S : usys) (va : Z) (n : nat) : Prop := MkRangeOwn {
  rg_align : page_aligned va = true;
  rg_low : 0 <= va;
  rg_high : va + Z.of_nat n * GJ_PAGE_SIZE <= 2 ^ 47;
  rg_own : forall j, (j < n)%nat -> is_Some (us_pages S !! page_key (us_cur S) va j) }.

Definition user_word (S : usys) (va i : Z) : Prop :=
  page_aligned va = true /\ canonical va = true /\ 0 <= i < 512 /\ is_Some (us_pages S !! (us_cur S, vpage va)).

Definition ev_ok (k : Z) (S : usys) (m : vmm_mem) (ev : vev) : Prop :=
  match ev with
  | EvCreate => True
  | EvSwitch r => r ∈ us_roots S
  | EvMmap va cb p => us_cur S <> k /\ cb <> 0 /\ map_ok S m va (anon_pages cb) p
  | EvMmapAny h cb p => us_cur S <> k /\ cb <> 0 /\ exists cur, vm_cursors m !! g_pAnonCursor m = Some cur /\
      forall va cur', anon_place cur h (anon_bytes cb) = Some (va, cur') -> map_ok S m va (anon_pages cb) p
  | EvMunmap va cb => us_cur S <> k /\ cb <> 0 /\ range_own S va (anon_pages cb) /\ no_self m (us_cur S)
  | EvProtect va p => us_cur S <> k /\ image_va m va = false /\ has p GJ_VMM_PROT_USER = true /\
      present (us_pages S) (us_cur S) (vpage va) /\ (forall lf, view m (us_cur S) va = Some lf -> lf_cow lf = false)
  | EvStore va i v => us_cur S <> k /\ user_word S va i
  | EvLoad va i => us_cur S <> k /\ user_word S va i
  | EvFork src dst n => src ∈ us_roots S /\ dst ∈ us_roots S /\ src <> k /\ dst <> k /\ src <> dst /\
      (forall p, us_pages S !! (dst, p) = None) /\ no_self m src /\ in_user m (us_pages S) src /\
      Z.of_nat (size (us_pages S)) < (if n =? 0 then 256 else n) /\ (size (us_pages S) <= length (g_aCowRef m))%nat /\
      Z.of_nat (size (us_pages S)) < 2147483647
  | EvDestroy r => r ∈ us_roots S /\ r <> k /\ r <> us_cur S /\ no_self m r /\
      (forall p, present (us_pages S) r p -> in_band (page_va p) = true)
  end.

(** ** The simulation *)

(** Page numbers are those of 48-bit addresses. *)
Definition in_range (N : uspace) : Prop := forall x, is_Some (N !! x) -> 0 <= x.2 < 2 ^ 36.

(** The machine [m] shows the processes of [S]. *)
Record shows (k : Z) (T : Z -> option leaf) (A : gset Z) (S : usys) (m : vmm_mem) (W : tabs) (F : list Z) (O : overlay) : Prop := MkShows {
  sh_inv : space_inv k T A [] [] W F O m;
  sh_roots : forall x, x ∈ us_roots S <-> is_root W x;
  sh_cur : vm_cr3 m = us_cur S;
  sh_in : us_cur S ∈ us_roots S;
  sh_pages : abs m O = us_pages S;
  sh_range : in_range (us_pages S) }.

Definition sim (k : Z) (T : Z -> option leaf) (A : gset Z) (S : usys) (m : vmm_mem) : Prop := exists W F O, shows k T A S m W F O.

Lemma vpage_range va : 0 <= vpage va < 2 ^ 36.
Proof. rewrite vpage_div. apply Z.mod_pos_bound. lia. Qed.

Lemma in_range_insert N r va o : in_range N -> in_range (<[(r, vpage va) := o]> N).
Proof. intros HN x Hx. apply lookup_insert_is_Some in Hx as [<-|[_ Hx]]; [apply vpage_range|by apply HN]. Qed.

Lemma in_range_uput n r va o : forall N, in_range N -> in_range (uput n r va o N).
Proof. induction n as [|n IH]; intros N HN; cbn [uput]; [done|]. apply IH. by apply in_range_insert. Qed.

Section Sim.
Context (k : Z) (T : Z -> option leaf) (A : gset Z) (HT : forall p lf, T p = Some lf -> lf_u lf = false).

Lemma shows_active S m W F O : shows k T A S m W F O -> active W m (us_cur S).
Proof.
  intros [S1 S2 S3 S4 S5 S6]. apply S2 in S4. split; [|done]. rewrite S3.
  pose proof (root_tp k W F m (si_inv _ _ _ _ _ _ _ _ _ S1) _ S4) as Ht. by eapply addr_frame, tp_frame.
Qed.

(** A call that keeps the address spaces. *)
Lemma shows_after S m W F O O' N W' F' m' m1 :
  shows k T A S m W F O -> vm_cr3 m1 = vm_cr3 m -> after k T A [] [] O' N W m1 W' F' m' -> in_range N ->
  sim k T A (USys (us_roots S) (us_cur S) N) m'.
Proof.
  intros [S1 S2 S3 S4 S5 S6] Hc [A1 A2 A3 A4] HN. exists W', F', O'. split; simpl; [done| |by rewrite (vr_cr3 _ _ A3), Hc|done|done|done].
  intros x. rewrite S2. unfold is_root. by rewrite A2.
Qed.

Lemma shows_page S m W F O x o : shows k T A S m W F O -> us_pages S !! x = Some o -> exists o', O !! x = Some o' /\ o = abs_leaf m <$> o'.
Proof. intros HS Hx. rewrite <-(sh_pages _ _ _ _ _ _ _ _ HS) in Hx. unfold abs in Hx. rewrite lookup_fmap in Hx. by apply fmap_Some in Hx. Qed.

Lemma shows_own S m W F O x : shows k T A S m W F O -> is_Some (us_pages S !! x) <-> is_Some (O !! x).
Proof. intros HS. rewrite <-(sh_pages _ _ _ _ _ _ _ _ HS). unfold abs. by rewrite lookup_fmap, fmap_is_Some. Qed.

Lemma map_anon S m W F O va n p : shows k T A S m W F O -> map_ok S m va n p -> anon_ok (us_cur S) O m va n p.
Proof.
  intros HS [M1 M2 M3 M4 M5 M6]. split; [done|lia|done| |done|done]. intros j Hj. specialize (M4 j Hj). unfold frame_at.
  rewrite <-(sh_pages _ _ _ _ _ _ _ _ HS) in M4. unfold abs in M4. rewrite lookup_fmap in M4. by destruct (O !! _) as [[]|].
Qed.

Abbreviation steps S ev := (fun res m' => exists S', ustep S ev res S' /\ sim k T A S' m').

Lemma sim_create S m : sim k T A S m -> wp (vexec EvCreate) (steps S EvCreate) m.
Proof.
  intros (W & F & O & HS). pose proof HS as [S1 S2 S3 S4 S5 S6]. simpl. apply wp_bind, (wp_as_create k T A [] [] W F O); [done| |].
  - intros _. apply wp_ret. exists S. split; [constructor|]. by exists W, F, O.
  - intros n F' m' Hn [C1 C2 C3 C4]. apply wp_ret. eexists. split.
    + constructor; [done|]. rewrite S2. unfold is_root. by rewrite C2.
    + exists (<[(n, 3%nat, 0) := n]> W), F', O. split; simpl; [done| |by rewrite (vr_cr3 _ _ C3)|set_solver|by rewrite C4|done].
      intros x. rewrite elem_of_union, elem_of_singleton, S2. unfold is_root. rewrite lookup_insert_Some. destruct (decide (x = n)) as [->|]; naive_solver.
Qed.

Lemma sim_switch S m r : sim k T A S m -> r ∈ us_roots S -> wp (vexec (EvSwitch r)) (steps S (EvSwitch r)) m.
Proof.
  intros (W & F & O & [S1 S2 S3 S4 S5 S6]) Hr. simpl. unfold load_cr3. wsteps. eexists. split; [constructor|].
  exists W, F, O. split; simpl; [by apply space_cr3|done|done|done|done|done].
Qed.

Lemma sim_mmap S m va cb p : sim k T A S m -> ev_ok k S m (EvMmap va cb p) -> wp (vexec (EvMmap va cb p)) (steps S (EvMmap va cb p)) m.
Proof.
  intros (W & F & O & HS) (Hk & Hcb & Hok). pose proof (shows_active _ _ _ _ _ HS) as Hact. pose proof (map_anon _ _ _ _ _ _ _ _ HS Hok) as Hao. simpl.
  apply wp_bind, (wp_mmap_fixed k T A (us_cur S) Hk [] [] W F O m va cb p _ (sh_inv _ _ _ _ _ _ _ _ HS) Hact Hcb Hao); rewrite (sh_pages _ _ _ _ _ _ _ _ HS).
  - intros W' F' O' m' Ha. apply wp_ret. eexists. split; [constructor|]. eapply shows_after; [done|done|exact Ha|]. apply in_range_uput, (sh_range _ _ _ _ _ _ _ _ HS).
  - intros j W' F' O' m' Hj Ha. apply wp_ret. eexists. split; [by eapply us_mmap_fail|]. eapply shows_after; [done|done|exact Ha|]. apply in_range_uput, (sh_range _ _ _ _ _ _ _ _ HS).
Qed.

Lemma sim_any S m h cb p : sim k T A S m -> ev_ok k S m (EvMmapAny h cb p) -> wp (vexec (EvMmapAny h cb p)) (steps S (EvMmapAny h cb p)) m.
Proof.
  intros (W & F & O & HS) (Hk & Hcb & cur & Hcur & Hok). pose proof (shows_active _ _ _ _ _ HS) as Hact. simpl.
  apply wp_bind, (wp_mmap_hint k T A (us_cur S) Hk [] [] W F O m h cb p cur _ (sh_inv _ _ _ _ _ _ _ _ HS) Hact Hcb Hcur).
  - intros _. apply wp_ret. exists S. split; [constructor|]. by exists W, F, O.
  - intros va cur' m0 Hpl ->. specialize (Hok va cur' Hpl). pose proof (map_anon _ _ _ _ _ _ _ _ HS Hok) as [A1 A2 A3 A4 A5 A6]. rewrite (sh_pages _ _ _ _ _ _ _ _ HS).
    split_and!; [done| |].
    + intros W' F' O' m' Ha. apply wp_ret. eexists. split; [constructor; destruct Hok; lia|]. eapply shows_after; [done| |exact Ha|]; [done|]. apply in_range_uput, (sh_range _ _ _ _ _ _ _ _ HS).
    + intros j W' F' O' m' Hj Ha. apply wp_ret. eexists. split; [by eapply us_any_fail|]. eapply shows_after; [done| |exact Ha|]; [done|]. apply in_range_uput, (sh_range _ _ _ _ _ _ _ _ HS).
Qed.

Lemma sim_protect S m va p : sim k T A S m -> ev_ok k S m (EvProtect va p) -> wp (vexec (EvProtect va p)) (steps S (EvProtect va p)) m.
Proof.
  intros (W & F & O & HS) (Hk & Him & Hus & [u Hu] & Hc). pose proof (shows_active _ _ _ _ _ HS) as Hact. pose proof (sh_inv _ _ _ _ _ _ _ _ HS) as HI. simpl.
  destruct (shows_page _ _ _ _ _ _ _ HS Hu) as ([lf|] & Ho & Eu); [|done]. injection Eu as ->.
  apply wp_bind, (wp_protect_own k T A [] [] W F O m HI (us_cur S) Hact va lf p); [done| |done|done|].
  - apply Hc. rewrite (si_view _ _ _ _ _ _ _ _ _ HI) by apply Hact. by rewrite Ho.
  - intros W' F' m' lf' _ Ha. apply wp_ret. eexists. split; [by econstructor|]. rewrite (sh_pages _ _ _ _ _ _ _ _ HS) in Ha.
    eapply shows_after; [done|done|exact Ha|]. apply in_range_insert, (sh_range _ _ _ _ _ _ _ _ HS).
Qed.

Lemma sim_store S m va i v : sim k T A S m -> ev_ok k S m (EvStore va i v) -> wp (vexec (EvStore va i v)) (steps S (EvStore va i v)) m.
Proof.
  intros (W & F & O & HS) (Hk & Hal & Hcan & Hi & [o Ho]). pose proof (shows_active _ _ _ _ _ HS) as Hact. simpl.
  destruct (shows_page _ _ _ _ _ _ _ HS Ho) as (o' & Ho' & _). apply wp_bind, wp_get, wp_bind.
  apply (wp_user_store k T A [] [] W F O m (us_cur S) va i v o'); [apply HS|done|done|done|done|done|..]; rewrite (sh_pages _ _ _ _ _ _ _ _ HS).
  - intros W' F' O' m' Ha _. apply wp_ret. exists S. split; [constructor|]. destruct S. eapply (shows_after (USys _ _ _)); [done|done|exact Ha|apply (sh_range _ _ _ _ _ _ _ _ HS)].
  - intros W' F' O' m' u Hu Huw Ha. apply wp_ret. eexists. split; [by econstructor|]. eapply shows_after; [done|done|exact Ha|]. apply in_range_insert, (sh_range _ _ _ _ _ _ _ _ HS).
Qed.

Lemma sim_load S m va i : sim k T A S m -> ev_ok k S m (EvLoad va i) -> wp (vexec (EvLoad va i)) (steps S (EvLoad va i)) m.
Proof.
  intros (W & F & O & HS) (Hk & Hal & Hcan & Hi & [o Ho]). pose proof (shows_active _ _ _ _ _ HS) as Hact. pose proof (sh_inv _ _ _ _ _ _ _ _ HS) as HI. simpl.
  destruct (shows_page _ _ _ _ _ _ _ HS Ho) as (o' & Ho' & ->). destruct (word_page va i Hal Hi) as (Hm & Hpg & Hc).
  unfold user_load. apply wp_bind, wp_bind, wp_get. unfold uaccess. fold (addr (vm_cr3 m)). rewrite (proj1 Hact), Hc, Hcan. cbn [negb].
  destruct o' as [lf|].
  - destruct (own_word k T A [] [] W F O (us_cur S) va lf Hal Ho' m i HI Hact Hi) as (-> & -> & _). rewrite Hm. cbn [negb andb orb].
    destruct (si_leaf _ _ _ _ _ _ _ _ _ HI _ _ Ho') as (_ & _ & Huf). destruct (uf_in _ _ _ _ Huf) as [_ Hin].
    destruct (Hin i Hi) as [w Hw]. change (lf_pa lf + 8 * i) with (slot (lf_pa lf) i). rewrite Hw. apply wp_ret, wp_ret. exists S. split; [|by exists W, F, O].
    assert (Some w = up_words (abs_leaf m lf) !! Z.to_nat i) as -> by (simpl; by rewrite words_lookup, Hw by done). by constructor.
  - rewrite (si_view _ _ _ _ _ _ _ _ _ HI) by apply Hact. rewrite Hpg, Ho'. apply wp_ret, wp_ret. exists S. split; [by constructor|by exists W, F, O].
Qed.

Lemma page_va_vpage v : page_aligned v = true -> 0 <= v < 2 ^ 48 -> page_va (vpage v) = v.
Proof.
  intros Ha Hv. apply page_aligned_spec in Ha. rewrite vpage_div. unfold page_va, GJ_PAGE_SIZE in *.
  rewrite Z.mod_small; change (2 ^ 48) with (4096 * 2 ^ 36) in Hv; Z.div_mod_to_equations; lia.
Qed.

(** The leaf of a page of a process. *)
Lemma shows_leaf S m W F O r p lf : shows k T A S m W F O -> is_root W r -> O !! (r, p) = Some (Some lf) ->
  0 <= p < 2 ^ 36 /\ view m r (page_va p) = Some lf /\ lf_u lf = true.
Proof.
  intros HS Hr Ho. pose proof (sh_inv _ _ _ _ _ _ _ _ HS) as HI. assert (0 <= p < 2 ^ 36) as Hp.
  { apply (sh_range _ _ _ _ _ _ _ _ HS (r, p)). by apply (shows_own _ _ _ _ _ _ HS). }
  destruct (page_va_ok p Hp) as [Hv _]. split; [done|split].
  - rewrite (si_view _ _ _ _ _ _ _ _ _ HI) by done. by rewrite Hv, Ho.
  - by destruct (si_leaf _ _ _ _ _ _ _ _ _ HI _ _ Ho).
Qed.

Lemma sim_munmap S m va cb : sim k T A S m -> ev_ok k S m (EvMunmap va cb) -> wp (vexec (EvMunmap va cb)) (steps S (EvMunmap va cb)) m.
Proof.
  intros (W & F & O & HS) (Hk & Hcb & [R1 R2 R3 R4] & Hns). pose proof (shows_active _ _ _ _ _ HS) as Hact. simpl.
  apply wp_bind, (wp_munmap k T A (us_cur S) [] [] W F O m va cb); [apply HS|done|done| |].
  { split; [done|done|done|]. intros j Hj. apply (shows_own _ _ _ _ _ _ HS). by apply R4. }
  intros W' F' E' O' m' Hlk Ha. assert (E' = []) as ->.
  { destruct E' as [|x E']; [done|]. destruct (Hlk x (in_head _ _)) as [Hx|(j & lf & Hj & -> & Ho & Hpa)]; [by apply not_elem_of_nil in Hx|].
    destruct (page_at_ok va j (anon_pages cb)) as (Hal & _); [done|done|done|done|]. unfold page_key in Ho.
    destruct (shows_leaf _ _ _ _ _ _ _ _ HS (proj2 Hact) Ho) as (Hp & Hv & Hu). destruct (Hns _ _ Hp Hv Hu).
    rewrite page_va_vpage; [done|done|]. rewrite (page_at_small va j (anon_pages cb)) by done. unfold GJ_PAGE_SIZE in *. lia. }
  apply wp_ret. rewrite (sh_pages _ _ _ _ _ _ _ _ HS) in Ha. eexists. split; [constructor|].
  eapply shows_after; [done|done|exact Ha|]. apply in_range_uput, (sh_range _ _ _ _ _ _ _ _ HS).
Qed.

(** ** Fork *)
Lemma size_of_list (l : list Z) : (size (list_to_set l : gset Z) <= length l)%nat.
Proof.
  induction l as [|x l IH]; cbn [list_to_set length]; [by rewrite size_empty|]. rewrite size_union_alt, size_singleton.
  assert (size ((list_to_set l : gset Z) ∖ {[x]}) <= size (list_to_set l : gset Z))%nat by (apply subseteq_size; set_solver). lia.
Qed.

Definition set_of (f : Z * Z -> option leaf -> list Z) (O : overlay) : gset Z := list_to_set (map_to_list O ≫= (fun y => f y.1 y.2)).

Lemma set_of_spec f O x : x ∈ set_of f O <-> exists y o, O !! y = Some o /\ x ∈ f y o.
Proof.
  unfold set_of. rewrite elem_of_list_to_set, list_elem_of_bind. split.
  - intros ([y o] & Hx & Hy). apply elem_of_map_to_list in Hy. by exists y, o.
  - intros (y & o & Hy & Hx). exists (y, o). by rewrite elem_of_map_to_list.
Qed.

Lemma set_of_size f O : (forall y o, (length (f y o) <= 1)%nat) -> (size (set_of f O) <= size O)%nat.
Proof.
  intros Hf. unfold set_of. etrans; [apply size_of_list|]. rewrite <-length_map_to_list. induction (map_to_list O) as [|y l IH]; [done|].
  rewrite bind_cons, length_app. specialize (Hf y.1 y.2). cbn [length]. lia.
Qed.

Definition leaf_page (src : Z) (y : Z * Z) (o : option leaf) : list Z := match o with Some _ => if decide (y.1 = src) then [y.2] else [] | None => [] end.
Definition leaf_pa_of (y : Z * Z) (o : option leaf) : list Z := match o with Some lf => [lf_pa lf] | None => [] end.

Definition src_pages (src : Z) (O : overlay) : gset Z := set_of (leaf_page src) O.
Definition all_frames (O : overlay) : gset Z := set_of leaf_pa_of O.

Lemma src_pages_spec src O p : p ∈ src_pages src O <-> exists lf, O !! (src, p) = Some (Some lf).
Proof.
  unfold src_pages. rewrite set_of_spec. split.
  - intros ([y1 y2] & [lf|] & Hy & Hx); simpl in Hx; [case_decide|]; [|by apply not_elem_of_nil in Hx..]. subst. apply list_elem_of_singleton in Hx as ->. by exists lf.
  - intros [lf Hlf]. exists (src, p), (Some lf). split; [done|]. simpl. rewrite decide_True by done. by apply list_elem_of_singleton.
Qed.

Lemma src_pages_size src O : (size (src_pages src O) <= size O)%nat.
Proof. apply set_of_size. intros y [lf|]; simpl; [case_decide; simpl; lia|lia]. Qed.

Lemma all_frames_size O : (size (all_frames O) <= size O)%nat.
Proof. apply set_of_size. intros y [lf|]; simpl; lia. Qed.

Lemma src_present m O src p : p ∈ src_pages src O <-> present (abs m O) src p.
Proof.
  rewrite src_pages_spec. unfold present. split; [intros [lf Hlf]; eexists; by rewrite (abs_lookup _ _ _ _ Hlf)|].
  intros [u Hu]. unfold abs in Hu. rewrite lookup_fmap in Hu. destruct (O !! _) as [[lf|]|]; try done. by exists lf.
Qed.

Lemma src_clonable S m W F O src p : shows k T A S m W F O -> is_root W src -> no_self m src -> in_user m (us_pages S) src ->
  p ∈ src_pages src O <-> exists lf, O !! (src, p) = Some (Some lf) /\ clonable m p lf = true.
Proof.
  intros HS Hs Hns Hus. rewrite src_pages_spec. split; [|intros (lf & ? & _); by exists lf]. intros [lf Hlf]. exists lf. split; [done|].
  destruct (Hus p) as [Hb Him].
  { rewrite <-(sh_pages _ _ _ _ _ _ _ _ HS). apply src_present, src_pages_spec. by exists lf. }
  destruct (shows_leaf _ _ _ _ _ _ _ _ HS Hs Hlf) as (Hp & Hv & Hu).
  unfold clonable. rewrite Hb, Him, (proj2 (Z.eqb_neq _ _)) by (by eapply Hns). done.
Qed.

Lemma see_inherits m O src dst q N : fork_see src dst O m (src_pages src O) q N ->
  inherits src dst (fun p => present (abs m O) src p /\ p < q) (abs m O) N.
Proof. intros HN x. rewrite HN. case_decide as Hx; [left|right]; rewrite <-src_present; naive_solver. Qed.

Lemma shows_inherit S m W F O src dst Sel m' W' F' O' : shows k T A S m W F O -> inherits src dst Sel (us_pages S) (abs m' O') ->
  space_inv k T A [] [] W' F' O' m' -> (forall o, W' !! (o, 3%nat, 0) = W !! (o, 3%nat, 0)) -> vm_cr3 m' = vm_cr3 m ->
  sim k T A (USys (us_roots S) (us_cur S) (abs m' O')) m'.
Proof.
  intros [S1 S2 S3 S4 S5 S6] Hin HI' Hr Hcr. exists W', F', O'. split; simpl; [done| |by rewrite Hcr|done|done|].
  - intros x. rewrite S2. unfold is_root. by rewrite Hr.
  - intros x Hx. destruct (Hin x) as [(_ & Hp & E)|[_ E]]; [apply (S6 (src, x.2))|apply (S6 x)]; by rewrite <-E.
Qed.

Lemma sim_fork S m src dst n : sim k T A S m -> ev_ok k S m (EvFork src dst n) -> wp (vexec (EvFork src dst n)) (steps S (EvFork src dst n)) m.
Proof.
  intros (W & F & O & HS) (Hs & Hd & Hsk & Hdk & Hsd & Hemp & Hns & Hus & Hlim & Hcow & Hbig). pose proof HS as [S1 S2 S3 S4 S5 S6]. apply S2 in Hs, Hd.
  assert (size (us_pages S) = size O) as Hsz by (rewrite <-S5; unfold abs; by rewrite map_size_fmap).
  pose proof (src_pages_size src O) as HPs. pose proof (all_frames_size O) as HCs.
  simpl. apply wp_bind, (wp_clone_user_pages k T A (all_frames O) [] [] src dst (vm_cr3 m) (if n =? 0 then 256 else n) Hsk Hdk Hsd HT W F O m S1 Hs Hd) with (P := src_pages src O);
    [|by intros p; eapply src_clonable|lia|simpl; change U32_MAX with 4294967295; lia| |done|done|].
  - intros p. assert (~ is_Some (O !! (dst, p))) as Hn by (rewrite <-(shows_own _ _ _ _ _ _ HS), Hemp; by intros []). by apply eq_None_not_Some.
  - split; [lia| |by intros x Hx; apply not_elem_of_nil in Hx]. intros y lf Hy _. apply set_of_spec. exists y, (Some lf). split; [done|]. simpl. by apply list_elem_of_singleton.
  - intros [st c] m' (_ & W' & F' & O' & HI' & Hr' & Hcase) Hcr. apply wp_ret. simpl. exists (USys (us_roots S) (us_cur S) (abs m' O')).
    destruct Hcase as [[Er Hsee]|[q [Er Hsee]]]; injection Er as -> ->; apply see_inherits in Hsee; rewrite S5 in Hsee; split; [|by eapply shows_inherit| |by eapply shows_inherit].
    + constructor; [by intros p; rewrite <-S5, <-src_present|]. intros x.
      assert (forall p, present (us_pages S) src p -> p < 2 ^ 36) as Hlt by (intros p [u Hu]; apply (S6 (src, p)); by eexists).
      destruct (Hsee x) as [(? & [? _] & ?)|[? ?]]; [by left|right]. split; [|done]. naive_solver.
    + eapply us_fork_fail; [|exact Hsee]. intros p. unfold below. rewrite elem_of_filter, <-S5, <-src_present. tauto.
Qed.

(** ** Exit *)
Lemma frames_none (f : leaf -> bool) (R : overlay) : (forall x o, R !! x = Some o -> o = None) -> frames_of f R = [].
Proof.
  intros HR. unfold frames_of. assert (forall y, y ∈ map_to_list R -> y.2 = None) as Hl.
  { intros [x o] Hy. apply elem_of_map_to_list in Hy. by eapply HR. }
  induction (map_to_list R) as [|y l IH]; [done|]. rewrite bind_cons, (Hl y (in_head _ _)). simpl. apply IH. intros z Hz. apply Hl. by right.
Qed.

Lemma wp_destroy_shows S m W F O r (Q : gj_status -> vmm_mem -> Prop) : shows k T A S m W F O -> ev_ok k S m (EvDestroy r) ->
  (forall m' F', shows k T A (USys (us_roots S ∖ {[r]}) (us_cur S) (filter (fun y => y.1.1 <> r) (us_pages S))) m' (tabs_but r W) F' (pages_but r O) -> Q GJ_OK m') ->
  wp (vmm_as_destroy r) Q m.
Proof.
  intros HS (Hr & Hrk & Hrc & Hns & Hus) HQ. pose proof HS as [S1 S2 S3 S4 S5 S6]. apply S2 in Hr.
  assert (forall x o, stays O r !! x = Some o -> o = None) as Hst.
  { intros [x p] o Ho. unfold stays, rmp in Ho. apply map_lookup_filter_Some in Ho as [Ho Hno]. apply of_page in Ho as [Ho Hx]. simpl in Hx, Hno. subst x.
    destruct o as [lf|]; [|done]. destruct (shows_leaf _ _ _ _ _ _ _ _ HS Hr Ho) as (Hp & Hv & Hu). destruct Hno. split; [lia|]. unfold goes.
    rewrite Hus, (proj2 (Z.eqb_neq _ _)); [done|by eapply Hns|]. rewrite <-S5. apply src_present, src_pages_spec. by exists lf. }
  apply (wp_as_destroy k T A [] [] W F O m r Hrk S1 Hr HT). intros F' m' HI Hrg Hab. rewrite !frames_none in HI by done.
  apply (HQ m' F'). split; simpl.
  - exact HI.
  - intros x. rewrite elem_of_difference, not_elem_of_singleton, S2. unfold is_root. rewrite but_tab. simpl. naive_solver.
  - by rewrite (vr_cr3 _ _ Hrg).
  - set_solver.
  - rewrite Hab, <-S5. unfold abs, pages_but. by rewrite map_filter_fmap.
  - intros x [o Hx]. apply map_lookup_filter_Some in Hx as [Hx _]. apply S6. by eexists.
Qed.

Lemma sim_destroy S m r : sim k T A S m -> ev_ok k S m (EvDestroy r) -> wp (vexec (EvDestroy r)) (steps S (EvDestroy r)) m.
Proof.
  intros (W & F & O & HS) Hok. simpl. apply wp_bind, (wp_destroy_shows S m W F O r); [done|done|]. intros m' F' HS'. apply wp_ret.
  eexists. split; [constructor|]. by eexists _, _, _.
Qed.
End Sim.

(** ** Runs *)
Fixpoint vrun (evs : list vev) : prog vmm_mem (list vres) :=
  match evs with
  | [] => pret []
  | ev :: evs' => r <- vexec ev ;; rs <- vrun evs' ;; pret (r :: rs)
  end.

Inductive usteps : usys -> list vev -> list vres -> usys -> Prop :=
| us_nil S : usteps S [] [] S
| us_cons S ev r S1 evs rs S2 : ustep S ev r S1 -> usteps S1 evs rs S2 -> usteps S (ev :: evs) (r :: rs) S2.

(** Every call of a run from [s] respects what a caller has to. *)
Fixpoint respects (k : Z) (T : Z -> option leaf) (A : gset Z) (S : usys) (s : kst vmm_mem) (evs : list vev) : Prop :=
  match evs with
  | [] => True
  | ev :: evs' => ev_ok k S (k_mem s) ev /\
      forall r s' S', vexec ev s = Some (r, s') -> ustep S ev r S' -> sim k T A S' (k_mem s') -> respects k T A S' s' evs'
  end.

Section Runs.
Context (k : Z) (T : Z -> option leaf) (A : gset Z) (HT : forall p lf, T p = Some lf -> lf_u lf = false).

Lemma sim_step S m ev : sim k T A S m -> ev_ok k S m ev ->
  wp (vexec ev) (fun res m' => exists S', ustep S ev res S' /\ sim k T A S' m') m.
Proof.
  destruct ev; intros Hs Hok.
  - by apply sim_create.
  - by apply sim_switch.
  - by apply sim_mmap.
  - by apply sim_any.
  - by apply sim_munmap.
  - by apply sim_protect.
  - by apply sim_store.
  - by apply sim_load.
  - by apply sim_fork.
  - by apply sim_destroy.
Qed.

Lemma sim_run evs : forall S s, sim k T A S (k_mem s) -> respects k T A S s evs ->
  exists rs s' S', vrun evs s = Some (rs, s') /\ usteps S evs rs S' /\ sim k T A S' (k_mem s').
Proof.
  induction evs as [|ev evs IH]; intros S [m t] Hs Hok; cbn [vrun].
  { exists [], (KSt m t), S. split_and!; [done|constructor|done]. }
  destruct Hok as [Hev Hnext]. destruct (sim_step S m ev Hs Hev t) as (r & m1 & t1 & E1 & S1 & Hu & Hs1).
  specialize (Hnext r (KSt m1 t1) S1 E1 Hu Hs1). destruct (IH S1 (KSt m1 t1) Hs1 Hnext) as (rs & s2 & S2 & E2 & Hu2 & Hs2).
  exists (r :: rs), s2, S2. split_and!; [unfold pbind; by rewrite E1, E2|by econstructor|done].
Qed.
End Runs.

(** ** What a process reads *)
Definition observe (m : vmm_mem) (r va i : Z) : option Z :=
  match uaccess (set_cr3 r m) false (word_va va i) with Some p => vphys m !! p | None => None end.

(** The address space an event may change. *)
Definition target (S : usys) (ev : vev) (r : Z) : Prop :=
  match ev with
  | EvCreate | EvSwitch _ | EvLoad _ _ => False
  | EvFork _ dst _ => r = dst
  | EvDestroy r' => r = r'
  | _ => r = us_cur S
  end.

Lemma ustep_other S ev res S' r p : ustep S ev res S' -> ~ target S ev r -> us_pages S' !! (r, p) = us_pages S !! (r, p).
Proof.
  assert (forall n va (o : option upage) N, r <> us_cur S -> uput n (us_cur S) va o N !! (r, p) = N !! (r, p)) as Hput.
  { induction n as [|n IH]; intros va o N Hr; cbn [uput]; [done|]. rewrite IH by done. apply lookup_insert_ne. unfold page_key. congruence. }
  intros Hu Ht. destruct Hu; simpl in *; unfold anon_done, ustored; rewrite ?Hput by done; try done; try (rewrite lookup_insert_ne by congruence; done).
  - destruct (H0 (r, p)) as [(? & _)|[_ ?]]; done.
  - destruct (H0 (r, p)) as [(? & _)|[_ ?]]; done.
  - apply option_eq. intros o. rewrite map_lookup_filter_Some. simpl. naive_solver.
Qed.

Lemma observe_shows k T A S m r va i o :
  sim k T A S m -> r ∈ us_roots S -> page_aligned va = true -> canonical va = true -> 0 <= i < 512 -> us_pages S !! (r, vpage va) = Some o ->
  observe m r va i = match o with Some u => up_words u !! Z.to_nat i | None => None end.
Proof.
  intros (W & F & O & HS) Hr Hal Hcan Hi Ho. destruct (shows_page _ _ _ _ _ _ _ _ _ _ HS Ho) as (o' & Ho' & ->).
  pose proof (sh_inv _ _ _ _ _ _ _ _ HS) as HI. apply (sh_roots _ _ _ _ _ _ _ _ HS) in Hr. pose proof (root_active k T A [] [] W F O m r HI Hr) as Hact.
  pose proof (space_cr3 k T A [] [] W F O m r HI) as HI1. destruct (word_page va i Hal Hi) as (Hm & Hpg & Hc).
  unfold observe, uaccess. fold (addr (vm_cr3 (set_cr3 r m))). rewrite (proj1 Hact), Hc, Hcan. cbn [negb]. destruct o' as [lf|].
  - destruct (own_word k T A [] [] W F O r va lf Hal Ho' _ i HI1 Hact Hi) as (-> & -> & _). rewrite Hm. cbn [negb andb orb].
    destruct (si_leaf _ _ _ _ _ _ _ _ _ HI _ _ Ho') as (_ & _ & Huf). destruct (uf_in _ _ _ _ Huf) as [_ Hin].
    destruct (Hin i Hi) as [w Hw]. change (lf_pa lf + 8 * i) with (slot (lf_pa lf) i). simpl. by rewrite words_lookup, Hw by done.
  - rewrite (si_view _ _ _ _ _ _ _ _ _ HI1) by apply Hact. by rewrite Hpg, Ho'.
Qed.

Lemma ustep_roots S ev res S' r : ustep S ev res S' -> r ∈ us_roots S -> ~ target S ev r -> r ∈ us_roots S'.
Proof. intros Hu Hr Ht. destruct Hu; simpl in *; set_solver. Qed.

(** ** User leaves *)
Section UserLeaf.
Context (k : Z) (T : Z -> option leaf) (A : gset Z) (HT : forall p lf, T p = Some lf -> lf_u lf = false).

Lemma user_leaf S m W F O r p lf : shows k T A S m W F O -> r ∈ us_roots S -> 0 <= p < 2 ^ 36 -> view m r (page_va p) = Some lf -> lf_u lf = true ->
  O !! (r, p) = Some (Some lf).
Proof.
  intros HS Hr Hp Hv Hu. apply (sh_roots _ _ _ _ _ _ _ _ HS) in Hr. rewrite (si_view _ _ _ _ _ _ _ _ _ (sh_inv _ _ _ _ _ _ _ _ HS)) in Hv by done.
  destruct (page_va_ok p Hp) as [Hvp _]. rewrite Hvp in Hv. destruct (O !! (r, p)) as [o|]; simpl in Hv; [by rewrite Hv|].
  by rewrite (HT _ _ Hv) in Hu.
Qed.

Lemma cows_pos (O : overlay) x lf : O !! x = Some (Some lf) -> lf_cow lf = true -> (1 <= cows O (lf_pa lf))%nat.
Proof.
  intros Hx Hc. pose proof (cows_insert O x None (lf_pa lf)) as E. rewrite Hx in E. simpl in E. rewrite Hc, Z.eqb_refl in E. simpl in E. lia.
Qed.

Lemma shows_words S m W F O x u : shows k T A S m W F O -> us_pages S !! x = Some (Some u) -> length (up_words u) = 512%nat.
Proof. intros HS Hu. destruct (shows_page _ _ _ _ _ _ _ _ _ _ HS Hu) as ([lf|] & _ & E); [|done]. injection E as ->. apply words_length. Qed.
End UserLeaf.

(** * The tables of the boot loader, checked by computation, and [vmm_init] on
    them: the state in which only the template exists. *)

(** ** The check *)

(** Entry [i] of the template's table at level [l], position [c]: a table that
    is listed, a 2 MiB page of the kernel, or nothing. *)
Definition entry_check (W : tabs) (k : Z) (l : nat) (c i e : Z) : bool :=
  match l with
  | O => negb (has e PTE_P) || negb (has e PTE_U)
  | S l' =>
      match W !! (k, l', c * 512 + i) with
      | Some t => has e PTE_P && negb (has e PTE_PS) && (addr e =? t)
      | None => negb (has e PTE_P) ||
          (has e PTE_PS && bool_decide (l' = 0%nat) && (addr e mod 2 ^ 21 =? 0) && negb (has e PTE_COW) && negb (has e PTE_U))
      end
  end.

Definition table_check (ph : gmap Z Z) (W : tabs) (k : Z) (x : Z * nat * Z) (t : Z) : bool :=
  let '(r, l, c) := x in
  (r =? k) && (l <=? 3)%nat && (negb (l =? 3)%nat || ((c =? 0) && (t =? k))) &&
  ((l =? 3)%nat || match W !! (r, S l, c / 512) with Some _ => true | None => false end) &&
  (0 <? t) && (t mod GJ_PAGE_SIZE =? 0) && (t <? PMM_LOW_MAX) &&
  forallb (fun i => match ph !! slot t i with Some e => entry_check W k l c i e | None => false end) (seqZ 0 512).

Definition boot_check (ph : gmap Z Z) (k : Z) (W : tabs) : bool :=
  match W !! (k, 3%nat, 0) with Some t => t =? k | None => false end &&
  forallb (fun y => table_check ph W k y.1 y.2) (map_to_list W) && bool_decide (NoDup (map_to_list W).*2).

Section Check.
Context (ph : gmap Z Z) (k : Z) (W : tabs) (Hc : boot_check ph k W = true).

Record good_table (l : nat) (c t : Z) : Prop := MkGood {
  gt_lvl : (l <= 3)%nat;
  gt_top : l = 3%nat -> c = 0 /\ t = k;
  gt_parent : (l < 3)%nat -> is_Some (W !! (k, S l, c / 512));
  gt_pos : 0 < t < PMM_LOW_MAX /\ t mod GJ_PAGE_SIZE = 0;
  gt_ent : forall i, 0 <= i < 512 -> exists e, ph !! slot t i = Some e /\ entry_check W k l c i e = true }.

Lemma check_table r l c t : W !! (r, l, c) = Some t -> r = k /\ good_table l c t.
Proof.
  intros Ht. unfold boot_check in Hc. apply andb_true_iff in Hc as [[_ Hf]%andb_true_iff _].
  pose proof (proj1 (forallb_forall _ _) Hf ((r, l, c), t)) as Hf'. cbn [fst snd] in Hf'.
  assert (table_check ph W k (r, l, c) t = true) as Hk by (apply Hf', list_elem_of_In, elem_of_map_to_list; exact Ht). clear Hf Hf'. unfold table_check in Hk.
  apply andb_true_iff in Hk as [Hk H8]. rewrite !andb_true_iff in Hk. pose proof (proj1 (forallb_forall _ _) H8) as H8'. clear H8. destruct Hk as ((((((H1 & H2) & H3) & H4) & H5) & H6) & H7).
  apply Z.eqb_eq in H1 as ->. apply Nat.leb_le in H2. split; [done|]. split; [done|..].
  - intros ->. simpl in H3. apply andb_true_iff in H3 as [?%Z.eqb_eq ?%Z.eqb_eq]. done.
  - intros Hl. apply orb_true_iff in H4 as [H4|H4]; [apply Nat.eqb_eq in H4; lia|]. destruct (W !! (k, S l, c / 512)); [done|done].
  - lia.
  - intros i Hi. specialize (H8' i ltac:(apply list_elem_of_In, elem_of_seqZ; lia)). cbn beta in H8'.
    destruct (ph !! slot t i) as [e|]; [by exists e|done].
Qed.

Lemma check_root : W !! (k, 3%nat, 0) = Some k.
Proof. unfold boot_check in Hc. destruct (W !! _) as [t|]; [|done]. rewrite !andb_true_iff, Z.eqb_eq in Hc. by destruct Hc as [[-> _] _]. Qed.

Lemma nodup_snd {B} (l : list (B * Z)) x y t : NoDup l.*2 -> (x, t) ∈ l -> (y, t) ∈ l -> x = y.
Proof.
  induction l as [|[z u] l IH]; cbn [fmap list_fmap snd]; [by intros _ Hx%not_elem_of_nil|]. intros [Hn Hd]%NoDup_cons Hx Hy.
  assert (forall w, (w, u) ∈ l -> u ∈ l.*2) as Hu by (intros w Hw; apply list_elem_of_fmap; by exists (w, u)).
  apply elem_of_cons in Hx. apply elem_of_cons in Hy. destruct Hx as [Ex|Hx], Hy as [Ey|Hy]; [congruence| | |by apply IH].
  - assert (t = u) as -> by congruence. by destruct Hn; eapply Hu.
  - assert (t = u) as -> by congruence. by destruct Hn; eapply Hu.
Qed.

Lemma check_pt : pt_ok ph k W.
Proof.
  split.
  - apply check_root.
  - intros r l c t Ht. destruct (check_table r l c t Ht) as [-> [G1 G2 G3 G4 G5]]. split_and!; [done|done|apply check_root].
  - intros r l c t Ht Hl. destruct (check_table r l c t Ht) as [-> [G1 G2 G3 G4 G5]]. by apply G3.
  - intros r l c t i Ht Hi. destruct (check_table r l c t Ht) as [-> [G1 G2 G3 G4 G5]]. destruct (G5 i Hi) as (e & He & Hk). exists e. split; [done|].
    unfold entry_check in Hk. destruct l as [|l]; [done|]. simpl. destruct (W !! (k, l, c * 512 + i)).
    + rewrite !andb_true_iff, negb_true_iff, Z.eqb_eq in Hk. tauto.
    + intros HP. rewrite HP in Hk. simpl in Hk. rewrite !andb_true_iff, !negb_true_iff, bool_decide_eq_true, Z.eqb_eq in Hk.
      destruct Hk as ((((-> & ?) & ?) & ?) & _). done.
  - intros x y t Hx Hy. unfold boot_check in Hc. rewrite !andb_true_iff, bool_decide_eq_true in Hc. destruct Hc as [_ Hd].
    apply (nodup_snd (map_to_list W) x y t); [done|by apply elem_of_map_to_list..].
  - intros [[r l] c] t Ht. destruct (check_table r l c t Ht) as [_ [_ _ _ [_ ?] _]]. done.
Qed.

(** No page of the template can be reached by a process. *)
Lemma check_kernel l t va : W !! (k, l, key l va) = Some t -> (forall lf, hwleaf ph l t va = Some lf -> lf_u lf = false).
Proof.
  revert t. induction l as [|l IH]; intros t Ht lf Hl; destruct (check_table _ _ _ _ Ht) as [_ [G1 G2 G3 G4 G5]]; cbn [hwleaf] in Hl.
  - destruct (G5 (vidx (shift_of 0) va) ltac:(apply (vidx_lvl 0))) as (e & He & Hk). rewrite He in Hl. simpl in Hk.
    destruct (has e PTE_P); [|done]. injection Hl as <-. simpl in *. by apply negb_true_iff.
  - destruct (G5 (vidx (shift_of (S l)) va) ltac:(apply vidx_lvl)) as (e & He & Hk). rewrite He in Hl. simpl in Hk.
    destruct (has e PTE_P) eqn:HP; [|done]. simpl in Hl. rewrite <-key_child in Hk by done. destruct (W !! (k, l, key l va)) as [t'|] eqn:Ht'.
    + rewrite !andb_true_iff, negb_true_iff, Z.eqb_eq in Hk. destruct Hk as [[_ HS] <-]. rewrite HS in Hl. by eapply IH.
    + simpl in Hk. rewrite !andb_true_iff, !negb_true_iff in Hk. destruct Hk as (((HS & _) & _) & HU). rewrite (proj1 HS) in Hl. injection Hl as <-. done.
Qed.
End Check.

(** ** Initialisation *)
Lemma hwleaf_page ph va va' : vpage va = vpage va' -> forall l t, (l <= 3)%nat -> hwleaf ph l t va = hwleaf ph l t va'.
Proof.
  intros Ev. induction l as [|l IH]; intros t Hl; cbn [hwleaf]; destruct (vpage_upper 0 va va' Ev) as [_ E0].
  - by rewrite E0 by lia.
  - destruct (vpage_upper (S l) va va' Ev) as [_ ->]; [|done]. destruct (ph !! _) as [e|]; [|done]. rewrite IH by lia.
    replace (large_pa (S l) e va') with (large_pa (S l) e va); [done|]. unfold large_pa. do 2 f_equal. rewrite !vpage_div in Ev.
    change (2 ^ 12) with 4096. replace (2 ^ 36) with (2 ^ (9 * Z.of_nat (S l)) * 2 ^ (36 - 9 * Z.of_nat (S l))) in Ev by (rewrite <-Z.pow_add_r by lia; f_equal; lia).
    assert (forall x, x mod 2 ^ (9 * Z.of_nat (S l)) = (x mod (2 ^ (9 * Z.of_nat (S l)) * 2 ^ (36 - 9 * Z.of_nat (S l)))) mod 2 ^ (9 * Z.of_nat (S l))) as Hx.
    { intros x. rewrite Z.rem_mul_r by lia. rewrite (Z.mul_comm (2 ^ (9 * Z.of_nat (S l)))), Z.mod_add by lia. by rewrite Z.mod_mod by lia. }
    rewrite (Hx (va / 4096)), (Hx (va' / 4096)). by rewrite Ev.
Qed.

(** The machine that the boot loader and [pmm_init] leave: the tables [W] under
    the root in CR3, the free pages [F] below 4 GiB and no shared frame. *)
Record boots (k : Z) (W : tabs) (F : list Z) (m : vmm_mem) : Prop := MkBoots {
  bt_check : boot_check (vphys m) k W = true;
  bt_cr3 : vm_cr3 m = k;
  bt_pmm : pmm_ok (vm_pmm m) F;
  bt_hhdm : pm_hhdm (vm_pmm m) = false;
  bt_full : forall x i, x ∈ F -> 0 <= i < 512 -> is_Some (vphys m !! slot x i);
  bt_apart : forall x t, W !! x = Some t -> t ∉ F;
  bt_cow : forall i r, g_aCowRef m !! i = Some r -> cr_used r = false }.

(** The pages of the template. *)
Definition template (m : vmm_mem) (p : Z) : option leaf := view m (vm_cr3 m) (page_va p).

Lemma set_hhdm_id p : pm_hhdm p = false -> set_hhdm false p = p.
Proof. destruct p. simpl. by intros ->. Qed.

Lemma refs_empty pa : refs ∅ [] pa = 0%nat.
Proof. done. Qed.

Lemma boots_kernel k W F m : boots k W F m -> forall p lf, template m p = Some lf -> lf_u lf = false.
Proof.
  intros [B1 B2 B3 B4 B5 B6 B7] p lf Hlf. unfold template, view in Hlf. rewrite B2 in Hlf.
  apply (check_kernel (vphys m) k W B1 3 k (page_va p)); [|done]. rewrite key_root. by eapply check_root.
Qed.

Lemma wp_vmm_init k W F m (Q : unit -> vmm_mem -> Prop) : boots k W F m ->
  (forall m', sim k (template m) (list_to_set F) (USys {[k]} k ∅) m' -> vm_cursors m' !! g_pAnonCursor m' = Some GJ_VMM_ANON_BASE ->
     vphys m' = vphys m -> Q tt m') ->
  wp vmm_init Q m.
Proof.
  intros Hb HQ. pose proof Hb as [B1 B2 B3 B4 B5 B6 B7]. pose proof (check_pt _ _ _ B1) as Hpt. pose proof (check_root _ _ _ B1) as Hk.
  destruct (check_table _ _ _ B1 _ _ _ _ Hk) as [_ [_ _ _ [Hkp Hka] _]].
  assert (frame k) as Hfr by (split; [done|]; unfold PMM_LOW_MAX in Hkp; lia).
  unfold vmm_init, read_cr3. wsteps. cbv zeta. rewrite B2. fold (addr k). rewrite (addr_frame k Hfr), set_hhdm_id by done.
  apply HQ; [|simpl; by rewrite lookup_insert_eq|done]. exists W, F, ∅. split; simpl; [|..|done|set_solver|by apply fmap_empty|].
  - apply space_cursors. split; try done.
    + split; try done.
      * intros [[r l] c] t Ht. split; [|by eapply B6]. destruct (check_table _ _ _ B1 _ _ _ _ Ht) as [_ [_ _ _ [Hp Ha] _]].
        split; [lia|done| |left; unfold zone; apply Z.ltb_lt; lia]. unfold PMM_LOW_MAX, PA_MAX, GJ_PAGE_SIZE in *. lia.
      * intros r l c t Ht Hr. by destruct (check_table _ _ _ B1 _ _ _ _ Ht).
    + intros r va Hr. destruct (check_table _ _ _ B1 _ _ _ _ Hr) as [-> _]. rewrite lookup_empty. simpl. unfold template, view. rewrite B2.
      apply hwleaf_page; [|done]. symmetry. apply page_va_ok, vpage_range.
    + split.
      * intros i r Hi Hu. by rewrite (B7 i r Hi) in Hu.
      * intros i j r r' Hi _ Hu. by rewrite (B7 i r Hi) in Hu.
      * intros pa Hpa. rewrite refs_empty in Hpa. lia.
    + intros pa Hpa. by apply not_elem_of_nil in Hpa.
    + apply NoDup_nil_2.
    + intros x Hx. by apply not_elem_of_nil in Hx.
    + intros x Hx. left. by apply elem_of_list_to_set in Hx.
  - intros x. rewrite elem_of_singleton. unfold is_root. split; [by intros ->|]. intros Hx. by destruct (check_table _ _ _ B1 _ _ _ _ Hx).
  - intros x [o Hx]. by rewrite lookup_empty in Hx.
Qed.
