(* ===== verification/VmmClaims.v ===== *)
(** The properties of virtual memory, with witnesses. *)
From stdpp Require Import base gmap list strings.
From Stdlib Require Import ZArith Lia.
From S2P Require Import Prelude CapTypes Pmm PmmInv PmmOps PmmBoot PmmSelf PmmSys Vmm VmmTables VmmEntry VmmWalks VmmOps VmmSpace VmmUser VmmAnon VmmFork VmmDestroy VmmSys.







(** ** A machine *)

(** The loader's tables: 2 GiB in pages of 2 MiB, and 24 free pages at 4 MiB. *)
Definition dk : Z := 0x101000.
Definition dtabs : tabs := list_to_map [((dk, 3%nat, 0), dk); ((dk, 2%nat, 0), 0x102000); ((dk, 1%nat, 0), 0x103000); ((dk, 1%nat, 1), 0x104000)].
Definition page_words (x : Z) (f : Z -> Z) : list (Z * Z) := (fun i => (slot x i, f i)) <$> seqZ 0 512.
Definition dregions : list gj_mem_region := [MkRegion 0x400000 (24 * 4096)].
Definition dphys : gmap Z Z :=
  <[dk := 0x102003]> (<[0x102000 := 0x103003]> (<[0x102008 := 0x104003]> (list_to_map (
    page_words dk (fun _ => 0) ++ page_words 0x102000 (fun _ => 0) ++
    page_words 0x103000 (fun i => i * 0x200000 + 131) ++ page_words 0x104000 (fun i => 0x40000000 + i * 0x200000 + 131) ++
    (map_low dregions ≫= fun x => page_words x (fun _ => 0)))))).
Definition dpmm0 : pmm_mem := MkPmm [] [] [] 0 0 0 0 0 (0, 0) (0, 0) [] false false dphys.
Definition dpmm : pmm_mem := match pmm_init true dregions 0x100000 0x200000 (KSt dpmm0 ∅) with Some (_, s) => k_mem s | None => dpmm0 end.
Definition dvm : vmm_mem := MkVmm dpmm dk false false false None 0 (replicate 256 (MkCowRef 0 0 false)) ∅ 0 (0x100000, 0x200000) [].
Definition dfree : list Z := managed (pmm_reset 0x100000 0x200000 dpmm0) dregions false.

Lemma dboot_ok : boot_ok dpmm0 dregions 0x100000 0x200000.
Proof.
  split.
  - vm_compute. split; [split|]; congruence.
  - repeat constructor; vm_compute; congruence.
  - apply (bool_decide_unpack _). vm_compute. exact I.
  - assert (Forall (fun x => is_Some (pm_phys dpmm0 !! x) /\ is_Some (pm_phys dpmm0 !! (x + 8)))
      (map_low dregions ++ map_high (pend [] dregions))) as H.
    { apply (bool_decide_unpack _). vm_compute. exact I. }
    by rewrite Forall_forall in H.
Qed.

Lemma dpmm_ok : pmm_ok dpmm dfree.
Proof.
  destruct (wp_pmm_init dpmm0 dregions 0x100000 0x200000 true dboot_ok ∅) as (u & m1 & t1 & E & Hi).
  assert (g_fHighReleased dpmm = false) as Hd by (vm_compute; reflexivity).
  assert (dpmm = m1) as Em by (unfold dpmm; rewrite E; reflexivity). rewrite Em in Hd |- *. clear E Em.
  destruct (iv_own _ _ _ _ Hi) as (F & Hok & HF). rewrite app_nil_r, Hd in HF. exact (pmm_ok_perm m1 F _ HF Hok).
Qed.

Lemma forallb_in {B} (f : B -> bool) l x : forallb f l = true -> x ∈ l -> f x = true.
Proof. intros H Hx. by apply (proj1 (forallb_forall f l) H), list_elem_of_In. Qed.

Lemma forallb_map (f : (Z * nat * Z) * Z -> bool) (M : tabs) x t : forallb f (map_to_list M) = true -> M !! x = Some t -> f (x, t) = true.
Proof. intros H Hx. apply (forallb_in f _ _ H). by apply elem_of_map_to_list. Qed.

Lemma dfull_check : forallb (fun x => forallb (fun i => bool_decide (is_Some (vphys dvm !! slot x i))) (seqZ 0 512)) dfree = true.
Proof. vm_compute. reflexivity. Qed.
Lemma dfull x i : x ∈ dfree -> 0 <= i < 512 -> is_Some (vphys dvm !! slot x i).
Proof.
  intros Hx Hi. pose proof (forallb_in _ _ _ dfull_check Hx) as H1. cbn beta in H1.
  assert (i ∈ seqZ 0 512) as Hs by (apply elem_of_seqZ; lia). pose proof (forallb_in _ _ _ H1 Hs) as H2. cbn beta in H2. by apply bool_decide_eq_true in H2.
Qed.

Lemma dapart_check : forallb (fun y : (Z * nat * Z) * Z => bool_decide (y.2 ∉ dfree)) (map_to_list dtabs) = true.
Proof. vm_compute. reflexivity. Qed.
Lemma dapart x t : dtabs !! x = Some t -> t ∉ dfree.
Proof. intros Hx. exact (bool_decide_eq_true_1 _ (forallb_map _ _ _ _ dapart_check Hx)). Qed.

Lemma dcheck : boot_check (vphys dvm) dk dtabs = true.
Proof. vm_compute. reflexivity. Qed.

Lemma dhhdm : pm_hhdm dpmm = false.
Proof. vm_compute. reflexivity. Qed.

Lemma dcow i r : g_aCowRef dvm !! i = Some r -> cr_used r = false.
Proof. cbn [g_aCowRef dvm]. intros Hi. apply lookup_replicate in Hi as [-> _]. done. Qed.

Lemma dboots : boots dk dtabs dfree dvm.
Proof. exact (MkBoots dk dtabs dfree dvm dcheck eq_refl dpmm_ok dhhdm dfull dapart dcow). Qed.

(** ** A run: mapping, fork, a store by the parent, and exit *)
Definition dparent : Z := 4259840.
Definition dchild : Z := 4280320.
Definition dva : Z := 0x40000000.
Definition devs : list vev :=
  [EvCreate; EvSwitch dparent; EvMmap dva 4096 3; EvStore dva 5 77; EvCreate; EvFork dparent dchild 0; EvStore dva 5 78; EvLoad dva 5;
   EvSwitch dchild; EvLoad dva 5; EvDestroy dparent].
Definition dres : list vres :=
  [RAddr dparent; RUnit; RAddr dva; RDone true; RAddr dchild; RFork GJ_OK 1; RDone true; RWord (Some 78); RUnit; RWord (Some 77); RStat GJ_OK].

(** The child still reads what the parent had when it forked; when both have
    exited the 24 pages are free again. *)
Example vmm_demo_run :
  (fst <$> (vmm_init ;;; rs <- vrun devs ;; s2 <- vrun [EvSwitch dk; EvDestroy dchild] ;; m <- pget ;; pret (rs, pmm_free_count (vm_pmm m))) (KSt dvm ∅)) =
  Some (dres, 24).
Proof. vm_compute. reflexivity. Qed.

Definition nxt (ev : vev) (s : kst vmm_mem) : kst vmm_mem := match vexec ev s with Some (_, s') => s' | None => s end.
Definition res (ev : vev) (s : kst vmm_mem) : vres := match vexec ev s with Some (r, _) => r | None => RUnit end.

Lemma exec_nxt ev s r s' : vexec ev s = Some (r, s') -> r = res ev s /\ s' = nxt ev s.
Proof. intros E. unfold res, nxt. rewrite E. done. Qed.

(** A process with a single page. *)
Lemma one_page k T A S m r p0 lf0 : (forall p lf, T p = Some lf -> lf_u lf = false) -> sim k T A S m -> r ∈ us_roots S ->
  (forall p, is_Some (us_pages S !! (r, p)) -> p = p0) -> view m r (page_va p0) = Some lf0 -> lf_pa lf0 <> page_va p0 -> no_self m r.
Proof.
  intros HT (W & F & O & HS) Hr H1 Hv0 Hne p lf Hp Hv Hu. pose proof (user_leaf k T A HT _ _ _ _ _ _ _ _ HS Hr Hp Hv Hu) as Ho.
  assert (p = p0) as -> by (apply H1, (shows_own _ _ _ _ _ _ _ _ _ HS); by eexists). congruence.
Qed.

Abbreviation dstart := (match vmm_init (KSt dvm ∅) with Some (_, s) => s | None => KSt dvm ∅ end).
Definition dstate (n : nat) : kst vmm_mem := fold_left (fun s ev => nxt ev s) (take n devs) dstart.
Definition dpage : Z := 262144.

(** The duties of the run, state by state. *)
Lemma d_map : map_ok (USys {[dparent; dk]} dparent ∅) (k_mem (dstate 2)) dva 1 3.
Proof.
  split; [reflexivity|reflexivity|vm_compute; congruence| | |].
  - intros j Hj. cbn [us_pages]. by rewrite lookup_empty.
  - intros j Hj. assert (j = 0%nat) as -> by lia. vm_compute. reflexivity.
  - split; vm_compute; congruence.
Qed.

Lemma dstate_S n ev : devs !! n = Some ev -> nxt ev (dstate n) = dstate (S n).
Proof. intros Hn. unfold dstate. by rewrite (take_S_r devs n ev), fold_left_app. Qed.

Definition dA : gset Z := list_to_set dfree.
#[local] Opaque dstate template dA dvm.

Abbreviation dsim S n := (sim dk (template dvm) dA S (k_mem (dstate n))).
Abbreviation droots := ({[dchild]} ∪ ({[dparent]} ∪ {[dk]}) : gset Z).

(** Properties of the states of the run that a call establishes. *)
Definition dforward (G : usys -> nat -> Prop) : Prop :=
  forall n ev S, devs !! n = Some ev -> dsim S n -> ev_ok dk S (k_mem (dstate n)) ev ->
    (forall S', ustep S ev (res ev (dstate n)) S' -> dsim S' (Datatypes.S n) -> G S' (Datatypes.S n)) -> G S n.

(** The next state of the run, and what the call returned there. *)
Ltac dnext HG n v := let R := fresh "R" in let S' := fresh "S" in
  eapply (HG n); [reflexivity|match goal with H : dsim _ n |- _ => exact H end| |
    intros S'; match goal with |- ustep _ ?ev _ _ -> _ => assert (res ev (dstate n) = v) as R by (vm_compute; reflexivity) end;
    rewrite R; clear R; let Hu := fresh "Hu" in intros Hu ?; inversion Hu; clear Hu; subst; cbn [us_roots us_cur us_pages] in *].

Abbreviation drespects S n := (respects dk (template dvm) dA S (dstate n) (drop n devs)).

Lemma d_user i : 0 <= i < 512 -> forall S, is_Some (us_pages S !! (us_cur S, dpage)) -> user_word S dva i.
Proof. intros Hi S HS. split_and!; [reflexivity|reflexivity|lia|lia|exact HS]. Qed.

(** The page after [mmap] and the first store. *)
Definition dpage1 : upage := UPage (<[5%nat := 77]> zero_words) true true.
Definition dpages1 : uspace := {[(dparent, dpage) := Some dpage1]}.

Lemma d_fork S : us_pages S = dpages1 -> us_roots S = droots -> dsim S 5 ->
  ev_ok dk S (k_mem (dstate 5)) (EvFork dparent dchild 0).
Proof.
  intros Hp Hr Hs. unfold ev_ok. rewrite Hp, Hr.
  assert (forall p, is_Some (us_pages S !! (dparent, p)) -> p = dpage) as H1.
  { intros p [o Ho]. rewrite Hp in Ho. unfold dpages1 in Ho. apply lookup_singleton_Some in Ho as [E _]. congruence. }
  split_and!; [set_solver|set_solver|vm_compute; congruence..| | | | | |].
  - intros p. unfold dpages1. apply lookup_singleton_ne. intros E. injection E as E _. vm_compute in E. congruence.
  - eapply (one_page _ _ _ S _ _ dpage); [by eapply boots_kernel, dboots|exact Hs|rewrite Hr; set_solver|exact H1|vm_compute; reflexivity|vm_compute; congruence].
  - intros p [u Hu]. assert (p = dpage) as ->. { apply H1. rewrite Hp. by eexists. } split; vm_compute; reflexivity.
  - vm_compute. reflexivity.
  - vm_compute. lia.
  - vm_compute. reflexivity.
Qed.

(** After the fork. *)
Record dforked (N : uspace) : Prop := MkForked {
  df_parent : forall p, N !! (dparent, p) = dpages1 !! (dparent, p);
  df_child : forall p, N !! (dchild, p) = dpages1 !! (dparent, p) }.

Lemma dpages1_one p : is_Some (dpages1 !! (dparent, p)) -> p = dpage.
Proof. intros [o Ho]. unfold dpages1 in Ho. apply lookup_singleton_Some in Ho as [E _]. congruence. Qed.
Lemma dpages1_here : dpages1 !! (dparent, dpage) = Some (Some dpage1).
Proof. apply lookup_singleton_eq. Qed.

Lemma d_start : dsim (USys {[dk]} dk ∅) 0.
Proof.
  destruct (wp_vmm_init dk dtabs dfree dvm (fun _ m' => sim dk (template dvm) (list_to_set dfree) (USys {[dk]} dk ∅) m') dboots (fun m' H _ _ => H) ∅) as (u & m1 & t1 & E & H).
  assert (dstate 0 = KSt m1 t1) as ->; [|exact H]. change (dstate 0) with dstart. by rewrite E.
Qed.

Lemma d_prefix G : dforward G -> (forall N, dforked N -> dsim (USys droots dparent N) 6 -> G (USys droots dparent N) 6%nat) -> G (USys {[dk]} dk ∅) 0%nat.
Proof.
  intros HG H6. pose proof d_start as H0. dnext HG 0%nat (RAddr dparent). { exact I. } dnext HG 1%nat RUnit. { unfold ev_ok. cbn [us_roots]. set_solver. }
  dnext HG 2%nat (RAddr dva). { split_and!; [vm_compute; congruence|vm_compute; congruence|exact d_map]. }
  set (N1 := anon_done _ _ _ _ _) in *. assert (N1 = {[(dparent, dpage) := Some (UPage zero_words true true)]}) as EN by (vm_compute; reflexivity).
  dnext HG 3%nat (RDone true). { split; [vm_compute; congruence|]. apply d_user; [lia|]. cbn [us_pages us_cur]. rewrite EN, lookup_singleton_eq. by eexists. }
  change (vpage dva) with dpage in *. match goal with H : N1 !! _ = Some (Some ?u) |- _ => rewrite EN, lookup_singleton_eq in H; injection H as <- end.
  assert (ustored N1 (dparent, dpage) 5 77 (UPage zero_words true true) = dpages1) as E1 by (unfold ustored; rewrite EN; apply insert_singleton_eq).
  rewrite E1 in *. dnext HG 4%nat (RAddr dchild). { exact I. } dnext HG 5%nat (RFork GJ_OK 1). { by apply d_fork. }
  match goal with H : inherits _ _ _ _ _ |- _ => rename H into Hin end. apply H6; [|done]. split; intros p.
  - destruct (Hin (dparent, p)) as [(E & _)|[_ E]]; [vm_compute in E; congruence|exact E].
  - destruct (Hin (dchild, p)) as [(_ & _ & E)|[E ->]]; [exact E|]. destruct (dpages1 !! (dparent, p)) as [o|] eqn:Eo.
    + assert (p = dpage) as -> by (apply dpages1_one; by eexists). rewrite dpages1_here in Eo. destruct E. split; [reflexivity|]. by exists dpage1.
    + apply lookup_singleton_ne. intros Ex. injection Ex as Ex _. vm_compute in Ex. congruence.
Qed.

Lemma respects_forward : dforward (fun S n => respects dk (template dvm) dA S (dstate n) (drop n devs)).
Proof.
  intros n ev S Hn _ Hok Hnext. rewrite (drop_S devs ev n Hn). split; [done|]. intros r s' S' E Hu Hs. apply exec_nxt in E as [-> ->].
  rewrite (dstate_S n ev Hn) in *. by apply Hnext.
Qed.

Lemma d_tail N : dforked N -> dsim (USys droots dparent N) 6 -> drespects (USys droots dparent N) 6.
Proof.
  intros [D1 D2] H6. pose proof respects_forward as HG. assert (N !! (dparent, dpage) = Some (Some dpage1)) as Hpar by (rewrite D1; apply dpages1_here).
  assert (N !! (dchild, dpage) = Some (Some dpage1)) as Hchi by (rewrite D2; apply dpages1_here).
  dnext HG 6%nat (RDone true). { split; [vm_compute; congruence|]. apply d_user; [lia|]. cbn [us_pages us_cur]. rewrite Hpar. by eexists. }
  change (vpage dva) with dpage in *. match goal with H : N !! _ = Some (Some ?u) |- _ => rewrite Hpar in H; injection H as <- end.
  set (N' := ustored _ _ _ _ _) in *. assert (is_Some (N' !! (dparent, dpage))) as Hp' by (unfold N', ustored; rewrite lookup_insert_eq; by eexists).
  assert (N' !! (dchild, dpage) = Some (Some dpage1)) as Hc'.
  { unfold N', ustored. rewrite lookup_insert_ne; [done|]. intros E. injection E as E. vm_compute in E. congruence. }
  dnext HG 7%nat (RWord (Some 78)). { split; [vm_compute; congruence|]. apply d_user; [lia|]. exact Hp'. }
  dnext HG 8%nat RUnit. { unfold ev_ok. cbn [us_roots]. set_solver. }
  dnext HG 9%nat (RWord (Some 77)). { split; [vm_compute; congruence|]. apply d_user; [lia|]. cbn [us_pages us_cur]. rewrite Hc'. by eexists. }
  assert (forall p, is_Some (N' !! (dparent, p)) -> p = dpage) as Hone.
  { intros p Hp. unfold N', ustored in Hp. apply lookup_insert_is_Some in Hp as [E|[_ Hp]]; [congruence|]. rewrite D1 in Hp. by apply dpages1_one. }
  dnext HG 10%nat (RStat GJ_OK); [|exact I]. split_and!; [cbn [us_roots]; set_solver|vm_compute; congruence|vm_compute; congruence| |].
  - eapply (one_page _ _ _ _ _ _ dpage); [by eapply boots_kernel, dboots|eassumption|cbn [us_roots]; set_solver|exact Hone|vm_compute; reflexivity|vm_compute; congruence].
  - intros p [up Hup]. rewrite (Hone p) by (by eexists). reflexivity.
Qed.

Lemma d_respects : respects dk (template dvm) dA (USys {[dk]} dk ∅) (dstate 0) devs.
Proof. exact (d_prefix (fun S n => respects dk (template dvm) dA S (dstate n) (drop n devs)) respects_forward d_tail). Qed.

(** A state with a shared frame. *)
Lemma d_shared : exists N, dforked N /\ dsim (USys droots dparent N) 6.
Proof.
  apply (d_prefix (fun _ _ => exists N, dforked N /\ dsim (USys droots dparent N) 6)); [|intros N HN Hs; by exists N].
  intros n ev S Hn Hs Hok Hnext. destruct (dstate n) as [m t] eqn:Es. simpl in Hs, Hok.
  destruct (sim_step dk (template dvm) dA (boots_kernel _ _ _ _ dboots) S m ev Hs Hok t) as (r & m1 & t1 & E & S' & Hu & Hs').
  apply exec_nxt in E as [-> E]. rewrite <-Es, (dstate_S n ev Hn) in E. apply (Hnext S'); [done|]. by rewrite <-E.
Qed.







(** ** Outside the duties *)
Definition seen (m : vmm_mem) (r va : Z) : option Z * bool * bool :=
  (lf_pa <$> view m r va, hwperm PTE_U (vphys m) 3 r va, hwperm PTE_W (vphys m) 3 r va).

(** The duties of the callers are needed, since the calls do not check
    them.  [vmm_protect_page] at an address that the process never mapped gives
    it a page of physical memory of its choice; [vmm_munmap] at such an address
    frees the page there, even the process's own root table, which the allocator
    then hands out; and [vmm_protect_page] on a page shared by fork makes the
    parent's store visible to the child. *)
Example vmm_duties_needed :
  (fst <$> (st <- vmm_protect_page 0x40200000 (Z.lor GJ_VMM_PROT_USER GJ_VMM_PROT_WRITE) ;; m <- pget ;;
     pret (st, seen m dparent 0x40200000)) (dstate 3)) = Some (GJ_OK, (Some 0x40200000, true, true)) /\
  (fst <$> (st <- vmm_munmap dparent 4096 ;; a <- on_pmm pmm_alloc ;; m <- pget ;; pret (st, a, vm_cr3 m)) (dstate 2)) =
    Some (GJ_OK, dparent, dparent) /\
  (fst <$> (a <- user_load (word_va dva 5) ;; st <- vmm_protect_page dva (Z.lor GJ_VMM_PROT_USER GJ_VMM_PROT_WRITE) ;;
     ok <- user_store dparent (word_va dva 5) 99 ;; load_cr3 dchild ;;; b <- user_load (word_va dva 5) ;; pret (a, st, ok, b)) (dstate 6)) =
    Some (Some 77, GJ_OK, true, Some 99).
Proof. vm_compute. split_and!; reflexivity. Qed.
